(* ===== verification/_CoqProject ===== *)
-Q . S2P
Prelude.v
RstpTypes.v
Rstp.v
RstpFrame.v
RstpSteps.v
RstpWorld.v
RstpInv.v
RstpWire.v
RstpRoles.v
RstpConfig.v
RstpCli.v
TimerIface.v
Timer.v
TimerWheel.v
TimerProps.v
RbTree.v
RbShape.v
RbInsert.v
RbErase.v
RbProps.v
TimerTree.v
Fault.v
Stream.v
StreamProps.v
DList.v
PoolIface.v
Pool.v
PoolProps.v
Hash.v
HashRefine.v
HashWalk.v
StpTypes.v
Stp.v
StpFrame.v
StpSelect.v
StpInv.v
StpRoot.v
StpWire.v
StpWorld.v
StpCli.v
Fdb.v
FdbProps.v
FdbStp.v
Vlan.v
VlanProps.v
MsgQueue.v
StpMgr.v
OspfTable.v
OspfLsa.v
OspfLsaProps.v
OspfVertex.v
OspfRoute.v
OspfSpf.v
OspfSpfGraph.v
OspfSpfRead.v
OspfQueue.v
OspfSpfHops.v
OspfSpfInv.v
OspfSpfRun.v
OspfSpfLoop.v
OspfSpfRoutes.v
OspfSpfTree.v
OspfSpfStubs.v
OspfSpfProps.v
OspfNbr.v
OspfAdj.v
OspfElect.v
OspfLan.v
OspfAdjMem.v
OspfAdjRefs.v
OspfAdjInv.v
OspfAdjIsm.v
OspfAdjNsm.v
OspfAdjIf.v
OspfAdjRecv.v
OspfAdjRun.v
OspfAdjSafe.v
OspfAdjQueue.v
OspfAdjLimits.v
