(* ===== verification/Prelude.v ===== *)
(** * Layer3Switch: a verification library for the control plane

    The repository is a software switch in C (its code is under src/src).  Its layer-2 part runs
    a spanning tree protocol on each VLAN, either the classic one (bridge/stp) or the rapid one
    (bridge/rstp), and learns addresses into a forwarding database (bridge/fdb.c); both
    stand on a small library of timers, red-black trees, lists, message queues, hash tables and memory
    pools (lib).  Its layer-3 part runs OSPF (ospf).
    This development models these parts as Rocq functions and proves what makes them correct.
    Paths below and in the files are relative to src/src unless they start with src/src.

    ** The parts and their files

    - Rapid spanning tree.  RstpTypes.v has the structures of bridge/rstp/bridgestp.h
      ([bstp_port], [bstp_state]) and Rstp.v one definition per function of bridgestp.c, under its C name,
      on the state of one bridge instance; the frames sent are collected in the state.
      RstpWorld.v has the list of the instances and the functions the switch calls, RstpCli.v the
      commands of rstp_cli.c.  RstpFrame.v and RstpSteps.v reduce every operation to
      elementary updates of the fields a property tracks.  RstpInv.v: in all states the calls reach
      a port without an active role discards, the transmission counter is bounded, the topology change machine
      stays idle.  RstpRoles.v: the assignment of the roles meets the table of IEEE 802.1D.
      RstpWire.v: order of the priority vectors, BPDU round trip, timers, and the mutual recursion of
      the transmission functions.  RstpConfig.v: the setters.

    - Spanning tree.  StpTypes.v and Stp.v model bridge/inc/stp_info.h and the functions of stp_main.c,
      stp_if.c, stp_timer.c and llc.c on one instance; a dereferenced NULL pointer is recorded in the state.
      They use the timers through the classes of TimerIface.v.  StpFrame.v and StpSelect.v have the frame
      conditions and the selection of the port states, StpInv.v the invariants of the reachable
      states, StpRoot.v the choice of the root port as a minimum of an order, StpWire.v identifiers,
      BPDUs and the hold timer.  StpWorld.v has the list of the instances and the theorem that
      they do not disturb each other.

    - Timers.  TimerIface.v is the interface ([TimerService], [TimerLaws]) with a reference implementation;
      Timer.v models the four wheels of lib/tmr_init.c, update.c and btm_hlf.c, the trees being the
      sequences of their nodes in the order of the keys.  TimerWheel.v computes the tick a timer
      expires at, TimerProps.v shows that the wheels implement the interface.

    - Red-black trees.  RbTree.v is lib/rbtree.c and inc/rbtree.h on a memory of nodes, in a monad in which an
      access to an address without a node fails; RbShape.v the trees such a memory represents; RbInsert.v,
      RbErase.v and RbProps.v insertion, erasure, traversal, replacement and height.  TimerTree.v
      has [timer_add], [timer_del] and [timer_tree_walk] of update.c on these trees and proves that they
      refine the operations on sequences of Timer.v.

    - Memory pools and hash tables.  Fault.v is the monad of functions that can fault.  Pool.v models lib/mem_main.c,
      PoolIface.v states what its clients rely on ([BlockPool], [BlockPoolLaws]), PoolProps.v has the
      reachable states.  Hash.v models lib/hashlib.c over that interface, HashRefine.v proves that
      a table implements a finite map, HashWalk.v treats walks that delete entries.

    - Forwarding database.  Fdb.v models bridge/fdb.c and the hash function of inc/jhash.h on top of hash tables,
      pools and timers; FdbProps.v proves what learning and ageing do to the map from addresses to entries;
      FdbStp.v combines it with the spanning tree.

    - VLANs and the manager task.  DList.v models the circular lists of inc/list.h.  Vlan.v models vlan/vlan_main.c and the
      functions of vlan_stp.c that start and stop a protocol on a VLAN, on the instances of both protocols; VlanProps.v has
      the invariant of the whole switch.  MsgQueue.v models lib/msg_queue.c and StpMgr.v bridge/stpmgr_main.c, with the
      theorem that passing the frames and ticks through the queue changes nothing.  StpCli.v has the commands of stp_cli.c.

    - OSPF: advertisements.  OspfTable.v is the interface of the prefix tables, OspfLsa.v models the reference counted
      advertisements (LSAs) of ospf/ospf_lsa.c and the databases of ospf_lsdb.c; OspfLsaProps.v shows that a system
      of databases implements maps and that no LSA is used after it is freed.

    - OSPF: shortest paths.  OspfVertex.v, OspfRoute.v and OspfSpf.v model ospf_spf.c and the intra-area part of
      ospf_route.c: the candidate queue, the next hops and both stages of the calculation for one area.
      OspfSpfGraph.v defines the graph of an area and its distances, OspfSpfRead.v what the code reads from the LSAs, OspfQueue.v
      the queue as a sorted sequence, OspfSpfHops.v, OspfSpfInv.v, OspfSpfRun.v and OspfSpfLoop.v the invariant of the main loop,
      OspfSpfRoutes.v, OspfSpfTree.v and OspfSpfStubs.v the routing tables it fills; OspfSpfProps.v states the result: the tree has
      exactly the reachable vertices with their distances and all next hops of shortest paths, and the
      tables have the best route of each destination.

    - OSPF: neighbours and interfaces.  OspfNbr.v has the neighbours, their lists and an interface with its queues,
      OspfAdj.v both state machines, the timers, the event queue and the packets that form adjacencies (ospf_nsm.c, ospf_ism.c,
      ospf_neighbor.c and the corresponding parts of ospf_packet.c, ospf_interface.c and ospfd.c).  OspfElect.v: the election of the
      designated router meets RFC 2328; OspfLan.v: the routers of a network agree on the result.
      OspfAdjMem.v and OspfAdjRefs.v follow the pointers and the reference counts through the lists, OspfAdjInv.v defines the invariant of an
      interface; OspfAdjIsm.v, OspfAdjNsm.v, OspfAdjIf.v, OspfAdjRecv.v and OspfAdjRun.v show that the events, the
      received packets and the timers run to their end and preserve it.  OspfAdjSafe.v creates interfaces, defines
      the reachable states and states the results; OspfAdjQueue.v shows that the queue of updates drains; OspfAdjLimits.v
      has the inputs that its assumptions exclude.

    This file has the C integers, the byte order, record updates, and the lemmas the others share.

    ** How the code is modelled

    A pointer to a structure of a list is an index into a function or map that holds the structures; NULL is
    [None] or 0.  An integer is a [Z] with the wrap-around of its width written out where the code can
    overflow.  Code outside src/ (the C library, the interfaces of the machine) is an argument: the operational state and the
    addresses of the ports ([bstp_env], [stp_env]), what [malloc] and [calloc] return, the seconds
    of the clock.  Locks, printing and the tasks that call the functions are left out.

    ** Bounds and fuel

    The recursion between [bstp_transmit] and [bstp_hello_timer_expiry] is unrolled twice, which RstpWire.v
    proves to be enough.  [process_timers] has fuel for one more round than the tree has nodes.
    The loops of the red-black trees and of the hash chains run on fuel; the theorems about them hold for any
    fuel above the number of the nodes, and the hash functions take that number from the memory, so that
    their success is proved outright.  The theorems about the wheels assume that the 32-bit clocks do not
    wrap within the time considered.  Which of several timers with one key a search finds is a parameter
    of Timer.v; TimerTree.v shows that the search in the tree is one such choice.
    The main loop of the shortest path calculation has fuel for one round per LSA of the area and the walk over
    the tree for a depth of the number of its vertices, which is proved to be enough; an area has at most 32767
    LSAs, the range of the indices in the candidate queue.  These theorems assume links of positive cost without
    TOS metrics, no virtual link outside the backbone, and tables that are empty at the start ([spf_ready], [area_wf]).
    The events of the interface and neighbour machines of OSPF call each other; the nesting is cut off at 3 and 2 levels, and
    the theorems show that it is never reached.  They assume an MTU of at most the maximal packet
    size, LSAs that fit into a packet, packets that were sent by other routers, and that the rest of the daemon keeps the
    reference counts right ([mtu_ok], [lsas_ok], [enabled], [reach_rest]).

    ** What is not modelled

    The commands that print, the start-up code, VRRP, interface management, ARP, IPv4 and UDP, the rest of OSPF
    (flooding, the origination of LSAs, inter-area and external routes, configuration), and the other
    third-party sources the repository carries along (the routing table, ISC DHCP, the command line parser).  PROJECT.json lists them with reasons. *)

From stdpp Require Export base tactics list functions numbers option.
From Stdlib Require Export ZArith Lia.

(** ** C integers

    A C object of an unsigned type of [w] bits is a [Z] in [0, 2^w); a
    conversion to the type is the reduction modulo [2^w].  Signed [int] objects
    are kept as [Z]. *)

Declare Scope c_scope.
Delimit Scope c_scope with c.
Open Scope c_scope.
Open Scope Z_scope.

Definition u8 (z : Z) : Z := z mod 2 ^ 8.
Definition u16 (z : Z) : Z := z mod 2 ^ 16.
Definition u32 (z : Z) : Z := z mod 2 ^ 32.
Definition u64 (z : Z) : Z := z mod 2 ^ 64.

(** Conversion to a 32-bit two's complement [int]. *)
Definition s32 (z : Z) : Z := (z + 2 ^ 31) mod 2 ^ 32 - 2 ^ 31.

(** The truth value of a C scalar, and the [int] value of a C comparison. *)
Definition tst (z : Z) : bool := negb (z =? 0).
Definition bit (b : bool) : Z := if b then 1 else 0.

(** [x &= ~m] and [x |= m]. *)
Definition clr (x m : Z) : Z := Z.land x (Z.lnot m).
Definition orm (x m : Z) : Z := Z.lor x m.

Notation "x &&& y" := (Z.land x y) (at level 40, left associativity) : c_scope.
Notation "x ||| y" := (Z.lor x y) (at level 50, left associativity) : c_scope.
Notation "x !=? y" := (negb (Z.eqb x y)) (at level 70) : c_scope.

(** ** Byte order

    The build targets little-endian Linux hosts: [htons] and [htonl] swap
    bytes, and an integer stored in memory has its low byte first. *)

Definition byte_of (z : Z) (n : Z) : Z := (z ≫ (8 * n)) &&& 255.

Definition bswap16 (z : Z) : Z :=
  (byte_of z 0 ≪ 8) ||| byte_of z 1.

Definition bswap32 (z : Z) : Z :=
  (byte_of z 0 ≪ 24) ||| (byte_of z 1 ≪ 16) ||| (byte_of z 2 ≪ 8) ||| byte_of z 3.

Definition htons (z : Z) : Z := bswap16 (u16 z).
Definition ntohs (z : Z) : Z := bswap16 (u16 z).
Definition htonl (z : Z) : Z := bswap32 (u32 z).
Definition ntohl (z : Z) : Z := bswap32 (u32 z).

(** The bytes of an object of [n] bytes in memory order, and back. *)
Fixpoint le_bytes (n : nat) (z : Z) : list Z :=
  match n with
  | O => []
  | S n' => (z &&& 255) :: le_bytes n' (z ≫ 8)
  end.

Fixpoint le_value (l : list Z) : Z :=
  match l with
  | [] => 0
  | b :: l' => b + 256 * le_value l'
  end.

(** [memcmp] on arrays of bytes: the difference of the first bytes that differ;
    the code uses its sign only. *)
Fixpoint memcmp (a b : list Z) : Z :=
  match a, b with
  | x :: a', y :: b' => if x =? y then memcmp a' b' else x - y
  | _, _ => 0
  end.

(** ** Record update

    [r <| f := v |>] is the record [r] with the field [f] set to [v].  Each
    record of the development has an eta expansion and one instance of
    [Settable] per field that the code assigns; [cbn] reduces a projection of an
    update without unfolding the record. *)

Class Settable {R E : Type} (f : R → E) := set_fld : E → R → R.
Arguments set_fld {R E} f {_} v r.

Ltac mk_setter eta :=
  lazymatch goal with
  | |- @Settable ?R ?E ?f =>
      let v := fresh "v" in
      let r := fresh "r" in
      intros v r;
      let t := eval cbv beta delta [eta] in (eta r) in
      let t' := eval pattern (f r) in t in
      lazymatch t' with
      | ?g _ => let b := eval cbv beta in (g v) in exact b
      end
  end.

Notation "r <| f := v |>" := (set_fld f v r)
  (at level 1, left associativity, f at level 10, v at level 200,
   format "r <| f  :=  v |>") : c_scope.

(** ** Shared tactics *)

(** Splits every [if] and [match] of the goal, keeping the equations. *)
Ltac split_if :=
  repeat match goal with
  | |- context [if ?b then _ else _] =>
      lazymatch b with
      | context [if _ then _ else _] => fail
      | _ => let E := fresh "E" in destruct b eqn:E
      end
  end.

(** Turns boolean tests of integers in the hypotheses into propositions. *)
Ltac bool_to_prop :=
  repeat match goal with
  | H : _ && _ = true |- _ => apply andb_true_iff in H; destruct H
  | H : _ || _ = false |- _ => apply orb_false_iff in H; destruct H
  | H : negb _ = true |- _ => apply negb_true_iff in H
  | H : negb _ = false |- _ => apply negb_false_iff in H
  | H : (_ =? _)%Z = true |- _ => apply Z.eqb_eq in H
  | H : (_ =? _)%Z = false |- _ => apply Z.eqb_neq in H
  | H : (_ <? _)%Z = true |- _ => apply Z.ltb_lt in H
  | H : (_ <? _)%Z = false |- _ => apply Z.ltb_ge in H
  | H : context [(_ >? _)%Z] |- _ => rewrite Z.gtb_ltb in H
  | H : context [(_ >=? _)%Z] |- _ => rewrite Z.geb_leb in H
  | H : (_ <=? _)%Z = true |- _ => apply Z.leb_le in H
  | H : (_ <=? _)%Z = false |- _ => apply Z.leb_gt in H
  end.

Create HintDb cint.

(** ** Lemmas on C integers *)

Lemma u8_range z : 0 ≤ u8 z < 2 ^ 8.
Proof. apply Z.mod_pos_bound; lia. Qed.
Lemma u16_range z : 0 ≤ u16 z < 2 ^ 16.
Proof. apply Z.mod_pos_bound; lia. Qed.
Lemma u32_range z : 0 ≤ u32 z < 2 ^ 32.
Proof. apply Z.mod_pos_bound; lia. Qed.
Lemma u64_range z : 0 ≤ u64 z < 2 ^ 64.
Proof. apply Z.mod_pos_bound; lia. Qed.

Lemma u8_small z : 0 ≤ z < 2 ^ 8 → u8 z = z.
Proof. apply Z.mod_small. Qed.
Lemma u16_small z : 0 ≤ z < 2 ^ 16 → u16 z = z.
Proof. apply Z.mod_small. Qed.
Lemma u32_small z : 0 ≤ z < 2 ^ 32 → u32 z = z.
Proof. apply Z.mod_small. Qed.

#[export] Hint Resolve u8_range u16_range u32_range u64_range : cint.

(** The range checks of the configuration calls. *)
Lemma range_test {A} (t lo hi : Z) (x y : A) :
  (if (t <? lo) || (t >? hi) then x else y) = if decide (lo ≤ t ≤ hi) then y else x.
Proof.
  rewrite Z.gtb_ltb. destruct (Z.ltb_spec t lo), (Z.ltb_spec hi t); cbn;
    case_decide; done || lia.
Qed.

Lemma tst_true z : tst z = true ↔ z ≠ 0.
Proof. unfold tst. rewrite negb_true_iff, Z.eqb_neq. done. Qed.
Lemma tst_false z : tst z = false ↔ z = 0.
Proof. unfold tst. rewrite negb_false_iff, Z.eqb_eq. done. Qed.

Lemma memcmp_refl l : memcmp l l = 0.
Proof. induction l as [|x l IH]; cbn; [done|]. by rewrite Z.eqb_refl. Qed.

Lemma memcmp_eq a b : length a = length b → memcmp a b = 0 ↔ a = b.
Proof.
  revert b. induction a as [|x a IH]; intros [|y b] Hl; cbn in *; try done.
  destruct (x =? y) eqn:E; bool_to_prop.
  - subst. rewrite IH by lia. split; [by intros ->|by intros [= ->]].
  - split; [lia|]. by intros [= -> _].
Qed.

Lemma memcmp_app a b c d :
  length a = length b →
  memcmp (a ++ c) (b ++ d) = if memcmp a b =? 0 then memcmp c d else memcmp a b.
Proof.
  revert b. induction a as [|x a IH]; intros [|y b] Hl; cbn in *; try done.
  destruct (x =? y) eqn:E; bool_to_prop; [apply IH; lia|].
  assert ((x - y =? 0) = false) as -> by (apply Z.eqb_neq; lia). done.
Qed.

(** [memcmp] is a total order on arrays of one length. *)
Lemma memcmp_opp a b : memcmp b a = - memcmp a b.
Proof.
  revert b. induction a as [|x a IH]; intros [|y b]; cbn; try done.
  rewrite Z.eqb_sym. destruct (x =? y); [done|lia].
Qed.

Lemma memcmp_trans a b c :
  length a = length b → length b = length c →
  memcmp a b ≤ 0 → memcmp b c ≤ 0 → memcmp a c ≤ 0.
Proof.
  revert b c. induction a as [|x a IH]; intros [|y b] [|z c]; cbn; try done.
  intros L1 L2. destruct (x =? y) eqn:E1, (y =? z) eqn:E2, (x =? z) eqn:E3;
    bool_to_prop; try lia. apply IH; lia.
Qed.

(** ** Numbers on the wire *)

Lemma lor_shift_add k x b :
  0 ≤ k → 0 ≤ b < 2 ^ k → (x ≪ k) ||| b = x * 2 ^ k + b.
Proof.
  intros Hk Hb. rewrite <- Z.shiftl_mul_pow2 by done.
  assert (Z.land (x ≪ k) b = 0) as Hl.
  { apply Z.bits_inj'. intros n Hn. rewrite Z.land_spec, Z.bits_0.
    destruct (Z.lt_ge_cases n k).
    - by rewrite Z.shiftl_spec_low.
    - rewrite <- (Z.mod_small b (2 ^ k)) by done.
      by rewrite Z.mod_pow2_bits_high, andb_false_r by lia. }
  by rewrite Z.add_nocarry_lxor, Z.lxor_lor.
Qed.

Lemma lor_mul_add k x b :
  0 ≤ k → 0 ≤ b < 2 ^ k → (x * 2 ^ k) ||| b = x * 2 ^ k + b.
Proof. intros. rewrite <- Z.shiftl_mul_pow2 at 1 by done. by apply lor_shift_add. Qed.

Lemma byte_of_spec z n : 0 ≤ n → byte_of z n = (z / 2 ^ (8 * n)) mod 2 ^ 8.
Proof.
  intros. unfold byte_of. change 255 with (Z.ones 8).
  by rewrite Z.land_ones, Z.shiftr_div_pow2 by lia.
Qed.

Lemma bswap16_spec z : bswap16 z = z mod 2 ^ 8 * 2 ^ 8 + (z / 2 ^ 8) mod 2 ^ 8.
Proof.
  unfold bswap16. rewrite !byte_of_spec by lia. change (2 ^ (8 * 0)) with 1.
  rewrite Z.div_1_r, lor_shift_add; [done|lia|]. apply Z.mod_pos_bound. lia.
Qed.

Lemma lor_shift_shift m k x b :
  m = k + 8 → 0 ≤ k → 0 ≤ b < 2 ^ 8 →
  (x * 2 ^ m) ||| (b ≪ k) = (x * 2 ^ 8 + b) * 2 ^ k.
Proof.
  intros -> Hk Hb. rewrite <- (Z.shiftl_mul_pow2 x) by lia.
  rewrite Z.add_comm, <- Z.shiftl_shiftl by lia. rewrite <- Z.shiftl_lor.
  by rewrite lor_shift_add, Z.shiftl_mul_pow2 by lia.
Qed.

Lemma bswap32_spec z :
  bswap32 z = ((z mod 2 ^ 8 * 2 ^ 8 + (z / 2 ^ 8) mod 2 ^ 8) * 2 ^ 8 +
               (z / 2 ^ 16) mod 2 ^ 8) * 2 ^ 8 + (z / 2 ^ 24) mod 2 ^ 8.
Proof.
  unfold bswap32. rewrite !byte_of_spec by lia. change (2 ^ (8 * 0)) with 1.
  rewrite Z.div_1_r. change (8 * 1) with 8. change (8 * 2) with 16. change (8 * 3) with 24.
  assert (∀ x, 0 ≤ x mod 2 ^ 8 < 2 ^ 8) by (intros; apply Z.mod_pos_bound; lia).
  rewrite (Z.shiftl_mul_pow2 _ 24) by lia.
  rewrite (lor_shift_shift 24 16), (lor_shift_shift 16 8) by auto with lia.
  by rewrite (lor_mul_add 8) by auto with lia.
Qed.

(** A number as its low byte and the rest. *)
Lemma low_byte a b : 0 ≤ b < 2 ^ 8 → (a * 2 ^ 8 + b) mod 2 ^ 8 = b.
Proof. intros. rewrite Z.add_comm, Z.mod_add by lia. by apply Z.mod_small. Qed.

Lemma high_bytes a b m k :
  m = 8 + k → 0 ≤ k → 0 ≤ b < 2 ^ 8 → (a * 2 ^ 8 + b) / 2 ^ m = a / 2 ^ k.
Proof.
  intros -> Hk Hb. rewrite Z.pow_add_r, <- Z.div_div by lia.
  rewrite Z.div_add_l, (Z.div_small b), Z.add_0_r by lia. done.
Qed.

Lemma split_byte z : ∃ a b, z = a * 2 ^ 8 + b ∧ 0 ≤ b < 2 ^ 8.
Proof.
  exists (z / 2 ^ 8), (z mod 2 ^ 8). split; [|apply Z.mod_pos_bound; lia].
  rewrite Z.mul_comm. apply Z.div_mod. lia.
Qed.

Lemma ntohs_htons z : ntohs (htons z) = u16 z.
Proof.
  unfold ntohs, htons. pose proof (u16_range z) as Hy.
  destruct (split_byte (u16 z)) as (a & b & Hz & Hb). rewrite Hz in *.
  assert (0 ≤ a < 2 ^ 8) as Ha by lia.
  rewrite (bswap16_spec (a * _ + _)), (high_bytes a b 8 0), low_byte by lia.
  rewrite Z.div_1_r, (Z.mod_small a) by done. rewrite u16_small by lia.
  rewrite bswap16_spec, (high_bytes b a 8 0), low_byte by lia.
  by rewrite Z.div_1_r, (Z.mod_small b).
Qed.

Lemma ntohl_htonl z : ntohl (htonl z) = u32 z.
Proof.
  unfold ntohl, htonl. pose proof (u32_range z) as Hy.
  destruct (split_byte (u32 z)) as (z1 & b0 & Hz & H0). rewrite Hz in *.
  destruct (split_byte z1) as (z2 & b1 & -> & H1).
  destruct (split_byte z2) as (b3 & b2 & -> & H2).
  assert (0 ≤ b3 < 2 ^ 8) as H3 by lia. clear Hz z.
  assert (∀ c3 c2 c1 c0, 0 ≤ c3 < 2 ^ 8 → 0 ≤ c2 < 2 ^ 8 → 0 ≤ c1 < 2 ^ 8 → 0 ≤ c0 < 2 ^ 8 →
    bswap32 (((c3 * 2 ^ 8 + c2) * 2 ^ 8 + c1) * 2 ^ 8 + c0) =
    ((c0 * 2 ^ 8 + c1) * 2 ^ 8 + c2) * 2 ^ 8 + c3) as Hs.
  { intros. rewrite bswap32_spec, low_byte by done.
    rewrite (high_bytes _ c0 8 0), (high_bytes _ c0 16 8), (high_bytes _ c0 24 16) by lia.
    rewrite Z.div_1_r, low_byte, (high_bytes _ c1 8 0), (high_bytes _ c1 16 8) by lia.
    rewrite Z.div_1_r, low_byte, (high_bytes _ c2 8 0), Z.div_1_r, (Z.mod_small c3) by lia.
    done. }
  rewrite Hs by done. rewrite u32_small by lia. by apply Hs.
Qed.
