(* ===== verification/RstpTypes.v ===== *)
(** * Data of the rapid spanning tree component

    The constants and structures of src/bridge/rstp/bridgestp.h, and the state
    the operations of bridgestp.c work on. *)

From S2P Require Import Prelude.

(** ** Constants *)

(** Port states. *)
Definition BSTP_IFSTATE_DISABLED := 0.
Definition BSTP_IFSTATE_LISTENING := 1.
Definition BSTP_IFSTATE_LEARNING := 2.
Definition BSTP_IFSTATE_FORWARDING := 3.
Definition BSTP_IFSTATE_BLOCKING := 4.
Definition BSTP_IFSTATE_DISCARDING := 5.

(** Topology change states. *)
Definition BSTP_TCSTATE_ACTIVE := 1.
Definition BSTP_TCSTATE_DETECTED := 2.
Definition BSTP_TCSTATE_INACTIVE := 3.
Definition BSTP_TCSTATE_LEARNING := 4.
Definition BSTP_TCSTATE_PROPAG := 5.
Definition BSTP_TCSTATE_ACK := 6.
Definition BSTP_TCSTATE_TC := 7.
Definition BSTP_TCSTATE_TCN := 8.

(** Port roles. *)
Definition BSTP_ROLE_DISABLED := 0.
Definition BSTP_ROLE_ROOT := 1.
Definition BSTP_ROLE_DESIGNATED := 2.
Definition BSTP_ROLE_ALTERNATE := 3.
Definition BSTP_ROLE_BACKUP := 4.

(** Port flags. *)
Definition BSTP_PORT_CANMIGRATE := 0x0001.
Definition BSTP_PORT_NEWINFO := 0x0002.
Definition BSTP_PORT_DISPUTED := 0x0004.
Definition BSTP_PORT_ADMCOST := 0x0008.
Definition BSTP_PORT_AUTOEDGE := 0x0010.
Definition BSTP_PORT_AUTOPTP := 0x0020.
Definition BSTP_PORT_ADMEDGE := 0x0040.
Definition BSTP_PORT_PNDCOST := 0x0080.

(** Classification of a received BPDU. *)
Definition BSTP_PDU_SUPERIOR := 1.
Definition BSTP_PDU_REPEATED := 2.
Definition BSTP_PDU_INFERIOR := 3.
Definition BSTP_PDU_INFERIORALT := 4.
Definition BSTP_PDU_OTHER := 5.

(** BPDU flags. *)
Definition BSTP_PDU_PRMASK := 0x0c.
Definition BSTP_PDU_PRSHIFT := 2.
Definition BSTP_PDU_F_UNKN := 0x00.
Definition BSTP_PDU_F_ALT := 0x01.
Definition BSTP_PDU_F_ROOT := 0x02.
Definition BSTP_PDU_F_DESG := 0x03.
Definition BSTP_PDU_STPMASK := 0x81.
Definition BSTP_PDU_RSTPMASK := 0x7f.
Definition BSTP_PDU_F_TC := 0x01.
Definition BSTP_PDU_F_P := 0x02.
Definition BSTP_PDU_F_L := 0x10.
Definition BSTP_PDU_F_F := 0x20.
Definition BSTP_PDU_F_A := 0x40.
Definition BSTP_PDU_F_TCA := 0x80.

(** Defaults and bounds. *)
Definition BSTP_DEFAULT_MAX_AGE := 20.
Definition BSTP_DEFAULT_HELLO_TIME := 2.
Definition BSTP_DEFAULT_FORWARD_DELAY := 15.
Definition BSTP_DEFAULT_HOLD_TIME := 1.
Definition BSTP_DEFAULT_MIGRATE_DELAY := 3.
Definition BSTP_DEFAULT_HOLD_COUNT := 6.
Definition BSTP_DEFAULT_BRIDGE_PRIORITY := 0x8000.
Definition BSTP_DEFAULT_PORT_PRIORITY := 0x80.
Definition BSTP_MIN_HELLO_TIME := 1.
Definition BSTP_MIN_MAX_AGE := 6.
Definition BSTP_MIN_FORWARD_DELAY := 4.
Definition BSTP_MIN_HOLD_COUNT := 1.
Definition BSTP_MAX_HELLO_TIME := 10.
Definition BSTP_MAX_MAX_AGE := 40.
Definition BSTP_MAX_FORWARD_DELAY := 30.
Definition BSTP_MAX_HOLD_COUNT := 10.
Definition BSTP_MAX_PRIORITY := 61440.
Definition BSTP_MAX_PORT_PRIORITY := 240.
Definition BSTP_MAX_PATH_COST := 200000000.

(** Message types, protocol versions and the origin of a port's information. *)
Definition BSTP_MSGTYPE_CFG := 0x00.
Definition BSTP_MSGTYPE_RSTP := 0x02.
Definition BSTP_MSGTYPE_TCN := 0x80.
Definition BSTP_PROTO_ID := 0x00.
Definition BSTP_PROTO_STP := 0x00.
Definition BSTP_PROTO_RSTP := 0x02.
Definition BSTP_PROTO_MAX := BSTP_PROTO_RSTP.
Definition BSTP_INFO_RECEIVED := 1.
Definition BSTP_INFO_MINE := 2.
Definition BSTP_INFO_AGED := 3.
Definition BSTP_INFO_DISABLED := 4.

Definition BSTP_MESSAGE_AGE_INCR := 1.
Definition BSTP_TICK_VAL := 1.
Definition BSTP_LINK_TIMER := BSTP_TICK_VAL * 15.
Definition BSTP_BPDU_STP_LEN := 3 + 35.
Definition BSTP_BPDU_RSTP_LEN := 3 + 36.

(** Of bridgestp.c and inc/common_types.h. *)
Definition LLC_8021D_LSAP := 0x42.
Definition LLC_UI := 0x3.
Definition INFO_BETTER := 1.
Definition INFO_SAME := 0.
Definition INFO_WORSE := -1.
Definition bstp_etheraddr : list Z := [0x01; 0x80; 0xc2; 0x00; 0x00; 0x00].
Definition IF_UP := 1.
Definition IF_DOWN := 2.

(** ** Structures *)

(** [struct bstp_timer]: the one-second countdown timers of the protocol. *)
Record bstp_timer := mk_timer {
  active : Z;
  latched : Z;
  value : Z
}.

Definition eta_bstp_timer (r : bstp_timer) : bstp_timer :=
  mk_timer (active r) (latched r) (value r).

#[export] Instance set_active : Settable active := ltac:(mk_setter eta_bstp_timer).
#[export] Instance set_latched : Settable latched := ltac:(mk_setter eta_bstp_timer).
#[export] Instance set_value : Settable value := ltac:(mk_setter eta_bstp_timer).

(** [struct bstp_pri_vector]: a spanning tree priority vector. *)
Record bstp_pri_vector := mk_pv {
  pv_root_id : Z;
  pv_dbridge_id : Z;
  pv_cost : Z;
  pv_dport_id : Z;
  pv_port_id : Z
}.

Definition eta_bstp_pri_vector (r : bstp_pri_vector) : bstp_pri_vector :=
  mk_pv (pv_root_id r) (pv_dbridge_id r) (pv_cost r) (pv_dport_id r)
    (pv_port_id r).

#[export] Instance set_pv_root_id : Settable pv_root_id := ltac:(mk_setter eta_bstp_pri_vector).
#[export] Instance set_pv_dbridge_id : Settable pv_dbridge_id := ltac:(mk_setter eta_bstp_pri_vector).
#[export] Instance set_pv_cost : Settable pv_cost := ltac:(mk_setter eta_bstp_pri_vector).
#[export] Instance set_pv_dport_id : Settable pv_dport_id := ltac:(mk_setter eta_bstp_pri_vector).
#[export] Instance set_pv_port_id : Settable pv_port_id := ltac:(mk_setter eta_bstp_pri_vector).

(** [struct bstp_config_unit]: a decoded configuration message. *)
Record bstp_config_unit := mk_cu {
  cu_pv : bstp_pri_vector;
  cu_message_age : Z;
  cu_max_age : Z;
  cu_forward_delay : Z;
  cu_hello_time : Z;
  cu_message_type : Z;
  cu_topology_change_ack : Z;
  cu_topology_change : Z;
  cu_proposal : Z;
  cu_agree : Z;
  cu_learning : Z;
  cu_forwarding : Z;
  cu_role : Z
}.

Definition eta_bstp_config_unit (r : bstp_config_unit) : bstp_config_unit :=
  mk_cu (cu_pv r) (cu_message_age r) (cu_max_age r) (cu_forward_delay r)
    (cu_hello_time r) (cu_message_type r) (cu_topology_change_ack r)
    (cu_topology_change r) (cu_proposal r) (cu_agree r) (cu_learning r)
    (cu_forwarding r) (cu_role r).

#[export] Instance set_cu_pv : Settable cu_pv := ltac:(mk_setter eta_bstp_config_unit).
#[export] Instance set_cu_message_age : Settable cu_message_age := ltac:(mk_setter eta_bstp_config_unit).
#[export] Instance set_cu_max_age : Settable cu_max_age := ltac:(mk_setter eta_bstp_config_unit).
#[export] Instance set_cu_forward_delay : Settable cu_forward_delay := ltac:(mk_setter eta_bstp_config_unit).
#[export] Instance set_cu_hello_time : Settable cu_hello_time := ltac:(mk_setter eta_bstp_config_unit).
#[export] Instance set_cu_message_type : Settable cu_message_type := ltac:(mk_setter eta_bstp_config_unit).
#[export] Instance set_cu_topology_change_ack : Settable cu_topology_change_ack := ltac:(mk_setter eta_bstp_config_unit).
#[export] Instance set_cu_topology_change : Settable cu_topology_change := ltac:(mk_setter eta_bstp_config_unit).
#[export] Instance set_cu_proposal : Settable cu_proposal := ltac:(mk_setter eta_bstp_config_unit).
#[export] Instance set_cu_agree : Settable cu_agree := ltac:(mk_setter eta_bstp_config_unit).
#[export] Instance set_cu_learning : Settable cu_learning := ltac:(mk_setter eta_bstp_config_unit).
#[export] Instance set_cu_forwarding : Settable cu_forwarding := ltac:(mk_setter eta_bstp_config_unit).
#[export] Instance set_cu_role : Settable cu_role := ltac:(mk_setter eta_bstp_config_unit).

(** [struct ether_header] of inc/common_types.h. *)
Record ether_header := mk_eth {
  ether_dhost : list Z;
  ether_shost : list Z;
  ether_type : Z
}.

Definition eta_ether_header (r : ether_header) : ether_header :=
  mk_eth (ether_dhost r) (ether_shost r) (ether_type r).

#[export] Instance set_ether_dhost : Settable ether_dhost := ltac:(mk_setter eta_ether_header).
#[export] Instance set_ether_shost : Settable ether_shost := ltac:(mk_setter eta_ether_header).
#[export] Instance set_ether_type : Settable ether_type := ltac:(mk_setter eta_ether_header).

(** [struct bstp_cbpdu]: a configuration BPDU as it lies in memory.  Multi-byte
    fields hold what the code stores in them, that is network byte order read
    as a host integer. *)
Record bstp_cbpdu := mk_cbpdu {
  eth_hdr : ether_header;
  cbu_dsap : Z;
  cbu_ssap : Z;
  cbu_ctl : Z;
  cbu_protoid : Z;
  cbu_protover : Z;
  cbu_bpdutype : Z;
  cbu_flags : Z;
  cbu_rootpri : Z;
  cbu_rootaddr : list Z;
  cbu_rootpathcost : Z;
  cbu_bridgepri : Z;
  cbu_bridgeaddr : list Z;
  cbu_portid : Z;
  cbu_messageage : Z;
  cbu_maxage : Z;
  cbu_hellotime : Z;
  cbu_forwarddelay : Z;
  cbu_versionlen : Z
}.

Definition eta_bstp_cbpdu (r : bstp_cbpdu) : bstp_cbpdu :=
  mk_cbpdu (eth_hdr r) (cbu_dsap r) (cbu_ssap r) (cbu_ctl r) (cbu_protoid r)
    (cbu_protover r) (cbu_bpdutype r) (cbu_flags r) (cbu_rootpri r)
    (cbu_rootaddr r) (cbu_rootpathcost r) (cbu_bridgepri r) (cbu_bridgeaddr r)
    (cbu_portid r) (cbu_messageage r) (cbu_maxage r) (cbu_hellotime r)
    (cbu_forwarddelay r) (cbu_versionlen r).

#[export] Instance set_eth_hdr : Settable eth_hdr := ltac:(mk_setter eta_bstp_cbpdu).
#[export] Instance set_cbu_dsap : Settable cbu_dsap := ltac:(mk_setter eta_bstp_cbpdu).
#[export] Instance set_cbu_ssap : Settable cbu_ssap := ltac:(mk_setter eta_bstp_cbpdu).
#[export] Instance set_cbu_ctl : Settable cbu_ctl := ltac:(mk_setter eta_bstp_cbpdu).
#[export] Instance set_cbu_protoid : Settable cbu_protoid := ltac:(mk_setter eta_bstp_cbpdu).
#[export] Instance set_cbu_protover : Settable cbu_protover := ltac:(mk_setter eta_bstp_cbpdu).
#[export] Instance set_cbu_bpdutype : Settable cbu_bpdutype := ltac:(mk_setter eta_bstp_cbpdu).
#[export] Instance set_cbu_flags : Settable cbu_flags := ltac:(mk_setter eta_bstp_cbpdu).
#[export] Instance set_cbu_rootpri : Settable cbu_rootpri := ltac:(mk_setter eta_bstp_cbpdu).
#[export] Instance set_cbu_rootaddr : Settable cbu_rootaddr := ltac:(mk_setter eta_bstp_cbpdu).
#[export] Instance set_cbu_rootpathcost : Settable cbu_rootpathcost := ltac:(mk_setter eta_bstp_cbpdu).
#[export] Instance set_cbu_bridgepri : Settable cbu_bridgepri := ltac:(mk_setter eta_bstp_cbpdu).
#[export] Instance set_cbu_bridgeaddr : Settable cbu_bridgeaddr := ltac:(mk_setter eta_bstp_cbpdu).
#[export] Instance set_cbu_portid : Settable cbu_portid := ltac:(mk_setter eta_bstp_cbpdu).
#[export] Instance set_cbu_messageage : Settable cbu_messageage := ltac:(mk_setter eta_bstp_cbpdu).
#[export] Instance set_cbu_maxage : Settable cbu_maxage := ltac:(mk_setter eta_bstp_cbpdu).
#[export] Instance set_cbu_hellotime : Settable cbu_hellotime := ltac:(mk_setter eta_bstp_cbpdu).
#[export] Instance set_cbu_forwarddelay : Settable cbu_forwarddelay := ltac:(mk_setter eta_bstp_cbpdu).
#[export] Instance set_cbu_versionlen : Settable cbu_versionlen := ltac:(mk_setter eta_bstp_cbpdu).

(** [struct bstp_tbpdu]: a topology change notification BPDU, and the common
    prefix of every BPDU. *)
Record bstp_tbpdu := mk_tbpdu {
  tbu_eth_hdr : ether_header;
  tbu_dsap : Z;
  tbu_ssap : Z;
  tbu_ctl : Z;
  tbu_protoid : Z;
  tbu_protover : Z;
  tbu_bpdutype : Z
}.

Definition eta_bstp_tbpdu (r : bstp_tbpdu) : bstp_tbpdu :=
  mk_tbpdu (tbu_eth_hdr r) (tbu_dsap r) (tbu_ssap r) (tbu_ctl r) (tbu_protoid
    r) (tbu_protover r) (tbu_bpdutype r).

#[export] Instance set_tbu_eth_hdr : Settable tbu_eth_hdr := ltac:(mk_setter eta_bstp_tbpdu).
#[export] Instance set_tbu_dsap : Settable tbu_dsap := ltac:(mk_setter eta_bstp_tbpdu).
#[export] Instance set_tbu_ssap : Settable tbu_ssap := ltac:(mk_setter eta_bstp_tbpdu).
#[export] Instance set_tbu_ctl : Settable tbu_ctl := ltac:(mk_setter eta_bstp_tbpdu).
#[export] Instance set_tbu_protoid : Settable tbu_protoid := ltac:(mk_setter eta_bstp_tbpdu).
#[export] Instance set_tbu_protover : Settable tbu_protover := ltac:(mk_setter eta_bstp_tbpdu).
#[export] Instance set_tbu_bpdutype : Settable tbu_bpdutype := ltac:(mk_setter eta_bstp_tbpdu).

(** [struct bstp_port].  The list link [bp_next] is the position of the port in
    the [bs_bplist] of its bridge, and the back pointer [bp_bs] is the bridge
    the operations are applied to. *)
Record bstp_port := mk_port {
  bp_ifp : Z;
  bp_active : Z;
  bp_protover : Z;
  bp_flags : Z;
  bp_path_cost : Z;
  bp_port_msg_age : Z;
  bp_port_max_age : Z;
  bp_port_fdelay : Z;
  bp_port_htime : Z;
  bp_desg_msg_age : Z;
  bp_desg_max_age : Z;
  bp_desg_fdelay : Z;
  bp_desg_htime : Z;
  bp_edge_delay_timer : bstp_timer;
  bp_forward_delay_timer : bstp_timer;
  bp_hello_timer : bstp_timer;
  bp_message_age_timer : bstp_timer;
  bp_migrate_delay_timer : bstp_timer;
  bp_recent_backup_timer : bstp_timer;
  bp_recent_root_timer : bstp_timer;
  bp_tc_timer : bstp_timer;
  bp_msg_cu : bstp_config_unit;
  bp_desg_pv : bstp_pri_vector;
  bp_port_pv : bstp_pri_vector;
  bp_port_id : Z;
  bp_state : Z;
  bp_tcstate : Z;
  bp_role : Z;
  bp_infois : Z;
  bp_tc_ack : Z;
  bp_tc_prop : Z;
  bp_fdbflush : Z;
  bp_priority : Z;
  bp_ptp_link : Z;
  bp_agree : Z;
  bp_agreed : Z;
  bp_sync : Z;
  bp_synced : Z;
  bp_proposing : Z;
  bp_proposed : Z;
  bp_operedge : Z;
  bp_reroot : Z;
  bp_rcvdtc : Z;
  bp_rcvdtca : Z;
  bp_rcvdtcn : Z;
  bp_forward_transitions : Z;
  bp_txcount : Z
}.

Definition eta_bstp_port (r : bstp_port) : bstp_port :=
  mk_port (bp_ifp r) (bp_active r) (bp_protover r) (bp_flags r) (bp_path_cost
    r) (bp_port_msg_age r) (bp_port_max_age r) (bp_port_fdelay r)
    (bp_port_htime r) (bp_desg_msg_age r) (bp_desg_max_age r) (bp_desg_fdelay
    r) (bp_desg_htime r) (bp_edge_delay_timer r) (bp_forward_delay_timer r)
    (bp_hello_timer r) (bp_message_age_timer r) (bp_migrate_delay_timer r)
    (bp_recent_backup_timer r) (bp_recent_root_timer r) (bp_tc_timer r)
    (bp_msg_cu r) (bp_desg_pv r) (bp_port_pv r) (bp_port_id r) (bp_state r)
    (bp_tcstate r) (bp_role r) (bp_infois r) (bp_tc_ack r) (bp_tc_prop r)
    (bp_fdbflush r) (bp_priority r) (bp_ptp_link r) (bp_agree r) (bp_agreed r)
    (bp_sync r) (bp_synced r) (bp_proposing r) (bp_proposed r) (bp_operedge r)
    (bp_reroot r) (bp_rcvdtc r) (bp_rcvdtca r) (bp_rcvdtcn r)
    (bp_forward_transitions r) (bp_txcount r).

#[export] Instance set_bp_ifp : Settable bp_ifp := ltac:(mk_setter eta_bstp_port).
#[export] Instance set_bp_active : Settable bp_active := ltac:(mk_setter eta_bstp_port).
#[export] Instance set_bp_protover : Settable bp_protover := ltac:(mk_setter eta_bstp_port).
#[export] Instance set_bp_flags : Settable bp_flags := ltac:(mk_setter eta_bstp_port).
#[export] Instance set_bp_path_cost : Settable bp_path_cost := ltac:(mk_setter eta_bstp_port).
#[export] Instance set_bp_port_msg_age : Settable bp_port_msg_age := ltac:(mk_setter eta_bstp_port).
#[export] Instance set_bp_port_max_age : Settable bp_port_max_age := ltac:(mk_setter eta_bstp_port).
#[export] Instance set_bp_port_fdelay : Settable bp_port_fdelay := ltac:(mk_setter eta_bstp_port).
#[export] Instance set_bp_port_htime : Settable bp_port_htime := ltac:(mk_setter eta_bstp_port).
#[export] Instance set_bp_desg_msg_age : Settable bp_desg_msg_age := ltac:(mk_setter eta_bstp_port).
#[export] Instance set_bp_desg_max_age : Settable bp_desg_max_age := ltac:(mk_setter eta_bstp_port).
#[export] Instance set_bp_desg_fdelay : Settable bp_desg_fdelay := ltac:(mk_setter eta_bstp_port).
#[export] Instance set_bp_desg_htime : Settable bp_desg_htime := ltac:(mk_setter eta_bstp_port).
#[export] Instance set_bp_edge_delay_timer : Settable bp_edge_delay_timer := ltac:(mk_setter eta_bstp_port).
#[export] Instance set_bp_forward_delay_timer : Settable bp_forward_delay_timer := ltac:(mk_setter eta_bstp_port).
#[export] Instance set_bp_hello_timer : Settable bp_hello_timer := ltac:(mk_setter eta_bstp_port).
#[export] Instance set_bp_message_age_timer : Settable bp_message_age_timer := ltac:(mk_setter eta_bstp_port).
#[export] Instance set_bp_migrate_delay_timer : Settable bp_migrate_delay_timer := ltac:(mk_setter eta_bstp_port).
#[export] Instance set_bp_recent_backup_timer : Settable bp_recent_backup_timer := ltac:(mk_setter eta_bstp_port).
#[export] Instance set_bp_recent_root_timer : Settable bp_recent_root_timer := ltac:(mk_setter eta_bstp_port).
#[export] Instance set_bp_tc_timer : Settable bp_tc_timer := ltac:(mk_setter eta_bstp_port).
#[export] Instance set_bp_msg_cu : Settable bp_msg_cu := ltac:(mk_setter eta_bstp_port).
#[export] Instance set_bp_desg_pv : Settable bp_desg_pv := ltac:(mk_setter eta_bstp_port).
#[export] Instance set_bp_port_pv : Settable bp_port_pv := ltac:(mk_setter eta_bstp_port).
#[export] Instance set_bp_port_id : Settable bp_port_id := ltac:(mk_setter eta_bstp_port).
#[export] Instance set_bp_state : Settable bp_state := ltac:(mk_setter eta_bstp_port).
#[export] Instance set_bp_tcstate : Settable bp_tcstate := ltac:(mk_setter eta_bstp_port).
#[export] Instance set_bp_role : Settable bp_role := ltac:(mk_setter eta_bstp_port).
#[export] Instance set_bp_infois : Settable bp_infois := ltac:(mk_setter eta_bstp_port).
#[export] Instance set_bp_tc_ack : Settable bp_tc_ack := ltac:(mk_setter eta_bstp_port).
#[export] Instance set_bp_tc_prop : Settable bp_tc_prop := ltac:(mk_setter eta_bstp_port).
#[export] Instance set_bp_fdbflush : Settable bp_fdbflush := ltac:(mk_setter eta_bstp_port).
#[export] Instance set_bp_priority : Settable bp_priority := ltac:(mk_setter eta_bstp_port).
#[export] Instance set_bp_ptp_link : Settable bp_ptp_link := ltac:(mk_setter eta_bstp_port).
#[export] Instance set_bp_agree : Settable bp_agree := ltac:(mk_setter eta_bstp_port).
#[export] Instance set_bp_agreed : Settable bp_agreed := ltac:(mk_setter eta_bstp_port).
#[export] Instance set_bp_sync : Settable bp_sync := ltac:(mk_setter eta_bstp_port).
#[export] Instance set_bp_synced : Settable bp_synced := ltac:(mk_setter eta_bstp_port).
#[export] Instance set_bp_proposing : Settable bp_proposing := ltac:(mk_setter eta_bstp_port).
#[export] Instance set_bp_proposed : Settable bp_proposed := ltac:(mk_setter eta_bstp_port).
#[export] Instance set_bp_operedge : Settable bp_operedge := ltac:(mk_setter eta_bstp_port).
#[export] Instance set_bp_reroot : Settable bp_reroot := ltac:(mk_setter eta_bstp_port).
#[export] Instance set_bp_rcvdtc : Settable bp_rcvdtc := ltac:(mk_setter eta_bstp_port).
#[export] Instance set_bp_rcvdtca : Settable bp_rcvdtca := ltac:(mk_setter eta_bstp_port).
#[export] Instance set_bp_rcvdtcn : Settable bp_rcvdtcn := ltac:(mk_setter eta_bstp_port).
#[export] Instance set_bp_forward_transitions : Settable bp_forward_transitions := ltac:(mk_setter eta_bstp_port).
#[export] Instance set_bp_txcount : Settable bp_txcount := ltac:(mk_setter eta_bstp_port).

(** [struct bstp_state].  [bs_bplist] is the list of the bridge's ports as
    pointers (see [rstp] below), [bs_root_port] is a pointer or NULL, and
    [bs_bstpcallout] is the [is_running] flag of the callout timer.  The lock,
    the unused [bs_last_tc_time] and the two callback pointers (NULL: the only
    caller of [bstp_attach] passes no callbacks) are left out. *)
Record bstp_state := mk_bs {
  vlan_id : Z;
  bs_running : Z;
  bs_bridge_pv : bstp_pri_vector;
  bs_root_pv : bstp_pri_vector;
  bs_root_port : option nat;
  bs_protover : Z;
  bs_migration_delay : Z;
  bs_edge_delay : Z;
  bs_bridge_max_age : Z;
  bs_bridge_fdelay : Z;
  bs_bridge_htime : Z;
  bs_root_msg_age : Z;
  bs_root_max_age : Z;
  bs_root_fdelay : Z;
  bs_root_htime : Z;
  bs_hold_time : Z;
  bs_bridge_priority : Z;
  bs_txholdcount : Z;
  bs_allsynced : Z;
  bs_link_timer : bstp_timer;
  bs_bplist : list nat;
  bs_bstpcallout : Z
}.

Definition eta_bstp_state (r : bstp_state) : bstp_state :=
  mk_bs (vlan_id r) (bs_running r) (bs_bridge_pv r) (bs_root_pv r)
    (bs_root_port r) (bs_protover r) (bs_migration_delay r) (bs_edge_delay r)
    (bs_bridge_max_age r) (bs_bridge_fdelay r) (bs_bridge_htime r)
    (bs_root_msg_age r) (bs_root_max_age r) (bs_root_fdelay r) (bs_root_htime
    r) (bs_hold_time r) (bs_bridge_priority r) (bs_txholdcount r)
    (bs_allsynced r) (bs_link_timer r) (bs_bplist r) (bs_bstpcallout r).

#[export] Instance set_vlan_id : Settable vlan_id := ltac:(mk_setter eta_bstp_state).
#[export] Instance set_bs_running : Settable bs_running := ltac:(mk_setter eta_bstp_state).
#[export] Instance set_bs_bridge_pv : Settable bs_bridge_pv := ltac:(mk_setter eta_bstp_state).
#[export] Instance set_bs_root_pv : Settable bs_root_pv := ltac:(mk_setter eta_bstp_state).
#[export] Instance set_bs_root_port : Settable bs_root_port := ltac:(mk_setter eta_bstp_state).
#[export] Instance set_bs_protover : Settable bs_protover := ltac:(mk_setter eta_bstp_state).
#[export] Instance set_bs_migration_delay : Settable bs_migration_delay := ltac:(mk_setter eta_bstp_state).
#[export] Instance set_bs_edge_delay : Settable bs_edge_delay := ltac:(mk_setter eta_bstp_state).
#[export] Instance set_bs_bridge_max_age : Settable bs_bridge_max_age := ltac:(mk_setter eta_bstp_state).
#[export] Instance set_bs_bridge_fdelay : Settable bs_bridge_fdelay := ltac:(mk_setter eta_bstp_state).
#[export] Instance set_bs_bridge_htime : Settable bs_bridge_htime := ltac:(mk_setter eta_bstp_state).
#[export] Instance set_bs_root_msg_age : Settable bs_root_msg_age := ltac:(mk_setter eta_bstp_state).
#[export] Instance set_bs_root_max_age : Settable bs_root_max_age := ltac:(mk_setter eta_bstp_state).
#[export] Instance set_bs_root_fdelay : Settable bs_root_fdelay := ltac:(mk_setter eta_bstp_state).
#[export] Instance set_bs_root_htime : Settable bs_root_htime := ltac:(mk_setter eta_bstp_state).
#[export] Instance set_bs_hold_time : Settable bs_hold_time := ltac:(mk_setter eta_bstp_state).
#[export] Instance set_bs_bridge_priority : Settable bs_bridge_priority := ltac:(mk_setter eta_bstp_state).
#[export] Instance set_bs_txholdcount : Settable bs_txholdcount := ltac:(mk_setter eta_bstp_state).
#[export] Instance set_bs_allsynced : Settable bs_allsynced := ltac:(mk_setter eta_bstp_state).
#[export] Instance set_bs_link_timer : Settable bs_link_timer := ltac:(mk_setter eta_bstp_state).
#[export] Instance set_bs_bplist : Settable bs_bplist := ltac:(mk_setter eta_bstp_state).
#[export] Instance set_bs_bstpcallout : Settable bs_bstpcallout := ltac:(mk_setter eta_bstp_state).

(** ** Objects cleared by [bzero] or [calloc] *)

Definition timer0 : bstp_timer := mk_timer 0 0 0.
Definition pv0 : bstp_pri_vector := mk_pv 0 0 0 0 0.
Definition cu0 : bstp_config_unit := mk_cu pv0 0 0 0 0 0 0 0 0 0 0 0 0.

Definition port0 : bstp_port :=
  mk_port 0 0 0 0 0 0 0 0 0 0 0 0 0
    timer0 timer0 timer0 timer0 timer0 timer0 timer0 timer0 cu0 pv0 pv0
    0 0 0 0 0 0 0 0 0 0 0 0 0 0 0 0 0 0 0 0 0 0 0.

Definition bs0 : bstp_state :=
  mk_bs 0 0 pv0 pv0 None 0 0 0 0 0 0 0 0 0 0 0 0 0 0 timer0 [] 0.

(** ** The state of one bridge instance

    [ports] is the memory of the port structures, indexed by pointers; [nextp]
    is the next pointer [malloc] returns; [sent] is the list of the frames given
    to [send_packet], the last one at the end: the interface and the length of
    the frame with its contents. *)

Inductive frame :=
  | CfgFrame (ifp len : Z) (pdu : bstp_cbpdu)
  | TcnFrame (ifp len : Z) (pdu : bstp_tbpdu).

Record rstp := mk_rstp {
  bs : bstp_state;
  ports : nat → bstp_port;
  nextp : nat;
  sent : list frame
}.

Definition eta_rstp (r : rstp) : rstp :=
  mk_rstp (bs r) (ports r) (nextp r) (sent r).

#[export] Instance set_bs : Settable bs := ltac:(mk_setter eta_rstp).
#[export] Instance set_ports : Settable ports := ltac:(mk_setter eta_rstp).
#[export] Instance set_nextp : Settable nextp := ltac:(mk_setter eta_rstp).
#[export] Instance set_sent : Settable sent := ltac:(mk_setter eta_rstp).

(** [f] applied to the port structure [i] points to, and to the bridge. *)
Definition upd_port (i : nat) (f : bstp_port → bstp_port) (s : rstp) : rstp :=
  s <| ports := <[i := f (ports s i)]> (ports s) |>.

Definition upd_bs (f : bstp_state → bstp_state) (s : rstp) : rstp :=
  s <| bs := f (bs s) |>.

(** [list_for_each_entry (bp, &bs->bs_bplist, bp_next) body]. *)
Definition for_each_port (body : nat → rstp → rstp) (s : rstp) : rstp :=
  foldl (λ s i, body i s) s (bs_bplist (bs s)).

(** What the component reads outside its own memory: the operational state and
    the address of an interface (ifmgmt/port.c), the bridge address
    (bridge/bridge.c), the contents of the uninitialised locals [path_cost] of
    [bstp_calc_path_cost] and [bpdu] of [bstp_transmit_bpdu], and whether
    [malloc] succeeds. *)
Record rstp_env := mk_env {
  get_port_oper_state : Z → Z;
  get_port_mac_address : Z → list Z;
  get_bridge_mac_address : list Z;
  junk_path_cost : Z;
  junk_cbpdu : bstp_cbpdu;
  malloc_ok : bool
}.
