(* ===== verification/Rstp.v ===== *)
(** * Rapid spanning tree: the operations of src/bridge/rstp/bridgestp.c

    Every definition has the name of the C function it models.  A function of
    the C code that takes [bs] and [bp] takes the pointer [i] of the port and the
    state [s] of the bridge instance, and returns the new state. *)

From S2P Require Import Prelude RstpTypes.

(** ** Timers *)

Definition bstp_timer_start (t : bstp_timer) (v : Z) : bstp_timer :=
  t <| value := u16 v |> <| active := 1 |> <| latched := 0 |>.

Definition bstp_timer_stop (t : bstp_timer) : bstp_timer :=
  t <| value := 0 |> <| active := 0 |> <| latched := 0 |>.

Definition bstp_timer_latch (t : bstp_timer) : bstp_timer :=
  t <| latched := 1 |> <| active := 1 |>.

Definition bstp_timer_expired (t : bstp_timer) : bstp_timer * bool :=
  if (active t =? 0) || tst (latched t) then (t, false)
  else
    let t := t <| value := value t - BSTP_TICK_VAL |> in
    if value t <=? 0 then (bstp_timer_stop t, true) else (t, false).

(** ** Priority vectors *)

Definition PV2ADDR (pv : Z) : list Z :=
  [u8 (pv ≫ 40); u8 (pv ≫ 32); u8 (pv ≫ 24); u8 (pv ≫ 16); u8 (pv ≫ 8); u8 (pv ≫ 0)].

(** The loop of [bstp_addr_cmp]: it runs while the difference is 0. *)
Fixpoint bstp_addr_cmp (a b : list Z) : Z :=
  match a, b with
  | x :: a', y :: b' =>
      let d := x - y in
      if d =? 0 then bstp_addr_cmp a' b' else d
  | _, _ => 0
  end.

Definition bstp_same_bridgeid (id1 id2 : Z) : bool :=
  bstp_addr_cmp (PV2ADDR id1) (PV2ADDR id2) =? 0.

Definition bstp_info_cmp (pv cpv : bstp_pri_vector) : Z :=
  if pv_root_id cpv <? pv_root_id pv then INFO_BETTER
  else if pv_root_id cpv >? pv_root_id pv then INFO_WORSE
  else if pv_cost cpv <? pv_cost pv then INFO_BETTER
  else if pv_cost cpv >? pv_cost pv then INFO_WORSE
  else if pv_dbridge_id cpv <? pv_dbridge_id pv then INFO_BETTER
  else if pv_dbridge_id cpv >? pv_dbridge_id pv then INFO_WORSE
  else if pv_dport_id cpv <? pv_dport_id pv then INFO_BETTER
  else if pv_dport_id cpv >? pv_dport_id pv then INFO_WORSE
  else INFO_SAME.

Definition bstp_info_superior (pv cpv : bstp_pri_vector) : bool :=
  (bstp_info_cmp pv cpv =? INFO_BETTER) ||
  (bstp_same_bridgeid (pv_dbridge_id pv) (pv_dbridge_id cpv) &&
   ((pv_dport_id cpv &&& 0xfff) =? (pv_dport_id pv &&& 0xfff))).

Definition bstp_pdu_rcvtype (bp : bstp_port) (cu : bstp_config_unit) : Z :=
  if cu_role cu =? BSTP_ROLE_DESIGNATED then
    if bstp_info_superior (bp_port_pv bp) (cu_pv cu) then BSTP_PDU_SUPERIOR
    else if bstp_info_cmp (bp_port_pv bp) (cu_pv cu) =? INFO_SAME then
      if (bp_port_msg_age bp !=? cu_message_age cu) ||
         (bp_port_max_age bp !=? cu_max_age cu) ||
         (bp_port_fdelay bp !=? cu_forward_delay cu) ||
         (bp_port_htime bp !=? cu_hello_time cu)
      then BSTP_PDU_SUPERIOR
      else BSTP_PDU_REPEATED
    else BSTP_PDU_INFERIOR
  else if (cu_role cu =? BSTP_ROLE_ROOT) || (cu_role cu =? BSTP_ROLE_ALTERNATE) ||
          (cu_role cu =? BSTP_ROLE_BACKUP) then
    if bstp_info_cmp (bp_port_pv bp) (cu_pv cu) <=? INFO_SAME
    then BSTP_PDU_INFERIORALT else BSTP_PDU_OTHER
  else BSTP_PDU_OTHER.

Definition bstp_pdu_bettersame (bp : bstp_port) (newinfo : Z) : bool :=
  if (newinfo =? BSTP_INFO_RECEIVED) && (bp_infois bp =? BSTP_INFO_RECEIVED) &&
     (bstp_info_cmp (bp_port_pv bp) (cu_pv (bp_msg_cu bp)) >=? INFO_SAME) then true
  else if (newinfo =? BSTP_INFO_MINE) && (bp_infois bp =? BSTP_INFO_MINE) &&
     (bstp_info_cmp (bp_port_pv bp) (bp_desg_pv bp) >=? INFO_SAME) then true
  else false.

(** ** Encoding and decoding of BPDUs *)

Definition bstp_pdu_flags (bp : bstp_port) : Z :=
  let flags := 0 in
  let flags :=
    if tst (bp_proposing bp) && (bp_state bp !=? BSTP_IFSTATE_FORWARDING)
    then flags ||| BSTP_PDU_F_P else flags in
  let flags := if tst (bp_agree bp) then flags ||| BSTP_PDU_F_A else flags in
  let flags :=
    if tst (active (bp_tc_timer bp)) then flags ||| BSTP_PDU_F_TC else flags in
  let flags := if tst (bp_tc_ack bp) then flags ||| BSTP_PDU_F_TCA else flags in
  let flags :=
    if bp_state bp =? BSTP_IFSTATE_LEARNING then flags ||| BSTP_PDU_F_L
    else if bp_state bp =? BSTP_IFSTATE_FORWARDING
    then flags ||| (BSTP_PDU_F_L ||| BSTP_PDU_F_F) else flags in
  let flags :=
    if bp_role bp =? BSTP_ROLE_ROOT
    then flags ||| (BSTP_PDU_F_ROOT ≪ BSTP_PDU_PRSHIFT)
    else if (bp_role bp =? BSTP_ROLE_ALTERNATE) || (bp_role bp =? BSTP_ROLE_BACKUP)
    then flags ||| (BSTP_PDU_F_ALT ≪ BSTP_PDU_PRSHIFT)
    else if bp_role bp =? BSTP_ROLE_DESIGNATED
    then flags ||| (BSTP_PDU_F_DESG ≪ BSTP_PDU_PRSHIFT) else flags in
  if bp_protover bp =? BSTP_PROTO_STP then flags &&& BSTP_PDU_STPMASK
  else if bp_protover bp =? BSTP_PROTO_RSTP then flags &&& BSTP_PDU_RSTPMASK
  else flags.

(** The bridge identifier of a priority and an address. *)
Definition bridge_id_of (pri : Z) (addr : list Z) : Z :=
  (pri ≪ 48) ||| (nth 0 addr 0 ≪ 40) ||| (nth 1 addr 0 ≪ 32) |||
  (nth 2 addr 0 ≪ 24) ||| (nth 3 addr 0 ≪ 16) ||| (nth 4 addr 0 ≪ 8) |||
  (nth 5 addr 0 ≪ 0).

Definition bstp_decode_bpdu (bp : bstp_port) (cpdu : bstp_cbpdu)
    (cu : bstp_config_unit) : bstp_config_unit :=
  let pv := cu_pv cu in
  let pv := pv <| pv_root_id :=
    bridge_id_of (ntohs (cbu_rootpri cpdu)) (cbu_rootaddr cpdu) |> in
  let pv := pv <| pv_dbridge_id :=
    bridge_id_of (ntohs (cbu_bridgepri cpdu)) (cbu_bridgeaddr cpdu) |> in
  let pv := pv <| pv_cost := ntohl (cbu_rootpathcost cpdu) |> in
  let cu := cu <| cu_message_age := ntohs (cbu_messageage cpdu) |> in
  let cu := cu <| cu_max_age := ntohs (cbu_maxage cpdu) |> in
  let cu := cu <| cu_hello_time := ntohs (cbu_hellotime cpdu) |> in
  let cu := cu <| cu_forward_delay := ntohs (cbu_forwarddelay cpdu) |> in
  let pv := pv <| pv_dport_id := ntohs (cbu_portid cpdu) |> in
  let pv := pv <| pv_port_id := bp_port_id bp |> in
  let cu := cu <| cu_pv := pv |> in
  let cu := cu <| cu_message_type := cbu_bpdutype cpdu |> in
  let flags := cbu_flags cpdu in
  let flags :=
    if cbu_protover cpdu =? BSTP_PROTO_STP then flags &&& BSTP_PDU_STPMASK
    else if cbu_protover cpdu =? BSTP_PROTO_RSTP then flags &&& BSTP_PDU_RSTPMASK
    else flags in
  let cu :=
    if cbu_protover cpdu =? BSTP_PROTO_STP
    then cu <| cu_role := BSTP_ROLE_DESIGNATED |> else cu in
  let cu := cu <| cu_topology_change_ack := bit (tst (flags &&& BSTP_PDU_F_TCA)) |> in
  let cu := cu <| cu_proposal := bit (tst (flags &&& BSTP_PDU_F_P)) |> in
  let cu := cu <| cu_agree := bit (tst (flags &&& BSTP_PDU_F_A)) |> in
  let cu := cu <| cu_learning := bit (tst (flags &&& BSTP_PDU_F_L)) |> in
  let cu := cu <| cu_forwarding := bit (tst (flags &&& BSTP_PDU_F_F)) |> in
  let cu := cu <| cu_topology_change := bit (tst (flags &&& BSTP_PDU_F_TC)) |> in
  let pr := (flags &&& BSTP_PDU_PRMASK) ≫ BSTP_PDU_PRSHIFT in
  if pr =? BSTP_PDU_F_ROOT then cu <| cu_role := BSTP_ROLE_ROOT |>
  else if pr =? BSTP_PDU_F_ALT then cu <| cu_role := BSTP_ROLE_ALTERNATE |>
  else if pr =? BSTP_PDU_F_DESG then cu <| cu_role := BSTP_ROLE_DESIGNATED |>
  else cu.

Section Operations.
Context (E : rstp_env).

(** ** Transmission *)

Definition bstp_send_bpdu (i : nat) (bpdu : bstp_cbpdu) (s : rstp) : rstp :=
  let ifp := u16 (bp_ifp (ports s i)) in
  let bpdu := bpdu <| cbu_dsap := LLC_8021D_LSAP |> <| cbu_ssap := LLC_8021D_LSAP |> in
  let bpdu := bpdu <| cbu_ctl := LLC_UI |> in
  let bpdu := bpdu <| cbu_protoid := htons BSTP_PROTO_ID |> in
  let eth := (eth_hdr bpdu) <| ether_shost := get_port_mac_address E ifp |>
                            <| ether_dhost := bstp_etheraddr |> in
  let bpdu :=
    if cbu_bpdutype bpdu =? BSTP_MSGTYPE_CFG then
      bpdu <| cbu_protover := BSTP_PROTO_STP |>
           <| eth_hdr := eth <| ether_type := htons BSTP_BPDU_STP_LEN |> |>
    else if cbu_bpdutype bpdu =? BSTP_MSGTYPE_RSTP then
      bpdu <| cbu_protover := BSTP_PROTO_RSTP |> <| cbu_versionlen := u8 (htons 0) |>
           <| eth_hdr := eth <| ether_type := htons BSTP_BPDU_RSTP_LEN |> |>
    else bpdu <| eth_hdr := eth |> in
  let s := upd_port i (λ p, p <| bp_txcount := u8 (bp_txcount p + 1) |>) s in
  s <| sent := sent s ++ [CfgFrame ifp 53 bpdu] |>.

Definition bstp_transmit_bpdu (i : nat) (s : rstp) : rstp :=
  let bp := ports s i in
  let pv := bp_desg_pv bp in
  let bpdu := junk_cbpdu E in
  let bpdu := bpdu <| cbu_rootpri := htons (pv_root_id pv ≫ 48) |> in
  let bpdu := bpdu <| cbu_rootaddr := PV2ADDR (pv_root_id pv) |> in
  let bpdu := bpdu <| cbu_rootpathcost := htonl (pv_cost pv) |> in
  let bpdu := bpdu <| cbu_bridgepri := htons (pv_dbridge_id pv ≫ 48) |> in
  let bpdu := bpdu <| cbu_bridgeaddr := PV2ADDR (pv_dbridge_id pv) |> in
  let bpdu := bpdu <| cbu_portid := htons (bp_port_id bp) |> in
  let bpdu := bpdu <| cbu_messageage := htons (bp_desg_msg_age bp) |> in
  let bpdu := bpdu <| cbu_maxage := htons (bp_desg_max_age bp) |> in
  let bpdu := bpdu <| cbu_hellotime := htons (bp_desg_htime bp) |> in
  let bpdu := bpdu <| cbu_forwarddelay := htons (bp_desg_fdelay bp) |> in
  let bpdu := bpdu <| cbu_flags := u8 (bstp_pdu_flags bp) |> in
  let bpdu :=
    if bp_protover bp =? BSTP_PROTO_STP
    then bpdu <| cbu_bpdutype := BSTP_MSGTYPE_CFG |>
    else if bp_protover bp =? BSTP_PROTO_RSTP
    then bpdu <| cbu_bpdutype := BSTP_MSGTYPE_RSTP |> else bpdu in
  bstp_send_bpdu i bpdu s.

Definition bstp_transmit_tcn (i : nat) (s : rstp) : rstp :=
  let ifp := u16 (bp_ifp (ports s i)) in
  let eth := mk_eth bstp_etheraddr (get_port_mac_address E ifp) (htons 21) in
  let bpdu := mk_tbpdu eth LLC_8021D_LSAP LLC_8021D_LSAP LLC_UI 0 0 BSTP_MSGTYPE_TCN in
  let s := upd_port i (λ p, p <| bp_txcount := u8 (bp_txcount p + 1) |>) s in
  s <| sent := sent s ++ [TcnFrame ifp 21 bpdu] |>.

(** [bstp_hello_timer_expiry] and [bstp_transmit] call each other; each is first
    defined over the other one. *)
Definition bstp_hello_timer_expiry_with (transmit : nat → rstp → rstp)
    (i : nat) (s : rstp) : rstp :=
  let bp := ports s i in
  if tst (bp_flags bp &&& BSTP_PORT_NEWINFO) ||
     (bp_role bp =? BSTP_ROLE_DESIGNATED) ||
     ((bp_role bp =? BSTP_ROLE_ROOT) && (active (bp_tc_timer bp) =? 1)) then
    let s := upd_port i (λ p, p <| bp_hello_timer :=
               bstp_timer_start (bp_hello_timer p) (bp_desg_htime p) |>) s in
    let s := upd_port i (λ p, p <| bp_flags := orm (bp_flags p) BSTP_PORT_NEWINFO |>) s in
    transmit i s
  else s.

Definition bstp_transmit_with (hello_timer_expiry : nat → rstp → rstp)
    (i : nat) (s : rstp) : rstp :=
  if bs_running (bs s) =? 0 then s
  else if active (bp_hello_timer (ports s i)) =? 0 then hello_timer_expiry i s
  else if bp_txcount (ports s i) >? bs_txholdcount (bs s) then s
  else
    let s :=
      if bp_protover (ports s i) =? BSTP_PROTO_RSTP then
        let s := bstp_transmit_bpdu i s in
        upd_port i (λ p, p <| bp_tc_ack := 0 |>) s
      else if bp_role (ports s i) =? BSTP_ROLE_DESIGNATED then
        let s := bstp_transmit_bpdu i s in
        upd_port i (λ p, p <| bp_tc_ack := 0 |>) s
      else if bp_role (ports s i) =? BSTP_ROLE_ROOT then bstp_transmit_tcn i s
      else s in
    let s := upd_port i (λ p, p <| bp_hello_timer :=
               bstp_timer_start (bp_hello_timer p) (bp_desg_htime p) |>) s in
    upd_port i (λ p, p <| bp_flags := clr (bp_flags p) BSTP_PORT_NEWINFO |>) s.

(** The mutual recursion unrolled [n] times.  Two unrollings are enough
    ([bstp_transmit_fuel_enough]): the expiry handler starts the hello timer
    before it calls [bstp_transmit] again. *)
Fixpoint bstp_transmit_fuel (n : nat) (i : nat) (s : rstp) : rstp :=
  match n with
  | O => s
  | S n' => bstp_transmit_with (bstp_hello_timer_expiry_with (bstp_transmit_fuel n')) i s
  end.

Definition bstp_transmit : nat → rstp → rstp := bstp_transmit_fuel 2.

Definition bstp_hello_timer_expiry : nat → rstp → rstp :=
  bstp_hello_timer_expiry_with bstp_transmit.

(** ** The topology change machine *)

Definition bstp_set_timer_tc (i : nat) (s : rstp) : rstp :=
  let bp := ports s i in
  if tst (active (bp_tc_timer bp)) then s
  else if bp_protover bp =? BSTP_PROTO_RSTP then
    upd_port i (λ p, p
      <| bp_tc_timer := bstp_timer_start (bp_tc_timer p) (bp_desg_htime p + BSTP_TICK_VAL) |>
      <| bp_flags := orm (bp_flags p) BSTP_PORT_NEWINFO |>) s
  else if bp_protover bp =? BSTP_PROTO_STP then
    upd_port i (λ p, p
      <| bp_tc_timer := bstp_timer_start (bp_tc_timer p)
           (bs_root_max_age (bs s) + bs_root_fdelay (bs s)) |>) s
  else s.

Definition bstp_set_other_tcprop (i : nat) (s : rstp) : rstp :=
  for_each_port (λ j s,
    if (j =? i)%nat then s else upd_port j (λ p, p <| bp_tc_prop := 1 |>) s) s.

Definition bstp_set_port_tc (i : nat) (state : Z) (s : rstp) : rstp :=
  let s := upd_port i (λ p, p <| bp_tcstate := state |>) s in
  if state =? BSTP_TCSTATE_ACTIVE then s
  else if state =? BSTP_TCSTATE_INACTIVE then
    upd_port i (λ p, p <| bp_tc_timer := bstp_timer_stop (bp_tc_timer p) |>
                       <| bp_fdbflush := 1 |> <| bp_tc_ack := 0 |>) s
  else if state =? BSTP_TCSTATE_LEARNING then
    upd_port i (λ p, p <| bp_rcvdtc := 0 |> <| bp_rcvdtcn := 0 |>
                       <| bp_rcvdtca := 0 |> <| bp_tc_prop := 0 |>) s
  else if state =? BSTP_TCSTATE_DETECTED then
    let s := bstp_set_timer_tc i s in
    let s := bstp_set_other_tcprop i s in
    let s := upd_port i (λ p, p <| bp_flags := orm (bp_flags p) BSTP_PORT_NEWINFO |>) s in
    let s := bstp_transmit i s in
    upd_port i (λ p, p <| bp_tcstate := BSTP_TCSTATE_ACTIVE |>) s
  else if (state =? BSTP_TCSTATE_TCN) || (state =? BSTP_TCSTATE_TC) then
    let s := if state =? BSTP_TCSTATE_TCN then bstp_set_timer_tc i s else s in
    let s := upd_port i (λ p, p <| bp_rcvdtc := 0 |> <| bp_rcvdtcn := 0 |>) s in
    let s :=
      if bp_role (ports s i) =? BSTP_ROLE_DESIGNATED
      then upd_port i (λ p, p <| bp_tc_ack := 1 |>) s else s in
    let s := bstp_set_other_tcprop i s in
    upd_port i (λ p, p <| bp_tcstate := BSTP_TCSTATE_ACTIVE |>) s
  else if state =? BSTP_TCSTATE_PROPAG then
    let s := upd_port i (λ p, p <| bp_fdbflush := 1 |> <| bp_tc_prop := 0 |>) s in
    let s := bstp_set_timer_tc i s in
    upd_port i (λ p, p <| bp_tcstate := BSTP_TCSTATE_ACTIVE |>) s
  else if state =? BSTP_TCSTATE_ACK then
    upd_port i (λ p, p <| bp_tc_timer := bstp_timer_stop (bp_tc_timer p) |>
                       <| bp_rcvdtca := 0 |>
                       <| bp_tcstate := BSTP_TCSTATE_ACTIVE |>) s
  else s.

Definition bstp_update_tc (i : nat) (s : rstp) : rstp :=
  let bp := ports s i in
  if bp_tcstate bp =? BSTP_TCSTATE_ACTIVE then
    let s :=
      if ((bp_role bp !=? BSTP_ROLE_DESIGNATED) && (bp_role bp !=? BSTP_ROLE_ROOT)) ||
         tst (bp_operedge bp)
      then bstp_set_port_tc i BSTP_TCSTATE_LEARNING s else s in
    let s :=
      if tst (bp_rcvdtcn (ports s i)) then bstp_set_port_tc i BSTP_TCSTATE_TCN s else s in
    let s :=
      if tst (bp_rcvdtc (ports s i)) then bstp_set_port_tc i BSTP_TCSTATE_TC s else s in
    let s :=
      if tst (bp_tc_prop (ports s i)) && negb (tst (bp_operedge (ports s i)))
      then bstp_set_port_tc i BSTP_TCSTATE_PROPAG s else s in
    if tst (bp_rcvdtca (ports s i)) then bstp_set_port_tc i BSTP_TCSTATE_ACK s else s
  else if bp_tcstate bp =? BSTP_TCSTATE_INACTIVE then
    if ((bp_state bp =? BSTP_IFSTATE_LEARNING) ||
        (bp_state bp =? BSTP_IFSTATE_FORWARDING)) && (bp_fdbflush bp =? 0)
    then bstp_set_port_tc i BSTP_TCSTATE_LEARNING s else s
  else if bp_tcstate bp =? BSTP_TCSTATE_LEARNING then
    let s :=
      if tst (bp_rcvdtc bp) || tst (bp_rcvdtcn bp) || tst (bp_rcvdtca bp) ||
         tst (bp_tc_prop bp)
      then bstp_set_port_tc i BSTP_TCSTATE_LEARNING s
      else if (bp_role bp !=? BSTP_ROLE_DESIGNATED) && (bp_role bp !=? BSTP_ROLE_ROOT) &&
              (bp_state bp =? BSTP_IFSTATE_DISCARDING)
      then bstp_set_port_tc i BSTP_TCSTATE_INACTIVE s else s in
    let bp := ports s i in
    if ((bp_role bp =? BSTP_ROLE_DESIGNATED) || (bp_role bp =? BSTP_ROLE_ROOT)) &&
       (bp_state bp =? BSTP_IFSTATE_FORWARDING) && negb (tst (bp_operedge bp))
    then bstp_set_port_tc i BSTP_TCSTATE_DETECTED s else s
  else s.

(** ** Port state, role and protocol version *)

Definition bstp_set_port_state (state : Z) (bp : bstp_port) : bstp_port :=
  if bp_state bp =? state then bp
  else
    let bp := bp <| bp_state := u8 state |> in
    if bp_state bp =? BSTP_IFSTATE_DISCARDING then bp
    else if bp_state bp =? BSTP_IFSTATE_LEARNING then
      bp <| bp_forward_delay_timer :=
        bstp_timer_start (bp_forward_delay_timer bp)
          (if bp_protover bp =? BSTP_PROTO_RSTP then bp_desg_htime bp
           else bp_desg_fdelay bp) |>
    else if bp_state bp =? BSTP_IFSTATE_FORWARDING then
      bp <| bp_forward_delay_timer := bstp_timer_stop (bp_forward_delay_timer bp) |>
         <| bp_forward_transitions := u32 (bp_forward_transitions bp + 1) |>
    else bp.

(** The tasks of [bstp_set_port_role] before the role changes. *)
Definition role_pre_change (bp : bstp_port) : bstp_port :=
  if bp_role bp =? BSTP_ROLE_DISABLED then
    bp <| bp_forward_delay_timer :=
      bstp_timer_start (bp_forward_delay_timer bp) (bp_desg_max_age bp) |>
  else if (bp_role bp =? BSTP_ROLE_BACKUP) || (bp_role bp =? BSTP_ROLE_ALTERNATE) then
    let bp :=
      if bp_role bp =? BSTP_ROLE_BACKUP then
        bp <| bp_recent_backup_timer :=
          bstp_timer_start (bp_recent_backup_timer bp) (bp_desg_htime bp * 2) |>
      else bp in
    bp <| bp_forward_delay_timer :=
            bstp_timer_start (bp_forward_delay_timer bp) (bp_desg_fdelay bp) |>
       <| bp_sync := 0 |> <| bp_synced := 1 |> <| bp_reroot := 0 |>
  else if bp_role bp =? BSTP_ROLE_ROOT then
    bp <| bp_recent_root_timer :=
      bstp_timer_start (bp_recent_root_timer bp) BSTP_DEFAULT_FORWARD_DELAY |>
  else bp.

(** The initialisation of the new role. *)
Definition role_init (bp : bstp_port) : bstp_port :=
  if (bp_role bp =? BSTP_ROLE_DISABLED) || (bp_role bp =? BSTP_ROLE_ALTERNATE) ||
     (bp_role bp =? BSTP_ROLE_BACKUP) then
    let bp := bstp_set_port_state BSTP_IFSTATE_DISCARDING bp in
    let bp := bp <| bp_recent_root_timer := bstp_timer_stop (bp_recent_root_timer bp) |> in
    let bp := bp <| bp_forward_delay_timer :=
                      bstp_timer_latch (bp_forward_delay_timer bp) |> in
    bp <| bp_sync := 0 |> <| bp_synced := 1 |> <| bp_reroot := 0 |>
  else if bp_role bp =? BSTP_ROLE_ROOT then
    let bp := bstp_set_port_state BSTP_IFSTATE_DISCARDING bp in
    let bp := bp <| bp_recent_root_timer := bstp_timer_latch (bp_recent_root_timer bp) |> in
    bp <| bp_proposing := 0 |>
  else if bp_role bp =? BSTP_ROLE_DESIGNATED then
    bp <| bp_hello_timer := bstp_timer_start (bp_hello_timer bp) (bp_desg_htime bp) |>
       <| bp_agree := 0 |>
  else bp.

(** The changes [bstp_set_port_role] makes to the port. *)
Definition change_role (role : Z) (bp : bstp_port) : bstp_port :=
  let bp := role_pre_change bp in
  let bp := bp <| bp_role := u8 role |> <| bp_proposing := 0 |> in
  role_init bp.

Definition bstp_set_port_role (i : nat) (role : Z) (s : rstp) : rstp :=
  if bp_role (ports s i) =? role then s
  else
    let s := upd_port i (change_role role) s in
    let s := upd_bs (λ b, b <| bs_allsynced := 0 |>) s in
    bstp_update_tc i s.

Definition bstp_set_port_proto (i : nat) (proto : Z) (s : rstp) : rstp :=
  if proto =? BSTP_PROTO_STP then
    upd_port i (λ p, p
      <| bp_migrate_delay_timer := bstp_timer_stop (bp_migrate_delay_timer p) |>
      <| bp_operedge := 0 |>
      <| bp_path_cost := if bp_path_cost p >? 65535 then 65535 else bp_path_cost p |>
      <| bp_protover := u8 proto |>
      <| bp_flags := clr (bp_flags p) BSTP_PORT_CANMIGRATE |>) s
  else if proto =? BSTP_PROTO_RSTP then
    upd_port i (λ p, p
      <| bp_migrate_delay_timer :=
           bstp_timer_start (bp_migrate_delay_timer p) (bs_migration_delay (bs s)) |>
      <| bp_protover := u8 proto |>
      <| bp_flags := clr (bp_flags p) BSTP_PORT_CANMIGRATE |>) s
  else s.

Definition bstp_update_info (i : nat) (s : rstp) : rstp :=
  let s := upd_port i (λ p, p <| bp_proposing := 0 |> <| bp_proposed := 0 |>) s in
  let s :=
    if tst (bp_agreed (ports s i)) && negb (bstp_pdu_bettersame (ports s i) BSTP_INFO_MINE)
    then upd_port i (λ p, p <| bp_agreed := 0 |>) s else s in
  let s :=
    if tst (bp_synced (ports s i)) && negb (tst (bp_agreed (ports s i))) then
      let s := upd_port i (λ p, p <| bp_synced := 0 |>) s in
      upd_bs (λ b, b <| bs_allsynced := 0 |>) s
    else s in
  upd_port i (λ p, p
    <| bp_port_pv := bp_desg_pv p |>
    <| bp_port_msg_age := bp_desg_msg_age p |>
    <| bp_port_max_age := bp_desg_max_age p |>
    <| bp_port_fdelay := bp_desg_fdelay p |>
    <| bp_port_htime := bp_desg_htime p |>
    <| bp_infois := BSTP_INFO_MINE |>
    <| bp_flags := orm (bp_flags p) BSTP_PORT_NEWINFO |>) s.

(** ** Role assignment *)

(** The body of the first loop of [bstp_assign_roles]; the accumulator is the
    state and the local [rbp]. *)
Definition assign_root_step (acc : rstp * option nat) (i : nat) : rstp * option nat :=
  let '(s, rbp) := acc in
  let bp := ports s i in
  if bp_infois bp !=? BSTP_INFO_RECEIVED then (s, rbp)
  else
    let pv := bp_port_pv bp in
    let pv := pv <| pv_cost := u32 (pv_cost pv + bp_path_cost bp) |> in
    if negb (bstp_same_bridgeid (pv_dbridge_id pv) (pv_dbridge_id (bs_bridge_pv (bs s)))) &&
       (bstp_info_cmp (bs_root_pv (bs s)) pv =? INFO_BETTER) then
      (upd_bs (λ b, b
         <| bs_root_pv := pv |>
         <| bs_root_msg_age := u16 (bp_port_msg_age bp + BSTP_MESSAGE_AGE_INCR) |>
         <| bs_root_max_age := bp_port_max_age bp |>
         <| bs_root_fdelay := bp_port_fdelay bp |>
         <| bs_root_htime := bp_port_htime bp |>) s, Some i)
    else (s, rbp).

(** Whether the timers of the port differ from those of the root port. *)
Definition root_times_differ (s : rstp) (bp : bstp_port) (rbp : option nat) : bool :=
  match rbp with
  | None => false
  | Some r =>
      (bp_port_msg_age bp !=? bp_port_msg_age (ports s r)) ||
      (bp_port_max_age bp !=? bp_port_max_age (ports s r)) ||
      (bp_port_fdelay bp !=? bp_port_fdelay (ports s r)) ||
      (bp_port_htime bp !=? bp_port_htime (ports s r))
  end.

(** The designated vector and times the second loop gives to every port. *)
Definition assign_designated (b : bstp_state) (p : bstp_port) : bstp_port :=
  p <| bp_desg_pv := (bp_desg_pv p)
         <| pv_root_id := pv_root_id (bs_root_pv b) |>
         <| pv_cost := pv_cost (bs_root_pv b) |>
         <| pv_dbridge_id := pv_dbridge_id (bs_bridge_pv b) |>
         <| pv_dport_id := bp_port_id p |>
         <| pv_port_id := bp_port_id p |> |>
    <| bp_desg_msg_age := bs_root_msg_age b |>
    <| bp_desg_max_age := bs_root_max_age b |>
    <| bp_desg_fdelay := bs_root_fdelay b |>
    <| bp_desg_htime := bs_bridge_htime b |>.

(** The body of the second loop. *)
Definition assign_role_step (rbp : option nat) (i : nat) (s : rstp) : rstp :=
  let s := upd_port i (assign_designated (bs s)) s in
  let bp := ports s i in
  if bp_infois bp =? BSTP_INFO_DISABLED then
    bstp_set_port_role i BSTP_ROLE_DISABLED s
  else if bp_infois bp =? BSTP_INFO_AGED then
    let s := bstp_set_port_role i BSTP_ROLE_DESIGNATED s in
    bstp_update_info i s
  else if bp_infois bp =? BSTP_INFO_MINE then
    let s := bstp_set_port_role i BSTP_ROLE_DESIGNATED s in
    let bp := ports s i in
    if (bstp_info_cmp (bp_port_pv bp) (bp_desg_pv bp) !=? INFO_SAME) ||
       root_times_differ s bp rbp
    then bstp_update_info i s else s
  else if bp_infois bp =? BSTP_INFO_RECEIVED then
    if bool_decide (rbp = Some i) then
      let s := bstp_set_port_role i BSTP_ROLE_ROOT s in
      upd_bs (λ b, b <| bs_root_port := Some i |>) s
    else if bstp_info_cmp (bp_port_pv bp) (bp_desg_pv bp) =? INFO_BETTER then
      let s := bstp_set_port_role i BSTP_ROLE_DESIGNATED s in
      bstp_update_info i s
    else if bstp_same_bridgeid (pv_dbridge_id (bp_port_pv bp))
                               (pv_dbridge_id (bs_bridge_pv (bs s))) then
      bstp_set_port_role i BSTP_ROLE_BACKUP s
    else bstp_set_port_role i BSTP_ROLE_ALTERNATE s
  else s.

(** The defaults [bstp_assign_roles] starts from. *)
Definition assign_defaults (b : bstp_state) : bstp_state :=
  b <| bs_root_pv := bs_bridge_pv b |>
    <| bs_root_msg_age := 0 |>
    <| bs_root_max_age := bs_bridge_max_age b |>
    <| bs_root_fdelay := bs_bridge_fdelay b |>
    <| bs_root_htime := bs_bridge_htime b |>
    <| bs_root_port := None |>.

Definition assign_root (s : rstp) : rstp * option nat :=
  let s := upd_bs assign_defaults s in
  foldl assign_root_step (s, None) (bs_bplist (bs s)).

Definition bstp_assign_roles (s : rstp) : rstp :=
  let '(s, rbp) := assign_root s in
  for_each_port (assign_role_step rbp) s.

(** ** The role machines *)

Definition bstp_set_all_reroot (s : rstp) : rstp :=
  for_each_port (λ i, upd_port i (λ p, p <| bp_reroot := 1 |>)) s.

Definition bstp_set_all_sync (s : rstp) : rstp :=
  let s := for_each_port (λ i, upd_port i (λ p, p <| bp_sync := 1 |> <| bp_synced := 0 |>)) s in
  upd_bs (λ b, b <| bs_allsynced := 0 |>) s.

(** [rr_set] is whether the search loop finds another port whose recent root
    timer runs. *)
Definition bstp_rerooted (i : nat) (s : rstp) : bool :=
  let rr_set := existsb (λ j, negb (j =? i)%nat &&
                  tst (active (bp_recent_root_timer (ports s j)))) (bs_bplist (bs s)) in
  negb rr_set.

Definition clear_sync_flags (bp : bstp_port) : bstp_port :=
  if tst (bp_sync bp) || negb (tst (bp_synced bp)) || tst (bp_reroot bp) then
    bp <| bp_sync := 0 |> <| bp_synced := 1 |> <| bp_reroot := 0 |>
  else bp.

(** [case BSTP_ROLE_ALTERNATE] and [case BSTP_ROLE_BACKUP]. *)
Definition update_alternate (i : nat) (s : rstp) : rstp :=
  let bp := ports s i in
  let s :=
    if (tst (bs_allsynced (bs s)) && negb (tst (bp_agree bp))) ||
       (tst (bp_proposed bp) && tst (bp_agree bp)) then
      upd_port i (λ p, p <| bp_proposed := 0 |> <| bp_agree := 1 |>
                         <| bp_flags := orm (bp_flags p) BSTP_PORT_NEWINFO |>) s
    else s in
  let s :=
    if tst (bp_proposed (ports s i)) && negb (tst (bp_agree (ports s i))) then
      let s := bstp_set_all_sync s in
      upd_port i (λ p, p <| bp_proposed := 0 |>) s
    else s in
  upd_port i clear_sync_flags s.

(** [case BSTP_ROLE_ROOT], in the order of its conditions. *)
Definition root_reroot (i : nat) (s : rstp) : rstp :=
  if (bp_state (ports s i) !=? BSTP_IFSTATE_FORWARDING) &&
     negb (tst (bp_reroot (ports s i)))
  then bstp_set_all_reroot s else s.

Definition root_agree (i : nat) (s : rstp) : rstp :=
  let bp := ports s i in
  if (tst (bs_allsynced (bs s)) && negb (tst (bp_agree bp))) ||
     (tst (bp_proposed bp) && tst (bp_agree bp)) then
    upd_port i (λ p, p <| bp_proposed := 0 |> <| bp_sync := 0 |> <| bp_agree := 1 |>
                       <| bp_flags := orm (bp_flags p) BSTP_PORT_NEWINFO |>) s
  else s.

Definition root_sync (i : nat) (s : rstp) : rstp :=
  if tst (bp_proposed (ports s i)) && negb (tst (bp_agree (ports s i))) then
    let s := bstp_set_all_sync s in
    upd_port i (λ p, p <| bp_proposed := 0 |>) s
  else s.

Definition root_advance (i : nat) (s : rstp) : rstp :=
  let bp := ports s i in
  if (bp_state bp !=? BSTP_IFSTATE_FORWARDING) &&
     ((active (bp_forward_delay_timer bp) =? 0) ||
      (bstp_rerooted i s && (active (bp_recent_backup_timer bp) =? 0) &&
       (bp_protover bp =? BSTP_PROTO_RSTP))) then
    if bp_state bp =? BSTP_IFSTATE_DISCARDING
    then upd_port i (bstp_set_port_state BSTP_IFSTATE_LEARNING) s
    else if bp_state bp =? BSTP_IFSTATE_LEARNING
    then upd_port i (bstp_set_port_state BSTP_IFSTATE_FORWARDING) s
    else s
  else s.

Definition root_settle (i : nat) (s : rstp) : rstp :=
  if (bp_state (ports s i) =? BSTP_IFSTATE_FORWARDING) && tst (bp_reroot (ports s i))
  then upd_port i (λ p, p <| bp_reroot := 0 |>) s else s.

Definition update_root (i : nat) (s : rstp) : rstp :=
  root_settle i (root_advance i (root_sync i (root_agree i (root_reroot i s)))).

(** [case BSTP_ROLE_DESIGNATED], in the order of its conditions. *)
Definition desg_retire (bp : bstp_port) : bstp_port :=
  if (active (bp_recent_root_timer bp) =? 0) && tst (bp_reroot bp)
  then bp <| bp_reroot := 0 |> else bp.

Definition desg_sync (bp : bstp_port) : bstp_port :=
  if ((bp_state bp =? BSTP_IFSTATE_DISCARDING) && negb (tst (bp_synced bp))) ||
     (tst (bp_agreed bp) && negb (tst (bp_synced bp))) ||
     (tst (bp_operedge bp) && negb (tst (bp_synced bp))) ||
     (tst (bp_sync bp) && tst (bp_synced bp)) then
    bp <| bp_recent_root_timer := bstp_timer_stop (bp_recent_root_timer bp) |>
       <| bp_synced := 1 |> <| bp_sync := 0 |>
  else bp.

Definition desg_propose (bp : bstp_port) : bstp_port :=
  if (bp_state bp !=? BSTP_IFSTATE_FORWARDING) && negb (tst (bp_agreed bp)) &&
     negb (tst (bp_proposing bp)) && negb (tst (bp_operedge bp)) then
    bp <| bp_proposing := 1 |>
       <| bp_flags := orm (bp_flags bp) BSTP_PORT_NEWINFO |>
       <| bp_edge_delay_timer := bstp_timer_start (bp_edge_delay_timer bp)
            (if tst (bp_ptp_link bp) then BSTP_DEFAULT_MIGRATE_DELAY
             else bp_desg_max_age bp) |>
  else bp.

Definition desg_forward (bp : bstp_port) : bstp_port :=
  if (bp_state bp !=? BSTP_IFSTATE_FORWARDING) &&
     ((active (bp_forward_delay_timer bp) =? 0) || tst (bp_agreed bp) ||
      tst (bp_operedge bp)) &&
     ((active (bp_recent_root_timer bp) =? 0) || negb (tst (bp_reroot bp))) &&
     negb (tst (bp_sync bp)) then
    if tst (bp_agreed bp) || tst (bp_operedge bp) ||
       (bp_state bp =? BSTP_IFSTATE_LEARNING) then
      let bp := bstp_set_port_state BSTP_IFSTATE_FORWARDING bp in
      bp <| bp_agreed := bp_protover bp |>
    else if bp_state bp =? BSTP_IFSTATE_DISCARDING then
      bstp_set_port_state BSTP_IFSTATE_LEARNING bp
    else bp
  else bp.

Definition desg_discard (bp : bstp_port) : bstp_port :=
  if ((tst (bp_sync bp) && negb (tst (bp_synced bp))) ||
      (tst (bp_reroot bp) && tst (active (bp_recent_root_timer bp))) ||
      tst (bp_flags bp &&& BSTP_PORT_DISPUTED)) && negb (tst (bp_operedge bp)) &&
     (bp_state bp !=? BSTP_IFSTATE_DISCARDING) then
    let bp := bstp_set_port_state BSTP_IFSTATE_DISCARDING bp in
    bp <| bp_flags := clr (bp_flags bp) BSTP_PORT_DISPUTED |>
       <| bp_forward_delay_timer := bstp_timer_start (bp_forward_delay_timer bp)
            (if bp_protover bp =? BSTP_PROTO_RSTP then bp_desg_htime bp
             else bp_desg_fdelay bp) |>
  else bp.

Definition update_designated (bp : bstp_port) : bstp_port :=
  desg_discard (desg_forward (desg_propose (desg_sync (desg_retire bp)))).

Definition bstp_update_roles (i : nat) (s : rstp) : rstp :=
  let role := bp_role (ports s i) in
  let s :=
    if role =? BSTP_ROLE_DISABLED then upd_port i clear_sync_flags s
    else if (role =? BSTP_ROLE_ALTERNATE) || (role =? BSTP_ROLE_BACKUP)
    then update_alternate i s
    else if role =? BSTP_ROLE_ROOT then update_root i s
    else if role =? BSTP_ROLE_DESIGNATED then upd_port i update_designated s
    else s in
  if tst (bp_flags (ports s i) &&& BSTP_PORT_NEWINFO) then bstp_transmit i s else s.

Definition bstp_update_state (i : nat) (s : rstp) : rstp :=
  let s :=
    if tst (bs_allsynced (bs s)) then s
    else
      let synced := forallb (λ j, tst (bp_synced (ports s j)) ||
                      (bp_role (ports s j) =? BSTP_ROLE_ROOT)) (bs_bplist (bs s)) in
      upd_bs (λ b, b <| bs_allsynced := bit synced |>) s in
  let s := bstp_update_roles i s in
  bstp_update_tc i s.

(** ** Reception *)

Definition bstp_set_timer_msgage (bp : bstp_port) : bstp_port :=
  if bp_port_msg_age bp + BSTP_MESSAGE_AGE_INCR <=? bp_port_max_age bp
  then bp <| bp_message_age_timer :=
         bstp_timer_start (bp_message_age_timer bp) (bp_port_htime bp * 3) |>
  else bp <| bp_message_age_timer := bstp_timer_start (bp_message_age_timer bp) 0 |>.

(** [if (cu->cu_proposal && cu->cu_forwarding == 0) bp->bp_proposed = 1;] *)
Definition note_proposal (cu : bstp_config_unit) (bp : bstp_port) : bstp_port :=
  if tst (cu_proposal cu) && (cu_forwarding cu =? 0) then bp <| bp_proposed := 1 |> else bp.

(** The topology change flags of the message. *)
Definition note_tc (cu : bstp_config_unit) (bp : bstp_port) : bstp_port :=
  let bp := if tst (cu_topology_change cu) then bp <| bp_rcvdtc := 1 |> else bp in
  if tst (cu_topology_change_ack cu) then bp <| bp_rcvdtca := 1 |> else bp.

(** The port part of [case BSTP_PDU_SUPERIOR]. *)
Definition record_superior (cu : bstp_config_unit) (bp : bstp_port) : bstp_port :=
  let bp := bp <| bp_agreed := 0 |> <| bp_proposing := 0 |> in
  let bp := note_tc cu (note_proposal cu bp) in
  let bp :=
    if tst (bp_agree bp) && negb (bstp_pdu_bettersame bp BSTP_INFO_RECEIVED)
    then bp <| bp_agree := 0 |> else bp in
  let bp := bp
    <| bp_port_pv := cu_pv cu |>
    <| bp_port_msg_age := cu_message_age cu |>
    <| bp_port_max_age := cu_max_age cu |>
    <| bp_port_fdelay := cu_forward_delay cu |>
    <| bp_port_htime := if cu_hello_time cu >? BSTP_MIN_HELLO_TIME
                        then cu_hello_time cu else BSTP_MIN_HELLO_TIME |> in
  let bp := bstp_set_timer_msgage bp in
  bp <| bp_infois := BSTP_INFO_RECEIVED |>.

Definition bstp_received_bpdu (i : nat) (s : rstp) : rstp :=
  let cu := bp_msg_cu (ports s i) in
  let infois := bp_infois (ports s i) in
  if (infois =? BSTP_INFO_DISABLED) || (infois =? BSTP_INFO_AGED) then s
  else
    let type := bstp_pdu_rcvtype (ports s i) cu in
    if type =? BSTP_PDU_SUPERIOR then
      let s := upd_bs (λ b, b <| bs_allsynced := 0 |>) s in
      let s := upd_port i (record_superior cu) s in
      let s := bstp_assign_roles s in
      bstp_update_state i s
    else if type =? BSTP_PDU_REPEATED then
      let s := upd_port i (λ p, bstp_set_timer_msgage (note_tc cu (note_proposal cu p))) s in
      bstp_update_state i s
    else if type =? BSTP_PDU_INFERIOR then
      let s :=
        if tst (cu_learning cu)
        then upd_port i (λ p, p <| bp_agreed := 1 |> <| bp_proposing := 0 |>) s else s in
      bstp_update_state i s
    else if type =? BSTP_PDU_INFERIORALT then
      let s :=
        if tst (cu_agree cu) && tst (bp_ptp_link (ports s i))
        then upd_port i (λ p, p <| bp_agreed := 1 |> <| bp_proposing := 0 |>) s
        else upd_port i (λ p, p <| bp_agreed := 0 |>) s in
      let s := upd_port i (note_tc cu) s in
      bstp_update_state i s
    else s.

Definition bstp_received_tcn (i : nat) (s : rstp) : rstp :=
  let s := upd_port i (λ p, p <| bp_rcvdtcn := 1 |>) s in
  bstp_update_tc i s.

(** Decoding writes the unit [bp->bp_msg_cu] of the port. *)
Definition decode_to_port (i : nat) (pdu : bstp_cbpdu) (s : rstp) : rstp :=
  upd_port i (λ p, p <| bp_msg_cu := bstp_decode_bpdu p pdu (bp_msg_cu p) |>) s.

Definition bstp_received_stp (i : nat) (pdu : bstp_cbpdu) (s : rstp) : rstp :=
  if cbu_bpdutype pdu =? BSTP_MSGTYPE_TCN then bstp_received_tcn i s
  else if cbu_bpdutype pdu =? BSTP_MSGTYPE_CFG then
    bstp_received_bpdu i (decode_to_port i pdu s)
  else s.

Definition bstp_received_rstp (i : nat) (pdu : bstp_cbpdu) (s : rstp) : rstp :=
  if cbu_bpdutype pdu !=? BSTP_MSGTYPE_RSTP then s
  else bstp_received_bpdu i (decode_to_port i pdu s).

(** The part of [rstp_process_bpdu] after the port has been found. *)
Definition process_bpdu_on (i : nat) (pdu : bstp_cbpdu) (s : rstp) : rstp :=
  if (cbu_dsap pdu !=? LLC_8021D_LSAP) || (cbu_ssap pdu !=? LLC_8021D_LSAP) ||
     (cbu_ctl pdu !=? LLC_UI) then s
  else if cbu_protoid pdu !=? BSTP_PROTO_ID then s
  else
    let pdu :=
      if cbu_protover pdu >? BSTP_PROTO_MAX
      then pdu <| cbu_protover := BSTP_PROTO_MAX |> else pdu in
    let deliver (s : rstp) :=
      let s := upd_port i (λ p, p <| bp_operedge := 0 |>
                 <| bp_edge_delay_timer :=
                      bstp_timer_start (bp_edge_delay_timer p) BSTP_DEFAULT_MIGRATE_DELAY |>) s in
      if cbu_protover pdu =? BSTP_PROTO_STP then bstp_received_stp i pdu s
      else if cbu_protover pdu =? BSTP_PROTO_RSTP then bstp_received_rstp i pdu s
      else s in
    if cbu_protover pdu !=? bp_protover (ports s i) then
      if tst (bp_flags (ports s i) &&& BSTP_PORT_CANMIGRATE)
      then deliver (bstp_set_port_proto i (cbu_protover pdu) s)
      else s
    else deliver s.

(** ** Link state *)

Definition bstp_calc_path_cost (bp : bstp_port) : Z :=
  if tst (bp_flags bp &&& BSTP_PORT_ADMCOST) then bp_path_cost bp
  else
    let path_cost := u32 (junk_path_cost E) in
    let path_cost :=
      if path_cost >? BSTP_MAX_PATH_COST then BSTP_MAX_PATH_COST else path_cost in
    if (bp_protover bp =? BSTP_PROTO_STP) && (path_cost >? 65535) then 65535 else path_cost.

Definition bstp_enable_port (i : nat) (s : rstp) : rstp :=
  let s := upd_port i (λ p, p <| bp_infois := BSTP_INFO_AGED |>) s in
  bstp_assign_roles s.

Definition bstp_disable_port (i : nat) (s : rstp) : rstp :=
  let s := upd_port i (λ p, p <| bp_infois := BSTP_INFO_DISABLED |>) s in
  let s := upd_port i (bstp_set_port_state BSTP_IFSTATE_DISCARDING) s in
  bstp_assign_roles s.

Definition bstp_ifupdstatus (i : nat) (s : rstp) : rstp :=
  let ifp := u16 (bp_ifp (ports s i)) in
  if get_port_oper_state E ifp !=? IF_DOWN then
    let s :=
      if tst (bp_flags (ports s i) &&& BSTP_PORT_PNDCOST) then
        upd_port i (λ p, p <| bp_path_cost := bstp_calc_path_cost p |>
                           <| bp_flags := clr (bp_flags p) BSTP_PORT_PNDCOST |>) s
      else s in
    if bp_role (ports s i) =? BSTP_ROLE_DISABLED then bstp_enable_port i s else s
  else if bp_infois (ports s i) !=? BSTP_INFO_DISABLED then bstp_disable_port i s
  else s.

(** ** The tick *)

Definition bstp_message_age_expiry (i : nat) (s : rstp) : rstp :=
  if bp_infois (ports s i) =? BSTP_INFO_RECEIVED then
    let s := upd_port i (λ p, p <| bp_infois := BSTP_INFO_AGED |>) s in
    bstp_assign_roles s
  else s.

Definition bstp_migrate_delay_expiry (bp : bstp_port) : bstp_port :=
  bp <| bp_flags := orm (bp_flags bp) BSTP_PORT_CANMIGRATE |>.

Definition bstp_edge_delay_expiry (bp : bstp_port) : bstp_port :=
  if tst (bp_flags bp &&& BSTP_PORT_AUTOEDGE) && (bp_protover bp =? BSTP_PROTO_RSTP) &&
     tst (bp_proposing bp) && (bp_role bp =? BSTP_ROLE_DESIGNATED)
  then bp <| bp_operedge := 1 |> else bp.

(** [bstp_timer_expired (&bp->f)]: one second less on the timer [f] of the port. *)
Definition tick_timer (f : bstp_port → bstp_timer) `{Settable _ _ f} (i : nat) (s : rstp) :
    rstp * bool :=
  let '(t, e) := bstp_timer_expired (f (ports s i)) in
  (upd_port i (λ p, p <| f := t |>) s, e).

(** The timers no event depends on. *)
Definition tick_quiet (p : bstp_port) : bstp_port :=
  let p := p <| bp_tc_timer := (bstp_timer_expired (bp_tc_timer p)).1 |> in
  let p := p <| bp_recent_root_timer := (bstp_timer_expired (bp_recent_root_timer p)).1 |> in
  let p := p <| bp_forward_delay_timer := (bstp_timer_expired (bp_forward_delay_timer p)).1 |> in
  p <| bp_recent_backup_timer := (bstp_timer_expired (bp_recent_backup_timer p)).1 |>.

(** The body of the second loop of [bstp_tick]. *)
Definition tick_port (i : nat) (s : rstp) : rstp :=
  let s := upd_port i tick_quiet s in
  let '(s, e) := tick_timer bp_hello_timer i s in
  let s := if e : bool then bstp_hello_timer_expiry i s else s in
  let '(s, e) := tick_timer bp_message_age_timer i s in
  let s := if e : bool then bstp_message_age_expiry i s else s in
  let '(s, e) := tick_timer bp_migrate_delay_timer i s in
  let s := if e : bool then upd_port i bstp_migrate_delay_expiry s else s in
  let '(s, e) := tick_timer bp_edge_delay_timer i s in
  let s := if e : bool then upd_port i bstp_edge_delay_expiry s else s in
  let s := bstp_update_state i s in
  upd_port i (λ p, if bp_txcount p >? 0 then p <| bp_txcount := bp_txcount p - 1 |> else p) s.

Definition bstp_tick (s : rstp) : rstp :=
  if bs_running (bs s) =? 0 then s
  else
    let '(t, e) := bstp_timer_expired (bs_link_timer (bs s)) in
    let s := upd_bs (λ b, b <| bs_link_timer := t |>) s in
    let s :=
      if e : bool then
        let s := for_each_port bstp_ifupdstatus s in
        upd_bs (λ b, b <| bs_link_timer := bstp_timer_start (bs_link_timer b) BSTP_LINK_TIMER |>) s
      else s in
    let s := for_each_port tick_port s in
    upd_bs (λ b, b <| bs_bstpcallout := 1 |>) s.

(** ** Initialisation and configuration *)

Definition bstp_reinit (s : rstp) : rstp :=
  let id := bridge_id_of (bs_bridge_priority (bs s)) (get_bridge_mac_address E) in
  let s := upd_bs (λ b, b <| bs_bridge_pv := mk_pv id id 0 0 0 |>) s in
  let s :=
    if tst (bs_running (bs s)) && (bs_bstpcallout (bs s) =? 0)
    then upd_bs (λ b, b <| bs_bstpcallout := 1 |>) s else s in
  let s := for_each_port (λ i s,
    let s := upd_port i (λ p, p <| bp_port_id :=
               u16 ((bp_priority p ≪ 8) ||| (bp_ifp p &&& 0xfff)) |>) s in
    bstp_ifupdstatus i s) s in
  let s := bstp_assign_roles s in
  upd_bs (λ b, b <| bs_link_timer := bstp_timer_start (bs_link_timer b) BSTP_LINK_TIMER |>) s.

(** The setters return the new state and the C return value. *)
Definition bstp_set_htime (t : Z) (s : rstp) : rstp * Z :=
  let t := t * BSTP_TICK_VAL in
  if (t <? BSTP_MIN_HELLO_TIME) || (t >? BSTP_MAX_HELLO_TIME) then (s, -1)
  else (bstp_reinit (upd_bs (λ b, b <| bs_bridge_htime := u16 t |>) s), 0).

Definition bstp_set_fdelay (t : Z) (s : rstp) : rstp * Z :=
  let t := t * BSTP_TICK_VAL in
  if (t <? BSTP_MIN_FORWARD_DELAY) || (t >? BSTP_MAX_FORWARD_DELAY) then (s, -1)
  else (bstp_reinit (upd_bs (λ b, b <| bs_bridge_fdelay := u16 t |>) s), 0).

Definition bstp_set_maxage (t : Z) (s : rstp) : rstp * Z :=
  let t := t * BSTP_TICK_VAL in
  if (t <? BSTP_MIN_MAX_AGE) || (t >? BSTP_MAX_MAX_AGE) then (s, -1)
  else (bstp_reinit (upd_bs (λ b, b <| bs_bridge_max_age := u16 t |>) s), 0).

Definition bstp_set_holdcount (count : Z) (s : rstp) : rstp * Z :=
  if (count <? BSTP_MIN_HOLD_COUNT) || (count >? BSTP_MAX_HOLD_COUNT) then (s, -1)
  else
    let s := upd_bs (λ b, b <| bs_txholdcount := u8 count |>) s in
    (for_each_port (λ i, upd_port i (λ p, p <| bp_txcount := 0 |>)) s, 0).

Definition bstp_set_protocol (proto : Z) (s : rstp) : rstp * Z :=
  if (proto =? BSTP_PROTO_STP) || (proto =? BSTP_PROTO_RSTP) then
    let s := upd_bs (λ b, b <| bs_protover := u8 proto |>
                            <| bs_bridge_htime := BSTP_DEFAULT_HELLO_TIME |>) s in
    let s := for_each_port (λ i s,
      let s := upd_port i (λ p, p <| bp_infois := BSTP_INFO_DISABLED |>) s in
      let s := upd_port i (λ p, p <| bp_txcount := 0 |>) s in
      let s := bstp_set_port_proto i (bs_protover (bs s)) s in
      let s := bstp_set_port_role i BSTP_ROLE_DISABLED s in
      let s := bstp_set_port_tc i BSTP_TCSTATE_INACTIVE s in
      upd_port i (λ p, p <| bp_recent_backup_timer :=
                    bstp_timer_stop (bp_recent_backup_timer p) |>) s) s in
    (bstp_reinit s, 0)
  else (s, -1).

Definition bstp_set_priority (pri : Z) (s : rstp) : rstp * Z :=
  if (pri <? 0) || (pri >? BSTP_MAX_PRIORITY) then (s, -1)
  else
    let pri := pri - Z.rem pri 4096 in
    (bstp_reinit (upd_bs (λ b, b <| bs_bridge_priority := u16 pri |>) s), 0).

Definition bstp_set_port_priority (i : nat) (pri : Z) (s : rstp) : rstp * Z :=
  if (pri <? 0) || (pri >? BSTP_MAX_PORT_PRIORITY) then (s, -1)
  else
    let pri := pri - Z.rem pri 16 in
    (bstp_reinit (upd_port i (λ p, p <| bp_priority := u8 pri |>) s), 0).

Definition bstp_set_path_cost (i : nat) (path_cost : Z) (s : rstp) : rstp * Z :=
  if path_cost >? BSTP_MAX_PATH_COST then (s, -1)
  else
    let path_cost :=
      if (bp_protover (ports s i) =? BSTP_PROTO_STP) && (path_cost >? 65535)
      then 65535 else path_cost in
    let s :=
      if path_cost =? 0 then
        let s := upd_port i (λ p, p <| bp_flags := clr (bp_flags p) BSTP_PORT_ADMCOST |>) s in
        upd_port i (λ p, p <| bp_path_cost := bstp_calc_path_cost p |>) s
      else
        upd_port i (λ p, p <| bp_path_cost := path_cost |>
                           <| bp_flags := orm (bp_flags p) BSTP_PORT_ADMCOST |>) s in
    (bstp_reinit s, 0).

Definition bstp_set_edge (i : nat) (set : Z) (s : rstp) : rstp * Z :=
  (upd_port i (λ p, p <| bp_operedge := u8 set |>
     <| bp_flags := if u8 set =? 0 then clr (bp_flags p) BSTP_PORT_ADMEDGE
                    else orm (bp_flags p) BSTP_PORT_ADMEDGE |>) s, 0).

Definition bstp_set_autoedge (i : nat) (set : Z) (s : rstp) : rstp * Z :=
  (if tst set then
     let s := upd_port i (λ p, p <| bp_flags := orm (bp_flags p) BSTP_PORT_AUTOEDGE |>) s in
     if active (bp_edge_delay_timer (ports s i)) =? 0
     then upd_port i bstp_edge_delay_expiry s else s
   else upd_port i (λ p, p <| bp_flags := clr (bp_flags p) BSTP_PORT_AUTOEDGE |>) s, 0).

Definition bstp_set_ptp (i : nat) (set : Z) (s : rstp) : rstp * Z :=
  (upd_port i (λ p, p <| bp_ptp_link := u8 set |>) s, 0).

Definition bstp_set_autoptp (i : nat) (set : Z) (s : rstp) : rstp * Z :=
  (if tst set then
     let s := upd_port i (λ p, p <| bp_flags := orm (bp_flags p) BSTP_PORT_AUTOPTP |>) s in
     if bp_role (ports s i) !=? BSTP_ROLE_DISABLED then bstp_ifupdstatus i s else s
   else upd_port i (λ p, p <| bp_flags := clr (bp_flags p) BSTP_PORT_AUTOPTP |>) s, 0).

(** [bstp_notify_rtage] with no callback installed: only the flush flag of the
    port changes. *)
Definition bstp_notify_rtage (i : nat) (s : rstp) : rstp :=
  upd_port i (λ p, p <| bp_fdbflush := 0 |>) s.

Definition bstp_attach (vlan : Z) (s : rstp) : rstp :=
  upd_bs (λ b, b
    <| bs_bstpcallout := 0 |>
    <| bs_bplist := [] |>
    <| bs_bridge_max_age := BSTP_DEFAULT_MAX_AGE |>
    <| bs_bridge_htime := BSTP_DEFAULT_HELLO_TIME |>
    <| bs_bridge_fdelay := BSTP_DEFAULT_FORWARD_DELAY |>
    <| bs_bridge_priority := BSTP_DEFAULT_BRIDGE_PRIORITY |>
    <| bs_hold_time := BSTP_DEFAULT_HOLD_TIME |>
    <| bs_migration_delay := BSTP_DEFAULT_MIGRATE_DELAY |>
    <| bs_txholdcount := BSTP_DEFAULT_HOLD_COUNT |>
    <| bs_protover := BSTP_PROTO_RSTP |>
    <| vlan_id := vlan |>) s.

Definition bstp_init (s : rstp) : rstp :=
  bstp_reinit (upd_bs (λ b, b <| bs_running := 1 |>) s).

Definition bstp_enable (i : nat) (s : rstp) : rstp :=
  let s := upd_port i (λ p, p <| bp_active := 1 |>
                              <| bp_flags := orm (bp_flags p) BSTP_PORT_NEWINFO |>) s in
  let s := bstp_reinit s in
  bstp_update_roles i s.

Definition bstp_disable (i : nat) (s : rstp) : rstp :=
  let s := bstp_disable_port i s in
  let s := upd_bs (λ b, b <| bs_bplist := filter (λ j, j ≠ i) (bs_bplist b) |>) s in
  let s := upd_port i (λ p, p <| bp_active := 0 |>) s in
  bstp_reinit s.

Definition bstp_create (i : nat) (ifp : Z) (s : rstp) : rstp * Z :=
  let s := upd_port i (λ _, port0 <| bp_ifp := ifp |>
             <| bp_priority := BSTP_DEFAULT_PORT_PRIORITY |>
             <| bp_infois := BSTP_INFO_DISABLED |>
             <| bp_flags := BSTP_PORT_AUTOEDGE ||| BSTP_PORT_AUTOPTP |>) s in
  let s := upd_port i (bstp_set_port_state BSTP_IFSTATE_DISCARDING) s in
  let s := bstp_set_port_proto i (bs_protover (bs s)) s in
  let s := bstp_set_port_role i BSTP_ROLE_DISABLED s in
  let s := bstp_set_port_tc i BSTP_TCSTATE_INACTIVE s in
  let s := upd_port i (λ p, p <| bp_path_cost := bstp_calc_path_cost p |>) s in
  let s := upd_bs (λ b, b <| bs_bplist := bs_bplist b ++ [i] |>) s in
  let s := if get_port_oper_state E ifp =? IF_UP then bstp_enable i s else s in
  (s, 0).

Definition rstp_create_port (port : Z) (s : rstp) : rstp * Z :=
  if malloc_ok E then
    let i := nextp s in
    bstp_create i (u16 port) (s <| nextp := S i |>)
  else (s, -1).

Definition bstp_getstate (i : nat) (s : rstp) : Z :=
  let bp := ports s i in
  let state := bp_state bp in
  if bs_protover (bs s) !=? BSTP_PROTO_STP then state
  else if bp_role bp =? BSTP_ROLE_DISABLED then BSTP_IFSTATE_DISABLED
  else if (bp_role bp =? BSTP_ROLE_ALTERNATE) || (bp_role bp =? BSTP_ROLE_BACKUP)
  then BSTP_IFSTATE_BLOCKING
  else if state =? BSTP_IFSTATE_DISCARDING then BSTP_IFSTATE_LISTENING
  else state.

End Operations.
