(* ===== verification/RstpFrame.v ===== *)
(** * Rapid spanning tree: what the operations leave alone

    [keeps g s s'] says that the step from [s] to [s'] changes neither the bridge
    nor the part [g] of any port.  Transmission and the marking of topology
    changes keep everything but the fields [tx_core] clears; the topology change
    machine keeps everything but those [core] clears. *)

From stdpp Require Import sets.
From S2P Require Import Prelude RstpTypes Rstp.

Definition tx_core (p : bstp_port) : bstp_port :=
  mk_port (bp_ifp p) (bp_active p) (bp_protover p) 0 (bp_path_cost p)
    (bp_port_msg_age p) (bp_port_max_age p) (bp_port_fdelay p) (bp_port_htime p)
    (bp_desg_msg_age p) (bp_desg_max_age p) (bp_desg_fdelay p) (bp_desg_htime p)
    (bp_edge_delay_timer p) (bp_forward_delay_timer p) timer0
    (bp_message_age_timer p) (bp_migrate_delay_timer p) (bp_recent_backup_timer p)
    (bp_recent_root_timer p) timer0 (bp_msg_cu p) (bp_desg_pv p) (bp_port_pv p)
    (bp_port_id p) (bp_state p) (bp_tcstate p) (bp_role p) (bp_infois p) 0 0
    (bp_fdbflush p) (bp_priority p) (bp_ptp_link p) (bp_agree p) (bp_agreed p)
    (bp_sync p) (bp_synced p) (bp_proposing p) (bp_proposed p) (bp_operedge p)
    (bp_reroot p) 0 0 0 (bp_forward_transitions p) 0.

Definition core (p : bstp_port) : bstp_port :=
  mk_port (bp_ifp p) (bp_active p) (bp_protover p) 0 (bp_path_cost p)
    (bp_port_msg_age p) (bp_port_max_age p) (bp_port_fdelay p) (bp_port_htime p)
    (bp_desg_msg_age p) (bp_desg_max_age p) (bp_desg_fdelay p) (bp_desg_htime p)
    (bp_edge_delay_timer p) (bp_forward_delay_timer p) timer0
    (bp_message_age_timer p) (bp_migrate_delay_timer p) (bp_recent_backup_timer p)
    (bp_recent_root_timer p) timer0 (bp_msg_cu p) (bp_desg_pv p) (bp_port_pv p)
    (bp_port_id p) (bp_state p) 0 (bp_role p) (bp_infois p) 0 0 0 (bp_priority p)
    (bp_ptp_link p) (bp_agree p) (bp_agreed p) (bp_sync p) (bp_synced p)
    (bp_proposing p) (bp_proposed p) (bp_operedge p) (bp_reroot p) 0 0 0
    (bp_forward_transitions p) 0.

Definition keeps {A} (g : bstp_port → A) (s s' : rstp) : Prop :=
  bs s' = bs s ∧ nextp s' = nextp s ∧ ∀ j, g (ports s' j) = g (ports s j).

Create HintDb rstp_keeps discriminated.
#[export] Hint Constants Opaque : rstp_keeps.

(** ** Ports after an update *)

Lemma ports_upd_port i f s j :
  ports (upd_port i f s) j = if decide (i = j) then f (ports s i) else ports s j.
Proof.
  unfold upd_port; cbn. destruct (decide (i = j)) as [->|].
  - by rewrite fn_lookup_insert.
  - by rewrite fn_lookup_insert_ne.
Qed.

Lemma ports_upd_port_eq i f s : ports (upd_port i f s) i = f (ports s i).
Proof. rewrite ports_upd_port. by rewrite decide_True. Qed.

Lemma ports_upd_port_ne i j f s : i ≠ j → ports (upd_port i f s) j = ports s j.
Proof. intros. rewrite ports_upd_port. by rewrite decide_False. Qed.

Lemma ports_upd_bs f s j : ports (upd_bs f s) j = ports s j.
Proof. done. Qed.

Lemma bs_upd_port i f s : bs (upd_port i f s) = bs s.
Proof. done. Qed.

Lemma nextp_upd_port i f s : nextp (upd_port i f s) = nextp s.
Proof. done. Qed.

(** A loop that updates every port of the list with the same function. *)
Lemma for_each_upd_bs f s :
  bs (for_each_port (λ i, upd_port i f) s) = bs s ∧
  nextp (for_each_port (λ i, upd_port i f) s) = nextp s.
Proof.
  unfold for_each_port. generalize (bs_bplist (bs s)). intros l.
  revert s. induction l as [|k l IH]; intros s; cbn; [done|].
  destruct (IH (upd_port k f s)) as [-> ->]. done.
Qed.

Lemma for_each_upd_ports f s j :
  NoDup (bs_bplist (bs s)) →
  ports (for_each_port (λ i, upd_port i f) s) j =
  if decide (j ∈ bs_bplist (bs s)) then f (ports s j) else ports s j.
Proof.
  unfold for_each_port. generalize (bs_bplist (bs s)). intros l.
  revert s. induction l as [|k l IH]; intros s Hd; cbn.
  - by rewrite decide_False by apply not_elem_of_nil.
  - apply list.NoDup_cons in Hd as [Hk Hd]. rewrite IH, !ports_upd_port by done.
    repeat case_decide; subst; set_solver.
Qed.

(** ** The frame relation *)

Section Keeps.
Context {A : Type} (g : bstp_port → A).

Lemma keeps_refl s : keeps g s s.
Proof. done. Qed.

Lemma keeps_trans s x y : keeps g s x → keeps g x y → keeps g s y.
Proof. intros (?&?&H1) (?&?&H2). split_and!; [congruence..|]. intros j. by rewrite H2. Qed.

Lemma keeps_port s x i f :
  (∀ p, g (f p) = g p) → keeps g s x → keeps g s (upd_port i f x).
Proof.
  intros Hf Hx. eapply keeps_trans; [done|]. split_and!; try done.
  intros j. rewrite ports_upd_port. case_decide; subst; auto.
Qed.

Lemma keeps_sent s x l : keeps g s x → keeps g s (x <| sent := l |>).
Proof. done. Qed.

Lemma keeps_if s (b : bool) x y :
  keeps g s x → keeps g s y → keeps g s (if b then x else y).
Proof. by destruct b. Qed.

Lemma keeps_for_each s x body :
  (∀ i y, keeps g s y → keeps g s (body i y)) →
  keeps g s x → keeps g s (for_each_port body x).
Proof.
  unfold for_each_port. intros Hb. generalize (bs_bplist (bs x)). intros l.
  revert x. induction l as [|i l IH]; intros x Hx; cbn; auto.
Qed.

End Keeps.

(** A coarser view is kept as well. *)
Lemma keeps_coarser {A B} (g : bstp_port → A) (h : bstp_port → B) s x :
  (∀ p q, g p = g q → h p = h q) → keeps g s x → keeps h s x.
Proof. intros H (?&?&?). split_and!; auto. Qed.

Lemma tx_core_core p q : tx_core p = tx_core q → core p = core q.
Proof. intros H. destruct p, q. injection H; intros; subst. reflexivity. Qed.

#[export] Hint Resolve keeps_refl keeps_sent keeps_if : rstp_keeps.
#[export] Hint Extern 1 (keeps _ _ (upd_port _ _ _)) =>
  apply keeps_port; [reflexivity|] : rstp_keeps.
#[export] Hint Extern 1 (keeps _ _ (for_each_port _ _)) =>
  apply keeps_for_each; [intros; cbv zeta beta|] : rstp_keeps.

(** Proves a [keeps] goal on a composition of updates, case by case. *)
Ltac keeps := cbv zeta; auto 40 with rstp_keeps.

(** The weaker relation for operations that change the bridge as well. *)
Definition same {A} (g : bstp_port → A) (s s' : rstp) : Prop :=
  ∀ j, g (ports s' j) = g (ports s j).

Section Same.
Context {A : Type} (g : bstp_port → A).

Lemma same_port s x i f :
  (∀ p, g (f p) = g p) → same g s x → same g s (upd_port i f x).
Proof.
  intros Hf Hx j. rewrite ports_upd_port. case_decide; subst; [rewrite Hf|]; apply Hx.
Qed.

Lemma same_bs s x f : same g s x → same g s (upd_bs f x).
Proof. done. Qed.

Lemma same_if s (b : bool) x y : same g s x → same g s y → same g s (if b then x else y).
Proof. by destruct b. Qed.

Lemma same_for_each s x body :
  (∀ i y, same g s y → same g s (body i y)) → same g s x → same g s (for_each_port body x).
Proof.
  unfold for_each_port. intros Hb. generalize (bs_bplist (bs x)). intros l.
  revert x. induction l as [|i l IH]; intros x Hx; cbn; auto.
Qed.

End Same.

#[export] Hint Resolve same_bs same_if : rstp_keeps.
#[export] Hint Extern 1 (same _ _ (upd_port _ _ _)) =>
  apply same_port; [reflexivity|] : rstp_keeps.
#[export] Hint Extern 1 (same _ _ (for_each_port _ _)) =>
  apply same_for_each; [intros; cbv zeta beta|] : rstp_keeps.

(** ** Transmission *)

Section Transmission.
Context (E : rstp_env).

Lemma send_bpdu_keeps s x i b :
  keeps tx_core s x → keeps tx_core s (bstp_send_bpdu E i b x).
Proof. intros. unfold bstp_send_bpdu. keeps. Qed.

Lemma transmit_bpdu_keeps s x i :
  keeps tx_core s x → keeps tx_core s (bstp_transmit_bpdu E i x).
Proof. intros. unfold bstp_transmit_bpdu. cbv zeta. by apply send_bpdu_keeps. Qed.

Lemma transmit_tcn_keeps s x i :
  keeps tx_core s x → keeps tx_core s (bstp_transmit_tcn E i x).
Proof. intros. unfold bstp_transmit_tcn. keeps. Qed.

#[local] Hint Resolve transmit_bpdu_keeps transmit_tcn_keeps : rstp_keeps.

Lemma transmit_fuel_keeps n s x i :
  keeps tx_core s x → keeps tx_core s (bstp_transmit_fuel E n i x).
Proof.
  revert x. induction n as [|n IH]; intros x Hx; cbn; [done|].
  unfold bstp_transmit_with, bstp_hello_timer_expiry_with. keeps.
Qed.

Lemma transmit_keeps s x i :
  keeps tx_core s x → keeps tx_core s (bstp_transmit E i x).
Proof. apply transmit_fuel_keeps. Qed.

(** ** The topology change machine *)

Lemma set_timer_tc_keeps s x i :
  keeps tx_core s x → keeps tx_core s (bstp_set_timer_tc i x).
Proof. intros. unfold bstp_set_timer_tc. keeps. Qed.

Lemma set_other_tcprop_keeps s x i :
  keeps tx_core s x → keeps tx_core s (bstp_set_other_tcprop i x).
Proof. intros. unfold bstp_set_other_tcprop. keeps. Qed.

#[local] Hint Resolve transmit_keeps set_timer_tc_keeps set_other_tcprop_keeps : rstp_keeps.

(** The machine leaves no port waiting in a transient state: a state other than
    [INACTIVE] is never followed by [INACTIVE] within [bstp_set_port_tc]. *)
Lemma set_port_tc_tcstate s i st :
  st ≠ BSTP_TCSTATE_INACTIVE →
  bp_tcstate (ports (bstp_set_port_tc E i st s) i) ≠ BSTP_TCSTATE_INACTIVE.
Proof.
  intros Hst. unfold bstp_set_port_tc. cbv zeta. split_if; bool_to_prop;
    rewrite ?ports_upd_port_eq; cbn; try done.
Qed.

Lemma keeps_core s x y : keeps core s x → keeps tx_core x y → keeps core s y.
Proof.
  intros. eapply keeps_trans; [done|]. by eapply keeps_coarser; [apply tx_core_core|].
Qed.

#[local] Hint Extern 2 (keeps core _ (bstp_set_timer_tc _ _)) =>
  eapply keeps_core; [|apply set_timer_tc_keeps, keeps_refl] : rstp_keeps.
#[local] Hint Extern 2 (keeps core _ (bstp_set_other_tcprop _ _)) =>
  eapply keeps_core; [|apply set_other_tcprop_keeps, keeps_refl] : rstp_keeps.
#[local] Hint Extern 2 (keeps core _ (bstp_transmit _ _ _)) =>
  eapply keeps_core; [|apply transmit_keeps, keeps_refl] : rstp_keeps.

Lemma set_port_tc_keeps s x i st :
  keeps core s x → keeps core s (bstp_set_port_tc E i st x).
Proof. intros. unfold bstp_set_port_tc. keeps. Qed.

#[local] Hint Resolve set_port_tc_keeps : rstp_keeps.

Lemma update_tc_keeps s x i :
  keeps core s x → keeps core s (bstp_update_tc E i x).
Proof. intros. unfold bstp_update_tc. keeps. Qed.

End Transmission.

#[export] Hint Resolve transmit_keeps set_timer_tc_keeps set_other_tcprop_keeps
  set_port_tc_keeps update_tc_keeps : rstp_keeps.
