(* ===== verification/RstpSteps.v ===== *)
(** * Rapid spanning tree: the elementary steps of the operations

    Every operation of [Rstp] is a sequence of elementary updates: of the fields
    a property tracks, guarded by the conditions the code checks, or of fields no
    property tracks.  The invariants of [RstpInv] are then proved once, by rule
    induction on the elementary steps. *)

From stdpp Require Import relations.
From S2P Require Import Prelude RstpTypes Rstp RstpFrame.

(** The tracked fields of a port. *)
Definition key (p : bstp_port) : Z * Z * Z * Z * Z * Z :=
  (bp_role p, bp_state p, bp_infois p, bp_tcstate p, bp_fdbflush p, bp_txcount p).

(** The tracked fields of the bridge. *)
Definition bkey (b : bstp_state) : list nat * Z := (bs_bplist b, bs_txholdcount b).

Definition is_role (r : Z) : Prop := 0 ≤ r ≤ 4.
Definition is_info (v : Z) : Prop := 1 ≤ v ≤ 4.

(** The topology change machine of the port is not waiting for a flush. *)
Definition tc_live (p : bstp_port) : Prop :=
  ¬ (bp_tcstate p = BSTP_TCSTATE_INACTIVE ∧ bp_fdbflush p = 1).

(** A port as [bstp_create] links it. *)
Definition created (p : bstp_port) : Prop :=
  key p = (BSTP_ROLE_DISABLED, BSTP_IFSTATE_DISCARDING, BSTP_INFO_DISABLED,
           BSTP_TCSTATE_INACTIVE, 1, 0).

(** The elementary steps. *)
Inductive mstep : rstp → rstp → Prop :=
  | m_port s i f : (∀ p, key (f p) = key p) → mstep s (upd_port i f s)
  | m_bs s f : (∀ b, bkey (f b) = bkey b) → mstep s (upd_bs f s)
  | m_sent s l : mstep s (s <| sent := l |>)
  | m_role s i r : is_role r → mstep s (upd_port i (change_role r) s)
  | m_discard s i : mstep s (upd_port i (bstp_set_port_state BSTP_IFSTATE_DISCARDING) s)
  | m_advance s i st :
      bp_role (ports s i) = BSTP_ROLE_ROOT ∨ bp_role (ports s i) = BSTP_ROLE_DESIGNATED →
      st = BSTP_IFSTATE_LEARNING ∨ st = BSTP_IFSTATE_FORWARDING →
      mstep s (upd_port i (bstp_set_port_state st) s)
  | m_designated s i :
      bp_role (ports s i) = BSTP_ROLE_DESIGNATED → mstep s (upd_port i update_designated s)
  | m_info s i f v : is_info v → (∀ p, key (f p) = key (p <| bp_infois := v |>)) →
      mstep s (upd_port i f s)
  | m_tx s i :
      bp_txcount (ports s i) ≤ bs_txholdcount (bs s) →
      mstep s (upd_port i (λ p, p <| bp_txcount := u8 (bp_txcount p + 1) |>) s)
  | m_txdec s i :
      mstep s (upd_port i (λ p, if bp_txcount p >? 0
                                then p <| bp_txcount := bp_txcount p - 1 |> else p) s)
  | m_tx0 s i : mstep s (upd_port i (λ p, p <| bp_txcount := 0 |>) s)
  | m_tc_idle s i : mstep s (upd_port i (λ p, p <| bp_tcstate := BSTP_TCSTATE_INACTIVE |>) s)
  | m_tc_state s i f st : tc_live (ports s i) →
      (∀ p, key (f p) = key (p <| bp_tcstate := st |>)) → mstep s (upd_port i f s)
  | m_tc_flush s i f : (∀ p, key (f p) = key (p <| bp_fdbflush := 1 |>)) →
      mstep s (upd_port i f s)
  | m_holdcount s c : BSTP_MIN_HOLD_COUNT ≤ c ≤ BSTP_MAX_HOLD_COUNT →
      mstep s (bstp_set_holdcount c s).1
  | m_unlink s i :
      mstep s (upd_bs (λ b, b <| bs_bplist := filter (λ j, j ≠ i) (bs_bplist b) |>) s)
  | m_alloc s : mstep s (s <| nextp := S (nextp s) |>)
  | m_fresh s i f : i ∉ bs_bplist (bs s) → mstep s (upd_port i f s)
  | m_link s i : i ∉ bs_bplist (bs s) → (i < nextp s)%nat → created (ports s i) →
      mstep s (upd_bs (λ b, b <| bs_bplist := bs_bplist b ++ [i] |>) s).

Definition steps : rstp → rstp → Prop := rtc mstep.

Lemma steps_snoc s x y : steps s x → mstep x y → steps s y.
Proof. intros. by eapply rtc_r. Qed.

Lemma steps_trans s x y : steps s x → steps x y → steps s y.
Proof. intros. by etrans. Qed.

Lemma steps_refl s : steps s s.
Proof. reflexivity. Qed.

Create HintDb rstp discriminated.
#[export] Hint Constants Opaque : rstp.
#[export] Hint Resolve steps_refl : rstp.

Lemma steps_port s x i f :
  (∀ p, key (f p) = key p) → steps s x → steps s (upd_port i f x).
Proof. intros. eapply steps_snoc; [done|]. by apply m_port. Qed.

Lemma steps_bs s x f :
  (∀ b, bkey (f b) = bkey b) → steps s x → steps s (upd_bs f x).
Proof. intros. eapply steps_snoc; [done|]. by apply m_bs. Qed.

Lemma steps_sent s x l : steps s x → steps s (x <| sent := l |>).
Proof. intros. eapply steps_snoc; [done|]. apply m_sent. Qed.

Lemma steps_discard s x i :
  steps s x → steps s (upd_port i (bstp_set_port_state BSTP_IFSTATE_DISCARDING) x).
Proof. intros. eapply steps_snoc; [done|]. apply m_discard. Qed.

Lemma steps_info s x i f v : is_info v →
  (∀ p, key (f p) = key (p <| bp_infois := v |>)) → steps s x → steps s (upd_port i f x).
Proof. intros. eapply steps_snoc; [done|]. by eapply m_info. Qed.

Lemma steps_if s (b : bool) x y : steps s x → steps s y → steps s (if b then x else y).
Proof. by destruct b. Qed.

Lemma steps_fold {A} s (body : A → rstp → rstp) l x :
  (∀ a y, steps s y → steps s (body a y)) → steps s x → steps s (foldl (λ y a, body a y) x l).
Proof. intros Hb. revert x. induction l; intros x Hx; cbn; auto. Qed.

Lemma steps_for_each s body x :
  (∀ i y, steps s y → steps s (body i y)) → steps s x → steps s (for_each_port body x).
Proof. apply steps_fold. Qed.

#[export] Hint Resolve steps_sent steps_discard steps_if : rstp.
#[export] Hint Extern 1 (steps _ (upd_port _ _ _)) =>
  apply steps_port; [reflexivity|] : rstp.
#[export] Hint Extern 1 (steps _ (upd_bs _ _)) =>
  apply steps_bs; [reflexivity|] : rstp.
#[export] Hint Extern 1 (steps _ (for_each_port _ _)) =>
  apply steps_for_each; [intros; cbv zeta beta|] : rstp.

(** Proves a [steps] goal on a composition of operations, case by case. *)
Ltac steps := cbv zeta; auto 40 with rstp.

(** Splits the [if]s at the head of a [steps] goal. *)
Ltac steps_ifs :=
  repeat match goal with |- steps _ (if _ then _ else _) => apply steps_if end.

(** Proves that a port function keeps the tracked fields, or sets one of them. *)
Ltac key := intros; repeat (cbv zeta; split_if); reflexivity.

Section Steps.
Context (E : rstp_env).

(** ** Transmission *)

Lemma send_bpdu_steps s x i b :
  bp_txcount (ports x i) ≤ bs_txholdcount (bs x) →
  steps s x → steps s (bstp_send_bpdu E i b x).
Proof.
  intros. unfold bstp_send_bpdu. cbv zeta. apply steps_sent.
  eapply steps_snoc; [done|]. by apply m_tx.
Qed.

Lemma transmit_bpdu_steps s x i :
  bp_txcount (ports x i) ≤ bs_txholdcount (bs x) →
  steps s x → steps s (bstp_transmit_bpdu E i x).
Proof. intros. unfold bstp_transmit_bpdu. cbv zeta. by apply send_bpdu_steps. Qed.

Lemma transmit_tcn_steps s x i :
  bp_txcount (ports x i) ≤ bs_txholdcount (bs x) →
  steps s x → steps s (bstp_transmit_tcn E i x).
Proof.
  intros. unfold bstp_transmit_tcn. cbv zeta. apply steps_sent.
  eapply steps_snoc; [done|]. by apply m_tx.
Qed.

#[local] Hint Resolve transmit_bpdu_steps transmit_tcn_steps : rstp.

Lemma transmit_fuel_steps n s x i :
  steps s x → steps s (bstp_transmit_fuel E n i x).
Proof.
  revert x. induction n as [|n IH]; intros x Hx; cbn; [done|].
  unfold bstp_transmit_with, bstp_hello_timer_expiry_with. cbv zeta.
  split_if; bool_to_prop; auto 20 with rstp.
Qed.

Lemma transmit_steps s x i : steps s x → steps s (bstp_transmit E i x).
Proof. apply transmit_fuel_steps. Qed.

#[local] Hint Resolve transmit_steps : rstp.

Lemma hello_timer_expiry_steps s x i :
  steps s x → steps s (bstp_hello_timer_expiry E i x).
Proof. intros. unfold bstp_hello_timer_expiry, bstp_hello_timer_expiry_with. steps. Qed.

#[local] Hint Resolve hello_timer_expiry_steps : rstp.

(** ** The topology change machine *)

Lemma set_timer_tc_steps s x i : steps s x → steps s (bstp_set_timer_tc i x).
Proof. intros. unfold bstp_set_timer_tc. steps. Qed.

Lemma set_other_tcprop_steps s x i : steps s x → steps s (bstp_set_other_tcprop i x).
Proof. intros. unfold bstp_set_other_tcprop. steps. Qed.

#[local] Hint Resolve set_timer_tc_steps set_other_tcprop_steps : rstp.

Lemma busy_live p : bp_tcstate p ≠ BSTP_TCSTATE_INACTIVE → tc_live p.
Proof. intros ? []; done. Qed.

Lemma steps_tc_state s x i st f : tc_live (ports x i) →
  (∀ p, key (f p) = key (p <| bp_tcstate := st |>)) → steps s x → steps s (upd_port i f x).
Proof. intros. eapply steps_snoc; [done|]. by eapply m_tc_state. Qed.

Lemma steps_tc_flush s x i f :
  (∀ p, key (f p) = key (p <| bp_fdbflush := 1 |>)) → steps s x → steps s (upd_port i f x).
Proof. intros. eapply steps_snoc; [done|]. by apply m_tc_flush. Qed.

Lemma steps_tc_idle s x i :
  steps s x → steps s (upd_port i (λ p, p <| bp_tcstate := BSTP_TCSTATE_INACTIVE |>) x).
Proof. intros. eapply steps_snoc; [done|]. apply m_tc_idle. Qed.

(** The end of a transient state. *)
Lemma steps_tc_active s x y i f :
  keeps tx_core x y → bp_tcstate (ports x i) ≠ BSTP_TCSTATE_INACTIVE →
  (∀ p, key (f p) = key (p <| bp_tcstate := BSTP_TCSTATE_ACTIVE |>)) →
  steps s y → steps s (upd_port i f y).
Proof.
  intros (_&_&Hk) Hx Hf Hy. eapply steps_tc_state; eauto. apply busy_live.
  specialize (Hk i). apply (f_equal bp_tcstate) in Hk. cbn in Hk. congruence.
Qed.

Lemma set_port_tc_inactive_steps s x i :
  steps s x → steps s (bstp_set_port_tc E i BSTP_TCSTATE_INACTIVE x).
Proof.
  intros. unfold bstp_set_port_tc. cbn. apply steps_tc_flush; [done|]. by apply steps_tc_idle.
Qed.

Lemma set_port_tc_steps s x i st :
  st ≠ BSTP_TCSTATE_INACTIVE → tc_live (ports x i) →
  steps s x → steps s (bstp_set_port_tc E i st x).
Proof.
  intros Hst Hl Hx. unfold bstp_set_port_tc. cbv zeta.
  assert (steps s (upd_port i (λ p, p <| bp_tcstate := st |>) x)) as H1
    by (by eapply steps_tc_state).
  assert (bp_tcstate (ports (upd_port i (λ p, p <| bp_tcstate := st |>) x) i)
            ≠ BSTP_TCSTATE_INACTIVE) as H2 by (by rewrite ports_upd_port_eq).
  revert H1 H2. generalize (upd_port i (λ p, p <| bp_tcstate := st |>) x). intros y H1 H2.
  rewrite (proj2 (Z.eqb_neq st BSTP_TCSTATE_INACTIVE)) by done.
  steps_ifs; auto 20 with rstp.
  - eapply steps_tc_active; [|done|done|auto with rstp]. auto 20 with rstp_keeps.
  - eapply steps_tc_active; [|done|done|auto 20 with rstp]. auto 20 with rstp_keeps.
  - eapply (steps_tc_active _ (upd_port i (λ p, p <| bp_fdbflush := 1 |>
              <| bp_tc_prop := 0 |>) y)); [|by rewrite ports_upd_port_eq|done|].
    + auto 20 with rstp_keeps.
    + apply set_timer_tc_steps. by apply steps_tc_flush.
  - by eapply steps_tc_active.
Qed.

(** A port the machine is working on, reached from [s]. *)
Definition busy (s x : rstp) (i : nat) : Prop :=
  steps s x ∧ bp_tcstate (ports x i) ≠ BSTP_TCSTATE_INACTIVE.

Lemma busy_try s x i st (b : bool) :
  st ≠ BSTP_TCSTATE_INACTIVE → busy s x i →
  busy s (if b then bstp_set_port_tc E i st x else x) i.
Proof.
  intros Hst [H1 H2]. destruct b; [|done]. split.
  - apply set_port_tc_steps; auto using busy_live.
  - by apply set_port_tc_tcstate.
Qed.

Lemma update_tc_steps s x i : steps s x → steps s (bstp_update_tc E i x).
Proof.
  intros Hx. unfold bstp_update_tc. cbv zeta.
  destruct (bp_tcstate (ports x i) =? BSTP_TCSTATE_ACTIVE) eqn:E1; bool_to_prop.
  { apply (busy_try s _ i BSTP_TCSTATE_ACK); [done|].
    do 4 (apply busy_try; [done|]). split; [done|]. by rewrite E1. }
  destruct (bp_tcstate (ports x i) =? BSTP_TCSTATE_INACTIVE) eqn:E2; bool_to_prop.
  { split_if; bool_to_prop; [|done]. apply set_port_tc_steps; [done| |done].
    intros [_ Hf]. by rewrite Hf in *. }
  destruct (bp_tcstate (ports x i) =? BSTP_TCSTATE_LEARNING) eqn:E3; [|done].
  destruct (tst _ || _ || _ || _).
  { apply (busy_try s _ i BSTP_TCSTATE_DETECTED); [done|].
    by apply (busy_try s x i BSTP_TCSTATE_LEARNING true). }
  destruct ((bp_role (ports x i) !=? _) && _ && _) eqn:E4.
  2: { by apply (busy_try s x i BSTP_TCSTATE_DETECTED). }
  assert (bp_role (ports (bstp_set_port_tc E i BSTP_TCSTATE_INACTIVE x) i)
            = bp_role (ports x i)) as ->.
  { destruct (set_port_tc_keeps E x x i BSTP_TCSTATE_INACTIVE (keeps_refl _ _))
      as (_&_&Hk). by apply (f_equal bp_role (Hk i)). }
  bool_to_prop. rewrite !(proj2 (Z.eqb_neq _ _)) by done. cbn.
  by apply set_port_tc_inactive_steps.
Qed.

#[local] Hint Resolve update_tc_steps set_port_tc_inactive_steps : rstp.

(** ** Roles *)

Lemma set_port_role_steps s x i r :
  is_role r → steps s x → steps s (bstp_set_port_role E i r x).
Proof.
  intros. unfold bstp_set_port_role. cbv zeta. apply steps_if; [done|].
  apply update_tc_steps, steps_bs; [done|]. eapply steps_snoc; [done|]. by apply m_role.
Qed.

Lemma set_port_proto_steps s x i v : steps s x → steps s (bstp_set_port_proto i v x).
Proof. intros. unfold bstp_set_port_proto. steps. Qed.

Lemma update_info_steps s x i : steps s x → steps s (bstp_update_info i x).
Proof.
  intros. unfold bstp_update_info. cbv zeta.
  eapply (steps_info _ _ _ _ BSTP_INFO_MINE); [done|done|]. steps.
Qed.

#[local] Hint Resolve set_port_role_steps set_port_proto_steps update_info_steps : rstp.
#[local] Hint Extern 1 (is_role _) => done : rstp.
#[local] Hint Extern 1 (is_info _) => done : rstp.

Lemma assign_root_steps s x : steps s x → steps s (assign_root x).1.
Proof.
  intros Hx. unfold assign_root. cbn.
  assert (steps s (upd_bs assign_defaults x)) as H by (apply steps_bs; done).
  revert H. generalize (upd_bs assign_defaults x), (@None nat).
  generalize (bs_bplist (bs x)).
  induction l as [|i l IH]; intros y o Hy; cbn; [done|].
  case_match; [auto|]. case_match; auto with rstp.
Qed.

Lemma assign_role_step_steps s x rbp i : steps s x → steps s (assign_role_step E rbp i x).
Proof. intros. unfold assign_role_step. steps. Qed.

#[local] Hint Resolve assign_role_step_steps : rstp.

Lemma assign_roles_steps s x : steps s x → steps s (bstp_assign_roles E x).
Proof.
  intros Hx. unfold bstp_assign_roles.
  pose proof (assign_root_steps s x Hx). destruct (assign_root x). cbn in *. steps.
Qed.

#[local] Hint Resolve assign_roles_steps : rstp.

Lemma set_all_reroot_steps s x : steps s x → steps s (bstp_set_all_reroot x).
Proof. intros. unfold bstp_set_all_reroot. steps. Qed.

Lemma set_all_sync_steps s x : steps s x → steps s (bstp_set_all_sync x).
Proof. intros. unfold bstp_set_all_sync. steps. Qed.

#[local] Hint Resolve set_all_reroot_steps set_all_sync_steps : rstp.

Lemma key_clear_sync p : key (clear_sync_flags p) = key p.
Proof. unfold clear_sync_flags. key. Qed.

Lemma update_alternate_steps s x i : steps s x → steps s (update_alternate i x).
Proof.
  intros. unfold update_alternate. cbv zeta. apply steps_port; [apply key_clear_sync|]. steps.
Qed.

Lemma root_prepare_role s i :
  same bp_role s (root_sync i (root_agree i (root_reroot i s))).
Proof.
  assert (∀ x, same bp_role s x → same bp_role s (bstp_set_all_sync x)) as H.
  { intros x Hx. unfold bstp_set_all_sync. auto with rstp_keeps. }
  assert (∀ x, same bp_role s x → same bp_role s (bstp_set_all_reroot x)) as H'.
  { intros x Hx. unfold bstp_set_all_reroot. auto with rstp_keeps. }
  assert (same bp_role s s) as Hs by done.
  unfold root_sync, root_agree. cbv zeta. unfold root_reroot. auto 20 with rstp_keeps.
Qed.

Lemma update_root_steps s x i :
  bp_role (ports x i) = BSTP_ROLE_ROOT → steps s x → steps s (update_root i x).
Proof.
  intros Hr Hx. unfold update_root.
  assert (steps s (root_sync i (root_agree i (root_reroot i x)))) as H1.
  { unfold root_sync, root_agree, root_reroot. steps. }
  pose proof (root_prepare_role x i i) as H2. rewrite Hr in H2.
  revert H1 H2. generalize (root_sync i (root_agree i (root_reroot i x))). intros y H1 H2.
  unfold root_settle. apply steps_if; [apply steps_port; [done|]|];
    unfold root_advance; cbv zeta; steps_ifs; try done;
    (eapply steps_snoc; [done|]; apply m_advance; auto).
Qed.

Lemma update_roles_steps s x i : steps s x → steps s (bstp_update_roles E i x).
Proof.
  intros Hx. unfold bstp_update_roles. cbv zeta.
  match goal with |- steps s (if _ then bstp_transmit _ _ ?y else _) =>
    assert (steps s y) as Hy; [|by apply steps_if; [apply transmit_steps|]] end.
  split_if; bool_to_prop; auto using update_alternate_steps, update_root_steps.
  - apply steps_port; [apply key_clear_sync|done].
  - eapply steps_snoc; [done|]. by apply m_designated.
Qed.

#[local] Hint Resolve update_roles_steps : rstp.

Lemma update_state_steps s x i : steps s x → steps s (bstp_update_state E i x).
Proof. intros. unfold bstp_update_state. steps. Qed.

#[local] Hint Resolve update_state_steps : rstp.

(** ** Reception *)

Lemma key_note cu p : key (note_tc cu (note_proposal cu p)) = key p.
Proof. unfold note_tc, note_proposal. key. Qed.

Lemma key_note_tc cu p : key (note_tc cu p) = key p.
Proof. unfold note_tc. key. Qed.

Lemma key_set_timer_msgage p : key (bstp_set_timer_msgage p) = key p.
Proof. unfold bstp_set_timer_msgage. key. Qed.

Lemma key_record_superior cu p :
  key (record_superior cu p) = key (p <| bp_infois := BSTP_INFO_RECEIVED |>).
Proof. unfold record_superior, bstp_set_timer_msgage, note_tc, note_proposal. key. Qed.

Lemma received_bpdu_steps s x i : steps s x → steps s (bstp_received_bpdu E i x).
Proof.
  intros. unfold bstp_received_bpdu. cbv zeta. steps_ifs; auto 20 with rstp.
  - apply update_state_steps, assign_roles_steps.
    eapply (steps_info _ _ _ _ BSTP_INFO_RECEIVED); [done|apply key_record_superior|].
    auto with rstp.
  - apply update_state_steps, steps_port; [|done]. intros p.
    by rewrite key_set_timer_msgage, key_note.
  - apply update_state_steps, steps_port; [apply key_note_tc|]. auto with rstp.
Qed.

#[local] Hint Resolve received_bpdu_steps : rstp.

Lemma received_tcn_steps s x i : steps s x → steps s (bstp_received_tcn E i x).
Proof. intros. unfold bstp_received_tcn. steps. Qed.

Lemma decode_to_port_steps s x i pdu : steps s x → steps s (decode_to_port i pdu x).
Proof. intros. unfold decode_to_port. steps. Qed.

#[local] Hint Resolve received_tcn_steps decode_to_port_steps : rstp.

Lemma process_bpdu_steps s x i pdu : steps s x → steps s (process_bpdu_on E i pdu x).
Proof. intros. unfold process_bpdu_on, bstp_received_stp, bstp_received_rstp. steps. Qed.

(** ** Link state and the tick *)

Lemma enable_port_steps s x i : steps s x → steps s (bstp_enable_port E i x).
Proof.
  intros. unfold bstp_enable_port. cbv zeta.
  apply assign_roles_steps. by apply (steps_info _ _ _ _ BSTP_INFO_AGED).
Qed.

Lemma disable_port_steps s x i : steps s x → steps s (bstp_disable_port E i x).
Proof.
  intros. unfold bstp_disable_port. cbv zeta.
  apply assign_roles_steps, steps_discard. by apply (steps_info _ _ _ _ BSTP_INFO_DISABLED).
Qed.

#[local] Hint Resolve enable_port_steps disable_port_steps : rstp.

Lemma ifupdstatus_steps s x i : steps s x → steps s (bstp_ifupdstatus E i x).
Proof. intros. unfold bstp_ifupdstatus. steps. Qed.

Lemma message_age_expiry_steps s x i :
  steps s x → steps s (bstp_message_age_expiry E i x).
Proof.
  intros. unfold bstp_message_age_expiry. cbv zeta. steps_ifs; [|done].
  apply assign_roles_steps. by apply (steps_info _ _ _ _ BSTP_INFO_AGED).
Qed.

#[local] Hint Resolve ifupdstatus_steps message_age_expiry_steps : rstp.

Lemma key_edge_delay p : key (bstp_edge_delay_expiry p) = key p.
Proof. unfold bstp_edge_delay_expiry. key. Qed.

Lemma tick_timer_steps f `{Settable _ _ f} s x i :
  (∀ t p, key (p <| f := t |>) = key p) → steps s x → steps s (tick_timer f i x).1.
Proof.
  intros. unfold tick_timer. destruct (bstp_timer_expired _). cbn. by apply steps_port.
Qed.

Lemma tick_port_steps s x i : steps s x → steps s (tick_port E i x).
Proof.
  intros Hx. unfold tick_port. cbv zeta.
  assert (steps s (upd_port i tick_quiet x)) as H0 by auto with rstp.
  repeat match goal with
  | |- context [let '(_, _) := tick_timer ?f ?i ?y in _] =>
      assert (steps s (tick_timer f i y).1)
        by (apply tick_timer_steps; [done|auto with rstp]);
      destruct (tick_timer f i y) as [? []]; cbn [fst] in *
  end; (eapply steps_snoc; [apply update_state_steps|apply m_txdec]);
  try (apply steps_port; [apply key_edge_delay|]); auto with rstp.
Qed.

#[local] Hint Resolve tick_port_steps : rstp.

Lemma tick_steps s x : steps s x → steps s (bstp_tick E x).
Proof.
  intros. unfold bstp_tick. destruct (bstp_timer_expired _) as [t []]; steps.
Qed.

(** ** Configuration *)

Lemma reinit_steps s x : steps s x → steps s (bstp_reinit E x).
Proof. intros. unfold bstp_reinit. steps. Qed.

#[local] Hint Resolve reinit_steps : rstp.

Lemma set_protocol_steps s x proto : steps s x → steps s (bstp_set_protocol E proto x).1.
Proof.
  intros. unfold bstp_set_protocol. case_match; [|done]. cbn [fst]. cbv zeta.
  apply reinit_steps. apply steps_for_each; [|auto with rstp].
  intros i y Hy. cbv zeta. apply steps_port; [done|].
  apply set_port_tc_inactive_steps, set_port_role_steps; [done|].
  apply set_port_proto_steps. eapply steps_snoc; [|apply m_tx0].
  by apply (steps_info _ _ _ _ BSTP_INFO_DISABLED).
Qed.

Lemma set_htime_steps s x t : steps s x → steps s (bstp_set_htime E t x).1.
Proof. intros. unfold bstp_set_htime. case_match; cbn [fst]; auto with rstp. Qed.

Lemma set_fdelay_steps s x t : steps s x → steps s (bstp_set_fdelay E t x).1.
Proof. intros. unfold bstp_set_fdelay. case_match; cbn [fst]; auto with rstp. Qed.

Lemma set_maxage_steps s x t : steps s x → steps s (bstp_set_maxage E t x).1.
Proof. intros. unfold bstp_set_maxage. case_match; cbn [fst]; auto with rstp. Qed.

Lemma set_holdcount_steps s x c : steps s x → steps s (bstp_set_holdcount c x).1.
Proof.
  intros. destruct ((c <? BSTP_MIN_HOLD_COUNT) || (c >? BSTP_MAX_HOLD_COUNT)) eqn:Hc.
  - unfold bstp_set_holdcount. by rewrite Hc.
  - bool_to_prop. eapply steps_snoc; [done|]. apply m_holdcount. lia.
Qed.

Lemma set_priority_steps s x v : steps s x → steps s (bstp_set_priority E v x).1.
Proof. intros. unfold bstp_set_priority. case_match; cbn [fst]; auto with rstp. Qed.

Lemma set_port_priority_steps s x i v :
  steps s x → steps s (bstp_set_port_priority E i v x).1.
Proof. intros. unfold bstp_set_port_priority. case_match; cbn [fst]; auto with rstp. Qed.

Lemma set_path_cost_steps s x i v : steps s x → steps s (bstp_set_path_cost E i v x).1.
Proof.
  intros. unfold bstp_set_path_cost. cbv zeta.
  destruct (v >? BSTP_MAX_PATH_COST); cbn [fst]; auto 20 with rstp.
Qed.

Lemma set_edge_steps s x i v : steps s x → steps s (bstp_set_edge i v x).1.
Proof. intros. unfold bstp_set_edge. cbn [fst]. auto with rstp. Qed.

Lemma set_autoedge_steps s x i v : steps s x → steps s (bstp_set_autoedge i v x).1.
Proof.
  intros. unfold bstp_set_autoedge. cbn [fst]. cbv zeta. steps_ifs; auto with rstp.
  apply steps_port; [apply key_edge_delay|]. auto with rstp.
Qed.

Lemma set_ptp_steps s x i v : steps s x → steps s (bstp_set_ptp i v x).1.
Proof. intros. unfold bstp_set_ptp. cbn [fst]. auto with rstp. Qed.

Lemma set_autoptp_steps s x i v : steps s x → steps s (bstp_set_autoptp E i v x).1.
Proof. intros. unfold bstp_set_autoptp. cbn [fst]. steps. Qed.

(** ** Ports *)

Lemma init_steps s x : steps s x → steps s (bstp_init E x).
Proof. intros. unfold bstp_init. steps. Qed.

Lemma enable_steps s x i : steps s x → steps s (bstp_enable E i x).
Proof. intros. unfold bstp_enable. steps. Qed.

Lemma disable_steps s x i : steps s x → steps s (bstp_disable E i x).
Proof.
  intros. unfold bstp_disable. cbv zeta. apply reinit_steps, steps_port; [done|].
  eapply steps_snoc; [by apply disable_port_steps|]. apply m_unlink.
Qed.

Lemma steps_fresh s x i f :
  i ∉ bs_bplist (bs x) → steps s x → steps s (upd_port i f x).
Proof. intros. eapply steps_snoc; [done|]. by apply m_fresh. Qed.

(** The part of [bstp_create] before the port is linked. *)
Lemma set_port_proto_bs i v s :
  bs (bstp_set_port_proto i v s) = bs s ∧ nextp (bstp_set_port_proto i v s) = nextp s.
Proof. unfold bstp_set_port_proto. split_if; done. Qed.

Lemma set_port_proto_key i v s : same key s (bstp_set_port_proto i v s).
Proof.
  assert (same key s s) by done.
  unfold bstp_set_port_proto. cbv zeta. auto with rstp_keeps.
Qed.

Lemma create_steps s x i ifp :
  i ∉ bs_bplist (bs x) → (i < nextp x)%nat → steps s x → steps s (bstp_create E i ifp x).1.
Proof.
  intros Hi Hn Hx. unfold bstp_create. cbv zeta. cbn [fst].
  set (y0 := upd_port i (bstp_set_port_state BSTP_IFSTATE_DISCARDING) _).
  assert (key (ports y0 i) = (BSTP_ROLE_DISABLED, BSTP_IFSTATE_DISCARDING,
            BSTP_INFO_DISABLED, 0, 0, 0)) as K0.
  { subst y0. by rewrite !ports_upd_port_eq. }
  assert (steps s y0) as S0 by (repeat apply steps_fresh; done).
  assert (bs y0 = bs x ∧ nextp y0 = nextp x) as [B0 N0] by done.
  revert K0 S0 B0 N0. generalize y0. clear y0. intros y0 K0 S0 B0 N0.
  set (y1 := bstp_set_port_proto i (bs_protover (bs y0)) y0).
  destruct (set_port_proto_bs i (bs_protover (bs y0)) y0) as [B1 N1].
  pose proof (set_port_proto_key i (bs_protover (bs y0)) y0 i) as K1.
  assert (steps s y1) as S1 by (by apply set_port_proto_steps).
  fold y1 in B1, N1, K1. rewrite K0 in K1. rewrite B0 in B1. rewrite N0 in N1.
  clearbody y1.
  assert (bstp_set_port_role E i BSTP_ROLE_DISABLED y1 = y1) as ->.
  { unfold bstp_set_port_role. unfold key in K1. by injection K1 as -> ?????. }
  match goal with |- context [upd_bs ?f ?y] =>
    assert (steps s (upd_bs f y)) as S2; [|steps_ifs; auto using enable_steps] end.
  eapply steps_snoc; [|apply m_link].
  - auto with rstp.
  - cbn. by rewrite B1.
  - cbn. by rewrite N1.
  - unfold created, bstp_set_port_tc, key in *. injection K1 as ??????.
    cbn -[upd_port]. rewrite !ports_upd_port_eq. cbn. congruence.
Qed.

Lemma create_port_steps s x port :
  (∀ i, i ∈ bs_bplist (bs x) → (i < nextp x)%nat) →
  steps s x → steps s (rstp_create_port E port x).1.
Proof.
  intros Hlt Hx. unfold rstp_create_port. destruct (malloc_ok E); [|done]. cbv zeta.
  apply create_steps; [|cbn; lia|].
  - cbn. intros Hin. specialize (Hlt _ Hin). lia.
  - eapply steps_snoc; [done|]. apply m_alloc.
Qed.

End Steps.
