(* ===== verification/RstpWorld.v ===== *)
(** * Rapid spanning tree: the instances and the interface of bridgestp.c

    The global list [bstp_list] of the bridge instances, the static
    [rstp_global_instance], and the functions the rest of the switch calls. *)

From S2P Require Import Prelude RstpTypes Rstp.

Definition VLAN_INVALID_ID := 0x7FFF.

(** The instances by pointer ([0] is [&rstp_global_instance]), the list
    [bstp_list] and the next pointer the allocator returns. *)
Record rworld := mk_rworld {
  inst : nat → rstp;
  bstp_list : list nat;
  next_inst : nat
}.

Definition eta_rworld (r : rworld) : rworld :=
  mk_rworld (inst r) (bstp_list r) (next_inst r).

#[export] Instance set_inst : Settable inst := ltac:(mk_setter eta_rworld).
#[export] Instance set_bstp_list : Settable bstp_list := ltac:(mk_setter eta_rworld).
#[export] Instance set_next_inst : Settable next_inst := ltac:(mk_setter eta_rworld).

Definition rstp0 : rstp := mk_rstp bs0 (λ _, port0) 0 [].

Definition rworld0 : rworld := mk_rworld (λ _, rstp0) [] 1.

Definition upd_inst (k : nat) (s : rstp) (w : rworld) : rworld :=
  w <| inst := <[k := s]> (inst w) |>.

(** The first port of an instance, and of the list of instances, on an
    interface. *)
Definition rstp_get_port_entry (s : rstp) (port : Z) : option nat :=
  find (λ i, bp_ifp (ports s i) =? port) (bs_bplist (bs s)).

Fixpoint get_port_info_in (w : rworld) (l : list nat) (port : Z) : option (nat * nat) :=
  match l with
  | [] => None
  | k :: l' =>
      match rstp_get_port_entry (inst w k) port with
      | Some i => Some (k, i)
      | None => get_port_info_in w l' port
      end
  end.

Definition rstp_get_port_info (w : rworld) (port : Z) : option (nat * nat) :=
  get_port_info_in w (bstp_list w) port.

Definition rstp_get_this_bridge_entry (w : rworld) (vlan : Z) : option nat :=
  if vlan =? VLAN_INVALID_ID then Some 0%nat
  else find (λ k, vlan_id (bs (inst w k)) =? vlan) (bstp_list w).

Definition rstp_is_root_bridge (s : rstp) : bool :=
  bstp_same_bridgeid (pv_root_id (bs_root_pv (bs s))) (pv_root_id (bs_bridge_pv (bs s))).

(** 0 when the 802.1D relation between the three times holds, -1 otherwise. *)
Definition bridge_timer_relation (fdelay max_age hello : Z) : Z :=
  if (2 * (fdelay - 1) <? max_age) || (max_age <? 2 * (hello + 1)) then -1 else 0.

Section Interface.
Context (E : rstp_env).

Definition rstp_process_bpdu (pdu : bstp_cbpdu) (ifp : Z) (w : rworld) : rworld * Z :=
  match rstp_get_port_info w ifp with
  | None => (w, -1)
  | Some (k, i) => (upd_inst k (process_bpdu_on E i pdu (inst w k)) w, 0)
  end.

Definition bstp_linkstate (ifp : Z) (w : rworld) : rworld :=
  match rstp_get_port_info w ifp with
  | None => w
  | Some (k, i) =>
      let s := bstp_ifupdstatus E i (inst w k) in
      upd_inst k (bstp_update_state E i s) w
  end.

(** [None] is the dereference of a NULL port pointer. *)
Definition rstp_enable_or_disable_port (port state : Z) (w : rworld) : option (rworld * Z) :=
  let stp_port := rstp_get_port_info w (u16 port) in
  if state =? IF_UP then
    '(k, i) ← stp_port; Some (upd_inst k (bstp_enable E i (inst w k)) w, 0)
  else if state =? IF_DOWN then
    '(k, i) ← stp_port; Some (upd_inst k (bstp_disable E i (inst w k)) w, 0)
  else Some (w, 0).

(** The third component is the pointer stored in [*p]. *)
Definition rstp_create_instance (vlan : Z) (w : rworld) : rworld * Z * option nat :=
  match find (λ k, vlan_id (bs (inst w k)) =? vlan) (bstp_list w) with
  | Some k => (w, 0, Some k)
  | None =>
      if vlan =? VLAN_INVALID_ID then
        let w := upd_inst 0 (bstp_attach vlan (inst w 0)) w in
        (w <| bstp_list := bstp_list w ++ [0%nat] |>, 0, Some 0%nat)
      else if malloc_ok E then
        let k := next_inst w in
        let w := upd_inst k (bstp_attach vlan rstp0) w in
        (w <| bstp_list := bstp_list w ++ [k] |> <| next_inst := S k |>, 0, Some k)
      else (w, -1, None)
  end.

(** The common shape of the configuration calls: the setter runs on the instance
    of the VLAN, -1 when there is none. *)
Definition on_bridge (vlan : Z) (f : rstp → rstp * Z) (w : rworld) : rworld * Z :=
  match rstp_get_this_bridge_entry w vlan with
  | None => (w, -1)
  | Some k => let '(s, r) := f (inst w k) in (upd_inst k s w, r)
  end.

Definition rstp_set_bridge_priority (newprio vlan : Z) (w : rworld) : rworld * Z :=
  on_bridge vlan (bstp_set_priority E newprio) w.

Definition rstp_set_bridge_hello_time (hello vlan : Z) (w : rworld) : rworld * Z :=
  on_bridge vlan (λ s,
    if bridge_timer_relation (bs_bridge_fdelay (bs s)) (bs_bridge_max_age (bs s))
         (s32 hello) =? 0
    then bstp_set_htime E (s32 hello) s else (s, -1)) w.

Definition rstp_set_bridge_fdly (fdly vlan : Z) (w : rworld) : rworld * Z :=
  on_bridge vlan (λ s,
    if bridge_timer_relation (s32 fdly) (bs_bridge_max_age (bs s))
         (bs_bridge_htime (bs s)) =? 0
    then bstp_set_fdelay E (s32 fdly) s else (s, -1)) w.

Definition rstp_set_bridge_max_age (max_age vlan : Z) (w : rworld) : rworld * Z :=
  on_bridge vlan (λ s,
    if bridge_timer_relation (bs_bridge_fdelay (bs s)) (s32 max_age)
         (bs_bridge_htime (bs s)) =? 0
    then bstp_set_maxage E (s32 max_age) s else (s, -1)) w.

Definition rstp_set_bridge_times (fdly maxage htime vlan : Z) (w : rworld) : rworld * Z :=
  on_bridge vlan (λ s,
    let htime := if htime <? 0 then bs_bridge_htime (bs s) else htime in
    let fdly := if fdly <? 0 then bs_bridge_fdelay (bs s) else fdly in
    let maxage := if maxage <? 0 then bs_bridge_max_age (bs s) else maxage in
    if tst (bridge_timer_relation fdly maxage htime) then (s, -1)
    else
      let s := upd_bs (λ b, b <| bs_bridge_max_age := u16 maxage |>
                              <| bs_bridge_fdelay := u16 fdly |>
                              <| bs_bridge_htime := u16 htime |>) s in
      (bstp_reinit E s, 0)) w.

End Interface.
