(* ===== verification/RstpInv.v ===== *)
(** * Rapid spanning tree: the invariants of a bridge instance

    The operations the switch calls on an instance, the states they reach, and
    the invariants of the linked ports: a port that is neither root nor designated
    port discards, the transmission count stays within the hold count, the
    topology change machine stays idle.  An invariant is a predicate on the tracked
    fields of a port that the elementary steps of [RstpSteps] preserve ([stable]). *)

From stdpp Require Import relations sets.
From S2P Require Import Prelude RstpTypes Rstp RstpFrame RstpSteps RstpWorld.

(** ** The calls of the switch *)

(** One call of an entry point on an instance, with whatever the environment
    answers.  A port argument is a port of the instance. *)
Inductive rstp_call (s : rstp) : rstp → Prop :=
  | call_init E : rstp_call s (bstp_init E s)
  | call_tick E : rstp_call s (bstp_tick E s)
  | call_create_port E port : rstp_call s (rstp_create_port E port s).1
  | call_bpdu E i pdu : i ∈ bs_bplist (bs s) → rstp_call s (process_bpdu_on E i pdu s)
  | call_linkstate E i : i ∈ bs_bplist (bs s) →
      rstp_call s (bstp_update_state E i (bstp_ifupdstatus E i s))
  | call_enable E i : i ∈ bs_bplist (bs s) → rstp_call s (bstp_enable E i s)
  | call_disable E i : i ∈ bs_bplist (bs s) → rstp_call s (bstp_disable E i s)
  | call_htime E t : rstp_call s (bstp_set_htime E t s).1
  | call_fdelay E t : rstp_call s (bstp_set_fdelay E t s).1
  | call_maxage E t : rstp_call s (bstp_set_maxage E t s).1
  | call_holdcount c : rstp_call s (bstp_set_holdcount c s).1
  | call_protocol E v : rstp_call s (bstp_set_protocol E v s).1
  | call_priority E v : rstp_call s (bstp_set_priority E v s).1
  | call_port_priority E i v : i ∈ bs_bplist (bs s) →
      rstp_call s (bstp_set_port_priority E i v s).1
  | call_path_cost E i v : i ∈ bs_bplist (bs s) → rstp_call s (bstp_set_path_cost E i v s).1
  | call_edge i v : i ∈ bs_bplist (bs s) → rstp_call s (bstp_set_edge i v s).1
  | call_autoedge i v : i ∈ bs_bplist (bs s) → rstp_call s (bstp_set_autoedge i v s).1
  | call_ptp i v : i ∈ bs_bplist (bs s) → rstp_call s (bstp_set_ptp i v s).1
  | call_autoptp E i v : i ∈ bs_bplist (bs s) → rstp_call s (bstp_set_autoptp E i v s).1.

(** The states of an instance after [rstp_create_instance] made it. *)
Definition reachable (s : rstp) : Prop :=
  ∃ vlan, rtc rstp_call (bstp_attach vlan rstp0) s.

(** ** Invariants on tracked fields *)

Definition is_state (st : Z) : Prop :=
  st = BSTP_IFSTATE_DISCARDING ∨ st = BSTP_IFSTATE_LEARNING ∨ st = BSTP_IFSTATE_FORWARDING.

Definition hold_ok (h : Z) : Prop := BSTP_MIN_HOLD_COUNT ≤ h ≤ BSTP_MAX_HOLD_COUNT.

(** A predicate on the hold count and the tracked fields of a port that every
    elementary step preserves. *)
Record stable (K : Z → Z * Z * Z * Z * Z * Z → Prop) : Prop := {
  st_role h r st inf tc fl tx r' : is_role r' →
    K h (r, st, inf, tc, fl, tx) →
    K h (r', if r' =? BSTP_ROLE_DESIGNATED then st else BSTP_IFSTATE_DISCARDING,
         inf, tc, fl, tx);
  st_state h r st inf tc fl tx st' : is_state st' →
    st' = BSTP_IFSTATE_DISCARDING ∨ r = BSTP_ROLE_ROOT ∨ r = BSTP_ROLE_DESIGNATED →
    K h (r, st, inf, tc, fl, tx) → K h (r, st', inf, tc, fl, tx);
  st_info h r st inf tc fl tx inf' : is_info inf' →
    K h (r, st, inf, tc, fl, tx) → K h (r, st, inf', tc, fl, tx);
  st_tx h r st inf tc fl tx : tx ≤ h → hold_ok h →
    K h (r, st, inf, tc, fl, tx) → K h (r, st, inf, tc, fl, u8 (tx + 1));
  st_txdec h r st inf tc fl tx : 0 < tx →
    K h (r, st, inf, tc, fl, tx) → K h (r, st, inf, tc, fl, tx - 1);
  st_tx0 h h' r st inf tc fl tx : hold_ok h' →
    K h (r, st, inf, tc, fl, tx) → K h' (r, st, inf, tc, fl, 0);
  st_tc h r st inf tc fl tx tc' :
    tc' = BSTP_TCSTATE_INACTIVE ∨ ¬ (tc = BSTP_TCSTATE_INACTIVE ∧ fl = 1) →
    K h (r, st, inf, tc, fl, tx) → K h (r, st, inf, tc', fl, tx);
  st_flush h r st inf tc fl tx :
    K h (r, st, inf, tc, fl, tx) → K h (r, st, inf, tc, 1, tx);
  st_created h : hold_ok h →
    K h (BSTP_ROLE_DISABLED, BSTP_IFSTATE_DISCARDING, BSTP_INFO_DISABLED,
         BSTP_TCSTATE_INACTIVE, 1, 0)
}.

(** ** The tracked fields after the guarded updates *)

Lemma key_set_port_state st p : is_state st →
  key (bstp_set_port_state st p) =
  (bp_role p, st, bp_infois p, bp_tcstate p, bp_fdbflush p, bp_txcount p).
Proof.
  intros Hst. unfold bstp_set_port_state. case_match; bool_to_prop; [by subst|].
  destruct Hst as [->|[->| ->]]; reflexivity.
Qed.

Lemma key_role_init p : is_role (bp_role p) →
  key (role_init p) =
  (bp_role p, if bp_role p =? BSTP_ROLE_DESIGNATED then bp_state p else BSTP_IFSTATE_DISCARDING,
   bp_infois p, bp_tcstate p, bp_fdbflush p, bp_txcount p).
Proof.
  intros Hr. unfold role_init. cbv zeta.
  pose proof (key_set_port_state BSTP_IFSTATE_DISCARDING p (or_introl eq_refl)) as Hs.
  destruct (_ || _ || _) eqn:E1; [|destruct (bp_role p =? BSTP_ROLE_ROOT) eqn:E2];
    rewrite ?orb_true_iff in *; bool_to_prop.
  - etrans; [exact Hs|]. rewrite !Z.eqb_eq in E1. rewrite (proj2 (Z.eqb_neq _ _)); [done|].
    intros H. rewrite H in E1. by destruct E1 as [[]|].
  - etrans; [exact Hs|]. by rewrite E2.
  - destruct (bp_role p =? BSTP_ROLE_DESIGNATED) eqn:E3; [done|]. bool_to_prop.
    unfold is_role, BSTP_ROLE_DISABLED, BSTP_ROLE_ROOT, BSTP_ROLE_DESIGNATED,
      BSTP_ROLE_ALTERNATE, BSTP_ROLE_BACKUP in *. lia.
Qed.

Lemma key_change_role r p : is_role r →
  key (change_role r p) =
  (r, if r =? BSTP_ROLE_DESIGNATED then bp_state p else BSTP_IFSTATE_DISCARDING,
   bp_infois p, bp_tcstate p, bp_fdbflush p, bp_txcount p).
Proof.
  intros Hr. unfold change_role. cbv zeta.
  assert (key (role_pre_change p) = key p) as K0 by (unfold role_pre_change; key).
  injection K0 as H1 H2 H3 H4 H5 H6.
  assert (u8 r = r) as Hu by (apply u8_small; unfold is_role in Hr; lia).
  rewrite Hu, key_role_init by done. cbn -[role_pre_change]. by rewrite H2, H3, H4, H5, H6.
Qed.

(** A designated port moves between the three states; its other tracked fields
    stay. *)
Lemma key_update_designated p : ∃ st,
  key (update_designated p) =
    (bp_role p, st, bp_infois p, bp_tcstate p, bp_fdbflush p, bp_txcount p) ∧
  (st = bp_state p ∨ is_state st).
Proof.
  assert (∀ q, key (desg_retire q) = key q) as H1 by (intros; unfold desg_retire; key).
  assert (∀ q, key (desg_sync q) = key q) as H2 by (intros; unfold desg_sync; key).
  assert (∀ q, key (desg_propose q) = key q) as H3 by (intros; unfold desg_propose; key).
  unfold update_designated.
  set (q := desg_propose (desg_sync (desg_retire p))).
  assert (key q = key p) as Hq by (subst q; by rewrite H3, H2, H1).
  clearbody q. clear H1 H2 H3.
  assert (∃ st, key (desg_forward q) =
    (bp_role p, st, bp_infois p, bp_tcstate p, bp_fdbflush p, bp_txcount p) ∧
    (st = bp_state p ∨ is_state st)) as (st & H1 & H2).
  { unfold desg_forward. injection Hq as <- <- <- <- <- <-.
    destruct (_ && _ && _ && _); [|eexists; split; [done|by left]].
    destruct (_ || _ || _).
    { eexists. split; [apply (key_set_port_state BSTP_IFSTATE_FORWARDING)|];
        unfold is_state; auto. }
    destruct (_ =? _); [|eexists; split; [done|by left]].
    eexists. split; [apply (key_set_port_state BSTP_IFSTATE_LEARNING)|];
      unfold is_state; auto. }
  revert H1. generalize (desg_forward q). intros q' [= <- <- <- <- <- <-].
  unfold desg_discard. destruct (_ && _ && _); [|eauto].
  eexists. split; [apply (key_set_port_state BSTP_IFSTATE_DISCARDING)|]; unfold is_state; auto.
Qed.

(** ** Preservation *)

(** The linked ports are distinct allocated structures that satisfy [K]. *)
Definition ports_inv (K : Z → Z * Z * Z * Z * Z * Z → Prop) (s : rstp) : Prop :=
  NoDup (bs_bplist (bs s)) ∧ hold_ok (bs_txholdcount (bs s)) ∧
  ∀ i, i ∈ bs_bplist (bs s) →
    (i < nextp s)%nat ∧ K (bs_txholdcount (bs s)) (key (ports s i)).

Section Preservation.
Context (K : Z → Z * Z * Z * Z * Z * Z → Prop) (HK : stable K).

Lemma inv_port s i f :
  (i ∈ bs_bplist (bs s) → K (bs_txholdcount (bs s)) (key (ports s i)) →
   K (bs_txholdcount (bs s)) (key (f (ports s i)))) →
  ports_inv K s → ports_inv K (upd_port i f s).
Proof.
  intros Hf (H1 & H2 & H3). split_and!; [done..|].
  intros j Hj. destruct (H3 j Hj) as [H4 H5]. split; [done|].
  rewrite bs_upd_port, ports_upd_port. case_decide; subst; auto.
Qed.

Lemma inv_bs s f :
  (∀ b, bkey (f b) = bkey b) → ports_inv K s → ports_inv K (upd_bs f s).
Proof.
  intros Hf. specialize (Hf (bs s)). unfold bkey in Hf. injection Hf as H1 H2.
  unfold ports_inv. cbn. by rewrite H1, H2.
Qed.

Lemma inv_holdcount s c : hold_ok c → ports_inv K s → ports_inv K (bstp_set_holdcount c s).1.
Proof.
  intros Hc (H1 & H2 & H3). unfold bstp_set_holdcount.
  unfold hold_ok in Hc.
  rewrite (proj2 (Z.ltb_ge _ _)), Z.gtb_ltb, (proj2 (Z.ltb_ge _ _)) by lia. cbn [orb fst].
  rewrite u8_small by (unfold BSTP_MIN_HOLD_COUNT, BSTP_MAX_HOLD_COUNT in Hc; lia).
  set (x := upd_bs _ s). destruct (for_each_upd_bs (λ p, p <| bp_txcount := 0 |>) x) as [B N].
  unfold ports_inv. rewrite B, N. split_and!; [done..|]. intros i Hi.
  destruct (H3 i Hi) as [Hlt Hk]. split; [done|].
  rewrite for_each_upd_ports, decide_True by done.
  unfold key in Hk. eapply (st_tx0 _ HK _ c) in Hk; [exact Hk|done].
Qed.

Lemma inv_mstep s x : mstep s x → ports_inv K s → ports_inv K x.
Proof.
  intros [] Hs; try (apply inv_port; [|done]; intros Hin Hk; unfold key in Hk).
  - by rewrite H.
  - by apply inv_bs.
  - done.
  - rewrite key_change_role by done. eapply st_role in Hk; done.
  - rewrite key_set_port_state by (by left). by eapply st_state; [|left|left|].
  - assert (is_state st) as Hst by (unfold is_state; tauto).
    rewrite key_set_port_state by done. by eapply st_state; [| |right|].
  - destruct (key_update_designated (ports s0 i)) as (st & -> & [->|Hst]); [done|].
    by eapply st_state; [| |right; right|].
  - rewrite H0. eapply st_info in Hk; done.
  - eapply st_tx in Hk; [exact Hk|done|done|apply Hs].
  - case_match; [|done]. bool_to_prop. eapply st_txdec in Hk; done.
  - eapply st_tx0 in Hk; [exact Hk|done|apply Hs].
  - eapply st_tc in Hk; [exact Hk|done|by left].
  - rewrite H0. eapply st_tc in Hk; [exact Hk|done|by right].
  - rewrite H. eapply st_flush in Hk; done.
  - by apply inv_holdcount.
  - destruct Hs as (H1 & H2 & H3). split_and!; cbn; [by apply list.NoDup_filter|done|].
    intros j [_ Hj]%list_elem_of_filter. auto.
  - destruct Hs as (H1 & H2 & H3). split_and!; [done..|].
    intros j Hj. destruct (H3 j Hj). split; [cbn; lia|done].
  - done.
  - destruct Hs as (H2 & H3 & H4). split_and!; cbn; [|done|].
    + apply list.NoDup_app. split_and!; [done| |apply NoDup_singleton].
      intros j Hj Hj'. apply list_elem_of_singleton in Hj'. by subst.
    + intros j [Hj|Hj]%elem_of_app; [auto|]. apply list_elem_of_singleton in Hj. subst.
      split; [done|]. rewrite H1. by apply st_created.
Qed.

Lemma inv_steps s x : steps s x → ports_inv K s → ports_inv K x.
Proof. induction 1; eauto using inv_mstep. Qed.

End Preservation.

Lemma call_steps s x :
  (∀ i, i ∈ bs_bplist (bs s) → (i < nextp s)%nat) → rstp_call s x → steps s x.
Proof.
  intros Hlt [].
  - apply init_steps, steps_refl.
  - apply tick_steps, steps_refl.
  - apply create_port_steps; [done|apply steps_refl].
  - apply process_bpdu_steps, steps_refl.
  - apply update_state_steps, ifupdstatus_steps, steps_refl.
  - apply enable_steps, steps_refl.
  - apply disable_steps, steps_refl.
  - apply set_htime_steps, steps_refl.
  - apply set_fdelay_steps, steps_refl.
  - apply set_maxage_steps, steps_refl.
  - apply set_holdcount_steps, steps_refl.
  - apply set_protocol_steps, steps_refl.
  - apply set_priority_steps, steps_refl.
  - apply set_port_priority_steps, steps_refl.
  - apply set_path_cost_steps, steps_refl.
  - apply set_edge_steps, steps_refl.
  - apply set_autoedge_steps, steps_refl.
  - apply set_ptp_steps, steps_refl.
  - apply set_autoptp_steps, steps_refl.
Qed.

(** A stable predicate holds of every linked port of every reachable state. *)
Lemma inv_reachable K s : stable K → reachable s → ports_inv K s.
Proof.
  intros HK [vlan Hr].
  assert (ports_inv K (bstp_attach vlan rstp0)) as H0.
  { split_and!; [apply NoDup_nil_2|done|]. intros i []%elem_of_nil. }
  revert H0. induction Hr as [|x y z Hc _ IH]; [done|].
  intros Hx. apply IH. eapply inv_steps; [done| |exact Hx].
  apply call_steps; [|done]. intros i Hi. by apply Hx.
Qed.

(** ** The three invariants *)

(** The types of the fields, and that only a root or designated port may be
    in a state other than [DISCARDING]. *)
Definition role_ok (h : Z) (k : Z * Z * Z * Z * Z * Z) : Prop :=
  let '(r, st, inf, _, _, _) := k in
  is_role r ∧ is_state st ∧ is_info inf ∧
  (r = BSTP_ROLE_ROOT ∨ r = BSTP_ROLE_DESIGNATED ∨ st = BSTP_IFSTATE_DISCARDING).

Lemma role_ok_stable : stable role_ok.
Proof.
  split; unfold role_ok; try (intros; tauto).
  - intros h r st inf _ _ _ r' Hr' (H1 & H2 & H3 & H4). split_and!; [done| |done|].
    + destruct (r' =? _); [done|]. by left.
    + destruct (r' =? _) eqn:E; bool_to_prop; tauto.
  - intros. split_and!; try done; [by left|tauto].
Qed.

(** The transmission count. *)
Definition tx_ok (h : Z) (k : Z * Z * Z * Z * Z * Z) : Prop :=
  let '(_, _, _, _, _, tx) := k in 0 ≤ tx ≤ h + 1.

Lemma tx_ok_stable : stable tx_ok.
Proof.
  split; unfold tx_ok, hold_ok, BSTP_MIN_HOLD_COUNT, BSTP_MAX_HOLD_COUNT; try (intros; lia).
  intros. rewrite u8_small by lia. lia.
Qed.

(** The topology change machine, waiting for a flush that never comes. *)
Definition tc_idle (h : Z) (k : Z * Z * Z * Z * Z * Z) : Prop :=
  let '(_, _, _, tc, fl, _) := k in tc = BSTP_TCSTATE_INACTIVE ∧ fl = 1.

Lemma tc_idle_stable : stable tc_idle.
Proof. split; unfold tc_idle; intros; tauto. Qed.

(** ** Properties *)

Lemma linked_key K s i :
  stable K → reachable s → i ∈ bs_bplist (bs s) →
  K (bs_txholdcount (bs s)) (key (ports s i)).
Proof. intros HK Hr Hi. by apply (inv_reachable K s HK Hr). Qed.

(** C1: loop safety.  In every reachable state a linked port whose role is
    disabled, alternate or backup is in the discarding state; the role, the state
    and the provenance of the information of a port are always among the values
    the header declares. *)
Theorem blocked_ports_discard s i :
  reachable s → i ∈ bs_bplist (bs s) →
  is_role (bp_role (ports s i)) ∧ is_state (bp_state (ports s i)) ∧
  is_info (bp_infois (ports s i)) ∧
  (bp_role (ports s i) = BSTP_ROLE_DISABLED ∨ bp_role (ports s i) = BSTP_ROLE_ALTERNATE ∨
   bp_role (ports s i) = BSTP_ROLE_BACKUP → bp_state (ports s i) = BSTP_IFSTATE_DISCARDING).
Proof.
  intros Hr Hi. destruct (linked_key _ s i role_ok_stable Hr Hi) as (H1 & H2 & H3 & H4).
  split_and!; [done..|]. intros H5.
  destruct H4 as [H4|[H4|H4]]; rewrite H4 in *; [|..|done]; by destruct H5 as [|[]].
Qed.

(** The transmit limit.  In every reachable state the transmission count of
    a linked port is at most one more than the hold count of the bridge, which is
    between 1 and 10. *)
Theorem txcount_limited s i :
  reachable s → i ∈ bs_bplist (bs s) →
  BSTP_MIN_HOLD_COUNT ≤ bs_txholdcount (bs s) ≤ BSTP_MAX_HOLD_COUNT ∧
  0 ≤ bp_txcount (ports s i) ≤ bs_txholdcount (bs s) + 1.
Proof.
  intros Hr Hi. split; [apply (inv_reachable _ s tx_ok_stable Hr)|].
  apply (linked_key _ s i tx_ok_stable Hr Hi).
Qed.

(** C18: the topology change machine of every linked port stays in its initial
    state, with the flush flag set that only the uncalled [bstp_notify_rtage]
    clears, so that [bstp_update_tc] never changes anything. *)
Theorem tc_machine_idle E s i :
  reachable s → i ∈ bs_bplist (bs s) →
  bp_tcstate (ports s i) = BSTP_TCSTATE_INACTIVE ∧ bp_fdbflush (ports s i) = 1 ∧
  bstp_update_tc E i s = s.
Proof.
  intros Hr Hi. destruct (linked_key _ s i tc_idle_stable Hr Hi) as (H1 & H2).
  split_and!; [done..|]. unfold bstp_update_tc. rewrite H1, H2. cbn. by rewrite andb_false_r.
Qed.

(** the ports of an instance are distinct structures, each allocated by
    [rstp_create_port], in every reachable state. *)
Theorem linked_ports_distinct s :
  reachable s →
  NoDup (bs_bplist (bs s)) ∧ ∀ i, i ∈ bs_bplist (bs s) → (i < nextp s)%nat.
Proof.
  intros Hr. destruct (inv_reachable _ s tc_idle_stable Hr) as (H1 & _ & H3).
  split; [done|]. intros i Hi. by apply H3.
Qed.

(** *** A bridge with two ports *)

Definition demo_cbpdu : bstp_cbpdu :=
  mk_cbpdu (mk_eth [] [] 0) 0 0 0 0 0 0 0 0 [] 0 0 [] 0 0 0 0 0 0.

Definition demo_env : rstp_env :=
  mk_env (λ _, IF_UP) (λ p, [2; 0; 0; 0; 0; p]) [2; 0; 0; 0; 0; 100] 20000 demo_cbpdu true.

Definition demo_init : rstp := bstp_init demo_env (bstp_attach 1 rstp0).
Definition demo_one : rstp := (rstp_create_port demo_env 1 demo_init).1.
Definition demo_two : rstp := (rstp_create_port demo_env 2 demo_one).1.
Definition demo_tick : rstp := bstp_tick demo_env demo_two.

Lemma demo_reachable : reachable demo_tick.
Proof.
  exists 1. apply (rtc_l _ _ demo_init); [exact (call_init _ demo_env)|].
  apply (rtc_l _ _ demo_one); [exact (call_create_port _ demo_env 1)|].
  apply (rtc_l _ _ demo_two); [exact (call_create_port _ demo_env 2)|].
  apply (rtc_l _ _ demo_tick); [exact (call_tick _ demo_env)|]. apply rtc_refl.
Defined.

Lemma demo_linked : 1%nat ∈ bs_bplist (bs demo_tick).
Proof. vm_compute. right. left. Defined.

(** A BPDU of a better root, heard on both ports. *)
Definition demo_pdu : bstp_cbpdu :=
  mk_cbpdu (mk_eth bstp_etheraddr [] 0) LLC_8021D_LSAP LLC_8021D_LSAP LLC_UI 0 2 2 0x3c
    (htons 4096) [2; 0; 0; 0; 0; 1] (htonl 0) (htons 4096) [2; 0; 0; 0; 0; 1] (htons 0x8001)
    (htons 0) (htons 20) (htons 2) (htons 15) 0.

Definition demo_heard : rstp := process_bpdu_on demo_env 0 demo_pdu demo_tick.
Definition demo_heard2 : rstp := process_bpdu_on demo_env 1 demo_pdu demo_heard.

Lemma reachable_call s x : reachable s → rstp_call s x → reachable x.
Proof. intros [v H] Hc. exists v. by eapply rtc_r. Defined.

Lemma demo_linked0 : 0%nat ∈ bs_bplist (bs demo_tick).
Proof. vm_compute. left. Defined.

Lemma demo_heard_reachable : reachable demo_heard.
Proof. exact (reachable_call _ _ demo_reachable (call_bpdu _ demo_env 0 demo_pdu demo_linked0)). Defined.

Lemma demo_heard_linked0 : 0%nat ∈ bs_bplist (bs demo_heard).
Proof. vm_compute. left. Defined.

Lemma demo_heard_linked : 1%nat ∈ bs_bplist (bs demo_heard).
Proof. vm_compute. right. left. Defined.

Lemma demo_heard2_reachable : reachable demo_heard2.
Proof.
  exact (reachable_call _ _ demo_heard_reachable
           (call_bpdu _ demo_env 1 demo_pdu demo_heard_linked)).
Defined.

Lemma demo_heard2_linked : 1%nat ∈ bs_bplist (bs demo_heard2).
Proof. vm_compute. right. left. Defined.

Lemma blocked_ports_discard_witness :
  bp_role (ports demo_heard2 1) = BSTP_ROLE_ALTERNATE ∧
  bp_state (ports demo_heard2 1) = BSTP_IFSTATE_DISCARDING.
Proof.
  assert (bp_role (ports demo_heard2 1) = BSTP_ROLE_ALTERNATE) as H by (vm_compute; reflexivity).
  split; [exact H|].
  apply (blocked_ports_discard demo_heard2 1 demo_heard2_reachable demo_heard2_linked). auto.
Defined.

Lemma txcount_limited_witness : bp_txcount (ports demo_tick 1) ≤ 7.
Proof.
  assert (bs_txholdcount (bs demo_tick) = 6) as H by (vm_compute; reflexivity).
  pose proof (txcount_limited demo_tick 1 demo_reachable demo_linked) as [_ Ht].
  rewrite H in Ht. lia.
Defined.

Lemma tc_machine_idle_witness : bp_tcstate (ports demo_tick 1) = BSTP_TCSTATE_INACTIVE.
Proof. apply (tc_machine_idle demo_env demo_tick 1 demo_reachable demo_linked). Defined.

Lemma linked_ports_distinct_witness : (1 < nextp demo_tick)%nat.
Proof. apply (linked_ports_distinct demo_tick demo_reachable), demo_linked. Defined.
