(* ===== verification/RstpWire.v ===== *)
(** * Rapid spanning tree: priority vectors, BPDUs and timers

    The order of the priority vectors, the wire format of the BPDUs (what a bridge
    sends is what its neighbour decodes), the seconds a timer runs, and the mutual
    recursion of the transmission functions. *)

From S2P Require Import Prelude RstpTypes Rstp RstpFrame RstpSteps RstpInv.

(** ** Bridge identifiers *)

Lemma bridge_id_of_spec pri a0 a1 a2 a3 a4 a5 :
  Forall (λ b, 0 ≤ b < 2 ^ 8) [a0; a1; a2; a3; a4; a5] →
  bridge_id_of pri [a0; a1; a2; a3; a4; a5] =
  (((((pri * 2 ^ 8 + a0) * 2 ^ 8 + a1) * 2 ^ 8 + a2) * 2 ^ 8 + a3) * 2 ^ 8 + a4) * 2 ^ 8 + a5.
Proof.
  intros H. rewrite !list.Forall_cons in H. destruct H as (?&?&?&?&?&?&_).
  unfold bridge_id_of. cbn [nth]. rewrite (Z.shiftl_mul_pow2 pri) by lia.
  rewrite (lor_shift_shift 48 40), (lor_shift_shift 40 32), (lor_shift_shift 32 24),
    (lor_shift_shift 24 16), (lor_shift_shift 16 8), (lor_shift_shift 8 0) by lia.
  lia.
Qed.

Lemma PV2ADDR_bytes pv : Forall (λ b, 0 ≤ b < 2 ^ 8) (PV2ADDR pv).
Proof. unfold PV2ADDR. repeat constructor; apply u8_range. Qed.

Lemma peel_byte z m k :
  m = k + 8 → 0 ≤ k → z / 2 ^ m * 2 ^ 8 + u8 (z ≫ k) = z / 2 ^ k.
Proof.
  intros -> Hk. rewrite Z.pow_add_r, <- Z.div_div, Z.shiftr_div_pow2 by lia.
  unfold u8. rewrite Z.mul_comm. symmetry. apply Z.div_mod. lia.
Qed.

(** The identifier a BPDU carries as priority and address is the identifier. *)
Lemma bridge_id_roundtrip id :
  0 ≤ id < 2 ^ 64 → bridge_id_of (u16 (id ≫ 48)) (PV2ADDR id) = id.
Proof.
  intros Hid. unfold PV2ADDR. rewrite bridge_id_of_spec by apply PV2ADDR_bytes.
  rewrite u16_small by (rewrite Z.shiftr_div_pow2 by lia; split;
    [apply Z.div_pos; lia|apply Z.div_lt_upper_bound; lia]).
  rewrite (Z.shiftr_div_pow2 id 48) by lia.
  rewrite (peel_byte id 48 40), (peel_byte id 40 32), (peel_byte id 32 24),
    (peel_byte id 24 16), (peel_byte id 16 8), (peel_byte id 8 0) by lia.
  apply Z.div_1_r.
Qed.

Lemma PV2ADDR_length id : length (PV2ADDR id) = 6%nat.
Proof. done. Qed.

Lemma addr_cmp_eq a b : length a = length b → bstp_addr_cmp a b = 0 ↔ a = b.
Proof.
  revert b. induction a as [|x a IH]; intros [|y b] Hl; cbn in *; try done.
  destruct (x - y =? 0) eqn:E; bool_to_prop.
  - rewrite IH by lia. split; [|naive_solver]. intros ->. f_equal. lia.
  - split; [lia|]. intros [= -> _]. lia.
Qed.

(** two bridge identifiers are the same for [bstp_same_bridgeid] exactly when
    their low 48 bits, the bridge address, are equal: the priority does not
    matter. *)
Theorem same_bridgeid_spec id1 id2 :
  bstp_same_bridgeid id1 id2 = true ↔ id1 mod 2 ^ 48 = id2 mod 2 ^ 48.
Proof.
  unfold bstp_same_bridgeid. rewrite Z.eqb_eq, addr_cmp_eq by done.
  assert (∀ id, bridge_id_of 0 (PV2ADDR id) = id mod 2 ^ 48) as Hm.
  { intros id. unfold PV2ADDR. rewrite bridge_id_of_spec by apply PV2ADDR_bytes.
    pose proof (peel_byte id 48 40). pose proof (peel_byte id 40 32).
    pose proof (peel_byte id 32 24). pose proof (peel_byte id 24 16).
    pose proof (peel_byte id 16 8). pose proof (peel_byte id 8 0).
    rewrite (Z.mod_eq id (2 ^ 48)) by lia. rewrite Z.div_1_r in *. lia. }
  split; [|intros He].
  - intros He. by rewrite <- !Hm, He.
  - assert (∀ id k, 0 ≤ k ≤ 40 → u8 ((id mod 2 ^ 48) ≫ k) = u8 (id ≫ k)) as Hb.
    { intros id k Hk. unfold u8. rewrite !Z.shiftr_div_pow2 by lia.
      rewrite (Z.div_mod id (2 ^ 48)) at 2 by lia.
      replace (2 ^ 48 * (id / 2 ^ 48)) with
        (id / 2 ^ 48 * 2 ^ (48 - k - 8) * 2 ^ 8 * 2 ^ k).
      - rewrite Z.div_add_l, Z.add_comm, Z.mod_add by lia. done.
      - rewrite <- !Z.mul_assoc, <- !Z.pow_add_r by lia. rewrite Z.mul_comm. f_equal. f_equal. lia. }
    unfold PV2ADDR. rewrite <- (Hb id1 40), <- (Hb id2 40), <- (Hb id1 32), <- (Hb id2 32),
      <- (Hb id1 24), <- (Hb id2 24), <- (Hb id1 16), <- (Hb id2 16), <- (Hb id1 8),
      <- (Hb id2 8), <- (Hb id1 0), <- (Hb id2 0), He by lia. done.
Qed.

(** ** The order of the priority vectors *)

(** [cpv] is better than [pv]: smaller in the lexicographic order of root
    identifier, cost, designated bridge and designated port. *)
Definition pv_lt (cpv pv : bstp_pri_vector) : Prop :=
  pv_root_id cpv < pv_root_id pv ∨
  pv_root_id cpv = pv_root_id pv ∧
  (pv_cost cpv < pv_cost pv ∨
   pv_cost cpv = pv_cost pv ∧
   (pv_dbridge_id cpv < pv_dbridge_id pv ∨
    pv_dbridge_id cpv = pv_dbridge_id pv ∧ pv_dport_id cpv < pv_dport_id pv)).

Definition pv_same (pv cpv : bstp_pri_vector) : Prop :=
  pv_root_id cpv = pv_root_id pv ∧ pv_cost cpv = pv_cost pv ∧
  pv_dbridge_id cpv = pv_dbridge_id pv ∧ pv_dport_id cpv = pv_dport_id pv.

Lemma info_cmp_cases pv cpv :
  (bstp_info_cmp pv cpv = INFO_BETTER ∧ pv_lt cpv pv) ∨
  (bstp_info_cmp pv cpv = INFO_SAME ∧ pv_same pv cpv) ∨
  (bstp_info_cmp pv cpv = INFO_WORSE ∧ pv_lt pv cpv).
Proof.
  unfold bstp_info_cmp, pv_lt, pv_same, INFO_BETTER, INFO_SAME, INFO_WORSE.
  split_if; bool_to_prop; lia.
Qed.

Lemma info_cmp_better pv cpv : bstp_info_cmp pv cpv = INFO_BETTER ↔ pv_lt cpv pv.
Proof.
  destruct (info_cmp_cases pv cpv) as [[-> ?]|[[-> ?]|[-> ?]]]; [done|..];
    (split; [done|]); unfold pv_lt, pv_same in *; lia.
Qed.

Lemma info_cmp_same pv cpv : bstp_info_cmp pv cpv = INFO_SAME ↔ pv_same pv cpv.
Proof.
  destruct (info_cmp_cases pv cpv) as [[-> ?]|[[-> ?]|[-> ?]]]; [|done|];
    (split; [done|]); unfold pv_lt, pv_same in *; lia.
Qed.

Lemma info_cmp_worse pv cpv : bstp_info_cmp pv cpv = INFO_WORSE ↔ pv_lt pv cpv.
Proof.
  destruct (info_cmp_cases pv cpv) as [[-> ?]|[[-> ?]|[-> ?]]]; [..|done];
    (split; [done|]); unfold pv_lt, pv_same in *; lia.
Qed.

(** C25: the comparison of priority vectors is a total order on the four
    compared fields: it answers better exactly for the lexicographically smaller
    vector and same exactly for equal fields, it is antisymmetric, and better is
    transitive. *)
Theorem info_cmp_order a b c :
  (bstp_info_cmp a b = INFO_BETTER ↔ pv_lt b a) ∧
  (bstp_info_cmp a b = INFO_SAME ↔ pv_same a b) ∧
  bstp_info_cmp a b = - bstp_info_cmp b a ∧
  (bstp_info_cmp a b = INFO_BETTER ∧ bstp_info_cmp b c = INFO_BETTER →
   bstp_info_cmp a c = INFO_BETTER).
Proof.
  split_and!; [apply info_cmp_better|apply info_cmp_same| |].
  - destruct (info_cmp_cases a b) as [[-> H]|[[-> H]|[-> H]]]; symmetry.
    + by rewrite (proj2 (info_cmp_worse b a) H).
    + rewrite (proj2 (info_cmp_same b a)); [done|]. unfold pv_same in *. lia.
    + by rewrite (proj2 (info_cmp_better b a) H).
  - rewrite !info_cmp_better. unfold pv_lt. lia.
Qed.

(** ** The recursion of the transmission functions *)

(** With the hello timer running, the expiry handler is not called. *)
Lemma transmit_running E h i s :
  tst (active (bp_hello_timer (ports s i))) = true →
  bstp_transmit_with E h i s = bstp_transmit_with E (λ _ s, s) i s.
Proof.
  intros Ha. unfold bstp_transmit_with. unfold tst in Ha. bool_to_prop.
  by rewrite (proj2 (Z.eqb_neq _ _) Ha).
Qed.

(** One unrolling calls [bstp_transmit] again with the hello timer running. *)
Lemma transmit_fuel_step E n i s :
  bstp_transmit_fuel E (S (S n)) i s = bstp_transmit_fuel E 2 i s.
Proof.
  cbn [bstp_transmit_fuel]. unfold bstp_transmit_with at 1 3.
  split_if; try reflexivity.
  unfold bstp_hello_timer_expiry_with at 1 3. cbv zeta. split_if; [|done].
  rewrite transmit_running by (by rewrite !ports_upd_port_eq).
  symmetry. rewrite transmit_running by (by rewrite !ports_upd_port_eq). done.
Qed.

(** C26: [bstp_transmit] and [bstp_hello_timer_expiry] call each other, and the
    recursion ends: [bstp_transmit] satisfies the equation of its C body, and
    every number of unrollings from two on gives the same result. *)
Theorem bstp_transmit_fuel_enough E i s :
  bstp_transmit E i s = bstp_transmit_with E (bstp_hello_timer_expiry E) i s ∧
  ∀ n, bstp_transmit_fuel E (2 + n) i s = bstp_transmit E i s.
Proof.
  split; [|intros; apply transmit_fuel_step].
  unfold bstp_transmit, bstp_hello_timer_expiry. by rewrite <- (transmit_fuel_step E 1).
Qed.

(** ** Timers *)

(** [n] seconds of a timer, and the seconds at which it expired. *)
Fixpoint timer_ticks (n : nat) (t : bstp_timer) : bstp_timer * nat :=
  match n with
  | O => (t, O)
  | S n' =>
      let '(t, e) := bstp_timer_expired t in
      let '(t, k) := timer_ticks n' t in
      (t, if e then S k else k)
  end.

Lemma timer_ticks_running t n v :
  active t = 1 → latched t = 0 → value t = v → Z.of_nat n < v →
  timer_ticks n t = (t <| value := v - Z.of_nat n |>, O).
Proof.
  revert t v. induction n as [|n IH]; intros [a l w] v Ha Hl Hv Hn; cbn in *; subst.
  - by rewrite Z.sub_0_r.
  - unfold bstp_timer_expired. cbn. unfold BSTP_TICK_VAL.
    rewrite (proj2 (Z.leb_gt _ _)) by lia. rewrite (IH _ (v - 1)) by (cbn; lia).
    replace (v - 1 - Z.of_nat n) with (v - Z.of_nat (S n)) by lia. done.
Qed.

Lemma timer_ticks_stopped t n : active t = 0 → timer_ticks n t = (t, O).
Proof.
  intros Ha. induction n as [|n IH]; cbn; [done|].
  unfold bstp_timer_expired. rewrite Ha. cbn. by rewrite IH.
Qed.

Lemma timer_ticks_add m n t :
  timer_ticks (m + n) t =
  let '(t, k) := timer_ticks m t in let '(t, k') := timer_ticks n t in (t, (k + k')%nat).
Proof.
  revert t. induction m as [|m IH]; intros t; cbn.
  - by destruct (timer_ticks n t).
  - destruct (bstp_timer_expired t) as [t' e]. rewrite IH.
    destruct (timer_ticks m t') as [t2 k2], (timer_ticks n t2) as [t3 k3].
    by destruct e.
Qed.

(** A timer started with [v] seconds (a 16-bit value of at least one) runs
    for exactly [v] ticks: it has not expired after fewer ticks, expires at the
    [v]-th one, and then stays stopped however long it is ticked. *)
Theorem timer_runs_v_seconds t v n :
  1 ≤ v < 2 ^ 16 →
  timer_ticks n (bstp_timer_start t v) =
  if Z.of_nat n <? v then (mk_timer 1 0 (v - Z.of_nat n), O) else (mk_timer 0 0 0, 1%nat).
Proof.
  intros Hv. unfold bstp_timer_start. rewrite u16_small by lia.
  destruct (Z.of_nat n <? v) eqn:E; bool_to_prop.
  - by rewrite (timer_ticks_running _ _ v).
  - replace n with (Z.to_nat (v - 1) + (1 + (n - Z.to_nat v)))%nat by lia.
    rewrite timer_ticks_add, (timer_ticks_running _ _ v) by (cbn; lia).
    rewrite timer_ticks_add. cbn. unfold bstp_timer_expired. cbn. unfold BSTP_TICK_VAL.
    rewrite (proj2 (Z.leb_le _ _)) by lia. by rewrite timer_ticks_stopped.
Qed.

Lemma timer_runs_v_seconds_witness :
  timer_ticks 15 (bstp_timer_start timer0 15) = (mk_timer 0 0 0, 1%nat).
Proof. rewrite timer_runs_v_seconds by lia. reflexivity. Defined.

(** ** BPDUs *)

(** The fields of the port that go on the wire are within their C types. *)
Definition wire_ok (p : bstp_port) : Prop :=
  0 ≤ pv_root_id (bp_desg_pv p) < 2 ^ 64 ∧ 0 ≤ pv_dbridge_id (bp_desg_pv p) < 2 ^ 64 ∧
  0 ≤ pv_cost (bp_desg_pv p) < 2 ^ 32 ∧ 0 ≤ bp_port_id p < 2 ^ 16 ∧
  0 ≤ bp_desg_msg_age p < 2 ^ 16 ∧ 0 ≤ bp_desg_max_age p < 2 ^ 16 ∧
  0 ≤ bp_desg_fdelay p < 2 ^ 16 ∧ 0 ≤ bp_desg_htime p < 2 ^ 16.

(** What a neighbour of port [q] reads from the BPDU of port [p]: the flags and
    the role of a rapid spanning tree BPDU, the two topology change flags and the
    designated role of a configuration BPDU.  A disabled port sends no role, and
    the unit [cu] the message is decoded into keeps the role it had. *)
Definition wire_unit (p q : bstp_port) (cu : bstp_config_unit) : bstp_config_unit :=
  let rstp b := bit ((bp_protover p =? BSTP_PROTO_RSTP) && b) in
  let forwarding := bp_state p =? BSTP_IFSTATE_FORWARDING in
  {| cu_pv := mk_pv (pv_root_id (bp_desg_pv p)) (pv_dbridge_id (bp_desg_pv p))
                (pv_cost (bp_desg_pv p)) (bp_port_id p) (bp_port_id q);
     cu_message_age := bp_desg_msg_age p; cu_max_age := bp_desg_max_age p;
     cu_forward_delay := bp_desg_fdelay p; cu_hello_time := bp_desg_htime p;
     cu_message_type := bp_protover p;
     cu_topology_change_ack :=
       bit ((bp_protover p =? BSTP_PROTO_STP) && tst (bp_tc_ack p));
     cu_topology_change := bit (tst (active (bp_tc_timer p)));
     cu_proposal := rstp (tst (bp_proposing p) && negb forwarding);
     cu_agree := rstp (tst (bp_agree p));
     cu_learning := rstp ((bp_state p =? BSTP_IFSTATE_LEARNING) || forwarding);
     cu_forwarding := rstp forwarding;
     cu_role :=
       if bp_protover p =? BSTP_PROTO_STP then BSTP_ROLE_DESIGNATED
       else if bp_role p =? BSTP_ROLE_DISABLED then cu_role cu
       else if bp_role p =? BSTP_ROLE_BACKUP then BSTP_ROLE_ALTERNATE
       else bp_role p |}.

(** The role a decoded flags byte names, [stale] when it names none. *)
Definition role_of (v flags stale : Z) : Z :=
  let pr := (flags &&& BSTP_PDU_PRMASK) ≫ BSTP_PDU_PRSHIFT in
  if pr =? BSTP_PDU_F_ROOT then BSTP_ROLE_ROOT
  else if pr =? BSTP_PDU_F_ALT then BSTP_ROLE_ALTERNATE
  else if pr =? BSTP_PDU_F_DESG then BSTP_ROLE_DESIGNATED
  else if v =? BSTP_PROTO_STP then BSTP_ROLE_DESIGNATED else stale.

(** The unit [bstp_decode_bpdu] makes, as one record. *)
Lemma decode_unit q pdu cu :
  let v := cbu_protover pdu in
  let flags :=
    if v =? BSTP_PROTO_STP then cbu_flags pdu &&& BSTP_PDU_STPMASK
    else if v =? BSTP_PROTO_RSTP then cbu_flags pdu &&& BSTP_PDU_RSTPMASK
    else cbu_flags pdu in
  let flag f := bit (tst (flags &&& f)) in
  bstp_decode_bpdu q pdu cu =
  mk_cu (mk_pv (bridge_id_of (ntohs (cbu_rootpri pdu)) (cbu_rootaddr pdu))
               (bridge_id_of (ntohs (cbu_bridgepri pdu)) (cbu_bridgeaddr pdu))
               (ntohl (cbu_rootpathcost pdu)) (ntohs (cbu_portid pdu)) (bp_port_id q))
    (ntohs (cbu_messageage pdu)) (ntohs (cbu_maxage pdu)) (ntohs (cbu_forwarddelay pdu))
    (ntohs (cbu_hellotime pdu)) (cbu_bpdutype pdu) (flag BSTP_PDU_F_TCA)
    (flag BSTP_PDU_F_TC) (flag BSTP_PDU_F_P) (flag BSTP_PDU_F_A) (flag BSTP_PDU_F_L)
    (flag BSTP_PDU_F_F) (role_of v flags (cu_role cu)).
Proof. cbv zeta. unfold bstp_decode_bpdu, role_of. cbv zeta. split_if; reflexivity. Qed.

(** The flags byte of a port as a function of the conditions it encodes. *)
Definition flags_of (prop agr tc tca lrn fwd : bool) (r v : Z) : Z :=
  let flags := 0 in
  let flags := if prop && negb fwd then flags ||| BSTP_PDU_F_P else flags in
  let flags := if agr then flags ||| BSTP_PDU_F_A else flags in
  let flags := if tc then flags ||| BSTP_PDU_F_TC else flags in
  let flags := if tca then flags ||| BSTP_PDU_F_TCA else flags in
  let flags :=
    if lrn then flags ||| BSTP_PDU_F_L
    else if fwd then flags ||| (BSTP_PDU_F_L ||| BSTP_PDU_F_F) else flags in
  let flags :=
    if r =? BSTP_ROLE_ROOT then flags ||| (BSTP_PDU_F_ROOT ≪ BSTP_PDU_PRSHIFT)
    else if (r =? BSTP_ROLE_ALTERNATE) || (r =? BSTP_ROLE_BACKUP)
    then flags ||| (BSTP_PDU_F_ALT ≪ BSTP_PDU_PRSHIFT)
    else if r =? BSTP_ROLE_DESIGNATED
    then flags ||| (BSTP_PDU_F_DESG ≪ BSTP_PDU_PRSHIFT) else flags in
  if v =? BSTP_PROTO_STP then flags &&& BSTP_PDU_STPMASK
  else if v =? BSTP_PROTO_RSTP then flags &&& BSTP_PDU_RSTPMASK else flags.

Definition all_bool (f : bool → bool) : bool := f true && f false.

Lemma all_bool_spec f b : all_bool f = true → f b = true.
Proof. unfold all_bool. intros [? ?]%andb_true_iff. by destruct b. Qed.

(** Whether decoding gives back the conditions, for a role and a version; a role
    of -1 stands for the stale one. *)
Definition flags_check (r v : Z) : bool :=
  all_bool (λ prop, all_bool (λ agr, all_bool (λ tc, all_bool (λ tca, all_bool (λ lrn,
  all_bool (λ fwd, (lrn && fwd) ||
    (let fl := u8 (flags_of prop agr tc tca lrn fwd r v) in
     let flags :=
       if v =? BSTP_PROTO_STP then fl &&& BSTP_PDU_STPMASK
       else if v =? BSTP_PROTO_RSTP then fl &&& BSTP_PDU_RSTPMASK else fl in
     let rstp b := (v =? BSTP_PROTO_RSTP) && b in
     let has f b := eqb (tst (flags &&& f)) b in
     has BSTP_PDU_F_TCA ((v =? BSTP_PROTO_STP) && tca) && has BSTP_PDU_F_TC tc &&
     has BSTP_PDU_F_P (rstp (prop && negb fwd)) && has BSTP_PDU_F_A (rstp agr) &&
     has BSTP_PDU_F_L (rstp (lrn || fwd)) && has BSTP_PDU_F_F (rstp fwd) &&
     (role_of v flags (-1) =?
      if v =? BSTP_PROTO_STP then BSTP_ROLE_DESIGNATED
      else if r =? BSTP_ROLE_DISABLED then -1
      else if r =? BSTP_ROLE_BACKUP then BSTP_ROLE_ALTERNATE else r)))))))).

Lemma flags_checked r v :
  is_role r → v = BSTP_PROTO_STP ∨ v = BSTP_PROTO_RSTP → flags_check r v = true.
Proof.
  intros Hr Hv. assert (r = 0 ∨ r = 1 ∨ r = 2 ∨ r = 3 ∨ r = 4) as Hc
    by (unfold is_role in Hr; lia).
  destruct Hv as [-> | ->], Hc as [->|[->|[->|[->| ->]]]]; vm_compute; reflexivity.
Qed.

Lemma role_of_stale v flags stale :
  role_of v flags stale = if role_of v flags (-1) =? -1 then stale else role_of v flags (-1).
Proof. unfold role_of. cbv zeta. split_if; done. Qed.

Lemma flags_decoded p cu (v := bp_protover p) (w := wire_unit p p cu) :
  is_role (bp_role p) → v = BSTP_PROTO_STP ∨ v = BSTP_PROTO_RSTP →
  let fl := u8 (bstp_pdu_flags p) in
  let flags :=
    if v =? BSTP_PROTO_STP then fl &&& BSTP_PDU_STPMASK
    else if v =? BSTP_PROTO_RSTP then fl &&& BSTP_PDU_RSTPMASK else fl in
  let flag f := bit (tst (flags &&& f)) in
  flag BSTP_PDU_F_TCA = cu_topology_change_ack w ∧ flag BSTP_PDU_F_TC = cu_topology_change w ∧
  flag BSTP_PDU_F_P = cu_proposal w ∧ flag BSTP_PDU_F_A = cu_agree w ∧
  flag BSTP_PDU_F_L = cu_learning w ∧ flag BSTP_PDU_F_F = cu_forwarding w ∧
  role_of v flags (cu_role cu) = cu_role w.
Proof.
  intros Hr Hv. pose proof (flags_checked _ _ Hr Hv) as Hc. unfold flags_check in Hc.
  apply (all_bool_spec _ (tst (bp_proposing p))) in Hc.
  apply (all_bool_spec _ (tst (bp_agree p))) in Hc.
  apply (all_bool_spec _ (tst (active (bp_tc_timer p)))) in Hc.
  apply (all_bool_spec _ (tst (bp_tc_ack p))) in Hc.
  apply (all_bool_spec _ (bp_state p =? BSTP_IFSTATE_LEARNING)) in Hc.
  apply (all_bool_spec _ (bp_state p =? BSTP_IFSTATE_FORWARDING)) in Hc.
  apply orb_true_iff in Hc as [Hc|Hc].
  { bool_to_prop. match goal with H : bp_state p = _ |- _ => rewrite H in *; done end. }
  change (flags_of _ _ _ _ _ _ _ _) with (bstp_pdu_flags p) in Hc.
  cbv zeta in *. fold v in Hc. revert Hc.
  generalize (if v =? BSTP_PROTO_STP then u8 (bstp_pdu_flags p) &&& BSTP_PDU_STPMASK
    else if v =? BSTP_PROTO_RSTP then u8 (bstp_pdu_flags p) &&& BSTP_PDU_RSTPMASK
    else u8 (bstp_pdu_flags p)).
  intros flags Hc. rewrite !andb_true_iff, !eqb_true_iff, Z.eqb_eq in Hc.
  destruct Hc as [[[[[[-> ->] ->] ->] ->] ->] Hrole].
  split_and!; try reflexivity. rewrite role_of_stale, Hrole. subst w. cbn. fold v.
  destruct Hv as [-> | ->]; [done|]. cbn.
  destruct (bp_role p =? BSTP_ROLE_DISABLED) eqn:E1; [done|].
  destruct (bp_role p =? BSTP_ROLE_BACKUP) eqn:E2; [done|].
  unfold is_role in Hr. by rewrite (proj2 (Z.eqb_neq _ _)) by lia.
Qed.

(** The frame of [bstp_transmit_bpdu], as one record. *)
Definition wire_pdu (E : rstp_env) (p : bstp_port) : bstp_cbpdu :=
  let pv := bp_desg_pv p in
  let stp := bp_protover p =? BSTP_PROTO_STP in
  mk_cbpdu
    (mk_eth bstp_etheraddr (get_port_mac_address E (u16 (bp_ifp p)))
       (htons (if stp then BSTP_BPDU_STP_LEN else BSTP_BPDU_RSTP_LEN)))
    LLC_8021D_LSAP LLC_8021D_LSAP LLC_UI (htons BSTP_PROTO_ID) (bp_protover p) (bp_protover p)
    (u8 (bstp_pdu_flags p)) (htons (pv_root_id pv ≫ 48)) (PV2ADDR (pv_root_id pv))
    (htonl (pv_cost pv)) (htons (pv_dbridge_id pv ≫ 48)) (PV2ADDR (pv_dbridge_id pv))
    (htons (bp_port_id p)) (htons (bp_desg_msg_age p)) (htons (bp_desg_max_age p))
    (htons (bp_desg_htime p)) (htons (bp_desg_fdelay p))
    (if stp then cbu_versionlen (junk_cbpdu E) else u8 (htons 0)).

Lemma transmit_bpdu_sent E s i :
  bp_protover (ports s i) = BSTP_PROTO_STP ∨ bp_protover (ports s i) = BSTP_PROTO_RSTP →
  sent (bstp_transmit_bpdu E i s) =
  sent s ++ [CfgFrame (u16 (bp_ifp (ports s i))) 53 (wire_pdu E (ports s i))].
Proof.
  intros Hv. unfold bstp_transmit_bpdu, bstp_send_bpdu, wire_pdu. cbv zeta.
  destruct Hv as [Hv|Hv]; rewrite Hv; reflexivity.
Qed.

(** C8: the round trip of the BPDUs.  For a port in one of the five roles that
    speaks one of the two protocol versions, [bstp_transmit_bpdu] puts one frame
    on the interface of the port; it passes the header checks of
    [rstp_process_bpdu], and [bstp_decode_bpdu] reads from it the designated
    vector, the times, the flags and the role of the sender. *)
Theorem bpdu_roundtrip E s i q cu (p := ports s i) :
  wire_ok p → is_role (bp_role p) →
  bp_protover p = BSTP_PROTO_STP ∨ bp_protover p = BSTP_PROTO_RSTP →
  ∃ pdu,
    sent (bstp_transmit_bpdu E i s) = sent s ++ [CfgFrame (u16 (bp_ifp p)) 53 pdu] ∧
    cbu_dsap pdu = LLC_8021D_LSAP ∧ cbu_ssap pdu = LLC_8021D_LSAP ∧ cbu_ctl pdu = LLC_UI ∧
    cbu_protoid pdu = BSTP_PROTO_ID ∧ cbu_protover pdu = bp_protover p ∧
    bstp_decode_bpdu q pdu cu = wire_unit p q cu.
Proof.
  intros (H1 & H2 & H3 & H4 & H5 & H6 & H7 & H8) Hr Hv.
  exists (wire_pdu E p). split; [by apply transmit_bpdu_sent|].
  split_and!; [reflexivity..|].
  destruct (flags_decoded p cu Hr Hv) as (F1 & F2 & F3 & F4 & F5 & F6 & F7).
  rewrite decode_unit. cbv zeta. cbn [wire_pdu cbu_protover cbu_flags cbu_rootpri
    cbu_rootaddr cbu_bridgepri cbu_bridgeaddr cbu_rootpathcost cbu_portid cbu_messageage
    cbu_maxage cbu_hellotime cbu_forwarddelay cbu_bpdutype].
  cbv zeta in *. rewrite F1, F2, F3, F4, F5, F6, F7, !ntohs_htons, ntohl_htonl.
  rewrite !bridge_id_roundtrip, u32_small by done. by rewrite !u16_small by done.
Qed.

Lemma bpdu_roundtrip_witness :
  ∃ pdu, bstp_decode_bpdu port0 pdu cu0 = wire_unit (ports demo_tick 0) port0 cu0.
Proof.
  destruct (bpdu_roundtrip demo_env demo_tick 0 port0 cu0) as (pdu & H).
  - vm_compute. repeat split; discriminate.
  - vm_compute. split; discriminate.
  - right. vm_compute. reflexivity.
  - exists pdu. apply H.
Defined.
