(* ===== verification/RstpRoles.v ===== *)
(** * Rapid spanning tree: the assignment of the roles

    An abstract account of what [bstp_assign_roles] computes, and the proof that
    the two loops of the C code compute it: the root port is the port with the best
    root path vector, and the role of every port follows from a table. *)

From stdpp Require Import relations sets.
From S2P Require Import Prelude RstpTypes Rstp RstpFrame RstpSteps RstpInv RstpWire.

(** ** The specification *)

(** The root path vector of a port that received information from another
    bridge. *)
Definition candidate (s : rstp) (i : nat) : option bstp_pri_vector :=
  let p := ports s i in
  if (bp_infois p =? BSTP_INFO_RECEIVED) &&
     negb (bstp_same_bridgeid (pv_dbridge_id (bp_port_pv p))
                              (pv_dbridge_id (bs_bridge_pv (bs s))))
  then Some ((bp_port_pv p) <| pv_cost := u32 (pv_cost (bp_port_pv p) + bp_path_cost p) |>)
  else None.

(** The root vector [pv] and root port [rbp] of the ports [l]: the bridge's own
    vector when no candidate is better, otherwise the best candidate, the first
    one of the list among equal ones. *)
Definition root_choice (s : rstp) (l : list nat) (pv : bstp_pri_vector)
    (rbp : option nat) : Prop :=
  let own := bs_bridge_pv (bs s) in
  match rbp with
  | None => pv = own ∧ ∀ i c, i ∈ l → candidate s i = Some c → ¬ pv_lt c own
  | Some r =>
      candidate s r = Some pv ∧ pv_lt pv own ∧
      ∃ l1 l2, l = l1 ++ r :: l2 ∧
        (∀ i c, i ∈ l1 → candidate s i = Some c → pv_lt pv c) ∧
        (∀ i c, i ∈ l2 → candidate s i = Some c → ¬ pv_lt c pv)
  end.

(** The vector a port offers its segment when the root vector is [root]. *)
Definition designated_pv (s : rstp) (root : bstp_pri_vector) (p : bstp_port) :
    bstp_pri_vector :=
  mk_pv (pv_root_id root) (pv_dbridge_id (bs_bridge_pv (bs s))) (pv_cost root)
    (bp_port_id p) (bp_port_id p).

(** The role table of 802.1D-2004. *)
Definition role_table (s : rstp) (root : bstp_pri_vector) (rbp : option nat) (i : nat) : Z :=
  let p := ports s i in
  if bp_infois p =? BSTP_INFO_DISABLED then BSTP_ROLE_DISABLED
  else if bp_infois p !=? BSTP_INFO_RECEIVED then BSTP_ROLE_DESIGNATED
  else if bool_decide (rbp = Some i) then BSTP_ROLE_ROOT
  else if bstp_info_cmp (bp_port_pv p) (designated_pv s root p) =? INFO_BETTER
  then BSTP_ROLE_DESIGNATED
  else if bstp_same_bridgeid (pv_dbridge_id (bp_port_pv p))
                             (pv_dbridge_id (bs_bridge_pv (bs s)))
  then BSTP_ROLE_BACKUP else BSTP_ROLE_ALTERNATE.

(** Where the information of a port of a role comes from. *)
Definition info_of_role (r : Z) : Z :=
  if r =? BSTP_ROLE_DISABLED then BSTP_INFO_DISABLED
  else if r =? BSTP_ROLE_DESIGNATED then BSTP_INFO_MINE else BSTP_INFO_RECEIVED.

(** ** The search for the root *)

(** The bridge with the times of the root taken from a port. *)
Definition root_from (pv : bstp_pri_vector) (p : bstp_port) (b : bstp_state) : bstp_state :=
  b <| bs_root_pv := pv |>
    <| bs_root_msg_age := u16 (bp_port_msg_age p + BSTP_MESSAGE_AGE_INCR) |>
    <| bs_root_max_age := bp_port_max_age p |>
    <| bs_root_fdelay := bp_port_fdelay p |>
    <| bs_root_htime := bp_port_htime p |>.

(** The loop after the ports [l]. *)
Definition root_found (s : rstp) (l : list nat) (acc : rstp * option nat) : Prop :=
  let '(x, rbp) := acc in
  ports x = ports s ∧ bs_bridge_pv (bs x) = bs_bridge_pv (bs s) ∧
  bs_bplist (bs x) = bs_bplist (bs s) ∧ bs_root_port (bs x) = bs_root_port (bs s) ∧
  root_choice s l (bs_root_pv (bs x)) rbp.

Lemma pv_lt_trans a b c : pv_lt a b → pv_lt b c → pv_lt a c.
Proof. unfold pv_lt. lia. Qed.

Lemma pv_lt_le a b c : pv_lt a b → ¬ pv_lt c b → pv_lt a c.
Proof. unfold pv_lt. lia. Qed.

(** A port whose candidate is not better changes nothing. *)
Lemma root_choice_skip s l pv rbp i :
  (∀ c, candidate s i = Some c → ¬ pv_lt c pv) →
  root_choice s l pv rbp → root_choice s (l ++ [i]) pv rbp.
Proof.
  intros Hi. destruct rbp as [r|]; cbn.
  - intros (H1 & H2 & l1 & l2 & -> & H3 & H4). split_and!; [done..|].
    exists l1, (l2 ++ [i]). split_and!; [by rewrite <- app_assoc|done|].
    intros j c [Hj|Hj]%elem_of_app; [eauto|].
    apply list_elem_of_singleton in Hj as ->. auto.
  - intros [-> H1]. split; [done|]. intros j c [Hj|Hj]%elem_of_app; [eauto|].
    apply list_elem_of_singleton in Hj as ->. auto.
Qed.

(** A better candidate becomes the choice. *)
Lemma root_choice_take s l pv rbp i c :
  candidate s i = Some c → pv_lt c pv →
  root_choice s l pv rbp → root_choice s (l ++ [i]) c (Some i).
Proof.
  intros Hc Hlt Hr. cbn.
  assert (pv_lt c (bs_bridge_pv (bs s)) ∧
          ∀ j d, j ∈ l → candidate s j = Some d → pv_lt c d) as [H1 H2].
  { destruct rbp as [r|]; cbn in Hr.
    - destruct Hr as (H1 & H2 & l1 & l2 & -> & H3 & H4).
      split; [by eapply pv_lt_trans|]. intros j d Hj Hd.
      apply elem_of_app in Hj as [Hj|Hj].
      + eapply pv_lt_trans; eauto.
      + apply elem_of_cons in Hj as [->|Hj]; [congruence|]. eapply pv_lt_le; eauto.
    - destruct Hr as [-> H1]. split; [done|]. intros j d Hj Hd. eapply pv_lt_le; eauto. }
  split_and!; [done..|]. exists l, []. split_and!; [done|done|].
  intros j d []%elem_of_nil.
Qed.

Lemma root_step s l x rbp i :
  root_found s l (x, rbp) → root_found s (l ++ [i]) (assign_root_step (x, rbp) i).
Proof.
  intros (Hp & Hb & Hl & Hr & Hc). unfold assign_root_step. rewrite Hp, Hb.
  destruct (bp_infois (ports s i) =? BSTP_INFO_RECEIVED) eqn:E1; cbn -[u32].
  - destruct (bstp_same_bridgeid _ _) eqn:E2; cbn -[u32].
    + split_and!; try done. apply root_choice_skip; [|done].
      unfold candidate. cbn. rewrite E1, E2. done.
    + assert (candidate s i = Some ((bp_port_pv (ports s i)) <| pv_cost :=
        u32 (pv_cost (bp_port_pv (ports s i)) + bp_path_cost (ports s i)) |>)) as Hi.
      { unfold candidate. cbn. by rewrite E1, E2. }
      destruct (_ =? INFO_BETTER) eqn:E3; bool_to_prop.
      * rewrite info_cmp_better in E3. split_and!; try done. by eapply root_choice_take.
      * rewrite info_cmp_better in E3. split_and!; try done. apply root_choice_skip; [|done].
        intros c. rewrite Hi. by intros [= <-].
  - split_and!; try done. apply root_choice_skip; [|done].
    unfold candidate. cbn. by rewrite E1.
Qed.

Lemma assign_root_spec s :
  root_found (upd_bs assign_defaults s) (bs_bplist (bs s)) (assign_root s).
Proof.
  unfold assign_root. cbv zeta. set (x := upd_bs assign_defaults s).
  change (bs_bplist (bs s)) with (bs_bplist (bs x)).
  assert (∀ l1 l2 acc, root_found x l1 acc →
            root_found x (l1 ++ l2) (foldl assign_root_step acc l2)) as IH.
  { intros l1 l2. revert l1. induction l2 as [|i l2 IH]; intros l1 [y r] Hf; cbn.
    - by rewrite app_nil_r.
    - rewrite (cons_middle i), app_assoc. apply IH. by apply root_step. }
  apply (IH [] _ (x, None)). split_and!; try done. cbn. split; [done|].
  intros i c []%elem_of_nil.
Qed.

(** ** The roles *)

(** What the comparison of the vectors reads. *)
Definition vec (p : bstp_port) : Z * bstp_pri_vector * bstp_pri_vector * Z :=
  (bp_infois p, bp_port_pv p, bp_desg_pv p, bp_port_id p).

Definition bs_core (b : bstp_state) : bstp_state :=
  b <| bs_allsynced := 0 |> <| bs_root_port := None |>.

(** The step from [x] to [y] works on port [i] only. *)
Definition local (i : nat) (x y : rstp) : Prop :=
  (∀ j, j ≠ i → core (ports y j) = core (ports x j)) ∧ bs_core (bs y) = bs_core (bs x).

Lemma local_refl i x : local i x x.
Proof. done. Qed.

Lemma local_trans i x y z : local i x y → local i y z → local i x z.
Proof.
  intros [H1 H2] [H3 H4]. split; [|congruence]. intros j Hj. by rewrite H3, H1.
Qed.

Lemma local_port i x y f : local i x y → local i x (upd_port i f y).
Proof.
  intros H. eapply local_trans; [exact H|]. split; [|done].
  intros j Hj. by rewrite ports_upd_port_ne.
Qed.

Lemma local_bs i x y f :
  (∀ b, bs_core (f b) = bs_core b) → local i x y → local i x (upd_bs f y).
Proof. intros Hf [H1 H2]. split; [done|]. cbn. by rewrite Hf. Qed.

Lemma local_keeps i x y : keeps core x y → local i x y.
Proof. intros (Hb & _ & Hk). split; [auto|by rewrite Hb]. Qed.

Lemma vec_change_role r p : vec (change_role r p) = vec p.
Proof.
  unfold change_role, role_init, bstp_set_port_state, role_pre_change. cbv zeta.
  split_if; reflexivity.
Qed.

Section Roles.
Context (E : rstp_env).

Lemma core_vec p q : core p = core q → vec p = vec q ∧ bp_role p = bp_role q.
Proof.
  intros H. unfold vec.
  pose proof (f_equal bp_infois H) as H1. pose proof (f_equal bp_port_pv H) as H2.
  pose proof (f_equal bp_desg_pv H) as H3. pose proof (f_equal bp_port_id H) as H4.
  pose proof (f_equal bp_role H) as H5. cbn in *. by rewrite H1, H2, H3, H4.
Qed.

Lemma set_port_role_spec i r x (y := bstp_set_port_role E i r x) :
  is_role r →
  local i x y ∧ bs_root_port (bs y) = bs_root_port (bs x) ∧
  bp_role (ports y i) = r ∧ vec (ports y i) = vec (ports x i).
Proof.
  intros Hr. subst y. unfold bstp_set_port_role.
  destruct (bp_role (ports x i) =? r) eqn:E1; bool_to_prop; [done|]. cbv zeta.
  set (z := upd_bs _ (upd_port i (change_role r) x)).
  destruct (update_tc_keeps E z z i (keeps_refl _ _)) as (Hb & Hn & Hk).
  assert (local i x z) as Hz.
  { apply local_bs; [done|]. apply local_port, local_refl. }
  destruct (core_vec _ _ (Hk i)) as [Hv Hrole].
  split_and!.
  - eapply local_trans; [exact Hz|]. by apply local_keeps.
  - by rewrite Hb.
  - rewrite Hrole. subst z. rewrite ports_upd_bs, ports_upd_port_eq.
    pose proof (key_change_role r (ports x i) Hr) as Hkey. by injection Hkey.
  - rewrite Hv. subst z. by rewrite ports_upd_bs, ports_upd_port_eq, vec_change_role.
Qed.

Lemma update_info_spec i x (y := bstp_update_info i x) :
  local i x y ∧ bs_root_port (bs y) = bs_root_port (bs x) ∧
  bp_role (ports y i) = bp_role (ports x i) ∧
  vec (ports y i) = (BSTP_INFO_MINE, bp_desg_pv (ports x i), bp_desg_pv (ports x i),
                     bp_port_id (ports x i)).
Proof.
  subst y. unfold bstp_update_info. cbv zeta. split_if; split_and!;
    rewrite ?ports_upd_port_eq, ?ports_upd_bs, ?ports_upd_port_eq; try reflexivity;
    repeat first [apply local_refl | apply local_port | apply local_bs; [done|]].
Qed.

(** ** One port of the second loop *)

Lemma vec_assign_designated i x :
  vec (ports (upd_port i (assign_designated (bs x)) x) i) =
  (bp_infois (ports x i), bp_port_pv (ports x i),
   designated_pv x (bs_root_pv (bs x)) (ports x i), bp_port_id (ports x i)).
Proof. by rewrite ports_upd_port_eq. Qed.

(** Port [i] after a step, seen from the state [x] before it. *)
Definition result (i : nat) (x y : rstp) (rp : option nat) (r inf : Z)
    (dpv ppv : bstp_pri_vector) : Prop :=
  local i x y ∧ bs_root_port (bs y) = rp ∧ bp_role (ports y i) = r ∧
  bp_infois (ports y i) = inf ∧ bp_desg_pv (ports y i) = dpv ∧ bp_port_pv (ports y i) = ppv.

Lemma result_role i x z rp r r' inf dpv ppv :
  is_role r' → result i x z rp r inf dpv ppv →
  result i x (bstp_set_port_role E i r' z) rp r' inf dpv ppv.
Proof.
  intros Hr (L & R & _ & I & D & P).
  pose proof (set_port_role_spec i r' z Hr) as Hy. revert Hy. unfold result. cbv zeta.
  generalize (bstp_set_port_role E i r' z). intros y (S1 & S2 & S3 & S4).
  unfold vec in S4. injection S4 as W1 W2 W3 W4.
  split_and!; try congruence. by eapply local_trans.
Qed.

Lemma result_info i x z rp r inf dpv ppv :
  result i x z rp r inf dpv ppv →
  result i x (bstp_update_info i z) rp r BSTP_INFO_MINE dpv dpv.
Proof.
  intros (L & R & O & I & D & P).
  pose proof (update_info_spec i z) as Hy. revert Hy. unfold result. cbv zeta.
  generalize (bstp_update_info i z). intros y (S1 & S2 & S3 & S4).
  unfold vec in S4. injection S4 as W1 W2 W3 W4.
  split_and!; try congruence. by eapply local_trans.
Qed.

Lemma result_designated i x :
  result i x (upd_port i (assign_designated (bs x)) x) (bs_root_port (bs x))
    (bp_role (ports x i)) (bp_infois (ports x i))
    (designated_pv x (bs_root_pv (bs x)) (ports x i)) (bp_port_pv (ports x i)).
Proof. split_and!; rewrite ?ports_upd_port_eq; try done. apply local_port, local_refl. Qed.

Lemma result_root i x z rp r inf dpv ppv :
  result i x z rp r inf dpv ppv →
  result i x (upd_bs (λ b, b <| bs_root_port := Some i |>) z) (Some i) r inf dpv ppv.
Proof. intros (L & R & O & I & D & P). split_and!; done. Qed.

#[local] Opaque bstp_set_port_role bstp_update_info.

(** The step on port [i] gives it the role of the table, the designated vector,
    and information that matches the role. *)
Lemma assign_role_step_spec rbp i x (r := role_table x (bs_root_pv (bs x)) rbp i) :
  is_info (bp_infois (ports x i)) →
  ∃ ppv,
    result i x (assign_role_step E rbp i x)
      (if r =? BSTP_ROLE_ROOT then Some i else bs_root_port (bs x)) r (info_of_role r)
      (designated_pv x (bs_root_pv (bs x)) (ports x i)) ppv ∧
    if r =? BSTP_ROLE_DESIGNATED
    then pv_same ppv (designated_pv x (bs_root_pv (bs x)) (ports x i))
    else ppv = bp_port_pv (ports x i).
Proof.
  intros Hi. unfold assign_role_step. cbv zeta.
  pose proof (result_designated i x) as Hz.
  assert (bs (upd_port i (assign_designated (bs x)) x) = bs x) as Hb by done.
  revert Hz Hb. generalize (upd_port i (assign_designated (bs x)) x). intros z Hz Hb.
  pose proof Hz as (_ & _ & _ & V1 & V3 & V2).
  unfold role_table in r. rewrite V1, V2, V3, Hb. subst r.
  destruct (bp_infois (ports x i) =? BSTP_INFO_DISABLED) eqn:E1; bool_to_prop.
  { rewrite E1 in Hz. eexists. split; [by eapply result_role|done]. }
  destruct (bp_infois (ports x i) =? BSTP_INFO_RECEIVED) eqn:E2; bool_to_prop.
  { rewrite E2 in Hz |- *. cbn. case_bool_decide; cbn.
    { eexists. split; [by eapply result_root, result_role|done]. }
    destruct (_ =? INFO_BETTER) eqn:E3; cbn.
    { eexists. split; [by eapply result_info, result_role|]. done. }
    destruct (bstp_same_bridgeid _ _); eexists; (split; [by eapply result_role|done]). }
  cbn. assert (bp_infois (ports x i) = BSTP_INFO_AGED ∨ bp_infois (ports x i) = BSTP_INFO_MINE)
    as [->|E3] by (unfold is_info, BSTP_INFO_DISABLED, BSTP_INFO_RECEIVED, BSTP_INFO_AGED,
                   BSTP_INFO_MINE in *; lia); cbn.
  { eexists. split; [by eapply result_info, result_role|]. done. }
  rewrite E3 in *. cbn.
  pose proof (result_role i x z _ _ BSTP_ROLE_DESIGNATED _ _ _ ltac:(done) Hz) as Hy.
  destruct Hy as (L & R & O & I & D & P) eqn:Ey. clear Ey. rewrite D, P.
  destruct (bstp_info_cmp _ _ =? INFO_SAME) eqn:E4; cbn.
  2: { eexists. split; [eapply result_info; split_and!; done|done]. }
  destruct (root_times_differ _ _ _); cbn.
  { eexists. split; [eapply result_info; split_and!; done|done]. }
  eexists. split; [split_and!; done|]. bool_to_prop. by apply info_cmp_same.
Qed.

(** ** The second loop *)

(** What the assignment of the roles from the state [x] makes of port [i]. *)
Definition assigned (x : rstp) (root : bstp_pri_vector) (rbp : option nat) (i : nat)
    (p : bstp_port) : Prop :=
  let r := role_table x root rbp i in
  bp_role p = r ∧ bp_infois p = info_of_role r ∧
  bp_desg_pv p = designated_pv x root (ports x i) ∧
  if r =? BSTP_ROLE_DESIGNATED then pv_same (bp_port_pv p) (bp_desg_pv p)
  else bp_port_pv p = bp_port_pv (ports x i).

Lemma assigned_core x root rbp i p q :
  core p = core q → assigned x root rbp i q → assigned x root rbp i p.
Proof.
  intros [Hv Hr]%core_vec. unfold vec in Hv. injection Hv as V1 V2 V3 V4.
  unfold assigned. by rewrite V1, V2, V3, Hr.
Qed.

Lemma bs_core_fields b c :
  bs_core b = bs_core c →
  bs_root_pv b = bs_root_pv c ∧ bs_bridge_pv b = bs_bridge_pv c ∧ bs_bplist b = bs_bplist c.
Proof.
  intros H. pose proof (f_equal bs_root_pv H). pose proof (f_equal bs_bridge_pv H).
  pose proof (f_equal bs_bplist H). done.
Qed.

(** The table reads the part of the state that the loop keeps. *)
Lemma role_table_ext x y root rbp i :
  bs_core (bs y) = bs_core (bs x) → core (ports y i) = core (ports x i) →
  role_table y root rbp i = role_table x root rbp i ∧
  designated_pv y root (ports y i) = designated_pv x root (ports x i) ∧
  bp_infois (ports y i) = bp_infois (ports x i) ∧
  bp_port_pv (ports y i) = bp_port_pv (ports x i).
Proof.
  intros (_ & Hb & _)%bs_core_fields [Hv _]%core_vec. unfold vec in Hv.
  injection Hv as V1 V2 V3 V4.
  unfold role_table, designated_pv. by rewrite Hb, V1, V2, V4.
Qed.

(** The root port, once it has been passed. *)
Definition root_seen (rbp : option nat) (l : list nat) (old : option nat) : option nat :=
  match rbp with
  | Some r => if decide (r ∈ l) then Some r else old
  | None => old
  end.

(** The loop after the ports [l]. *)
Definition roles_done (x : rstp) (rbp : option nat) (l : list nat) (y : rstp) : Prop :=
  bs_core (bs y) = bs_core (bs x) ∧
  (∀ j, j ∉ l → core (ports y j) = core (ports x j)) ∧
  (∀ j, j ∈ l → assigned x (bs_root_pv (bs x)) rbp j (ports y j)) ∧
  bs_root_port (bs y) = root_seen rbp l (bs_root_port (bs x)).

Lemma role_table_root x root rbp i :
  bp_infois (ports x i) = BSTP_INFO_RECEIVED ∨ rbp ≠ Some i →
  role_table x root rbp i = BSTP_ROLE_ROOT ↔ rbp = Some i.
Proof.
  intros Hi. unfold role_table. destruct Hi as [->|Hi].
  - cbn. case_bool_decide; [done|]. split; [|done]. split_if; done.
  - rewrite bool_decide_false by done. split; [|done]. split_if; done.
Qed.

Lemma roles_step x rbp l y i :
  i ∉ l → is_info (bp_infois (ports x i)) →
  bp_infois (ports x i) = BSTP_INFO_RECEIVED ∨ rbp ≠ Some i →
  roles_done x rbp l y → roles_done x rbp (l ++ [i]) (assign_role_step E rbp i y).
Proof.
  intros Hn Hi Hr (Hb & Hc & Ha & Hp).
  destruct (bs_core_fields _ _ Hb) as (B1 & B2 & B3).
  destruct (role_table_ext x y (bs_root_pv (bs x)) rbp i Hb (Hc i Hn)) as (T1 & T2 & T3 & T4).
  destruct (assign_role_step_spec rbp i y) as (ppv & Hres & Hpv); [by rewrite T3|].
  rewrite B1, T1, T2 in *. rewrite T4 in Hpv. revert Hres.
  generalize (assign_role_step E rbp i y). intros z ([L1 L2] & R & O & I & D & P).
  split_and!.
  - congruence.
  - intros j Hj. rewrite L1, Hc; [done|set_solver..].
  - intros j Hj. destruct (decide (j = i)) as [->|Hne].
    + unfold assigned. rewrite O, I, D, P. done.
    + apply (assigned_core _ _ _ _ _ (ports y j)); [auto|]. apply Ha. set_solver.
  - rewrite R, Hp. unfold root_seen.
    destruct (role_table x _ rbp i =? BSTP_ROLE_ROOT) eqn:E1; bool_to_prop.
    + apply role_table_root in E1; [|done]. subst. by rewrite decide_True by set_solver.
    + rewrite role_table_root in E1 by done. destruct rbp as [r|]; [|done].
      repeat case_decide; set_solver.
Qed.

Lemma roles_loop x rbp l1 l2 y :
  NoDup (l1 ++ l2) → (∀ i, i ∈ l2 → is_info (bp_infois (ports x i))) →
  (∀ i, rbp = Some i → bp_infois (ports x i) = BSTP_INFO_RECEIVED) →
  roles_done x rbp l1 y →
  roles_done x rbp (l1 ++ l2) (foldl (λ s i, assign_role_step E rbp i s) y l2).
Proof.
  revert l1 y. induction l2 as [|i l2 IH]; intros l1 y Hd Hi Hr Hy; cbn.
  - by rewrite app_nil_r.
  - rewrite (cons_middle i), app_assoc in *. apply IH; [done| |done|].
    + intros j Hj. apply Hi. by right.
    + apply list.NoDup_app in Hd as (Hd & _ & _). apply list.NoDup_app in Hd as (_ & Hd & _).
      apply roles_step; [|apply Hi; by left| |done].
      * intros Hin. by apply (Hd i Hin), list_elem_of_singleton.
      * destruct (decide (rbp = Some i)); auto.
Qed.

Lemma candidate_received s i c :
  candidate s i = Some c → bp_infois (ports s i) = BSTP_INFO_RECEIVED.
Proof. unfold candidate. cbv zeta. case_match eqn:E1; [|done]. by bool_to_prop. Qed.

Lemma root_choice_root s l pv r :
  root_choice s l pv (Some r) → r ∈ l ∧ bp_infois (ports s r) = BSTP_INFO_RECEIVED.
Proof.
  intros (H1 & _ & l1 & l2 & -> & _). split; [set_solver|]. by eapply candidate_received.
Qed.

Lemma assign_roles_assigned s :
  NoDup (bs_bplist (bs s)) →
  (∀ i, i ∈ bs_bplist (bs s) → is_info (bp_infois (ports s i))) →
  ∃ root rbp,
    root_choice s (bs_bplist (bs s)) root rbp ∧
    bs_root_pv (bs (bstp_assign_roles E s)) = root ∧
    bs_root_port (bs (bstp_assign_roles E s)) = rbp ∧
    ∀ i, i ∈ bs_bplist (bs s) →
      assigned s root rbp i (ports (bstp_assign_roles E s) i).
Proof.
  intros Hd Hi. unfold bstp_assign_roles. pose proof (assign_root_spec s) as Hf.
  destruct (assign_root s) as [x rbp]. destruct Hf as (Hp & Hb & Hl & Hrp & Hc).
  cbn in Hb, Hl, Hrp. change (ports (upd_bs assign_defaults s)) with (ports s) in Hp.
  exists (bs_root_pv (bs x)), rbp. split; [exact Hc|].
  assert (roles_done x rbp (bs_bplist (bs s)) (for_each_port (assign_role_step E rbp) x))
    as (D1 & _ & D3 & D4).
  { unfold for_each_port. rewrite Hl. apply (roles_loop x rbp []); rewrite ?Hp; try done.
    - intros r ->. by eapply (root_choice_root (upd_bs assign_defaults s)).
    - split_and!; [done|done| |]; [intros j []%elem_of_nil|].
      unfold root_seen. destruct rbp; [|done].
      rewrite decide_False; [done|]. apply not_elem_of_nil. }
  destruct (bs_core_fields _ _ D1) as (B1 & _ & _). split_and!; [done| |].
  - rewrite D4, Hrp. destruct rbp as [r|]; [|done]. cbn.
    rewrite decide_True; [done|]. by eapply root_choice_root.
  - intros i Hin. specialize (D3 i Hin). unfold assigned, role_table, designated_pv in *.
    by rewrite Hp, Hb in D3.
Qed.

End Roles.

(** ** Properties *)

Lemma reachable_ports s :
  reachable s →
  NoDup (bs_bplist (bs s)) ∧ ∀ i, i ∈ bs_bplist (bs s) → is_info (bp_infois (ports s i)).
Proof.
  intros Hr. split; [apply (inv_reachable _ s role_ok_stable Hr)|].
  intros i Hi. by apply (linked_key _ s i role_ok_stable Hr Hi).
Qed.

(** C2: the assignment of the roles.  In every reachable state
    [bstp_assign_roles] chooses as root the best of the bridge's own vector and
    the root path vectors of the ports (the first of the list among equal ones),
    records it with its port, and gives every port of the instance the role of the
    802.1D table, the designated vector of the new root, and information that
    matches its role: its own designated vector when designated, the received
    vector when root, alternate or backup port. *)
Theorem assign_roles_spec E s :
  reachable s →
  ∃ root rbp,
    root_choice s (bs_bplist (bs s)) root rbp ∧
    bs_root_pv (bs (bstp_assign_roles E s)) = root ∧
    bs_root_port (bs (bstp_assign_roles E s)) = rbp ∧
    ∀ i, i ∈ bs_bplist (bs s) →
      assigned s root rbp i (ports (bstp_assign_roles E s) i).
Proof. intros [Hd Hi]%reachable_ports. by apply assign_roles_assigned. Qed.

Lemma assign_roles_spec_witness :
  bp_desg_pv (ports (bstp_assign_roles demo_env demo_tick) 1) =
  designated_pv demo_tick (bs_root_pv (bs (bstp_assign_roles demo_env demo_tick)))
    (ports demo_tick 1).
Proof.
  destruct (assign_roles_spec demo_env demo_tick demo_reachable) as (root & rbp & _ & -> & _ & H).
  destruct (H 1%nat demo_linked) as (_ & _ & Hd & _). exact Hd.
Defined.

(** At most one root port.  After [bstp_assign_roles] a port of a reachable
    instance has the root role exactly when [bs_root_port] points to it, so two
    ports never have it at once. *)
Theorem unique_root_port E s i :
  reachable s → i ∈ bs_bplist (bs s) →
  bp_role (ports (bstp_assign_roles E s) i) = BSTP_ROLE_ROOT ↔
  bs_root_port (bs (bstp_assign_roles E s)) = Some i.
Proof.
  intros [Hd Hinf]%reachable_ports Hi.
  destruct (assign_roles_assigned E s Hd Hinf) as (root & rbp & Hc & _ & -> & Ha).
  destruct (Ha i Hi) as [-> _]. apply role_table_root.
  destruct (decide (rbp = Some i)) as [->|]; [left|by right].
  by eapply root_choice_root.
Qed.

Lemma unique_root_port_witness :
  bs_root_port (bs (bstp_assign_roles demo_env demo_heard2)) ≠ Some 1%nat.
Proof.
  intros H.
  apply (unique_root_port demo_env demo_heard2 1 demo_heard2_reachable demo_heard2_linked) in H.
  vm_compute in H. discriminate H.
Defined.

(** The state in which the information of port [i] has aged out. *)
Lemma aged_ports s i :
  reachable s →
  let x := upd_port i (λ p, p <| bp_infois := BSTP_INFO_AGED |>) s in
  NoDup (bs_bplist (bs x)) ∧ ∀ j, j ∈ bs_bplist (bs x) → is_info (bp_infois (ports x j)).
Proof.
  intros [Hd Hinf]%reachable_ports. split; [done|]. intros j Hj.
  rewrite ports_upd_port. case_decide; subst; [done|auto].
Qed.

(** Recovery from a silent neighbour.  When the message age timer of a port
    with received information expires, the port becomes designated and offers the
    bridge's own designated vector; the other ports lose none of their
    information. *)
Theorem message_age_recovers E s i (y := bstp_message_age_expiry E i s) :
  reachable s → i ∈ bs_bplist (bs s) → bp_infois (ports s i) = BSTP_INFO_RECEIVED →
  bp_role (ports y i) = BSTP_ROLE_DESIGNATED ∧ bp_infois (ports y i) = BSTP_INFO_MINE ∧
  pv_same (bp_port_pv (ports y i)) (bp_desg_pv (ports y i)) ∧
  bs_root_port (bs y) ≠ Some i.
Proof.
  intros Hr Hi Hinf. subst y. unfold bstp_message_age_expiry. rewrite Hinf. cbv zeta. rewrite Z.eqb_refl.
  destruct (aged_ports s i Hr) as [Hd Hall].
  set (x := upd_port i (λ p, p <| bp_infois := BSTP_INFO_AGED |>) s) in *.
  assert (bp_infois (ports x i) = BSTP_INFO_AGED) as Hx by (subst x; by rewrite ports_upd_port_eq).
  destruct (assign_roles_assigned E x Hd Hall) as (root & rbp & Hc & _ & Hrp & Ha).
  specialize (Ha i Hi). unfold assigned in Ha.
  assert (role_table x root rbp i = BSTP_ROLE_DESIGNATED) as Ht
    by (unfold role_table; by rewrite Hx).
  rewrite Ht in Ha. destruct Ha as (H1 & H2 & _ & H4). cbn in H2, H4.
  split_and!; [done..|]. rewrite Hrp. intros ->.
  apply root_choice_root in Hc as [_ Hc]. rewrite Hx in Hc. discriminate Hc.
Qed.

Lemma message_age_recovers_witness :
  bp_infois (ports demo_heard 0) = BSTP_INFO_RECEIVED ∧
  bp_role (ports (bstp_message_age_expiry demo_env 0 demo_heard) 0) = BSTP_ROLE_DESIGNATED.
Proof.
  assert (bp_infois (ports demo_heard 0) = BSTP_INFO_RECEIVED) as H by (vm_compute; reflexivity).
  split; [exact H|].
  exact (proj1 (message_age_recovers demo_env demo_heard 0 demo_heard_reachable
                  demo_heard_linked0 H)).
Defined.
