(* ===== verification/RstpConfig.v ===== *)
(** * Rapid spanning tree: configuration

    What the configuration calls of bridgestp.c do to the parameters of a bridge:
    which values they accept, and that a call that fails changes nothing. *)

From stdpp Require Import relations sets.
From S2P Require Import Prelude RstpTypes Rstp RstpFrame RstpWire RstpWorld.

(** ** The parameters *)

(** The parameters of a bridge: priority and the three times. *)
Definition params (b : bstp_state) : Z * Z * Z * Z :=
  (bs_bridge_priority b, bs_bridge_htime b, bs_bridge_max_age b, bs_bridge_fdelay b).

Lemma params_fields b c :
  params b = params c →
  bs_bridge_priority b = bs_bridge_priority c ∧ bs_bridge_htime b = bs_bridge_htime c ∧
  bs_bridge_max_age b = bs_bridge_max_age c ∧ bs_bridge_fdelay b = bs_bridge_fdelay c.
Proof. unfold params. by intros [= -> -> -> ->]. Qed.

(** The protocol operations keep the parameters and the bridge's vector. *)
Definition fixed (s s' : rstp) : Prop :=
  params (bs s') = params (bs s) ∧ bs_bridge_pv (bs s') = bs_bridge_pv (bs s) ∧
  vlan_id (bs s') = vlan_id (bs s).

Create HintDb rstp_fixed discriminated.
#[export] Hint Constants Opaque : rstp_fixed.

Lemma fixed_trans s x y : fixed s x → fixed x y → fixed s y.
Proof. intros (?&?&?) (?&?&?). split_and!; congruence. Qed.

Lemma fixed_port s x i f : fixed s x → fixed s (upd_port i f x).
Proof. done. Qed.

Lemma fixed_if s (b : bool) x y : fixed s x → fixed s y → fixed s (if b then x else y).
Proof. by destruct b. Qed.

Lemma fixed_bs s x f :
  (∀ b, params (f b) = params b ∧ bs_bridge_pv (f b) = bs_bridge_pv b ∧
        vlan_id (f b) = vlan_id b) →
  fixed s x → fixed s (upd_bs f x).
Proof. intros Hf H. eapply fixed_trans; [exact H|]. apply Hf. Qed.

Lemma fixed_for_each s body x :
  (∀ i y, fixed s y → fixed s (body i y)) → fixed s x → fixed s (for_each_port body x).
Proof.
  unfold for_each_port. intros Hb. generalize (bs_bplist (bs x)). intros l.
  revert x. induction l as [|i l IH]; intros x Hx; cbn; auto.
Qed.

Lemma fixed_keeps {A} (g : bstp_port → A) s x y : keeps g x y → fixed s x → fixed s y.
Proof. intros (Hb & _ & _) H. unfold fixed in *. by rewrite Hb. Qed.

#[export] Hint Resolve fixed_port fixed_if : rstp_fixed.
#[export] Hint Extern 1 (fixed _ (upd_bs _ _)) =>
  apply fixed_bs; [intros; split_and!; reflexivity|] : rstp_fixed.
#[export] Hint Extern 1 (fixed _ (for_each_port _ _)) =>
  apply fixed_for_each; [intros; cbv zeta beta|] : rstp_fixed.

Ltac fixed := cbv zeta; auto 40 with rstp_fixed.

Section Fixed.
Context (E : rstp_env).

Lemma set_port_role_fixed s x i r : fixed s x → fixed s (bstp_set_port_role E i r x).
Proof.
  intros. unfold bstp_set_port_role. cbv zeta. apply fixed_if; [done|].
  eapply fixed_keeps; [apply update_tc_keeps, keeps_refl|]. fixed.
Qed.

Lemma update_info_fixed s x i : fixed s x → fixed s (bstp_update_info i x).
Proof. intros. unfold bstp_update_info. fixed. Qed.

#[local] Hint Resolve set_port_role_fixed update_info_fixed : rstp_fixed.

Lemma assign_roles_fixed s x : fixed s x → fixed s (bstp_assign_roles E x).
Proof.
  intros Hx. unfold bstp_assign_roles.
  assert (fixed s (assign_root x).1) as H.
  { unfold assign_root. cbn.
    assert (fixed s (upd_bs assign_defaults x)) as H by (by apply fixed_bs).
    revert H. generalize (upd_bs assign_defaults x), (@None nat), (bs_bplist (bs x)).
    intros y o l. revert y o. induction l as [|i l IH]; intros y o Hy; cbn; [done|].
    case_match; [auto|]. case_match; auto with rstp_fixed. }
  destruct (assign_root x) as [y rbp]. cbn in H. unfold assign_role_step. fixed.
Qed.

#[local] Hint Resolve assign_roles_fixed : rstp_fixed.

Lemma ifupdstatus_fixed s x i : fixed s x → fixed s (bstp_ifupdstatus E i x).
Proof. intros. unfold bstp_ifupdstatus, bstp_enable_port, bstp_disable_port. fixed. Qed.

#[local] Hint Resolve ifupdstatus_fixed : rstp_fixed.

(** [bstp_reinit] rebuilds the bridge's vector from the priority and the bridge
    address and keeps the parameters. *)
Lemma reinit_params s :
  params (bs (bstp_reinit E s)) = params (bs s) ∧
  vlan_id (bs (bstp_reinit E s)) = vlan_id (bs s) ∧
  bs_bridge_pv (bs (bstp_reinit E s)) =
    let id := bridge_id_of (bs_bridge_priority (bs s)) (get_bridge_mac_address E) in
    mk_pv id id 0 0 0.
Proof.
  set (id := bridge_id_of _ _).
  set (x := upd_bs (λ b, b <| bs_bridge_pv := mk_pv id id 0 0 0 |>) s).
  assert (fixed x (bstp_reinit E s)) as (H1 & H2 & H3); [|done].
  unfold bstp_reinit. cbv zeta. fold id. fold x. assert (fixed x x) by done. fixed.
Qed.

End Fixed.

(** ** Properties *)

(** the bridge priority.  [bstp_set_priority] accepts exactly the values from
    0 to 61440; it stores the value rounded down to a multiple of 4096 and
    rebuilds the bridge's priority vector from it and the bridge address.  A value
    out of range is answered by -1 and leaves the instance as it was. *)
Theorem set_priority_spec E pri s :
  bstp_set_priority E pri s =
    (if decide (0 ≤ pri ≤ BSTP_MAX_PRIORITY)
     then (bstp_reinit E (upd_bs (λ b, b <| bs_bridge_priority := 4096 * (pri / 4096) |>) s), 0)
     else (s, -1)) ∧
  (0 ≤ pri ≤ BSTP_MAX_PRIORITY →
   let s' := (bstp_set_priority E pri s).1 in
   bs_bridge_priority (bs s') = 4096 * (pri / 4096) ∧
   pv_root_id (bs_bridge_pv (bs s')) =
     bridge_id_of (4096 * (pri / 4096)) (get_bridge_mac_address E)).
Proof.
  assert (bstp_set_priority E pri s =
    (if decide (0 ≤ pri ≤ BSTP_MAX_PRIORITY)
     then (bstp_reinit E (upd_bs (λ b, b <| bs_bridge_priority := 4096 * (pri / 4096) |>) s), 0)
     else (s, -1))) as Heq.
  { unfold bstp_set_priority. rewrite range_test. case_decide as Hp; [|done].
    unfold BSTP_MAX_PRIORITY in Hp. pose proof (Z.mod_pos_bound pri 4096).
    pose proof (Z.div_mod pri 4096). pose proof (Z.div_pos pri 4096).
    replace (u16 (pri - Z.rem pri 4096)) with (4096 * (pri / 4096)); [done|].
    rewrite Z.rem_mod_nonneg, u16_small by lia. lia. }
  split; [done|]. intros Hp. rewrite Heq, decide_True by done. cbv zeta. cbn [fst].
  set (x := upd_bs _ s). destruct (reinit_params E x) as (H1 & _ & ->).
  by destruct (params_fields _ _ H1) as (-> & _).
Qed.

(** The times of a bridge are in range and satisfy the relation of 802.1D. *)
Definition times_ok (b : bstp_state) : Prop :=
  BSTP_MIN_HELLO_TIME ≤ bs_bridge_htime b ≤ BSTP_MAX_HELLO_TIME ∧
  BSTP_MIN_MAX_AGE ≤ bs_bridge_max_age b ≤ BSTP_MAX_MAX_AGE ∧
  BSTP_MIN_FORWARD_DELAY ≤ bs_bridge_fdelay b ≤ BSTP_MAX_FORWARD_DELAY ∧
  bridge_timer_relation (bs_bridge_fdelay b) (bs_bridge_max_age b) (bs_bridge_htime b) = 0.

(** The configuration call [f] keeps the times of every instance right, and
    leaves every instance as it was when it fails. *)
Definition times_safe (f : rworld → rworld * Z) : Prop :=
  ∀ w, let '(w', r) := f w in
    (∀ k, times_ok (bs (inst w k)) → times_ok (bs (inst w' k))) ∧
    (r = 0 ∨ (r = -1 ∧ ∀ k, inst w' k = inst w k)).

Lemma on_bridge_safe vlan f :
  (∀ s, times_ok (bs s) → times_ok (bs (f s).1)) →
  (∀ s, (f s).2 = 0 ∨ ((f s).2 = -1 ∧ (f s).1 = s)) →
  times_safe (on_bridge vlan f).
Proof.
  intros Hf Hr w. unfold on_bridge.
  destruct (rstp_get_this_bridge_entry w vlan) as [k|]; [|split; [done|by right]].
  specialize (Hf (inst w k)). specialize (Hr (inst w k)).
  destruct (f (inst w k)) as [s r]. cbn in *. split.
  - intros j Hj. destruct (decide (k = j)) as [->|].
    + rewrite fn_lookup_insert. auto.
    + by rewrite fn_lookup_insert_ne.
  - destruct Hr as [->|[-> ->]]; [by left|right]. split; [done|]. intros j.
    destruct (decide (k = j)) as [->|]; [by rewrite fn_lookup_insert|].
    by rewrite fn_lookup_insert_ne.
Qed.

(** The times after [bstp_reinit] are those before it. *)
Lemma reinit_times E s : times_ok (bs s) → times_ok (bs (bstp_reinit E s)).
Proof.
  destruct (reinit_params E s) as (H & _ & _).
  destruct (params_fields _ _ H) as (H1 & H2 & H3 & H4). unfold times_ok. by rewrite H2, H3, H4.
Qed.

(** The three single-value calls for the hello time, the forward delay and
    the maximum age keep the times of every instance within the ranges and the
    relation of 802.1D, whatever value is asked for; a call that is refused
    changes no instance. *)
Lemma single_times_safe E v vlan :
  times_safe (rstp_set_bridge_hello_time E v vlan) ∧
  times_safe (rstp_set_bridge_fdly E v vlan) ∧
  times_safe (rstp_set_bridge_max_age E v vlan).
Proof.
  unfold rstp_set_bridge_hello_time, rstp_set_bridge_fdly, rstp_set_bridge_max_age,
    bstp_set_htime, bstp_set_fdelay, bstp_set_maxage.
  split_and!; apply on_bridge_safe; intros s; rewrite range_test;
    (destruct (bridge_timer_relation _ _ _ =? 0) eqn:E1; [|by auto]);
    (case_decide as Hv; [|by auto]); try (by left);
    intros (T1 & T2 & T3 & T4); cbn [fst]; apply reinit_times; bool_to_prop;
    unfold times_ok; cbn; unfold BSTP_TICK_VAL in *; rewrite Z.mul_1_r in *;
    rewrite u16_small;
    unfold BSTP_MIN_HELLO_TIME, BSTP_MAX_HELLO_TIME, BSTP_MIN_MAX_AGE, BSTP_MAX_MAX_AGE,
      BSTP_MIN_FORWARD_DELAY, BSTP_MAX_FORWARD_DELAY in *; auto with lia.
Qed.
