(* ===== verification/RstpCli.v ===== *)
(** * Rapid spanning tree: the commands of src/bridge/rstp/rstp_cli.c

    A command takes the VLAN the command line is in ([cli_get_vlan_id ()]) and its
    arguments, an optional one as an [option], and returns the new instances with
    the result of the command. *)

From S2P Require Import Prelude RstpTypes Rstp RstpWorld RstpConfig.

Inductive cparser_result_t := CPARSER_OK | CPARSER_NOT_OK.

(** [if (!call) return CPARSER_OK; return CPARSER_NOT_OK;] *)
Definition cli_result (r : rworld * Z) : rworld * cparser_result_t :=
  (r.1, if r.2 =? 0 then CPARSER_OK else CPARSER_NOT_OK).

Definition opt_out_of_range (v : option Z) (lo hi : Z) : bool :=
  match v with Some v => (v <? lo) || (v >? hi) | None => false end.

(** [ptr ? *ptr : -1] *)
Definition opt_arg (v : option Z) : Z := match v with Some v => v | None => -1 end.

Section Commands.
Context (E : rstp_env) (vlan : Z).

Definition cmd_rstp_priority (priority : Z) (w : rworld) : rworld * cparser_result_t :=
  cli_result (rstp_set_bridge_priority E (u16 priority) vlan w).

(** [spanning-tree rstp hello-time h \[forward-delay f\] \[max-age m\]] *)
Definition cmd_rstp_hello_time (htime : Z) (fdly maxage : option Z) (w : rworld) :
    rworld * cparser_result_t :=
  match fdly, maxage with
  | None, None => cli_result (rstp_set_bridge_hello_time E (u32 htime) vlan w)
  | _, _ =>
      if (htime <? BSTP_MIN_HELLO_TIME) || (htime >? BSTP_MAX_HELLO_TIME)
      then (w, CPARSER_NOT_OK)
      else if opt_out_of_range fdly BSTP_MIN_FORWARD_DELAY BSTP_MAX_FORWARD_DELAY
      then (w, CPARSER_NOT_OK)
      else if opt_out_of_range maxage BSTP_MIN_MAX_AGE BSTP_MAX_MAX_AGE
      then (w, CPARSER_NOT_OK)
      else
        let '(w, r) := rstp_set_bridge_times E (opt_arg fdly) (opt_arg maxage) htime vlan w in
        (w, CPARSER_NOT_OK)
  end.

Definition cmd_rstp_forward_delay (fdly : Z) (maxage htime : option Z) (w : rworld) :
    rworld * cparser_result_t :=
  match htime, maxage with
  | None, None => cli_result (rstp_set_bridge_fdly E (u32 fdly) vlan w)
  | _, _ =>
      if (fdly <? BSTP_MIN_FORWARD_DELAY) || (fdly >? BSTP_MAX_FORWARD_DELAY)
      then (w, CPARSER_NOT_OK)
      else if opt_out_of_range htime BSTP_MIN_HELLO_TIME BSTP_MAX_HELLO_TIME
      then (w, CPARSER_NOT_OK)
      else if opt_out_of_range maxage BSTP_MIN_MAX_AGE BSTP_MAX_MAX_AGE
      then (w, CPARSER_NOT_OK)
      else
        let '(w, r) := rstp_set_bridge_times E fdly (opt_arg maxage) (opt_arg htime) vlan w in
        (w, CPARSER_NOT_OK)
  end.

Definition cmd_rstp_max_age (maxage : Z) (fdly htime : option Z) (w : rworld) :
    rworld * cparser_result_t :=
  match fdly, htime with
  | None, None => cli_result (rstp_set_bridge_max_age E (u32 maxage) vlan w)
  | _, _ =>
      if (maxage <? BSTP_MIN_MAX_AGE) || (maxage >? BSTP_MAX_MAX_AGE)
      then (w, CPARSER_NOT_OK)
      else if opt_out_of_range fdly BSTP_MIN_FORWARD_DELAY BSTP_MAX_FORWARD_DELAY
      then (w, CPARSER_NOT_OK)
      else if opt_out_of_range htime BSTP_MIN_HELLO_TIME BSTP_MAX_HELLO_TIME
      then (w, CPARSER_NOT_OK)
      else
        let '(w, r) := rstp_set_bridge_times E (opt_arg fdly) maxage (opt_arg htime) vlan w in
        (w, CPARSER_NOT_OK)
  end.

(** The calls on one port of the bridge: -1 without the bridge or the port. *)
Definition on_port (portnum : Z) (f : nat → rstp → rstp * Z) : rworld → rworld * Z :=
  on_bridge vlan (λ s,
    match rstp_get_port_entry s (u16 portnum) with
    | None => (s, -1)
    | Some i => f i s
    end).

Definition set_spanning_8021w_port_path_cost (path_cost portnum : Z) : rworld → rworld * Z :=
  on_port portnum (λ i s,
    if path_cost >? BSTP_MAX_PATH_COST then (s, -1) else bstp_set_path_cost E i path_cost s).

Definition set_spanning_8021w_port_prio (prio portnum : Z) : rworld → rworld * Z :=
  on_port portnum (λ i s,
    if prio >? BSTP_MAX_PORT_PRIORITY then (s, -1) else bstp_set_port_priority E i prio s).

Definition cmd_rstp_port_path_cost (portnum cost : Z) (w : rworld) : rworld * cparser_result_t :=
  cli_result (set_spanning_8021w_port_path_cost (u32 cost) portnum w).

Definition cmd_rstp_port_priority (portnum priority : Z) (w : rworld) :
    rworld * cparser_result_t :=
  cli_result (set_spanning_8021w_port_prio (u32 priority) portnum w).

Definition cmd_rstp_port_admin_edge (portnum : Z) (w : rworld) : rworld * cparser_result_t :=
  cli_result (on_port portnum (λ i s, bstp_set_edge i 1 s) w).

Definition cmd_rstp_port_admin_pt2pt (portnum : Z) (w : rworld) : rworld * cparser_result_t :=
  cli_result (on_port portnum (λ i s, bstp_set_ptp i 1 s) w).

End Commands.

(** ** Properties *)

Definition all_times_ok (w : rworld) : Prop := ∀ k, times_ok (bs (inst w k)).

(** The unchecked [rstp_set_bridge_times] is right on values in range; a
    negative value stands for the value in use. *)
Lemma set_bridge_times_ok E f m h vlan w :
  (f = -1 ∨ BSTP_MIN_FORWARD_DELAY ≤ f ≤ BSTP_MAX_FORWARD_DELAY) →
  (m = -1 ∨ BSTP_MIN_MAX_AGE ≤ m ≤ BSTP_MAX_MAX_AGE) →
  (h = -1 ∨ BSTP_MIN_HELLO_TIME ≤ h ≤ BSTP_MAX_HELLO_TIME) →
  all_times_ok w → all_times_ok (rstp_set_bridge_times E f m h vlan w).1.
Proof.
  intros Hf Hm Hh Hw. unfold rstp_set_bridge_times, on_bridge.
  destruct (rstp_get_this_bridge_entry w vlan) as [k|]; [|done].
  set (h' := if h <? 0 then _ else h). set (f' := if f <? 0 then _ else f).
  set (m' := if m <? 0 then _ else m).
  destruct (Hw k) as (T1 & T2 & T3 & T4).
  assert (BSTP_MIN_HELLO_TIME ≤ h' ≤ BSTP_MAX_HELLO_TIME) as Rh.
  { subst h'. destruct (Z.ltb_spec h 0); [done|]. lia. }
  assert (BSTP_MIN_MAX_AGE ≤ m' ≤ BSTP_MAX_MAX_AGE) as Rm.
  { subst m'. destruct (Z.ltb_spec m 0); [done|]. lia. }
  assert (BSTP_MIN_FORWARD_DELAY ≤ f' ≤ BSTP_MAX_FORWARD_DELAY) as Rf.
  { subst f'. destruct (Z.ltb_spec f 0); [done|]. lia. }
  clearbody h' m' f'. cbv zeta.
  destruct (tst (bridge_timer_relation f' m' h')) eqn:Er; intros j; cbn [fst inst upd_inst set_fld];
    (destruct (decide (k = j)) as [->|]; [cbn; rewrite fn_lookup_insert|cbn; by rewrite fn_lookup_insert_ne]).
  - apply Hw.
  - apply reinit_times. apply tst_false in Er.
    unfold BSTP_MIN_HELLO_TIME, BSTP_MAX_HELLO_TIME, BSTP_MIN_MAX_AGE, BSTP_MAX_MAX_AGE,
      BSTP_MIN_FORWARD_DELAY, BSTP_MAX_FORWARD_DELAY in *.
    unfold times_ok. cbn. rewrite !u16_small by lia. done.
Qed.

Lemma times_safe_all f w : times_safe f → all_times_ok w → all_times_ok (f w).1.
Proof. intros Hf Hw k. specialize (Hf w). destruct (f w) as [w' r]. by apply Hf. Qed.

Lemma opt_in_range v lo hi :
  opt_out_of_range v lo hi = false → opt_arg v = -1 ∨ lo ≤ opt_arg v ≤ hi.
Proof. destruct v as [v|]; cbn; [|auto]. intros H. bool_to_prop. lia. Qed.

Lemma cli_result_safe f w :
  times_safe f →
  (all_times_ok w → all_times_ok (cli_result (f w)).1) ∧
  ((cli_result (f w)).2 = CPARSER_NOT_OK → ∀ k, inst (cli_result (f w)).1 k = inst w k).
Proof.
  intros Hf. split; [apply (times_safe_all f w Hf)|]. specialize (Hf w).
  unfold cli_result. destruct (f w) as [w' r]. destruct Hf as [_ [->|[-> H]]]; done.
Qed.

(** The times commands.  Whatever arguments the three commands for the times
    get, the times of every instance stay within the ranges and the relation of
    802.1D; and a command for a single time that is refused changes no
    instance. *)
Theorem cli_times_stay_ok E vlan w v o1 o2 :
  all_times_ok w →
  (all_times_ok (cmd_rstp_hello_time E vlan v o1 o2 w).1 ∧
   all_times_ok (cmd_rstp_forward_delay E vlan v o1 o2 w).1 ∧
   all_times_ok (cmd_rstp_max_age E vlan v o1 o2 w).1) ∧
  ((cmd_rstp_hello_time E vlan v None None w).2 = CPARSER_NOT_OK →
   ∀ k, inst (cmd_rstp_hello_time E vlan v None None w).1 k = inst w k) ∧
  ((cmd_rstp_forward_delay E vlan v None None w).2 = CPARSER_NOT_OK →
   ∀ k, inst (cmd_rstp_forward_delay E vlan v None None w).1 k = inst w k) ∧
  ((cmd_rstp_max_age E vlan v None None w).2 = CPARSER_NOT_OK →
   ∀ k, inst (cmd_rstp_max_age E vlan v None None w).1 k = inst w k).
Proof.
  intros Hw. destruct (single_times_safe E (u32 v) vlan) as (S1 & S2 & S3).
  apply (cli_result_safe _ w) in S1, S2, S3.
  split_and!; try apply S1; try apply S2; try apply S3;
    destruct o1 as [a|], o2 as [b|]; try (apply S1 || apply S2 || apply S3; done);
    unfold cmd_rstp_hello_time, cmd_rstp_forward_delay, cmd_rstp_max_age;
    rewrite !range_test; (case_decide; [|done]);
    (destruct (opt_out_of_range _ _ _) eqn:E1; [done|]);
    (destruct (opt_out_of_range _ _ _) eqn:E2 in |- *; [done|]);
    apply opt_in_range in E1, E2;
    match goal with |- context [rstp_set_bridge_times E ?f ?m ?h vlan w] =>
      pose proof (set_bridge_times_ok E f m h vlan w);
      destruct (rstp_set_bridge_times E f m h vlan w) end; auto.
Qed.

(** A world with one bridge on VLAN 1. *)
Definition demo_world_env : rstp_env :=
  mk_env (λ _, IF_UP) (λ p, [2; 0; 0; 0; 0; p]) [2; 0; 0; 0; 0; 100] 20000
    (mk_cbpdu (mk_eth [] [] 0) 0 0 0 0 0 0 0 0 [] 0 0 [] 0 0 0 0 0 0) true.
Definition demo_world : rworld :=
  let w := (rstp_create_instance demo_world_env 1 rworld0).1.1 in
  w <| inst := λ _, inst w 1%nat |>.

Lemma cli_times_stay_ok_witness :
  all_times_ok (cmd_rstp_hello_time demo_world_env 1 3 (Some 15) (Some 20) demo_world).1.
Proof.
  apply (cli_times_stay_ok demo_world_env 1 demo_world 3 (Some 15) (Some 20)).
  intros k. vm_compute. repeat split; discriminate.
Defined.

(** a command that sets several times at once sets them, and reports failure
    nevertheless: with values in range that satisfy the relation, the instance
    has the new times and the result is [CPARSER_NOT_OK]. *)
Theorem multi_times_reported_failed E vlan w k h f m :
  rstp_get_this_bridge_entry w vlan = Some k →
  BSTP_MIN_HELLO_TIME ≤ h ≤ BSTP_MAX_HELLO_TIME →
  BSTP_MIN_FORWARD_DELAY ≤ f ≤ BSTP_MAX_FORWARD_DELAY →
  BSTP_MIN_MAX_AGE ≤ m ≤ BSTP_MAX_MAX_AGE →
  bridge_timer_relation f m h = 0 →
  let '(w', r) := cmd_rstp_hello_time E vlan h (Some f) (Some m) w in
  r = CPARSER_NOT_OK ∧
  params (bs (inst w' k)) = (bs_bridge_priority (bs (inst w k)), h, m, f).
Proof.
  intros Hk Hh Hf Hm Hr. unfold cmd_rstp_hello_time, opt_out_of_range.
  rewrite !range_test, !decide_True by done.
  unfold rstp_set_bridge_times, on_bridge. rewrite Hk. cbn [opt_arg].
  unfold BSTP_MIN_HELLO_TIME, BSTP_MAX_HELLO_TIME, BSTP_MIN_MAX_AGE, BSTP_MAX_MAX_AGE,
    BSTP_MIN_FORWARD_DELAY, BSTP_MAX_FORWARD_DELAY in *.
  rewrite !(proj2 (Z.ltb_ge _ 0)) by lia. rewrite Hr. cbn [tst Z.eqb negb].
  split; [done|]. unfold upd_inst. cbn [inst set_fld set_inst]. rewrite fn_lookup_insert.
  match goal with |- params (bs (bstp_reinit _ ?x)) = _ =>
    destruct (reinit_params E x) as (-> & _ & _) end.
  unfold params. cbn. by rewrite !u16_small by lia.
Qed.

Lemma multi_times_reported_failed_witness :
  (cmd_rstp_hello_time demo_world_env 1 3 (Some 15) (Some 20) demo_world).2 = CPARSER_NOT_OK.
Proof.
  pose proof (multi_times_reported_failed demo_world_env 1 demo_world 1 3 15 20) as H.
  destruct (cmd_rstp_hello_time _ _ _ _ _ _) as [w' r]. apply H; try (by split); reflexivity.
Defined.
