(* ===== verification/TimerIface.v ===== *)
(** * The timer service the protocols use

    The functions of src/lib/tmr_init.c and src/lib/update.c as the protocols see
    them: [TimerService] is the interface, [TimerLaws] what the protocols rely on.
    A timer is named by its handle, the pointer [setup_timer] stores. *)

From S2P Require Import Prelude.

(** A [TIMER_ID]: a timer, or NULL when [setup_timer] failed. *)
Definition TIMER_ID : Type := option nat.

Definition tm_get_ticks_per_second := 100.

Class TimerService (TS : Type) := {
  ts_setup : TS → option nat * TS;
  ts_mod : nat → Z → TS → TS;
  ts_del : nat → TS → TS;
  ts_pending : nat → TS → bool;
  ts_remaining : nat → TS → Z
}.

(** What the protocols rely on: a timer set to at least one second and to less
    than 1024 hours runs, and setting a timer leaves the others alone. *)
Class TimerLaws (TS : Type) `{TimerService TS} : Prop := {
  pending_mod h v t : 1 ≤ v < 1024 * 3600 → ts_pending h (ts_mod h v t) = true;
  pending_mod_ne h h' v t : h ≠ h' → ts_pending h' (ts_mod h v t) = ts_pending h' t
}.

(** [setup_timer] finds a free timer and memory for it. *)
Class TimerAlloc (TS : Type) `{TimerService TS} : Prop :=
  setup_some t : is_Some (ts_setup t).1.

(** ** A reference implementation

    Each handle with the second it expires at, if it runs. *)
Record clock := mk_clock {
  now : Z;
  expiry : nat → option Z;
  next_timer : nat
}.

#[export] Instance clock_service : TimerService clock := {
  ts_setup c := (Some (next_timer c), mk_clock (now c) (expiry c) (S (next_timer c)));
  ts_mod h v c := mk_clock (now c) (<[h := Some (now c + v)]> (expiry c)) (next_timer c);
  ts_del h c := mk_clock (now c) (<[h := None]> (expiry c)) (next_timer c);
  ts_pending h c := bool_decide (is_Some (expiry c h));
  ts_remaining h c := match expiry c h with Some e => 100 * (e - now c) | None => 0 end
}.

#[export] Instance clock_laws : TimerLaws clock.
Proof.
  split; intros; cbn.
  - rewrite fn_lookup_insert. apply bool_decide_eq_true_2. eauto.
  - by rewrite fn_lookup_insert_ne.
Qed.

#[export] Instance clock_alloc : TimerAlloc clock.
Proof. intros t. cbn. eauto. Qed.
