(* ===== verification/Timer.v ===== *)
(** * The timer wheels of src/lib

    The timers of tmr_init.c, update.c and btm_hlf.c.  A client holds a [TIMER_T];
    each start of it queues an [APP_TIMER_T] on one of four wheels (ticks, seconds,
    minutes, hours), red-black trees ordered by the clock value the entry waits for.
    An entry moves to a finer wheel each time its wheel has come round, and is put
    on the list of expired timers when no component of its time is left. *)

From S2P Require Import Prelude TimerIface.

Module Wheel.

(** ** Constants of tmrtypes.h *)

Definition TICK := 0%nat.
Definition SEC := 1%nat.
Definition MIN := 2%nat.
Definition HRS := 3%nat.
Definition WAIT_TIMERS := 5%nat.

Definition TIMER_ONCE := 0x1.
Definition TIMER_REPEAT := 0x2.
Definition TIMER_FOREVER := 0x4.

Definition TICK_BITS := 0xa.
Definition SECS_BITS := 0x6.
Definition MINS_BITS := 0x6.
Definition HRS_BITS := 0xa.
Definition SEC_BITS_OFFSET := TICK_BITS.
Definition MIN_BITS_OFFSET := SEC_BITS_OFFSET + SECS_BITS.
Definition HRS_BITS_OFFSET := MIN_BITS_OFFSET + MINS_BITS.

Definition MAX_TIMERS := 2000.

(** ** Structures *)

(** [TIMER_T].  The handler and its argument belong to the client; the name of the
    timer stands for them. *)
Record TIMER_T := mk_timer {
  rmt : Z;
  exp : Z;
  wheel : nat;
  idx : Z;
  tflags : Z;
  is_running : Z;
  apptimer : option nat
}.

Definition eta_TIMER_T (r : TIMER_T) : TIMER_T :=
  mk_timer (rmt r) (exp r) (wheel r) (idx r) (tflags r) (is_running r) (apptimer r).

#[export] Instance set_rmt : Settable rmt := ltac:(mk_setter eta_TIMER_T).
#[export] Instance set_exp : Settable exp := ltac:(mk_setter eta_TIMER_T).
#[export] Instance set_wheel : Settable wheel := ltac:(mk_setter eta_TIMER_T).
#[export] Instance set_idx : Settable idx := ltac:(mk_setter eta_TIMER_T).
#[export] Instance set_tflags : Settable tflags := ltac:(mk_setter eta_TIMER_T).
#[export] Instance set_is_running : Settable is_running := ltac:(mk_setter eta_TIMER_T).
#[export] Instance set_apptimer : Settable apptimer := ltac:(mk_setter eta_TIMER_T).

(** [APP_TIMER_T] *)
Record APP_TIMER_T := mk_app {
  timer : nat;
  ctime : Z;
  rt : Z
}.

Definition eta_APP_TIMER_T (r : APP_TIMER_T) : APP_TIMER_T := mk_app (timer r) (ctime r) (rt r).

#[export] Instance set_ctime : Settable ctime := ltac:(mk_setter eta_APP_TIMER_T).
#[export] Instance set_rt : Settable rt := ltac:(mk_setter eta_APP_TIMER_T).

(** The memory of the component: the clocks, the timers and the queued entries by
    address, the nodes of each tree in the order of their keys, the number of running timers,
    the last index, the next free addresses, and the list of the expired entries.
    [corrupt] records that a node has been erased from a tree it is not in. *)
Record wheels := mk_wheels {
  clk : nat → Z;
  tmr : nat → TIMER_T;
  app : nat → APP_TIMER_T;
  root : nat → list nat;
  count : Z;
  indx : Z;
  tnext : nat;
  anext : nat;
  expd_tmrs : list nat;
  corrupt : bool
}.

Definition eta_wheels (r : wheels) : wheels :=
  mk_wheels (clk r) (tmr r) (app r) (root r) (count r) (indx r) (tnext r) (anext r)
    (expd_tmrs r) (corrupt r).

#[export] Instance set_clk : Settable clk := ltac:(mk_setter eta_wheels).
#[export] Instance set_tmr : Settable tmr := ltac:(mk_setter eta_wheels).
#[export] Instance set_app : Settable app := ltac:(mk_setter eta_wheels).
#[export] Instance set_root : Settable root := ltac:(mk_setter eta_wheels).
#[export] Instance set_count : Settable count := ltac:(mk_setter eta_wheels).
#[export] Instance set_indx : Settable indx := ltac:(mk_setter eta_wheels).
#[export] Instance set_tnext : Settable tnext := ltac:(mk_setter eta_wheels).
#[export] Instance set_anext : Settable anext := ltac:(mk_setter eta_wheels).
#[export] Instance set_expd_tmrs : Settable expd_tmrs := ltac:(mk_setter eta_wheels).
#[export] Instance set_corrupt : Settable corrupt := ltac:(mk_setter eta_wheels).

Implicit Types s : wheels.

Definition upd_tmr (p : nat) (f : TIMER_T → TIMER_T) s : wheels :=
  s <| tmr := <[p := f (tmr s p)]> (tmr s) |>.

Definition upd_app (a : nat) (f : APP_TIMER_T → APP_TIMER_T) s : wheels :=
  s <| app := <[a := f (app s a)]> (app s) |>.

(** ** The time of an entry

    Ten bits of hours, six of minutes, six of seconds and ten of ticks. *)

Definition GET_TICK (ct : Z) : Z := Z.ones TICK_BITS &&& ct.
Definition GET_SECS (ct : Z) : Z := Z.ones SECS_BITS &&& (ct ≫ SEC_BITS_OFFSET).
Definition GET_MINS (ct : Z) : Z := Z.ones MINS_BITS &&& (ct ≫ MIN_BITS_OFFSET).
Definition GET_HRS (ct : Z) : Z := Z.ones HRS_BITS &&& (ct ≫ HRS_BITS_OFFSET).

(** [SET_TICK], [SET_SECS], [SET_MINS] and [SET_HRS] on a cleared [ctime]. *)
Definition set_ctime_of (tick : Z) : Z :=
  let secs := tick / tm_get_ticks_per_second in
  let mins := secs / 60 in
  let hrs := mins / 60 in
  (tick mod tm_get_ticks_per_second) ||| ((secs mod 60) ≪ SEC_BITS_OFFSET) |||
  ((mins mod 60) ≪ MIN_BITS_OFFSET) ||| u32 (hrs ≪ HRS_BITS_OFFSET).

Definition calc_time (a : nat) s : wheels :=
  let p := timer (app s a) in
  let tick := rmt (tmr s p) in
  let s := upd_app a (λ e, e <| ctime := ctime e ||| set_ctime_of tick |>) s in
  upd_tmr p (λ t, t <| exp := u32 (tick + clk s TICK) |>) s.

(** ** The trees *)

(** The in-order sequence of a tree after [timer_add]: the new node comes after
    the nodes with a key that is not greater. *)
Fixpoint insert_key {A} (key : A → Z) (a : A) (l : list A) : list A :=
  match l with
  | [] => [a]
  | x :: l' => if key a <? key x then a :: l else x :: insert_key key a l'
  end.

Definition timer_add (a : nat) (w : nat) s : wheels :=
  s <| root := <[w := insert_key (λ x, rt (app s x)) a (root s w)]> (root s) |>.

Definition timer_del (a : nat) (w : nat) s : wheels :=
  if bool_decide (a ∈ root s w)
  then s <| root := <[w := filter (λ x, x ≠ a) (root s w)]> (root s) |>
  else s <| corrupt := true |>.

(** The wheel and the value of the greatest component of a time. *)
Definition slot_of (ct : Z) : option (nat * Z) :=
  if tst (GET_HRS ct) then Some (HRS, GET_HRS ct)
  else if tst (GET_MINS ct) then Some (MIN, GET_MINS ct)
  else if tst (GET_SECS ct) then Some (SEC, GET_SECS ct)
  else if tst (GET_TICK ct) then Some (TICK, GET_TICK ct)
  else None.

Definition find_tmr_slot_and_place (a : nat) s : wheels :=
  match slot_of (ctime (app s a)) with
  | None => s
  | Some (w, t) =>
      let s := upd_app a (λ e, e <| rt := u32 (clk s w + t) |>) s in
      let s := upd_tmr (timer (app s a)) (λ p, p <| wheel := w |> <| is_running := 1 |>) s in
      timer_add a w s
  end.

Definition INC_TIMER_COUNT s : wheels := s <| count := u32 (count s + 1) |>.
Definition DEC_TIMER_COUNT s : wheels := s <| count := u32 (count s - 1) |>.

(** ** Operations *)

Section Operations.

(** Whether [tm_calloc] succeeds, which of the nodes with a key
    [timer_tree_walk] meets first, and what the handler of a timer does to the
    timers. *)
Variable calloc_ok : bool.
Variable pick : list nat → option nat.
Variable time_out_handler : nat → wheels → wheels.

Definition alloc_timer_id s : wheels * Z :=
  if count s >? MAX_TIMERS then (s, 0) else (s <| indx := indx s + 1 |>, indx s + 1).

Definition timer0 : TIMER_T := mk_timer 0 0 0 0 0 0 None.

(** A new entry for the timer [p], not yet queued. *)
Definition new_app (p : nat) s : wheels :=
  let a := anext s in
  let s := upd_app a (λ _, mk_app p 0 0) (s <| anext := S a |>) in
  upd_tmr p (λ t, t <| apptimer := Some a |>) s.

Definition start_timer (ticks : Z) (flags : Z) s : option nat * wheels :=
  let '(s, i) := alloc_timer_id s in
  if negb (tst i) || negb calloc_ok then (None, s)
  else
    let p := tnext s in
    let s := upd_tmr p (λ _, timer0 <| idx := i |> <| rmt := u32 ticks |>
               <| tflags := if tst flags then flags else TIMER_ONCE |>)
               (s <| tnext := S p |>) in
    let a := anext s in
    (Some p, INC_TIMER_COUNT (find_tmr_slot_and_place a (calc_time a (new_app p s)))).

Definition setup_timer s : option nat * wheels :=
  let '(s, i) := alloc_timer_id s in
  if negb (tst i) || negb calloc_ok then (None, s)
  else
    let p := tnext s in
    (Some p, upd_tmr p (λ _, timer0 <| idx := i |> <| tflags := TIMER_FOREVER |>
                             <| wheel := WAIT_TIMERS |>) (s <| tnext := S p |>)).

Definition mod_timer (p : nat) (secs : Z) s : wheels :=
  if negb calloc_ok then s
  else
    let s := upd_tmr p (λ t, t <| rmt := u32 (secs * tm_get_ticks_per_second) |>) s in
    let a := anext s in
    INC_TIMER_COUNT (find_tmr_slot_and_place a (calc_time a (new_app p s))).

Definition timer_restart (p : nat) s : wheels :=
  if negb calloc_ok then s
  else
    let a := anext s in
    INC_TIMER_COUNT (find_tmr_slot_and_place a (calc_time a (new_app p s))).

Definition stop_timer (p : nat) s : wheels :=
  match apptimer (tmr s p) with
  | Some a =>
      if tst (is_running (tmr s p)) then
        let s := timer_del a (wheel (tmr s p)) s in
        let s := upd_tmr p (λ t, t <| is_running := 0 |>) s in
        DEC_TIMER_COUNT s
      else s
  | None => s
  end.

Definition del_timer (p : nat) s : wheels :=
  match apptimer (tmr s p) with
  | Some _ => if tst (is_running (tmr s p)) then stop_timer p s else s
  | None => s
  end.

Definition timer_pending (p : nat) s : bool := tst (is_running (tmr s p)).

Definition timer_get_remaining_time (p : nat) s : Z :=
  if negb (tst (is_running (tmr s p))) then 0
  else
    let t := s32 (exp (tmr s p) - clk s TICK) in
    if t <? 0 then 0 else t.

(** *** The clock *)

Definition IS_NXT_SEC_HAPPEND s : bool := clk s TICK mod tm_get_ticks_per_second =? 0.
Definition IS_NXT_MIN_HAPPEND s : bool := tst (clk s SEC) && (clk s SEC mod 60 =? 0).
Definition IS_NXT_HR_HAPPEND s : bool := tst (clk s MIN) && (clk s MIN mod 60 =? 0).

Definition timer_tree_walk (w : nat) (key : Z) s : option nat :=
  pick (filter (λ a, rt (app s a) = key) (root s w)).

(** The bits of [ctime] that belong to a wheel; the array has four entries. *)
Definition wheel_mask (w : nat) : Z := nth w [0xFFFFFC00; 0xFFFF03FF; 0xFFC0FFFF; 0x3FFFFF] 0.

Definition clear_wheel_timer (a : nat) s : wheels :=
  upd_app a (λ e, e <| ctime := ctime e &&& wheel_mask (wheel (tmr s (timer e))) |>) s.

Definition timer_expiry_action (a : nat) s : wheels :=
  if ctime (app s a) =? 0 then
    let s := DEC_TIMER_COUNT s in
    let s := upd_tmr (timer (app s a)) (λ t, t <| is_running := 0 |>) s in
    s <| expd_tmrs := expd_tmrs s ++ [a] |>
  else find_tmr_slot_and_place a s.

(** The loop of [process_timers], with fuel. *)
Fixpoint process_timers_loop (fuel : nat) (w : nat) (expires : Z) s : wheels * Z :=
  match fuel with
  | O => (s, 0)
  | S fuel =>
      match timer_tree_walk w expires s with
      | None => (s, 0)
      | Some a =>
          let s := clear_wheel_timer a s in
          let s := timer_del a w s in
          let s := timer_expiry_action a s in
          let '(s, n) := process_timers_loop fuel w expires s in (s, n + 1)
      end
  end.

(** One round per node of the tree is enough. *)
Definition process_timers (w : nat) (expires : Z) s : wheels * Z :=
  process_timers_loop (S (length (root s w))) w expires s.

Definition tm_process_tick_and_update_timers s : wheels * Z :=
  let '(s, n) := process_timers TICK (clk s TICK) s in
  if IS_NXT_SEC_HAPPEND s then
    let '(s, n1) := process_timers SEC (clk s SEC) s in
    if IS_NXT_MIN_HAPPEND s then
      let '(s, n2) := process_timers MIN (clk s MIN) s in
      if IS_NXT_HR_HAPPEND s then
        let '(s, n3) := process_timers HRS (clk s HRS) s in (s, n + n1 + n2 + n3)
      else (s, n + n1 + n2)
    else (s, n + n1)
  else (s, n).

Definition timers_pending_for_service s : bool :=
  tst (count s) &&
  ((match root s TICK with [] => false | _ => true end) ||
   (IS_NXT_SEC_HAPPEND s && match root s SEC with [] => false | _ => true end) ||
   (IS_NXT_MIN_HAPPEND s && match root s MIN with [] => false | _ => true end) ||
   (IS_NXT_HR_HAPPEND s && match root s HRS with [] => false | _ => true end)).

(** [++clk[w]] *)
Definition inc_clk (w : nat) s : wheels := s <| clk := <[w := u32 (clk s w + 1)]> (clk s) |>.

Definition advance_clk s : wheels :=
  let s := inc_clk TICK s in
  if clk s TICK mod tm_get_ticks_per_second =? 0 then
    let s := inc_clk SEC s in
    if clk s SEC mod 60 =? 0 then
      let s := inc_clk MIN s in
      if clk s MIN mod 60 =? 0 then inc_clk HRS s else s
    else s
  else s.

Definition update_times s : wheels :=
  let s := advance_clk s in
  if timers_pending_for_service s then (tm_process_tick_and_update_timers s).1 else s.

(** *** Expired timers *)

(** One step of the loop of [process_expd_timers]. *)
Definition process_expd_step (a : nat) s : wheels :=
  let p := timer (app s a) in
  let s := time_out_handler p s in
  let s := s <| expd_tmrs := filter (λ x, x ≠ a) (expd_tmrs s) |> in
  let s := upd_tmr p (λ t, t <| apptimer := None |>) s in
  if tst (tflags (tmr s p) &&& TIMER_ONCE) then s
  else if tst (tflags (tmr s p) &&& TIMER_REPEAT) then timer_restart p s
  else s.

Definition process_expd_timers s : wheels :=
  foldl (λ s a, process_expd_step a s) s (expd_tmrs s).

Definition btm_hlf s : wheels :=
  if bool_decide (expd_tmrs s = []) then s else process_expd_timers s.

End Operations.

End Wheel.
