(* ===== verification/TimerWheel.v ===== *)
(** * The timer wheels: when a timer expires

    Every queued entry has a due time, the tick at which it is put on the list of
    the expired timers, however often it moves between the wheels before.  The
    file computes it and shows that each tick keeps it. *)

From stdpp Require Import sets.
From S2P Require Import Prelude TimerIface Timer.

Import Wheel.

(** ** The components of a time *)

(** The component of wheel [w], and its weight in ticks. *)
Definition digit (w : nat) (ct : Z) : Z :=
  match w with
  | 0%nat => GET_TICK ct
  | 1%nat => GET_SECS ct
  | 2%nat => GET_MINS ct
  | _ => GET_HRS ct
  end.

Definition unit (w : nat) : Z :=
  match w with
  | 0%nat => 1
  | 1%nat => tm_get_ticks_per_second
  | 2%nat => 60 * tm_get_ticks_per_second
  | _ => 3600 * tm_get_ticks_per_second
  end.

(** The ticks of the components finer than [w], and of all of them. *)
Definition below (w : nat) (ct : Z) : Z :=
  match w with
  | 0%nat => 0
  | 1%nat => digit 0 ct
  | 2%nat => digit 1 ct * unit 1 + digit 0 ct
  | _ => digit 2 ct * unit 2 + digit 1 ct * unit 1 + digit 0 ct
  end.

Definition total (ct : Z) : Z := digit 3 ct * unit 3 + below 3 ct.

(** No component coarser than [w]. *)
Definition fits (w : nat) (ct : Z) : Prop :=
  0 ≤ ct < 2 ^ 32 ∧ ∀ v, (w < v < 4)%nat → digit v ct = 0.

Lemma digit_spec w ct :
  digit w ct = match w with
               | 0%nat => ct mod 2 ^ 10
               | 1%nat => (ct / 2 ^ 10) mod 2 ^ 6
               | 2%nat => (ct / 2 ^ 16) mod 2 ^ 6
               | _ => (ct / 2 ^ 22) mod 2 ^ 10
               end.
Proof.
  assert (∀ n x, 0 ≤ n → Z.ones n &&& x = x mod 2 ^ n) as Hl
    by (intros; rewrite Z.land_comm; by apply Z.land_ones).
  destruct w as [|[|[|w]]]; unfold digit, GET_TICK, GET_SECS, GET_MINS, GET_HRS;
    rewrite Hl, ?Z.shiftr_div_pow2 by (vm_compute; discriminate); reflexivity.
Qed.

Lemma digit_nonneg w ct : 0 ≤ digit w ct.
Proof. rewrite digit_spec. destruct w as [|[|[|w]]]; apply Z.mod_pos_bound; lia. Qed.

(** A time is the sequence of its components. *)
Lemma digits_value d3 d2 d1 d0 (ct := d3 * 2 ^ 22 + d2 * 2 ^ 16 + d1 * 2 ^ 10 + d0) :
  0 ≤ d3 < 2 ^ 10 → 0 ≤ d2 < 2 ^ 6 → 0 ≤ d1 < 2 ^ 6 → 0 ≤ d0 < 2 ^ 10 →
  digit 3 ct = d3 ∧ digit 2 ct = d2 ∧ digit 1 ct = d1 ∧ digit 0 ct = d0.
Proof.
  intros H3 H2 H1 H0. rewrite !digit_spec. subst ct.
  replace (d3 * 2 ^ 22 + d2 * 2 ^ 16 + d1 * 2 ^ 10 + d0)
    with (d0 + (d1 + (d2 + d3 * 2 ^ 6) * 2 ^ 6) * 2 ^ 10) by lia.
  rewrite Z.mod_add, (Z.mod_small d0) by lia.
  assert ((d0 + (d1 + (d2 + d3 * 2 ^ 6) * 2 ^ 6) * 2 ^ 10) / 2 ^ 10 =
          d1 + (d2 + d3 * 2 ^ 6) * 2 ^ 6) as E1
    by (rewrite Z.div_add, Z.div_small; lia).
  assert ((d1 + (d2 + d3 * 2 ^ 6) * 2 ^ 6) / 2 ^ 6 = d2 + d3 * 2 ^ 6) as E2
    by (rewrite Z.div_add, Z.div_small; lia).
  assert ((d2 + d3 * 2 ^ 6) / 2 ^ 6 = d3) as E3 by (rewrite Z.div_add, Z.div_small; lia).
  change (2 ^ 22) with (2 ^ 10 * (2 ^ 6 * 2 ^ 6)). change (2 ^ 16) with (2 ^ 10 * 2 ^ 6).
  rewrite <- !Z.div_div, E1, E2, E3, !Z.mod_add by lia.
  by rewrite !Z.mod_small by lia.
Qed.

Lemma digits_of ct :
  0 ≤ ct < 2 ^ 32 →
  ∃ d3 d2 d1 d0, ct = d3 * 2 ^ 22 + d2 * 2 ^ 16 + d1 * 2 ^ 10 + d0 ∧
    0 ≤ d3 < 2 ^ 10 ∧ 0 ≤ d2 < 2 ^ 6 ∧ 0 ≤ d1 < 2 ^ 6 ∧ 0 ≤ d0 < 2 ^ 10.
Proof.
  intros Hct. exists (ct / 2 ^ 22), ((ct / 2 ^ 16) mod 2 ^ 6), ((ct / 2 ^ 10) mod 2 ^ 6),
    (ct mod 2 ^ 10).
  pose proof (Z.div_mod ct (2 ^ 10)). pose proof (Z.div_mod (ct / 2 ^ 10) (2 ^ 6)).
  pose proof (Z.div_mod (ct / 2 ^ 16) (2 ^ 6)).
  assert (ct / 2 ^ 16 = ct / 2 ^ 10 / 2 ^ 6) by (rewrite Z.div_div by lia; done).
  assert (ct / 2 ^ 22 = ct / 2 ^ 16 / 2 ^ 6) by (rewrite Z.div_div by lia; done).
  assert (∀ x k, 0 < k → 0 ≤ x mod k < k) as Hm by (intros; by apply Z.mod_pos_bound).
  split_and!; try (apply Hm; lia); [lia|apply Z.div_pos; lia|apply Z.div_lt_upper_bound; lia].
Qed.

(** Conjunction by parts. *)
Lemma land_split k a b a' b' :
  0 ≤ k → 0 ≤ b < 2 ^ k → 0 ≤ b' < 2 ^ k →
  (a * 2 ^ k + b) &&& (a' * 2 ^ k + b') = (a &&& a') * 2 ^ k + (b &&& b').
Proof.
  intros Hk Hb Hb'.
  assert (0 ≤ b &&& b' < 2 ^ k) as Hbb.
  { replace (b &&& b') with ((b &&& b') mod 2 ^ k); [apply Z.mod_pos_bound; lia|].
    rewrite <- Z.land_ones, <- Z.land_assoc, (Z.land_ones b'), (Z.mod_small b') by done. done. }
  rewrite <- !lor_mul_add by done. rewrite <- !Z.shiftl_mul_pow2 by done.
  rewrite Z.land_lor_distr_l, !Z.land_lor_distr_r, <- Z.shiftl_land.
  assert (∀ x y, 0 ≤ y < 2 ^ k → (x ≪ k) &&& y = 0) as Hz.
  { intros x y Hy. apply Z.bits_inj'. intros n Hn. rewrite Z.land_spec, Z.bits_0.
    destruct (Z.lt_ge_cases n k); [by rewrite Z.shiftl_spec_low|].
    rewrite <- (Z.mod_small y (2 ^ k)) by done.
    by rewrite Z.mod_pow2_bits_high, andb_false_r by lia. }
  rewrite (Z.land_comm b), !Hz by done. by rewrite Z.lor_0_r.
Qed.

(** [clear_wheel_timer] clears the component of its wheel. *)
Lemma cleared_digits w ct (ct' := ct &&& wheel_mask w) :
  (w < 4)%nat → 0 ≤ ct < 2 ^ 32 →
  0 ≤ ct' < 2 ^ 32 ∧ ∀ v, (v < 4)%nat → digit v ct' = if decide (v = w) then 0 else digit v ct.
Proof.
  intros Hw Hct. destruct (digits_of ct Hct) as (d3 & d2 & d1 & d0 & -> & H3 & H2 & H1 & H0).
  destruct (digits_value d3 d2 d1 d0 H3 H2 H1 H0) as (V3 & V2 & V1 & V0).
  assert (∀ x n, 0 ≤ n → 0 ≤ x < 2 ^ n → x &&& Z.ones n = x) as Ho
    by (intros; rewrite Z.land_ones, Z.mod_small; done).
  assert (∀ m3 m2 m1 m0, 0 ≤ m2 < 2 ^ 6 → 0 ≤ m1 < 2 ^ 6 → 0 ≤ m0 < 2 ^ 10 →
    (d3 * 2 ^ 22 + d2 * 2 ^ 16 + d1 * 2 ^ 10 + d0) &&&
    (m3 * 2 ^ 22 + m2 * 2 ^ 16 + m1 * 2 ^ 10 + m0) =
    (d3 &&& m3) * 2 ^ 22 + (d2 &&& m2) * 2 ^ 16 + (d1 &&& m1) * 2 ^ 10 + (d0 &&& m0)) as Hl.
  { intros m3 m2 m1 m0 M2 M1 M0.
    replace (d3 * 2 ^ 22 + d2 * 2 ^ 16 + d1 * 2 ^ 10 + d0)
      with ((d3 * 2 ^ 6 + d2) * 2 ^ 16 + (d1 * 2 ^ 10 + d0)) by lia.
    replace (m3 * 2 ^ 22 + m2 * 2 ^ 16 + m1 * 2 ^ 10 + m0)
      with ((m3 * 2 ^ 6 + m2) * 2 ^ 16 + (m1 * 2 ^ 10 + m0)) by lia.
    rewrite !land_split by lia. lia. }
  assert (wheel_mask w = (if decide (w = 3%nat) then 0 else Z.ones 10) * 2 ^ 22 +
    (if decide (w = 2%nat) then 0 else Z.ones 6) * 2 ^ 16 +
    (if decide (w = 1%nat) then 0 else Z.ones 6) * 2 ^ 10 +
    (if decide (w = 0%nat) then 0 else Z.ones 10)) as Hmask
    by (destruct w as [|[|[|[|w]]]]; [done..|lia]).
  subst ct'. rewrite Hmask, Hl 
    by (destruct w as [|[|[|[|w]]]]; [split; by vm_compute..|lia]).
  assert (∀ n m d, 0 ≤ m → 0 ≤ d < 2 ^ m → d &&& (if decide (w = n) then 0 else Z.ones m) =
    if decide (w = n) then 0 else d) as Hd.
  { intros n m d Hm Hd. destruct (decide (w = n)); [apply Z.land_0_r|by apply Ho]. }
  rewrite !Hd by lia.
  assert (∀ n (d u : Z), 0 ≤ d < u → 0 ≤ (if decide (w = n) then 0 else d) < u) as Hr
    by (intros n d u Hu; destruct (decide (w = n)); lia).
  pose proof (Hr 3%nat _ _ H3). pose proof (Hr 2%nat _ _ H2).
  pose proof (Hr 1%nat _ _ H1). pose proof (Hr 0%nat _ _ H0).
  split; [lia|].
  destruct (digits_value (if decide (w = 3%nat) then 0 else d3)
    (if decide (w = 2%nat) then 0 else d2) (if decide (w = 1%nat) then 0 else d1)
    (if decide (w = 0%nat) then 0 else d0)) as (W3 & W2 & W1 & W0); [done..|].
  intros v Hv. destruct v as [|[|[|[|v]]]]; [| | | |lia];
    rewrite ?W3, ?W2, ?W1, ?W0, ?V3, ?V2, ?V1, ?V0;
    destruct w as [|[|[|[|w]]]]; (done || lia).
Qed.

Lemma digits_zero ct : 0 ≤ ct < 2 ^ 32 → (∀ v, (v < 4)%nat → digit v ct = 0) → ct = 0.
Proof.
  intros Hct Hd. destruct (digits_of ct Hct) as (d3 & d2 & d1 & d0 & -> & H3 & H2 & H1 & H0).
  destruct (digits_value d3 d2 d1 d0 H3 H2 H1 H0) as (V3 & V2 & V1 & V0).
  pose proof (Hd 3%nat). pose proof (Hd 2%nat). pose proof (Hd 1%nat). pose proof (Hd 0%nat). lia.
Qed.

(** The slot of a time is its greatest component. *)
Lemma slot_of_spec ct :
  0 ≤ ct < 2 ^ 32 →
  match slot_of ct with
  | Some (w, t) => (w < 4)%nat ∧ t = digit w ct ∧ 0 < t ∧ fits w ct ∧
                   total ct = t * unit w + below w ct
  | None => ct = 0
  end.
Proof.
  intros Hct. pose proof (digit_nonneg 3 ct). pose proof (digit_nonneg 2 ct).
  pose proof (digit_nonneg 1 ct). pose proof (digit_nonneg 0 ct).
  unfold slot_of. change (GET_HRS ct) with (digit 3 ct). change (GET_MINS ct) with (digit 2 ct).
  change (GET_SECS ct) with (digit 1 ct). change (GET_TICK ct) with (digit 0 ct).
  assert (∀ w t, (w < 4)%nat → t = digit w ct → digit w ct ≠ 0 →
    (∀ v, (w < v < 4)%nat → digit v ct = 0) →
    (w < 4)%nat ∧ t = digit w ct ∧ 0 < t ∧ fits w ct ∧ total ct = t * unit w + below w ct) as Hc.
  { intros w t Hw -> Hne Hz. pose proof (digit_nonneg w ct).
    split_and!; [done|done|lia|done|].
    pose proof (Hz 3%nat). pose proof (Hz 2%nat). pose proof (Hz 1%nat).
    unfold total. destruct w as [|[|[|[|w]]]]; cbn [below unit] in *; lia. }
  unfold tst, HRS, MIN, SEC, TICK.
  destruct (digit 3 ct =? 0) eqn:E3; bool_to_prop; cbn [negb].
  2: { apply Hc; [lia|done|done|lia]. }
  destruct (digit 2 ct =? 0) eqn:E2; bool_to_prop; cbn [negb].
  2: { apply Hc; [lia|done|done|]. intros v Hv. assert (v = 3%nat) as -> by lia. done. }
  destruct (digit 1 ct =? 0) eqn:E1; bool_to_prop; cbn [negb].
  2: { apply Hc; [lia|done|done|]. intros v Hv.
       assert (v = 3%nat ∨ v = 2%nat) as [-> | ->] by lia; done. }
  destruct (digit 0 ct =? 0) eqn:E0; bool_to_prop; cbn [negb].
  - apply digits_zero; [done|]. intros v Hv. destruct v as [|[|[|[|v]]]]; (done || lia).
  - apply Hc; [lia|done|done|]. intros v Hv.
    assert (v = 3%nat ∨ v = 2%nat ∨ v = 1%nat) as [->|[-> | ->]] by lia; done.
Qed.

(** What is left of a time when its greatest component has been cleared. *)
Lemma cleared_total w ct (ct' := ct &&& wheel_mask w) :
  (w < 4)%nat → fits w ct → 0 ≤ ct' < 2 ^ 32 ∧ total ct' = below w ct.
Proof.
  intros Hw [Hct Hz]. destruct (cleared_digits w ct Hw Hct) as [Hr Hd]. split; [done|].
  pose proof (Hz 3%nat). pose proof (Hz 2%nat). pose proof (Hz 1%nat).
  unfold total, below. subst ct'. rewrite !Hd by lia.
  unfold unit, tm_get_ticks_per_second. repeat case_decide; subst; try lia;
    destruct w as [|[|[|[|w]]]]; lia.
Qed.

Lemma ctime_digits tick (ct := set_ctime_of tick) :
  0 ≤ tick < 1024 * 3600 * 100 →
  0 ≤ ct < 2 ^ 32 ∧ digit 0 ct = tick mod 100 ∧ digit 1 ct = tick / 100 mod 60 ∧
  digit 2 ct = tick / 6000 mod 60 ∧ digit 3 ct = tick / 360000 ∧ total ct = tick.
Proof.
  intros Ht. set (d0 := tick mod 100). set (d1 := tick / 100 mod 60).
  set (d2 := tick / 6000 mod 60). set (d3 := tick / 360000).
  assert (0 ≤ d0 < 100) as H0 by (apply Z.mod_pos_bound; lia).
  assert (0 ≤ d1 < 60) as H1 by (apply Z.mod_pos_bound; lia).
  assert (0 ≤ d2 < 60) as H2 by (apply Z.mod_pos_bound; lia).
  assert (0 ≤ d3 < 1024) as H3
    by (split; [apply Z.div_pos|apply Z.div_lt_upper_bound]; lia).
  assert (tick = d3 * 360000 + d2 * 6000 + d1 * 100 + d0) as Hsum.
  { pose proof (Z.div_mod tick 100). pose proof (Z.div_mod (tick / 100) 60).
    pose proof (Z.div_mod (tick / 6000) 60).
    assert (tick / 6000 = tick / 100 / 60) by (by rewrite Z.div_div).
    assert (tick / 360000 = tick / 6000 / 60) by (by rewrite Z.div_div). lia. }
  assert (ct = d3 * 2 ^ 22 + d2 * 2 ^ 16 + d1 * 2 ^ 10 + d0) as Hct.
  { unfold ct, set_ctime_of. cbv zeta. unfold tm_get_ticks_per_second.
    rewrite !Z.div_div by lia. change (100 * 60 * 60) with 360000.
    change (100 * (60 * 60)) with 360000. change (100 * 60) with 6000.
    fold d0 d1 d2 d3.
    change SEC_BITS_OFFSET with 10. change MIN_BITS_OFFSET with 16.
    change HRS_BITS_OFFSET with 22. rewrite (Z.shiftl_mul_pow2 d3), u32_small by lia.
    rewrite (Z.lor_comm d0), (lor_shift_add 10 d1) by lia.
    rewrite (Z.lor_comm _ (d2 ≪ 16)), (lor_shift_add 16 d2) by lia.
    rewrite (Z.lor_comm _ (d3 * 2 ^ 22)), (lor_mul_add 22 d3) by lia. lia. }
  rewrite Hct. destruct (digits_value d3 d2 d1 d0) as (V3 & V2 & V1 & V0); [lia..|].
  unfold total, below. rewrite V3, V2, V1, V0. unfold unit, tm_get_ticks_per_second.
  split_and!; lia.
Qed.

(** The time of a timer survives its packing: for up to 1024 hours the
    components that [calc_time] stores are the hours, minutes, seconds and ticks of the
    number of ticks, and together they are that number. *)
Theorem ctime_roundtrip tick (ct := set_ctime_of tick) :
  0 ≤ tick < 1024 * 3600 * 100 →
  GET_TICK ct = tick mod 100 ∧ GET_SECS ct = tick / 100 mod 60 ∧
  GET_MINS ct = tick / 6000 mod 60 ∧ GET_HRS ct = tick / 360000 ∧
  total ct = tick.
Proof. intros Ht. destruct (ctime_digits tick Ht) as (_ & H0 & H1 & H2 & H3 & ?). done. Qed.

(** ** Queued entries *)

Implicit Types s x : wheels.

Definition wheel_of s (a : nat) : nat := wheel (tmr s (timer (app s a))).

(** The tick at which the entry expires. *)
Definition due s (a : nat) : Z :=
  rt (app s a) * unit (wheel_of s a) + below (wheel_of s a) (ctime (app s a)).

(** The entry [a] waits on wheel [w]. *)
Definition entry_ok s (w a : nat) : Prop :=
  (w < 4)%nat ∧ (a < anext s)%nat ∧ wheel_of s a = w ∧
  is_running (tmr s (timer (app s a))) = 1 ∧ fits w (ctime (app s a)) ∧
  clk s w ≤ rt (app s a) ∧ due s a < 2 ^ 32.

(** The clocks agree, the entries of each tree wait on its wheel, and no timer has
    two entries. *)
Record wf s : Prop := {
  wf_tick : 0 ≤ clk s TICK < 2 ^ 32;
  wf_clk w : (w < 4)%nat → clk s w = clk s TICK / unit w;
  wf_nodup w : NoDup (root s w);
  wf_entry w a : a ∈ root s w → entry_ok s w a;
  wf_unique w v a b : a ∈ root s w → b ∈ root s v →
    timer (app s a) = timer (app s b) → a = b
}.

(** The counter of the running timers. *)
Definition queue_size s : nat :=
  length (root s 0%nat) + length (root s 1%nat) + length (root s 2%nat) + length (root s 3%nat).

Definition counted s : Prop := count s = Z.of_nat (queue_size s) ∧ count s < 2 ^ 32.

(** *** Memory *)

Lemma tmr_upd p f s q : tmr (upd_tmr p f s) q = if decide (p = q) then f (tmr s p) else tmr s q.
Proof.
  unfold upd_tmr; cbn. destruct (decide (p = q)) as [->|].
  - by rewrite fn_lookup_insert.
  - by rewrite fn_lookup_insert_ne.
Qed.

Lemma app_upd a f s b : app (upd_app a f s) b = if decide (a = b) then f (app s a) else app s b.
Proof.
  unfold upd_app; cbn. destruct (decide (a = b)) as [->|].
  - by rewrite fn_lookup_insert.
  - by rewrite fn_lookup_insert_ne.
Qed.

Lemma insert_key_elem {A} (key : A → Z) a l b : b ∈ insert_key key a l ↔ b = a ∨ b ∈ l.
Proof.
  induction l as [|x l IH]; cbn; [by rewrite list_elem_of_singleton, elem_of_nil; tauto|].
  destruct (_ <? _); rewrite !elem_of_cons, ?IH; tauto.
Qed.

Lemma insert_key_nodup {A} (key : A → Z) a l : a ∉ l → NoDup l → NoDup (insert_key key a l).
Proof.
  induction l as [|x l IH]; cbn; intros Ha Hl; [apply list.NoDup_singleton|].
  apply list.NoDup_cons in Hl as [Hx Hl]. apply not_elem_of_cons in Ha as [Hax Ha].
  destruct (_ <? _); apply list.NoDup_cons.
  - rewrite not_elem_of_cons, list.NoDup_cons. auto.
  - rewrite insert_key_elem. split; [|auto]. intros [?|?]; [congruence|done].
Qed.

Lemma insert_key_length {A} (key : A → Z) a l : length (insert_key key a l) = S (length l).
Proof. induction l as [|x l IH]; cbn; [done|]. destruct (_ <? _); cbn; by rewrite ?IH. Qed.

Lemma filter_ne_length (a : nat) (l : list nat) :
  NoDup l → a ∈ l → S (length (filter (λ b, b ≠ a) l)) = length l.
Proof.
  induction l as [|x l IH]; [by intros _ ?%elem_of_nil|].
  intros [Hx Hl]%list.NoDup_cons [->|Ha]%elem_of_cons.
  - rewrite filter_cons_False by tauto. cbn. f_equal. clear IH Hl.
    induction l as [|y l IH]; [done|]. apply not_elem_of_cons in Hx as [Hy Hx].
    rewrite filter_cons_True by congruence. cbn. by rewrite IH.
  - rewrite filter_cons_True by congruence. cbn. by rewrite IH.
Qed.

(** *** Placing an entry *)

(** [find_tmr_slot_and_place] on an entry with time left. *)
Lemma place_spec s a w t (x := find_tmr_slot_and_place a s) (p := timer (app s a)) :
  slot_of (ctime (app s a)) = Some (w, t) →
  clk x = clk s ∧ count x = count s ∧ anext x = anext s ∧ expd_tmrs x = expd_tmrs s ∧
  corrupt x = corrupt s ∧
  (∀ b, app x b = if decide (a = b) then (app s a) <| rt := u32 (clk s w + t) |> else app s b) ∧
  (∀ q, tmr x q = if decide (p = q) then (tmr s p) <| wheel := w |> <| is_running := 1 |>
                  else tmr s q) ∧
  (∀ v, root x v = if decide (w = v) then insert_key (λ b, rt (app x b)) a (root s w)
                   else root s v).
Proof.
  intros Hs. subst x p. unfold find_tmr_slot_and_place. rewrite Hs. cbv zeta.
  set (s1 := upd_app a _ s). set (s2 := upd_tmr _ _ s1).
  assert (∀ b, app s1 b = if decide (a = b) then (app s a) <| rt := u32 (clk s w + t) |>
    else app s b) as A1 by (intros b; apply app_upd).
  assert (timer (app s1 a) = timer (app s a)) as Hp by (rewrite A1; by rewrite decide_True).
  split_and!; try done.
  - intros q. change (tmr (timer_add a w s2) q) with (tmr s2 q). subst s2. rewrite tmr_upd.
    by rewrite Hp.
Qed.

(** A state with the entry [a] not yet placed: everything else is in order, and no
    other entry belongs to its timer. *)
Definition unplaced s (a : nat) : Prop :=
  wf s ∧ (a < anext s)%nat ∧
  ∀ w b, b ∈ root s w → b ≠ a ∧ timer (app s b) ≠ timer (app s a).

Lemma u32_sum c t : 0 ≤ c → 0 ≤ t → c + t < 2 ^ 32 → u32 (c + t) = c + t.
Proof. intros. apply u32_small. lia. Qed.

Lemma unit_pos w : 0 < unit w.
Proof. destruct w as [|[|[|w]]]; by vm_compute. Qed.

Lemma below_nonneg w ct : 0 ≤ below w ct.
Proof.
  pose proof (digit_nonneg 0 ct). pose proof (digit_nonneg 1 ct). pose proof (digit_nonneg 2 ct).
  pose proof (unit_pos 1). pose proof (unit_pos 2).
  destruct w as [|[|[|w]]]; cbn [below]; lia.
Qed.

(** Placing keeps the state in order and gives the entry its due time: the start of
    the current unit of its wheel plus its time. *)
Lemma place_wf s a (ct := ctime (app s a)) (x := find_tmr_slot_and_place a s) w t :
  unplaced s a → 0 ≤ ct < 2 ^ 32 → slot_of ct = Some (w, t) →
  clk s w * unit w + total ct < 2 ^ 32 →
  wf x ∧ a ∈ root x w ∧ due x a = clk s w * unit w + total ct ∧ clk s w < rt (app x a) ∧
  queue_size x = S (queue_size s) ∧
  (∀ v b, b ∈ root x v ↔ b ∈ root s v ∨ b = a ∧ v = w) ∧
  (∀ b, b ≠ a → app x b = app s b) ∧
  (∀ q, q ≠ timer (app s a) → tmr x q = tmr s q) ∧ timer (app x a) = timer (app s a).
Proof.
  intros (Hwf & Ha & Hoth) Hct Hslot Hb.
  destruct (place_spec s a w t Hslot) as (X1 & X2 & X3 & X4 & X5 & X6 & X7 & X8). fold x in X1, X2, X3, X4, X5, X6, X7, X8.
  pose proof (slot_of_spec ct Hct) as Hs. rewrite Hslot in Hs.
  destruct Hs as (Hw & Ht & Htpos & Hfits & Htot).
  assert (0 ≤ clk s w) as Hclk.
  { rewrite (wf_clk s Hwf w Hw). apply Z.div_pos; [apply Hwf|apply unit_pos]. }
  pose proof (unit_pos w) as Hu. pose proof (below_nonneg w ct) as Hbel.
  assert (clk s w + t < 2 ^ 32) as Hno by nia.
  rewrite u32_sum in X6 by lia.
  assert (∀ v b, b ∈ root x v ↔ b ∈ root s v ∨ b = a ∧ v = w) as Hin.
  { intros v b. rewrite X8. destruct (decide (w = v)) as [->|Hne].
    - rewrite insert_key_elem. tauto.
    - split; [by left|]. intros [?|[_ ?]]; [done|congruence]. }
  assert (∀ b, b ≠ a → app x b = app s b) as Happ
    by (intros b Hne; rewrite X6; by rewrite decide_False).
  assert (app x a = (app s a) <| rt := clk s w + t |>) as Hxa
    by (rewrite X6; by rewrite decide_True).
  assert (∀ q, q ≠ timer (app s a) → tmr x q = tmr s q) as Htmr
    by (intros q Hne; rewrite X7; by rewrite decide_False).
  assert (wheel_of x a = w) as Hwa.
  { unfold wheel_of. rewrite Hxa. cbn. rewrite X7. by rewrite decide_True. }
  assert (due x a = clk s w * unit w + total ct) as Hdue.
  { unfold due. rewrite Hwa, Hxa. cbn. fold ct. rewrite Htot. lia. }
  assert (∀ v b, b ∈ root s v → app x b = app s b ∧ tmr x (timer (app s b)) = tmr s (timer (app s b)))
    as Hold.
  { intros v b Hbv. destruct (Hoth v b Hbv) as [N1 N2]. auto. }
  split_and!; try done.
  - split.
    + rewrite X1. apply Hwf.
    + intros v Hv. rewrite X1. by apply Hwf.
    + intros v. rewrite X8. destruct (decide (w = v)) as [<-|]; [|apply Hwf].
      apply insert_key_nodup; [|apply Hwf]. intros Hin'. by destruct (Hoth w a Hin').
    + intros v b [Hbv|[-> ->]]%Hin.
      * destruct (wf_entry s Hwf v b Hbv) as (E1 & E2 & E3 & E4 & E5 & E6 & E7).
        destruct (Hold v b Hbv) as [O1 O2].
        unfold entry_ok, due, wheel_of in *. rewrite O1, O2, X1, X3. done.
      * unfold entry_ok. rewrite Hwa, Hdue, X1, X3, Hxa. cbn. rewrite X7.
        rewrite decide_True by done. cbn. split_and!; (done || lia || apply Hfits).
    + intros v v' b c [Hb'|[-> ->]]%Hin [Hc|[-> ->]]%Hin; [| | |done].
      * destruct (Hold v b Hb') as [-> _], (Hold v' c Hc) as [-> _]. by apply (wf_unique s Hwf v v').
      * destruct (Hold v b Hb') as [-> _], (Hoth v b Hb') as [_ Hne]. rewrite Hxa. cbn. congruence.
      * destruct (Hold v' c Hc) as [-> _], (Hoth v' c Hc) as [_ Hne]. rewrite Hxa. cbn. congruence.
  - apply Hin. by right.
  - rewrite Hxa. cbn. lia.
  - unfold queue_size. rewrite !X8.
    destruct w as [|[|[|[|w]]]]; cbn [decide]; repeat case_decide; rewrite ?insert_key_length; lia.
  - rewrite Hxa. done.
Qed.

(** *** Taking an entry off its wheel *)

Definition strict s (w : nat) : Prop := ∀ a, a ∈ root s w → clk s w < rt (app s a).

(** The first half of a round of [process_timers]. *)
Definition take_off (v a : nat) s : wheels := timer_del a v (clear_wheel_timer a s).

Lemma take_off_spec s v a (x := take_off v a s) :
  wf s → a ∈ root s v →
  unplaced x a ∧ clk x = clk s ∧ anext x = anext s ∧ expd_tmrs x = expd_tmrs s ∧
  count x = count s ∧ corrupt x = corrupt s ∧ tmr x = tmr s ∧
  (∀ b, b ≠ a → app x b = app s b) ∧
  app x a = (app s a) <| ctime := ctime (app s a) &&& wheel_mask v |> ∧
  (∀ w b, b ∈ root x w ↔ b ∈ root s w ∧ b ≠ a) ∧ S (queue_size x) = queue_size s.
Proof.
  intros Hwf Ha. destruct (wf_entry s Hwf v a Ha) as (V1 & V2 & V3 & V4 & V5 & V6 & V7).
  assert (x = (upd_app a (λ e, e <| ctime := ctime e &&& wheel_mask v |>) s)
                <| root := <[v := filter (λ b, b ≠ a) (root s v)]> (root s) |>) as Hx.
  { unfold x, take_off, clear_wheel_timer, timer_del. unfold wheel_of in V3.
    replace (upd_app a (λ e, e <| ctime := ctime e &&& wheel_mask (wheel (tmr s (timer e))) |>) s)
      with (upd_app a (λ e, e <| ctime := ctime e &&& wheel_mask v |>) s)
      by (unfold upd_app; by rewrite V3).
    rewrite bool_decide_eq_true_2 by done. done. }
  assert (∀ b, app x b = if decide (a = b) then (app s a) <| ctime := ctime (app s a) &&&
    wheel_mask v |> else app s b) as X1.
  { intros b. rewrite Hx. apply (app_upd a (λ e, e <| ctime := ctime e &&& wheel_mask v |>)). }
  assert (∀ w, root x w = if decide (v = w) then filter (λ b, b ≠ a) (root s v) else root s w)
    as X2 by (rewrite Hx; done).
  assert (clk x = clk s ∧ anext x = anext s ∧ expd_tmrs x = expd_tmrs s ∧
    count x = count s ∧ corrupt x = corrupt s ∧ tmr x = tmr s) as (X3 & X4 & X5 & X6 & X7 & X8)
    by (rewrite Hx; done).
  clearbody x. clear Hx.
  assert (∀ b, b ≠ a → app x b = app s b) as Happ
    by (intros b Hne; rewrite X1; by rewrite decide_False).
  assert (∀ w b, b ∈ root x w ↔ b ∈ root s w ∧ b ≠ a) as Hin.
  { intros w b. rewrite X2. destruct (decide (v = w)) as [<-|Hne].
    - rewrite list_elem_of_filter. tauto.
    - split; [|tauto]. intros Hb. split; [done|]. intros ->.
      destruct (wf_entry s Hwf w a Hb) as (_ & _ & W3 & _). congruence. }
  split_and!; try done.
  - split_and!; [split| |].
    + rewrite X3. apply Hwf.
    + rewrite X3. apply Hwf.
    + intros w. rewrite X2. destruct (decide (v = w)); [apply list.NoDup_filter|]; apply Hwf.
    + intros w b [Hb Hne]%Hin. pose proof (wf_entry s Hwf w b Hb) as He.
      unfold entry_ok, due, wheel_of in *. by rewrite Happ, X3, X4, X8.
    + intros w w' b c [Hb Hbn]%Hin [Hc Hcn]%Hin. rewrite !Happ by done.
      by apply (wf_unique s Hwf w w').
    + by rewrite X4.
    + intros w b [Hb Hne]%Hin. split; [done|]. rewrite (Happ b) by done.
      rewrite X1, decide_True by done. cbn. intros Heq.
      apply Hne. by apply (wf_unique s Hwf w v b a).
  - rewrite X1. by rewrite decide_True.
  - pose proof (filter_ne_length a (root s v) (wf_nodup s Hwf v) Ha) as Hlen.
    unfold queue_size. rewrite !X2.
    destruct v as [|[|[|[|v]]]]; repeat case_decide; lia.
Qed.

(** The timer [p] has no entry in a tree. *)
Definition idle s (p : nat) : Prop := ∀ w b, b ∈ root s w → timer (app s b) ≠ p.

(** Each entry of [s] is still queued in [x] with the same due time, or it was due
    now, is on the list of the expired entries, and its timer no longer runs; idle timers
    are left alone. *)
Definition advances s x : Prop :=
  clk x = clk s ∧ anext x = anext s ∧ (∀ a, a ∈ expd_tmrs s → a ∈ expd_tmrs x) ∧
  (∀ a, timer (app x a) = timer (app s a)) ∧ (∀ p, idle s p → tmr x p = tmr s p) ∧
  (∀ v a, a ∈ root s v →
    (∃ w, a ∈ root x w ∧ due x a = due s a) ∨
    (due s a = clk s TICK ∧ a ∈ expd_tmrs x ∧ idle x (timer (app s a)) ∧
     is_running (tmr x (timer (app s a))) = 0)) ∧
  (∀ w a, a ∈ root x w → ∃ v, a ∈ root s v ∧ due s a = due x a).

Lemma advances_refl s : advances s s.
Proof. split_and!; try done; eauto. Qed.

Lemma advances_idle s x p : advances s x → idle s p → idle x p.
Proof.
  intros (_ & _ & _ & A4 & _ & _ & A7) Hi w b Hb. destruct (A7 w b Hb) as (v & Hv & _).
  rewrite A4. by eapply Hi.
Qed.

Lemma advances_trans s x y : advances s x → advances x y → advances s y.
Proof.
  intros A B. pose proof (λ p, advances_idle s x p A) as Hidle.
  pose proof A as (A1 & A2 & A3 & A4 & A5 & A6 & A7).
  pose proof B as (B1 & B2 & B3 & B4 & B5 & B6 & B7).
  split_and!; [congruence|congruence|auto| | | |].
  - intros a. by rewrite B4.
  - intros p Hp. rewrite B5 by (by apply Hidle). auto.
  - intros v a Ha. destruct (A6 v a Ha) as [(w & Hw & Hd)|(Hd & He & Hn & Hr)].
    + destruct (B6 w a Hw) as [(w' & Hw' & Hd')|(Hd' & He & Hn & Hr)].
      * left. exists w'. split; [done|congruence].
      * right. rewrite A4 in Hn, Hr. split_and!; [congruence|done..].
    + right. split_and!; [done|auto|by eapply advances_idle|]. by rewrite B5.
  - intros w a Ha. destruct (B7 w a Ha) as (v & Hv & Hd). destruct (A7 v a Hv) as (v' & Hv' & Hd').
    exists v'. split; [done|congruence].
Qed.

Lemma unit_divides w v : (w < v < 4)%nat → unit v = unit v / unit w * unit w.
Proof. intros. destruct v as [|[|[|[|]]]], w as [|[|[|[|]]]]; try lia; by vm_compute. Qed.

Definition fire_entry (v a : nat) s : wheels := timer_expiry_action a (take_off v a s).

(** The result of one round of [process_timers] on the entry [a] of wheel [v]. *)
Definition fired (v a : nat) s x : Prop :=
  wf x ∧ counted x ∧ advances s x ∧ corrupt x = corrupt s ∧
  (∀ w, w ≠ v → strict s w → strict x w) ∧ (∀ b, b ∈ root x v ↔ b ∈ root s v ∧ b ≠ a).

(** The round when nothing of the time is left. *)
Lemma fire_expires s v a :
  wf s → counted s → a ∈ root s v → due s a = clk s TICK →
  ctime (app s a) &&& wheel_mask v = 0 → fired v a s (fire_entry v a s).
Proof.
  intros Hwf [Hc1 Hc2] Ha Hdue Hz.
  destruct (take_off_spec s v a Hwf Ha) as (Un & X1 & X2 & X3 & X4 & X5 & X6 & X7 & X8 & X9 & X10).
  unfold fire_entry, timer_expiry_action. set (y := take_off v a s) in *. clearbody y.
  assert (timer (app y a) = timer (app s a)) as Htm by (by rewrite X8).
  assert (ctime (app y a) = 0) as -> by (by rewrite X8). cbn [Z.eqb]. cbv zeta.
  set (x := _ <| expd_tmrs := _ |>).
  assert (clk x = clk s ∧ anext x = anext s ∧ expd_tmrs x = expd_tmrs s ++ [a] ∧
    count x = u32 (count s - 1) ∧ corrupt x = corrupt s ∧ app x = app y ∧ root x = root y)
    as (Y1 & Y2 & Y3 & Y4 & Y5 & Y6 & Y7).
  { subst x. unfold DEC_TIMER_COUNT. cbn. by rewrite X1, X2, X3, X4, X5. }
  assert (∀ q, tmr x q = if decide (timer (app s a) = q)
    then (tmr s q) <| is_running := 0 |> else tmr s q) as Y8.
  { intros q. rewrite <- Htm, <- X6. subst x.
    change (tmr (upd_tmr (timer (app y a)) (λ t, t <| is_running := 0 |>) (DEC_TIMER_COUNT y)) q =
      if decide (timer (app y a) = q) then (tmr y q) <| is_running := 0 |> else tmr y q).
    rewrite tmr_upd. by case_decide; subst. }
  clearbody x. destruct Un as (Wy & _ & Hoth).
  assert (∀ w b, b ∈ root y w → wheel_of x b = wheel_of s b ∧ due x b = due s b ∧
    app x b = app s b ∧ tmr x (timer (app s b)) = tmr s (timer (app s b))) as Hsame.
  { intros w b Hw. destruct (Hoth w b Hw) as [N1 N2]. rewrite Htm, X7 in N2 by done.
    unfold due, wheel_of. rewrite Y6, X7, Y8, decide_False by done. done. }
  assert (idle x (timer (app s a))) as Hidle.
  { intros w b. rewrite Y7, Y6, <- Htm. apply Hoth. }
  split_and!.
  - split; rewrite ?Y1, ?Y7, ?Y6; try apply Hwf; try apply Wy.
    intros w b Hw. destruct (wf_entry s Hwf w b (proj1 (proj1 (X9 w b) Hw)))
      as (E1 & E2 & E3 & E4 & E5 & E6 & E7). destruct (Hsame w b Hw) as (S1 & S2 & S3 & S4).
    unfold entry_ok. by rewrite Y1, Y2, S1, S2, S3, S4.
  - split; rewrite Y4; unfold queue_size in *; rewrite ?Y7, u32_small; lia.
  - split_and!; [done|done| | | | |].
    + intros b. rewrite Y3, elem_of_app. auto.
    + intros b. rewrite Y6. destruct (decide (b = a)) as [->|]; [done|by rewrite X7].
    + intros p Hp. rewrite Y8, decide_False; [done|]. intros <-. by apply (Hp v a Ha).
    + intros w b Hw. destruct (decide (b = a)) as [->|Hne].
      * right. split_and!; [done| |done|].
        -- rewrite Y3, elem_of_app, list_elem_of_singleton. auto.
        -- rewrite Y8. by rewrite decide_True.
      * left. exists w. rewrite Y7. assert (b ∈ root y w) as Hy by (by apply X9).
        split; [done|]. by destruct (Hsame w b Hy) as (_ & -> & _).
    + intros w b Hw. rewrite Y7 in Hw. exists w. destruct (Hsame w b Hw) as (_ & -> & _).
      split; [by apply X9|done].
  - done.
  - intros w Hwv Hs b Hw. rewrite Y7 in Hw. destruct (Hsame w b Hw) as (_ & _ & -> & _).
    rewrite Y1. apply Hs. by apply X9.
  - intros b. rewrite Y7. apply X9.
Qed.

(** The round when a finer component is left: the entry moves to its wheel [w]. *)
Lemma fire_moves s v a w t :
  wf s → counted s → a ∈ root s v →
  slot_of (ctime (app s a) &&& wheel_mask v) = Some (w, t) →
  0 ≤ ctime (app s a) &&& wheel_mask v < 2 ^ 32 → w ≠ v →
  due s a = clk s w * unit w + total (ctime (app s a) &&& wheel_mask v) →
  fired v a s (fire_entry v a s).
Proof.
  intros Hwf [Hc1 Hc2] Ha Hslot Hr Hwv Hdue.
  destruct (take_off_spec s v a Hwf Ha) as (Un & X1 & X2 & X3 & X4 & X5 & X6 & X7 & X8 & X9 & X10).
  destruct (wf_entry s Hwf v a Ha) as (_ & _ & _ & _ & _ & _ & V7).
  unfold fire_entry, timer_expiry_action. set (y := take_off v a s) in *. clearbody y.
  assert (ctime (app y a) = ctime (app s a) &&& wheel_mask v) as Hct by (by rewrite X8).
  assert (timer (app y a) = timer (app s a)) as Htm by (by rewrite X8).
  rewrite <- Hct in Hslot, Hr, Hdue. clear Hct.
  destruct (ctime (app y a) =? 0) eqn:Ez; bool_to_prop; [by rewrite Ez in Hslot|].
  destruct (place_wf y a w t Un) as (P1 & P2 & P3 & P4 & P5 & P6 & P7 & P8 & P9);
    [done|done|rewrite X1; lia|].
  rewrite X1 in P3, P4.
  destruct (place_spec y a w t Hslot) as (Q1 & Q2 & Q3 & Q4 & Q5 & _).
  set (x := find_tmr_slot_and_place a y) in *. clearbody x. destruct Un as (Wy & _ & Hoth).
  assert (∀ u b, b ∈ root y u → due x b = due s b ∧ app x b = app s b) as Hds.
  { intros u b Hu. destruct (Hoth u b Hu) as [N1 N2].
    unfold due, wheel_of. rewrite (P7 b), P8 by done. by rewrite X6, X7. }
  split_and!.
  - done.
  - split; rewrite Q2, X4; [lia|done].
  - split_and!; [congruence|congruence|by rewrite Q4, X3| | | |].
    + intros b. destruct (decide (b = a)) as [->|]; [by rewrite P9|by rewrite P7, X7].
    + intros p Hp. rewrite P8, X6; [done|]. rewrite Htm. intros ->. by apply (Hp v a Ha).
    + intros u b Hu. left. destruct (decide (b = a)) as [->|Hne].
      * exists w. split; [done|]. lia.
      * exists u. assert (b ∈ root y u) as Hy by (by apply X9).
        split; [apply P6; by left|]. by apply (Hds u b Hy).
    + intros u b [Hu|[-> ->]]%P6.
      * exists u. destruct (Hds u b Hu) as [-> _]. split; [by apply X9|done].
      * exists v. split; [done|]. lia.
  - congruence.
  - intros u Huv Hs b [Hu|[-> ->]]%P6; [|by rewrite Q1, X1].
    destruct (Hds u b Hu) as [_ ->]. rewrite Q1, X1. apply Hs. by apply X9.
  - intros b. rewrite P6, X9. split; [intros [?|[_ ->]]; done|by left].
Qed.

(** One round of [process_timers], at a tick where the unit of wheel [v] begins. *)
Lemma fire_entry_spec s v a :
  wf s → counted s → a ∈ root s v → rt (app s a) = clk s v → clk s TICK = clk s v * unit v →
  fired v a s (fire_entry v a s).
Proof.
  intros Hwf Hc Ha Hrt Hb. destruct (wf_entry s Hwf v a Ha) as (V1 & V2 & V3 & V4 & V5 & V6 & V7).
  assert (due s a = clk s TICK + below v (ctime (app s a))) as Hdue
    by (unfold due; rewrite V3, Hrt; lia).
  destruct (cleared_total v _ V1 V5) as [Hr Ht].
  destruct (cleared_digits v _ V1 (proj1 V5)) as [_ Hdig].
  pose proof (slot_of_spec _ Hr) as Hs.
  destruct (slot_of (ctime (app s a) &&& wheel_mask v)) as [[w t]|] eqn:Hslot.
  - destruct Hs as (W1 & W2 & W3 & W4 & _).
    assert (w < v)%nat as Hwv.
    { destruct (decide (w < v)%nat) as [|Hn]; [done|exfalso].
      rewrite W2, Hdig in W3 by done. destruct (decide (w = v)); [lia|].
      destruct V5 as [_ Hz]. rewrite Hz in W3 by lia. lia. }
    apply (fire_moves s v a w t); [done..|lia|].
    rewrite Hdue, Ht. f_equal. rewrite (wf_clk s Hwf w W1), Hb.
    pose proof (unit_divides w v) as Hk. pose proof (unit_pos w).
    rewrite Hk, Z.mul_assoc, Z.div_mul by lia. done.
  - apply fire_expires; [done..| |done]. rewrite Hs in Ht. change (total 0) with 0 in Ht. lia.
Qed.

Lemma fired_length s x v a :
  wf s → wf x → a ∈ root s v → (∀ b, b ∈ root x v ↔ b ∈ root s v ∧ b ≠ a) →
  S (length (root x v)) = length (root s v).
Proof.
  intros Hs Hx Ha Hin. rewrite <- (filter_ne_length a _ (wf_nodup s Hs v) Ha). f_equal.
  apply Permutation_length, NoDup_Permutation;
    [apply Hx|apply list.NoDup_filter, Hs|]. intros b. rewrite Hin, list_elem_of_filter. tauto.
Qed.

(** ** A tick *)

Section Tick.

(** The search in a tree finds a node with the key whenever there is one. *)
Variable pick : list nat → option nat.
Hypothesis pick_none : ∀ l, pick l = None → l = [].
Hypothesis pick_some : ∀ l a, pick l = Some a → a ∈ l.

(** What the processing of wheels achieves: the entries due now are on the list of the
    expired ones, the others keep their due times. *)
Definition processed s x : Prop := wf x ∧ counted x ∧ advances s x ∧ corrupt x = corrupt s.

Lemma processed_refl s : wf s → counted s → processed s s.
Proof. intros. split_and!; try done. apply advances_refl. Qed.

Lemma processed_trans s x y : processed s x → processed x y → processed s y.
Proof.
  intros (_ & _ & A & C) (W & N & B & D). split_and!; try done; [|congruence].
  by eapply advances_trans.
Qed.

Lemma process_loop_spec fuel s v :
  wf s → counted s → clk s TICK = clk s v * unit v → (length (root s v) < fuel)%nat →
  let x := (process_timers_loop pick fuel v (clk s v) s).1 in
  processed s x ∧ strict x v ∧ ∀ w, w ≠ v → strict s w → strict x w.
Proof.
  revert s. induction fuel as [|fuel IH]; intros s Hwf Hc Hb Hlen; [lia|].
  cbn [process_timers_loop].
  destruct (timer_tree_walk pick v (clk s v) s) as [a|] eqn:Hwalk; unfold timer_tree_walk in Hwalk.
  - apply pick_some, list_elem_of_filter in Hwalk as [Hrt Ha].
    change (timer_expiry_action a (timer_del a v (clear_wheel_timer a s)))
      with (fire_entry v a s).
    destruct (fire_entry_spec s v a Hwf Hc Ha Hrt Hb) as (F1 & F2 & F3 & F4 & F5 & F6).
    pose proof (fired_length s _ v a Hwf F1 Ha F6) as Hl.
    set (x := fire_entry v a s) in *. clearbody x.
    pose proof F3 as (Hclk & _). specialize (IH x F1 F2). rewrite Hclk in IH.
    destruct (process_timers_loop pick fuel v (clk s v) x) as [y n]. cbn [fst] in *.
    destruct IH as (I1 & I2 & I3); [done|lia|].
    split_and!; [|done|auto]. eapply processed_trans; [|exact I1]. by split_and!.
  - apply pick_none in Hwalk. cbn [fst]. split_and!; [by apply processed_refl| |done].
    intros a Ha. destruct (wf_entry s Hwf v a Ha) as (_ & _ & _ & _ & _ & Hle & _).
    destruct (Z.eq_dec (rt (app s a)) (clk s v)) as [He|]; [|lia].
    assert (a ∈ filter (λ a, rt (app s a) = clk s v) (root s v)) as Hin
      by (by apply list_elem_of_filter).
    rewrite Hwalk in Hin. by apply elem_of_nil in Hin.
Qed.

Lemma process_timers_spec s v :
  wf s → counted s → clk s TICK = clk s v * unit v →
  let x := (process_timers pick v (clk s v) s).1 in
  processed s x ∧ strict x v ∧ ∀ w, w ≠ v → strict s w → strict x w.
Proof. intros. apply process_loop_spec; [done..|lia]. Qed.

(** The unit of wheel [v] begins. *)
Lemma boundary s v : wf s → (v < 4)%nat → clk s TICK mod unit v = 0 → clk s TICK = clk s v * unit v.
Proof.
  intros Hwf Hv Hm. rewrite (wf_clk s Hwf v Hv).
  pose proof (unit_pos v). pose proof (Z.div_mod (clk s TICK) (unit v)). lia.
Qed.

(** The tests of the clocks. *)
Lemma next_unit s :
  wf s →
  (IS_NXT_SEC_HAPPEND s = true ↔ clk s TICK mod unit 1 = 0) ∧
  (IS_NXT_SEC_HAPPEND s && IS_NXT_MIN_HAPPEND s = true ↔
     clk s TICK mod unit 2 = 0 ∧ 0 < clk s TICK) ∧
  (IS_NXT_SEC_HAPPEND s && IS_NXT_MIN_HAPPEND s && IS_NXT_HR_HAPPEND s = true ↔
     clk s TICK mod unit 3 = 0 ∧ 0 < clk s TICK).
Proof.
  intros Hwf. unfold IS_NXT_SEC_HAPPEND, IS_NXT_MIN_HAPPEND, IS_NXT_HR_HAPPEND, SEC, MIN.
  rewrite (wf_clk s Hwf 1) by lia. rewrite (wf_clk s Hwf 2) by lia.
  pose proof (wf_tick s Hwf) as Ht. set (T := clk s TICK) in *. clearbody T.
  cbn [unit]. unfold tm_get_ticks_per_second, tst.
  rewrite !andb_true_iff, !negb_true_iff, !Z.eqb_eq, !Z.eqb_neq.
  change (60 * 100) with 6000. change (3600 * 100) with 360000.
  assert (T = 100 * (T / 100) + T mod 100) by (apply Z.div_mod; lia).
  assert (T / 100 = 60 * (T / 6000) + (T / 100) mod 60) as H60.
  { replace (T / 6000) with (T / 100 / 60) by (by rewrite Z.div_div). apply Z.div_mod. lia. }
  assert (T / 6000 = 60 * (T / 360000) + (T / 6000) mod 60) as H3600.
  { replace (T / 360000) with (T / 6000 / 60) by (by rewrite Z.div_div). apply Z.div_mod. lia. }
  assert (T = 6000 * (T / 6000) + T mod 6000) by (apply Z.div_mod; lia).
  assert (T = 360000 * (T / 360000) + T mod 360000) by (apply Z.div_mod; lia).
  pose proof (Z.mod_pos_bound T 100). pose proof (Z.mod_pos_bound T 6000).
  pose proof (Z.mod_pos_bound T 360000). pose proof (Z.mod_pos_bound (T / 100) 60).
  pose proof (Z.mod_pos_bound (T / 6000) 60).
  pose proof (Z.div_pos T 6000). pose proof (Z.div_pos T 100). pose proof (Z.div_pos T 360000).
  split_and!; lia.
Qed.

(** The wheels below [v] have been processed. *)
Definition ready (v : nat) s x : Prop :=
  processed s x ∧ (∀ w, (w < v)%nat → strict x w) ∧
  ∀ w, (v ≤ w < 4)%nat → clk s TICK mod unit w ≠ 0 → strict x w.

Lemma ready_step v s x :
  (v < 4)%nat → clk s TICK mod unit v = 0 → ready v s x →
  ready (S v) s (process_timers pick v (clk x v) x).1.
Proof.
  intros Hv Hm (P & S & O). pose proof P as (W & C & (K & _) & _).
  destruct (process_timers_spec x v W C) as (P' & S' & O').
  { apply boundary; [done|done|by rewrite K]. }
  split_and!; [by eapply processed_trans| |].
  - intros w Hw. destruct (decide (w = v)) as [->|]; [done|]. apply O'; [done|]. apply S. lia.
  - intros w Hw Hn. apply O'; [lia|]. apply O; [lia|done].
Qed.

Lemma ready_done v s x :
  (v < 4)%nat → clk s TICK mod unit v ≠ 0 → ready v s x →
  processed s x ∧ ∀ w, (w < 4)%nat → strict x w.
Proof.
  intros Hv Hm (P & S & O). split; [done|]. intros w Hw.
  destruct (decide (w < v)%nat) as [|Hn]; [auto|]. apply O; [lia|]. intros Hz. apply Hm.
  destruct (decide (v = w)) as [->|]; [done|]. pose proof (unit_pos v). pose proof (unit_pos w).
  rewrite (unit_divides v w) in Hz by lia.
  apply Z.mod_divide in Hz as [k Hk]; [|rewrite <- unit_divides by lia; lia].
  rewrite Hk. rewrite Z.mul_assoc. apply Z.mod_mul. lia.
Qed.

Lemma tick_process_spec s :
  wf s → counted s → 0 < clk s TICK →
  (∀ w, (w < 4)%nat → clk s TICK mod unit w ≠ 0 → strict s w) →
  let x := (tm_process_tick_and_update_timers pick s).1 in
  processed s x ∧ ∀ w, (w < 4)%nat → strict x w.
Proof.
  intros Hwf Hc Hpos Hs. unfold tm_process_tick_and_update_timers.
  assert (ready 0 s s) as R0.
  { split_and!; [by apply processed_refl|lia|]. intros w [_ Hw]. by apply Hs. }
  pose proof (ready_step TICK s s ltac:(unfold TICK; lia) (Z.mod_1_r _) R0) as R1.
  destruct (process_timers pick TICK (clk s TICK) s) as [x1 n1]. cbn [fst] in R1.
  pose proof R1 as ((W1 & _ & (K1 & _) & _) & _).
  destruct (next_unit x1 W1) as (N1 & N2 & N3). rewrite K1 in N1, N2, N3.
  destruct (IS_NXT_SEC_HAPPEND x1) eqn:E1; cbn [andb] in *.
  2: { apply (ready_done 1); [lia| |done]. by intros Hm%N1. }
  pose proof (ready_step SEC s x1 ltac:(unfold SEC; lia) (proj1 N1 eq_refl) R1) as R2.
  destruct (process_timers pick SEC (clk x1 SEC) x1) as [x2 n2]. cbn [fst] in R2.
  pose proof R2 as ((W2 & _ & (K2 & _) & _) & _).
  assert (IS_NXT_MIN_HAPPEND x1 = IS_NXT_MIN_HAPPEND x2 ∧
          IS_NXT_HR_HAPPEND x1 = IS_NXT_HR_HAPPEND x2) as [EM EH].
  { unfold IS_NXT_MIN_HAPPEND, IS_NXT_HR_HAPPEND. by rewrite K1, K2. }
  rewrite EM in N2, N3. rewrite EH in N3.
  destruct (IS_NXT_MIN_HAPPEND x2) eqn:E2; cbn [andb] in *.
  2: { apply (ready_done 2); [lia| |done]. intros Hm. discriminate (proj2 N2 (conj Hm Hpos)). }
  pose proof (ready_step MIN s x2 ltac:(unfold MIN; lia) (proj1 (proj1 N2 eq_refl)) R2) as R3.
  destruct (process_timers pick MIN (clk x2 MIN) x2) as [x3 n3]. cbn [fst] in R3.
  pose proof R3 as ((W3 & _ & (K3 & _) & _) & _).
  assert (IS_NXT_HR_HAPPEND x2 = IS_NXT_HR_HAPPEND x3) as EH'
    by (unfold IS_NXT_HR_HAPPEND; by rewrite K2, K3).
  rewrite EH' in N3. destruct (IS_NXT_HR_HAPPEND x3) eqn:E3.
  2: { apply (ready_done 3); [lia| |done]. intros Hm. discriminate (proj2 N3 (conj Hm Hpos)). }
  pose proof (ready_step HRS s x3 ltac:(unfold HRS; lia) (proj1 (proj1 N3 eq_refl)) R3) as R4.
  destruct (process_timers pick HRS (clk x3 HRS) x3) as [x4 n4]. cbn [fst] in *.
  destruct R4 as (P4 & S4 & _). split; [done|]. intros w Hw. by apply S4.
Qed.

Lemma inc_clk_eq w s : clk (inc_clk w s) w = u32 (clk s w + 1).
Proof. unfold inc_clk. cbn. by rewrite fn_lookup_insert. Qed.

Lemma inc_clk_ne w v s : w ≠ v → clk (inc_clk w s) v = clk s v.
Proof. intros. unfold inc_clk. cbn. by rewrite fn_lookup_insert_ne. Qed.

(** The quotient of the next number. *)
Lemma succ_div T k :
  0 ≤ T → 0 < k → (T + 1) / k = if (T + 1) mod k =? 0 then T / k + 1 else T / k.
Proof.
  intros HT Hk. pose proof (Z.div_mod T k). pose proof (Z.div_mod (T + 1) k).
  pose proof (Z.mod_pos_bound T k Hk). pose proof (Z.mod_pos_bound (T + 1) k Hk).
  destruct (_ =? 0) eqn:E; bool_to_prop; nia.
Qed.

Ltac clk_simpl :=
  repeat first [rewrite inc_clk_eq | rewrite inc_clk_ne by lia | rewrite u32_small by lia].

(** The next tick of the clocks. *)
Lemma advance_clk_spec s (x := advance_clk s) :
  wf s → clk s TICK + 1 < 2 ^ 32 →
  (∀ w, (w < 4)%nat → clk x w = (clk s TICK + 1) / unit w) ∧
  x = s <| clk := clk x |>.
Proof.
  intros Hwf Hno. pose proof (wf_tick s Hwf) as Ht.
  assert (∀ z, z / unit 2 = z / 100 / 60) as D2 by (intros; by rewrite Z.div_div).
  assert (∀ z, z / unit 3 = z / 100 / 60 / 60) as D3 by (intros; by rewrite !Z.div_div).
  pose proof (wf_clk s Hwf 1 ltac:(lia)) as C1. pose proof (wf_clk s Hwf 2 ltac:(lia)) as C2.
  pose proof (wf_clk s Hwf 3 ltac:(lia)) as C3. rewrite D2 in C2. rewrite D3 in C3.
  change (unit 1) with 100 in C1. rewrite <- C1 in C2, C3. rewrite <- C2 in C3.
  assert (0 ≤ clk s 1%nat ≤ clk s TICK ∧ 0 ≤ clk s 2%nat ≤ clk s TICK ∧
    0 ≤ clk s 3%nat ≤ clk s TICK) as (R1 & R2 & R3).
  { assert (∀ z k, 0 ≤ z → 1 < k → 0 ≤ z / k ≤ z) as Hd.
    { intros z k Hz Hk. split; [apply Z.div_pos|apply Z.div_le_upper_bound]; nia. }
    pose proof (Hd (clk s TICK) 100). pose proof (Hd (clk s 1%nat) 60).
    pose proof (Hd (clk s 2%nat) 60). lia. }
  assert (clk x 0%nat = clk s TICK + 1 ∧ clk x 1%nat = (clk s TICK + 1) / 100 ∧
    clk x 2%nat = (clk s TICK + 1) / 100 / 60 ∧ clk x 3%nat = (clk s TICK + 1) / 100 / 60 / 60 ∧
    x = s <| clk := clk x |>) as (X0 & X1 & X2 & X3 & X4).
  { unfold x, advance_clk. cbv zeta. rewrite !inc_clk_eq, !(u32_small (clk s TICK + 1)) by lia.
    rewrite (succ_div (clk s TICK) 100) by lia. rewrite <- C1.
    unfold tm_get_ticks_per_second, TICK, SEC, MIN, HRS in *.
    destruct ((clk s 0%nat + 1) mod 100 =? 0); [|clk_simpl; by rewrite <- C2, <- C3].
    clk_simpl. rewrite (succ_div (clk s 1%nat) 60), <- C2 by lia.
    destruct ((clk s 1%nat + 1) mod 60 =? 0); [|clk_simpl; by rewrite <- C3].
    clk_simpl. rewrite (succ_div (clk s 2%nat) 60), <- C3 by lia.
    destruct ((clk s 2%nat + 1) mod 60 =? 0); by clk_simpl. }
  split; [|done]. intros w Hw. destruct w as [|[|[|[|w]]]]; [| | | |lia].
  - by rewrite X0, Z.div_1_r.
  - done.
  - by rewrite D2.
  - by rewrite D3.
Qed.

(** A state between two ticks. *)
Definition good s : Prop := wf s ∧ counted s ∧ ∀ w, (w < 4)%nat → strict s w.

Lemma process_empty s v k : root s v = [] → process_timers pick v k s = (s, 0).
Proof.
  intros Hr. unfold process_timers. rewrite Hr. cbn. unfold timer_tree_walk. rewrite Hr.
  destruct (pick _) as [a|] eqn:Hp; [|done]. apply pick_some in Hp. by apply elem_of_nil in Hp.
Qed.

(** When [update_times] does not serve the timers, there is nothing to do. *)
Lemma not_pending_idle s :
  counted s → timers_pending_for_service s = false →
  (tm_process_tick_and_update_timers pick s).1 = s.
Proof.
  intros [Hc _] Hp. unfold timers_pending_for_service in Hp.
  assert (root s TICK = [] ∧ (IS_NXT_SEC_HAPPEND s = true → root s SEC = []) ∧
    (IS_NXT_MIN_HAPPEND s = true → root s MIN = []) ∧
    (IS_NXT_HR_HAPPEND s = true → root s HRS = [])) as (R0 & R1 & R2 & R3).
  { destruct (tst (count s)) eqn:Ec; cbn [andb] in Hp.
    - rewrite !orb_false_iff in Hp. destruct Hp as [[[P0 P1] P2] P3].
      assert (∀ l : list nat, (match l with [] => false | _ => true end) = false → l = [])
        as Hl by (by intros []).
      split_and!; [by apply Hl|intros Hb; rewrite Hb in *; by apply Hl..].
    - apply tst_false in Ec. unfold queue_size, TICK, SEC, MIN, HRS in *. rewrite Ec in Hc.
      split_and!; [|intros _..]; apply nil_length_inv; lia. }
  unfold tm_process_tick_and_update_timers. rewrite process_empty by done.
  destruct (IS_NXT_SEC_HAPPEND s); [|done]. rewrite process_empty by auto.
  destruct (IS_NXT_MIN_HAPPEND s); [|done]. rewrite process_empty by auto.
  destruct (IS_NXT_HR_HAPPEND s); [|done]. by rewrite process_empty by auto.
Qed.

(** The due time of an entry lies after the current tick. *)
Lemma strict_due s w a : wf s → a ∈ root s w → strict s w → clk s TICK < due s a.
Proof.
  intros Hwf Ha Hs. specialize (Hs a Ha). destruct (wf_entry s Hwf w a Ha) as (V1 & _ & V3 & _).
  unfold due. rewrite V3. rewrite (wf_clk s Hwf w V1) in Hs.
  pose proof (below_nonneg w (ctime (app s a))). pose proof (unit_pos w).
  pose proof (Z.div_mod (clk s TICK) (unit w)). pose proof (Z.mod_pos_bound (clk s TICK) (unit w)).
  nia.
Qed.

Lemma update_times_spec s (T := clk s TICK) (x := update_times pick s) :
  good s → T + 1 < 2 ^ 32 →
  good x ∧ clk x TICK = T + 1 ∧ anext x = anext s ∧ corrupt x = corrupt s ∧
  (∀ a, a ∈ expd_tmrs s → a ∈ expd_tmrs x) ∧
  (∀ v a, a ∈ root s v →
    if due s a =? T + 1
    then a ∈ expd_tmrs x ∧ idle x (timer (app s a)) ∧ is_running (tmr x (timer (app s a))) = 0
    else ∃ w, a ∈ root x w ∧ due x a = due s a) ∧
  (∀ a, timer (app x a) = timer (app s a)) ∧
  (∀ p, idle s p → idle x p ∧ tmr x p = tmr s p).
Proof.
  intros (Hwf & Hc & Hs) Hno. pose proof (wf_tick s Hwf) as Ht. fold T in Ht.
  destruct (advance_clk_spec s Hwf Hno) as [A1 A2]. fold T in A1.
  set (y := advance_clk s) in *.
  assert (tmr y = tmr s ∧ app y = app s ∧ root y = root s ∧ count y = count s ∧
    anext y = anext s ∧ expd_tmrs y = expd_tmrs s ∧ corrupt y = corrupt s)
    as (B1 & B2 & B3 & B4 & B5 & B6 & B7) by (rewrite A2; done).
  assert (clk y TICK = T + 1) as HT by (unfold TICK; rewrite (A1 0%nat) by lia; apply Z.div_1_r).
  assert (∀ a, due y a = due s a) as Hdue by (intros a; unfold due, wheel_of; by rewrite B1, B2).
  assert (∀ w, (w < 4)%nat → clk y w = if (T + 1) mod unit w =? 0 then clk s w + 1 else clk s w)
    as Hclk.
  { intros w Hw. rewrite A1, succ_div by (lia || (pose proof (unit_pos w); lia)).
    by rewrite (wf_clk s Hwf w Hw). }
  assert (wf y) as Wy.
  { split; rewrite ?HT, ?B3.
    - lia.
    - intros w Hw. by apply A1.
    - apply Hwf.
    - intros w a Ha. destruct (wf_entry s Hwf w a Ha) as (V1 & V2 & V3 & V4 & V5 & V6 & V7).
      specialize (Hs w V1 a Ha). specialize (Hclk w V1).
      unfold entry_ok. rewrite Hdue. unfold wheel_of in *. rewrite B1, B2, B5, Hclk.
      split_and!; try done. destruct (_ =? 0); lia.
    - rewrite B2. apply Hwf. }
  assert (counted y) as Cy by (unfold counted, queue_size in *; by rewrite B4, B3).
  destruct (tick_process_spec y Wy Cy) as (P & S); [lia| |].
  { intros w Hw Hm a Ha. rewrite B3 in Ha. specialize (Hs w Hw a Ha). rewrite HT in Hm.
    rewrite Hclk, B2 by done. by rewrite (proj2 (Z.eqb_neq _ _) Hm). }
  assert (x = (tm_process_tick_and_update_timers pick y).1) as Hx.
  { unfold x, update_times. fold y. destruct (timers_pending_for_service y) eqn:Ep; [done|].
    by rewrite not_pending_idle. }
  rewrite <- Hx in P, S. clearbody x. clear Hx.
  destruct P as (Wx & Cx & Adv & K6). pose proof Adv as (K1 & K2 & K3 & K4 & K5 & K7 & K8).
  assert (∀ p, idle s p → idle y p) as Hid by (unfold idle; by rewrite B2, B3).
  split_and!; try done; [congruence|congruence|congruence|by rewrite <- B6| | |].
  - intros v a Ha. rewrite <- B3 in Ha. rewrite <- Hdue.
    destruct (K7 v a Ha) as [(w & Hw & Hd)|(Hd & He & Hn & Hr)].
    + assert (T + 1 < due x a) as Hlt.
      { rewrite <- HT, <- K1. eapply strict_due; [done|done|]. apply S.
        by destruct (wf_entry x Wx w a Hw). }
      rewrite (proj2 (Z.eqb_neq _ _)) by lia. by exists w.
    + rewrite B2 in Hn, Hr. rewrite Hd, HT, Z.eqb_refl. done.
  - intros a. by rewrite K4, B2.
  - intros p Hp. split; [eapply advances_idle; [exact Adv|auto]|]. rewrite K5 by auto. by rewrite B1.
Qed.

End Tick.

(** ** Starting and stopping *)

(** The state in which [mod_timer] places the new entry. *)
Definition armed (p : nat) (secs : Z) s : wheels :=
  let s := upd_tmr p (λ t, t <| rmt := u32 (secs * tm_get_ticks_per_second) |>) s in
  calc_time (anext s) (new_app p s).

Lemma mod_timer_arms p secs s :
  mod_timer true p secs s =
  INC_TIMER_COUNT (find_tmr_slot_and_place (anext s) (armed p secs s)).
Proof. done. Qed.

Lemma armed_spec p secs s (a := anext s) (x := armed p secs s) :
  clk x = clk s ∧ root x = root s ∧ count x = count s ∧ anext x = S a ∧
  expd_tmrs x = expd_tmrs s ∧ corrupt x = corrupt s ∧
  app x a = mk_app p (set_ctime_of (u32 (secs * 100))) 0 ∧
  (∀ b, b ≠ a → app x b = app s b) ∧ (∀ q, q ≠ p → tmr x q = tmr s q) ∧
  tmr x p = (tmr s p) <| rmt := u32 (secs * 100) |> <| apptimer := Some a |>
                      <| exp := u32 (u32 (secs * 100) + clk s TICK) |>.
Proof.
  subst x. unfold armed, calc_time, new_app. cbv zeta.
  change (anext (upd_tmr p (λ t, t <| rmt := u32 (secs * tm_get_ticks_per_second) |>) s)) with a.
  set (s1 := upd_tmr p _ s). set (s2 := upd_app a _ (s1 <| anext := S a |>)).
  set (s3 := upd_tmr p _ s2).
  assert (app s3 a = mk_app p 0 0) as A3.
  { change (app s3 a) with (app s2 a). subst s2. rewrite app_upd, decide_True by done. done. }
  rewrite A3. cbn [timer].
  assert (tmr s3 p = (tmr s p) <| rmt := u32 (secs * 100) |> <| apptimer := Some a |>) as T3.
  { subst s3. rewrite tmr_upd, decide_True by done. change (tmr s2 p) with (tmr s1 p).
    subst s1. rewrite tmr_upd, decide_True by done. done. }
  rewrite T3. cbn [rmt]. set (s4 := upd_app a _ s3). split_and!; try done.
  - change (app s4 a = mk_app p (set_ctime_of (u32 (secs * 100))) 0). subst s4.
    rewrite app_upd, decide_True, A3 by done. reflexivity.
  - intros b Hb. change (app s4 b = app s b). subst s4. rewrite app_upd, decide_False by done.
    change (app s2 b = app s b). subst s2. rewrite app_upd, decide_False by done. done.
  - intros q Hq. rewrite tmr_upd, decide_False by done. change (tmr s3 q = tmr s q). subst s3.
    rewrite tmr_upd, decide_False by done. change (tmr s1 q = tmr s q). subst s1.
    rewrite tmr_upd, decide_False by done. done.
  - rewrite tmr_upd, decide_True by done. change (tmr s4 p) with (tmr s3 p). rewrite T3. done.
Qed.

(** The slot of [secs] seconds. *)
Lemma slot_of_secs secs :
  1 ≤ secs < 1024 * 3600 →
  ∃ w t, slot_of (set_ctime_of (u32 (secs * 100))) = Some (w, t) ∧ (w < 4)%nat ∧
    0 ≤ set_ctime_of (u32 (secs * 100)) < 2 ^ 32 ∧
    total (set_ctime_of (u32 (secs * 100))) = secs * 100 ∧
    unit w ≤ secs * 100 ∧
    w = if secs <? 60 then 1%nat else if secs <? 3600 then 2%nat else 3%nat.
Proof.
  intros Hs. rewrite u32_small by lia.
  destruct (ctime_digits (secs * 100)) as (Hr & D0 & D1 & D2 & D3 & Ht); [lia|].
  rewrite Z.div_mul in D1 by lia.
  replace (secs * 100 / 6000) with (secs / 60) in D2
    by (change 6000 with (60 * 100); by rewrite Z.div_mul_cancel_r by lia).
  replace (secs * 100 / 360000) with (secs / 3600) in D3
    by (change 360000 with (3600 * 100); by rewrite Z.div_mul_cancel_r by lia).
  pose proof (slot_of_spec _ Hr) as Hsp.
  destruct (slot_of (set_ctime_of (secs * 100))) as [[w t]|] eqn:Hslot.
  2: { rewrite Hsp in Ht. change (total 0) with 0 in Ht. lia. }
  destruct Hsp as (W1 & W2 & W3 & W4 & W5). exists w, t.
  pose proof (below_nonneg w (set_ctime_of (secs * 100))). pose proof (unit_pos w).
  split_and!; [done|done|lia|lia|done|nia|]. destruct W4 as [_ Hz].
  pose proof (Hz 3%nat) as Z3. pose proof (Hz 2%nat) as Z2. pose proof (Hz 1%nat) as Z1.
  rewrite D3 in Z3. rewrite D2 in Z2. rewrite D1 in Z1.
  assert (∀ a b, 0 < b → a = b * (a / b) + a mod b ∧ 0 ≤ a mod b < b) as Hdm.
  { intros a b Hb. split; [apply Z.div_mod; lia|by apply Z.mod_pos_bound]. }
  destruct (Hdm secs 60), (Hdm secs 3600), (Hdm (secs / 60) 60); [lia..|].
  assert (secs / 60 / 60 = secs / 3600) by (by rewrite Z.div_div by lia).
  destruct w as [|[|[|[|w]]]]; [| | | |lia]; rewrite W2, ?D3, ?D2, ?D1, ?D0 in W3;
    destruct (secs <? 60) eqn:E1, (secs <? 3600) eqn:E2; bool_to_prop; try lia; done.
Qed.

(** The wheel a timer of [secs] seconds is first put on, and the length of its unit. *)
Definition first_wheel (secs : Z) : nat :=
  if secs <? 60 then 1%nat else if secs <? 3600 then 2%nat else 3%nat.

Definition granularity (secs : Z) : Z := unit (first_wheel secs).

Lemma counted_inc x n :
  count x = Z.of_nat n → queue_size x = S n → count x + 1 < 2 ^ 32 →
  counted (INC_TIMER_COUNT x).
Proof.
  intros Hc Hq Hno. unfold counted, INC_TIMER_COUNT.
  change (queue_size (x <| count := u32 (count x + 1) |>)) with (queue_size x).
  cbn [count set_fld set_count]. rewrite u32_small by lia. split; [|done]. rewrite Hq. lia.
Qed.

Lemma mod_timer_spec s p secs (a := anext s) (x := mod_timer true p secs s)
    (w := first_wheel secs) :
  good s → idle s p → 1 ≤ secs < 1024 * 3600 → clk s TICK + secs * 100 < 2 ^ 32 →
  count s + 1 < 2 ^ 32 →
  good x ∧ a ∈ root x w ∧ clk x = clk s ∧ timer (app x a) = p ∧
  due x a = clk s TICK - clk s TICK mod unit w + secs * 100 ∧
  expd_tmrs x = expd_tmrs s ∧ corrupt x = corrupt s ∧ apptimer (tmr x p) = Some a ∧
  (∀ v b, b ∈ root x v → b ∈ root s v ∨ b = a) ∧
  (∀ v b, b ∈ root s v → b ∈ root x v ∧ due x b = due s b ∧ timer (app x b) = timer (app s b)).
Proof.
  intros (Hwf & Hc & Hs) Hidle Hsecs Hno Hcount.
  destruct (armed_spec p secs s) as (A1 & A2 & A3 & A4 & A5 & A6 & A7 & A8 & A9 & A10).
  fold a in A4, A7, A8, A10.
  destruct (slot_of_secs secs Hsecs) as (w' & t & Hslot & Hw & Hr & Ht & Hu & Hw').
  assert (w' = w) as -> by done. clear Hw'.
  unfold x. rewrite mod_timer_arms. fold a. set (y := armed p secs s) in *.
  assert (∀ v b, b ∈ root s v → b ≠ a) as Hold.
  { intros v b Hb. destruct (wf_entry s Hwf v b Hb) as (_ & V2 & _). subst a. lia. }
  assert (∀ v b, b ∈ root s v → app y b = app s b ∧ due y b = due s b ∧ wheel_of y b = wheel_of s b
    ∧ tmr y (timer (app s b)) = tmr s (timer (app s b))) as Hsame.
  { intros v b Hb. unfold due, wheel_of. rewrite A8, A9 by eauto. done. }
  assert (unplaced y a) as Un.
  { split_and!; [split; rewrite ?A1, ?A2; try apply Hwf|by rewrite A4; lia|].
    - intros v b Hb. destruct (Hsame v b Hb) as (S1 & S2 & S3 & S4).
      destruct (wf_entry s Hwf v b Hb) as (V1 & V2 & V3 & V4 & V5 & V6 & V7).
      unfold entry_ok. rewrite S1, S2, S3, S4, A1, A4. subst a. split_and!; (done || lia).
    - intros v v' b c Hb Hc'. destruct (Hsame v b Hb) as (-> & _), (Hsame v' c Hc') as (-> & _).
      by apply (wf_unique s Hwf v v').
    - intros v b Hb. rewrite A2 in Hb. split; [eauto|]. rewrite A7, A8 by eauto. by eapply Hidle. }
  pose proof (wf_clk s Hwf w Hw) as Hclk. pose proof (unit_pos w) as Hup.
  assert (clk s w * unit w = clk s TICK - clk s TICK mod unit w) as Hal
    by (rewrite Hclk; pose proof (Z.div_mod (clk s TICK) (unit w)); lia).
  pose proof (Z.mod_pos_bound (clk s TICK) (unit w) Hup).
  assert (ctime (app y a) = set_ctime_of (u32 (secs * 100))) as Hct by (by rewrite A7).
  destruct (place_wf y a w t Un) as (P1 & P2 & P3 & P4 & P5 & P6 & P7 & P8 & P9);
    [by rewrite Hct|by rewrite Hct|rewrite Hct, Ht, A1; lia|].
  rewrite Hct, Ht, A1, Hal in P3. rewrite A1 in P4.
  destruct (place_spec y a w t) as (Q1 & Q2 & Q3 & Q4 & Q5 & Q6 & Q7 & Q8); [by rewrite Hct|].
  set (z := find_tmr_slot_and_place a y) in *. clearbody z.
  assert (∀ v b, b ∈ root s v → app z b = app s b ∧ due z b = due s b) as Hz.
  { intros v b Hb. destruct (Hsame v b Hb) as (S1 & S2 & S3 & S4).
    assert (timer (app s b) ≠ p) as Hp by eauto.
    unfold due, wheel_of. rewrite (P7 b), S1, P8, A9 by (rewrite ?A7; eauto). done. }
  split_and!.
  - split_and!.
    + split; apply P1.
    + apply (counted_inc z (queue_size s)); [rewrite Q2, A3; apply Hc| |by rewrite Q2, A3].
      rewrite P5. unfold queue_size. by rewrite A2.
    + intros v Hv b. change (b ∈ root z v → clk z v < rt (app z b)).
      intros [Hb|[-> ->]]%P6; [|by rewrite Q1, A1]. rewrite A2 in Hb.
      destruct (Hz v b Hb) as [-> _]. rewrite Q1, A1. by apply Hs.
  - done.
  - change (clk z = clk s). by rewrite Q1, A1.
  - change (timer (app z a) = p). rewrite P9, A7. done.
  - done.
  - change (expd_tmrs z = expd_tmrs s). by rewrite Q4, A5.
  - change (corrupt z = corrupt s). by rewrite Q5, A6.
  - change (apptimer (tmr z p) = Some a). rewrite Q7, A7. cbn [timer].
    rewrite decide_True, A10 by done. done.
  - intros v b. change (b ∈ root z v → b ∈ root s v ∨ b = a). rewrite P6, A2. tauto.
  - intros v b Hb. change (b ∈ root z v ∧ due z b = due s b ∧ timer (app z b) = timer (app s b)).
    destruct (Hz v b Hb) as [-> ->]. rewrite P6, A2. auto.
Qed.

(** Stopping a running timer takes its entry off its wheel. *)
Lemma del_timer_spec s p a w (x := del_timer p s) :
  good s → a ∈ root s w → timer (app s a) = p → apptimer (tmr s p) = Some a →
  good x ∧ idle x p ∧ timer_pending p x = false ∧ corrupt x = corrupt s ∧ clk x = clk s ∧
  expd_tmrs x = expd_tmrs s ∧
  (∀ v b, b ∈ root x v ↔ b ∈ root s v ∧ b ≠ a) ∧
  (∀ v b, b ∈ root x v → due x b = due s b).
Proof.
  intros (Hwf & [Hc1 Hc2] & Hs) Ha Hp Happ.
  destruct (wf_entry s Hwf w a Ha) as (V1 & V2 & V3 & V4 & V5 & V6 & V7). rewrite Hp in V4.
  assert (wheel (tmr s p) = w) as Hwp by (rewrite <- Hp; exact V3).
  assert (x = DEC_TIMER_COUNT (upd_tmr p (λ t, t <| is_running := 0 |>)
    (s <| root := <[w := filter (λ b, b ≠ a) (root s w)]> (root s) |>))) as Hx.
  { unfold x, del_timer, stop_timer. rewrite Happ, V4. cbn [tst Z.eqb negb].
    rewrite Hwp. unfold timer_del. by rewrite bool_decide_eq_true_2. }
  assert (∀ v, root x v = if decide (w = v) then filter (λ b, b ≠ a) (root s w) else root s v)
    as X1 by (rewrite Hx; done).
  assert (∀ q, tmr x q = if decide (p = q) then (tmr s p) <| is_running := 0 |> else tmr s q) as X2.
  { intros q. rewrite Hx. etransitivity; [apply (tmr_upd p (λ t, t <| is_running := 0 |>) (_ <| root := _ |>))|].
    done. }
  assert (app x = app s ∧ clk x = clk s ∧ anext x = anext s ∧ expd_tmrs x = expd_tmrs s ∧
    corrupt x = corrupt s ∧ count x = u32 (count s - 1)) as (X3 & X4 & X5 & X6 & X7 & X8)
    by (rewrite Hx; done).
  clearbody x. clear Hx.
  assert (∀ v b, b ∈ root x v ↔ b ∈ root s v ∧ b ≠ a) as Hin.
  { intros v b. rewrite X1. destruct (decide (w = v)) as [<-|Hne].
    - rewrite list_elem_of_filter. tauto.
    - split; [|tauto]. intros Hb. split; [done|]. intros ->.
      destruct (wf_entry s Hwf v a Hb) as (_ & _ & W3 & _). congruence. }
  assert (∀ v b, b ∈ root s v → b ≠ a → timer (app s b) ≠ p) as Hoth.
  { intros v b Hb Hne He. apply Hne. apply (wf_unique s Hwf v w); congruence. }
  assert (∀ v b, b ∈ root x v → due x b = due s b ∧ entry_ok x v b) as Hent.
  { intros v b [Hb Hne]%Hin. pose proof (wf_entry s Hwf v b Hb) as He.
    unfold entry_ok, due, wheel_of in *. rewrite X3, X4, X5, X2.
    rewrite decide_False by (apply not_eq_sym; by eapply Hoth). done. }
  split_and!; try done.
  - split_and!; [split| |].
    + rewrite X4. apply Hwf.
    + rewrite X4. apply Hwf.
    + intros v. rewrite X1. destruct (decide (w = v)); [apply list.NoDup_filter|]; apply Hwf.
    + intros v b Hb. by apply Hent.
    + intros v v' b c [Hb _]%Hin [Hc _]%Hin. rewrite X3. by apply (wf_unique s Hwf v v').
    + pose proof (filter_ne_length a (root s w) (wf_nodup s Hwf w) Ha) as Hlen.
      assert (S (queue_size x) = queue_size s) as Hq.
      { unfold queue_size. rewrite !X1. destruct w as [|[|[|[|w]]]]; repeat case_decide; lia. }
      unfold counted. rewrite X8, u32_small by lia. lia.
    + intros v Hv b [Hb _]%Hin. rewrite X4, X3. by apply Hs.
  - intros v b [Hb Hne]%Hin. rewrite X3. by eapply Hoth.
  - unfold timer_pending. rewrite X2. by rewrite decide_True.
  - intros v b Hb. exact (proj1 (Hent v b Hb)).
Qed.

(** ** Runs of the clock *)

Section Run.
Variable pick : list nat → option nat.
Hypothesis pick_none : ∀ l, pick l = None → l = [].
Hypothesis pick_some : ∀ l a, pick l = Some a → a ∈ l.

(** The state after [n] ticks. *)
Definition ticks (n : nat) s : wheels := Nat.iter n (update_times pick) s.

Lemma ticks_good n s :
  good s → clk s TICK + Z.of_nat n < 2 ^ 32 →
  good (ticks n s) ∧ clk (ticks n s) TICK = clk s TICK + Z.of_nat n ∧
  corrupt (ticks n s) = corrupt s ∧ (∀ a, a ∈ expd_tmrs s → a ∈ expd_tmrs (ticks n s)) ∧
  ∀ p, idle s p → idle (ticks n s) p ∧ tmr (ticks n s) p = tmr s p.
Proof.
  intros Hg. induction n as [|n IH]; intros Hno; [rewrite Z.add_0_r; by split_and!|].
  destruct IH as (I1 & I2 & I3 & I4 & I5); [lia|]. 
  change (ticks (S n) s) with (update_times pick (ticks n s)). set (y := ticks n s) in *. clearbody y.
  destruct (update_times_spec pick pick_none pick_some y I1)
    as (U1 & U2 & U3 & U4 & U5 & U6 & U7 & U8); [lia|].
  split_and!; [done|rewrite U2; lia|congruence|auto|].
  intros p Hp. destruct (I5 p Hp) as [J1 J2]. destruct (U8 p J1) as [K1 K2].
  split; [done|congruence].
Qed.

(** An entry through a run. *)
Lemma ticks_entry n s a v (p := timer (app s a)) :
  good s → clk s TICK + Z.of_nat n < 2 ^ 32 → a ∈ root s v →
  let x := ticks n s in
  if clk s TICK + Z.of_nat n <? due s a
  then (∃ w, a ∈ root x w) ∧ due x a = due s a ∧ timer (app x a) = p
  else a ∈ expd_tmrs x ∧ idle x p ∧ is_running (tmr x p) = 0.
Proof.
  intros Hg Hno Ha. cbv zeta. pose proof Hg as (Hwf & _ & Hs).
  induction n as [|n IH].
  { pose proof (strict_due s v a Hwf Ha) as Hlt. rewrite Z.add_0_r.
    rewrite (proj2 (Z.ltb_lt _ _)); [by split_and!; eauto|].
    apply Hlt, Hs. by destruct (wf_entry s Hwf v a Ha). }
  specialize (IH ltac:(lia)).
  destruct (ticks_good n s Hg) as (G1 & G2 & _ & _ & _); [lia|].
  change (ticks (S n) s) with (update_times pick (ticks n s)). set (y := ticks n s) in *. clearbody y.
  destruct (update_times_spec pick pick_none pick_some y G1)
    as (U1 & U2 & U3 & U4 & U5 & U6 & U7 & U8); [lia|].
  destruct (_ + Z.of_nat n <? due s a) eqn:E1.
  - destruct IH as ([w Hw] & Hd & Ht). specialize (U6 w a Hw).
    rewrite Hd, Ht, G2 in U6. destruct (_ =? _) eqn:E2; bool_to_prop.
    + rewrite (proj2 (Z.ltb_ge _ _)) by lia. done.
    + rewrite (proj2 (Z.ltb_lt _ _)) by lia. destruct U6 as (w' & Hw' & Hd').
      split_and!; [eauto|done|]. rewrite U7. done.
  - bool_to_prop. rewrite (proj2 (Z.ltb_ge _ _)) by lia. destruct IH as (He & Hi & Hr).
    destruct (U8 p Hi) as [K1 K2]. split_and!; [auto|done|congruence].
Qed.

(** C4: A timer that is set to [secs] seconds at tick [T], when it is not running,
    is pending until tick [T - T mod g + 100 * secs] and expires exactly then, where
    [g] is the unit of the wheel it is put on: a second for less than a minute, a minute
    for less than an hour, an hour otherwise.  So it is never late, and early by the
    part of the current unit that has already passed. *)
Theorem timer_expires_at n s p secs (T := clk s TICK)
    (D := T - T mod granularity secs + secs * 100) :
  good s → idle s p → 1 ≤ secs < 1024 * 3600 → count s + 1 < 2 ^ 32 →
  T + secs * 100 < 2 ^ 32 → T + Z.of_nat n < 2 ^ 32 →
  let x := ticks n (mod_timer true p secs s) in
  T < D ≤ T + secs * 100 ∧
  (T + Z.of_nat n < D → timer_pending p x = true) ∧
  (D ≤ T + Z.of_nat n → timer_pending p x = false ∧ anext s ∈ expd_tmrs x).
Proof.
  intros Hg Hidle Hsecs Hc Hno1 Hno2. cbv zeta.
  destruct (mod_timer_spec s p secs Hg Hidle Hsecs Hno1 Hc)
    as (M1 & M2 & M3 & M4 & M5 & _). fold T in M5. fold (granularity secs) in M5. fold D in M5.
  set (y := mod_timer true p secs s) in *. clearbody y.
  pose proof M1 as (Wy & _ & Sy).
  pose proof (strict_due y _ _ Wy M2 (Sy _ (proj1 (wf_entry y Wy _ _ M2)))) as Hlt.
  rewrite M3, M5 in Hlt. fold T in Hlt.
  assert (clk y TICK + Z.of_nat n < 2 ^ 32) as Hno by (by rewrite M3).
  pose proof (ticks_entry n y (anext s) _ M1 Hno M2) as He. cbv zeta in He.
  destruct (ticks_good n y M1 Hno) as (G1 & _).
  rewrite M4, M5, M3 in He. fold T in He.
  pose proof (Z.mod_pos_bound T (granularity secs) (unit_pos _)).
  split_and!; [done|lia| |].
  - intros Hn. rewrite (proj2 (Z.ltb_lt _ _) Hn) in He. destruct He as ([w Hw] & _ & Ht).
    destruct G1 as (Wx & _). destruct (wf_entry _ Wx w _ Hw) as (_ & _ & _ & V4 & _).
    rewrite Ht in V4. unfold timer_pending. by rewrite V4.
  - intros Hn. rewrite (proj2 (Z.ltb_ge _ _) Hn) in He. destruct He as (E1 & _ & E3).
    unfold timer_pending. by rewrite E3.
Qed.


End Run.
