(* ===== verification/TimerProps.v ===== *)
(** * The timer wheels as the timer service of the protocols

    The wheels implement [TimerService] and satisfy [TimerLaws]; the file also shows how
    starting a timer that already runs, and starting one from its own handler,
    go wrong. *)

From S2P Require Import Prelude TimerIface Timer TimerWheel.

Import Wheel.

(** ** The service *)

#[export] Instance wheel_service : TimerService wheels := {
  ts_setup := setup_timer true;
  ts_mod h v s := mod_timer true h v s;
  ts_del := del_timer;
  ts_pending := timer_pending;
  ts_remaining := timer_get_remaining_time
}.

Lemma mod_timer_tmr p secs s :
  1 ≤ secs < 1024 * 3600 →
  (∀ q, q ≠ p → tmr (mod_timer true p secs s) q = tmr s q) ∧
  is_running (tmr (mod_timer true p secs s) p) = 1 ∧
  tflags (tmr (mod_timer true p secs s) p) = tflags (tmr s p).
Proof.
  intros Hs. rewrite mod_timer_arms.
  destruct (armed_spec p secs s) as (_ & _ & _ & _ & _ & _ & A7 & _ & A9 & A10).
  destruct (slot_of_secs secs Hs) as (w & t & Hslot & _).
  destruct (place_spec (armed p secs s) (anext s) w t) as (_ & _ & _ & _ & _ & _ & Q7 & _);
    [by rewrite A7|]. rewrite A7 in Q7. cbn [timer] in Q7. split_and!.
  - intros q Hq. etransitivity; [apply Q7|]. rewrite decide_False by done. by apply A9.
  - etransitivity; [apply f_equal, Q7|]. by rewrite decide_True.
  - etransitivity; [apply f_equal, Q7|]. rewrite decide_True by done.
    change (tflags (tmr (armed p secs s) p) = tflags (tmr s p)). by rewrite A10.
Qed.

Lemma mod_timer_other p q secs s :
  q ≠ p → is_running (tmr (mod_timer true p secs s) q) = is_running (tmr s q).
Proof.
  intros Hq. rewrite mod_timer_arms.
  destruct (armed_spec p secs s) as (_ & _ & _ & _ & _ & _ & A7 & _ & A9 & _).
  destruct (slot_of (ctime (app (armed p secs s) (anext s)))) as [[w t]|] eqn:Hslot.
  - destruct (place_spec _ _ w t Hslot) as (_ & _ & _ & _ & _ & _ & Q7 & _).
    rewrite A7 in Q7. cbn [timer] in Q7. etransitivity; [apply f_equal, Q7|].
    rewrite decide_False by done. by rewrite A9.
  - unfold find_tmr_slot_and_place. rewrite Hslot.
    change (is_running (tmr (armed p secs s) q) = is_running (tmr s q)). by rewrite A9.
Qed.

#[export] Instance wheel_laws : TimerLaws wheels.
Proof.
  split; intros; unfold ts_pending, ts_mod, wheel_service, timer_pending.
  - destruct (mod_timer_tmr h v t) as (_ & -> & _); done.
  - by rewrite mod_timer_other.
Qed.

(** ** A run *)

(** The state after [init_timer_mgr]. *)
Definition wheels0 : wheels :=
  mk_wheels (λ _, 0) (λ _, timer0) (λ _, mk_app 0 0 0) (λ _, []) 0 0 0 0 [] false.

Definition first_found (l : list nat) : option nat := head l.

Lemma first_found_none l : first_found l = None → l = [].
Proof. by destruct l. Qed.

Lemma first_found_some l a : first_found l = Some a → a ∈ l.
Proof. destruct l; [done|]. intros [= ->]. apply elem_of_cons. by left. Qed.

(** At the start of the clock, with no timer running. *)
Lemma good_start s :
  (∀ w, clk s w = 0) → (∀ w, root s w = []) → count s = 0 → good s ∧ ∀ p, idle s p.
Proof.
  intros Hc Hr Hn. assert (∀ w a, a ∉ root s w) as He.
  { intros w a. rewrite Hr. apply not_elem_of_nil. }
  split; [|intros p w b Hb; by apply He in Hb].
  split_and!; [split|split|intros w _ a Ha; by apply He in Ha].
  - rewrite Hc. lia.
  - intros w _. rewrite !Hc. symmetry. apply Z.div_0_l. pose proof (unit_pos w). lia.
  - intros w. rewrite Hr. apply NoDup_nil_2.
  - intros w a Ha. by apply He in Ha.
  - intros w v a b Ha. by apply He in Ha.
  - unfold queue_size. by rewrite !Hr, Hn.
  - by rewrite Hn.
Qed.

(** The state with one timer, created by [setup_timer]. *)
Definition wheels1 : wheels := (setup_timer true wheels0).2.

Lemma wheels1_good : good wheels1 ∧ ∀ p, idle wheels1 p.
Proof. by apply good_start. Qed.

Lemma ctime_roundtrip_witness : GET_HRS (set_ctime_of 1234567) = 3 ∧ total (set_ctime_of 1234567) = 1234567.
Proof.
  destruct (ctime_roundtrip 1234567) as (_ & _ & _ & -> & ->); [lia|]. by split.
Defined.

Lemma timer_expires_at_witness :
  let x := ticks first_found 500 (mod_timer true 0 5 wheels1) in
  timer_pending 0 x = false ∧ 0%nat ∈ expd_tmrs x.
Proof.
  destruct (timer_expires_at first_found first_found_none first_found_some 500 wheels1 0 5)
    as (_ & _ & Hx); [apply wheels1_good|apply wheels1_good|lia|by vm_compute..|].
  apply Hx. by vm_compute.
Defined.


(** ** Restarting a timer *)

(** Setting a timer that already runs does not cancel its first entry: a
    timer set to two seconds, and again to two seconds one second later, expires when the
    first two seconds are over, although [timer_get_remaining_time] reports more than
    one second until then. *)
Theorem restarted_timer_expires_early :
  let s := mod_timer true 0 2 (ticks first_found 100 (mod_timer true 0 2 wheels1)) in
  let before := ticks first_found 99 s in
  let x := ticks first_found 100 s in
  timer_pending 0 before = true ∧ timer_get_remaining_time 0 before = 101 ∧
  timer_pending 0 x = false ∧ expd_tmrs x = [0%nat] ∧ timer (app x 0%nat) = 0%nat.
Proof. by vm_compute. Qed.

(** A timer that its own handler starts again can no longer be deleted:
    [process_expd_timers] forgets the new entry after the handler has returned, so the
    timer is pending and [del_timer] does nothing. *)
Theorem rearmed_timer_not_deletable s a secs (p := timer (app s a)) :
  expd_tmrs s = [a] → tflags (tmr s p) = TIMER_FOREVER → 1 ≤ secs < 1024 * 3600 →
  let x := process_expd_timers true (λ q s, mod_timer true q secs s) s in
  timer_pending p x = true ∧ del_timer p x = x.
Proof.
  intros He Hf Hs. cbv zeta. unfold process_expd_timers. rewrite He. cbn [foldl].
  unfold process_expd_step. cbv zeta. fold p.
  destruct (mod_timer_tmr p secs s Hs) as (_ & M1 & M2).
  set (y := mod_timer true p secs s) in *. clearbody y.
  set (z := upd_tmr p _ _).
  assert (tmr z p = (tmr y p) <| apptimer := None |>) as Hz.
  { subst z. rewrite tmr_upd, decide_True by done. done. }
  assert (tflags (tmr z p) = TIMER_FOREVER) as -> by (rewrite Hz; cbn; congruence).
  change (tst (TIMER_FOREVER &&& TIMER_ONCE)) with false.
  change (tst (TIMER_FOREVER &&& TIMER_REPEAT)) with false. cbv match.
  unfold timer_pending, del_timer. rewrite Hz. cbn. by rewrite M1.
Qed.

Lemma rearmed_timer_not_deletable_witness :
  let s := ticks first_found 100 (mod_timer true 0 1 wheels1) in
  timer_pending 0 (process_expd_timers true (λ q s, mod_timer true q 2 s) s) = true.
Proof.
  refine (proj1 (rearmed_timer_not_deletable (ticks first_found 100 (mod_timer true 0 1 wheels1))
    0 2 _ _ _)); [by vm_compute|by vm_compute|lia].
Defined.
