(* ===== verification/RbTree.v ===== *)
(** * Red-black trees in memory

    The operations of src/src/lib/rbtree.c and the inline functions of
    src/src/inc/rbtree.h, on a memory of nodes.  A node is at an address, a multiple
    of four that is not [NULL]; its parent and its colour share one word.  An access
    to an address without a node makes an operation fail, and so does the end of the
    fuel of a loop, so that a theorem that says that an operation succeeds is a
    theorem of memory safety and of termination. *)

From stdpp Require Import gmap.
From S2P Require Import Prelude.

(** ** Memory *)

Record rb_node := mk_rb_node { rb_parent_color : Z; rb_right : Z; rb_left : Z }.

#[global] Instance set_rb_parent_color : Settable rb_parent_color :=
  λ v n, mk_rb_node v (rb_right n) (rb_left n).
#[global] Instance set_rb_right : Settable rb_right :=
  λ v n, mk_rb_node (rb_parent_color n) v (rb_left n).
#[global] Instance set_rb_left : Settable rb_left :=
  λ v n, mk_rb_node (rb_parent_color n) (rb_right n) v.

(** The nodes by address, and the pointer of the [struct rb_root]. *)
Record rbmem := mk_rbmem { rb_nodes : gmap Z rb_node; rb_root : Z }.

Definition set_node (p : Z) (n : rb_node) (m : rbmem) : rbmem :=
  mk_rbmem (<[p := n]> (rb_nodes m)) (rb_root m).

(** ** Operations on the memory *)

Definition rbM (A : Type) : Type := rbmem → option (A * rbmem).

#[global] Instance rbM_ret : MRet rbM := λ A a m, Some (a, m).
#[global] Instance rbM_bind : MBind rbM := λ A B f x m,
  match x m with Some (a, m') => f a m' | None => None end.

Definition rb_fail {A} : rbM A := λ _, None.

(** Read and write a field of the node at [p]. *)
Definition rd {A} (f : rb_node → A) (p : Z) : rbM A := λ m,
  match rb_nodes m !! p with Some n => Some (f n, m) | None => None end.

Definition wr (f : rb_node → rb_node) (p : Z) : rbM unit := λ m,
  match rb_nodes m !! p with Some n => Some (tt, set_node p (f n) m) | None => None end.

Definition get_root : rbM Z := λ m, Some (rb_root m, m).
Definition set_root (p : Z) : rbM unit := λ m, Some (tt, mk_rbmem (rb_nodes m) p).

Definition set_left (p v : Z) : rbM unit := wr (λ n, n <| rb_left := v |>) p.
Definition set_right (p v : Z) : rbM unit := wr (λ n, n <| rb_right := v |>) p.

(** ** Parent and colour *)

Definition RB_RED := 0.
Definition RB_BLACK := 1.

Definition parent_of (n : rb_node) : Z := rb_parent_color n &&& Z.lnot 3.
Definition color_of (n : rb_node) : Z := rb_parent_color n &&& 1.

Definition rb_parent (r : Z) : rbM Z := rd parent_of r.
Definition rb_color (r : Z) : rbM Z := rd color_of r.
Definition rb_is_red (r : Z) : rbM bool := rd (λ n, negb (tst (color_of n))) r.
Definition rb_is_black (r : Z) : rbM bool := rd (λ n, tst (color_of n)) r.

Definition rb_set_red (r : Z) : rbM unit :=
  wr (λ n, n <| rb_parent_color := rb_parent_color n &&& Z.lnot 1 |>) r.
Definition rb_set_black (r : Z) : rbM unit :=
  wr (λ n, n <| rb_parent_color := rb_parent_color n ||| 1 |>) r.

Definition rb_set_parent (rb p : Z) : rbM unit :=
  wr (λ n, n <| rb_parent_color := (rb_parent_color n &&& 3) ||| p |>) rb.
Definition rb_set_color (rb color : Z) : rbM unit :=
  wr (λ n, n <| rb_parent_color := (rb_parent_color n &&& Z.lnot 1) ||| color |>) rb.

(** [!p || rb_is_black (p)] *)
Definition null_or_black (p : Z) : rbM bool :=
  if p =? 0 then mret true else rb_is_black p.

(** ** Rotations *)

Definition __rb_rotate_left (node : Z) : rbM unit :=
  right ← rd rb_right node;
  parent ← rb_parent node;
  x ← rd rb_left right;
  set_right node x;;
  (if x =? 0 then mret tt else rb_set_parent x node);;
  set_left right node;;
  rb_set_parent right parent;;
  (if parent =? 0 then set_root right
   else
     pl ← rd rb_left parent;
     if node =? pl then set_left parent right else set_right parent right);;
  rb_set_parent node right.

Definition __rb_rotate_right (node : Z) : rbM unit :=
  left ← rd rb_left node;
  parent ← rb_parent node;
  x ← rd rb_right left;
  set_left node x;;
  (if x =? 0 then mret tt else rb_set_parent x node);;
  set_right left node;;
  rb_set_parent left parent;;
  (if parent =? 0 then set_root left
   else
     pr ← rd rb_right parent;
     if node =? pr then set_right parent left else set_left parent left);;
  rb_set_parent node left.

(** ** Insertion *)

(** A node is linked below [parent], at its left or right pointer, or at the root. *)
Inductive rb_link := link_root | link_left (parent : Z) | link_right (parent : Z).

Definition set_link (l : rb_link) (v : Z) : rbM unit :=
  match l with
  | link_root => set_root v
  | link_left p => set_left p v
  | link_right p => set_right p v
  end.

Definition get_link (l : rb_link) : rbM Z :=
  match l with
  | link_root => get_root
  | link_left p => rd rb_left p
  | link_right p => rd rb_right p
  end.

Definition rb_link_node (node parent : Z) (link : rb_link) : rbM unit :=
  wr (λ n, n <| rb_parent_color := parent |>) node;;
  set_right node 0;;
  set_left node 0;;
  set_link link node.

Fixpoint rb_insert_color_loop (fuel : nat) (node : Z) : rbM unit :=
  match fuel with
  | O => rb_fail
  | S fuel =>
    parent ← rb_parent node;
    if parent =? 0 then mret tt else
    red ← rb_is_red parent;
    if negb red then mret tt else
    gparent ← rb_parent parent;
    gleft ← rd rb_left gparent;
    if parent =? gleft then
      uncle ← rd rb_right gparent;
      ured ← (if uncle =? 0 then mret false else rb_is_red uncle);
      if (ured : bool) then
        rb_set_black uncle;;
        rb_set_black parent;;
        rb_set_red gparent;;
        rb_insert_color_loop fuel gparent
      else
        pr ← rd rb_right parent;
        '(parent, node) ←
          (if pr =? node then __rb_rotate_left parent;; mret (node, parent)
           else mret (parent, node));
        rb_set_black parent;;
        rb_set_red gparent;;
        __rb_rotate_right gparent;;
        rb_insert_color_loop fuel node
    else
      uncle ← rd rb_left gparent;
      ured ← (if uncle =? 0 then mret false else rb_is_red uncle);
      if (ured : bool) then
        rb_set_black uncle;;
        rb_set_black parent;;
        rb_set_red gparent;;
        rb_insert_color_loop fuel gparent
      else
        pl ← rd rb_left parent;
        '(parent, node) ←
          (if pl =? node then __rb_rotate_right parent;; mret (node, parent)
           else mret (parent, node));
        rb_set_black parent;;
        rb_set_red gparent;;
        __rb_rotate_left gparent;;
        rb_insert_color_loop fuel node
  end.

Definition rb_insert_color (fuel : nat) (node : Z) : rbM unit :=
  rb_insert_color_loop fuel node;;
  root ← get_root;
  rb_set_black root.

(** ** Erasure *)

(** The result of the loop is the last value of [node]. *)
Fixpoint rb_erase_color_loop (fuel : nat) (node parent : Z) : rbM Z :=
  match fuel with
  | O => rb_fail
  | S fuel =>
    black ← null_or_black node;
    root ← get_root;
    if negb (black && negb (node =? root)) then mret node else
    pleft ← rd rb_left parent;
    if pleft =? node then
      other ← rd rb_right parent;
      red ← rb_is_red other;
      other ←
        (if (red : bool) then
           rb_set_black other;;
           rb_set_red parent;;
           __rb_rotate_left parent;;
           rd rb_right parent
         else mret other);
      ol ← rd rb_left other;
      lblack ← null_or_black ol;
      or ← rd rb_right other;
      rblack ← (if (lblack : bool) then null_or_black or else mret false);
      if (rblack : bool) then
        rb_set_red other;;
        gparent ← rb_parent parent;
        rb_erase_color_loop fuel parent gparent
      else
        or ← rd rb_right other;
        rblack ← null_or_black or;
        other ←
          (if (rblack : bool) then
             ol ← rd rb_left other;
             rb_set_black ol;;
             rb_set_red other;;
             __rb_rotate_right other;;
             rd rb_right parent
           else mret other);
        c ← rb_color parent;
        rb_set_color other c;;
        rb_set_black parent;;
        or ← rd rb_right other;
        rb_set_black or;;
        __rb_rotate_left parent;;
        get_root
    else
      other ← rd rb_left parent;
      red ← rb_is_red other;
      other ←
        (if (red : bool) then
           rb_set_black other;;
           rb_set_red parent;;
           __rb_rotate_right parent;;
           rd rb_left parent
         else mret other);
      ol ← rd rb_left other;
      lblack ← null_or_black ol;
      or ← rd rb_right other;
      rblack ← (if (lblack : bool) then null_or_black or else mret false);
      if (rblack : bool) then
        rb_set_red other;;
        gparent ← rb_parent parent;
        rb_erase_color_loop fuel parent gparent
      else
        ol ← rd rb_left other;
        lblack ← null_or_black ol;
        other ←
          (if (lblack : bool) then
             or ← rd rb_right other;
             rb_set_black or;;
             rb_set_red other;;
             __rb_rotate_left other;;
             rd rb_left parent
           else mret other);
        c ← rb_color parent;
        rb_set_color other c;;
        rb_set_black parent;;
        ol ← rd rb_left other;
        rb_set_black ol;;
        __rb_rotate_right parent;;
        get_root
  end.

Definition __rb_erase_color (fuel : nat) (node parent : Z) : rbM unit :=
  node ← rb_erase_color_loop fuel node parent;
  if node =? 0 then mret tt else rb_set_black node.

(** [while ((left = node->rb_left) != NULL) node = left;] and its mirror image. *)
Fixpoint leftmost (fuel : nat) (node : Z) : rbM Z :=
  match fuel with
  | O => rb_fail
  | S fuel => left ← rd rb_left node; if left =? 0 then mret node else leftmost fuel left
  end.

Fixpoint rightmost (fuel : nat) (node : Z) : rbM Z :=
  match fuel with
  | O => rb_fail
  | S fuel => right ← rd rb_right node; if right =? 0 then mret node else rightmost fuel right
  end.

(** The child pointer of [parent] that is [old], or the root, becomes [new]. *)
Definition replace_child (old new parent : Z) : rbM unit :=
  if parent =? 0 then set_root new
  else
    pl ← rd rb_left parent;
    if pl =? old then set_left parent new else set_right parent new.

(** A node with one child at most. *)
Definition rb_erase_one (fuel : nat) (node child : Z) : rbM unit :=
  parent ← rb_parent node;
  color ← rb_color node;
  (if child =? 0 then mret tt else rb_set_parent child parent);;
  replace_child node child parent;;
  if color =? RB_BLACK then __rb_erase_color fuel child parent else mret tt.

(** A node with two children: its successor takes its place. *)
Definition rb_erase_two (fuel : nat) (old : Z) : rbM unit :=
  right ← rd rb_right old;
  node ← leftmost fuel right;
  oparent ← rb_parent old;
  replace_child old node oparent;;
  child ← rd rb_right node;
  parent ← rb_parent node;
  color ← rb_color node;
  parent ←
    (if parent =? old then mret node
     else
       (if child =? 0 then mret tt else rb_set_parent child parent);;
       set_left parent child;;
       oright ← rd rb_right old;
       set_right node oright;;
       rb_set_parent oright node;;
       mret parent);
  pc ← rd rb_parent_color old;
  wr (λ n, n <| rb_parent_color := pc |>) node;;
  oleft ← rd rb_left old;
  set_left node oleft;;
  rb_set_parent oleft node;;
  if color =? RB_BLACK then __rb_erase_color fuel child parent else mret tt.

Definition rb_erase (fuel : nat) (node : Z) : rbM unit :=
  left ← rd rb_left node;
  if left =? 0 then child ← rd rb_right node; rb_erase_one fuel node child
  else
    right ← rd rb_right node;
    if right =? 0 then rb_erase_one fuel node left
    else rb_erase_two fuel node.

(** ** Traversal *)

Definition rb_first (fuel : nat) : rbM Z :=
  n ← get_root; if n =? 0 then mret 0 else leftmost fuel n.

Definition rb_last (fuel : nat) : rbM Z :=
  n ← get_root; if n =? 0 then mret 0 else rightmost fuel n.

Fixpoint climb_right (fuel : nat) (node : Z) : rbM Z :=
  match fuel with
  | O => rb_fail
  | S fuel =>
      parent ← rb_parent node;
      if parent =? 0 then mret 0
      else
        pr ← rd rb_right parent;
        if node =? pr then climb_right fuel parent else mret parent
  end.

Fixpoint climb_left (fuel : nat) (node : Z) : rbM Z :=
  match fuel with
  | O => rb_fail
  | S fuel =>
      parent ← rb_parent node;
      if parent =? 0 then mret 0
      else
        pl ← rd rb_left parent;
        if node =? pl then climb_left fuel parent else mret parent
  end.

Definition rb_next (fuel : nat) (node : Z) : rbM Z :=
  parent ← rb_parent node;
  if parent =? node then mret 0
  else
    right ← rd rb_right node;
    if right =? 0 then climb_right fuel node else leftmost fuel right.

Definition rb_prev (fuel : nat) (node : Z) : rbM Z :=
  parent ← rb_parent node;
  if parent =? node then mret 0
  else
    left ← rd rb_left node;
    if left =? 0 then climb_left fuel node else rightmost fuel left.

Definition rb_replace_node (victim new : Z) : rbM unit :=
  parent ← rb_parent victim;
  (if parent =? 0 then set_root new
   else
     pl ← rd rb_left parent;
     if victim =? pl then set_left parent new else set_right parent new);;
  left ← rd rb_left victim;
  (if left =? 0 then mret tt else rb_set_parent left new);;
  right ← rd rb_right victim;
  (if right =? 0 then mret tt else rb_set_parent right new);;
  v ← rd id victim;
  wr (λ _, v) new.

(** [RB_CLEAR_NODE] *)
Definition rb_clear_node (node : Z) : rbM unit := rb_set_parent node node.
