(* ===== verification/RbShape.v ===== *)
(** * Red-black trees: the trees a memory represents

    The inductive trees that the nodes in memory form, the contexts that lead from a
    subtree to the root, the predicate [rep] that relates the two, and for each
    elementary operation of the C code what it does to the represented tree. *)

From stdpp Require Import gmap.
From S2P Require Import Prelude RbTree.

(** ** Trees and contexts *)

Inductive color := Red | Black.

#[global] Instance color_eq_dec : EqDecision color.
Proof. solve_decision. Defined.

Inductive tree := Leaf | Node (c : color) (l : tree) (a : Z) (r : tree).

Definition addr (t : tree) : Z := match t with Leaf => 0 | Node _ _ a _ => a end.

Fixpoint inorder (t : tree) : list Z :=
  match t with Leaf => [] | Node _ l a r => inorder l ++ a :: inorder r end.

(** The sides of a node, to treat the two halves of the C code alike. *)
Inductive side := L | R.

#[global] Instance side_eq_dec : EqDecision side.
Proof. solve_decision. Defined.

Definition flip (d : side) : side := match d with L => R | R => L end.

(** A node with [x] on the side [d] and [y] on the other. *)
Definition nd (d : side) (c : color) (x : tree) (a : Z) (y : tree) : tree :=
  match d with L => Node c x a y | R => Node c y a x end.

(** One step of a path to the root: the node above, its colour, the side the path
    comes from, and the subtree on the other side. *)
Inductive frame := Frame (d : side) (c : color) (a : Z) (s : tree).

Fixpoint plug (k : list frame) (t : tree) : tree :=
  match k with
  | [] => t
  | Frame d c a s :: k => plug k (nd d c t a s)
  end.

Definition top (k : list frame) : Z := match k with [] => 0 | Frame _ _ a _ :: _ => a end.

(** The addresses of a context. *)
Fixpoint around (k : list frame) : list Z :=
  match k with [] => [] | Frame _ _ a s :: k => a :: inorder s ++ around k end.

(** ** Representation *)

Definition cbit (c : color) : Z := match c with Red => RB_RED | Black => RB_BLACK end.

Definition cell (p : Z) (c : color) (l r : Z) : rb_node := mk_rb_node (p + cbit c) r l.

(** The cell of a node with the child [x] on the side [d]. *)
Definition dcell (d : side) (p : Z) (c : color) (x y : Z) : rb_node :=
  match d with L => cell p c x y | R => cell p c y x end.

Fixpoint shape (h : gmap Z rb_node) (p : Z) (t : tree) : Prop :=
  match t with
  | Leaf => True
  | Node c l a r => h !! a = Some (cell p c (addr l) (addr r)) ∧ shape h a l ∧ shape h a r
  end.

Fixpoint cshape (h : gmap Z rb_node) (k : list frame) (x : Z) : Prop :=
  match k with
  | [] => True
  | Frame d c a s :: k =>
      h !! a = Some (dcell d (top k) c x (addr s)) ∧ shape h a s ∧ cshape h k a
  end.

(** The address of the root, when the hole has the address [x]. *)
Fixpoint croot (k : list frame) (x : Z) : Z :=
  match k with [] => x | Frame _ _ a _ :: k => croot k a end.

(** An address of a node. *)
Definition aligned (a : Z) : Prop := 0 < a ∧ a mod 4 = 0.

Definition good (l : list Z) : Prop := NoDup l ∧ Forall aligned l.

#[global] Instance good_proper : Proper ((≡ₚ) ==> iff) good.
Proof. intros l l' Hl. unfold good. by rewrite Hl. Qed.

Definition rep (m : rbmem) (t : tree) : Prop :=
  shape (rb_nodes m) 0 t ∧ rb_root m = addr t ∧ good (inorder t).

(** ** Lemmas on trees *)

Lemma inorder_nd d c x a y : inorder (nd d c x a y) ≡ₚ a :: inorder x ++ inorder y.
Proof. destruct d; cbn; solve_Permutation. Qed.

Lemma addr_nd d c x a y : addr (nd d c x a y) = a.
Proof. by destruct d. Qed.

Lemma inorder_plug_perm k t : inorder (plug k t) ≡ₚ inorder t ++ around k.
Proof.
  revert t. induction k as [|[d c a s] k IH]; intros t; cbn; [by rewrite app_nil_r|].
  rewrite IH, inorder_nd. solve_Permutation.
Qed.

Lemma shape_nd h p d c x a y :
  shape h p (nd d c x a y) ↔
  h !! a = Some (dcell d p c (addr x) (addr y)) ∧ shape h a x ∧ shape h a y.
Proof. destruct d; cbn; naive_solver. Qed.

Lemma shape_plug h k t : shape h 0 (plug k t) ↔ shape h (top k) t ∧ cshape h k (addr t).
Proof.
  revert t. induction k as [|[d c a s] k IH]; intros t; cbn; [naive_solver|].
  rewrite IH, shape_nd, addr_nd. naive_solver.
Qed.

Lemma addr_plug k t : addr (plug k t) = croot k (addr t).
Proof.
  revert t. induction k as [|[d c a s] k IH]; intros t; cbn; [done|]. by rewrite IH, addr_nd.
Qed.

Lemma croot_frame d c a s k x y : croot (Frame d c a s :: k) x = croot (Frame d c a s :: k) y.
Proof. done. Qed.

(** A representation, in its parts. *)
Lemma rep_plug m k t :
  rep m (plug k t) ↔
  shape (rb_nodes m) (top k) t ∧ cshape (rb_nodes m) k (addr t) ∧
  rb_root m = croot k (addr t) ∧ good (inorder t ++ around k).
Proof.
  unfold rep, good. rewrite shape_plug, addr_plug, inorder_plug_perm. naive_solver.
Qed.

(** *** Frames *)

Lemma shape_ext h h' p t :
  (∀ x, x ∈ inorder t → h' !! x = h !! x) → shape h p t → shape h' p t.
Proof.
  revert p. induction t as [|c l IHl a r IHr]; intros p Hx; cbn; [done|].
  intros (Ha & Hl & Hr). cbn in Hx. split_and!.
  - rewrite Hx; [done|set_solver].
  - apply IHl; [|done]. set_solver.
  - apply IHr; [|done]. set_solver.
Qed.

Lemma cshape_ext h h' k x :
  (∀ y, y ∈ around k → h' !! y = h !! y) → cshape h k x → cshape h' k x.
Proof.
  revert x. induction k as [|[d c a s] k IH]; intros x Hx; cbn; [done|].
  intros (Ha & Hs & Hk). cbn in Hx. split_and!.
  - rewrite Hx; [done|set_solver].
  - eapply shape_ext; [|done]. set_solver.
  - apply IH; [|done]. set_solver.
Qed.

(** The cell above the hole gets a new child. *)
Definition relink (k : list frame) (x : Z) (h : gmap Z rb_node) : gmap Z rb_node :=
  match k with
  | [] => h
  | Frame d c a s :: k => <[a := dcell d (top k) c x (addr s)]> h
  end.

Lemma relink_cshape h k x y : NoDup (around k) → cshape h k x → cshape (relink k y h) k y.
Proof.
  destruct k as [|[d c a s] k]; cbn; [done|].
  intros [Ha Hnd]%list.NoDup_cons (H1 & H2 & H3). split_and!.
  - by rewrite lookup_insert_eq.
  - eapply shape_ext; [|done]. intros z Hz. rewrite lookup_insert_ne; [done|set_solver].
  - eapply cshape_ext; [|done]. intros z Hz. rewrite lookup_insert_ne; [done|set_solver].
Qed.

Lemma relink_other h k y z : z ∉ around k → relink k y h !! z = h !! z.
Proof.
  destruct k as [|[d c a s] k]; cbn; [done|]. intros Hz.
  apply lookup_insert_ne. set_solver.
Qed.

(** The cell of the root of a subtree gets a new parent. *)
Definition reparent (t : tree) (p : Z) (h : gmap Z rb_node) : gmap Z rb_node :=
  match t with
  | Leaf => h
  | Node c l a r => <[a := cell p c (addr l) (addr r)]> h
  end.

Lemma reparent_shape h t p q : NoDup (inorder t) → shape h p t → shape (reparent t q h) q t.
Proof.
  destruct t as [|c l a r]; cbn; [done|]. intros Hnd (H1 & H2 & H3).
  apply list.NoDup_app in Hnd as (Hl & Hlr & [Ha Hr]%list.NoDup_cons).
  split_and!.
  - by rewrite lookup_insert_eq.
  - eapply shape_ext; [|done]. intros z Hz. rewrite lookup_insert_ne; [done|].
    intros ->. eapply Hlr; [done|]. by left.
  - eapply shape_ext; [|done]. intros z Hz. rewrite lookup_insert_ne; [done|]. by intros ->.
Qed.

Lemma reparent_other h t p z : z ∉ inorder t → reparent t p h !! z = h !! z.
Proof.
  destruct t as [|c l a r]; cbn; [done|]. intros Hz. apply lookup_insert_ne. set_solver.
Qed.

(** ** The word of the parent and the colour *)

#[local] Ltac Zify.zify_post_hook ::= Z.to_euclidean_division_equations.

Lemma aligned_ne a : aligned a → a ≠ 0.
Proof. unfold aligned. lia. Qed.

Lemma top_mod4 h k x : cshape h k x → Forall aligned (around k) → 0 ≤ top k ∧ top k mod 4 = 0.
Proof.
  destruct k as [|[d c a s] k]; cbn; [done|]. intros _ [Ha _]%list.Forall_cons.
  unfold aligned in Ha. lia.
Qed.

Lemma land_not3 p c : p mod 4 = 0 → (p + cbit c) &&& Z.lnot 3 = p.
Proof.
  intros Hp. rewrite <- Z.ldiff_land. change 3 with (Z.ones 2).
  rewrite Z.ldiff_ones_r, Z.shiftr_div_pow2, Z.shiftl_mul_pow2 by lia.
  destruct c; cbn [cbit]; unfold RB_RED, RB_BLACK; change (2 ^ 2) with 4; lia.
Qed.

Lemma land_1 p c : p mod 4 = 0 → (p + cbit c) &&& 1 = cbit c.
Proof.
  intros Hp. rewrite (Z.land_ones (p + cbit c) 1 ltac:(lia) : (p + cbit c) &&& 1 = _). change (2 ^ 1) with 2.
  destruct c; cbn [cbit]; unfold RB_RED, RB_BLACK; lia.
Qed.

Lemma land_3 p c : p mod 4 = 0 → (p + cbit c) &&& 3 = cbit c.
Proof.
  intros Hp. change 3 with (Z.ones 2). rewrite Z.land_ones by lia. change (2 ^ 2) with 4.
  destruct c; cbn [cbit]; unfold RB_RED, RB_BLACK; lia.
Qed.

Lemma land_not1 p c : p mod 4 = 0 → (p + cbit c) &&& Z.lnot 1 = p.
Proof.
  intros Hp. rewrite <- Z.ldiff_land. change 1 with (Z.ones 1).
  rewrite Z.ldiff_ones_r, Z.shiftr_div_pow2, Z.shiftl_mul_pow2 by lia.
  destruct c; cbn [cbit]; unfold RB_RED, RB_BLACK; change (2 ^ 1) with 2; lia.
Qed.

Lemma lor_color p c : p mod 4 = 0 → p ||| cbit c = p + cbit c.
Proof.
  intros Hp. replace p with (p / 4 * 2 ^ 2) by (change (2 ^ 2) with 4; lia).
  apply lor_mul_add; [lia|].
  destruct c; cbn [cbit]; unfold RB_RED, RB_BLACK; lia.
Qed.

Lemma lor_1 p c : p mod 4 = 0 → (p + cbit c) ||| 1 = p + cbit Black.
Proof.
  intros Hp. rewrite <- lor_color, <- Z.lor_assoc by done.
  replace (cbit c ||| 1) with (cbit Black) by (by destruct c). by apply lor_color.
Qed.

(** ** Steps of the operations *)

Lemma bind_run {A B} (x : rbM A) (f : A → rbM B) m a m' :
  x m = Some (a, m') → (x ≫= f) m = f a m'.
Proof. intros Hx. unfold mbind, rbM_bind. by rewrite Hx. Qed.

Lemma rd_run {A} (f : rb_node → A) p m n :
  rb_nodes m !! p = Some n → rd f p m = Some (f n, m).
Proof. intros Hn. unfold rd. by rewrite Hn. Qed.

Lemma wr_run f p m n : rb_nodes m !! p = Some n → wr f p m = Some (tt, set_node p (f n) m).
Proof. intros Hn. unfold wr. by rewrite Hn. Qed.

(** What is known of a node of a represented tree. *)
Lemma rep_node m k d c x a y :
  rep m (plug k (nd d c x a y)) →
  rb_nodes m !! a = Some (dcell d (top k) c (addr x) (addr y)) ∧
  0 < a ∧ a mod 4 = 0 ∧ 0 ≤ top k ∧ top k mod 4 = 0.
Proof.
  intros (Hs & Hc & Hr & Hg & Hal)%rep_plug. apply shape_nd in Hs as (Ha & _).
  split; [done|]. apply list.Forall_app in Hal as [H1 H2].
  destruct (top_mod4 _ _ _ Hc H2) as [T1 T2].
  assert (aligned a) as [A1 A2]; [|lia].
  rewrite list.Forall_forall in H1. apply H1. rewrite inorder_nd. by left.
Qed.

Lemma parent_cell d p c x y : p mod 4 = 0 → parent_of (dcell d p c x y) = p.
Proof. intros. destruct d; by apply land_not3. Qed.

Lemma color_cell d p c x y : p mod 4 = 0 → color_of (dcell d p c x y) = cbit c.
Proof. intros. destruct d; by apply land_1. Qed.

Section Reads.
Context (m : rbmem) (k : list frame) (d : side) (c : color) (x : tree) (a : Z) (y : tree).
Hypothesis Hrep : rep m (plug k (nd d c x a y)).

Lemma run_parent : rb_parent a m = Some (top k, m).
Proof.
  destruct (rep_node _ _ _ _ _ _ _ Hrep) as (Hn & _ & _ & _ & Ht). unfold rb_parent.
  rewrite (rd_run _ _ _ _ Hn). by rewrite parent_cell.
Qed.

Lemma run_color : rb_color a m = Some (cbit c, m).
Proof.
  destruct (rep_node _ _ _ _ _ _ _ Hrep) as (Hn & _ & _ & _ & Ht). unfold rb_color.
  rewrite (rd_run _ _ _ _ Hn). by rewrite color_cell.
Qed.

Lemma run_is_red : rb_is_red a m = Some (bool_decide (c = Red), m).
Proof.
  destruct (rep_node _ _ _ _ _ _ _ Hrep) as (Hn & _ & _ & _ & Ht). unfold rb_is_red.
  rewrite (rd_run _ _ _ _ Hn), color_cell by done. by destruct c.
Qed.

Lemma run_is_black : rb_is_black a m = Some (bool_decide (c = Black), m).
Proof.
  destruct (rep_node _ _ _ _ _ _ _ Hrep) as (Hn & _ & _ & _ & Ht). unfold rb_is_black.
  rewrite (rd_run _ _ _ _ Hn), color_cell by done. by destruct c.
Qed.

Definition child (e : side) : tree :=
  match d, e with L, L | R, R => x | _, _ => y end.

Lemma run_left : rd rb_left a m = Some (addr (child L), m).
Proof.
  destruct (rep_node _ _ _ _ _ _ _ Hrep) as (Hn & _). rewrite (rd_run _ _ _ _ Hn). unfold child. by destruct d.
Qed.

Lemma run_right : rd rb_right a m = Some (addr (child R), m).
Proof.
  destruct (rep_node _ _ _ _ _ _ _ Hrep) as (Hn & _). rewrite (rd_run _ _ _ _ Hn). unfold child. by destruct d.
Qed.

Lemma run_root : get_root m = Some (croot k a, m).
Proof. unfold get_root. apply rep_plug in Hrep as (_ & _ & -> & _). by rewrite addr_nd. Qed.

End Reads.

(** The address of a subtree is that of no other part. *)
Lemma rep_ne m k d c x a y : rep m (plug k (nd d c x a y)) → addr x = addr y → x = Leaf ∧ y = Leaf.
Proof.
  intros (_ & _ & _ & Hg & Hal)%rep_plug. rewrite inorder_nd in Hg, Hal.
  cbn [app] in Hg, Hal. apply list.NoDup_cons in Hg as [_ Hg]. apply list.Forall_cons in Hal as [_ Hal].
  rewrite <- app_assoc in Hg, Hal.
  apply list.NoDup_app in Hg as (_ & Hxy & _). rewrite list.Forall_forall in Hal.
  intros He. destruct x as [|cx lx ax rx], y as [|cy ly ay ry]; cbn in He; [by split|exfalso..].
  - apply (aligned_ne ay); [|done]. apply Hal. set_solver.
  - apply (aligned_ne ax); [|done]. apply Hal. set_solver.
  - apply (Hxy ax); set_solver.
Qed.

(** ** Colours *)

Lemma rep_recolor m k c c' l a r :
  rep m (plug k (Node c l a r)) →
  rep (set_node a (cell (top k) c' (addr l) (addr r)) m) (plug k (Node c' l a r)).
Proof.
  intros (Hs & Hc & Hr & Hg & Hal)%rep_plug. apply rep_plug. split_and!; [| |done|done].
  - destruct Hs as (H1 & H2 & H3). cbn [inorder] in Hg. rewrite <- app_assoc in Hg.
    apply list.NoDup_app in Hg as (N1 & N2 & N3). cbn in N3. apply list.NoDup_cons in N3 as [N3 N4].
    split_and!.
    + cbn. by rewrite lookup_insert_eq.
    + eapply shape_ext; [|done]. intros z Hz. cbn. rewrite lookup_insert_ne; [done|set_solver].
    + eapply shape_ext; [|done]. intros z Hz. cbn. rewrite lookup_insert_ne; [done|set_solver].
  - eapply cshape_ext; [|done]. intros z Hz. cbn. rewrite lookup_insert_ne; [done|].
    apply list.NoDup_app in Hg as (_ & Hg & _). intros ->. apply (Hg z); [|done]. cbn. set_solver.
Qed.

Lemma run_set_black m k c l a r :
  rep m (plug k (Node c l a r)) →
  ∃ m', rb_set_black a m = Some (tt, m') ∧ rep m' (plug k (Node Black l a r)).
Proof.
  intros Hm. destruct (rep_node _ _ L _ _ _ _ Hm) as (Hn & _ & _ & _ & Ht).
  eexists. split; [apply (wr_run _ _ _ _ Hn)|].
  replace (_ : rb_node) with (cell (top k) Black (addr l) (addr r)); [by apply (rep_recolor _ _ c)|].
  cbn. unfold cell. by rewrite lor_1.
Qed.

Lemma run_set_red m k c l a r :
  rep m (plug k (Node c l a r)) →
  ∃ m', rb_set_red a m = Some (tt, m') ∧ rep m' (plug k (Node Red l a r)).
Proof.
  intros Hm. destruct (rep_node _ _ L _ _ _ _ Hm) as (Hn & _ & _ & _ & Ht).
  eexists. split; [apply (wr_run _ _ _ _ Hn)|].
  replace (_ : rb_node) with (cell (top k) Red (addr l) (addr r)); [by apply (rep_recolor _ _ c)|].
  cbn. unfold cell. rewrite land_not1 by done. cbn. by rewrite Z.add_0_r.
Qed.

Lemma run_set_color m k c c' l a r :
  rep m (plug k (Node c l a r)) →
  ∃ m', rb_set_color a (cbit c') m = Some (tt, m') ∧ rep m' (plug k (Node c' l a r)).
Proof.
  intros Hm. destruct (rep_node _ _ L _ _ _ _ Hm) as (Hn & _ & _ & _ & Ht).
  eexists. split; [apply (wr_run _ _ _ _ Hn)|].
  replace (_ : rb_node) with (cell (top k) c' (addr l) (addr r)); [by apply (rep_recolor _ _ c)|].
  cbn. unfold cell. rewrite land_not1, lor_color by done. done.
Qed.

(** ** Rotations *)

Definition rotate (d : side) : Z → rbM unit :=
  match d with L => __rb_rotate_left | R => __rb_rotate_right end.

Lemma rep_rotated d m m' k c x a c' y b z :
  rep m (plug k (nd d c x a (nd d c' y b z))) →
  rb_nodes m' !! a = Some (dcell d b c (addr x) (addr y)) →
  rb_nodes m' !! b = Some (dcell d (top k) c' a (addr z)) →
  (∀ w, w ≠ a → w ≠ b → rb_nodes m' !! w = relink k b (reparent y a (rb_nodes m)) !! w) →
  rb_root m' = croot k b →
  rep m' (plug k (nd d c' (nd d c x a y) b z)).
Proof.
  intros (Hs & Hc & Hr & Hg)%rep_plug Ha Hb Ho Hroot. apply rep_plug.
  apply shape_nd in Hs as (_ & Hx & (_ & Hy & Hz)%shape_nd).
  rewrite addr_nd in *. rewrite inorder_nd, inorder_nd in Hg. cbn [app] in Hg.
  pose proof Hg as [[Na Nb]%list.NoDup_cons _].
  rewrite <- Permutation_middle in Nb. cbn [app] in Nb. apply list.NoDup_cons in Nb as [Nb N].
  rewrite <- !app_assoc in N. apply list.NoDup_app in N as (Nx & Nx' & N).
  apply list.NoDup_app in N as (Ny & Ny' & N). apply list.NoDup_app in N as (Nz & Nz' & N).
  rewrite !shape_nd, addr_nd. split_and!; [done|done| | | | |done| ].
  - eapply shape_ext; [|exact Hx]. intros w Hw. rewrite Ho by set_solver.
    rewrite relink_other, reparent_other by set_solver. done.
  - eapply shape_ext; [|by eapply reparent_shape]. intros w Hw. rewrite Ho by set_solver.
    by rewrite relink_other by set_solver.
  - eapply shape_ext; [|exact Hz]. intros w Hw. rewrite Ho by set_solver.
    rewrite relink_other, reparent_other by set_solver. done.
  - eapply cshape_ext; [|eapply relink_cshape; [done|]].
    + intros w Hw. apply Ho; set_solver.
    + eapply cshape_ext; [|exact Hc]. intros w Hw. apply reparent_other. set_solver.
  - rewrite !inorder_nd. cbn [app]. eapply good_proper; [|exact Hg]. solve_Permutation.
Qed.

(** Runs an operation whose accesses are to nodes that are known. *)
Ltac rb_lookup :=
  cbn [rb_nodes set_node];
  repeat first [rewrite lookup_insert_eq | rewrite lookup_insert_ne by congruence];
  first [eassumption | reflexivity].

Ltac rb_step :=
  lazymatch goal with
  | |- (_ ≫= _) _ = _ =>
      erewrite bind_run;
      [|first [apply rd_run; rb_lookup | apply wr_run; rb_lookup | reflexivity]]
  | |- wr _ _ _ = _ => apply wr_run; rb_lookup
  end; cbn beta.

Lemma relink_cong k y h h' z : h !! z = h' !! z → relink k y h !! z = relink k y h' !! z.
Proof.
  destruct k as [|[d c a s] k]; cbn; [done|]. intros Hz.
  destruct (decide (a = z)) as [->|Hne]; [by rewrite !lookup_insert_eq|].
  by rewrite !lookup_insert_ne.
Qed.

Lemma reparent_cong t p h h' z : h !! z = h' !! z → reparent t p h !! z = reparent t p h' !! z.
Proof.
  destruct t as [|c l a r]; cbn; [done|]. intros Hz.
  destruct (decide (a = z)) as [->|Hne]; [by rewrite !lookup_insert_eq|].
  by rewrite !lookup_insert_ne.
Qed.

(** [if (t) rb_set_parent (t, q)] *)
Lemma run_reparent m t p q :
  shape (rb_nodes m) p t → Forall aligned (inorder t) → p mod 4 = 0 → q mod 4 = 0 →
  (if addr t =? 0 then mret tt else rb_set_parent (addr t) q) m =
  Some (tt, mk_rbmem (reparent t q (rb_nodes m)) (rb_root m)).
Proof.
  destruct t as [|c l a r]; intros Ht Hal Hp Hq; [by destruct m|]. destruct Ht as (Ha & _).
  rewrite list.Forall_forall in Hal. cbn [addr].
  rewrite (proj2 (Z.eqb_neq a 0)); [|apply aligned_ne, Hal; cbn; set_solver].
  unfold rb_set_parent. rewrite (wr_run _ _ _ _ Ha). unfold set_node, cell. cbn.
  by rewrite land_3, Z.lor_comm, lor_color by done.
Qed.

(** The pointer to the hole is redirected from [x] to [y]; the C code looks for it on
    one side first. *)
Definition redirect (d : side) (k : list frame) (x y : Z) : rbM unit :=
  if top k =? 0 then set_root y
  else
    match d with
    | L => p ← rd rb_left (top k); if x =? p then set_left (top k) y else set_right (top k) y
    | R => p ← rd rb_right (top k); if x =? p then set_right (top k) y else set_left (top k) y
    end.

(** The hole is not the other child of the node above. *)
Definition hole_at (k : list frame) (x : Z) : Prop :=
  match k with [] => True | Frame _ _ _ s :: _ => x ≠ addr s end.

Lemma run_redirect d k m x y :
  cshape (rb_nodes m) k x → rb_root m = croot k x → Forall aligned (around k) → hole_at k x →
  redirect d k x y m = Some (tt, mk_rbmem (relink k y (rb_nodes m)) (croot k y)).
Proof.
  intros Hc Hr Hal Hx. unfold redirect. destruct k as [|[e c a s] k]; cbn [top]; [done|].
  apply list.Forall_cons in Hal as [Ha%aligned_ne _]. rewrite (proj2 (Z.eqb_neq a 0)) by done.
  destruct Hc as (Hn & _). cbn [hole_at] in Hx. cbn in Hr. unfold set_left, set_right.
  destruct d; rb_step; destruct e; cbn;
    rewrite ?Z.eqb_refl, ?(proj2 (Z.eqb_neq _ _) Hx);
    rewrite (wr_run _ _ _ _ Hn); unfold set_node; cbn; by rewrite Hr.
Qed.

(** The parts of a represented tree do not overlap. *)
Lemma rep_split m k t :
  rep m (plug k t) →
  NoDup (inorder t) ∧ (∀ x, x ∈ inorder t → x ∉ around k) ∧ NoDup (around k) ∧
  Forall aligned (inorder t) ∧ Forall aligned (around k).
Proof.
  intros (_ & _ & _ & Hg & Hal)%rep_plug. apply list.NoDup_app in Hg as (N1 & N2 & N3).
  apply list.Forall_app in Hal as [A1 A2]. done.
Qed.

Lemma around_hole k x : x ∉ around k → x ≠ 0 → hole_at k x.
Proof.
  destruct k as [|[d c a s] k]; cbn; [done|]. intros Hx H0 ->.
  destruct s as [|c' l b r]; cbn in *; [done|set_solver].
Qed.

Lemma run_set_parent d m a p q c x y :
  rb_nodes m !! a = Some (dcell d p c x y) → p mod 4 = 0 → q mod 4 = 0 →
  rb_set_parent a q m = Some (tt, set_node a (dcell d q c x y) m).
Proof.
  intros Ha Hp Hq. unfold rb_set_parent. rewrite (wr_run _ _ _ _ Ha). do 3 f_equal.
  destruct d; unfold dcell, cell; cbn; by rewrite land_3, Z.lor_comm, lor_color by done.
Qed.

Lemma run_rotate d m k c x a c' y b z :
  rep m (plug k (nd d c x a (nd d c' y b z))) →
  ∃ m', rotate d a m = Some (tt, m') ∧ rep m' (plug k (nd d c' (nd d c x a y) b z)).
Proof.
  intros Hm. pose proof (rep_node _ _ _ _ _ _ _ Hm) as (Ha & A0 & A4 & P0 & P4).
  pose proof Hm as (Hs & Hc & Hr & _)%rep_plug. rewrite addr_nd in *.
  pose proof (rep_split _ _ _ Hm) as (N1 & N2 & N3 & A1 & A2).
  apply shape_nd in Hs as (_ & _ & (Hb & Hy & _)%shape_nd).
  rewrite inorder_nd, inorder_nd in N1, A1.
  setoid_rewrite inorder_nd in N2. setoid_rewrite inorder_nd in N2.
  apply list.NoDup_cons in N1 as [Na N1]. rewrite <- Permutation_middle in N1.
  apply list.NoDup_cons in N1 as [Nb N1].
  assert (b mod 4 = 0 ∧ Forall aligned (inorder y)) as [B4 Ay].
  { rewrite list.Forall_forall in A1. split; [apply A1; set_solver|].
    apply list.Forall_forall. intros w Hw. apply A1. set_solver. }
  assert (a ≠ b) as Hab by set_solver. assert (a ∉ inorder y ∧ b ∉ inorder y) as [Hay Hby] by set_solver.
  assert (a ∉ around k ∧ b ∉ around k) as [Hak Hbk] by (split; apply N2; set_solver).
  assert (∀ w, w ∈ inorder y → w ∉ around k) as Hyk by (intros w Hw; apply N2; set_solver).
  set (n1 := <[a := dcell d (top k) c (addr x) (addr y)]> (rb_nodes m)).
  set (n2 := reparent y a n1).
  set (n4 := <[b := dcell d (top k) c' a (addr z)]> (<[b := dcell d a c' a (addr z)]> n2)).
  set (n5 := relink k b n4).
  exists (mk_rbmem (<[a := dcell d b c (addr x) (addr y)]> n5) (croot k b)). split.
  - assert (rotate d a m =
      ((wr (λ n, match d with L => n <| rb_right := addr y |> | R => n <| rb_left := addr y |> end) a);;
       (if addr y =? 0 then mret tt else rb_set_parent (addr y) a);;
       wr (λ n, match d with L => n <| rb_left := a |> | R => n <| rb_right := a |> end) b;;
       rb_set_parent b (top k);;
       redirect d k a b;;
       rb_set_parent a b) m) as ->.
    { destruct d; cbn [rotate]; unfold __rb_rotate_left, __rb_rotate_right, rb_parent;
        rb_step; rb_step; rewrite parent_cell by done; rb_step; reflexivity. }
    erewrite bind_run; [|apply (wr_run _ _ _ _ Ha)].
    erewrite bind_run; [|apply (run_reparent _ y b a); [|done|done|done]].
    2:{ eapply shape_ext; [|exact Hy]. intros w Hw. cbn. rewrite lookup_insert_ne; [done|].
        by intros ->. }
    replace (set_node _ _ _) with (mk_rbmem n1 (rb_root m)) by (by destruct d). cbn [rb_nodes rb_root].
    fold n2.
    assert (n2 !! b = Some (dcell d a c' (addr y) (addr z))) as Hb2.
    { subst n2 n1. by rewrite reparent_other, lookup_insert_ne. }
    erewrite bind_run; [|apply wr_run, Hb2].
    replace (set_node _ _ _) with
      (mk_rbmem (<[b := dcell d a c' a (addr z)]> n2) (rb_root m)) by (by destruct d).
    erewrite bind_run; [|eapply run_set_parent; [apply lookup_insert_eq|done|done]].
    change (set_node _ _ _) with (mk_rbmem n4 (rb_root m)).
    assert (∀ w, w ∈ around k → n4 !! w = rb_nodes m !! w) as Hn4.
    { intros w Hw. subst n4 n2 n1. assert (a ≠ w ∧ b ≠ w ∧ w ∉ inorder y) as (? & ? & ?) by set_solver.
      by rewrite !lookup_insert_ne, reparent_other, lookup_insert_ne by done. }
    erewrite bind_run; [|apply run_redirect; cbn [rb_nodes rb_root]; [|done|done|]].
    2:{ eapply cshape_ext; [exact Hn4|exact Hc]. }
    2:{ apply around_hole; [done|lia]. }
    cbn [rb_nodes]. fold n5. erewrite run_set_parent; [done|cbn|exact P4|done].
    subst n5 n4 n2 n1. rewrite relink_other, !lookup_insert_ne, reparent_other by done.
    apply lookup_insert_eq.
  - eapply rep_rotated; [exact Hm|apply lookup_insert_eq| | |done]; cbn [rb_nodes].
    + rewrite lookup_insert_ne by done. subst n5. rewrite relink_other by done. apply lookup_insert_eq.
    + intros w Hwa Hwb. rewrite lookup_insert_ne by done. apply relink_cong. subst n4 n2 n1.
      rewrite !lookup_insert_ne by done. apply reparent_cong. by rewrite lookup_insert_ne.
Qed.
