(* ===== verification/RbInsert.v ===== *)
(** * Red-black trees: insertion

    The colouring rules, and the proof that [rb_link_node] followed by
    [rb_insert_color] puts a node into a tree, keeps the order of the others and
    the rules, touches no memory outside the tree and ends. *)

From stdpp Require Import gmap.
From S2P Require Import Prelude RbTree RbShape.

(** ** The rules *)

Definition tcolor (t : tree) : color := match t with Leaf => Black | Node c _ _ _ => c end.

(** A tree in which every path has [n] black nodes and no red node a red child. *)
Inductive rb : tree → nat → Prop :=
  | rb_leaf : rb Leaf 0
  | rb_red l a r n :
      rb l n → rb r n → tcolor l = Black → tcolor r = Black → rb (Node Red l a r) n
  | rb_black l a r n : rb l n → rb r n → rb (Node Black l a r) (S n).

Definition is_rb (t : tree) : Prop := tcolor t = Black ∧ ∃ n, rb t n.

(** A context that expects a subtree of black height [n]. *)
Inductive crb : list frame → nat → Prop :=
  | crb_nil n : crb [] n
  | crb_black d a s k n : rb s n → crb k (S n) → crb (Frame d Black a s :: k) n
  | crb_red d a s e g u k n :
      rb s n → tcolor s = Black → crb (Frame e Black g u :: k) n →
      crb (Frame d Red a s :: Frame e Black g u :: k) n.

Create HintDb rbt.
#[export] Hint Constructors rb crb : rbt.

Lemma rb_nd_red d x a y n :
  rb (nd d Red x a y) n ↔ rb x n ∧ rb y n ∧ tcolor x = Black ∧ tcolor y = Black.
Proof.
  destruct d; cbn; (split; [inversion 1; by subst|]); intros (? & ? & ? & ?); by constructor.
Qed.

Lemma rb_nd_black d x a y n : rb (nd d Black x a y) (S n) ↔ rb x n ∧ rb y n.
Proof.
  destruct d; cbn; (split; [inversion 1; by subst|]); intros (? & ?); by constructor.
Qed.

Lemma tcolor_nd d c x a y : tcolor (nd d c x a y) = c.
Proof. by destruct d. Qed.

(** A tree in a context that may stand above a red node. *)
Definition fits (k : list frame) (t : tree) : Prop :=
  match k with Frame _ Red _ _ :: _ => tcolor t = Black | _ => True end.

Lemma crb_plug k t n : crb k n → rb t n → fits k t → ∃ N, rb (plug k t) N.
Proof.
  intros Hk. revert t. induction Hk as [n|d a s k n Hs Hk IH|d a s e g u k n Hs Hc Hk IH];
    intros t Ht Hf.
  - by exists n.
  - apply IH; [by apply rb_nd_black|]. destruct k as [|[? [] ? ?] ?]; cbn; by rewrite ?tcolor_nd.
  - apply IH; [|done]. by apply rb_nd_red.
Qed.

Lemma inorder_plug k t t' :
  inorder t = inorder t' → inorder (plug k t) = inorder (plug k t').
Proof.
  revert t t'. induction k as [|[d c a s] k IH]; intros t t' Ht; cbn; [done|].
  apply IH. destruct d; cbn; by rewrite Ht.
Qed.

Lemma inorder_plug_cons d c a s k t : inorder (plug (Frame d c a s :: k) t) = inorder (plug k (nd d c t a s)).
Proof. done. Qed.

(** ** The loop, for both sides at once *)

Definition get_child (d : side) (p : Z) : rbM Z :=
  rd (match d with L => rb_left | R => rb_right end) p.

Definition insert_body (d : side) (fuel : nat) (node parent gparent : Z) : rbM unit :=
  uncle ← get_child (flip d) gparent;
  ured ← (if uncle =? 0 then mret false else rb_is_red uncle);
  if (ured : bool) then
    rb_set_black uncle;;
    rb_set_black parent;;
    rb_set_red gparent;;
    rb_insert_color_loop fuel gparent
  else
    pr ← get_child (flip d) parent;
    '(parent, node) ←
      (if pr =? node then rotate d parent;; mret (node, parent) else mret (parent, node));
    rb_set_black parent;;
    rb_set_red gparent;;
    rotate (flip d) gparent;;
    rb_insert_color_loop fuel node.

Lemma run_child m k d c x a y :
  rep m (plug k (nd d c x a y)) → get_child d a m = Some (addr x, m).
Proof.
  intros Hm. pose proof (run_left _ _ _ _ _ _ _ Hm). pose proof (run_right _ _ _ _ _ _ _ Hm).
  by destruct d.
Qed.

Lemma nd_flip d c x a y : nd (flip d) c y a x = nd d c x a y.
Proof. by destruct d. Qed.

Lemma run_other m k d c x a y :
  rep m (plug k (nd d c x a y)) → get_child (flip d) a m = Some (addr y, m).
Proof. intros Hm. rewrite <- nd_flip in Hm. by eapply run_child. Qed.

(** A node that is not [NULL]. *)
Lemma rep_pos m k d c x a y : rep m (plug k (nd d c x a y)) → (a =? 0) = false.
Proof. intros (_ & ? & _)%rep_node. apply Z.eqb_neq. lia. Qed.

Lemma rep_sibling m k d c x a y :
  rep m (plug k (nd d c x a y)) → x ≠ Leaf → (addr x =? addr y) = false.
Proof. intros Hm Hx. apply Z.eqb_neq. intros He. by destruct (rep_ne _ _ _ _ _ _ _ Hm He). Qed.

(** [uncle && rb_is_red (uncle)] *)
Lemma run_red_child m k d c x a y :
  rep m (plug k (nd d c x a y)) →
  (if addr y =? 0 then mret false else rb_is_red (addr y)) m =
  Some (bool_decide (tcolor y = Red), m).
Proof.
  intros Hm. destruct y as [|cy l b r]; [done|]. cbn [addr].
  change (rep m (plug (Frame (flip d) c a x :: k) (nd L cy l b r))) in Hm
    || (rewrite <- nd_flip in Hm; change (rep m (plug (Frame (flip d) c a x :: k) (nd L cy l b r))) in Hm).
  rewrite (rep_pos _ _ _ _ _ _ _ Hm). by rewrite (run_is_red _ _ _ _ _ _ _ Hm).
Qed.

Lemma insert_loop_step fuel m d1 p s d g u k l a r :
  rep m (plug (Frame d1 Red p s :: Frame d Black g u :: k) (Node Red l a r)) →
  rb_insert_color_loop (S fuel) a m = insert_body d fuel a p g m.
Proof.
  intros Hm. cbn [rb_insert_color_loop].
  rewrite (bind_run _ _ _ _ _ (run_parent _ _ L _ _ _ _ Hm)). cbn [top].
  assert (rep m (plug (Frame d Black g u :: k) (nd d1 Red (Node Red l a r) p s))) as Hp by exact Hm.
  rewrite (rep_pos _ _ _ _ _ _ _ Hp), (bind_run _ _ _ _ _ (run_is_red _ _ _ _ _ _ _ Hp)).
  cbn [bool_decide negb]. rewrite bool_decide_eq_true_2 by done. cbn [negb].
  rewrite (bind_run _ _ _ _ _ (run_parent _ _ _ _ _ _ _ Hp)). cbn [top].
  assert (rep m (plug k (nd d Black (nd d1 Red (Node Red l a r) p s) g u))) as Hg by exact Hm.
  rewrite (bind_run _ _ _ _ _ (run_left _ _ _ _ _ _ _ Hg)).
  assert (nd d1 Red (Node Red l a r) p s ≠ Leaf) as Hne by (by destruct d1).
  pose proof (rep_sibling _ _ _ _ _ _ _ Hg Hne) as Hs. rewrite addr_nd in Hs.
  destruct d; cbn [child]; rewrite ?addr_nd, ?Z.eqb_refl, ?Hs; reflexivity.
Qed.

(** Runs an operation of which it is known what it does to the represented tree. *)
Ltac rb_run lem Hm m' Hm' :=
  let E := fresh "E" in
  destruct lem as (m' & E & Hm'); rewrite (bind_run _ _ _ _ _ E); clear E.

(** Colours of nodes in the middle of a tree. *)
Lemma run_black_nd m k d c x a y :
  rep m (plug k (nd d c x a y)) →
  ∃ m', rb_set_black a m = Some (tt, m') ∧ rep m' (plug k (nd d Black x a y)).
Proof. destruct d; apply run_set_black. Qed.

Lemma run_red_nd m k d c x a y :
  rep m (plug k (nd d c x a y)) →
  ∃ m', rb_set_red a m = Some (tt, m') ∧ rep m' (plug k (nd d Red x a y)).
Proof. destruct d; apply run_set_red. Qed.

Lemma run_color_nd m k d c c' x a y :
  rep m (plug k (nd d c x a y)) →
  ∃ m', rb_set_color a (cbit c') m = Some (tt, m') ∧ rep m' (plug k (nd d c' x a y)).
Proof. destruct d; apply run_set_color. Qed.

(** The node on the other side of a frame. *)
Lemma plug_flip d c a s k t : plug (Frame d c a s :: k) t = plug (Frame (flip d) c a t :: k) s.
Proof. cbn. by rewrite nd_flip. Qed.

(** The last step: the parent becomes black and takes the place of the grandparent. *)
Lemma run_insert_finish {A} (K : rbM A) m d c q s g u k t :
  rep m (plug (Frame d c q s :: Frame d Black g u :: k) t) →
  ∃ m', (rb_set_black q;; rb_set_red g;; rotate (flip d) g;; K) m = K m' ∧
        rep m' (plug (Frame d Black q (nd d Red s g u) :: k) t).
Proof.
  intros H0. change (rep m (plug (Frame d Black g u :: k) (nd d c t q s))) in H0.
  destruct (run_black_nd _ _ _ _ _ _ _ H0) as (m1 & E1 & H1). rewrite (bind_run _ _ _ _ _ E1).
  change (rep m1 (plug k (nd d Black (nd d Black t q s) g u))) in H1.
  destruct (run_red_nd _ _ _ _ _ _ _ H1) as (m2 & E2 & H2). rewrite (bind_run _ _ _ _ _ E2).
  rewrite <- nd_flip, <- (nd_flip d Black) in H2.
  destruct (run_rotate _ _ _ _ _ _ _ _ _ _ H2) as (m3 & E3 & H3).
  rewrite (bind_run _ _ _ _ _ E3). exists m3. split; [done|].
  rewrite nd_flip, nd_flip in H3. exact H3.
Qed.

Lemma inorder_finish d c q s g u k t :
  inorder (plug (Frame d Black q (nd d Red s g u) :: k) t) =
  inorder (plug (Frame d c q s :: Frame d Black g u :: k) t).
Proof. cbn [plug]. apply inorder_plug. destruct d; cbn; simplify_list_eq; done. Qed.

(** A node on the inner side of its parent is rotated to the outer side first. *)
Lemma run_insert_inner m d p s g u k x a y :
  rep m (plug (Frame (flip d) Red p s :: Frame d Black g u :: k) (nd d Red x a y)) →
  ∃ m', rotate d p m = Some (tt, m') ∧
        rep m' (plug (Frame d Red a y :: Frame d Black g u :: k) (nd d Red s p x)).
Proof.
  intros H0. change (rep m (plug (Frame d Black g u :: k) (nd (flip d) Red (nd d Red x a y) p s))) in H0.
  rewrite nd_flip in H0. apply run_rotate in H0 as (m1 & E1 & H1). by exists m1.
Qed.

Lemma inorder_inner d p s g u k x a y :
  inorder (plug (Frame d Red a y :: Frame d Black g u :: k) (nd d Red s p x)) =
  inorder (plug (Frame (flip d) Red p s :: Frame d Black g u :: k) (nd d Red x a y)).
Proof. cbn [plug]. apply inorder_plug. destruct d; cbn; simplify_list_eq; done. Qed.

Lemma insert_loop_ok fuel : ∀ m k l a r n,
  rep m (plug k (Node Red l a r)) → crb k n → rb (Node Red l a r) n → (length k < fuel)%nat →
  ∃ m' T N, rb_insert_color_loop fuel a m = Some (tt, m') ∧ rep m' T ∧ rb T N ∧
    inorder T = inorder (plug k (Node Red l a r)).
Proof.
  induction fuel as [|fuel IH]; intros m k l a r n Hm Hk Ht Hf; [lia|].
  destruct Hk as [n|d p s k n Hs Hk|d1 p s d g u k n Hs Hcs Hk].
  { exists m, (Node Red l a r), n. split_and!; [|done|done|done].
    cbn [rb_insert_color_loop]. by rewrite (bind_run _ _ _ _ _ (run_parent _ _ L _ _ _ _ Hm)). }
  { destruct (crb_plug (Frame d Black p s :: k) (Node Red l a r) n) as [N HN];
      [by constructor|done|done|].
    exists m, (plug (Frame d Black p s :: k) (Node Red l a r)), N. split_and!; [|done|done|done].
    cbn [rb_insert_color_loop]. rewrite (bind_run _ _ _ _ _ (run_parent _ _ L _ _ _ _ Hm)).
    cbn [top]. assert (rep m (plug k (nd d Black (Node Red l a r) p s))) as Hp by exact Hm.
    by rewrite (rep_pos _ _ _ _ _ _ _ Hp), (bind_run _ _ _ _ _ (run_is_red _ _ _ _ _ _ _ Hp)). }
  rewrite (insert_loop_step _ _ _ _ _ _ _ _ _ _ _ _ Hm). unfold insert_body.
  inversion Hk as [|? ? ? ? ? Hu Hk0|]; subst.
  assert (rep m (plug k (nd d Black (nd d1 Red (Node Red l a r) p s) g u))) as Hg by exact Hm.
  rewrite (bind_run _ _ _ _ _ (run_other _ _ _ _ _ _ _ Hg)).
  rewrite (bind_run _ _ _ _ _ (run_red_child _ _ _ _ _ _ _ Hg)).
  case_bool_decide as Hc.
  - destruct u as [|cu ul b ur]; [done|]. cbn in Hc. subst cu. cbn [addr].
    assert (rep m (plug (Frame (flip d) Black g (nd d1 Red (Node Red l a r) p s) :: k)
      (Node Red ul b ur))) as Hu' by (rewrite <- plug_flip; exact Hm).
    rb_run (run_set_black _ _ _ _ _ _ Hu') Hu' m1 H1. rewrite <- plug_flip in H1.
    rb_run (run_black_nd _ _ _ _ _ _ _ H1) H1 m2 H2.
    rb_run (run_red_nd _ k _ _ _ _ _ H2) H2 m3 H3.
    assert (rb (nd d Red (nd d1 Black (Node Red l a r) p s) g (Node Black ul b ur)) (S n)) as Hrb.
    { apply rb_nd_red. rewrite tcolor_nd. inversion Hu; subst.
      split_and!; [by apply rb_nd_black|by constructor|done|done]. }
    destruct (nd d Red _ g _) as [|c' l' g' r'] eqn:Hnd; [by destruct d|].
    assert (c' = Red ∧ g' = g) as [-> ->] by (by destruct d; simplify_eq/=).
    destruct (IH m3 k l' g r' (S n) H3 Hk0 Hrb) as (m4 & T & N & E & HT & HN & Hi); [cbn in Hf; lia|].
    exists m4, T, N. split_and!; [done|done|done|]. rewrite Hi, <- Hnd. cbn [plug].
    apply inorder_plug. by destruct d, d1.
  - assert (∀ m0 q s' l' b r', rep m0 (plug (Frame d Red q s' :: Frame d Black g u :: k) (Node Red l' b r')) →
      rb (Node Red l' b r') n → rb s' n → tcolor s' = Black →
      ∃ m' T N, (rb_set_black q;; rb_set_red g;; rotate (flip d) g;; rb_insert_color_loop fuel b) m0
        = Some (tt, m') ∧ rep m' T ∧ rb T N ∧
        inorder T = inorder (plug (Frame d Red q s' :: Frame d Black g u :: k) (Node Red l' b r'))) as Hfin.
    { intros m0 q s' l' b r' H0 Hb Hs' Hcs'.
      destruct (run_insert_finish (rb_insert_color_loop fuel b) _ _ _ _ _ _ _ _ _ H0) as (m1 & -> & H1).
      rewrite <- (inorder_finish d Red). eapply IH; [done| |done|cbn in *; lia].
      constructor; [|done]. apply rb_nd_red. by destruct (tcolor u). }
    assert (rep m (plug (Frame d Black g u :: k) (nd d1 Red (Node Red l a r) p s))) as Hp by exact Hm.
    destruct (decide (d1 = d)) as [->|Hd].
    + rewrite (bind_run _ _ _ _ _ (run_other _ _ _ _ _ _ _ Hp)).
      assert (Node Red l a r ≠ Leaf) as Hne by done.
      pose proof (rep_sibling _ _ _ _ _ _ _ Hp Hne) as Hsib. cbn [addr] in Hsib.
      rewrite Z.eqb_sym, Hsib. cbn [mret rbM_ret]. rewrite (bind_run _ _ m (p, a) m) by done.
      by apply Hfin.
    + assert (d1 = flip d) as -> by (by destruct d, d1).
      rewrite (bind_run _ _ _ _ _ (run_child _ _ _ _ _ _ _ Hp)). cbn [addr]. rewrite Z.eqb_refl.
      assert (∃ x y, Node Red l a r = nd d Red x a y) as (x & y & Hxy)
        by (destruct d; [by exists l, r|by exists r, l]).
      rewrite Hxy in *. apply rb_nd_red in Ht as (Hx & Hy & Hcx & Hcy).
      destruct (run_insert_inner _ _ _ _ _ _ _ _ _ _ Hm) as (m1 & E1 & H1).
      rewrite (bind_run _ _ m (a, p) m1) by (by rewrite (bind_run _ _ _ _ _ E1)).
      assert (rb (nd d Red s p x) n) as Hsx by (by apply rb_nd_red).
      rewrite <- inorder_inner. destruct d; by apply Hfin.
Qed.

(** ** Insertion *)

Lemma insert_color_ok fuel m k l a r n :
  rep m (plug k (Node Red l a r)) → crb k n → rb (Node Red l a r) n → (length k < fuel)%nat →
  ∃ m' T, rb_insert_color fuel a m = Some (tt, m') ∧ rep m' T ∧ is_rb T ∧
    inorder T = inorder (plug k (Node Red l a r)).
Proof.
  intros Hm Hk Ht Hf. destruct (insert_loop_ok _ _ _ _ _ _ _ Hm Hk Ht Hf)
    as (m1 & T & N & E & HT & HN & Hi).
  unfold rb_insert_color. rewrite (bind_run _ _ _ _ _ E).
  rewrite (bind_run _ _ m1 (rb_root m1) m1) by done.
  destruct T as [|c l' b r'].
  { exfalso. assert (a ∈ inorder (plug k (Node Red l a r))) as Ha; [|rewrite <- Hi in Ha; set_solver].
    rewrite inorder_plug_perm. set_solver. }
  pose proof HT as (_ & -> & _). cbn [addr].
  destruct (run_set_black _ [] _ _ _ _ HT) as (m2 & E2 & H2).
  exists m2, (Node Black l' b r'). split_and!; [done|done| |done].
  split; [done|]. inversion HN; subst; eexists; by constructor.
Qed.

(** The place of the hole of a context. *)
Definition link_of (k : list frame) : rb_link :=
  match k with
  | [] => link_root
  | Frame L _ a _ :: _ => link_left a
  | Frame R _ a _ :: _ => link_right a
  end.

Lemma run_set_link m k x y :
  cshape (rb_nodes m) k x → rb_root m = croot k x →
  set_link (link_of k) y m = Some (tt, mk_rbmem (relink k y (rb_nodes m)) (croot k y)).
Proof.
  intros Hc Hr. destruct k as [|[[] c a s] k]; cbn [link_of set_link]; [done|..];
    destruct Hc as [Ha _]; unfold set_left, set_right; rewrite (wr_run _ _ _ _ Ha);
    unfold set_node; cbn in *; by rewrite Hr.
Qed.

Lemma run_link_node m k a :
  rep m (plug k Leaf) → is_Some (rb_nodes m !! a) → a ∉ inorder (plug k Leaf) → aligned a →
  ∃ m', rb_link_node a (top k) (link_of k) m = Some (tt, m') ∧
        rep m' (plug k (Node Red Leaf a Leaf)) ∧
        ∀ x, x ≠ a → x ∉ inorder (plug k Leaf) → rb_nodes m' !! x = rb_nodes m !! x.
Proof.
  intros Hm [n Hn] Ha Hal. pose proof Hm as (_ & Hc & Hr & Hg)%rep_plug.
  rewrite inorder_plug_perm in Ha. cbn [inorder app addr] in *.
  unfold rb_link_node, set_right, set_left.
  do 3 (erewrite bind_run; [|apply wr_run; rb_lookup]). unfold set_node. cbn [rb_nodes rb_root].
  rewrite !insert_insert_eq. set (h := <[a := _]> (rb_nodes m)).
  assert (∀ x, x ∈ around k → h !! x = rb_nodes m !! x) as Hh.
  { intros x Hx. apply lookup_insert_ne. by intros ->. }
  eexists. split; [apply (run_set_link _ _ 0)|split]; cbn [rb_nodes rb_root]; [|done| |].
  - by eapply cshape_ext.
  - apply rep_plug. cbn [shape addr inorder app rb_nodes rb_root]. split_and!; [|done|done| |done|].
    + rewrite relink_other by done. subst h. rewrite lookup_insert_eq. unfold cell. cbn.
      by rewrite Z.add_0_r.
    + eapply relink_cshape; [apply Hg|]. by eapply cshape_ext.
    + destruct Hg as [H1 H2]. split; constructor; done.
  - intros x Hx Hxk. rewrite inorder_plug_perm in Hxk. rewrite relink_other by done.
    by apply lookup_insert_ne.
Qed.

(** A tree that follows the rules gives contexts that do. *)
Lemma rb_unplug k t N :
  rb (plug k t) N → tcolor (plug k t) = Black → ∃ n, crb k n ∧ rb t n ∧ fits k t.
Proof.
  revert t. induction k as [|[d c a s] k IH]; intros t Ht Hc; cbn in *.
  { exists N. split_and!; [constructor|done|done]. }
  destruct (IH _ Ht Hc) as (n & Hk & Hn & Hf). destruct c.
  - apply rb_nd_red in Hn as (H1 & H2 & H3 & H4).
    destruct k as [|[e [] g u] k]; cbn in *; rewrite ?tcolor_nd in *; [done|done|].
    exists n. split_and!; [by constructor|done|done].
  - inversion Hn; destruct d; simplify_eq/=; eexists; (split_and!; [by constructor|done|done]).
Qed.

Lemma length_context k t : (length k ≤ length (inorder (plug k t)))%nat.
Proof.
  rewrite inorder_plug_perm, length_app.
  assert (length k ≤ length (around k))%nat; [|lia].
  induction k as [|[d c a s] k IH]; cbn; [done|]. rewrite length_app. lia.
Qed.

(** ** Locality

    An operation that succeeds does the same in a larger memory, and leaves the rest of
    it alone. *)

Definition grow (m : rbmem) (F : gmap Z rb_node) : rbmem := mk_rbmem (rb_nodes m ∪ F) (rb_root m).

Definition framed {A} (x : rbM A) : Prop := ∀ m v m' F,
  x m = Some (v, m') → F ##ₘ rb_nodes m →
  x (grow m F) = Some (v, grow m' F) ∧ dom (rb_nodes m') = dom (rb_nodes m).

Lemma framed_ret {A} (v : A) : framed (mret v).
Proof. intros m v' m' F [= -> ->]. done. Qed.

Lemma framed_fail {A} : framed (@rb_fail A).
Proof. done. Qed.

Lemma framed_bind {A B} (x : rbM A) (f : A → rbM B) :
  framed x → (∀ v, framed (f v)) → framed (x ≫= f).
Proof.
  intros Hx Hf m v m' F. unfold mbind, rbM_bind.
  destruct (x m) as [[u m1]|] eqn:E; [|done]. intros E' HF.
  destruct (Hx m u m1 F E HF) as [-> H1].
  assert (F ##ₘ rb_nodes m1) as HF1.
  { apply map_disjoint_dom. rewrite H1. by apply map_disjoint_dom. }
  destruct (Hf u m1 v m' F E' HF1) as [-> H2]. by rewrite <- H1.
Qed.

Lemma framed_rd {A} (f : rb_node → A) p : framed (rd f p).
Proof.
  intros m v m' F. unfold rd. destruct (rb_nodes m !! p) as [n|] eqn:Hn; [|done].
  intros [= <- <-] HF. cbn. by rewrite (lookup_union_Some_l _ _ _ _ Hn).
Qed.

Lemma framed_wr f p : framed (wr f p).
Proof.
  intros m v m' F. unfold wr. destruct (rb_nodes m !! p) as [n|] eqn:Hn; [|done].
  intros [= <- <-] HF. cbn. rewrite (lookup_union_Some_l _ _ _ _ Hn).
  unfold set_node, grow. cbn. rewrite insert_union_l. split; [done|].
  rewrite dom_insert_L. apply elem_of_dom_2 in Hn. set_solver.
Qed.

Lemma framed_get_root : framed get_root.
Proof. by intros m v m' F [= <- <-]. Qed.

Lemma framed_set_root p : framed (set_root p).
Proof. by intros m v m' F [= <- <-]. Qed.

Lemma framed_if {A} (b : bool) (x y : rbM A) : framed x → framed y → framed (if b then x else y).
Proof. by destruct b. Qed.

#[export] Hint Resolve framed_ret framed_fail framed_rd framed_wr framed_get_root framed_set_root : rbt.

Ltac solve_framed :=
  repeat first
    [ progress auto with rbt
    | apply framed_bind; [|intros ?]
    | apply framed_if
    | match goal with |- framed (let '(_, _) := ?p in _) => destruct p end ].

(** The part of a memory at the addresses of a list. *)
Definition only (l : list Z) (m : rbmem) : rbmem :=
  mk_rbmem (filter (λ kv, kv.1 ∈ l) (rb_nodes m)) (rb_root m).

Lemma lookup_only l m w : w ∈ l → rb_nodes (only l m) !! w = rb_nodes m !! w.
Proof.
  intros Hw. cbn. destruct (rb_nodes m !! w) as [n|] eqn:Hn.
  - by apply map_lookup_filter_Some.
  - apply map_lookup_filter_None. by left.
Qed.

Lemma run_only {A} (x : rbM A) l m v m0 :
  framed x → x (only l m) = Some (v, m0) →
  ∃ m', x m = Some (v, m') ∧ rb_root m' = rb_root m0 ∧
    (∀ w, w ∈ l → rb_nodes m' !! w = rb_nodes m0 !! w) ∧
    (∀ w, w ∉ l → rb_nodes m' !! w = rb_nodes m !! w).
Proof.
  intros Hx E. set (F := filter (λ kv, kv.1 ∉ l) (rb_nodes m)).
  assert (F ##ₘ rb_nodes (only l m)) as HF.
  { symmetry. apply map_disjoint_filter_complement. }
  assert (grow (only l m) F = m) as Hg.
  { unfold grow, only. cbn. subst F. rewrite map_filter_union_complement. by destruct m. }
  destruct (Hx _ _ _ F E HF) as [E' Hd]. rewrite Hg in E'. exists (grow m0 F).
  split_and!; [done|done| |]; intros w Hw; cbn.
  - apply lookup_union_l. apply map_lookup_filter_None. right. intros n _ Hn. by apply Hn.
  - rewrite lookup_union_r.
    + destruct (rb_nodes m !! w) as [n|] eqn:Hn.
      * by apply map_lookup_filter_Some.
      * apply map_lookup_filter_None. by left.
    + apply not_elem_of_dom. rewrite Hd. apply not_elem_of_dom. cbn.
      apply map_lookup_filter_None. right. by intros n _ Hn.
Qed.

Lemma rep_ext m m' T :
  (∀ w, w ∈ inorder T → rb_nodes m' !! w = rb_nodes m !! w) → rb_root m' = rb_root m →
  rep m T → rep m' T.
Proof.
  intros Hw Hr (H1 & H2 & H3). split_and!; [by eapply shape_ext|by rewrite Hr|done].
Qed.

Lemma framed_rotate_left p : framed (__rb_rotate_left p).
Proof. unfold __rb_rotate_left, set_left, set_right, rb_set_parent, rb_parent. solve_framed. Qed.

Lemma framed_rotate_right p : framed (__rb_rotate_right p).
Proof. unfold __rb_rotate_right, set_left, set_right, rb_set_parent, rb_parent. solve_framed. Qed.

#[export] Hint Resolve framed_rotate_left framed_rotate_right : rbt.

Lemma framed_insert_loop fuel node : framed (rb_insert_color_loop fuel node).
Proof.
  revert node. induction fuel as [|fuel IH]; intros node; [apply framed_fail|].
  cbn [rb_insert_color_loop]. unfold rb_parent, rb_is_red, rb_set_black, rb_set_red. solve_framed.
Qed.

Lemma framed_insert_color fuel node : framed (rb_insert_color fuel node).
Proof.
  unfold rb_insert_color, rb_set_black. pose proof framed_insert_loop. solve_framed.
Qed.

Lemma framed_link_node a p l : framed (rb_link_node a p l).
Proof. destruct l; unfold rb_link_node, set_link, set_left, set_right; solve_framed. Qed.

(** Linking a node and colouring it, at any place of any tree. *)
Lemma insert_ok fuel m k a :
  rep m (plug k Leaf) → is_rb (plug k Leaf) → is_Some (rb_nodes m !! a) →
  a ∉ inorder (plug k Leaf) → aligned a → (length (inorder (plug k Leaf)) < fuel)%nat →
  ∃ m' T, (rb_link_node a (top k) (link_of k);; rb_insert_color fuel a) m = Some (tt, m') ∧
    rep m' T ∧ is_rb T ∧ inorder T = inorder (plug k (Node Red Leaf a Leaf)) ∧
    ∀ x, x ∉ inorder T → rb_nodes m' !! x = rb_nodes m !! x.
Proof.
  intros Hm [Hb [N Hrb]] Hn Ha Hal Hf. set (l := a :: inorder (plug k Leaf)).
  assert (rep (only l m) (plug k Leaf)) as H0.
  { apply (rep_ext m); [|done|exact Hm]. intros w Hw. apply lookup_only. by right. }
  destruct (rb_unplug _ _ _ Hrb Hb) as (n & Hk & Hleaf & _). inversion Hleaf; subst.
  destruct (run_link_node (only l m) k a H0) as (m1 & E1 & H1 & _); [|done|done|].
  { rewrite lookup_only; [done|by left]. }
  pose proof (length_context k Leaf) as Hlen.
  destruct (insert_color_ok fuel m1 k Leaf a Leaf 0) as (m2 & T & E2 & H2 & HT & Hi);
    [done|done|by repeat constructor|lia|].
  assert (inorder T ≡ₚ l) as Hl.
  { rewrite Hi, inorder_plug_perm. subst l. by rewrite inorder_plug_perm. }
  destruct (run_only (rb_link_node a (top k) (link_of k);; rb_insert_color fuel a) l m tt m2)
    as (m' & E & Hroot & Hin & Hout).
  { apply framed_bind; [apply framed_link_node|intros _; apply framed_insert_color]. }
  { by rewrite (bind_run _ _ _ _ _ E1). }
  exists m', T. split_and!; [done| |done|done|].
  - eapply rep_ext; [|exact Hroot|exact H2]. intros w Hw. apply Hin. by rewrite <- Hl.
  - intros x Hx. apply Hout. by rewrite <- Hl.
Qed.
