(* ===== verification/RbErase.v ===== *)
(** * Red-black trees: erasure

    The proof that [rb_erase] takes a node out of a tree, keeps the order of the others
    and the rules, touches no memory outside the tree and ends. *)

From stdpp Require Import gmap.
From S2P Require Import Prelude RbTree RbShape RbInsert.

(** ** The loop, for both sides at once *)

(** The steps of the loop: the other child is made black, its inner child is turned out,
    and the parent is rotated. *)
Definition erase_red (d : side) (parent other : Z) (red : bool) : rbM Z :=
  if red then
    rb_set_black other;;
    rb_set_red parent;;
    rotate d parent;;
    get_child (flip d) parent
  else mret other.

Definition erase_turn (d : side) (parent other : Z) (outer_black : bool) : rbM Z :=
  if outer_black then
    inner ← get_child d other;
    rb_set_black inner;;
    rb_set_red other;;
    rotate (flip d) other;;
    get_child (flip d) parent
  else mret other.

Definition erase_finish (d : side) (parent other : Z) : rbM Z :=
  c ← rb_color parent;
  rb_set_color other c;;
  rb_set_black parent;;
  outer ← get_child (flip d) other;
  rb_set_black outer;;
  rotate d parent;;
  get_root.

Definition erase_black (d : side) (fuel : nat) (parent other : Z) : rbM Z :=
  ol ← rd rb_left other;
  lblack ← null_or_black ol;
  or ← rd rb_right other;
  rblack ← (if (lblack : bool) then null_or_black or else mret false);
  if (rblack : bool) then
    rb_set_red other;;
    gparent ← rb_parent parent;
    rb_erase_color_loop fuel parent gparent
  else
    outer ← get_child (flip d) other;
    oblack ← null_or_black outer;
    other ← erase_turn d parent other oblack;
    erase_finish d parent other.

Definition erase_body (d : side) (fuel : nat) (parent : Z) : rbM Z :=
  other ← get_child (flip d) parent;
  red ← rb_is_red other;
  other ← erase_red d parent other red;
  erase_black d fuel parent other.

(** The root is not below another node. *)
Lemma rep_root_ne m d c p s k t :
  rep m (plug (Frame d c p s :: k) t) → (addr t =? croot k p) = false.
Proof.
  intros Hm. apply Z.eqb_neq. intros He.
  pose proof Hm as (_ & _ & _ & Hg & Hal)%rep_plug.
  assert (croot k p ∈ around (Frame d c p s :: k)) as Hin.
  { clear. revert d c p s. induction k as [|[e c' p' s'] k IH]; intros d c p s; cbn in *; [set_solver|].
    specialize (IH e c' p' s'). set_solver. }
  rewrite <- He in Hin. destruct t as [|ct l a r]; cbn [addr] in Hin.
  - rewrite list.Forall_forall in Hal. apply (aligned_ne 0); [|done]. apply Hal. set_solver.
  - apply list.NoDup_app in Hg as (_ & Hg & _). apply (Hg a); [cbn; set_solver|done].
Qed.

(** [!t || rb_is_black (t)] *)
Lemma run_null_or_black m k t :
  rep m (plug k t) → null_or_black (addr t) m = Some (bool_decide (tcolor t = Black), m).
Proof.
  intros Hm. unfold null_or_black. destruct t as [|ct l a r]; [done|]. cbn [addr].
  by rewrite (rep_pos _ _ L _ _ _ _ Hm), (run_is_black _ _ L _ _ _ _ Hm).
Qed.

Lemma erase_loop_step fuel m d c p s k t :
  rep m (plug (Frame d c p s :: k) t) → s ≠ Leaf → tcolor t = Black →
  rb_erase_color_loop (S fuel) (addr t) p m = erase_body d fuel p m.
Proof.
  intros Hm Hs Ht. cbn [rb_erase_color_loop].
  rewrite (bind_run _ _ _ _ _ (run_null_or_black _ _ _ Hm)).
  rewrite bool_decide_eq_true_2 by done.
  assert (rep m (plug k (nd d c t p s))) as Hp by exact Hm.
  rewrite (bind_run _ _ _ _ _ (run_root _ _ _ _ _ _ _ Hp)), (rep_root_ne _ _ _ _ _ _ _ Hm).
  cbn [andb negb].
  rewrite (bind_run _ _ _ _ _ (run_left _ _ _ _ _ _ _ Hp)).
  rewrite <- nd_flip in Hp. pose proof (rep_sibling _ _ _ _ _ _ _ Hp Hs) as Hne.
  destruct d; cbn [child]; rewrite ?Z.eqb_refl, ?Hne; reflexivity.
Qed.

(** ** One step *)

(** A red sibling: the parent gets a black one. *)
Lemma run_erase_red m d p k t x o y :
  rep m (plug (Frame d Black p (nd d Red x o y) :: k) t) →
  ∃ m', erase_red d p o true m = Some (addr x, m') ∧
        rep m' (plug (Frame d Red p x :: Frame d Black o y :: k) t).
Proof.
  intros H0. rewrite plug_flip in H0. unfold erase_red.
  rb_run (run_black_nd _ _ _ _ _ _ _ H0) H0 m1 H1. rewrite <- plug_flip in H1.
  rb_run (run_red_nd _ k _ _ _ _ _ H1) H1 m2 H2.
  rb_run (run_rotate _ _ _ _ _ _ _ _ _ _ H2) H2 m3 H3.
  exists m3. split; [|exact H3].
  change (rep m3 (plug (Frame d Black o y :: k) (nd d Red t p x))) in H3.
  by rewrite (run_other _ _ _ _ _ _ _ H3).
Qed.

(** A red inner child of the sibling is turned out. *)
Lemma run_erase_turn m d c p k t x b z o y :
  rep m (plug (Frame d c p (nd d Black (nd d Red x b z) o y) :: k) t) →
  ∃ m', erase_turn d p o true m = Some (b, m') ∧
        rep m' (plug (Frame d c p (nd d Black x b (nd d Red z o y)) :: k) t).
Proof.
  intros H0. rewrite plug_flip in H0. unfold erase_turn.
  rewrite (bind_run _ _ _ _ _ (run_child _ _ _ _ _ _ _ H0)), addr_nd.
  change (rep m (plug (Frame d Black o y :: Frame (flip d) c p t :: k) (nd d Red x b z))) in H0.
  rb_run (run_black_nd _ _ _ _ _ _ _ H0) H0 m1 H1.
  rb_run (run_red_nd _ (Frame (flip d) c p t :: k) _ _ _ _ _ H1) H1 m2 H2.
  rewrite <- nd_flip, <- (nd_flip d Black) in H2.
  rb_run (run_rotate _ _ _ _ _ _ _ _ _ _ H2) H2 m3 H3. rewrite nd_flip, nd_flip, <- plug_flip in H3.
  exists m3. split; [|exact H3].
  change (rep m3 (plug k (nd d c t p (nd d Black x b (nd d Red z o y))))) in H3.
  by rewrite (run_other _ _ _ _ _ _ _ H3), addr_nd.
Qed.

(** A red outer child: the sibling takes the place of the parent. *)
Lemma run_erase_finish m d c p k t x o c1 y1 b y2 e :
  rep m (plug (Frame d c p (nd d Black x o (nd e c1 y1 b y2)) :: k) t) →
  ∃ m', erase_finish d p o m = Some (rb_root m', m') ∧
        rep m' (plug k (nd d c (nd d Black t p x) o (nd e Black y1 b y2))).
Proof.
  intros H0. unfold erase_finish.
  rewrite (bind_run _ _ _ _ _ (run_color _ k d c t p _ H0)). rewrite plug_flip in H0.
  rb_run (run_color_nd _ _ _ _ c _ _ _ H0) H0 m1 H1. rewrite <- plug_flip in H1.
  rb_run (run_black_nd _ k _ _ _ _ _ H1) H1 m2 H2.
  change (rep m2 (plug (Frame d Black p (nd d c x o (nd e c1 y1 b y2)) :: k) t)) in H2.
  rewrite plug_flip in H2.
  rewrite (bind_run _ _ _ _ _ (run_other _ _ _ _ _ _ _ H2)), addr_nd.
  rewrite <- nd_flip in H2.
  change (rep m2 (plug (Frame (flip d) c o x :: Frame (flip d) Black p t :: k) (nd e c1 y1 b y2))) in H2.
  rb_run (run_black_nd _ _ _ _ _ _ _ H2) H2 m3 H3.
  change (rep m3 (plug k (nd (flip d) Black (nd (flip d) c (nd e Black y1 b y2) o x) p t))) in H3.
  rewrite nd_flip, nd_flip in H3.
  rb_run (run_rotate _ _ _ _ _ _ _ _ _ _ H3) H3 m4 H4. by exists m4.
Qed.

Lemma run_erase_black fuel m d k c x o y p :
  rep m (plug k (nd d c x o y)) →
  erase_black d fuel p o m =
  (if bool_decide (tcolor x = Black ∧ tcolor y = Black) then
     rb_set_red o;;
     gparent ← rb_parent p;
     rb_erase_color_loop fuel p gparent
   else
     other ← erase_turn d p o (bool_decide (tcolor y = Black));
     erase_finish d p other) m.
Proof.
  intros Hm. unfold erase_black.
  pose proof (run_null_or_black _ (Frame d c o y :: k) _ Hm) as Hx.
  assert (null_or_black (addr y) m = Some (bool_decide (tcolor y = Black), m)) as Hy.
  { rewrite <- nd_flip in Hm. apply (run_null_or_black _ (Frame (flip d) c o x :: k) _ Hm). }
  pose proof (run_other _ _ _ _ _ _ _ Hm) as Ho.
  rewrite bool_decide_and. revert Hx Hy.
  generalize (bool_decide (tcolor x = Black)) (bool_decide (tcolor y = Black)). intros bx by_ Hx Hy.
  rewrite (bind_run _ _ _ _ _ (run_left _ _ _ _ _ _ _ Hm)).
  destruct d; cbn [child];
    (erewrite bind_run; [|eassumption]);
    rewrite (bind_run _ _ _ _ _ (run_right _ _ _ _ _ _ _ Hm)); cbn [child];
    destruct bx, by_;
    (erewrite bind_run; [|first [eassumption|reflexivity]]); cbn [andb]; [done|..];
    try done; rewrite (bind_run _ _ _ _ _ Ho), (bind_run _ _ _ _ _ Hy); done.
Qed.

(** ** The loop *)

Definition blacken (t : tree) : tree :=
  match t with Leaf => Leaf | Node _ l a r => Node Black l a r end.

(** A subtree with one black node too few on each path, or a red root. *)
Definition short (t : tree) (n : nat) : Prop :=
  tcolor t = Black ∧ rb t n ∨ tcolor t = Red ∧ rb (blacken t) (S n).

Lemma blacken_nd d c x a y : blacken (nd d c x a y) = nd d Black x a y.
Proof. by destruct d. Qed.

Lemma blacken_black t : tcolor t = Black → blacken t = t.
Proof. destruct t; cbn; [done|by intros ->]. Qed.

Lemma inorder_blacken t : inorder (blacken t) = inorder t.
Proof. by destruct t. Qed.

Lemma crb_root f k t n : crb (f :: k) n → tcolor (plug (f :: k) t) = Black.
Proof.
  intros Hk. remember (f :: k) as l eqn:El. revert f k t El.
  induction Hk as [n|d a s k n Hs Hk IH|d a s e g u k n Hs Hc Hk IH]; intros f k' t El; [done|..].
  - destruct k as [|f' k]; [by cbn; rewrite tcolor_nd|]. by eapply IH.
  - by eapply IH.
Qed.

Lemma crb_is_rb k t n : crb k n → rb t n → tcolor t = Black → is_rb (plug k t).
Proof.
  intros Hk Ht Hc. split; [|eapply crb_plug; [done|done|]].
  - destruct k as [|f k]; [done|]. by eapply crb_root.
  - by destruct k as [|[? [] ? ?] ?].
Qed.

(** The frame above a hole decides what the context below it expects. *)
Lemma crb_frame d c a s k n t :
  crb (Frame d c a s :: k) n → rb t n → fits (Frame d c a s :: k) t →
  crb k (match c with Red => n | Black => S n end) ∧ rb s n ∧
  rb (nd d c t a s) (match c with Red => n | Black => S n end).
Proof.
  inversion 1; subst; intros Ht Hf; cbn in Hf.
  - split_and!; [done|done|by apply rb_nd_black].
  - split_and!; [done|done|by apply rb_nd_red].
Qed.

Lemma rb_side t n d : rb t (S n) → tcolor t = Black → ∃ x a y, t = nd d Black x a y ∧ rb x n ∧ rb y n.
Proof.
  inversion 1; subst; [done|]. intros _. destruct d; [by exists l, a, r|by exists r, a, l].
Qed.

Lemma rb_side_red t n d :
  rb t n → tcolor t = Red →
  ∃ x a y, t = nd d Red x a y ∧ rb x n ∧ rb y n ∧ tcolor x = Black ∧ tcolor y = Black.
Proof.
  inversion 1; subst; try done. intros _. destruct d; [by exists l, a, r|by exists r, a, l].
Qed.

(** What the loop leaves: blackening the node it returns restores the rules. *)
Definition erased (r : option (Z * rbmem)) (l : list Z) : Prop :=
  ∃ m' k' t', r = Some (addr t', m') ∧ rep m' (plug k' t') ∧ is_rb (plug k' (blacken t')) ∧
    inorder (plug k' t') = l.

(** A subtree that takes the place of a node, with its colour. *)
Lemma crb_replace d c p s k n t :
  crb (Frame d c p s :: k) n → tcolor t = c → rb t (match c with Red => n | Black => S n end) →
  is_rb (plug k t).
Proof.
  inversion 1; subst; intros Hc Ht; [by eapply crb_is_rb|].
  split; [by eapply crb_root|]. by eapply crb_plug.
Qed.

Lemma erase_finish_ok m d c p s k t x o e y1 b y2 n :
  rep m (plug (Frame d c p (nd d Black x o (nd e Red y1 b y2)) :: k) t) →
  crb (Frame d c p s :: k) (S n) → rb t n → rb x n → rb y1 n → rb y2 n →
  erased (erase_finish d p o m)
    (inorder (plug (Frame d c p (nd d Black x o (nd e Red y1 b y2)) :: k) t)).
Proof.
  intros Hm Hk Ht Hx H1 H2. destruct (run_erase_finish _ _ _ _ _ _ _ _ _ _ _ _ _ Hm) as (m' & -> & Hm').
  set (t' := nd d c (nd d Black t p x) o (nd e Black y1 b y2)) in *.
  assert (is_rb (plug k t')) as Hrb.
  { eapply crb_replace; [exact Hk|apply tcolor_nd|]. subst t'.
    destruct c; [apply rb_nd_red; rewrite !tcolor_nd|apply rb_nd_black];
      split_and!; try done; by apply rb_nd_black. }
  exists m', [], (plug k t'). split_and!; [|done| |].
  - by destruct Hm' as (_ & -> & _).
  - cbn. rewrite blacken_black by apply Hrb. done.
  - cbn [plug]. apply inorder_plug. subst t'. destruct d, e; cbn; simplify_list_eq; done.
Qed.

(** The step with a black sibling, given what the loop does on a shorter path. *)
Lemma erase_black_ok fuel m d c p s k t n :
  (∀ m t' n', rep m (plug k t') → crb k (S n') → short t' n' → (tcolor t' = Red ∨ c = Black) →
    erased (rb_erase_color_loop fuel (addr t') (top k) m) (inorder (plug k t'))) →
  rep m (plug (Frame d c p s :: k) t) → crb (Frame d c p s :: k) (S n) →
  tcolor s = Black → rb t n →
  erased (erase_black d fuel p (addr s) m) (inorder (plug (Frame d c p s :: k) t)).
Proof.
  intros IH Hm Hk Hs Ht.
  assert (rb s (S n)) as Hrs by (by inversion Hk).
  destruct (rb_side _ _ d Hrs Hs) as (x & o & y & -> & Hx & Hy). rewrite addr_nd.
  pose proof Hm as H0. rewrite plug_flip in H0. rewrite (run_erase_black _ _ _ _ _ _ _ _ p H0).
  case_bool_decide as Hxy.
  - destruct Hxy as [Cx Cy].
    rb_run (run_red_nd _ _ _ _ _ _ _ H0) H0 m1 H1. rewrite <- plug_flip in H1.
    rewrite (bind_run _ _ _ _ _ (run_parent _ k _ _ _ _ _ H1)).
    set (t' := nd d c t p (nd d Red x o y)).
    assert (p = addr t') as Hp by (subst t'; by rewrite addr_nd). rewrite Hp at 1. clear Hp.
    assert (inorder (plug (Frame d c p (nd d Black x o y) :: k) t) = inorder (plug k t')) as ->.
    { cbn [plug]. apply inorder_plug. subst t'. by destruct d. }
    assert (rb (nd d Red x o y) n) as Hr by (by apply rb_nd_red).
    inversion Hk as [|? ? ? ? ? ? Hk'|? ? ? ? ? ? ? ? ? ? Hk']; subst.
    + apply (IH m1 t' (S n)); [done|done| |by right]. left. subst t'.
      split; [apply tcolor_nd|by apply rb_nd_black].
    + apply (IH m1 t' n); [done|done| |left; apply tcolor_nd]. right. subst t'.
      split; [apply tcolor_nd|]. rewrite blacken_nd. by apply rb_nd_black.
  - case_bool_decide as Cy.
    + assert (tcolor x = Red) as Cx by (destruct (tcolor x); naive_solver).
      destruct (rb_side_red _ _ d Hx Cx) as (x1 & b & z & -> & Hx1 & Hz & _).
      destruct (run_erase_turn _ _ _ _ _ _ _ _ _ _ _ Hm) as (m1 & E1 & H1).
      rewrite (bind_run _ _ _ _ _ E1).
      replace (inorder _) with
        (inorder (plug (Frame d c p (nd d Black x1 b (nd d Red z o y)) :: k) t)).
      2:{ cbn [plug]. apply inorder_plug. destruct d; cbn; simplify_list_eq; done. }
      by eapply erase_finish_ok.
    + assert (tcolor y = Red) as Cy' by (by destruct (tcolor y)).
      destruct (rb_side_red _ _ d Hy Cy') as (y1 & b & y2 & -> & Hy1 & Hy2 & _).
      rewrite (bind_run _ _ m o m) by done. by eapply erase_finish_ok.
Qed.

Lemma erase_loop_ok fuel : ∀ m k t n,
  rep m (plug k t) → crb k (S n) → short t n →
  (tcolor t = Red ∧ (0 < fuel)%nat ∨ (length k < fuel)%nat) →
  erased (rb_erase_color_loop fuel (addr t) (top k) m) (inorder (plug k t)).
Proof.
  induction fuel as [|fuel IH]; intros m k t n Hm Hk Ht Hf; [lia|].
  destruct Ht as [[Ct Ht]|[Ct Ht]].
  2:{ exists m, k, t. split_and!; [|done| |done].
      - cbn [rb_erase_color_loop]. rewrite (bind_run _ _ _ _ _ (run_null_or_black _ _ _ Hm)), Ct.
        by rewrite (bind_run _ _ m (rb_root m) m) by done.
      - eapply crb_is_rb; [done|done|]. by destruct t. }
  destruct k as [|[d c p s] k].
  { exists m, [], t. split_and!; [|done| |done].
    - cbn [rb_erase_color_loop]. rewrite (bind_run _ _ _ _ _ (run_null_or_black _ _ _ Hm)).
      rewrite (bind_run _ _ m (rb_root m) m) by done.
      destruct Hm as (_ & -> & _). cbn. by rewrite Z.eqb_refl, andb_false_r.
    - cbn. rewrite blacken_black by done. by split; [|eexists]. }
  assert (rb s (S n)) as Hs by (by inversion Hk).
  assert (s ≠ Leaf) as Hs0 by (by intros ->; inversion Hs).
  destruct Hf as [[Hf _]|Hf]; [by rewrite Ct in Hf|]. cbn in Hf.
  cbn [top]. rewrite (erase_loop_step _ _ _ _ _ _ _ _ Hm Hs0 Ct). unfold erase_body.
  rewrite (bind_run _ _ _ _ _ (run_other _ k _ _ _ _ _ Hm)).
  pose proof Hm as Hsib. rewrite plug_flip in Hsib.
  destruct s as [|cs x0 o y0]; [done|]. cbn [addr].
  rewrite (bind_run _ _ _ _ _ (run_is_red _ _ L _ _ _ _ Hsib)). clear Hsib.
  destruct cs; cbn [bool_decide].
  - destruct (rb_side_red _ _ d Hs) as (x & o' & y & E & Hx & Hy & Cx & Cy); [done|].
    assert (c = Black) as -> by (by inversion Hk).
    assert (o' = o) as -> by (destruct d; by simplify_eq/=). rewrite E in *.
    destruct (run_erase_red _ _ _ _ _ _ _ _ Hm) as (m1 & E1 & H1).
    rewrite (bind_run _ _ _ _ _ E1).
    replace (inorder _) with (inorder (plug (Frame d Red p x :: Frame d Black o y :: k) t)).
    2:{ cbn [plug]. apply inorder_plug. destruct d; cbn; simplify_list_eq; done. }
    inversion Hk; subst.
    eapply erase_black_ok; [|exact H1|constructor; [done|done|by constructor]|done|done].
    intros m2 t' n' Hm2 Hk2 Ht2 [Hc|]; [|done]. eapply IH; [done|done|done|]. left. split; [done|lia].
  - rewrite (bind_run _ _ m o m) by done. change o with (addr (Node Black x0 o y0)).
    eapply erase_black_ok; [|done|done|done|done].
    intros m2 t' n' Hm2 Hk2 Ht2 _. eapply IH; [done|done|done|]. right. lia.
Qed.

Lemma erase_color_ok fuel m k t n :
  rep m (plug k t) → crb k (S n) → short t n → (length k < fuel)%nat →
  ∃ m' T, __rb_erase_color fuel (addr t) (top k) m = Some (tt, m') ∧ rep m' T ∧ is_rb T ∧
    inorder T = inorder (plug k t).
Proof.
  intros Hm Hk Ht Hf.
  destruct (erase_loop_ok fuel m k t n) as (m1 & k1 & t1 & E & H1 & Hrb & Hi); [done|done|done|by right|].
  unfold __rb_erase_color. rewrite (bind_run _ _ _ _ _ E). destruct t1 as [|c l a r].
  { by exists m1, (plug k1 Leaf). }
  cbn [addr]. rewrite (rep_pos _ _ L _ _ _ _ H1).
  destruct (run_set_black _ _ _ _ _ _ H1) as (m2 & E2 & H2). cbn in Hrb.
  exists m2, (plug k1 (Node Black l a r)). split_and!; [done|done|done|].
  rewrite <- Hi. by apply inorder_plug.
Qed.

(** ** A node with one child at most *)

Lemma rep_unlinked m k d c ch a :
  rep m (plug k (nd d c ch a Leaf)) →
  rep (mk_rbmem (relink k (addr ch) (reparent ch (top k) (rb_nodes m))) (croot k (addr ch)))
    (plug k ch).
Proof.
  intros Hm. pose proof (rep_split _ _ _ Hm) as (N1 & N2 & N3 & A1 & A2).
  apply rep_plug in Hm as (Hs & Hc & Hr & Hg). apply shape_nd in Hs as (_ & Hs & _).
  rewrite inorder_nd in Hg, N1. setoid_rewrite inorder_nd in N2. cbn [inorder] in *.
  rewrite app_nil_r in *. apply list.NoDup_cons in N1 as [Na N1].
  apply rep_plug. cbn [rb_nodes rb_root]. split_and!; [| |done|].
  - eapply shape_ext; [|by eapply reparent_shape]. intros w Hw. apply relink_other.
    apply N2. set_solver.
  - eapply relink_cshape; [done|]. eapply cshape_ext; [|exact Hc]. intros w Hw.
    apply reparent_other. intros Hw'. apply (N2 w); set_solver.
  - destruct Hg as [G1 G2]. cbn [app] in *. apply list.NoDup_cons in G1 as [_ G1].
    by apply list.Forall_cons in G2 as [_ G2].
Qed.

Lemma run_replace_child m k x y :
  cshape (rb_nodes m) k x → rb_root m = croot k x → Forall aligned (around k) → hole_at k x →
  replace_child x y (top k) m = Some (tt, mk_rbmem (relink k y (rb_nodes m)) (croot k y)).
Proof.
  intros H1 H2 H3 H4. rewrite <- (run_redirect L k m x y H1 H2 H3 H4).
  unfold replace_child, redirect. destruct (top k =? 0); [done|].
  unfold mbind, rbM_bind. destruct (rd rb_left (top k) m) as [[]|]; [|done].
  by rewrite Z.eqb_sym.
Qed.

Lemma bind_run_seq {A B C} (x : rbM A) (f : A → rbM B) (g : B → rbM C) m v m' :
  (x ≫= f) m = Some (v, m') → (x ≫= λ u, f u ≫= g) m = g v m'.
Proof.
  unfold mbind, rbM_bind. destruct (x m) as [[u m1]|]; [|done]. by intros ->.
Qed.

Lemma run_unlink m k d c ch a :
  rep m (plug k (nd d c ch a Leaf)) →
  ∃ m', ((if addr ch =? 0 then mret tt else rb_set_parent (addr ch) (top k));;
         replace_child a (addr ch) (top k)) m = Some (tt, m') ∧ rep m' (plug k ch).
Proof.
  intros Hm. pose proof (rep_node _ _ _ _ _ _ _ Hm) as (_ & A0 & A4 & _ & P4).
  pose proof (rep_split _ _ _ Hm) as (N1 & N2 & N3 & A1 & A2).
  pose proof Hm as (Hs & Hc & Hr & _)%rep_plug. apply shape_nd in Hs as (_ & Hs & _).
  rewrite addr_nd in *. setoid_rewrite inorder_nd in N2. rewrite inorder_nd in A1.
  cbn [inorder] in *. rewrite app_nil_r in *. apply list.Forall_cons in A1 as [_ A1].
  eexists. split; [|by eapply rep_unlinked].
  rewrite (bind_run _ _ _ _ _ (run_reparent _ _ _ (top k) Hs A1 A4 P4)).
  apply run_replace_child; cbn [rb_nodes rb_root]; [|done|done|].
  - eapply cshape_ext; [|exact Hc]. intros w Hw. apply reparent_other. intros Hw'.
    apply (N2 w); set_solver.
  - apply around_hole; [apply N2; set_solver|lia].
Qed.

(** The tree after a node of the colour [c] has left, its child [ch] in its place. *)
Lemma unlink_rb k d c ch a N :
  rb (plug k (nd d c ch a Leaf)) N → tcolor (plug k (nd d c ch a Leaf)) = Black →
  match c with Red => is_rb (plug k ch) | Black => ∃ n, crb k (S n) ∧ short ch n end.
Proof.
  intros Hrb Hc. destruct (rb_unplug _ _ _ Hrb Hc) as (n & Hk & Ht & Hf). destruct c.
  - apply rb_nd_red in Ht as (H1 & _ & H2 & _). by eapply crb_is_rb.
  - assert (∃ n', n = S n') as [n' ->] by (destruct d; inversion Ht; eauto).
    apply rb_nd_black in Ht as [H1 H2]. inversion H2; subst. exists 0%nat. split; [done|].
    destruct ch as [|[] l b r]; [by left|right|by left]. split; [done|].
    apply (rb_nd_red L) in H1 as (R1 & R2 & _). by constructor.
Qed.

Lemma erase_one_ok fuel m k d c ch a :
  rep m (plug k (nd d c ch a Leaf)) → is_rb (plug k (nd d c ch a Leaf)) → (length k < fuel)%nat →
  ∃ m' T, rb_erase_one fuel a (addr ch) m = Some (tt, m') ∧ rep m' T ∧ is_rb T ∧
    inorder T = inorder (plug k ch).
Proof.
  intros Hm [Hc [N Hrb]] Hf. unfold rb_erase_one.
  rewrite (bind_run _ _ _ _ _ (run_parent _ _ _ _ _ _ _ Hm)).
  rewrite (bind_run _ _ _ _ _ (run_color _ _ _ _ _ _ _ Hm)).
  destruct (run_unlink _ _ _ _ _ _ Hm) as (m1 & E1 & H1).
  pose proof (unlink_rb _ _ _ _ _ _ Hrb Hc) as Hu.
  rewrite (bind_run_seq _ _ _ _ _ _ E1). destruct c; cbn.
  - by exists m1, (plug k ch).
  - destruct Hu as (n & Hk & Hs). by eapply erase_color_ok.
Qed.

(** ** A node with two children *)

Lemma plug_app k k' t : plug (k ++ k') t = plug k' (plug k t).
Proof. revert t. induction k as [|[d c a s] k IH]; intros t; cbn; [done|by rewrite IH]. Qed.

Lemma around_app k k' : around (k ++ k') ≡ₚ around k ++ around k'.
Proof. induction k as [|[d c a s] k IH]; cbn; [done|]. rewrite IH. solve_Permutation. Qed.

(** The first node of a subtree. *)
Definition lefts (k : list frame) : Prop := Forall (λ f, match f with Frame d _ _ _ => d = L end) k.

Lemma inorder_lefts k t : lefts k → inorder (plug k t) = inorder t ++ inorder (plug k Leaf).
Proof.
  intros Hk. revert t. induction Hk as [|[d c a s] k -> Hk IH]; intros t; cbn; [by rewrite app_nil_r|].
  rewrite IH, (IH (Node c Leaf a s)). cbn. by rewrite <- app_assoc.
Qed.

Lemma leftmost_ok fuel : ∀ m k c l a r,
  rep m (plug k (Node c l a r)) → (length (inorder l) < fuel)%nat →
  ∃ k' c' s sr, leftmost fuel a m = Some (s, m) ∧ lefts k' ∧
    Node c l a r = plug k' (Node c' Leaf s sr).
Proof.
  induction fuel as [|fuel IH]; intros m k c l a r Hm Hf; [lia|]. cbn [leftmost].
  rewrite (bind_run _ _ _ _ _ (run_left _ _ L _ _ _ _ Hm)). cbn [child].
  destruct l as [|c' l' b r']; cbn [addr].
  { exists [], c, a, r. split_and!; [done|constructor|done]. }
  change (rep m (plug (Frame L c a r :: k) (Node c' l' b r'))) in Hm.
  rewrite (rep_pos _ _ L _ _ _ _ Hm).
  destruct (IH _ _ _ _ _ _ Hm) as (k1 & c1 & s & sr & E & Hk & Ht).
  { cbn in Hf. rewrite length_app in Hf. cbn in Hf. lia. }
  exists (k1 ++ [Frame L c a r]), c1, s, sr. split_and!; [done| |].
  - apply list.Forall_app. split; [done|by repeat constructor].
  - by rewrite plug_app, <- Ht.
Qed.

(** A node takes the place of another. *)
Lemma rep_replaced m m' k c l a r s :
  rep m (plug k (Node c l a r)) → s ∉ inorder (plug k (Node c l a r)) → aligned s →
  rb_nodes m' !! s = Some (cell (top k) c (addr l) (addr r)) →
  (∀ w, w ≠ s → w ≠ a →
    rb_nodes m' !! w = relink k s (reparent l s (reparent r s (rb_nodes m))) !! w) →
  rb_root m' = croot k s → rep m' (plug k (Node c l s r)).
Proof.
  intros Hm Hs Has Hcell Ho Hroot. pose proof Hm as (Hsh & Hc & _ & Hg)%rep_plug.
  destruct Hsh as (_ & Hl & Hr). rewrite inorder_plug_perm in Hs.
  cbn [inorder addr] in *. rewrite <- Permutation_middle in Hg, Hs. cbn [app] in Hg, Hs.
  destruct Hg as [Hg Hal]. pose proof Hg as [Na N]%list.NoDup_cons.
  rewrite <- app_assoc in N. apply list.NoDup_app in N as (Nl & Nl' & N).
  apply list.NoDup_app in N as (Nr & Nr' & N).
  apply rep_plug. cbn [shape addr inorder]. split_and!; [done| | | |done|].
  - eapply shape_ext; [|by eapply (reparent_shape (rb_nodes m) _ a)]. intros w Hw. rewrite Ho by set_solver.
    rewrite relink_other by set_solver. apply reparent_cong. apply reparent_other. set_solver.
  - eapply shape_ext; [|by eapply (reparent_shape (rb_nodes m) _ a)]. intros w Hw. rewrite Ho by set_solver.
    rewrite relink_other, reparent_other by set_solver. done.
  - eapply cshape_ext; [|eapply relink_cshape; [done|exact Hc]]. intros w Hw.
    rewrite Ho by set_solver. apply relink_cong. rewrite !reparent_other by set_solver. done.
  - rewrite <- Permutation_middle. cbn [app]. apply list.Forall_cons in Hal as [_ Hal].
    apply list.NoDup_cons in Hg as [_ Hg]. split; constructor; try done. intros Hin. apply Hs. by right.
Qed.

Lemma run_set_parent_root m t p q :
  shape (rb_nodes m) p t → t ≠ Leaf → Forall aligned (inorder t) → p mod 4 = 0 → q mod 4 = 0 →
  rb_set_parent (addr t) q m = Some (tt, mk_rbmem (reparent t q (rb_nodes m)) (rb_root m)).
Proof.
  intros Hs Ht Hal Hp Hq. rewrite <- (run_reparent m t p q) by done.
  destruct t as [|c l a r]; [done|]. cbn [addr]. rewrite (proj2 (Z.eqb_neq a 0)); [done|].
  apply aligned_ne. rewrite list.Forall_forall in Hal. apply Hal. cbn. set_solver.
Qed.

Lemma shape_insert h p t a n : a ∉ inorder t → shape h p t → shape (<[a := n]> h) p t.
Proof. intros Ha. apply shape_ext. intros w Hw. apply lookup_insert_ne. by intros ->. Qed.

(** The successor gets the parent, the colour and the left subtree of the node. *)
Lemma run_take_place {A} (K : rbM A) m p c l a xr s ns :
  rb_nodes m !! a = Some (cell p c (addr l) xr) → rb_nodes m !! s = Some ns →
  shape (rb_nodes m) a l → l ≠ Leaf → Forall aligned (inorder l) → s ∉ inorder l → s ≠ a →
  a mod 4 = 0 → s mod 4 = 0 →
  (pc ← rd rb_parent_color a;
   wr (λ n, n <| rb_parent_color := pc |>) s;;
   oleft ← rd rb_left a;
   set_left s oleft;;
   rb_set_parent oleft s;;
   K) m =
  K (mk_rbmem (reparent l s (<[s := cell p c (addr l) (rb_right ns)]> (rb_nodes m))) (rb_root m)).
Proof.
  intros Ha Hs Hl Hne Hal Hsl Hsa A4 S4. unfold set_left.
  do 4 (erewrite bind_run; [|first [apply rd_run; rb_lookup|apply wr_run; rb_lookup]]).
  unfold set_node. cbn [rb_nodes rb_root]. rewrite insert_insert_eq.
  set (h := <[s := _]> (rb_nodes m)).
  by rewrite (bind_run _ _ _ _ _ (run_set_parent_root (mk_rbmem h (rb_root m)) l a s
    (shape_insert _ _ _ _ _ Hsl Hl) Hne Hal A4 S4)).
Qed.

(** The successor leaves its place, and gets the right subtree of the node. *)
Lemma run_leave_place m h b c' u K' s sr ns a na r' :
  let K := Frame L c' b u :: K' in
  h = relink K (addr sr) (reparent sr (top K) (rb_nodes m)) →
  rb_nodes m !! b = Some (dcell L (top K') c' s (addr u)) → shape (rb_nodes m) s sr →
  b ∉ inorder sr → Forall aligned (inorder sr) → s mod 4 = 0 → b mod 4 = 0 →
  h !! a = Some na → h !! s = Some ns → a ≠ s → rb_right na = addr r' → r' ≠ Leaf →
  shape h a r' → a mod 4 = 0 → s ∉ inorder r' → Forall aligned (inorder r') →
  ((if addr sr =? 0 then mret tt else rb_set_parent (addr sr) b);;
   set_left b (addr sr);;
   oright ← rd rb_right a;
   set_right s oright;;
   rb_set_parent oright s;;
   mret b) m =
  Some (b, mk_rbmem (reparent r' s (<[s := ns <| rb_right := addr r' |>]> h)) (rb_root m)).
Proof.
  intros K Hh Hb Hsr Hbsr Hal S4 B4 Ha Hs Has Hna Hr' Hshape A4 Hsr' Hal'. unfold set_left, set_right.
  rewrite (bind_run _ _ _ _ _ (run_reparent m sr s b Hsr Hal S4 B4)).
  assert (reparent sr b (rb_nodes m) !! b = Some (dcell L (top K') c' s (addr u))) as Hb'.
  { by rewrite reparent_other. }
  erewrite bind_run; [|apply wr_run, Hb'].
  replace (set_node b _ _) with (mk_rbmem h (rb_root m)) by (by subst h).
  rewrite (bind_run _ _ _ _ _ (rd_run rb_right a (mk_rbmem h (rb_root m)) _ Ha)), Hna.
  erewrite bind_run; [|apply wr_run, Hs]. unfold set_node. cbn [rb_nodes rb_root].
  set (h' := <[s := _]> h).
  by rewrite (bind_run _ _ _ _ _ (run_set_parent_root (mk_rbmem h' (rb_root m)) r' a s
    (shape_insert _ _ _ _ _ Hsr' Hshape) Hr' Hal' A4 S4)).
Qed.

Lemma reparent_id h p t w : shape h p t → reparent t p h !! w = h !! w.
Proof.
  destruct t as [|c l a r]; cbn; [done|]. intros [Ha _].
  destruct (decide (a = w)) as [->|Hne]; [by rewrite lookup_insert_eq|by rewrite lookup_insert_ne].
Qed.

Lemma reparent_twice h p q t w : reparent t p (reparent t q h) !! w = reparent t p h !! w.
Proof. destruct t as [|c l a r]; cbn; [done|]. by rewrite insert_insert_eq. Qed.

(** The addresses around two nodes of which one is the successor of the other. *)
Lemma successor_disjoint k c l a kr cn s sr :
  good (inorder (Node c l a (plug kr (Node cn Leaf s sr))) ++ around k) →
  s ≠ a ∧ a ∉ around k ∧ s ∉ around k ∧ a ∉ inorder l ∧ s ∉ inorder l ∧ a ∉ inorder sr ∧
  s ∉ inorder sr ∧ a ∉ around kr ∧ s ∉ around kr ∧
  (∀ w, w ∈ around k → w ∉ inorder l ∧ w ∉ inorder sr ∧ w ∉ around kr) ∧
  (∀ w, w ∈ inorder l → w ∉ inorder sr ∧ w ∉ around kr) ∧
  (∀ w, w ∈ inorder sr → w ∉ around kr) ∧
  Forall aligned (inorder l) ∧ Forall aligned (inorder sr) ∧ Forall aligned (around kr).
Proof.
  cbn [inorder]. rewrite inorder_plug_perm. cbn [inorder app]. intros [Hg Hal].
  assert (inorder l ++ a :: s :: inorder sr ++ around kr ++ around k ≡ₚ
    (inorder l ++ a :: s :: inorder sr ++ around kr) ++ around k) as Hp by solve_Permutation.
  rewrite <- Hp in Hg, Hal. clear Hp.
  apply list.NoDup_app in Hg as (_ & H1 & Hg). apply list.NoDup_cons in Hg as [H2 Hg].
  apply list.NoDup_cons in Hg as [H3 Hg]. apply list.NoDup_app in Hg as (_ & H4 & Hg).
  apply list.NoDup_app in Hg as (_ & H5 & _). rewrite list.Forall_forall in Hal.
  rewrite !list.Forall_forall. split_and!; set_solver.
Qed.

Definition erase_leave (old node child parent : Z) : rbM Z :=
  (if child =? 0 then mret tt else rb_set_parent child parent);;
  set_left parent child;;
  oright ← rd rb_right old;
  set_right node oright;;
  rb_set_parent oright node;;
  mret parent.

Definition erase_take (fuel : nat) (old node child color parent : Z) : rbM unit :=
  pc ← rd rb_parent_color old;
  wr (λ n, n <| rb_parent_color := pc |>) node;;
  oleft ← rd rb_left old;
  set_left node oleft;;
  rb_set_parent oleft node;;
  if color =? RB_BLACK then __rb_erase_color fuel child parent else mret tt.

Lemma relink_app kr d c a l k y h w :
  w ∉ around kr → w ≠ a → relink (kr ++ Frame d c a l :: k) y h !! w = h !! w.
Proof.
  destruct kr as [|[e c' b u] kr]; cbn [app relink]; intros H1 H2; apply lookup_insert_ne; [done|].
  intros ->. apply H1. by left.
Qed.

Section Successor.
Context (m : rbmem) (k : list frame) (c : color) (l : tree) (a : Z).
Context (kr : list frame) (cn : color) (s : Z) (sr : tree).

Let r := plug kr (Node cn Leaf s sr).
Let K := kr ++ Frame R c a l :: k.

Hypothesis Hm : rep m (plug k (Node c l a r)).
Hypothesis Hl : l ≠ Leaf.

(** The memory after the node above [a] points to [s], and the one in which [s] has
    been unlinked as a node with one child. *)
Definition linked : rbmem := mk_rbmem (relink k s (rb_nodes m)) (croot k s).
Definition unlinked : gmap Z rb_node := relink K (addr sr) (reparent sr (top K) (rb_nodes m)).

Lemma successor_rep : rep m (plug K (nd R cn sr s Leaf)).
Proof. unfold K. rewrite plug_app. exact Hm. Qed.

Lemma unlinked_rep : rep (mk_rbmem unlinked (croot K (addr sr))) (plug k (Node c l a (plug kr sr))).
Proof.
  pose proof (rep_unlinked _ _ _ _ _ _ successor_rep) as HA.
  replace (plug K sr) with (plug k (Node c l a (plug kr sr))) in HA; [exact HA|].
  unfold K. by rewrite plug_app.
Qed.

Lemma successor_facts :
  s mod 4 = 0 ∧ a mod 4 = 0 ∧ top K mod 4 = 0 ∧ shape (rb_nodes m) a l ∧ shape (rb_nodes m) s sr ∧
  rb_nodes linked !! s = Some (cell (top K) cn 0 (addr sr)) ∧
  rb_nodes linked !! a = Some (cell (top k) c (addr l) (addr r)) ∧ aligned s.
Proof.
  pose proof (rep_node _ _ _ _ _ _ _ successor_rep) as (Hs & S0 & S4 & _ & T4).
  pose proof (rep_node _ _ L _ _ _ _ Hm) as (Ha & _ & A4 & _).
  pose proof Hm as ((_ & Hsl & _) & _ & _ & Hg)%rep_plug.
  pose proof successor_rep as (Hsh & _)%rep_plug. apply shape_nd in Hsh as (_ & Hssr & _).
  destruct (successor_disjoint _ _ _ _ _ _ _ _ Hg) as (_ & D2 & D3 & _).
  split_and!; [done|done|done|done|done| | |done]; cbn [linked rb_nodes];
    rewrite relink_other by done; [exact Hs|exact Ha].
Qed.

Lemma erase_two_prefix fuel :
  leftmost fuel (addr r) m = Some (s, m) →
  rb_erase_two fuel a m =
  (parent ← (if top K =? a then mret s else erase_leave a s (addr sr) (top K));
   erase_take fuel a s (addr sr) (cbit cn) parent) linked.
Proof.
  intros Hleft. destruct successor_facts as (_ & _ & T4 & _ & _ & Hs & _).
  pose proof (rep_node _ _ L _ _ _ _ Hm) as (_ & A0 & _).
  pose proof Hm as (_ & Hc & Hroot & Hg)%rep_plug.
  pose proof (rep_split _ _ _ Hm) as (_ & _ & _ & _ & A2).
  destruct (successor_disjoint _ _ _ _ _ _ _ _ Hg) as (_ & D2 & _). unfold rb_erase_two.
  rewrite (bind_run _ _ _ _ _ (run_right _ _ L _ _ _ _ Hm)). cbn [child].
  rewrite (bind_run _ _ _ _ _ Hleft), (bind_run _ _ _ _ _ (run_parent _ _ L _ _ _ _ Hm)).
  rewrite (bind_run _ _ _ _ _ (run_replace_child m k a s Hc Hroot A2 (around_hole _ _ D2 ltac:(lia)))).
  fold linked. rewrite (bind_run _ _ _ _ _ (rd_run _ _ _ _ Hs)). cbn [cell rb_right].
  unfold rb_parent, rb_color.
  rewrite (bind_run _ _ _ _ _ (rd_run _ _ _ _ Hs)), (parent_cell L) by done.
  rewrite (bind_run _ _ _ _ _ (rd_run _ _ _ _ Hs)), (color_cell L) by done. done.
Qed.

(** The subtree [l] in the memories on the way. *)
Lemma successor_left h :
  (∀ w, w ∈ inorder l → h !! w = rb_nodes m !! w) → shape h a l.
Proof. intros Hh. destruct successor_facts as (_ & _ & _ & Hsl & _). by eapply shape_ext. Qed.

(** The tree at the end, with [s] in the place of [a]. *)
Lemma successor_placed m' :
  rb_nodes m' !! s = Some (cell (top k) c (addr l) (addr (plug kr sr))) →
  (∀ w, w ≠ s → w ≠ a → w ∉ around k →
    rb_nodes m' !! w = reparent l s (reparent (plug kr sr) s unlinked) !! w) →
  (∀ w, w ∈ around k → rb_nodes m' !! w = relink k s (rb_nodes m) !! w) →
  rb_root m' = croot k s → rep m' (plug (kr ++ Frame R c s l :: k) sr).
Proof.
  intros Hs Ho Hk Hroot. rewrite plug_app.
  pose proof Hm as (_ & _ & _ & Hg)%rep_plug. destruct (successor_disjoint _ _ _ _ _ _ _ _ Hg)
    as (D1 & D2 & D3 & D4 & D5 & D6 & D7 & D8 & D9 & D10 & D11 & D12 & F1 & F2 & F3).
  destruct successor_facts as (_ & _ & _ & _ & _ & _ & _ & As).
  apply (rep_replaced _ _ k c l a (plug kr sr) s unlinked_rep); [|done|done| |done].
  { rewrite inorder_plug_perm. cbn [inorder]. rewrite inorder_plug_perm. set_solver. }
  intros w Hw1 Hw2. destruct (decide (w ∈ around k)) as [Hw|Hw].
  - rewrite Hk by done. apply relink_cong. cbn [rb_nodes]. destruct (D10 w Hw) as (E1 & E2 & E3).
    rewrite !reparent_other; [|rewrite inorder_plug_perm; set_solver|done].
    unfold unlinked, K. rewrite relink_app, reparent_other by done. done.
  - rewrite Ho, relink_other by done. done.
Qed.

(** The successor is the child of [a]. *)
Lemma erase_two_child fuel :
  kr = [] → ∃ m', rep m' (plug (kr ++ Frame R c s l :: k) sr) ∧
    erase_take fuel a s (addr sr) (cbit cn) s linked =
    (if cbit cn =? RB_BLACK then __rb_erase_color fuel (addr sr) s else mret tt) m'.
Proof.
  intros Hkr. pose proof Hm as (_ & _ & _ & Hg)%rep_plug. destruct (successor_disjoint _ _ _ _ _ _ _ _ Hg)
    as (D1 & D2 & D3 & D4 & D5 & D6 & D7 & D8 & D9 & D10 & D11 & D12 & F1 & F2 & F3).
  destruct successor_facts as (S4 & A4 & _ & _ & Hssr & Hs & Ha & _). unfold erase_take.
  erewrite run_take_place; [|exact Ha|exact Hs| |done|done|done|done|done|done].
  2:{ apply successor_left. intros w Hw. apply relink_other. intros Hk. by destruct (D10 w Hk). }
  eexists. split; [|reflexivity]. cbn [rb_nodes rb_root cell rb_right linked].
  apply successor_placed; [| | |done]; cbn [rb_nodes].
  - rewrite reparent_other, lookup_insert_eq by done. by rewrite Hkr.
  - intros w Hw1 Hw2 Hk. apply reparent_cong. rewrite lookup_insert_ne, relink_other by done.
    rewrite Hkr. cbn [plug]. rewrite <- (reparent_id (rb_nodes m) s sr w Hssr).
    rewrite <- (reparent_twice (rb_nodes m) s (top K) sr w). apply reparent_cong.
    unfold unlinked, K. rewrite Hkr. cbn. by rewrite lookup_insert_ne.
  - intros w Hk. destruct (D10 w Hk) as (E1 & _ & _). rewrite reparent_other by done.
    apply lookup_insert_ne. by intros ->.
Qed.

(** The successor is further down, below [b]. *)
Lemma erase_two_below fuel c' b u kr0 :
  kr = Frame L c' b u :: kr0 → ∃ m', rep m' (plug (kr ++ Frame R c s l :: k) sr) ∧
    (parent ← erase_leave a s (addr sr) b; erase_take fuel a s (addr sr) (cbit cn) parent) linked =
    (if cbit cn =? RB_BLACK then __rb_erase_color fuel (addr sr) b else mret tt) m'.
Proof.
  intros Hkr. pose proof Hm as (_ & _ & _ & Hg)%rep_plug. destruct (successor_disjoint _ _ _ _ _ _ _ _ Hg)
    as (D1 & D2 & D3 & D4 & D5 & D6 & D7 & D8 & D9 & D10 & D11 & D12 & F1 & F2 & F3).
  destruct successor_facts as (S4 & A4 & T4 & _ & Hssr & Hs & Ha & _).
  set (r' := plug kr sr).
  assert (b ∈ around kr) as Hb by (rewrite Hkr; by left).
  assert (b ∉ inorder sr ∧ b ∉ around k ∧ b mod 4 = 0) as (B1 & B2 & B4).
  { split_and!; [by intros ?%D12|by intros (_ & _ & ?)%D10|].
    rewrite list.Forall_forall in F3. by apply F3. }
  assert (K = Frame L c' b u :: (kr0 ++ Frame R c a l :: k)) as HK by (unfold K; by rewrite Hkr).
  pose proof successor_rep as (_ & Hcb & _)%rep_plug. rewrite HK in Hcb. destruct Hcb as (Hcb & _).
  cbn [addr nd] in Hcb.
  set (h2 := relink K (addr sr) (reparent sr (top K) (rb_nodes linked))).
  assert (∀ w, w ∉ around k → h2 !! w = unlinked !! w) as H2.
  { intros w Hw. apply relink_cong, reparent_cong. by apply relink_other. }
  assert (∀ w, w ≠ b → w ∉ inorder sr → h2 !! w = rb_nodes linked !! w) as H3.
  { intros w E1 E2. subst h2. rewrite HK. cbn [relink].
    by rewrite lookup_insert_ne, reparent_other. }
  assert (inorder (plug kr sr) ≡ₚ inorder sr ++ around kr) as Hr by apply inorder_plug_perm.
  assert (plug kr sr ≠ Leaf) as Hleaf.
  { intros E. rewrite E in Hr. assert (b ∈ ([] : list Z)) as Hn; [|by apply elem_of_nil in Hn].
    cbn [inorder] in Hr. rewrite Hr. by apply elem_of_app; right. }
  assert (∀ w, w ∈ inorder (plug kr sr) → w ∉ around k ∧ w ≠ a ∧ w ≠ s ∧ w ∉ inorder l) as Hin.
  { intros w. rewrite Hr. intros [Hw|Hw]%elem_of_app; split_and!;
      first [by intros ->|by intros (_ & ? & ?)%D10|by intros [? ?]%D11]. }
  destruct (Hin b) as (_ & Ba & Bs & _); [rewrite Hr; by apply elem_of_app; right|].
  pose proof unlinked_rep as ((_ & _ & HAr) & _)%rep_plug. cbn [rb_nodes] in HAr.
  erewrite (bind_run (erase_leave a s (addr sr) b)).
  2:{ eapply (run_leave_place linked h2 b c' u (kr0 ++ Frame R c a l :: k) s sr _ a _ (plug kr sr)).
      - by rewrite <- HK.
      - cbn. by rewrite relink_other.
      - eapply shape_ext; [|exact Hssr]. intros w Hw. apply relink_other.
        apply (Hin w). rewrite Hr. by apply elem_of_app; left.
      - done.
      - done.
      - done.
      - done.
      - rewrite H3; [exact Ha|done|done].
      - rewrite H3; [exact Hs|done|done].
      - done.
      - cbn. unfold r. rewrite !addr_plug. by rewrite Hkr.
      - done.
      - eapply shape_ext; [|exact HAr]. intros w Hw. apply H2. by apply Hin.
      - done.
      - intros Hs'. by destruct (Hin s Hs') as (_ & _ & ? & _).
      - rewrite Hr. apply list.Forall_app. by split. }
  unfold erase_take. set (n3 := reparent (plug kr sr) s _).
  assert (∀ w, w ≠ s → w ∉ inorder (plug kr sr) → n3 !! w = rb_nodes linked !! w) as H4.
  { intros w E1 E2. subst n3. rewrite reparent_other, lookup_insert_ne by done. apply H3.
    - intros ->. apply E2. rewrite Hr. by apply elem_of_app; right.
    - intros E3. apply E2. rewrite Hr. by apply elem_of_app; left. }
  assert (s ∉ inorder (plug kr sr) ∧ a ∉ inorder (plug kr sr)) as [Is Ia].
  { split; intros Hi; by destruct (Hin _ Hi) as (_ & ? & ? & _). }
  erewrite run_take_place; [|cbn [rb_nodes]; rewrite H4 by done; exact Ha
    |cbn [rb_nodes]; subst n3; rewrite reparent_other by done; apply lookup_insert_eq
    | |done|done|done|done|done|done].
  2:{ apply successor_left. intros w Hw. cbn [rb_nodes]. rewrite H4.
      - apply relink_other. intros Hk. by destruct (D10 w Hk).
      - by intros ->.
      - intros Hi. by destruct (Hin w Hi) as (_ & _ & _ & ?). }
  eexists. split; [|reflexivity]. cbn [rb_nodes rb_root set_fld set_rb_right rb_right].
  apply successor_placed; [| | |done]; cbn [rb_nodes].
  - by rewrite reparent_other, lookup_insert_eq.
  - intros w E1 E2 E3. apply reparent_cong. rewrite lookup_insert_ne by done. subst n3.
    apply reparent_cong. rewrite lookup_insert_ne by done. by apply H2.
  - intros w Hk. destruct (D10 w Hk) as (E1 & E2 & E3). rewrite reparent_other by done.
    rewrite lookup_insert_ne by (by intros ->). apply H4; [by intros ->|].
    intros Hi. by destruct (Hin w Hi).
Qed.

End Successor.

(** The rules do not depend on the addresses. *)
Lemma is_rb_rename k c l a s r : is_rb (plug k (Node c l a r)) → is_rb (plug k (Node c l s r)).
Proof.
  intros [Hc [N Hrb]]. destruct (rb_unplug _ _ _ Hrb Hc) as (n & Hk & Ht & Hf).
  split.
  - destruct k as [|f k]; [done|]. by eapply crb_root.
  - eapply crb_plug; [done| |by destruct k as [|[? [] ? ?] ?]]. inversion Ht; by constructor.
Qed.

Lemma inorder_context k : ∃ pre post, ∀ t, inorder (plug k t) = pre ++ inorder t ++ post.
Proof.
  induction k as [|[d c a s] k (pre & post & IH)].
  - exists [], []. intros t. cbn. by rewrite app_nil_r.
  - destruct d.
    + exists pre, (a :: inorder s ++ post). intros t. cbn. rewrite IH. cbn. by simplify_list_eq.
    + exists (pre ++ inorder s ++ [a]), post. intros t. cbn. rewrite IH. cbn. by simplify_list_eq.
Qed.

Lemma erase_two_ok fuel m k c l a r :
  rep m (plug k (Node c l a r)) → is_rb (plug k (Node c l a r)) → l ≠ Leaf → r ≠ Leaf →
  (length (inorder (plug k (Node c l a r))) < fuel)%nat →
  ∃ m' T, rb_erase_two fuel a m = Some (tt, m') ∧ rep m' T ∧ is_rb T ∧
    ∃ pre post, inorder (plug k (Node c l a r)) = pre ++ a :: post ∧ inorder T = pre ++ post.
Proof.
  intros Hm Hrb Hl Hr Hf. destruct r as [|c1 l1 b r1]; [done|].
  assert (rep m (plug (Frame R c a l :: k) (Node c1 l1 b r1))) as Hm1 by exact Hm.
  destruct (inorder_context k) as (pre & post & Hi).
  destruct (leftmost_ok fuel _ _ _ _ _ _ Hm1) as (kr & cn & s & sr & E & Hkr & Ht).
  { rewrite Hi in Hf. cbn in Hf. repeat (rewrite length_app in Hf; cbn in Hf). lia. }
  change b with (addr (Node c1 l1 b r1)) in E. rewrite Ht in E, Hm, Hrb, Hf |- *. clear Hm1 Ht Hr.
  set (k' := kr ++ Frame R c s l :: k).
  assert (∃ m', rep m' (plug k' sr) ∧ rb_erase_two fuel a m =
    (if cbit cn =? RB_BLACK then __rb_erase_color fuel (addr sr) (top k') else mret tt) m')
    as (m1 & H1 & ->).
  { rewrite (erase_two_prefix _ _ _ _ _ _ _ _ _ Hm fuel E).
    destruct kr as [|[d c' w u] kr].
    - cbn [app top]. rewrite Z.eqb_refl, (bind_run _ _ (linked m k s) s (linked m k s)) by done.
      by apply (erase_two_child _ _ _ _ _ _ _ _ _ Hm Hl).
    - assert (d = L) as -> by (by inversion Hkr). cbn [app top].
      pose proof Hm as (_ & _ & _ & Hg)%rep_plug.
      destruct (successor_disjoint _ _ _ _ _ _ _ _ Hg) as (_ & _ & _ & _ & _ & _ & _ & D8 & _).
      rewrite (proj2 (Z.eqb_neq w a)) by (intros ->; apply D8; by left).
      by apply (erase_two_below _ _ _ _ _ _ _ _ _ Hm Hl _ c' w u kr). }
  assert (plug k' (nd R cn sr s Leaf) = plug k (Node c l s (plug kr (Node cn Leaf s sr)))) as Hk'
    by (subst k'; by rewrite plug_app).
  pose proof (is_rb_rename _ _ _ _ s _ Hrb) as [Hc' [N' Hrb']]. rewrite <- Hk' in Hc', Hrb'.
  pose proof (unlink_rb _ _ _ _ _ _ Hrb' Hc') as Hu.
  assert (inorder (plug k' sr) = (pre ++ inorder l) ++ s :: inorder (plug kr sr) ++ post) as Hin.
  { subst k'. rewrite plug_app. cbn [plug nd]. rewrite Hi. cbn. by simplify_list_eq. }
  assert (inorder (plug k (Node c l a (plug kr (Node cn Leaf s sr)))) =
    (pre ++ inorder l) ++ a :: s :: inorder (plug kr sr) ++ post) as Hin0.
  { rewrite Hi. cbn. rewrite (inorder_lefts _ _ Hkr), (inorder_lefts _ sr Hkr). cbn. by simplify_list_eq. }
  destruct cn; cbn [cbit].
  - exists m1, (plug k' sr). split_and!; [done|done|done|]. by eexists _, _.
  - destruct Hu as (n & Hk & Hs).
    destruct (erase_color_ok fuel m1 k' sr n) as (m2 & T & E2 & H2 & HT & HiT); [done|done|done| |].
    { pose proof (length_context k' sr) as Hlen. rewrite Hin in Hlen. rewrite Hin0 in Hf.
      repeat (rewrite length_app in Hlen, Hf; cbn in Hlen, Hf). lia. }
    exists m2, T. split_and!; [done|done|done|]. rewrite HiT. by eexists _, _.
Qed.

(** ** Erasure *)

Lemma focus_on T a : a ∈ inorder T → ∃ k c l r, T = plug k (Node c l a r).
Proof.
  enough (∀ T k, a ∈ inorder T → ∃ k' c l r, plug k T = plug k' (Node c l a r)) as Hx
    by (intros Ha; apply (Hx T [] Ha)).
  clear T. intros T. induction T as [|c l IHl b r IHr]; intros k Ha; [by apply elem_of_nil in Ha|].
  cbn in Ha. apply elem_of_app in Ha as [Ha|[->|Ha]%elem_of_cons].
  - apply (IHl (Frame L c b r :: k) Ha).
  - by exists k, c, l, r.
  - apply (IHr (Frame R c b l :: k) Ha).
Qed.

Lemma erase_local_ok fuel m T a :
  rep m T → is_rb T → a ∈ inorder T → (length (inorder T) < fuel)%nat →
  ∃ m' T', rb_erase fuel a m = Some (tt, m') ∧ rep m' T' ∧ is_rb T' ∧
    ∃ pre post, inorder T = pre ++ a :: post ∧ inorder T' = pre ++ post.
Proof.
  intros Hm Hrb Ha Hf. destruct (focus_on T a Ha) as (k & c & l & r & ->). unfold rb_erase.
  destruct (inorder_context k) as (pre & post & Hi).
  pose proof (length_context k (Node c l a r)) as Hlen.
  rewrite (bind_run _ _ _ _ _ (run_left _ _ L _ _ _ _ Hm)). cbn [child].
  destruct l as [|cl ll b lr].
  { cbn [addr Z.eqb]. rewrite (bind_run _ _ _ _ _ (run_right _ _ L _ _ _ _ Hm)). cbn [child].
    destruct (erase_one_ok fuel m k R c r a Hm Hrb) as (m' & T & E & H1 & HT & Ht); [lia|].
    exists m', T. split_and!; [done|done|done|]. exists pre, (inorder r ++ post).
    rewrite Ht, !Hi. cbn. done. }
  assert (rep m (plug (Frame L c a r :: k) (Node cl ll b lr))) as Hl by exact Hm.
  cbn [addr]. rewrite (rep_pos _ _ L _ _ _ _ Hl).
  rewrite (bind_run _ _ _ _ _ (run_right _ _ L _ _ _ _ Hm)). cbn [child].
  destruct r as [|cr rl d rr].
  { cbn [addr Z.eqb]. destruct (erase_one_ok fuel m k L c (Node cl ll b lr) a Hm Hrb)
      as (m' & T & E & H1 & HT & Ht); [lia|].
    exists m', T. split_and!; [done|done|done|]. exists (pre ++ inorder (Node cl ll b lr)), post.
    rewrite Ht, !Hi. cbn. by simplify_list_eq. }
  assert (rep m (plug (Frame R c a (Node cl ll b lr) :: k) (Node cr rl d rr))) as Hr by exact Hm.
  cbn [addr]. rewrite (rep_pos _ _ L _ _ _ _ Hr). by apply (erase_two_ok _ _ k c).
Qed.

Lemma framed_leftmost fuel p : framed (leftmost fuel p).
Proof.
  revert p. induction fuel as [|fuel IH]; intros p; [apply framed_fail|]. cbn [leftmost]. solve_framed.
Qed.

Lemma framed_erase_loop fuel node parent : framed (rb_erase_color_loop fuel node parent).
Proof.
  revert node parent. induction fuel as [|fuel IH]; intros node parent; [apply framed_fail|].
  cbn [rb_erase_color_loop].
  unfold null_or_black, rb_parent, rb_color, rb_is_red, rb_is_black, rb_set_black, rb_set_red, rb_set_color.
  solve_framed.
Qed.

Lemma framed_erase_color fuel node parent : framed (__rb_erase_color fuel node parent).
Proof.
  unfold __rb_erase_color, rb_set_black. pose proof framed_erase_loop. solve_framed.
Qed.

#[export] Hint Resolve framed_leftmost framed_erase_color : rbt.

Lemma framed_erase fuel node : framed (rb_erase fuel node).
Proof.
  unfold rb_erase, rb_erase_one, rb_erase_two, replace_child, rb_parent, rb_color, rb_set_parent,
    set_left, set_right. solve_framed.
Qed.

Lemma filter_remove (a : Z) pre post :
  NoDup (pre ++ a :: post) → filter (λ x, x ≠ a) (pre ++ a :: post) = pre ++ post.
Proof.
  intros Hnd. rewrite list.filter_app, filter_cons_False by auto.
  apply list.NoDup_app in Hnd as (_ & H1 & [H2 _]%list.NoDup_cons).
  assert (∀ l : list Z, (∀ x, x ∈ l → x ≠ a) → filter (λ x, x ≠ a) l = l) as Hf.
  { intros l. induction l as [|x l IH]; intros Hl; [done|].
    rewrite filter_cons_True by (apply Hl; by left). f_equal. apply IH. intros y Hy. apply Hl. by right. }
  rewrite !Hf; [done|by intros x Hx ->|]. intros x Hx ->. apply (H1 a Hx). by left.
Qed.

Lemma erase_ok fuel m T a :
  rep m T → is_rb T → a ∈ inorder T → (length (inorder T) < fuel)%nat →
  ∃ m' T', rb_erase fuel a m = Some (tt, m') ∧ rep m' T' ∧ is_rb T' ∧
    inorder T' = filter (λ x, x ≠ a) (inorder T) ∧
    (∀ x, x ∉ inorder T → rb_nodes m' !! x = rb_nodes m !! x) ∧
    is_Some (rb_nodes m' !! a).
Proof.
  intros Hm Hrb Ha Hf. set (l := inorder T).
  assert (rep (only l m) T) as H0.
  { apply (rep_ext m); [|done|exact Hm]. intros w Hw. by apply lookup_only. }
  destruct (erase_local_ok fuel (only l m) T a) as (m1 & T' & E & H1 & HT & pre & post & Hi & Hi');
    [done|done|done|done|].
  destruct (run_only (rb_erase fuel a) l m tt m1) as (m' & E' & Hroot & Hin & Hout);
    [apply framed_erase|done|].
  exists m', T'. split_and!; [done| |done| | |].
  - eapply rep_ext; [|exact Hroot|exact H1]. intros w Hw. apply Hin. subst l. rewrite Hi. rewrite Hi' in Hw.
    set_solver.
  - subst l. rewrite Hi', Hi. symmetry. apply filter_remove. rewrite <- Hi. apply Hm.
  - intros x Hx. by apply Hout.
  - rewrite Hin by done. apply elem_of_dom.
    destruct (framed_erase fuel a (only l m) tt m1 ∅ E) as [_ ->]; [by apply map_disjoint_empty_l|].
    apply elem_of_dom. rewrite lookup_only by done.
    destruct (focus_on T a Ha) as (k & c & tl & tr & ->).
    pose proof (rep_node _ _ L _ _ _ _ Hm) as [-> _]. by eexists.
Qed.
