(* ===== verification/RbProps.v ===== *)
(** * Red-black trees: traversal, replacement and height *)

From stdpp Require Import gmap.
From S2P Require Import Prelude RbTree RbShape RbInsert RbErase.

(** ** Before and after a subtree *)

Fixpoint before (k : list frame) : list Z :=
  match k with
  | [] => []
  | Frame L _ _ _ :: k => before k
  | Frame R _ a s :: k => before k ++ inorder s ++ [a]
  end.

Fixpoint after (k : list frame) : list Z :=
  match k with
  | [] => []
  | Frame L _ a s :: k => a :: inorder s ++ after k
  | Frame R _ _ _ :: k => after k
  end.

Lemma inorder_around k t : inorder (plug k t) = before k ++ inorder t ++ after k.
Proof.
  revert t. induction k as [|[[] c a s] k IH]; intros t; cbn; [by rewrite app_nil_r|..];
    rewrite IH; cbn; by simplify_list_eq.
Qed.

(** The place of an element in the sequence fixes what is before and after it. *)
Lemma nodup_split (a : Z) l1 l2 l1' l2' :
  NoDup (l1 ++ a :: l2) → l1 ++ a :: l2 = l1' ++ a :: l2' → l1 = l1' ∧ l2 = l2'.
Proof.
  revert l1'. induction l1 as [|x l1 IH]; intros l1' Hnd; destruct l1' as [|y l1']; cbn in *; intros E.
  - by simplify_eq.
  - simplify_eq. apply list.NoDup_cons in Hnd as [Hn _]. exfalso. apply Hn. set_solver.
  - simplify_eq. apply list.NoDup_cons in Hnd as [Hn _]. exfalso. apply Hn. set_solver.
  - simplify_eq. apply list.NoDup_cons in Hnd as [_ Hnd]. by destruct (IH _ Hnd H0) as [-> ->].
Qed.

(** ** Traversal *)

Lemma rightmost_ok fuel : ∀ m k c l a r,
  rep m (plug k (Node c l a r)) → (length (inorder r) < fuel)%nat →
  ∃ s pre, rightmost fuel a m = Some (s, m) ∧ inorder (Node c l a r) = pre ++ [s].
Proof.
  induction fuel as [|fuel IH]; intros m k c l a r Hm Hf; [lia|]. cbn [rightmost].
  rewrite (bind_run _ _ _ _ _ (run_right _ _ L _ _ _ _ Hm)). cbn [child].
  destruct r as [|c' l' b r']; cbn [addr]; [by exists a, (inorder l)|].
  change (rep m (plug (Frame R c a l :: k) (Node c' l' b r'))) in Hm.
  rewrite (rep_pos _ _ L _ _ _ _ Hm).
  destruct (IH _ _ _ _ _ _ Hm) as (s & pre & E & Hi).
  { cbn in Hf. rewrite length_app in Hf. cbn in Hf. lia. }
  exists s, (inorder l ++ a :: pre). split; [done|].
  change (inorder (Node c l a (Node c' l' b r'))) with (inorder l ++ a :: inorder (Node c' l' b r')).
  rewrite Hi. by simplify_list_eq.
Qed.

Lemma leftmost_head fuel m k c l a r :
  rep m (plug k (Node c l a r)) → (length (inorder l) < fuel)%nat →
  ∃ s post, leftmost fuel a m = Some (s, m) ∧ inorder (Node c l a r) = s :: post.
Proof.
  intros Hm Hf. destruct (leftmost_ok _ _ _ _ _ _ _ Hm Hf) as (k' & c' & s & sr & E & Hk & ->).
  exists s, (inorder (plug k' sr)). split; [done|].
  by rewrite (inorder_lefts _ _ Hk), (inorder_lefts _ sr Hk).
Qed.

Lemma climb_right_ok fuel : ∀ m k t,
  rep m (plug k t) → t ≠ Leaf → (length k < fuel)%nat →
  climb_right fuel (addr t) m = Some (hd 0 (after k), m).
Proof.
  induction fuel as [|fuel IH]; intros m k t Hm Ht Hf; [lia|]. cbn [climb_right].
  destruct t as [|c l a r]; [done|]. cbn [addr].
  rewrite (bind_run _ _ _ _ _ (run_parent _ _ L _ _ _ _ Hm)).
  destruct k as [|[d c' p s] k]; [done|]. cbn [top]. cbn in Hf.
  assert (rep m (plug k (nd d c' (Node c l a r) p s))) as Hp by exact Hm.
  rewrite (rep_pos _ _ _ _ _ _ _ Hp), (bind_run _ _ _ _ _ (run_right _ _ _ _ _ _ _ Hp)).
  destruct d; cbn [child].
  - pose proof (rep_sibling _ _ _ _ _ _ _ Hp ltac:(done)) as Hs. cbn [addr] in Hs. by rewrite Hs.
  - cbn [addr]. rewrite Z.eqb_refl.
    apply (IH m k (nd R c' (Node c l a r) p s)); [done|done|lia].
Qed.

Lemma climb_left_ok fuel : ∀ m k t,
  rep m (plug k t) → t ≠ Leaf → (length k < fuel)%nat →
  climb_left fuel (addr t) m = Some (List.last (before k) 0, m).
Proof.
  induction fuel as [|fuel IH]; intros m k t Hm Ht Hf; [lia|]. cbn [climb_left].
  destruct t as [|c l a r]; [done|]. cbn [addr].
  rewrite (bind_run _ _ _ _ _ (run_parent _ _ L _ _ _ _ Hm)).
  destruct k as [|[d c' p s] k]; [done|]. cbn [top]. cbn in Hf.
  assert (rep m (plug k (nd d c' (Node c l a r) p s))) as Hp by exact Hm.
  rewrite (rep_pos _ _ _ _ _ _ _ Hp), (bind_run _ _ _ _ _ (run_left _ _ _ _ _ _ _ Hp)).
  destruct d; cbn [child before].
  - cbn [addr]. rewrite Z.eqb_refl.
    apply (IH m k (nd L c' (Node c l a r) p s)); [done|done|lia].
  - pose proof (rep_sibling _ _ _ _ _ _ _ Hp ltac:(done)) as Hs. cbn [addr] in Hs.
    by rewrite Hs, app_assoc, List.last_last.
Qed.

(** The parent of a node is not the node. *)
Lemma rep_parent_ne m k d c x a y : rep m (plug k (nd d c x a y)) → (top k =? a) = false.
Proof.
  intros Hm. apply Z.eqb_neq. intros E. pose proof (rep_split _ _ _ Hm) as (_ & N & _).
  pose proof (rep_node _ _ _ _ _ _ _ Hm) as (_ & A0 & _).
  apply (N a); [rewrite inorder_nd; by left|].
  destruct k as [|[e c' p s] k]; cbn in *; [lia|]. subst p. by left.
Qed.

Lemma split_at m k c l a r pre post :
  rep m (plug k (Node c l a r)) → inorder (plug k (Node c l a r)) = pre ++ a :: post →
  pre = before k ++ inorder l ∧ post = inorder r ++ after k.
Proof.
  intros (_ & _ & Hnd & _) Hi. rewrite Hi in Hnd. apply (nodup_split a); [done|].
  rewrite <- Hi, inorder_around. cbn. by simplify_list_eq.
Qed.

Lemma rb_next_ok fuel m T a pre post :
  rep m T → inorder T = pre ++ a :: post → (length (inorder T) < fuel)%nat →
  rb_next fuel a m = Some (hd 0 post, m).
Proof.
  intros Hm Hi Hf. destruct (focus_on T a) as (k & c & l & r & ->); [rewrite Hi; set_solver|].
  unfold rb_next. rewrite (bind_run _ _ _ _ _ (run_parent _ _ L _ _ _ _ Hm)).
  rewrite (rep_parent_ne _ _ L _ _ _ _ Hm).
  rewrite (bind_run _ _ _ _ _ (run_right _ _ L _ _ _ _ Hm)). cbn [child].
  pose proof (length_context k (Node c l a r)) as Hlen.
  destruct (split_at _ _ _ _ _ _ _ _ Hm Hi) as [-> ->].
  destruct r as [|c' l' b r'].
  - cbn [addr Z.eqb inorder app]. apply (climb_right_ok _ _ k (Node c l a Leaf)); [done|done|lia].
  - assert (rep m (plug (Frame R c a l :: k) (Node c' l' b r'))) as Hr by exact Hm.
    cbn [addr]. rewrite (rep_pos _ _ L _ _ _ _ Hr).
    destruct (leftmost_head fuel _ _ _ _ _ _ Hr) as (s & q & -> & ->); [|done].
    rewrite inorder_around in Hf. cbn in Hf. repeat (rewrite length_app in Hf; cbn in Hf). lia.
Qed.

Lemma rb_prev_ok fuel m T a pre post :
  rep m T → inorder T = pre ++ a :: post → (length (inorder T) < fuel)%nat →
  rb_prev fuel a m = Some (List.last pre 0, m).
Proof.
  intros Hm Hi Hf. destruct (focus_on T a) as (k & c & l & r & ->); [rewrite Hi; set_solver|].
  unfold rb_prev. rewrite (bind_run _ _ _ _ _ (run_parent _ _ L _ _ _ _ Hm)).
  rewrite (rep_parent_ne _ _ L _ _ _ _ Hm).
  rewrite (bind_run _ _ _ _ _ (run_left _ _ L _ _ _ _ Hm)). cbn [child].
  pose proof (length_context k (Node c l a r)) as Hlen.
  destruct (split_at _ _ _ _ _ _ _ _ Hm Hi) as [-> ->].
  destruct l as [|c' l' b r'].
  - cbn [addr Z.eqb inorder]. rewrite app_nil_r.
    apply (climb_left_ok _ _ k (Node c Leaf a r)); [done|done|lia].
  - assert (rep m (plug (Frame L c a r :: k) (Node c' l' b r'))) as Hl by exact Hm.
    cbn [addr]. rewrite (rep_pos _ _ L _ _ _ _ Hl).
    destruct (rightmost_ok fuel _ _ _ _ _ _ Hl) as (s & q & -> & ->).
    + rewrite inorder_around in Hf. cbn in Hf. repeat (rewrite length_app in Hf; cbn in Hf). lia.
    + by rewrite app_assoc, List.last_last.
Qed.

Lemma rb_first_ok fuel m T :
  rep m T → (length (inorder T) < fuel)%nat → rb_first fuel m = Some (hd 0 (inorder T), m).
Proof.
  intros Hm Hf. unfold rb_first. rewrite (bind_run _ _ m (rb_root m) m) by done.
  pose proof Hm as (_ & -> & _). destruct T as [|c l a r]; [done|].
  cbn [addr]. rewrite (rep_pos m [] L _ _ _ _ Hm).
  destruct (leftmost_head fuel m [] _ _ _ _ Hm) as (s & q & -> & ->); [|done].
  cbn in Hf. rewrite length_app in Hf. lia.
Qed.

Lemma rb_last_ok fuel m T :
  rep m T → (length (inorder T) < fuel)%nat → rb_last fuel m = Some (List.last (inorder T) 0, m).
Proof.
  intros Hm Hf. unfold rb_last. rewrite (bind_run _ _ m (rb_root m) m) by done.
  pose proof Hm as (_ & -> & _). destruct T as [|c l a r]; [done|].
  cbn [addr]. rewrite (rep_pos m [] L _ _ _ _ Hm).
  destruct (rightmost_ok fuel m [] _ _ _ _ Hm) as (s & q & -> & ->); [|by rewrite List.last_last].
  cbn in Hf. rewrite length_app in Hf. cbn in Hf. lia.
Qed.

(** ** Replacement *)

Lemma rb_replace_ok m k c l a r new :
  rep m (plug k (Node c l a r)) → new ∉ inorder (plug k (Node c l a r)) → aligned new →
  is_Some (rb_nodes m !! new) →
  ∃ m', rb_replace_node a new m = Some (tt, m') ∧ rep m' (plug k (Node c l new r)).
Proof.
  intros Hm Hn Hal [nn Hnn]. pose proof (rep_node _ _ L _ _ _ _ Hm) as (Ha & A0 & A4 & _ & P4).
  pose proof Hm as ((_ & Hl & Hr) & Hc & Hroot & Hg)%rep_plug.
  rewrite inorder_plug_perm in Hn. cbn [inorder] in Hg, Hn. destruct Hg as [Hg Hal'].
  assert (a :: inorder l ++ inorder r ++ around k ≡ₚ (inorder l ++ a :: inorder r) ++ around k) as Hp
    by solve_Permutation.
  rewrite <- Hp in Hg, Hal', Hn. apply list.NoDup_cons in Hg as [Na N].
  apply list.NoDup_app in N as (_ & Nl & N). apply list.NoDup_app in N as (_ & Nr & _).
  apply list.Forall_cons in Hal' as [_ Hal']. apply list.Forall_app in Hal' as [Al Hal'].
  apply list.Forall_app in Hal' as [Ar Ak]. destruct Hal as [N0 N4].
  unfold rb_replace_node. rewrite (bind_run _ _ _ _ _ (run_parent _ _ L _ _ _ _ Hm)).
  assert (a ∉ around k) as Hak by set_solver.
  rewrite (bind_run _ _ _ _ _ (run_redirect L k m a new Hc Hroot Ak (around_hole _ _ Hak ltac:(lia)))).
  set (m1 := mk_rbmem _ _).
  assert (rb_nodes m1 !! a = Some (cell (top k) c (addr l) (addr r))) as Ha1
    by (cbn; by rewrite relink_other).
  rewrite (bind_run _ _ _ _ _ (rd_run _ _ _ _ Ha1)). cbn [cell rb_left].
  assert (shape (rb_nodes m1) a l) as Hl1.
  { eapply shape_ext; [|exact Hl]. intros w Hw. apply relink_other. set_solver. }
  rewrite (bind_run _ _ _ _ _ (run_reparent m1 l a new Hl1 Al A4 N4)). set (m2 := mk_rbmem _ _).
  assert (rb_nodes m2 !! a = Some (cell (top k) c (addr l) (addr r))) as Ha2.
  { cbn. rewrite reparent_other; [exact Ha1|set_solver]. }
  rewrite (bind_run _ _ _ _ _ (rd_run _ _ _ _ Ha2)). cbn [cell rb_right].
  assert (shape (rb_nodes m2) a r) as Hr2.
  { eapply shape_ext; [|exact Hr]. intros w Hw. cbn. rewrite reparent_other by set_solver.
    apply relink_other. set_solver. }
  rewrite (bind_run _ _ _ _ _ (run_reparent m2 r a new Hr2 Ar A4 N4)). set (m3 := mk_rbmem _ _).
  assert (rb_nodes m3 !! a = Some (cell (top k) c (addr l) (addr r))) as Ha3.
  { cbn. rewrite reparent_other; [exact Ha2|set_solver]. }
  rewrite (bind_run _ _ _ _ _ (rd_run id _ _ _ Ha3)).
  assert (rb_nodes m3 !! new = Some nn) as Hn3.
  { cbn. rewrite !reparent_other, relink_other; [exact Hnn|set_solver..]. }
  eexists. split; [apply (wr_run _ _ _ _ Hn3)|]. unfold id.
  eapply (rep_replaced _ _ _ _ _ a); [exact Hm| |by split| | |done].
  - rewrite inorder_plug_perm. cbn [inorder]. by rewrite <- Hp.
  - cbn. by rewrite lookup_insert_eq.
  - intros w Hw1 Hw2. cbn. rewrite lookup_insert_ne by done.
    destruct (decide (w ∈ around k)) as [Hk|Hk].
    + rewrite !reparent_other by set_solver. apply relink_cong. by rewrite !reparent_other by set_solver.
    + rewrite (relink_other _ _ _ _ Hk). destruct (decide (w ∈ inorder r)) as [Hwr|Hwr].
      * rewrite (reparent_other _ l) by set_solver. apply reparent_cong.
        rewrite reparent_other by set_solver. by apply relink_other.
      * rewrite reparent_other by done. apply reparent_cong. rewrite reparent_other by done.
        by apply relink_other.
Qed.

(** ** Height *)

Fixpoint height (t : tree) : nat :=
  match t with Leaf => 0 | Node _ l _ r => S (Nat.max (height l) (height r)) end.

Lemma rb_height_black t n :
  rb t n → (height t ≤ 2 * n + match tcolor t with Red => 1 | Black => 0 end)%nat.
Proof.
  induction 1 as [|l a r n Hl IHl Hr IHr Cl Cr|l a r n Hl IHl Hr IHr]; cbn; [lia|..].
  - rewrite Cl in IHl. rewrite Cr in IHr. lia.
  - destruct (tcolor l), (tcolor r); lia.
Qed.

Lemma rb_size t n : rb t n → (2 ^ n ≤ S (length (inorder t)))%nat.
Proof.
  induction 1 as [|l a r n Hl IHl Hr IHr Cl Cr|l a r n Hl IHl Hr IHr]; cbn; [lia|..];
    rewrite length_app; cbn; lia.
Qed.

Lemma rb_height_ok T : is_rb T → (2 ^ height T ≤ S (length (inorder T)) ^ 2)%nat.
Proof.
  intros [Hc [n Hn]]. pose proof (rb_height_black _ _ Hn) as Hh. rewrite Hc in Hh.
  pose proof (rb_size _ _ Hn) as Hs.
  transitivity (2 ^ (2 * n))%nat; [apply Nat.pow_le_mono_r; lia|].
  rewrite Nat.mul_comm, Nat.pow_mul_r. by apply Nat.pow_le_mono_l.
Qed.

(** ** Enumeration *)

(** The traversal functions enumerate a tree in order: [rb_first] and [rb_last] return
    its ends, and [rb_next] and [rb_prev] of a node return its neighbours, [NULL] at
    the ends; they change nothing and end. *)
Theorem rb_traversal_spec fuel m T :
  rep m T → (length (inorder T) < fuel)%nat →
  rb_first fuel m = Some (hd 0 (inorder T), m) ∧
  rb_last fuel m = Some (List.last (inorder T) 0, m) ∧
  ∀ pre a post, inorder T = pre ++ a :: post →
    rb_next fuel a m = Some (hd 0 post, m) ∧ rb_prev fuel a m = Some (List.last pre 0, m).
Proof.
  intros Hm Hf. split_and!; [by apply rb_first_ok|by apply rb_last_ok|].
  intros pre a post Hi. split; [by eapply rb_next_ok|by eapply rb_prev_ok].
Qed.

(** Three nodes. *)
Definition demo_tree : tree := Node Black (Node Red Leaf 4 Leaf) 8 (Node Red Leaf 12 Leaf).

Definition demo_nodes : gmap Z rb_node :=
  <[4 := mk_rb_node 8 0 0]> (<[8 := mk_rb_node 1 12 4]> (<[12 := mk_rb_node 8 0 0]>
    (<[16 := mk_rb_node 0 0 0]> ∅))).

Lemma demo_rep : rep (mk_rbmem demo_nodes 8) demo_tree.
Proof.
  split_and!; [done..|]. split.
  - cbn. repeat (constructor; [set_solver|]). constructor.
  - cbn. repeat (constructor; [by split|]). constructor.
Qed.

Lemma rb_traversal_spec_witness :
  rb_next 4 4 (mk_rbmem demo_nodes 8) = Some (8, mk_rbmem demo_nodes 8).
Proof.
  refine (proj1 (proj2 (proj2 (rb_traversal_spec 4 (mk_rbmem demo_nodes 8) demo_tree demo_rep _))
    [] 4 [8; 12] eq_refl)).
  cbn. lia.
Defined.
