(* ===== verification/TimerTree.v ===== *)
(** * Timers: the trees of the wheels

    [timer_add], [timer_del] and [timer_tree_walk] of src/src/lib/update.c on the
    red-black trees in memory, and the proof that they do to the trees of the four
    wheels what the model of the timers (Timer.v) does to sequences. *)

From stdpp Require Import gmap sorting.
From S2P Require Import Prelude TimerIface Timer RbTree RbShape RbInsert RbErase RbProps.

(** ** The operations *)

Section Operations.
(** The field [rt] of the entry whose node is at an address. *)
Context (rt : Z → Z).

Fixpoint find_link (fuel : nat) (cmp parent : Z) (link : rb_link) : rbM (Z * rb_link) :=
  match fuel with
  | O => rb_fail
  | S fuel =>
      x ← get_link link;
      if x =? 0 then mret (parent, link)
      else if cmp <? rt x then find_link fuel cmp x (link_left x)
      else find_link fuel cmp x (link_right x)
  end.

Definition timer_add (fuel : nat) (n : Z) : rbM unit :=
  '(parent, link) ← find_link fuel (rt n) 0 link_root;
  rb_link_node n parent link;;
  rb_insert_color fuel n.

Definition timer_del (fuel : nat) (n : Z) : rbM unit :=
  rb_erase fuel n;;
  rb_clear_node n.

Fixpoint tree_walk (fuel : nat) (key : Z) (link : rb_link) : rbM Z :=
  match fuel with
  | O => rb_fail
  | S fuel =>
      x ← get_link link;
      if x =? 0 then mret 0
      else if key <? rt x then tree_walk fuel key (link_left x)
      else if rt x <? key then tree_walk fuel key (link_right x)
      else mret x
  end.

Definition timer_tree_walk (fuel : nat) (key : Z) : rbM Z := tree_walk fuel key link_root.

End Operations.

(** ** Searching *)

Section Search.
Context (rt : Z → Z).

Definition sorted (l : list Z) : Prop := StronglySorted (λ x y, rt x ≤ rt y) l.

Lemma run_get_link m k t : rep m (plug k t) → get_link (link_of k) m = Some (addr t, m).
Proof.
  intros (_ & Hc & Hr & _)%rep_plug. destruct k as [|[d c a s] k]; cbn in *.
  - unfold get_root. by rewrite Hr.
  - destruct Hc as [Ha _]. destruct d; cbn; by rewrite (rd_run _ _ _ _ Ha).
Qed.

Lemma sorted_app l1 l2 :
  sorted (l1 ++ l2) ↔ sorted l1 ∧ sorted l2 ∧ ∀ x y, x ∈ l1 → y ∈ l2 → rt x ≤ rt y.
Proof.
  unfold sorted. induction l1 as [|x l1 IH]; cbn.
  - split; [|by intros (_ & ? & _)]. intros Hs. split_and!; [constructor|done|]. intros x y Hx.
    by apply elem_of_nil in Hx.
  - split.
    + intros Hs. apply StronglySorted_inv in Hs as [(H1 & H2 & H3)%IH Hx].
      apply list.Forall_app in Hx as [Hx1 Hx2]. split_and!; [by constructor|done|].
      intros y z [->|Hy]%elem_of_cons Hz; [|by apply H3]. rewrite list.Forall_forall in Hx2. by apply Hx2.
    + intros (H1 & H2 & H3). apply StronglySorted_inv in H1 as [H1 Hx]. constructor.
      * apply IH. split_and!; [done|done|]. intros y z Hy Hz. apply H3; [by right|done].
      * apply list.Forall_app. split; [done|]. apply list.Forall_forall. intros y Hy. apply H3; [by left|done].
Qed.

(** The place where the search for [cmp] ends: everything before it has a key up to
    [cmp], everything after it a greater one. *)
Definition around_key (cmp : Z) (k : list frame) : Prop :=
  (∀ x, x ∈ before k → rt x ≤ cmp) ∧ ∀ x, x ∈ after k → cmp < rt x.

Lemma around_key_left cmp k c l a r :
  sorted (inorder (plug k (Node c l a r))) → cmp < rt a → around_key cmp k →
  around_key cmp (Frame L c a r :: k).
Proof.
  rewrite inorder_around. intros (_ & Hs & _)%sorted_app Ha [H1 H2]. cbn in Hs.
  rewrite <- app_assoc in Hs. apply sorted_app in Hs as (_ & Hs & _). cbn in Hs.
  apply StronglySorted_inv in Hs as [_ Hs]. rewrite list.Forall_forall in Hs.
  split; [done|]. cbn. intros x [->|[Hx|Hx]%elem_of_app]%elem_of_cons; [done| |by apply H2].
  specialize (Hs x). cbn in Hs. assert (rt a ≤ rt x) by (apply Hs, elem_of_app; by left). lia.
Qed.

Lemma around_key_right cmp k c l a r :
  sorted (inorder (plug k (Node c l a r))) → rt a ≤ cmp → around_key cmp k →
  around_key cmp (Frame R c a l :: k).
Proof.
  rewrite inorder_around. intros Hs Ha [H1 H2]. cbn in Hs.
  apply sorted_app in Hs as (_ & Hs & _). apply sorted_app in Hs as (Hs & _ & _).
  apply sorted_app in Hs as (_ & _ & Hs). split; [|done].
  cbn. intros x [Hx|[Hx| ->%list_elem_of_singleton]%elem_of_app]%elem_of_app; [by apply H1| |done].
  specialize (Hs x a Hx ltac:(by left)). lia.
Qed.

Lemma find_link_ok fuel : ∀ m k t cmp,
  rep m (plug k t) → sorted (inorder (plug k t)) → around_key cmp k → (length (inorder t) < fuel)%nat →
  ∃ k', find_link rt fuel cmp (top k) (link_of k) m = Some ((top k', link_of k'), m) ∧
    plug k' Leaf = plug k t ∧ around_key cmp k'.
Proof.
  induction fuel as [|fuel IH]; intros m k t cmp Hm Hs Hk Hf; [lia|]. cbn [find_link].
  rewrite (bind_run _ _ _ _ _ (run_get_link _ _ _ Hm)). destruct t as [|c l a r]; cbn [addr].
  { by exists k. }
  rewrite (rep_pos _ _ L _ _ _ _ Hm). cbn in Hf. rewrite length_app in Hf. cbn in Hf.
  destruct (Z.ltb_spec cmp (rt a)).
  - apply (IH m (Frame L c a r :: k) l); [done|done|by eapply around_key_left|lia].
  - apply (IH m (Frame R c a l :: k) r); [done|done|by eapply around_key_right|lia].
Qed.

Lemma insert_key_between (key : Z → Z) a l1 l2 :
  (∀ x, x ∈ l1 → key x ≤ key a) → (∀ x, x ∈ l2 → key a < key x) →
  Wheel.insert_key key a (l1 ++ l2) = l1 ++ a :: l2.
Proof.
  intros H1 H2. induction l1 as [|x l1 IH]; cbn.
  - destruct l2 as [|y l2]; [done|]. cbn. rewrite (proj2 (Z.ltb_lt _ _)); [done|]. apply H2. by left.
  - rewrite (proj2 (Z.ltb_ge _ _)) by (apply H1; by left). f_equal. apply IH. intros y Hy. apply H1. by right.
Qed.

Lemma insert_key_sorted a l : sorted l → sorted (Wheel.insert_key rt a l).
Proof.
  unfold sorted. induction l as [|x l IH]; cbn; [by repeat constructor|]. intros Hs.
  apply StronglySorted_inv in Hs as [Hs Hx]. rewrite list.Forall_forall in Hx.
  destruct (Z.ltb_spec (rt a) (rt x)) as [Hlt|Hge].
  - constructor; [constructor; [done|by apply list.Forall_forall]|]. apply list.Forall_forall.
    intros y [->|Hy]%elem_of_cons; [lia|]. specialize (Hx y Hy). cbn in Hx. lia.
  - constructor; [by apply IH|]. apply list.Forall_forall. intros y Hy.
    assert (y = a ∨ y ∈ l) as [->|Hyl]; [|done|by apply Hx].
    clear -Hy. induction l as [|z l IH]; cbn in Hy; [set_solver|].
    destruct (rt a <? rt z); set_solver.
Qed.

Lemma sorted_filter (P : Z → Prop) `{∀ x, Decision (P x)} l : sorted l → sorted (filter P l).
Proof.
  unfold sorted. induction l as [|x l IH]; [done|]. intros [Hs Hx]%StronglySorted_inv.
  rewrite filter_cons. case_decide; [|by apply IH]. constructor; [by apply IH|].
  rewrite list.Forall_forall in *. intros y [_ Hy]%list_elem_of_filter. by apply Hx.
Qed.

(** [timer_add] puts a node where the sequence has it. *)
Lemma timer_add_ok fuel m T n :
  rep m T → is_rb T → sorted (inorder T) → is_Some (rb_nodes m !! n) → n ∉ inorder T → aligned n →
  (length (inorder T) < fuel)%nat →
  ∃ m' T', timer_add rt fuel n m = Some (tt, m') ∧ rep m' T' ∧ is_rb T' ∧
    inorder T' = Wheel.insert_key rt n (inorder T) ∧
    ∀ x, x ∉ inorder T' → rb_nodes m' !! x = rb_nodes m !! x.
Proof.
  intros Hm Hrb Hs Hn Hni Hal Hf. unfold timer_add.
  destruct (find_link_ok fuel m [] T (rt n)) as (k & E & Hk & Ha); [done|done| |done|].
  { split; intros x Hx; by apply elem_of_nil in Hx. }
  cbn [plug] in Hk. subst T. cbn [top link_of] in E. rewrite (bind_run _ _ _ _ _ E).
  destruct (insert_ok fuel m k n) as (m' & T' & E' & H1 & H2 & H3 & H4); try done.
  exists m', T'. split_and!; [done|done|done| |done]. rewrite H3, !inorder_around. cbn.
  symmetry. apply insert_key_between; apply Ha.
Qed.

(** [timer_tree_walk] finds a node with the key if there is one. *)
Lemma tree_walk_ok fuel : ∀ m k t key,
  rep m (plug k t) → sorted (inorder (plug k t)) → (length (inorder t) < fuel)%nat →
  ∃ x, tree_walk rt fuel key (link_of k) m = Some (x, m) ∧
    ((x = 0 ∧ ∀ y, y ∈ inorder t → rt y ≠ key) ∨ (x ∈ inorder t ∧ rt x = key)).
Proof.
  induction fuel as [|fuel IH]; intros m k t key Hm Hs Hf; [lia|]. cbn [tree_walk].
  rewrite (bind_run _ _ _ _ _ (run_get_link _ _ _ Hm)). destruct t as [|c l a r]; cbn [addr].
  { exists 0. split; [done|]. left. split; [done|]. intros y Hy. by apply elem_of_nil in Hy. }
  rewrite (rep_pos _ _ L _ _ _ _ Hm). cbn in Hf. rewrite length_app in Hf. cbn in Hf.
  pose proof Hs as Hs'. rewrite inorder_around in Hs'. apply sorted_app in Hs' as (_ & Hs' & _).
  apply sorted_app in Hs' as (Hs' & _ & _). cbn in Hs'. apply sorted_app in Hs' as (_ & Hs2 & Hs3).
  apply StronglySorted_inv in Hs2 as [_ Hs2]. rewrite list.Forall_forall in Hs2.
  destruct (Z.ltb_spec key (rt a)) as [Hlt|Hge]; [|destruct (Z.ltb_spec (rt a) key) as [Hgt|Hle]].
  - destruct (IH m (Frame L c a r :: k) l key) as (x & E & Hx); [done|done|lia|]. exists x. split; [done|].
    destruct Hx as [[-> Hx]|[Hx Hk]]; [left|right; set_solver]. split; [done|].
    intros y [Hy|[->|Hy]%elem_of_cons]%elem_of_app; [by apply Hx|lia|]. specialize (Hs2 y Hy). cbn in Hs2. lia.
  - destruct (IH m (Frame R c a l :: k) r key) as (x & E & Hx); [done|done|lia|]. exists x. split; [done|].
    destruct Hx as [[-> Hx]|[Hx Hk]]; [left|right; set_solver]. split; [done|].
    intros y [Hy|[->|Hy]%elem_of_cons]%elem_of_app; [|lia|by apply Hx].
    specialize (Hs3 y a Hy ltac:(by left)). lia.
  - exists a. split; [done|]. right. split; [set_solver|lia].
Qed.

End Search.

(** ** The wheels *)

(** The address of the node of an entry, and back. *)
Definition ptr (a : nat) : Z := 4 * (Z.of_nat a + 1).
Definition entry (p : Z) : nat := Z.to_nat (p / 4 - 1).

Lemma entry_ptr a : entry (ptr a) = a.
Proof. unfold entry, ptr. rewrite Z.mul_comm, Z.div_mul by lia. lia. Qed.

#[global] Instance ptr_inj : Inj (=) (=) ptr.
Proof. intros a b. unfold ptr. lia. Qed.

Lemma ptr_aligned a : aligned (ptr a).
Proof. unfold aligned, ptr. split; [lia|]. by rewrite Z.mul_comm, Z.mod_mul. Qed.

(** The nodes of all entries, and the roots of the four trees. *)
Record tree_mem := mk_tree_mem { tm_nodes : gmap Z rb_node; tm_root : nat → Z }.

Definition wheel_mem (w : nat) (M : tree_mem) : rbmem := mk_rbmem (tm_nodes M) (tm_root M w).

Definition on_wheel {A} (w : nat) (x : rbM A) (M : tree_mem) : option (A * tree_mem) :=
  match x (wheel_mem w M) with
  | Some (v, m) => Some (v, mk_tree_mem (rb_nodes m) (<[w := rb_root m]> (tm_root M)))
  | None => None
  end.

(** The key of the node at an address. *)
Definition rt_at (s : Wheel.wheels) (p : Z) : Z := Wheel.rt (Wheel.app s (entry p)).

(** The tree of each wheel is a red-black tree, sorted by the keys, of the sequence of
    the model; every entry has a node, and no entry is on two wheels. *)
Definition refines (s : Wheel.wheels) (M : tree_mem) : Prop :=
  (∀ w, ∃ T, rep (wheel_mem w M) T ∧ is_rb T ∧ inorder T = ptr <$> Wheel.root s w ∧
    sorted (rt_at s) (inorder T)) ∧
  (∀ a, (a < Wheel.anext s)%nat → is_Some (tm_nodes M !! ptr a)) ∧
  ∀ w v a, w ≠ v → a ∈ Wheel.root s w → a ∉ Wheel.root s v.

Lemma fmap_insert_key s a l :
  ptr <$> Wheel.insert_key (λ x, Wheel.rt (Wheel.app s x)) a l =
  Wheel.insert_key (rt_at s) (ptr a) (ptr <$> l).
Proof.
  induction l as [|x l IH]; cbn; [done|]. unfold rt_at at 1 2. rewrite !entry_ptr.
  destruct (_ <? _); cbn; [done|]. by rewrite IH.
Qed.

Lemma fmap_filter_ne a (l : list nat) :
  ptr <$> filter (λ x, x ≠ a) l = filter (λ x, x ≠ ptr a) (ptr <$> l).
Proof.
  induction l as [|x l IH]; [done|]. rewrite fmap_cons, !filter_cons.
  do 2 case_decide; rewrite ?fmap_cons; [by rewrite IH|naive_solver|naive_solver|done].
Qed.

Lemma not_in_ptr a (l : list nat) : a ∉ l → ptr a ∉ ptr <$> l.
Proof. intros Ha (b & Hb & Hl)%list_elem_of_fmap. apply (inj ptr) in Hb as ->. done. Qed.

Lemma length_ptr (l : list nat) : length (ptr <$> l) = length l.
Proof. apply length_fmap. Qed.

(** The trees of the other wheels are not touched. *)
Lemma refines_other s M v T m' w :
  rep (wheel_mem v M) T → inorder T = ptr <$> Wheel.root s v → w ≠ v →
  (∀ x, x ∈ inorder T → rb_nodes m' !! x = tm_nodes M !! x) →
  rep (wheel_mem v (mk_tree_mem (rb_nodes m') (<[w := rb_root m']> (tm_root M)))) T.
Proof.
  intros HT Hi Hwv Hx. eapply rep_ext; [|cbn|exact HT]; [done|]. by rewrite fn_lookup_insert_ne.
Qed.

(** C11: [timer_add] on the red-black tree of a wheel refines the insertion into the sequence
    of the timer model: it accesses no memory but the nodes of that tree, ends, and
    leaves a sorted red-black tree whose in-order sequence is the one of the model; the trees of the
    other wheels are as before. *)
Theorem timer_add_refines s M a w fuel :
  refines s M → (a < Wheel.anext s)%nat → (∀ v, a ∉ Wheel.root s v) →
  (length (Wheel.root s w) < fuel)%nat →
  ∃ M', on_wheel w (timer_add (rt_at s) fuel (ptr a)) M = Some (tt, M') ∧
        refines (Wheel.timer_add a w s) M'.
Proof.
  intros (HT & Hn & Hd) Ha Hni Hf. destruct (HT w) as (T & HTm & Hrb & Hi & Hs).
  destruct (timer_add_ok (rt_at s) fuel (wheel_mem w M) T (ptr a))
    as (m' & T' & E & H1 & H2 & H3 & H4); try done.
  { by apply Hn. }
  { rewrite Hi. by apply not_in_ptr. }
  { apply ptr_aligned. }
  { by rewrite Hi, length_ptr. }
  exists (mk_tree_mem (rb_nodes m') (<[w := rb_root m']> (tm_root M))). unfold on_wheel.
  rewrite E. split; [done|].
  assert (∀ x, x ∈ inorder T' ↔ x = ptr a ∨ x ∈ inorder T) as Hin.
  { intros x. rewrite H3. clear. generalize (inorder T). intros l. induction l as [|y l IH]; cbn; [set_solver|].
    destruct (_ <? _); set_solver. }
  split_and!.
  - intros v. destruct (decide (w = v)) as [<-|Hne].
    + exists T'. split_and!; [|done| |].
      * eapply rep_ext; [|cbn|exact H1]; [done|]. by rewrite fn_lookup_insert.
      * cbn. rewrite fn_lookup_insert, fmap_insert_key, H3. by rewrite Hi.
      * rewrite H3. by apply insert_key_sorted.
    + destruct (HT v) as (Tv & Hv1 & Hv2 & Hv3 & Hv4). exists Tv. split_and!; [|done| |done].
      * eapply refines_other; [done|done|done|]. intros x Hx. apply H4. rewrite Hin.
        rewrite Hv3 in Hx. apply list_elem_of_fmap in Hx as (b & -> & Hb). intros [E'|E'].
        -- apply (inj ptr) in E' as ->. by apply (Hni v).
        -- rewrite Hi in E'. revert E'. apply not_in_ptr. by apply (Hd v w).
      * cbn. by rewrite fn_lookup_insert_ne.
  - intros b Hb. cbn in *. destruct (decide (ptr b ∈ inorder T')) as [Hbi|Hbi].
    + destruct (focus_on T' _ Hbi) as (k & c & l & r & ->).
      destruct (rep_node _ _ L _ _ _ _ H1) as [-> _]. by eexists.
    + rewrite H4 by done. by apply Hn.
  - intros u v b Huv. cbn.
    assert (∀ v b, b ∈ <[w := Wheel.insert_key (λ x, Wheel.rt (Wheel.app s x)) a (Wheel.root s w)]>
      (Wheel.root s) v → b ∈ Wheel.root s v ∨ (b = a ∧ v = w)) as Hx.
    { intros v' b'. unfold insert, fn_insert. case_decide as Hw; [|by left]. subst v'. intros Hb.
      assert (ptr b' ∈ inorder T') as Hb'%Hin.
      { rewrite H3, Hi, <- fmap_insert_key. by apply list_elem_of_fmap_2. }
      destruct Hb' as [?%(inj ptr)|Hb']; [by right|left]. rewrite Hi in Hb'.
      apply list_elem_of_fmap in Hb' as (b'' & ->%(inj ptr) & ?). done. }
    intros [Hu|[E1 E2]]%Hx [Hv|[E3 E4]]%Hx; subst;
      [by apply (Hd u v b)|by apply (Hni u)|by apply (Hni v)|done].
Qed.

(** C12: [timer_del] on the red-black tree of a wheel refines the removal from the sequence of the
    timer model: it accesses no memory but the nodes of that tree, ends, and leaves a
    sorted red-black tree without the node; the trees of the other wheels are as
    before. *)
Theorem timer_del_refines s M a w fuel :
  refines s M → a ∈ Wheel.root s w → (length (Wheel.root s w) < fuel)%nat →
  ∃ M', on_wheel w (timer_del fuel (ptr a)) M = Some (tt, M') ∧ refines (Wheel.timer_del a w s) M'.
Proof.
  intros (HT & Hn & Hd) Ha Hf. destruct (HT w) as (T & HTm & Hrb & Hi & Hs).
  assert (ptr a ∈ inorder T) as Hp by (rewrite Hi; by apply list_elem_of_fmap_2).
  destruct (erase_ok fuel (wheel_mem w M) T (ptr a)) as (m' & T' & E & H1 & H2 & H3 & H4 & [n H5]); try done.
  { by rewrite Hi, length_ptr. }
  assert (timer_del fuel (ptr a) (wheel_mem w M) = rb_clear_node (ptr a) m') as E'.
  { unfold timer_del. by rewrite (bind_run _ _ _ _ _ E). }
  unfold on_wheel. rewrite E'. unfold rb_clear_node, rb_set_parent. rewrite (wr_run _ _ _ _ H5).
  eexists. split; [done|]. cbn [set_node rb_nodes rb_root].
  assert (ptr a ∉ inorder T') as Hp' by (rewrite H3; by intros [? _]%list_elem_of_filter).
  unfold Wheel.timer_del. rewrite bool_decide_eq_true_2 by done. split_and!.
  - intros v. destruct (decide (w = v)) as [<-|Hne].
    + exists T'. split_and!; [|done| |].
      * eapply rep_ext; [|cbn|exact H1]; [|by rewrite fn_lookup_insert]. intros x Hx. cbn.
        apply lookup_insert_ne. by intros <-.
      * cbn. by rewrite fn_lookup_insert, fmap_filter_ne, H3, Hi.
      * rewrite H3. apply sorted_filter, Hs.
    + destruct (HT v) as (Tv & Hv1 & Hv2 & Hv3 & Hv4). exists Tv. split_and!; [|done| |done].
      * eapply rep_ext; [|cbn|exact Hv1]; [|by rewrite fn_lookup_insert_ne]. intros x Hx.
        assert (x ∉ inorder T) as Hx'.
        { rewrite Hi. rewrite Hv3 in Hx. apply list_elem_of_fmap in Hx as (b & -> & Hb).
          apply not_in_ptr. by apply (Hd v w). }
        cbn. rewrite lookup_insert_ne by (by intros <-). by apply H4.
      * cbn. by rewrite fn_lookup_insert_ne.
  - intros b Hb. cbn in *. destruct (decide (ptr a = ptr b)) as [->|Hne]; [by rewrite lookup_insert_eq|].
    rewrite lookup_insert_ne by done. destruct (decide (ptr b ∈ inorder T)) as [Hbi|Hbi].
    + destruct (focus_on T' (ptr b)) as (k & c & l & r & ->); [rewrite H3; by apply list_elem_of_filter|].
      destruct (rep_node _ _ L _ _ _ _ H1) as [-> _]. by eexists.
    + rewrite H4 by done. by apply Hn.
  - intros u v b Huv Hu Hv. apply (Hd u v b Huv).
    + revert Hu. cbn. unfold insert, fn_insert. case_decide; subst; [by intros [_ ?]%list_elem_of_filter|done].
    + revert Hv. cbn. unfold insert, fn_insert. case_decide; subst; [by intros [_ ?]%list_elem_of_filter|done].
Qed.

(** The search in the tree of a wheel does what the timer model assumes of it: it
    ends without changing the memory, and its result is that of the search in the
    sequence for some choice among the entries with the key. *)
Theorem timer_walk_refines s M w key fuel :
  refines s M → (length (Wheel.root s w) < fuel)%nat →
  ∃ x M' pick, on_wheel w (timer_tree_walk (rt_at s) fuel key) M = Some (x, M') ∧
    tm_nodes M' = tm_nodes M ∧ (∀ v, tm_root M' v = tm_root M v) ∧
    (∀ l, pick l = None → l = []) ∧ (∀ l a, pick l = Some a → a ∈ l) ∧
    Wheel.timer_tree_walk pick w key s = if x =? 0 then None else Some (entry x).
Proof.
  intros (HT & Hn & Hd) Hf. destruct (HT w) as (T & HTm & Hrb & Hi & Hs).
  destruct (tree_walk_ok (rt_at s) fuel (wheel_mem w M) [] T key) as (x & E & Hx); [done|done| |].
  { by rewrite Hi, length_ptr. }
  set (l0 := filter (λ a, Wheel.rt (Wheel.app s a) = key) (Wheel.root s w)).
  exists x, (mk_tree_mem (tm_nodes M) (<[w := tm_root M w]> (tm_root M))),
    (λ l, if decide (l = l0 ∧ x ≠ 0) then Some (entry x) else head l).
  assert (x ≠ 0 → entry x ∈ l0) as Hin.
  { intros H0. destruct Hx as [[-> _]|[Hx Hk]]; [done|]. rewrite Hi in Hx.
    apply list_elem_of_fmap in Hx as (a & -> & Ha). apply list_elem_of_filter.
    unfold rt_at in Hk. by rewrite entry_ptr in *. }
  split_and!.
  - unfold on_wheel, timer_tree_walk. cbn [link_of] in E. by rewrite E.
  - done.
  - intros v. cbn. unfold insert, fn_insert. case_decide; by subst.
  - intros l. case_decide; [done|]. by destruct l.
  - intros l a. case_decide as Hd'; [|destruct l; [done|]; intros [= ->]; by left].
    destruct Hd' as [-> H0]. intros [= <-]. by apply Hin.
  - unfold Wheel.timer_tree_walk. fold l0. destruct (Z.eqb_spec x 0) as [->|H0].
    + rewrite decide_False by naive_solver. destruct Hx as [[_ Hx]|[Hx _]].
      * destruct l0 as [|a l] eqn:El; [done|]. exfalso. assert (a ∈ l0) as Ha by (rewrite El; by left).
        apply list_elem_of_filter in Ha as [Hk Ha]. apply (Hx (ptr a)); [rewrite Hi; by apply list_elem_of_fmap_2|].
        unfold rt_at. by rewrite entry_ptr.
      * exfalso. destruct HTm as (_ & _ & _ & Hal). rewrite list.Forall_forall in Hal.
        by apply (aligned_ne 0 (Hal 0 Hx)).
    + by rewrite decide_True.
Qed.

(** ** Witnesses

    Three entries on the wheel of the ticks, two of them with one key, and a fourth
    that has not been queued. *)

Definition demo_entry (key : Z) : Wheel.APP_TIMER_T := Wheel.mk_app 0 0 key.

Definition demo_sequences : Wheel.wheels :=
  Wheel.mk_wheels (λ _, 0) (λ _, Wheel.mk_timer 0 0 0 0 0 0 None)
    (λ a, demo_entry (if a is 0%nat then 10 else 20)) (λ w, if w is 0%nat then [0; 1; 2]%nat else [])
    0 0 0 4 [] false.

Definition demo_trees : tree_mem := mk_tree_mem demo_nodes (λ w, if w is 0%nat then 8 else 0).

Lemma demo_refines : refines demo_sequences demo_trees.
Proof.
  split_and!.
  - intros [|w].
    + exists demo_tree. split_and!; [apply demo_rep| |done|].
      * split; [done|]. exists 1%nat. repeat constructor.
      * cbn. repeat constructor; done.
    + exists Leaf. split_and!; [| |done|constructor].
      * split_and!; [done|done|split; constructor].
      * split; [done|]. exists 0%nat. constructor.
  - intros a Ha. cbn in Ha. do 4 (destruct a as [|a]; [by eexists|]). lia.
  - intros [|w] [|v] a Hne; cbn; set_solver.
Qed.

Lemma timer_add_refines_witness :
  refines demo_sequences demo_trees ∧
  ∃ M', on_wheel 0 (timer_add (rt_at demo_sequences) 4 (ptr 3)) demo_trees = Some (tt, M') ∧
        refines (Wheel.timer_add 3 0 demo_sequences) M'.
Proof.
  split; [apply demo_refines|]. apply (timer_add_refines demo_sequences demo_trees 3 0 4).
  - apply demo_refines.
  - cbn. lia.
  - intros [|v]; cbn; set_solver.
  - cbn. lia.
Defined.

Lemma timer_del_refines_witness :
  refines demo_sequences demo_trees ∧
  ∃ M', on_wheel 0 (timer_del 4 (ptr 1)) demo_trees = Some (tt, M') ∧
        refines (Wheel.timer_del 1 0 demo_sequences) M'.
Proof.
  split; [apply demo_refines|]. apply (timer_del_refines demo_sequences demo_trees 1 0 4).
  - apply demo_refines.
  - cbn. set_solver.
  - cbn. lia.
Defined.

Lemma timer_walk_refines_witness :
  refines demo_sequences demo_trees ∧
  ∃ x M' pick, on_wheel 0 (timer_tree_walk (rt_at demo_sequences) 4 20) demo_trees = Some (x, M') ∧
    tm_nodes M' = tm_nodes demo_trees ∧ (∀ v, tm_root M' v = tm_root demo_trees v) ∧
    (∀ l, pick l = None → l = []) ∧ (∀ l a, pick l = Some a → a ∈ l) ∧
    Wheel.timer_tree_walk pick 0 20 demo_sequences = if x =? 0 then None else Some (entry x).
Proof.
  split; [apply demo_refines|]. apply (timer_walk_refines demo_sequences demo_trees 0 20 4).
  - apply demo_refines.
  - cbn. lia.
Defined.
