(* ===== verification/Fault.v ===== *)
(** * Operations that can fault

    A C function that works on a state of type [S] and can run into undefined behaviour (an
    access through a pointer that is not valid, an index outside an array, a
    division by zero) is a function that returns the result and the new state, or
    [None] for the fault.  A theorem that gives the result of such a function shows in
    particular that it does not fault. *)

From S2P Require Import Prelude.

Definition fsM (S A : Type) : Type := S → option (A * S).

#[export] Instance fsM_ret S : MRet (fsM S) := λ A a s, Some (a, s).
#[export] Instance fsM_bind S : MBind (fsM S) := λ A B f x s,
  match x s with Some (a, s') => f a s' | None => None end.

Section Operations.
Context {S : Type}.

Definition fault {A} : fsM S A := λ _, None.
Definition gets {A} (f : S → A) : fsM S A := λ s, Some (f s, s).
Definition modify (f : S → S) : fsM S unit := λ s, Some (tt, f s).

(** The value of an access that can fault. *)
Definition of_option {A} (x : option A) : fsM S A := λ s,
  match x with Some a => Some (a, s) | None => None end.

Lemma fbind_run {A B} (x : fsM S A) (f : A → fsM S B) s a s' :
  x s = Some (a, s') → (x ≫= f) s = f a s'.
Proof. intros Hx. unfold mbind, fsM_bind. by rewrite Hx. Qed.

Lemma of_option_run {A} (x : option A) s a : x = Some a → of_option x s = Some (a, s).
Proof. by intros ->. Qed.

Lemma fbind_inv {A B} (x : fsM S A) (f : A → fsM S B) s r :
  (x ≫= f) s = Some r → ∃ a s', x s = Some (a, s') ∧ f a s' = Some r.
Proof. unfold mbind, fsM_bind. destruct (x s) as [[a s']|] eqn:E; [by eauto|done]. Qed.

End Operations.

(** One step of an operation whose first part is known to succeed. *)
Ltac frun H := rewrite (fbind_run _ _ _ _ _ H).
Ltac fopt H := rewrite (fbind_run _ _ _ _ _ (of_option_run _ _ _ H)).

(** Runs an operation on a part of a larger state. *)
Definition zoom {S T A} (get : T → S) (put : S → T → T) (x : fsM S A) : fsM T A := λ t,
  match x (get t) with Some (a, s) => Some (a, put s t) | None => None end.

Lemma zoom_run {S T A} (get : T → S) (put : S → T → T) (x : fsM S A) t a s :
  x (get t) = Some (a, s) → zoom get put x t = Some (a, put s t).
Proof. intros Hx. unfold zoom. by rewrite Hx. Qed.

(** An array indexed by a C integer: [None] outside its bounds. *)
Definition arr {A} (l : list A) (i : Z) : option A :=
  if i <? 0 then None else l !! Z.to_nat i.

Lemma arr_nat {A} (l : list A) (i : nat) : arr l (Z.of_nat i) = l !! i.
Proof. unfold arr. rewrite (proj2 (Z.ltb_ge _ _)) by lia. by rewrite Nat2Z.id. Qed.

Lemma arr_some {A} (l : list A) i a : arr l i = Some a → 0 ≤ i < Z.of_nat (length l).
Proof. unfold arr. case_match eqn:E; [done|]. bool_to_prop. intros ?%lookup_lt_Some. lia. Qed.

Lemma arr_lookup {A} (l : list A) i : 0 ≤ i → arr l i = l !! Z.to_nat i.
Proof. intros. unfold arr. by rewrite (proj2 (Z.ltb_ge _ _)). Qed.

(** ** Weakest preconditions

    [runs x s Q]: the operation does not fault in the state [s], and its result and the state afterwards satisfy [Q]. *)

Definition runs {S A} (x : fsM S A) (s : S) (Q : A → S → Prop) : Prop :=
  match x s with Some (a, s') => Q a s' | None => False end.

Section Runs.
Context {S : Type}.

Lemma runs_some {A} (x : fsM S A) s Q : runs x s Q ↔ ∃ a s', x s = Some (a, s') ∧ Q a s'.
Proof. unfold runs. destruct (x s) as [[a s']|]; naive_solver. Qed.

Lemma runs_run {A} (x : fsM S A) s a s' (Q : A → S → Prop) : x s = Some (a, s') → Q a s' → runs x s Q.
Proof. unfold runs. by intros ->. Qed.

Lemma runs_inv {A} (x : fsM S A) s a s' (Q : A → S → Prop) : runs x s Q → x s = Some (a, s') → Q a s'.
Proof. unfold runs. intros HQ Hx. by rewrite Hx in HQ. Qed.

Lemma runs_mono {A} (x : fsM S A) s (Q Q' : A → S → Prop) :
  runs x s Q → (∀ a s', Q a s' → Q' a s') → runs x s Q'.
Proof. unfold runs. destruct (x s) as [[a s']|]; auto. Qed.

(** Two facts about one run. *)
Lemma runs_and {A} (x : fsM S A) s (Q Q' : A → S → Prop) :
  runs x s Q → runs x s Q' → runs x s (λ a s', Q a s' ∧ Q' a s').
Proof. unfold runs. destruct (x s) as [[a s']|]; auto. Qed.

Lemma runs_ret {A} (a : A) s (Q : A → S → Prop) : Q a s → runs (mret a) s Q.
Proof. done. Qed.

Lemma runs_bind {A B} (x : fsM S A) (f : A → fsM S B) s Q :
  runs x s (λ a s', runs (f a) s' Q) → runs (x ≫= f) s Q.
Proof. unfold runs, mbind, fsM_bind. by destruct (x s) as [[a s']|]. Qed.

Lemma runs_gets {A} (f : S → A) s (Q : A → S → Prop) : Q (f s) s → runs (gets f) s Q.
Proof. done. Qed.

Lemma runs_modify (f : S → S) s (Q : unit → S → Prop) : Q tt (f s) → runs (modify f) s Q.
Proof. done. Qed.

Lemma runs_of_option {A} (o : option A) a s (Q : A → S → Prop) : o = Some a → Q a s → runs (of_option o) s Q.
Proof. by intros ->. Qed.

Lemma runs_if {A} (b : bool) (x y : fsM S A) s Q :
  (b = true → runs x s Q) → (b = false → runs y s Q) → runs (if b then x else y) s Q.
Proof. destruct b; auto. Qed.

End Runs.

Lemma runs_zoom {S T A} (get : T → S) (put : S → T → T) (x : fsM S A) t Q :
  runs x (get t) (λ a s, Q a (put s t)) → runs (zoom get put x) t Q.
Proof. unfold runs, zoom. by destruct (x (get t)) as [[a s]|]. Qed.

(** One step of a goal [runs]. *)
Ltac rstep :=
  lazymatch goal with
  | |- runs (mbind _ _) _ _ => apply runs_bind
  | |- runs (mret _) _ _ => apply runs_ret
  | |- runs (gets _) _ _ => apply runs_gets
  | |- runs (modify _) _ _ => apply runs_modify
  | |- runs (if _ then _ else _) _ _ => apply runs_if; intros ?
  end.
