(* ===== verification/Stream.v ===== *)
(** * Streams

    A model of lib/stream.c: buffers with a mark for the next byte to read and a mark for the end of
    the data, and first-in-first-out queues of them.  An operation ends, or fails an assertion, or
    accesses memory outside of the buffer.  StreamProps.v has the theorems. *)

From stdpp Require Import gmap.
From S2P Require Import Prelude Fault.

(** ** Outcomes *)

Inductive outcome (A : Type) :=
  | Done (a : A)
  | Aborts
  | Faults.
Arguments Done {A} a.
Arguments Aborts {A}.
Arguments Faults {A}.

(** [size_t] is an unsigned integer of 64 bits. *)
Record stream := mk_stream {
  s_next : option nat;
  s_getp : Z;
  s_endp : Z;
  s_size : Z;
  s_data : list Z
}.
Definition stream_eta (s : stream) := mk_stream (s_next s) (s_getp s) (s_endp s) (s_size s) (s_data s).
#[export] Instance set_s_next : Settable s_next. Proof. mk_setter stream_eta. Defined.
#[export] Instance set_s_getp : Settable s_getp. Proof. mk_setter stream_eta. Defined.
#[export] Instance set_s_endp : Settable s_endp. Proof. mk_setter stream_eta. Defined.
#[export] Instance set_s_size : Settable s_size. Proof. mk_setter stream_eta. Defined.
#[export] Instance set_s_data : Settable s_data. Proof. mk_setter stream_eta. Defined.

Definition sM (A : Type) : Type := stream → outcome (A * stream).

#[export] Instance sM_ret : MRet sM := λ A a s, Done (a, s).
#[export] Instance sM_bind : MBind sM := λ A B f x s,
  match x s with Done (a, s') => f a s' | Aborts => Aborts | Faults => Faults end.

Definition get {A} (f : stream → A) : sM A := λ s, Done (f s, s).
Definition upd (f : stream → stream) : sM unit := λ s, Done (tt, f s).
Definition abort {A} : sM A := λ _, Aborts.
Definition wild {A} : sM A := λ _, Faults.
Definition assert (b : bool) : sM unit := if b then mret tt else abort.

(** [memcpy] from and to the data. *)
Definition mem_ok (s : stream) (o n : Z) : bool :=
  (0 <=? o) && (0 <=? n) && (o + n <=? Z.of_nat (length (s_data s))).

Definition slice (o n : Z) (l : list Z) : list Z := take (Z.to_nat n) (drop (Z.to_nat o) l).

Definition overwrite (o : Z) (bs l : list Z) : list Z :=
  take (Z.to_nat o) l ++ bs ++ drop (Z.to_nat o + length bs) l.

Definition mem_read (o n : Z) : sM (list Z) := λ s,
  if mem_ok s o n then Done (slice o n (s_data s), s) else Faults.

Definition mem_write (o : Z) (bs : list Z) : sM unit := λ s,
  if mem_ok s o (Z.of_nat (length bs)) then Done (tt, s <| s_data := overwrite o bs (s_data s) |>) else Faults.

(** [n] bytes at a pointer. *)
Definition bytes_at (src : list Z) (n : Z) : sM (list Z) := λ s,
  if n <=? Z.of_nat (length src) then Done (take (Z.to_nat n) src, s) else Faults.

(** ** Macros *)

Definition GETP_VALID (s : stream) (g : Z) : bool := g <=? s_endp s.
Definition PUT_AT_VALID (s : stream) (g : Z) : bool := GETP_VALID s g.
Definition ENDP_VALID (s : stream) (e : Z) : bool := e <=? s_size s.
Definition STREAM_WRITEABLE (s : stream) : Z := u64 (s_size s - s_endp s).
Definition STREAM_READABLE (s : stream) : Z := u64 (s_endp s - s_getp s).

Definition STREAM_VERIFY_SANE : sM unit :=
  g ← get (λ s, GETP_VALID s (s_getp s));
  assert g;;
  e ← get (λ s, ENDP_VALID s (s_endp s));
  assert e.

Definition CHECK_SIZE (s : stream) (size : Z) : Z :=
  if s_size s <? u64 (s_endp s + size) then u64 (s_size s - s_endp s) else size.

(** [s->data[i]], [s->data[s->getp++]] and [s->data[s->endp++] = c]. *)
Definition data_at (i : Z) : sM Z := λ s, match arr (s_data s) i with Some c => Done (c, s) | None => Faults end.
Definition set_data_at (i c : Z) : sM unit := mem_write i [u8 c].

Definition data_get : sM Z :=
  i ← get s_getp;
  c ← data_at i;
  upd (λ s, s <| s_getp := u64 (s_getp s + 1) |>);;
  mret c.

Definition data_put (c : Z) : sM unit :=
  i ← get s_endp;
  set_data_at i c;;
  upd (λ s, s <| s_endp := u64 (s_endp s + 1) |>).

(** ** Allocation *)

(** [data] is the memory that [XMALLOC] returns. *)
Definition stream_new (size : Z) (data : option (list Z)) : outcome (option stream) :=
  if size >? 0 then
    match data with
    | None => Done None
    | Some d => Done (Some (mk_stream None 0 0 size d))
    end
  else Aborts.

(** Returns the new contents of [new]. *)
Definition stream_copy (new : stream) : sM stream :=
  STREAM_VERIFY_SANE;;
  src ← get (λ s, s);
  assert (s_size new >=? s_endp src);;
  bs ← mem_read 0 (s_endp src);
  if mem_ok new 0 (Z.of_nat (length bs))
  then mret (new <| s_endp := s_endp src |> <| s_getp := s_getp src |> <| s_data := overwrite 0 bs (s_data new) |>)
  else wild.

Definition stream_dup (data : option (list Z)) : sM (option stream) :=
  STREAM_VERIFY_SANE;;
  n ← get s_endp;
  match stream_new n data with
  | Done (Some new) => c ← stream_copy new; mret (Some c)
  | Done None => mret None
  | Aborts => abort
  | Faults => wild
  end.

(** [newdata] is what [XREALLOC] returns. *)
Definition stream_resize (newsize : Z) (newdata : option (list Z)) : sM Z :=
  STREAM_VERIFY_SANE;;
  match newdata with
  | None => get s_size
  | Some d =>
      upd (λ s, s <| s_data := d |> <| s_size := newsize |>);;
      upd (λ s, if s_endp s >? s_size s then s <| s_endp := s_size s |> else s);;
      upd (λ s, if s_getp s >? s_endp s then s <| s_getp := s_endp s |> else s);;
      STREAM_VERIFY_SANE;;
      get s_size
  end.

(** ** Marks *)

Definition stream_get_getp : sM Z := STREAM_VERIFY_SANE;; get s_getp.
Definition stream_get_endp : sM Z := STREAM_VERIFY_SANE;; get s_endp.
Definition stream_get_size : sM Z := STREAM_VERIFY_SANE;; get s_size.

Definition stream_set_getp (pos : Z) : sM unit :=
  STREAM_VERIFY_SANE;;
  ok ← get (λ s, GETP_VALID s pos);
  (if negb ok then abort else mret tt);;
  upd (λ s, s <| s_getp := pos |>).

Definition stream_forward_getp (size : Z) : sM unit :=
  STREAM_VERIFY_SANE;;
  ok ← get (λ s, GETP_VALID s (u64 (s_getp s + size)));
  if negb ok then abort else upd (λ s, s <| s_getp := u64 (s_getp s + size) |>).

Definition stream_forward_endp (size : Z) : sM unit :=
  STREAM_VERIFY_SANE;;
  ok ← get (λ s, ENDP_VALID s (u64 (s_endp s + size)));
  if negb ok then abort else upd (λ s, s <| s_endp := u64 (s_endp s + size) |>).

(** ** Reading *)

Definition stream_get (size : Z) : sM (list Z) :=
  STREAM_VERIFY_SANE;;
  r ← get STREAM_READABLE;
  if r <? size then abort
  else
    g ← get s_getp;
    bs ← mem_read g size;
    upd (λ s, s <| s_getp := u64 (s_getp s + size) |>);;
    mret bs.

Definition stream_getc : sM Z :=
  STREAM_VERIFY_SANE;;
  r ← get STREAM_READABLE;
  if r <? 1 then abort else data_get.

Definition stream_getc_from (from : Z) : sM Z :=
  STREAM_VERIFY_SANE;;
  ok ← get (λ s, GETP_VALID s (u64 (from + 1)));
  if negb ok then abort else data_at from.

Definition stream_getw : sM Z :=
  STREAM_VERIFY_SANE;;
  r ← get STREAM_READABLE;
  if r <? 2 then abort
  else
    a ← data_get; b ← data_get;
    mret (u16 (a ≪ 8) ||| b).

Definition stream_getw_from (from : Z) : sM Z :=
  STREAM_VERIFY_SANE;;
  ok ← get (λ s, GETP_VALID s (u64 (from + 2)));
  if negb ok then abort
  else
    a ← data_at from; b ← data_at (u64 (from + 1));
    mret (u16 (a ≪ 8) ||| b).

Definition stream_getl_from (from : Z) : sM Z :=
  STREAM_VERIFY_SANE;;
  ok ← get (λ s, GETP_VALID s (u64 (from + 4)));
  if negb ok then abort
  else
    a ← data_at from; b ← data_at (u64 (from + 1)); c ← data_at (u64 (from + 2)); d ← data_at (u64 (from + 3));
    mret (u32 (a ≪ 24) ||| b ≪ 16 ||| c ≪ 8 ||| d).

Definition stream_getl : sM Z :=
  STREAM_VERIFY_SANE;;
  r ← get STREAM_READABLE;
  if r <? 4 then abort
  else
    a ← data_get; b ← data_get; c ← data_get; d ← data_get;
    mret (u32 (a ≪ 24) ||| b ≪ 16 ||| c ≪ 8 ||| d).

Definition quad (a b c d e f g h : Z) : Z :=
  a ≪ 56 ||| b ≪ 48 ||| c ≪ 40 ||| d ≪ 32 ||| e ≪ 24 ||| f ≪ 16 ||| g ≪ 8 ||| h.

Definition stream_getq_from (from : Z) : sM Z :=
  STREAM_VERIFY_SANE;;
  ok ← get (λ s, GETP_VALID s (u64 (from + 8)));
  if negb ok then abort
  else
    a ← data_at from; b ← data_at (u64 (from + 1)); c ← data_at (u64 (from + 2)); d ← data_at (u64 (from + 3));
    e ← data_at (u64 (from + 4)); f ← data_at (u64 (from + 5)); g ← data_at (u64 (from + 6)); h ← data_at (u64 (from + 7));
    mret (quad a b c d e f g h).

Definition stream_getq : sM Z :=
  STREAM_VERIFY_SANE;;
  r ← get STREAM_READABLE;
  if r <? 8 then abort
  else
    a ← data_get; b ← data_get; c ← data_get; d ← data_get;
    e ← data_get; f ← data_get; g ← data_get; h ← data_get;
    mret (quad a b c d e f g h).

(** The four bytes in the order of the memory. *)
Definition stream_get_ipv4 : sM Z :=
  STREAM_VERIFY_SANE;;
  r ← get STREAM_READABLE;
  if r <? 4 then abort
  else
    g ← get s_getp;
    bs ← mem_read g 4;
    upd (λ s, s <| s_getp := u64 (s_getp s + 4) |>);;
    mret (le_value bs).

(** ** Writing *)

Definition stream_put (src : option (list Z)) (size : Z) : sM unit :=
  size ← get (λ s, CHECK_SIZE s size);
  STREAM_VERIFY_SANE;;
  r ← get STREAM_WRITEABLE;
  if r <? size then abort
  else
    e ← get s_endp;
    (match src with
     | Some p => bs ← bytes_at p size; mem_write e bs
     | None => mem_write e (replicate (Z.to_nat size) 0)
     end);;
    upd (λ s, s <| s_endp := u64 (s_endp s + size) |>).

Definition stream_putc (c : Z) : sM Z :=
  STREAM_VERIFY_SANE;;
  r ← get STREAM_WRITEABLE;
  if r <? 1 then abort else data_put c;; mret 1.

Definition stream_putw (w : Z) : sM Z :=
  STREAM_VERIFY_SANE;;
  r ← get STREAM_WRITEABLE;
  if r <? 2 then abort else data_put (w ≫ 8);; data_put w;; mret 2.

Definition stream_putl (l : Z) : sM Z :=
  STREAM_VERIFY_SANE;;
  r ← get STREAM_WRITEABLE;
  if r <? 4 then abort
  else data_put (l ≫ 24);; data_put (l ≫ 16);; data_put (l ≫ 8);; data_put l;; mret 4.

Definition stream_putq (q : Z) : sM Z :=
  STREAM_VERIFY_SANE;;
  r ← get STREAM_WRITEABLE;
  if r <? 8 then abort
  else
    data_put (q ≫ 56);; data_put (q ≫ 48);; data_put (q ≫ 40);; data_put (q ≫ 32);;
    data_put (q ≫ 24);; data_put (q ≫ 16);; data_put (q ≫ 8);; data_put q;; mret 8.

Definition stream_putc_at (putp c : Z) : sM Z :=
  STREAM_VERIFY_SANE;;
  ok ← get (λ s, PUT_AT_VALID s (u64 (putp + 1)));
  if negb ok then abort else set_data_at putp c;; mret 1.

Definition stream_putw_at (putp w : Z) : sM Z :=
  STREAM_VERIFY_SANE;;
  ok ← get (λ s, PUT_AT_VALID s (u64 (putp + 2)));
  if negb ok then abort
  else set_data_at putp (w ≫ 8);; set_data_at (u64 (putp + 1)) w;; mret 2.

Definition stream_putl_at (putp l : Z) : sM Z :=
  STREAM_VERIFY_SANE;;
  ok ← get (λ s, PUT_AT_VALID s (u64 (putp + 4)));
  if negb ok then abort
  else
    set_data_at putp (l ≫ 24);; set_data_at (u64 (putp + 1)) (l ≫ 16);;
    set_data_at (u64 (putp + 2)) (l ≫ 8);; set_data_at (u64 (putp + 3)) l;; mret 4.

Definition stream_putq_at (putp q : Z) : sM Z :=
  STREAM_VERIFY_SANE;;
  ok ← get (λ s, PUT_AT_VALID s (u64 (putp + 8)));
  if negb ok then abort
  else
    set_data_at putp (q ≫ 56);; set_data_at (u64 (putp + 1)) (q ≫ 48);;
    set_data_at (u64 (putp + 2)) (q ≫ 40);; set_data_at (u64 (putp + 3)) (q ≫ 32);;
    set_data_at (u64 (putp + 4)) (q ≫ 24);; set_data_at (u64 (putp + 5)) (q ≫ 16);;
    set_data_at (u64 (putp + 6)) (q ≫ 8);; set_data_at (u64 (putp + 7)) q;; mret 8.

Definition stream_put_ipv4 (l : Z) : sM Z :=
  STREAM_VERIFY_SANE;;
  r ← get STREAM_WRITEABLE;
  if r <? 4 then abort
  else
    e ← get s_endp;
    mem_write e (le_bytes 4 l);;
    upd (λ s, s <| s_endp := u64 (s_endp s + 4) |>);;
    mret 4.

Definition stream_put_in_addr (addr : Z) : sM Z :=
  STREAM_VERIFY_SANE;;
  r ← get STREAM_WRITEABLE;
  if r <? 4 then abort
  else
    e ← get s_endp;
    mem_write e (le_bytes 4 addr);;
    upd (λ s, s <| s_endp := u64 (s_endp s + 4) |>);;
    mret 4.

Definition PSIZE (a : Z) : Z := (a + 7) / 8.

(** [u] is the memory of the union with the address. *)
Record prefix := mk_prefix { prefixlen : Z; u_prefix : list Z }.

Definition stream_put_prefix (p : prefix) : sM Z :=
  STREAM_VERIFY_SANE;;
  let psize := PSIZE (prefixlen p) in
  r ← get STREAM_WRITEABLE;
  if r <? psize then abort
  else
    stream_putc (prefixlen p);;
    e ← get s_endp;
    bs ← bytes_at (u_prefix p) psize;
    mem_write e bs;;
    upd (λ s, s <| s_endp := u64 (s_endp s + psize) |>);;
    mret psize.

Definition stream_write (ptr : list Z) (size : Z) : sM Z :=
  size ← get (λ s, CHECK_SIZE s size);
  STREAM_VERIFY_SANE;;
  r ← get STREAM_WRITEABLE;
  if r <? size then abort
  else
    e ← get s_endp;
    bs ← bytes_at ptr size;
    mem_write e bs;;
    upd (λ s, s <| s_endp := u64 (s_endp s + size) |>);;
    mret size.

(** ** Input and output

    [input] is what the call of the system delivers: an error, or the bytes that it has stored. *)

Definition received (input : option (list Z)) : sM Z :=
  match input with
  | None => mret (-1)
  | Some bs => e ← get s_endp; mem_write e bs;; mret (Z.of_nat (length bs))
  end.

(** [stream_read], [stream_read_unblock] and [stream_recvmsg] after their checks. *)
Definition read_positive (input : option (list Z)) : sM Z :=
  nbytes ← received input;
  (if nbytes >? 0 then upd (λ s, s <| s_endp := u64 (s_endp s + nbytes) |>) else mret tt);;
  mret nbytes.

Definition stream_read (size : Z) (input : option (list Z)) : sM Z :=
  STREAM_VERIFY_SANE;;
  r ← get STREAM_WRITEABLE;
  if r <? size then abort else read_positive input.

Definition stream_read_unblock (size : Z) (input : option (list Z)) : sM Z :=
  STREAM_VERIFY_SANE;;
  r ← get STREAM_WRITEABLE;
  if r <? size then abort else read_positive input.

Definition stream_recvmsg (iovlen : Z) (size : Z) (input : option (list Z)) : sM Z :=
  STREAM_VERIFY_SANE;;
  assert (iovlen >? 0);;
  r ← get STREAM_WRITEABLE;
  if r <? size then abort else read_positive input.

(** [retry]: [ERRNO_IO_RETRY (errno)]. *)
Definition stream_read_try (size : Z) (input : option (list Z)) (retry : bool) : sM Z :=
  STREAM_VERIFY_SANE;;
  r ← get STREAM_WRITEABLE;
  if r <? size then abort
  else
    nbytes ← received input;
    if nbytes >=? 0 then upd (λ s, s <| s_endp := u64 (s_endp s + nbytes) |>);; mret nbytes
    else if retry then mret (-2) else mret (-1).

Definition stream_recvfrom (size : Z) (input : option (list Z)) (retry : bool) : sM Z :=
  STREAM_VERIFY_SANE;;
  r ← get STREAM_WRITEABLE;
  if r <? size then abort
  else
    nbytes ← received input;
    if nbytes >=? 0 then upd (λ s, s <| s_endp := u64 (s_endp s + nbytes) |>);; mret nbytes
    else if retry then mret (-2) else mret (-1).

(** The offset of the pointer. *)
Definition stream_pnt : sM Z := STREAM_VERIFY_SANE;; get s_getp.

Definition stream_empty : sM Z := STREAM_VERIFY_SANE;; e ← get s_endp; mret (bit (e =? 0)).

Definition stream_reset : sM unit := STREAM_VERIFY_SANE;; upd (λ s, s <| s_endp := 0 |> <| s_getp := 0 |>).

(** The bytes that are passed to [write], whose result is [nbytes]. *)
Definition stream_flush (nbytes : Z) : sM (list Z * Z) :=
  STREAM_VERIFY_SANE;;
  g ← get s_getp;
  n ← get STREAM_READABLE;
  bs ← mem_read g n;
  mret (bs, nbytes).

(** ** Queues of streams *)

Record stream_fifo := mk_fifo { sf_count : Z; sf_head : option nat; sf_tail : option nat }.
Definition fifo_eta (q : stream_fifo) := mk_fifo (sf_count q) (sf_head q) (sf_tail q).
#[export] Instance set_sf_count : Settable sf_count. Proof. mk_setter fifo_eta. Defined.
#[export] Instance set_sf_head : Settable sf_head. Proof. mk_setter fifo_eta. Defined.
#[export] Instance set_sf_tail : Settable sf_tail. Proof. mk_setter fifo_eta. Defined.

(** The streams in the memory and the queue. *)
Record fifo_mem := mk_fmem { fm_streams : gmap nat stream; fm_fifo : stream_fifo }.
Definition fmem_eta (m : fifo_mem) := mk_fmem (fm_streams m) (fm_fifo m).
#[export] Instance set_fm_streams : Settable fm_streams. Proof. mk_setter fmem_eta. Defined.
#[export] Instance set_fm_fifo : Settable fm_fifo. Proof. mk_setter fmem_eta. Defined.

Definition stream_at (p : nat) : fsM fifo_mem stream := m ← gets fm_streams; of_option (m !! p).
Definition upd_fifo (f : stream_fifo → stream_fifo) : fsM fifo_mem unit := modify (λ m, m <| fm_fifo := f (fm_fifo m) |>).
Definition stream_free (p : nat) : fsM fifo_mem unit :=
  stream_at p;; modify (λ m, m <| fm_streams := delete p (fm_streams m) |>).

Definition stream_fifo_new : stream_fifo := mk_fifo 0 None None.

Definition stream_fifo_push (s : nat) : fsM fifo_mem unit :=
  q ← gets fm_fifo;
  (match sf_tail q with
   | Some t =>
       x ← stream_at t;
       modify (λ m, m <| fm_streams := <[t := x <| s_next := Some s |>]> (fm_streams m) |>)
   | None => upd_fifo (λ q, q <| sf_head := Some s |>)
   end);;
  upd_fifo (λ q, q <| sf_tail := Some s |>);;
  upd_fifo (λ q, q <| sf_count := u64 (sf_count q + 1) |>).

Definition stream_fifo_pop : fsM fifo_mem (option nat) :=
  s ← gets (λ m, sf_head (fm_fifo m));
  (match s with
   | Some p =>
       x ← stream_at p;
       upd_fifo (λ q, q <| sf_head := s_next x |>);;
       upd_fifo (λ q, match sf_head q with None => q <| sf_tail := None |> | Some _ => q end)
   | None => mret tt
   end);;
  upd_fifo (λ q, q <| sf_count := u64 (sf_count q - 1) |>);;
  mret s.

Definition stream_fifo_head : fsM fifo_mem (option nat) := gets (λ m, sf_head (fm_fifo m)).

(** Every round of the loop frees a stream, which bounds their number. *)
Fixpoint fifo_free_loop (fuel : nat) (s : option nat) : fsM fifo_mem unit :=
  match s, fuel with
  | None, _ => mret tt
  | Some p, S fuel => x ← stream_at p; stream_free p;; fifo_free_loop fuel (s_next x)
  | Some _, O => fault
  end.

Definition stream_fifo_clean : fsM fifo_mem unit :=
  h ← gets (λ m, sf_head (fm_fifo m));
  n ← gets (λ m, size (fm_streams m));
  fifo_free_loop n h;;
  upd_fifo (λ q, q <| sf_tail := None |> <| sf_head := None |>);;
  upd_fifo (λ q, q <| sf_count := 0 |>).

(** The memory without the queue. *)
Definition stream_fifo_free : fsM fifo_mem (gmap nat stream) := stream_fifo_clean;; gets fm_streams.
