(* ===== verification/StreamProps.v ===== *)
(** * What streams promise

    A stream refines a buffer: the bytes written so far, the position of the reader, and the bytes behind the end.
    Every operation of Stream.v with arguments in range changes the buffer in one simple way, or fails an assertion
    exactly if there are too few bytes or too little room, and never leaves the memory of the stream. From this follow
    the round trip of sequences of fields and the order of the queues. *)

From stdpp Require Import gmap.
From S2P Require Import Prelude Fault Stream.

(** ** Numbers in the byte order of the network *)

Definition is_byte (z : Z) : Prop := 0 ≤ z < 256.
Definition be_bytes (n : nat) (z : Z) : list Z := rev (le_bytes n z).
Definition be_value (l : list Z) : Z := le_value (rev l).

Abbreviation len l := (Z.of_nat (length l)).

Lemma land_u8 z : z &&& 255 = u8 z.
Proof. change 255 with (Z.ones 8). by rewrite Z.land_ones. Qed.

Lemma le_bytes_length n z : length (le_bytes n z) = n.
Proof. revert z. induction n; intros z; cbn; [done|]. by rewrite IHn. Qed.

Lemma be_bytes_length n z : length (be_bytes n z) = n.
Proof. unfold be_bytes. rewrite length_rev. apply le_bytes_length. Qed.

Lemma le_bytes_byte n z : Forall is_byte (le_bytes n z).
Proof.
  revert z. induction n; intros z; cbn; constructor; [|done]. rewrite land_u8. unfold is_byte. pose proof (u8_range z). lia.
Qed.

Lemma be_bytes_byte n z : Forall is_byte (be_bytes n z).
Proof. apply Forall_rev, le_bytes_byte. Qed.

Lemma le_value_bytes n z : le_value (le_bytes n z) = z mod 2 ^ (8 * Z.of_nat n).
Proof.
  revert z. induction n as [|n IH]; intros z; cbn [le_bytes le_value]; [by rewrite Z.mod_1_r|].
  rewrite IH, land_u8, Z.shiftr_div_pow2 by lia. unfold u8.
  replace (8 * Z.of_nat (S n)) with (8 + 8 * Z.of_nat n) by lia.
  rewrite Z.pow_add_r by lia. change 256 with (2 ^ 8). rewrite Z.rem_mul_r by lia. done.
Qed.

Lemma be_value_bytes n z : be_value (be_bytes n z) = z mod 2 ^ (8 * Z.of_nat n).
Proof. unfold be_value, be_bytes. rewrite rev_involutive. apply le_value_bytes. Qed.

Lemma le_bytes_u8 z : le_bytes 1 z = [u8 z].
Proof. cbn. by rewrite land_u8. Qed.

Lemma be_bytes_2 z : be_bytes 2 z = [u8 (z ≫ 8); u8 z].
Proof. unfold be_bytes. cbn. by rewrite !land_u8. Qed.

Lemma be_bytes_4 z : be_bytes 4 z = [u8 (z ≫ 24); u8 (z ≫ 16); u8 (z ≫ 8); u8 z].
Proof. unfold be_bytes. cbn. by rewrite !Z.shiftr_shiftr, !land_u8 by lia. Qed.

Lemma be_bytes_8 z :
  be_bytes 8 z = [u8 (z ≫ 56); u8 (z ≫ 48); u8 (z ≫ 40); u8 (z ≫ 32); u8 (z ≫ 24); u8 (z ≫ 16); u8 (z ≫ 8); u8 z].
Proof. unfold be_bytes. cbn. by rewrite !Z.shiftr_shiftr, !land_u8 by lia. Qed.

Lemma be_value_2 a b : is_byte a → is_byte b → u16 (a ≪ 8) ||| b = be_value [a; b].
Proof.
  unfold is_byte. intros. rewrite Z.shiftl_mul_pow2, u16_small, lor_mul_add by lia. unfold be_value. cbn. lia.
Qed.

Lemma be_value_4 a b c d :
  is_byte a → is_byte b → is_byte c → is_byte d → u32 (a ≪ 24) ||| b ≪ 16 ||| c ≪ 8 ||| d = be_value [a; b; c; d].
Proof.
  unfold is_byte. intros. rewrite (Z.shiftl_mul_pow2 a), u32_small by lia.
  rewrite (lor_shift_shift 24 16), (lor_shift_shift 16 8), (lor_mul_add 8) by lia. unfold be_value. cbn. lia.
Qed.

Lemma be_value_8 a b c d e f g h :
  is_byte a → is_byte b → is_byte c → is_byte d → is_byte e → is_byte f → is_byte g → is_byte h →
  quad a b c d e f g h = be_value [a; b; c; d; e; f; g; h].
Proof.
  unfold is_byte, quad. intros. rewrite (Z.shiftl_mul_pow2 a) by lia.
  rewrite (lor_shift_shift 56 48), (lor_shift_shift 48 40), (lor_shift_shift 40 32), (lor_shift_shift 32 24),
    (lor_shift_shift 24 16), (lor_shift_shift 16 8), (lor_mul_add 8) by lia. unfold be_value. cbn. lia.
Qed.

(** ** Buffers *)

Record buffer := mk_buf { b_content : list Z; b_pos : Z; b_free : list Z }.

Definition holds (s : stream) (b : buffer) : Prop :=
  s_data s = b_content b ++ b_free b ∧ s_getp s = b_pos b ∧ s_endp s = len (b_content b) ∧ s_size s = len (s_data s) ∧
  0 ≤ b_pos b ≤ len (b_content b) ∧ s_size s < 2 ^ 63 ∧ Forall is_byte (s_data s).

Definition buf_get (n : Z) (b : buffer) : option (list Z * buffer) :=
  if b_pos b + n <=? len (b_content b)
  then Some (slice (b_pos b) n (b_content b), mk_buf (b_content b) (b_pos b + n) (b_free b)) else None.

Definition buf_peek (o n : Z) (b : buffer) : option (list Z * buffer) :=
  if o + n <=? len (b_content b) then Some (slice o n (b_content b), b) else None.

Definition buf_put (bs : list Z) (b : buffer) : option buffer :=
  if len bs <=? len (b_free b) then Some (mk_buf (b_content b ++ bs) (b_pos b) (drop (length bs) (b_free b))) else None.

Definition buf_poke (o : Z) (bs : list Z) (b : buffer) : option buffer :=
  if o + len bs <=? len (b_content b)
  then Some (mk_buf (overwrite o bs (b_content b)) (b_pos b) (b_free b)) else None.

Definition buf_seek (pos : Z) (b : buffer) : option buffer :=
  if pos <=? len (b_content b) then Some (mk_buf (b_content b) pos (b_free b)) else None.

Definition buf_extend (n : Z) (b : buffer) : option buffer :=
  if n <=? len (b_free b)
  then Some (mk_buf (b_content b ++ take (Z.to_nat n) (b_free b)) (b_pos b) (drop (Z.to_nat n) (b_free b))) else None.

Definition buf_reset (b : buffer) : buffer := mk_buf [] 0 (b_content b ++ b_free b).

(** ** Weakest preconditions *)

Definition sruns {A} (x : sM A) (s : stream) (Q : A → stream → Prop) : Prop :=
  match x s with Done (a, s') => Q a s' | _ => False end.

Lemma sruns_bind {A B} (x : sM A) (f : A → sM B) s Q : sruns x s (λ a s', sruns (f a) s' Q) → sruns (x ≫= f) s Q.
Proof. unfold sruns, mbind, sM_bind. by destruct (x s) as [[a s']| |]. Qed.

Lemma sruns_mono {A} (x : sM A) s (Q Q' : A → stream → Prop) :
  sruns x s Q → (∀ a s', Q a s' → Q' a s') → sruns x s Q'.
Proof. unfold sruns. destruct (x s) as [[a s']| |]; auto. Qed.

(** The outcome that an optional result specifies. *)
Definition meets {A} (x : sM A) (s : stream) (o : option (A * buffer)) : Prop :=
  match o with
  | Some (v, b) => sruns x s (λ a s', a = v ∧ holds s' b)
  | None => x s = Aborts
  end.

Section Steps.
Implicit Types s : stream.
Implicit Types b : buffer.

Lemma verify_run {A} (x : sM A) s b : holds s b → (STREAM_VERIFY_SANE;; x) s = x s.
Proof.
  intros (Hd&Hg&He&Hz&?&?&?). unfold STREAM_VERIFY_SANE, mbind, sM_bind, get, GETP_VALID, ENDP_VALID, assert.
  rewrite Hd, length_app in Hz. rewrite (proj2 (Z.leb_le (s_getp s) _)) by lia. cbn. by rewrite (proj2 (Z.leb_le _ _)) by lia.
Qed.

Lemma verify_meets {A} (x : sM A) s b o : holds s b → meets x s o → meets (STREAM_VERIFY_SANE;; x) s o.
Proof. intros Hh Hm. unfold meets, sruns in *. by rewrite (verify_run x s b Hh). Qed.

Lemma readable s b : holds s b → STREAM_READABLE s = len (b_content b) - b_pos b.
Proof. intros (Hd&Hg&He&Hz&?&?&?). unfold STREAM_READABLE, u64. rewrite Hd, length_app in Hz. rewrite Z.mod_small; lia. Qed.

Lemma writeable s b : holds s b → STREAM_WRITEABLE s = len (b_free b).
Proof. intros (Hd&Hg&He&Hz&?&?&?). unfold STREAM_WRITEABLE, u64. rewrite Hd, length_app in Hz. rewrite Z.mod_small; lia. Qed.

Lemma data_at_runs i x s b (Q : Z → stream → Prop) :
  holds s b → 0 ≤ i → b_content b !! Z.to_nat i = Some x → Q x s → sruns (data_at i) s Q.
Proof.
  intros (Hd&_) Hi Hx HQ. unfold sruns, data_at. rewrite arr_lookup by done. rewrite Hd, (lookup_app_l_Some _ _ _ _ Hx). done.
Qed.

Lemma data_get_runs x s b (Q : Z → stream → Prop) :
  holds s b → b_content b !! Z.to_nat (b_pos b) = Some x →
  (∀ s', holds s' (mk_buf (b_content b) (b_pos b + 1) (b_free b)) → Q x s') → sruns data_get s Q.
Proof.
  intros Hh Hx HQ. unfold data_get. apply sruns_bind. cbn. pose proof Hh as (Hd&Hg&He&Hz&?&?&?).
  apply sruns_bind, (data_at_runs _ x _ b); [done|lia|by rewrite Hg|]. apply HQ.
  apply lookup_lt_Some in Hx. rewrite Hd, length_app in Hz.
  assert (u64 (s_getp s + 1) = b_pos b + 1) as E by (unfold u64; rewrite Z.mod_small; lia).
  split_and!; cbn; try done; try lia. by rewrite Hd, length_app.
Qed.

Lemma overwrite_app l1 l2 bs l3 o : o = len l1 → length bs = length l2 → overwrite o bs (l1 ++ l2 ++ l3) = l1 ++ bs ++ l3.
Proof.
  intros -> Hl. unfold overwrite. rewrite Nat2Z.id, take_app_length, <- drop_drop, drop_app_length.
  by rewrite Hl, drop_app_length.
Qed.

Lemma overwrite_length o bs l : 0 ≤ o → o + len bs ≤ len l → length (overwrite o bs l) = length l.
Proof. intros. unfold overwrite. rewrite !length_app, length_take, length_drop. lia. Qed.

Lemma decompose (l : list Z) (o n : Z) :
  0 ≤ o → 0 ≤ n → o + n ≤ len l → ∃ l1 l2 l3, l = l1 ++ l2 ++ l3 ∧ len l1 = o ∧ len l2 = n ∧ slice o n l = l2.
Proof.
  intros. exists (take (Z.to_nat o) l), (slice o n l), (drop (Z.to_nat n) (drop (Z.to_nat o) l)). unfold slice.
  rewrite take_drop, take_drop, !length_take, length_drop. split_and!; [done|lia|lia|done].
Qed.

(** Bytes written at the end and inside of the data. *)
Lemma mem_write_end bs s b (Q : unit → stream → Prop) :
  holds s b → len bs ≤ len (b_free b) → Forall is_byte bs →
  (∀ s', holds (s' <| s_endp := u64 (s_endp s' + len bs) |>)
           (mk_buf (b_content b ++ bs) (b_pos b) (drop (length bs) (b_free b))) → s_endp s' = s_endp s → Q tt s') →
  sruns (mem_write (s_endp s) bs) s Q.
Proof.
  intros (Hd&Hg&He&Hz&?&?&Hb) Hl Hbs HQ. unfold sruns, mem_write, mem_ok. pose proof Hz as Hz'. rewrite Hd, length_app in Hz'.
  rewrite !(proj2 (Z.leb_le _ _)) by (try rewrite Hd, length_app; lia). cbn [andb]. apply HQ; [|done].
  destruct (decompose (b_free b) 0 (len bs)) as (f1&f2&f3&Hf&Hf1&Hf2&_); [lia..|].
  destruct f1; [|cbn in Hf1; lia]. rewrite app_nil_l in Hf.
  assert (overwrite (s_endp s) bs (s_data s) = (b_content b ++ bs) ++ drop (length bs) (b_free b)) as E.
  { rewrite Hd, Hf, (overwrite_app _ f2) by lia. rewrite <- app_assoc. f_equal. f_equal.
    replace (length bs) with (length f2) by lia. by rewrite drop_app_length. }
  assert (u64 (s_endp s + len bs) = len (b_content b ++ bs)) as Eu.
  { rewrite length_app. unfold u64. rewrite Z.mod_small; lia. }
  split_and!; cbn; try done; try lia.
  - rewrite overwrite_length; [done|lia|]. rewrite Hd, length_app. lia.
  - rewrite length_app. lia.
  - rewrite E. rewrite Hd in Hb. apply list.Forall_app in Hb as [? ?]. by repeat first [apply list.Forall_app_2|apply list.Forall_drop].
Qed.

Lemma set_data_at_runs i c s b l1 x l2 (Q : unit → stream → Prop) :
  holds s b → i = len l1 → b_content b = l1 ++ x :: l2 →
  (∀ s', holds s' (mk_buf (l1 ++ u8 c :: l2) (b_pos b) (b_free b)) → Q tt s') → sruns (set_data_at i c) s Q.
Proof.
  intros (Hd&Hg&He&Hz&?&?&Hb) -> Hc HQ. unfold sruns, set_data_at, mem_write, mem_ok. rewrite Hd, length_app in Hz.
  assert (len (b_content b) = len l1 + 1 + len l2) as Hlc by (rewrite Hc, length_app; cbn; lia).
  rewrite !(proj2 (Z.leb_le _ _)) by (try rewrite Hd, length_app; cbn; lia). cbn [andb]. apply HQ.
  assert (overwrite (len l1) [u8 c] (s_data s) = (l1 ++ u8 c :: l2) ++ b_free b) as E.
  { rewrite Hd, Hc, <- !app_assoc. change ((x :: l2) ++ b_free b) with ([x] ++ l2 ++ b_free b). by rewrite overwrite_app. }
  split_and!; cbn; try done; try lia.
  - rewrite length_app. cbn. lia.
  - rewrite E, length_app. rewrite length_app. cbn [length]. lia.
  - rewrite length_app. cbn. lia.
  - rewrite E. rewrite Hd, Hc in Hb. apply list.Forall_app in Hb as [[H1 [_ H2]%list.Forall_cons]%list.Forall_app H3].
    apply list.Forall_app; split; [|done]. apply list.Forall_app; split; [done|]. constructor; [|done].
    unfold is_byte. pose proof (u8_range c). lia.
Qed.

Lemma data_put_runs c s b (Q : unit → stream → Prop) :
  holds s b → 1 ≤ len (b_free b) →
  (∀ s', holds s' (mk_buf (b_content b ++ [u8 c]) (b_pos b) (drop 1 (b_free b))) → Q tt s') → sruns (data_put c) s Q.
Proof.
  intros Hh Hl HQ. unfold data_put, set_data_at. apply sruns_bind. cbn.
  apply sruns_bind, (mem_write_end _ _ b); [done|cbn; lia| |].
  { repeat constructor; pose proof (u8_range c); lia. }
  intros s' Hs' _. by apply HQ.
Qed.

End Steps.

(** ** The operations *)

Inductive width := Wc | Ww | Wl | Wq.
Definition bytes_in (w : width) : nat := match w with Wc => 1 | Ww => 2 | Wl => 4 | Wq => 8 end.

Inductive stream_op :=
  | Op_get (size : Z)
  | Op_getn (w : width)
  | Op_getn_from (w : width) (from : Z)
  | Op_get_ipv4
  | Op_put (src : option (list Z)) (size : Z)
  | Op_putn (w : width) (v : Z)
  | Op_putn_at (w : width) (putp v : Z)
  | Op_put_ipv4 (l : Z)
  | Op_put_in_addr (addr : Z)
  | Op_put_prefix (p : prefix)
  | Op_write (ptr : list Z) (size : Z)
  | Op_read (size : Z) (input : option (list Z))
  | Op_read_unblock (size : Z) (input : option (list Z))
  | Op_recvmsg (iovlen size : Z) (input : option (list Z))
  | Op_read_try (size : Z) (input : option (list Z)) (retry : bool)
  | Op_recvfrom (size : Z) (input : option (list Z)) (retry : bool)
  | Op_set_getp (pos : Z)
  | Op_forward_getp (size : Z)
  | Op_forward_endp (size : Z)
  | Op_get_getp
  | Op_get_endp
  | Op_get_size
  | Op_empty
  | Op_flush (nbytes : Z)
  | Op_reset.

Inductive value := V_none | V_int (z : Z) | V_bytes (bs : list Z).

Definition getn (w : width) : sM Z :=
  match w with Wc => stream_getc | Ww => stream_getw | Wl => stream_getl | Wq => stream_getq end.
Definition getn_from (w : width) (from : Z) : sM Z :=
  match w with
  | Wc => stream_getc_from from | Ww => stream_getw_from from | Wl => stream_getl_from from | Wq => stream_getq_from from
  end.
Definition putn (w : width) (v : Z) : sM Z :=
  match w with Wc => stream_putc v | Ww => stream_putw v | Wl => stream_putl v | Wq => stream_putq v end.
Definition putn_at (w : width) (putp v : Z) : sM Z :=
  match w with
  | Wc => stream_putc_at putp v | Ww => stream_putw_at putp v | Wl => stream_putl_at putp v | Wq => stream_putq_at putp v
  end.

Definition run_stream_op (o : stream_op) : sM value :=
  match o with
  | Op_get size => v ← stream_get size; mret (V_bytes v)
  | Op_getn w => v ← getn w; mret (V_int v)
  | Op_getn_from w from => v ← getn_from w from; mret (V_int v)
  | Op_get_ipv4 => v ← stream_get_ipv4; mret (V_int v)
  | Op_put src size => stream_put src size;; mret V_none
  | Op_putn w v => v ← putn w v; mret (V_int v)
  | Op_putn_at w putp v => v ← putn_at w putp v; mret (V_int v)
  | Op_put_ipv4 l => v ← stream_put_ipv4 l; mret (V_int v)
  | Op_put_in_addr a => v ← stream_put_in_addr a; mret (V_int v)
  | Op_put_prefix p => v ← stream_put_prefix p; mret (V_int v)
  | Op_write ptr size => v ← stream_write ptr size; mret (V_int v)
  | Op_read size input => v ← stream_read size input; mret (V_int v)
  | Op_read_unblock size input => v ← stream_read_unblock size input; mret (V_int v)
  | Op_recvmsg iovlen size input => v ← stream_recvmsg iovlen size input; mret (V_int v)
  | Op_read_try size input retry => v ← stream_read_try size input retry; mret (V_int v)
  | Op_recvfrom size input retry => v ← stream_recvfrom size input retry; mret (V_int v)
  | Op_set_getp pos => stream_set_getp pos;; mret V_none
  | Op_forward_getp size => stream_forward_getp size;; mret V_none
  | Op_forward_endp size => stream_forward_endp size;; mret V_none
  | Op_get_getp => v ← stream_get_getp; mret (V_int v)
  | Op_get_endp => v ← stream_get_endp; mret (V_int v)
  | Op_get_size => v ← stream_get_size; mret (V_int v)
  | Op_empty => v ← stream_empty; mret (V_int v)
  | Op_flush nbytes => r ← stream_flush nbytes; mret (V_bytes r.1)
  | Op_reset => stream_reset;; mret V_none
  end.

(** What the caller has to ensure. The positions do not wrap around, [size] bytes can be read at the source pointer and a call
    of the system stores at most [size] bytes. *)
Definition input_ok (size : Z) (input : option (list Z)) : Prop :=
  match input with Some bs => len bs ≤ size ∧ Forall is_byte bs | None => True end.

Definition op_ok (o : stream_op) (b : buffer) : Prop :=
  match o with
  | Op_get size => 0 ≤ size
  | Op_forward_getp size | Op_forward_endp size => 0 ≤ size < 2 ^ 63
  | Op_getn_from w from => 0 ≤ from < 2 ^ 63
  | Op_putn_at w putp _ => 0 ≤ putp < 2 ^ 63
  | Op_put src size => 0 ≤ size < 2 ^ 63 ∧
                       match src with Some p => size ≤ len p ∧ Forall is_byte p | None => True end
  | Op_write ptr size => 0 ≤ size < 2 ^ 63 ∧ size ≤ len ptr ∧ Forall is_byte ptr
  | Op_put_prefix p => 0 ≤ prefixlen p < 256 ∧ PSIZE (prefixlen p) ≤ len (u_prefix p) ∧ Forall is_byte (u_prefix p) ∧
                       (prefixlen p = 0 ∨ len (b_free b) ≠ PSIZE (prefixlen p))
  | Op_read size input | Op_read_unblock size input | Op_read_try size input _ | Op_recvfrom size input _ =>
      0 ≤ size ∧ input_ok size input
  | Op_recvmsg iovlen size input => 0 < iovlen ∧ 0 ≤ size ∧ input_ok size input
  | Op_set_getp pos => 0 ≤ pos
  | _ => True
  end.

Definition with_value {A} (v : A) (o : option buffer) : option (A * buffer) := b ← o; Some (v, b).

Definition buf_read (size : Z) (input : option (list Z)) (error : Z) (b : buffer) : option (Z * buffer) :=
  if size <=? len (b_free b)
  then match input with
       | None => Some (error, b)
       | Some bs => with_value (len bs) (buf_put bs b)
       end
  else None.

(** As many of the bytes as fit. *)
Definition fitting (bs : list Z) (b : buffer) : list Z := take (length (b_free b)) bs.

Definition spec_op (o : stream_op) (b : buffer) : option (value * buffer) :=
  match o with
  | Op_get size => r ← buf_get size b; Some (V_bytes r.1, r.2)
  | Op_getn w => r ← buf_get (Z.of_nat (bytes_in w)) b; Some (V_int (be_value r.1), r.2)
  | Op_getn_from w from => r ← buf_peek from (Z.of_nat (bytes_in w)) b; Some (V_int (be_value r.1), r.2)
  | Op_get_ipv4 => r ← buf_get 4 b; Some (V_int (le_value r.1), r.2)
  | Op_put src size =>
      let bs := match src with Some p => take (Z.to_nat size) p | None => replicate (Z.to_nat size) 0 end in
      with_value V_none (buf_put (fitting bs b) b)
  | Op_putn w v => with_value (V_int (Z.of_nat (bytes_in w))) (buf_put (be_bytes (bytes_in w) v) b)
  | Op_putn_at w putp v => with_value (V_int (Z.of_nat (bytes_in w))) (buf_poke putp (be_bytes (bytes_in w) v) b)
  | Op_put_ipv4 l | Op_put_in_addr l => with_value (V_int 4) (buf_put (le_bytes 4 l) b)
  | Op_put_prefix p =>
      let psize := PSIZE (prefixlen p) in
      with_value (V_int psize) (buf_put (u8 (prefixlen p) :: take (Z.to_nat psize) (u_prefix p)) b)
  | Op_write ptr size =>
      let bs := fitting (take (Z.to_nat size) ptr) b in with_value (V_int (len bs)) (buf_put bs b)
  | Op_read size input | Op_read_unblock size input | Op_recvmsg _ size input => r ← buf_read size input (-1) b; Some (V_int r.1, r.2)
  | Op_read_try size input retry | Op_recvfrom size input retry =>
      r ← buf_read size input (if retry then -2 else -1) b; Some (V_int r.1, r.2)
  | Op_set_getp pos => with_value V_none (buf_seek pos b)
  | Op_forward_getp size => with_value V_none (buf_seek (b_pos b + size) b)
  | Op_forward_endp size => with_value V_none (buf_extend size b)
  | Op_get_getp => Some (V_int (b_pos b), b)
  | Op_get_endp => Some (V_int (len (b_content b)), b)
  | Op_get_size => Some (V_int (len (b_content b) + len (b_free b)), b)
  | Op_empty => Some (V_int (bit (len (b_content b) =? 0)), b)
  | Op_flush _ => Some (V_bytes (slice (b_pos b) (len (b_content b) - b_pos b) (b_content b)), b)
  | Op_reset => Some (V_none, buf_reset b)
  end.

(** ** Refinement *)

Section Refine.
Implicit Types s : stream.
Implicit Types b : buffer.

Lemma meets_lift {A B} (g : A → B) (x : sM A) s (o : option (A * buffer)) :
  meets x s o → meets (v ← x; mret (g v)) s (r ← o; Some (g r.1, r.2)).
Proof.
  destruct o as [[v b]|]; cbn.
  - intros Hx. apply sruns_bind. eapply sruns_mono; [exact Hx|]. by intros a s' [-> ?].
  - intros Hx. unfold mbind, sM_bind. by rewrite Hx.
Qed.

Lemma meets_get {A B} (g : stream → A) (f : A → sM B) s o : meets (f (g s)) s o → meets (a ← get g; f a) s o.
Proof. done. Qed.

(** An operation after its test for room. *)
Lemma meets_guard {A} (c : bool) (x : sM A) s o :
  (c = true → o = None) → (c = false → meets x s o) → meets (if c then abort else x) s o.
Proof. destruct c; intros Hn Hx; [by rewrite Hn|by apply Hx]. Qed.

Lemma lookup_mid (l1 m l3 : list Z) (i : nat) o x : o = len l1 + Z.of_nat i → m !! i = Some x → (l1 ++ m ++ l3) !! Z.to_nat o = Some x.
Proof.
  intros -> Hx. replace (Z.to_nat _) with (length l1 + i)%nat by lia. rewrite lookup_app_r by lia.
  replace (_ + i - _)%nat with i by lia. by apply lookup_app_l_Some.
Qed.

End Refine.

(** The bytes of a list of known length. *)
Ltac split_length H :=
  lazymatch type of H with
  | length ?l = O => apply nil_length_inv in H; subst l
  | length ?l = S _ => destruct l; [discriminate H|]; cbn [length] in H; apply Nat.succ_inj in H; split_length H
  end.
Ltac split_list H :=
  lazymatch type of H with
  | len ?l = ?k =>
      let n := eval vm_compute in (Z.to_nat k) in
      let H' := fresh "Hn" in assert (length l = n) as H' by (cbn in H; lia); clear H; split_length H'
  end.

Section Refine2.
Implicit Types s : stream.
Implicit Types b : buffer.

Lemma read_guard {A} (n : Z) (x : sM A) (f : list Z → A) s b :
  holds s b → 0 ≤ n →
  (∀ l1 bs l3, b_content b = l1 ++ bs ++ l3 → b_pos b = len l1 → len bs = n → Forall is_byte bs →
     sruns x s (λ a s', a = f bs ∧ holds s' (mk_buf (b_content b) (b_pos b + n) (b_free b)))) →
  meets (STREAM_VERIFY_SANE;; r ← get STREAM_READABLE; if r <? n then abort else x) s (r ← buf_get n b; Some (f r.1, r.2)).
Proof.
  intros Hh Hn Hx. apply (verify_meets _ _ b); [done|]. apply meets_get. rewrite (readable s b) by done. unfold buf_get.
  apply meets_guard; intros Hc; bool_to_prop.
  - by rewrite (proj2 (Z.leb_gt _ _)) by lia.
  - rewrite (proj2 (Z.leb_le _ _)) by lia. cbn. pose proof Hh as (Hd&_&_&_&?&_&Hb).
    destruct (decompose (b_content b) (b_pos b) n) as (l1&bs&l3&Hc1&Hl1&Hl2&->); [lia..|].
    apply (Hx l1 bs l3); [done..|]. rewrite Hd, Hc1 in Hb. apply list.Forall_app in Hb as [[_ [? _]%list.Forall_app]%list.Forall_app _]. done.
Qed.

Lemma peek_guard (n from : Z) (x : sM Z) s b :
  holds s b → 0 < n ≤ 8 → 0 ≤ from < 2 ^ 63 →
  (∀ l1 bs l3, b_content b = l1 ++ bs ++ l3 → from = len l1 → len bs = n → Forall is_byte bs → sruns x s (λ a s', a = be_value bs ∧ s' = s)) →
  meets (STREAM_VERIFY_SANE;; ok ← get (λ s, GETP_VALID s (u64 (from + n))); if negb ok then abort else x) s
    (r ← buf_peek from n b; Some (be_value r.1, r.2)).
Proof.
  intros Hh Hn Hf Hx. apply (verify_meets _ _ b); [done|]. apply meets_get. pose proof Hh as (Hd&_&He&_&?&_&Hb).
  unfold GETP_VALID, u64. rewrite Z.mod_small, He by lia. unfold buf_peek.
  apply meets_guard; intros Hc; bool_to_prop.
  - by rewrite (proj2 (Z.leb_gt _ _)) by lia.
  - rewrite (proj2 (Z.leb_le _ _)) by lia. cbn.
    destruct (decompose (b_content b) from n) as (l1&bs&l3&Hc1&Hl1&Hl2&->); [lia..|].
    eapply sruns_mono; [apply (Hx l1 bs l3); [done..|]|by intros ? ? [-> ->]].
    rewrite Hd, Hc1 in Hb. apply list.Forall_app in Hb as [[_ [? _]%list.Forall_app]%list.Forall_app _]. done.
Qed.

Lemma write_guard {A} (n : Z) (bs : list Z) (x : sM A) (v : A) s b :
  holds s b → len bs = n →
  (len bs ≤ len (b_free b) →
     sruns x s (λ a s', a = v ∧ holds s' (mk_buf (b_content b ++ bs) (b_pos b) (drop (length bs) (b_free b))))) →
  meets (STREAM_VERIFY_SANE;; r ← get STREAM_WRITEABLE; if r <? n then abort else x) s (with_value v (buf_put bs b)).
Proof.
  intros Hh Hn Hx. apply (verify_meets _ _ b); [done|]. apply meets_get. rewrite (writeable s b) by done. unfold buf_put.
  apply meets_guard; intros Hc; bool_to_prop.
  - by rewrite (proj2 (Z.leb_gt _ _)) by lia.
  - rewrite (proj2 (Z.leb_le _ _)) by lia. cbn. apply Hx. lia.
Qed.

Lemma poke_guard (n putp : Z) (bs : list Z) (x : sM Z) s b :
  holds s b → len bs = n → 0 < n ≤ 8 → 0 ≤ putp < 2 ^ 63 →
  (∀ l1 m l3, b_content b = l1 ++ m ++ l3 → putp = len l1 → len m = n →
     sruns x s (λ a s', a = n ∧ holds s' (mk_buf (l1 ++ bs ++ l3) (b_pos b) (b_free b)))) →
  meets (STREAM_VERIFY_SANE;; ok ← get (λ s, PUT_AT_VALID s (u64 (putp + n))); if negb ok then abort else x) s
    (with_value n (buf_poke putp bs b)).
Proof.
  intros Hh Hl Hn Hf Hx. apply (verify_meets _ _ b); [done|]. apply meets_get. pose proof Hh as (Hd&_&He&_&?&_&Hb).
  unfold PUT_AT_VALID, GETP_VALID, u64. rewrite Z.mod_small, He by lia. unfold buf_poke.
  apply meets_guard; intros Hc; bool_to_prop.
  - by rewrite (proj2 (Z.leb_gt _ _)) by lia.
  - rewrite (proj2 (Z.leb_le _ _)) by lia. cbn.
    destruct (decompose (b_content b) putp n) as (l1&m&l3&Hc1&Hl1&Hl2&_); [lia..|].
    rewrite Hc1, (overwrite_app l1 m) by lia. by apply (Hx l1 m l3).
Qed.

End Refine2.

(** Reads the next byte, a byte at a position, writes the next byte, and overwrites one. *)
Ltac read_byte Hh i :=
  apply sruns_bind; eapply data_get_runs; [exact Hh|cbn [b_content b_pos]; eapply (lookup_mid _ _ _ i); [lia|reflexivity]|clear Hh; intros ? Hh; cbn [b_content b_pos b_free] in Hh].
Ltac peek_byte Hh i :=
  apply sruns_bind; eapply data_at_runs; [exact Hh|lia|eapply (lookup_mid _ _ _ i); [lia|reflexivity]|].
Ltac write_byte Hh := apply sruns_bind; eapply data_put_runs; [exact Hh|cbn in *; lia|clear Hh; intros ? Hh; cbn in Hh].

Section Refine3.
Implicit Types s : stream.
Implicit Types b : buffer.

Lemma getn_meets w s b :
  holds s b → meets (getn w) s (r ← buf_get (Z.of_nat (bytes_in w)) b; Some (be_value r.1, r.2)).
Proof.
  intros Hh. destruct w; cbn [getn bytes_in];
    (apply (read_guard _ _ be_value); [done|lia|]; intros l1 bs l3 Hc Hp Hl Hb; destruct b as [c p f]; cbn [b_content b_pos b_free] in *;
     subst; split_list Hl; repeat match goal with H : Forall _ (_ :: _) |- _ => apply list.Forall_cons in H as [? H] end).
  - eapply data_get_runs; [exact Hh|cbn [b_content b_pos]; eapply (lookup_mid _ _ _ 0); [lia|reflexivity]|]. intros s' Hs'. split; [unfold be_value; cbn; lia|exact Hs'].
  - read_byte Hh 0%nat. read_byte Hh 1%nat. split; [by apply be_value_2|]. by rewrite <- Z.add_assoc in Hh.
  - read_byte Hh 0%nat. read_byte Hh 1%nat. read_byte Hh 2%nat. read_byte Hh 3%nat.
    split; [by apply be_value_4|]. by rewrite <- !Z.add_assoc in Hh.
  - read_byte Hh 0%nat. read_byte Hh 1%nat. read_byte Hh 2%nat. read_byte Hh 3%nat.
    read_byte Hh 4%nat. read_byte Hh 5%nat. read_byte Hh 6%nat. read_byte Hh 7%nat.
    split; [by apply be_value_8|]. by rewrite <- !Z.add_assoc in Hh.
Qed.

Lemma getn_from_meets w from s b :
  holds s b → 0 ≤ from < 2 ^ 63 → meets (getn_from w from) s (r ← buf_peek from (Z.of_nat (bytes_in w)) b; Some (be_value r.1, r.2)).
Proof.
  intros Hh Hf. destruct w; cbn [getn_from bytes_in];
    (apply peek_guard; [done|lia|done|]; intros l1 bs l3 Hc Hp Hl Hb; destruct b as [c p f]; cbn [b_content b_pos b_free] in *;
     subst; split_list Hl; repeat match goal with H : Forall _ (_ :: _) |- _ => apply list.Forall_cons in H as [? H] end);
    unfold u64; rewrite ?Z.mod_small by lia.
  - eapply data_at_runs; [exact Hh|lia|eapply (lookup_mid _ _ _ 0); [lia|reflexivity]|]. split; [unfold be_value; cbn; lia|done].
  - peek_byte Hh 0%nat. peek_byte Hh 1%nat. split; [by apply be_value_2|done].
  - peek_byte Hh 0%nat. peek_byte Hh 1%nat. peek_byte Hh 2%nat. peek_byte Hh 3%nat. split; [by apply be_value_4|done].
  - peek_byte Hh 0%nat. peek_byte Hh 1%nat. peek_byte Hh 2%nat. peek_byte Hh 3%nat.
    peek_byte Hh 4%nat. peek_byte Hh 5%nat. peek_byte Hh 6%nat. peek_byte Hh 7%nat. split; [by apply be_value_8|done].
Qed.

Lemma be_bytes_1 z : be_bytes 1 z = [u8 z].
Proof. unfold be_bytes. by rewrite le_bytes_u8. Qed.

Lemma putn_meets w v s b :
  holds s b → meets (putn w v) s (with_value (Z.of_nat (bytes_in w)) (buf_put (be_bytes (bytes_in w) v) b)).
Proof.
  intros Hh. destruct b as [c p f]. destruct w; cbn [putn bytes_in]; rewrite ?be_bytes_1, ?be_bytes_2, ?be_bytes_4, ?be_bytes_8;
    (apply write_guard; [done|done|]; intros Hl; cbn [b_content b_pos b_free length] in *;
     lazymatch type of Hl with ?k ≤ _ => destruct (decompose f 0 k) as (l1 & f1 & f2 & -> & H1 & H2 & _); [lia..|] end;
     split_list H1; split_list H2; cbn [app drop] in * ).
  - write_byte Hh. done.
  - do 2 write_byte Hh. split; [done|]. by rewrite <- app_assoc in Hh.
  - do 4 write_byte Hh. split; [done|]. by rewrite <- !app_assoc in Hh.
  - do 8 write_byte Hh. split; [done|]. by rewrite <- !app_assoc in Hh.
Qed.

End Refine3.

(** Overwrites the byte behind [l1 ++ m]. *)
Ltac poke_byte Hh l1 m :=
  apply sruns_bind; eapply (set_data_at_runs _ _ _ _ (l1 ++ m));
  [exact Hh|rewrite ?length_app; cbn [length]; lia|cbn [b_content]; rewrite <- ?app_assoc; reflexivity
  |clear Hh; intros ? Hh; cbn [b_content b_pos b_free app] in Hh].

Section Refine4.
Implicit Types s : stream.
Implicit Types b : buffer.

Lemma putn_at_meets w putp v s b :
  holds s b → 0 ≤ putp < 2 ^ 63 →
  meets (putn_at w putp v) s (with_value (Z.of_nat (bytes_in w)) (buf_poke putp (be_bytes (bytes_in w) v) b)).
Proof.
  intros Hh Hp. destruct b as [c p f]. destruct w; cbn [putn_at bytes_in]; rewrite ?be_bytes_1, ?be_bytes_2, ?be_bytes_4, ?be_bytes_8;
    (apply poke_guard; [done|done|lia|done|]; intros l1 m l3 Hc Hl Hm; cbn [b_content b_pos b_free] in *; subst; split_list Hm;
     unfold u64; rewrite ?Z.mod_small by lia).
  - poke_byte Hh l1 (@nil Z). split; [done|]. by rewrite app_nil_r in Hh.
  - poke_byte Hh l1 (@nil Z). poke_byte Hh l1 [u8 (v ≫ 8)]. split; [done|]. by rewrite <- !app_assoc in Hh.
  - poke_byte Hh l1 (@nil Z). poke_byte Hh l1 [u8 (v ≫ 24)]. poke_byte Hh l1 [u8 (v ≫ 24); u8 (v ≫ 16)].
    poke_byte Hh l1 [u8 (v ≫ 24); u8 (v ≫ 16); u8 (v ≫ 8)]. split; [done|]. by rewrite <- !app_assoc in Hh.
  - poke_byte Hh l1 (@nil Z). poke_byte Hh l1 [u8 (v ≫ 56)]. poke_byte Hh l1 [u8 (v ≫ 56); u8 (v ≫ 48)].
    poke_byte Hh l1 [u8 (v ≫ 56); u8 (v ≫ 48); u8 (v ≫ 40)]. poke_byte Hh l1 [u8 (v ≫ 56); u8 (v ≫ 48); u8 (v ≫ 40); u8 (v ≫ 32)].
    poke_byte Hh l1 [u8 (v ≫ 56); u8 (v ≫ 48); u8 (v ≫ 40); u8 (v ≫ 32); u8 (v ≫ 24)].
    poke_byte Hh l1 [u8 (v ≫ 56); u8 (v ≫ 48); u8 (v ≫ 40); u8 (v ≫ 32); u8 (v ≫ 24); u8 (v ≫ 16)].
    poke_byte Hh l1 [u8 (v ≫ 56); u8 (v ≫ 48); u8 (v ≫ 40); u8 (v ≫ 32); u8 (v ≫ 24); u8 (v ≫ 16); u8 (v ≫ 8)].
    split; [done|]. by rewrite <- !app_assoc in Hh.
Qed.

(** Bytes copied to the end. *)
Lemma append_runs {A} (bs : list Z) (x : sM A) s b n (Q : A → stream → Prop) :
  holds s b → len bs ≤ len (b_free b) → Forall is_byte bs → n = len bs →
  (∀ s', holds s' (mk_buf (b_content b ++ bs) (b_pos b) (drop (length bs) (b_free b))) → sruns x s' Q) →
  sruns (e ← get s_endp; mem_write e bs;; upd (λ s, s <| s_endp := u64 (s_endp s + n) |>);; x) s Q.
Proof.
  intros Hh Hl Hb -> HQ. apply sruns_bind. cbn. apply sruns_bind, (mem_write_end _ _ b); [done..|]. intros s' Hs' _.
  apply sruns_bind. by apply HQ.
Qed.

Lemma copied_runs {A} (bs : list Z) (x : sM A) s b n src (Q : A → stream → Prop) :
  holds s b → len bs ≤ len (b_free b) → Forall is_byte bs → n = len bs → bs = take (Z.to_nat n) src → 
  (∀ s', holds s' (mk_buf (b_content b ++ bs) (b_pos b) (drop (length bs) (b_free b))) → sruns x s' Q) →
  sruns (e ← get s_endp; bs ← bytes_at src n; mem_write e bs;; upd (λ s, s <| s_endp := u64 (s_endp s + n) |>);; x) s Q.
Proof.
  intros Hh Hl Hb Hn Hbs HQ. apply sruns_bind. cbn. apply sruns_bind. unfold bytes_at, sruns at 1.
  assert (length bs ≤ length src)%nat by (rewrite Hbs, length_take; lia).
  rewrite (proj2 (Z.leb_le _ _)), <- Hbs by lia. subst n. apply sruns_bind, (mem_write_end _ _ b); [done..|]. intros s' Hs' _.
  apply sruns_bind. by apply HQ.
Qed.

Lemma put_ipv4_meets v s b : holds s b → meets (stream_put_ipv4 v) s (with_value 4 (buf_put (le_bytes 4 v) b)).
Proof.
  intros Hh. apply write_guard; [done|by rewrite le_bytes_length|]. intros Hl.
  eapply append_runs; [done..|apply le_bytes_byte|by rewrite le_bytes_length|]. intros s' Hs'. by split.
Qed.

Lemma put_in_addr_meets v s b : holds s b → meets (stream_put_in_addr v) s (with_value 4 (buf_put (le_bytes 4 v) b)).
Proof. exact (put_ipv4_meets v s b). Qed.

Lemma slice_app l1 bs l3 : slice (len l1) (len bs) (l1 ++ bs ++ l3) = bs.
Proof. unfold slice. by rewrite !Nat2Z.id, drop_app_length, take_app_length. Qed.

Lemma mem_read_runs n s b l1 bs l3 (Q : list Z → stream → Prop) :
  holds s b → b_content b = l1 ++ bs ++ l3 → b_pos b = len l1 → len bs = n → Q bs s → sruns (mem_read (s_getp s) n) s Q.
Proof.
  intros (Hd&Hg&_) Hc Hp <- HQ. unfold sruns, mem_read, mem_ok. rewrite Hg, Hp, Hd, Hc, !length_app.
  rewrite !(proj2 (Z.leb_le _ _)) by lia. cbn [andb]. by rewrite <- !app_assoc, slice_app.
Qed.

Lemma read_bytes_runs {A} n s b l1 bs l3 (f : list Z → A) (Q : A → stream → Prop) :
  holds s b → b_content b = l1 ++ bs ++ l3 → b_pos b = len l1 → len bs = n →
  (∀ s', holds s' (mk_buf (b_content b) (b_pos b + n) (b_free b)) → Q (f bs) s') →
  sruns (g ← get s_getp; bs ← mem_read g n; upd (λ s, s <| s_getp := u64 (s_getp s + n) |>);; mret (f bs)) s Q.
Proof.
  intros Hh Hc Hp Hn HQ. apply sruns_bind. cbn. apply sruns_bind, (mem_read_runs _ _ b l1 bs l3); [done..|].
  apply HQ. destruct Hh as (Hd&Hg&He&Hz&?&?&?). pose proof Hz as Hz'. rewrite Hd, length_app in Hz'.
  assert (len (b_content b) = len l1 + len bs + len l3) by (rewrite Hc, !length_app; lia).
  assert (u64 (s_getp s + n) = b_pos b + n) by (unfold u64; rewrite Z.mod_small; lia).
  split_and!; cbn; try done; try lia.
Qed.

Lemma get_meets n s b : holds s b → 0 ≤ n → meets (stream_get n) s (r ← buf_get n b; Some (r.1, r.2)).
Proof.
  intros Hh Hn. apply (read_guard n _ (λ bs, bs)); [done..|]. intros l1 bs l3 Hc Hp Hl _.
  apply (read_bytes_runs n s b l1 bs l3 (λ bs, bs)); [done..|]. intros s' Hs'. by split.
Qed.

Lemma get_ipv4_meets s b : holds s b → meets stream_get_ipv4 s (r ← buf_get 4 b; Some (le_value r.1, r.2)).
Proof.
  intros Hh. apply (read_guard 4 _ le_value); [done..|]. intros l1 bs l3 Hc Hp Hl _.
  apply (read_bytes_runs 4 s b l1 bs l3 le_value); [done..|]. intros s' Hs'. by split.
Qed.

(** The size that is left of a request. *)
Lemma check_size s b n : holds s b → 0 ≤ n < 2 ^ 63 → CHECK_SIZE s n = Z.min n (len (b_free b)).
Proof.
  intros (Hd&Hg&He&Hz&?&?&?) Hn. rewrite Hd, length_app in Hz. unfold CHECK_SIZE, u64.
  rewrite !Z.mod_small by lia. split_if; bool_to_prop; lia.
Qed.

Lemma fitting_length bs b : len (fitting bs b) = Z.min (len bs) (len (b_free b)).
Proof. unfold fitting. rewrite length_take. lia. Qed.

Lemma fitting_take n l b : 0 ≤ n → n ≤ len l → fitting (take (Z.to_nat n) l) b = take (Z.to_nat (Z.min n (len (b_free b)))) l.
Proof. intros. unfold fitting. rewrite take_take. f_equal. lia. Qed.

Lemma put_fitting_meets {A} (x : sM A) (v : A) n bs s b :
  holds s b → 0 ≤ n < 2 ^ 63 → len bs = n →
  (len (fitting bs b) ≤ len (b_free b) →
     sruns x s (λ a s', a = v ∧ holds s' (mk_buf (b_content b ++ fitting bs b) (b_pos b) (drop (length (fitting bs b)) (b_free b))))) →
  meets (STREAM_VERIFY_SANE;; r ← get STREAM_WRITEABLE; if r <? Z.min n (len (b_free b)) then abort else x) s
    (with_value v (buf_put (fitting bs b) b)).
Proof. intros Hh Hn Hl Hx. apply write_guard; [done| |done]. rewrite fitting_length. lia. Qed.

Lemma put_meets src n s b :
  holds s b → op_ok (Op_put src n) b →
  meets (stream_put src n) s
    (with_value tt (buf_put (fitting (match src with Some p => take (Z.to_nat n) p | None => replicate (Z.to_nat n) 0 end) b) b)).
Proof.
  intros Hh [Hn Hs]. unfold stream_put. apply meets_get. rewrite (check_size s b) by done. apply put_fitting_meets; [done..| |].
  { destruct src; [rewrite length_take|rewrite length_replicate]; lia. }
  set (m := Z.min n (len (b_free b))). intros Hl.
  destruct src as [p|].
  - destruct Hs as [Hp Hb]. rewrite (fitting_take n p b) in * by lia. fold m in Hl |- *.
    assert (len (take (Z.to_nat m) p) = m) as Hm by (rewrite length_take; lia).
    apply sruns_bind. cbn. apply sruns_bind, sruns_bind. unfold bytes_at, sruns at 1. rewrite (proj2 (Z.leb_le _ _)) by lia.
    apply (mem_write_end _ _ b); [done|done|by apply list.Forall_take|]. intros s' Hs' _. rewrite Hm in Hs'. by split.
  - assert (fitting (replicate (Z.to_nat n) 0) b = replicate (Z.to_nat m) 0) as E.
    { unfold fitting. rewrite take_replicate. f_equal. lia. }
    rewrite E in *. assert (len (replicate (Z.to_nat m) 0) = m) as Hm by (rewrite length_replicate; lia).
    apply sruns_bind. cbn. apply sruns_bind.
    apply (mem_write_end _ _ b); [done|done| |]. { apply Forall_replicate. unfold is_byte. lia. }
    intros s' Hs' _. rewrite Hm in Hs'. by split.
Qed.

Lemma write_meets ptr n s b :
  holds s b → op_ok (Op_write ptr n) b →
  meets (stream_write ptr n) s (with_value (len (fitting (take (Z.to_nat n) ptr) b)) (buf_put (fitting (take (Z.to_nat n) ptr) b) b)).
Proof.
  intros Hh (Hn & Hp & Hb). unfold stream_write. apply meets_get. rewrite (check_size s b) by done. apply put_fitting_meets; [done..| |].
  { rewrite length_take. lia. }
  intros Hl. rewrite (fitting_take n ptr b) in * by lia. set (m := Z.min n (len (b_free b))) in *.
  assert (len (take (Z.to_nat m) ptr) = m) as Hm by (rewrite length_take; lia).
  apply (copied_runs (take (Z.to_nat m) ptr) _ s b m ptr); [done|done|by apply list.Forall_take|done|done|]. intros s' Hs'. by split.
Qed.

End Refine4.

Section Refine5.
Implicit Types s : stream.
Implicit Types b : buffer.

Lemma psize_range a : 0 ≤ a < 256 → 0 ≤ PSIZE a ∧ (PSIZE a = 0 ↔ a = 0).
Proof. intros. unfold PSIZE. pose proof (Z.div_mod (a + 7) 8). pose proof (Z.mod_pos_bound (a + 7) 8). lia. Qed.

Lemma put_prefix_meets p s b :
  holds s b → op_ok (Op_put_prefix p) b →
  meets (stream_put_prefix p) s
    (with_value (PSIZE (prefixlen p)) (buf_put (u8 (prefixlen p) :: take (Z.to_nat (PSIZE (prefixlen p))) (u_prefix p)) b)).
Proof.
  intros Hh (Hp & Hu & Hb & Hf). unfold stream_put_prefix. set (n := PSIZE (prefixlen p)) in *.
  destruct (psize_range (prefixlen p) Hp) as [Hn Hn0]. fold n in Hn, Hn0. set (bs := take (Z.to_nat n) (u_prefix p)).
  assert (len bs = n) as Hl by (unfold bs; rewrite length_take; lia).
  apply (verify_meets _ _ b); [done|]. apply meets_get. rewrite (writeable s b) by done. unfold buf_put. cbn [length].
  apply meets_guard; intros Hc; bool_to_prop; [by rewrite (proj2 (Z.leb_gt _ _)) by lia|].
  destruct (decide (len (b_free b) = n)) as [E|E].
  - rewrite (proj2 (Z.leb_gt _ _)) by lia. cbn. assert (stream_putc (prefixlen p) s = Aborts) as Ha.
    { pose proof (putn_meets Wc (prefixlen p) s b Hh) as Hm. unfold with_value, buf_put in Hm. cbn [bytes_in] in Hm.
      rewrite be_bytes_1, (proj2 (Z.leb_gt _ _)) in Hm by (cbn; lia). exact Hm. }
    unfold mbind at 1, sM_bind at 1. by rewrite Ha.
  - rewrite (proj2 (Z.leb_le _ _)) by lia. cbn [with_value mbind option_bind meets].
    pose proof (putn_meets Wc (prefixlen p) s b Hh) as Hm. unfold with_value, buf_put in Hm. cbn [bytes_in] in Hm.
    rewrite be_bytes_1, (proj2 (Z.leb_le _ _)) in Hm by (cbn; lia). cbn [mbind option_bind meets] in Hm.
    apply sruns_bind. eapply sruns_mono; [exact Hm|]. intros z s1 [_ H1].
    eapply (copied_runs bs); [exact H1|cbn; rewrite length_drop; lia|by apply list.Forall_take|done|done|].
    intros s2 H2. split; [done|]. cbn in H2. rewrite drop_drop, <- app_assoc in H2. done.
Qed.

Lemma received_runs size input s b (Q : Z → stream → Prop) :
  holds s b → size ≤ len (b_free b) → input_ok size input →
  match input with
  | None => Q (-1) s
  | Some bs => ∀ s', holds (s' <| s_endp := u64 (s_endp s' + len bs) |>)
                       (mk_buf (b_content b ++ bs) (b_pos b) (drop (length bs) (b_free b))) →
                     (bs = [] → holds s' b) → Q (len bs) s'
  end → sruns (received input) s Q.
Proof.
  intros Hh Hl Hi HQ. destruct input as [bs|]; [|done]. destruct Hi as [Hi Hb]. unfold received. apply sruns_bind. cbn.
  apply sruns_bind, (mem_write_end _ _ b); [done|lia|done|]. intros s' Hs' He. apply HQ; [done|]. intros ->.
  assert (s' <| s_endp := u64 (s_endp s' + len (@nil Z)) |> = s') as E.
  { destruct Hs' as (H1&_&H2&H3&_&H4&_). destruct s'. cbn in *. f_equal. unfold u64. rewrite Z.add_0_r.
    destruct Hh as (_&_&He2&_). rewrite Z.mod_small; [done|]. rewrite He, He2. rewrite H1, !length_app in H3. cbn in H3. lia. }
  rewrite E in Hs'. cbn in Hs'. rewrite app_nil_r in Hs'. by destruct b.
Qed.

Lemma read_meets (x : sM Z) error size input s b :
  holds s b → 0 ≤ size → (size ≤ len (b_free b) → meets x s (buf_read size input error b)) →
  meets (STREAM_VERIFY_SANE;; r ← get STREAM_WRITEABLE; if r <? size then abort else x) s (buf_read size input error b).
Proof.
  intros Hh Hn Hx. apply (verify_meets _ _ b); [done|]. apply meets_get. rewrite (writeable s b) by done.
  apply meets_guard; intros Hc; bool_to_prop; [|apply Hx; lia]. unfold buf_read. by rewrite (proj2 (Z.leb_gt _ _)) by lia.
Qed.

Lemma buf_put_fits bs b : len bs ≤ len (b_free b) → buf_put bs b = Some (mk_buf (b_content b ++ bs) (b_pos b) (drop (length bs) (b_free b))).
Proof. intros. unfold buf_put. by rewrite (proj2 (Z.leb_le _ _)). Qed.

Lemma read_positive_meets size input s b :
  holds s b → size ≤ len (b_free b) → input_ok size input →
  meets (read_positive input) s (buf_read size input (-1) b).
Proof.
  intros Hh Hl Hi. unfold buf_read. rewrite (proj2 (Z.leb_le _ _)) by lia. destruct input as [bs|]; [|done].
  pose proof Hi as [Hs _]. rewrite buf_put_fits by lia. apply sruns_bind, (received_runs size _ s b); [done..|].
  intros s' Hs' H0. apply sruns_bind. destruct bs as [|y bs]; [|].
  - cbn. split; [done|]. rewrite app_nil_r. specialize (H0 eq_refl). by destruct b.
  - rewrite Z.gtb_ltb, (proj2 (Z.ltb_lt _ _)) by (cbn; lia). by split.
Qed.

Lemma read_try_meets size input (retry : bool) s b :
  holds s b → size ≤ len (b_free b) → input_ok size input →
  meets (nbytes ← received input; if nbytes >=? 0 then upd (λ s, s <| s_endp := u64 (s_endp s + nbytes) |>);; mret nbytes
         else if retry then mret (-2) else mret (-1)) s
    (buf_read size input (if retry then -2 else -1) b).
Proof.
  intros Hh Hl Hi. unfold buf_read. rewrite (proj2 (Z.leb_le _ _)) by lia. destruct input as [bs|]; [|by destruct retry].
  pose proof Hi as [Hs _]. rewrite buf_put_fits by lia. apply sruns_bind, (received_runs size _ s b); [done..|].
  intros s' Hs' H0. rewrite Z.geb_leb, (proj2 (Z.leb_le _ _)) by lia. apply sruns_bind. by split.
Qed.

Lemma seek_meets pos s b :
  holds s b → 0 ≤ pos → meets (stream_set_getp pos) s (with_value tt (buf_seek pos b)).
Proof.
  intros Hh Hp. apply (verify_meets _ _ b); [done|]. apply meets_get. destruct Hh as (Hd&Hg&He&Hz&?&?&?).
  unfold GETP_VALID, buf_seek. rewrite He. destruct (pos <=? len (b_content b)) eqn:E; cbn; [|done]. bool_to_prop. split; [done|]. by split_and!.
Qed.

Lemma forward_getp_meets n s b :
  holds s b → 0 ≤ n < 2 ^ 63 → meets (stream_forward_getp n) s (with_value tt (buf_seek (b_pos b + n) b)).
Proof.
  intros Hh Hp. apply (verify_meets _ _ b); [done|]. apply meets_get. destruct Hh as (Hd&Hg&He&Hz&?&?&?).
  pose proof Hz as Hz'. rewrite Hd, length_app in Hz'.
  assert (u64 (s_getp s + n) = b_pos b + n) as E by (unfold u64; rewrite Z.mod_small; lia).
  unfold GETP_VALID, buf_seek. rewrite E, He. destruct (_ <=? len (b_content b)) eqn:E'; cbn; [|done]. bool_to_prop.
  split; [done|]. split_and!; cbn; try done; lia.
Qed.

Lemma forward_endp_meets n s b :
  holds s b → 0 ≤ n < 2 ^ 63 → meets (stream_forward_endp n) s (with_value tt (buf_extend n b)).
Proof.
  intros Hh Hp. apply (verify_meets _ _ b); [done|]. apply meets_get. destruct Hh as (Hd&Hg&He&Hz&?&?&?).
  pose proof Hz as Hz'. rewrite Hd, length_app in Hz'.
  assert (u64 (s_endp s + n) = len (b_content b) + n) as E by (unfold u64; rewrite Z.mod_small; lia).
  unfold ENDP_VALID, buf_extend. rewrite E, Hz'. destruct (n <=? len (b_free b)) eqn:E'; bool_to_prop.
  - rewrite (proj2 (Z.leb_le _ _)) by lia. cbn. split; [done|]. split_and!; cbn; try done; try (rewrite length_app, length_take; lia); [|lia].
    by rewrite <- app_assoc, take_drop.
  - by rewrite (proj2 (Z.leb_gt _ _)) by lia.
Qed.

Lemma reset_meets s b : holds s b → meets stream_reset s (Some (tt, buf_reset b)).
Proof. intros Hh. apply (verify_meets _ _ b); [done|]. destruct Hh as (Hd&Hg&He&Hz&?&?&?). cbn. split; [done|]. by split_and!. Qed.

Lemma flush_meets n s b :
  holds s b → meets (r ← stream_flush n; mret (V_bytes r.1)) s (Some (V_bytes (slice (b_pos b) (len (b_content b) - b_pos b) (b_content b)), b)).
Proof.
  intros Hh. assert (meets (stream_flush n) s (Some ((slice (b_pos b) (len (b_content b) - b_pos b) (b_content b), n), b))) as Hf.
  { apply (verify_meets _ _ b); [done|]. apply meets_get, meets_get. rewrite (readable s b) by done. pose proof Hh as (_&_&_&_&Hp&_).
    destruct (decompose (b_content b) (b_pos b) (len (b_content b) - b_pos b)) as (l1&bs&l3&Hc&Hl1&Hl2&->); [lia..|].
    cbn. apply sruns_bind, (mem_read_runs _ s b l1 bs l3); [done..|]. by split. }
  apply (meets_lift (λ r, V_bytes r.1) _ _ _ Hf).
Qed.

End Refine5.

(** ** The refinement theorem *)

Lemma meets_unit (x : sM unit) s (o : option buffer) :
  meets x s (with_value tt o) → meets (x;; mret V_none) s (with_value V_none o).
Proof. intros Hx. apply (meets_lift (λ _, V_none)) in Hx. by destruct o. Qed.

Lemma meets_int (x : sM Z) s v (o : option buffer) :
  meets x s (with_value v o) → meets (z ← x; mret (V_int z)) s (with_value (V_int v) o).
Proof. intros Hx. apply (meets_lift V_int) in Hx. by destruct o. Qed.

Lemma meets_read (x : sM (list Z)) s (o : option (list Z * buffer)) :
  meets x s (r ← o; Some (r.1, r.2)) → meets (v ← x; mret (V_bytes v)) s (r ← o; Some (V_bytes r.1, r.2)).
Proof. intros Hx. apply (meets_lift V_bytes) in Hx. by destruct o. Qed.

Lemma meets_number (f : list Z → Z) (x : sM Z) s (o : option (list Z * buffer)) :
  meets x s (r ← o; Some (f r.1, r.2)) → meets (v ← x; mret (V_int v)) s (r ← o; Some (V_int (f r.1), r.2)).
Proof. intros Hx. apply (meets_lift V_int) in Hx. by destruct o. Qed.

Lemma meets_mark (f : stream → Z) s b v :
  holds s b → f s = v → meets (z ← (STREAM_VERIFY_SANE;; get f); mret (V_int z)) s (Some (V_int v, b)).
Proof.
  intros Hh <-. apply (meets_lift V_int _ _ (Some (f s, b))). by apply (verify_meets _ _ b).
Qed.

Lemma run_meets s b o : holds s b → op_ok o b → meets (run_stream_op o) s (spec_op o b).
Proof.
  intros Hh Ho. destruct o; cbn [run_stream_op spec_op].
  - by apply meets_read, get_meets.
  - by apply meets_number, getn_meets.
  - by apply meets_number, getn_from_meets.
  - by apply meets_number, get_ipv4_meets.
  - by apply meets_unit, put_meets.
  - by apply meets_int, putn_meets.
  - by apply meets_int, putn_at_meets.
  - apply meets_int. exact (put_ipv4_meets l s b Hh).
  - apply meets_int. exact (put_in_addr_meets addr s b Hh).
  - apply meets_int. exact (put_prefix_meets p s b Hh Ho).
  - apply meets_int. exact (write_meets ptr size s b Hh Ho).
  - destruct Ho. apply (meets_lift V_int), read_meets; [done..|]. intros. by apply read_positive_meets.
  - destruct Ho. apply (meets_lift V_int), read_meets; [done..|]. intros. by apply read_positive_meets.
  - destruct Ho as (Hi & ? & ?). unfold stream_recvmsg. rewrite Z.gtb_ltb, (proj2 (Z.ltb_lt _ _) Hi).
    apply (meets_lift V_int), read_meets; [done..|]. intros. by apply read_positive_meets.
  - destruct Ho. apply (meets_lift V_int), read_meets; [done..|]. intros. by apply read_try_meets.
  - destruct Ho. apply (meets_lift V_int), read_meets; [done..|]. intros. by apply read_try_meets.
  - by apply meets_unit, seek_meets.
  - by apply meets_unit, forward_getp_meets.
  - by apply meets_unit, forward_endp_meets.
  - apply (meets_mark s_getp); [done|]. apply Hh.
  - apply (meets_mark s_endp); [done|]. apply Hh.
  - apply (meets_mark s_size); [done|]. destruct Hh as (Hd&_&_&->&_). rewrite Hd, length_app. lia.
  - apply (meets_mark (λ s, bit (s_endp s =? 0))); [done|]. f_equal. by destruct Hh as (_&_&->&_).
  - by apply flush_meets.
  - apply (meets_lift (λ _, V_none) _ _ _ (reset_meets s b Hh)).
Qed.


(** ** Sequences of fields *)

Inductive field := F_int (w : width) (v : Z) | F_ipv4 (a : Z) | F_bytes (bs : list Z).
Inductive kind := K_int (w : width) | K_ipv4 | K_bytes (n : Z).

Definition kind_of (f : field) : kind :=
  match f with F_int w _ => K_int w | F_ipv4 _ => K_ipv4 | F_bytes bs => K_bytes (len bs) end.
Definition value_of (f : field) : value := match f with F_int _ v => V_int v | F_ipv4 a => V_int a | F_bytes bs => V_bytes bs end.
Definition field_ok (f : field) : Prop :=
  match f with
  | F_int w v => 0 ≤ v < 2 ^ (8 * Z.of_nat (bytes_in w))
  | F_ipv4 a => 0 ≤ a < 2 ^ 32
  | F_bytes bs => Forall is_byte bs
  end.
Definition field_bytes (f : field) : list Z :=
  match f with F_int w v => be_bytes (bytes_in w) v | F_ipv4 a => le_bytes 4 a | F_bytes bs => bs end.

Definition put_field (f : field) : stream_op :=
  match f with F_int w v => Op_putn w v | F_ipv4 a => Op_put_ipv4 a | F_bytes bs => Op_put (Some bs) (len bs) end.
Definition get_field (k : kind) : stream_op :=
  match k with K_int w => Op_getn w | K_ipv4 => Op_get_ipv4 | K_bytes n => Op_get n end.

Fixpoint run_ops (os : list stream_op) : sM (list value) :=
  match os with [] => mret [] | o :: os => v ← run_stream_op o; vs ← run_ops os; mret (v :: vs) end.

Lemma run_spec o s b v b' :
  holds s b → op_ok o b → spec_op o b = Some (v, b') → sruns (run_stream_op o) s (λ a s', a = v ∧ holds s' b').
Proof. intros Hh Ho Hs. pose proof (run_meets s b o Hh Ho) as Hm. by rewrite Hs in Hm. Qed.

Lemma field_bytes_byte f : field_ok f → Forall is_byte (field_bytes f).
Proof. destruct f; cbn [field_bytes]; intros; [apply be_bytes_byte|apply le_bytes_byte|done]. Qed.

Lemma put_field_spec f b :
  field_ok f → len (field_bytes f) < 2 ^ 63 → len (field_bytes f) ≤ len (b_free b) →
  op_ok (put_field f) b ∧
  ∃ v, spec_op (put_field f) b = Some (v, mk_buf (b_content b ++ field_bytes f) (b_pos b) (drop (length (field_bytes f)) (b_free b))).
Proof.
  intros Hf Hl Hb. destruct f; cbn [put_field op_ok spec_op field_bytes] in *.
  - split; [done|]. rewrite buf_put_fits by done. by eexists.
  - split; [done|]. rewrite buf_put_fits by done. by eexists.
  - split; [split; [lia|done]|]. assert (fitting (take (Z.to_nat (len bs)) bs) b = bs) as ->.
    { unfold fitting. rewrite Nat2Z.id, firstn_all. apply take_ge. lia. }
    rewrite buf_put_fits by done. by eexists.
Qed.

Lemma put_fields_runs fs : ∀ s b (Q : list value → stream → Prop),
  holds s b → Forall field_ok fs → len (concat (field_bytes <$> fs)) ≤ len (b_free b) →
  (∀ vs s', holds s' (mk_buf (b_content b ++ concat (field_bytes <$> fs)) (b_pos b) (drop (length (concat (field_bytes <$> fs))) (b_free b))) → Q vs s') →
  sruns (run_ops (put_field <$> fs)) s Q.
Proof.
  induction fs as [|f fs IH]; intros s b Q Hh Hok Hl HQ; cbn.
  - apply HQ. cbn. rewrite app_nil_r. by destruct b.
  - apply list.Forall_cons in Hok as [Hf Hfs]. cbn in Hl. rewrite length_app in Hl.
    assert (len (b_free b) < 2 ^ 63) as H63. { destruct Hh as (Hd&_&_&Hz&_&?&_). rewrite Hd, length_app in Hz. lia. }
    destruct (put_field_spec f b Hf) as (Ho & v & Hs); [lia..|].
    apply sruns_bind. eapply sruns_mono; [exact (run_spec _ _ _ _ _ Hh Ho Hs)|]. intros a s1 [-> H1].
    apply sruns_bind. eapply IH; [exact H1|done|cbn; rewrite length_drop; lia|]. intros vs s2 H2.
    apply HQ. cbn in H2 |- *. by rewrite drop_drop, <- app_assoc, <- length_app in H2.
Qed.

Lemma get_field_spec f b l1 l3 :
  field_ok f → b_content b = l1 ++ field_bytes f ++ l3 → b_pos b = len l1 →
  op_ok (get_field (kind_of f)) b ∧
  spec_op (get_field (kind_of f)) b = Some (value_of f, mk_buf (b_content b) (b_pos b + len (field_bytes f)) (b_free b)).
Proof.
  intros Hf Hc Hp. assert (buf_get (len (field_bytes f)) b = Some (field_bytes f, mk_buf (b_content b) (b_pos b + len (field_bytes f)) (b_free b))) as Hg.
  { unfold buf_get. rewrite Hp, Hc, slice_app. rewrite (proj2 (Z.leb_le _ _)); [done|]. rewrite !length_app. lia. }
  destruct f; cbn [kind_of get_field op_ok spec_op value_of field_bytes] in *.
  - rewrite be_bytes_length in Hg |- *. rewrite Hg. split; [done|]. cbn [mbind option_bind fst snd]. by rewrite be_value_bytes, Z.mod_small.
  - rewrite le_bytes_length in Hg |- *. change (Z.of_nat 4) with 4 in *. rewrite Hg. split; [done|]. cbn [mbind option_bind fst snd]. by rewrite le_value_bytes, Z.mod_small.
  - rewrite Hg. split; [lia|done].
Qed.

Lemma get_fields_runs fs : ∀ s b l1 l3 (Q : list value → stream → Prop),
  holds s b → Forall field_ok fs → b_content b = l1 ++ concat (field_bytes <$> fs) ++ l3 → b_pos b = len l1 →
  (∀ s', holds s' (mk_buf (b_content b) (b_pos b + len (concat (field_bytes <$> fs))) (b_free b)) → Q (value_of <$> fs) s') →
  sruns (run_ops (get_field ∘ kind_of <$> fs)) s Q.
Proof.
  induction fs as [|f fs IH]; intros s b l1 l3 Q Hh Hok Hc Hp HQ; cbn.
  - apply HQ. cbn. rewrite Z.add_0_r. by destruct b.
  - apply list.Forall_cons in Hok as [Hf Hfs]. cbn in Hc. rewrite <- app_assoc in Hc.
    destruct (get_field_spec f b l1 _ Hf Hc Hp) as (Ho & Hs).
    apply sruns_bind. eapply sruns_mono; [exact (run_spec _ _ _ _ _ Hh Ho Hs)|]. intros a s1 [-> H1].
    apply sruns_bind. eapply (IH _ _ (l1 ++ field_bytes f)); [exact H1|done|cbn; by rewrite Hc, <- app_assoc|cbn; rewrite length_app; lia|].
    intros s2 H2. apply HQ. cbn in H2 |- *. rewrite length_app. by rewrite Nat2Z.inj_add, Z.add_assoc.
Qed.

(** C38: Fields that are written one after the other to a stream with enough room, numbers in network order, addresses as they are in
    memory and strings of bytes, are read back with the same values by reading fields of the same kinds, and then
    nothing is left to read. *)
Theorem stream_fields_roundtrip s b fs :
  holds s b → b_pos b = len (b_content b) → Forall field_ok fs → len (concat (field_bytes <$> fs)) ≤ len (b_free b) →
  ∃ vs s1 s2,
    run_ops (put_field <$> fs) s = Done (vs, s1) ∧
    run_ops (get_field ∘ kind_of <$> fs) s1 = Done (value_of <$> fs, s2) ∧
    STREAM_READABLE s2 = 0 ∧ STREAM_WRITEABLE s2 = len (b_free b) - len (concat (field_bytes <$> fs)).
Proof.
  intros Hh Hp Hok Hl. set (c := concat (field_bytes <$> fs)) in *.
  assert (sruns (run_ops (put_field <$> fs)) s (λ vs s1, sruns (run_ops (get_field ∘ kind_of <$> fs)) s1
    (λ ws s2, ws = value_of <$> fs ∧ holds s2 (mk_buf (b_content b ++ c) (b_pos b + len c) (drop (length c) (b_free b)))))) as Hr.
  { apply (put_fields_runs fs s b); [done..|]. intros vs s1 H1.
    apply (get_fields_runs fs s1 _ (b_content b) [] _ H1); [done|by rewrite app_nil_r|exact Hp|]. intros s2 H2. by split. }
  unfold sruns in Hr. destruct (run_ops (put_field <$> fs) s) as [[vs s1]| |]; [|done..].
  destruct (run_ops _ s1) as [[ws s2]| |] eqn:E2; [|done..]. destruct Hr as [-> H2]. exists vs, s1, s2. split_and!; [done..| |].
  - rewrite (readable _ _ H2). cbn. rewrite length_app. lia.
  - rewrite (writeable _ _ H2). cbn. rewrite length_drop. lia.
Qed.

(** ** Allocation *)

Lemma stream_new_holds size d :
  0 < size < 2 ^ 63 → len d = size → Forall is_byte d →
  ∃ s, stream_new size (Some d) = Done (Some s) ∧ holds s (mk_buf [] 0 d).
Proof.
  intros Hs Hd Hb. unfold stream_new. rewrite Z.gtb_ltb, (proj2 (Z.ltb_lt _ _)) by lia. eexists. split; [done|].
  split_and!; cbn; try done; lia.
Qed.

(** A copy has the same contents and position; an empty stream cannot be copied. *)
Lemma stream_dup_spec s b d :
  holds s b → len d = len (b_content b) →
  match b_content b with
  | [] => stream_dup (Some d) s = Aborts
  | _ => ∃ new, stream_dup (Some d) s = Done (Some new, s) ∧ holds new (mk_buf (b_content b) (b_pos b) [])
  end.
Proof.
  intros Hh Hl. pose proof Hh as (Hd&Hg&He&Hz&Hp&H63&Hb). rewrite Hd, length_app in Hz.
  assert (stream_dup (Some d) s = match stream_new (s_endp s) (Some d) with
    | Done (Some new) => (c ← stream_copy new; mret (Some c)) s | Done None => Done (None, s) | Aborts => Aborts | Faults => Faults end) as ->.
  { unfold stream_dup. rewrite (verify_run _ _ b Hh). unfold mbind at 1, sM_bind at 1. cbn [get].
    by destruct (stream_new (s_endp s) (Some d)) as [[new|]| |]. }
  unfold stream_new. rewrite He. destruct (b_content b) as [|y c] eqn:Hc; [done|]. rewrite <- Hc in *.
  assert (0 < len (b_content b)) by (rewrite Hc; cbn; lia). rewrite Z.gtb_ltb, (proj2 (Z.ltb_lt _ _)) by lia.
  set (new := mk_stream None 0 0 (len (b_content b)) d).
  exists (new <| s_endp := s_endp s |> <| s_getp := s_getp s |> <| s_data := b_content b |>). split.
  - unfold mbind at 1, sM_bind at 1, stream_copy. rewrite (verify_run _ _ b Hh). unfold mbind, sM_bind, get, assert.
    rewrite Z.geb_leb, (proj2 (Z.leb_le _ _)) by (cbn; lia). cbn -[slice overwrite]. unfold mem_read, mem_ok.
    rewrite !(proj2 (Z.leb_le _ _)) by (try rewrite Hd, length_app; lia). cbn -[slice overwrite].
    assert (slice 0 (s_endp s) (s_data s) = b_content b) as ->.
    { unfold slice. rewrite Hd, He, Nat2Z.id. change (Z.to_nat 0) with 0%nat. by rewrite drop_0, take_app_length. }
    rewrite (proj2 (Z.leb_le (len (b_content b)) _)) by lia. rewrite (proj2 (Z.leb_le 0 _)) by lia. cbn -[overwrite].
    assert (overwrite 0 (b_content b) d = b_content b) as ->; [|done].
    unfold overwrite. cbn. rewrite drop_ge by lia. by rewrite app_nil_r.
  - rewrite Hd in Hb. apply list.Forall_app in Hb as [Hb _]. split_and!; cbn; try done; try lia. by rewrite app_nil_r.
Qed.

(** A smaller buffer loses the bytes behind its end. *)
Lemma stream_resize_spec s b n d :
  holds s b → 0 ≤ n < 2 ^ 63 → len d = n → Forall is_byte d →
  take (Z.to_nat (Z.min n (s_size s))) d = take (Z.to_nat (Z.min n (s_size s))) (s_data s) →
  sruns (stream_resize n (Some d)) s (λ r s', r = n ∧
    holds s' (mk_buf (take (Z.to_nat n) (b_content b)) (Z.min (b_pos b) n)
                     (drop (Z.to_nat (Z.min n (len (b_content b)))) d))).
Proof.
  intros Hh Hn Hl Hb Hd'. pose proof Hh as (Hd&Hg&He&Hz&Hp&H63&_). pose proof Hz as Hz'. rewrite Hd, length_app in Hz'.
  set (e := Z.min n (len (b_content b))). set (g := Z.min (b_pos b) n).
  set (s' := mk_stream (s_next s) g e n d).
  assert (holds s' (mk_buf (take (Z.to_nat n) (b_content b)) g (drop (Z.to_nat e) d))) as Hs'.
  { assert (len (take (Z.to_nat n) (b_content b)) = e) by (rewrite length_take; lia).
    split_and!; cbn; try done; try lia. transitivity (take (Z.to_nat e) d ++ drop (Z.to_nat e) d); [by rewrite take_drop|]. f_equal.
    assert (take (Z.to_nat e) d = take (Z.to_nat e) (s_data s)) as ->.
    { replace (Z.to_nat e) with (Z.to_nat e `min` Z.to_nat (Z.min n (s_size s)))%nat by lia. by rewrite <- !take_take, Hd'. }
    rewrite Hd, take_app_le by lia. unfold e. destruct (decide (n ≤ len (b_content b))).
    - f_equal. lia.
    - rewrite !take_ge; [done|lia..]. }
  assert (stream_resize n (Some d) s = (STREAM_VERIFY_SANE;; get s_size) s') as E.
  { unfold stream_resize. rewrite (verify_run _ _ b Hh). unfold mbind at 1 2 3, sM_bind at 1 2 3, upd.
    match goal with |- mbind _ _ ?x = _ => assert (x = s') as -> end; [|done].
    unfold s', e, g. destruct s as [nx gp ep sz dt]. cbn in *. subst gp ep.
    destruct (len (b_content b) >? n) eqn:E1; rewrite Z.gtb_ltb in E1; bool_to_prop; cbn;
      (destruct (b_pos b >? _) eqn:E2; rewrite Z.gtb_ltb in E2; bool_to_prop; cbn; unfold set_fld, set_s_data, set_s_size, set_s_endp, set_s_getp; cbn; f_equal; lia). }
  unfold sruns. rewrite E, (verify_run _ _ _ Hs'). by split.
Qed.

(** ** Queues *)

Definition fifo_ok (m : fifo_mem) (l : list nat) : Prop :=
  sf_head (fm_fifo m) = head l ∧ sf_tail (fm_fifo m) = list.last l ∧ sf_count (fm_fifo m) = len l ∧ len l < 2 ^ 64 ∧ NoDup l ∧
  ∀ i p, l !! i = Some p → ∃ x, fm_streams m !! p = Some x ∧ s_next x = l !! S i.

Lemma fifo_push_ok m l p x :
  fifo_ok m l → p ∉ l → fm_streams m !! p = Some x → s_next x = None → len l < 2 ^ 64 - 1 →
  runs (stream_fifo_push p) m (λ _ m', fifo_ok m' (l ++ [p])).
Proof.
  intros (Hh&Ht&Hc&Hll&Hnd&Hch) Hp Hx Hnx Hl. unfold stream_fifo_push. do 2 rstep.
  assert (u64 (len l + 1) = len (l ++ [p])) as Hu by (rewrite length_app; unfold u64; cbn; rewrite Z.mod_small; lia).
  assert (NoDup (l ++ [p])) as Hnd'. { apply list.NoDup_app. split_and!; [done| |apply list.NoDup_singleton]. set_solver. }
  rewrite Ht. destruct (list.last l) as [t|] eqn:El.
  - apply list.last_Some in El as [l' ->]. destruct (Hch (length l') t) as (y&Hy&Hny); [by rewrite list_lookup_middle|].
    unfold stream_at. repeat rstep. eapply runs_of_option; [exact Hy|]. repeat rstep. cbn.
    split_and!; cbn; [|by rewrite list.last_snoc|by rewrite Hc|rewrite length_app; cbn; lia|done|].
    { rewrite Hh. by destruct l'. }
    intros i q Hq. destruct (decide (q = t)) as [->|Hne].
    + rewrite lookup_insert_eq. eexists; split; [done|]. cbn.
      assert (i = length l') as ->.
      { eapply list.NoDup_lookup; [exact Hnd'|exact Hq|]. rewrite <- app_assoc. cbn. by rewrite list_lookup_middle. }
      rewrite lookup_app_r by (rewrite length_app; cbn; lia). rewrite length_app. cbn. by replace (_ - _)%nat with 0%nat by lia.
    + rewrite lookup_insert_ne by done. apply lookup_app_Some in Hq as [Hq|[Hi Hq]].
      * destruct (Hch i q Hq) as (z&Hz&Hnz). exists z. split; [done|]. rewrite Hnz. apply lookup_lt_Some in Hq as Hlt.
        rewrite length_app in Hlt. cbn in Hlt. assert (i ≠ length l') as Hil.
        { intros ->. rewrite list_lookup_middle in Hq by done. congruence. }
        rewrite (lookup_app_l (l' ++ [t])) by (rewrite length_app; cbn; lia). done.
      * apply list_lookup_singleton_Some in Hq as [Hi0 <-]. exists x. split; [done|]. rewrite Hnx. symmetry. apply lookup_ge_None.
        rewrite length_app. cbn. lia.
  - apply list.last_None in El as ->. repeat rstep. cbn. split_and!; cbn; try done; [by rewrite Hc|].
    intros i q Hq. apply list_lookup_singleton_Some in Hq as [-> <-]. exists x. by rewrite Hnx.
Qed.

Lemma fifo_pop_ok m p l :
  fifo_ok m (p :: l) → runs stream_fifo_pop m (λ r m', r = Some p ∧ fifo_ok m' l ∧ fm_streams m' = fm_streams m).
Proof.
  intros (Hh&Ht&Hc&Hll&Hnd&Hch). unfold stream_fifo_pop. do 2 rstep. rewrite Hh. cbn. destruct (Hch 0%nat p eq_refl) as (x&Hx&Hnx).
  unfold stream_at. repeat rstep. eapply runs_of_option; [exact Hx|]. repeat rstep. split_and!; [done| |].
  - cbn in Hnx. apply list.NoDup_cons in Hnd as [_ Hnd]. cbn [length] in Hll.
    assert (u64 (len (p :: l) - 1) = len l) as Hu by (cbn [length]; unfold u64; rewrite Z.mod_small; lia).
    assert (∀ i q, l !! i = Some q → ∃ x, fm_streams m !! q = Some x ∧ s_next x = l !! S i) as Hch' by (intros i q; apply (Hch (S i))).
    cbn. rewrite Hnx. destruct l as [|q l]; cbn; (split_and!; [done|done|by rewrite Hc|cbn in *; lia|done|exact Hch']).
  - cbn. by destruct (s_next x).
Qed.


Lemma fifo_free_ok : ∀ l fuel m,
  NoDup l → (∀ i p, l !! i = Some p → ∃ x, fm_streams m !! p = Some x ∧ s_next x = l !! S i) → (length l ≤ fuel)%nat →
  runs (fifo_free_loop fuel (head l)) m (λ _ m', ∀ p, fm_streams m' !! p = if decide (p ∈ l) then None else fm_streams m !! p).
Proof.
  induction l as [|p l IH]; intros fuel m Hnd Hch Hf; destruct fuel as [|fuel]; cbn; try (cbn in Hf; lia); try done.
  destruct (Hch 0%nat p eq_refl) as (x&Hx&Hnx). apply list.NoDup_cons in Hnd as [Hp Hnd].
  unfold stream_at. repeat rstep. eapply runs_of_option; [exact Hx|]. unfold stream_free, stream_at. repeat rstep.
  eapply runs_of_option; [exact Hx|]. repeat rstep. rewrite Hnx. replace ((p :: l) !! 1%nat) with (head l) by (by destruct l).
  eapply runs_mono; [apply IH; [done| |cbn in Hf; lia]|].
  - intros i q Hq. destruct (Hch (S i) q Hq) as (y&Hy&Hny). exists y. split; [|done]. cbn. rewrite lookup_delete_ne; [done|].
    intros ->. apply Hp. by eapply list_elem_of_lookup_2.
  - intros ? m' Hm' q. rewrite Hm'. cbn. destruct (decide (q ∈ l)), (decide (q ∈ p :: l)); try done; try set_solver.
    + assert (q = p) as -> by set_solver. apply lookup_delete_eq.
    + rewrite lookup_delete_ne; [done|]. set_solver.
Qed.

Lemma fifo_length m l : fifo_ok m l → (length l ≤ size (fm_streams m))%nat.
Proof.
  intros (_&_&_&_&Hnd&Hch). rewrite <- size_dom, <- (size_list_to_set (C := gset nat) l) by done. apply subseteq_size.
  intros p Hp. apply elem_of_list_to_set, list_elem_of_lookup_1 in Hp as [i Hi]. destruct (Hch i p Hi) as (x&Hx&_). apply elem_of_dom. eauto.
Qed.

(** All streams of the queue are freed, and no others. *)
Lemma fifo_clean_ok m l :
  fifo_ok m l →
  runs stream_fifo_clean m (λ _ m', fifo_ok m' [] ∧ ∀ p, fm_streams m' !! p = if decide (p ∈ l) then None else fm_streams m !! p).
Proof.
  intros Hok. pose proof Hok as (Hh&_&_&_&Hnd&Hch). unfold stream_fifo_clean. repeat rstep. rewrite Hh.
  eapply runs_mono; [apply fifo_free_ok; [done..|by apply fifo_length]|]. intros ? m' Hm'. repeat rstep. cbn. split; [|exact Hm'].
  split_and!; try done. by apply list.NoDup_nil.
Qed.

(** ** Examples and limits *)

Module StreamExample.

Definition s0 : stream := mk_stream None 0 0 16 (replicate 16 170).
Definition b0 : buffer := mk_buf [] 0 (replicate 16 170).

Lemma s0_holds : holds s0 b0.
Proof. split_and!; try done. apply Forall_replicate. unfold is_byte. lia. Qed.


Lemma stream_fields_roundtrip_witness :
  let fs := [F_int Wc 5; F_int Ww 700; F_ipv4 0x0100007F; F_bytes [1; 2; 3]] in
  Forall field_ok fs ∧ ∃ vs s1 s2,
    run_ops (put_field <$> fs) s0 = Done (vs, s1) ∧
    run_ops (get_field ∘ kind_of <$> fs) s1 = Done ([V_int 5; V_int 700; V_int 0x0100007F; V_bytes [1; 2; 3]], s2) ∧
    STREAM_READABLE s2 = 0 ∧ STREAM_WRITEABLE s2 = 6.
Proof.
  intros fs. assert (Forall field_ok fs) as Hfs by (unfold fs, is_byte; repeat constructor; cbn; lia).
  split; [done|]. apply (stream_fields_roundtrip s0 b0 fs); [exact s0_holds|done|done|vm_compute; discriminate].
Defined.

(** A prefix whose bytes just fit is written beyond the end, since the room for its length is not counted. *)
Example put_prefix_overruns :
  stream_put_prefix (mk_prefix 32 [10; 0; 0; 1]) (mk_stream None 0 0 4 [0; 0; 0; 0]) = Faults.
Proof. reflexivity. Qed.

(** The test of a position wraps around. *)
Example getc_from_overruns : stream_getc_from (2 ^ 64 - 1) s0 = Faults.
Proof. reflexivity. Qed.

Example forward_endp_wraps :
  match stream_forward_endp (2 ^ 64 - 1) (mk_stream None 4 4 4 [1; 2; 3; 4]) with
  | Done (_, s) => s_endp s < s_getp s ∧ stream_getc s = Aborts
  | _ => False
  end.
Proof. vm_compute. done. Qed.

Example dup_of_empty_aborts : stream_dup (Some []) s0 = Aborts.
Proof. reflexivity. Qed.

(** The counter of an empty queue wraps around. *)
Example pop_of_empty_counts : runs stream_fifo_pop (mk_fmem ∅ stream_fifo_new) (λ r m, r = None ∧ sf_count (fm_fifo m) = 2 ^ 64 - 1).
Proof. done. Qed.

(** A stream that is queued again after it was taken from the middle of a queue brings its old successor along. *)
Example requeued_stream_keeps_successor :
  let s n := mk_stream n 0 0 1 [0] in
  runs (stream_fifo_push 0;; stream_fifo_push 1;; stream_fifo_pop;; stream_fifo_pop;; stream_fifo_push 0;; stream_fifo_pop;; stream_fifo_head)
    (mk_fmem {[0%nat := s None; 1%nat := s None]} stream_fifo_new)
    (λ h m, h = Some 1%nat ∧ sf_count (fm_fifo m) = 0).
Proof. vm_compute. done. Qed.

End StreamExample.
