(* ===== verification/DList.v ===== *)
(** * Doubly linked lists: src/src/inc/list.h

    The circular lists with a head that the switch uses for its tables, on a memory of nodes.  The theorems
    say that the operations do to the sequence of the nodes of a list what their names say, which is what
    the models of the tables, in which such a list is a sequence, rely on. *)

From stdpp Require Import gmap.
From S2P Require Import Prelude Fault.

(** ** Operations *)

Record list_head := mk_head { h_next : Z; h_prev : Z }.

Abbreviation lmem := (gmap Z list_head).

Local Abbreviation M := (fsM lmem).

Definition next (p : Z) : M Z := λ m, match m !! p with Some n => Some (h_next n, m) | None => None end.
Definition prev (p : Z) : M Z := λ m, match m !! p with Some n => Some (h_prev n, m) | None => None end.
Definition set_next (p v : Z) : M unit := λ m,
  match m !! p with Some n => Some (tt, <[p := mk_head v (h_prev n)]> m) | None => None end.
Definition set_prev (p v : Z) : M unit := λ m,
  match m !! p with Some n => Some (tt, <[p := mk_head (h_next n) v]> m) | None => None end.

Definition INIT_LIST_HEAD (list : Z) : M unit := set_next list list;; set_prev list list.

Definition __list_add (new before after : Z) : M unit :=
  set_prev after new;;
  set_next new after;;
  set_prev new before;;
  set_next before new.

Definition list_add (new head : Z) : M unit := n ← next head; __list_add new head n.
Definition list_add_tail (new head : Z) : M unit := p ← prev head; __list_add new p head.

Definition __list_del (before after : Z) : M unit := set_prev after before;; set_next before after.
Definition list_del (entry : Z) : M unit := p ← prev entry; n ← next entry; __list_del p n.

Definition list_replace (old new : Z) : M unit :=
  n ← next old;
  set_next new n;;
  n ← next new;
  set_prev n new;;
  p ← prev old;
  set_prev new p;;
  p ← prev new;
  set_next p new.

Definition list_replace_init (old new : Z) : M unit := list_replace old new;; INIT_LIST_HEAD old.
Definition list_del_init (entry : Z) : M unit := list_del entry;; INIT_LIST_HEAD entry.

Definition list_move (list head : Z) : M unit := list_del list;; list_add list head.
Definition list_move_tail (list head : Z) : M unit := list_del list;; list_add_tail list head.

Definition list_is_last (list head : Z) : M bool := n ← next list; mret (n =? head).
Definition list_empty (head : Z) : M bool := n ← next head; mret (n =? head).
Definition list_empty_careful (head : Z) : M bool :=
  n ← next head; p ← prev head; mret ((n =? head) && (n =? p)).
Definition list_is_singular (head : Z) : M bool :=
  e ← list_empty head; n ← next head; p ← prev head; mret (negb e && (n =? p)).

Definition __list_cut_position (list head entry : Z) : M unit :=
  new_first ← next entry;
  n ← next head;
  set_next list n;;
  n ← next list;
  set_prev n list;;
  set_prev list entry;;
  set_next entry list;;
  set_next head new_first;;
  set_prev new_first head.

Definition list_cut_position (list head entry : Z) : M unit :=
  e ← list_empty head;
  if (e : bool) then mret tt
  else
    s ← list_is_singular head;
    n ← next head;
    if (s : bool) && (n !=? entry) && (head !=? entry) then mret tt
    else if entry =? head then INIT_LIST_HEAD list
    else __list_cut_position list head entry.

Definition __list_splice (list before after : Z) : M unit :=
  first ← next list;
  last ← prev list;
  set_prev first before;;
  set_next before first;;
  set_next last after;;
  set_prev after last.

Definition list_splice (list head : Z) : M unit :=
  e ← list_empty list;
  if (e : bool) then mret tt else n ← next head; __list_splice list head n.
Definition list_splice_tail (list head : Z) : M unit :=
  e ← list_empty list;
  if (e : bool) then mret tt else p ← prev head; __list_splice list p head.
Definition list_splice_init (list head : Z) : M unit :=
  e ← list_empty list;
  if (e : bool) then mret tt else (n ← next head; __list_splice list head n);; INIT_LIST_HEAD list.
Definition list_splice_tail_init (list head : Z) : M unit :=
  e ← list_empty list;
  if (e : bool) then mret tt else (p ← prev head; __list_splice list p head);; INIT_LIST_HEAD list.

(** The loop of [list_for_each] and [list_for_each_entry], the body being [f], with an accumulator. *)
Fixpoint for_each_from {A} (fuel : nat) (f : A → Z → A) (pos head : Z) (a : A) : M A :=
  match fuel with
  | O => fault
  | S fuel => if pos =? head then mret a else n ← next pos; for_each_from fuel f n head (f a pos)
  end.

Definition list_for_each {A} (f : A → Z → A) (head : Z) (a : A) : M A :=
  n ← next head;
  fuel ← gets (λ m, S (size m));
  for_each_from fuel f n head a.

(** The loop of [list_for_each_safe] and [list_for_each_entry_safe], whose body may take the node out of its list. *)
Fixpoint for_each_safe_from (fuel : nat) (f : Z → M unit) (pos n head : Z) : M unit :=
  match fuel with
  | O => fault
  | S fuel =>
      if pos =? head then mret tt
      else
        f pos;;
        n' ← next n;
        for_each_safe_from fuel f n n' head
  end.

Definition list_for_each_safe (f : Z → M unit) (head : Z) : M unit :=
  pos ← next head;
  n ← next pos;
  fuel ← gets (λ m, S (size m));
  for_each_safe_from fuel f pos n head.

(** ** Links *)

Implicit Types m : lmem.

Definition nx m (p : Z) : option Z := h_next <$> m !! p.
Definition pv m (p : Z) : option Z := h_prev <$> m !! p.

(** [a] is followed by [b]. *)
Definition link m (a b : Z) : Prop := nx m a = Some b ∧ pv m b = Some a.

(** The nodes [l] lie between [a] and [b]. *)
Fixpoint seg m (a : Z) (l : list Z) (b : Z) : Prop :=
  match l with
  | [] => link m a b
  | p :: l => link m a p ∧ seg m p l b
  end.

(** The list with the head [h] has the nodes [l]. *)
Definition dlist m (h : Z) (l : list Z) : Prop := NoDup (h :: l) ∧ seg m h l h.

(** [m'] has the nodes of [m], and only those of [l] can have changed. *)
Definition only m m' (l : list Z) : Prop := dom m' = dom m ∧ ∀ p, p ∉ l → m' !! p = m !! p.

Lemma next_run m p v : nx m p = Some v → next p m = Some (v, m).
Proof. unfold nx, next. destruct (m !! p); [|done]. by intros [= ->]. Qed.

Lemma prev_run m p v : pv m p = Some v → prev p m = Some (v, m).
Proof. unfold pv, prev. destruct (m !! p); [|done]. by intros [= ->]. Qed.

(** Writing a field: the other fields keep their values. *)
Lemma set_next_run m p v :
  p ∈ dom m → ∃ m', set_next p v m = Some (tt, m') ∧ only m m' [p] ∧
    (∀ q, nx m' q = if decide (q = p) then Some v else nx m q) ∧ (∀ q, pv m' q = pv m q).
Proof.
  intros [n Hn]%elem_of_dom. unfold set_next. rewrite Hn. eexists. split_and!; [done|split|..].
  - rewrite dom_insert_lookup_L; [done|by eexists].
  - intros q Hq. apply lookup_insert_ne. set_solver.
  - intros q. unfold nx. destruct (decide (q = p)) as [->|]; [by rewrite lookup_insert_eq|by rewrite lookup_insert_ne].
  - intros q. unfold pv. destruct (decide (q = p)) as [->|]; [by rewrite lookup_insert_eq, Hn|by rewrite lookup_insert_ne].
Qed.

Lemma set_prev_run m p v :
  p ∈ dom m → ∃ m', set_prev p v m = Some (tt, m') ∧ only m m' [p] ∧
    (∀ q, pv m' q = if decide (q = p) then Some v else pv m q) ∧ (∀ q, nx m' q = nx m q).
Proof.
  intros [n Hn]%elem_of_dom. unfold set_prev. rewrite Hn. eexists. split_and!; [done|split|..].
  - rewrite dom_insert_lookup_L; [done|by eexists].
  - intros q Hq. apply lookup_insert_ne. set_solver.
  - intros q. unfold pv. destruct (decide (q = p)) as [->|]; [by rewrite lookup_insert_eq|by rewrite lookup_insert_ne].
  - intros q. unfold nx. destruct (decide (q = p)) as [->|]; [by rewrite lookup_insert_eq, Hn|by rewrite lookup_insert_ne].
Qed.

Lemma only_trans m m' m'' l k : only m m' l → only m' m'' k → only m m'' (l ++ k).
Proof. intros [D1 O1] [D2 O2]. split; [congruence|]. intros p Hp. rewrite O2, O1 by set_solver. done. Qed.

Lemma only_weaken m m' l k : only m m' l → l ⊆ k → only m m' k.
Proof. intros [D O] Hl. split; [done|]. intros p Hp. apply O. set_solver. Qed.

(** Segments. *)
Lemma seg_snoc m a l b : ∀ x k, seg m a (l ++ x :: k) b ↔ seg m a l x ∧ seg m x k b.
Proof. revert a. induction l as [|p l IH]; intros a x k; cbn; [done|]. rewrite IH. naive_solver. Qed.

Lemma seg_frame m m' a l b :
  (∀ p, p ∈ a :: l → nx m' p = nx m p) → (∀ p, p ∈ l ++ [b] → pv m' p = pv m p) → seg m a l b → seg m' a l b.
Proof.
  revert a. induction l as [|p l IH]; intros a Hn Hp; cbn; unfold link.
  - rewrite Hn, Hp; [done|set_solver|set_solver].
  - intros [[? ?] ?]. rewrite Hn, Hp by set_solver. split; [done|]. apply IH; [| |done].
    + intros q Hq. apply Hn. set_solver.
    + intros q Hq. apply Hp. set_solver.
Qed.

Lemma seg_dom m a l b : seg m a l b → ∀ p, p ∈ a :: b :: l → p ∈ dom m.
Proof.
  assert (∀ x y, link m x y → x ∈ dom m ∧ y ∈ dom m) as Hl.
  { unfold link, nx, pv. intros x y [H1 H2]. rewrite !elem_of_dom.
    destruct (m !! x), (m !! y); by eauto. }
  revert a. induction l as [|x l IH]; intros a; cbn.
  - intros [? ?]%Hl p. set_solver.
  - intros [[? ?]%Hl Hs] p. specialize (IH x Hs p). set_solver.
Qed.

Lemma seg_first m a l b : seg m a l b → nx m a = Some (hd b l) ∧ pv m (hd b l) = Some a.
Proof. destruct l; cbn; [done|]. intros [? _]. done. Qed.

Lemma seg_last m a l b : seg m a l b → pv m b = Some (default a (list.last l)) ∧ nx m (default a (list.last l)) = Some b.
Proof.
  revert a. induction l as [|p l IH]; intros a; [intros [? ?]; done|]. intros [_ [H1 H2]%IH].
  rewrite last_cons. by destruct (list.last l).
Qed.

(** The links within a suffix of a segment. *)
Definition rest m (l : list Z) (b : Z) : Prop :=
  match l with [] => True | x :: k => seg m x k b end.

Lemma seg_split m a l1 l2 b : seg m a (l1 ++ l2) b ↔ seg m a l1 (hd b l2) ∧ rest m l2 b.
Proof. destruct l2; cbn; [rewrite app_nil_r; naive_solver|]. apply seg_snoc. Qed.

Lemma seg_rest m a l b : seg m a l b ↔ link m a (hd b l) ∧ rest m l b.
Proof. destruct l; cbn; naive_solver. Qed.

Lemma rest_frame m m' l b :
  (∀ p, p ∈ l → nx m' p = nx m p) → (∀ p, p ∈ tail l ++ [b] → l ≠ [] → pv m' p = pv m p) → rest m l b → rest m' l b.
Proof.
  destruct l as [|x k]; [done|]. cbn. intros Hn Hp. apply seg_frame; [done|]. intros p H. by apply Hp.
Qed.

(** The nodes before and after a position of a list. *)
Definition before (h : Z) (l : list Z) : Z := default h (list.last l).
Definition after (h : Z) (l : list Z) : Z := hd h l.

Lemma before_in h l : before h l ∈ h :: l.
Proof. unfold before. destruct (list.last l) eqn:E; cbn; [apply last_Some_elem_of in E|]; set_solver. Qed.

Lemma after_in h l : after h l ∈ h :: l.
Proof. destruct l; cbn; set_solver. Qed.

(** The last node of a segment gets another successor. *)
Lemma seg_end m m' a l b c :
  NoDup (a :: l) → (∀ p, p ∈ a :: l → p ≠ default a (list.last l) → nx m' p = nx m p) →
  (∀ p, p ∈ l → pv m' p = pv m p) → link m' (default a (list.last l)) c → seg m a l b → seg m' a l c.
Proof.
  revert a. induction l as [|x l IH]; intros a Hd Hn Hp Hl; [done|].
  rewrite last_cons in Hn, Hl. apply list.NoDup_cons in Hd as [Ha Hd]. intros [[L1 L2] Hs].
  assert (default a (match list.last l with Some y => Some y | None => Some x end) = default x (list.last l)) as Hlast
    by by destruct (list.last l).
  rewrite Hlast in *. split.
  - unfold link. rewrite Hn, Hp; [done|by left|by left|]. intros ->. apply Ha, (before_in x l).
  - apply IH; [done| | |done|done].
    + intros p H1. apply Hn. set_solver.
    + intros p H1. apply Hp. set_solver.
Qed.

Lemma only_dom m m' l p : only m m' l → p ∈ dom m' ↔ p ∈ dom m.
Proof. by intros [-> _]. Qed.

(** ** The elementary operations *)

Lemma add_links_run m new a b :
  new ∈ dom m → a ∈ dom m → b ∈ dom m → new ≠ a → new ≠ b →
  ∃ m', __list_add new a b m = Some (tt, m') ∧ only m m' [b; new; new; a] ∧
    (∀ q, nx m' q = if decide (q = a) then Some new else if decide (q = new) then Some b else nx m q) ∧
    (∀ q, pv m' q = if decide (q = new) then Some a else if decide (q = b) then Some new else pv m q).
Proof.
  intros Hnew Ha Hb N1 N2. unfold __list_add.
  destruct (set_prev_run m b new Hb) as (m1 & E1 & O1 & P1 & X1). frun E1.
  destruct (set_next_run m1 new b) as (m2 & E2 & O2 & X2 & P2); [by rewrite (only_dom _ _ _ _ O1)|]. frun E2.
  pose proof (only_trans _ _ _ _ _ O1 O2) as O12.
  destruct (set_prev_run m2 new a) as (m3 & E3 & O3 & P3 & X3); [by rewrite (only_dom _ _ _ _ O12)|]. frun E3.
  pose proof (only_trans _ _ _ _ _ O12 O3) as O13.
  destruct (set_next_run m3 a new) as (m4 & E4 & O4 & X4 & P4); [by rewrite (only_dom _ _ _ _ O13)|].
  exists m4. split_and!; [done|by apply (only_trans _ _ _ _ _ O13 O4)| |]; intros q.
  - by rewrite X4, X3, X2, X1.
  - by rewrite P4, P3, P2, P1.
Qed.

Lemma del_run m a b :
  a ∈ dom m → b ∈ dom m →
  ∃ m', __list_del a b m = Some (tt, m') ∧ only m m' [b; a] ∧
    (∀ q, nx m' q = if decide (q = a) then Some b else nx m q) ∧
    (∀ q, pv m' q = if decide (q = b) then Some a else pv m q).
Proof.
  intros Ha Hb. unfold __list_del. destruct (set_prev_run m b a Hb) as (m1 & E1 & O1 & P1 & X1). frun E1.
  destruct (set_next_run m1 a b) as (m2 & E2 & O2 & X2 & P2); [by rewrite (only_dom _ _ _ _ O1)|].
  exists m2. split_and!; [done|by apply (only_trans _ _ _ _ _ O1 O2)| |]; intros q.
  - by rewrite X2, X1.
  - by rewrite P2, P1.
Qed.

Lemma before_not_in h l1 l2 : NoDup (h :: l1 ++ l2) → before h l1 ∉ l2.
Proof.
  intros [Hh (_ & Hd & _)%list.NoDup_app]%list.NoDup_cons Hin. pose proof (before_in h l1) as [E|Hb]%elem_of_cons; [rewrite E in Hin|]; set_solver.
Qed.

Lemma after_not_in h l1 l2 : NoDup (h :: l1 ++ l2) → after h l2 ∉ l1 ∧ (l2 ≠ [] → after h l2 ∉ tail l2 ++ [h]).
Proof.
  intros [Hh (_ & Hd & Hd2)%list.NoDup_app]%list.NoDup_cons. destruct l2 as [|x k]; cbn; [set_solver|].
  apply list.NoDup_cons in Hd2 as [? _]. set_solver.
Qed.

Lemma dlist_dom m h l : dlist m h l → ∀ p, p ∈ h :: l → p ∈ dom m.
Proof. intros [_ Hs] p Hp. eapply seg_dom; [done|]. set_solver. Qed.

(** A node between the two parts of a list. *)
Lemma relink m m' h l1 z l2 new :
  NoDup (h :: l1 ++ l2) → new ∉ h :: l1 ++ l2 →
  (∀ q, nx m' q = if decide (q = before h l1) then Some new else if decide (q = new) then Some (after h l2) else nx m q) →
  (∀ q, pv m' q = if decide (q = new) then Some (before h l1) else if decide (q = after h l2) then Some new else pv m q) →
  seg m h l1 z → rest m l2 h → dlist m' h (l1 ++ new :: l2).
Proof.
  intros Hnd Hnew X Pm Hs Hr. pose proof (before_in h l1) as B1. pose proof (after_in h l2) as A1.
  pose proof (before_not_in h l1 l2 Hnd) as B2. pose proof (after_not_in h l1 l2 Hnd) as [A2 A3].
  apply list.NoDup_cons in Hnd as [Hh (H1 & H2 & H3)%list.NoDup_app].
  split; [rewrite list.NoDup_cons, list.NoDup_app, list.NoDup_cons; set_solver|].
  apply seg_snoc. split; [|apply seg_rest; split].
  - eapply (seg_end m); [| | | |exact Hs].
    + apply list.NoDup_cons. set_solver.
    + intros p Hp Hne. rewrite X, !decide_False; [done|set_solver|done].
    + intros p Hp. rewrite Pm, !decide_False; [done|set_solver|set_solver].
    + split; [by rewrite X, decide_True|by rewrite Pm, decide_True].
  - split; [rewrite X, decide_False, decide_True by set_solver; done|].
    rewrite Pm, decide_False, decide_True by set_solver. done.
  - eapply (rest_frame m); [| |exact Hr].
    + intros p Hp. rewrite X, !decide_False; [done|set_solver|set_solver].
    + intros p Hp Hne. specialize (A3 Hne). rewrite Pm, !decide_False; [done|set_solver|]. destruct l2; [done|]. set_solver.
Qed.

(** A node is inserted at a position. *)
Lemma insert_node_ok m h l1 l2 new :
  dlist m h (l1 ++ l2) → new ∉ h :: l1 ++ l2 → new ∈ dom m →
  ∃ m', __list_add new (before h l1) (after h l2) m = Some (tt, m') ∧ dlist m' h (l1 ++ new :: l2) ∧
    only m m' (new :: h :: l1 ++ l2).
Proof.
  intros Hl Hnew Hdom. pose proof (dlist_dom _ _ _ Hl) as Hd. destruct Hl as [Hnd Hs].
  pose proof (before_in h l1) as B1. pose proof (after_in h l2) as A1.
  destruct (add_links_run m new (before h l1) (after h l2)) as (m' & E & O & X & Pm);
    [done|apply Hd; set_solver|apply Hd; set_solver|set_solver|set_solver|].
  apply seg_split in Hs as [Hs Hr].
  exists m'. split_and!; [done|by eapply relink|eapply only_weaken; [done|]; set_solver].
Qed.

(** A node is taken out. *)
Lemma remove_ok m h l1 p l2 :
  dlist m h (l1 ++ p :: l2) →
  ∃ m', list_del p m = Some (tt, m') ∧ dlist m' h (l1 ++ l2) ∧ only m m' (h :: l1 ++ l2) .
Proof.
  intros Hl. pose proof (dlist_dom _ _ _ Hl) as Hd. destruct Hl as [Hnd Hs].
  apply seg_snoc in Hs as [Hs1 Hs2]. pose proof (seg_last _ _ _ _ Hs1) as [P0 _]. pose proof (seg_first _ _ _ _ Hs2) as [N0 _].
  assert (NoDup (h :: l1 ++ l2)) as Hnd'.
  { apply list.NoDup_cons in Hnd as [Hh (H1 & H2 & [H4 H5]%list.NoDup_cons)%list.NoDup_app].
    rewrite list.NoDup_cons, list.NoDup_app. set_solver. }
  pose proof (before_in h l1) as B1. pose proof (after_in h l2) as A1. pose proof (before_not_in h l1 l2 Hnd') as B2.
  pose proof (after_not_in h l1 l2 Hnd') as [A2 A3].
  destruct (del_run m (before h l1) (after h l2)) as (m' & E & O & X & Pm); [apply Hd; set_solver|apply Hd; set_solver|].
  exists m'. split_and!; [|split; [done|]|eapply only_weaken; [done|]; set_solver].
  { unfold list_del. frun (prev_run m p _ P0). frun (next_run m p _ N0). exact E. }
  apply seg_rest in Hs2 as [_ Hr]. apply seg_split. split.
  - eapply (seg_end m); [| | | |exact Hs1].
    + apply list.NoDup_cons in Hnd' as [Hh (H1 & _)%list.NoDup_app]. apply list.NoDup_cons. set_solver.
    + intros q Hq Hne. rewrite X, decide_False; done.
    + intros q Hq. rewrite Pm, decide_False; [done|set_solver].
    + split; [by rewrite X, decide_True|by rewrite Pm, decide_True].
  - eapply (rest_frame m); [| |exact Hr].
    + intros q Hq. rewrite X, decide_False; [done|set_solver].
    + intros q Hq Hne. specialize (A3 Hne). rewrite Pm, decide_False; [done|set_solver].
Qed.

Lemma init_ok m p :
  p ∈ dom m → ∃ m', INIT_LIST_HEAD p m = Some (tt, m') ∧ dlist m' p [] ∧ only m m' [p].
Proof.
  intros Hp. unfold INIT_LIST_HEAD. destruct (set_next_run m p p Hp) as (m1 & E1 & O1 & X1 & P1). frun E1.
  destruct (set_prev_run m1 p p) as (m2 & E2 & O2 & P2 & X2); [by rewrite (only_dom _ _ _ _ O1)|].
  exists m2. split_and!; [done|split; [apply NoDup_singleton|split]|].
  - by rewrite X2, X1, decide_True.
  - by rewrite P2, decide_True.
  - eapply only_weaken; [apply (only_trans _ _ _ _ _ O1 O2)|]. set_solver.
Qed.

(** A list none of whose nodes has changed. *)
Lemma dlist_frame m m' h l k : only m m' k → (∀ p, p ∈ h :: l → p ∉ k) → dlist m h l → dlist m' h l.
Proof.
  intros [_ O] Hk [Hnd Hs]. split; [done|].
  apply (seg_frame m); [| |done]; intros p Hp; unfold nx, pv; rewrite O; [done| |done|]; apply Hk; set_solver.
Qed.

Lemma before_app h l x : before h (l ++ [x]) = x.
Proof. unfold before. by rewrite last_snoc. Qed.

Lemma list_add_ok m h l new :
  dlist m h l → new ∉ h :: l → new ∈ dom m →
  ∃ m', list_add new h m = Some (tt, m') ∧ dlist m' h (new :: l) ∧ only m m' (new :: h :: l).
Proof.
  intros Hl Hnew Hd. pose proof (seg_first _ _ _ _ (proj2 Hl)) as [N _]. unfold list_add. frun (next_run m h _ N).
  by apply (insert_node_ok m h [] l new).
Qed.

Lemma list_add_tail_ok m h l new :
  dlist m h l → new ∉ h :: l → new ∈ dom m →
  ∃ m', list_add_tail new h m = Some (tt, m') ∧ dlist m' h (l ++ [new]) ∧ only m m' (new :: h :: l).
Proof.
  intros Hl Hnew Hd. pose proof (seg_last _ _ _ _ (proj2 Hl)) as [P _]. unfold list_add_tail. frun (prev_run m h _ P).
  destruct (insert_node_ok m h l [] new) as (m' & E & Hm & O); [by rewrite app_nil_r|by rewrite app_nil_r|done|].
  rewrite app_nil_r in O. by exists m'.
Qed.

(** A node is replaced by one that is in no list. *)
Lemma replace_ok m h l1 old l2 new :
  dlist m h (l1 ++ old :: l2) → new ∉ h :: l1 ++ old :: l2 → new ∈ dom m →
  ∃ m', list_replace old new m = Some (tt, m') ∧ dlist m' h (l1 ++ new :: l2) ∧ only m m' (new :: h :: l1 ++ l2).
Proof.
  intros Hl Hnew Hdom. pose proof (dlist_dom _ _ _ Hl) as Hd. destruct Hl as [Hnd Hs].
  apply seg_snoc in Hs as [Hs1 Hs2]. pose proof (seg_last _ _ _ _ Hs1) as [P0 _]. pose proof (seg_first _ _ _ _ Hs2) as [N0 _].
  apply list.NoDup_cons in Hnd as [Hh (H1 & H2 & [H4 H5]%list.NoDup_cons)%list.NoDup_app].
  assert (NoDup (h :: l1 ++ l2)) as Hnd' by (rewrite list.NoDup_cons, list.NoDup_app; set_solver).
  pose proof (before_in h l1) as B1. pose proof (after_in h l2) as A1. fold (before h l1) in P0. fold (after h l2) in N0.
  unfold list_replace. frun (next_run m old _ N0).
  destruct (set_next_run m new (after h l2) Hdom) as (m1 & E1 & O1 & X1 & P1). frun E1.
  assert (nx m1 new = Some (after h l2)) as N1 by by rewrite X1, decide_True. frun (next_run m1 new _ N1).
  destruct (set_prev_run m1 (after h l2) new) as (m2 & E2 & O2 & P2 & X2).
  { rewrite (only_dom _ _ _ _ O1). apply Hd. set_solver. } frun E2.
  pose proof (only_trans _ _ _ _ _ O1 O2) as O12.
  assert (pv m2 old = Some (before h l1)) as P3.
  { rewrite P2, decide_False, P1; [done|]. intros ->. set_solver. } frun (prev_run m2 old _ P3).
  destruct (set_prev_run m2 new (before h l1)) as (m3 & E3 & O3 & P4 & X3); [by rewrite (only_dom _ _ _ _ O12)|]. frun E3.
  pose proof (only_trans _ _ _ _ _ O12 O3) as O13.
  assert (pv m3 new = Some (before h l1)) as P5 by by rewrite P4, decide_True. frun (prev_run m3 new _ P5).
  destruct (set_next_run m3 (before h l1) new) as (m4 & E4 & O4 & X4 & P6).
  { rewrite (only_dom _ _ _ _ O13). apply Hd. set_solver. }
  apply seg_rest in Hs2 as [_ Hr].
  exists m4. split_and!; [done| |eapply only_weaken; [apply (only_trans _ _ _ _ _ O13 O4)|]; set_solver].
  eapply (relink m); [done|set_solver| | |done|done]; intros q.
  - by rewrite X4, X3, X2, X1.
  - by rewrite P6, P4, P2, P1.
Qed.

(** ** Joining and cutting lists *)

Lemma splice_run m g a b f e :
  nx m g = Some f → pv m g = Some e → f ∈ dom m → e ∈ dom m → a ∈ dom m → b ∈ dom m → f ≠ b → e ≠ a →
  ∃ m', __list_splice g a b m = Some (tt, m') ∧ only m m' [f; a; e; b] ∧
    (∀ q, nx m' q = if decide (q = e) then Some b else if decide (q = a) then Some f else nx m q) ∧
    (∀ q, pv m' q = if decide (q = b) then Some e else if decide (q = f) then Some a else pv m q).
Proof.
  intros Hf He Df De Da Db N1 N2. unfold __list_splice. frun (next_run m g f Hf). frun (prev_run m g e He).
  destruct (set_prev_run m f a Df) as (m1 & E1 & O1 & P1 & X1). frun E1.
  destruct (set_next_run m1 a f) as (m2 & E2 & O2 & X2 & P2); [by rewrite (only_dom _ _ _ _ O1)|]. frun E2.
  pose proof (only_trans _ _ _ _ _ O1 O2) as O12.
  destruct (set_next_run m2 e b) as (m3 & E3 & O3 & X3 & P3); [by rewrite (only_dom _ _ _ _ O12)|]. frun E3.
  pose proof (only_trans _ _ _ _ _ O12 O3) as O13.
  destruct (set_prev_run m3 b e) as (m4 & E4 & O4 & P4 & X4); [by rewrite (only_dom _ _ _ _ O13)|].
  exists m4. split_and!; [done|by apply (only_trans _ _ _ _ _ O13 O4)| |]; intros q.
  - by rewrite X4, X3, X2, X1.
  - by rewrite P4, P3, P2, P1.
Qed.

(** The nodes of the list at [g] are put between two parts of the list at [h]. *)
Lemma splice_ok m h l1 l2 g f k :
  dlist m h (l1 ++ l2) → dlist m g (f :: k) → (∀ p, p ∈ h :: l1 ++ l2 → p ∉ g :: f :: k) →
  ∃ m', __list_splice g (before h l1) (after h l2) m = Some (tt, m') ∧ dlist m' h (l1 ++ (f :: k) ++ l2) ∧
    only m m' (h :: l1 ++ (f :: k) ++ l2).
Proof.
  intros Hl Hg Hdis. pose proof (dlist_dom _ _ _ Hl) as Dl. pose proof (dlist_dom _ _ _ Hg) as Dg.
  destruct Hl as [Hnd Hs], Hg as [Hgd Hgs].
  pose proof (before_in h l1) as B1. pose proof (after_in h l2) as A1. pose proof (before_not_in h l1 l2 Hnd) as B2.
  pose proof (after_not_in h l1 l2 Hnd) as [A2 A3].
  pose proof (seg_last _ _ _ _ Hgs) as [P0 _]. fold (before g (f :: k)) in P0. set (e := before g (f :: k)) in *.
  assert (e = default f (list.last k)) as He by (unfold e, before; rewrite last_cons; by destruct (list.last k)).
  assert (e ∈ f :: k) as Hek by (rewrite He; apply (before_in f k)).
  assert (∀ x, x ∈ h :: l1 → x ∉ f :: k) as Hdis1 by (intros x Hx Hf; apply (Hdis x); [|by right]; clear -Hx; set_solver).
  assert (∀ x, x ∈ h :: l2 → x ∉ f :: k) as Hdis2 by (intros x Hx Hf; apply (Hdis x); [|by right]; clear -Hx; set_solver).
  pose proof (Hdis1 _ B1) as Hbe. pose proof (Hdis2 _ A1) as Hae.
  destruct (splice_run m g (before h l1) (after h l2) f e) as (m' & E & O & X & Pm);
    [apply Hgs|done|apply Dg; set_solver|apply Dg; by right|apply Dl; clear -B1; set_solver|apply Dl; clear -A1; set_solver| | |].
  { intros ->. apply Hae. by left. }
  { intros Hx. apply Hbe. by rewrite <- Hx. }
  exists m'. split_and!; [done|split|eapply only_weaken; [done|]; clear -B1 A1 Hek; set_solver].
  - apply list.NoDup_cons in Hnd as [Hh (H1 & H2 & H3)%list.NoDup_app]. apply list.NoDup_cons in Hgd as [Hgn Hgd].
    clear -Hdis1 Hdis2 Hh H1 H2 H3 Hgd.
    rewrite list.NoDup_cons, !list.NoDup_app. split_and!; [set_solver|done|set_solver|done|set_solver|done].
  - destruct Hgs as [_ Hgs]. apply seg_split in Hs as [Hs Hr]. apply list.NoDup_cons in Hgd as [Hgn Hgd].
    apply (seg_split m' h l1 ((f :: k) ++ l2)). split; [|cbn; apply seg_split; split].
    + eapply (seg_end m); [| | | |exact Hs].
      * apply list.NoDup_cons in Hnd as [Hh (H1 & _)%list.NoDup_app]. apply list.NoDup_cons. clear -Hh H1. set_solver.
      * intros p Hp Hne. rewrite X, !decide_False; [done|done|]. intros ->. by apply (Hdis1 e).
      * intros p Hp. rewrite Pm, !decide_False; [done| |by intros ->].
        intros ->. apply (Hdis1 f); [by right|by left].
      * fold (before h l1). cbn [hd app]. split.
        -- rewrite X, decide_False, decide_True; [done|done|]. intros Hx. apply Hbe. by rewrite Hx.
        -- rewrite Pm, decide_False, decide_True; [done|done|]. intros Hx. apply Hae. rewrite <- Hx. by left.
    + fold (after h l2). eapply (seg_end m); [done| | | |exact Hgs].
      * rewrite <- He. intros p Hp Hne. rewrite X, !decide_False; [done| |done]. by intros ->.
      * apply list.NoDup_cons in Hgd as [Hfk _].
        intros p Hp. rewrite Pm, !decide_False; [done|by intros ->|]. intros ->. apply Hae. by right.
      * rewrite <- He. split; [by rewrite X, decide_True|by rewrite Pm, decide_True].
    + eapply (rest_frame m); [| |exact Hr].
      * intros p Hp. rewrite X, !decide_False; [done|by intros ->|]. intros ->. apply (Hdis2 e); [by right|done].
      * intros p Hp Hne. specialize (A3 Hne). rewrite Pm, !decide_False; [done| |by intros ->]. intros ->.
        apply (Hdis2 f); [|by left]. destruct l2 as [|y l2]; [done|]. cbn in Hp. clear -Hp. set_solver.
Qed.

Lemma cut_run m g h e f n :
  nx m e = Some n → nx m h = Some f → g ∈ dom m → h ∈ dom m → e ∈ dom m → f ∈ dom m → n ∈ dom m →
  ∃ m', __list_cut_position g h e m = Some (tt, m') ∧ only m m' [g; f; g; e; h; n] ∧
    (∀ q, nx m' q = if decide (q = h) then Some n else if decide (q = e) then Some g
                    else if decide (q = g) then Some f else nx m q) ∧
    (∀ q, pv m' q = if decide (q = n) then Some h else if decide (q = g) then Some e
                    else if decide (q = f) then Some g else pv m q).
Proof.
  intros N0 F1 Dg Dh De Df Dn. unfold __list_cut_position. frun (next_run m e _ N0). frun (next_run m h _ F1).
  destruct (set_next_run m g f Dg) as (m1 & E1 & O1 & X1 & P1). frun E1.
  assert (nx m1 g = Some f) as N1 by by rewrite X1, decide_True. frun (next_run m1 g _ N1).
  destruct (set_prev_run m1 f g) as (m2 & E2 & O2 & P2 & X2); [by rewrite (only_dom _ _ _ _ O1)|]. frun E2.
  pose proof (only_trans _ _ _ _ _ O1 O2) as O12.
  destruct (set_prev_run m2 g e) as (m3 & E3 & O3 & P3 & X3); [by rewrite (only_dom _ _ _ _ O12)|]. frun E3.
  pose proof (only_trans _ _ _ _ _ O12 O3) as O13.
  destruct (set_next_run m3 e g) as (m4 & E4 & O4 & X4 & P4); [by rewrite (only_dom _ _ _ _ O13)|]. frun E4.
  pose proof (only_trans _ _ _ _ _ O13 O4) as O14.
  destruct (set_next_run m4 h n) as (m5 & E5 & O5 & X5 & P5); [by rewrite (only_dom _ _ _ _ O14)|]. frun E5.
  pose proof (only_trans _ _ _ _ _ O14 O5) as O15.
  destruct (set_prev_run m5 n h) as (m6 & E6 & O6 & P6 & X6); [by rewrite (only_dom _ _ _ _ O15)|].
  exists m6. split_and!; [done|by apply (only_trans _ _ _ _ _ O15 O6)| |]; intros q.
  - by rewrite X6, X5, X4, X3, X2, X1.
  - by rewrite P6, P5, P4, P3, P2, P1.
Qed.

(** The first nodes of the list at [h] become the list at [g]. *)
Lemma cut_ok m h f k l2 g :
  dlist m h ((f :: k) ++ l2) → g ∉ h :: (f :: k) ++ l2 → g ∈ dom m →
  ∃ m', __list_cut_position g h (before f k) m = Some (tt, m') ∧ dlist m' g (f :: k) ∧ dlist m' h l2 ∧
    only m m' (g :: h :: (f :: k) ++ l2).
Proof.
  intros Hl Hg Dg. pose proof (dlist_dom _ _ _ Hl) as Dl. destruct Hl as [Hnd Hs].
  apply seg_split in Hs as [Hs1 Hr]. fold (after h l2) in Hs1. pose proof (seg_last _ _ _ _ Hs1) as [_ N0].
  destruct Hs1 as [[F1 F2] Hr1].
  assert (default h (list.last (f :: k)) = before f k) as Eb by (rewrite last_cons; unfold before; by destruct (list.last k)).
  rewrite Eb in N0. pose proof (before_in f k) as He. set (e := before f k) in *.
  pose proof (after_in h l2) as A1. set (n := after h l2) in *.
  destruct (cut_run m g h e f n) as (m' & E & O & X & Pm); [done|done|done|apply Dl; set_solver..|].
  apply list.NoDup_cons in Hnd as [Hh (Hfk & Hdis & Hl2)%list.NoDup_app].
  assert (g ≠ h ∧ g ∉ f :: k ∧ g ∉ l2) as (G1 & G2 & G3) by (clear -Hg; set_solver).
  assert (h ∉ f :: k ∧ h ∉ l2) as (Q1 & Q2) by (clear -Hh; set_solver).
  assert (∀ p, p ∈ l2 → p ∉ f :: k) as Hdis2 by (clear -Hdis; set_solver).
  assert (n ∉ f :: k ∧ n ≠ g) as (A2 & A3).
  { pose proof A1 as [->|Hn]%elem_of_cons; [by split|]. split; [by apply Hdis2|by intros ->]. }
  exists m'. split; [done|]. clear E N0 F1 F2 Dl Hg Dg Hh. split_and!.
  - split; [by apply list.NoDup_cons|]. split; [split|].
    + rewrite X, decide_False, decide_False, decide_True; [done|done| |done]. by intros ->.
    + rewrite Pm, decide_False, decide_False, decide_True; [done|done| |]; intros ->; [by apply G2; left|by apply A2; left].
    + eapply (seg_end m); [done| | | |exact Hr1]; fold (before f k); fold e.
      * intros p Hp Hne. rewrite X, !decide_False; [done| |done|]; by intros ->.
      * apply list.NoDup_cons in Hfk as [Hf _].
        intros p Hp. rewrite Pm, !decide_False; [done| | |]; intros ->; [done|by apply G2; right|by apply A2; right].
      * split; [|by rewrite Pm, decide_False, decide_True by done]. rewrite X, decide_False, decide_True; [done|done|].
        by intros <-.
  - split; [by apply list.NoDup_cons|]. apply seg_rest. split.
    { split; [by rewrite X, decide_True|by rewrite Pm, decide_True]. }
    eapply (rest_frame m); [| |exact Hr].
    + intros p Hp. specialize (Hdis2 p Hp). rewrite X, !decide_False; [done| | |]; by intros ->.
    + intros p Hp Hne. destruct l2 as [|y l2]; [done|]. apply list.NoDup_cons in Hl2 as [Hy _].
      rewrite Pm, !decide_False; [done| | |]; intros ->;
        apply elem_of_app in Hp as [Hp|Hp%list_elem_of_singleton]; cbn in Hp.
      * apply (Hdis2 f); [by right|by left].
      * subst f. apply Q1. by left.
      * apply G3. by right.
      * by apply G1.
      * by apply Hy.
      * apply Q2. rewrite <- Hp. by left.
  - eapply only_weaken; [done|]. clear -A1 He. set_solver.
Qed.

(** ** Questions and loops *)

Lemma empty_run m h l : dlist m h l → list_empty h m = Some (bool_decide (l = []), m).
Proof.
  intros [Hnd Hs]. pose proof (seg_first _ _ _ _ Hs) as [N _]. unfold list_empty. frun (next_run m h _ N).
  destruct l as [|x l]; cbn [hd].
  - by rewrite Z.eqb_refl.
  - rewrite (proj2 (Z.eqb_neq _ _)); [done|]. intros ->. apply list.NoDup_cons in Hnd as [Hh _]. apply Hh. by left.
Qed.

Lemma singular_run m h l : dlist m h l → list_is_singular h m = Some (bool_decide (length l = 1%nat), m).
Proof.
  intros Hl. pose proof Hl as [Hnd Hs]. pose proof (seg_first _ _ _ _ Hs) as [N _]. pose proof (seg_last _ _ _ _ Hs) as [P _].
  unfold list_is_singular. frun (empty_run m h l Hl). frun (next_run m h _ N). frun (prev_run m h _ P).
  destruct l as [|x [|y l]]; cbn [hd]; [done|by cbn; rewrite Z.eqb_refl|].
  rewrite !last_cons. apply list.NoDup_cons in Hnd as [_ [Hx _]%list.NoDup_cons].
  rewrite (proj2 (Z.eqb_neq x _)); [done|]. intros Heq. apply Hx. rewrite Heq. destruct (list.last l) eqn:E; cbn; [|by left].
  right. by apply last_Some_elem_of.
Qed.

Lemma length_size m h l : dlist m h l → (length l < size m)%nat.
Proof.
  intros Hl. pose proof (dlist_dom _ _ _ Hl) as Hd. destruct Hl as [Hnd _].
  rewrite <- size_dom. change (length (h :: l) ≤ size (dom m))%nat. rewrite <- (size_list_to_set (C := gset Z)) by done.
  apply subseteq_size. intros p Hp%elem_of_list_to_set. by apply Hd.
Qed.

Lemma for_each_run {A} m (f : A → Z → A) h l : ∀ fuel a,
  rest m l h → h ∉ l → (length l < fuel)%nat → for_each_from fuel f (hd h l) h a m = Some (foldl f a l, m).
Proof.
  induction l as [|x l IH]; intros [|fuel] a Hr Hh Hf; cbn [length] in Hf; try lia; cbn [for_each_from hd].
  - by rewrite Z.eqb_refl.
  - rewrite (proj2 (Z.eqb_neq _ _)) by (intros ->; apply Hh; by left).
    pose proof (seg_first _ _ _ _ Hr) as [N _]. frun (next_run m x _ N). apply seg_rest in Hr as [_ Hr].
    apply IH; [done| |lia]. intros Hx. apply Hh. by right.
Qed.

(** The loop that may take out the nodes it visits: [f] takes out the first node. *)
Lemma for_each_safe_run (f : Z → M unit) h l : ∀ fuel m,
  (∀ m x k, dlist m h (x :: k) → ∃ m', f x m = Some (tt, m') ∧ dlist m' h k) →
  dlist m h l → (length l < fuel)%nat →
  ∃ m', for_each_safe_from fuel f (hd h l) (hd h (tail l)) h m = Some (tt, m') ∧ dlist m' h [].
Proof.
  induction l as [|x l IH]; intros [|fuel] m Hf Hl Hn; cbn [length] in Hn; try lia; cbn [for_each_safe_from hd tail].
  - rewrite Z.eqb_refl. by exists m.
  - rewrite (proj2 (Z.eqb_neq _ _)) by (intros ->; destruct Hl as [[Hx _]%list.NoDup_cons _]; apply Hx; by left).
    destruct (Hf m x l Hl) as (m1 & E1 & Hl1). frun E1. pose proof (proj2 Hl1) as Hs1.
    assert (nx m1 (hd h l) = Some (hd h (list.tail l))) as N.
    { destruct l as [|y l]; cbn [hd list.tail]; [by apply (seg_first _ _ _ _ Hs1)|].
      destruct Hs1 as [_ Hs1]. by apply (seg_first _ _ _ _ Hs1). }
    frun (next_run m1 _ _ N). apply IH; [done|done|lia].
Qed.

(** ** Properties *)

(** C22: The operations of a list do to the sequence of its nodes what they are named after, without an
    invalid access: adding at the front and at the end, taking out, replacing, the tests, and the loop.
    Nodes outside the list do not change. *)
Theorem list_ops_refine m h l :
  dlist m h l →
  (∀ new, new ∈ dom m → new ∉ h :: l →
     (∃ m', list_add new h m = Some (tt, m') ∧ dlist m' h (new :: l) ∧ only m m' (new :: h :: l)) ∧
     ∃ m', list_add_tail new h m = Some (tt, m') ∧ dlist m' h (l ++ [new]) ∧ only m m' (new :: h :: l)) ∧
  (∀ l1 p l2, l = l1 ++ p :: l2 →
     (∃ m', list_del p m = Some (tt, m') ∧ dlist m' h (l1 ++ l2) ∧ only m m' (h :: l1 ++ l2)) ∧
     ∀ new, new ∈ dom m → new ∉ h :: l →
       ∃ m', list_replace p new m = Some (tt, m') ∧ dlist m' h (l1 ++ new :: l2) ∧ only m m' (new :: h :: l1 ++ l2)) ∧
  list_empty h m = Some (bool_decide (l = []), m) ∧
  list_is_singular h m = Some (bool_decide (length l = 1%nat), m) ∧
  ∀ A (f : A → Z → A) a, list_for_each f h a m = Some (foldl f a l, m).
Proof.
  intros Hl. split_and!; [| |by apply empty_run|by apply singular_run|].
  - intros new Hd Hnew. split; [by apply list_add_ok|by apply list_add_tail_ok].
  - intros l1 p l2 ->. split; [by apply remove_ok|]. intros new Hd Hnew. by apply replace_ok.
  - intros A f a. pose proof Hl as [Hnd Hs]. pose proof (seg_first _ _ _ _ Hs) as [N _]. unfold list_for_each.
    frun (next_run m h _ N). rewrite (fbind_run (gets _) _ m _ _ eq_refl). apply seg_rest in Hs as [_ Hr].
    apply list.NoDup_cons in Hnd as [Hh _]. apply for_each_run; [done|done|].
    pose proof (length_size _ _ _ Hl). lia.
Qed.

Lemma move_ok m h l g k1 p k2 (add : Z → Z → M unit) l' :
  (∀ m, dlist m h l → p ∉ h :: l → p ∈ dom m →
     ∃ m', add p h m = Some (tt, m') ∧ dlist m' h l' ∧ only m m' (p :: h :: l)) →
  dlist m h l → dlist m g (k1 ++ p :: k2) → (∀ q, q ∈ h :: l → q ∉ g :: k1 ++ p :: k2) →
  ∃ m', (list_del p;; add p h) m = Some (tt, m') ∧ dlist m' h l' ∧ dlist m' g (k1 ++ k2).
Proof.
  intros Hadd Hl Hg Hdis. destruct (remove_ok m g k1 p k2 Hg) as (m1 & E1 & Hg1 & O1). frun E1.
  assert (p ∈ k1 ++ p :: k2) as Hp by set_solver.
  assert (p ∉ g :: k1 ++ k2) as Hpg.
  { destruct Hg as [[Hh (_ & Hd & [Hn _]%list.NoDup_cons)%list.NoDup_app]%list.NoDup_cons _]. clear -Hh Hd Hn. set_solver. }
  destruct (Hadd m1) as (m2 & E2 & Hl2 & O2).
  - eapply dlist_frame; [exact O1| |done]. intros q Hq. specialize (Hdis q Hq). clear -Hdis. set_solver.
  - intros Hq. apply (Hdis p Hq). by right.
  - rewrite (only_dom _ _ _ _ O1). eapply dlist_dom; [exact Hg|]. by right.
  - exists m2. split_and!; [done|done|]. eapply dlist_frame; [exact O2| |done]. intros q Hq [->|Hh]%elem_of_cons; [done|].
    apply (Hdis q Hh). clear -Hq. set_solver.
Qed.

Lemma splice_init_ok m h l1 l2 g f k :
  dlist m h (l1 ++ l2) → dlist m g (f :: k) → (∀ p, p ∈ h :: l1 ++ l2 → p ∉ g :: f :: k) →
  ∃ m', (__list_splice g (before h l1) (after h l2);; INIT_LIST_HEAD g) m = Some (tt, m') ∧
    dlist m' h (l1 ++ (f :: k) ++ l2) ∧ dlist m' g [].
Proof.
  intros Hl Hg Hdis. destruct (splice_ok m h l1 l2 g f k Hl Hg Hdis) as (m1 & E1 & Hl1 & O1). frun E1.
  destruct (init_ok m1 g) as (m2 & E2 & Hg2 & O2).
  { rewrite (only_dom _ _ _ _ O1). eapply dlist_dom; [exact Hg|]. by left. }
  exists m2. split_and!; [done| |done]. eapply dlist_frame; [exact O2| |done]. intros p Hp ->%list_elem_of_singleton.
  assert (g ∉ h :: l1 ++ l2) as Hn by (intros Hin; apply (Hdis g Hin); by left).
  destruct Hg as [[Hn' _]%list.NoDup_cons _]. clear -Hp Hn Hn'. set_solver.
Qed.

Lemma cut_position_ok m h l1 e l2 g :
  dlist m h (l1 ++ e :: l2) → g ∈ dom m → g ∉ h :: l1 ++ e :: l2 →
  ∃ m', list_cut_position g h e m = Some (tt, m') ∧ dlist m' g (l1 ++ [e]) ∧ dlist m' h l2.
Proof.
  intros Hl Dg Hg. unfold list_cut_position. frun (empty_run m h _ Hl).
  rewrite bool_decide_eq_false_2 by (by destruct l1). frun (singular_run m h _ Hl).
  pose proof (seg_first _ _ _ _ (proj2 Hl)) as [N _]. frun (next_run m h _ N).
  assert (bool_decide (length (l1 ++ e :: l2) = 1%nat) && (hd h (l1 ++ e :: l2) !=? e) = false) as ->.
  { destruct l1 as [|x l1]; cbn [app hd]; [by rewrite Z.eqb_refl, andb_false_r|].
    rewrite bool_decide_eq_false_2; [done|]. rewrite length_cons, length_app, length_cons. lia. }
  cbn [andb]. rewrite (proj2 (Z.eqb_neq e h)).
  2: { intros ->. destruct Hl as [[Hh _]%list.NoDup_cons _]. apply Hh. set_solver. }
  assert (∃ f k, l1 ++ [e] = f :: k ∧ before f k = e) as (f & k & Ek & Hlast).
  { destruct l1 as [|f k]; [by exists e, []|]. exists f, (k ++ [e]). split; [done|]. apply before_app. }
  assert (l1 ++ e :: l2 = (f :: k) ++ l2) as El by (rewrite <- Ek; by rewrite <- app_assoc).
  rewrite El in Hl, Hg. destruct (cut_ok m h f k l2 g Hl Hg Dg) as (m' & E & Hg' & Hl' & _).
  rewrite Hlast in E. exists m'. by rewrite Ek.
Qed.

(** Lists are moved, joined and cut as sequences: a node moved from one list to the front or the end of another,
    a list put before or behind the nodes of another, which leaves an empty list if it is
    initialised again, and the first nodes of a list cut off. *)
Theorem list_join_cut m h l g k :
  dlist m h l → dlist m g k → (∀ p, p ∈ h :: l → p ∉ g :: k) →
  (∀ k1 p k2, k = k1 ++ p :: k2 →
     (∃ m', list_move p h m = Some (tt, m') ∧ dlist m' h (p :: l) ∧ dlist m' g (k1 ++ k2)) ∧
     ∃ m', list_move_tail p h m = Some (tt, m') ∧ dlist m' h (l ++ [p]) ∧ dlist m' g (k1 ++ k2)) ∧
  (∃ m', list_splice_init g h m = Some (tt, m') ∧ dlist m' h (k ++ l) ∧ dlist m' g []) ∧
  (∃ m', list_splice_tail_init g h m = Some (tt, m') ∧ dlist m' h (l ++ k) ∧ dlist m' g []) ∧
  (∀ l1 e l2, l = l1 ++ e :: l2 → k = [] →
     ∃ m', list_cut_position g h e m = Some (tt, m') ∧ dlist m' g (l1 ++ [e]) ∧ dlist m' h l2).
Proof.
  intros Hl Hg Hdis. split_and!.
  - intros k1 p k2 ->. split; eapply (move_ok m h l); try done; intros m1 ? ? ?; [by apply list_add_ok|by apply list_add_tail_ok].
  - unfold list_splice_init. frun (empty_run m g k Hg). destruct k as [|f k]; [by exists m|].
    rewrite bool_decide_eq_false_2 by done. pose proof (seg_first _ _ _ _ (proj2 Hl)) as [N _].
    destruct (splice_init_ok m h [] l g f k Hl Hg Hdis) as (m' & E & Hm). exists m'. split; [|done].
    rewrite <- E. unfold mbind, fsM_bind. by rewrite (next_run m h _ N).
  - unfold list_splice_tail_init. frun (empty_run m g k Hg). destruct k as [|f k]; [exists m; by rewrite app_nil_r|].
    rewrite bool_decide_eq_false_2 by done. pose proof (seg_last _ _ _ _ (proj2 Hl)) as [N _].
    destruct (splice_init_ok m h l [] g f k) as (m' & E & Hm); [by rewrite app_nil_r|done|by rewrite app_nil_r|].
    rewrite app_nil_r in Hm. exists m'. split; [|done].
    rewrite <- E. unfold mbind, fsM_bind. by rewrite (prev_run m h _ N).
  - intros l1 e l2 -> ->. apply cut_position_ok; [done| |].
    + eapply dlist_dom; [exact Hg|]. by left.
    + intros Hin. apply (Hdis g Hin). by left.
Qed.

(** The safe loop visits every node of a list although its body takes the nodes out, as the loops
    that delete all entries of a table do, and ends with the empty list. *)
Theorem list_for_each_safe_spec m h l f :
  dlist m h l → (∀ m x k, dlist m h (x :: k) → ∃ m', f x m = Some (tt, m') ∧ dlist m' h k) →
  ∃ m', list_for_each_safe f h m = Some (tt, m') ∧ dlist m' h [].
Proof.
  intros Hl Hf. pose proof Hl as [Hnd Hs]. pose proof (seg_first _ _ _ _ Hs) as [N _]. unfold list_for_each_safe.
  frun (next_run m h _ N).
  assert (nx m (hd h l) = Some (hd h (list.tail l))) as N'.
  { destruct l as [|y l]; [done|]. destruct Hs as [_ Hs]. by apply (seg_first _ _ _ _ Hs). }
  frun (next_run m _ _ N'). rewrite (fbind_run (gets _) _ m _ _ eq_refl).
  apply for_each_safe_run; [done|done|]. pose proof (length_size _ _ _ Hl). lia.
Qed.

(** ** Witnesses

    The lists at 1 and 5, with the nodes 2 and 3, and 6; the node 9 is in no list. *)

Definition demo_lmem : lmem :=
  list_to_map [(1, mk_head 2 3); (2, mk_head 3 1); (3, mk_head 1 2); (5, mk_head 6 6); (6, mk_head 5 5); (9, mk_head 0 0)].

Lemma demo_dlist1 : dlist demo_lmem 1 [2; 3].
Proof. split; [by apply (bool_decide_unpack _)|]. repeat split. Qed.

Lemma demo_dlist5 : dlist demo_lmem 5 [6].
Proof. split; [by apply (bool_decide_unpack _)|]. repeat split. Qed.

Lemma list_ops_refine_witness :
  (∃ m', list_add_tail 9 1 demo_lmem = Some (tt, m') ∧ dlist m' 1 [2; 3; 9]) ∧
  (∃ m', list_del 2 demo_lmem = Some (tt, m') ∧ dlist m' 1 [3]) ∧
  list_for_each (λ a p, a + p) 1 0 demo_lmem = Some (5, demo_lmem).
Proof.
  destruct (list_ops_refine demo_lmem 1 [2; 3] demo_dlist1) as (Ha & Hd & _ & _ & Hf). split_and!.
  - destruct (Ha 9) as (_ & m' & E & Hm & _); [by apply (bool_decide_unpack _)|by apply (bool_decide_unpack _)|]. by exists m'.
  - destruct (Hd [] 2 [3] eq_refl) as ((m' & E & Hm & _) & _). by exists m'.
  - apply Hf.
Defined.

Lemma list_join_cut_witness :
  ∃ m', list_splice_tail_init 5 1 demo_lmem = Some (tt, m') ∧ dlist m' 1 [2; 3; 6] ∧ dlist m' 5 [].
Proof.
  destruct (list_join_cut demo_lmem 1 [2; 3] 5 [6] demo_dlist1 demo_dlist5) as (_ & _ & Hs & _); [|exact Hs].
  intros p Hp. repeat (apply elem_of_cons in Hp as [->|Hp]; [by apply (bool_decide_unpack _)|]). by apply elem_of_nil in Hp.
Defined.

Lemma list_for_each_safe_spec_witness : ∃ m', list_for_each_safe list_del 1 demo_lmem = Some (tt, m') ∧ dlist m' 1 [].
Proof.
  apply (list_for_each_safe_spec demo_lmem 1 [2; 3] list_del demo_dlist1).
  intros m x k Hm. destruct (remove_ok m 1 [] x k Hm) as (m' & E & Hm' & _). by exists m'.
Defined.
