(* ===== verification/PoolIface.v ===== *)
(** * The memory pools as their clients use them

    [BlockPool] has the functions of src/src/lib/mem_main.c that the hash tables and the
    forwarding database call, and the notions their contract is stated with;
    [BlockPoolLaws] is the contract: a block is handed out to one client at a time. *)

From S2P Require Import Prelude Fault.

(** The arguments of [mem_pool_create], and what its three calls of [calloc] return. *)
Record request := mk_request { rq_mcb : bool; rq_mem : Z; rq_tbl : bool; rq_size : Z; rq_n : Z }.

Class BlockPool (P : Type) := {
  bp_create : request → fsM P Z;
  bp_delete : Z → fsM P Z;
  bp_alloc : Z → fsM P Z;
  bp_free : Z → Z → fsM P Z;
  bp_inv : P → Prop;
  (** the pools there are *)
  bp_has : P → Z → Prop;
  (** the blocks of a pool that are in use, and the number of the others *)
  bp_used : P → Z → Z → Prop;
  bp_room : P → Z → Z;
  (** the requests a pool can be created for *)
  bp_good : P → request → Prop
}.

(** [s'] is [s] with the block [a] of the pool [id] taken. *)
Definition taken {P} `{BlockPool P} (s s' : P) (id a : Z) : Prop :=
  a ≠ 0 ∧ ¬ bp_used s id a ∧
  (∀ i b, bp_used s' i b ↔ bp_used s i b ∨ i = id ∧ b = a) ∧
  (∀ i, bp_has s' i ↔ bp_has s i) ∧
  (∀ i, bp_room s' i = bp_room s i - if i =? id then 1 else 0).

(** [s'] is [s] with a pool [id] of [n] blocks added. *)
Definition created {P} `{BlockPool P} (s s' : P) (id n : Z) : Prop :=
  0 ≤ id ∧ ¬ bp_has s id ∧ (∀ i, bp_has s' i ↔ bp_has s i ∨ i = id) ∧
  (∀ i a, bp_used s' i a ↔ bp_used s i a) ∧
  (∀ i, bp_room s' i = if i =? id then n else bp_room s i).

Class BlockPoolLaws (P : Type) `{BlockPool P} : Prop := {
  bp_used_has s id a : bp_used s id a → bp_has s id;
  bp_used_inj s i j a : bp_inv s → bp_used s i a → bp_used s j a → i = j;
  bp_create_law s rq : bp_inv s → bp_good s rq →
    ∃ r s', bp_create rq s = Some (r, s') ∧ bp_inv s' ∧
      ((r = -1 ∧ (∀ i, bp_has s' i ↔ bp_has s i) ∧ (∀ i a, bp_used s' i a ↔ bp_used s i a) ∧
          ∀ i, bp_room s' i = bp_room s i) ∨
       created s s' r (rq_n rq));
  bp_alloc_law s id : bp_inv s → bp_has s id →
    (bp_room s id = 0 ∧ bp_alloc id s = Some (0, s)) ∨
    (0 < bp_room s id ∧ ∃ a s', bp_alloc id s = Some (a, s') ∧ bp_inv s' ∧ taken s s' id a);
  bp_free_law s id a : bp_inv s → bp_used s id a →
    ∃ s', bp_free id a s = Some (0, s') ∧ bp_inv s' ∧ taken s' s id a
}.
