(* ===== verification/Pool.v ===== *)
(** * Memory pools: src/src/lib/mem_main.c

    A pool is an area of memory divided into blocks of one size, with a table that has the
    address of each free block and NULL for the others.  The control blocks of the
    pools are in the list [hd_mcb].  What [calloc] returns is an argument of the
    functions that call it. *)

From S2P Require Import Prelude Fault PoolIface.

(** ** Data *)

(** [struct mem_info].  [gone] records that the control block has been freed; the
    list still has it then. *)
Record mem_info := mk_mem_info {
  saddr : Z;
  eaddr : Z;
  addr_blks : option (list Z);
  memid : Z;
  nblks : Z;
  useblks : Z;
  fblks : Z;
  size : Z;
  gone : bool
}.

Definition eta_mem_info (m : mem_info) : mem_info :=
  mk_mem_info (saddr m) (eaddr m) (addr_blks m) (memid m) (nblks m) (useblks m) (fblks m)
    (size m) (gone m).

#[export] Instance set_saddr : Settable saddr := ltac:(mk_setter eta_mem_info).
#[export] Instance set_eaddr : Settable eaddr := ltac:(mk_setter eta_mem_info).
#[export] Instance set_addr_blks : Settable addr_blks := ltac:(mk_setter eta_mem_info).
#[export] Instance set_memid : Settable memid := ltac:(mk_setter eta_mem_info).
#[export] Instance set_nblks : Settable nblks := ltac:(mk_setter eta_mem_info).
#[export] Instance set_useblks : Settable useblks := ltac:(mk_setter eta_mem_info).
#[export] Instance set_fblks : Settable fblks := ltac:(mk_setter eta_mem_info).
#[export] Instance set_size : Settable size := ltac:(mk_setter eta_mem_info).
#[export] Instance set_gone : Settable gone := ltac:(mk_setter eta_mem_info).

(** The list [hd_mcb] and the static counter of [get_next_free_mcb]. *)
Record pools := mk_pools { hd_mcb : list mem_info; mcb_i : Z }.

Definition MACHINE_ALIGNEMENT := 8.
Definition MEM_ALIGNED (bytes : Z) : Z := bytes mod MACHINE_ALIGNEMENT.

Definition in_range (start stop size value : Z) : bool :=
  (start <=? value) && (u64 (value + size) <=? stop).

Definition COMPUTE_ADDR_BLOCK (saddr cnt size : Z) : Z := saddr + s32 (cnt * size).

(** ** Operations *)

Definition mem_init : fsM pools Z :=
  modify (λ s, mk_pools [] (mcb_i s));;
  mret 0.

(** A control block fresh from [calloc], if there is memory for it. *)
Definition get_next_free_mcb (mem : bool) : fsM pools (option (mem_info * Z)) :=
  if mem then
    modify (λ s, mk_pools (hd_mcb s) (s32 (mcb_i s + 1)));;
    i ← gets mcb_i;
    mret (Some (mk_mem_info 0 0 None 0 0 0 0 0 false, i))
  else mret None.

Definition build_free_mem_blk_list (mem : bool) (m : mem_info) : mem_info :=
  if mem then
    m <| addr_blks := Some ((λ i, COMPUTE_ADDR_BLOCK (saddr m) i (size m)) <$> seqZ 0 (nblks m)) |>
  else m.

(** [list_add_tail] writes to the last control block of the list. *)
Definition add_to_mcb (m : mem_info) : fsM pools Z :=
  l ← gets hd_mcb;
  (if from_option gone false (list.last l) then fault else mret tt);;
  modify (λ s, mk_pools (hd_mcb s ++ [m]) (mcb_i s));;
  mret 0.

(** [mem_mcb], [mem] and [mem_tbl] are the results of the three allocations. *)
Definition mem_pool_create (mem_mcb : bool) (mem : Z) (mem_tbl : bool) (sz n_blks : Z) :
    fsM pools Z :=
  let bytes := u32 (sz * n_blks) in
  let align := MEM_ALIGNED bytes in
  let bytes :=
    if tst align then u32 (bytes + (align + (MACHINE_ALIGNEMENT - align))) else bytes in
  mcb ← get_next_free_mcb mem_mcb;
  match mcb with
  | None => mret (-1)
  | Some (mcb, id) =>
      let mcb := mcb <| size := s32 sz |> <| fblks := n_blks |> <| useblks := 0 |>
                     <| nblks := n_blks |> <| memid := id |> <| saddr := mem |> in
      if mem =? 0 then mret (-1)
      else
        let mcb := mcb <| eaddr := saddr mcb + bytes |> in
        let mcb := build_free_mem_blk_list mem_tbl mcb in
        add_to_mcb mcb;;
        mret (memid mcb)
  end.

(** The position of a pool in the list; a control block that has been freed must not be read. *)
Fixpoint find_mcb (l : list mem_info) (id : Z) : option (option nat) :=
  match l with
  | [] => Some None
  | m :: l =>
      if gone m then None
      else if memid m =? id then Some (Some 0%nat)
      else option_map (option_map S) (find_mcb l id)
  end.

Definition get_mem_info (id : Z) : fsM pools (option nat) := λ s,
  match find_mcb (hd_mcb s) id with Some r => Some (r, s) | None => None end.

Definition get_mcb (k : nat) : fsM pools mem_info := λ s,
  match hd_mcb s !! k with Some m => Some (m, s) | None => None end.

Definition set_mcb (k : nat) (m : mem_info) : fsM pools unit :=
  modify (λ s, mk_pools (<[k := m]> (hd_mcb s)) (mcb_i s)).

Definition mem_pool_delete (pool_id : Z) : fsM pools Z :=
  p ← get_mem_info pool_id;
  match p with
  | None => mret (-1)
  | Some k =>
      m ← get_mcb k;
      set_mcb k (m <| gone := true |>);;
      mret 0
  end.

(** The loop of [alloc_block] from the index [i] on, [n] being what is left of the
    table: the index of the first free block. *)
Fixpoint find_blk (blks : list Z) (n i : nat) : option (option nat) :=
  match n with
  | O => Some None
  | S n =>
      a ← blks !! i;
      if a =? 0 then find_blk blks n (S i) else Some (Some i)
  end.

Definition alloc_block (id : Z) : fsM pools Z :=
  p ← get_mem_info id;
  match p with
  | None => fault
  | Some k =>
      m ← get_mcb k;
      if fblks m =? 0 then mret 0
      else if nblks m <=? 0 then mret 0
      else
        blks ← of_option (addr_blks m);
        r ← of_option (find_blk blks (Z.to_nat (nblks m)) 0);
        match r with
        | None => mret 0
        | Some i =>
            retaddr ← of_option (blks !! i);
            set_mcb k (m <| addr_blks := Some (<[i := 0]> blks) |>
                         <| fblks := fblks m - 1 |> <| useblks := useblks m + 1 |>);;
            mret retaddr
        end
  end.

Definition free_blk (id addr : Z) : fsM pools Z :=
  p ← get_mem_info id;
  match p with
  | None => mret (-1)
  | Some k =>
      m ← get_mcb k;
      if negb (in_range (saddr m) (eaddr m) (size m) addr) then mret (-1)
      else
        let offset := s32 (addr - saddr m) in
        (if size m =? 0 then fault else mret tt);;
        if tst (Z.rem offset (size m)) then mret (-1)
        else
          let idx := Z.quot offset (size m) in
          blks ← of_option (addr_blks m);
          a ← of_option (arr blks idx);
          if a =? 0 then
            set_mcb k (m <| addr_blks := Some (<[Z.to_nat idx := addr]> blks) |>
                         <| fblks := fblks m + 1 |> <| useblks := useblks m - 1 |>);;
            mret 0
          else mret (-1)
  end.

(** ** The invariant *)

Definition blk (m : mem_info) (i : nat) : Z := saddr m + Z.of_nat i * size m.

(** The number of the free blocks of a table. *)
Definition nfree (l : list Z) : Z := Z.of_nat (length (filter (λ a, a ≠ 0) l)).

(** The table of a pool: an entry is NULL or has the address of its block. *)
Definition table_ok (m : mem_info) (l : list Z) : Prop :=
  Z.of_nat (length l) = nblks m ∧
  (∀ i a, l !! i = Some a → a = 0 ∨ a = blk m i) ∧
  fblks m = nfree l ∧ useblks m = nblks m - nfree l.

(** The area has room for the blocks of the table and for no further one. *)
Definition area_ok (m : mem_info) : Prop :=
  gone m = false ∧ 0 < size m < 2 ^ 31 ∧ 0 < saddr m ∧ 0 ≤ nblks m ∧ nblks m * size m < 2 ^ 31 ∧
  saddr m + nblks m * size m < 2 ^ 64 ∧
  saddr m + nblks m * size m ≤ eaddr m < saddr m + (nblks m + 1) * size m.

Definition pool_ok (m : mem_info) : Prop :=
  area_ok m ∧ ∃ l, addr_blks m = Some l ∧ table_ok m l.

(** The block at [a] is in use. *)
Definition used (m : mem_info) (a : Z) : Prop :=
  ∃ l i, addr_blks m = Some l ∧ l !! i = Some 0 ∧ a = blk m i.

Definition apart (m m' : mem_info) : Prop := eaddr m ≤ saddr m' ∨ eaddr m' ≤ saddr m.

Definition pools_ok (s : pools) : Prop :=
  (∀ k m, hd_mcb s !! k = Some m → pool_ok m ∧ memid m ≤ mcb_i s) ∧
  (∀ j k m m', hd_mcb s !! j = Some m → hd_mcb s !! k = Some m' → j ≠ k →
     memid m ≠ memid m' ∧ apart m m').

(** An address of a process. *)
Definition address (a : Z) : Prop := 0 ≤ a < 2 ^ 47.

(** What [calloc] promises for the area of a pool: an address, or NULL; and the area
    does not overlap those of the other pools. *)
Definition fresh_area (s : pools) (mem bytes : Z) : Prop :=
  mem = 0 ∨ 0 < mem ∧ address (mem + bytes) ∧
    ∀ k m, hd_mcb s !! k = Some m → mem + bytes ≤ saddr m ∨ eaddr m ≤ mem.

(** The bytes of a pool: its blocks, and eight more when they do not fill up machine words. *)
Definition pool_bytes (sz n : Z) : Z := sz * n + if sz * n mod 8 =? 0 then 0 else 8.

(** The sizes for which a pool works: they fit an [int], and the padding has no room for
    a block. *)
Definition good_size (sz n : Z) : Prop :=
  0 < sz ∧ 0 ≤ n ∧ sz * n + 8 < 2 ^ 31 ∧ (8 < sz ∨ sz * n mod 8 = 0) ∧ sz < 2 ^ 31.

(** The free blocks of the pools with an identifier. *)
Fixpoint room (l : list mem_info) (id : Z) : Z :=
  match l with
  | [] => 0
  | m :: l => (if memid m =? id then fblks m else 0) + room l id
  end.

#[export] Instance pools_block_pool : BlockPool pools := {
  bp_create rq := mem_pool_create (rq_mcb rq) (rq_mem rq) (rq_tbl rq) (rq_size rq) (rq_n rq);
  bp_delete := mem_pool_delete;
  bp_alloc := alloc_block;
  bp_free := free_blk;
  bp_inv := pools_ok;
  bp_has s id := ∃ k m, hd_mcb s !! k = Some m ∧ memid m = id;
  bp_used s id a := ∃ k m, hd_mcb s !! k = Some m ∧ memid m = id ∧ used m a;
  bp_room s id := room (hd_mcb s) id;
  bp_good s rq :=
    good_size (rq_size rq) (rq_n rq) ∧ rq_tbl rq = true ∧ 0 ≤ mcb_i s ∧ mcb_i s + 1 < 2 ^ 31 ∧
    fresh_area s (rq_mem rq) (pool_bytes (rq_size rq) (rq_n rq))
}.

(** ** Lemmas *)

Lemma find_mcb_some l k m :
  (∀ j x, l !! j = Some x → gone x = false) → l !! k = Some m →
  (∀ j x, l !! j = Some x → memid x = memid m → j = k) → find_mcb l (memid m) = Some (Some k).
Proof.
  revert k. induction l as [|x l IH]; intros k Hg Hk Hu; [done|]. cbn.
  rewrite (Hg 0%nat x) by done. destruct (Z.eqb_spec (memid x) (memid m)) as [He|Hne].
  - f_equal. f_equal. by eapply (Hu 0%nat).
  - destruct k as [|k]; [by injection Hk as ->|]. rewrite (IH k); [done| |done|].
    + intros j y Hj. by apply (Hg (S j)).
    + intros j y Hj Hy. specialize (Hu (S j) y Hj Hy). lia.
Qed.

Lemma find_mcb_none l id :
  (∀ j x, l !! j = Some x → gone x = false ∧ memid x ≠ id) → find_mcb l id = Some None.
Proof.
  induction l as [|x l IH]; intros Hg; [done|]. cbn.
  destruct (Hg 0%nat x) as [-> Hne]; [done|]. rewrite (proj2 (Z.eqb_neq _ _)) by done.
  rewrite IH; [done|]. intros j y Hj. by apply (Hg (S j)).
Qed.

Lemma room_set l k m m' id :
  l !! k = Some m → memid m' = memid m →
  room (<[k := m']> l) id = room l id + if memid m =? id then fblks m' - fblks m else 0.
Proof.
  intros Hk He. revert k Hk. induction l as [|x l IH]; intros [|k] Hk; [done..| |].
  - injection Hk as ->. cbn. rewrite He. destruct (memid m =? id); lia.
  - change (room (x :: <[k := m']> l) id = room (x :: l) id + if memid m =? id then fblks m' - fblks m else 0).
    cbn [room]. rewrite (IH k Hk). lia.
Qed.

Lemma room_none l id : (∀ j x, l !! j = Some x → memid x ≠ id) → room l id = 0.
Proof.
  induction l as [|x l IH]; intros Hn; [done|]. cbn.
  rewrite (proj2 (Z.eqb_neq _ _)) by by apply (Hn 0%nat). rewrite IH; [done|].
  intros j y. apply (Hn (S j)).
Qed.

Lemma room_some l k m :
  l !! k = Some m → (∀ j x, l !! j = Some x → memid x = memid m → j = k) → room l (memid m) = fblks m.
Proof.
  revert k. induction l as [|x l IH]; intros k Hk Hu; [done|]. cbn. destruct k as [|k].
  - injection Hk as ->. rewrite Z.eqb_refl, room_none; [lia|]. intros j y Hj He.
    by specialize (Hu (S j) y Hj He).
  - rewrite (proj2 (Z.eqb_neq _ _)) by (intros He; by specialize (Hu 0%nat x eq_refl He)).
    rewrite (IH k Hk); [lia|]. intros j y Hj He. specialize (Hu (S j) y Hj He). lia.
Qed.

Lemma lookup_set (l : list mem_info) k m' j x :
  <[k := m']> l !! j = Some x → (j = k ∧ x = m') ∨ (j ≠ k ∧ l !! j = Some x).
Proof. rewrite list_lookup_insert_Some. intros [(<- & -> & _)|[? ?]]; [by left|by right]. Qed.

Section Found.
Context (s : pools) (Hs : pools_ok s).

Lemma pools_live j x : hd_mcb s !! j = Some x → gone x = false.
Proof. intros Hj. by destruct (proj1 Hs j x Hj) as [[[? _] _] _]. Qed.

Lemma pools_unique j k m m' :
  hd_mcb s !! j = Some m → hd_mcb s !! k = Some m' → memid m = memid m' → j = k.
Proof.
  intros Hj Hk He. destruct (decide (j = k)) as [|Hne]; [done|].
  by destruct (proj2 Hs j k m m' Hj Hk Hne).
Qed.

Lemma run_find k m : hd_mcb s !! k = Some m → find_mcb (hd_mcb s) (memid m) = Some (Some k).
Proof.
  intros Hk. apply find_mcb_some; [apply pools_live|done|]. intros j x Hj He. by eapply pools_unique.
Qed.

Lemma run_get_info k m : hd_mcb s !! k = Some m → get_mem_info (memid m) s = Some (Some k, s).
Proof. intros Hk. unfold get_mem_info. by rewrite (run_find k). Qed.

Lemma run_get_mcb k m : hd_mcb s !! k = Some m → get_mcb k s = Some (m, s).
Proof. intros Hk. unfold get_mcb. by rewrite Hk. Qed.

Lemma room_at k m : hd_mcb s !! k = Some m → bp_room s (memid m) = fblks m.
Proof. intros Hk. apply (room_some _ k); [done|]. intros j x Hj He. by eapply pools_unique. Qed.

(** Replacing the control block of a pool by one of the same pool. *)
Context (k : nat) (m m' : mem_info) (Hk : hd_mcb s !! k = Some m).
Context (Hid : memid m' = memid m) (Hsa : saddr m' = saddr m) (Hea : eaddr m' = eaddr m).
Context (Hok : pool_ok m').

Lemma set_ok : pools_ok (mk_pools (<[k := m']> (hd_mcb s)) (mcb_i s)).
Proof.
  destruct Hs as [H1 H2]. split; cbn.
  - intros j x [[-> ->]|[_ Hj]]%lookup_set; [|by apply (H1 j)]. split; [done|].
    rewrite Hid. by apply (H1 k).
  - unfold apart. intros i j x y [[-> ->]|[Hi Hx]]%lookup_set [[-> ->]|[Hj Hy]]%lookup_set Hne; [done|..].
    + rewrite Hid, Hsa, Hea. by apply (H2 k j).
    + rewrite Hid, Hsa, Hea. by apply (H2 i k).
    + by apply (H2 i j).
Qed.

Lemma set_has i :
  bp_has (mk_pools (<[k := m']> (hd_mcb s)) (mcb_i s)) i ↔ bp_has s i.
Proof.
  cbn. split.
  - intros (j & x & [[-> ->]|[_ Hj]]%lookup_set & He); [|by eauto]. exists k, m. by rewrite <- Hid.
  - intros (j & x & Hj & He). destruct (decide (j = k)) as [->|Hne].
    + exists k, m'. rewrite list_lookup_insert_eq by by eapply lookup_lt_Some.
      simplify_eq. by rewrite Hid.
    + exists j, x. by rewrite list_lookup_insert_ne.
Qed.

Lemma set_used i b :
  (∀ b, used m' b ↔ used m b ∨ b = i) →
  ∀ id, bp_used (mk_pools (<[k := m']> (hd_mcb s)) (mcb_i s)) id b ↔
        bp_used s id b ∨ id = memid m ∧ b = i.
Proof.
  intros Hu id. cbn. split.
  - intros (j & x & [[-> ->]|[_ Hj]]%lookup_set & <- & Hx); [|by eauto 10].
    apply Hu in Hx as [Hx| ->]; [|by right]. left. exists k, m. by rewrite <- Hid.
  - assert (<[k := m']> (hd_mcb s) !! k = Some m') as Hl
      by (apply list_lookup_insert_eq; by eapply lookup_lt_Some).
    intros [(j & x & Hj & <- & Hx)|[-> ->]].
    + destruct (decide (j = k)) as [->|Hne].
      * simplify_eq. exists k, m'. split_and!; [done|done|]. apply Hu. by left.
      * exists j, x. by rewrite list_lookup_insert_ne.
    + exists k, m'. split_and!; [done|done|]. apply Hu. by right.
Qed.

Lemma set_taken a :
  (∀ b, used m' b ↔ used m b ∨ b = a) → ¬ used m a → a ≠ 0 → fblks m' = fblks m - 1 →
  taken s (mk_pools (<[k := m']> (hd_mcb s)) (mcb_i s)) (memid m) a.
Proof.
  intros Hu Hn Ha Hf. split_and!; [done| |by intros i b; apply set_used|apply set_has|].
  - intros (j & x & Hj & He & Hx). by rewrite (pools_unique j k x m Hj Hk He), Hk in Hj; simplify_eq.
  - intros i. cbn. rewrite (room_set _ k m m'), (Z.eqb_sym i) by done. destruct (memid m =? i); lia.
Qed.

End Found.

(** ** The table of a pool *)

Lemma nfree_app l1 l2 : nfree (l1 ++ l2) = nfree l1 + nfree l2.
Proof. unfold nfree. rewrite list.filter_app, length_app. lia. Qed.

Lemma nfree_one a : nfree [a] = if a =? 0 then 0 else 1.
Proof. unfold nfree. cbn. destruct (Z.eqb_spec a 0); case_decide; done. Qed.

Lemma nfree_cons a l : nfree (a :: l) = (if a =? 0 then 0 else 1) + nfree l.
Proof. rewrite <- nfree_one. apply (nfree_app [a] l). Qed.

Lemma nfree_insert l i a b :
  l !! i = Some a →
  nfree (<[i := b]> l) = nfree l - (if a =? 0 then 0 else 1) + (if b =? 0 then 0 else 1).
Proof.
  intros Hi. rewrite insert_take_drop by by eapply lookup_lt_Some.
  rewrite <- (take_drop_middle l i a Hi) at 3.
  rewrite !nfree_app, !nfree_cons. lia.
Qed.

Lemma nfree_zero l : nfree l = 0 → ∀ i a, l !! i = Some a → a = 0.
Proof.
  intros Hn i a Hi. pose proof (nfree_insert l i a 0 Hi) as He.
  assert (0 ≤ nfree (<[i := 0]> l)) by (unfold nfree; lia).
  destruct (Z.eqb_spec a 0); [done|]. cbn in He. lia.
Qed.

Lemma nfree_all_zero l : (∀ i a, l !! i = Some a → a = 0) → nfree l = 0.
Proof.
  induction l as [|x l IH]; intros Hz; [done|]. rewrite nfree_cons.
  rewrite (Hz 0%nat x) by done. rewrite IH; [done|]. intros i a. apply (Hz (S i)).
Qed.

Lemma find_blk_spec l n i :
  (n + i = length l)%nat →
  ∃ r, find_blk l n i = Some r ∧
    match r with
    | Some j => (i ≤ j)%nat ∧ (∃ a, l !! j = Some a ∧ a ≠ 0) ∧
                ∀ h, (i ≤ h < j)%nat → l !! h = Some 0
    | None => ∀ h a, (i ≤ h)%nat → l !! h = Some a → a = 0
    end.
Proof.
  revert i. induction n as [|n IH]; intros i Hl; cbn.
  - exists None. split; [done|]. intros h a Hh Ha. apply lookup_lt_Some in Ha. lia.
  - destruct (lookup_lt_is_Some_2 l i) as [a Ha]; [lia|]. rewrite Ha. cbn.
    destruct (Z.eqb_spec a 0) as [->|Hne].
    + destruct (IH (S i)) as (r & -> & Hr); [lia|]. exists r. split; [done|].
      destruct r as [j|].
      * destruct Hr as (Hj & Hx & Hb). split_and!; [lia|done|]. intros h Hh.
        destruct (decide (h = i)) as [->|]; [done|]. apply Hb. lia.
      * intros h b Hh Hb. destruct (decide (h = i)) as [->|]; [by simplify_eq|]. apply (Hr h); [lia|done].
    + exists (Some i). split_and!; [done|lia|by eauto|]. intros h Hh. lia.
Qed.

Lemma blk_inj m i j : 0 < size m → blk m i = blk m j → i = j.
Proof. unfold blk. intros. nia. Qed.

(** A pool that differs from [m] in one entry of the table and in the counters. *)
Section Entry.
Context (m m' : mem_info) (l : list Z) (i : nat) (a b : Z).
Context (Hm : area_ok m) (Hl : addr_blks m = Some l) (Ht : table_ok m l) (Hi : l !! i = Some a).
Context (Hm' : m' = m <| addr_blks := Some (<[i := b]> l) |> <| fblks := fblks m' |>
                      <| useblks := useblks m' |>).
Context (Hb : b = 0 ∨ b = blk m i).

Lemma entry_ok :
  fblks m' = nfree (<[i := b]> l) → useblks m' = nblks m - fblks m' → pool_ok m'.
Proof.
  intros Hf Hu. rewrite Hm'. split; [exact Hm|]. exists (<[i := b]> l). split; [done|].
  destruct Ht as (Hn & He & _). split_and!; cbn.
  - by rewrite length_insert.
  - intros j c [(<- & -> & _)|[_ Hj]]%list_lookup_insert_Some; [done|]. by apply He.
  - done.
  - lia.
Qed.

Lemma entry_used : a ≠ 0 → b = 0 → (∀ c, used m' c ↔ used m c ∨ c = blk m i) ∧ ¬ used m (blk m i).
Proof.
  intros Ha ->. split.
  - intros c. rewrite Hm'. split.
    + intros (l' & j & [= <-] & Hj & ->). change (blk _ j) with (blk m j).
      apply list_lookup_insert_Some in Hj as [(<- & _)|[_ Hj]]; [by right|]. left. by exists l, j.
    + intros [(l' & j & Hl' & Hj & ->)| ->]; exists (<[i := 0]> l).
      * exists j. split_and!; [done| |done]. rewrite Hl in Hl'. simplify_eq.
        rewrite list_lookup_insert_ne; [done|]. intros ->. by simplify_eq.
      * exists i. split_and!; [done| |done]. apply list_lookup_insert_eq. by eapply lookup_lt_Some.
  - intros (l' & j & Hl' & Hj & He). rewrite Hl in Hl'. simplify_eq.
    apply blk_inj in He as ->; [by simplify_eq|apply Hm].
Qed.

End Entry.

Lemma blk_range m i : area_ok m → Z.of_nat i < nblks m → saddr m ≤ blk m i ∧ blk m i + size m ≤ eaddr m.
Proof. unfold blk. intros (_ & ? & ? & ? & ? & ? & ?) Hi. nia. Qed.

Lemma blk_pos m i : area_ok m → blk m i ≠ 0.
Proof. unfold blk. intros (_ & ? & ? & _). nia. Qed.

(** ** Allocation *)

Definition take_blk (m : mem_info) (l : list Z) (i : nat) : mem_info :=
  m <| addr_blks := Some (<[i := 0]> l) |> <| fblks := fblks m - 1 |> <| useblks := useblks m + 1 |>.

Definition give_blk (m : mem_info) (l : list Z) (i : nat) : mem_info :=
  m <| addr_blks := Some (<[i := blk m i]> l) |> <| fblks := fblks m + 1 |> <| useblks := useblks m - 1 |>.

Definition put_mcb (k : nat) (m : mem_info) (s : pools) : pools :=
  mk_pools (<[k := m]> (hd_mcb s)) (mcb_i s).

(** The first free block is taken; without one the result is NULL. *)
Lemma alloc_run s k m l :
  pools_ok s → hd_mcb s !! k = Some m → addr_blks m = Some l → table_ok m l →
  (alloc_block (memid m) s = Some (0, s) ∧ fblks m = 0 ∧ (∀ i a, l !! i = Some a → a = 0)) ∨
  ∃ i, l !! i = Some (blk m i) ∧ (∀ j, (j < i)%nat → l !! j = Some 0) ∧
    alloc_block (memid m) s = Some (blk m i, put_mcb k (take_blk m l i) s).
Proof.
  intros Hs Hk Hl (Hn & He & Hf & Hu). unfold alloc_block.
  frun (run_get_info s Hs k m Hk).
  frun (run_get_mcb s k m Hk).
  destruct (Z.eqb_spec (fblks m) 0) as [H0|H0].
  { left. split_and!; [done|done|]. apply nfree_zero. by rewrite <- Hf. }
  destruct (Z.leb_spec (nblks m) 0) as [H1|H1].
  { exfalso. apply H0. rewrite Hf. destruct l; [done|cbn in Hn; lia]. }
  destruct (find_blk_spec l (Z.to_nat (nblks m)) 0) as (r & Er & Hr); [lia|].
  fopt Hl. fopt Er. destruct r as [i|].
  - destruct Hr as (_ & (a & Ha & Hne) & Hb). right. exists i.
    destruct (He i a Ha) as [|Hai]; [done|]. subst a. split_and!; [done|intros j Hj; apply Hb; lia|].
    by fopt Ha.
  - exfalso. apply H0. rewrite Hf. apply nfree_all_zero. intros i a. apply Hr. lia.
Qed.

Lemma take_ok s k m l i :
  pools_ok s → hd_mcb s !! k = Some m → addr_blks m = Some l → table_ok m l →
  l !! i = Some (blk m i) →
  pools_ok (put_mcb k (take_blk m l i) s) ∧ taken s (put_mcb k (take_blk m l i) s) (memid m) (blk m i).
Proof.
  intros Hs Hk Hl Ht Hi. destruct (proj1 Hs k m Hk) as [[Ha _] _].
  assert (blk m i ≠ 0) as Hp by by apply blk_pos.
  assert (pool_ok (take_blk m l i)) as Hok.
  { eapply (entry_ok m _ l i 0); [done|done|done|by left|..]; cbn.
    - rewrite (nfree_insert _ _ _ _ Hi), (proj2 (Z.eqb_neq _ _)) by done.
      destruct Ht as (_ & _ & -> & _). cbn. lia.
    - destruct Ht as (_ & _ & -> & ->). lia. }
  destruct (entry_used m (take_blk m l i) l i (blk m i) 0) as [H1 H2]; try done; [by left|].
  split; [by eapply set_ok|]. by eapply set_taken.
Qed.

(** ** Release *)

(** Freeing a block in use. *)
Lemma free_run s k m l i :
  pools_ok s → hd_mcb s !! k = Some m → addr_blks m = Some l → l !! i = Some 0 → table_ok m l →
  free_blk (memid m) (blk m i) s = Some (0, put_mcb k (give_blk m l i) s).
Proof.
  intros Hs Hk Hl Hi Ht. destruct (proj1 Hs k m Hk) as [[Ha _] _].
  assert (Z.of_nat i < nblks m) as Hn by (apply lookup_lt_Some in Hi; destruct Ht; lia).
  destruct (blk_range m i Ha Hn) as [Hr1 Hr2]. destruct Ha as (_ & H1 & H2 & H3 & H4 & H5 & H6).
  unfold free_blk. frun (run_get_info s Hs k m Hk).
  frun (run_get_mcb s k m Hk).
  assert (blk m i + size m ≤ saddr m + nblks m * size m) as Hr3 by (unfold blk; nia).
  unfold in_range. unfold u64. rewrite Z.mod_small by lia.
  rewrite (proj2 (Z.leb_le _ _) Hr1), (proj2 (Z.leb_le _ _) Hr2). cbn [andb negb].
  rewrite (proj2 (Z.eqb_neq (size m) 0)) by lia.
  assert (s32 (blk m i - saddr m) = Z.of_nat i * size m) as ->.
  { unfold blk, s32. rewrite Z.mod_small by nia. lia. }
  rewrite (fbind_run (mret tt) _ s tt s) by done.
  rewrite Z.rem_mul, Z.quot_mul by lia. cbn [tst negb Z.eqb]. fopt Hl.
  rewrite <- arr_nat in Hi. fopt Hi. by rewrite Nat2Z.id.
Qed.

Lemma put_put k m m' s : put_mcb k m (put_mcb k m' s) = put_mcb k m s.
Proof. unfold put_mcb. cbn. by rewrite list_insert_insert_eq. Qed.

Lemma put_id k m s : hd_mcb s !! k = Some m → put_mcb k m s = s.
Proof. intros Hk. unfold put_mcb. rewrite list_insert_id by done. by destruct s. Qed.

Lemma put_lookup k m m' s : hd_mcb s !! k = Some m → hd_mcb (put_mcb k m' s) !! k = Some m'.
Proof. intros Hk. cbn. apply list_lookup_insert_eq. by eapply lookup_lt_Some. Qed.

Lemma take_give m l i :
  addr_blks m = Some l → l !! i = Some 0 → take_blk (give_blk m l i) (<[i := blk m i]> l) i = m.
Proof.
  intros Hl Hi. unfold take_blk, give_blk. destruct m. cbn in *. subst.
  rewrite list_insert_insert_eq, list_insert_id by done. unfold set_fld, set_fblks, set_useblks, set_addr_blks; cbn.
  f_equal; lia.
Qed.

Lemma give_take m l i :
  addr_blks m = Some l → l !! i = Some (blk m i) → give_blk (take_blk m l i) (<[i := 0]> l) i = m.
Proof.
  intros Hl Hi. unfold take_blk, give_blk. destruct m. cbn in *. subst.
  rewrite list_insert_insert_eq, list_insert_id by done. unfold set_fld, set_fblks, set_useblks, set_addr_blks; cbn.
  f_equal; lia.
Qed.

Lemma give_ok s k m l i :
  pools_ok s → hd_mcb s !! k = Some m → addr_blks m = Some l → table_ok m l → l !! i = Some 0 →
  pools_ok (put_mcb k (give_blk m l i) s) ∧ taken (put_mcb k (give_blk m l i) s) s (memid m) (blk m i).
Proof.
  intros Hs Hk Hl Ht Hi. destruct (proj1 Hs k m Hk) as [[Ha _] _].
  assert (blk m i ≠ 0) as Hp by by apply blk_pos.
  assert (pool_ok (give_blk m l i)) as Hok.
  { eapply (entry_ok m _ l i (blk m i)); [done|done|done|by right|..]; cbn.
    - rewrite (nfree_insert _ _ _ _ Hi), (proj2 (Z.eqb_neq (blk m i) 0)) by done.
      destruct Ht as (_ & _ & -> & _). cbn. lia.
    - destruct Ht as (_ & _ & -> & ->). lia. }
  assert (pools_ok (put_mcb k (give_blk m l i) s)) as Hs' by by eapply set_ok.
  split; [done|]. set (m' := give_blk m l i) in *. set (l' := <[i := blk m i]> l).
  destruct (take_ok (put_mcb k m' s) k m' l' i) as [_ Htk]; [done|exact (put_lookup k m m' s Hk)|reflexivity| | |].
  - destruct Hok as [_ (l'' & [= <-] & Hok)]. done.
  - apply list_lookup_insert_eq. by eapply lookup_lt_Some.
  - unfold m', l' in Htk. rewrite take_give, put_put, (put_id k m s Hk) in Htk by done. done.
Qed.

(** ** Creating a pool *)

Lemma nfree_full l : (∀ i a, l !! i = Some a → a ≠ 0) → nfree l = Z.of_nat (length l).
Proof.
  induction l as [|x l IH]; intros Hz; [done|]. rewrite nfree_cons.
  rewrite (proj2 (Z.eqb_neq x 0)) by by apply (Hz 0%nat). rewrite IH; [cbn; lia|].
  intros i a. apply (Hz (S i)).
Qed.

(** The control block of a new pool. *)
Definition new_pool (id mem sz n : Z) : mem_info :=
  mk_mem_info mem (mem + pool_bytes sz n) (Some ((λ i, COMPUTE_ADDR_BLOCK mem i sz) <$> seqZ 0 n)) id
    n 0 n sz false.

Lemma new_pool_ok id mem sz n :
  good_size sz n → 0 < mem → address (mem + pool_bytes sz n) → pool_ok (new_pool id mem sz n).
Proof.
  intros (H1 & H2 & H3 & H4 & H5) Hm Ha. unfold address, pool_bytes in *.
  set (l := (λ i, COMPUTE_ADDR_BLOCK mem i sz) <$> seqZ 0 n).
  assert (Z.of_nat (length l) = n) as Hl by (unfold l; rewrite length_fmap, length_seqZ; lia).
  assert (∀ i a, l !! i = Some a → a = mem + Z.of_nat i * sz) as Hi.
  { intros i a. unfold l. rewrite list_lookup_fmap. intros (j & [-> Hj]%lookup_seqZ & ->)%fmap_Some.
    unfold COMPUTE_ADDR_BLOCK, s32. rewrite Z.mod_small by nia. lia. }
  split.
  - split_and!; cbn; try done; try lia; unfold pool_bytes; destruct (Z.eqb_spec (sz * n mod 8) 0); lia.
  - exists l. split; [done|]. assert (nfree l = n) as Hn.
    { rewrite nfree_full; [done|]. intros i a ->%Hi. nia. }
    split_and!; cbn; [done| |lia|lia]. intros i a ->%Hi. by right.
Qed.

Lemma add_run s m :
  pools_ok s → add_to_mcb m s = Some (0, mk_pools (hd_mcb s ++ [m]) (mcb_i s)).
Proof.
  intros Hs. unfold add_to_mcb. rewrite (fbind_run (gets hd_mcb) _ s _ _ eq_refl).
  assert (from_option gone false (list.last (hd_mcb s)) = false) as ->; [|done].
  rewrite last_lookup. destruct (hd_mcb s !! pred (length (hd_mcb s))) eqn:E; [|done].
  by eapply pools_live.
Qed.

Lemma create_run s mm mem sz n :
  good_size sz n → 0 ≤ mcb_i s → mcb_i s + 1 < 2 ^ 31 → pools_ok s →
  mem_pool_create mm mem true sz n s =
    if mm then
      let id := mcb_i s + 1 in
      if mem =? 0 then Some (-1, mk_pools (hd_mcb s) id)
      else Some (id, mk_pools (hd_mcb s ++ [new_pool id mem sz n]) id)
    else Some (-1, s).
Proof.
  intros (H1 & H2 & H3 & H4 & H5) H0 Hi Hs. unfold mem_pool_create.
  destruct mm; [|done]. rewrite (fbind_run (get_next_free_mcb true) _ s _ _ eq_refl).
  cbn [mcb_i]. assert (s32 (mcb_i s + 1) = mcb_i s + 1) as ->
    by (unfold s32; rewrite Z.mod_small; lia).
  assert (s32 sz = sz) as -> by (unfold s32; rewrite Z.mod_small; lia).
  assert (u32 (sz * n) = sz * n) as -> by (apply u32_small; lia).
  assert ((if tst (MEM_ALIGNED (sz * n)) then u32 (sz * n + (MEM_ALIGNED (sz * n) +
      (MACHINE_ALIGNEMENT - MEM_ALIGNED (sz * n)))) else sz * n) = pool_bytes sz n) as ->.
  { unfold pool_bytes, MEM_ALIGNED, MACHINE_ALIGNEMENT, tst.
    destruct (Z.eqb_spec (sz * n mod 8) 0); cbn [negb]; [lia|]. rewrite u32_small; lia. }
  cbv zeta. destruct (mem =? 0); [done|].
  assert (pools_ok (mk_pools (hd_mcb s) (mcb_i s + 1))) as Hs'.
  { destruct Hs as [Ha Hb]. split; [|done]. intros k m Hk. destruct (Ha k m Hk). split; [done|cbn; lia]. }
  etrans; [eapply fbind_run; exact (add_run _ (new_pool (mcb_i s + 1) mem sz n) Hs')|]. done.
Qed.

Lemma add_pool_lookup s x k m :
  (hd_mcb s ++ [x]) !! k = Some m → hd_mcb s !! k = Some m ∨ k = length (hd_mcb s) ∧ m = x.
Proof.
  intros [Hk|[Hl Hk]]%lookup_app_Some; [by left|]. right.
  apply list_lookup_singleton_Some in Hk as [? ->]. split; [lia|done].
Qed.

Lemma add_pool_ok s mem sz n :
  pools_ok s → good_size sz n → 0 < mem → address (mem + pool_bytes sz n) →
  (∀ k m, hd_mcb s !! k = Some m → mem + pool_bytes sz n ≤ saddr m ∨ eaddr m ≤ mem) →
  pools_ok (mk_pools (hd_mcb s ++ [new_pool (mcb_i s + 1) mem sz n]) (mcb_i s + 1)).
Proof.
  intros (H1 & H2) Hg Hm Ha Hf. set (p := new_pool (mcb_i s + 1) mem sz n).
  assert (∀ k m, hd_mcb s !! k = Some m → memid m < memid p ∧ apart m p ∧ apart p m) as Hn.
  { intros k m Hm1. destruct (H1 k m Hm1) as [_ Hid]. specialize (Hf k m Hm1). unfold apart. cbn. lia. }
  split; cbn.
  - intros k m [Hm1|[_ ->]]%add_pool_lookup; [destruct (H1 k m Hm1); split; [done|lia]|].
    split; [by apply new_pool_ok|cbn; lia].
  - intros j k m m' [Hm1|[-> ->]]%add_pool_lookup [Hm2|[-> ->]]%add_pool_lookup Hne; [by apply (H2 j k)|..|done].
    + destruct (Hn j m Hm1) as (? & ? & ?). split; [lia|done].
    + destruct (Hn k m' Hm2) as (? & ? & ?). split; [lia|done].
Qed.

Lemma room_app l1 l2 id : room (l1 ++ l2) id = room l1 id + room l2 id.
Proof. induction l1 as [|x l1 IH]; cbn; [done|]. rewrite IH. lia. Qed.

Lemma add_pool_created s mem sz n :
  pools_ok s → 0 ≤ mcb_i s → good_size sz n → 0 < mem → address (mem + pool_bytes sz n) →
  created s (mk_pools (hd_mcb s ++ [new_pool (mcb_i s + 1) mem sz n]) (mcb_i s + 1)) (mcb_i s + 1) n.
Proof.
  intros (H1 & H2) H0 Hg Hm Ha. set (p := new_pool (mcb_i s + 1) mem sz n).
  assert (∀ k m, hd_mcb s !! k = Some m → memid m ≠ mcb_i s + 1) as Hn.
  { intros k m Hk. destruct (H1 k m Hk). lia. }
  assert ((hd_mcb s ++ [p]) !! length (hd_mcb s) = Some p) as Hl by by apply list_lookup_middle.
  split_and!; [lia| | | |].
  - intros (k & m & Hk & He). by apply (Hn k m).
  - intros i. cbn. split.
    + intros (k & m & [Hk|[_ ->]]%add_pool_lookup & <-); [by left; eauto|by right].
    + intros [(k & m & Hk & <-)| ->]; [|by eauto]. exists k, m. by rewrite lookup_app_l_Some with (x := m).
  - intros i a. cbn. split.
    + intros (k & m & [Hk|[_ ->]]%add_pool_lookup & <- & Hu); [by eauto|]. exfalso.
      destruct Hu as (l & j & Hl' & Hj & _). assert (pool_ok p) as [Hp (l' & E & Ht)] by by apply new_pool_ok.
      rewrite Hl' in E. injection E as <-. destruct Ht as (Hlen & _ & Hf & _).
      pose proof (nfree_insert l j 0 1 Hj) as Hi. cbn in Hi, Hlen, Hf.
      assert (nfree (<[j := 1]> l) ≤ Z.of_nat (length l)); [|lia].
      rewrite <- (length_insert l j 1). unfold nfree. apply inj_le, length_filter.
    + intros (k & m & Hk & <- & Hu). exists k, m. split_and!; [|done..]. by apply lookup_app_l_Some.
  - intros i. cbn. rewrite room_app. cbn. rewrite Z.eqb_sym. destruct (Z.eqb_spec i (mcb_i s + 1)) as [->|]; [|lia].
    rewrite room_none by done. lia.
Qed.

Lemma table_of s k m :
  pools_ok s → hd_mcb s !! k = Some m → area_ok m ∧ ∃ l, addr_blks m = Some l ∧ table_ok m l.
Proof. intros Hs Hk. by destruct (proj1 Hs k m Hk) as [[Ha Hl] _]. Qed.

(** Blocks in use of one pool or of two do not overlap. *)
Lemma used_apart s j m a k m' b :
  pools_ok s → hd_mcb s !! j = Some m → used m a → hd_mcb s !! k = Some m' → used m' b →
  (j = k ∧ a = b) ∨ a + size m ≤ b ∨ b + size m' ≤ a.
Proof.
  intros Hs Hj (l & i & Hl & Hi & ->) Hk (l' & i' & Hl' & Hi' & ->).
  destruct (table_of s j m Hs Hj) as (Ha & l1 & E1 & Ht). destruct (table_of s k m' Hs Hk) as (Ha' & l2 & E2 & Ht').
  rewrite Hl in E1. rewrite Hl' in E2. injection E1 as <-. injection E2 as <-.
  apply lookup_lt_Some in Hi, Hi'. destruct Ht as [Hn _], Ht' as [Hn' _].
  destruct (decide (j = k)) as [->|Hne].
  - simplify_eq. destruct Ha as (_ & ? & _). unfold blk.
    destruct (decide (i = i')) as [->|]; [by left|right]. nia.
  - destruct (blk_range m i Ha) as [? ?]; [lia|]. destruct (blk_range m' i' Ha') as [? ?]; [lia|].
    destruct (proj2 Hs j k m m' Hj Hk Hne) as [_ [?|?]]; lia.
Qed.

#[export] Instance pools_laws : BlockPoolLaws pools.
Proof.
  split.
  - intros s id a (k & m & Hk & Hm & _). by exists k, m.
  - intros s i j a Hs (k & m & Hk & <- & Hu) (k' & m' & Hk' & <- & Hu').
    pose proof (table_of s k m Hs Hk) as ((_ & ? & _) & _). pose proof (table_of s k' m' Hs Hk') as ((_ & ? & _) & _).
    destruct (used_apart s k m a k' m' a Hs Hk Hu Hk' Hu') as [[-> _]|[?|?]]; [|lia..]. congruence.
  - intros s [mm mem tbl sz n] Hs (Hg & E & H0 & Hi & Hf). cbn in *. subst tbl. rewrite create_run by done.
    destruct mm; [|by eexists _, _; split_and!; [..|left]]. destruct (Z.eqb_spec mem 0) as [->|Hne].
    { eexists _, _. split_and!; [done| |by left]. destruct Hs as [H1 H2]. split; [|done].
      intros k m Hk. destruct (H1 k m Hk). split; [done|cbn; lia]. }
    destruct Hf as [|(Hm & Ha & Hf)]; [done|]. eexists _, _. split_and!; [done|by apply add_pool_ok|right].
    by apply add_pool_created.
  - intros s id Hs (k & m & Hk & <-). destruct (proj1 Hs k m Hk) as [[Ha (l & Hl & Ht)] _].
    rewrite (room_at s Hs k m Hk).
    destruct (alloc_run s k m l) as [(E & H0 & _)|(i & Hi & _ & E)]; [done..|by left|right].
    destruct (take_ok s k m l i) as [H1 H2]; [done..|]. split; [|by eauto 10].
    destruct Ht as (_ & _ & -> & _). pose proof (nfree_insert l i _ 0 Hi) as He.
    rewrite (proj2 (Z.eqb_neq _ _)) in He by by apply blk_pos. unfold nfree in *. cbn in He. lia.
  - intros s id a Hs (k & m & Hk & <- & (l & i & Hl & Hi & ->)).
    destruct (proj1 Hs k m Hk) as [[Ha (l' & Hl' & Ht)] _]. rewrite Hl in Hl'. simplify_eq.
    exists (put_mcb k (give_blk m l' i) s). split; [by apply free_run|]. by apply give_ok.
Qed.
