(* ===== verification/PoolProps.v ===== *)
(** * Memory pools: the states the functions reach

    In every state that creating pools, taking blocks and freeing blocks reach the
    blocks in use do not overlap, and freeing accepts the blocks in use and nothing else.
    Deleting a pool ends this: the list keeps a pointer to freed memory. *)

From S2P Require Import Prelude Fault PoolIface Pool.

Inductive pools_step (s : pools) : pools → Prop :=
| step_create mm mem sz n r s' :
    good_size sz n → fresh_area s mem (pool_bytes sz n) → mcb_i s + 1 < 2 ^ 31 →
    mem_pool_create mm mem true sz n s = Some (r, s') → pools_step s s'
| step_alloc id r s' : alloc_block id s = Some (r, s') → pools_step s s'
| step_free id a r s' : address a → free_blk id a s = Some (r, s') → pools_step s s'.

(** From the start of the program, [mem_init] having been called. *)
Inductive pools_reachable : pools → Prop :=
| reach_init : pools_reachable (mk_pools [] 0)
| reach_step s s' : pools_reachable s → pools_step s s' → pools_reachable s'.

(** The pools are where [calloc] puts them. *)
Definition placed (s : pools) : Prop :=
  pools_ok s ∧ 0 ≤ mcb_i s ∧ ∀ k m, hd_mcb s !! k = Some m → address (eaddr m).

(** ** Looking up a pool *)

Lemma find_cases s id :
  pools_ok s →
  (∃ k m, hd_mcb s !! k = Some m ∧ memid m = id) ∨
  (get_mem_info id s = Some (None, s) ∧ ∀ k m, hd_mcb s !! k = Some m → memid m ≠ id).
Proof.
  intros Hs. destruct (decide (Exists (λ m, memid m = id) (hd_mcb s))) as [He|He].
  - apply list.Exists_exists in He as (m & [k Hk]%list_elem_of_lookup & Hm). by left; eauto.
  - right. assert (∀ k m, hd_mcb s !! k = Some m → memid m ≠ id) as Hn.
    { intros k m Hk Hm. apply He, list.Exists_exists. exists m. split; [|done].
      by eapply list_elem_of_lookup_2. }
    split; [|done]. unfold get_mem_info. rewrite find_mcb_none; [done|].
    intros j x Hj. split; [by eapply pools_live|by eapply Hn].
Qed.

(** Whatever address is freed: a block in use of the pool is free afterwards; any other
    address is refused. *)
Lemma free_total s id a :
  pools_ok s → address a →
  (bp_used s id a ∧ ∃ s', free_blk id a s = Some (0, s') ∧ pools_ok s' ∧ taken s' s id a ∧
     mcb_i s' = mcb_i s ∧ ∀ j m', hd_mcb s' !! j = Some m' → ∃ m, hd_mcb s !! j = Some m ∧ eaddr m' = eaddr m) ∨
  (¬ bp_used s id a ∧ free_blk id a s = Some (-1, s)).
Proof.
  intros Hs Ha. destruct (find_cases s id Hs) as [(k & m & Hk & <-)|[E Hn]].
  2: { right. split; [|unfold free_blk; by frun E]. intros (k & m & Hk & Hm & _). by eapply Hn. }
  destruct (table_of s k m Hs Hk) as (Hm & l & Hl & Ht).
  pose proof Hm as (_ & H1 & H2 & H3 & H4 & H5 & H6).
  set (i := Z.to_nat ((a - saddr m) / size m)).
  destruct (decide (a = blk m i ∧ l !! i = Some 0)) as [[Hb Hi]|Hno].
  - clearbody i. subst a. left. split; [exists k, m; split_and!; [done|done|by exists l, i]|].
    exists (put_mcb k (give_blk m l i) s). destruct (give_ok s k m l i) as [Hok Htk]; [done..|].
    split_and!; [by apply free_run|done|done|done|]. intros j m' Hj.
    apply lookup_set in Hj as [[-> ->]|[_ Hj]]; eauto.
  - assert (∀ j, a = blk m j → j = i) as Hij.
    { intros j ->. unfold i, blk. rewrite Z.add_simpl_l, Z.div_mul by lia. by rewrite Nat2Z.id. }
    right. split.
    { intros (k' & m' & Hk' & He & l' & j & Hl' & Hj & Hb).
      assert (k' = k) as -> by by eapply pools_unique. simplify_eq.
      apply Hno. by rewrite <- (Hij j). }
    unfold free_blk. frun (run_get_info s Hs k m Hk). frun (run_get_mcb s k m Hk).
    destruct (in_range (saddr m) (eaddr m) (size m) a) eqn:Er; [|done]. cbn [negb].
    unfold in_range in Er. bool_to_prop. unfold u64, address in *.
    rewrite Z.mod_small in * by lia. rewrite (proj2 (Z.eqb_neq (size m) 0)) by lia.
    assert (s32 (a - saddr m) = a - saddr m) as -> by (unfold s32; rewrite Z.mod_small; nia).
    rewrite (fbind_run (mret tt) _ s tt s) by done.
    rewrite Z.rem_mod_nonneg, Z.quot_div_nonneg by lia.
    destruct (tst ((a - saddr m) mod size m)) eqn:Em; [done|]. apply tst_false in Em.
    apply Z.div_exact in Em; [|lia]. fopt Hl.
    assert (0 ≤ (a - saddr m) / size m) as Hp by (apply Z.div_pos; lia).
    assert (a = blk m i) as Hb by (unfold blk, i; rewrite Z2Nat.id by done; lia).
    destruct (lookup_lt_is_Some_2 l i) as [c Hc].
    { unfold i. destruct Ht as [Ht _]. nia. }
    assert (arr l ((a - saddr m) / size m) = Some c) as Hc' by by rewrite arr_lookup.
    fopt Hc'. destruct (Z.eqb_spec c 0) as [->|]; [by destruct Hno|done].
Qed.

(** ** Reachable states *)

Lemma create_ok s mm mem sz n r s' :
  good_size sz n → fresh_area s mem (pool_bytes sz n) → mcb_i s + 1 < 2 ^ 31 → placed s →
  mem_pool_create mm mem true sz n s = Some (r, s') → placed s'.
Proof.
  intros Hg Hf Hi Hs. pose proof Hs as ((H1 & H2) & H0 & Hp).
  rewrite create_run by done. destruct mm; [|by intros [= _ <-]].
  destruct (Z.eqb_spec mem 0) as [_|Hm]; intros [= _ <-].
  - split_and!; [split; [|done]|cbn; lia|done]. intros k m Hk. destruct (H1 k m Hk). split; [done|cbn; lia].
  - destruct Hf as [|(Hm' & Ha & Hf)]; [done|]. split_and!; [by apply add_pool_ok|cbn; lia|].
    intros k m [Hm1|[_ ->]]%add_pool_lookup; [by apply (Hp k)|]. exact Ha.
Qed.

Lemma step_placed s s' : placed s → pools_step s s' → placed s'.
Proof.
  intros Hp [mm mem sz n r s1 Hg Hf Hi E|id r s1 E|id a r s1 Ha E]; [by eapply create_ok|..].
  - pose proof Hp as (Hs & H0 & He). destruct (find_cases s id Hs) as [(k & m & Hk & <-)|[E' _]].
    2: { exfalso. revert E. unfold alloc_block. by frun E'. }
    destruct (table_of s k m Hs Hk) as (Hm & l & Hl & Ht).
    destruct (alloc_run s k m l) as [(E' & _)|(i & Hi & _ & E')]; [done..| |].
    { rewrite E' in E. by injection E as _ <-. }
    rewrite E' in E. injection E as _ <-. destruct (take_ok s k m l i) as [Hok _]; [done..|].
    split_and!; [done|done|]. intros j x [[-> ->]|[_ Hj]]%lookup_set; [by apply (He k m)|by apply (He j)].
  - pose proof Hp as (Hs & H0 & He).
    destruct (free_total s id a Hs Ha) as [(_ & s2 & E' & Hok & _ & Hi & Hj)|[_ E']];
      rewrite E' in E; injection E as _ <-; [|done].
    split_and!; [done|by rewrite Hi|]. intros j x (m & Hm & ->)%Hj. by apply (He j).
Qed.

Lemma reachable_placed s : pools_reachable s → placed s.
Proof.
  induction 1 as [|s s' _ IH Hst]; [|by eapply step_placed]. split_and!; [split|done|]; done.
Qed.

(** C14: In every reachable state an allocation from a pool either finds every block of it in use,
    returns NULL and changes nothing, or hands out a block that lies within the pool and overlaps
    no block in use of any pool, makes it the one further block in use, and freeing
    it gives back the state before.  The control block is found without a fault. *)
Theorem pool_alloc_exclusive s k m :
  pools_reachable s → hd_mcb s !! k = Some m →
  (alloc_block (memid m) s = Some (0, s) ∧ useblks m = nblks m) ∨
  ∃ a s', alloc_block (memid m) s = Some (a, s') ∧ a ≠ 0 ∧ saddr m ≤ a ∧ a + size m ≤ eaddr m ∧
    (∀ j m' b, hd_mcb s !! j = Some m' → used m' b → a + size m ≤ b ∨ b + size m' ≤ a) ∧
    (∀ id b, bp_used s' id b ↔ bp_used s id b ∨ id = memid m ∧ b = a) ∧
    free_blk (memid m) a s' = Some (0, s).
Proof.
  intros (Hs & _ & _)%reachable_placed Hk. destruct (table_of s k m Hs Hk) as (Hm & l & Hl & Ht).
  destruct (alloc_run s k m l) as [(E & _ & Hz)|(i & Hi & _ & E)]; [done..| |].
  { left. split; [done|]. destruct Ht as (_ & _ & _ & ->). rewrite nfree_all_zero by done. lia. }
  right. destruct (take_ok s k m l i) as [Hok (Hne & Hnu & Hu & _)]; [done..|].
  set (s' := put_mcb k (take_blk m l i) s) in *.
  assert (hd_mcb s' !! k = Some (take_blk m l i)) as Hk' by by eapply put_lookup.
  assert (<[i := 0]> l !! i = Some 0) as Hi'
    by (apply list_lookup_insert_eq; by eapply lookup_lt_Some).
  destruct (blk_range m i Hm) as [? ?]; [apply lookup_lt_Some in Hi; destruct Ht; lia|].
  exists (blk m i), s'. split_and!; try done.
  - intros j m' b Hj Hb. destruct (decide (j = k)) as [->|Hjk].
    + simplify_eq. assert (used (take_blk m l i) (blk m i)) as H1 by by exists (<[i := 0]> l), i.
      destruct Hb as (l' & i' & Hl' & Hb & ->). rewrite Hl in Hl'. injection Hl' as <-.
      unfold blk. destruct Hm as (_ & ? & _). destruct (decide (i = i')) as [<-|]; [|nia]. by simplify_eq.
    + destruct (used_apart s' k (take_blk m l i) (blk m i) j m' b) as [[? _]|?]; try done.
      * by exists (<[i := 0]> l), i.
      * unfold s'. cbn. by rewrite list_lookup_insert_ne.
  - destruct (table_of s' k _ Hok Hk') as (_ & l' & [= <-] & Ht').
    pose proof (free_run s' k (take_blk m l i) _ i Hok Hk' eq_refl Hi' Ht') as Ef.
    change (memid (take_blk m l i)) with (memid m) in Ef. change (blk (take_blk m l i) i) with (blk m i) in Ef.
    rewrite Ef, give_take by done. unfold s'. by rewrite put_put, put_id.
Qed.

(** C27: In every reachable state every control block is well formed: its identifier is its own, the
    two counters are the numbers of the blocks that are free and in use, and an entry of the table is NULL
    or has the address of the block it stands for. *)
Theorem pool_well_formed s k m :
  pools_reachable s → hd_mcb s !! k = Some m →
  (∀ j m', hd_mcb s !! j = Some m' → memid m' = memid m → j = k) ∧
  0 ≤ fblks m ∧ 0 ≤ useblks m ∧ fblks m + useblks m = nblks m ∧
  ∃ l, addr_blks m = Some l ∧ Z.of_nat (length l) = nblks m ∧ fblks m = nfree l ∧
    ∀ i a, l !! i = Some a → a = 0 ∨ a = saddr m + Z.of_nat i * size m.
Proof.
  intros (Hs & _ & _)%reachable_placed Hk. destruct (table_of s k m Hs Hk) as (Hm & l & Hl & Hn & He & Hf & Hu).
  assert (nfree l ≤ Z.of_nat (length l)) by apply inj_le, length_filter.
  split_and!; [intros j m' Hj E; by eapply pools_unique|unfold nfree in *; lia..|by exists l].
Qed.

(** In every reachable state, freeing an address succeeds exactly for the blocks in use of the pool, and
    then takes that block back and no other; any other address, a block that has been
    freed before included, is refused and changes nothing. *)
Theorem pool_free_spec s id a :
  pools_reachable s → address a →
  (bp_used s id a → ∃ s', free_blk id a s = Some (0, s') ∧ ¬ bp_used s' id a ∧
     ∀ i b, bp_used s i b ↔ bp_used s' i b ∨ i = id ∧ b = a) ∧
  (¬ bp_used s id a → free_blk id a s = Some (-1, s)).
Proof.
  intros (Hs & _ & _)%reachable_placed Ha.
  destruct (free_total s id a Hs Ha) as [(Hu & s' & E & _ & (_ & Hf & Ht & _) & _)|[Hn E]]; split; try done.
  by eauto 10.
Qed.

(** ** Deleting a pool *)

Lemma find_gone l k m id :
  l !! k = Some m → gone m = true →
  (∀ j x, (j < k)%nat → l !! j = Some x → memid x ≠ id) → find_mcb l id = None.
Proof.
  revert k. induction l as [|x l IH]; intros [|k] Hk Hg Hn; [done..| |]; cbn.
  - injection Hk as ->. by rewrite Hg.
  - destruct (gone x); [done|].
    rewrite (proj2 (Z.eqb_neq _ _)) by (apply (Hn 0%nat); [lia|done]).
    rewrite (IH k); [done..|]. intros j y Hj. apply (Hn (S j)). lia.
Qed.

(** [mem_pool_delete] frees the control block of a pool and leaves it in the list: afterwards
    every call for the pool, for a pool behind it in the list or for one that does not exist reads freed
    memory, and when the pool was the last one the next creation writes to it. *)
Theorem pool_delete_dangles s k m :
  pools_reachable s → hd_mcb s !! k = Some m →
  ∃ s', mem_pool_delete (memid m) s = Some (0, s') ∧
    (∀ id, (∀ j x, (j < k)%nat → hd_mcb s !! j = Some x → memid x ≠ id) →
       alloc_block id s' = None ∧ mem_pool_delete id s' = None ∧ ∀ a, free_blk id a s' = None) ∧
    (length (hd_mcb s) = S k → ∀ mem sz n, mem ≠ 0 → mem_pool_create true mem true sz n s' = None).
Proof.
  intros (Hs & _ & _)%reachable_placed Hk. exists (put_mcb k (m <| gone := true |>) s).
  assert (hd_mcb (put_mcb k (m <| gone := true |>) s) !! k = Some (m <| gone := true |>)) as Hk'
    by by eapply put_lookup.
  split_and!.
  - unfold mem_pool_delete. frun (run_get_info s Hs k m Hk). by frun (run_get_mcb s k m Hk).
  - intros id Hn. assert (get_mem_info id (put_mcb k (m <| gone := true |>) s) = None) as E.
    { unfold get_mem_info. rewrite (find_gone _ k (m <| gone := true |>)); [done..|].
      intros j x Hj. cbn. rewrite list_lookup_insert_ne by lia. by apply Hn. }
    split_and!; [| |intros a]; unfold alloc_block, mem_pool_delete, free_blk, mbind, fsM_bind; by rewrite E.
  - intros Hl mem sz n Hm. unfold mem_pool_create.
    rewrite (fbind_run (get_next_free_mcb true) _ _ _ _ eq_refl).
    rewrite (proj2 (Z.eqb_neq _ _)) by done. cbv zeta. unfold mbind at 1, fsM_bind at 1.
    unfold add_to_mcb at 1. rewrite (fbind_run (gets hd_mcb) _ _ _ _ eq_refl). cbn [hd_mcb put_mcb].
    rewrite last_lookup, length_insert, Hl. cbn [pred]. cbn in Hk'. by rewrite Hk'.
Qed.

(** With blocks of at most eight bytes that do not fill up machine words, the padding has room for
    blocks the table has no entry for. *)
Lemma padding_block_faults :
  ∃ s, mem_pool_create true 4096 true 3 1 (mk_pools [] 0) = Some (1, s) ∧ free_blk 1 (4096 + 3) s = None.
Proof. eexists. split; [vm_compute; reflexivity|]. vm_compute. reflexivity. Qed.

(** ** Witnesses: a pool of two blocks, one of them in use *)

Definition demo_pools : pools := mk_pools [new_pool 1 4096 24 2] 1.
Definition demo_pools' : pools :=
  mk_pools [take_blk (new_pool 1 4096 24 2) [4096; 4120] 0] 1.

Lemma demo_pools_reachable : pools_reachable demo_pools.
Proof.
  eapply reach_step; [apply reach_init|]. eapply (step_create _ true 4096 24 2); [..|vm_compute; reflexivity].
  - split_and!; [lia..|by left|lia].
  - right. split_and!; [lia|unfold address; vm_compute; done|]. done.
  - cbn. lia.
Qed.

Lemma demo_pools_reachable' : pools_reachable demo_pools'.
Proof.
  eapply reach_step; [apply demo_pools_reachable|]. eapply (step_alloc _ 1 4096). vm_compute. reflexivity.
Qed.

Lemma pool_alloc_exclusive_witness :
  ∃ m, hd_mcb demo_pools' !! 0%nat = Some m ∧
  ((alloc_block (memid m) demo_pools' = Some (0, demo_pools') ∧ useblks m = nblks m) ∨
  ∃ a s', alloc_block (memid m) demo_pools' = Some (a, s') ∧ a ≠ 0 ∧ saddr m ≤ a ∧ a + size m ≤ eaddr m ∧
    (∀ j m' b, hd_mcb demo_pools' !! j = Some m' → used m' b → a + size m ≤ b ∨ b + size m' ≤ a) ∧
    (∀ id b, bp_used s' id b ↔ bp_used demo_pools' id b ∨ id = memid m ∧ b = a) ∧
    free_blk (memid m) a s' = Some (0, demo_pools')).
Proof.
  eexists. split; [reflexivity|]. apply (pool_alloc_exclusive demo_pools' 0).
  - apply demo_pools_reachable'.
  - reflexivity.
Defined.

Lemma pool_free_spec_witness :
  free_blk 1 4120 demo_pools' = Some (-1, demo_pools').
Proof.
  apply (pool_free_spec demo_pools' 1 4120).
  - apply demo_pools_reachable'.
  - unfold address. lia.
  - intros ([|k] & m & [= <-] & _ & l & [|[|i]] & [= <-] & Hi & He); cbn in Hi, He; try done.
Defined.

Lemma pool_delete_dangles_witness :
  ∃ s', mem_pool_delete 1 demo_pools = Some (0, s') ∧ alloc_block 1 s' = None.
Proof.
  destruct (pool_delete_dangles demo_pools 0 (new_pool 1 4096 24 2) demo_pools_reachable eq_refl)
    as (s' & E & H & _).
  exists s'. split; [exact E|]. apply (H 1). intros j x Hj. lia.
Defined.

Lemma pool_well_formed_witness : ∃ m, hd_mcb demo_pools' !! 0%nat = Some m ∧ fblks m + useblks m = nblks m.
Proof.
  eexists. split; [reflexivity|].
  destruct (pool_well_formed demo_pools' 0 (take_blk (new_pool 1 4096 24 2) [4096; 4120] 0)) as (_ & _ & _ & H & _).
  - apply demo_pools_reachable'.
  - reflexivity.
  - exact H.
Defined.
