(* ===== verification/Hash.v ===== *)
(** * Hash tables: src/src/lib/hashlib.c

    A table is an array of chains of buckets.  The buckets are blocks of a memory pool, and
    the memory of a block keeps its contents when the block is freed, so that a bucket can
    be read while the memory of the pool exists.  The keys are arrays of bytes.
    The functions work on the table, the buckets, the pools, and a further part
    [X] of the memory that is only changed by the functions passed to them. *)

From stdpp Require Import gmap.
From S2P Require Import Prelude Fault PoolIface.

(** ** Data *)

Record hash_bucket := mk_bucket { b_next : Z; b_key : list Z; b_data : Z }.

Definition eta_bucket (b : hash_bucket) : hash_bucket := mk_bucket (b_next b) (b_key b) (b_data b).

#[export] Instance set_b_next : Settable b_next := ltac:(mk_setter eta_bucket).

Record HASH_TABLE := mk_table {
  bucket_array : list Z;
  hmem_pool_id : Z;
  key_len : Z;
  nbuckets : Z;
  nentries : Z
}.

Definition eta_table (t : HASH_TABLE) : HASH_TABLE :=
  mk_table (bucket_array t) (hmem_pool_id t) (key_len t) (nbuckets t) (nentries t).

#[export] Instance set_bucket_array : Settable bucket_array := ltac:(mk_setter eta_table).
#[export] Instance set_nentries : Settable nentries := ltac:(mk_setter eta_table).

(** The memory: the table, NULL before it has been created, the buckets by address, the pools
    and the rest. *)
Record hmem (P X : Type) := mk_hmem {
  h_tbl : option HASH_TABLE;
  h_nodes : gmap Z hash_bucket;
  h_pools : P;
  h_rest : X
}.
Arguments mk_hmem {P X}.
Arguments h_tbl {P X}.
Arguments h_nodes {P X}.
Arguments h_pools {P X}.
Arguments h_rest {P X}.

Definition DEFAULT_HASH_BUCKETS := 52.

Section Operations.
Context {P X : Type} `{!BlockPool P}.

(** The functions the table has been created with. *)
Context (cmp_func : list Z → list Z → Z) (hash_index_gen : list Z → Z).

Local Abbreviation M := (fsM (hmem P X)).

Definition on_pools {A} (x : fsM P A) : M A :=
  zoom h_pools (λ p s, mk_hmem (h_tbl s) (h_nodes s) p (h_rest s)) x.

(** A function that frees data works on the pools and the rest of the memory. *)
Definition on_data {A} (x : fsM (P * X) A) : M A :=
  zoom (λ s, (h_pools s, h_rest s)) (λ px s, mk_hmem (h_tbl s) (h_nodes s) px.1 px.2) x.

(** Accesses to the table and to a bucket. *)
Definition the_table : M HASH_TABLE := t ← gets h_tbl; of_option t.
Definition set_table (t : HASH_TABLE) : M unit :=
  modify (λ s, mk_hmem (Some t) (h_nodes s) (h_pools s) (h_rest s)).
Definition get_bucket (p : Z) : M hash_bucket := n ← gets h_nodes; of_option (n !! p).
Definition put_bucket (p : Z) (b : hash_bucket) : M unit :=
  modify (λ s, mk_hmem (h_tbl s) (<[p := b]> (h_nodes s)) (h_pools s) (h_rest s)).

(** [htbl->bucket_array[i]] *)
Definition bucket_at (i : Z) : M Z := t ← the_table; of_option (arr (bucket_array t) i).
Definition set_bucket_at (i p : Z) : M unit :=
  t ← the_table;
  _ ← of_option (arr (bucket_array t) i);
  set_table (t <| bucket_array := <[Z.to_nat i := p]> (bucket_array t) |>).

(** The steps a loop over a chain can take: no chain is longer than the memory. *)
Definition chain_fuel : M nat := gets (λ s, S (base.size (h_nodes s))).

(** [contents] is what the array [malloc] returns for the buckets has in it, [None] for NULL;
    [rq] are the answers of [calloc] to the creation of the pool.  Without memory for the array
    the function returns a pointer to the table it has just freed. *)
Definition create_hash_table (mem : bool) (rq : Z → Z → request) (contents : Z → option (list Z))
    (buckets keylen : Z) : M (option HASH_TABLE) :=
  let buckets := if buckets =? 0 then DEFAULT_HASH_BUCKETS else buckets in
  let sz := s32 (8 * buckets) in
  if negb mem then mret None
  else
    id ← on_pools (bp_create (rq sz buckets));
    if id <? 0 then mret None
    else
      match contents buckets with
      | None => on_pools (bp_delete id);; fault
      | Some a => mret (Some (mk_table a id keylen buckets 0))
      end.

Fixpoint find_loop (fuel : nat) (bkt : Z) (key : list Z) : M Z :=
  match fuel with
  | O => fault
  | S fuel =>
      if bkt =? 0 then mret 0
      else
        b ← get_bucket bkt;
        if cmp_func (b_key b) key =? 0 then mret bkt else find_loop fuel (b_next b) key
  end.

Definition find_hash_entry (key : list Z) : M Z :=
  h ← gets h_tbl;
  match h with
  | None => mret 0
  | Some htbl =>
      let which_bucket := hash_index_gen key in
      if which_bucket >? nbuckets htbl then mret 0
      else
        bkt ← bucket_at which_bucket;
        fuel ← chain_fuel;
        find_loop fuel bkt key
  end.

Definition hash_tbl_lookup (key : list Z) : M Z :=
  pbkt ← find_hash_entry key;
  if pbkt =? 0 then mret 0
  else b ← get_bucket pbkt; mret (b_data b).

Fixpoint delete_loop (fuel : nat) (free_data : Z → fsM (P * X) unit) (the_bucket prev temp : Z)
    (string : list Z) : M Z :=
  match fuel with
  | O => fault
  | S fuel =>
      if temp =? 0 then mret (-1)
      else
        b ← get_bucket temp;
        if cmp_func (b_key b) string =? 0 then
          (if prev =? 0 then set_bucket_at the_bucket (b_next b)
           else pb ← get_bucket prev; put_bucket prev (pb <| b_next := b_next b |>));;
          t ← the_table;
          set_table (t <| nentries := s32 (nentries t - 1) |>);;
          on_data (free_data (b_data b));;
          on_pools (bp_free (hmem_pool_id t) temp);;
          mret 0
        else delete_loop fuel free_data the_bucket temp (b_next b) string
  end.

Definition hash_delete_entry (string : list Z) (free_data : Z → fsM (P * X) unit) : M Z :=
  h ← gets h_tbl;
  match h with
  | None => mret (-1)
  | Some htbl =>
      let the_bucket := hash_index_gen string in
      if the_bucket >? nbuckets htbl then mret (-1)
      else
        temp ← bucket_at the_bucket;
        fuel ← chain_fuel;
        delete_loop fuel free_data the_bucket 0 temp string
  end.

(** The last bucket of a chain. *)
Fixpoint last_loop (fuel : nat) (hentry : Z) : M Z :=
  match fuel with
  | O => fault
  | S fuel =>
      if hentry =? 0 then mret 0
      else
        b ← get_bucket hentry;
        if b_next b =? 0 then mret hentry else last_loop fuel (b_next b)
  end.

(** [kmem]: whether there is memory for the copy of the key. *)
Definition fill_bucket (kmem : bool) (hentry : Z) (string : list Z) (data : Z) : M Z :=
  t ← the_table;
  (if negb kmem && (0 <? key_len t) then fault else mret tt);;
  put_bucket hentry (mk_bucket 0 (take (Z.to_nat (key_len t)) string) data);;
  set_table (t <| nentries := s32 (nentries t + 1) |>);;
  mret 0.

Definition hash_add_entry (kmem : bool) (string : list Z) (data : Z) : M Z :=
  h ← gets h_tbl;
  match h with
  | None => mret (-1)
  | Some htbl =>
      hentry ← find_hash_entry string;
      if negb (hentry =? 0) then mret 0
      else
        let bucket := hash_index_gen string in
        if bucket >? nbuckets htbl then mret (-1)
        else
          hentry ← bucket_at bucket;
          fuel ← chain_fuel;
          hentry ← last_loop fuel hentry;
          new ← on_pools (bp_alloc (hmem_pool_id htbl));
          (if hentry =? 0 then set_bucket_at bucket new
           else b ← get_bucket hentry; put_bucket hentry (b <| b_next := new |>));;
          if new =? 0 then mret (-1) else fill_bucket kmem new string data
  end.

Definition hash_tbl_add (kmem : bool) (key : list Z) (data : Z) : M Z :=
  r ← hash_add_entry kmem key data;
  if r <? 0 then mret (-1) else mret 0.

Definition hash_tbl_delete (string : list Z) (free_data : Z → fsM (P * X) unit) : M Z :=
  r ← hash_delete_entry string free_data;
  if r <? 0 then mret (-1) else mret 0.

Fixpoint flush_chain (fuel : nat) (id : Z) (free_data : Z → fsM (P * X) unit) (bucket : Z) : M unit :=
  match fuel with
  | O => fault
  | S fuel =>
      if bucket =? 0 then mret tt
      else
        b ← get_bucket bucket;
        on_data (free_data (b_data b));;
        on_pools (bp_free id bucket);;
        flush_chain fuel id free_data (b_next b)
  end.

(** The buckets from [i] on, [n] being how many there are. *)
Fixpoint flush_loop (n : nat) (i id : Z) (free_data : Z → fsM (P * X) unit) : M unit :=
  match n with
  | O => mret tt
  | S n =>
      bucket ← bucket_at i;
      fuel ← chain_fuel;
      flush_chain fuel id free_data bucket;;
      set_bucket_at i 0;;
      flush_loop n (i + 1) id free_data
  end.

Definition flush_hash_table (free_data : Z → fsM (P * X) unit) : M unit :=
  h ← gets h_tbl;
  match h with
  | None => mret tt
  | Some htbl => flush_loop (Z.to_nat (nbuckets htbl)) 0 (hmem_pool_id htbl) free_data
  end.

Definition destroy_hash_table (free_data : Z → fsM (P * X) unit) : M unit :=
  flush_hash_table free_data;;
  t ← the_table;
  on_pools (bp_delete (hmem_pool_id t));;
  mret tt.

Definition get_hash_bucket (bucket : Z) : M Z :=
  h ← gets h_tbl;
  match h with
  | Some t => if bucket <? nbuckets t then bucket_at bucket else mret 0
  | None => mret 0
  end.

(** The pointer to the next bucket is read after the call. *)
Fixpoint walk_chain (fuel : nat) (callback : Z → M unit) (bc count : Z) : M Z :=
  match fuel with
  | O => fault
  | S fuel =>
      if bc =? 0 then mret count
      else
        b ← get_bucket bc;
        callback (b_data b);;
        b ← get_bucket bc;
        walk_chain fuel callback (b_next b) (s32 (count + 1))
  end.

Fixpoint walk_loop (n : nat) (callback : Z → M unit) (slot count : Z) : M Z :=
  match n with
  | O => mret count
  | S n =>
      bc ← get_hash_bucket slot;
      fuel ← chain_fuel;
      count ← walk_chain fuel callback bc count;
      walk_loop n callback (slot + 1) count
  end.

Definition hash_walk (callback : Z → M unit) : M Z :=
  t ← the_table;
  walk_loop (Z.to_nat (nbuckets t)) callback 0 0.

End Operations.
