(* ===== verification/HashRefine.v ===== *)
(** * Hash tables: the finite maps they implement

    The chains the buckets in memory form, and the proof that looking up, adding and
    deleting a key do to the map from keys to data what their names say, use the blocks
    of the pool for the entries of the table and nothing else, and end without a fault. *)

From stdpp Require Import gmap.
From S2P Require Import Prelude Fault PoolIface Hash.

(** ** Chains *)

Record hentry := mk_hentry { e_addr : Z; e_key : list Z; e_data : Z }.

(** The first address of a chain that goes on at [q]. *)
Definition hd_of (c : list hentry) (q : Z) : Z := match c with [] => q | e :: _ => e_addr e end.

(** The buckets of a chain in memory. *)
Fixpoint seg (nodes : gmap Z hash_bucket) (c : list hentry) (q : Z) : Prop :=
  match c with
  | [] => True
  | e :: c =>
      e_addr e ≠ 0 ∧ nodes !! e_addr e = Some (mk_bucket (hd_of c q) (e_key e) (e_data e)) ∧
      seg nodes c q
  end.

Lemma hd_of_app c1 c2 q : hd_of (c1 ++ c2) q = hd_of c1 (hd_of c2 q).
Proof. by destruct c1. Qed.

Lemma seg_app nodes c1 c2 q : seg nodes (c1 ++ c2) q ↔ seg nodes c1 (hd_of c2 q) ∧ seg nodes c2 q.
Proof. induction c1 as [|e c1 IH]; cbn; [tauto|]. rewrite hd_of_app, IH. tauto. Qed.

Lemma seg_insert nodes c q a b : a ∉ e_addr <$> c → seg nodes c q → seg (<[a := b]> nodes) c q.
Proof.
  induction c as [|e c IH]; cbn; [done|]. intros Hn (H1 & H2 & H3).
  rewrite not_elem_of_cons in Hn. destruct Hn as [Hn1 Hn2]. split_and!; [done| |by apply IH].
  by rewrite lookup_insert_ne.
Qed.

Lemma seg_node nodes c q e : seg nodes c q → e ∈ c → e_addr e ≠ 0 ∧ is_Some (nodes !! e_addr e).
Proof.
  induction c as [|x c IH]; cbn; [by intros _ ?%elem_of_nil|].
  intros (H1 & H2 & H3) [->|He]%elem_of_cons; [by split; eauto|by apply IH].
Qed.

Lemma hd_of_zero nodes c q : seg nodes c q → q = 0 → (hd_of c q =? 0) = match c with [] => true | _ => false end.
Proof. intros Hs ->. destruct c as [|e c]; [done|]. apply Z.eqb_neq. by destruct Hs. Qed.

(** Redirecting the end of a chain. *)
Lemma seg_redirect nodes c1 e q b :
  NoDup (e_addr <$> (c1 ++ [e])) → seg nodes (c1 ++ [e]) q →
  seg (<[e_addr e := mk_bucket b (e_key e) (e_data e)]> nodes) (c1 ++ [e]) b.
Proof.
  intros Hd [H1 (H2 & H3 & _)]%seg_app. rewrite fmap_app in Hd. apply list.NoDup_app in Hd as (_ & Hd & _).
  apply seg_app. split.
  - apply seg_insert; [|done]. intros He. apply (Hd _ He). cbn. by left.
  - cbn. split_and!; [done|by rewrite lookup_insert_eq|done].
Qed.

(** ** The represented table *)

Section Table.
Context {P X : Type} `{!BlockPool P} `{!BlockPoolLaws P}.
Context (cmp_func : list Z → list Z → Z) (hash_index_gen : list Z → Z).
(** The keys of the table, their length, and the number of the buckets. *)
Context (valid : list Z → Prop) (klen nb : Z).
Context (cmp_spec : ∀ k k', valid k → valid k' → cmp_func k k' = 0 ↔ k = k').
Context (index_spec : ∀ k, valid k → 0 ≤ hash_index_gen k < nb).
Context (valid_len : ∀ k, valid k → Z.of_nat (length k) = klen).

Implicit Types s : hmem P X.

Definition chain_ok (nodes : gmap Z hash_bucket) (i : nat) (c : list hentry) : Prop :=
  seg nodes c 0 ∧ ∀ e, e ∈ c → valid (e_key e) ∧ hash_index_gen (e_key e) = Z.of_nat i.

(** The parts of the state that have to agree: the array, the buckets and the pool. *)
Definition hrep s (t : HASH_TABLE) (C : list (list hentry)) : Prop :=
  h_tbl s = Some t ∧ nbuckets t = nb ∧ key_len t = klen ∧
  bucket_array t = (λ c, hd_of c 0) <$> C ∧ Z.of_nat (length C) = nb ∧
  (∀ i c, C !! i = Some c → chain_ok (h_nodes s) i c) ∧
  NoDup (e_addr <$> mjoin C) ∧ NoDup (e_key <$> mjoin C) ∧
  bp_inv (h_pools s) ∧ bp_has (h_pools s) (hmem_pool_id t) ∧
  (∀ a, bp_used (h_pools s) (hmem_pool_id t) a ↔ a ∈ e_addr <$> mjoin C) ∧
  nentries t = Z.of_nat (length (mjoin C)).

Definition kv (e : hentry) : list Z * Z := (e_key e, e_data e).

(** The map a table implements. *)
Definition hmap (C : list (list hentry)) : gmap (list Z) Z := list_to_map (kv <$> mjoin C).

Lemma join_insert (C : list (list hentry)) i c c' :
  C !! i = Some c → ∃ rest, mjoin C ≡ₚ c ++ rest ∧ mjoin (<[i := c']> C) ≡ₚ c' ++ rest.
Proof.
  intros Hi. exists (mjoin (take i C) ++ mjoin (drop (S i) C)).
  rewrite insert_take_drop by by eapply lookup_lt_Some. rewrite <- (take_drop_middle C i c Hi) at 1.
  rewrite !join_app. cbn. split; solve_Permutation.
Qed.

Lemma hmap_lookup C e : NoDup (e_key <$> mjoin C) → e ∈ mjoin C → hmap C !! e_key e = Some (e_data e).
Proof.
  intros Hd He. apply elem_of_list_to_map_1.
  - by rewrite <- list_fmap_compose.
  - change (e_key e, e_data e) with (kv e). by apply list_elem_of_fmap_2.
Qed.

Lemma hmap_none C k : k ∉ e_key <$> mjoin C → hmap C !! k = None.
Proof. intros Hk. apply not_elem_of_list_to_map_1. by rewrite <- list_fmap_compose. Qed.

Lemma hmap_cons C C' e :
  NoDup (e_key <$> mjoin C') → mjoin C' ≡ₚ e :: mjoin C → hmap C' = <[e_key e := e_data e]> (hmap C).
Proof.
  intros Hd Hp. unfold hmap. transitivity (list_to_map (kv <$> e :: mjoin C) : gmap (list Z) Z); [|done].
  apply list_to_map_proper; [by rewrite <- list_fmap_compose|]. by rewrite Hp.
Qed.

Lemma hmap_uncons C C' e :
  NoDup (e_key <$> mjoin C) → mjoin C ≡ₚ e :: mjoin C' → hmap C' = delete (e_key e) (hmap C).
Proof.
  intros Hd Hp. rewrite (hmap_cons C' C e Hd Hp). rewrite delete_insert_id; [done|].
  apply hmap_none. rewrite Hp in Hd. by apply list.NoDup_cons in Hd as [? _].
Qed.

(** A chain has fewer buckets than there is fuel. *)
Lemma chain_short nodes c q : seg nodes c q → NoDup (e_addr <$> c) → (length c < S (base.size nodes))%nat.
Proof.
  intros Hs Hd. rewrite <- (length_fmap e_addr c), <- size_dom, <- (size_list_to_set (C := gset Z)) by done.
  apply Nat.lt_succ_r, subseteq_size. intros a. rewrite elem_of_list_to_set.
  intros (e & -> & He)%list_elem_of_fmap. apply elem_of_dom. by eapply seg_node.
Qed.

(** ** Searching *)

Lemma get_bucket_run s p b : h_nodes s !! p = Some b → get_bucket p s = Some (b, s).
Proof. intros Hp. unfold get_bucket. rewrite (fbind_run (gets h_nodes) _ s _ _ eq_refl). by apply of_option_run. Qed.

Lemma table_run s t : h_tbl s = Some t → the_table s = Some (t, s).
Proof. intros Ht. unfold the_table. rewrite (fbind_run (gets h_tbl) _ s _ _ eq_refl). by apply of_option_run. Qed.

Lemma bucket_at_run s t i p :
  h_tbl s = Some t → arr (bucket_array t) i = Some p → bucket_at i s = Some (p, s).
Proof. intros Ht Hp. unfold bucket_at. frun (table_run s t Ht). by apply of_option_run. Qed.

(** The first entry of a chain with a key. *)
Lemma first_with (c : list hentry) k :
  k ∉ e_key <$> c ∨ ∃ c1 e c2, c = c1 ++ e :: c2 ∧ e_key e = k ∧ k ∉ e_key <$> c1.
Proof.
  induction c as [|x c IH]; [left; apply not_elem_of_nil|].
  destruct (decide (e_key x = k)) as [<-|Hne].
  { right. exists [], x, c. split_and!; [done|done|]. apply not_elem_of_nil. }
  destruct IH as [Hn|(c1 & e & c2 & -> & He & Hn)]; [left|right].
  - cbn. by apply not_elem_of_cons.
  - exists (x :: c1), e, c2. split_and!; [done|done|]. cbn. by apply not_elem_of_cons.
Qed.

Lemma find_loop_ok s fuel c1 c k :
  valid k → (∀ e, e ∈ c1 ++ c → valid (e_key e)) → seg (h_nodes s) (c1 ++ c) 0 → k ∉ e_key <$> c1 →
  (length (c1 ++ c) < fuel)%nat →
  match c with [] => True | e :: _ => e_key e = k end →
  find_loop cmp_func fuel (hd_of (c1 ++ c) 0) k s = Some (hd_of c 0, s).
Proof.
  intros Hk. revert fuel. induction c1 as [|x c1 IH]; intros [|fuel] Hv Hs Hn Hf Hc; cbn in Hf; try lia.
  - destruct c as [|e c]; [done|]. destruct Hs as (H1 & H2 & H3). cbn.
    rewrite (proj2 (Z.eqb_neq _ _)) by done. frun (get_bucket_run s _ _ H2). cbn.
    rewrite (proj2 (Z.eqb_eq _ _)); [done|]. apply cmp_spec; [apply Hv; by left|done|done].
  - destruct Hs as (H1 & H2 & H3). cbn in Hn. apply not_elem_of_cons in Hn as [Hn1 Hn2]. cbn.
    rewrite (proj2 (Z.eqb_neq _ _)) by done. frun (get_bucket_run s _ _ H2). cbn.
    rewrite (proj2 (Z.eqb_neq _ _)).
    + apply IH; [|done|done|lia|done]. intros e He. apply Hv. by right.
    + rewrite cmp_spec; [done|apply Hv; by left|done].
Qed.

(** Where a key is, or would be. *)
Lemma key_place s t C k :
  hrep s t C → valid k →
  ∃ c, C !! Z.to_nat (hash_index_gen k) = Some c ∧ chain_ok (h_nodes s) (Z.to_nat (hash_index_gen k)) c ∧
    arr (bucket_array t) (hash_index_gen k) = Some (hd_of c 0) ∧
    (hash_index_gen k >? nbuckets t) = false ∧ NoDup (e_addr <$> c) ∧
    (length c < S (base.size (h_nodes s)))%nat ∧
    (k ∉ e_key <$> c → k ∉ e_key <$> mjoin C).
Proof.
  intros (Ht & Hnb & _ & Ha & Hl & Hc & Hd & _) Hk. pose proof (index_spec k Hk) as Hi.
  destruct (lookup_lt_is_Some_2 C (Z.to_nat (hash_index_gen k))) as [c Hcl]; [lia|].
  assert (NoDup (e_addr <$> c)) as Hdc.
  { destruct (join_insert C _ c c Hcl) as (rest & Hp & _). rewrite Hp, fmap_app in Hd.
    by apply list.NoDup_app in Hd as [? _]. }
  exists c. pose proof (Hc _ _ Hcl) as Hok. split_and!; [done|done| | |done| |].
  - rewrite arr_lookup, Ha, list_lookup_fmap, Hcl by lia. done.
  - rewrite Hnb, Z.gtb_ltb. apply Z.ltb_ge. lia.
  - by eapply chain_short; [apply Hok|].
  - intros Hn (e & -> & (c' & He & [j Hj]%list_elem_of_lookup)%list_elem_of_join)%list_elem_of_fmap.
    destruct (Hc j c' Hj) as [_ Hk']. destruct (Hk' e He) as [_ Hi']. apply Hn.
    rewrite Hi', Nat2Z.id, Hj in Hcl. injection Hcl as <-. by apply list_elem_of_fmap_2.
Qed.

Lemma find_entry_ok s t C k :
  hrep s t C → valid k →
  (k ∉ e_key <$> mjoin C ∧ find_hash_entry cmp_func hash_index_gen k s = Some (0, s)) ∨
  ∃ e, e ∈ mjoin C ∧ e_key e = k ∧ e_addr e ≠ 0 ∧
    find_hash_entry cmp_func hash_index_gen k s = Some (e_addr e, s).
Proof.
  intros Hr Hk. destruct (key_place s t C k Hr Hk) as (c & Hc & [Hs Hv] & Ha & Hg & Hd & Hf & Hn).
  pose proof Hr as (Ht & _).
  assert (∀ c1 c2, c = c1 ++ c2 → k ∉ e_key <$> c1 → match c2 with [] => True | e :: _ => e_key e = k end →
    find_hash_entry cmp_func hash_index_gen k s = Some (hd_of c2 0, s)) as Hrun.
  { intros c1 c2 -> Hn1 Hc2. unfold find_hash_entry. rewrite (fbind_run (gets h_tbl) _ s _ _ eq_refl), Ht, Hg.
    frun (bucket_at_run s t _ _ Ht Ha). rewrite (fbind_run chain_fuel _ s _ _ eq_refl).
    apply find_loop_ok; try done. intros e He. by apply Hv. }
  destruct (first_with c k) as [Hnk|(c1 & e & c2 & -> & He & Hnk)].
  - left. split; [by apply Hn|]. apply (Hrun c []); [by rewrite app_nil_r|done|done].
  - right. exists e. assert (e ∈ c1 ++ e :: c2) as Hin by (apply elem_of_app; right; by left).
    split_and!; [|done|by eapply seg_node|by apply (Hrun c1 (e :: c2))].
    apply list_elem_of_join. exists (c1 ++ e :: c2). split; [done|]. by eapply list_elem_of_lookup_2.
Qed.

Lemma lookup_ok s t C k :
  hrep s t C → valid k →
  hash_tbl_lookup cmp_func hash_index_gen k s = Some (default 0 (hmap C !! k), s).
Proof.
  intros Hr Hk. unfold hash_tbl_lookup.
  destruct (find_entry_ok s t C k Hr Hk) as [[Hn E]|(e & He & <- & Hne & E)]; frun E.
  - by rewrite hmap_none.
  - rewrite (proj2 (Z.eqb_neq _ _)) by done. pose proof Hr as (_ & _ & _ & _ & _ & Hc & _ & Hd & _).
    rewrite (hmap_lookup C e Hd He). apply list_elem_of_join in He as (c & He & [i Hi]%list_elem_of_lookup).
    destruct (Hc i c Hi) as [Hs _]. apply list_elem_of_split in He as (c1 & c2 & ->).
    apply seg_app in Hs as [_ (_ & H2 & _)]. by frun (get_bucket_run s _ _ H2).
Qed.

(** ** Updating one chain *)

Lemma chains_disjoint (C : list (list hentry)) i j c cj x :
  NoDup (e_addr <$> mjoin C) → C !! i = Some c → C !! j = Some cj → i ≠ j →
  x ∈ e_addr <$> c → x ∉ e_addr <$> cj.
Proof.
  intros Hd Hi Hj Hne Hx Hxj. destruct (join_insert C i c [] Hi) as (rest & H1 & H2).
  rewrite H1, fmap_app in Hd. apply list.NoDup_app in Hd as (_ & Hd & _). apply (Hd x Hx).
  rewrite <- (app_nil_l rest), <- H2. apply list_elem_of_fmap in Hxj as (e & -> & He).
  apply list_elem_of_fmap_2, list_elem_of_join. exists cj. split; [done|].
  apply (list_elem_of_lookup_2 _ j). by rewrite list_lookup_insert_ne.
Qed.

(** A write to a bucket that is in the chain [i] or in none. *)
Lemma other_chain s t C i c j cj x b :
  hrep s t C → C !! i = Some c → C !! j = Some cj → i ≠ j →
  x ∈ e_addr <$> c ∨ x ∉ e_addr <$> mjoin C → chain_ok (h_nodes s) j cj →
  chain_ok (<[x := b]> (h_nodes s)) j cj.
Proof.
  intros (_ & _ & _ & _ & _ & _ & Hd & _) Hi Hj Hne Hx [Hs Hv]. split; [|done]. apply seg_insert; [|done].
  destruct Hx as [Hx|Hx]; [by eapply (chains_disjoint C i j c cj)|]. intros (e & -> & He)%list_elem_of_fmap.
  apply Hx, list_elem_of_fmap_2, list_elem_of_join. exists cj. split; [done|]. by eapply list_elem_of_lookup_2.
Qed.

Lemma hrep_set s s' t t' C i c c' :
  hrep s t C → C !! i = Some c → h_tbl s' = Some t' →
  nbuckets t' = nbuckets t → key_len t' = key_len t → hmem_pool_id t' = hmem_pool_id t →
  bucket_array t' = <[i := hd_of c' 0]> (bucket_array t) →
  chain_ok (h_nodes s') i c' →
  (∀ j cj, C !! j = Some cj → i ≠ j → chain_ok (h_nodes s') j cj) →
  NoDup (e_addr <$> mjoin (<[i := c']> C)) → NoDup (e_key <$> mjoin (<[i := c']> C)) →
  bp_inv (h_pools s') → bp_has (h_pools s') (hmem_pool_id t) →
  (∀ a, bp_used (h_pools s') (hmem_pool_id t) a ↔ a ∈ e_addr <$> mjoin (<[i := c']> C)) →
  nentries t' = Z.of_nat (length (mjoin (<[i := c']> C))) → hrep s' t' (<[i := c']> C).
Proof.
  intros (_ & H2 & H3 & H4 & H5 & _) Hi Ht' E1 E2 E3 E4 Hc Ho Hd Hk Hp Hh Hu Hn.
  unfold hrep. rewrite E1, E2, E3, E4. split_and!; try done.
  - by rewrite H4, list_fmap_insert.
  - by rewrite length_insert.
  - intros j cj [(<- & -> & _)|[Hne Hj]]%list_lookup_insert_Some; [done|]. by apply Ho.
Qed.

Lemma set_bucket_at_run s t i p q :
  h_tbl s = Some t → arr (bucket_array t) i = Some p →
  set_bucket_at i q s =
    Some (tt, mk_hmem (Some (t <| bucket_array := <[Z.to_nat i := q]> (bucket_array t) |>))
                (h_nodes s) (h_pools s) (h_rest s)).
Proof. intros Ht Hp. unfold set_bucket_at. frun (table_run s t Ht). by fopt Hp. Qed.

Lemma on_pools_run {A} (x : fsM P A) s a p :
  x (h_pools s) = Some (a, p) → on_pools x s = Some (a, mk_hmem (h_tbl s) (h_nodes s) p (h_rest s)).
Proof. intros Hx. unfold on_pools. by rewrite (zoom_run _ _ _ _ _ _ Hx). Qed.

Lemma on_data_run {A} (x : fsM (P * X) A) s a p r :
  x (h_pools s, h_rest s) = Some (a, (p, r)) → on_data x s = Some (a, mk_hmem (h_tbl s) (h_nodes s) p r).
Proof. intros Hx. unfold on_data. by rewrite (zoom_run _ _ _ _ _ _ Hx). Qed.

Lemma last_loop_ok s fuel c :
  seg (h_nodes s) c 0 → (length c < fuel)%nat →
  last_loop fuel (hd_of c 0) s = Some (from_option e_addr 0 (list.last c), s).
Proof.
  revert fuel. induction c as [|e c IH]; intros [|fuel] Hs Hf; cbn in Hf; try lia; [done|].
  destruct Hs as (H1 & H2 & H3). cbn. rewrite (proj2 (Z.eqb_neq _ _)) by done.
  frun (get_bucket_run s _ _ H2). cbn. rewrite (hd_of_zero _ _ _ H3) by done.
  destruct c as [|x c]; [done|]. rewrite (IH fuel) by (done || cbn in *; lia). done.
Qed.

(** ** Adding an entry *)

(** The chain with the pointer at its end redirected to [a], and the array. *)
Definition linked s t (i : Z) (c : list hentry) (a : Z) : hmem P X :=
  match list.last c with
  | None => mk_hmem (Some (t <| bucket_array := <[Z.to_nat i := a]> (bucket_array t) |>))
              (h_nodes s) (h_pools s) (h_rest s)
  | Some e => mk_hmem (Some t) (<[e_addr e := mk_bucket a (e_key e) (e_data e)]> (h_nodes s))
                (h_pools s) (h_rest s)
  end.

Lemma link_run s t i c q a {B} (f : unit → fsM (hmem P X) B) :
  h_tbl s = Some t → arr (bucket_array t) i = Some (hd_of c q) → seg (h_nodes s) c q →
  ((if from_option e_addr 0 (list.last c) =? 0 then set_bucket_at i a
    else b ← get_bucket (from_option e_addr 0 (list.last c));
         put_bucket (from_option e_addr 0 (list.last c)) (b <| b_next := a |>)) ≫= f) s =
  f tt (linked s t i c a).
Proof.
  intros Ht Ha Hs. unfold linked. destruct (list.last c) as [e|] eqn:El.
  - apply last_Some in El as [c1 ->]. apply seg_app in Hs as [_ (H1 & H2 & _)]. cbn.
    rewrite (proj2 (Z.eqb_neq _ _)) by done. rewrite <- Ht. eapply fbind_run.
    by frun (get_bucket_run s _ _ H2).
  - cbn. eapply fbind_run. by apply (set_bucket_at_run s t i (hd_of c q)).
Qed.

Lemma linked_rest s t i c a : h_pools (linked s t i c a) = h_pools s ∧ h_rest (linked s t i c a) = h_rest s.
Proof. unfold linked. by destruct (list.last c). Qed.

(** Without a block the chain is as before. *)
Lemma linked_null s t i c :
  0 ≤ i → h_tbl s = Some t → arr (bucket_array t) i = Some (hd_of c 0) → seg (h_nodes s) c 0 →
  linked s t i c 0 = s.
Proof.
  intros Hi Ht Ha Hs. unfold linked. rewrite arr_lookup in Ha by done.
  destruct (list.last c) as [e|] eqn:El.
  - apply last_Some in El as [c1 ->]. apply seg_app in Hs as [_ (H1 & H2 & _)]. cbn in H2.
    rewrite insert_id by done. destruct s. cbn in *. by subst.
  - apply last_None in El as ->. cbn in Ha. rewrite list_insert_id by done.
    destruct s, t. cbn in *. by subst.
Qed.

Lemma linked_table s t i c q a :
  0 ≤ i → arr (bucket_array t) i = Some (hd_of c q) →
  ∃ t', h_tbl (linked s t i c a) = Some t' ∧ nbuckets t' = nbuckets t ∧ key_len t' = key_len t ∧
    hmem_pool_id t' = hmem_pool_id t ∧ nentries t' = nentries t ∧
    bucket_array t' = <[Z.to_nat i := hd_of c a]> (bucket_array t).
Proof.
  intros Hi Ha. rewrite arr_lookup in Ha by done. unfold linked. destruct (list.last c) as [e|] eqn:El.
  - exists t. split_and!; try done. apply last_Some in El as [c1 ->]. rewrite hd_of_app in *.
    cbn in *. by rewrite list_insert_id.
  - apply last_None in El as ->. by eexists.
Qed.

Lemma linked_seg s t i c q a :
  NoDup (e_addr <$> c) → seg (h_nodes s) c q → seg (h_nodes (linked s t i c a)) c a.
Proof.
  intros Hd Hs. unfold linked. destruct (list.last c) as [e|] eqn:El.
  - apply last_Some in El as [c1 ->]. by eapply seg_redirect.
  - by apply last_None in El as ->.
Qed.

Lemma linked_other s t i c c' a C j cj k :
  hrep s t C → C !! i = Some (c ++ c') → C !! j = Some cj → i ≠ j → chain_ok (h_nodes s) j cj →
  chain_ok (h_nodes (linked s t k c a)) j cj.
Proof.
  intros Hr Hi Hj Hne Hc. unfold linked. destruct (list.last c) as [e|] eqn:El; [|done].
  apply last_Some in El as [c1 ->]. apply (other_chain s t C i ((c1 ++ [e]) ++ c')); try done.
  left. apply list_elem_of_fmap_2. rewrite !elem_of_app. left. right. by left.
Qed.

Lemma linked_node s t i c a x :
  x ∉ e_addr <$> c → h_nodes (linked s t i c a) !! x = h_nodes s !! x.
Proof.
  intros Hx. unfold linked. destruct (list.last c) as [e|] eqn:El; [|done].
  apply last_Some in El as [c1 ->]. cbn. rewrite lookup_insert_ne; [done|]. intros <-. apply Hx.
  apply list_elem_of_fmap_2, elem_of_app. right. by left.
Qed.

(** The outcome of adding a new key. *)
Definition added s t C (k : list Z) (d a : Z) s' t' : Prop :=
  let i := Z.to_nat (hash_index_gen k) in
  ∃ c, C !! i = Some c ∧ hrep s' t' (<[i := c ++ [mk_hentry a k d]]> C) ∧ h_rest s' = h_rest s ∧
    hmem_pool_id t' = hmem_pool_id t ∧ taken (h_pools s) (h_pools s') (hmem_pool_id t) a.

Lemma add_new_ok s t C k d c a p :
  hrep s t C → valid k → k ∉ e_key <$> mjoin C → C !! Z.to_nat (hash_index_gen k) = Some c →
  arr (bucket_array t) (hash_index_gen k) = Some (hd_of c 0) →
  taken (h_pools s) p (hmem_pool_id t) a → bp_inv p → nentries t + 1 < 2 ^ 31 →
  ∃ s' t', fill_bucket true a k d
      (linked (mk_hmem (h_tbl s) (h_nodes s) p (h_rest s)) t (hash_index_gen k) c a) = Some (0, s') ∧
    added s t C k d a s' t'.
Proof.
  intros Hr Hk Hn Hc Ha Htk Hp Hb. set (i := Z.to_nat (hash_index_gen k)) in *.
  set (s1 := mk_hmem (h_tbl s) (h_nodes s) p (h_rest s)).
  pose proof Htk as (Hne & Hnu & Hu & Hh & _). pose proof (index_spec k Hk) as Hi.
  pose proof Hr as (Ht & Hnb & Hkl & Harr & Hl & Hch & Hda & Hdk & _ & Hhas & Hus & Hcnt).
  destruct (linked_table s1 t (hash_index_gen k) c 0 a) as (t2 & Ht2 & E1 & E2 & E3 & E4 & E5); [lia|done|].
  destruct (linked_rest s1 t (hash_index_gen k) c a) as [Hlp Hlr].
  set (s2 := linked s1 t (hash_index_gen k) c a) in *. set (e := mk_hentry a k d).
  destruct (join_insert C i c (c ++ [e]) Hc) as (rest & Hj1 & Hj2).
  assert (mjoin (<[i := c ++ [e]]> C) ≡ₚ e :: mjoin C) as Hj.
  { rewrite Hj2, Hj1. rewrite <- app_assoc. cbn. by rewrite Permutation_middle. }
  assert (a ∉ e_addr <$> mjoin C) as Hna by by rewrite <- Hus.
  assert (a ∉ e_addr <$> c) as Hnc.
  { intros Hin. apply Hna. rewrite Hj1, fmap_app. apply elem_of_app. by left. }
  destruct (Hch i c Hc) as [Hsc Hvc].
  assert (NoDup (e_addr <$> c)) as Hdc.
  { rewrite Hj1, fmap_app in Hda. by apply list.NoDup_app in Hda as [? _]. }
  exists (mk_hmem (Some (t2 <| nentries := s32 (nentries t2 + 1) |>))
            (<[a := mk_bucket 0 k d]> (h_nodes s2)) (h_pools s2) (h_rest s2)), (t2 <| nentries := s32 (nentries t2 + 1) |>).
  split.
  { unfold fill_bucket. frun (table_run s2 t2 Ht2). cbn [negb andb].
    rewrite take_ge; [done|]. rewrite E2, Hkl, <- (valid_len k Hk). lia. }
  exists c. split_and!; [done| |done|done|]; [|by rewrite Hlp].
  fold i. change (mk_hentry a k d) with e. eapply hrep_set; try done; cbn [h_tbl h_nodes h_pools h_rest].
  - cbn. rewrite E5, hd_of_app. done.
  - split.
    + apply seg_app. split; [|cbn; by rewrite lookup_insert_eq].
      apply seg_insert; [done|]. by apply (linked_seg s1 t _ c 0 a).
    + intros x [Hx|Hx]%elem_of_app; [by apply Hvc|]. apply list_elem_of_singleton in Hx as ->. cbn.
      split; [done|]. unfold i. lia.
  - intros j cj Hj' Hij. assert (chain_ok (h_nodes s2) j cj) as [Hs2 Hv2].
    { apply (linked_other s t i c [] a C j cj (hash_index_gen k)) in Hj' as Hl';
        [|done|by rewrite app_nil_r|done|by apply Hch].
      unfold s2, s1, linked in *. by destruct (list.last c). }
    split; [|done]. apply seg_insert; [|done]. intros (y & -> & Hy)%list_elem_of_fmap.
    apply Hna, list_elem_of_fmap_2, list_elem_of_join. exists cj. split; [done|]. by eapply list_elem_of_lookup_2.
  - rewrite Hj. cbn. by apply list.NoDup_cons.
  - rewrite Hj. cbn. by apply list.NoDup_cons.
  - by rewrite Hlp.
  - rewrite Hlp. cbn. by apply Hh.
  - intros x. rewrite Hlp, Hj. cbn. rewrite Hu, Hus, elem_of_cons. tauto.
  - cbn. rewrite Hj, E4. cbn. unfold s32. rewrite Z.mod_small; lia.
Qed.

(** Adding a key: one that the table has is left as it is; without a free block nothing
    changes; otherwise the key is added with its data. *)
Lemma add_ok s t C k d :
  hrep s t C → valid k → nentries t + 1 < 2 ^ 31 →
  (k ∈ e_key <$> mjoin C ∧ hash_add_entry cmp_func hash_index_gen true k d s = Some (0, s)) ∨
  (k ∉ e_key <$> mjoin C ∧ bp_room (h_pools s) (hmem_pool_id t) = 0 ∧
     hash_add_entry cmp_func hash_index_gen true k d s = Some (-1, s)) ∨
  (k ∉ e_key <$> mjoin C ∧ 0 < bp_room (h_pools s) (hmem_pool_id t) ∧
     ∃ a s' t', hash_add_entry cmp_func hash_index_gen true k d s = Some (0, s') ∧ added s t C k d a s' t').
Proof.
  intros Hr Hk Hb. pose proof Hr as (Ht & _ & _ & _ & _ & _ & _ & _ & Hp & Hh & _).
  destruct (key_place s t C k Hr Hk) as (c & Hc & [Hs Hv] & Ha & Hg & Hd & Hf & _).
  pose proof (index_spec k Hk) as Hi.
  destruct (find_entry_ok s t C k Hr Hk) as [[Hn E]|(e & He & <- & Hne & E)].
  2: { left. split; [by apply list_elem_of_fmap_2|]. unfold hash_add_entry.
       rewrite (fbind_run (gets h_tbl) _ s _ _ eq_refl), Ht. frun E. by rewrite (proj2 (Z.eqb_neq _ _)). }
  assert (∀ a p, bp_alloc (hmem_pool_id t) (h_pools s) = Some (a, p) →
    hash_add_entry cmp_func hash_index_gen true k d s =
    let s1 := linked (mk_hmem (h_tbl s) (h_nodes s) p (h_rest s)) t (hash_index_gen k) c a in
    if a =? 0 then Some (-1, s1) else fill_bucket true a k d s1) as Hrun.
  { intros a p Ea. unfold hash_add_entry. rewrite (fbind_run (gets h_tbl) _ s _ _ eq_refl), Ht. frun E.
    cbn [Z.eqb negb]. rewrite Hg. frun (bucket_at_run s t _ _ Ht Ha).
    rewrite (fbind_run chain_fuel _ s _ _ eq_refl). frun (last_loop_ok s _ c Hs Hf).
    frun (on_pools_run _ s _ _ Ea). rewrite (link_run _ t _ c 0) by done. cbv zeta. rewrite Ht.
    by destruct (a =? 0). }
  right. destruct (bp_alloc_law (h_pools s) (hmem_pool_id t) Hp Hh) as [[H0 Ea]|(H0 & a & p & Ea & Hp' & Htk)].
  - left. split_and!; [done..|]. rewrite (Hrun _ _ Ea). cbv zeta. cbn [Z.eqb].
    rewrite linked_null; [|lia|done..]. by destruct s.
  - right. split_and!; [done..|]. rewrite (Hrun _ _ Ea). cbv zeta.
    destruct Htk as [Hne Htk]. rewrite (proj2 (Z.eqb_neq _ _)) by done. exists a.
    by apply add_new_ok.
Qed.

(** ** Deleting an entry *)

(** The outcome of deleting the entry [e] of a chain, [p] and [r] being what the function that
    frees the data has left. *)
Definition removed s t C (i : nat) (c1 : list hentry) (e : hentry) (c2 : list hentry) (p : P) (r : X) s' t' : Prop :=
  C !! i = Some (c1 ++ e :: c2) ∧ hrep s' t' (<[i := c1 ++ c2]> C) ∧ h_rest s' = r ∧
  hmem_pool_id t' = hmem_pool_id t ∧ taken (h_pools s') p (hmem_pool_id t) (e_addr e) ∧
  h_nodes s' !! e_addr e = h_nodes s !! e_addr e.

(** The steps from the unlinking on. *)
Definition unlink s t (i : Z) (c1 : list hentry) (e : hentry) (c2 : list hentry) (p : P) (r : X) : hmem P X :=
  let s1 := linked s t i c1 (hd_of c2 0) in
  mk_hmem ((λ t, t <| nentries := s32 (nentries t - 1) |>) <$> h_tbl s1) (h_nodes s1) p r.

Lemma delete_loop_ok s t i c0 c fuel fd k :
  h_tbl s = Some t → arr (bucket_array t) i = Some (hd_of (c0 ++ c) 0) → seg (h_nodes s) (c0 ++ c) 0 →
  0 ≤ i → valid k → (∀ e, e ∈ c → valid (e_key e)) → (length c < fuel)%nat →
  (k ∉ e_key <$> c ∧
     delete_loop cmp_func fuel fd i (from_option e_addr 0 (list.last c0)) (hd_of c 0) k s = Some (-1, s)) ∨
  ∃ c1 e c2, c = c1 ++ e :: c2 ∧ e_key e = k ∧
    ∀ p r p', fd (e_data e) (h_pools s, h_rest s) = Some (tt, (p, r)) →
      bp_free (hmem_pool_id t) (e_addr e) p = Some (0, p') →
      delete_loop cmp_func fuel fd i (from_option e_addr 0 (list.last c0)) (hd_of c 0) k s =
        Some (0, unlink s t i (c0 ++ c1) e c2 p' r).
Proof.
  intros Ht. revert c0 fuel. induction c as [|x c IH]; intros c0 [|fuel] Ha Hs Hi Hk Hv Hf; cbn in Hf; try lia.
  { left. split; [apply not_elem_of_nil|done]. }
  pose proof Hs as [Hs0 (H1 & H2 & H3)]%seg_app.
  assert (valid (e_key x)) as Hx by (apply Hv; by left).
  destruct (decide (e_key x = k)) as [He|Hne].
  - right. exists [], x, c. split_and!; [done|done|]. intros p r p' Efd Efr. cbn.
    rewrite (proj2 (Z.eqb_neq _ _)) by done. frun (get_bucket_run s _ _ H2). cbn [b_key b_next b_data].
    rewrite (proj2 (Z.eqb_eq _ _)) by by apply cmp_spec. rewrite app_nil_r.
    rewrite hd_of_app in Ha. rewrite (link_run s t i c0 _ (hd_of c 0) _ Ht Ha Hs0).
    destruct (linked_table s t i c0 _ (hd_of c 0) Hi Ha) as (t1 & Ht1 & _ & _ & E3 & _).
    destruct (linked_rest s t i c0 (hd_of c 0)) as [Hlp Hlr]. unfold unlink. cbv zeta.
    set (s1 := linked s t i c0 (hd_of c 0)) in *. frun (table_run s1 t1 Ht1).
    rewrite (fbind_run (set_table _) _ s1 _ _ eq_refl). rewrite <- Hlp, <- Hlr in Efd. rewrite <- E3 in Efr.
    match goal with |- (on_data _ ≫= _) ?s2 = _ => frun (on_data_run (fd (e_data x)) s2 _ _ _ Efd) end.
    match goal with |- (on_pools _ ≫= _) ?s2 = _ => frun (on_pools_run (bp_free (hmem_pool_id t1) (e_addr x)) s2 _ _ Efr) end.
    by rewrite Ht1.
  - destruct (IH (c0 ++ [x]) fuel) as [[Hn E]|(c1 & e & c2 & -> & He & E)];
      [by rewrite <- app_assoc|by rewrite <- app_assoc|done|done|intros e He; apply Hv; by right|lia|..];
      rewrite last_snoc in E; cbn [from_option] in E.
    + left. split; [cbn; by apply not_elem_of_cons|]. cbn. rewrite (proj2 (Z.eqb_neq _ _)) by done.
      frun (get_bucket_run s _ _ H2). cbn. rewrite (proj2 (Z.eqb_neq _ _)); [done|]. by rewrite cmp_spec.
    + right. exists (x :: c1), e, c2. split_and!; [done|done|]. intros p r p' Efd Efr.
      cbn. rewrite (proj2 (Z.eqb_neq _ _)) by done.
      frun (get_bucket_run s _ _ H2). cbn. rewrite (proj2 (Z.eqb_neq _ _)) by by rewrite cmp_spec.
      rewrite (E p r p' Efd Efr). by rewrite <- app_assoc.
Qed.

Lemma unlink_ok s t C i c1 e c2 p p' r :
  hrep s t C → C !! Z.to_nat i = Some (c1 ++ e :: c2) → 0 ≤ i →
  arr (bucket_array t) i = Some (hd_of (c1 ++ e :: c2) 0) → Z.of_nat (length (mjoin C)) < 2 ^ 31 →
  bp_inv p' → (∀ a, bp_used p (hmem_pool_id t) a ↔ bp_used (h_pools s) (hmem_pool_id t) a) →
  taken p' p (hmem_pool_id t) (e_addr e) →
  ∃ t', removed s t C (Z.to_nat i) c1 e c2 p r (unlink s t i c1 e c2 p' r) t'.
Proof.
  intros Hr Hc Hi Ha Hb Hp' Hpu Htk. pose proof Htk as (_ & Hnu & Hu & Hh & _).
  pose proof Hr as (Ht & Hnb & Hkl & Harr & Hl & Hch & Hda & Hdk & _ & Hhas & Hus & Hcnt).
  destruct (join_insert C _ _ (c1 ++ c2) Hc) as (rest & Hj1 & Hj2).
  assert (mjoin C ≡ₚ e :: mjoin (<[Z.to_nat i := c1 ++ c2]> C)) as Hj.
  { rewrite Hj2, Hj1. by rewrite <- Permutation_middle. }
  destruct (Hch _ _ Hc) as [Hsc Hvc]. pose proof Hsc as [Hs1 (He & Hn & Hs2)]%seg_app.
  assert (NoDup (e_addr <$> (c1 ++ e :: c2))) as Hdc.
  { rewrite Hj1, fmap_app in Hda. by apply list.NoDup_app in Hda as [? _]. }
  rewrite fmap_app in Hdc. pose proof Hdc as (Hd1 & Hd2 & Hd3)%list.NoDup_app.
  cbn in Hd3. apply list.NoDup_cons in Hd3 as [Hd3 _].
  rewrite hd_of_app in Ha.
  destruct (linked_table s t i c1 _ (hd_of c2 0) Hi Ha) as (t1 & Ht1 & E1 & E2 & E3 & E4 & E5).
  exists (t1 <| nentries := s32 (nentries t1 - 1) |>). unfold removed, unlink. cbn [h_rest h_pools h_nodes].
  split_and!; [done| |done|done|done|].
  2: { apply linked_node. intros Hx. apply (Hd2 _ Hx). cbn. by left. }
  assert (bp_has p (hmem_pool_id t)) as Hhp.
  { apply (bp_used_has _ _ (e_addr e)). rewrite Hpu, Hus, Hj. cbn. by left. }
  rewrite Hj in Hda, Hdk. cbn in Hda, Hdk. apply list.NoDup_cons in Hda as [Hda1 Hda2].
  apply list.NoDup_cons in Hdk as [_ Hdk2].
  eapply hrep_set; try done; cbn [h_tbl h_nodes h_pools h_rest].
  - by rewrite Ht1.
  - cbn. by rewrite E5, hd_of_app.
  - split.
    + apply seg_app. split; [by eapply linked_seg|].
      assert (∀ x, x ∈ e_addr <$> c2 → x ∉ e_addr <$> c1) as Hdis.
      { intros x Hx Hx1. apply (Hd2 _ Hx1). cbn. by right. }
      clear -Hs2 Hdis. unfold linked. destruct (list.last c1) as [y|] eqn:El; [|done]. cbn.
      apply seg_insert; [|done]. intros Hy. apply (Hdis _ Hy). apply last_Some in El as [c ->].
      apply list_elem_of_fmap_2, elem_of_app. right. by left.
    + intros x Hx. apply Hvc. apply elem_of_app in Hx as [Hx|Hx]; apply elem_of_app; [by left|right; by right].
  - intros j cj Hj' Hij. eapply linked_other; try done. by apply Hch.
  - by apply Hh.
  - intros x. specialize (Hu (hmem_pool_id t) x). rewrite Hpu, Hus, Hj in Hu. cbn in Hu.
    rewrite elem_of_cons in Hu. destruct (decide (x = e_addr e)) as [->|]; [|naive_solver].
    split; [done|]. intros ?. done.
  - cbn. rewrite E4, Hcnt, Hj. rewrite Hj in Hb. cbn in *. unfold s32. rewrite Z.mod_small; lia.
Qed.

(** Deleting a key: one that the table does not have is refused; otherwise the data is freed, the
    bucket given back, and the key gone. *)
Lemma delete_ok s t C k fd :
  hrep s t C → valid k → Z.of_nat (length (mjoin C)) < 2 ^ 31 →
  (k ∉ e_key <$> mjoin C ∧ hash_delete_entry cmp_func hash_index_gen k fd s = Some (-1, s)) ∨
  ∃ c1 e c2, C !! Z.to_nat (hash_index_gen k) = Some (c1 ++ e :: c2) ∧ e_key e = k ∧
    ∀ p r, fd (e_data e) (h_pools s, h_rest s) = Some (tt, (p, r)) → bp_inv p →
      (∀ a, bp_used p (hmem_pool_id t) a ↔ bp_used (h_pools s) (hmem_pool_id t) a) →
      ∃ s' t', hash_delete_entry cmp_func hash_index_gen k fd s = Some (0, s') ∧
        removed s t C (Z.to_nat (hash_index_gen k)) c1 e c2 p r s' t'.
Proof.
  intros Hr Hk Hb. pose proof Hr as (Ht & _ & _ & _ & _ & _ & _ & _ & _ & _ & Hus & _).
  destruct (key_place s t C k Hr Hk) as (c & Hc & [Hs Hv] & Ha & Hg & Hd & Hf & Hn).
  pose proof (index_spec k Hk) as Hi.
  assert (∀ x, delete_loop cmp_func (S (base.size (h_nodes s))) fd (hash_index_gen k) 0 (hd_of c 0) k s = x →
    hash_delete_entry cmp_func hash_index_gen k fd s = x) as Hrun.
  { intros x <-. unfold hash_delete_entry. rewrite (fbind_run (gets h_tbl) _ s _ _ eq_refl), Ht, Hg.
    frun (bucket_at_run s t _ _ Ht Ha). by rewrite (fbind_run chain_fuel _ s _ _ eq_refl). }
  destruct (delete_loop_ok s t (hash_index_gen k) [] c (S (base.size (h_nodes s))) fd k)
    as [[Hnk E]|(c1 & e & c2 & -> & He & E)]; [done|done|done|lia|done|intros e He; by apply Hv|done|..].
  - left. split; [by apply Hn|by apply Hrun].
  - right. exists c1, e, c2. split_and!; [done|done|]. intros p r Efd Hp Hu.
    destruct (bp_free_law p (hmem_pool_id t) (e_addr e)) as (p' & Efr & Hp' & Htk); [done| |].
    { rewrite Hu, Hus. apply list_elem_of_fmap_2, list_elem_of_join. exists (c1 ++ e :: c2).
      split; [apply elem_of_app; right; by left|by eapply list_elem_of_lookup_2]. }
    destruct (unlink_ok s t C (hash_index_gen k) c1 e c2 p p' r) as [t' Hrm]; try done; [lia|].
    exists (unlink s t (hash_index_gen k) c1 e c2 p' r), t'. split; [|done]. apply Hrun. by apply (E p r p').
Qed.

Lemma split_unique (c1 c2 c1' c2' : list hentry) e e' :
  NoDup (e_key <$> (c1 ++ e :: c2)) → c1 ++ e :: c2 = c1' ++ e' :: c2' → e_key e = e_key e' →
  c1 = c1' ∧ e = e' ∧ c2 = c2'.
Proof.
  revert c1'. induction c1 as [|x c1 IH]; intros [|x' c1'] Hd; cbn.
  - by intros [= -> ->].
  - intros [= -> ->] He. exfalso. cbn in Hd. apply list.NoDup_cons in Hd as [Hd _]. apply Hd.
    rewrite He. apply list_elem_of_fmap_2, elem_of_app. right. by left.
  - intros [= -> <-] He. exfalso. cbn in Hd. apply list.NoDup_cons in Hd as [Hd _]. apply Hd.
    rewrite <- He. apply list_elem_of_fmap_2, elem_of_app. right. by left.
  - intros [= -> Hc] He. cbn in Hd. apply list.NoDup_cons in Hd as [_ Hd].
    by destruct (IH c1' Hd Hc He) as (-> & -> & ->).
Qed.

Lemma delete_absent s t C k fd :
  hrep s t C → valid k → Z.of_nat (length (mjoin C)) < 2 ^ 31 → k ∉ e_key <$> mjoin C →
  hash_delete_entry cmp_func hash_index_gen k fd s = Some (-1, s).
Proof.
  intros Hr Hk Hb Hn. destruct (delete_ok s t C k fd Hr Hk Hb) as [[_ E]|(c1 & e & c2 & Hi & <- & _)]; [done|].
  exfalso. apply Hn, list_elem_of_fmap_2, list_elem_of_join. eexists.
  split; [|by eapply list_elem_of_lookup_2]. apply elem_of_app. right. by left.
Qed.

Lemma delete_at s t C i c1 e c2 fd p r :
  hrep s t C → C !! i = Some (c1 ++ e :: c2) → Z.of_nat (length (mjoin C)) < 2 ^ 31 →
  fd (e_data e) (h_pools s, h_rest s) = Some (tt, (p, r)) → bp_inv p →
  (∀ a, bp_used p (hmem_pool_id t) a ↔ bp_used (h_pools s) (hmem_pool_id t) a) →
  ∃ s' t', hash_delete_entry cmp_func hash_index_gen (e_key e) fd s = Some (0, s') ∧
    removed s t C i c1 e c2 p r s' t'.
Proof.
  intros Hr Hi Hb Efd Hp Hu. pose proof Hr as (_ & _ & _ & _ & _ & Hch & _ & Hdk & _).
  assert (e ∈ c1 ++ e :: c2) as He by (apply elem_of_app; right; by left).
  destruct (Hch i _ Hi) as [_ Hv]. destruct (Hv e He) as [Hk Hidx].
  destruct (delete_ok s t C (e_key e) fd Hr Hk Hb) as [[Hn _]|(c1' & e' & c2' & Hi' & Hke & Hdel)].
  { exfalso. apply Hn, list_elem_of_fmap_2, list_elem_of_join. exists (c1 ++ e :: c2).
    split; [done|by eapply list_elem_of_lookup_2]. }
  rewrite Hidx, Nat2Z.id, Hi in Hi'. injection Hi' as Hc.
  destruct (split_unique c1 c2 c1' c2' e e') as (<- & <- & <-); [|done|done|].
  { destruct (join_insert C i _ [] Hi) as (rest & Hj & _). rewrite Hj, fmap_app in Hdk.
    by apply list.NoDup_app in Hdk as [? _]. }
  rewrite Hidx, Nat2Z.id in Hdel. by apply Hdel.
Qed.

Lemma removed_join s t C i c1 e c2 p r s' t' :
  removed s t C i c1 e c2 p r s' t' → mjoin C ≡ₚ e :: mjoin (<[i := c1 ++ c2]> C).
Proof.
  intros (Hc & _). destruct (join_insert C _ _ (c1 ++ c2) Hc) as (rest & Hj1 & Hj2). rewrite Hj2, Hj1.
  by rewrite <- Permutation_middle.
Qed.

Lemma removed_map s t C i c1 e c2 p r s' t' :
  hrep s t C → removed s t C i c1 e c2 p r s' t' →
  hmap (<[i := c1 ++ c2]> C) = delete (e_key e) (hmap C).
Proof.
  intros (_ & _ & _ & _ & _ & _ & _ & Hdk & _) Hrm. apply hmap_uncons; [done|]. by eapply removed_join.
Qed.

Lemma added_map s t C k d a s' t' :
  added s t C k d a s' t' →
  ∃ C', hrep s' t' C' ∧ mjoin C' ≡ₚ mk_hentry a k d :: mjoin C ∧ hmap C' = <[k := d]> (hmap C).
Proof.
  intros (c & Hc & Hr' & _). eexists. split; [done|].
  pose proof Hr' as (_ & _ & _ & _ & _ & _ & _ & Hdk & _).
  destruct (join_insert C _ _ (c ++ [mk_hentry a k d]) Hc) as (rest & Hj1 & Hj2).
  assert (mjoin (<[Z.to_nat (hash_index_gen k) := c ++ [mk_hentry a k d]]> C) ≡ₚ mk_hentry a k d :: mjoin C) as Hj.
  { rewrite Hj2, Hj1, <- app_assoc. cbn. by rewrite Permutation_middle. }
  split; [done|]. by apply (hmap_cons _ _ (mk_hentry a k d)).
Qed.

(** A table whose pool has the same blocks in use is the same table. *)
Lemma hrep_frame s s' t C :
  hrep s t C → h_tbl s' = h_tbl s → h_nodes s' = h_nodes s → bp_inv (h_pools s') →
  bp_has (h_pools s') (hmem_pool_id t) →
  (∀ a, bp_used (h_pools s') (hmem_pool_id t) a ↔ bp_used (h_pools s) (hmem_pool_id t) a) → hrep s' t C.
Proof.
  intros (H1 & H2 & H3 & H4 & H5 & H6 & H7 & H8 & H9 & H10 & H11 & H12) E1 E2 Hp Hh Hu.
  unfold hrep. rewrite E1, E2. split_and!; try done. intros a. by rewrite Hu.
Qed.


End Table.
