(* ===== verification/HashWalk.v ===== *)
(** * Hash tables: walking through a table that changes

    [hash_walk] calls a function for the data of every entry.  The theorem allows that function to delete the
    entry it is called for: the bucket is then read after it has been
    given back to its pool, and still has its pointer to the next one. *)

From stdpp Require Import gmap.
From S2P Require Import Prelude Fault PoolIface Hash HashRefine.

Section Walk.
Context {P X : Type} `{!BlockPool P} `{!BlockPoolLaws P}.
Context (cmp_func : list Z → list Z → Z) (hash_index_gen : list Z → Z).
Context (valid : list Z → Prop) (klen nb : Z).
Implicit Types s : hmem P X.

Local Abbreviation rep := (hrep hash_index_gen valid klen nb).

(** What the states of the walk have in common, and the entries that stay. *)
Context (I : hmem P X → HASH_TABLE → list (list hentry) → Prop) (keep : hentry → bool).
Context (callback : Z → fsM (hmem P X) unit).
Context (I_rep : ∀ s t C, I s t C → rep s t C).
Context (cb_keep : ∀ s t C i c1 e c2, I s t C → C !! i = Some (c1 ++ e :: c2) → keep e = true →
  callback (e_data e) s = Some (tt, s)).
Context (cb_drop : ∀ s t C i c1 e c2, I s t C → C !! i = Some (c1 ++ e :: c2) → keep e = false →
  ∃ s' t', callback (e_data e) s = Some (tt, s') ∧ I s' t' (<[i := c1 ++ c2]> C) ∧
    h_nodes s' !! e_addr e = h_nodes s !! e_addr e).

Definition kept (c : list hentry) : list hentry := List.filter keep c.

Lemma walk_chain_ok c : ∀ fuel s t C i c0 count,
  I s t C → C !! i = Some (c0 ++ c) → (length c < fuel)%nat →
  0 ≤ count → count + Z.of_nat (length c) < 2 ^ 31 →
  ∃ s' t', walk_chain fuel callback (hd_of c 0) count s = Some (count + Z.of_nat (length c), s') ∧
    I s' t' (<[i := c0 ++ kept c]> C).
Proof.
  induction c as [|e c IH]; intros [|fuel] s t C i c0 count HI Hi Hf H0 Hb; cbn [length] in *; try lia.
  { exists s, t. cbn. rewrite Z.add_0_r. split; [done|]. by rewrite list_insert_id. }
  pose proof (I_rep _ _ _ HI) as (_ & _ & _ & _ & _ & Hch & _).
  destruct (Hch i _ Hi) as [Hs _]. apply seg_app in Hs as [_ (H1 & H2 & H3)].
  assert (s32 (count + 1) = count + 1) as Hc by (unfold s32; rewrite Z.mod_small; lia).
  cbn. rewrite (proj2 (Z.eqb_neq _ _)) by done. frun (get_bucket_run s _ _ H2). cbn [b_data].
  destruct (keep e) eqn:Ek.
  - frun (cb_keep s t C i c0 e c HI Hi Ek). frun (get_bucket_run s _ _ H2). cbn [b_next].
    destruct (IH fuel s t C i (c0 ++ [e]) (count + 1)) as (s' & t' & E & HI'); [done| |lia..|].
    { by rewrite <- app_assoc. }
    exists s', t'. rewrite Hc, E. split; [do 2 f_equal; lia|]. by rewrite <- app_assoc in HI'.
  - destruct (cb_drop s t C i c0 e c HI Hi Ek) as (s1 & t1 & E & HI1 & Hn). frun E.
    rewrite <- Hn in H2. frun (get_bucket_run s1 _ _ H2). cbn [b_next].
    destruct (IH fuel s1 t1 (<[i := c0 ++ c]> C) i c0 (count + 1)) as (s' & t' & E' & HI'); [done| |lia..|].
    { apply list_lookup_insert_eq. by eapply lookup_lt_Some. }
    exists s', t'. rewrite Hc, E'. split; [do 2 f_equal; lia|]. by rewrite list_insert_insert_eq in HI'.
Qed.

Lemma chain_fuel_ok s t C i c : rep s t C → C !! i = Some c → (length c < S (base.size (h_nodes s)))%nat.
Proof.
  intros (_ & _ & _ & _ & _ & Hch & Hd & _) Hi. eapply chain_short; [by apply (Hch i c)|].
  destruct (join_insert C i c [] Hi) as (rest & Hj & _). rewrite Hj, fmap_app in Hd.
  by apply list.NoDup_app in Hd as [? _].
Qed.

Lemma walk_loop_ok C2 : ∀ s t C1 count,
  I s t (C1 ++ C2) → 0 ≤ count → count + Z.of_nat (length (mjoin C2)) < 2 ^ 31 →
  ∃ s' t', walk_loop (length C2) callback (Z.of_nat (length C1)) count s =
      Some (count + Z.of_nat (length (mjoin C2)), s') ∧
    I s' t' (C1 ++ (kept <$> C2)).
Proof.
  induction C2 as [|c C2 IH]; intros s t C1 count HI H0 Hb; cbn [length walk_loop] in *.
  { exists s, t. cbn. by rewrite Z.add_0_r. }
  pose proof (I_rep _ _ _ HI) as Hr. pose proof Hr as (Ht & Hnb & _ & Ha & Hl & _).
  assert ((C1 ++ c :: C2) !! length C1 = Some c) as Hi by by apply list_lookup_middle.
  change (mjoin (c :: C2)) with (c ++ mjoin C2) in *. rewrite length_app in *. cbn [length] in Hl.
  assert (get_hash_bucket (Z.of_nat (length C1)) s = Some (hd_of c 0, s)) as Eb.
  { unfold get_hash_bucket. rewrite (fbind_run (gets h_tbl) _ s _ _ eq_refl), Ht.
    rewrite (proj2 (Z.ltb_lt _ _)) by lia. eapply bucket_at_run; [done|].
    by rewrite arr_nat, Ha, list_lookup_fmap, Hi. }
  frun Eb. rewrite (fbind_run chain_fuel _ s _ _ eq_refl).
  destruct (walk_chain_ok c (S (base.size (h_nodes s))) s t (C1 ++ c :: C2) (length C1) [] count)
    as (s1 & t1 & E & HI1); [done|done|by eapply chain_fuel_ok|done|lia|].
  frun E. rewrite insert_app_r_alt, Nat.sub_diag in HI1 by done. cbn [app] in HI1.
  destruct (IH s1 t1 (C1 ++ [kept c]) (count + Z.of_nat (length c))) as (s' & t' & E' & HI');
    [by rewrite <- app_assoc|lia..|].
  exists s', t'. rewrite length_app in E'. cbn [length] in E'.
  replace (Z.of_nat (length C1) + 1) with (Z.of_nat (length C1 + 1)) by lia. rewrite E'.
  split; [do 2 f_equal; lia|]. by rewrite <- app_assoc in HI'.
Qed.

Lemma walk_ok s t C :
  I s t C → Z.of_nat (length (mjoin C)) < 2 ^ 31 →
  ∃ s' t', hash_walk callback s = Some (Z.of_nat (length (mjoin C)), s') ∧ I s' t' (kept <$> C).
Proof.
  intros HI Hb. pose proof (I_rep _ _ _ HI) as (Ht & Hnb & _ & _ & Hl & _).
  destruct (walk_loop_ok C s t [] 0 HI) as (s' & t' & E & HI'); [lia..|].
  exists s', t'. split; [|done]. unfold hash_walk. frun (table_run s t Ht).
  replace (Z.to_nat (nbuckets t)) with (length C) by lia. exact E.
Qed.

End Walk.
