(* ===== verification/StpTypes.v ===== *)
(** * Data of the spanning tree component

    The constants and structures of src/bridge/inc/stp_info.h, and the state the
    functions of src/bridge/stp work on. *)

From S2P Require Import Prelude TimerIface.

(** ** Constants *)

Definition BPDU_TC_TYPE := 0x80.
Definition BPDU_CONFIG_TYPE := 0x00.
Definition TC_BIT := 0x01.
Definition TC_ACK_BIT := 0x80.

Definition DISABLED := 0.
Definition LISTENING := 1.
Definition LEARNING := 2.
Definition FORWARDING := 3.
Definition BLOCKING := 4.

Definition STP_ENABLED := 1.
Definition STP_DISABLED := 0.
Definition MESSAGE_AGE_INCR := 1.
Definition STP_MAX_PORT_PRIORITY := 240.
Definition STP_MIN_PATH_COST := 1.
Definition STP_MAX_PATH_COST := 200000000.
Definition STP_MIN_HELLO_TIME := 1.
Definition STP_MAX_HELLO_TIME := 10.
Definition STP_MIN_MAX_AGE := 6.
Definition STP_MAX_MAX_AGE := 40.
Definition STP_MIN_FORWARD_DELAY := 2.
Definition STP_MAX_FORWARD_DELAY := 30.
Definition STP_PORT_BITS := 10.
Definition BR_HOLD_TIME := 1.

(** Of inc/common_types.h. *)
Definition STP_DEF_PRIORITY := 32768.
Definition STP_DEF_MAX_AGE := 20.
Definition STP_DEF_HELLO_TIME := 2.
Definition STP_DEF_FWD_DELAY := 15.
Definition STP_DEF_PORT_PRIO := 128.
Definition STP_DEF_DESG_COST := 20000.
Definition STP_DEF_PATH_COST := 20000.
Definition br_group_address : list Z := [0x01; 0x80; 0xc2; 0x00; 0x00; 0x00].
Definition LLC_SAP_BSPAN := 0x42.
Definition LLC_PDU_TYPE_U := 3.
Definition LLC_1_PDU_CMD_UI := 0x00.
Definition ETH_P_802_3 := 0x0001.
Definition ETH_P_802_2 := 0x0004.

(** ** Structures *)

(** [BRIDGEID] of inc/common_types.h: a priority and the six bytes of an address. *)
Record BRIDGEID := mk_bid {
  prio : Z;
  addr : list Z
}.

Definition eta_BRIDGEID (r : BRIDGEID) : BRIDGEID :=
  mk_bid (prio r) (addr r).

#[export] Instance set_prio : Settable prio := ltac:(mk_setter eta_BRIDGEID).
#[export] Instance set_addr : Settable addr := ltac:(mk_setter eta_BRIDGEID).

(** [struct stp_instance].  [br_port_list] is the list of the ports as pointers.
    The fields no function reads ([tolpolgy_changes], [protocol_spec],
    [timesinceTC], [hold_time]) are left out. *)
Record stp_instance := mk_br {
  br_vlan_id : Z;
  br_stp_enabled : Z;
  br_priority : Z;
  br_designated_root : BRIDGEID;
  br_bridge_id : BRIDGEID;
  br_max_age : Z;
  br_hello_time : Z;
  br_forward_delay : Z;
  br_bridge_max_age : Z;
  br_bridge_hello_time : Z;
  br_bridge_forward_delay : Z;
  br_hello_timer : TIMER_ID;
  br_tcn_timer : TIMER_ID;
  br_topology_change_timer : TIMER_ID;
  br_root_path_cost : Z;
  br_root_port : Z;
  br_topology_change : Z;
  br_topology_change_detected : Z;
  br_port_list : list nat
}.

Definition eta_stp_instance (r : stp_instance) : stp_instance :=
  mk_br (br_vlan_id r) (br_stp_enabled r) (br_priority r) (br_designated_root
    r) (br_bridge_id r) (br_max_age r) (br_hello_time r) (br_forward_delay r)
    (br_bridge_max_age r) (br_bridge_hello_time r) (br_bridge_forward_delay r)
    (br_hello_timer r) (br_tcn_timer r) (br_topology_change_timer r)
    (br_root_path_cost r) (br_root_port r) (br_topology_change r)
    (br_topology_change_detected r) (br_port_list r).

#[export] Instance set_br_vlan_id : Settable br_vlan_id := ltac:(mk_setter eta_stp_instance).
#[export] Instance set_br_stp_enabled : Settable br_stp_enabled := ltac:(mk_setter eta_stp_instance).
#[export] Instance set_br_priority : Settable br_priority := ltac:(mk_setter eta_stp_instance).
#[export] Instance set_br_designated_root : Settable br_designated_root := ltac:(mk_setter eta_stp_instance).
#[export] Instance set_br_bridge_id : Settable br_bridge_id := ltac:(mk_setter eta_stp_instance).
#[export] Instance set_br_max_age : Settable br_max_age := ltac:(mk_setter eta_stp_instance).
#[export] Instance set_br_hello_time : Settable br_hello_time := ltac:(mk_setter eta_stp_instance).
#[export] Instance set_br_forward_delay : Settable br_forward_delay := ltac:(mk_setter eta_stp_instance).
#[export] Instance set_br_bridge_max_age : Settable br_bridge_max_age := ltac:(mk_setter eta_stp_instance).
#[export] Instance set_br_bridge_hello_time : Settable br_bridge_hello_time := ltac:(mk_setter eta_stp_instance).
#[export] Instance set_br_bridge_forward_delay : Settable br_bridge_forward_delay := ltac:(mk_setter eta_stp_instance).
#[export] Instance set_br_hello_timer : Settable br_hello_timer := ltac:(mk_setter eta_stp_instance).
#[export] Instance set_br_tcn_timer : Settable br_tcn_timer := ltac:(mk_setter eta_stp_instance).
#[export] Instance set_br_topology_change_timer : Settable br_topology_change_timer := ltac:(mk_setter eta_stp_instance).
#[export] Instance set_br_root_path_cost : Settable br_root_path_cost := ltac:(mk_setter eta_stp_instance).
#[export] Instance set_br_root_port : Settable br_root_port := ltac:(mk_setter eta_stp_instance).
#[export] Instance set_br_topology_change : Settable br_topology_change := ltac:(mk_setter eta_stp_instance).
#[export] Instance set_br_topology_change_detected : Settable br_topology_change_detected := ltac:(mk_setter eta_stp_instance).
#[export] Instance set_br_port_list : Settable br_port_list := ltac:(mk_setter eta_stp_instance).

(** [struct stp_port_entry].  The list link is the position in [br_port_list], the
    back pointer [br] the instance the operations work on; the unread
    [fwdtransitions] is left out. *)
Record stp_port_entry := mk_sport {
  p_priority : Z;
  p_state : Z;
  p_designated_cost : Z;
  p_path_cost : Z;
  p_designated_root : BRIDGEID;
  p_designated_bridge : BRIDGEID;
  p_forward_delay_timer : TIMER_ID;
  p_hold_timer : TIMER_ID;
  p_message_age_timer : TIMER_ID;
  p_designated_port : Z;
  p_port_id : Z;
  p_port_no : Z;
  p_topology_change_ack : Z;
  p_config_pending : Z;
  p_is_own_bpdu : Z;
  p_enabled : Z
}.

Definition eta_stp_port_entry (r : stp_port_entry) : stp_port_entry :=
  mk_sport (p_priority r) (p_state r) (p_designated_cost r) (p_path_cost r)
    (p_designated_root r) (p_designated_bridge r) (p_forward_delay_timer r)
    (p_hold_timer r) (p_message_age_timer r) (p_designated_port r) (p_port_id
    r) (p_port_no r) (p_topology_change_ack r) (p_config_pending r)
    (p_is_own_bpdu r) (p_enabled r).

#[export] Instance set_p_priority : Settable p_priority := ltac:(mk_setter eta_stp_port_entry).
#[export] Instance set_p_state : Settable p_state := ltac:(mk_setter eta_stp_port_entry).
#[export] Instance set_p_designated_cost : Settable p_designated_cost := ltac:(mk_setter eta_stp_port_entry).
#[export] Instance set_p_path_cost : Settable p_path_cost := ltac:(mk_setter eta_stp_port_entry).
#[export] Instance set_p_designated_root : Settable p_designated_root := ltac:(mk_setter eta_stp_port_entry).
#[export] Instance set_p_designated_bridge : Settable p_designated_bridge := ltac:(mk_setter eta_stp_port_entry).
#[export] Instance set_p_forward_delay_timer : Settable p_forward_delay_timer := ltac:(mk_setter eta_stp_port_entry).
#[export] Instance set_p_hold_timer : Settable p_hold_timer := ltac:(mk_setter eta_stp_port_entry).
#[export] Instance set_p_message_age_timer : Settable p_message_age_timer := ltac:(mk_setter eta_stp_port_entry).
#[export] Instance set_p_designated_port : Settable p_designated_port := ltac:(mk_setter eta_stp_port_entry).
#[export] Instance set_p_port_id : Settable p_port_id := ltac:(mk_setter eta_stp_port_entry).
#[export] Instance set_p_port_no : Settable p_port_no := ltac:(mk_setter eta_stp_port_entry).
#[export] Instance set_p_topology_change_ack : Settable p_topology_change_ack := ltac:(mk_setter eta_stp_port_entry).
#[export] Instance set_p_config_pending : Settable p_config_pending := ltac:(mk_setter eta_stp_port_entry).
#[export] Instance set_p_is_own_bpdu : Settable p_is_own_bpdu := ltac:(mk_setter eta_stp_port_entry).
#[export] Instance set_p_enabled : Settable p_enabled := ltac:(mk_setter eta_stp_port_entry).

(** [STP_BPDU_T] from its [type] field on: the part of a BPDU the code reads. *)
Record STP_BPDU_T := mk_bpdu {
  b_type : Z;
  b_flags : Z;
  b_root_id : BRIDGEID;
  b_root_path_cost : Z;
  b_bridge_id : BRIDGEID;
  b_port_id : Z;
  b_message_age : Z;
  b_max_age : Z;
  b_hello_time : Z;
  b_forward_delay : Z
}.

Definition eta_STP_BPDU_T (r : STP_BPDU_T) : STP_BPDU_T :=
  mk_bpdu (b_type r) (b_flags r) (b_root_id r) (b_root_path_cost r)
    (b_bridge_id r) (b_port_id r) (b_message_age r) (b_max_age r)
    (b_hello_time r) (b_forward_delay r).

#[export] Instance set_b_type : Settable b_type := ltac:(mk_setter eta_STP_BPDU_T).
#[export] Instance set_b_flags : Settable b_flags := ltac:(mk_setter eta_STP_BPDU_T).
#[export] Instance set_b_root_id : Settable b_root_id := ltac:(mk_setter eta_STP_BPDU_T).
#[export] Instance set_b_root_path_cost : Settable b_root_path_cost := ltac:(mk_setter eta_STP_BPDU_T).
#[export] Instance set_b_bridge_id : Settable b_bridge_id := ltac:(mk_setter eta_STP_BPDU_T).
#[export] Instance set_b_port_id : Settable b_port_id := ltac:(mk_setter eta_STP_BPDU_T).
#[export] Instance set_b_message_age : Settable b_message_age := ltac:(mk_setter eta_STP_BPDU_T).
#[export] Instance set_b_max_age : Settable b_max_age := ltac:(mk_setter eta_STP_BPDU_T).
#[export] Instance set_b_hello_time : Settable b_hello_time := ltac:(mk_setter eta_STP_BPDU_T).
#[export] Instance set_b_forward_delay : Settable b_forward_delay := ltac:(mk_setter eta_STP_BPDU_T).

(** ** The state of one spanning tree instance

    [sports] is the memory of the port structures by pointer and [snext] the next
    pointer the allocator returns; [if_stp_info] is the pointer [pstp_info] of
    each interface; [ts] is the timer service; [ssent] holds the frames given to
    [send_packet], the last one at the end: the interface and the bytes.  [fault]
    records that the code has dereferenced a NULL pointer. *)
Record stp {TS : Type} := mk_stp {
  br : stp_instance;
  sports : nat → stp_port_entry;
  snext : nat;
  if_stp_info : Z → option nat;
  ts : TS;
  ssent : list (Z * list Z);
  fault : bool
}.
Arguments stp : clear implicits.

#[export] Instance set_br {TS} : Settable (@br TS) := λ v r,
  mk_stp TS v (sports r) (snext r) (if_stp_info r) (ts r) (ssent r) (fault r).
#[export] Instance set_sports {TS} : Settable (@sports TS) := λ v r,
  mk_stp TS (br r) v (snext r) (if_stp_info r) (ts r) (ssent r) (fault r).
#[export] Instance set_snext {TS} : Settable (@snext TS) := λ v r,
  mk_stp TS (br r) (sports r) v (if_stp_info r) (ts r) (ssent r) (fault r).
#[export] Instance set_if_stp_info {TS} : Settable (@if_stp_info TS) := λ v r,
  mk_stp TS (br r) (sports r) (snext r) v (ts r) (ssent r) (fault r).
#[export] Instance set_ts {TS} : Settable (@ts TS) := λ v r,
  mk_stp TS (br r) (sports r) (snext r) (if_stp_info r) v (ssent r) (fault r).
#[export] Instance set_ssent {TS} : Settable (@ssent TS) := λ v r,
  mk_stp TS (br r) (sports r) (snext r) (if_stp_info r) (ts r) v (fault r).
#[export] Instance set_fault {TS} : Settable (@fault TS) := λ v r,
  mk_stp TS (br r) (sports r) (snext r) (if_stp_info r) (ts r) (ssent r) v.

(** What the component reads outside its own memory: the operational state and
    the address of an interface, the bridge address, whether the allocator
    succeeds, and the contents of the uninitialised local [bpdu.flags] of
    [stp_transmit_config]. *)
Record stp_env := mk_senv {
  s_port_oper_state : Z → Z;
  s_port_mac_address : Z → list Z;
  this_bridge_addr : list Z;
  s_malloc_ok : bool;
  junk_flags : Z
}.
