(* ===== verification/Stp.v ===== *)
(** * Spanning tree: the operations of src/bridge/stp

    The functions of stp_main.c, stp_if.c, stp_timer.c and llc.c under their C
    names.  A function of the C code that takes a port pointer [p] takes the
    pointer [i] and the state [s]; [p->br] is the instance of [s]. *)

From S2P Require Import Prelude RstpTypes RstpWorld TimerIface StpTypes.

(** ** Identifiers *)

(** A [BRIDGEID] as it lies in memory, and [memcmp (&a, &b, 8)]. *)
Definition bid_bytes (b : BRIDGEID) : list Z := le_bytes 2 (prio b) ++ addr b.
Definition memcmp_bid (a b : BRIDGEID) : Z := memcmp (bid_bytes a) (bid_bytes b).

Definition stp_make_port_id (priority port_no : Z) : Z :=
  u16 ((u16 priority ≪ STP_PORT_BITS) ||| (port_no &&& ((1 ≪ STP_PORT_BITS) - 1))).

(** The three 16-bit words of an address, compared with exclusive or. *)
Definition addr_word (a : list Z) (k : nat) : Z := nth (2 * k) a 0 + 256 * nth (2 * k + 1) a 0.

Definition compare_ether_addr (a b : list Z) : bool :=
  tst (Z.lxor (addr_word a 0) (addr_word b 0) |||
       Z.lxor (addr_word a 1) (addr_word b 1) |||
       Z.lxor (addr_word a 2) (addr_word b 2)).

Definition is_dest_stp_group_address (mac : list Z) : Z :=
  if negb (compare_ether_addr mac br_group_address) then 1 else 0.

(** ** BPDUs *)

Definition stp_encode_bpdu (b : STP_BPDU_T) : STP_BPDU_T :=
  b <| b_root_id := (b_root_id b) <| prio := htons (prio (b_root_id b)) |> |>
    <| b_bridge_id := (b_bridge_id b) <| prio := htons (prio (b_bridge_id b)) |> |>
    <| b_root_path_cost := s32 (htonl (b_root_path_cost b)) |>
    <| b_message_age := htons (b_message_age b) |>
    <| b_max_age := htons (b_max_age b) |>
    <| b_hello_time := htons (b_hello_time b) |>
    <| b_forward_delay := htons (b_forward_delay b) |>.

Definition stp_decode_bpdu (b : STP_BPDU_T) : STP_BPDU_T :=
  b <| b_root_id := (b_root_id b) <| prio := ntohs (prio (b_root_id b)) |> |>
    <| b_bridge_id := (b_bridge_id b) <| prio := ntohs (prio (b_bridge_id b)) |> |>
    <| b_root_path_cost := s32 (ntohl (b_root_path_cost b)) |>
    <| b_message_age := ntohs (b_message_age b) |>
    <| b_max_age := ntohs (b_max_age b) |>
    <| b_hello_time := ntohs (b_hello_time b) |>
    <| b_forward_delay := ntohs (b_forward_delay b) |>
    <| b_port_id := ntohs (b_port_id b) |>.

(** The bytes [stp_send_config_bpdu] puts into its buffer. *)
Definition config_bytes (b : STP_BPDU_T) : list Z :=
  [0; 0; 0; BPDU_CONFIG_TYPE; b_flags b] ++
  le_bytes 2 (prio (b_root_id b)) ++ addr (b_root_id b) ++
  [(b_root_path_cost b ≫ 24) &&& 0xFF; (b_root_path_cost b ≫ 16) &&& 0xFF;
   (b_root_path_cost b ≫ 8) &&& 0xFF; b_root_path_cost b &&& 0xFF] ++
  le_bytes 2 (prio (b_bridge_id b)) ++ addr (b_bridge_id b) ++
  [(b_port_id b ≫ 8) &&& 0xFF; b_port_id b &&& 0xFF] ++
  le_bytes 2 (b_message_age b) ++ le_bytes 2 (b_max_age b) ++
  le_bytes 2 (b_hello_time b) ++ le_bytes 2 (b_forward_delay b).

Definition tcn_bytes : list Z := [0; 0; 0; BPDU_TC_TYPE].

(** The link layer header of llc.c: [llc_mac_hdr_init] fills the addresses and the
    type or length, [llc_pdu_header_init] and [llc_pdu_init_as_ui_cmd] the three
    bytes after them. *)
Definition llc_mac_hdr_init (daddr saddr : list Z) (type len : Z) : list Z :=
  daddr ++ saddr ++
  le_bytes 2 (htons (if (type !=? ETH_P_802_3) && (type !=? ETH_P_802_2) then type else len)).

Definition llc_pdu_header_init (ssap dsap cr : Z) : list Z := [dsap; ssap ||| cr].

Definition llc_pdu_init_as_ui_cmd : list Z := [LLC_PDU_TYPE_U ||| LLC_1_PDU_CMD_UI].

Section Operations.
Context {TS : Type} `{TimerService TS} (E : stp_env).

Implicit Types s : stp TS.

(** ** Memory and timers *)

Definition upd_sport (i : nat) (f : stp_port_entry → stp_port_entry) s : stp TS :=
  s <| sports := <[i := f (sports s i)]> (sports s) |>.

Definition upd_br (f : stp_instance → stp_instance) s : stp TS := s <| br := f (br s) |>.

Definition mod_timer (t : TIMER_ID) (secs : Z) s : stp TS :=
  match t with
  | None => s
  | Some h => s <| ts := ts_mod h (u32 secs) (ts s) |>
  end.

(** [del_timer] does not check for a NULL timer. *)
Definition del_timer (t : TIMER_ID) s : stp TS :=
  match t with
  | None => s <| fault := true |>
  | Some h => s <| ts := ts_del h (ts s) |>
  end.

Definition timer_pending (t : TIMER_ID) s : bool :=
  match t with None => false | Some h => ts_pending h (ts s) end.

Definition timer_get_remaining_time (t : TIMER_ID) s : Z :=
  match t with None => 0 | Some h => ts_remaining h (ts s) end.

(** [list_for_each_entry (p, &br->port_list, list) body] *)
Definition for_each_sport (body : nat → stp TS → stp TS) s : stp TS :=
  foldl (λ s i, body i s) s (br_port_list (br s)).

Definition stp_get_port s (port_no : Z) : option nat :=
  find (λ i, p_port_no (sports s i) =? u16 port_no) (br_port_list (br s)).

Definition stp_get_port_info s (port : Z) : option nat :=
  find (λ i, p_port_no (sports s i) =? port) (br_port_list (br s)).

(** ** Roles *)

Definition stp_is_root_bridge s : bool :=
  memcmp_bid (br_bridge_id (br s)) (br_designated_root (br s)) =? 0.

Definition stp_is_designated_port s (i : nat) : bool :=
  let p := sports s i in
  (memcmp_bid (p_designated_bridge p) (br_bridge_id (br s)) =? 0) &&
  (p_designated_port p =? p_port_id p).

(** [None]: the root port so far is not in the list, and NULL is dereferenced. *)
Definition stp_should_become_root_port s (i : nat) (root_port : Z) : option bool :=
  let p := sports s i in
  if (p_state p =? DISABLED) || stp_is_designated_port s i then Some false
  else if memcmp_bid (br_bridge_id (br s)) (p_designated_root p) <=? 0 then Some false
  else if root_port =? 0 then Some true
  else
    r ← stp_get_port s root_port;
    let rp := sports s r in
    let t := memcmp_bid (p_designated_root p) (p_designated_root rp) in
    if t <? 0 then Some true else if t >? 0 then Some false
    else
      let c := s32 (p_designated_cost p + p_path_cost p) in
      let rc := s32 (p_designated_cost rp + p_path_cost rp) in
      if c <? rc then Some true else if c >? rc then Some false
      else
        let t := memcmp_bid (p_designated_bridge p) (p_designated_bridge rp) in
        if t <? 0 then Some true else if t >? 0 then Some false
        else if p_designated_port p <? p_designated_port rp then Some true
        else if p_designated_port p >? p_designated_port rp then Some false
        else Some (p_port_id p <? p_port_id rp).

(** The loop of [stp_root_selection]. *)
Definition root_port_step (acc : stp TS * Z) (i : nat) : stp TS * Z :=
  let '(s, root_port) := acc in
  if tst (p_is_own_bpdu (sports s i)) then (s, root_port)
  else
    match stp_should_become_root_port s i root_port with
    | None => (s <| fault := true |>, root_port)
    | Some true => (s, u16 (p_port_no (sports s i)))
    | Some false => (s, root_port)
    end.

Definition stp_root_selection s : stp TS :=
  let '(s, root_port) := foldl root_port_step (s, 0) (br_port_list (br s)) in
  let s := upd_br (λ b, b <| br_root_port := root_port |>) s in
  if root_port =? 0 then
    upd_br (λ b, b <| br_designated_root := br_bridge_id b |> <| br_root_path_cost := 0 |>) s
  else
    match stp_get_port s root_port with
    | None => s <| fault := true |>
    | Some r =>
        let p := sports s r in
        upd_br (λ b, b <| br_designated_root := p_designated_root p |>
                       <| br_root_path_cost := s32 (p_designated_cost p + p_path_cost p) |>) s
    end.

Definition stp_should_become_designated_port s (i : nat) : bool :=
  let p := sports s i in
  if stp_is_designated_port s i then true
  else if memcmp_bid (p_designated_root p) (br_designated_root (br s)) !=? 0 then true
  else if br_root_path_cost (br s) <? p_designated_cost p then true
  else if br_root_path_cost (br s) >? p_designated_cost p then false
  else
    let t := memcmp_bid (br_bridge_id (br s)) (p_designated_bridge p) in
    if t <? 0 then true else if t >? 0 then false
    else p_port_id p <? p_designated_port p.

Definition stp_become_designated_port (i : nat) s : stp TS :=
  upd_sport i (λ p, p
    <| p_designated_root := br_designated_root (br s) |>
    <| p_designated_cost := br_root_path_cost (br s) |>
    <| p_designated_bridge := br_bridge_id (br s) |>
    <| p_designated_port := p_port_id p |>) s.

Definition stp_designated_port_selection s : stp TS :=
  for_each_sport (λ i s,
    if (p_state (sports s i) !=? DISABLED) && stp_should_become_designated_port s i
    then stp_become_designated_port i s else s) s.

Definition stp_configuration_update s : stp TS :=
  stp_designated_port_selection (stp_root_selection s).

(** ** Transmission *)

Definition stp_send_bpdu (i : nat) (data : list Z) s : stp TS :=
  if s_malloc_ok E then
    let port := p_port_no (sports s i) in
    let hdr := llc_mac_hdr_init br_group_address (s_port_mac_address E port) 0x4
                 (Z.of_nat (length data) + 3) in
    let llc := llc_pdu_header_init LLC_SAP_BSPAN LLC_SAP_BSPAN LLC_1_PDU_CMD_UI ++
               llc_pdu_init_as_ui_cmd in
    s <| ssent := ssent s ++ [(port, hdr ++ llc ++ data)] |>
  else s.

Definition stp_send_config_bpdu (i : nat) (b : STP_BPDU_T) s : stp TS :=
  if br_stp_enabled (br s) !=? STP_ENABLED then s
  else stp_send_bpdu i (config_bytes b) s.

Definition stp_send_tcn_bpdu (p : option nat) s : stp TS :=
  match p with
  | None => s
  | Some i =>
      if br_stp_enabled (br s) !=? STP_ENABLED then s else stp_send_bpdu i tcn_bytes s
  end.

Definition stp_transmit_tcn s : stp TS :=
  stp_send_tcn_bpdu (stp_get_port s (br_root_port (br s))) s.

(** The message age field of the next BPDU; [None] when the bridge is not the
    root and its root port is not in the list. *)
Definition config_message_age s : option Z :=
  if stp_is_root_bridge s then Some 0
  else
    root ← stp_get_port s (br_root_port (br s));
    let rmt := timer_get_remaining_time (p_message_age_timer (sports s root)) s
                 / tm_get_ticks_per_second in
    Some (u16 (br_max_age (br s) - rmt + MESSAGE_AGE_INCR)).

Definition config_bpdu (i : nat) (message_age : Z) s : STP_BPDU_T :=
  mk_bpdu 0
    (u8 (junk_flags E ||| br_topology_change (br s) ||| p_topology_change_ack (sports s i)))
    (br_designated_root (br s)) (br_root_path_cost (br s)) (br_bridge_id (br s))
    (p_port_id (sports s i)) message_age (u16 (br_max_age (br s)))
    (u16 (br_hello_time (br s))) (u16 (br_forward_delay (br s))).

Definition stp_transmit_config (i : nat) s : stp TS :=
  if timer_pending (p_hold_timer (sports s i)) s
  then upd_sport i (λ p, p <| p_config_pending := 1 |>) s
  else
    match config_message_age s with
    | None => s <| fault := true |>
    | Some message_age =>
        if message_age <? br_max_age (br s) then
          let bpdu := stp_encode_bpdu (config_bpdu i message_age s) in
          let s := stp_send_config_bpdu i bpdu s in
          let s := upd_sport i (λ p, p <| p_topology_change_ack := 0 |>
                                       <| p_config_pending := 0 |>) s in
          mod_timer (p_hold_timer (sports s i)) BR_HOLD_TIME s
        else s
    end.

Definition stp_config_bpdu_generation s : stp TS :=
  for_each_sport (λ i s,
    if (p_state (sports s i) !=? DISABLED) && stp_is_designated_port s i
    then stp_transmit_config i s else s) s.

(** ** Topology changes *)

Definition stp_topology_change_acknowledged s : stp TS :=
  let s := upd_br (λ b, b <| br_topology_change_detected := 0 |>) s in
  del_timer (br_tcn_timer (br s)) s.

Definition stp_topology_change_detection s : stp TS :=
  let isroot := stp_is_root_bridge s in
  if br_stp_enabled (br s) !=? STP_ENABLED then s
  else
    let s :=
      if isroot then
        let s := upd_br (λ b, b <| br_topology_change := 1 |>) s in
        mod_timer (br_topology_change_timer (br s))
          (br_bridge_forward_delay (br s) + br_bridge_max_age (br s)) s
      else if br_topology_change_detected (br s) =? 0 then
        let s := stp_transmit_tcn s in
        mod_timer (br_tcn_timer (br s)) (br_bridge_hello_time (br s)) s
      else s in
    upd_br (λ b, b <| br_topology_change_detected := 1 |>) s.

Definition stp_topology_change_acknowledge (i : nat) s : stp TS :=
  stp_transmit_config i (upd_sport i (λ p, p <| p_topology_change_ack := 1 |>) s).

Definition stp_become_root_bridge s : stp TS :=
  let s := upd_br (λ b, b <| br_max_age := br_bridge_max_age b |>
                          <| br_hello_time := br_bridge_hello_time b |>
                          <| br_forward_delay := br_bridge_forward_delay b |>) s in
  let s := stp_topology_change_detection s in
  let s := del_timer (br_tcn_timer (br s)) s in
  let s := stp_config_bpdu_generation s in
  mod_timer (br_hello_timer (br s)) (br_hello_time (br s)) s.

(** ** Port states *)

Definition stp_make_blocking (i : nat) s : stp TS :=
  let p := sports s i in
  if (p_state p !=? DISABLED) && (p_state p !=? BLOCKING) then
    let s :=
      if (p_state p =? FORWARDING) || (p_state p =? LEARNING)
      then stp_topology_change_detection s else s in
    let s := upd_sport i (λ p, p <| p_state := BLOCKING |>) s in
    del_timer (p_forward_delay_timer (sports s i)) s
  else s.

Definition stp_make_forwarding (i : nat) s : stp TS :=
  if p_state (sports s i) !=? BLOCKING then s
  else
    let s :=
      if br_forward_delay (br s) =? 0 then
        let s := upd_sport i (λ p, p <| p_state := FORWARDING |>) s in
        let s := stp_topology_change_detection s in
        del_timer (p_forward_delay_timer (sports s i)) s
      else if br_stp_enabled (br s) =? STP_ENABLED
      then upd_sport i (λ p, p <| p_state := LISTENING |>) s
      else upd_sport i (λ p, p <| p_state := LEARNING |>) s in
    if br_forward_delay (br s) !=? 0
    then mod_timer (p_forward_delay_timer (sports s i)) (br_forward_delay (br s)) s else s.

(** The body of the loop of [stp_port_state_selection]. *)
Definition state_selection_step (i : nat) s : stp TS :=
  let p := sports s i in
  if p_state p =? DISABLED then s
  else if p_port_no p =? br_root_port (br s) then
    let s := upd_sport i (λ p, p <| p_config_pending := 0 |>
                                 <| p_topology_change_ack := 0 |>) s in
    stp_make_forwarding i s
  else if (p_is_own_bpdu p =? 0) && stp_is_designated_port s i then
    let s := del_timer (p_message_age_timer p) s in
    stp_make_forwarding i s
  else
    let s := upd_sport i (λ p, p <| p_config_pending := 0 |>
                                 <| p_topology_change_ack := 0 |>) s in
    stp_make_blocking i s.

Definition stp_port_state_selection s : stp TS := for_each_sport state_selection_step s.

(** ** Reception *)

(** The result and the port after the call: the last branch clears
    [is_own_bpdu]. *)
Definition stp_supersedes_port_info (p : stp_port_entry) (b : stp_instance)
    (bpdu : STP_BPDU_T) : bool * stp_port_entry :=
  let t := memcmp_bid (b_root_id bpdu) (p_designated_root p) in
  if t <? 0 then (true, p) else if t >? 0 then (false, p)
  else if b_root_path_cost bpdu <? p_designated_cost p then (true, p)
  else if b_root_path_cost bpdu >? p_designated_cost p then (false, p)
  else
    let t := memcmp_bid (b_bridge_id bpdu) (p_designated_bridge p) in
    if t <? 0 then (true, p) else if t >? 0 then (false, p)
    else if memcmp_bid (b_bridge_id bpdu) (br_bridge_id b) !=? 0 then (true, p)
    else if b_port_id bpdu <=? p_designated_port p then
      (true, if b_port_id bpdu =? p_designated_port p
             then p <| p_is_own_bpdu := 0 |> else p)
    else (false, p).

Definition stp_record_config_information (i : nat) (bpdu : STP_BPDU_T) s : stp TS :=
  let s := upd_sport i (λ p, p <| p_designated_root := b_root_id bpdu |>
                               <| p_designated_cost := b_root_path_cost bpdu |>
                               <| p_designated_bridge := b_bridge_id bpdu |>
                               <| p_designated_port := b_port_id bpdu |>) s in
  mod_timer (p_message_age_timer (sports s i)) (br_max_age (br s) - b_message_age bpdu) s.

Definition stp_record_config_timeout_values (bpdu : STP_BPDU_T) s : stp TS :=
  upd_br (λ b, b <| br_max_age := b_max_age bpdu |>
                 <| br_hello_time := b_hello_time bpdu |>
                 <| br_forward_delay := b_forward_delay bpdu |>
                 <| br_topology_change := bit ((b_flags bpdu &&& TC_BIT) =? TC_BIT) |>) s.

(** The bridge has just stopped being the root. *)
Definition stop_being_root s : stp TS :=
  let s := del_timer (br_hello_timer (br s)) s in
  if tst (br_topology_change_detected (br s)) then
    let s := del_timer (br_topology_change_timer (br s)) s in
    let s := stp_transmit_tcn s in
    mod_timer (br_tcn_timer (br s)) (br_bridge_hello_time (br s)) s
  else s.

Definition stp_received_config_bpdu (i : nat) (bpdu : STP_BPDU_T) s : stp TS :=
  let was_root := stp_is_root_bridge s in
  let s := upd_sport i (λ p, p <| p_is_own_bpdu := 0 |>) s in
  let '(supersedes, p) := stp_supersedes_port_info (sports s i) (br s) bpdu in
  let s := upd_sport i (λ _, p) s in
  if supersedes : bool then
    let s := stp_record_config_information i bpdu s in
    let s := stp_configuration_update s in
    let s := stp_port_state_selection s in
    let s :=
      if negb (stp_is_root_bridge s) && was_root then stop_being_root s else s in
    if p_port_no (sports s i) =? br_root_port (br s) then
      let s := stp_record_config_timeout_values bpdu s in
      let s := stp_config_bpdu_generation s in
      if tst (b_flags bpdu &&& TC_ACK_BIT) then stp_topology_change_acknowledged s else s
    else s
  else if stp_is_designated_port s i then stp_transmit_config i s
  else s.

Definition stp_received_tcn_bpdu (i : nat) s : stp TS :=
  if stp_is_designated_port s i then
    stp_topology_change_acknowledge i (stp_topology_change_detection s)
  else s.

(** The part of [stp_process_bpdu] after the port has been found. *)
Definition process_stp_bpdu_on (i : nat) (bpdu : STP_BPDU_T) s : stp TS * Z :=
  if p_enabled (sports s i) =? 0 then (s, -1)
  else if p_state (sports s i) =? STP_DISABLED then (s, -1)
  else if b_type bpdu =? BPDU_CONFIG_TYPE
  then (stp_received_config_bpdu i (stp_decode_bpdu bpdu) s, 0)
  else if b_type bpdu =? BPDU_TC_TYPE then (stp_received_tcn_bpdu i s, 0)
  else (s, 0).

(** ** Enabling and disabling *)

(** The call that follows a change of the configuration: the bridge may have
    become the root. *)
Definition maybe_become_root (was_root : bool) s : stp TS :=
  if stp_is_root_bridge s && negb was_root then stp_become_root_bridge s else s.

Definition stp_init_port (i : nat) s : stp TS :=
  let s := upd_sport i (λ p, p <| p_port_id :=
             stp_make_port_id (u8 (p_priority p)) (u16 (p_port_no p)) |>) s in
  let s := stp_become_designated_port i s in
  let s := upd_sport i (λ p, p <| p_state := BLOCKING |>
                               <| p_topology_change_ack := 0 |>
                               <| p_config_pending := 0 |>
                               <| p_is_own_bpdu := 0 |>
                               <| p_enabled := STP_ENABLED |>) s in
  s <| if_stp_info := λ port, if port =? p_port_no (sports s i) then Some i
                               else if_stp_info s port |>.

Definition stp_enable_port (i : nat) s : stp TS :=
  if s_port_oper_state E (p_port_no (sports s i)) =? IF_DOWN then s
  else stp_port_state_selection (stp_init_port i s).

Definition stp_disable_port (i : nat) s : stp TS :=
  let wasroot := stp_is_root_bridge s in
  let s := stp_become_designated_port i s in
  let s := upd_sport i (λ p, p <| p_state := DISABLED |>
                               <| p_topology_change_ack := 0 |>
                               <| p_config_pending := 0 |>
                               <| p_is_own_bpdu := 0 |>) s in
  let s := del_timer (p_message_age_timer (sports s i)) s in
  let s := del_timer (p_forward_delay_timer (sports s i)) s in
  let s := del_timer (p_hold_timer (sports s i)) s in
  let s := stp_configuration_update s in
  let s := stp_port_state_selection s in
  maybe_become_root wasroot s.

Definition stp_enable s : stp TS :=
  let s := upd_br (λ b, b <| br_stp_enabled := STP_ENABLED |>) s in
  let s := mod_timer (br_hello_timer (br s)) (br_hello_time (br s)) s in
  let s := stp_config_bpdu_generation s in
  for_each_sport stp_enable_port s.

Definition stp_disable s : stp TS :=
  let s := for_each_sport (λ i s,
    let s := if p_state (sports s i) !=? DISABLED then stp_disable_port i s else s in
    upd_br (λ b, b <| br_port_list := filter (λ j, j ≠ i) (br_port_list b) |>) s) s in
  let s := upd_br (λ b, b <| br_topology_change := 0 |>
                          <| br_topology_change_detected := 0 |>) s in
  let s := del_timer (br_hello_timer (br s)) s in
  let s := del_timer (br_topology_change_timer (br s)) s in
  del_timer (br_tcn_timer (br s)) s.

Definition stp_set_state (state : Z) s : stp TS * Z :=
  let s := if tst state then stp_enable s else stp_disable s in
  (upd_br (λ b, b <| br_stp_enabled := state |>) s, 0).

(** ** Timers *)

Definition stp_is_designated_for_some_port s : bool :=
  existsb (λ i, (p_state (sports s i) !=? DISABLED) &&
                (memcmp_bid (p_designated_bridge (sports s i)) (br_bridge_id (br s)) =? 0))
    (br_port_list (br s)).

Definition stp_hello_timer_expired s : stp TS :=
  let s := stp_config_bpdu_generation s in
  mod_timer (br_hello_timer (br s)) (br_hello_time (br s)) s.

Definition stp_message_age_timer_expired (i : nat) s : stp TS :=
  if p_state (sports s i) =? DISABLED then s
  else
    let s := upd_sport i (λ p, p <| p_is_own_bpdu := 0 |>) s in
    let was_root := stp_is_root_bridge s in
    let s := stp_become_designated_port i s in
    let s := stp_configuration_update s in
    let s := stp_port_state_selection s in
    maybe_become_root was_root s.

Definition stp_forward_delay_timer_expired (i : nat) s : stp TS :=
  if p_state (sports s i) =? LISTENING then
    let s := upd_sport i (λ p, p <| p_state := LEARNING |>) s in
    mod_timer (p_forward_delay_timer (sports s i)) (br_forward_delay (br s)) s
  else if p_state (sports s i) =? LEARNING then
    let s := upd_sport i (λ p, p <| p_state := FORWARDING |>) s in
    if stp_is_designated_for_some_port s then stp_topology_change_detection s else s
  else s.

Definition stp_tcn_timer_expired s : stp TS :=
  let s := stp_transmit_tcn s in
  mod_timer (br_tcn_timer (br s)) (br_bridge_hello_time (br s)) s.

Definition stp_topology_change_timer_expired s : stp TS :=
  upd_br (λ b, b <| br_topology_change_detected := 0 |> <| br_topology_change := 0 |>) s.

Definition stp_hold_timer_expired (i : nat) s : stp TS :=
  if tst (p_config_pending (sports s i)) then stp_transmit_config i s else s.

(** ** Creation and configuration *)

(** [setup_timer (&t, ...)]: the pointer stays NULL when there is no timer. *)
Definition setup_timer s : stp TS * TIMER_ID :=
  let '(t, c) := ts_setup (ts s) in (s <| ts := c |>, t).

Definition stp_timer_init s : stp TS :=
  let '(s, t) := setup_timer s in
  let s := upd_br (λ b, b <| br_hello_timer := t |>) s in
  let '(s, t) := setup_timer s in
  let s := upd_br (λ b, b <| br_tcn_timer := t |>) s in
  let '(s, t) := setup_timer s in
  upd_br (λ b, b <| br_topology_change_timer := t |>) s.

Definition stp_port_timer_init (i : nat) s : stp TS :=
  let '(s, t) := setup_timer s in
  let s := upd_sport i (λ p, p <| p_message_age_timer := t |>) s in
  let '(s, t) := setup_timer s in
  let s := upd_sport i (λ p, p <| p_forward_delay_timer := t |>) s in
  let '(s, t) := setup_timer s in
  upd_sport i (λ p, p <| p_hold_timer := t |>) s.

Definition bid0 : BRIDGEID := mk_bid 0 [0; 0; 0; 0; 0; 0].

Definition sport0 : stp_port_entry :=
  mk_sport 0 0 0 0 bid0 bid0 None None None 0 0 0 0 0 0 0.

Definition stp_init_stp_instance (vlan_id : Z) s : stp TS :=
  let s := upd_br (λ b, b
    <| br_port_list := [] |>
    <| br_vlan_id := vlan_id |>
    <| br_stp_enabled := 0 |>
    <| br_priority := STP_DEF_PRIORITY |>
    <| br_designated_root := mk_bid STP_DEF_PRIORITY (this_bridge_addr E) |>
    <| br_bridge_id := mk_bid STP_DEF_PRIORITY (this_bridge_addr E) |>
    <| br_root_path_cost := 0 |>
    <| br_root_port := 0 |>
    <| br_max_age := STP_DEF_MAX_AGE |>
    <| br_hello_time := STP_DEF_HELLO_TIME |>
    <| br_forward_delay := STP_DEF_FWD_DELAY |>
    <| br_bridge_max_age := STP_DEF_MAX_AGE |>
    <| br_bridge_hello_time := STP_DEF_HELLO_TIME |>
    <| br_bridge_forward_delay := STP_DEF_FWD_DELAY |>
    <| br_topology_change := 0 |>
    <| br_topology_change_detected := 1 |>) s in
  stp_timer_init s.

Definition stp_create_port (port : Z) s : stp TS * Z :=
  if s_malloc_ok E then
    let i := snext s in
    let s := s <| snext := S i |> in
    let s := upd_sport i (λ _, sport0
      <| p_port_no := u32 port |>
      <| p_priority := STP_DEF_PORT_PRIO |>
      <| p_designated_root := bid0 <| addr := this_bridge_addr E |> |>
      <| p_designated_bridge := bid0 <| addr := this_bridge_addr E |> |>
      <| p_designated_cost := STP_DEF_DESG_COST |>
      <| p_path_cost := STP_DEF_PATH_COST |>) s in
    let s := stp_port_timer_init i s in
    (upd_br (λ b, b <| br_port_list := br_port_list b ++ [i] |>) s, 0)
  else (s, -1).

Definition stp_delete_port (port : Z) s : stp TS * Z :=
  match stp_get_port_info s port with
  | None => (s, 0)
  | Some i =>
      (upd_br (λ b, b <| br_port_list := filter (λ j, j ≠ i) (br_port_list b) |>) s, 0)
  end.

(** The rewriting of an address in the ports of [stp_change_bridge_id]. *)
Definition replace_addr (old new : list Z) (b : BRIDGEID) : BRIDGEID :=
  if negb (compare_ether_addr (addr b) old) then b <| addr := new |> else b.

Definition stp_change_bridge_id (a : list Z) s : stp TS :=
  let wasroot := stp_is_root_bridge s in
  let old := addr (br_bridge_id (br s)) in
  let s := upd_br (λ b, b <| br_bridge_id := (br_bridge_id b) <| addr := a |> |>) s in
  let s := for_each_sport (λ i, upd_sport i (λ p, p
    <| p_designated_bridge := replace_addr old a (p_designated_bridge p) |>
    <| p_designated_root := replace_addr old a (p_designated_root p) |>)) s in
  let s := stp_configuration_update s in
  let s := stp_port_state_selection s in
  maybe_become_root wasroot s.

(** The setters of stp_if.c on the instance that [get_this_bridge_entry] found. *)
Definition set_bridge_priority (newprio : Z) s : stp TS * Z :=
  let wasroot := stp_is_root_bridge s in
  let s := for_each_sport (λ i s,
    if (p_state (sports s i) !=? DISABLED) && stp_is_designated_port s i
    then upd_sport i (λ p, p <| p_designated_bridge :=
           (p_designated_bridge p) <| prio := newprio |> |>) s
    else s) s in
  let s := upd_br (λ b, b <| br_bridge_id := (br_bridge_id b) <| prio := newprio |> |>) s in
  let s := stp_configuration_update s in
  let s := stp_port_state_selection s in
  (maybe_become_root wasroot s, 0).

Definition set_bridge_hello_time (hello : Z) s : stp TS * Z :=
  if (hello <? STP_MIN_HELLO_TIME) || (hello >? STP_MAX_HELLO_TIME) then (s, -1)
  else if tst (bridge_timer_relation (br_bridge_forward_delay (br s))
                 (br_bridge_max_age (br s)) hello) then (s, -1)
  else
    let s := upd_br (λ b, b <| br_bridge_hello_time := hello |>) s in
    (if stp_is_root_bridge s
     then upd_br (λ b, b <| br_hello_time := br_bridge_hello_time b |>) s else s, 0).

Definition set_bridge_forward_delay (fwd_dly : Z) s : stp TS * Z :=
  if (fwd_dly <? STP_MIN_FORWARD_DELAY) || (fwd_dly >? STP_MAX_FORWARD_DELAY) then (s, -1)
  else if tst (bridge_timer_relation fwd_dly (br_bridge_max_age (br s))
                 (br_bridge_hello_time (br s))) then (s, -1)
  else
    let s := upd_br (λ b, b <| br_bridge_forward_delay := fwd_dly |>) s in
    (if stp_is_root_bridge s
     then upd_br (λ b, b <| br_forward_delay := fwd_dly |>) s else s, 0).

Definition set_bridge_max_age (max_age : Z) s : stp TS * Z :=
  if (max_age <? STP_MIN_MAX_AGE) || (max_age >? STP_MAX_MAX_AGE) then (s, -1)
  else if tst (bridge_timer_relation (br_bridge_forward_delay (br s)) max_age
                 (br_bridge_hello_time (br s))) then (s, -1)
  else
    let s := upd_br (λ b, b <| br_bridge_max_age := max_age |>) s in
    (if stp_is_root_bridge s
     then upd_br (λ b, b <| br_max_age := max_age |>) s else s, 0).

Definition set_bridge_times (fdly maxage htime : Z) s : stp TS * Z :=
  let htime := if htime <? 0 then br_bridge_hello_time (br s) else htime in
  let fdly := if fdly <? 0 then br_bridge_forward_delay (br s) else fdly in
  let maxage := if maxage <? 0 then br_bridge_max_age (br s) else maxage in
  if tst (bridge_timer_relation fdly maxage htime) then (s, -1)
  else
    let s := upd_br (λ b, b <| br_bridge_forward_delay := fdly |>
                            <| br_bridge_max_age := maxage |>
                            <| br_bridge_hello_time := htime |>) s in
    (if stp_is_root_bridge s then
       upd_br (λ b, b <| br_max_age := maxage |> <| br_forward_delay := fdly |>
                      <| br_hello_time := htime |>) s
     else s, 0).

Definition stp_set_port_priority (i : nat) (newprio : Z) s : stp TS :=
  let new_port_id := stp_make_port_id newprio (u16 (p_port_no (sports s i))) in
  let s :=
    if stp_is_designated_port s i
    then upd_sport i (λ p, p <| p_designated_port := new_port_id |>) s else s in
  let s := upd_sport i (λ p, p <| p_port_id := new_port_id |>
                               <| p_priority := newprio |>) s in
  if (memcmp_bid (br_bridge_id (br s)) (p_designated_bridge (sports s i)) =? 0) &&
     (p_port_id (sports s i) <? p_designated_port (sports s i))
  then stp_port_state_selection (stp_become_designated_port i s) else s.

Definition stp_set_path_cost (i : nat) (path_cost : Z) s : stp TS :=
  let s := upd_sport i (λ p, p <| p_path_cost := s32 path_cost |>) s in
  stp_port_state_selection (stp_configuration_update s).

Definition stp_is_mac_learning_allowed (port : Z) s : bool :=
  match if_stp_info s port with
  | Some i =>
      negb ((p_state (sports s i) !=? LEARNING) && (p_state (sports s i) !=? FORWARDING))
  | None => true
  end.

End Operations.
