(* ===== verification/StpFrame.v ===== *)
(** * Spanning tree: what the operations leave alone

    [quiet s x] says that the step from [s] to [x] changes no port and no instance
    but for the fields that transmission, topology changes and the times of the
    root touch ([pcore] and [bcore] clear them), and dereferences no NULL pointer.
    Transmission and the topology change functions are quiet in every state whose
    timers exist and whose root port, if any, is in the list ([alive]). *)

From stdpp Require Import sets.
From S2P Require Import Prelude TimerIface StpTypes Stp.

Definition pcore (p : stp_port_entry) : stp_port_entry :=
  mk_sport (p_priority p) (p_state p) (p_designated_cost p) (p_path_cost p)
    (p_designated_root p) (p_designated_bridge p) (p_forward_delay_timer p)
    (p_hold_timer p) (p_message_age_timer p) (p_designated_port p) (p_port_id p)
    (p_port_no p) 0 0 (p_is_own_bpdu p) (p_enabled p).

Definition bcore (b : stp_instance) : stp_instance :=
  mk_br (br_vlan_id b) (br_stp_enabled b) (br_priority b) (br_designated_root b)
    (br_bridge_id b) 0 0 0 (br_bridge_max_age b) (br_bridge_hello_time b)
    (br_bridge_forward_delay b) (br_hello_timer b) (br_tcn_timer b)
    (br_topology_change_timer b) (br_root_path_cost b) (br_root_port b) 0 0
    (br_port_list b).

Section Frame.
Context {TS : Type} `{TimerService TS} (E : stp_env).

Implicit Types s x y : stp TS.

Definition quiet s x : Prop :=
  (∀ j, pcore (sports x j) = pcore (sports s j)) ∧ bcore (br x) = bcore (br s) ∧
  snext x = snext s ∧ if_stp_info x = if_stp_info s ∧ fault x = fault s.

(** The timers of the instance and of a port exist. *)
Definition br_timers (b : stp_instance) : Prop :=
  is_Some (br_hello_timer b) ∧ is_Some (br_tcn_timer b) ∧ is_Some (br_topology_change_timer b).

Definition port_timers (p : stp_port_entry) : Prop :=
  is_Some (p_forward_delay_timer p) ∧ is_Some (p_hold_timer p) ∧ is_Some (p_message_age_timer p).

(** The bridge is the root, or its root port is an enabled port of the list. *)
Definition rooted s : Prop :=
  stp_is_root_bridge s = true ∨
  ∃ r, r ∈ br_port_list (br s) ∧ p_port_no (sports s r) = br_root_port (br s) ∧
       p_state (sports s r) ≠ DISABLED.

(** The linked ports are distinct allocated structures with timers and a port
    number of 16 bits. *)
Definition ports_ok s : Prop :=
  NoDup (br_port_list (br s)) ∧
  ∀ i, i ∈ br_port_list (br s) →
    (i < snext s)%nat ∧ port_timers (sports s i) ∧ 0 < p_port_no (sports s i) < 2 ^ 16.

Definition alive s : Prop := br_timers (br s) ∧ ports_ok s ∧ rooted s.

(** ** Ports after an update *)

Lemma sports_upd i f s j :
  sports (upd_sport i f s) j = if decide (i = j) then f (sports s i) else sports s j.
Proof.
  unfold upd_sport; cbn. destruct (decide (i = j)) as [->|].
  - by rewrite fn_lookup_insert.
  - by rewrite fn_lookup_insert_ne.
Qed.

Lemma sports_upd_eq i f s : sports (upd_sport i f s) i = f (sports s i).
Proof. rewrite sports_upd. by rewrite decide_True. Qed.

Lemma sports_upd_ne i j f s : i ≠ j → sports (upd_sport i f s) j = sports s j.
Proof. intros. rewrite sports_upd. by rewrite decide_False. Qed.

(** ** Quiet steps *)

Lemma quiet_refl s : quiet s s.
Proof. done. Qed.

Lemma quiet_trans s x y : quiet s x → quiet x y → quiet s y.
Proof.
  intros (Ha&?&?&?&?) (Hb&?&?&?&?). split_and!; [|congruence..]. intros j. by rewrite Hb.
Qed.

Lemma quiet_port s x i f :
  (∀ p, pcore (f p) = pcore p) → quiet s x → quiet s (upd_sport i f x).
Proof.
  intros Hf Hx. eapply quiet_trans; [exact Hx|]. split_and!; try done.
  intros j. rewrite sports_upd. case_decide; subst; auto.
Qed.

Lemma quiet_br s x f :
  (∀ b, bcore (f b) = bcore b) → quiet s x → quiet s (upd_br f x).
Proof. intros Hf (?&?&?&?&?). split_and!; try done. cbn. by rewrite Hf. Qed.

Lemma quiet_if s (b : bool) x y : quiet s x → quiet s y → quiet s (if b then x else y).
Proof. by destruct b. Qed.

Lemma quiet_mod s x t v : quiet s x → quiet s (mod_timer t v x).
Proof. by destruct t. Qed.

Lemma quiet_del s x t : is_Some t → quiet s x → quiet s (del_timer t x).
Proof. intros [h ->]. done. Qed.

Lemma quiet_sent s x l : quiet s x → quiet s (x <| ssent := l |>).
Proof. done. Qed.

(** What a quiet step keeps. *)
Lemma bcore_fields b c :
  bcore b = bcore c →
  br_bridge_id b = br_bridge_id c ∧ br_designated_root b = br_designated_root c ∧
  br_port_list b = br_port_list c ∧ br_root_port b = br_root_port c ∧
  br_root_path_cost b = br_root_path_cost c ∧ br_stp_enabled b = br_stp_enabled c ∧
  br_hello_timer b = br_hello_timer c ∧ br_tcn_timer b = br_tcn_timer c ∧
  br_topology_change_timer b = br_topology_change_timer c.
Proof. destruct b, c. unfold bcore. cbn. intros [= ]. subst. done. Qed.

Lemma pcore_fields p q :
  pcore p = pcore q →
  p_state p = p_state q ∧ p_port_no p = p_port_no q ∧ p_port_id p = p_port_id q ∧
  p_designated_bridge p = p_designated_bridge q ∧
  p_designated_port p = p_designated_port q ∧ p_is_own_bpdu p = p_is_own_bpdu q ∧
  p_forward_delay_timer p = p_forward_delay_timer q ∧ p_hold_timer p = p_hold_timer q ∧
  p_message_age_timer p = p_message_age_timer q.
Proof. destruct p, q. unfold pcore. cbn. intros [= ]. subst. done. Qed.

Lemma quiet_alive s x : quiet s x → alive s → alive x.
Proof.
  intros (Hp & Hb & Hn & _ & _) (Ht & [Hd Hl] & Hr).
  destruct (bcore_fields _ _ Hb) as (B1 & B2 & B3 & B4 & B5 & B6 & B7 & B8 & B9).
  split_and!.
  - unfold br_timers. by rewrite B7, B8, B9.
  - split; [by rewrite B3|]. rewrite B3, Hn. intros i Hi.
    destruct (pcore_fields _ _ (Hp i)) as (P1 & P2 & P3 & P4 & P5 & P6 & P7 & P8 & P9).
    unfold port_timers. rewrite P2, P7, P8, P9. by apply Hl.
  - destruct Hr as [Hr|(r & Hr & Hno & Hst)]; [left|right].
    + unfold stp_is_root_bridge in *. by rewrite B1, B2.
    + exists r. destruct (pcore_fields _ _ (Hp r)) as (P1 & P2 & _). by rewrite B3, B4, P1, P2.
Qed.

(** ** Finding ports *)

Lemma find_some_in {A} (f : A → bool) l a : find f l = Some a → a ∈ l ∧ f a = true.
Proof. intros Hf%find_some. by rewrite list_elem_of_In. Qed.

Lemma find_exists {A} (f : A → bool) l a : a ∈ l → f a = true → ∃ b, find f l = Some b.
Proof.
  induction l as [|x l IH]; [by intros ?%elem_of_nil|]. cbn.
  intros [->|Hin]%elem_of_cons Ha; [rewrite Ha; eauto|]. destruct (f x); eauto.
Qed.

(** The port of a number in the list. *)
Lemma get_port_found s i :
  ports_ok s → i ∈ br_port_list (br s) →
  ∃ r, stp_get_port s (p_port_no (sports s i)) = Some r ∧ r ∈ br_port_list (br s) ∧
       p_port_no (sports s r) = p_port_no (sports s i).
Proof.
  intros [_ Hl] Hi. destruct (Hl i Hi) as (_ & _ & Hno). unfold stp_get_port.
  rewrite u16_small by lia.
  destruct (find_exists (λ r, p_port_no (sports s r) =? p_port_no (sports s i)) _ i Hi)
    as [r Hr]; [apply Z.eqb_refl|].
  exists r. split; [done|]. apply find_some_in in Hr as [Hr ?]. by bool_to_prop.
Qed.

Lemma rooted_message_age s : alive s → ∃ a, config_message_age s = Some a.
Proof.
  intros (_ & Hp & Hr). unfold config_message_age.
  destruct (stp_is_root_bridge s) eqn:E1; [eauto|].
  destruct Hr as [Hr|(r & Hin & Hno & _)]; [congruence|].
  destruct (get_port_found s r Hp Hin) as (r' & Hf & _). rewrite <- Hno, Hf. cbn. eauto.
Qed.

(** ** Transmission and topology changes are quiet *)

Lemma send_bpdu_quiet s x i d : quiet s x → quiet s (stp_send_bpdu E i d x).
Proof. intros. unfold stp_send_bpdu. by destruct (s_malloc_ok E). Qed.

Lemma transmit_tcn_quiet s x : quiet s x → quiet s (stp_transmit_tcn E x).
Proof.
  intros. unfold stp_transmit_tcn, stp_send_tcn_bpdu.
  destruct (stp_get_port _ _); [|done]. apply quiet_if; [done|]. by apply send_bpdu_quiet.
Qed.

Lemma transmit_config_quiet s i : alive s → quiet s (stp_transmit_config E i s).
Proof.
  intros Ha. unfold stp_transmit_config. destruct (rooted_message_age s Ha) as [a ->].
  apply quiet_if; [by apply quiet_port|]. apply quiet_if; [|done]. cbv zeta.
  apply quiet_mod, quiet_port; [done|]. unfold stp_send_config_bpdu.
  apply quiet_if; [done|]. by apply send_bpdu_quiet.
Qed.

(** A loop of quiet steps. *)
Lemma quiet_for_each s body :
  (∀ i x, alive x → quiet x (body i x)) → alive s → quiet s (for_each_sport body s).
Proof.
  unfold for_each_sport. intros Hb Ha. generalize (br_port_list (br s)). intros l.
  assert (∀ x, alive x → quiet s x → quiet s (foldl (λ s i, body i s) x l)) as IH; [|auto using quiet_refl].
  induction l as [|i l IH]; intros x Hx Hq; cbn; [done|]. apply IH.
  - eapply quiet_alive; [|exact Hx]. auto.
  - eapply quiet_trans; [exact Hq|]. auto.
Qed.

Lemma config_generation_quiet s : alive s → quiet s (stp_config_bpdu_generation E s).
Proof.
  intros Ha. apply quiet_for_each; [|done]. intros i x Hx.
  apply quiet_if; [by apply transmit_config_quiet|done].
Qed.

Lemma topology_change_detection_quiet s : quiet s (stp_topology_change_detection E s).
Proof.
  unfold stp_topology_change_detection. cbv zeta. apply quiet_if; [done|].
  apply quiet_br; [done|]. apply quiet_if; [|apply quiet_if; [|done]].
  - apply quiet_mod. by apply quiet_br.
  - by apply quiet_mod, transmit_tcn_quiet.
Qed.

Lemma del_timer_quiet s t : is_Some t → quiet s (del_timer t s).
Proof. intros. by apply quiet_del. Qed.

Lemma become_root_quiet s : alive s → quiet s (stp_become_root_bridge E s).
Proof.
  intros Ha. unfold stp_become_root_bridge. cbv zeta. apply quiet_mod.
  set (x1 := upd_br _ s). assert (quiet s x1) as Q1 by (by apply quiet_br).
  set (x2 := stp_topology_change_detection E x1).
  assert (quiet s x2) as Q2
    by (eapply quiet_trans; [exact Q1|apply topology_change_detection_quiet]).
  assert (quiet s (del_timer (br_tcn_timer (br x2)) x2)) as Q3.
  { apply quiet_del; [|done]. apply (quiet_alive _ _ Q2 Ha). }
  eapply quiet_trans; [exact Q3|]. apply config_generation_quiet.
  by eapply quiet_alive.
Qed.

Lemma maybe_become_root_quiet s b : alive s → quiet s (maybe_become_root E b s).
Proof. intros. unfold maybe_become_root. apply quiet_if; [by apply become_root_quiet|done]. Qed.

Lemma stop_being_root_quiet s : alive s → quiet s (stop_being_root E s).
Proof.
  intros Ha. unfold stop_being_root. cbv zeta.
  set (x := del_timer (br_hello_timer (br s)) s).
  assert (quiet s x) as Q1 by (apply del_timer_quiet, Ha).
  apply quiet_if; [|done]. apply quiet_mod, transmit_tcn_quiet, quiet_del; [|done].
  apply (quiet_alive _ _ Q1 Ha).
Qed.

End Frame.
