(* ===== verification/StpSelect.v ===== *)
(** * Spanning tree: the selection of the port states

    [stp_port_state_selection] puts every enabled port into the state its role
    demands: a root or designated port leaves [BLOCKING], every other port enters
    it. *)

From stdpp Require Import sets.
From S2P Require Import Prelude TimerIface StpTypes Stp StpFrame.

Section Select.
Context {TS : Type} `{TimerService TS} (E : stp_env).

Implicit Types s x y : stp TS.

(** The port may send and receive frames of the spanning tree: it is the root
    port, or a designated port that has not heard itself. *)
Definition active_role s (i : nat) : bool :=
  (p_port_no (sports s i) =? br_root_port (br s)) ||
  ((p_is_own_bpdu (sports s i) =? 0) && stp_is_designated_port s i).

(** The state of port [i] fits its role. *)
Definition state_fits s (i : nat) : Prop :=
  let st := p_state (sports s i) in
  st = DISABLED ∨
  if active_role s i then st = LISTENING ∨ st = LEARNING ∨ st = FORWARDING else st = BLOCKING.

Definition is_sstate (st : Z) : Prop :=
  st = DISABLED ∨ st = LISTENING ∨ st = LEARNING ∨ st = FORWARDING ∨ st = BLOCKING.

(** The step from [s] to [x] sets the state of port [i] to [st] and is quiet
    otherwise. *)
Definition sets_state (i : nat) (st : Z) s x : Prop :=
  quiet (upd_sport i (λ p, p <| p_state := st |>) s) x.

Lemma pcore_set_state p q v :
  pcore p = pcore q → pcore (p <| p_state := v |>) = pcore (q <| p_state := v |>).
Proof. destruct p, q. unfold pcore. cbn. intros [= ]. subst. done. Qed.

Lemma sets_state_same s x i : quiet s x → sets_state i (p_state (sports s i)) s x.
Proof.
  intros (Hp & Hb & Hn & Hi & Hf). split_and!; try done. intros j. rewrite Hp, sports_upd.
  case_decide; [subst|done]. by destruct (sports s j).
Qed.

(** A quiet step, the assignment, and another quiet step. *)
Lemma sets_state_upd s x y i st :
  quiet s x → quiet (upd_sport i (λ p, p <| p_state := st |>) x) y → sets_state i st s y.
Proof.
  intros (Hp & Hb & Hn & Hi & Hf) Hq. eapply quiet_trans; [|exact Hq].
  split_and!; try done. intros j. rewrite !sports_upd.
  case_decide; subst; [by apply pcore_set_state|done].
Qed.

Lemma sets_state_alive s x i st :
  (p_state (sports s i) ≠ DISABLED → st ≠ DISABLED) →
  sets_state i st s x → alive s → alive x.
Proof.
  intros Hst Hq (Ht & [Hd Hl] & Hr). eapply quiet_alive; [exact Hq|]. split_and!; [done| |].
  - split; [done|]. intros j Hj. rewrite sports_upd. case_decide; subst; by apply Hl.
  - destruct Hr as [Hr|(r & Hin & Hno & Hs)]; [by left|right].
    exists r. split; [done|]. rewrite sports_upd. case_decide; subst; auto.
Qed.

(** The roles do not depend on the states. *)
Lemma sets_state_fields s x i st j :
  sets_state i st s x →
  p_state (sports x j) = (if decide (i = j) then st else p_state (sports s j)) ∧
  active_role x j = active_role s j.
Proof.
  intros (Hp & Hb & _).
  destruct (pcore_fields _ _ (Hp j)) as (P1 & P2 & P3 & P4 & P5 & P6 & _).
  destruct (bcore_fields _ _ Hb) as (B1 & _ & _ & B4 & _).
  rewrite P1. unfold active_role, stp_is_designated_port. rewrite P2, P3, P4, P5, P6, B1, B4.
  rewrite sports_upd. case_decide; subst; done.
Qed.

(** ** One port *)

Lemma make_blocking_sets s i :
  alive s → i ∈ br_port_list (br s) → p_state (sports s i) ≠ DISABLED →
  sets_state i BLOCKING s (stp_make_blocking E i s).
Proof.
  intros Ha Hi Hst. unfold stp_make_blocking. cbv zeta.
  destruct (p_state (sports s i) =? DISABLED) eqn:E1; bool_to_prop; [done|].
  destruct (p_state (sports s i) =? BLOCKING) eqn:E2; bool_to_prop; cbn [negb andb].
  { rewrite <- E2. apply sets_state_same, quiet_refl. }
  set (y := if _ || _ then _ else s).
  assert (quiet s y) as Hy.
  { apply quiet_if; [apply topology_change_detection_quiet|done]. }
  eapply sets_state_upd; [exact Hy|]. apply del_timer_quiet.
  rewrite sports_upd_eq. destruct (quiet_alive _ _ Hy Ha) as (_ & [_ Hl] & _).
  apply Hl. destruct Hy as (_ & Hb & _).
  by destruct (bcore_fields _ _ Hb) as (_ & _ & -> & _).
Qed.

(** The state a port leaves [BLOCKING] for. *)
Definition forwarding_state s : Z :=
  if br_forward_delay (br s) =? 0 then FORWARDING
  else if br_stp_enabled (br s) =? STP_ENABLED then LISTENING else LEARNING.

Lemma make_forwarding_sets s i :
  alive s → i ∈ br_port_list (br s) →
  sets_state i (if p_state (sports s i) =? BLOCKING then forwarding_state s
                else p_state (sports s i)) s (stp_make_forwarding E i s).
Proof.
  intros Ha Hi. unfold stp_make_forwarding. cbv zeta.
  destruct (p_state (sports s i) =? BLOCKING) eqn:E1; bool_to_prop; cbn [negb].
  2: { apply sets_state_same, quiet_refl. }
  unfold forwarding_state. destruct (br_forward_delay (br s) =? 0) eqn:E2.
  - set (x1 := upd_sport i _ s).
    pose proof (topology_change_detection_quiet E x1) as Q1.
    set (x2 := stp_topology_change_detection E x1) in *.
    assert (is_Some (p_forward_delay_timer (sports x2 i))) as Ht.
    { destruct Q1 as (Hp & _). destruct (pcore_fields _ _ (Hp i)) as (_&_&_&_&_&_&->&_).
      subst x1. rewrite sports_upd_eq. cbn. destruct Ha as (_ & [_ Hl] & _). by apply Hl. }
    assert (quiet x1 (del_timer (p_forward_delay_timer (sports x2 i)) x2)) as Q2
      by (by apply quiet_del).
    eapply sets_state_upd; [apply quiet_refl|]. fold x1.
    apply quiet_if; [by apply quiet_mod|done].
  - eapply sets_state_upd; [apply quiet_refl|]. destruct (br_stp_enabled _ =? _);
      (apply quiet_if; [by apply quiet_mod|done]).
Qed.

(** One step of the loop: the port fits its role afterwards. *)
Lemma selection_step_sets s i :
  alive s → i ∈ br_port_list (br s) → is_sstate (p_state (sports s i)) →
  ∃ st, sets_state i st s (state_selection_step E i s) ∧ is_sstate st ∧
        (p_state (sports s i) = DISABLED ↔ st = DISABLED) ∧
        (st = DISABLED ∨
         if active_role s i then st = LISTENING ∨ st = LEARNING ∨ st = FORWARDING
         else st = BLOCKING).
Proof.
  intros Ha Hi Hs. unfold state_selection_step, active_role. cbv zeta.
  destruct (p_state (sports s i) =? DISABLED) eqn:E1; bool_to_prop.
  { exists DISABLED. split; [rewrite <- E1; apply sets_state_same, quiet_refl|].
    unfold is_sstate. tauto. }
  assert (∀ x, quiet s x → i ∈ br_port_list (br x) ∧ alive x ∧
            p_state (sports x i) = p_state (sports s i)) as Hq.
  { intros x Hx. split_and!; [|by eapply quiet_alive|].
    - destruct Hx as (_ & Hb & _). by destruct (bcore_fields _ _ Hb) as (_ & _ & -> & _).
    - destruct Hx as (Hp & _). by destruct (pcore_fields _ _ (Hp i)) as (-> & _). }
  assert (∀ x, quiet s x → ∃ st, sets_state i st s (stp_make_forwarding E i x) ∧
            is_sstate st ∧ st ≠ DISABLED ∧ (st = LISTENING ∨ st = LEARNING ∨ st = FORWARDING))
    as Hf.
  { intros x Hx. destruct (Hq x Hx) as (Q1 & Q2 & Q3).
    pose proof (make_forwarding_sets x i Q2 Q1) as Hset. rewrite Q3 in Hset.
    eexists. split; [eapply sets_state_upd; [exact Hx|exact Hset]|].
    unfold is_sstate, forwarding_state, DISABLED, BLOCKING, LISTENING, LEARNING, FORWARDING in *.
    split_if; bool_to_prop; lia. }
  destruct (p_port_no (sports s i) =? br_root_port (br s)) eqn:E2; cbn [orb].
  { set (x := upd_sport i _ s).
    destruct (Hf x) as (st & ? & ? & ? & ?); [by apply quiet_port|].
    exists st. tauto. }
  destruct ((p_is_own_bpdu (sports s i) =? 0) && stp_is_designated_port s i) eqn:E3.
  { destruct (Hf (del_timer (p_message_age_timer (sports s i)) s)) as (st & ? & ? & ? & ?).
    - apply del_timer_quiet. destruct Ha as (_ & [_ Hl] & _). by apply Hl.
    - exists st. tauto. }
  set (x := upd_sport i _ s). assert (quiet s x) as Hx by (by apply quiet_port).
  destruct (Hq x Hx) as (Q1 & Q2 & Q3).
  exists BLOCKING. split.
  - eapply sets_state_upd; [exact Hx|]. apply make_blocking_sets; [done|done|by rewrite Q3].
  - unfold is_sstate, BLOCKING, DISABLED in *. split_and!; [tauto|lia|tauto].
Qed.

End Select.
