(* ===== verification/StpInv.v ===== *)
(** * Spanning tree: the invariants of an instance

    The calls of the switch on a spanning tree instance, and what holds in every
    state they reach: no NULL pointer is dereferenced, and a port that is not
    blocked is the root port or a designated port. *)

From stdpp Require Import relations sets.
From S2P Require Import Prelude TimerIface StpTypes Stp StpFrame StpSelect.

Section Invariant.
Context {TS : Type} `{TimerService TS} (E : stp_env).

Implicit Types s x y : stp TS.

(** ** Well-formed states *)

(** No NULL dereference so far, timers and ports in order, legal states. *)
Definition base s : Prop :=
  fault s = false ∧ br_timers (br s) ∧ ports_ok s ∧
  ∀ i, i ∈ br_port_list (br s) → is_sstate (p_state (sports s i)).

(** A port that is not blocked has an active role. *)
Definition safe s : Prop :=
  ∀ i, i ∈ br_port_list (br s) →
    p_state (sports s i) = LISTENING ∨ p_state (sports s i) = LEARNING ∨
    p_state (sports s i) = FORWARDING → active_role s i = true.

Definition inv s : Prop := base s ∧ rooted s ∧ safe s.

Lemma inv_alive s : inv s → alive s.
Proof. intros ((_ & Ht & Hp & _) & Hr & _). done. Qed.

Lemma base_alive s : base s → rooted s → alive s.
Proof. intros (_ & Ht & Hp & _) Hr. done. Qed.

(** The fields of a port that [base] reads. *)
Definition shape (p : stp_port_entry) : Z * TIMER_ID * TIMER_ID * TIMER_ID :=
  (p_port_no p, p_forward_delay_timer p, p_hold_timer p, p_message_age_timer p).

Lemma base_port s i f :
  shape (f (sports s i)) = shape (sports s i) →
  (is_sstate (p_state (sports s i)) → is_sstate (p_state (f (sports s i)))) →
  base s → base (upd_sport i f s).
Proof.
  intros Hf Hst (Hfa & Ht & [Hd Hl] & Hs). split_and!; try done.
  - split; [done|]. intros j Hj. destruct (Hl j Hj) as (L1 & L2 & L3). split; [done|].
    rewrite sports_upd. case_decide; subst; [|done].
    unfold shape in Hf. injection Hf as F1 F2 F3 F4.
    unfold port_timers. by rewrite F1, F2, F3, F4.
  - intros j Hj. rewrite sports_upd. case_decide; subst; auto.
Qed.

Lemma base_br s f :
  (∀ b, br_port_list (f b) = br_port_list b ∧ br_hello_timer (f b) = br_hello_timer b ∧
        br_tcn_timer (f b) = br_tcn_timer b ∧
        br_topology_change_timer (f b) = br_topology_change_timer b) →
  base s → base (upd_br f s).
Proof.
  intros Hf (Hfa & Ht & [Hd Hl] & Hs). destruct (Hf (br s)) as (F1 & F2 & F3 & F4).
  split_and!; try done.
  - unfold br_timers. cbn. by rewrite F2, F3, F4.
  - unfold ports_ok. cbn. by rewrite F1.
  - cbn. by rewrite F1.
Qed.

Lemma base_ts s c : base s → base (s <| ts := c |>).
Proof. done. Qed.

Lemma base_mod s t v : base s → base (mod_timer t v s).
Proof. by destruct t. Qed.

Lemma base_del s t : is_Some t → base s → base (del_timer t s).
Proof. intros [h ->]. done. Qed.

Lemma base_if s (b : bool) x y : base x → base y → base (if b then x else y).
Proof. by destruct b. Qed.

Lemma base_for_each s body :
  (∀ i x, base x → base (body i x)) → base s → base (for_each_sport body s).
Proof.
  unfold for_each_sport. intros Hb. generalize (br_port_list (br s)). intros l.
  revert s. induction l as [|i l IH]; intros s Hs; cbn; auto.
Qed.

Lemma quiet_base s x : quiet s x → base s → base x.
Proof.
  intros (Hp & Hb & Hn & _ & Hf) (Hfa & Ht & [Hd Hl] & Hs).
  destruct (bcore_fields _ _ Hb) as (B1 & B2 & B3 & B4 & B5 & B6 & B7 & B8 & B9).
  split_and!; [congruence| | |].
  - unfold br_timers. by rewrite B7, B8, B9.
  - unfold ports_ok. rewrite B3, Hn. split; [done|]. intros i Hi.
    destruct (pcore_fields _ _ (Hp i)) as (P1 & P2 & P3 & P4 & P5 & P6 & P7 & P8 & P9).
    unfold port_timers. rewrite P2, P7, P8, P9. by apply Hl.
  - rewrite B3. intros i Hi. destruct (pcore_fields _ _ (Hp i)) as (-> & _). auto.
Qed.

Lemma quiet_inv s x : quiet s x → inv s → inv x.
Proof.
  intros Hq Hi. pose proof (inv_alive s Hi) as Ha. destruct Hi as (Hb & Hr & Hs).
  split_and!; [by eapply quiet_base|by apply (quiet_alive _ _ Hq Ha)|].
  destruct Hq as (Hp & Hbr & _). intros i Hi Hst.
  destruct (bcore_fields _ _ Hbr) as (B1 & _ & B3 & B4 & _).
  destruct (pcore_fields _ _ (Hp i)) as (P1 & P2 & P3 & P4 & P5 & P6 & _).
  rewrite B3 in Hi. rewrite P1 in Hst. specialize (Hs i Hi Hst).
  unfold active_role, stp_is_designated_port in *. by rewrite P2, P3, P4, P5, P6, B1, B4.
Qed.

(** ** The selection of the port states *)

(** The loop after the ports [l]. *)
Definition selected s (l : list nat) x : Prop :=
  base x ∧ rooted x ∧ br_port_list (br x) = br_port_list (br s) ∧
  (∀ i, active_role x i = active_role s i) ∧
  (∀ i, p_state (sports s i) = DISABLED → p_state (sports x i) = DISABLED) ∧
  ∀ i, i ∈ l → state_fits x i.

Lemma selected_step s l x i :
  i ∈ br_port_list (br s) → i ∉ l → selected s l x →
  selected s (l ++ [i]) (state_selection_step E i x).
Proof.
  intros Hi Hn (Hb & Hr & Hl & Ha & Hdis & Hf). rewrite <- Hl in Hi.
  assert (is_sstate (p_state (sports x i))) as Hs by (by apply Hb).
  destruct (selection_step_sets E x i (base_alive _ Hb Hr) Hi Hs) as (st & S1 & S2 & S3 & S4).
  assert (∀ j, p_state (sports (state_selection_step E i x) j) =
             (if decide (i = j) then st else p_state (sports x j)) ∧
             active_role (state_selection_step E i x) j = active_role x j) as Hx
    by (intros j; by apply sets_state_fields).
  split_and!.
  - eapply quiet_base; [exact S1|]. by apply base_port.
  - assert (p_state (sports x i) ≠ DISABLED → st ≠ DISABLED) as S5 by tauto.
    by apply (sets_state_alive _ _ _ _ S5 S1 (base_alive _ Hb Hr)).
  - destruct S1 as (_ & Hbr & _). by destruct (bcore_fields _ _ Hbr) as (_ & _ & -> & _).
  - intros j. by rewrite (proj2 (Hx j)).
  - intros j Hj. rewrite (proj1 (Hx j)). case_decide; [subst|auto]. apply S3; auto.
  - intros j Hj. unfold state_fits. destruct (Hx j) as [-> ->].
    case_decide; [by subst|]. apply Hf. apply elem_of_app in Hj as [Hj|Hj]; [done|].
    apply list_elem_of_singleton in Hj. congruence.
Qed.

Lemma selection_selects s :
  base s → rooted s →
  selected s (br_port_list (br s)) (stp_port_state_selection E s).
Proof.
  intros Hb Hr. unfold stp_port_state_selection, for_each_sport.
  pose proof Hb as (_ & _ & [Hd _] & _).
  assert (∀ l1 l2 x, NoDup (l1 ++ l2) → (∀ i, i ∈ l2 → i ∈ br_port_list (br s)) →
    selected s l1 x →
    selected s (l1 ++ l2) (foldl (λ s i, state_selection_step E i s) x l2)) as IH.
  { intros l1 l2. revert l1. induction l2 as [|i l2 IH]; intros l1 x Hnd Hin Hx; cbn.
    - by rewrite app_nil_r.
    - rewrite (cons_middle i), app_assoc in *. apply IH; [done|set_solver|].
      apply selected_step; [set_solver| |done].
      apply list.NoDup_app in Hnd as (Hnd & _ & _). apply list.NoDup_app in Hnd as (_ & Hnd & _).
      intros Hil. apply (Hnd i Hil). by apply list_elem_of_singleton. }
  apply (IH []); [done|done|]. split_and!; try done. intros i []%elem_of_nil.
Qed.

Lemma selected_inv s x : selected s (br_port_list (br s)) x → inv x.
Proof.
  intros (Hb & Hr & Hl & Ha & _ & Hf). split_and!; [done|done|]. intros i Hi Hst.
  rewrite Hl in Hi. destruct (Hf i Hi) as [Hd|Hd].
  - destruct Hst as [Hst|[Hst|Hst]]; rewrite Hst in Hd; discriminate Hd.
  - destruct (active_role x i); [done|].
    destruct Hst as [Hst|[Hst|Hst]]; rewrite Hst in Hd; discriminate Hd.
Qed.

Lemma selection_inv s : base s → rooted s → inv (stp_port_state_selection E s).
Proof. intros. eapply selected_inv. by apply selection_selects. Qed.

(** ** Root selection *)

(** The loop of the root selection: no NULL dereference, and the number found is
    0 or the number of an enabled port of the list. *)
Definition root_so_far s (acc : stp TS * Z) : Prop :=
  acc.1 = s ∧
  (acc.2 = 0 ∨ ∃ r, r ∈ br_port_list (br s) ∧ p_port_no (sports s r) = acc.2 ∧
                    p_state (sports s r) ≠ DISABLED).

Lemma should_become_root_some s i root_port :
  ports_ok s →
  (root_port = 0 ∨ ∃ r, r ∈ br_port_list (br s) ∧ p_port_no (sports s r) = root_port ∧
                        p_state (sports s r) ≠ DISABLED) →
  ∃ b, stp_should_become_root_port s i root_port = Some b ∧
       (b = true → p_state (sports s i) ≠ DISABLED).
Proof.
  intros Hp Hr. unfold stp_should_become_root_port. cbv zeta.
  destruct (p_state (sports s i) =? DISABLED) eqn:E1; cbn; [eauto|]. bool_to_prop.
  destruct (stp_is_designated_port s i); [eauto|].
  destruct (_ <=? 0); [eauto|]. destruct (root_port =? 0) eqn:E2; [eauto|]. bool_to_prop.
  destruct Hr as [Hr|(r & Hin & <- & _)]; [done|].
  destruct (get_port_found s r Hp Hin) as (r' & -> & _). cbn.
  split_if; eauto.
Qed.

Lemma root_port_step_ok s acc i :
  ports_ok s → i ∈ br_port_list (br s) → root_so_far s acc → root_so_far s (root_port_step acc i).
Proof.
  intros Hp Hi [H1 H2]. destruct acc as [x rp]. cbn in H1, H2. subst x. unfold root_port_step.
  destruct (tst _); [done|].
  destruct (should_become_root_some s i rp Hp H2) as ([] & -> & Hb); [|done].
  split; [done|]. right. exists i. cbn. destruct Hp as [_ Hl].
  destruct (Hl i Hi) as (_ & _ & Hno). rewrite u16_small by lia. auto.
Qed.

Lemma root_loop_ok s l acc :
  ports_ok s → (∀ i, i ∈ l → i ∈ br_port_list (br s)) → root_so_far s acc →
  root_so_far s (foldl root_port_step acc l).
Proof.
  intros Hp. revert acc. induction l as [|i l IH]; intros acc Hl Ha; cbn; [done|].
  apply IH; [set_solver|]. apply root_port_step_ok; [done|set_solver|done].
Qed.

Lemma root_selection_ok s :
  base s → base (stp_root_selection s) ∧ rooted (stp_root_selection s).
Proof.
  intros Hb. pose proof Hb as (_ & _ & Hp & _). unfold stp_root_selection.
  destruct (root_loop_ok s (br_port_list (br s)) (s, 0) Hp) as [H1 H2]; [done|by split; [|left]|].
  destruct (foldl _ _ _) as [x rp]. cbn in H1, H2. subst x. cbv zeta.
  destruct (rp =? 0) eqn:E1; bool_to_prop.
  - split; [by repeat (apply base_br; [done|])|]. left.
    apply Z.eqb_eq, memcmp_refl.
  - destruct H2 as [H2|(r & Hin & Hno & Hst)]; [done|].
    set (x := upd_br _ s). assert (base x) as Hx by (by apply base_br).
    assert (ports_ok x) as Hpx by apply Hx.
    destruct (get_port_found x r Hpx Hin) as (r' & Hf & _ & _).
    rewrite <- Hno. change (sports s r) with (sports x r). rewrite Hf.
    split; [by apply base_br|]. right. exists r. cbn. done.
Qed.

Lemma become_designated_base s i : base s → base (stp_become_designated_port i s).
Proof. intros. unfold stp_become_designated_port. by apply base_port. Qed.

Lemma rooted_port s i f :
  p_port_no (f (sports s i)) = p_port_no (sports s i) →
  (p_state (sports s i) ≠ DISABLED → p_state (f (sports s i)) ≠ DISABLED) →
  rooted s → rooted (upd_sport i f s).
Proof.
  intros Hf Hd [Hr|(r & Hin & Hno & Hst)]; [by left|right]. exists r. split; [done|].
  rewrite sports_upd. case_decide; [subst|done]. rewrite Hf. auto.
Qed.

Lemma configuration_update_ok s :
  base s → base (stp_configuration_update s) ∧ rooted (stp_configuration_update s).
Proof.
  intros [Hb Hr]%root_selection_ok. unfold stp_configuration_update.
  revert Hb Hr. generalize (stp_root_selection s). intros x Hb Hr.
  unfold stp_designated_port_selection, for_each_sport. generalize (br_port_list (br x)).
  intros l. revert x Hb Hr. induction l as [|i l IH]; intros x Hb Hr; cbn; [done|].
  apply IH; destruct (_ && _); auto using become_designated_base.
  unfold stp_become_designated_port. by apply rooted_port.
Qed.

(** A new configuration: the invariant holds whatever was before. *)
Lemma reconfigure_inv s :
  base s → inv (stp_port_state_selection E (stp_configuration_update s)).
Proof. intros [Hb Hr]%configuration_update_ok. by apply selection_inv. Qed.

Lemma reconfigure_root_inv s b :
  base s →
  inv (maybe_become_root E b (stp_port_state_selection E (stp_configuration_update s))).
Proof.
  intros Hi%reconfigure_inv. eapply quiet_inv; [|exact Hi].
  by apply maybe_become_root_quiet, inv_alive.
Qed.

(** ** The operations *)

Lemma inv_base s : inv s → base s.
Proof. by intros (Hb & _). Qed.

Lemma inv_br s f :
  (∀ b, br_port_list (f b) = br_port_list b ∧ br_hello_timer (f b) = br_hello_timer b ∧
        br_tcn_timer (f b) = br_tcn_timer b ∧
        br_topology_change_timer (f b) = br_topology_change_timer b ∧
        br_root_port (f b) = br_root_port b ∧ br_bridge_id (f b) = br_bridge_id b ∧
        br_designated_root (f b) = br_designated_root b) →
  inv s → inv (upd_br f s).
Proof.
  intros Hf (Hb & Hr & Hs). destruct (Hf (br s)) as (F1 & F2 & F3 & F4 & F5 & F6 & F7).
  split_and!.
  - apply base_br; [|done]. intros b. by destruct (Hf b) as (? & ? & ? & ? & _).
  - unfold rooted, stp_is_root_bridge in *. cbn. by rewrite F1, F5, F6, F7.
  - intros i Hi. cbn in Hi |- *. rewrite F1 in Hi. intros Hst.
    specialize (Hs i Hi Hst). unfold active_role, stp_is_designated_port in *. cbn.
    by rewrite F5, F6.
Qed.

(** An update of a port that keeps its state and does not end its active role. *)
Lemma inv_sport s i f :
  shape (f (sports s i)) = shape (sports s i) →
  p_state (f (sports s i)) = p_state (sports s i) →
  (active_role s i = true → active_role (upd_sport i f s) i = true) →
  inv s → inv (upd_sport i f s).
Proof.
  intros Hf Hfs Hrole (Hb & Hr & Hs). split_and!.
  - apply base_port; [done|by rewrite Hfs|done].
  - apply rooted_port; [|by rewrite Hfs|done]. unfold shape in Hf. by injection Hf.
  - intros j Hj Hst. rewrite sports_upd in Hst. case_decide as Hij; subst.
    + rewrite Hfs in Hst. apply Hrole, Hs; done.
    + specialize (Hs j Hj Hst). unfold active_role, stp_is_designated_port in *.
      by rewrite sports_upd_ne.
Qed.

(** A port moves on to learning or forwarding. *)
Lemma inv_state s i st :
  p_state (sports s i) = LISTENING ∨ p_state (sports s i) = LEARNING →
  st = LEARNING ∨ st = FORWARDING →
  inv s → inv (upd_sport i (λ p, p <| p_state := st |>) s).
Proof.
  intros Hold Hst (Hb & Hr & Hs). split_and!.
  - apply base_port; [done| |done]. intros _. unfold is_sstate. cbn. tauto.
  - destruct Hr as [Hr|(r & Hin & Hno & Hst')]; [by left|right]. exists r. split; [done|].
    rewrite sports_upd. case_decide; [subst; cbn|done]. split; [done|].
    destruct Hst as [->| ->]; done.
  - intros j Hj Hs'. rewrite sports_upd in Hs'.
    assert (active_role s j = true) as Hrole.
    { apply Hs; [done|]. case_decide; [subst; tauto|done]. }
    unfold active_role, stp_is_designated_port in *. rewrite sports_upd.
    case_decide; [subst; done|done].
Qed.

Lemma inv_own s i : inv s → inv (upd_sport i (λ p, p <| p_is_own_bpdu := 0 |>) s).
Proof.
  apply inv_sport; [done|done|]. unfold active_role, stp_is_designated_port.
  rewrite !sports_upd_eq. cbn. destruct (_ =? br_root_port _); [done|]. cbn.
  by intros [_ Hd]%andb_true_iff.
Qed.

Lemma inv_for_each s body :
  (∀ i x, inv x → inv (body i x)) → inv s → inv (for_each_sport body s).
Proof.
  unfold for_each_sport. intros Hb. generalize (br_port_list (br s)). intros l.
  revert s. induction l as [|i l IH]; intros s Hs; cbn; auto.
Qed.

Lemma inv_mod s t v : inv s → inv (mod_timer t v s).
Proof. intros. eapply quiet_inv; [by apply quiet_mod|done]. Qed.

Lemma inv_del s t : is_Some t → inv s → inv (del_timer t s).
Proof. intros. eapply quiet_inv; [by apply del_timer_quiet|done]. Qed.

Lemma transmit_config_inv s i : inv s → inv (stp_transmit_config E i s).
Proof. intros Hi. eapply quiet_inv; [|done]. by apply transmit_config_quiet, inv_alive. Qed.

Lemma config_generation_inv s : inv s → inv (stp_config_bpdu_generation E s).
Proof. intros Hi. eapply quiet_inv; [|done]. by apply config_generation_quiet, inv_alive. Qed.

Lemma topology_change_detection_inv s : inv s → inv (stp_topology_change_detection E s).
Proof. intros Hi. eapply quiet_inv; [|done]. apply topology_change_detection_quiet. Qed.

Lemma supersedes_port p b bpdu :
  let '(r, q) := stp_supersedes_port_info p b bpdu in
  shape q = shape p ∧ p_state q = p_state p ∧ (r = false → q = p).
Proof. unfold stp_supersedes_port_info. cbv zeta. split_if; done. Qed.

Lemma received_config_inv s i bpdu :
  i ∈ br_port_list (br s) → inv s → inv (stp_received_config_bpdu E i bpdu s).
Proof.
  intros Hi Hinv. unfold stp_received_config_bpdu. cbv zeta.
  set (s1 := upd_sport i _ s). assert (inv s1) as Hs1 by (by apply inv_own).
  pose proof (supersedes_port (sports s1 i) (br s1) bpdu) as Hsup.
  destruct (stp_supersedes_port_info _ _ _) as [[] q]; destruct Hsup as (Q1 & Q2 & Q3).
  - set (s2 := upd_sport i (λ _, q) s1).
    assert (base s2) as Hs2.
    { apply base_port; [done|by rewrite Q2|by apply inv_base]. }
    unfold stp_record_config_information. cbv zeta.
    set (s3 := mod_timer _ _ _). assert (base s3) as Hs3 by (by apply base_mod, base_port).
    pose proof (reconfigure_inv s3 Hs3) as Hs4. revert Hs4.
    generalize (stp_port_state_selection E (stp_configuration_update s3)). intros s4 Hs4.
    set (s5 := if _ && _ then _ else s4). assert (inv s5) as Hs5.
    { unfold s5. destruct (_ && _); [|done]. eapply quiet_inv; [|done].
      by apply stop_being_root_quiet, inv_alive. }
    destruct (_ =? _); [|done].
    set (s6 := stp_config_bpdu_generation _ _). assert (inv s6) as Hs6.
    { apply config_generation_inv. unfold stp_record_config_timeout_values. by apply inv_br. }
    clearbody s6. destruct (tst _); [|done]. unfold stp_topology_change_acknowledged. cbv zeta.
    apply inv_del; [|by apply inv_br]. apply Hs6.
  - rewrite Q3 by done. set (s2 := upd_sport i _ s1).
    assert (inv s2) as Hs2.
    { apply inv_sport; [done|done| |done]. unfold active_role, stp_is_designated_port.
      by rewrite !sports_upd_eq. }
    destruct (stp_is_designated_port s2 i); [by apply transmit_config_inv|done].
Qed.

Lemma received_tcn_inv s i : inv s → inv (stp_received_tcn_bpdu E i s).
Proof.
  intros Hi. unfold stp_received_tcn_bpdu, stp_topology_change_acknowledge.
  destruct (stp_is_designated_port s i); [|done]. apply transmit_config_inv, inv_sport;
    [done|done| |by apply topology_change_detection_inv].
  unfold active_role, stp_is_designated_port. by rewrite !sports_upd_eq.
Qed.

Lemma process_bpdu_inv s i bpdu :
  i ∈ br_port_list (br s) → inv s → inv (process_stp_bpdu_on E i bpdu s).1.
Proof.
  intros Hi Hinv. unfold process_stp_bpdu_on.
  repeat (destruct (_ =? _); [try done|]); cbn [fst];
    auto using received_config_inv, received_tcn_inv.
Qed.

(** *** Enabling and disabling *)

Lemma enable_port_inv s i : inv s → inv (stp_enable_port E i s).
Proof.
  intros (Hb & Hr & Hs). unfold stp_enable_port. destruct (_ =? _); [done|].
  unfold stp_init_port, stp_become_designated_port. cbv zeta.
  set (s1 := upd_sport i _ s). set (s2 := upd_sport i _ s1). set (s3 := upd_sport i _ s2).
  assert (p_port_no (sports s3 i) = p_port_no (sports s i)) as Hno.
  { subst s3 s2 s1. by rewrite !sports_upd_eq. }
  assert (base s3) as B3.
  { apply base_port; [done| |]; [|by do 2 (apply base_port; [done|done|])].
    intros _. unfold is_sstate. cbn. tauto. }
  assert (rooted s3) as R3 by (repeat (apply rooted_port; [done|done|]); done).
  by apply selection_inv.
Qed.

Lemma enable_inv s : inv s → inv (stp_enable E s).
Proof.
  intros Hi. unfold stp_enable. cbv zeta. apply inv_for_each; [intros; by apply enable_port_inv|].
  by apply config_generation_inv, inv_mod, inv_br.
Qed.

(** The configuration update keeps the ports and their states. *)
Lemma configuration_update_keeps s :
  base s →
  br_port_list (br (stp_configuration_update s)) = br_port_list (br s) ∧
  ∀ i, p_state (sports (stp_configuration_update s) i) = p_state (sports s i).
Proof.
  intros Hb. unfold stp_configuration_update.
  assert (br_port_list (br (stp_root_selection s)) = br_port_list (br s) ∧
          sports (stp_root_selection s) = sports s) as [L1 P1].
  { pose proof Hb as (_ & _ & Hp & _). unfold stp_root_selection.
    destruct (root_loop_ok s (br_port_list (br s)) (s, 0) Hp) as [H1 _];
      [done|by split; [|left]|].
    destruct (foldl _ _ _) as [x rp]. cbn in H1. subst x. cbv zeta.
    destruct (rp =? 0); [done|]. by destruct (stp_get_port _ _). }
  revert L1 P1. generalize (stp_root_selection s). intros x L1 P1.
  rewrite <- L1, <- P1. clear L1 P1 Hb s.
  unfold stp_designated_port_selection, for_each_sport. generalize (br_port_list (br x)) at 1 3.
  intros l. revert x. induction l as [|i l IH]; intros x; cbn; [done|].
  destruct (_ && _); [|done].
  destruct (IH (stp_become_designated_port i x)) as [I1 I2]. split; [by rewrite I1|].
  intros j. rewrite I2. unfold stp_become_designated_port. rewrite sports_upd.
  by case_decide; subst.
Qed.

(** The step from [s] to [x] leads to the invariant, keeps the list of the ports
    and enables none. *)
Definition settles s x : Prop :=
  inv x ∧ br_port_list (br x) = br_port_list (br s) ∧
  ∀ i, p_state (sports s i) = DISABLED → p_state (sports x i) = DISABLED.

Lemma reconfigure_settles s b :
  base s →
  settles s (maybe_become_root E b (stp_port_state_selection E (stp_configuration_update s))).
Proof.
  intros Hb. pose proof (reconfigure_root_inv s b Hb) as Hi.
  destruct (configuration_update_keeps s Hb) as [L1 P1].
  destruct (configuration_update_ok s Hb) as [B1 R1].
  pose proof (selection_selects _ B1 R1) as Hsel. destruct Hsel as (B2 & R2 & L2 & _ & P2 & _).
  revert Hi L1 P1 B1 R1 B2 R2 L2 P2. generalize (stp_configuration_update s). intros x.
  generalize (stp_port_state_selection E x). intros y Hi L1 P1 B1 R1 B2 R2 L2 P2.
  destruct (maybe_become_root_quiet E y b (base_alive _ B2 R2)) as (Hp & Hbr & _).
  destruct (bcore_fields _ _ Hbr) as (_ & _ & B3 & _).
  split_and!; [done|congruence|]. intros i Hd.
  destruct (pcore_fields _ _ (Hp i)) as (-> & _). apply P2. by rewrite P1.
Qed.

Lemma disable_port_settles s i :
  i ∈ br_port_list (br s) → base s →
  settles (upd_sport i (λ p, p <| p_state := DISABLED |>) s) (stp_disable_port E i s).
Proof.
  intros Hi Hb. unfold stp_disable_port, stp_become_designated_port. cbv zeta.
  set (s0 := upd_sport i (λ p, p <| p_state := DISABLED |>) s).
  set (s1 := upd_sport i _ s). set (s2 := upd_sport i _ s1).
  assert (base s2) as B2.
  { apply base_port; [done| |by apply base_port]. intros _. unfold is_sstate. cbn. tauto. }
  assert (i ∈ br_port_list (br s2)) as Hi2 by done.
  assert (∀ j, p_state (sports s0 j) = p_state (sports s2 j)) as Hst.
  { intros j. subst s2 s1 s0. rewrite !sports_upd. case_decide; [by subst|done]. }
  assert (br_port_list (br s2) = br_port_list (br s)) as Hl by done.
  clearbody s2. clear s1.
  pose proof B2 as (_ & _ & [_ Ht] & _). destruct (Ht i Hi2) as (_ & (T1 & T2 & T3) & _).
  destruct T3 as [t3 E3]. rewrite E3. cbn [del_timer].
  change (sports (s2 <| ts := _ |>)) with (sports s2).
  destruct T1 as [t1 E1], T2 as [t2 E2]. rewrite E1. cbn [del_timer].
  set (s4 := _ <| ts := _ |>). assert (sports s4 = sports s2) as P4 by done. rewrite P4, E2.
  cbn [del_timer]. set (s5 := s4 <| ts := _ |>).
  destruct (reconfigure_settles s5 (stp_is_root_bridge s)) as (I5 & L5 & P5); [done|].
  split_and!; [done|by rewrite L5|]. intros j Hj. apply P5. by rewrite Hst in Hj.
Qed.

(** Unlinking a port that is disabled. *)
Definition unlink (i : nat) s : stp TS :=
  upd_br (λ b, b <| br_port_list := filter (λ j, j ≠ i) (br_port_list b) |>) s.

Lemma unlink_inv s i :
  p_state (sports s i) = DISABLED ∨ p_port_no (sports s i) ≠ br_root_port (br s) →
  inv s → inv (unlink i s).
Proof.
  intros Hn ((Hf & Ht & [Hd Hl] & Hs) & Hr & Hsafe).
  assert (∀ j, j ∈ br_port_list (br (unlink i s)) ↔ j ≠ i ∧ j ∈ br_port_list (br s)) as Hin.
  { intros j. cbn. by rewrite list_elem_of_filter. }
  split; [split_and!; try done|split].
  - split; [by apply list.NoDup_filter|]. intros j [_ Hj]%Hin. by apply Hl.
  - intros j [_ Hj]%Hin. by apply Hs.
  - destruct Hr as [Hr|(r & Hr & Hno & Hst)]; [by left|right]. exists r. split; [|done].
    apply Hin. split; [|done]. intros ->. tauto.
  - intros j [_ Hj]%Hin. by apply Hsafe.
Qed.

Lemma disable_port_inv s i :
  i ∈ br_port_list (br s) → inv s → inv (stp_disable_port E i s).
Proof. intros Hi Hinv. by apply disable_port_settles, inv_base. Qed.

Lemma filter_other (i : nat) (l : list nat) : i ∉ l → filter (λ j, j ≠ i) l = l.
Proof.
  induction l as [|j l IH]; [done|]. intros [Hj Hl]%not_elem_of_cons.
  rewrite filter_cons_True by done. by rewrite IH.
Qed.

(** The loop of [stp_disable] over the ports still linked. *)
Lemma disable_loop_inv l s :
  br_port_list (br s) = l → inv s →
  inv (foldl (λ (s : stp TS) (i : nat),
    let s := if p_state (sports s i) !=? DISABLED then stp_disable_port E i s else s in
    unlink i s) s l).
Proof.
  revert s. induction l as [|i l IH]; intros s Hl Hi; cbn [foldl]; [done|]. cbv zeta.
  set (x := if negb _ then _ else s).
  assert (inv x ∧ br_port_list (br x) = br_port_list (br s) ∧
          p_state (sports x i) = DISABLED) as (Ix & Lx & Px).
  { unfold x. destruct (p_state (sports s i) =? DISABLED) eqn:E1; cbn [negb]; bool_to_prop;
      [done|].
    destruct (disable_port_settles s i) as (I1 & L1 & P1);
      [rewrite Hl; set_solver|by apply inv_base|].
    split_and!; [done|done|]. apply P1. by rewrite sports_upd_eq. }
  clearbody x. apply IH; [|apply unlink_inv; auto].
  pose proof Hi as ((_ & _ & [Hd _] & _) & _). rewrite Hl in Hd.
  apply list.NoDup_cons in Hd as [Hn Hd]. unfold unlink. cbn. rewrite Lx, Hl.
  rewrite filter_cons_False by tauto. by apply filter_other.
Qed.

Lemma disable_inv s : inv s → inv (stp_disable E s).
Proof.
  intros Hi. unfold stp_disable. cbv zeta. unfold for_each_sport.
  pose proof (disable_loop_inv (br_port_list (br s)) s eq_refl Hi) as Hx. 
  unfold unlink in Hx. cbv zeta in Hx. revert Hx.
  match goal with |- inv ?x → _ => generalize x end. intros x Hx.
  set (x1 := upd_br _ x). assert (inv x1) as H1 by (by apply inv_br).
  clearbody x1. pose proof H1 as ((_ & (T1 & T2 & T3) & _) & _).
  destruct T1 as [t1 E1], T2 as [t2 E2], T3 as [t3 E3].
  rewrite E1. cbn [del_timer]. set (x2 := x1 <| ts := _ |>).
  assert (br x2 = br x1) as B2 by done. rewrite B2, E3. cbn [del_timer].
  set (x3 := x2 <| ts := _ |>). assert (br x3 = br x1) as B3 by done. rewrite B3, E2. done.
Qed.

Lemma set_state_inv s state : inv s → inv (stp_set_state E state s).1.
Proof.
  intros Hi. unfold stp_set_state. cbn [fst]. apply inv_br; [done|].
  destruct (tst state); auto using enable_inv, disable_inv.
Qed.

(** *** Timers *)

Lemma message_age_inv s i : inv s → inv (stp_message_age_timer_expired E i s).
Proof.
  intros Hi. unfold stp_message_age_timer_expired. destruct (_ =? _); [done|]. cbv zeta.
  apply reconfigure_root_inv. unfold stp_become_designated_port.
  apply base_port; [done|done|]. by apply base_port, inv_base.
Qed.

Lemma forward_delay_inv s i : inv s → inv (stp_forward_delay_timer_expired E i s).
Proof.
  intros Hi. unfold stp_forward_delay_timer_expired.
  destruct (p_state (sports s i) =? LISTENING) eqn:E1; bool_to_prop.
  { apply inv_mod, inv_state; auto. }
  destruct (p_state (sports s i) =? LEARNING) eqn:E2; bool_to_prop; [|done]. cbv zeta.
  set (x := upd_sport i _ s). assert (inv x) by (apply inv_state; auto).
  destruct (stp_is_designated_for_some_port x); auto using topology_change_detection_inv.
Qed.

Lemma transmit_tcn_inv s : inv s → inv (stp_transmit_tcn E s).
Proof. intros. eapply quiet_inv; [by apply transmit_tcn_quiet|done]. Qed.

(** *** Creation and configuration *)

Lemma sports_set_ts s c : sports (s <| ts := c |>) = sports s.
Proof. done. Qed.

Lemma port_timer_init_spec `{!TimerAlloc TS} s i :
  let x := stp_port_timer_init i s in
  br x = br s ∧ snext x = snext s ∧ fault x = fault s ∧
  (∀ j, j ≠ i → sports x j = sports s j) ∧
  port_timers (sports x i) ∧ p_port_no (sports x i) = p_port_no (sports s i) ∧
  p_state (sports x i) = p_state (sports s i).
Proof.
  unfold stp_port_timer_init, setup_timer.
  pose proof (setup_some (ts s)) as S1. destruct (ts_setup (ts s)) as [t1 c1].
  set (s1 := upd_sport i _ _). pose proof (setup_some (ts s1)) as S2.
  destruct (ts_setup (ts s1)) as [t2 c2].
  set (s2 := upd_sport i _ _). pose proof (setup_some (ts s2)) as S3.
  destruct (ts_setup (ts s2)) as [t3 c3].
  subst s2 s1. split_and!; try done.
  - intros j Hj. by do 3 (rewrite sports_upd_ne, sports_set_ts by done).
  - unfold port_timers. by repeat rewrite sports_upd_eq, sports_set_ts.
  - by repeat rewrite sports_upd_eq, sports_set_ts.
  - by repeat rewrite sports_upd_eq, sports_set_ts.
Qed.

Lemma create_port_inv `{!TimerAlloc TS} s port :
  0 < port < 2 ^ 16 → inv s → inv (stp_create_port E port s).1.
Proof.
  intros Hport Hi. unfold stp_create_port. destruct (s_malloc_ok E); [|done]. cbn [fst]. cbv zeta.
  set (s1 := upd_sport (snext s) _ (s <| snext := S (snext s) |>)).
  destruct (port_timer_init_spec s1 (snext s)) as (X1 & X2 & X3 & X4 & X5 & X6 & X7).
  revert X1 X2 X3 X4 X5 X6 X7. generalize (stp_port_timer_init (snext s) s1).
  intros x X1 X2 X3 X4 X5 X6 X7.
  assert (∀ j, (j < snext s)%nat → sports x j = sports s j) as Hold.
  { intros j Hj. rewrite X4 by lia. subst s1. rewrite sports_upd_ne by lia. done. }
  assert (p_state (sports x (snext s)) = DISABLED) as Hst.
  { rewrite X7. subst s1. by rewrite sports_upd_eq. }
  assert (p_port_no (sports x (snext s)) = port) as Hno.
  { rewrite X6. subst s1. rewrite sports_upd_eq. cbn. by apply u32_small; lia. }
  assert (br x = br s) as Hbr by done. clear X1 X4 X6 X7.
  destruct Hi as ((Hf & Ht & [Hd Hl] & Hs) & Hr & Hsafe).
  assert (∀ j, j ∈ br_port_list (br s) ++ [snext s] ↔
    j ∈ br_port_list (br s) ∧ sports x j = sports s j ∨ j = snext s) as Hin.
  { intros j. rewrite elem_of_app, list_elem_of_singleton. split; [|tauto].
    intros [Hj| ->]; [left|by right]. split; [done|]. apply Hold. by apply Hl. }
  unfold inv, base, ports_ok, rooted, safe, br_timers. cbn. rewrite X2, X3, Hbr.
  split; [split; [done|split; [exact Ht|split; [split|]]]|split].
  - apply list.NoDup_app. split_and!; [done| |apply list.NoDup_singleton].
    intros j Hj ->%list_elem_of_singleton. destruct (Hl _ Hj). lia.
  - intros j [[Hj ->]| ->]%Hin.
    + destruct (Hl j Hj) as (L1 & L2). split; [cbn; lia|done].
    + split_and!; [cbn; lia|done|lia..].
  - intros j [[Hj ->]| ->]%Hin; [by apply Hs|]. rewrite Hst. by left.
  - destruct Hr as [Hr|(r & Hr & Hn & Hst')]; [left|right].
    + unfold stp_is_root_bridge in *. cbn. by rewrite Hbr.
    + exists r. rewrite Hold by (by apply Hl). rewrite elem_of_app. auto.
  - intros j [[Hj Hj']| ->]%Hin; [rewrite Hj'|rewrite Hst; by intros [|[]]].
    intros Hst'. specialize (Hsafe j Hj Hst').
    unfold active_role, stp_is_designated_port in *. cbn. by rewrite Hj', Hbr.
Qed.

Lemma delete_port_inv s port :
  port ≠ br_root_port (br s) → inv s → inv (stp_delete_port port s).1.
Proof.
  intros Hn Hi. unfold stp_delete_port. destruct (stp_get_port_info s port) as [i|] eqn:E1; [|done].
  apply find_some_in in E1 as [_ E1]. bool_to_prop. apply unlink_inv; [|done]. right. congruence.
Qed.

Lemma change_bridge_id_inv s a : inv s → inv (stp_change_bridge_id E a s).
Proof.
  intros Hi. unfold stp_change_bridge_id. cbv zeta. apply reconfigure_root_inv.
  apply base_for_each; [intros i x Hx; by apply base_port|]. by apply base_br, inv_base.
Qed.

Lemma set_priority_inv s prio : inv s → inv (set_bridge_priority E prio s).1.
Proof.
  intros Hi. unfold set_bridge_priority. cbv zeta. cbn [fst]. apply reconfigure_root_inv.
  apply base_br; [done|]. apply base_for_each; [|by apply inv_base].
  intros i x Hx. destruct (_ && _); [by apply base_port|done].
Qed.

(** The setters of the times. *)
Lemma inv_if (b : bool) s x : inv s → inv x → inv (if b then x else s).
Proof. by destruct b. Qed.

Lemma set_times_inv s a b c :
  inv s →
  inv (set_bridge_hello_time a s).1 ∧ inv (set_bridge_forward_delay a s).1 ∧
  inv (set_bridge_max_age a s).1 ∧ inv (set_bridge_times a b c s).1.
Proof.
  intros Hi. unfold set_bridge_hello_time, set_bridge_forward_delay, set_bridge_max_age,
    set_bridge_times. cbv zeta.
  assert (∀ (t1 t2 : bool) x, inv x →
    inv (if t1 then (s, -1) else if t2 then (s, -1) else (x, 0)).1) as Hx
    by (intros [] []; done).
  split_and!; [apply Hx..|]; [| | |destruct (tst _); [done|cbn [fst]]];
    apply inv_if; by repeat (apply inv_br; [done|]).
Qed.

Lemma set_port_priority_inv s i newprio : inv s → inv (stp_set_port_priority E i newprio s).
Proof.
  intros Hi. unfold stp_set_port_priority. cbv zeta.
  set (id := stp_make_port_id _ _).
  set (x := upd_sport i _ (if stp_is_designated_port s i then _ else s)).
  assert (inv x) as Hx.
  { unfold x. destruct (stp_is_designated_port s i) eqn:Ed.
    - pose proof Hi as (Hb & Hr & Hs). split_and!.
      + by do 2 (apply base_port; [done|done|]).
      + by do 2 (apply rooted_port; [done|done|]).
      + intros j Hj Hst. unfold active_role, stp_is_designated_port in *.
        apply andb_true_iff in Ed as [Ed Ep]. specialize (Hs j Hj).
        destruct (decide (i = j)) as [<-|Hij].
        * rewrite !sports_upd_eq in *. cbn -[memcmp_bid] in *. specialize (Hs Hst).
          unfold active_role, stp_is_designated_port in Hs.
          rewrite Ed, Ep in Hs. by rewrite Ed, Z.eqb_refl.
        * rewrite !sports_upd_ne in * by done. by apply Hs.
    - apply inv_sport; [done|done| |done]. unfold active_role in *.
      rewrite Ed, andb_false_r, orb_false_r, sports_upd_eq. cbn. by intros ->. }
  clearbody x. destruct (_ && _); [|done]. destruct Hx as (Hb & Hr & _).
  apply selection_inv; unfold stp_become_designated_port; [by apply base_port|].
  by apply rooted_port.
Qed.

Lemma set_path_cost_inv s i cost : inv s → inv (stp_set_path_cost E i cost s).
Proof.
  intros Hi. unfold stp_set_path_cost. cbv zeta. by apply reconfigure_inv, base_port, inv_base.
Qed.

End Invariant.

(** ** Reachable states *)

(** The calls of the switch on an instance: the events of the ports, received BPDUs,
    the expiries of the timers, and the configuration.  Port numbers fit into 16
    bits; a deleted port is not the root port. *)
Inductive stp_call {TS} `{TimerService TS} (E : stp_env) : stp TS → stp TS → Prop :=
  | call_create_port s port :
      0 < port < 2 ^ 16 → stp_call E s (stp_create_port E port s).1
  | call_delete_port s port :
      port ≠ br_root_port (br s) → stp_call E s (stp_delete_port port s).1
  | call_set_state s state : stp_call E s (stp_set_state E state s).1
  | call_enable_port s i : i ∈ br_port_list (br s) → stp_call E s (stp_enable_port E i s)
  | call_disable_port s i : i ∈ br_port_list (br s) → stp_call E s (stp_disable_port E i s)
  | call_bpdu s i bpdu :
      i ∈ br_port_list (br s) → stp_call E s (process_stp_bpdu_on E i bpdu s).1
  | call_hello s : stp_call E s (stp_hello_timer_expired E s)
  | call_tcn s : stp_call E s (stp_tcn_timer_expired E s)
  | call_topology_change s : stp_call E s (stp_topology_change_timer_expired s)
  | call_message_age s i :
      i ∈ br_port_list (br s) → stp_call E s (stp_message_age_timer_expired E i s)
  | call_forward_delay s i :
      i ∈ br_port_list (br s) → stp_call E s (stp_forward_delay_timer_expired E i s)
  | call_hold s i : i ∈ br_port_list (br s) → stp_call E s (stp_hold_timer_expired E i s)
  | call_bridge_id s a : stp_call E s (stp_change_bridge_id E a s)
  | call_priority s prio : stp_call E s (set_bridge_priority E prio s).1
  | call_hello_time s v : stp_call E s (set_bridge_hello_time v s).1
  | call_fwd_delay s v : stp_call E s (set_bridge_forward_delay v s).1
  | call_max_age s v : stp_call E s (set_bridge_max_age v s).1
  | call_times s a b c : stp_call E s (set_bridge_times a b c s).1
  | call_port_priority s i v :
      i ∈ br_port_list (br s) → stp_call E s (stp_set_port_priority E i v s)
  | call_path_cost s i v :
      i ∈ br_port_list (br s) → stp_call E s (stp_set_path_cost E i v s).

(** A state the switch reaches: an instance is created, then calls follow.  What
    the calls read of the rest of the switch may differ from call to call. *)
Definition stp_reachable {TS} `{TimerService TS} (s : stp TS) : Prop :=
  ∃ E vlan_id s0, fault s0 = false ∧
    rtc (λ x y, ∃ E, stp_call E x y) (stp_init_stp_instance E vlan_id s0) s.

Section Reachable.
Context {TS : Type} `{TimerService TS} `{!TimerAlloc TS}.

Implicit Types s : stp TS.

Lemma inv_empty s :
  br_port_list (br s) = [] → br_bridge_id (br s) = br_designated_root (br s) →
  fault s = false → br_timers (br s) → inv s.
Proof.
  intros L R F T. unfold inv, base, ports_ok, rooted, safe, stp_is_root_bridge.
  rewrite L, R, F.
  split; [split; [done|split; [exact T|]]|].
  { split_and!; [apply NoDup_nil_2|by intros i ?%elem_of_nil..]. }
  split; [left; apply Z.eqb_eq, memcmp_refl|by intros i ?%elem_of_nil].
Qed.

Lemma timer_init_inv s :
  br_port_list (br s) = [] → br_bridge_id (br s) = br_designated_root (br s) →
  fault s = false → inv (stp_timer_init s).
Proof.
  intros L1 R1 F1. unfold stp_timer_init, setup_timer.
  pose proof (setup_some (ts s)) as S1. destruct (ts_setup (ts s)) as [t1 c1].
  set (s2 := upd_br _ _). pose proof (setup_some (ts s2)) as S2.
  destruct (ts_setup (ts s2)) as [t2 c2].
  set (s3 := upd_br _ _). pose proof (setup_some (ts s3)) as S3.
  destruct (ts_setup (ts s3)) as [t3 c3]. by apply inv_empty.
Qed.

Lemma init_inv E vlan_id s : fault s = false → inv (stp_init_stp_instance E vlan_id s).
Proof. intros Hf. unfold stp_init_stp_instance. by apply timer_init_inv. Qed.

Lemma call_inv E s x : stp_call E s x → inv s → inv x.
Proof.
  intros [] Hi.
  - by apply create_port_inv.
  - by apply delete_port_inv.
  - by apply set_state_inv.
  - by apply enable_port_inv.
  - by apply disable_port_inv.
  - by apply process_bpdu_inv.
  - by apply inv_mod, config_generation_inv.
  - by apply inv_mod, transmit_tcn_inv.
  - by apply inv_br.
  - by apply message_age_inv.
  - by apply forward_delay_inv.
  - unfold stp_hold_timer_expired. destruct (tst _); [by apply transmit_config_inv|done].
  - by apply change_bridge_id_inv.
  - by apply set_priority_inv.
  - by apply (set_times_inv _ v 0 0).
  - by apply (set_times_inv _ v 0 0).
  - by apply (set_times_inv _ v 0 0).
  - by apply set_times_inv.
  - by apply set_port_priority_inv.
  - by apply set_path_cost_inv.
Qed.

Lemma reachable_inv s : stp_reachable s → inv s.
Proof.
  intros (E & vlan_id & s0 & Hf & Hs). pose proof (init_inv E vlan_id s0 Hf) as Hi.
  revert Hs Hi. generalize (stp_init_stp_instance E vlan_id s0). intros x.
  induction 1 as [|x y z [E' Hc] _ IH]; [done|]. eauto using call_inv.
Qed.




End Reachable.

(** ** A run

    Two ports come up, the first one hears of a better root, and its timers run
    out until it forwards. *)

Definition demo_senv : stp_env :=
  mk_senv (λ _, 1) (λ port, [0; 0; 0; 0; 0; port]) [2; 0; 0; 0; 0; 1] true 0.

Definition demo_s0 : stp clock :=
  mk_stp clock (mk_br 0 0 0 bid0 bid0 0 0 0 0 0 0 None None None 0 0 0 0 []) (λ _, sport0) 0
    (λ _, None) (mk_clock 0 (λ _, None) 0) [] false.

(** A BPDU, as received, of a root with priority 4096. *)
Definition demo_sbpdu : STP_BPDU_T :=
  mk_bpdu BPDU_CONFIG_TYPE 0 (mk_bid (htons 4096) [2; 0; 0; 0; 0; 9]) 0
    (mk_bid (htons 4096) [2; 0; 0; 0; 0; 9]) (htons 0x8001) 0 (htons 20) (htons 2) (htons 15).

Definition demo_enabled : stp clock :=
  (stp_set_state demo_senv 1
    (stp_create_port demo_senv 2
      (stp_create_port demo_senv 1 (stp_init_stp_instance demo_senv 1 demo_s0)).1).1).1.

Definition demo_rooted : stp clock := (process_stp_bpdu_on demo_senv 0 demo_sbpdu demo_enabled).1.

Definition demo_forwards : stp clock :=
  stp_forward_delay_timer_expired demo_senv 0
    (stp_forward_delay_timer_expired demo_senv 0 demo_rooted).

Lemma stp_reachable_step {TS} `{TimerService TS} E (s x : stp TS) :
  stp_call E s x → stp_reachable s → stp_reachable x.
Proof.
  intros Hc (E0 & v & s0 & Hf & Hs). exists E0, v, s0. split; [done|].
  eapply rtc_r; [exact Hs|]. by exists E.
Qed.

Lemma demo_enabled_reachable : stp_reachable demo_enabled.
Proof.
  eapply stp_reachable_step; [apply call_set_state|].
  do 2 (eapply stp_reachable_step; [by apply call_create_port|]).
  by exists demo_senv, 1, demo_s0.
Qed.

Lemma in_port_list (i : nat) l : existsb (Nat.eqb i) l = true → i ∈ l.
Proof.
  intros (j & Hj & He)%existsb_exists. apply Nat.eqb_eq in He as ->. by apply list_elem_of_In.
Qed.

Lemma demo_rooted_reachable : stp_reachable demo_rooted.
Proof.
  eapply stp_reachable_step; [|apply demo_enabled_reachable]. apply call_bpdu.
  apply in_port_list. by vm_compute.
Qed.

Lemma demo_forwards_reachable : stp_reachable demo_forwards.
Proof.
  do 2 (eapply stp_reachable_step; [apply call_forward_delay, in_port_list; by vm_compute|]).
  apply demo_rooted_reachable.
Qed.



