(* ===== verification/StpRoot.v ===== *)
(** * Spanning tree: the choice of the root port

    The loop of [stp_root_selection] compares each port with the best one so far.
    The theorem says that it finds the minimum of a total order: the priority
    vectors of the ports, compared entry by entry. *)

From stdpp Require Import sets.
From S2P Require Import Prelude TimerIface StpTypes Stp StpFrame StpSelect StpInv.

Section RootPort.
Context {TS : Type} `{TimerService TS}.

Implicit Types s : stp TS.

(** The vector that decides between two ports: the root, the cost of the path to
    it, the bridge and port that lead there, and the port itself. *)
Definition root_vector (p : stp_port_entry) : list Z :=
  bid_bytes (p_designated_root p) ++ [s32 (p_designated_cost p + p_path_cost p)] ++
  bid_bytes (p_designated_bridge p) ++ [p_designated_port p; p_port_id p].

(** The ports that can become the root port: enabled, not looped back, led by
    another bridge, with a root better than this bridge. *)
Definition root_candidate s (i : nat) : Prop :=
  let p := sports s i in
  p_is_own_bpdu p = 0 ∧ p_state p ≠ DISABLED ∧ stp_is_designated_port s i = false ∧
  0 < memcmp_bid (br_bridge_id (br s)) (p_designated_root p).

(** The port numbers of an instance are distinct and its addresses have six bytes. *)
Definition ports_numbered s : Prop :=
  NoDup ((λ i, p_port_no (sports s i)) <$> br_port_list (br s)) ∧
  ∀ i, i ∈ br_port_list (br s) →
    length (addr (p_designated_root (sports s i))) = 6%nat ∧
    length (addr (p_designated_bridge (sports s i))) = 6%nat.

Lemma bid_bytes_length b : length (bid_bytes b) = (2 + length (addr b))%nat.
Proof. done. Qed.

Lemma root_vector_length s i :
  ports_numbered s → i ∈ br_port_list (br s) → length (root_vector (sports s i)) = 19%nat.
Proof.
  intros [_ Hl] Hi. destruct (Hl i Hi) as [L1 L2]. unfold root_vector.
  rewrite !length_app, !bid_bytes_length, L1, L2. done.
Qed.

(** The port of a number. *)
Lemma get_port_unique s r :
  ports_ok s → ports_numbered s → r ∈ br_port_list (br s) →
  stp_get_port s (p_port_no (sports s r)) = Some r.
Proof.
  intros Hp [Hn _] Hr. destruct (get_port_found s r Hp Hr) as (r' & -> & Hr' & Hno). f_equal.
  revert Hn Hr Hr' Hno. generalize (br_port_list (br s)). intros l.
  induction l as [|x l IH]; [by intros _ ?%elem_of_nil|]. rewrite fmap_cons.
  intros [Hx Hn]%list.NoDup_cons [->|Hr]%elem_of_cons [->|Hr']%elem_of_cons Hno; [done| | |auto].
  - destruct Hx. rewrite <- Hno. by apply (list_elem_of_fmap_2 (λ i, p_port_no (sports s i))).
  - destruct Hx. rewrite Hno. by apply (list_elem_of_fmap_2 (λ i, p_port_no (sports s i))).
Qed.

(** One comparison is the order of the vectors. *)
Lemma should_become_root_vector s i r :
  ports_ok s → ports_numbered s → i ∈ br_port_list (br s) → r ∈ br_port_list (br s) →
  root_candidate s i →
  stp_should_become_root_port s i (p_port_no (sports s r)) =
  Some (memcmp (root_vector (sports s i)) (root_vector (sports s r)) <? 0).
Proof.
  intros Hp Hn Hi Hr (C1 & C2 & C3 & C4). unfold stp_should_become_root_port. cbv zeta.
  rewrite C3. assert ((p_state (sports s i) =? DISABLED) = false) as -> by (by apply Z.eqb_neq).
  cbn [orb]. assert ((memcmp_bid (br_bridge_id (br s)) (p_designated_root (sports s i)) <=? 0)
    = false) as -> by (by apply Z.leb_gt).
  assert ((p_port_no (sports s r) =? 0) = false) as ->.
  { apply Z.eqb_neq. destruct Hp as [_ Hl]. destruct (Hl r Hr) as (_ & _ & ?). lia. }
  rewrite (get_port_unique s r) by done. cbn [mbind option_bind].
  destruct Hn as [_ Hl]. destruct (Hl i Hi) as [L1 L2], (Hl r Hr) as [L3 L4].
  unfold root_vector. rewrite memcmp_app by (rewrite !bid_bytes_length; lia).
  fold (memcmp_bid (p_designated_root (sports s i)) (p_designated_root (sports s r))).
  generalize (memcmp_bid (p_designated_root (sports s i)) (p_designated_root (sports s r))).
  intros t1. rewrite memcmp_app by done. cbn [memcmp].
  generalize (s32 (p_designated_cost (sports s i) + p_path_cost (sports s i))),
    (s32 (p_designated_cost (sports s r) + p_path_cost (sports s r))). intros c1 c2.
  rewrite memcmp_app by (rewrite !bid_bytes_length; lia).
  fold (memcmp_bid (p_designated_bridge (sports s i)) (p_designated_bridge (sports s r))).
  generalize (memcmp_bid (p_designated_bridge (sports s i)) (p_designated_bridge (sports s r))).
  intros t2. cbn [memcmp].
  repeat split_if; bool_to_prop; f_equal; symmetry; rewrite ?Z.ltb_lt, ?Z.ltb_ge; try lia.
Qed.

(** A port that is no candidate is passed over; the first candidate is taken. *)
Lemma root_step_skips s i rp :
  ports_ok s →
  (rp = 0 ∨ ∃ r, r ∈ br_port_list (br s) ∧ p_port_no (sports s r) = rp) →
  ¬ root_candidate s i → root_port_step (s, rp) i = (s, rp).
Proof.
  intros Hp Hr Hc. unfold root_port_step. destruct (tst _) eqn:T; [done|].
  apply tst_false in T. unfold stp_should_become_root_port. cbv zeta.
  destruct (_ =? DISABLED) eqn:E1; [done|]. destruct (stp_is_designated_port s i) eqn:E2; [done|].
  cbn [orb]. destruct (_ <=? 0) eqn:E3; [done|]. bool_to_prop. by destruct Hc.
Qed.

Lemma root_step_takes s i rp :
  root_candidate s i → 0 < p_port_no (sports s i) < 2 ^ 16 →
  root_port_step (s, rp) i =
  match stp_should_become_root_port s i rp with
  | Some true => (s, p_port_no (sports s i))
  | Some false => (s, rp)
  | None => (s <| fault := true |>, rp)
  end.
Proof.
  intros (C1 & _) Hno. unfold root_port_step. rewrite C1. cbn [tst Z.eqb negb].
  destruct (stp_should_become_root_port s i rp) as [[]|]; [|done..].
  by rewrite u16_small by lia.
Qed.

Lemma should_become_root_first s i :
  root_candidate s i → stp_should_become_root_port s i 0 = Some true.
Proof.
  intros (C1 & C2 & C3 & C4). unfold stp_should_become_root_port. cbv zeta. rewrite C3.
  rewrite (proj2 (Z.eqb_neq _ _) C2). cbn [orb]. by rewrite (proj2 (Z.leb_gt _ _) C4).
Qed.

(** The loop after the ports [l]: no candidate so far, or the best one. *)
Definition best_of s (l : list nat) (rp : Z) : Prop :=
  (rp = 0 ∧ ∀ j, j ∈ l → ¬ root_candidate s j) ∨
  ∃ r, r ∈ l ∧ root_candidate s r ∧ p_port_no (sports s r) = rp ∧
    ∀ j, j ∈ l → root_candidate s j →
      memcmp (root_vector (sports s r)) (root_vector (sports s j)) ≤ 0.

Lemma root_candidate_dec s i : Decision (root_candidate s i).
Proof. unfold root_candidate. apply _. Qed.

Lemma root_step_best s l i rp :
  ports_ok s → ports_numbered s → (∀ j, j ∈ l ++ [i] → j ∈ br_port_list (br s)) →
  best_of s l rp → ∃ rp', root_port_step (s, rp) i = (s, rp') ∧ best_of s (l ++ [i]) rp'.
Proof.
  intros Hp Hn Hl Hb. assert (i ∈ br_port_list (br s)) as Hi by (apply Hl; set_solver).
  assert (∀ j, j ∈ l ++ [i] → j ∈ l ∨ j = i) as Hsplit by set_solver.
  destruct (root_candidate_dec s i) as [Hc|Hc].
  - assert (0 < p_port_no (sports s i) < 2 ^ 16) as Hno by apply Hp, Hi.
    rewrite root_step_takes by done. destruct Hb as [[-> Hb]|(r & Hr & Cr & <- & Hb)].
    + rewrite should_become_root_first by done. eexists. split; [done|right]. exists i.
      split_and!; [set_solver|done|done|]. intros j [Hj| ->]%Hsplit Cj; [by destruct (Hb j)|].
      by rewrite memcmp_refl.
    + assert (r ∈ br_port_list (br s)) as Hr' by (apply Hl; set_solver).
      rewrite should_become_root_vector by done.
      pose proof (memcmp_opp (root_vector (sports s i)) (root_vector (sports s r))) as Hopp.
      destruct (_ <? 0) eqn:E1; bool_to_prop; (eexists; split; [done|right]).
      * exists i. split_and!; [set_solver|done|done|]. intros j [Hj| ->]%Hsplit Cj.
        -- specialize (Hb j Hj Cj). assert (j ∈ br_port_list (br s)) by (apply Hl; set_solver).
           eapply memcmp_trans; [..|exact Hb]; rewrite ?root_vector_length; auto; lia.
        -- by rewrite memcmp_refl.
      * exists r. split_and!; [set_solver|done|done|].
        intros j [Hj| ->]%Hsplit Cj; [by apply Hb|lia].
  - exists rp. split; [apply root_step_skips; [done| |done]|].
    + destruct Hb as [[-> _]|(r & Hr & _ & <- & _)]; [by left|right]. exists r.
      split; [apply Hl; set_solver|done].
    + destruct Hb as [[-> Hb]|(r & Hr & Cr & <- & Hb)]; [left|right].
      * split; [done|]. intros j [Hj| ->]%Hsplit; auto.
      * exists r. split_and!; [set_solver|done|done|]. intros j [Hj| ->]%Hsplit Cj; [auto|done].
Qed.

Lemma root_loop_best s l2 l1 rp :
  ports_ok s → ports_numbered s → (∀ j, j ∈ l1 ++ l2 → j ∈ br_port_list (br s)) →
  best_of s l1 rp →
  ∃ rp', foldl root_port_step (s, rp) l2 = (s, rp') ∧ best_of s (l1 ++ l2) rp'.
Proof.
  intros Hp Hn. revert l1 rp. induction l2 as [|i l2 IH]; intros l1 rp Hl Hb.
  { exists rp. by rewrite app_nil_r. }
  rewrite (cons_middle i), app_assoc in *.
  destruct (root_step_best s l1 i rp) as (rp' & E1 & Hb'); [done|done|set_solver|done|].
  cbn [foldl]. rewrite E1. by apply IH.
Qed.

(** C3: The root selection of the spanning tree finds the best root port: when a
    linked port is a candidate, the root port is a candidate whose vector no other
    candidate's vector is smaller than, and the instance takes over its root and the
    cost of the path through it; when there is none, the bridge itself is the root. *)
Theorem stp_root_selection_spec s :
  ports_ok s → ports_numbered s →
  let b := br (stp_root_selection s) in
  fault (stp_root_selection s) = fault s ∧ sports (stp_root_selection s) = sports s ∧
  ((br_root_port b = 0 ∧ br_designated_root b = br_bridge_id (br s) ∧
    br_root_path_cost b = 0 ∧ ∀ j, j ∈ br_port_list (br s) → ¬ root_candidate s j) ∨
   ∃ r, r ∈ br_port_list (br s) ∧ root_candidate s r ∧
     br_root_port b = p_port_no (sports s r) ∧
     br_designated_root b = p_designated_root (sports s r) ∧
     br_root_path_cost b =
       s32 (p_designated_cost (sports s r) + p_path_cost (sports s r)) ∧
     ∀ j, j ∈ br_port_list (br s) → root_candidate s j →
       memcmp (root_vector (sports s r)) (root_vector (sports s j)) ≤ 0).
Proof.
  intros Hp Hn. unfold stp_root_selection.
  destruct (root_loop_best s (br_port_list (br s)) [] 0) as (rp & -> & Hb);
    [done|done|done|left; split; [done|by intros j ?%elem_of_nil]|]. cbv zeta.
  destruct Hb as [[-> Hb]|(r & Hr & Cr & <- & Hb)]; [cbn; split_and!; auto|].
  assert (p_port_no (sports s r) ≠ 0) as Hno.
  { destruct Hp as [_ Hl]. destruct (Hl r Hr) as (_ & _ & ?). lia. }
  rewrite (proj2 (Z.eqb_neq _ _) Hno).
  match goal with |- context [stp_get_port ?x _] =>
    change (stp_get_port x (p_port_no (sports s r)))
      with (stp_get_port s (p_port_no (sports s r))) end.
  rewrite get_port_unique by done. split_and!; [done|done|right]. exists r. by cbn.
Qed.

End RootPort.

Lemma elem_of_two (i j k : nat) : i ∈ [j; k] → i = j ∨ i = k.
Proof. set_solver. Qed.

(** The example: the first of the two ports is the only candidate. *)
Lemma stp_root_selection_spec_witness :
  ports_ok demo_forwards ∧ ports_numbered demo_forwards ∧
  fault (stp_root_selection demo_forwards) = fault demo_forwards.
Proof.
  assert (ports_ok demo_forwards) as Hp.
  { destruct (reachable_inv demo_forwards demo_forwards_reachable) as ((_ & _ & Hp & _) & _).
    exact Hp. }
  assert (ports_numbered demo_forwards) as Hn.
  { split.
    - apply (bool_decide_unpack _). by vm_compute.
    - intros i Hi. assert (br_port_list (br demo_forwards) = [0; 1]%nat) as Hl by (by vm_compute).
      rewrite Hl in Hi. destruct (elem_of_two i 0 1 Hi) as [->| ->]; split; by vm_compute. }
  split; [done|]. split; [done|]. apply (stp_root_selection_spec demo_forwards Hp Hn).
Defined.
