(* ===== verification/StpWire.v ===== *)
(** * Spanning tree: identifiers and BPDUs

    What a BPDU carries from one bridge to the next, how bridge and port
    identifiers compare, and when a BPDU is sent. *)

From S2P Require Import Prelude TimerIface StpTypes Stp StpFrame StpSelect StpInv.

(** ** The layout of a BPDU *)

(** The packed structure [STP_BPDU_T] read from memory, from [protocol] on. *)
Definition read_u16 (n : nat) (l : list Z) : Z := le_value (take 2 (drop n l)).
Definition read_bid (n : nat) (l : list Z) : BRIDGEID :=
  mk_bid (read_u16 n l) (take 6 (drop (n + 2) l)).

Definition read_bpdu (l : list Z) : STP_BPDU_T :=
  mk_bpdu (nth 3 l 0) (nth 4 l 0) (read_bid 5 l) (s32 (le_value (take 4 (drop 13 l))))
    (read_bid 17 l) (read_u16 25 l) (read_u16 27 l) (read_u16 29 l) (read_u16 31 l)
    (read_u16 33 l).

(** The values the C types hold. *)
Definition is_u16 (z : Z) : Prop := 0 ≤ z < 2 ^ 16.
Definition is_bid (b : BRIDGEID) : Prop := is_u16 (prio b) ∧ length (addr b) = 6%nat.
Definition is_bpdu (b : STP_BPDU_T) : Prop :=
  is_bid (b_root_id b) ∧ is_bid (b_bridge_id b) ∧ is_u16 (b_port_id b) ∧
  is_u16 (b_message_age b) ∧ is_u16 (b_max_age b) ∧ is_u16 (b_hello_time b) ∧
  is_u16 (b_forward_delay b) ∧ - 2 ^ 31 ≤ b_root_path_cost b < 2 ^ 31.

Lemma le_value_u16 z : is_u16 z → le_value (le_bytes 2 z) = z.
Proof.
  intros Hz. unfold is_u16 in Hz. cbn.
  change 255 with (Z.ones 8). rewrite !Z.land_ones, Z.shiftr_div_pow2 by lia.
  assert (0 ≤ z / 2 ^ 8 < 2 ^ 8)
    by (split; [apply Z.div_pos|apply Z.div_lt_upper_bound]; lia).
  pose proof (Z.div_mod z (2 ^ 8)). rewrite (Z.mod_small (z / 2 ^ 8)) by done. lia.
Qed.

Lemma le_value_swapped z : le_value [(z ≫ 8) &&& 0xFF; z &&& 0xFF] = bswap16 z.
Proof.
  rewrite bswap16_spec. cbn. change 255 with (Z.ones 8).
  rewrite !Z.land_ones, Z.shiftr_div_pow2 by lia. lia.
Qed.

Lemma le_value_swapped32 z :
  le_value [(z ≫ 24) &&& 0xFF; (z ≫ 16) &&& 0xFF; (z ≫ 8) &&& 0xFF; z &&& 0xFF] = bswap32 z.
Proof.
  rewrite bswap32_spec. cbn. change 255 with (Z.ones 8).
  rewrite !Z.land_ones, !Z.shiftr_div_pow2 by lia. lia.
Qed.

(** Only the low 32 bits count. *)
Lemma bswap32_period z k : bswap32 (z + k * 2 ^ 32) = bswap32 z.
Proof.
  rewrite !bswap32_spec. change (2 ^ 32) with (2 ^ 24 * 2 ^ 8).
  replace (k * (2 ^ 24 * 2 ^ 8)) with (k * 2 ^ 24 * 2 ^ 8) by lia.
  rewrite Z.mod_add, Z.div_add by lia.
  replace (k * 2 ^ 24 * 2 ^ 8) with (k * 2 ^ 16 * 2 ^ 16) by lia.
  rewrite (Z.div_add _ _ (2 ^ 16)) by lia.
  replace (k * 2 ^ 16 * 2 ^ 16) with (k * 2 ^ 8 * 2 ^ 24) by lia.
  rewrite (Z.div_add _ _ (2 ^ 24)) by lia.
  replace (k * 2 ^ 24) with (k * 2 ^ 16 * 2 ^ 8) by lia.
  replace (k * 2 ^ 16) with (k * 2 ^ 8 * 2 ^ 8) at 2 by lia.
  by rewrite !Z.mod_add by lia.
Qed.

Lemma s32_congr z : ∃ k, s32 z = z + k * 2 ^ 32.
Proof.
  unfold s32. exists (- ((z + 2 ^ 31) / 2 ^ 32)).
  pose proof (Z.div_mod (z + 2 ^ 31) (2 ^ 32)). lia.
Qed.

Lemma u32_congr z : ∃ k, u32 z = z + k * 2 ^ 32.
Proof. unfold u32. exists (- (z / 2 ^ 32)). pose proof (Z.div_mod z (2 ^ 32)). lia. Qed.

Lemma s32_u32 z : - 2 ^ 31 ≤ z < 2 ^ 31 → s32 (u32 z) = z.
Proof.
  intros Hz. destruct (u32_congr z) as [k ->]. unfold s32.
  replace (z + k * 2 ^ 32 + 2 ^ 31) with (z + 2 ^ 31 + k * 2 ^ 32) by lia.
  rewrite Z.mod_add, Z.mod_small; lia.
Qed.

Lemma htons_u16 z : is_u16 (htons z).
Proof.
  unfold is_u16, htons. rewrite bswap16_spec.
  assert (∀ x, 0 ≤ x mod 2 ^ 8 < 2 ^ 8) as Hm by (intros; apply Z.mod_pos_bound; lia).
  pose proof (Hm (u16 z)). pose proof (Hm (u16 z / 2 ^ 8)). lia.
Qed.

Lemma ntohs_htons_u16 z : is_u16 z → ntohs (htons z) = z.
Proof. intros Hz. by rewrite ntohs_htons, u16_small. Qed.

(** The path cost of an encoded BPDU as it is read at the other end. *)
Lemma cost_on_wire c :
  - 2 ^ 31 ≤ c < 2 ^ 31 → s32 (bswap32 (s32 (htonl c))) = c.
Proof.
  intros Hc. destruct (s32_congr (htonl c)) as [k ->]. rewrite bswap32_period.
  pose proof (ntohl_htonl c) as He. unfold ntohl in He.
  destruct (u32_congr (htonl c)) as [k' Hk]. rewrite Hk, bswap32_period in He.
  rewrite He. by apply s32_u32.
Qed.

(** C23: The round trip of the configuration BPDUs of the spanning tree: what the
    next bridge reads from the 35 bytes of [stp_send_config_bpdu], once decoded, is
    the BPDU that was sent, except for the cost of the root path, which
    arrives with its four bytes reversed. *)
Theorem stp_config_roundtrip b :
  is_bpdu b →
  let sent := config_bytes (stp_encode_bpdu b) in
  length sent = 35%nat ∧
  stp_decode_bpdu (read_bpdu sent) =
  b <| b_type := BPDU_CONFIG_TYPE |> <| b_root_path_cost := s32 (ntohl (b_root_path_cost b)) |>.
Proof.
  intros (Hr & Hb & Hp & Ha & Hm & Hh & Hf & Hc).
  destruct b as [ty fl [rp ra] c [bp ba] pid age maxage hello fwd]. unfold is_bid in *. cbn in *.
  destruct Hr as [Hr Lr], Hb as [Hb Lb].
  destruct ra as [|r1 [|r2 [|r3 [|r4 [|r5 [|r6 []]]]]]]; try discriminate Lr.
  destruct ba as [|b1 [|b2 [|b3 [|b4 [|b5 [|b6 []]]]]]]; try discriminate Lb.
  split; [done|]. unfold stp_decode_bpdu, read_bpdu, stp_encode_bpdu, config_bytes, read_bid,
    read_u16.
  cbn [b_type b_flags b_root_id b_root_path_cost b_bridge_id b_port_id b_message_age b_max_age
       b_hello_time b_forward_delay prio addr set_fld app le_bytes take drop nth Nat.add].
  assert (∀ z, le_value [htons z &&& 255; (htons z ≫ 8) &&& 255] = htons z) as Hle
    by (intros; apply le_value_u16, htons_u16).
  rewrite !Hle, !ntohs_htons_u16, le_value_swapped, le_value_swapped32, cost_on_wire by done.
  replace (bswap16 pid) with (htons pid) by (unfold htons; by rewrite u16_small).
  rewrite ntohs_htons_u16 by done. reflexivity.
Qed.

Lemma stp_config_roundtrip_witness :
  let b := mk_bpdu 0 1 (mk_bid 4096 [2; 0; 0; 0; 0; 9]) 20000 (mk_bid 32768 [2; 0; 0; 0; 0; 1])
             0x8001 0 20 2 15 in
  stp_decode_bpdu (read_bpdu (config_bytes (stp_encode_bpdu b))) =
  b <| b_root_path_cost := 541982720 |>.
Proof.
  intros b. destruct (stp_config_roundtrip b) as [_ ->]; [|by vm_compute].
  unfold is_bpdu, is_bid, is_u16. cbn. lia.
Defined.

(** ** Identifiers *)

(** Bridge identifiers compare by their byte-swapped priority, then by the
    address.  Priorities that are multiples of 256, among them the 16 values of
    802.1t, are ordered as numbers; in general a smaller priority can lose. *)
Theorem stp_bridge_order :
  (∀ a b, is_bid a → is_bid b →
    (memcmp_bid a b < 0 ↔ htons (prio a) < htons (prio b) ∨
       prio a = prio b ∧ memcmp (addr a) (addr b) < 0)) ∧
  (∀ a b, is_bid a → is_bid b → prio a mod 256 = 0 → prio b mod 256 = 0 →
    prio a < prio b → memcmp_bid a b < 0) ∧
  ∃ a b, is_bid a ∧ is_bid b ∧ prio a < prio b ∧ 0 < memcmp_bid a b.
Proof.
  assert (∀ a b, is_bid a → is_bid b →
    (memcmp_bid a b < 0 ↔ htons (prio a) < htons (prio b) ∨
       prio a = prio b ∧ memcmp (addr a) (addr b) < 0)) as Horder.
  { intros a b [Ha _] [Hb _]. unfold memcmp_bid, bid_bytes, is_u16, htons in *.
    rewrite !u16_small, !bswap16_spec by done. cbn [app le_bytes memcmp].
    change 255 with (Z.ones 8). rewrite !Z.land_ones, !Z.shiftr_div_pow2 by lia.
    assert (∀ x, 0 ≤ x mod 2 ^ 8 < 2 ^ 8) as Hm by (intros; apply Z.mod_pos_bound; lia).
    pose proof (Hm (prio a)). pose proof (Hm (prio b)). pose proof (Hm (prio a / 2 ^ 8)).
    pose proof (Hm (prio b / 2 ^ 8)).
    pose proof (Z.div_mod (prio a) (2 ^ 8)). pose proof (Z.div_mod (prio b) (2 ^ 8)).
    assert (∀ z, 0 ≤ z < 2 ^ 16 → 0 ≤ z / 2 ^ 8 < 2 ^ 8) as Hd
      by (intros; split; [apply Z.div_pos|apply Z.div_lt_upper_bound]; lia).
    pose proof (Z.mod_small _ _ (Hd _ Ha)). pose proof (Z.mod_small _ _ (Hd _ Hb)).
    split_if; bool_to_prop; lia. }
  split_and!; [done| |].
  - intros a b Ha Hb Ma Mb Hlt. apply Horder; [done|done|left].
    destruct Ha as [Ha _], Hb as [Hb _]. unfold htons, is_u16 in *.
    rewrite !u16_small, !bswap16_spec by done. change (2 ^ 8) with 256. rewrite Ma, Mb.
    pose proof (Z.div_mod (prio a) 256). pose proof (Z.div_mod (prio b) 256).
    rewrite !(Z.mod_small (_ / _)) by
      (split; [apply Z.div_pos|apply Z.div_lt_upper_bound]; lia). lia.
  - exists (mk_bid 1 [0; 0; 0; 0; 0; 0]), (mk_bid 256 [0; 0; 0; 0; 0; 0]).
    unfold is_bid, is_u16. split_and!; (done || by vm_compute).
Qed.

(** A port identifier holds the port number in its low ten bits and only the low six
    bits of the priority: identifiers of ports with different numbers below 1024
    differ, and priorities that differ by a multiple of 64 give the same identifier. *)
Theorem stp_port_id_spec priority port_no :
  0 ≤ priority < 256 → 0 ≤ port_no < 2 ^ 10 →
  stp_make_port_id priority port_no = priority mod 64 * 1024 + port_no.
Proof.
  intros Hp Hn. unfold stp_make_port_id, STP_PORT_BITS. rewrite (u16_small priority) by lia.
  change ((1 ≪ 10) - 1) with (Z.ones 10). rewrite Z.land_ones, Z.mod_small by lia.
  rewrite lor_shift_add by lia. unfold u16.
  assert (priority = 64 * (priority / 64) + priority mod 64) as Hd by (apply Z.div_mod; lia).
  pose proof (Z.mod_pos_bound priority 64).
  rewrite Hd at 1. replace ((64 * (priority / 64) + priority mod 64) * 2 ^ 10 + port_no)
    with (priority mod 64 * 1024 + port_no + priority / 64 * 2 ^ 16) by lia.
  rewrite Z.mod_add, Z.mod_small by lia. done.
Qed.

Lemma stp_port_id_spec_witness :
  stp_make_port_id 128 5 = 5 ∧ stp_make_port_id 64 5 = 5.
Proof. split; apply stp_port_id_spec; lia. Defined.

(** ** Transmission *)

(** The frame that carries [data] out of [port]. *)
Definition llc_frame (E : stp_env) (port : Z) (data : list Z) : list Z :=
  br_group_address ++ s_port_mac_address E port ++ [0; Z.of_nat (length data) + 3] ++
  [LLC_SAP_BSPAN; LLC_SAP_BSPAN; 3] ++ data.

Section Transmission.
Context {TS : Type} `{TimerLaws TS} (E : stp_env).

Implicit Types s : stp TS.

Lemma small_length_bytes n : 0 ≤ n < 256 → le_bytes 2 (htons n) = [0; n].
Proof.
  intros Hn. unfold htons. rewrite u16_small by lia. rewrite bswap16_spec.
  rewrite (Z.div_small n), (Z.mod_small n), Z.mod_0_l, Z.add_0_r by lia.
  unfold le_bytes. change 255 with (Z.ones 8).
  rewrite !Z.land_ones, Z.shiftr_div_pow2, Z.mod_mul, Z.div_mul, Z.mod_small by lia. done.
Qed.

Lemma send_bpdu_sent s i data :
  s_malloc_ok E = true → (length data < 100)%nat →
  ssent (stp_send_bpdu E i data s) =
  ssent s ++ [(p_port_no (sports s i), llc_frame E (p_port_no (sports s i)) data)].
Proof.
  intros Hm Hd. unfold stp_send_bpdu, llc_mac_hdr_init, llc_frame. rewrite Hm. cbv zeta.
  change ((0x4 !=? ETH_P_802_3) && (0x4 !=? ETH_P_802_2)) with false. cbv match.
  rewrite small_length_bytes by lia. cbn. by rewrite <- !app_assoc.
Qed.

(** The hold timer of a port of the spanning tree limits its BPDUs.  While it
    runs, a call of [stp_transmit_config] sends nothing and only notes that a BPDU is
    pending.  When it does not run and the message age is below the maximum, the call
    sends exactly one frame, a BPDU with the root, the cost and the times of the
    instance, clears the notes, and starts the timer. *)
Theorem stp_hold_timer_limits s i age (t := p_hold_timer (sports s i)) :
  s_malloc_ok E = true → br_stp_enabled (br s) = STP_ENABLED → is_Some t →
  length (config_bytes (stp_encode_bpdu (config_bpdu E i age s))) = 35%nat →
  let x := stp_transmit_config E i s in
  (timer_pending t s = true → ssent x = ssent s ∧ p_config_pending (sports x i) = 1) ∧
  (timer_pending t s = false → config_message_age s = Some age → age < br_max_age (br s) →
    ssent x = ssent s ++ [(p_port_no (sports s i),
      llc_frame E (p_port_no (sports s i))
        (config_bytes (stp_encode_bpdu (config_bpdu E i age s))))] ∧
    p_config_pending (sports x i) = 0 ∧ p_topology_change_ack (sports x i) = 0 ∧
    timer_pending t x = true).
Proof.
  intros Hm He [h Ht] Hlen. cbv zeta. unfold stp_transmit_config. fold t. split.
  - intros Hp. rewrite Hp. split; [done|]. by rewrite sports_upd_eq.
  - intros Hp Ha Hlt. rewrite Hp, Ha, (proj2 (Z.ltb_lt _ _) Hlt). cbv zeta.
    unfold stp_send_config_bpdu. rewrite He. cbn [STP_ENABLED Z.eqb Pos.eqb negb].
    set (x := stp_send_bpdu E i _ s).
    assert (ssent x = ssent s ++ [(p_port_no (sports s i),
      llc_frame E (p_port_no (sports s i))
        (config_bytes (stp_encode_bpdu (config_bpdu E i age s))))]) as Hx
      by (apply send_bpdu_sent; [done|lia]).
    assert (sports x = sports s) as Hs by (unfold x, stp_send_bpdu; by rewrite Hm).
    clearbody x. rewrite sports_upd_eq. cbn [p_hold_timer].
    assert (p_hold_timer ((sports x i) <| p_topology_change_ack := 0 |>
      <| p_config_pending := 0 |>) = Some h) as -> by (cbn; by rewrite Hs).
    cbn [mod_timer]. split_and!; [done|by rewrite sports_set_ts, sports_upd_eq..|].
    rewrite Ht. cbn. apply pending_mod. by vm_compute.
Qed.

(** The acknowledgement of a topology change does not reach the sender: the flag
    the code sets for it is the topology change bit, so that the acknowledgement bit of
    a BPDU is whatever the uninitialised flags held. *)
Theorem stp_ack_bit_not_sent s i age :
  (br_topology_change (br s) = 0 ∨ br_topology_change (br s) = 1) →
  p_topology_change_ack (sports s i) = 1 →
  let fl := b_flags (config_bpdu E i age s) in
  fl &&& TC_ACK_BIT = junk_flags E &&& TC_ACK_BIT ∧ fl &&& TC_BIT = TC_BIT.
Proof.
  intros Hc Ha. cbn. rewrite Ha.
  assert (∀ c, c = 0 ∨ c = 1 → junk_flags E ||| c ||| 1 = junk_flags E ||| 1) as Hor.
  { intros c Hc'. rewrite <- Z.lor_assoc. by destruct Hc' as [-> | ->]. }
  rewrite Hor by done.
  unfold u8. rewrite <- Z.land_ones, <- !Z.land_assoc by lia.
  change (Z.ones 8 &&& TC_ACK_BIT) with TC_ACK_BIT. change (Z.ones 8 &&& TC_BIT) with TC_BIT.
  rewrite !Z.land_lor_distr_l.
  change (1 &&& TC_ACK_BIT) with 0. change (1 &&& TC_BIT) with 1.
  rewrite Z.lor_0_r. split; [done|]. unfold TC_BIT.
  apply Z.bits_inj'. intros n Hn. rewrite Z.lor_spec, Z.land_spec.
  destruct (Z.testbit (junk_flags E) n), (Z.testbit 1 n); done.
Qed.

End Transmission.

Lemma stp_hold_timer_limits_witness :
  ssent (stp_transmit_config demo_senv 1 demo_rooted) = ssent demo_rooted.
Proof.
  refine (proj1 (proj1 (stp_hold_timer_limits demo_senv demo_rooted 1 1 _ _ _ _) _));
    [by vm_compute..| |by vm_compute|by vm_compute].
  apply (bool_decide_unpack _). by vm_compute.
Defined.

Lemma stp_ack_bit_not_sent_witness :
  b_flags (config_bpdu demo_senv 1 1
    (upd_sport 1 (λ p, p <| p_topology_change_ack := 1 |>) demo_rooted)) &&& TC_ACK_BIT = 0.
Proof.
  refine (proj1 (stp_ack_bit_not_sent demo_senv _ 1 1 _ _));
    [left; by vm_compute|by vm_compute].
Defined.

(** ** Deleting the root port *)

(** The example after the second port has been restarted. *)
Definition demo_restarted : stp clock :=
  stp_enable_port demo_senv 1 (stp_disable_port demo_senv 1 demo_rooted).

Lemma demo_restarted_reachable : stp_reachable demo_restarted.
Proof.
  eapply stp_reachable_step; [apply call_enable_port, in_port_list; by vm_compute|].
  eapply stp_reachable_step; [apply call_disable_port, in_port_list; by vm_compute|].
  apply demo_rooted_reachable.
Qed.

(** Deleting the root port leaves the instance with the number of a port that
    is gone: [stp_delete_port] neither chooses a new root port nor resets the old one,
    and when another port then answers an inferior BPDU, the code dereferences the
    NULL pointer that the search for the root port returns. *)
Theorem stp_delete_root_port_faults :
  ∃ (E : stp_env) (s : stp clock) port i bpdu,
    stp_reachable s ∧ port = br_root_port (br s) ∧
    let x := (stp_delete_port port s).1 in
    i ∈ br_port_list (br x) ∧ fault x = false ∧ fault (process_stp_bpdu_on E i bpdu x).1 = true.
Proof.
  exists demo_senv, demo_restarted, 1, 1%nat,
    (mk_bpdu BPDU_CONFIG_TYPE 0 (mk_bid 0xFFFF [2; 0; 0; 0; 0; 7]) 0
       (mk_bid 0xFFFF [2; 0; 0; 0; 0; 7]) 0 0 0 0 0).
  split; [apply demo_restarted_reachable|]. split; [by vm_compute|]. cbv zeta.
  split; [apply in_port_list; by vm_compute|]. split; by vm_compute.
Qed.
