(* ===== verification/StpWorld.v ===== *)
(** * Spanning tree: the instances of the switch

    The list of the instances, the functions of stp_main.c and stp_if.c that search it,
    and the theorem that the instances do not disturb each other: the work on one
    of them touches its own ports and newly created ones only. *)

From stdpp Require Import relations sets.
From S2P Require Import Prelude RstpTypes TimerIface StpTypes Stp StpFrame StpSelect StpInv.

(** ** Definitions *)

Definition VLAN_INVALID_ID := 0x7FFF.

(** The instances by address (address 0 is [stp_global_instance]), the list
    [stp_instance_head], the next free address, and the memory the instances share; the
    field [br] of that memory is the instance worked on last and is never read. *)
Record stp_world {TS : Type} := mk_stp_world {
  winst : nat → stp_instance;
  stp_instance_head : list nat;
  wnext : nat;
  wmem : stp TS
}.
Arguments stp_world : clear implicits.

Section World.
Context {TS : Type} `{TimerService TS} (E : stp_env).

Implicit Types w : stp_world TS.

(** The state of the instance [k], and an operation on it. *)
Definition focus (k : nat) w : stp TS := (wmem w) <| br := winst w k |>.

Definition unfocus (k : nat) (x : stp TS) w : stp_world TS :=
  mk_stp_world TS (<[k := br x]> (winst w)) (stp_instance_head w) (wnext w) x.

Definition on_instance (k : nat) (f : stp TS → stp TS) w : stp_world TS :=
  unfocus k (f (focus k w)) w.

Definition on_instance_r (k : nat) (f : stp TS → stp TS * Z) w : stp_world TS * Z :=
  let '(x, r) := f (focus k w) in (unfocus k x w, r).

Definition get_this_bridge_entry (vlan_id : Z) w : option nat :=
  if vlan_id =? VLAN_INVALID_ID then Some 0%nat
  else find (λ k, br_vlan_id (winst w k) =? vlan_id) (stp_instance_head w).

(** The new instance, if any, and the result. *)
Definition stp_create_stp_instance (vlan_id : Z) w : stp_world TS * option nat * Z :=
  match find (λ k, br_vlan_id (winst w k) =? vlan_id) (stp_instance_head w) with
  | Some k => (w, Some k, 0)
  | None =>
      let link k w := mk_stp_world TS (winst w) (stp_instance_head w ++ [k]) (wnext w) (wmem w) in
      if vlan_id =? VLAN_INVALID_ID then
        (link 0%nat (on_instance 0 (stp_init_stp_instance E vlan_id) w), Some 0%nat, 0)
      else if s_malloc_ok E then
        let k := wnext w in
        let w := mk_stp_world TS (winst w) (stp_instance_head w) (S k) (wmem w) in
        (link k (on_instance k (stp_init_stp_instance E vlan_id) w), Some k, 0)
      else (w, None, -1)
  end.

Definition stp_delete_stp_instance (k : nat) w : stp_world TS * Z :=
  (mk_stp_world TS
     (<[k := (winst w k) <| br_port_list := [] |>]> (winst w))
     (filter (λ j, j ≠ k) (stp_instance_head w)) (wnext w) (wmem w), 0).

(** The first port with the number, over all instances. *)
Fixpoint port_entry_in (l : list nat) (port : Z) w : option (nat * nat) :=
  match l with
  | [] => None
  | k :: l =>
      match stp_get_port_info (focus k w) (u16 port) with
      | Some i => Some (k, i)
      | None => port_entry_in l port w
      end
  end.

Definition stp_get_port_entry (port : Z) w : option (nat * nat) :=
  port_entry_in (stp_instance_head w) port w.

Definition stp_process_bpdu (bpdu : STP_BPDU_T) (port : Z) w : stp_world TS * Z :=
  match stp_get_port_entry port w with
  | None => (w, -1)
  | Some (k, i) => on_instance_r k (process_stp_bpdu_on E i bpdu) w
  end.

(** The pointer is not checked. *)
Definition stp_enable_or_disable_port (port state : Z) w : stp_world TS * Z :=
  let null := mk_stp_world TS (winst w) (stp_instance_head w) (wnext w)
                ((wmem w) <| fault := true |>) in
  if state =? IF_UP then
    match stp_get_port_entry port w with
    | None => (null, 0)
    | Some (k, i) => (on_instance k (stp_enable_port E i) w, 0)
    end
  else if state =? IF_DOWN then
    match stp_get_port_entry port w with
    | None => (null, 0)
    | Some (k, i) => (on_instance k (stp_disable_port E i) w, 0)
    end
  else (w, 0).

(** The setters: the instance of the vlan, or failure. *)
Definition with_bridge (vlan_id : Z) (f : stp TS → stp TS * Z) w : stp_world TS * Z :=
  match get_this_bridge_entry vlan_id w with
  | None => (w, -1)
  | Some k => on_instance_r k f w
  end.

Definition stp_set_bridge_priority (newprio vlan_id : Z) w : stp_world TS * Z :=
  with_bridge vlan_id (set_bridge_priority E newprio) w.
Definition stp_set_bridge_hello_time (hello vlan_id : Z) w : stp_world TS * Z :=
  with_bridge vlan_id (set_bridge_hello_time hello) w.
Definition stp_set_bridge_forward_delay (fwd_dly vlan_id : Z) w : stp_world TS * Z :=
  with_bridge vlan_id (set_bridge_forward_delay fwd_dly) w.
Definition stp_set_bridge_max_age (max_age vlan_id : Z) w : stp_world TS * Z :=
  with_bridge vlan_id (set_bridge_max_age max_age) w.
Definition stp_set_bridge_times (fdly maxage htime vlan_id : Z) w : stp_world TS * Z :=
  with_bridge vlan_id (set_bridge_times fdly maxage htime) w.

End World.

(** ** What the work on an instance leaves alone *)

Section Inside.
Context {TS : Type} `{TimerService TS} (E : stp_env).

Implicit Types s x : stp TS.

(** A port the instance may touch: one of its own, or one created since. *)
Definition own s (i : nat) : Prop := i ∈ br_port_list (br s) ∨ (snext s ≤ i)%nat.

(** From [s] to [x] only own ports have changed, and only own ports are linked; the
    instance belongs to the same vlan. *)
Definition inside s x : Prop :=
  (snext s ≤ snext x)%nat ∧ (∀ i, i ∈ br_port_list (br x) → own s i) ∧
  (∀ i, ¬ own s i → sports x i = sports s i) ∧ br_vlan_id (br x) = br_vlan_id (br s).

Lemma inside_refl s : inside s s.
Proof. split_and!; [done|by left|done|done]. Qed.

Lemma inside_port s x i f : own s i → inside s x → inside s (upd_sport i f x).
Proof.
  intros Hi (L1 & L2 & L3 & L4). split_and!; [done|done| |done]. intros j Hj.
  rewrite sports_upd_ne by (by intros ->). auto.
Qed.

Lemma inside_br s x f :
  (∀ b, br_port_list (f b) = br_port_list b ∧ br_vlan_id (f b) = br_vlan_id b) →
  inside s x → inside s (upd_br f x).
Proof.
  intros Hf (L1 & L2 & L3 & L4). destruct (Hf (br x)) as [F1 F2].
  split_and!; [done| |done|]; cbn; [by rewrite F1|by rewrite F2].
Qed.

Lemma inside_if s (b : bool) x y : inside s x → inside s y → inside s (if b then x else y).
Proof. by destruct b. Qed.

Lemma inside_mod s x t v : inside s x → inside s (mod_timer t v x).
Proof. by destruct t. Qed.

Lemma inside_del s x t : inside s x → inside s (del_timer t x).
Proof. by destruct t. Qed.

Lemma inside_fault s x : inside s x → inside s (x <| fault := true |>).
Proof. done. Qed.

Lemma inside_sent s x l : inside s x → inside s (x <| ssent := l |>).
Proof. done. Qed.

Lemma inside_info s x f : inside s x → inside s (x <| if_stp_info := f |>).
Proof. done. Qed.

Lemma inside_own s x i : inside s x → i ∈ br_port_list (br x) → own s i.
Proof. intros (_ & L & _). apply L. Qed.

Lemma inside_fold s x body l :
  (∀ i, i ∈ l → own s i) → (∀ i y, own s i → inside s y → inside s (body i y)) →
  inside s x → inside s (foldl (λ x i, body i x) x l).
Proof.
  intros Hl Hb. revert x. induction l as [|i l IH]; intros x Hx; cbn; [done|].
  apply IH; [set_solver|]. apply Hb; [set_solver|done].
Qed.

Lemma inside_for_each s x body :
  (∀ i y, own s i → inside s y → inside s (body i y)) →
  inside s x → inside s (for_each_sport body x).
Proof. intros Hb Hx. apply inside_fold; [|done|done]. intros i. by apply inside_own. Qed.

(** Descends through the updates of an operation. *)
Ltac inside_updates :=
  repeat match goal with
  | |- inside _ (if _ then _ else _) => apply inside_if
  | |- inside _ (upd_sport _ _ _) => apply inside_port; [assumption|]
  | |- inside _ (upd_br _ _) => apply inside_br; [by split|]
  | |- inside _ (mod_timer _ _ _) => apply inside_mod
  | |- inside _ (del_timer _ _) => apply inside_del
  | |- inside _ (set_fld fault _ _) => apply inside_fault
  | |- inside _ (set_fld ssent _ _) => apply inside_sent
  | |- inside _ (set_fld if_stp_info _ _) => apply inside_info
  end; try assumption.

Lemma inside_send s x i d : inside s x → inside s (stp_send_bpdu E i d x).
Proof. intros. unfold stp_send_bpdu. cbv zeta. inside_updates. Qed.

Lemma inside_transmit_tcn s x : inside s x → inside s (stp_transmit_tcn E x).
Proof.
  intros. unfold stp_transmit_tcn, stp_send_tcn_bpdu. destruct (stp_get_port _ _); [|done].
  inside_updates. by apply inside_send.
Qed.

Lemma inside_transmit_config s x i : own s i → inside s x → inside s (stp_transmit_config E i x).
Proof.
  intros. unfold stp_transmit_config, stp_send_config_bpdu. cbv zeta.
  destruct (config_message_age x); inside_updates. by apply inside_send.
Qed.

Lemma inside_generation s x : inside s x → inside s (stp_config_bpdu_generation E x).
Proof.
  intros. apply inside_for_each; [|done]. intros i y Hi Hy. inside_updates.
  by apply inside_transmit_config.
Qed.

Lemma inside_tcd s x : inside s x → inside s (stp_topology_change_detection E x).
Proof.
  intros. unfold stp_topology_change_detection. cbv zeta. inside_updates.
  by apply inside_transmit_tcn.
Qed.

Lemma inside_become_root s x : inside s x → inside s (stp_become_root_bridge E x).
Proof.
  intros. unfold stp_become_root_bridge. cbv zeta. inside_updates. apply inside_generation.
  inside_updates. apply inside_tcd. inside_updates.
Qed.

Lemma inside_maybe_root s x b : inside s x → inside s (maybe_become_root E b x).
Proof. intros. unfold maybe_become_root. inside_updates. by apply inside_become_root. Qed.

Lemma inside_selection s x : inside s x → inside s (stp_port_state_selection E x).
Proof.
  intros. apply inside_for_each; [|done]. intros i y Hi Hy.
  unfold state_selection_step, stp_make_forwarding, stp_make_blocking. cbv zeta.
  inside_updates; apply inside_tcd; inside_updates.
Qed.

Lemma inside_update s x : inside s x → inside s (stp_configuration_update x).
Proof.
  intros. unfold stp_configuration_update. apply inside_for_each.
  { intros i y Hi Hy. unfold stp_become_designated_port. inside_updates. }
  unfold stp_root_selection.
  assert (∀ l y rp, inside s y → inside s (foldl root_port_step (y, rp) l).1) as Hl.
  { intros l. induction l as [|i l IH]; intros y rp Hy; [done|]. cbn [foldl].
    unfold root_port_step at 2. destruct (tst _); [by apply IH|].
    destruct (stp_should_become_root_port y i rp) as [[]|]; apply IH; inside_updates. }
  specialize (Hl (br_port_list (br x)) x 0).
  destruct (foldl _ _ _) as [y rp]. cbn [fst] in Hl. cbv zeta.
  destruct (rp =? 0); [by inside_updates; auto|].
  destruct (stp_get_port _ _); inside_updates; auto.
Qed.

Lemma inside_reconfigure s x b :
  inside s x →
  inside s (maybe_become_root E b (stp_port_state_selection E (stp_configuration_update x))).
Proof. intros. by apply inside_maybe_root, inside_selection, inside_update. Qed.

Lemma inside_received s x i bpdu :
  own s i → inside s x → inside s (process_stp_bpdu_on E i bpdu x).1.
Proof.
  intros Hi Hx. unfold process_stp_bpdu_on.
  repeat (destruct (_ =? _); [try done|]); cbn [fst]; try done.
  - unfold stp_received_config_bpdu, stp_record_config_information,
      stp_record_config_timeout_values, stop_being_root, stp_topology_change_acknowledged.
    cbv zeta. destruct (stp_supersedes_port_info _ _ _) as [[] q].
    + set (y := stp_port_state_selection E _).
      assert (inside s y) as Hy by (apply inside_selection, inside_update; inside_updates).
      clearbody y. inside_updates; try apply inside_generation; inside_updates;
        apply inside_transmit_tcn; inside_updates.
    + inside_updates. apply inside_transmit_config; [done|inside_updates].
  - unfold stp_received_tcn_bpdu, stp_topology_change_acknowledge. inside_updates.
    apply inside_transmit_config; [done|]. inside_updates. by apply inside_tcd.
Qed.

Lemma inside_enable_port s x i : own s i → inside s x → inside s (stp_enable_port E i x).
Proof.
  intros. unfold stp_enable_port, stp_init_port, stp_become_designated_port. cbv zeta.
  inside_updates. apply inside_selection. inside_updates.
Qed.

Lemma inside_disable_port s x i : own s i → inside s x → inside s (stp_disable_port E i x).
Proof.
  intros. unfold stp_disable_port, stp_become_designated_port. cbv zeta.
  apply inside_reconfigure. inside_updates.
Qed.

Lemma inside_unlink s x i :
  inside s x →
  inside s (upd_br (λ b, b <| br_port_list := filter (λ j, j ≠ i) (br_port_list b) |>) x).
Proof.
  intros (L1 & L2 & L3 & L4). split_and!; [done| |done|done]. intros j. cbn.
  intros [_ Hj]%list_elem_of_filter. auto.
Qed.

Lemma inside_set_state s x v : inside s x → inside s (stp_set_state E v x).1.
Proof.
  intros Hx. unfold stp_set_state. cbn [fst]. apply inside_br; [done|]. apply inside_if.
  - unfold stp_enable. cbv zeta. apply inside_for_each; [intros; by apply inside_enable_port|].
    apply inside_generation. inside_updates.
  - unfold stp_disable. cbv zeta. inside_updates. apply inside_for_each; [|done].
    intros i y Hi Hy. apply inside_unlink. inside_updates. by apply inside_disable_port.
Qed.

Lemma inside_create s port : inside s (stp_create_port E port s).1.
Proof.
  unfold stp_create_port. destruct (s_malloc_ok E); [|apply inside_refl]. cbn [fst]. cbv zeta.
  set (s1 := upd_sport (snext s) _ (s <| snext := S (snext s) |>)).
  assert (snext s1 = S (snext s) ∧ br s1 = br s ∧ ∀ i, ¬ own s i → sports s1 i = sports s i)
    as (N1 & B1 & P1).
  { split_and!; [done|done|]. intros i Hi. subst s1. rewrite sports_upd_ne; [done|].
    intros <-. apply Hi. by right. }
  clearbody s1. unfold stp_port_timer_init, setup_timer.
  destruct (ts_setup (ts s1)) as [t1 c1]. set (s2 := upd_sport _ _ _).
  destruct (ts_setup (ts s2)) as [t2 c2]. set (s3 := upd_sport _ _ _).
  destruct (ts_setup (ts s3)) as [t3 c3].
  assert (∀ i, ¬ own s i → snext s ≠ i) as Hne by (intros i Hi <-; apply Hi; by right).
  split_and!.
  - cbn. rewrite N1. lia.
  - intros i. cbn. rewrite B1, elem_of_app, list_elem_of_singleton.
    intros [Hi| ->]; [by left|by right].
  - intros i Hi. change (sports (upd_sport (snext s) (λ p, p <| p_hold_timer := t3 |>)
      (s3 <| ts := c3 |>)) i = sports s i). subst s3 s2.
    do 3 rewrite sports_upd_ne, sports_set_ts by auto. auto.
  - cbn. by rewrite B1.
Qed.

Lemma call_inside s x : stp_call E s x → inside s x.
Proof.
  intros Hc. destruct Hc;
    repeat match goal with Hi : ?i ∈ br_port_list (br ?s) |- _ =>
      assert (own s i) by (by left); clear Hi end;
    pose proof (inside_refl s) as Hs.
  - apply inside_create.
  - unfold stp_delete_port. destruct (stp_get_port_info s port); [|done]. by apply inside_unlink.
  - by apply inside_set_state.
  - by apply inside_enable_port.
  - by apply inside_disable_port.
  - by apply inside_received.
  - unfold stp_hello_timer_expired. cbv zeta. inside_updates. by apply inside_generation.
  - unfold stp_tcn_timer_expired. cbv zeta. inside_updates. by apply inside_transmit_tcn.
  - unfold stp_topology_change_timer_expired. inside_updates.
  - unfold stp_message_age_timer_expired, stp_become_designated_port. cbv zeta. inside_updates.
    apply inside_reconfigure. inside_updates.
  - unfold stp_forward_delay_timer_expired. cbv zeta. inside_updates. apply inside_tcd.
    inside_updates.
  - unfold stp_hold_timer_expired. inside_updates. by apply inside_transmit_config.
  - unfold stp_change_bridge_id. cbv zeta. apply inside_reconfigure, inside_for_each; [|inside_updates].
    intros i y Hi Hy. inside_updates.
  - unfold set_bridge_priority. cbv zeta. cbn [fst]. apply inside_reconfigure. inside_updates.
    apply inside_for_each; [|done]. intros i y Hi Hy. inside_updates.
  - unfold set_bridge_hello_time. cbv zeta. do 2 (destruct (_ : bool); [done|]). cbn [fst].
    inside_updates.
  - unfold set_bridge_forward_delay. cbv zeta. do 2 (destruct (_ : bool); [done|]). cbn [fst].
    inside_updates.
  - unfold set_bridge_max_age. cbv zeta. do 2 (destruct (_ : bool); [done|]). cbn [fst].
    inside_updates.
  - unfold set_bridge_times. cbv zeta. destruct (tst _); [done|]. cbn [fst]. inside_updates.
  - unfold stp_set_port_priority, stp_become_designated_port. cbv zeta.
    inside_updates; apply inside_selection; inside_updates.
  - unfold stp_set_path_cost. cbv zeta. apply inside_selection, inside_update. inside_updates.
Qed.

End Inside.

(** ** The instances do not disturb each other *)

(** The calls on the list of the instances.  An event names a port of an instance; a
    setter names a vlan, so that the instance it finds is in the list. *)
Inductive stp_wcall {TS} `{TimerService TS} (E : stp_env) : stp_world TS → stp_world TS → Prop :=
  | wcall_create w vlan_id : stp_wcall E w (stp_create_stp_instance E vlan_id w).1.1
  | wcall_delete w k : k ∈ stp_instance_head w → stp_wcall E w (stp_delete_stp_instance k w).1
  | wcall_instance w k x :
      k ∈ stp_instance_head w → stp_call E (focus k w) x → stp_wcall E w (unfocus k x w)
  | wcall_bpdu w bpdu port : stp_wcall E w (stp_process_bpdu E bpdu port w).1
  | wcall_event w port state :
      is_Some (stp_get_port_entry port w) →
      stp_wcall E w (stp_enable_or_disable_port E port state w).1
  | wcall_priority w prio vlan_id :
      vlan_id ≠ VLAN_INVALID_ID → stp_wcall E w (stp_set_bridge_priority E prio vlan_id w).1
  | wcall_hello w v vlan_id :
      vlan_id ≠ VLAN_INVALID_ID → stp_wcall E w (stp_set_bridge_hello_time v vlan_id w).1
  | wcall_forward_delay w v vlan_id :
      vlan_id ≠ VLAN_INVALID_ID → stp_wcall E w (stp_set_bridge_forward_delay v vlan_id w).1
  | wcall_max_age w v vlan_id :
      vlan_id ≠ VLAN_INVALID_ID → stp_wcall E w (stp_set_bridge_max_age v vlan_id w).1
  | wcall_times w fdly maxage htime vlan_id :
      vlan_id ≠ VLAN_INVALID_ID →
      stp_wcall E w (stp_set_bridge_times fdly maxage htime vlan_id w).1.

(** The worlds the switch reaches. *)
Definition stp_world_reachable {TS} `{TimerService TS} (w : stp_world TS) : Prop :=
  ∃ w0, stp_instance_head w0 = [] ∧ (0 < wnext w0)%nat ∧ fault (wmem w0) = false ∧
        rtc (λ v w, ∃ E, stp_wcall E v w) w0 w.

Section Separation.
Context {TS : Type} `{TimerService TS} `{!TimerAlloc TS}.

Implicit Types w : stp_world TS.

Definition winv w : Prop :=
  NoDup (stp_instance_head w) ∧ (0 < wnext w)%nat ∧ fault (wmem w) = false ∧
  (∀ k, k ∈ stp_instance_head w →
    (k < wnext w)%nat ∧ inv (focus k w) ∧
    (k = 0%nat → br_vlan_id (winst w k) = VLAN_INVALID_ID)) ∧
  ∀ j k, j ∈ stp_instance_head w → k ∈ stp_instance_head w → j ≠ k →
    ∀ i, i ∈ br_port_list (winst w j) → i ∉ br_port_list (winst w k).

(** An instance whose ports have not been touched. *)
Lemma inv_transfer (s x : stp TS) :
  inv s → br x = br s → fault x = false → (snext s ≤ snext x)%nat →
  (∀ i, i ∈ br_port_list (br s) → sports x i = sports s i) → inv x.
Proof.
  intros ((Hf & Ht & [Hd Hl] & Hst) & Hr & Hs) Hb Hfx Hn Hp.
  unfold inv, base, ports_ok, safe. rewrite Hb, Hfx. split; [split_and!; try done|split].
  - intros i Hi. rewrite Hp by done. destruct (Hl i Hi) as (L1 & L2). split; [lia|done].
  - intros i Hi. rewrite Hp by done. auto.
  - destruct Hr as [Hr|(r & Hr & Hno & Hstr)]; [left|right].
    + unfold stp_is_root_bridge in *. by rewrite Hb.
    + exists r. by rewrite Hp, Hb.
  - intros i Hi. unfold active_role, stp_is_designated_port. rewrite Hp, Hb by done.
    by apply Hs.
Qed.

Lemma winst_unfocus k j x w :
  winst (unfocus k x w) j = if decide (k = j) then br x else winst w j.
Proof. done. Qed.

(** The work on one instance. *)
Lemma winv_instance w k x :
  k ∈ stp_instance_head w → inv x → inside (focus k w) x → winv w → winv (unfocus k x w).
Proof.
  intros Hk Hx (L1 & L2 & L3 & L4) (W1 & W2 & W3 & W4 & W5).
  assert (∀ j i, j ∈ stp_instance_head w → j ≠ k → i ∈ br_port_list (winst w j) →
    ¬ own (focus k w) i) as Hforeign.
  { intros j i Hj Hjk Hi [Hik|Hik]; [by apply (W5 j k Hj Hk Hjk i Hi)|].
    destruct (W4 j Hj) as (_ & ((_ & _ & [_ Hl] & _) & _) & _).
    destruct (Hl i Hi) as [Hlt _]. cbn in Hlt, Hik. lia. }
  split_and!; [done|done|apply Hx| |].
  - intros j Hj. destruct (W4 j Hj) as (J1 & J2 & J3). split; [done|].
    rewrite winst_unfocus. unfold focus. rewrite winst_unfocus.
    destruct (decide (k = j)) as [<-|Hne].
    + split; [by destruct x|]. intros H0. rewrite L4. by apply J3.
    + split; [|done]. apply (inv_transfer (focus j w)); [done|done|apply Hx|done|].
      intros i Hi. apply (L3 i). by apply (Hforeign j).
  - intros j j' Hj Hj' Hne i. rewrite !winst_unfocus.
    destruct (decide (k = j)) as [<-|N1], (decide (k = j')) as [<-|N2]; [done| | |by apply W5].
    + intros Hi%L2 Hi'. by apply (Hforeign j' i).
    + intros Hi Hi'%L2. by apply (Hforeign j i).
Qed.

Lemma winv_call E w k x :
  k ∈ stp_instance_head w → stp_call E (focus k w) x → winv w → winv (unfocus k x w).
Proof.
  intros Hk Hc Hw. apply winv_instance; [done| |by eapply call_inside|done].
  eapply call_inv; [exact Hc|]. by apply Hw.
Qed.

(** A search ends at an instance of the list, and at one of its ports. *)
Lemma port_entry_in_list port w l k i :
  port_entry_in l port w = Some (k, i) → k ∈ l ∧ i ∈ br_port_list (winst w k).
Proof.
  induction l as [|j l IH]; cbn [port_entry_in]; [done|].
  destruct (stp_get_port_info _ _) as [i'|] eqn:Hf.
  - intros [= -> ->]. split; [by left|].
    unfold stp_get_port_info in Hf. by apply find_some in Hf as [Hi%list_elem_of_In _].
  - intros [Hk Hi]%IH. split; [by right|done].
Qed.

Lemma bridge_entry_in_list vlan_id w k :
  vlan_id ≠ VLAN_INVALID_ID → get_this_bridge_entry vlan_id w = Some k →
  k ∈ stp_instance_head w.
Proof.
  intros Hv. unfold get_this_bridge_entry.
  rewrite (proj2 (Z.eqb_neq _ _) Hv). by intros [Hk%list_elem_of_In _]%find_some.
Qed.

Lemma winv_with_bridge E vlan_id f w :
  (∀ k, stp_call E (focus k w) (f (focus k w)).1) → vlan_id ≠ VLAN_INVALID_ID →
  winv w → winv (with_bridge vlan_id f w).1.
Proof.
  intros Hf Hv Hw. unfold with_bridge.
  destruct (get_this_bridge_entry _ _) as [k|] eqn:Hk; [|done].
  apply bridge_entry_in_list in Hk; [|done]. specialize (Hf k). unfold on_instance_r.
  destruct (f (focus k w)) as [x r]. by apply (winv_call E).
Qed.

(** What the initialisation of an instance touches. *)
Lemma timer_init_frame (s : stp TS) n f vlan_id :
  snext s = n → sports s = f → br_port_list (br s) = [] → br_vlan_id (br s) = vlan_id →
  let x := stp_timer_init s in
  snext x = n ∧ sports x = f ∧ br_port_list (br x) = [] ∧ br_vlan_id (br x) = vlan_id.
Proof.
  unfold stp_timer_init, setup_timer. cbv zeta.
  destruct (ts_setup (ts s)) as [t1 c1]. set (s2 := upd_br _ _).
  destruct (ts_setup (ts s2)) as [t2 c2]. set (s3 := upd_br _ _).
  by destruct (ts_setup (ts s3)) as [t3 c3].
Qed.

Lemma init_frame E vlan_id (s : stp TS) :
  let x := stp_init_stp_instance E vlan_id s in
  snext x = snext s ∧ sports x = sports s ∧ br_port_list (br x) = [] ∧
  br_vlan_id (br x) = vlan_id.
Proof. unfold stp_init_stp_instance. cbv zeta. by apply timer_init_frame. Qed.

(** A new instance at an address that is not in the list. *)
Lemma winv_link E w k n vlan_id :
  k ∉ stp_instance_head w → (wnext w ≤ n)%nat → (k < n)%nat →
  (k = 0%nat → vlan_id = VLAN_INVALID_ID) → winv w →
  winv (mk_stp_world TS (<[k := br (stp_init_stp_instance E vlan_id (focus k w))]> (winst w))
          (stp_instance_head w ++ [k]) n (stp_init_stp_instance E vlan_id (focus k w))).
Proof.
  intros Hk Hn Hkn H0 (W1 & W2 & W3 & W4 & W5).
  pose proof (init_inv E vlan_id (focus k w) W3) as Hi.
  destruct (init_frame E vlan_id (focus k w)) as (F1 & F2 & F3 & F4).
  set (x := stp_init_stp_instance _ _ _) in *. clearbody x.
  assert (∀ j, j ∈ stp_instance_head w → k ≠ j) as Hne by (by intros j Hj ->).
  split_and!; [|cbn; lia|apply Hi| |]; cbn [stp_instance_head winst wnext].
  - apply list.NoDup_app. split_and!; [done| |apply NoDup_singleton].
    intros j Hj ->%list_elem_of_singleton. by apply Hk.
  - intros j [Hj| ->%list_elem_of_singleton]%elem_of_app; unfold focus; cbn [wmem winst].
    + destruct (W4 j Hj) as (J1 & J2 & J3). rewrite fn_lookup_insert_ne by auto.
      split_and!; [lia| |done].
      apply (inv_transfer (focus j w)); [done|done|apply Hi|cbn; cbn in F1; lia|].
      intros i _. apply (f_equal (λ f, f i)) in F2. exact F2.
    + rewrite fn_lookup_insert. split_and!; [lia|by destruct x|]. intros Hz. rewrite F4. auto.
  - intros j j'. rewrite !elem_of_app, !list_elem_of_singleton.
    intros [Hj| ->] [Hj'| ->] Hjj i.
    + rewrite !fn_lookup_insert_ne by auto. by apply W5.
    + rewrite fn_lookup_insert, F3. set_solver.
    + rewrite fn_lookup_insert, F3. set_solver.
    + done.
Qed.

Lemma winv_create E vlan_id w : winv w → winv (stp_create_stp_instance E vlan_id w).1.1.
Proof.
  intros Hw. pose proof Hw as (W1 & W2 & W3 & W4 & W5). unfold stp_create_stp_instance.
  destruct (find _ _) as [k|] eqn:Hf; [done|].
  destruct (Z.eqb_spec vlan_id VLAN_INVALID_ID) as [->|Hv].
  - apply (winv_link E w 0 (wnext w)); [|done|done|done|done].
    intros H0. pose proof (find_none _ _ Hf 0%nat (proj1 (list_elem_of_In _ _) H0)) as Hn.
    cbn in Hn. destruct (W4 0%nat H0) as (_ & _ & W6). rewrite W6 in Hn by done. done.
  - destruct (s_malloc_ok E); [|done]. apply (winv_link E w (wnext w) (S (wnext w)));
      [|lia|lia|lia|done].
    intros Hk%W4. lia.
Qed.

Lemma winv_delete k w : winv w → winv (stp_delete_stp_instance k w).1.
Proof.
  intros (W1 & W2 & W3 & W4 & W5). unfold stp_delete_stp_instance. cbn [fst].
  split_and!; cbn [stp_instance_head winst wnext wmem];
    [by apply list.NoDup_filter|done|done| |].
  - intros j [Hne Hj]%list_elem_of_filter. unfold focus. cbn [wmem winst].
    rewrite fn_lookup_insert_ne by auto. by apply W4.
  - intros j j' [N1 Hj]%list_elem_of_filter [N2 Hj']%list_elem_of_filter Hne i.
    rewrite !fn_lookup_insert_ne by auto. by apply W5.
Qed.

Lemma wcall_winv E w v : stp_wcall E w v → winv w → winv v.
Proof.
  intros Hc Hw. destruct Hc.
  - by apply winv_create.
  - by apply winv_delete.
  - by eapply winv_call.
  - unfold stp_process_bpdu. destruct (stp_get_port_entry _ _) as [[k i]|] eqn:Hp; [|done].
    apply port_entry_in_list in Hp as [Hk Hi].
    pose proof (call_bpdu E (focus k w) i bpdu Hi) as Hc. unfold on_instance_r.
    destruct (process_stp_bpdu_on _ _ _ _) as [x r]. by apply (winv_call E).
  - unfold stp_enable_or_disable_port. destruct (stp_get_port_entry _ _) as [[k i]|] eqn:Hp;
      [|by destruct H0].
    apply port_entry_in_list in Hp as [Hk Hi].
    repeat (destruct (_ =? _)); [| |done]; apply (winv_call E); try done; by constructor.
  - apply (winv_with_bridge E); [constructor|done|done].
  - apply (winv_with_bridge E); [constructor|done|done].
  - apply (winv_with_bridge E); [constructor|done|done].
  - apply (winv_with_bridge E); [constructor|done|done].
  - apply (winv_with_bridge E); [constructor|done|done].
Qed.

Lemma world_reachable_winv w : stp_world_reachable w → winv w.
Proof.
  intros (w0 & H1 & H2 & H3 & Hr).
  assert (winv w0) as H0.
  { split_and!; rewrite ?H1; [constructor|done|done| |]; set_solver. }
  clear H1 H2 H3. induction Hr as [|x y z [E Hxy] _ IH]; [done|]. eauto using wcall_winv.
Qed.

(** A call on one instance of a reachable world leaves the others alone: the ports of
    every other instance are as they were, and none of them is linked into the instance
    worked on; the world still has no two instances with a common port. *)
Theorem stp_instances_separate E w j k x :
  stp_world_reachable w → j ∈ stp_instance_head w → k ∈ stp_instance_head w → j ≠ k →
  stp_call E (focus k w) x →
  ∀ i, i ∈ br_port_list (winst w j) →
    sports (wmem (unfocus k x w)) i = sports (wmem w) i ∧
    i ∈ br_port_list (winst (unfocus k x w) j) ∧ i ∉ br_port_list (winst (unfocus k x w) k).
Proof.
  intros Hr%world_reachable_winv Hj Hk Hjk Hc i Hi.
  pose proof (winv_call E w k x Hk Hc Hr) as (_ & _ & _ & _ & V5).
  specialize (V5 j k Hj Hk Hjk i). rewrite !winst_unfocus in *.
  rewrite decide_False in * by auto. split_and!; [|done|by apply V5].
  destruct (call_inside E _ _ Hc) as (_ & _ & L3 & _). apply L3.
  destruct Hr as (_ & _ & _ & W4 & W5).
  intros [Hik|Hik]; [by apply (W5 j k Hj Hk Hjk i Hi)|].
  destruct (W4 j Hj) as (_ & ((_ & _ & [_ Hl] & _) & _) & _).
  destruct (Hl i Hi) as [Hlt _]. cbn in Hlt, Hik. lia.
Qed.

(** In every world the switch reaches, with any number of instances created, worked
    on and deleted, no NULL pointer has been dereferenced, and a port of any
    instance that learns or forwards has an active role in that instance. *)
Theorem stp_world_safe w k i :
  stp_world_reachable w → k ∈ stp_instance_head w → i ∈ br_port_list (winst w k) →
  p_state (sports (wmem w) i) = LEARNING ∨ p_state (sports (wmem w) i) = FORWARDING →
  fault (wmem w) = false ∧ active_role (focus k w) i = true.
Proof.
  intros (_ & _ & Hf & W4 & _)%world_reachable_winv Hk Hi Hs. split; [done|].
  destruct (W4 k Hk) as (_ & (_ & _ & Hsafe) & _). apply Hsafe; [done|]. by right.
Qed.

Lemma find_snoc {A} (f : A → bool) l k :
  (∀ j, j ∈ l → f j = false) → f k = true → find f (l ++ [k]) = Some k.
Proof.
  intros Hl Hk. induction l as [|j l IH]; cbn; [by rewrite Hk|].
  rewrite Hl by (by left). apply IH. intros i Hi. apply Hl. by right.
Qed.

(** The instance that is created for a vlan is the one that is found for it, by the
    setters as by a second creation. *)
Theorem stp_create_find E vlan_id w v k r :
  vlan_id ≠ VLAN_INVALID_ID → stp_world_reachable w →
  stp_create_stp_instance E vlan_id w = (v, Some k, r) →
  get_this_bridge_entry vlan_id v = Some k ∧ stp_create_stp_instance E vlan_id v = (v, Some k, 0).
Proof.
  intros Hv Hr%world_reachable_winv Hc.
  assert (find (λ k, br_vlan_id (winst v k) =? vlan_id) (stp_instance_head v) = Some k) as Hf.
  { unfold stp_create_stp_instance in Hc. destruct (find _ _) as [k'|] eqn:Hf.
    { by injection Hc as <- <- <-. }
    rewrite (proj2 (Z.eqb_neq _ _) Hv) in Hc. destruct (s_malloc_ok E); [|done].
    injection Hc as <- <- <-. destruct Hr as (_ & _ & _ & W4 & _). apply find_snoc.
    - intros j Hj. pose proof (find_none _ _ Hf j (proj1 (list_elem_of_In _ _) Hj)) as Hn.
      destruct (W4 j Hj) as [Hlt _]. cbn [winst on_instance unfocus].
      by rewrite fn_lookup_insert_ne by lia.
    - cbn [winst on_instance unfocus]. rewrite fn_lookup_insert.
      edestruct init_frame as (_ & _ & _ & ->). apply Z.eqb_refl. }
  unfold get_this_bridge_entry, stp_create_stp_instance. rewrite Hf.
  by rewrite (proj2 (Z.eqb_neq _ _) Hv).
Qed.

(** An event for a port that no instance has, up or down, dereferences a NULL
    pointer. *)
Theorem stp_unknown_port_faults E port state w :
  stp_get_port_entry port w = None → state = IF_UP ∨ state = IF_DOWN →
  fault (wmem (stp_enable_or_disable_port E port state w).1) = true.
Proof.
  intros Hp Hs. unfold stp_enable_or_disable_port. rewrite Hp.
  by destruct Hs as [->| ->].
Qed.

End Separation.

(** ** Witnesses

    Two instances, of the vlans 1 and 2, with the ports 1 and 2; the first is enabled and
    its port has gone on to learning. *)

Definition demo_w0 : stp_world clock := mk_stp_world clock (λ _, br demo_s0) [] 1 demo_s0.

Definition demo_w1 : stp_world clock := (stp_create_stp_instance demo_senv 1 demo_w0).1.1.

Definition demo_w2 : stp_world clock := (stp_create_stp_instance demo_senv 2 demo_w1).1.1.

Definition demo_w3 : stp_world clock :=
  on_instance 2 (λ s, (stp_create_port demo_senv 2 s).1)
    (on_instance 1 (λ s, (stp_create_port demo_senv 1 s).1) demo_w2).

Definition demo_w4 : stp_world clock :=
  on_instance 1 (stp_forward_delay_timer_expired demo_senv 0)
    (on_instance 1 (λ s, (stp_set_state demo_senv 1 s).1) demo_w3).

Lemma world_reachable_step {TS} `{TimerService TS} E (w v : stp_world TS) :
  stp_wcall E w v → stp_world_reachable w → stp_world_reachable v.
Proof.
  intros Hc (w0 & H1 & H2 & H3 & Hr). exists w0. split_and!; [done|done|done|].
  eapply rtc_r; [exact Hr|]. by exists E.
Qed.

Lemma world_instance_step {TS} `{TimerService TS} E k f (w : stp_world TS) :
  existsb (Nat.eqb k) (stp_instance_head w) = true → stp_call E (focus k w) (f (focus k w)) →
  stp_world_reachable w → stp_world_reachable (on_instance k f w).
Proof.
  intros Hk Hc. apply (world_reachable_step E). apply wcall_instance; [by apply in_port_list|done].
Qed.

Lemma demo_w1_reachable : stp_world_reachable demo_w1.
Proof.
  eapply world_reachable_step; [apply wcall_create|].
  exists demo_w0. split_and!; [done|cbn; lia|done|constructor].
Qed.

Lemma demo_w4_reachable : stp_world_reachable demo_w4.
Proof.
  apply (world_instance_step demo_senv); [by vm_compute|apply call_forward_delay, in_port_list; by vm_compute|].
  apply (world_instance_step demo_senv); [by vm_compute|apply call_set_state|].
  apply (world_instance_step demo_senv); [by vm_compute|by apply call_create_port|].
  apply (world_instance_step demo_senv); [by vm_compute|by apply call_create_port|].
  eapply world_reachable_step; [apply wcall_create|apply demo_w1_reachable].
Qed.

Lemma stp_instances_separate_witness :
  let w := unfocus 2 (stp_set_state demo_senv 1 (focus 2 demo_w4)).1 demo_w4 in
  sports (wmem w) 0 = sports (wmem demo_w4) 0 ∧
  0%nat ∈ br_port_list (winst w 1) ∧ 0%nat ∉ br_port_list (winst w 2).
Proof.
  apply (stp_instances_separate demo_senv demo_w4 1 2);
    [apply demo_w4_reachable|apply in_port_list; by vm_compute|apply in_port_list; by vm_compute
    |done|apply call_set_state|apply in_port_list; by vm_compute].
Defined.

Lemma stp_world_safe_witness :
  fault (wmem demo_w4) = false ∧ active_role (focus 1 demo_w4) 0 = true.
Proof.
  apply (stp_world_safe demo_w4 1 0);
    [apply demo_w4_reachable|apply in_port_list; by vm_compute|apply in_port_list; by vm_compute
    |left; by vm_compute].
Defined.

Lemma stp_create_find_witness :
  get_this_bridge_entry 2 demo_w2 = Some 2%nat ∧
  stp_create_stp_instance demo_senv 2 demo_w2 = (demo_w2, Some 2%nat, 0).
Proof.
  apply (stp_create_find demo_senv 2 demo_w1 demo_w2 2 0);
    [done|apply demo_w1_reachable|by vm_compute].
Defined.

Lemma stp_unknown_port_faults_witness :
  fault (wmem (stp_enable_or_disable_port demo_senv 3 IF_UP demo_w4).1) = true.
Proof. apply (stp_unknown_port_faults demo_senv 3 IF_UP); [by vm_compute|by left]. Defined.
