(* ===== verification/StpCli.v ===== *)
(** * Spanning tree: the commands of src/bridge/stp/stp_cli.c

    A command takes the VLAN the command line is in ([cli_get_vlan_id ()]) and its arguments, an optional
    one as an [option], and returns the new instances with the result of the command.  The commands that
    switch the protocol on and off are in Vlan.v. *)

From stdpp Require Import relations sets.
From S2P Require Import Prelude RstpTypes Rstp RstpWorld RstpCli TimerIface StpTypes Stp StpFrame StpSelect.
From S2P Require Import StpInv StpWorld.

Section Commands.
Context {TS : Type} `{TimerService TS} (E : stp_env) (vlan : Z).

Local Abbreviation W := (stp_world TS).

(** [if (!call) return CPARSER_OK; return CPARSER_NOT_OK;] *)
Definition stp_cli_result (r : W * Z) : W * cparser_result_t :=
  (r.1, if r.2 =? 0 then CPARSER_OK else CPARSER_NOT_OK).

Definition cmd_stp_priority (priority : Z) (w : W) : W * cparser_result_t :=
  stp_cli_result (stp_set_bridge_priority E (u16 priority) (u16 vlan) w).

(** [spanning-tree hello-time h \[forward-delay f\] \[max-age m\]] *)
Definition cmd_stp_hello_time (htime : Z) (fdly maxage : option Z) (w : W) : W * cparser_result_t :=
  match fdly, maxage with
  | None, None => stp_cli_result (stp_set_bridge_hello_time htime (u16 vlan) w)
  | _, _ =>
      if (htime <? STP_MIN_HELLO_TIME) || (htime >? STP_MAX_HELLO_TIME)
      then (w, CPARSER_NOT_OK)
      else if opt_out_of_range fdly STP_MIN_FORWARD_DELAY STP_MAX_FORWARD_DELAY
      then (w, CPARSER_NOT_OK)
      else if opt_out_of_range maxage STP_MIN_MAX_AGE STP_MAX_MAX_AGE
      then (w, CPARSER_NOT_OK)
      else
        let '(w, r) := stp_set_bridge_times (opt_arg fdly) (opt_arg maxage) htime (u16 vlan) w in
        (w, CPARSER_NOT_OK)
  end.

Definition cmd_stp_forward_delay (fdly : Z) (maxage htime : option Z) (w : W) : W * cparser_result_t :=
  match htime, maxage with
  | None, None => stp_cli_result (stp_set_bridge_forward_delay fdly (u16 vlan) w)
  | _, _ =>
      if (fdly <? STP_MIN_FORWARD_DELAY) || (fdly >? STP_MAX_FORWARD_DELAY)
      then (w, CPARSER_NOT_OK)
      else if opt_out_of_range htime STP_MIN_HELLO_TIME STP_MAX_HELLO_TIME
      then (w, CPARSER_NOT_OK)
      else if opt_out_of_range maxage STP_MIN_MAX_AGE STP_MAX_MAX_AGE
      then (w, CPARSER_NOT_OK)
      else
        let '(w, r) := stp_set_bridge_times fdly (opt_arg maxage) (opt_arg htime) (u16 vlan) w in
        (w, CPARSER_NOT_OK)
  end.

Definition cmd_stp_max_age (maxage : Z) (fdly htime : option Z) (w : W) : W * cparser_result_t :=
  match fdly, htime with
  | None, None => stp_cli_result (stp_set_bridge_max_age maxage (u16 vlan) w)
  | _, _ =>
      if (maxage <? STP_MIN_MAX_AGE) || (maxage >? STP_MAX_MAX_AGE)
      then (w, CPARSER_NOT_OK)
      else if opt_out_of_range fdly STP_MIN_FORWARD_DELAY STP_MAX_FORWARD_DELAY
      then (w, CPARSER_NOT_OK)
      else if opt_out_of_range htime STP_MIN_HELLO_TIME STP_MAX_HELLO_TIME
      then (w, CPARSER_NOT_OK)
      else
        let '(w, r) := stp_set_bridge_times (opt_arg fdly) maxage (opt_arg htime) (u16 vlan) w in
        (w, CPARSER_NOT_OK)
  end.

(** The calls on one port of the bridge: -1 without the bridge, without the port, or with a bad value. *)
Definition set_stp_port (portnum : Z) (bad : bool) (f : nat → stp TS → stp TS) : W → W * Z :=
  with_bridge (u16 vlan) (λ s,
    match stp_get_port_info s portnum with
    | None => (s, -1)
    | Some i => if bad then (s, -1) else (f i s, 0)
    end).

Definition set_spanning_bridge_port_path_cost (path_cost portnum : Z) : W → W * Z :=
  set_stp_port portnum ((path_cost <? STP_MIN_PATH_COST) || (path_cost >? STP_MAX_PATH_COST))
    (λ i, stp_set_path_cost E i path_cost).

Definition set_spanning_bridge_port_prio (prio portnum : Z) : W → W * Z :=
  set_stp_port portnum (prio >? STP_MAX_PORT_PRIORITY) (λ i, stp_set_port_priority E i (u8 prio)).

Definition cmd_stp_port_path_cost (portnum cost : Z) (w : W) : W * cparser_result_t :=
  stp_cli_result (set_spanning_bridge_port_path_cost (u32 cost) (u32 portnum) w).

Definition cmd_stp_port_priority (portnum priority : Z) (w : W) : W * cparser_result_t :=
  stp_cli_result (set_spanning_bridge_port_prio (u32 priority) (u32 portnum) w).

End Commands.

(** ** The times of the instances *)

(** The times configured on a bridge, and that they are in their ranges and satisfy the relation of
    802.1D. *)
Definition btimes (b : stp_instance) : Z * Z * Z :=
  (br_bridge_forward_delay b, br_bridge_max_age b, br_bridge_hello_time b).

Definition stp_times_ok (t : Z * Z * Z) : Prop :=
  let '(f, m, h) := t in
  STP_MIN_FORWARD_DELAY ≤ f ≤ STP_MAX_FORWARD_DELAY ∧ STP_MIN_MAX_AGE ≤ m ≤ STP_MAX_MAX_AGE ∧
  STP_MIN_HELLO_TIME ≤ h ≤ STP_MAX_HELLO_TIME ∧ bridge_timer_relation f m h = 0.

Section Times.
Context {TS : Type} `{TimerService TS} (E : stp_env).

Implicit Types s x y : stp TS.
Implicit Types w : stp_world TS.

Local Definition kept s x : Prop := btimes (br x) = btimes (br s).

Lemma kept_fold s x (body : nat → stp TS → stp TS) l :
  (∀ i y, kept s y → kept s (body i y)) → kept s x → kept s (foldl (λ x i, body i x) x l).
Proof. intros Hb. revert x. induction l as [|i l IH]; intros x Hx; cbn; auto. Qed.

Lemma kept_for_each s x (body : nat → stp TS → stp TS) :
  (∀ i y, kept s y → kept s (body i y)) → kept s x → kept s (for_each_sport body x).
Proof. apply kept_fold. Qed.

Lemma kept_mod s x t v : kept s x → kept s (mod_timer t v x).
Proof. by destruct t. Qed.

Lemma kept_del s x t : kept s x → kept s (del_timer t x).
Proof. by destruct t. Qed.

(** Descends through the updates of an operation. *)
Ltac kept_updates :=
  repeat match goal with
  | |- kept _ (if ?b then _ else _) => destruct b
  | |- kept _ (mod_timer _ _ _) => apply kept_mod
  | |- kept _ (del_timer _ _) => apply kept_del
  | |- kept ?s (upd_sport ?i ?f ?x) => change (kept s x)
  | |- kept ?s (upd_br ?f ?x) => change (kept s x)
  | |- kept ?s (set_fld _ _ ?x) => change (kept s x)
  end; try assumption.

Lemma kept_transmit_config s x i : kept s x → kept s (stp_transmit_config E i x).
Proof.
  intros. unfold stp_transmit_config, stp_send_config_bpdu, stp_send_bpdu. cbv zeta.
  destruct (config_message_age x); kept_updates.
Qed.

Lemma kept_tcd s x : kept s x → kept s (stp_topology_change_detection E x).
Proof.
  intros. unfold stp_topology_change_detection, stp_transmit_tcn, stp_send_tcn_bpdu, stp_send_bpdu.
  cbv zeta. destruct (stp_get_port _ _); kept_updates.
Qed.

Lemma kept_become_root s x : kept s x → kept s (stp_become_root_bridge E x).
Proof.
  intros. unfold stp_become_root_bridge. cbv zeta. apply kept_mod, kept_for_each.
  { intros i y Hy. kept_updates. by apply kept_transmit_config. }
  apply kept_del, kept_tcd. kept_updates.
Qed.

Lemma kept_selection s x : kept s x → kept s (stp_port_state_selection E x).
Proof.
  intros. apply kept_for_each; [|done]. intros i y Hy.
  unfold state_selection_step, stp_make_forwarding, stp_make_blocking. cbv zeta.
  kept_updates; apply kept_tcd; kept_updates.
Qed.

Lemma kept_update s x : kept s x → kept s (stp_configuration_update x).
Proof.
  intros. unfold stp_configuration_update. apply kept_for_each.
  { intros i y Hy. unfold stp_become_designated_port. kept_updates. }
  unfold stp_root_selection.
  assert (∀ l y rp, kept s y → kept s (foldl root_port_step (y, rp) l).1) as Hl.
  { intros l. induction l as [|i l IH]; intros y rp Hy; [done|]. cbn [foldl].
    unfold root_port_step at 2. destruct (tst _); [by apply IH|].
    destruct (stp_should_become_root_port y i rp) as [[]|]; apply IH; kept_updates. }
  specialize (Hl (br_port_list (br x)) x 0).
  destruct (foldl _ _ _) as [y rp]. cbn [fst] in Hl. cbv zeta.
  destruct (rp =? 0); [by kept_updates; auto|].
  destruct (stp_get_port _ _); kept_updates; auto.
Qed.

Lemma priority_kept s v : kept s (set_bridge_priority E v s).1.
Proof.
  unfold set_bridge_priority, maybe_become_root. cbv zeta. cbn [fst].
  set (x := stp_port_state_selection E _).
  assert (kept s x); [|kept_updates; by apply kept_become_root].
  apply kept_selection, kept_update. kept_updates.
  apply kept_for_each; [|done]. intros i y Hy. kept_updates.
Qed.

Lemma path_cost_kept s i v : kept s (stp_set_path_cost E i v s).
Proof. apply kept_selection, kept_update. kept_updates. done. Qed.

Lemma port_priority_kept s i v : kept s (stp_set_port_priority E i v s).
Proof.
  unfold stp_set_port_priority, stp_become_designated_port. cbv zeta.
  destruct (stp_is_designated_port s i), (_ && _); try done; by apply kept_selection.
Qed.

End Times.

(** ** The commands as a whole *)

Inductive stp_cmd :=
  | Cmd_priority (priority : Z)
  | Cmd_hello_time (htime : Z) (fdly maxage : option Z)
  | Cmd_forward_delay (fdly : Z) (maxage htime : option Z)
  | Cmd_max_age (maxage : Z) (fdly htime : option Z)
  | Cmd_port_path_cost (portnum cost : Z)
  | Cmd_port_priority (portnum priority : Z).

Definition run_stp_cmd {TS} `{TimerService TS} (E : stp_env) (vlan : Z) (c : stp_cmd) (w : stp_world TS) :
    stp_world TS * cparser_result_t :=
  match c with
  | Cmd_priority p => cmd_stp_priority E vlan p w
  | Cmd_hello_time h f m => cmd_stp_hello_time vlan h f m w
  | Cmd_forward_delay f m h => cmd_stp_forward_delay vlan f m h w
  | Cmd_max_age m f h => cmd_stp_max_age vlan m f h w
  | Cmd_port_path_cost port cost => cmd_stp_port_path_cost E vlan port cost w
  | Cmd_port_priority port prio => cmd_stp_port_priority E vlan port prio w
  end.

(** The times a command asks for on a bridge with the times [t], and whether it names several. *)
Definition asked (c : stp_cmd) (t : Z * Z * Z) : Z * Z * Z :=
  let '(f0, m0, h0) := t in
  match c with
  | Cmd_hello_time h f m => (default f0 f, default m0 m, h)
  | Cmd_forward_delay f m h => (f, default m0 m, default h0 h)
  | Cmd_max_age m f h => (default f0 f, m, default h0 h)
  | _ => t
  end.

Definition several (c : stp_cmd) : bool :=
  match c with
  | Cmd_hello_time _ a b | Cmd_forward_delay _ a b | Cmd_max_age _ a b =>
      match a, b with None, None => false | _, _ => true end
  | _ => false
  end.

(** What a command on a port needs. *)
Definition port_arg_ok {TS} (c : stp_cmd) (s : stp TS) : Prop :=
  match c with
  | Cmd_port_path_cost port cost =>
      is_Some (stp_get_port_info s (u32 port)) ∧ STP_MIN_PATH_COST ≤ u32 cost ≤ STP_MAX_PATH_COST
  | Cmd_port_priority port prio =>
      is_Some (stp_get_port_info s (u32 port)) ∧ u32 prio ≤ STP_MAX_PORT_PRIORITY
  | _ => True
  end.

#[export] Instance stp_times_ok_dec t : Decision (stp_times_ok t).
Proof. destruct t as [[f m] h]. unfold stp_times_ok. apply _. Defined.

Definition all_stp_times {TS} (w : stp_world TS) : Prop :=
  ∀ k, k ∈ stp_instance_head w → stp_times_ok (btimes (winst w k)).

Section Properties.
Context {TS : Type} `{TimerService TS} `{!TimerAlloc TS} (E : stp_env) (vlan : Z).

Implicit Types s x : stp TS.
Implicit Types w : stp_world TS.

(** What a command does to the instance it finds, in the state [s]: the new state [x] and the result. *)
Definition cmd_outcome (c : stp_cmd) s x (r : cparser_result_t) : Prop :=
  (x = s ∨ stp_call E s x) ∧
  btimes (br x) =
    (if decide (stp_times_ok (asked c (btimes (br s)))) then asked c (btimes (br s)) else btimes (br s)) ∧
  (r = CPARSER_OK ↔ several c = false ∧ stp_times_ok (asked c (btimes (br s))) ∧ port_arg_ok c s) ∧
  (r = CPARSER_NOT_OK → several c = false → x = s).

Lemma not_several_ok (c : stp_cmd) s x :
  several c = true → (x = s ∨ stp_call E s x) →
  btimes (br x) =
    (if decide (stp_times_ok (asked c (btimes (br s)))) then asked c (btimes (br s)) else btimes (br s)) →
  cmd_outcome c s x CPARSER_NOT_OK.
Proof. intros Hc Hx Ht. split_and!; [done|done| |by rewrite Hc]. rewrite Hc. split; [done|by intros []]. Qed.

(** The one setter of several times. *)
Lemma set_times_btimes (f m h : option Z) s :
  (∀ v, f = Some v → 0 ≤ v) → (∀ v, m = Some v → 0 ≤ v) → (∀ v, h = Some v → 0 ≤ v) →
  let '(f0, m0, h0) := btimes (br s) in
  btimes (br (set_bridge_times (opt_arg f) (opt_arg m) (opt_arg h) s).1) =
    if bridge_timer_relation (default f0 f) (default m0 m) (default h0 h) =? 0
    then (default f0 f, default m0 m, default h0 h) else (f0, m0, h0).
Proof.
  intros Hf Hm Hh. cbn [btimes]. unfold set_bridge_times.
  assert (∀ (o : option Z) d, (∀ v, o = Some v → 0 ≤ v) →
    (if opt_arg o <? 0 then d else opt_arg o) = default d o) as Hd.
  { intros [v|] d Hv; cbn; [|done]. by rewrite (proj2 (Z.ltb_ge v 0)) by auto. }
  rewrite !Hd by done. cbv zeta. unfold tst. destruct (_ =? 0); cbn [negb]; [|done]. cbn [fst].
  by destruct (stp_is_root_bridge _).
Qed.

Lemma opt_range (o : option Z) lo hi d :
  lo ≤ d ≤ hi → 0 ≤ lo →
  if opt_out_of_range o lo hi then ¬ (lo ≤ default d o ≤ hi)
  else (∀ v, o = Some v → 0 ≤ v) ∧ lo ≤ default d o ≤ hi.
Proof.
  intros Hd Hlo. destruct o as [v|]; cbn; [|done].
  destruct (Z.ltb_spec v lo); cbn; [lia|]. rewrite Z.gtb_ltb. destruct (Z.ltb_spec hi v); [lia|].
  split; [|lia]. intros ? [= <-]. lia.
Qed.

(** A command that names several times, with the ranges of the arguments checked first. *)
Lemma several_outcome (c : stp_cmd) (f m h : option Z) w k :
  several c = true → (∀ t, asked c t = (default t.1.1 f, default t.1.2 m, default t.2 h)) →
  get_this_bridge_entry (u16 vlan) w = Some k → stp_times_ok (btimes (winst w k)) →
  (opt_out_of_range f STP_MIN_FORWARD_DELAY STP_MAX_FORWARD_DELAY = false →
   opt_out_of_range m STP_MIN_MAX_AGE STP_MAX_MAX_AGE = false →
   opt_out_of_range h STP_MIN_HELLO_TIME STP_MAX_HELLO_TIME = false →
   ∃ x, (stp_set_bridge_times (opt_arg f) (opt_arg m) (opt_arg h) (u16 vlan) w).1 = unfocus k x w ∧
        cmd_outcome c (focus k w) x CPARSER_NOT_OK) ∧
  (opt_out_of_range f STP_MIN_FORWARD_DELAY STP_MAX_FORWARD_DELAY = true ∨
   opt_out_of_range m STP_MIN_MAX_AGE STP_MAX_MAX_AGE = true ∨
   opt_out_of_range h STP_MIN_HELLO_TIME STP_MAX_HELLO_TIME = true →
   cmd_outcome c (focus k w) (focus k w) CPARSER_NOT_OK).
Proof.
  intros Hc Ha Hk (Tf & Tm & Th & Tr).
  pose proof (opt_range f _ _ _ Tf ltac:(done)) as Rf.
  pose proof (opt_range m _ _ _ Tm ltac:(done)) as Rm.
  pose proof (opt_range h _ _ _ Th ltac:(done)) as Rh.
  split.
  - intros F1 F2 F3. rewrite F1 in Rf. rewrite F2 in Rm. rewrite F3 in Rh.
    unfold stp_set_bridge_times, with_bridge. rewrite Hk. unfold on_instance_r.
    pose proof (set_times_btimes f m h (focus k w) (proj1 Rf) (proj1 Rm) (proj1 Rh)) as Hb.
    pose proof (call_times E (focus k w) (opt_arg f) (opt_arg m) (opt_arg h)) as Hcall.
    destruct (set_bridge_times _ _ _ _) as [x r]. cbn [fst] in *. exists x. split; [done|].
    apply not_several_ok; [done|by right|]. rewrite Ha. cbn in Hb |- *. rewrite Hb.
    destruct (_ =? 0) eqn:E0; [apply Z.eqb_eq in E0|apply Z.eqb_neq in E0].
    + rewrite decide_True; [done|]. split_and!; try apply Rf; try apply Rm; try apply Rh; done.
    + rewrite decide_False; [done|]. by intros (_ & _ & _ & ?).
  - intros Hbad. apply not_several_ok; [done|by left|]. rewrite Ha. cbn. rewrite decide_False; [done|].
    intros (B1 & B2 & B3 & _). by destruct Hbad as [F|[F|F]]; rewrite F in *.
Qed.

(** A command that sets one time. *)
Lemma single_outcome (c : stp_cmd) (g : stp TS → stp TS * Z) w k :
  several c = false → port_arg_ok c (focus k w) →
  stp_call E (focus k w) (g (focus k w)).1 →
  (if decide (stp_times_ok (asked c (btimes (winst w k))))
   then (g (focus k w)).2 = 0 ∧ btimes (br (g (focus k w)).1) = asked c (btimes (winst w k))
   else g (focus k w) = (focus k w, -1)) →
  get_this_bridge_entry (u16 vlan) w = Some k →
  ∃ x, (stp_cli_result (with_bridge (u16 vlan) g w)).1 = unfocus k x w ∧
       cmd_outcome c (focus k w) x (stp_cli_result (with_bridge (u16 vlan) g w)).2.
Proof.
  intros Hc Hp Hcall Hg Hk. unfold with_bridge. rewrite Hk. unfold on_instance_r, stp_cli_result.
  destruct (g (focus k w)) as [x r]. cbn [fst snd] in *. exists x. split; [done|].
  unfold cmd_outcome. change (br (focus k w)) with (winst w k). rewrite Hc.
  destruct (decide _) as [Ht|Ht].
  - destruct Hg as [-> Hb]. split_and!; [by right|done|done|done].
  - injection Hg as -> ->. split_and!; [by left|done| |done]. split; [done|]. by intros (_ & ? & _).
Qed.

(** A command on a port. *)
Lemma port_outcome (c : stp_cmd) portnum bad (f : nat → stp TS → stp TS) w k :
  several c = false → asked c (btimes (winst w k)) = btimes (winst w k) →
  (port_arg_ok c (focus k w) ↔ is_Some (stp_get_port_info (focus k w) portnum) ∧ bad = false) →
  (∀ i, i ∈ br_port_list (winst w k) → stp_call E (focus k w) (f i (focus k w))) →
  (∀ i, btimes (br (f i (focus k w))) = btimes (winst w k)) →
  stp_times_ok (btimes (winst w k)) →
  get_this_bridge_entry (u16 vlan) w = Some k →
  ∃ x, (stp_cli_result (set_stp_port vlan portnum bad f w)).1 = unfocus k x w ∧
       cmd_outcome c (focus k w) x (stp_cli_result (set_stp_port vlan portnum bad f w)).2.
Proof.
  intros Hc Ha Hp Hcall Hb Ht Hk. unfold set_stp_port, with_bridge. rewrite Hk.
  unfold on_instance_r, stp_cli_result, cmd_outcome. change (br (focus k w)) with (winst w k).
  rewrite Hc, Ha, decide_True by done.
  destruct (stp_get_port_info _ _) as [i|] eqn:Hi.
  - destruct bad.
    + exists (focus k w). split_and!; [done|by left|done| |done]. cbn. rewrite Hp. split; [done|].
      by intros (_ & _ & _ & ?).
    + exists (f i (focus k w)). split_and!; [done| |done| |done].
      * right. apply Hcall. by apply find_some_in in Hi as [? _].
      * cbn. rewrite Hp. naive_solver.
  - exists (focus k w). split_and!; [done|by left|done| |done]. cbn. rewrite Hp. split; [done|].
    by intros (_ & _ & [? ?] & _).
Qed.

Lemma hello_time_outcome v s :
  stp_times_ok (btimes (br s)) →
  if decide (stp_times_ok (asked (Cmd_hello_time v None None) (btimes (br s))))
  then (set_bridge_hello_time v s).2 = 0 ∧
       btimes (br (set_bridge_hello_time v s).1) = asked (Cmd_hello_time v None None) (btimes (br s))
  else set_bridge_hello_time v s = (s, -1).
Proof.
  intros (Tf & Tm & Th & Tr). unfold set_bridge_hello_time. rewrite range_test. cbn [asked btimes default].
  destruct (decide (stp_times_ok _)) as [(_ & _ & Rh & Rr)|Hn].
  - rewrite decide_True by done. rewrite Rr. cbn. by destruct (stp_is_root_bridge _).
  - case_decide; [|done]. unfold tst. destruct (_ =? 0) eqn:E0; [|done]. by apply Z.eqb_eq in E0; destruct Hn.
Qed.

Lemma forward_delay_outcome v s :
  stp_times_ok (btimes (br s)) →
  if decide (stp_times_ok (asked (Cmd_forward_delay v None None) (btimes (br s))))
  then (set_bridge_forward_delay v s).2 = 0 ∧
       btimes (br (set_bridge_forward_delay v s).1) = asked (Cmd_forward_delay v None None) (btimes (br s))
  else set_bridge_forward_delay v s = (s, -1).
Proof.
  intros (Tf & Tm & Th & Tr). unfold set_bridge_forward_delay. rewrite range_test. cbn [asked btimes default].
  destruct (decide (stp_times_ok _)) as [(Rf & _ & _ & Rr)|Hn].
  - rewrite decide_True by done. rewrite Rr. cbn. by destruct (stp_is_root_bridge _).
  - case_decide; [|done]. unfold tst. destruct (_ =? 0) eqn:E0; [|done]. by apply Z.eqb_eq in E0; destruct Hn.
Qed.

Lemma max_age_outcome v s :
  stp_times_ok (btimes (br s)) →
  if decide (stp_times_ok (asked (Cmd_max_age v None None) (btimes (br s))))
  then (set_bridge_max_age v s).2 = 0 ∧
       btimes (br (set_bridge_max_age v s).1) = asked (Cmd_max_age v None None) (btimes (br s))
  else set_bridge_max_age v s = (s, -1).
Proof.
  intros (Tf & Tm & Th & Tr). unfold set_bridge_max_age. rewrite range_test. cbn [asked btimes default].
  destruct (decide (stp_times_ok _)) as [(_ & Rm & _ & Rr)|Hn].
  - rewrite decide_True by done. rewrite Rr. cbn. by destruct (stp_is_root_bridge _).
  - case_decide; [|done]. unfold tst. destruct (_ =? 0) eqn:E0; [|done]. by apply Z.eqb_eq in E0; destruct Hn.
Qed.

(** The commands that name several times differ in the order of the tests only. *)
Definition set_several (f m h : option Z) w : stp_world TS * cparser_result_t :=
  if opt_out_of_range f STP_MIN_FORWARD_DELAY STP_MAX_FORWARD_DELAY ||
     opt_out_of_range m STP_MIN_MAX_AGE STP_MAX_MAX_AGE ||
     opt_out_of_range h STP_MIN_HELLO_TIME STP_MAX_HELLO_TIME
  then (w, CPARSER_NOT_OK)
  else ((stp_set_bridge_times (opt_arg f) (opt_arg m) (opt_arg h) (u16 vlan) w).1, CPARSER_NOT_OK).

Lemma run_several c w :
  several c = true →
  ∃ f m h, (∀ t, asked c t = (default t.1.1 f, default t.1.2 m, default t.2 h)) ∧
           run_stp_cmd E vlan c w = set_several f m h w.
Proof.
  unfold set_several.
  destruct c as [p|h f m|f m h|m f h|port cost|port prio]; [done| | | |done|done];
    intros Hs; cbn [run_stp_cmd].
  - exists f, m, (Some h). split; [by intros [[] ]|]. unfold cmd_stp_hello_time.
    change ((h <? STP_MIN_HELLO_TIME) || (h >? STP_MAX_HELLO_TIME))
      with (opt_out_of_range (Some h) STP_MIN_HELLO_TIME STP_MAX_HELLO_TIME).
    destruct f, m; try done; repeat destruct (opt_out_of_range _ _ _); cbn [orb]; try done; by destruct (stp_set_bridge_times _ _ _ _ _).
  - exists (Some f), m, h. split; [by intros [[] ]|]. unfold cmd_stp_forward_delay.
    change ((f <? STP_MIN_FORWARD_DELAY) || (f >? STP_MAX_FORWARD_DELAY))
      with (opt_out_of_range (Some f) STP_MIN_FORWARD_DELAY STP_MAX_FORWARD_DELAY).
    destruct h, m; try done; repeat destruct (opt_out_of_range _ _ _); cbn [orb]; try done; by destruct (stp_set_bridge_times _ _ _ _ _).
  - exists f, (Some m), h. split; [by intros [[] ]|]. unfold cmd_stp_max_age.
    change ((m <? STP_MIN_MAX_AGE) || (m >? STP_MAX_MAX_AGE))
      with (opt_out_of_range (Some m) STP_MIN_MAX_AGE STP_MAX_MAX_AGE).
    destruct h, f; try done; repeat destruct (opt_out_of_range _ _ _); cbn [orb]; try done; by destruct (stp_set_bridge_times _ _ _ _ _).
Qed.

(** Whichever way a command goes, on a bridge that exists. *)
Lemma cmd_found c w k :
  get_this_bridge_entry (u16 vlan) w = Some k → stp_times_ok (btimes (winst w k)) →
  ∃ x, ((run_stp_cmd E vlan c w).1 = unfocus k x w ∨ (run_stp_cmd E vlan c w).1 = w ∧ x = focus k w) ∧
       cmd_outcome c (focus k w) x (run_stp_cmd E vlan c w).2.
Proof.
  intros Hk Ht. destruct (several c) eqn:Hs.
  { destruct (run_several c w Hs) as (f & m & h & Ha & ->).
    destruct (several_outcome c f m h w k Hs Ha Hk Ht) as [H1 H2]. unfold set_several.
    destruct (opt_out_of_range f _ _), (opt_out_of_range m _ _), (opt_out_of_range h _ _); cbn [orb fst snd];
      try (exists (focus k w); split; [by right|apply H2; tauto]).
    destruct (H1 eq_refl eq_refl eq_refl) as (x & Hx & Ho). exists x. auto. }
  assert (∀ (v : stp_world TS * cparser_result_t),
    (∃ x, v.1 = unfocus k x w ∧ cmd_outcome c (focus k w) x v.2) →
    ∃ x, (v.1 = unfocus k x w ∨ v.1 = w ∧ x = focus k w) ∧ cmd_outcome c (focus k w) x v.2) as Hok.
  { intros v (x & Hv & Hx). exists x. auto. }
  destruct c as [p|h [] []|f [] []|m [] []|port cost|port prio]; try done; apply Hok; cbn [run_stp_cmd].
  - apply single_outcome; [done|done|constructor| |done].
    rewrite decide_True by done. split; [done|]. apply priority_kept.
  - apply single_outcome; [done|done|constructor|exact (hello_time_outcome h (focus k w) Ht)|done].
  - apply single_outcome; [done|done|constructor|exact (forward_delay_outcome f (focus k w) Ht)|done].
  - apply single_outcome; [done|done|constructor|exact (max_age_outcome m (focus k w) Ht)|done].
  - apply port_outcome; [done|done| | | |done|done].
    + cbn [port_arg_ok]. f_equiv. rewrite orb_false_iff, Z.ltb_ge, Z.gtb_ltb, Z.ltb_ge. done.
    + intros i Hi. by constructor.
    + intros i. apply path_cost_kept.
  - apply port_outcome; [done|done| | | |done|done].
    + cbn [port_arg_ok]. f_equiv. by rewrite Z.gtb_ltb, Z.ltb_ge.
    + intros i Hi. by constructor.
    + intros i. apply port_priority_kept.
Qed.

Lemma cmd_absent c w :
  get_this_bridge_entry (u16 vlan) w = None → run_stp_cmd E vlan c w = (w, CPARSER_NOT_OK).
Proof.
  intros Hk.
  assert (∀ g, with_bridge (u16 vlan) g w = (w, -1)) as Hb by (intros; unfold with_bridge; by rewrite Hk).
  destruct (several c) eqn:Hs.
  { destruct (run_several c w Hs) as (f & m & h & _ & ->). unfold set_several, stp_set_bridge_times.
    rewrite Hb. by destruct (_ || _). }
  destruct c as [p|h [] []|f [] []|m [] []|port cost|port prio]; try done; cbn [run_stp_cmd];
    unfold cmd_stp_priority, cmd_stp_hello_time, cmd_stp_forward_delay, cmd_stp_max_age,
      stp_set_bridge_priority, stp_set_bridge_hello_time, stp_set_bridge_forward_delay,
      stp_set_bridge_max_age, cmd_stp_port_path_cost, cmd_stp_port_priority,
      set_spanning_bridge_port_path_cost, set_spanning_bridge_port_prio, set_stp_port, stp_cli_result;
    by rewrite Hb.
Qed.

End Properties.

(** The commands of the spanning tree, on the instances of a running switch whose configured times are
    admissible.  A command leads to such instances again, whatever its arguments.  On a VLAN without a
    bridge it fails and changes nothing.  On a VLAN with one, the times of the bridge are those the
    command asks for, if they are in the ranges of 802.1D and satisfy its relation, and the old ones
    otherwise; the command reports success exactly if it names a single time or a port and everything it
    names is admissible; and one that names a single value and fails has changed nothing. *)
Theorem stp_cli_spec {TS} `{TimerService TS} `{!TimerAlloc TS} (E : stp_env) vlan c (w : stp_world TS) :
  u16 vlan ≠ VLAN_INVALID_ID → stp_world_reachable w → all_stp_times w →
  let '(v, r) := run_stp_cmd E vlan c w in
  (stp_world_reachable v ∧ all_stp_times v) ∧
  match get_this_bridge_entry (u16 vlan) w with
  | None => v = w ∧ r = CPARSER_NOT_OK
  | Some k =>
      let t := btimes (winst w k) in
      btimes (winst v k) = (if decide (stp_times_ok (asked c t)) then asked c t else t) ∧
      (r = CPARSER_OK ↔ several c = false ∧ stp_times_ok (asked c t) ∧ port_arg_ok c (focus k w)) ∧
      (r = CPARSER_NOT_OK → several c = false →
       (∀ j, winst v j = winst w j) ∧ sports (wmem v) = sports (wmem w) ∧ ssent (wmem v) = ssent (wmem w))
  end.
Proof.
  intros Hv Hr Ht. destruct (get_this_bridge_entry _ _) as [k|] eqn:Hk;
    [|by rewrite (cmd_absent E vlan c w Hk)].
  pose proof (bridge_entry_in_list _ _ _ Hv Hk) as Hin.
  destruct (cmd_found E vlan c w k Hk (Ht k Hin)) as (x & Hx & Ho).
  destruct (run_stp_cmd E vlan c w) as [v r]. cbn [fst snd] in *.
  destruct Ho as (Hc & Hb & Hok & Hn). change (br (focus k w)) with (winst w k) in *.
  assert (btimes (winst v k) = btimes (br x)) as Hbv.
  { destruct Hx as [->|[-> ->]]; [|done]. by rewrite winst_unfocus, decide_True. }
  split; [|rewrite Hbv; split_and!; [done|done|]].
  - destruct Hx as [->|[-> ->]]; [|done]. split.
    + destruct Hc as [->|Hc].
      * eapply world_reachable_step; [|done]. eapply wcall_instance; [done|].
        exact (call_hello_time E (focus k w) 0).
      * eapply world_reachable_step; [|done]. by eapply wcall_instance.
    + intros j Hj. rewrite winst_unfocus. destruct (decide (k = j)) as [<-|]; [|by apply Ht].
      rewrite Hb. case_decide; [done|by apply Ht].
  - intros Hrf Hs. specialize (Hn Hrf Hs) as ->. destruct Hx as [->|[-> _]]; [|done].
    split; [|done]. intros j. rewrite winst_unfocus. by destruct (decide (k = j)) as [<-|].
Qed.

(** On the first instance: a hello time that is too long for the maximum age is refused; with a longer
    maximum age in the same command it is set, and the command reports a failure. *)
Lemma stp_cli_spec_witness :
  (run_stp_cmd demo_senv 1 (Cmd_hello_time 10 None None) demo_w4).2 = CPARSER_NOT_OK ∧
  btimes (winst (run_stp_cmd demo_senv 1 (Cmd_hello_time 10 None (Some 25)) demo_w4).1 1) = (15, 25, 10).
Proof.
  pose proof demo_w4_reachable as Hr.
  assert (all_stp_times demo_w4) as Ht.
  { intros k. change (stp_instance_head demo_w4) with [1%nat; 2%nat].
    rewrite !elem_of_cons. intros [->|[->|Hk]]; [| |by inversion Hk];
      vm_compute; repeat split; discriminate. }
  pose proof (stp_cli_spec demo_senv 1 (Cmd_hello_time 10 None None) demo_w4 ltac:(done) Hr Ht) as H1.
  pose proof (stp_cli_spec demo_senv 1 (Cmd_hello_time 10 None (Some 25)) demo_w4 ltac:(done) Hr Ht) as H2.
  destruct (run_stp_cmd demo_senv 1 (Cmd_hello_time 10 None None) demo_w4) as [v1 r1].
  destruct (run_stp_cmd demo_senv 1 (Cmd_hello_time 10 None (Some 25)) demo_w4) as [v2 r2].
  change (get_this_bridge_entry (u16 1) demo_w4) with (Some 1%nat) in *. cbv iota zeta in *.
  change (btimes (winst demo_w4 1)) with (15, 20, 2) in *. split.
  - destruct H1 as (_ & _ & H1 & _). destruct r1; [|done]. exfalso.
    destruct (proj1 H1 eq_refl) as (_ & (_ & _ & _ & Hbad) & _). vm_compute in Hbad. discriminate.
  - destruct H2 as (_ & H2 & _). cbn [fst]. rewrite H2. apply decide_True. vm_compute. repeat split; discriminate.
Defined.
