(* ===== verification/Fdb.v ===== *)
(** * The forwarding database: src/src/bridge/fdb.c

    The table of the addresses the switch has learned, with the port each was seen at and the second
    it expires at: a hash table (Hash.v) whose data are blocks of a second memory pool.  [get_secs]
    is an argument [secs] of the functions, and so is the answer [allowed] of
    [stp_is_mac_learning_allowed]. *)

From stdpp Require Import gmap.
From S2P Require Import Prelude TimerIface StpTypes Stp Fault PoolIface Hash.

(** ** The hash function: src/src/inc/jhash.h *)

Definition JHASH_GOLDEN_RATIO := 2654435769.

(** One line of [__jhash_mix]: [x -= y; x -= z; x ^= w]. *)
Definition mix_step (x y z w : Z) : Z := Z.lxor (u32 (u32 (x - y) - z)) w.

Definition jhash_mix (a b c : Z) : Z * Z * Z :=
  let a := mix_step a b c (c ≫ 13) in
  let b := mix_step b c a (u32 (a ≪ 8)) in
  let c := mix_step c a b (b ≫ 13) in
  let a := mix_step a b c (c ≫ 12) in
  let b := mix_step b c a (u32 (a ≪ 16)) in
  let c := mix_step c a b (b ≫ 5) in
  let a := mix_step a b c (c ≫ 3) in
  let b := mix_step b c a (u32 (a ≪ 10)) in
  let c := mix_step c a b (b ≫ 15) in
  (a, b, c).

Definition jhash_3words (a b c initval : Z) : Z :=
  (jhash_mix (u32 (a + JHASH_GOLDEN_RATIO)) (u32 (b + JHASH_GOLDEN_RATIO)) (u32 (c + initval))).2.

Definition jhash_1word (a initval : Z) : Z := jhash_3words a 0 0 initval.

(** ** Data *)

Definition LEARNED := 3.
Definition MAX_FDB_ENTRIES := 1024.
Definition FDB_HASH_SIZE := 1024.
Definition DEFAULT_AGING_TIME_OUT := 5 * 60.
Definition SIZEOF_FDB_T := 28.

Record fdb_t := mk_fdb {
  f_mac_addr : list Z;
  f_vlan_id : Z;
  f_port : Z;
  f_status : Z;
  f_is_static : Z;
  f_expiry : Z
}.

Definition eta_fdb (f : fdb_t) : fdb_t :=
  mk_fdb (f_mac_addr f) (f_vlan_id f) (f_port f) (f_status f) (f_is_static f) (f_expiry f).

#[export] Instance set_f_port : Settable f_port := ltac:(mk_setter eta_fdb).
#[export] Instance set_f_expiry : Settable f_expiry := ltac:(mk_setter eta_fdb).

(** The static variables of fdb.c but for the table, the memory of the entries, and the timers. *)
Record fdb_vars (TS : Type) := mk_fdb_vars {
  fdb_entries : gmap Z fdb_t;
  fdb_pool_id : Z;
  fdb_salt : Z;
  dot1dTpAgingTime : Z;
  dot1dTpLearnedEntryDiscards : Z;
  ageing_timer : TIMER_ID;
  fdb_ts : TS
}.
Arguments mk_fdb_vars {TS}.
Arguments fdb_entries {TS}.
Arguments fdb_pool_id {TS}.
Arguments fdb_salt {TS}.
Arguments dot1dTpAgingTime {TS}.
Arguments dot1dTpLearnedEntryDiscards {TS}.
Arguments ageing_timer {TS}.
Arguments fdb_ts {TS}.

#[export] Instance set_fdb_entries {TS} : Settable (@fdb_entries TS) := λ x v,
  mk_fdb_vars x (fdb_pool_id v) (fdb_salt v) (dot1dTpAgingTime v) (dot1dTpLearnedEntryDiscards v) (ageing_timer v) (fdb_ts v).
#[export] Instance set_fdb_pool_id {TS} : Settable (@fdb_pool_id TS) := λ x v,
  mk_fdb_vars (fdb_entries v) x (fdb_salt v) (dot1dTpAgingTime v) (dot1dTpLearnedEntryDiscards v) (ageing_timer v) (fdb_ts v).
#[export] Instance set_fdb_salt {TS} : Settable (@fdb_salt TS) := λ x v,
  mk_fdb_vars (fdb_entries v) (fdb_pool_id v) x (dot1dTpAgingTime v) (dot1dTpLearnedEntryDiscards v) (ageing_timer v) (fdb_ts v).
#[export] Instance set_aging {TS} : Settable (@dot1dTpAgingTime TS) := λ x v,
  mk_fdb_vars (fdb_entries v) (fdb_pool_id v) (fdb_salt v) x (dot1dTpLearnedEntryDiscards v) (ageing_timer v) (fdb_ts v).
#[export] Instance set_discards {TS} : Settable (@dot1dTpLearnedEntryDiscards TS) := λ x v,
  mk_fdb_vars (fdb_entries v) (fdb_pool_id v) (fdb_salt v) (dot1dTpAgingTime v) x (ageing_timer v) (fdb_ts v).
#[export] Instance set_ageing_timer {TS} : Settable (@ageing_timer TS) := λ x v,
  mk_fdb_vars (fdb_entries v) (fdb_pool_id v) (fdb_salt v) (dot1dTpAgingTime v) (dot1dTpLearnedEntryDiscards v) x (fdb_ts v).
#[export] Instance set_fdb_ts {TS} : Settable (@fdb_ts TS) := λ x v,
  mk_fdb_vars (fdb_entries v) (fdb_pool_id v) (fdb_salt v) (dot1dTpAgingTime v) (dot1dTpLearnedEntryDiscards v) (ageing_timer v) x.

(** The key is the 32-bit word at [mac + 2], on a little-endian machine. *)
Definition fdb_mac_hash (salt : Z) (mac : list Z) : Z :=
  jhash_1word (le_value (take 4 (drop 2 mac))) salt &&& (FDB_HASH_SIZE - 1).

Definition mac_cmp (a b : list Z) : Z := bit (compare_ether_addr a b).

(** ** Operations *)

Section Operations.
Context {P TS : Type} `{!BlockPool P} `{!TimerService TS}.

Local Abbreviation M := (fsM (hmem P (fdb_vars TS))).

Definition vars : M (fdb_vars TS) := gets h_rest.
Definition upd_vars (f : fdb_vars TS → fdb_vars TS) : M unit :=
  modify (λ s, mk_hmem (h_tbl s) (h_nodes s) (h_pools s) (f (h_rest s))).

Definition get_fdb (p : Z) : M fdb_t := v ← vars; of_option (fdb_entries v !! p).
Definition put_fdb (p : Z) (f : fdb_t) : M unit :=
  upd_vars (λ v, v <| fdb_entries := <[p := f]> (fdb_entries v) |>).

Definition fdb_lookup (mac : list Z) (port_no : Z) : M Z :=
  v ← vars;
  hash_tbl_lookup mac_cmp (fdb_mac_hash (fdb_salt v)) mac.

(** The field [vlan_id] of a new entry is not assigned: it has the value the block has. *)
Definition fdb_add_entry (kmem : bool) (secs : Z) (mac : list Z) (portno is_static : Z) : M Z :=
  v ← vars;
  nfdb ← on_pools (bp_alloc (fdb_pool_id v));
  if nfdb =? 0 then mret (-1)
  else
    put_fdb nfdb (mk_fdb mac (from_option f_vlan_id 0 (fdb_entries v !! nfdb)) portno LEARNED is_static
                    (u32 (secs + dot1dTpAgingTime v)));;
    hash_tbl_add mac_cmp (fdb_mac_hash (fdb_salt v)) kmem mac nfdb.

Definition mac_address_update (kmem allowed : bool) (secs : Z) (mac_addr : list Z) (port_no vlan_id : Z) : M Z :=
  if negb allowed then mret 0
  else
    p ← fdb_lookup mac_addr port_no;
    if negb (p =? 0) then
      f ← get_fdb p;
      if tst (f_is_static f) then mret 0
      else
        let f := if f_port f =? port_no then f else f <| f_port := port_no |> in
        v ← vars;
        put_fdb p (f <| f_expiry := u32 (secs + dot1dTpAgingTime v) |>);;
        mret 0
    else
      r ← fdb_add_entry kmem secs mac_addr port_no 0;
      if tst r then
        upd_vars (λ v, v <| dot1dTpLearnedEntryDiscards := u32 (dot1dTpLearnedEntryDiscards v + 1) |>);;
        mret (-1)
      else mret 0.

Definition fdb_free_entry (fdb : Z) : fsM (P * fdb_vars TS) unit :=
  v ← gets snd;
  zoom fst (λ p x, (p, x.2)) (bp_free (fdb_pool_id v) fdb);;
  mret tt.

Definition fdb_delete_entry (mac : list Z) (portno : Z) : M Z :=
  v ← vars;
  hash_tbl_delete mac_cmp (fdb_mac_hash (fdb_salt v)) mac fdb_free_entry.

Definition delete_age_out_entires (secs data : Z) : M unit :=
  p ← get_fdb data;
  if f_expiry p <=? secs then fdb_delete_entry (f_mac_addr p) (f_port p);; mret tt
  else mret tt.

Definition mod_ageing_timer : M unit :=
  upd_vars (λ v, match ageing_timer v with
                 | Some h => v <| fdb_ts := ts_mod h (u32 (dot1dTpAgingTime v)) (fdb_ts v) |>
                 | None => v
                 end).

Definition aging_timer_expired (secs : Z) : M unit :=
  hash_walk (delete_age_out_entires secs);;
  mod_ageing_timer.

(** [hm], [hrq] and [contents] are what the allocations of [create_hash_table] return, [frq] those of
    the pool of the entries, and [ticks] is the result of [times]. *)
Definition fdb_init (hm : bool) (hrq : Z → Z → request) (contents : Z → option (list Z))
    (frq : Z → Z → request) (ticks : Z) : M Z :=
  upd_vars (λ v, v <| dot1dTpAgingTime := DEFAULT_AGING_TIME_OUT |>
                   <| dot1dTpLearnedEntryDiscards := 0 |>);;
  t ← create_hash_table hm hrq contents FDB_HASH_SIZE 6;
  modify (λ s, mk_hmem t (h_nodes s) (h_pools s) (h_rest s));;
  match t with
  | None => mret (-1)
  | Some _ =>
      id ← on_pools (bp_create (frq (MAX_FDB_ENTRIES * SIZEOF_FDB_T) MAX_FDB_ENTRIES));
      upd_vars (λ v, v <| fdb_pool_id := id |>);;
      if id <? 0 then
        destroy_hash_table fdb_free_entry;;
        mret (-1)
      else
        upd_vars (λ v, v <| fdb_salt := u32 ticks |>);;
        upd_vars (λ v, let '(h, c) := ts_setup (fdb_ts v) in
                       v <| fdb_ts := c |> <| ageing_timer := h |>);;
        mod_ageing_timer;;
        mret 0
  end.

End Operations.
