(* ===== verification/FdbProps.v ===== *)
(** * The forwarding database: learning and ageing

    The database implements a map from addresses to entries: learning an address inserts or
    refreshes its entry, ageing removes the entries that have expired and no others. *)

From stdpp Require Import gmap.
From S2P Require Import Prelude TimerIface StpTypes Stp Fault PoolIface Pool Hash HashRefine HashWalk Fdb.

(** ** Addresses *)

Definition mac_ok (mac : list Z) : Prop := length mac = 6%nat ∧ Forall (λ b, 0 ≤ b < 256) mac.

Lemma mac_cmp_spec a b : mac_ok a → mac_ok b → mac_cmp a b = 0 ↔ a = b.
Proof.
  intros [La Fa] [Lb Fb]. unfold mac_cmp, compare_ether_addr, addr_word.
  destruct a as [|a0 [|a1 [|a2 [|a3 [|a4 [|a5 [|]]]]]]]; try done.
  destruct b as [|b0 [|b1 [|b2 [|b3 [|b4 [|b5 [|]]]]]]]; try done. cbn [nth Nat.mul Nat.add].
  repeat match goal with H : Forall _ (_ :: _) |- _ => apply list.Forall_cons in H as [? H] end.
  split.
  - destruct (tst _) eqn:E; [done|]. intros _. apply tst_false in E.
    apply Z.lor_eq_0_iff in E as [[E1 E2]%Z.lor_eq_0_iff E3].
    apply Z.lxor_eq in E1, E2, E3. repeat f_equal; lia.
  - intros [= -> -> -> -> -> ->]. by rewrite !Z.lxor_nilpotent.
Qed.

Lemma fdb_hash_range salt mac : 0 ≤ fdb_mac_hash salt mac < FDB_HASH_SIZE.
Proof.
  unfold fdb_mac_hash, FDB_HASH_SIZE. change (1024 - 1) with (Z.ones 10).
  rewrite Z.land_ones by lia. apply Z.mod_pos_bound. lia.
Qed.

Lemma mac_ok_len k : mac_ok k → Z.of_nat (length k) = 6.
Proof. intros [-> _]. done. Qed.

(** ** The invariant *)

Section Database.
Context {P TS : Type} `{!BlockPool P} `{!BlockPoolLaws P} `{!TimerService TS}.
Implicit Types (s : hmem P (fdb_vars TS)) (v : fdb_vars TS).

(** The two pools hold the buckets and the entries of the table, and nothing else. *)
Definition fdb_rep s (t : HASH_TABLE) (C : list (list hentry)) : Prop :=
  let v := h_rest s in
  hrep (fdb_mac_hash (fdb_salt v)) mac_ok 6 FDB_HASH_SIZE s t C ∧
  hmem_pool_id t ≠ fdb_pool_id v ∧ bp_has (h_pools s) (fdb_pool_id v) ∧
  (∀ d, bp_used (h_pools s) (fdb_pool_id v) d ↔ d ∈ e_data <$> mjoin C) ∧
  NoDup (e_data <$> mjoin C) ∧ 0 ∉ e_data <$> mjoin C ∧
  (∀ e, e ∈ mjoin C → ∃ f, fdb_entries v !! e_data e = Some f ∧ f_mac_addr f = e_key e) ∧
  bp_room (h_pools s) (hmem_pool_id t) = MAX_FDB_ENTRIES - Z.of_nat (length (mjoin C)) ∧
  bp_room (h_pools s) (fdb_pool_id v) = MAX_FDB_ENTRIES - Z.of_nat (length (mjoin C)).

Lemma rep_length s t C : fdb_rep s t C → (length (mjoin C) ≤ 1024)%nat.
Proof.
  intros ((_ & _ & _ & _ & _ & _ & _ & _ & Hpi & _) & _ & Hh & _ & _ & _ & _ & _ & Hroom).
  destruct (bp_alloc_law _ _ Hpi Hh) as [[Hz _]|[Hz _]]; rewrite Hroom in Hz; unfold MAX_FDB_ENTRIES in Hz; lia.
Qed.

Lemma in_chain (C : list (list hentry)) i c1 e c2 : C !! i = Some (c1 ++ e :: c2) → e ∈ mjoin C.
Proof.
  intros Hi. apply list_elem_of_join. exists (c1 ++ e :: c2). split; [|by eapply list_elem_of_lookup_2].
  apply elem_of_app. right. by left.
Qed.

Lemma get_fdb_run s p f : fdb_entries (h_rest s) !! p = Some f → get_fdb p s = Some (f, s).
Proof. intros Hf. unfold get_fdb. rewrite (fbind_run vars _ s _ _ eq_refl). by apply of_option_run. Qed.

(** The map from addresses to entries. *)
Definition fdb_tab v (C : list (list hentry)) : gmap (list Z) fdb_t :=
  omap (λ d, fdb_entries v !! d) (hmap C).

Lemma tab_lookup v C k : fdb_tab v C !! k = hmap C !! k ≫= λ d, fdb_entries v !! d.
Proof. apply lookup_omap. Qed.

Lemma tab_size s t C : fdb_rep s t C → base.size (fdb_tab (h_rest s) C) = length (mjoin C).
Proof.
  intros ((_ & _ & _ & _ & _ & _ & _ & Hd & _) & _ & _ & _ & _ & _ & He & _).
  rewrite <- (length_fmap e_key), <- (size_list_to_set (C := gset (list Z))), <- size_dom by done.
  f_equal. apply set_eq. intros k. rewrite elem_of_dom, elem_of_list_to_set, tab_lookup. split.
  - intros [f Hf]. destruct (hmap C !! k) as [d|] eqn:Ek; [|done].
    destruct (decide (k ∈ e_key <$> mjoin C)) as [|Hn]; [done|]. by rewrite hmap_none in Ek.
  - intros (e & -> & Hin)%list_elem_of_fmap. rewrite (hmap_lookup C e Hd Hin). cbn.
    destruct (He e Hin) as (f & -> & _). eauto.
Qed.

(** The entries that share data are the same. *)
Lemma same_data C (e e' : hentry) :
  NoDup (e_data <$> mjoin C) → e ∈ mjoin C → e' ∈ mjoin C → e_data e = e_data e' → e = e'.
Proof.
  intros Hd He He' E. apply list_elem_of_lookup in He as [i Hi], He' as [j Hj].
  assert (i = j) as ->; [|by simplify_eq].
  eapply (NoDup_lookup _ i j (e_data e) Hd); rewrite list_lookup_fmap; [by rewrite Hi|by rewrite Hj, E].
Qed.

(** Writing an entry of the table. *)
Lemma tab_update s t C e f f' :
  fdb_rep s t C → e ∈ mjoin C → fdb_entries (h_rest s) !! e_data e = Some f →
  f_mac_addr f' = f_mac_addr f →
  let v' := (h_rest s) <| fdb_entries := <[e_data e := f']> (fdb_entries (h_rest s)) |> in
  fdb_rep (mk_hmem (h_tbl s) (h_nodes s) (h_pools s) v') t C ∧
  fdb_tab v' C = <[e_key e := f']> (fdb_tab (h_rest s) C).
Proof.
  intros (Hr & Hne & Hh & Hu & Hd & H0 & He & Hrooms) Hin Hf Hm v'.
  pose proof Hr as (_ & _ & _ & _ & _ & _ & _ & Hk & _). split.
  - split_and!; try done; [|apply Hrooms..]. intros x Hx. cbn [h_rest v'].
    change (fdb_entries v') with (<[e_data e := f']> (fdb_entries (h_rest s))).
    destruct (decide (e_data x = e_data e)) as [E|Hxe].
    + apply (same_data C x e Hd Hx Hin) in E as ->. exists f'. rewrite lookup_insert_eq, Hm.
      split; [done|]. destruct (He e Hin) as (g & Hg & Hg'). rewrite Hf in Hg. by injection Hg as <-.
    + rewrite lookup_insert_ne by congruence. by apply He.
  - apply map_eq. intros k. rewrite tab_lookup. cbn [v'].
    change (fdb_entries v') with (<[e_data e := f']> (fdb_entries (h_rest s))).
    destruct (decide (k = e_key e)) as [->|Hne'].
    + rewrite lookup_insert_eq, (hmap_lookup C e Hk Hin). cbn. by rewrite lookup_insert_eq.
    + rewrite lookup_insert_ne, tab_lookup by done. destruct (hmap C !! k) as [d|] eqn:Ek; [|done]. cbn.
      apply elem_of_list_to_map_2, list_elem_of_fmap in Ek as (x & [= -> ->] & Hx).
      rewrite lookup_insert_ne; [done|]. intros E. apply Hne'. by rewrite (same_data C e x Hd Hin Hx E).
Qed.

(** ** Adding an entry *)

Lemma add_entry_full s t C mac port st secs :
  fdb_rep s t C → length (mjoin C) = 1024%nat →
  fdb_add_entry true secs mac port st s = Some (-1, s).
Proof.
  intros (Hr & _ & Hh & _ & _ & _ & _ & _ & Hroom) Hl. pose proof Hr as (_ & _ & _ & _ & _ & _ & _ & _ & Hp & _).
  unfold fdb_add_entry. rewrite (fbind_run vars _ s _ _ eq_refl).
  destruct (bp_alloc_law _ _ Hp Hh) as [[_ E]|(H0 & _)]; [|rewrite Hroom, Hl in H0; done].
  frun (on_pools_run _ s _ _ E). by destruct s.
Qed.

Lemma add_entry_ok s t C mac port st secs :
  fdb_rep s t C → mac_ok mac → mac ∉ e_key <$> mjoin C → length (mjoin C) ≠ 1024%nat →
  ∃ d vlan s' t' C', fdb_add_entry true secs mac port st s = Some (0, s') ∧ fdb_rep s' t' C' ∧
    let f := mk_fdb mac vlan port LEARNED st (u32 (secs + dot1dTpAgingTime (h_rest s))) in
    h_rest s' = (h_rest s) <| fdb_entries := <[d := f]> (fdb_entries (h_rest s)) |> ∧
    fdb_tab (h_rest s') C' = <[mac := f]> (fdb_tab (h_rest s) C).
Proof.
  intros (Hr & Hne & Hh & Hu & Hd & H0 & He & Hroomh & Hroomf) Hmac Hnk Hl.
  pose proof Hr as (Ht & _ & _ & _ & _ & _ & _ & _ & Hp & Hhh & Huh & Hcnt).
  destruct (bp_alloc_law _ _ Hp Hh) as [[Hz _]|(Hpos & d & p1 & Ed & Hp1 & (Hd0 & Hdn & Hdu & Hdh & Hdr))].
  { exfalso. rewrite Hroomf in Hz. unfold MAX_FDB_ENTRIES in Hz. lia. }
  set (vlan := from_option f_vlan_id 0 (fdb_entries (h_rest s) !! d)).
  set (f := mk_fdb mac vlan port LEARNED st (u32 (secs + dot1dTpAgingTime (h_rest s)))).
  set (v1 := (h_rest s) <| fdb_entries := <[d := f]> (fdb_entries (h_rest s)) |>).
  set (s1 := mk_hmem (h_tbl s) (h_nodes s) p1 v1).
  assert (∀ a, bp_used p1 (hmem_pool_id t) a ↔ bp_used (h_pools s) (hmem_pool_id t) a) as Hu1.
  { intros a. rewrite Hdu. split; [|by left]. by intros [|[? _]]. }
  assert (hrep (fdb_mac_hash (fdb_salt v1)) mac_ok 6 FDB_HASH_SIZE s1 t C) as Hr1.
  { eapply hrep_frame; try done. by apply Hdh. }
  assert (d ∉ e_data <$> mjoin C) as Hdc by by rewrite <- Hu.
  destruct (add_ok mac_cmp (fdb_mac_hash (fdb_salt v1)) mac_ok 6 FDB_HASH_SIZE mac_cmp_spec
    (λ k _, fdb_hash_range _ k) mac_ok_len s1 t C mac d Hr1 Hmac)
    as [[Hin _]|[(_ & Hz & _)|(_ & _ & a & s' & t' & Ea & Had)]].
  { rewrite Hcnt. unfold MAX_FDB_ENTRIES in *. lia. }
  { done. }
  { exfalso. change (h_pools s1) with p1 in Hz. rewrite Hdr, Hroomh in Hz.
    rewrite (proj2 (Z.eqb_neq _ _)) in Hz by done. unfold MAX_FDB_ENTRIES in Hz. lia. }
  destruct (added_map _ _ _ _ _ _ _ _ _ _ _ _ Had) as (C' & Hr' & Hj & Hm).
  pose proof Had as (_ & _ & _ & Hv' & Hid & (_ & _ & Hau & Hah & Har)).
  change (h_pools s1) with p1 in *. change (h_rest s1) with v1 in *.
  exists d, vlan, s', t', C'. cbv zeta. split_and!; [| |done|].
  - unfold fdb_add_entry. rewrite (fbind_run vars _ s _ _ eq_refl). frun (on_pools_run _ s _ _ Ed).
    rewrite (proj2 (Z.eqb_neq _ _)) by done. rewrite (fbind_run (put_fdb d f) _ (mk_hmem (h_tbl s) (h_nodes s) p1 (h_rest s)) tt s1 eq_refl).
    unfold hash_tbl_add. by frun Ea.
  - unfold fdb_rep. rewrite Hv', Hid. change (fdb_pool_id v1) with (fdb_pool_id (h_rest s)).
    split_and!; try done.
    + by apply Hah, Hdh.
    + intros x. rewrite Hau, Hdu, Hu, Hj. cbn. rewrite elem_of_cons. naive_solver.
    + rewrite Hj. cbn. by apply list.NoDup_cons.
    + rewrite Hj. cbn. rewrite not_elem_of_cons. naive_solver.
    + intros e. rewrite Hj. intros [->|Hin]%elem_of_cons; cbn.
      * exists f. by rewrite lookup_insert_eq.
      * destruct (He e Hin) as (g & Hg & Hg'). exists g. split; [|done].
        change (fdb_entries v1) with (<[d := f]> (fdb_entries (h_rest s))).
        rewrite lookup_insert_ne; [done|]. intros ->. by apply Hdc, list_elem_of_fmap_2.
    + rewrite Har, Hdr, Hroomh, Hj, Z.eqb_refl. rewrite (proj2 (Z.eqb_neq (hmem_pool_id t) _)) by done.
      cbn. lia.
    + rewrite Har, Hdr, Hroomf, Hj, Z.eqb_refl.
      rewrite (proj2 (Z.eqb_neq (fdb_pool_id _) _)) by by apply not_eq_sym. cbn. lia.
  - rewrite Hv'. apply map_eq. intros k. rewrite tab_lookup, Hm.
    change (fdb_entries v1) with (<[d := f]> (fdb_entries (h_rest s))).
    destruct (decide (k = mac)) as [->|Hk].
    + rewrite !lookup_insert_eq. cbn. by rewrite lookup_insert_eq.
    + rewrite !lookup_insert_ne, tab_lookup by done. destruct (hmap C !! k) as [x|] eqn:Ek; [|done]. cbn.
      apply elem_of_list_to_map_2, list_elem_of_fmap in Ek as (e & [= -> ->] & Hx).
      rewrite lookup_insert_ne; [done|]. intros ->. by apply Hdc, list_elem_of_fmap_2.
Qed.

(** ** Learning *)

Lemma lookup_run s t C mac port :
  fdb_rep s t C → mac_ok mac → fdb_lookup mac port s = Some (default 0 (hmap C !! mac), s).
Proof.
  intros (Hr & _) Hm. unfold fdb_lookup. rewrite (fbind_run vars _ s _ _ eq_refl).
  by eapply (lookup_ok mac_cmp _ mac_ok 6 FDB_HASH_SIZE mac_cmp_spec (λ k _, fdb_hash_range _ k)).
Qed.

(** An address is in the table, or in no entry. *)
Lemma tab_cases s t C mac :
  fdb_rep s t C →
  (mac ∉ e_key <$> mjoin C ∧ hmap C !! mac = None ∧ fdb_tab (h_rest s) C !! mac = None) ∨
  ∃ e f, e ∈ mjoin C ∧ e_key e = mac ∧ e_data e ≠ 0 ∧ hmap C !! mac = Some (e_data e) ∧
    fdb_entries (h_rest s) !! e_data e = Some f ∧ fdb_tab (h_rest s) C !! mac = Some f.
Proof.
  intros (Hr & _ & _ & _ & _ & H0 & He & _). pose proof Hr as (_ & _ & _ & _ & _ & _ & _ & Hd & _).
  destruct (decide (mac ∈ e_key <$> mjoin C)) as [Hin|Hn]; [right|left].
  - apply list_elem_of_fmap in Hin as (e & -> & Hin). destruct (He e Hin) as (f & Hf & _).
    exists e, f. rewrite tab_lookup, (hmap_lookup C e Hd Hin). split_and!; try done.
    intros E. apply H0. rewrite <- E. by apply list_elem_of_fmap_2.
  - by rewrite tab_lookup, hmap_none.
Qed.

Lemma port_moves f port : (if f_port f =? port then f else f <| f_port := port |>) = f <| f_port := port |>.
Proof. destruct (Z.eqb_spec (f_port f) port) as [<-|]; [|done]. by destruct f. Qed.


(** ** Ageing *)

Lemma free_entry_ok s t C e :
  fdb_rep s t C → e ∈ mjoin C →
  ∃ p, fdb_free_entry (e_data e) (h_pools s, h_rest s) = Some (tt, (p, h_rest s)) ∧ bp_inv p ∧
    taken p (h_pools s) (fdb_pool_id (h_rest s)) (e_data e).
Proof.
  intros (Hr & _ & Hh & Hu & _) Hin. pose proof Hr as (_ & _ & _ & _ & _ & _ & _ & _ & Hp & _).
  destruct (bp_free_law (h_pools s) (fdb_pool_id (h_rest s)) (e_data e) Hp) as (p & E & Hp' & Htk).
  { rewrite Hu. by apply list_elem_of_fmap_2. }
  exists p. split_and!; [|done..]. unfold fdb_free_entry.
  rewrite (fbind_run (gets snd) _ (h_pools s, h_rest s) _ _ eq_refl).
  by rewrite (fbind_run _ _ _ _ _ (zoom_run fst _ _ (h_pools s, h_rest s) _ _ E)).
Qed.

Lemma delete_entry_ok s t C i c1 e c2 port :
  fdb_rep s t C → C !! i = Some (c1 ++ e :: c2) →
  ∃ s' t', fdb_delete_entry (e_key e) port s = Some (0, s') ∧ fdb_rep s' t' (<[i := c1 ++ c2]> C) ∧
    h_rest s' = h_rest s ∧ h_nodes s' !! e_addr e = h_nodes s !! e_addr e.
Proof.
  intros Hfr Hi. pose proof (in_chain C i c1 e c2 Hi) as Hin.
  destruct (free_entry_ok s t C e Hfr Hin) as (p & Ef & Hp & (_ & Hnu & Hfu & Hfh & Hfroom)).
  pose proof Hfr as (Hr & Hne & Hh & Hu & Hd & H0 & He & Hroomh & Hroomf).
  pose proof Hr as (_ & _ & _ & _ & _ & _ & _ & _ & Hpi & Hhh & _).
  pose proof (rep_length s t C Hfr) as Hl.
  destruct (delete_at mac_cmp (fdb_mac_hash (fdb_salt (h_rest s))) mac_ok 6 FDB_HASH_SIZE mac_cmp_spec
    (λ k _, fdb_hash_range _ k) s t C i c1 e c2 fdb_free_entry p (h_rest s)) as (s' & t' & Ed & Hrm);
    [done|done|lia|done|done| |].
  { intros a. rewrite Hfu. split; [by left|]. by intros [|[? _]]. }
  pose proof Hrm as (_ & Hr' & Hv & Hid & (_ & Hnu' & Hu' & Hh' & Hroom') & Hnode).
  pose proof (removed_join _ _ _ _ _ _ _ _ _ _ _ _ _ _ _ Hrm) as Hj.
  exists s', t'. split_and!; [| |done|done].
  { unfold fdb_delete_entry, hash_tbl_delete. rewrite (fbind_run vars _ s _ _ eq_refl). by frun Ed. }
  unfold fdb_rep. rewrite Hv, Hid. split_and!; try done.
  - apply Hh', Hfh, Hh.
  - intros d. specialize (Hfu (fdb_pool_id (h_rest s)) d). specialize (Hu' (fdb_pool_id (h_rest s)) d).
    rewrite Hu, Hj in Hfu. rewrite Hj in Hd. cbn in Hfu, Hd. rewrite elem_of_cons in Hfu.
    apply list.NoDup_cons in Hd as [Hd _].
    destruct (decide (d = e_data e)) as [->|]; [|naive_solver]. naive_solver.
  - rewrite Hj in Hd. cbn in Hd. by apply list.NoDup_cons in Hd as [_ ?].
  - rewrite Hj in H0. cbn in H0. by apply not_elem_of_cons in H0 as [_ ?].
  - intros x Hx. apply He. rewrite Hj. by right.
  - specialize (Hroom' (hmem_pool_id t)). specialize (Hfroom (hmem_pool_id t)).
    rewrite Z.eqb_refl in Hroom'. rewrite (proj2 (Z.eqb_neq _ _)) in Hfroom by done.
    rewrite Hj in Hroomh. cbn [length] in Hroomh. lia.
  - specialize (Hroom' (fdb_pool_id (h_rest s))). specialize (Hfroom (fdb_pool_id (h_rest s))).
    rewrite Z.eqb_refl in Hfroom. rewrite (proj2 (Z.eqb_neq _ _)) in Hroom' by by apply not_eq_sym.
    rewrite Hj in Hroomf. cbn [length] in Hroomf. lia.
Qed.

(** The entries that stay when the database ages at a time. *)
Definition unexpired v (secs : Z) (e : hentry) : bool :=
  match fdb_entries v !! e_data e with Some f => secs <? f_expiry f | None => true end.

Lemma join_kept (keep : hentry → bool) (C : list (list hentry)) :
  mjoin (kept keep <$> C) = kept keep (mjoin C).
Proof.
  induction C as [|c C IH]; [done|].
  change (kept keep c ++ mjoin (kept keep <$> C) = kept keep (c ++ mjoin C)).
  rewrite IH. unfold kept. by rewrite List.filter_app.
Qed.

Lemma elem_of_kept keep e (c : list hentry) : e ∈ kept keep c ↔ e ∈ c ∧ keep e = true.
Proof. unfold kept. rewrite !list_elem_of_In, List.filter_In. done. Qed.

Lemma kept_NoDup {B} (g : hentry → B) keep l : NoDup (g <$> l) → NoDup (g <$> kept keep l).
Proof.
  induction l as [|x l IH]; cbn; [done|]. intros [Hn Hd]%list.NoDup_cons. destruct (keep x); [|by apply IH].
  cbn. apply list.NoDup_cons. split; [|by apply IH]. intros (y & Hy & [Hyl _]%elem_of_kept)%list_elem_of_fmap.
  apply Hn. rewrite Hy. by apply list_elem_of_fmap_2.
Qed.

Lemma tab_kept s t C secs :
  fdb_rep s t C →
  fdb_tab (h_rest s) (kept (unexpired (h_rest s) secs) <$> C) =
    filter (λ kf, secs < f_expiry kf.2) (fdb_tab (h_rest s) C).
Proof.
  intros Hr. pose proof Hr as ((_ & _ & _ & _ & _ & _ & _ & Hd & _) & _ & _ & _ & Hdd & _).
  set (keep := unexpired (h_rest s) secs).
  apply map_eq. intros k. apply option_eq. intros f.
  rewrite map_lookup_filter_Some, !tab_lookup, !bind_Some. cbn [snd].
  assert (∀ d, hmap (kept keep <$> C) !! k = Some d ↔
    ∃ e, e ∈ mjoin C ∧ keep e = true ∧ e_key e = k ∧ e_data e = d) as Hk.
  { intros d. unfold hmap. rewrite join_kept, <- elem_of_list_to_map.
    - rewrite list_elem_of_fmap. setoid_rewrite elem_of_kept. split.
      + intros (e & [= -> ->] & He & Hkp). by exists e.
      + intros (e & He & Hkp & <- & <-). by exists e.
    - rewrite <- list_fmap_compose. by apply kept_NoDup. }
  assert (∀ d, hmap C !! k = Some d ↔ ∃ e, e ∈ mjoin C ∧ e_key e = k ∧ e_data e = d) as Hk'.
  { intros d. unfold hmap. rewrite <- elem_of_list_to_map by by rewrite <- list_fmap_compose.
    rewrite list_elem_of_fmap. split.
    - intros (e & [= -> ->] & He). by exists e.
    - intros (e & He & <- & <-). by exists e. }
  split.
  - intros (d & (e & He & Hkp & <- & <-)%Hk & Hf). unfold keep, unexpired in Hkp. rewrite Hf in Hkp.
    split; [|by apply Z.ltb_lt]. exists (e_data e). split; [|done]. apply Hk'. by exists e.
  - intros [(d & (e & He & <- & <-)%Hk' & Hf) Hx]. exists (e_data e). split; [|done]. apply Hk.
    exists e. split_and!; try done. unfold keep, unexpired. rewrite Hf. by apply Z.ltb_lt.
Qed.

(** C13: The ageing of the database removes the entries whose time has come, static ones included, and
    no others, although it deletes entries from the chains it is walking through and reads their
    buckets after they have been given back; the ageing timer is started again. *)
Theorem fdb_age_spec s t C secs :
  fdb_rep s t C →
  ∃ s' t' C', aging_timer_expired secs s = Some (tt, s') ∧ fdb_rep s' t' C' ∧
    fdb_tab (h_rest s') C' = filter (λ kf, secs < f_expiry kf.2) (fdb_tab (h_rest s) C) ∧
    dot1dTpLearnedEntryDiscards (h_rest s') = dot1dTpLearnedEntryDiscards (h_rest s) ∧
    fdb_ts (h_rest s') =
      match ageing_timer (h_rest s) with
      | Some h => ts_mod h (u32 (dot1dTpAgingTime (h_rest s))) (fdb_ts (h_rest s))
      | None => fdb_ts (h_rest s)
      end.
Proof.
  intros Hr. set (v := h_rest s). set (keep := unexpired v secs).
  destruct (walk_ok (fdb_mac_hash (fdb_salt v)) mac_ok 6 FDB_HASH_SIZE
    (λ s t C, fdb_rep s t C ∧ h_rest s = v) keep (delete_age_out_entires secs)) with (s := s) (t := t) (C := C)
    as (s' & t' & Ew & Hr' & Hv').
  - intros x tx Cx [[Hx _] Hvx]. by rewrite <- Hvx.
  - intros x tx Cx i c1 e c2 [Hx Hvx] Hi Hk. unfold delete_age_out_entires.
    pose proof (in_chain Cx i c1 e c2 Hi) as Hin.
    pose proof Hx as (_ & _ & _ & _ & _ & _ & He & _). destruct (He e Hin) as (f & Hf & _).
    unfold keep, unexpired in Hk. rewrite <- Hvx, Hf in Hk.
    frun (get_fdb_run x _ f Hf). rewrite (proj2 (Z.leb_gt _ _)); [done|]. by apply Z.ltb_lt.
  - intros x tx Cx i c1 e c2 [Hx Hvx] Hi Hk. unfold delete_age_out_entires.
    pose proof (in_chain Cx i c1 e c2 Hi) as Hin.
    pose proof Hx as (_ & _ & _ & _ & _ & _ & He & _). destruct (He e Hin) as (f & Hf & Hm).
    unfold keep, unexpired in Hk. rewrite <- Hvx, Hf in Hk.
    destruct (delete_entry_ok x tx Cx i c1 e c2 (f_port f) Hx Hi) as (x' & tx' & Ed & Hx' & Hv & Hn).
    exists x', tx'. frun (get_fdb_run x _ f Hf). rewrite (proj2 (Z.leb_le _ _)) by by apply Z.ltb_ge. rewrite Hm. frun Ed.
    split_and!; [done|done|by rewrite Hv|done].
  - by split.
  - pose proof (rep_length s t C Hr). lia.
  - unfold aging_timer_expired. exists (mk_hmem (h_tbl s') (h_nodes s') (h_pools s')
      match ageing_timer v with
      | Some h => v <| fdb_ts := ts_mod h (u32 (dot1dTpAgingTime v)) (fdb_ts v) |>
      | None => v
      end), t', (kept keep <$> C). frun Ew. split_and!.
    + unfold mod_ageing_timer, upd_vars, modify. by rewrite Hv'.
    + destruct (ageing_timer v); [rewrite <- Hv' in *; exact Hr'|]. rewrite <- Hv' in *. exact Hr'.
    + etrans; [|apply (tab_kept s t C secs Hr)]. cbn [h_rest]. by destruct (ageing_timer v).
    + cbn [h_rest]. by destruct (ageing_timer v).
    + cbn [h_rest]. by destruct (ageing_timer v).
Qed.

End Database.

(** ** Start *)

Section Start.
Context {P TS : Type} `{!BlockPool P} `{!BlockPoolLaws P} `{!TimerService TS}.
Implicit Types s : hmem P (fdb_vars TS).

Lemma empty_join n : mjoin (replicate n ([] : list hentry)) = [].
Proof. induction n as [|n IH]; [done|]. exact IH. Qed.

(** The part of [fdb_init] after the creation of the two pools. *)
Definition started (s : hmem P (fdb_vars TS)) (a : list Z) (h f : Z) (p : P) (ticks : Z) : hmem P (fdb_vars TS) :=
  let '(tm, c) := ts_setup (fdb_ts (h_rest s)) in
  let c := match tm with Some i => ts_mod i (u32 DEFAULT_AGING_TIME_OUT) c | None => c end in
  mk_hmem (Some (mk_table a h 6 FDB_HASH_SIZE 0)) (h_nodes s) p
    (mk_fdb_vars (fdb_entries (h_rest s)) f (u32 ticks) DEFAULT_AGING_TIME_OUT 0 tm c).

Lemma init_run s a hrq contents frq ticks h f p1 p2 :
  bp_create (hrq 8192 1024) (h_pools s) = Some (h, p1) → 0 ≤ h →
  bp_create (frq 28672 1024) p1 = Some (f, p2) → 0 ≤ f → contents 1024 = Some a →
  fdb_init true hrq contents frq ticks s = Some (0, started s a h f p2 ticks).
Proof.
  intros E1 H1 E2 H2 Ec. unfold fdb_init, create_hash_table.
  set (s0 := mk_hmem (h_tbl s) (h_nodes s) (h_pools s)
    ((h_rest s) <| dot1dTpAgingTime := DEFAULT_AGING_TIME_OUT |> <| dot1dTpLearnedEntryDiscards := 0 |>)).
  rewrite (fbind_run (upd_vars _) _ s tt s0 eq_refl). cbn [negb]. change (FDB_HASH_SIZE =? 0) with false.
  cbv iota zeta. change (s32 (8 * FDB_HASH_SIZE)) with 8192. change FDB_HASH_SIZE with 1024 at 1 2 3.
  set (s1 := mk_hmem (h_tbl s) (h_nodes s) p1 (h_rest s0)).
  assert ((id ← on_pools (bp_create (hrq 8192 1024));
    if id <? 0 then mret None
    else match contents 1024 with
         | Some x => mret (Some (mk_table x id 6 1024 0))
         | None => on_pools (bp_delete id);; fault
         end) s0 = Some (Some (mk_table a h 6 FDB_HASH_SIZE 0), s1)) as Et.
  { frun (on_pools_run _ s0 _ _ E1). rewrite (proj2 (Z.ltb_ge _ _)) by done. by rewrite Ec. }
  frun Et. rewrite (fbind_run (modify _) _ s1 tt _ eq_refl).
  change (MAX_FDB_ENTRIES * SIZEOF_FDB_T) with 28672. change MAX_FDB_ENTRIES with 1024.
  match goal with |- (on_pools _ ≫= _) ?s2 = _ => frun (on_pools_run _ s2 _ _ E2) end.
  rewrite (fbind_run (upd_vars _) _ _ tt _ eq_refl). rewrite (proj2 (Z.ltb_ge _ _)) by done.
  unfold started. destruct (ts_setup (fdb_ts (h_rest s))) as [tm c] eqn:Es.
  unfold mbind, fsM_bind, upd_vars, modify, mod_ageing_timer, mret, fsM_ret. cbn. rewrite Es. by destruct tm.
Qed.

(** The database starts empty, provided that the array [malloc] returns for the buckets is zero. *)
Lemma init_rep s hrq frq ticks h f p1 p2 :
  bp_inv (h_pools s) → bp_good (h_pools s) (hrq 8192 1024) → rq_n (hrq 8192 1024) = 1024 →
  bp_create (hrq 8192 1024) (h_pools s) = Some (h, p1) → 0 ≤ h →
  bp_good p1 (frq 28672 1024) → rq_n (frq 28672 1024) = 1024 →
  bp_create (frq 28672 1024) p1 = Some (f, p2) → 0 ≤ f → (∀ i a, ¬ bp_used (h_pools s) i a) →
  fdb_rep (started s (replicate 1024 0) h f p2 ticks) (mk_table (replicate 1024 0) h 6 FDB_HASH_SIZE 0) (replicate 1024 []).
Proof.
  intros Hi Hg1 Hn1 E1 H1 Hg2 Hn2 E2 H2 Hu.
  destruct (bp_create_law _ _ Hi Hg1) as (h' & p1' & E1' & Hi1 & [[-> _]|Hc1]); rewrite E1 in E1'; [by simplify_eq|].
  injection E1' as <- <-. destruct Hc1 as (_ & Hf1 & Hh1 & Hu1 & Hr1).
  destruct (bp_create_law _ _ Hi1 Hg2) as (f' & p2' & E2' & Hi2 & [[-> _]|Hc2]); rewrite E2 in E2'; [by simplify_eq|].
  injection E2' as <- <-. destruct Hc2 as (_ & Hf2 & Hh2 & Hu2 & Hr2).
  assert (h ≠ f) as Hne. { intros <-. apply Hf2, Hh1. by right. }
  assert (∀ i a, ¬ bp_used p2 i a) as Hu'. { intros i a. by rewrite Hu2, Hu1. }
  unfold started. destruct (ts_setup (fdb_ts (h_rest s))) as [tm c].
  split_and!; cbn [h_rest h_pools fdb_pool_id fdb_salt hmem_pool_id]; rewrite ?empty_join.
  - unfold hrep. cbn [h_tbl h_nodes h_pools nbuckets key_len bucket_array hmem_pool_id nentries].
    rewrite empty_join, fmap_replicate. split_and!; try done; try (by constructor).
    + intros i c' [-> _]%lookup_replicate. split; [done|]. by intros e ?%elem_of_nil.
    + apply Hh2. left. apply Hh1. by right.
    + intros a. split; [by intros ?%Hu'|by intros ?%elem_of_nil].
  - done.
  - apply Hh2. by right.
  - intros d. split; [by intros ?%Hu'|by intros ?%elem_of_nil].
  - constructor.
  - apply not_elem_of_nil.
  - by intros e ?%elem_of_nil.
  - rewrite Hr2, Hr1, Z.eqb_refl, Hn1. by rewrite (proj2 (Z.eqb_neq _ _)).
  - by rewrite Hr2, Z.eqb_refl, Hn2.
Qed.

(** The array of the buckets comes from [malloc] and is not initialised: with anything but NULL in
    the slot of an address, learning the address reads memory that is no bucket. *)
Lemma fdb_uninitialised_faults s t secs mac port vlan x :
  h_tbl s = Some t → nbuckets t = FDB_HASH_SIZE → mac_ok mac →
  arr (bucket_array t) (fdb_mac_hash (fdb_salt (h_rest s)) mac) = Some x → x ≠ 0 → h_nodes s !! x = None →
  mac_address_update true true secs mac port vlan s = None.
Proof.
  intros Ht Hn Hm Ha Hx Hnode. unfold mac_address_update, fdb_lookup, hash_tbl_lookup, find_hash_entry.
  cbn [negb]. unfold mbind at 1, fsM_bind at 1. rewrite (fbind_run vars _ s _ _ eq_refl).
  unfold mbind at 1, fsM_bind at 1. rewrite (fbind_run (gets h_tbl) _ s _ _ eq_refl), Ht, Hn.
  pose proof (fdb_hash_range (fdb_salt (h_rest s)) mac) as Hr. rewrite Z.gtb_ltb, (proj2 (Z.ltb_ge _ _)) by lia.
  frun (bucket_at_run s t _ _ Ht Ha). rewrite (fbind_run chain_fuel _ s _ _ eq_refl). cbn.
  rewrite (proj2 (Z.eqb_neq _ _)) by done. unfold get_bucket, mbind, fsM_bind, gets, of_option. cbn. by rewrite Hnode.
Qed.

End Start.

(** ** Witnesses: a database that has just been created *)

Definition demo_request (mem sz n : Z) : request := mk_request true mem true sz n.

Definition demo_pools1 : pools := mk_pools [new_pool 1 4096 8192 1024] 1.
Definition demo_pools2 : pools := mk_pools [new_pool 1 4096 8192 1024; new_pool 2 (2 ^ 30) 28672 1024] 2.

Definition demo_off : hmem pools (fdb_vars clock) :=
  mk_hmem None ∅ (mk_pools [] 0) (mk_fdb_vars ∅ (-1) 0 0 0 None (mk_clock 0 (λ _, None) 0)).

Definition demo_db : hmem pools (fdb_vars clock) :=
  started demo_off (replicate 1024 0) 1 2 demo_pools2 7.

Definition demo_table : HASH_TABLE := mk_table (replicate 1024 0) 1 6 FDB_HASH_SIZE 0.

Lemma demo_creates :
  fdb_init true (demo_request 4096) (λ n, Some (replicate (Z.to_nat n) 0)) (demo_request (2 ^ 30)) 7 demo_off =
  Some (0, demo_db).
Proof. apply (init_run _ _ _ _ _ _ _ _ demo_pools1); done || vm_compute; done. Qed.

Lemma demo_fdb_rep : fdb_rep demo_db demo_table (replicate 1024 []).
Proof.
  eapply (init_rep demo_off (demo_request 4096) (demo_request (2 ^ 30)) 7 1 2 demo_pools1 demo_pools2); try done.
  - split_and!; try done; [by split_and!; [..|left|]|]. right. split_and!; [done..|]. intros k m; cbn.
    by rewrite lookup_nil.
  - split_and!; try done; [by split_and!; [..|left|]|]. right. split_and!; [done..|].
    intros [|k] m; cbn; [|done]. intros [= <-]. right. by vm_compute.
  - intros i a (k & m & Hk & _). cbn in Hk. by rewrite lookup_nil in Hk.
Qed.

Definition demo_mac : list Z := [0; 17; 34; 51; 68; 85].

Lemma demo_mac_ok : mac_ok demo_mac.
Proof. split; [done|]. repeat constructor; lia. Qed.


Lemma fdb_age_spec_witness :
  ∃ s' t' C', aging_timer_expired 300 demo_db = Some (tt, s') ∧ fdb_rep s' t' C' ∧
    fdb_tab (h_rest s') C' = filter (λ kf, 300 < f_expiry kf.2) (fdb_tab (h_rest demo_db) (replicate 1024 [])).
Proof.
  destruct (fdb_age_spec demo_db demo_table (replicate 1024 []) 300 demo_fdb_rep)
    as (s' & t' & C' & E & Hr & Ht & _).
  exists s', t', C'. auto.
Defined.

