(* ===== verification/Vlan.v ===== *)
(** * VLANs and the spanning tree manager

    The table of the VLANs (vlan/vlan_main.c), the functions that start and stop a spanning tree protocol on
    a VLAN (vlan/vlan_stp.c), and the functions of bridge/stpmgr_main.c that pass events and BPDUs to the
    protocol of a VLAN, on the instances of both protocols (StpWorld.v, RstpWorld.v).  A call through a
    NULL pointer is a fault. *)

From S2P Require Import Prelude RstpTypes Rstp RstpWorld TimerIface StpTypes Stp StpWorld Fault.

(** ** Data *)

Definition MAX_PORTS := 12.
Definition MAX_BITS_PER_BYTE := 8.
Definition VLAN_DEFAULT_VLAN_ID := 1.
Definition ROW_STATE_CREATE_WAIT := 5.
Definition TAGGED := 1.
Definition UNTAGGED := 2.
Definition FORBIDDEN := 3.
Definition MODE_STP := 1.
Definition MODE_RSTP := 2.

Definition VLAN_IS_NOT_IN_RANGE (vid : Z) : bool := (vid <=? 0) || (vid >? 4096).

(** [struct vlan_static_entry].  A [PORTLIST] has [MAX_PORTS / 8], that is one, byte; the six bytes from
    [egress_ports] to [stp_mode] are adjacent, so that an index into a port list reaches the
    fields behind it. *)
Record vlan_static_entry := mk_vlan {
  v_vlan_id : Z;
  v_bytes : list Z;
  v_stp_instance : option nat;
  v_rstp_instance : option nat
}.

Definition eta_vlan (v : vlan_static_entry) : vlan_static_entry :=
  mk_vlan (v_vlan_id v) (v_bytes v) (v_stp_instance v) (v_rstp_instance v).

#[export] Instance set_v_bytes : Settable v_bytes := ltac:(mk_setter eta_vlan).
#[export] Instance set_v_stp_instance : Settable v_stp_instance := ltac:(mk_setter eta_vlan).
#[export] Instance set_v_rstp_instance : Settable v_rstp_instance := ltac:(mk_setter eta_vlan).

(** The positions of the fields among the six bytes. *)
Definition egress_ports := 0.
Definition forbidden_egress_ports := 1.
Definition untagged_ports := 2.
Definition row_status := 3.
Definition stp_enabled := 4.
Definition stp_mode := 5.

Definition v_byte (v : vlan_static_entry) (o : Z) : Z := nth (Z.to_nat o) (v_bytes v) 0.
Definition set_v_byte (o b : Z) (v : vlan_static_entry) : vlan_static_entry :=
  v <| v_bytes := <[Z.to_nat o := b]> (v_bytes v) |>.

(** The byte of a port in the list at [plist], and its bit. *)
Definition port_byte (plist portno : Z) : Z := plist + Z.quot (portno - 1) MAX_BITS_PER_BYTE.
Definition port_bit (portno : Z) : Z := 1 ≪ Z.rem (portno - 1) MAX_BITS_PER_BYTE.

(** [None]: the byte is none of the six. *)
Definition SET_PORT_LIST (plist portno : Z) (v : vlan_static_entry) : option vlan_static_entry :=
  b ← arr (v_bytes v) (port_byte plist portno);
  Some (set_v_byte (port_byte plist portno) (u8 (b ||| port_bit portno)) v).

Definition IS_PORT_SET_PORT_LIST (plist portno : Z) (v : vlan_static_entry) : option bool :=
  b ← arr (v_bytes v) (port_byte plist portno);
  Some (tst (b &&& port_bit portno)).

Definition RESET_PORT_LIST (plist portno : Z) (v : vlan_static_entry) : option vlan_static_entry :=
  b ← arr (v_bytes v) (port_byte plist portno);
  Some (set_v_byte (port_byte plist portno) (u8 (clr b (port_bit portno))) v).

(** The table of the VLANs and the instances of the protocols. *)
Record switch (TS : Type) := mk_switch {
  vlan_db : list vlan_static_entry;
  stp_w : stp_world TS;
  rstp_w : rworld
}.
Arguments mk_switch {TS}.
Arguments vlan_db {TS}.
Arguments stp_w {TS}.
Arguments rstp_w {TS}.

Section Operations.
Context {TS : Type} `{TimerService TS} (ES : stp_env) (ER : rstp_env).

Local Abbreviation M := (fsM (switch TS)).

Definition set_stp (w : stp_world TS) : M unit := modify (λ s, mk_switch (vlan_db s) w (rstp_w s)).
Definition set_rstp (w : rworld) : M unit := modify (λ s, mk_switch (vlan_db s) (stp_w s) w).

Definition vlan_at (k : nat) : M vlan_static_entry := l ← gets vlan_db; of_option (l !! k).
Definition set_vlan_at (k : nat) (v : vlan_static_entry) : M unit :=
  modify (λ s, mk_switch (<[k := v]> (vlan_db s)) (stp_w s) (rstp_w s)).
Definition upd_vlan (k : nat) (f : vlan_static_entry → vlan_static_entry) : M unit :=
  v ← vlan_at k; set_vlan_at k (f v).

(** The position of an entry in the list. *)
Definition get_vlan_entry (vlan_id : Z) : M (option nat) :=
  gets (λ s, fst <$> list_find (λ v, v_vlan_id v = u16 vlan_id) (vlan_db s)).

(** ** The calls of the two protocols on the instance of a VLAN *)

Definition call_stp (p : option nat) (f : stp TS → stp TS * Z) : M Z :=
  match p with
  | None => fault
  | Some k =>
      w ← gets stp_w;
      let '(w, r) := on_instance_r k f w in
      set_stp w;;
      mret r
  end.

(** Without memory for the port the pointer to the instance is not used. *)
Definition call_stp_create_port (p : option nat) (port : Z) : M Z :=
  if s_malloc_ok ES then call_stp p (stp_create_port ES port) else mret (-1).

Definition call_rstp (p : option nat) (f : rstp → rstp * Z) : M Z :=
  match p with
  | None => fault
  | Some k =>
      w ← gets rstp_w;
      let '(x, r) := f (inst w k) in
      set_rstp (upd_inst k x w);;
      mret r
  end.

(** ** vlan_stp.c *)

(** The loop over the ports from [i] on: [f] for each egress port. *)
Fixpoint each_egress_port (n : nat) (i : Z) (k : nat) (f : Z → M Z) : M unit :=
  match n with
  | O => mret tt
  | S n =>
      v ← vlan_at k;
      res ← of_option (IS_PORT_SET_PORT_LIST egress_ports i v);
      (if (res : bool) then f i;; mret tt else mret tt);;
      each_egress_port n (i + 1) k f
  end.

Definition all_egress_ports (k : nat) (f : Z → M Z) : M unit :=
  each_egress_port (Z.to_nat MAX_PORTS) 1 k f.

Definition start_stp (k : nat) (vlan_id : Z) : M Z :=
  w ← gets stp_w;
  let '(w, p, r) := stp_create_stp_instance ES (u16 vlan_id) w in
  set_stp w;;
  (match p with Some _ => upd_vlan k (λ v, v <| v_stp_instance := p |>) | None => mret tt end);;
  if r <? 0 then mret (-1)
  else
    v ← vlan_at k;
    all_egress_ports k (call_stp_create_port (v_stp_instance v));;
    call_stp (v_stp_instance v) (stp_set_state ES 1).

Definition start_rstp (k : nat) (vlan_id : Z) : M Z :=
  w ← gets rstp_w;
  let '(w, r, p) := rstp_create_instance ER (u16 vlan_id) w in
  set_rstp w;;
  (match p with Some _ => upd_vlan k (λ v, v <| v_rstp_instance := p |>) | None => mret tt end);;
  if r <? 0 then mret (-1)
  else
    v ← vlan_at k;
    match v_rstp_instance v with
    | None => mret (-1)
    | Some _ =>
        all_egress_ports k (λ i, call_rstp (v_rstp_instance v) (rstp_create_port ER i));;
        call_rstp (v_rstp_instance v) (λ x, (bstp_init ER x, 0));;
        match v_stp_instance v with
        | Some _ => call_stp (v_stp_instance v) (stp_set_state ES 0)
        | None => mret 0
        end
    end.

Definition vlan_spanning_tree_enable_on_vlan (vlan_id mode : Z) : M Z :=
  p ← get_vlan_entry vlan_id;
  match p with
  | None => mret (-1)
  | Some k =>
      v ← vlan_at k;
      if tst (v_byte v stp_enabled) && (v_byte v stp_mode =? mode) then mret 0
      else
        r ← (if mode =? MODE_STP then start_stp k vlan_id
             else if mode =? MODE_RSTP then start_rstp k vlan_id
             else mret 0);
        if r <? 0 then mret (-1)
        else
          upd_vlan k (set_v_byte stp_enabled 1);;
          upd_vlan k (set_v_byte stp_mode (u8 mode));;
          mret 0
  end.

Definition vlan_spanning_tree_disable_on_vlan (vlan_id mode : Z) : M Z :=
  p ← get_vlan_entry vlan_id;
  match p with
  | None => mret (-1)
  | Some k =>
      v ← vlan_at k;
      if negb (tst (v_byte v stp_enabled)) then mret 0
      else
        upd_vlan k (set_v_byte stp_enabled 0);;
        if mode =? MODE_STP then
          match v_stp_instance v with
          | None => fault
          | Some i =>
              w ← gets stp_w;
              let '(w, r) := stp_delete_stp_instance i w in
              set_stp w;;
              upd_vlan k (λ v, v <| v_stp_instance := None |>);;
              mret 0
          end
        else if mode =? MODE_RSTP then
          upd_vlan k (λ v, v <| v_rstp_instance := None |>);;
          match v_stp_instance v with
          | None => mret 0
          | Some _ =>
              upd_vlan k (set_v_byte stp_enabled 1);;
              upd_vlan k (set_v_byte stp_mode MODE_STP);;
              all_egress_ports k (call_stp_create_port (v_stp_instance v));;
              call_stp (v_stp_instance v) (stp_set_state ES 1);;
              mret 0
          end
        else mret 0
  end.

Definition vlan_create_stp_port (k : nat) (port_no : Z) : M Z :=
  v ← vlan_at k;
  if v_byte v stp_mode =? MODE_STP then
    r ← call_stp_create_port (v_stp_instance v) port_no;
    if r <? 0 then mret (-1) else mret 0
  else mret 0.

Definition vlan_delete_stp_port (stp_inst : option nat) (port_no : Z) : M Z :=
  r ← call_stp stp_inst (stp_delete_port (u32 port_no));
  if r <? 0 then mret (-1) else mret 0.

Definition vlan_get_this_bridge_stp_mode (vlanid : Z) : M Z :=
  p ← get_vlan_entry vlanid;
  match p with
  | Some k => v ← vlan_at k; mret (v_byte v stp_mode)
  | None => mret (-1)
  end.

(** The instance of the protocol in use: an instance of one of the two kinds. *)
Definition vlan_get_spanning_tree_instance (vlan_id mode : Z) : M (option nat) :=
  p ← get_vlan_entry vlan_id;
  match p with
  | None => mret None
  | Some k =>
      v ← vlan_at k;
      if negb (tst (v_byte v stp_enabled)) then mret None
      else if mode =? MODE_STP then mret (v_stp_instance v)
      else if mode =? MODE_RSTP then mret (v_rstp_instance v)
      else mret None
  end.

(** ** vlan_main.c *)

(** [mem]: whether the pool has a block.  No block is ever given back, so that a new one is zero. *)
Definition vlan_create_vlan (mem : bool) (vlan_id : Z) : M Z :=
  new_vlan ← get_vlan_entry vlan_id;
  if VLAN_IS_NOT_IN_RANGE (u16 vlan_id) then mret (-1)
  else match new_vlan with
       | Some _ => mret 0
       | None =>
           if mem then
             modify (λ s, mk_switch
               (vlan_db s ++ [mk_vlan (u16 vlan_id) [0; 0; 0; ROW_STATE_CREATE_WAIT; 0; 0] None None])
               (stp_w s) (rstp_w s));;
             mret 0
           else mret (-1)
       end.

(** The list of ports a type stands for. *)
Definition on_port_list (op : Z → Z → vlan_static_entry → option vlan_static_entry)
    (k : nat) (port_no type : Z) : M unit :=
  v ← vlan_at k;
  if type =? TAGGED then v' ← of_option (op egress_ports port_no v); set_vlan_at k v'
  else if type =? UNTAGGED then v' ← of_option (op untagged_ports port_no v); set_vlan_at k v'
  else mret tt.

Definition vlan_add_port (vlan_id port_no type : Z) : M Z :=
  p ← get_vlan_entry vlan_id;
  match p with
  | None => mret (-1)
  | Some k =>
      on_port_list SET_PORT_LIST k port_no type;;
      vlan_create_stp_port k port_no;;
      mret 0
  end.

Definition vlan_del_port (vlan_id port_no type : Z) : M Z :=
  p ← get_vlan_entry vlan_id;
  match p with
  | None => mret (-1)
  | Some k =>
      on_port_list RESET_PORT_LIST k port_no type;;
      mret 0
  end.

(** The loop of [vlan_create_default_vlan] from [i] on. *)
Fixpoint add_ports (n : nat) (i vlan_id : Z) : M unit :=
  match n with
  | O => mret tt
  | S n =>
      vlan_add_port vlan_id (i + 1) TAGGED;;
      add_ports n (i + 1) vlan_id
  end.

Definition vlan_create_default_vlan (mem : bool) (vlan_id : Z) : M Z :=
  r ← vlan_create_vlan mem vlan_id;
  if r <? 0 then mret (-1)
  else
    add_ports (Z.to_nat MAX_PORTS) 0 vlan_id;;
    vlan_spanning_tree_enable_on_vlan vlan_id MODE_STP;;
    mret 0.

(** [pool]: the result of [mem_pool_create]. *)
Definition vlan_init (pool : Z) (mem : bool) : M Z :=
  modify (λ s, mk_switch [] (stp_w s) (rstp_w s));;
  if pool <? 0 then mret (-1)
  else
    r ← vlan_create_default_vlan mem VLAN_DEFAULT_VLAN_ID;
    if r <? 0 then mret (-1) else mret 0.

(** ** vlan_cli.c *)

Definition set_vlan (mem : bool) (arg : Z) : M Z :=
  r ← vlan_create_vlan mem arg;
  if r =? 0 then mret 0 else mret (-1).

Definition set_tagged__port_to_vlan (cli_vlan arg : Z) : M Z :=
  r ← vlan_add_port cli_vlan arg TAGGED;
  if r <? 0 then mret (-1)
  else
    vlan_del_port VLAN_DEFAULT_VLAN_ID arg TAGGED;;
    mret 0.

(** ** The commands of stp_cli.c and rstp_cli.c that start and stop the protocols *)

Definition spanning_tree_enable (cli_vlan : Z) : M Z := vlan_spanning_tree_enable_on_vlan cli_vlan MODE_STP.
Definition spanning_tree_disable (cli_vlan : Z) : M Z := vlan_spanning_tree_disable_on_vlan cli_vlan MODE_STP.
Definition spanning_8021w_tree_enable (cli_vlan : Z) : M Z := vlan_spanning_tree_enable_on_vlan cli_vlan MODE_RSTP.
Definition spanning_8021w_tree_disable (cli_vlan : Z) : M Z := vlan_spanning_tree_disable_on_vlan cli_vlan MODE_RSTP.

(** ** stpmgr_main.c *)

Definition stp_process_events (port event vlanid : Z) : M Z :=
  mode ← vlan_get_this_bridge_stp_mode vlanid;
  if mode =? MODE_STP then
    w ← gets stp_w;
    let '(w', _) := stp_enable_or_disable_port ES port (u8 event) w in
    set_stp w';;
    mret 0
  else if mode =? MODE_RSTP then
    w ← gets rstp_w;
    '(w', _) ← of_option (rstp_enable_or_disable_port ER port (u8 event) w);
    set_rstp w';;
    mret 0
  else mret 0.

(** A received frame, as the structure of either protocol. *)
Definition process_bpdu (bpdu : STP_BPDU_T) (pdu : bstp_cbpdu) (port vlanid : Z) : M Z :=
  mode ← vlan_get_this_bridge_stp_mode vlanid;
  if mode =? MODE_STP then
    w ← gets stp_w;
    set_stp (stp_process_bpdu ES bpdu (u16 port) w).1;;
    mret 0
  else if mode =? MODE_RSTP then
    w ← gets rstp_w;
    set_rstp (rstp_process_bpdu ER pdu (u16 port) w).1;;
    mret 0
  else mret 0.

End Operations.
