(* ===== verification/VlanProps.v ===== *)
(** * VLANs: the switch as a whole

    The port lists of a VLAN, and the invariant of the switch: whatever sequence of VLAN
    operations, events, BPDUs, timers and commands, the instances of both protocols are in the states
    their own invariants (StpWorld.v, RstpInv.v) speak of, and the VLANs point to them. *)

From stdpp Require Import relations sets.
From S2P Require Import Prelude RstpTypes Rstp RstpWorld RstpInv.
From S2P Require Import TimerIface StpTypes Stp StpSelect StpInv StpWorld Fault Vlan.

(** ** Port lists *)

Lemma tst_land_bit b j : 0 ≤ j → tst (b &&& (1 ≪ j)) = Z.testbit b j.
Proof.
  intros Hj. rewrite Z.shiftl_1_l. destruct (Z.testbit b j) eqn:E.
  - apply tst_true. intros H0. assert (Z.testbit (b &&& 2 ^ j) j = false) as Hf by by rewrite H0, Z.bits_0.
    rewrite Z.land_spec, E, Z.pow2_bits_true in Hf by done. done.
  - apply tst_false. apply Z.bits_inj'. intros n Hn. rewrite Z.land_spec, Z.bits_0.
    destruct (decide (n = j)) as [->|Hne]; [by rewrite E|]. by rewrite Z.pow2_bits_false, andb_false_r by congruence.
Qed.

Lemma u8_bit b j : 0 ≤ j < 8 → Z.testbit (u8 b) j = Z.testbit b j.
Proof. intros Hj. unfold u8. by rewrite Z.mod_pow2_bits_low by lia. Qed.

Lemma port_bit_range p : 1 ≤ p → 0 ≤ Z.rem (p - 1) MAX_BITS_PER_BYTE < 8.
Proof. intros Hp. unfold MAX_BITS_PER_BYTE. apply Z.rem_bound_pos; lia. Qed.

(** The same bit of the same byte. *)
Definition same_bit (o p o' q : Z) : Prop :=
  port_byte o p = port_byte o' q ∧ Z.rem (p - 1) MAX_BITS_PER_BYTE = Z.rem (q - 1) MAX_BITS_PER_BYTE.

#[export] Instance same_bit_dec o p o' q : Decision (same_bit o p o' q).
Proof. unfold same_bit. apply _. Defined.

Lemma set_byte_lookup v o b i :
  is_Some (arr (v_bytes v) o) → 0 ≤ i →
  arr (v_bytes (set_v_byte o b v)) i = if decide (i = o) then Some b else arr (v_bytes v) i.
Proof.
  intros [c Hc] Hi. pose proof (arr_some _ _ _ Hc) as Hr. rewrite !arr_lookup by lia. cbn.
  case_decide as E; [subst; apply list_lookup_insert_eq; lia|]. apply list_lookup_insert_ne. lia.
Qed.

(** Adding a port to a list of ports, and taking it out, changes the membership of that port alone, as long
    as two lists do not share a byte: a list has one byte, so that the ports from 9 on are kept in
    the next field.  The port 9 of the tagged list is the port 1 of the forbidden list. *)
Theorem port_list_spec o p o' q v :
  1 ≤ p → 1 ≤ q → 0 ≤ o → 0 ≤ o' → is_Some (arr (v_bytes v) (port_byte o p)) →
  ∃ v1 v2, SET_PORT_LIST o p v = Some v1 ∧ RESET_PORT_LIST o p v = Some v2 ∧
    IS_PORT_SET_PORT_LIST o' q v1 =
      (if decide (same_bit o p o' q) then Some true else IS_PORT_SET_PORT_LIST o' q v) ∧
    IS_PORT_SET_PORT_LIST o' q v2 =
      (if decide (same_bit o p o' q) then Some false else IS_PORT_SET_PORT_LIST o' q v).
Proof.
  intros Hp Hq Ho Ho' Hs. destruct Hs as [b Hb]. pose proof (port_bit_range p Hp) as Rp.
  pose proof (port_bit_range q Hq) as Rq.
  assert (0 ≤ port_byte o' q) as Hq0.
  { unfold port_byte. assert (0 ≤ Z.quot (q - 1) MAX_BITS_PER_BYTE) by (apply Z.quot_pos; unfold MAX_BITS_PER_BYTE; lia). lia. }
  unfold SET_PORT_LIST, RESET_PORT_LIST, IS_PORT_SET_PORT_LIST. rewrite Hb. cbn.
  eexists _, _. split_and!; [done|done|..]; rewrite set_byte_lookup by eauto; unfold port_bit;
    destruct (decide (port_byte o' q = port_byte o p)) as [E|E];
    try (rewrite decide_False by (intros [? _]; congruence); done);
    (assert (arr (v_bytes v) (port_byte o' q) = Some b) as Hb' by by rewrite E); rewrite Hb'; cbn;
    rewrite !tst_land_bit, u8_bit by lia; unfold clr.
  - rewrite Z.lor_spec, Z.shiftl_1_l, Z.pow2_bits_eqb by lia. case_decide as Hd.
    + destruct Hd as [_ ->]. by rewrite Z.eqb_refl, orb_true_r.
    + by rewrite (proj2 (Z.eqb_neq _ _)), orb_false_r by (intros ?; apply Hd; by split).
  - rewrite Z.land_spec, Z.lnot_spec, Z.shiftl_1_l, Z.pow2_bits_eqb by lia. case_decide as Hd.
    + destruct Hd as [_ ->]. by rewrite Z.eqb_refl, andb_false_r.
    + by rewrite (proj2 (Z.eqb_neq _ _)), andb_true_r by (intros ?; apply Hd; by split).
Qed.

(** ** The invariant of the switch *)

Section Switch.
Context {TS : Type} `{TimerService TS} `{!TimerAlloc TS}.

Implicit Types (s x : switch TS) (v : vlan_static_entry).

(** The instances of the rapid spanning tree. *)
Definition rworld_ok (w : rworld) : Prop :=
  ∀ k, k ∈ bstp_list w → (k < next_inst w)%nat ∧ reachable (inst w k).

Definition db_ok (l : list vlan_static_entry) : Prop :=
  NoDup (v_vlan_id <$> l) ∧ ∀ v, v ∈ l → 1 ≤ v_vlan_id v ≤ 4096 ∧ length (v_bytes v) = 6%nat.

(** The instances a VLAN points to. *)
Definition points_ok (w : stp_world TS) (rw : rworld) (l : list vlan_static_entry) : Prop :=
  ∀ v, v ∈ l →
    (∀ k, v_stp_instance v = Some k → k ∈ stp_instance_head w ∧ br_vlan_id (winst w k) = v_vlan_id v) ∧
    (∀ k, v_rstp_instance v = Some k → k ∈ bstp_list rw).

(** A protocol in use has an instance. *)
Definition in_use v : Prop :=
  v_byte v stp_enabled ≠ 0 →
  (v_byte v stp_mode = MODE_STP → is_Some (v_stp_instance v)) ∧
  (v_byte v stp_mode = MODE_RSTP → is_Some (v_rstp_instance v)).

Definition sw_inv s : Prop :=
  stp_world_reachable (stp_w s) ∧ rworld_ok (rstp_w s) ∧ db_ok (vlan_db s) ∧
  points_ok (stp_w s) (rstp_w s) (vlan_db s) ∧ Forall in_use (vlan_db s).

(** A step that changes the instances but neither their lists nor the VLANs. *)
Definition inner s x : Prop :=
  sw_inv x ∧ vlan_db x = vlan_db s ∧ stp_instance_head (stp_w x) = stp_instance_head (stp_w s) ∧
  bstp_list (rstp_w x) = bstp_list (rstp_w s).

Lemma inner_refl s : sw_inv s → inner s s.
Proof. done. Qed.

Lemma inner_trans s x y : inner s x → inner x y → inner s y.
Proof. intros (_ & A1 & A2 & A3) (B0 & B1 & B2 & B3). split_and!; congruence. Qed.

(** Work on an instance of the spanning tree. *)
Lemma inner_stp E s k y :
  sw_inv s → k ∈ stp_instance_head (stp_w s) → stp_call E (focus k (stp_w s)) y →
  inner s (mk_switch (vlan_db s) (unfocus k y (stp_w s)) (rstp_w s)).
Proof.
  intros (Hw & Hr & Hd & Hp & Hu) Hk Hc. split_and!; try done. split_and!; try done; cbn.
  - eapply world_reachable_step; [|exact Hw]. by apply wcall_instance.
  - intros v Hv. destruct (Hp v Hv) as [P1 P2]. split; [|done]. intros j Hj. destruct (P1 j Hj) as [P3 P4].
    split; [done|]. rewrite <- P4. destruct (decide (k = j)) as [->|Hne].
    + cbn. rewrite fn_lookup_insert. by destruct (call_inside E _ _ Hc) as (_ & _ & _ & ->).
    + cbn. by rewrite fn_lookup_insert_ne.
Qed.

(** Work on an instance of the rapid spanning tree. *)
Lemma inner_rstp s k y :
  sw_inv s → k ∈ bstp_list (rstp_w s) → rstp_call (inst (rstp_w s) k) y →
  inner s (mk_switch (vlan_db s) (stp_w s) (upd_inst k y (rstp_w s))).
Proof.
  intros (Hw & Hr & Hd & Hp & Hu) Hk Hc. split_and!; try done. split_and!; try done; cbn.
  intros j Hj. destruct (Hr j Hj) as [R1 R2]. split; [done|]. destruct (decide (k = j)) as [->|Hne].
  - cbn. rewrite fn_lookup_insert. by eapply reachable_call.
  - cbn. by rewrite fn_lookup_insert_ne.
Qed.

(** ** Calls on instances *)

Lemma call_stp_ok E s k f :
  sw_inv s → k ∈ stp_instance_head (stp_w s) → stp_call E (focus k (stp_w s)) (f (focus k (stp_w s))).1 →
  ∃ x, call_stp (Some k) f s = Some ((f (focus k (stp_w s))).2, x) ∧ inner s x.
Proof.
  intros Hs Hk Hc. eexists. split; [|by apply (inner_stp E s k)]. unfold call_stp, on_instance_r.
  rewrite (fbind_run (gets stp_w) _ s _ _ eq_refl). by destruct (f (focus k (stp_w s))).
Qed.

Lemma call_rstp_ok s k f :
  sw_inv s → k ∈ bstp_list (rstp_w s) → rstp_call (inst (rstp_w s) k) (f (inst (rstp_w s) k)).1 →
  ∃ x, call_rstp (Some k) f s = Some ((f (inst (rstp_w s) k)).2, x) ∧ inner s x.
Proof.
  intros Hs Hk Hc. eexists. split; [|by apply (inner_rstp s k)]. unfold call_rstp.
  rewrite (fbind_run (gets rstp_w) _ s _ _ eq_refl). by destruct (f (inst (rstp_w s) k)).
Qed.

Lemma create_port_ok ES s k i :
  sw_inv s → k ∈ stp_instance_head (stp_w s) → 1 ≤ i ≤ 12 →
  ∃ r x, call_stp_create_port ES (Some k) i s = Some (r, x) ∧ inner s x.
Proof.
  intros Hs Hk Hi. unfold call_stp_create_port. destruct (s_malloc_ok ES); [|by exists (-1), s].
  destruct (call_stp_ok ES s k (stp_create_port ES i)) as (x & E & Hx); [done|done| |by eauto].
  apply StpInv.call_create_port. lia.
Qed.

Lemma vlan_at_run k s v : vlan_db s !! k = Some v → vlan_at k s = Some (v, s).
Proof. intros Hk. unfold vlan_at. rewrite (fbind_run (gets vlan_db) _ s _ _ eq_refl). by apply of_option_run. Qed.

Lemma egress_byte v i : length (v_bytes v) = 6%nat → 1 ≤ i ≤ 12 → is_Some (IS_PORT_SET_PORT_LIST egress_ports i v).
Proof.
  intros Hl Hi. unfold IS_PORT_SET_PORT_LIST. destruct (arr _ _) as [b|] eqn:E; [by eexists|]. exfalso.
  assert (0 ≤ Z.quot (i - 1) 8 < 2) as Hq by (rewrite Z.quot_div_nonneg by lia; split;
    [apply Z.div_pos; lia|apply Z.div_lt_upper_bound; lia]).
  unfold port_byte, egress_ports, MAX_BITS_PER_BYTE in E. rewrite arr_lookup in E by lia.
  apply lookup_ge_None in E. lia.
Qed.

(** The loop over the egress ports. *)
Lemma each_egress_ok n : ∀ i k (f : Z → fsM (switch TS) Z) s v,
  sw_inv s → vlan_db s !! k = Some v → 1 ≤ i → i + Z.of_nat n ≤ 13 →
  (∀ j x, inner s x → 1 ≤ j ≤ 12 → ∃ r y, f j x = Some (r, y) ∧ inner x y) →
  ∃ x, each_egress_port n i k f s = Some (tt, x) ∧ inner s x.
Proof.
  induction n as [|n IH]; intros i k f s v Hs Hk Hi Hn Hf; [by exists s|]. cbn [each_egress_port].
  frun (vlan_at_run k s v Hk). pose proof Hs as (_ & _ & (_ & Hd) & _).
  destruct (Hd v) as [_ Hl]; [by eapply list_elem_of_lookup_2|].
  destruct (egress_byte v i Hl) as [b Hb]; [lia|]. fopt Hb.
  assert (∃ x, (if b then f i;; mret tt else mret tt) s = Some (tt, x) ∧ inner s x) as (x & Ex & Hx).
  { destruct b; [|by exists s]. destruct (Hf i s) as (r & x & Ex & Hx); [done|lia|].
    exists x. split; [by frun Ex|done]. }
  frun Ex. destruct (IH (i + 1) k f x v) as (y & Ey & Hy); [apply Hx| |lia|lia| |].
  - by destruct Hx as (_ & -> & _).
  - intros j z Hz Hj. apply Hf; [by eapply inner_trans|done].
  - exists y. split; [done|]. by eapply inner_trans.
Qed.

Lemma egress_ports_ok ES k s v p :
  sw_inv s → vlan_db s !! k = Some v → p ∈ stp_instance_head (stp_w s) →
  ∃ x, all_egress_ports k (call_stp_create_port ES (Some p)) s = Some (tt, x) ∧ inner s x.
Proof.
  intros Hs Hk Hp. eapply each_egress_ok; [done|done|lia|done|]. intros j x (Hx & _ & Hh & _) Hj.
  apply create_port_ok; [done|by rewrite Hh|done].
Qed.

Lemma set_state_ok ES s k st :
  sw_inv s → k ∈ stp_instance_head (stp_w s) →
  ∃ x, call_stp (Some k) (stp_set_state ES st) s = Some (0, x) ∧ inner s x.
Proof.
  intros Hs Hk. destruct (call_stp_ok ES s k (stp_set_state ES st)) as (x & E & Hx); [done|done| |by eauto].
  apply StpInv.call_set_state.
Qed.

(** ** Entries of the table *)

Lemma elem_of_insert_inv (l : list vlan_static_entry) k v (y : vlan_static_entry) : y ∈ <[k := v]> l → y = v ∨ y ∈ l.
Proof.
  intros [i [(_ & -> & _)|[_ Hi]]%list_lookup_insert_Some]%list_elem_of_lookup; [by left|right].
  by eapply list_elem_of_lookup_2.
Qed.

(** A new value for an entry: the same VLAN, pointing to instances that exist. *)
Definition entry_ok s v v' : Prop :=
  v_vlan_id v' = v_vlan_id v ∧ length (v_bytes v') = length (v_bytes v) ∧
  (∀ k, v_stp_instance v' = Some k →
     k ∈ stp_instance_head (stp_w s) ∧ br_vlan_id (winst (stp_w s) k) = v_vlan_id v) ∧
  (∀ k, v_rstp_instance v' = Some k → k ∈ bstp_list (rstp_w s)).

Definition with_entry s k v : switch TS := mk_switch (<[k := v]> (vlan_db s)) (stp_w s) (rstp_w s).

Lemma entry_inv s k v v' :
  sw_inv s → vlan_db s !! k = Some v → entry_ok s v v' → in_use v' → sw_inv (with_entry s k v').
Proof.
  intros (Hw & Hr & (Hd & Hb) & Hp & Hu) Hk (E1 & E2 & E3 & E4) Hv. split_and!; [done|done|split| |]; cbn.
  - rewrite list_fmap_insert, list_insert_id; [done|]. by rewrite list_lookup_fmap, Hk, E1.
  - intros x [->|Hx]%elem_of_insert_inv; [|by apply Hb]. rewrite E1, E2.
    apply Hb. by eapply list_elem_of_lookup_2.
  - intros x [->|Hx]%elem_of_insert_inv; [|by apply Hp]. rewrite E1. by split.
  - by apply Forall_insert.
Qed.

Lemma upd_vlan_run s k v f :
  vlan_db s !! k = Some v → upd_vlan k f s = Some (tt, with_entry s k (f v)).
Proof. intros Hk. unfold upd_vlan. by frun (vlan_at_run k s v Hk). Qed.

Lemma entry_lookup s k v v' : vlan_db s !! k = Some v → vlan_db (with_entry s k v') !! k = Some v'.
Proof. intros Hk. cbn. apply list_lookup_insert_eq. by eapply lookup_lt_Some. Qed.

Lemma entry_twice s k v v' : with_entry (with_entry s k v) k v' = with_entry s k v'.
Proof. unfold with_entry. cbn. by rewrite list_insert_insert_eq. Qed.

Lemma inv_entry s k v :
  sw_inv s → vlan_db s !! k = Some v → entry_ok s v v ∧ in_use v ∧ 1 ≤ v_vlan_id v ≤ 4096 ∧ length (v_bytes v) = 6%nat.
Proof.
  intros (_ & _ & (_ & Hb) & Hp & Hu) Hk. pose proof (list_elem_of_lookup_2 _ _ _ Hk) as Hin.
  destruct (Hp v Hin) as [P1 P2]. destruct (Hb v Hin). rewrite list.Forall_forall in Hu.
  split; [by split_and!|]. split; [by apply Hu|done].
Qed.

Lemma byte_entry_ok s v v' o b : entry_ok s v v' → entry_ok s v (set_v_byte o b v').
Proof. intros (E1 & E2 & E3 & E4). split_and!; [done| |done|done]. cbn. by rewrite length_insert. Qed.

Lemma set_byte_get o o' b v :
  length (v_bytes v) = 6%nat → 0 ≤ o < 6 → 0 ≤ o' < 6 →
  v_byte (set_v_byte o b v) o' = if decide (o' = o) then b else v_byte v o'.
Proof.
  intros Hl Ho Ho'. unfold v_byte. rewrite !nth_lookup. cbn. case_decide as E.
  - subst. by rewrite list_lookup_insert_eq by lia.
  - by rewrite list_lookup_insert_ne by lia.
Qed.

(** The two bytes that say which protocol is in use. *)
Lemma use_run {A} s k v m (rest : fsM (switch TS) A) :
  vlan_db s !! k = Some v →
  (upd_vlan k (set_v_byte stp_enabled 1);; upd_vlan k (set_v_byte stp_mode m);; rest) s =
    rest (with_entry s k (set_v_byte stp_mode m (set_v_byte stp_enabled 1 v))).
Proof.
  intros Hk. frun (upd_vlan_run s k v (set_v_byte stp_enabled 1) Hk).
  frun (upd_vlan_run _ k _ (set_v_byte stp_mode m) (entry_lookup s k v (set_v_byte stp_enabled 1 v) Hk)).
  by rewrite entry_twice.
Qed.

Lemma use_bytes v m :
  length (v_bytes v) = 6%nat →
  let v' := set_v_byte stp_mode m (set_v_byte stp_enabled 1 v) in
  v_byte v' stp_enabled = 1 ∧ v_byte v' stp_mode = m.
Proof.
  intros Hl. cbv zeta. rewrite !set_byte_get by (cbn; rewrite ?length_insert; done || (unfold stp_enabled, stp_mode; lia)).
  done.
Qed.

(** ** Creating instances *)

Lemma winst_create E vlan_id (w : stp_world TS) k :
  k ∈ stp_instance_head w → winv w → vlan_id ≠ StpWorld.VLAN_INVALID_ID →
  let w' := (stp_create_stp_instance E vlan_id w).1.1 in
  k ∈ stp_instance_head w' ∧ winst w' k = winst w k.
Proof.
  intros Hk (_ & _ & _ & W4 & _) Hv. unfold stp_create_stp_instance. destruct (find _ _); [done|].
  rewrite (proj2 (Z.eqb_neq _ _) Hv). destruct (s_malloc_ok E); [|done]. cbn. split; [set_solver|].
  rewrite fn_lookup_insert_ne; [done|]. destruct (W4 k Hk) as [? _]. lia.
Qed.

Lemma create_stp_ok E s vid :
  sw_inv s → 1 ≤ vid ≤ 4096 →
  let '(w, p, r) := stp_create_stp_instance E vid (stp_w s) in
  sw_inv (mk_switch (vlan_db s) w (rstp_w s)) ∧
  match p with
  | None => r = -1
  | Some k => r = 0 ∧ k ∈ stp_instance_head w ∧ br_vlan_id (winst w k) = vid
  end.
Proof.
  intros (Hw & Hr & Hd & Hp & Hu) Hv. pose proof (world_reachable_winv _ Hw) as Hwi.
  assert (vid ≠ StpWorld.VLAN_INVALID_ID) as Hne by (unfold StpWorld.VLAN_INVALID_ID; lia).
  pose proof (λ k Hk, winst_create E vid (stp_w s) k Hk Hwi Hne) as Hold.
  pose proof (world_reachable_step E _ _ (wcall_create E (stp_w s) vid) Hw) as Hw'.
  destruct (stp_create_stp_instance E vid (stp_w s)) as [[w p] r] eqn:Ec. cbn in Hold, Hw'. split.
  - split_and!; [done|done|done| |done]. intros v Hin. destruct (Hp v Hin) as [P1 P2]. split; [|done].
    intros k Hk. destruct (P1 k Hk) as [P3 P4]. destruct (Hold k P3) as [H1 H2]. split; [done|]. cbn. by rewrite H2.
  - unfold stp_create_stp_instance in Ec. destruct (find _ _) as [k|] eqn:Hf.
    { injection Ec as <- <- <-. apply find_some in Hf as [Hk He].
      split_and!; [done|by apply list_elem_of_In|by apply Z.eqb_eq]. }
    rewrite (proj2 (Z.eqb_neq _ _) Hne) in Ec. destruct (s_malloc_ok E); injection Ec as <- <- <-; [|done].
    cbn. split_and!; [done|set_solver|]. rewrite fn_lookup_insert. by edestruct init_frame as (_ & _ & _ & ->).
Qed.

Lemma create_rstp_ok E s vid :
  sw_inv s → 1 ≤ vid ≤ 4096 →
  let '(w, r, p) := rstp_create_instance E vid (rstp_w s) in
  sw_inv (mk_switch (vlan_db s) (stp_w s) w) ∧
  match p with None => r = -1 | Some k => r = 0 ∧ k ∈ bstp_list w end.
Proof.
  intros (Hw & Hr & Hd & Hp & Hu) Hv. unfold rstp_create_instance. destruct (find _ _) as [k|] eqn:Hf.
  { split; [done|]. apply find_some in Hf as [Hk _]. split; [done|by apply list_elem_of_In]. }
  rewrite (proj2 (Z.eqb_neq vid _)) by (unfold RstpWorld.VLAN_INVALID_ID; lia).
  destruct (malloc_ok E); [|done]. split; [|split; [done|set_solver]].
  split_and!; [done| |done| |done].
  - intros k. cbn. intros [Hk|Hk%list_elem_of_singleton]%elem_of_app.
    + destruct (Hr k Hk) as [R1 R2]. split; [lia|]. rewrite fn_lookup_insert_ne by lia. done.
    + subst k. split; [lia|]. rewrite fn_lookup_insert. by exists vid.
  - intros v Hin. destruct (Hp v Hin) as [P1 P2]. split; [done|]. intros k Hk. cbn. set_solver.
Qed.

(** ** Enabling a protocol *)

Lemma instance_entry_inv s k v p :
  sw_inv s → vlan_db s !! k = Some v → p ∈ stp_instance_head (stp_w s) →
  br_vlan_id (winst (stp_w s) p) = v_vlan_id v → sw_inv (with_entry s k (v <| v_stp_instance := Some p |>)).
Proof.
  intros Hs Hk Hp Hv. destruct (inv_entry s k v Hs Hk) as ((_ & _ & _ & E4) & Hu & _ & _).
  eapply entry_inv; [done|done| |].
  - split_and!; [done|done| |done]. by intros q [= <-].
  - intros Hen. destruct (Hu Hen) as [_ U2]. split; [by eexists|done].
Qed.

Lemma rinstance_entry_inv s k v p :
  sw_inv s → vlan_db s !! k = Some v → p ∈ bstp_list (rstp_w s) →
  sw_inv (with_entry s k (v <| v_rstp_instance := Some p |>)).
Proof.
  intros Hs Hk Hp. destruct (inv_entry s k v Hs Hk) as ((_ & _ & E3 & _) & Hu & _ & _).
  eapply entry_inv; [done|done| |].
  - split_and!; [done|done|done|]. by intros q [= <-].
  - intros Hen. destruct (Hu Hen) as [U1 _]. split; [done|by eexists].
Qed.

Lemma start_stp_ok ES s k v id :
  sw_inv s → vlan_db s !! k = Some v → v_vlan_id v = u16 id →
  ∃ r x, start_stp ES k id s = Some (r, x) ∧ sw_inv x ∧
    ((r = -1 ∧ s_malloc_ok ES = false ∧ vlan_db x = vlan_db s) ∨
     (r = 0 ∧ ∃ p, vlan_db x !! k = Some (v <| v_stp_instance := Some p |>))).
Proof.
  intros Hs Hk Hid. destruct (inv_entry s k v Hs Hk) as (_ & _ & Hr & _). rewrite Hid in Hr.
  unfold start_stp. rewrite (fbind_run (gets stp_w) _ s _ _ eq_refl).
  pose proof (create_stp_ok ES s (u16 id) Hs Hr) as Hc.
  assert (s_malloc_ok ES = true → (stp_create_stp_instance ES (u16 id) (stp_w s)).1.2 ≠ None) as Hm.
  { intros Hm. unfold stp_create_stp_instance. by repeat (case_match; try done). }
  destruct (stp_create_stp_instance ES (u16 id) (stp_w s)) as [[w p] r]. cbn in Hm. destruct Hc as [Hs1 Hp].
  set (s1 := mk_switch (vlan_db s) w (rstp_w s)) in *.
  rewrite (fbind_run (set_stp w) _ s _ s1 eq_refl). destruct p as [p|].
  2: { subst r. exists (-1), s1. split_and!; [done|done|]. left. split_and!; [done| |done].
       destruct (s_malloc_ok ES); [|done]. by destruct Hm. }
  destruct Hp as (-> & Hp & Hv). rewrite <- Hid in Hv.
  frun (upd_vlan_run s1 k v (λ v, v <| v_stp_instance := Some p |>) Hk).
  pose proof (instance_entry_inv s1 k v p Hs1 Hk Hp Hv) as Hs2.
  pose proof (entry_lookup s1 k v (v <| v_stp_instance := Some p |>) Hk) as Hk2.
  change (0 <? 0) with false. cbv iota. frun (vlan_at_run _ _ _ Hk2).
  destruct (egress_ports_ok ES k _ _ p Hs2 Hk2 Hp) as (s3 & E3 & Hs3 & D3 & L3 & _). cbn [v_stp_instance] in *.
  frun E3. destruct (set_state_ok ES s3 p 1) as (s4 & E4 & Hs4 & D4 & _); [done|by rewrite L3|].
  exists 0, s4. split_and!; [exact E4|done|]. right. split; [done|]. exists p. by rewrite D4, D3.
Qed.

Lemma rstp_ports_ok ER k s v p :
  sw_inv s → vlan_db s !! k = Some v → p ∈ bstp_list (rstp_w s) →
  ∃ x, all_egress_ports k (λ i, call_rstp (Some p) (rstp_create_port ER i)) s = Some (tt, x) ∧ inner s x.
Proof.
  intros Hs Hk Hp. eapply each_egress_ok; [done|done|lia|done|]. intros j x (Hx & _ & _ & Hl) Hj.
  destruct (call_rstp_ok x p (rstp_create_port ER j)) as (y & Ey & Hy); [done|by rewrite Hl| |by eauto].
  apply RstpInv.call_create_port.
Qed.

Lemma start_rstp_ok ES ER s k v id :
  sw_inv s → vlan_db s !! k = Some v → v_vlan_id v = u16 id →
  ∃ r x, start_rstp ES ER k id s = Some (r, x) ∧ sw_inv x ∧
    ((r = -1 ∧ malloc_ok ER = false ∧ vlan_db x = vlan_db s) ∨
     (r = 0 ∧ ∃ p, vlan_db x !! k = Some (v <| v_rstp_instance := Some p |>))).
Proof.
  intros Hs Hk Hid. destruct (inv_entry s k v Hs Hk) as (_ & _ & Hr & _). rewrite Hid in Hr.
  unfold start_rstp. rewrite (fbind_run (gets rstp_w) _ s _ _ eq_refl).
  pose proof (create_rstp_ok ER s (u16 id) Hs Hr) as Hc.
  assert (malloc_ok ER = true → (rstp_create_instance ER (u16 id) (rstp_w s)).2 ≠ None) as Hm.
  { intros Hm. unfold rstp_create_instance. by repeat (case_match; try done). }
  destruct (rstp_create_instance ER (u16 id) (rstp_w s)) as [[w r] p]. cbn in Hm. destruct Hc as [Hs1 Hp].
  set (s1 := mk_switch (vlan_db s) (stp_w s) w) in *.
  rewrite (fbind_run (set_rstp w) _ s _ s1 eq_refl). destruct p as [p|].
  2: { subst r. exists (-1), s1. split_and!; [done|done|]. left. split_and!; [done| |done].
       destruct (malloc_ok ER); [|done]. by destruct Hm. }
  destruct Hp as (-> & Hp).
  frun (upd_vlan_run s1 k v (λ v, v <| v_rstp_instance := Some p |>) Hk).
  pose proof (rinstance_entry_inv s1 k v p Hs1 Hk Hp) as Hs2.
  pose proof (entry_lookup s1 k v (v <| v_rstp_instance := Some p |>) Hk) as Hk2.
  change (0 <? 0) with false. cbv iota. frun (vlan_at_run _ _ _ Hk2).
  destruct (rstp_ports_ok ER k _ _ p Hs2 Hk2 Hp) as (s3 & E3 & Hs3 & D3 & L3 & R3).
  change (v_rstp_instance (v <| v_rstp_instance := Some p |>)) with (Some p). cbv iota.
  frun E3. destruct (call_rstp_ok s3 p (λ y, (bstp_init ER y, 0))) as (s4 & E4 & Hs4 & D4 & L4 & R4);
    [done|by rewrite R3|apply RstpInv.call_init|]. frun E4.
  change (v_stp_instance (v <| v_rstp_instance := Some p |>)) with (v_stp_instance v).
  destruct (inv_entry s1 k v Hs1 Hk) as ((_ & _ & P & _) & _ & _ & _).
  destruct (v_stp_instance v) as [q|].
  - destruct (P q eq_refl) as [Hq _]. destruct (set_state_ok ES s4 q 0) as (s5 & E5 & Hs5 & D5 & _);
      [done|by rewrite L4, L3|].
    exists 0, s5. split_and!; [exact E5|done|]. right. split; [done|]. exists p. by rewrite D5, D4, D3.
  - exists 0, s4. split_and!; [done|done|]. right. split; [done|]. exists p. by rewrite D4, D3.
Qed.

(** The ports of a VLAN are kept. *)
Definition same_ports v v' : Prop := take 4 (v_bytes v') = take 4 (v_bytes v).

Lemma use_ports v v' m :
  v_bytes v' = v_bytes v → same_ports v (set_v_byte stp_mode m (set_v_byte stp_enabled 1 v')).
Proof. intros E. unfold same_ports. cbn. rewrite !take_insert_ge by (compute; lia). by rewrite E. Qed.

(** The protocol a VLAN uses. *)
Definition runs v mode : Prop := v_byte v stp_enabled ≠ 0 ∧ v_byte v stp_mode = mode.

Lemma get_vlan_entry_run id s :
  ∃ p, get_vlan_entry id s = Some (p, s) ∧
    match p with
    | Some k => ∃ v, vlan_db s !! k = Some v ∧ v_vlan_id v = u16 id
    | None => ∀ v, v ∈ vlan_db s → v_vlan_id v ≠ u16 id
    end.
Proof.
  unfold get_vlan_entry, gets. destruct (list_find _ _) as [[k v]|] eqn:E; eexists; (split; [done|]).
  - apply list_find_Some in E as (E1 & E2 & _). by exists v.
  - apply list_find_None in E. rewrite list.Forall_forall in E. done.
Qed.

Lemma use_inv s k v mode :
  sw_inv s → vlan_db s !! k = Some v →
  (mode = MODE_STP → is_Some (v_stp_instance v)) → (mode = MODE_RSTP → is_Some (v_rstp_instance v)) →
  let v' := set_v_byte stp_mode mode (set_v_byte stp_enabled 1 v) in
  sw_inv (with_entry s k v') ∧ vlan_db (with_entry s k v') !! k = Some v' ∧ runs v' mode.
Proof.
  intros Hs Hk H1 H2. cbv zeta. destruct (inv_entry s k v Hs Hk) as (He & _ & _ & Hl).
  destruct (use_bytes v mode Hl) as [B1 B2]. split_and!; [|by eapply entry_lookup|by split; rewrite ?B1].
  eapply entry_inv; [done|done|by do 2 apply byte_entry_ok|]. intros _. rewrite B2. by split.
Qed.

Lemma enable_ok ES ER s id mode :
  sw_inv s → mode = MODE_STP ∨ mode = MODE_RSTP →
  ∃ r x, vlan_spanning_tree_enable_on_vlan ES ER id mode s = Some (r, x) ∧ sw_inv x ∧
    ((r = -1 ∧ vlan_db x = vlan_db s ∧
      ((∀ v, v ∈ vlan_db s → v_vlan_id v ≠ u16 id) ∨
       (mode = MODE_STP ∧ s_malloc_ok ES = false) ∨ (mode = MODE_RSTP ∧ malloc_ok ER = false))) ∨
     (r = 0 ∧ ∃ u v, u ∈ vlan_db s ∧ v ∈ vlan_db x ∧ v_vlan_id u = u16 id ∧ v_vlan_id v = u16 id ∧
       runs v mode ∧ same_ports u v)).
Proof.
  intros Hs Hm. unfold vlan_spanning_tree_enable_on_vlan.
  destruct (get_vlan_entry_run id s) as (p & Ep & Hp). frun Ep. destruct p as [k|].
  2: { exists (-1), s. split_and!; [done|done|]. left. by split_and!; [..|left]. }
  destruct Hp as (v & Hk & Hid). frun (vlan_at_run k s v Hk).
  destruct (tst (v_byte v stp_enabled) && (v_byte v stp_mode =? mode)) eqn:Hu.
  { apply andb_true_iff in Hu as [U1%tst_true U2%Z.eqb_eq]. exists 0, s. split_and!; [done|done|]. right.
    split; [done|]. pose proof (list_elem_of_lookup_2 _ _ _ Hk). exists v, v. by split_and!. }
  assert (∃ r x, (if mode =? MODE_STP then start_stp ES k id
      else if mode =? MODE_RSTP then start_rstp ES ER k id else mret 0) s = Some (r, x) ∧ sw_inv x ∧
    ((r = -1 ∧ ((mode = MODE_STP ∧ s_malloc_ok ES = false) ∨ (mode = MODE_RSTP ∧ malloc_ok ER = false)) ∧
      vlan_db x = vlan_db s) ∨
     (r = 0 ∧ ∃ v', vlan_db x !! k = Some v' ∧ v_vlan_id v' = u16 id ∧ v_bytes v' = v_bytes v ∧
       (mode = MODE_STP → is_Some (v_stp_instance v')) ∧ (mode = MODE_RSTP → is_Some (v_rstp_instance v')))))
    as (r & x & Ex & Hx & Hr).
  { destruct Hm as [-> | ->].
    - destruct (start_stp_ok ES s k v id Hs Hk Hid) as (r & x & Ex & Hx & Hr). exists r, x.
      split_and!; [done|done|]. destruct Hr as [(? & ? & ?)|(? & q & Hq)]; [left; auto|right]. split; [done|].
      eexists. split_and!; [done|done|done|by eexists|done].
    - destruct (start_rstp_ok ES ER s k v id Hs Hk Hid) as (r & x & Ex & Hx & Hr). exists r, x.
      split_and!; [done|done|]. destruct Hr as [(? & ? & ?)|(? & q & Hq)]; [left; auto|right]. split; [done|].
      eexists. split_and!; [done|done|done|done|by eexists]. }
  frun Ex. destruct Hr as [(-> & Hmem & Hd)|(-> & v1 & Hk1 & Hid1 & Hby & I1 & I2)].
  { exists (-1), x. split_and!; [done|done|]. left. auto. }
  change (0 <? 0) with false. cbv iota. rewrite (use_run x k v1 _ _ Hk1).
  assert (u8 mode = mode) as -> by by destruct Hm as [-> | ->].
  destruct (use_inv x k v1 mode Hx Hk1 I1 I2) as (Hy & Hky & Hrun). eexists 0, _. split_and!; [done|done|].
  right. split; [done|]. eexists v, _.
  split_and!; [by eapply list_elem_of_lookup_2|by eapply list_elem_of_lookup_2|done|done|done|by apply use_ports].
Qed.

(** ** Disabling a protocol *)

Lemma delete_inv s k v p :
  sw_inv s → vlan_db s !! k = Some v → v_stp_instance v = Some p → v_byte v stp_enabled = 0 →
  sw_inv (with_entry (mk_switch (vlan_db s) (stp_delete_stp_instance p (stp_w s)).1 (rstp_w s)) k
    (v <| v_stp_instance := None |>)).
Proof.
  intros Hs Hk Hp H0. destruct (inv_entry s k v Hs Hk) as ((_ & _ & E3 & E4) & _). destruct (E3 p Hp) as [Hin Hv].
  destruct Hs as (Hw & Hr & (Hd & Hb) & Hpt & Hu). split_and!; [|done|split| |].
  - eapply (world_reachable_step demo_senv); [|exact Hw]. by apply wcall_delete.
  - cbn. rewrite list_fmap_insert, list_insert_id; [done|]. by rewrite list_lookup_fmap, Hk.
  - intros y [->|Hy]%elem_of_insert_inv; [|by apply Hb]. apply (Hb v). by eapply list_elem_of_lookup_2.
  - intros y [j [(_ & <- & _)|[Hne Hj]]%list_lookup_insert_Some]%list_elem_of_lookup;
      [split; [intros ? Hn; discriminate Hn|exact E4]|].
    cbn in Hj. pose proof (list_elem_of_lookup_2 _ _ _ Hj) as Hy. destruct (Hpt y Hy) as [P1 P2]. split; [|done].
    intros q Hq. destruct (P1 q Hq) as [P3 P4]. assert (q ≠ p) as Hqp.
    { intros ->. apply Hne. eapply (list.NoDup_lookup _ _ _ _ Hd); rewrite list_lookup_fmap; [by rewrite Hk|].
      rewrite Hj. cbn. by rewrite <- P4, Hv. }
    cbn. split; [by apply list_elem_of_filter|]. by rewrite fn_lookup_insert_ne.
  - apply Forall_insert; [done|]. intros Hen. by destruct Hen.
Qed.

(** The entry after the first step: the VLAN uses no protocol. *)
Lemma off_inv s k v :
  sw_inv s → vlan_db s !! k = Some v →
  let v0 := set_v_byte stp_enabled 0 v in
  sw_inv (with_entry s k v0) ∧ vlan_db (with_entry s k v0) !! k = Some v0 ∧ v_byte v0 stp_enabled = 0.
Proof.
  intros Hs Hk. cbv zeta. destruct (inv_entry s k v Hs Hk) as (He & _ & _ & Hl).
  assert (v_byte (set_v_byte stp_enabled 0 v) stp_enabled = 0) as H0 by (by rewrite set_byte_get by done).
  split_and!; [|by eapply entry_lookup|done].
  eapply entry_inv; [done|done|by apply byte_entry_ok|]. by intros Hen.
Qed.

(** The case in which [stp_delete_stp_instance] is called with NULL. *)
Definition disable_faults s id mode : Prop :=
  ∃ v, v ∈ vlan_db s ∧ v_vlan_id v = u16 id ∧ v_byte v stp_enabled ≠ 0 ∧ mode = MODE_STP ∧ v_stp_instance v = None.

Lemma same_vlan s k v y :
  sw_inv s → vlan_db s !! k = Some v → y ∈ vlan_db s → v_vlan_id y = v_vlan_id v → y = v.
Proof.
  intros (_ & _ & (Hd & _) & _) Hk [j Hj]%list_elem_of_lookup He. assert (j = k) as ->; [|congruence].
  eapply (list.NoDup_lookup _ _ _ _ Hd); rewrite list_lookup_fmap; [by rewrite Hj|]. rewrite Hk. cbn. by rewrite He.
Qed.

Lemma rstp_off_inv s k v :
  sw_inv s → vlan_db s !! k = Some v → v_byte v stp_enabled = 0 →
  sw_inv (with_entry s k (v <| v_rstp_instance := None |>)).
Proof.
  intros Hs Hk H0. destruct (inv_entry s k v Hs Hk) as ((_ & _ & E3 & _) & _ & _ & _).
  eapply entry_inv; [done|done| |].
  - split_and!; [done|done|done|]. intros q Hq. discriminate Hq.
  - intros Hen. by destruct Hen.
Qed.

(** Back from the rapid protocol to the spanning tree, if the VLAN has an instance of it. *)
Lemma rstp_disable_ok ES s k v :
  sw_inv s → vlan_db s !! k = Some v → v_byte v stp_enabled = 0 →
  ∃ x v', (upd_vlan k (λ v, v <| v_rstp_instance := None |>);;
      match v_stp_instance v with
      | None => mret 0
      | Some _ =>
          upd_vlan k (set_v_byte stp_enabled 1);;
          upd_vlan k (set_v_byte stp_mode MODE_STP);;
          all_egress_ports k (call_stp_create_port ES (v_stp_instance v));;
          call_stp (v_stp_instance v) (stp_set_state ES 1);;
          mret 0
      end) s = Some (0, x) ∧ sw_inv x ∧
    v' ∈ vlan_db x ∧ v_vlan_id v' = v_vlan_id v ∧ (v_byte v' stp_enabled = 0 ∨ runs v' MODE_STP).
Proof.
  intros Hs Hk H0. frun (upd_vlan_run s k v (λ v, v <| v_rstp_instance := None |>) Hk).
  pose proof (rstp_off_inv s k v Hs Hk H0) as Hs1.
  pose proof (entry_lookup s k v (v <| v_rstp_instance := None |>) Hk) as Hk1.
  set (v1 := v <| v_rstp_instance := None |>) in *. set (s1 := with_entry s k v1) in *.
  destruct (v_stp_instance v) as [q|] eqn:Hq.
  2: { exists s1, v1. split_and!; [done|done|by eapply list_elem_of_lookup_2|done|by left]. }
  rewrite (use_run s1 k v1 _ _ Hk1).
  destruct (use_inv s1 k v1 MODE_STP Hs1 Hk1) as (Hs2 & Hk2 & Hr2); [by exists q|done|].
  destruct (inv_entry s k v Hs Hk) as ((_ & _ & Hpt & _) & _). destruct (Hpt q Hq) as [Hqin _].
  destruct (egress_ports_ok ES k _ _ q Hs2 Hk2 Hqin) as (s3 & E3 & Hs3 & D3 & L3 & _). frun E3.
  destruct (set_state_ok ES s3 q 1) as (s4 & E4 & Hs4 & D4 & _); [done|by rewrite L3|]. frun E4.
  exists s4. eexists. split_and!; [done|done|rewrite D4, D3; by eapply list_elem_of_lookup_2|done|by right].
Qed.

Lemma disable_ok ES s id mode :
  sw_inv s →
  (disable_faults s id mode ∧ vlan_spanning_tree_disable_on_vlan ES id mode s = None) ∨
  (¬ disable_faults s id mode ∧
   ∃ r x, vlan_spanning_tree_disable_on_vlan ES id mode s = Some (r, x) ∧ sw_inv x ∧
     ((r = -1 ∧ x = s ∧ ∀ v, v ∈ vlan_db s → v_vlan_id v ≠ u16 id) ∨
      (r = 0 ∧ ∃ v, v ∈ vlan_db x ∧ v_vlan_id v = u16 id ∧
        (v_byte v stp_enabled = 0 ∨ (mode = MODE_RSTP ∧ runs v MODE_STP))))).
Proof.
  intros Hs. unfold vlan_spanning_tree_disable_on_vlan.
  destruct (get_vlan_entry_run id s) as (p & Ep & Hp). frun Ep. destruct p as [k|].
  2: { right. split; [by intros (v & Hv & Hid & _); apply (Hp v)|]. exists (-1), s. split_and!; [done|done|]. by left. }
  destruct Hp as (v & Hk & Hid). frun (vlan_at_run k s v Hk).
  pose proof (list_elem_of_lookup_2 _ _ _ Hk) as Hin.
  assert (∀ y, y ∈ vlan_db s → v_vlan_id y = u16 id → y = v) as Huniq.
  { intros y Hy Hyid. eapply same_vlan; [done|done|done|by rewrite Hyid]. }
  destruct (tst (v_byte v stp_enabled)) eqn:Hen; cbn [negb].
  2: { apply tst_false in Hen. right. split.
       - intros (y & Hy & Hyid & Hyen & _). by rewrite (Huniq y) in Hyen.
       - exists 0, s. split_and!; [done|done|]. right. split; [done|]. exists v. split_and!; [done|done|by left]. }
  apply tst_true in Hen. frun (upd_vlan_run s k v (set_v_byte stp_enabled 0) Hk).
  destruct (off_inv s k v Hs Hk) as (Hs0 & Hk0 & H0). set (v0 := set_v_byte stp_enabled 0 v) in *.
  set (s0 := with_entry s k v0) in *. destruct (Z.eqb_spec mode MODE_STP) as [->|Hm1].
  { destruct (v_stp_instance v) as [q|] eqn:Hq.
    2: { left. split; [|done]. by exists v. }
    right. split. { intros (y & Hy & Hyid & _ & _ & Hyn). rewrite (Huniq y) in Hyn by done. congruence. }
    rewrite (fbind_run (gets stp_w) _ s0 _ _ eq_refl). unfold stp_delete_stp_instance.
    rewrite (fbind_run (set_stp _) _ s0 _ _ eq_refl). erewrite fbind_run by by apply upd_vlan_run.
    eexists 0, _. split_and!; [done|exact (delete_inv s0 k v0 q Hs0 Hk0 Hq H0)|]. right. split; [done|].
    exists (v0 <| v_stp_instance := None |>). split_and!; [|done|by left].
    eapply list_elem_of_lookup_2. by eapply (entry_lookup (mk_switch (vlan_db s0) _ (rstp_w s0)) k v0). }
  right. split. { by intros (y & _ & _ & _ & ? & _). }
  destruct (Z.eqb_spec mode MODE_RSTP) as [->|Hm2].
  2: { exists 0, s0. split_and!; [done|done|]. right. split; [done|]. exists v0.
       split_and!; [by eapply list_elem_of_lookup_2|done|by left]. }
  destruct (rstp_disable_ok ES s0 k v0 Hs0 Hk0 H0) as (x & v' & Ex & Hx & Hv' & Hid' & Hc).
  exists 0, x. split_and!; [exact Ex|done|]. right. split; [done|]. exists v'.
  split_and!; [done|by rewrite Hid'|]. destruct Hc; auto.
Qed.

(** ** The table of the VLANs *)

Lemma create_vlan_ok mem id s :
  sw_inv s →
  ∃ r x, vlan_create_vlan mem id s = Some (r, x) ∧ sw_inv x ∧
    ((r = 0 ∧ 1 ≤ u16 id ≤ 4096 ∧ ∃ v, v ∈ vlan_db x ∧ v_vlan_id v = u16 id) ∨
     (r = -1 ∧ x = s ∧ (mem = false ∨ ¬ 1 ≤ u16 id ≤ 4096))).
Proof.
  intros Hs. unfold vlan_create_vlan. destruct (get_vlan_entry_run id s) as (p & Ep & Hp). frun Ep.
  destruct (VLAN_IS_NOT_IN_RANGE (u16 id)) eqn:Hr; unfold VLAN_IS_NOT_IN_RANGE in Hr.
  { exists (-1), s. split_and!; [done|done|]. right. split_and!; [done|done|right].
    apply orb_true_iff in Hr as [?%Z.leb_le|?%Z.gtb_lt]; lia. }
  apply orb_false_iff in Hr as [R1%Z.leb_gt R2]. rewrite Z.gtb_ltb in R2. apply Z.ltb_ge in R2.
  destruct p as [k|].
  { exists 0, s. split_and!; [done|done|]. left. split_and!; [done|lia|lia|]. destruct Hp as (v & Hk & Hid).
    exists v. split; [by eapply list_elem_of_lookup_2|done]. }
  destruct mem; [|by exists (-1), s; split_and!; [..|right; split_and!; [..|left]]].
  eexists 0, _. split_and!; [done| |].
  2: { left. split_and!; [done|lia|lia|]. eexists. split; [cbn; apply elem_of_app; right; by left|done]. }
  destruct Hs as (Hw & Hrw & (Hd & Hb) & Hpt & Hu). split_and!; [done|done|split| |]; cbn.
  - rewrite fmap_app. apply list.NoDup_app. split_and!; [done| |apply NoDup_singleton].
    intros j (v & -> & Hv)%list_elem_of_fmap Hj%list_elem_of_singleton. by apply (Hp v Hv).
  - intros v [Hv| ->%list_elem_of_singleton]%elem_of_app; [by apply Hb|]. cbn. split; [lia|done].
  - intros v [Hv| ->%list_elem_of_singleton]%elem_of_app; [by apply Hpt|]. done.
  - apply list.Forall_app. split; [done|]. by constructor.
Qed.

(** The port lists do not reach the bytes of the spanning tree. *)
Lemma port_byte_range o p : 1 ≤ p ≤ 12 → o ≤ port_byte o p ≤ o + 1.
Proof.
  intros Hp. unfold port_byte, MAX_BITS_PER_BYTE. rewrite Z.quot_div_nonneg by lia.
  assert (0 ≤ (p - 1) / 8 < 2) by (split; [apply Z.div_pos; lia|apply Z.div_lt_upper_bound; lia]). lia.
Qed.

Definition same_protocol v v' : Prop :=
  v_vlan_id v' = v_vlan_id v ∧ v_byte v' stp_enabled = v_byte v stp_enabled ∧
  v_byte v' stp_mode = v_byte v stp_mode ∧
  v_stp_instance v' = v_stp_instance v ∧ v_rstp_instance v' = v_rstp_instance v.

Lemma port_list_inv s k v o b :
  sw_inv s → vlan_db s !! k = Some v → 0 ≤ o ≤ 3 →
  sw_inv (with_entry s k (set_v_byte o b v)) ∧ same_protocol v (set_v_byte o b v).
Proof.
  intros Hs Hk Ho. destruct (inv_entry s k v Hs Hk) as (He & Hu & _ & Hl).
  assert (same_protocol v (set_v_byte o b v)) as (S1 & S2 & S3 & S4 & S5).
  { unfold same_protocol. rewrite !set_byte_get by (done || unfold stp_enabled, stp_mode; lia).
    rewrite !decide_False by (unfold stp_enabled, stp_mode; lia). by split_and!. }
  split; [|by split_and!]. eapply entry_inv; [done|done|by apply byte_entry_ok|].
  intros Hen. rewrite S3, S4, S5. apply Hu. by rewrite <- S2.
Qed.

Lemma on_port_list_ok op s k v port type :
  op = SET_PORT_LIST ∨ op = RESET_PORT_LIST → sw_inv s → vlan_db s !! k = Some v → 1 ≤ port ≤ 12 →
  ∃ x v', on_port_list op k port type s = Some (tt, x) ∧ sw_inv x ∧ vlan_db x !! k = Some v' ∧
    stp_w x = stp_w s ∧ same_protocol v v'.
Proof.
  intros Hop Hs Hk Hp. unfold on_port_list. frun (vlan_at_run k s v Hk).
  destruct (inv_entry s k v Hs Hk) as (_ & _ & _ & Hl).
  assert (∀ o, 0 ≤ o ≤ 2 → ∃ b, op o port v = Some (set_v_byte (port_byte o port) b v)) as Hset.
  { intros o Ho. pose proof (port_byte_range o port Hp). destruct (arr (v_bytes v) (port_byte o port)) as [b|] eqn:E.
    - destruct Hop as [-> | ->]; [unfold SET_PORT_LIST|unfold RESET_PORT_LIST]; rewrite E; by eexists.
    - rewrite arr_lookup in E by lia. apply lookup_ge_None in E. lia. }
  assert (∀ o, 0 ≤ o ≤ 2 → ∃ x v', (v' ← of_option (op o port v); set_vlan_at k v') s = Some (tt, x) ∧ sw_inv x ∧
    vlan_db x !! k = Some v' ∧ stp_w x = stp_w s ∧ same_protocol v v') as Hrun.
  { intros o Ho. destruct (Hset o Ho) as [b Hb]. fopt Hb. pose proof (port_byte_range o port Hp).
    destruct (port_list_inv s k v (port_byte o port) b Hs Hk) as [Hx Hsame]; [lia|].
    eexists _, _. split_and!; [done|exact Hx|by eapply entry_lookup|done|done]. }
  destruct (type =? TAGGED); [by apply Hrun|]. destruct (type =? UNTAGGED); [by apply Hrun|].
  exists s, v. by split_and!.
Qed.

Lemma create_stp_port_ok ES s k v port :
  sw_inv s → vlan_db s !! k = Some v → 1 ≤ port ≤ 12 →
  let null := s_malloc_ok ES = true ∧ v_byte v stp_mode = MODE_STP ∧ v_stp_instance v = None in
  (null ∧ vlan_create_stp_port ES k port s = None) ∨
  (¬ null ∧ ∃ r x, vlan_create_stp_port ES k port s = Some (r, x) ∧ sw_inv x).
Proof.
  intros Hs Hk Hp. cbv zeta. unfold vlan_create_stp_port. frun (vlan_at_run k s v Hk).
  destruct (Z.eqb_spec (v_byte v stp_mode) MODE_STP) as [Hm|Hm].
  2: { right. split; [by intros (_ & ? & _)|]. by exists 0, s. }
  destruct (v_stp_instance v) as [q|] eqn:Hq.
  - right. split; [by intros (_ & _ & ?)|]. destruct (inv_entry s k v Hs Hk) as ((_ & _ & Hpt & _) & _).
    destruct (Hpt q Hq) as [Hqin _]. destruct (create_port_ok ES s q port Hs Hqin Hp) as (r & y & Ey & Hy & _).
    frun Ey. destruct (r <? 0); by eexists _, y.
  - unfold call_stp_create_port. destruct (s_malloc_ok ES).
    + left. by split_and!.
    + right. split; [by intros (? & _)|]. by exists (-1), s.
Qed.

(** The case in which [stp_create_port] is called with NULL. *)
Definition add_port_faults (ES : stp_env) s id : Prop :=
  s_malloc_ok ES = true ∧
  ∃ v, v ∈ vlan_db s ∧ v_vlan_id v = u16 id ∧ v_byte v stp_mode = MODE_STP ∧ v_stp_instance v = None.

Lemma add_port_ok ES s id port type :
  sw_inv s → 1 ≤ port ≤ 12 →
  (add_port_faults ES s id ∧ vlan_add_port ES id port type s = None) ∨
  (¬ add_port_faults ES s id ∧
   ∃ r x, vlan_add_port ES id port type s = Some (r, x) ∧ sw_inv x ∧
     (r = 0 ∨ (r = -1 ∧ x = s ∧ ∀ v, v ∈ vlan_db s → v_vlan_id v ≠ u16 id))).
Proof.
  intros Hs Hp. unfold vlan_add_port. destruct (get_vlan_entry_run id s) as (p & Ep & Hf). frun Ep.
  destruct p as [k|].
  2: { right. split; [by intros (_ & v & Hv & Hid & _); apply (Hf v)|]. exists (-1), s. split_and!; [done|done|]. by right. }
  destruct Hf as (v & Hk & Hid). destruct (on_port_list_ok SET_PORT_LIST s k v port type) as
    (x & v' & Ex & Hx & Hk' & Hw & S1 & S2 & S3 & S4 & S5); [by left|done|done|done|]. frun Ex.
  assert (add_port_faults ES s id ↔ s_malloc_ok ES = true ∧ v_byte v' stp_mode = MODE_STP ∧ v_stp_instance v' = None) as Hiff.
  { rewrite S3, S4. split.
    - intros (Hm & y & Hy & Hyid & Hy1 & Hy2). by rewrite <- (same_vlan s k v y) by (done || by rewrite Hyid).
    - intros (Hm & H1 & H2). split; [done|]. exists v. split_and!; [by eapply list_elem_of_lookup_2|done..]. }
  rewrite Hiff. destruct (create_stp_port_ok ES x k v' port Hx Hk' Hp) as [[Hn E]|[Hn (r & y & E & Hy)]].
  - left. split; [done|]. unfold mbind, fsM_bind. by rewrite E.
  - right. split; [done|]. frun E. exists 0, y. auto.
Qed.

Lemma del_port_ok s id port type :
  sw_inv s → 1 ≤ port ≤ 12 → ∃ r x, vlan_del_port id port type s = Some (r, x) ∧ sw_inv x.
Proof.
  intros Hs Hp. unfold vlan_del_port. destruct (get_vlan_entry_run id s) as (p & Ep & Hf). frun Ep.
  destruct p as [k|]; [|by exists (-1), s]. destruct Hf as (v & Hk & Hid).
  destruct (on_port_list_ok RESET_PORT_LIST s k v port type) as (x & v' & Ex & Hx & _); [by right|done..|].
  frun Ex. by exists 0, x.
Qed.

(** ** Events and BPDUs *)

Lemma port_info_linked w l port k i :
  get_port_info_in w l port = Some (k, i) → k ∈ l ∧ i ∈ bs_bplist (bs (inst w k)).
Proof.
  induction l as [|j l IH]; cbn [get_port_info_in]; [done|].
  destruct (rstp_get_port_entry _ _) as [i'|] eqn:Hf.
  - intros [= -> ->]. split; [by left|]. unfold rstp_get_port_entry in Hf.
    by apply find_some in Hf as [Hi%list_elem_of_In _].
  - intros [Hk Hi]%IH. split; [by right|done].
Qed.

Lemma mode_run id s : ∃ m, vlan_get_this_bridge_stp_mode id s = Some (m, s).
Proof.
  unfold vlan_get_this_bridge_stp_mode. destruct (get_vlan_entry_run id s) as (p & Ep & Hf). frun Ep.
  destruct p as [k|]; [|by eexists]. destruct Hf as (v & Hk & _). frun (vlan_at_run k s v Hk). by eexists.
Qed.

(** The port of an event is one of the protocol of the VLAN. *)
Definition port_known s port id : Prop :=
  ∀ m, vlan_get_this_bridge_stp_mode id s = Some (m, s) →
    (m = MODE_STP → is_Some (stp_get_port_entry port (stp_w s))) ∧
    (m = MODE_RSTP → is_Some (rstp_get_port_info (rstp_w s) (u16 port))).

Lemma events_ok ES ER s port event id :
  sw_inv s → port_known s port id → ∃ x, stp_process_events ES ER port event id s = Some (0, x) ∧ sw_inv x.
Proof.
  intros Hs Hkn. unfold stp_process_events. destruct (mode_run id s) as [m Em]. frun Em.
  destruct (Hkn m Em) as [K1 K2].
  destruct (Z.eqb_spec m MODE_STP) as [Hm|_]; [destruct (K1 Hm) as [[k i] H1]|
    destruct (Z.eqb_spec m MODE_RSTP) as [Hm|_]; [destruct (K2 Hm) as [[k i] H2]|by exists s]].
  - rewrite (fbind_run (gets stp_w) _ s _ _ eq_refl). unfold stp_enable_or_disable_port. rewrite H1.
    apply port_entry_in_list in H1 as [Hk Hi].
    destruct (u8 event =? IF_UP); [|destruct (u8 event =? IF_DOWN)]; cbv iota beta;
      rewrite (fbind_run (set_stp _) _ s _ _ eq_refl); eexists; (split; [done|]).
    + apply (inner_stp ES); [done|done|by apply StpInv.call_enable_port].
    + apply (inner_stp ES); [done|done|by apply StpInv.call_disable_port].
    + by destruct s.
  - rewrite (fbind_run (gets rstp_w) _ s _ _ eq_refl). unfold rstp_enable_or_disable_port. rewrite H2.
    apply port_info_linked in H2 as [Hk Hi].
    destruct (u8 event =? IF_UP); [|destruct (u8 event =? IF_DOWN)]; cbn [mbind option_bind];
      (erewrite fbind_run by by apply of_option_run); cbv iota beta;
      rewrite (fbind_run (set_rstp _) _ s _ _ eq_refl); eexists; (split; [done|]).
    + apply inner_rstp; [done|done|by apply RstpInv.call_enable].
    + apply inner_rstp; [done|done|by apply RstpInv.call_disable].
    + by destruct s.
Qed.

Lemma bpdu_ok ES ER s bpdu pdu port id :
  sw_inv s → ∃ x, process_bpdu ES ER bpdu pdu port id s = Some (0, x) ∧ sw_inv x.
Proof.
  intros Hs. unfold process_bpdu. destruct (mode_run id s) as [m Em]. frun Em.
  destruct (m =? MODE_STP); [|destruct (m =? MODE_RSTP); [|by exists s]].
  - rewrite (fbind_run (gets stp_w) _ s _ _ eq_refl), (fbind_run (set_stp _) _ s _ _ eq_refl). eexists. split; [done|].
    unfold stp_process_bpdu. destruct (stp_get_port_entry _ _) as [[k i]|] eqn:E; [|by destruct s].
    apply port_entry_in_list in E as [Hk Hi]. pose proof (StpInv.call_bpdu ES (focus k (stp_w s)) i bpdu Hi) as Hc.
    unfold on_instance_r. destruct (process_stp_bpdu_on _ _ _ _) as [y r]. by apply (inner_stp ES).
  - rewrite (fbind_run (gets rstp_w) _ s _ _ eq_refl), (fbind_run (set_rstp _) _ s _ _ eq_refl). eexists. split; [done|].
    unfold rstp_process_bpdu. destruct (rstp_get_port_info _ _) as [[k i]|] eqn:E; [|by destruct s].
    apply port_info_linked in E as [Hk Hi]. apply inner_rstp; [done|done|by apply RstpInv.call_bpdu].
Qed.

End Switch.

(** ** The states of the switch *)

(** What happens in the switch.  Ports are numbered from 1 to [MAX_PORTS]; the last two are the timers and
    the commands of the two protocols. *)
Inductive sw_call {TS} `{TimerService TS} (s : switch TS) : switch TS → Prop :=
  | sw_create mem id r x : vlan_create_vlan mem id s = Some (r, x) → sw_call s x
  | sw_add_port ES id port type r x :
      1 ≤ port ≤ MAX_PORTS → vlan_add_port ES id port type s = Some (r, x) → sw_call s x
  | sw_del_port id port type r x :
      1 ≤ port ≤ MAX_PORTS → vlan_del_port id port type s = Some (r, x) → sw_call s x
  | sw_enable ES ER id mode r x :
      mode = MODE_STP ∨ mode = MODE_RSTP →
      vlan_spanning_tree_enable_on_vlan ES ER id mode s = Some (r, x) → sw_call s x
  | sw_disable ES id mode r x : vlan_spanning_tree_disable_on_vlan ES id mode s = Some (r, x) → sw_call s x
  | sw_event ES ER port event id r x :
      port_known s port id → stp_process_events ES ER port event id s = Some (r, x) → sw_call s x
  | sw_bpdu ES ER bpdu pdu port id r x : process_bpdu ES ER bpdu pdu port id s = Some (r, x) → sw_call s x
  | sw_stp ES k y :
      k ∈ stp_instance_head (stp_w s) → stp_call ES (focus k (stp_w s)) y →
      sw_call s (mk_switch (vlan_db s) (unfocus k y (stp_w s)) (rstp_w s))
  | sw_rstp k y :
      k ∈ bstp_list (rstp_w s) → rstp_call (inst (rstp_w s) k) y →
      sw_call s (mk_switch (vlan_db s) (stp_w s) (upd_inst k y (rstp_w s))).

(** The switch after it has started, before the first VLAN. *)
Definition sw_boot {TS} `{TimerService TS} (s : switch TS) : Prop :=
  vlan_db s = [] ∧ stp_instance_head (stp_w s) = [] ∧ (0 < wnext (stp_w s))%nat ∧
  StpTypes.fault (wmem (stp_w s)) = false ∧ rstp_w s = rworld0.

Definition sw_reachable {TS} `{TimerService TS} (s : switch TS) : Prop := ∃ s0, sw_boot s0 ∧ rtc sw_call s0 s.

Section Reachable.
Context {TS : Type} `{TimerService TS} `{!TimerAlloc TS}.

Implicit Types s x : switch TS.

Lemma boot_inv s : sw_boot s → sw_inv s.
Proof.
  intros (B1 & B2 & B3 & B4 & B5). unfold sw_inv. rewrite B1, B5. split_and!; [|by intros ? ?%elem_of_nil|split; [constructor|]|..|done].
  - exists (stp_w s). by split_and!; [..|apply rtc_refl].
  - by intros ? ?%elem_of_nil.
  - by intros ? ?%elem_of_nil.
Qed.

Lemma call_sw_inv s x : sw_call s x → sw_inv s → sw_inv x.
Proof.
  intros [] Hs; unfold MAX_PORTS in *.
  - destruct (create_vlan_ok mem id s Hs) as (? & ? & ? & ? & _). by simplify_eq.
  - destruct (add_port_ok ES s id port type Hs) as [[_ ?]|(_ & ? & ? & ? & ? & _)]; [done|by simplify_eq..].
  - destruct (del_port_ok s id port type Hs) as (? & ? & ? & ?); [done|]. by simplify_eq.
  - destruct (enable_ok ES ER s id mode Hs) as (? & ? & ? & ? & _); [done|]. by simplify_eq.
  - destruct (disable_ok ES s id mode Hs) as [[_ ?]|(_ & ? & ? & ? & ? & _)]; by simplify_eq.
  - destruct (events_ok ES ER s port event id Hs) as (? & ? & ?); [done|]. by simplify_eq.
  - destruct (bpdu_ok ES ER s bpdu pdu port id Hs) as (? & ? & ?). by simplify_eq.
  - by apply (inner_stp ES).
  - by apply inner_rstp.
Qed.

Lemma sw_reachable_inv s : sw_reachable s → sw_inv s.
Proof.
  intros (s0 & H0%boot_inv & Hr). induction Hr as [|x y z Hxy _ IH]; [done|]. eauto using call_sw_inv.
Qed.

Lemma sw_reachable_call s x : sw_reachable s → sw_call s x → sw_reachable x.
Proof. intros (s0 & H0 & Hr) Hc. exists s0. split; [done|]. by eapply rtc_r. Qed.




(** Adding a port to a VLAN dereferences a NULL pointer exactly if the VLAN was last used by
    the spanning tree and has no instance of it any more. *)
Theorem vlan_add_port_faults ES s id port type :
  sw_reachable s → 1 ≤ port ≤ MAX_PORTS →
  vlan_add_port ES id port type s = None ↔ add_port_faults ES s id.
Proof.
  intros Hs%sw_reachable_inv Hp. destruct (add_port_ok ES s id port type Hs Hp) as [[Hf E]|(Hf & r & x & E & _)];
    by rewrite E.
Qed.

(** The default VLAN with the first ports. *)
Lemma add_ports_reachable ES n : ∀ i id s x,
  0 ≤ i → i + Z.of_nat n ≤ MAX_PORTS → add_ports ES n i id s = Some (tt, x) → rtc sw_call s x.
Proof.
  induction n as [|n IH]; intros i id s x Hi Hn; cbn [add_ports].
  - intros [= ->]. apply rtc_refl.
  - intros (r & y & Ey & Ex)%fbind_inv. eapply rtc_l; [by apply (sw_add_port s ES id (i + 1) TAGGED r y); [lia|]|].
    apply (IH (i + 1) id); [lia|lia|done].
Qed.

Lemma twelve_ports v p :
  take 4 (v_bytes v) = [255; 15; 0; ROW_STATE_CREATE_WAIT] → 1 ≤ p ≤ MAX_PORTS →
  IS_PORT_SET_PORT_LIST egress_ports p v = Some true.
Proof.
  intros Hb Hp. unfold IS_PORT_SET_PORT_LIST. destruct (v_bytes v) as [|a [|b l]]; [done..|]. injection Hb as -> -> _.
  assert (p ∈ [1; 2; 3; 4; 5; 6; 7; 8; 9; 10; 11; 12]) as Hin.
  { apply (elem_of_seqZ 1 12). unfold MAX_PORTS in Hp. lia. }
  repeat (apply elem_of_cons in Hin as [->|Hin]; [by vm_compute|]). by apply elem_of_nil in Hin.
Qed.

(** The switch starts with the default VLAN, which has all twelve ports and uses the spanning
    tree with an instance of its own. *)
Theorem vlan_init_spec ES ER pool s :
  sw_boot s → 0 ≤ pool → s_malloc_ok ES = true →
  ∃ x v k, vlan_init ES ER pool true s = Some (0, x) ∧ sw_reachable x ∧
    v ∈ vlan_db x ∧ v_vlan_id v = VLAN_DEFAULT_VLAN_ID ∧ runs v MODE_STP ∧
    (∀ p, 1 ≤ p ≤ MAX_PORTS → IS_PORT_SET_PORT_LIST egress_ports p v = Some true) ∧
    v_stp_instance v = Some k ∧ br_vlan_id (winst (stp_w x) k) = VLAN_DEFAULT_VLAN_ID.
Proof.
  intros Hb Hpool Hm. pose proof Hb as (B1 & _ & _ & _ & _). destruct s as [db w rw]. cbn in B1. subst db.
  unfold vlan_init. rewrite (fbind_run (modify _) _ _ _ _ eq_refl), (proj2 (Z.ltb_ge _ _) Hpool).
  set (v0 b c := mk_vlan 1 [b; c; 0; ROW_STATE_CREATE_WAIT; 0; 0] None None).
  assert (vlan_create_vlan true VLAN_DEFAULT_VLAN_ID (mk_switch [] w rw) = Some (0, mk_switch [v0 0 0] w rw)) as E1 by done.
  assert (add_ports ES (Z.to_nat MAX_PORTS) 0 VLAN_DEFAULT_VLAN_ID (mk_switch [v0 0 0] w rw) =
    Some (tt, mk_switch [v0 255 15] w rw)) as E2 by by vm_compute.
  assert (sw_reachable (mk_switch [v0 255 15] w rw)) as H2.
  { exists (mk_switch [] w rw). split; [done|]. eapply rtc_l; [by eapply sw_create|].
    by eapply (add_ports_reachable ES (Z.to_nat MAX_PORTS) 0); [..|exact E2]. }
  destruct (enable_ok ES ER _ VLAN_DEFAULT_VLAN_ID MODE_STP (sw_reachable_inv _ H2)) as (r & x & E3 & Hx & Hr); [by left|].
  destruct Hr as [(_ & _ & Hr)|(-> & u & v & Hu0 & Hv & _ & Hid & Hrun & Hsame)].
  { exfalso. destruct Hr as [Hr|[[_ ?]|[? _]]]; [|congruence|done]. by apply (Hr (v0 255 15)); [left|]. }
  pose proof Hx as (_ & _ & _ & Hp & Hu). rewrite list.Forall_forall in Hu. destruct (Hp v Hv) as [P1 _].
  destruct (Hu v Hv (proj1 Hrun)) as [[k Hk] _]; [apply Hrun|]. destruct (P1 k Hk) as [_ P2].
  assert (sw_reachable x) as Hre.
  { apply (sw_reachable_call _ x H2), (sw_enable _ ES ER VLAN_DEFAULT_VLAN_ID MODE_STP 0 x); [by left|exact E3]. }
  exists x, v, k. split_and!; [|done|done|done|done| |done|by rewrite P2].
  2: { intros p. apply twelve_ports. apply list_elem_of_singleton in Hu0. by subst u. }
  assert (vlan_create_default_vlan ES ER true VLAN_DEFAULT_VLAN_ID (mk_switch [] w rw) = Some (0, x)) as E.
  { unfold vlan_create_default_vlan. frun E1. change (0 <? 0) with false. cbv iota. frun E2. by frun E3. }
  cbn [stp_w rstp_w]. by frun E.
Qed.

End Reachable.

(** ** A run

    The VLAN 5 with the port 1: the spanning tree is enabled and the port goes on to learning; then the
    spanning tree is disabled and the rapid protocol enabled. *)

Definition demo_boot : switch clock := mk_switch [] demo_w0 rworld0.

(** The state after an operation. *)
Definition after {A} (o : option (A * switch clock)) : switch clock :=
  match o with Some (_, x) => x | None => demo_boot end.

Definition demo_vlan : switch clock :=
  after (vlan_add_port demo_senv 5 1 TAGGED (after (vlan_create_vlan true 5 demo_boot))).
Definition demo_stp : switch clock :=
  after (vlan_spanning_tree_enable_on_vlan demo_senv demo_env 5 MODE_STP demo_vlan).
Definition demo_learns : switch clock :=
  mk_switch (vlan_db demo_stp)
    (unfocus 1 (stp_forward_delay_timer_expired demo_senv 0 (focus 1 (stp_w demo_stp))) (stp_w demo_stp))
    (rstp_w demo_stp).
Definition demo_off : switch clock :=
  after (vlan_spanning_tree_disable_on_vlan demo_senv 5 MODE_STP demo_learns).
Definition demo_rapid : switch clock :=
  after (vlan_spanning_tree_enable_on_vlan demo_senv demo_env 5 MODE_RSTP demo_off).

(** The entry of the VLAN. *)
Definition demo_entry (s : switch clock) : vlan_static_entry := nth 0 (vlan_db s) (mk_vlan 0 [] None None).

Lemma after_reachable {A} (o : option (A * switch clock)) s :
  match o with Some _ => true | None => false end = true → (∀ a x, o = Some (a, x) → sw_call s x) → sw_reachable s → sw_reachable (after o).
Proof. destruct o as [[a x]|]; [|done]. intros _ Hc Hs. eapply sw_reachable_call; [done|]. by eapply Hc. Qed.

Lemma demo_entry_in s : length (vlan_db s) = 1%nat → demo_entry s ∈ vlan_db s.
Proof. unfold demo_entry. destruct (vlan_db s); [done|]. intros _. by left. Qed.

Lemma demo_boot_ok : sw_boot demo_boot.
Proof. split_and!; [done|done|cbn; lia|done|done]. Qed.

Lemma demo_stp_reachable : sw_reachable demo_stp.
Proof.
  eapply after_reachable; [by vm_compute|intros; eapply sw_enable; [by left|done]|].
  eapply after_reachable; [by vm_compute|intros; eapply sw_add_port; [|done]; unfold MAX_PORTS; lia|].
  eapply after_reachable; [by vm_compute|intros; by eapply sw_create|].
  exists demo_boot. split; [apply demo_boot_ok|constructor].
Qed.

Lemma demo_learns_reachable : sw_reachable demo_learns.
Proof.
  eapply sw_reachable_call; [apply demo_stp_reachable|]. apply (sw_stp _ demo_senv).
  - apply in_port_list. by vm_compute.
  - apply call_forward_delay, in_port_list. by vm_compute.
Qed.

Lemma demo_off_reachable : sw_reachable demo_off.
Proof.
  eapply after_reachable; [by vm_compute|intros; by eapply sw_disable|]. apply demo_learns_reachable.
Qed.

Lemma demo_rapid_reachable : sw_reachable demo_rapid.
Proof.
  eapply after_reachable; [by vm_compute|intros; eapply sw_enable; [by right|done]|]. apply demo_off_reachable.
Qed.




(** A port is added after [no spanning-tree]. *)
Lemma vlan_add_port_faults_witness : vlan_add_port demo_senv 5 2 TAGGED demo_off = None.
Proof.
  apply (vlan_add_port_faults demo_senv demo_off 5 2 TAGGED); [apply demo_off_reachable|unfold MAX_PORTS; lia|].
  split; [reflexivity|]. exists (demo_entry demo_off). split_and!; [apply demo_entry_in| | |]; by vm_compute.
Defined.

Lemma vlan_init_spec_witness :
  ∃ x v k, vlan_init demo_senv demo_env 0 true demo_boot = Some (0, x) ∧ v_stp_instance v = Some k ∧
    br_vlan_id (winst (stp_w x) k) = VLAN_DEFAULT_VLAN_ID.
Proof.
  destruct (vlan_init_spec demo_senv demo_env 0 demo_boot) as (x & v & k & E & _ & _ & _ & _ & _ & E1 & E2);
    [apply demo_boot_ok|lia|reflexivity|]. exists x, v, k. split_and!; [exact E|exact E1|exact E2].
Defined.

(** The port 9 among the untagged ports is kept in the row status, which changes from 4 to 5. *)
Lemma port_list_spec_witness :
  ∃ v', SET_PORT_LIST untagged_ports 9 (mk_vlan 5 [0; 0; 0; 4; 0; 0] None None) = Some v' ∧
    IS_PORT_SET_PORT_LIST row_status 1 v' = Some true.
Proof.
  destruct (port_list_spec untagged_ports 9 row_status 1 (mk_vlan 5 [0; 0; 0; 4; 0; 0] None None))
    as (v' & _ & E & _ & Hs & _); [lia|lia|by vm_compute|by vm_compute|by eexists|].
  exists v'. split; [exact E|]. exact Hs.
Defined.
