(* ===== verification/MsgQueue.v ===== *)
(** * Message queues: src/src/lib/msg_queue.c

    Ten queues, each a list of blocks of a memory pool that hold a pointer to a message.  The functions
    run under the mutex of the queue and are taken as atomic; a receiver that has to wait for a
    message gets [None].  The theorems say that a queue is a bounded first-in first-out
    queue, with a bound that is not the one asked for. *)

From stdpp Require Import gmap.
From S2P Require Import Prelude Fault PoolIface.

(** ** Data *)

Definition MAX_MSG_Q := 10.
Definition MQ_FREE := 1.
Definition MQ_ACTIVE := 2.

(** The size of [struct msg]: two pointers of the list and the pointer to the message. *)
Definition SIZEOF_MSG := 24.

(** [struct Q] without the name, the mutex and the condition. *)
Record Q := mk_Q {
  q_max_msg : Z;
  q_size : Z;
  q_mpool_id : Z;
  q_flags : Z;
  q_msg_list : list Z
}.

Definition eta_Q (q : Q) : Q := mk_Q (q_max_msg q) (q_size q) (q_mpool_id q) (q_flags q) (q_msg_list q).

#[export] Instance set_q_max_msg : Settable q_max_msg := ltac:(mk_setter eta_Q).
#[export] Instance set_q_size : Settable q_size := ltac:(mk_setter eta_Q).
#[export] Instance set_q_mpool_id : Settable q_mpool_id := ltac:(mk_setter eta_Q).
#[export] Instance set_q_flags : Settable q_flags := ltac:(mk_setter eta_Q).
#[export] Instance set_q_msg_list : Settable q_msg_list := ltac:(mk_setter eta_Q).

(** The array [Queue], the field [msg] of the blocks, and the pools. *)
Record queues (P : Type) := mk_queues { Queue : list Q; q_mem : gmap Z Z; q_pools : P }.
Arguments mk_queues {P}.
Arguments Queue {P}.
Arguments q_mem {P}.
Arguments q_pools {P}.

(** ** Operations *)

Section Operations.
Context {P : Type} `{!BlockPool P}.

Local Abbreviation M := (fsM (queues P)).

Definition in_pools {A} (x : fsM P A) : M A := zoom q_pools (λ p s, mk_queues (Queue s) (q_mem s) p) x.

Definition get_Q (qid : Z) : M Q := l ← gets Queue; of_option (arr l qid).
Definition set_Q (qid : Z) (q : Q) : M unit :=
  modify (λ s, mk_queues (<[Z.to_nat qid := q]> (Queue s)) (q_mem s) (q_pools s)).
Definition set_msg (p m : Z) : M unit :=
  modify (λ s, mk_queues (Queue s) (<[p := m]> (q_mem s)) (q_pools s)).

(** The loop of [get_qid]: the free queue with the largest index below [n]. *)
Fixpoint free_qid (n : nat) : M Z :=
  match n with
  | O => mret (-1)
  | S n =>
      q ← get_Q (Z.of_nat n);
      if q_flags q =? MQ_FREE then mret (Z.of_nat n) else free_qid n
  end.

Definition get_qid : M Z := free_qid (Z.to_nat MAX_MSG_Q).

Definition msg_Q_init : M Z :=
  modify (λ s, mk_queues ((λ _, mk_Q 0 0 (-1) MQ_FREE []) <$> Queue s) (q_mem s) (q_pools s));;
  mret 0.

(** [rq] are the answers of [calloc] to the creation of the pool. *)
Definition msg_create_Q (rq : Z → Z → request) (maxmsg size : Z) : M Z :=
  qid ← get_qid;
  if qid <? 0 then mret (-1)
  else
    id ← in_pools (bp_create (rq (u64 (maxmsg * SIZEOF_MSG)) SIZEOF_MSG));
    q ← get_Q qid;
    set_Q qid (q <| q_mpool_id := id |>);;
    if id <? 0 then mret (-1)
    else
      q ← get_Q qid;
      set_Q qid (q <| q_max_msg := maxmsg |> <| q_size := size |> <| q_flags := MQ_ACTIVE |>);;
      mret qid.

(** [None]: the caller waits. *)
Definition msg_rcv (qid : Z) : M (option Z) :=
  q ← get_Q qid;
  match q_msg_list q with
  | [] => mret None
  | p :: l =>
      mem ← gets q_mem;
      m ← of_option (mem !! p);
      set_Q qid (q <| q_msg_list := l |>);;
      in_pools (bp_free (q_mpool_id q) p);;
      mret (Some m)
  end.

Definition msg_send (qid m : Z) : M Z :=
  q ← get_Q qid;
  p ← in_pools (bp_alloc (q_mpool_id q));
  (if p =? 0 then mret tt
   else
     set_msg p m;;
     set_Q qid (q <| q_msg_list := q_msg_list q ++ [p] |>));;
  mret 0.

End Operations.

(** ** The queues as bounded first-in first-out queues *)

Section Fifo.
Context {P : Type} `{!BlockPool P} `{!BlockPoolLaws P}.

Implicit Types (s x : queues P) (q : Q).

(** A queue in use: its blocks are blocks in use of its pool with a message each, and the blocks of the
    pool are those of the queue and the free ones. *)
Definition queue_ok s q : Prop :=
  bp_has (q_pools s) (q_mpool_id q) ∧ NoDup (q_msg_list q) ∧
  (∀ p, p ∈ q_msg_list q → bp_used (q_pools s) (q_mpool_id q) p ∧ is_Some (q_mem s !! p)) ∧
  (∀ p, bp_used (q_pools s) (q_mpool_id q) p → p ∈ q_msg_list q) ∧
  Z.of_nat (length (q_msg_list q)) + bp_room (q_pools s) (q_mpool_id q) = SIZEOF_MSG ∧
  0 ≤ bp_room (q_pools s) (q_mpool_id q).

Definition active (q : Q) : Prop := q_flags q = MQ_ACTIVE.

Definition qs_ok s : Prop :=
  bp_inv (q_pools s) ∧ length (Queue s) = Z.to_nat MAX_MSG_Q ∧
  (∀ i q, Queue s !! i = Some q → (q_flags q = MQ_FREE ∧ q_msg_list q = []) ∨ (active q ∧ queue_ok s q)) ∧
  (∀ i j q q', Queue s !! i = Some q → Queue s !! j = Some q' → active q → active q' →
     q_mpool_id q = q_mpool_id q' → i = j).

(** The messages of a queue, and of the queues in use. *)
Definition contents s q : list Z := (λ p, default 0 (q_mem s !! p)) <$> q_msg_list q.

Definition view s (qid : Z) : option (list Z) :=
  match arr (Queue s) qid with
  | Some q => if q_flags q =? MQ_ACTIVE then Some (contents s q) else None
  | None => None
  end.

(** ** Lemmas *)

Lemma view_some s qid l :
  view s qid = Some l ↔
  ∃ i q, qid = Z.of_nat i ∧ Queue s !! i = Some q ∧ active q ∧ l = contents s q.
Proof.
  unfold view. split.
  - destruct (arr (Queue s) qid) as [q|] eqn:E; [|done]. destruct (Z.eqb_spec (q_flags q) MQ_ACTIVE); [|done].
    intros [= <-]. pose proof (arr_some _ _ _ E). rewrite arr_lookup in E by lia. exists (Z.to_nat qid), q.
    by rewrite Z2Nat.id by lia.
  - intros (i & q & -> & Hi & Ha & ->). rewrite arr_nat, Hi. unfold active in Ha. by rewrite Ha.
Qed.

Lemma active_ok s i q : qs_ok s → Queue s !! i = Some q → active q → queue_ok s q.
Proof. intros (_ & _ & S3 & _) Hi Ha. unfold active in Ha. destruct (S3 i q Hi) as [[F _]|[_ Hq]]; [by rewrite F in Ha|done]. Qed.

(** What a queue depends on. *)
Lemma queue_frame s x q :
  bp_has (q_pools x) (q_mpool_id q) → (∀ p, bp_used (q_pools x) (q_mpool_id q) p ↔ bp_used (q_pools s) (q_mpool_id q) p) →
  bp_room (q_pools x) (q_mpool_id q) = bp_room (q_pools s) (q_mpool_id q) →
  (∀ p, p ∈ q_msg_list q → q_mem x !! p = q_mem s !! p) →
  queue_ok s q → queue_ok x q ∧ contents x q = contents s q.
Proof.
  intros Hh Hu Hr Hm (Q1 & Q2 & Q3 & Q4 & Q5 & Q6). split.
  - split_and!; [done|done| | |by rewrite Hr|by rewrite Hr].
    + intros p Hp. rewrite Hu, Hm by done. by apply Q3.
    + intros p Hp. by apply Q4, Hu.
  - apply list_fmap_ext. intros j p Hj. rewrite Hm; [done|]. by eapply list_elem_of_lookup_2.
Qed.

(** The queue at [i] has become [q'], and the others are as they were. *)
Lemma qs_update s x i q q' :
  qs_ok s → Queue s !! i = Some q → Queue x = <[i := q']> (Queue s) → bp_inv (q_pools x) →
  (q_flags q' = MQ_FREE ∧ q_msg_list q' = []) ∨ (active q' ∧ queue_ok x q') →
  (∀ j q2, Queue s !! j = Some q2 → j ≠ i → active q2 → queue_ok s q2 →
     (active q' → q_mpool_id q2 ≠ q_mpool_id q') ∧ queue_ok x q2 ∧ contents x q2 = contents s q2) →
  qs_ok x ∧ ∀ j, view x j =
    if j =? Z.of_nat i then (if q_flags q' =? MQ_ACTIVE then Some (contents x q') else None) else view s j.
Proof.
  intros Hs Hi Hx Hp Hq Ho. pose proof (active_ok s) as Hact. pose proof Hs as (S1 & S2 & S3 & S4). split.
  - split_and!; [done|by rewrite Hx, length_insert| |].
    + intros j q2. rewrite Hx. intros [(-> & <- & _)|[Hne Hj]]%list_lookup_insert_Some; [done|].
      destruct (S3 j q2 Hj) as [?|[? ?]]; [by left|right]. split; [done|]. by apply (Ho j).
    + intros j k q2 q3. rewrite Hx. intros [(-> & <- & _)|[Hne Hj]]%list_lookup_insert_Some
        [(-> & <- & _)|[Hne' Hk]]%list_lookup_insert_Some A2 A3 He; [done|..].
      * destruct (Ho k q3) as [Hid _]; [done|done|done|by eapply Hact|]. by destruct (Hid A2).
      * destruct (Ho j q2) as [Hid _]; [done|done|done|by eapply Hact|]. by destruct (Hid A3).
      * by eapply S4.
  - intros j. unfold view at 1. rewrite Hx. destruct (Z.eqb_spec j (Z.of_nat i)) as [->|Hne].
    + by rewrite arr_nat, list_lookup_insert_eq by by eapply lookup_lt_Some.
    + unfold view. destruct (decide (0 ≤ j)) as [Hj|Hj].
      2: { unfold arr. by rewrite (proj2 (Z.ltb_lt _ _)) by lia. }
      rewrite !arr_lookup, list_lookup_insert_ne by lia. destruct (Queue s !! Z.to_nat j) as [q2|] eqn:E; [|done].
      destruct (Z.eqb_spec (q_flags q2) MQ_ACTIVE) as [A2|]; [|done]. f_equal.
      apply (Ho (Z.to_nat j)); [done|lia|done|by eapply Hact].
Qed.

(** Another block of the pool of the queue is in use, or one less. *)
Lemma others_taken s x i q p :
  qs_ok s → Queue s !! i = Some q → active q → bp_inv (q_pools x) →
  taken (q_pools s) (q_pools x) (q_mpool_id q) p ∨ taken (q_pools x) (q_pools s) (q_mpool_id q) p →
  (∀ a, a ≠ p → q_mem x !! a = q_mem s !! a) →
  ∀ j q2, Queue s !! j = Some q2 → j ≠ i → active q2 → queue_ok s q2 →
    (active q → q_mpool_id q2 ≠ q_mpool_id q) ∧ queue_ok x q2 ∧ contents x q2 = contents s q2.
Proof.
  intros (S1 & S2 & S3 & S4) Hi Ha Hp Ht Hm j q2 Hj Hne A2 Hq2.
  assert (q_mpool_id q2 ≠ q_mpool_id q) as Hid by (intros He; apply Hne; by eapply S4). split; [done|].
  pose proof Hq2 as (Q1 & _ & Q3 & _).
  destruct Ht as [(_ & _ & T3 & T4 & T5)|(_ & _ & T3 & T4 & T5)]; apply queue_frame; [..|done| | | | |done].
  - by apply T4.
  - intros a. rewrite T3. naive_solver.
  - rewrite T5, (proj2 (Z.eqb_neq _ _)) by done. lia.
  - intros a Haq. apply Hm. intros ->. apply Hid.
    eapply (bp_used_inj (q_pools x)); [done|apply T3; left; by apply Q3|apply T3; by right].
  - by apply T4.
  - intros a. rewrite T3. naive_solver.
  - rewrite T5, (proj2 (Z.eqb_neq _ _)) by done. lia.
  - intros a Haq. apply Hm. intros ->. apply Hid.
    eapply (bp_used_inj (q_pools s)); [done|by apply Q3|apply T3; by right].
Qed.

Lemma get_Q_run s i q : Queue s !! i = Some q → get_Q (Z.of_nat i) s = Some (q, s).
Proof.
  intros Hi. unfold get_Q. rewrite (fbind_run (gets Queue) _ s _ _ eq_refl). apply of_option_run. by rewrite arr_nat.
Qed.

Lemma set_Q_run s i q :
  set_Q (Z.of_nat i) q s = Some (tt, mk_queues (<[i := q]> (Queue s)) (q_mem s) (q_pools s)).
Proof. unfold set_Q. by rewrite Nat2Z.id. Qed.

(** The pools that belong to no queue are as they were. *)
Definition foreign s id : Prop := ∀ q, q ∈ Queue s → active q → q_mpool_id q ≠ id.

Definition untouched s x : Prop :=
  (∀ id, foreign s id → foreign x id) ∧ (∀ id, bp_has (q_pools x) id ↔ bp_has (q_pools s) id) ∧
  ∀ id, foreign s id →
    (∀ a, bp_used (q_pools x) id a ↔ bp_used (q_pools s) id a) ∧ bp_room (q_pools x) id = bp_room (q_pools s) id.

Lemma untouched_taken s x i q q' p :
  Queue s !! i = Some q → active q → Queue x = <[i := q']> (Queue s) → q_mpool_id q' = q_mpool_id q →
  taken (q_pools s) (q_pools x) (q_mpool_id q) p ∨ taken (q_pools x) (q_pools s) (q_mpool_id q) p → untouched s x.
Proof.
  intros Hi Ha Hx Hq Ht. split_and!; [| |].
  { intros id Hid q2. rewrite Hx. intros [j [(_ & <- & _)|[_ Hj]]%list_lookup_insert_Some]%list_elem_of_lookup A2.
    - rewrite Hq. apply Hid; [by eapply list_elem_of_lookup_2|done].
    - apply Hid; [by eapply list_elem_of_lookup_2|done]. }
  { destruct Ht as [(_ & _ & _ & T & _)|(_ & _ & _ & T & _)]; by intros. }
  intros id Hid.
  assert (id ≠ q_mpool_id q) as Hne.
  { intros ->. apply (Hid q); [by eapply list_elem_of_lookup_2|done|done]. }
  destruct Ht as [(_ & _ & T3 & _ & T5)|(_ & _ & T3 & _ & T5)]; split.
  - intros a. rewrite T3. naive_solver.
  - rewrite T5, (proj2 (Z.eqb_neq _ _)) by done. lia.
  - intros a. rewrite T3. naive_solver.
  - rewrite T5, (proj2 (Z.eqb_neq _ _)) by done. lia.
Qed.

(** ** Sending, receiving, creating *)

(** The queue with a new block at its end. *)
Lemma push_ok s x q p m :
  queue_ok s q → taken (q_pools s) (q_pools x) (q_mpool_id q) p → q_mem x = <[p := m]> (q_mem s) →
  0 < bp_room (q_pools s) (q_mpool_id q) →
  let q' := q <| q_msg_list := q_msg_list q ++ [p] |> in
  queue_ok x q' ∧ contents x q' = contents s q ++ [m].
Proof.
  intros (Q1 & Q2 & Q3 & Q4 & Q5 & Q6) (T1 & T2 & T3 & T4 & T5) Hm Hr. cbv zeta.
  assert (p ∉ q_msg_list q) as Hnew by (intros Hin; apply T2; by apply Q3).
  split; [split_and!; cbn|].
  - by apply T4.
  - apply list.NoDup_app. split_and!; [done| |apply NoDup_singleton]. intros a Hin ->%list_elem_of_singleton. done.
  - intros a [Hin| ->%list_elem_of_singleton]%elem_of_app; rewrite Hm.
    + destruct (Q3 a Hin) as [U M]. split; [apply T3; by left|]. by rewrite lookup_insert_ne by (by intros ->).
    + split; [apply T3; by right|]. by rewrite lookup_insert_eq.
  - intros a [U|[_ ->]]%T3; apply elem_of_app; [left; by apply Q4|right; by apply list_elem_of_singleton].
  - rewrite length_app, T5, Z.eqb_refl. cbn. lia.
  - rewrite T5, Z.eqb_refl. lia.
  - unfold contents. cbn. rewrite fmap_app, Hm. f_equal; [|cbn; by rewrite lookup_insert_eq].
    apply list_fmap_ext. intros k a Hk. rewrite lookup_insert_ne; [done|]. intros ->. apply Hnew.
    by eapply list_elem_of_lookup_2.
Qed.

Lemma send_ok s i q m :
  qs_ok s → Queue s !! i = Some q → active q →
  ∃ x, msg_send (Z.of_nat i) m s = Some (0, x) ∧ qs_ok x ∧ untouched s x ∧
    ∀ j, view x j = if j =? Z.of_nat i then
       Some (if Z.of_nat (length (contents s q)) <? SIZEOF_MSG then contents s q ++ [m] else contents s q) else view s j.
Proof.
  intros Hs Hi Ha. pose proof (active_ok s i q Hs Hi Ha) as Hq. pose proof Hq as (Q1 & _ & _ & _ & Q5 & Q6).
  unfold msg_send. frun (get_Q_run s i q Hi). unfold contents at 1. rewrite length_fmap.
  destruct (bp_alloc_law (q_pools s) (q_mpool_id q) (proj1 Hs) Q1) as [[Hr E]|(Hr & p & p' & E & Hp' & Ht)];
    erewrite fbind_run by by apply zoom_run.
  - cbn [Z.eqb]. exists s. split_and!; [by destruct s|done|done|].
    intros j. destruct (Z.eqb_spec j (Z.of_nat i)) as [->|]; [|done]. rewrite (proj2 (Z.ltb_ge _ _)) by lia.
    apply view_some. by exists i, q.
  - rewrite (proj2 (Z.eqb_neq _ _)) by apply Ht. erewrite fbind_run.
    2: { rewrite (fbind_run (set_msg p m) _ _ _ _ eq_refl). apply set_Q_run. }
    eexists. split; [done|]. set (x := mk_queues _ _ _).
    destruct (push_ok s x q p m Hq Ht eq_refl Hr) as [Hq' Hc]. set (q' := q <| q_msg_list := _ |>) in *.
    destruct (qs_update s x i q q') as [Hx Hv]; [done|done|done|done|by right| |].
    { apply (others_taken s x i q p); [done|done|done|done|by left|]. intros a Hne. cbn. by rewrite lookup_insert_ne. }
    split_and!; [done|apply (untouched_taken s x i q q' p); [done|done|done|done|by left]|].
    intros j. rewrite Hv. change (q_flags q' =? MQ_ACTIVE) with (q_flags q =? MQ_ACTIVE).
    rewrite (proj2 (Z.eqb_eq _ _) Ha), Hc. by rewrite (proj2 (Z.ltb_lt _ _)) by lia.
Qed.

(** The queue without its first block. *)
Lemma pop_ok s x q p l :
  queue_ok s q → q_msg_list q = p :: l → taken (q_pools x) (q_pools s) (q_mpool_id q) p → q_mem x = q_mem s →
  let q' := q <| q_msg_list := l |> in
  queue_ok x q' ∧ contents s q = default 0 (q_mem s !! p) :: contents x q'.
Proof.
  intros (Q1 & Q2 & Q3 & Q4 & Q5 & Q6) Hl (T1 & T2 & T3 & T4 & T5) Hm. cbv zeta.
  rewrite Hl in *. apply list.NoDup_cons in Q2 as [Hnew Q2].
  split; [split_and!; cbn|].
  - by apply T4.
  - done.
  - intros a Hin. destruct (Q3 a) as [U M]; [by right|]. rewrite Hm. split; [|done].
    apply T3 in U as [U|[_ ->]]; [done|by destruct Hnew].
  - intros a U. assert (bp_used (q_pools s) (q_mpool_id q) a) as U' by (apply T3; by left).
    apply Q4 in U'. apply elem_of_cons in U' as [->|]; [by destruct T2|done].
  - cbn in Q5. rewrite T5, Z.eqb_refl in Q5. lia.
  - rewrite T5, Z.eqb_refl in Q6. lia.
  - unfold contents. cbn. by rewrite Hl, Hm.
Qed.

Lemma rcv_ok s i q :
  qs_ok s → Queue s !! i = Some q → active q →
  match contents s q with
  | [] => msg_rcv (Z.of_nat i) s = Some (None, s)
  | m :: l =>
      ∃ x, msg_rcv (Z.of_nat i) s = Some (Some m, x) ∧ qs_ok x ∧ untouched s x ∧
        ∀ j, view x j = if j =? Z.of_nat i then Some l else view s j
  end.
Proof.
  intros Hs Hi Ha. pose proof (active_ok s i q Hs Hi Ha) as Hq. pose proof Hq as (Q1 & _ & Q3 & _).
  destruct (q_msg_list q) as [|p l] eqn:Hl.
  { unfold contents. rewrite Hl. cbn. unfold msg_rcv. frun (get_Q_run s i q Hi). by rewrite Hl. }
  destruct (Q3 p) as [Hu [m Hm]]; [by left|].
  destruct (bp_free_law (q_pools s) (q_mpool_id q) p (proj1 Hs) Hu) as (p' & E & Hp' & Ht).
  set (q' := q <| q_msg_list := l |>). set (x := mk_queues (<[i := q']> (Queue s)) (q_mem s) p').
  destruct (pop_ok s x q p l Hq Hl Ht eq_refl) as [Hq' Hc]. rewrite Hc, Hm. cbn [default].
  destruct (qs_update s x i q q') as [Hx Hv]; [done|done|done|done|by right| |].
  { apply (others_taken s x i q p); [done|done|done|done|by right|done]. }
  exists x. split_and!; [|done|apply (untouched_taken s x i q q' p); [done|done|done|done|by right]| ].
  2: { intros j. rewrite Hv. change (q_flags q' =? MQ_ACTIVE) with (q_flags q =? MQ_ACTIVE).
       by rewrite (proj2 (Z.eqb_eq _ _) Ha). }
  unfold msg_rcv. frun (get_Q_run s i q Hi). rewrite Hl. rewrite (fbind_run (gets q_mem) _ s _ _ eq_refl). fopt Hm.
  frun (set_Q_run s i q'). by erewrite fbind_run by by apply zoom_run.
Qed.

Lemma free_qid_run n s :
  qs_ok s → (n ≤ Z.to_nat MAX_MSG_Q)%nat →
  (free_qid n s = Some (-1, s) ∧ ∀ i q, (i < n)%nat → Queue s !! i = Some q → active q) ∨
  ∃ i q, free_qid n s = Some (Z.of_nat i, s) ∧ Queue s !! i = Some q ∧ q_flags q = MQ_FREE ∧ q_msg_list q = [].
Proof.
  intros Hs. pose proof Hs as (_ & S2 & S3 & _). induction n as [|n IH]; intros Hn; [left; split; [done|lia]|].
  destruct (lookup_lt_is_Some_2 (Queue s) n) as [q Hq]; [lia|]. cbn [free_qid]. frun (get_Q_run s n q Hq).
  destruct (S3 n q Hq) as [[F L]|[A _]].
  - right. exists n, q. rewrite F. by split_and!.
  - unfold active in A. rewrite A. change (MQ_ACTIVE =? MQ_FREE) with false. cbv iota.
    destruct (IH ltac:(lia)) as [[E Hall]|?]; [left|by right]. split; [done|]. intros i q' Hi Hq'.
    destruct (decide (i = n)) as [->|]; [by simplify_eq|]. apply (Hall i); [lia|done].
Qed.

(** The pools after the creation of one more. *)
Lemma others_kept s x :
  q_mem x = q_mem s → (∀ id, bp_has (q_pools s) id → bp_has (q_pools x) id) →
  (∀ id a, bp_used (q_pools x) id a ↔ bp_used (q_pools s) id a) →
  (∀ id, bp_has (q_pools s) id → bp_room (q_pools x) id = bp_room (q_pools s) id) →
  ∀ q, queue_ok s q → queue_ok x q ∧ contents x q = contents s q.
Proof.
  intros Hm Hh Hu Hr q Hq. pose proof Hq as (Q1 & _). apply queue_frame; [auto|done|auto| |done]. by rewrite Hm.
Qed.

Lemma create_Q_ok rq maxmsg size s :
  qs_ok s → (∀ sz n, rq_n (rq sz n) = n) → bp_good (q_pools s) (rq (u64 (maxmsg * SIZEOF_MSG)) SIZEOF_MSG) →
  ∃ r x, msg_create_Q rq maxmsg size s = Some (r, x) ∧ qs_ok x ∧
    ((r = -1 ∧ ∀ j, view x j = view s j) ∨
     (0 ≤ r ∧ view s r = None ∧ ∀ j, view x j = if j =? r then Some [] else view s j)).
Proof.
  intros Hs Hn Hg. pose proof Hs as (S1 & S2 & S3 & S4). unfold msg_create_Q, get_qid.
  destruct (free_qid_run (Z.to_nat MAX_MSG_Q) s Hs) as [[E _]|(i & q & E & Hi & F & L)]; [done|..]; frun E.
  { exists (-1), s. split_and!; [done|done|]. by left. }
  rewrite (proj2 (Z.ltb_ge (Z.of_nat i) 0)) by lia.
  assert (view s (Z.of_nat i) = None) as Hv0 by (unfold view; by rewrite arr_nat, Hi, F).
  destruct (bp_create_law (q_pools s) _ S1 Hg) as (id & p' & Ec & Hp' & Hc).
  erewrite fbind_run by by apply zoom_run. frun (get_Q_run (mk_queues (Queue s) (q_mem s) p') i q Hi).
  frun (set_Q_run (mk_queues (Queue s) (q_mem s) p') i (q <| q_mpool_id := id |>)).
  destruct Hc as [(-> & C1 & C2 & C3)|Hc].
  { cbn [Z.ltb Z.compare]. eexists (-1), _. split; [done|]. set (x := mk_queues _ _ _).
    destruct (qs_update s x i q (q <| q_mpool_id := -1 |>)) as [Hx Hv]; [done|done|done|done|by left| |].
    { intros j q2 Hj Hne A2 Hq2. split; [by unfold active; cbn; rewrite F|]. apply others_kept; [done| |done|done|done].
      intros k. apply C1. }
    split; [done|]. left. split; [done|]. intros j. rewrite Hv. cbn. rewrite F.
    destruct (Z.eqb_spec j (Z.of_nat i)) as [->|]; [by rewrite Hv0|done]. }
  destruct Hc as (C0 & C1 & C2 & C3 & C4). rewrite (proj2 (Z.ltb_ge id 0)) by lia.
  erewrite fbind_run by (apply get_Q_run; cbn; apply list_lookup_insert_eq; by eapply lookup_lt_Some).
  erewrite fbind_run by apply set_Q_run. cbn [Queue q_mem q_pools]. rewrite list_insert_insert_eq.
  eexists (Z.of_nat i), _. split; [done|]. set (q' := set_fld q_flags _ _). set (x := mk_queues _ _ _).
  destruct (qs_update s x i q q') as [Hx Hv]; [done|done|done|done| | |].
  - right. split; [done|]. change (q_mpool_id q') with id. split_and!; cbn; rewrite ?L; [|constructor|set_solver| | |].
    + apply C2. by right.
    + intros a Ha%C3. destruct C1. by eapply bp_used_has.
    + by rewrite C4, Z.eqb_refl, Hn.
    + by rewrite C4, Z.eqb_refl, Hn.
  - intros j q2 Hj Hne A2 Hq2. pose proof Hq2 as (Q1 & _). assert (q_mpool_id q2 ≠ id) as Hid by (by intros <-).
    split; [done|]. apply others_kept; [done| |done| |done].
    + intros k Hk. apply C2. by left.
    + intros k Hk. cbn. rewrite C4, (proj2 (Z.eqb_neq _ _)); [done|]. by intros ->.
  - split; [done|]. right. split_and!; [lia|done|]. intros j. rewrite Hv. cbn. unfold contents. cbn. by rewrite L.
Qed.

(** C20: A queue is a first-in first-out queue of at most 24 messages, whatever number has been asked for:
    sending appends the message, or loses it when there are 24, and reports success in both
    cases; receiving takes the first message, or waits when there is none.  The other
    queues do not change, no block of a pool is lost, and no pointer is invalid. *)
Theorem msg_queue_fifo s qid l m :
  qs_ok s → view s qid = Some l →
  (∃ x, msg_send qid m s = Some (0, x) ∧ qs_ok x ∧
     ∀ j, view x j = if j =? qid then Some (if Z.of_nat (length l) <? SIZEOF_MSG then l ++ [m] else l) else view s j) ∧
  match l with
  | [] => msg_rcv qid s = Some (None, s)
  | m' :: l' => ∃ x, msg_rcv qid s = Some (Some m', x) ∧ qs_ok x ∧
      ∀ j, view x j = if j =? qid then Some l' else view s j
  end.
Proof.
  intros Hs (i & q & -> & Hi & Ha & ->)%view_some. split.
  - destruct (send_ok s i q m Hs Hi Ha) as (x & E & Hx & _ & Hv). by exists x.
  - pose proof (rcv_ok s i q Hs Hi Ha) as Hr. destruct (contents s q); [done|].
    destruct Hr as (x & E & Hx & _ & Hv). by exists x.
Qed.

(** A block of a pool that belongs to no queue is taken or given back. *)
Lemma qs_foreign s p' id a :
  qs_ok s → foreign s id → bp_inv p' → taken (q_pools s) p' id a ∨ taken p' (q_pools s) id a →
  let x := mk_queues (Queue s) (q_mem s) p' in
  qs_ok x ∧ (∀ j, view x j = view s j) ∧ foreign x id.
Proof.
  intros Hs Hf Hp Ht. cbv zeta. set (x := mk_queues _ _ _). pose proof Hs as (S1 & S2 & S3 & S4).
  assert (∀ i q, Queue s !! i = Some q → active q → queue_ok x q ∧ contents x q = contents s q) as Hq.
  { intros i q Hi Ha. pose proof (active_ok s i q Hs Hi Ha) as Hq. pose proof Hq as (Q1 & _).
    assert (q_mpool_id q ≠ id) as Hne by (apply Hf; [by eapply list_elem_of_lookup_2|done]).
    destruct Ht as [(_ & _ & T3 & T4 & T5)|(_ & _ & T3 & T4 & T5)]; apply queue_frame; try done; cbn.
    - by apply T4.
    - intros b. rewrite T3. naive_solver.
    - rewrite T5, (proj2 (Z.eqb_neq _ _)) by done. lia.
    - by apply T4.
    - intros b. rewrite T3. naive_solver.
    - rewrite T5, (proj2 (Z.eqb_neq _ _)) by done. lia. }
  split_and!; [split_and!; [done|done| |done]|done|done].
  intros i q Hi. destruct (S3 i q Hi) as [?|[Ha _]]; [by left|right]. split; [done|]. by eapply Hq.
Qed.

(** The queues at the start. *)
Lemma init_Q_ok s :
  bp_inv (q_pools s) → length (Queue s) = Z.to_nat MAX_MSG_Q →
  ∃ x, msg_Q_init s = Some (0, x) ∧ qs_ok x ∧ q_pools x = q_pools s ∧ ∀ j, view x j = None.
Proof.
  intros Hp Hl. eexists. split; [done|]. split_and!; [split_and!; [done|by cbn; rewrite length_fmap| |]|done|]; cbn.
  - intros i q Hi. apply list_lookup_fmap_Some in Hi as (q0 & -> & _). by left.
  - intros i j q q' Hi. apply list_lookup_fmap_Some in Hi as (q0 & -> & _). done.
  - intros j. unfold view. cbn. destruct (arr _ j) as [q|] eqn:E; [|done].
    pose proof (arr_some _ _ _ E). rewrite arr_lookup in E by lia.
    apply list_lookup_fmap_Some in E as (q0 & -> & _). done.
Qed.

End Fifo.
