(* ===== verification/StpMgr.v ===== *)
(** * The spanning tree manager: src/src/bridge/stpmgr_main.c

    The interface code posts BPDUs and link events to a message queue (MsgQueue.v); the task of the manager
    takes them from the queue and passes them to the protocol of the VLAN (Vlan.v).  The theorems say
    that the queue is transparent as long as it is not full, and that it leaks memory once it is. *)

From stdpp Require Import gmap.
From S2P Require Import Prelude RstpTypes Rstp RstpWorld TimerIface StpTypes Stp StpWorld Fault PoolIface Pool MsgQueue Vlan.
From S2P Require Import RstpInv StpInv VlanProps.

(** ** Data *)

Definition STP_MAX_MSG := 100.
Definition STP_MSG_TYPE_BPDU := 1.
Definition STP_MSG_TYPE_EVENTS := 2.

Record stp_msg := mk_msg { m_type : Z; m_port : Z; m_vlanid : Z; m_len : Z; m_msg : Z }.

Definition eta_msg (m : stp_msg) : stp_msg := mk_msg (m_type m) (m_port m) (m_vlanid m) (m_len m) (m_msg m).

#[export] Instance set_m_type : Settable m_type := ltac:(mk_setter eta_msg).
#[export] Instance set_m_port : Settable m_port := ltac:(mk_setter eta_msg).
#[export] Instance set_m_vlanid : Settable m_vlanid := ltac:(mk_setter eta_msg).
#[export] Instance set_m_len : Settable m_len := ltac:(mk_setter eta_msg).
#[export] Instance set_m_msg : Settable m_msg := ltac:(mk_setter eta_msg).

(** The size of the structure: four integers and a pointer. *)
Definition SIZEOF_STP_MSG := 24.

(** The queues and the pools, the messages and the received frames by address (a frame as the structure of
    either protocol), the variables of the manager, and the switch. *)
Record stpmgr (P TS : Type) := mk_mgr {
  mg_q : queues P;
  mg_msgs : gmap Z stp_msg;
  mg_pkts : gmap Z (STP_BPDU_T * bstp_cbpdu);
  stp_Q_pool_id : Z;
  stp_Q_id : Z;
  mg_sw : switch TS
}.
Arguments mk_mgr {P TS}.
Arguments mg_q {P TS}.
Arguments mg_msgs {P TS}.
Arguments mg_pkts {P TS}.
Arguments stp_Q_pool_id {P TS}.
Arguments stp_Q_id {P TS}.
Arguments mg_sw {P TS}.

Section Operations.
Context {P TS : Type} `{!BlockPool P} `{!TimerService TS} (ES : stp_env) (ER : rstp_env).

Local Abbreviation M := (fsM (stpmgr P TS)).

Definition on_q {A} (x : fsM (queues P) A) : M A :=
  zoom mg_q (λ q s, mk_mgr q (mg_msgs s) (mg_pkts s) (stp_Q_pool_id s) (stp_Q_id s) (mg_sw s)) x.

(** The frames and the switch. *)
Definition core (s : stpmgr P TS) : gmap Z (STP_BPDU_T * bstp_cbpdu) * switch TS := (mg_pkts s, mg_sw s).
Definition on_core {A} (x : fsM (gmap Z (STP_BPDU_T * bstp_cbpdu) * switch TS) A) : M A :=
  zoom core (λ c s, mk_mgr (mg_q s) (mg_msgs s) c.1 (stp_Q_pool_id s) (stp_Q_id s) c.2) x.

Definition set_stp_msg (p : Z) (m : stp_msg) : M unit :=
  modify (λ s, mk_mgr (mg_q s) (<[p := m]> (mg_msgs s)) (mg_pkts s) (stp_Q_pool_id s) (stp_Q_id s) (mg_sw s)).
(** [rq] and [rq'] are the answers of [calloc] to the creation of the two pools.  The task is started by
    [task_create]. *)
Definition stpmgr_init (rq rq' : Z → Z → request) : M Z :=
  id ← on_q (msg_create_Q rq STP_MAX_MSG SIZEOF_STP_MSG);
  modify (λ s, mk_mgr (mg_q s) (mg_msgs s) (mg_pkts s) (stp_Q_pool_id s) id (mg_sw s));;
  if id <? 0 then mret (-1)
  else
    pid ← on_q (in_pools (bp_create (rq' (STP_MAX_MSG * SIZEOF_STP_MSG) STP_MAX_MSG)));
    modify (λ s, mk_mgr (mg_q s) (mg_msgs s) (mg_pkts s) pid (stp_Q_id s) (mg_sw s));;
    if pid <? 0 then mret (-1) else mret 0.

(** What a block has in it before it is filled in; the memory of a new pool is zero. *)
Definition old_msg (p : Z) : M stp_msg := gets (λ s, default (mk_msg 0 0 0 0 0) (mg_msgs s !! p)).

Definition stp_rcv_bpdu (pkt port vlanid len : Z) : M Z :=
  id ← gets stp_Q_pool_id;
  p ← on_q (in_pools (bp_alloc id));
  if p =? 0 then mret (-1)
  else
    set_stp_msg p (mk_msg STP_MSG_TYPE_BPDU port vlanid len pkt);;
    qid ← gets stp_Q_id;
    on_q (msg_send qid p);;
    mret 0.

(** The event is kept in the pointer; the length is not set. *)
Definition stp_send_event (event port vlanid : Z) : M Z :=
  id ← gets stp_Q_pool_id;
  p ← on_q (in_pools (bp_alloc id));
  if p =? 0 then mret (-1)
  else
    m ← old_msg p;
    set_stp_msg p (m <| m_type := STP_MSG_TYPE_EVENTS |> <| m_port := port |> <| m_vlanid := vlanid |>
                     <| m_msg := u64 event |>);;
    qid ← gets stp_Q_id;
    on_q (msg_send qid p);;
    mret 0.

(** What the task does with a message; a frame is freed. *)
Definition on_sw {X A} (x : fsM (switch TS) A) : fsM (X * switch TS) A := zoom snd (λ w c, (c.1, w)) x.

Definition handle_msg (m : stp_msg) : fsM (gmap Z (STP_BPDU_T * bstp_cbpdu) * switch TS) unit :=
  if m_type m =? STP_MSG_TYPE_BPDU then
    pkts ← gets fst;
    pkt ← of_option (pkts !! m_msg m);
    on_sw (process_bpdu ES ER pkt.1 pkt.2 (m_port m) (m_vlanid m));;
    modify (λ c, (delete (m_msg m) c.1, c.2))
  else if m_type m =? STP_MSG_TYPE_EVENTS then
    on_sw (stp_process_events ES ER (m_port m) (u8 (m_msg m)) (m_vlanid m));;
    mret tt
  else mret tt.

(** One round of the loop of [stpmgr_task]; [false]: the task waits for a message. *)
Definition stpmgr_task_round : M bool :=
  qid ← gets stp_Q_id;
  r ← on_q (msg_rcv qid);
  match r with
  | None => mret false
  | Some p =>
      msgs ← gets mg_msgs;
      m ← of_option (msgs !! p);
      on_core (handle_msg m);;
      id ← gets stp_Q_pool_id;
      on_q (in_pools (bp_free id p));;
      mret true
  end.

(** The rounds until the task waits, at most [n]. *)
Fixpoint stpmgr_task (n : nat) : M unit :=
  match n with
  | O => mret tt
  | S n => b ← stpmgr_task_round; if (b : bool) then stpmgr_task n else mret tt
  end.

End Operations.

(** ** The manager as a queue of messages *)

Section Manager.
Context {P TS : Type} `{!BlockPool P} `{!BlockPoolLaws P} `{!TimerService TS} (ES : stp_env) (ER : rstp_env).

Implicit Types (s x : stpmgr P TS) (q : queues P).

Definition mpools s : P := q_pools (mg_q s).

(** The pointers in the queue, and the messages; the length is not used. *)
Definition pending s : list Z := default [] (view (mg_q s) (stp_Q_id s)).
Definition norm (m : stp_msg) : stp_msg := m <| m_len := 0 |>.
Definition jobs s : list stp_msg := (λ p, norm (default (mk_msg 0 0 0 0 0) (mg_msgs s !! p))) <$> pending s.

(** The messages of the queue are blocks in use of the pool of the manager, which is no pool of a queue. *)
Definition mgr_ok s : Prop :=
  qs_ok (mg_q s) ∧ is_Some (view (mg_q s) (stp_Q_id s)) ∧ foreign (mg_q s) (stp_Q_pool_id s) ∧
  bp_has (mpools s) (stp_Q_pool_id s) ∧ NoDup (pending s) ∧
  ∀ p, p ∈ pending s → bp_used (mpools s) (stp_Q_pool_id s) p ∧ is_Some (mg_msgs s !! p).

Definition room s : Z := bp_room (mpools s) (stp_Q_pool_id s).

(** The blocks that are in use and not in the queue. *)
Definition leaked s : Z := STP_MAX_MSG - room s - Z.of_nat (length (jobs s)).

(** A message that is posted. *)
Definition post_msg (m : stp_msg) : fsM (stpmgr P TS) Z :=
  if m_type m =? STP_MSG_TYPE_BPDU then stp_rcv_bpdu (m_msg m) (m_port m) (m_vlanid m) (m_len m)
  else stp_send_event (m_msg m) (m_port m) (m_vlanid m).

(** The messages handled one after the other. *)
Fixpoint handle_all (ms : list stp_msg) : fsM (gmap Z (STP_BPDU_T * bstp_cbpdu) * switch TS) unit :=
  match ms with
  | [] => mret tt
  | m :: ms => handle_msg ES ER m;; handle_all ms
  end.

Lemma view_pending s : mgr_ok s → view (mg_q s) (stp_Q_id s) = Some (pending s).
Proof. intros (_ & [l Hl] & _). unfold pending. by rewrite Hl. Qed.

Lemma jobs_length s : length (jobs s) = length (pending s).
Proof. apply length_fmap. Qed.

(** ** Posting *)

(** A block of the pool of the manager is filled in and sent to the queue. *)
Definition send_block (p : Z) (m : stp_msg) : fsM (stpmgr P TS) Z :=
  set_stp_msg p m;; qid ← gets stp_Q_id; on_q (msg_send qid p);; mret 0.

Definition with_q s q : stpmgr P TS := mk_mgr q (mg_msgs s) (mg_pkts s) (stp_Q_pool_id s) (stp_Q_id s) (mg_sw s).

Lemma send_block_ok s p' p m :
  mgr_ok s → bp_inv p' → taken (mpools s) p' (stp_Q_pool_id s) p →
  ∃ x, send_block p m (with_q s (mk_queues (Queue (mg_q s)) (q_mem (mg_q s)) p')) = Some (0, x) ∧
    mgr_ok x ∧ core x = core s ∧ room x = room s - 1 ∧
    jobs x = (if Z.of_nat (length (jobs s)) <? SIZEOF_MSG then jobs s ++ [norm m] else jobs s).
Proof.
  intros Hs Hp Ht. pose proof (view_pending s Hs) as Hv. pose proof Hs as (Hq & _ & Hf & Hh & Hnd & Hin).
  destruct (qs_foreign (mg_q s) p' _ p Hq Hf Hp (or_introl Ht)) as (Hq1 & Hv1 & Hf1).
  set (q1 := mk_queues _ _ p') in *. pose proof Ht as (T1 & T2 & T3 & T4 & T5).
  pose proof (eq_trans (Hv1 (stp_Q_id s)) Hv) as Hv2. apply view_some in Hv2 as (i & q & Hi & Hqi & Ha & Hl).
  destruct (send_ok q1 i q p Hq1 Hqi Ha) as (q2 & E & Hq2 & (U0 & U1 & U2) & V). rewrite <- Hl in V.
  destruct (U2 _ Hf1) as [U3 U4]. cbn [q_pools q1] in U3, U4.
  assert (p ∉ pending s) as Hnew by (intros Hp'; apply T2; by apply Hin).
  exists (mk_mgr q2 (<[p := m]> (mg_msgs s)) (mg_pkts s) (stp_Q_pool_id s) (stp_Q_id s) (mg_sw s)). split.
  { unfold send_block. rewrite (fbind_run (set_stp_msg p m) _ _ _ _ eq_refl).
    rewrite (fbind_run (gets stp_Q_id) _ _ _ _ eq_refl). cbn [stp_Q_id with_q]. rewrite Hi.
    by erewrite fbind_run by by apply zoom_run. }
  set (x := mk_mgr q2 _ _ _ _ _).
  assert (pending x = if Z.of_nat (length (pending s)) <? SIZEOF_MSG then pending s ++ [p] else pending s) as Hpd.
  { unfold pending at 1. cbn [mg_q stp_Q_id x]. by rewrite V, Hi, Z.eqb_refl. }
  split_and!; [split_and!| | |]; cbn [mg_q stp_Q_id stp_Q_pool_id x].
  - done.
  - rewrite V, Hi, Z.eqb_refl. by eexists.
  - by apply U0.
  - apply U1. cbn. by apply T4.
  - rewrite Hpd. case_match; [|done]. apply list.NoDup_app. split_and!; [done| |apply NoDup_singleton].
    by intros a Ha' ->%list_elem_of_singleton.
  - intros a Ha'. change (mpools x) with (q_pools q2). rewrite U3, T3. cbn [mg_msgs x].
    assert (a ∈ pending s ∨ a = p) as [Hap| ->].
    { rewrite Hpd in Ha'. case_match; [|by left]. apply elem_of_app in Ha' as [?|?%list_elem_of_singleton]; auto. }
    + destruct (Hin a Hap). split; [by left|]. by rewrite lookup_insert_ne by (by intros ->).
    + split; [by right|]. by rewrite lookup_insert_eq.
  - done.
  - unfold room. change (mpools x) with (q_pools q2). cbn [stp_Q_pool_id x]. rewrite U4, T5, Z.eqb_refl. done.
  - rewrite jobs_length. unfold jobs. rewrite Hpd. cbn [mg_msgs x].
    assert (∀ l, l = pending s → (λ a, norm (default (mk_msg 0 0 0 0 0) (<[p := m]> (mg_msgs s) !! a))) <$> l =
      (λ a, norm (default (mk_msg 0 0 0 0 0) (mg_msgs s !! a))) <$> l) as He.
    { intros l ->. apply list_fmap_ext. intros j a Hj. rewrite lookup_insert_ne; [done|]. intros ->. apply Hnew.
      by eapply list_elem_of_lookup_2. }
    case_match; [rewrite fmap_app|]; rewrite He by done; [|done]. f_equal. cbn. by rewrite lookup_insert_eq.
Qed.

(** The messages that are posted. *)
Definition postable (m : stp_msg) : Prop :=
  m_type m = STP_MSG_TYPE_BPDU ∨ (m_type m = STP_MSG_TYPE_EVENTS ∧ 0 ≤ m_msg m < 2 ^ 64).

Lemma alloc_q s r p' :
  bp_alloc (stp_Q_pool_id s) (mpools s) = Some (r, p') →
  on_q (in_pools (bp_alloc (stp_Q_pool_id s))) s =
    Some (r, with_q s (mk_queues (Queue (mg_q s)) (q_mem (mg_q s)) p')).
Proof.
  intros E. unfold on_q, in_pools, zoom. unfold mpools in E. by rewrite E.
Qed.

Lemma post_ok m s :
  mgr_ok s → postable m →
  (room s = 0 ∧ post_msg m s = Some (-1, s)) ∨
  (0 < room s ∧ ∃ x, post_msg m s = Some (0, x) ∧ mgr_ok x ∧ core x = core s ∧ room x = room s - 1 ∧
     jobs x = (if Z.of_nat (length (jobs s)) <? SIZEOF_MSG then jobs s ++ [norm m] else jobs s)).
Proof.
  intros Hs Hm. pose proof Hs as (Hq & _ & Hf & Hh & _).
  destruct (bp_alloc_law (mpools s) (stp_Q_pool_id s) (proj1 Hq) Hh) as [[Hr E]|(Hr & p & p' & E & Hp & Ht)];
    pose proof (alloc_q s _ _ E) as Ea; [left|right]; (split; [done|]).
  - assert (with_q s (mk_queues (Queue (mg_q s)) (q_mem (mg_q s)) (mpools s)) = s) as Hid by by destruct s as [[] ? ? ? ? ?].
    rewrite Hid in Ea. unfold post_msg, stp_rcv_bpdu, stp_send_event.
    destruct (m_type m =? STP_MSG_TYPE_BPDU); rewrite (fbind_run (gets stp_Q_pool_id) _ s _ _ eq_refl); by frun Ea.
  - set (s1 := with_q s _) in *. destruct Hm as [Hm|[Hm Hr']]; unfold post_msg; rewrite Hm.
    + destruct (send_block_ok s p' p (mk_msg STP_MSG_TYPE_BPDU (m_port m) (m_vlanid m) (m_len m) (m_msg m)) Hs Hp Ht)
        as (x & Ex & Hx). exists x. split.
      * change (STP_MSG_TYPE_BPDU =? STP_MSG_TYPE_BPDU) with true. unfold stp_rcv_bpdu. rewrite (fbind_run (gets stp_Q_pool_id) _ s _ _ eq_refl). frun Ea.
        rewrite (proj2 (Z.eqb_neq _ _)) by apply Ht. exact Ex.
      * destruct m. cbn in Hm. by subst.
    + set (o := default (mk_msg 0 0 0 0 0) (mg_msgs s1 !! p)).
      destruct (send_block_ok s p' p (o <| m_type := STP_MSG_TYPE_EVENTS |> <| m_port := m_port m |>
        <| m_vlanid := m_vlanid m |> <| m_msg := u64 (m_msg m) |>) Hs Hp Ht) as (x & Ex & Hx). exists x. split.
      * change (STP_MSG_TYPE_EVENTS =? STP_MSG_TYPE_BPDU) with false. unfold stp_send_event. rewrite (fbind_run (gets stp_Q_pool_id) _ s _ _ eq_refl). frun Ea.
        rewrite (proj2 (Z.eqb_neq _ _)) by apply Ht. rewrite (fbind_run (old_msg p) _ _ _ _ eq_refl). exact Ex.
      * assert (u64 (m_msg m) = m_msg m) as Hu by (unfold u64; by apply Z.mod_small).
        rewrite Hu in Hx. destruct m, o. cbn in Hm. by subst.
Qed.

(** ** The task *)

Lemma round_idle s : mgr_ok s → jobs s = [] → stpmgr_task_round ES ER s = Some (false, s).
Proof.
  intros Hs Hj. pose proof (view_pending s Hs) as Hv. pose proof Hs as (Hq & _).
  apply fmap_nil_inv in Hj. rewrite Hj in Hv. apply view_some in Hv as (i & q & Hi & Hqi & Ha & Hl).
  pose proof (rcv_ok (mg_q s) i q Hq Hqi Ha) as Hr. rewrite <- Hl in Hr. unfold stpmgr_task_round.
  rewrite (fbind_run (gets stp_Q_id) _ s _ _ eq_refl), Hi. erewrite fbind_run by by apply zoom_run. by destruct s.
Qed.

Lemma round_ok s j js c :
  mgr_ok s → jobs s = j :: js → handle_msg ES ER j (core s) = Some (tt, c) →
  ∃ x, stpmgr_task_round ES ER s = Some (true, x) ∧ mgr_ok x ∧ core x = c ∧ room x = room s + 1 ∧ jobs x = js.
Proof.
  intros Hs Hj Hc. pose proof (view_pending s Hs) as Hv. pose proof Hs as (Hq & _ & Hf & Hh & Hnd & Hin).
  unfold jobs in Hj. destruct (pending s) as [|p l] eqn:Hp; [done|]. injection Hj as Hj Hjs.
  destruct (Hin p) as [Hu [m Hm]]; [by left|]. rewrite Hm in Hj.
  apply view_some in Hv as (i & q & Hi & Hqi & Ha & Hl).
  pose proof (rcv_ok (mg_q s) i q Hq Hqi Ha) as Hr. rewrite <- Hl in Hr.
  destruct Hr as (q2 & E & Hq2 & (U0 & U1 & U2) & V). destruct (U2 _ Hf) as [U3 U4].
  destruct (bp_free_law (q_pools q2) (stp_Q_pool_id s) p (proj1 Hq2)) as (p' & Ef & Hp' & Ht); [by apply U3|].
  pose proof Ht as (_ & T2 & T3 & T4 & T5).
  destruct (qs_foreign q2 p' _ p Hq2 (U0 _ Hf) Hp' (or_intror Ht)) as (Hq3 & Hv3 & Hf3).
  set (q3 := mk_queues _ _ p') in *. apply list.NoDup_cons in Hnd as [Hpl Hnd].
  exists (mk_mgr q3 (mg_msgs s) c.1 (stp_Q_pool_id s) (stp_Q_id s) c.2). set (x := mk_mgr q3 _ _ _ _ _). split.
  { unfold stpmgr_task_round. rewrite (fbind_run (gets stp_Q_id) _ s _ _ eq_refl), Hi.
    erewrite fbind_run by by apply zoom_run. cbv iota beta. rewrite (fbind_run (gets mg_msgs) _ _ _ _ eq_refl). fopt Hm.
    erewrite fbind_run by (apply zoom_run; rewrite <- Hj in Hc; exact Hc).
    rewrite (fbind_run (gets stp_Q_pool_id) _ _ _ _ eq_refl). cbn [stp_Q_pool_id].
    erewrite fbind_run by (apply zoom_run; apply zoom_run; exact Ef). unfold x. by rewrite Hi. }
  assert (pending x = l) as Hpd.
  { unfold pending. cbn [mg_q stp_Q_id x]. by rewrite Hv3, V, Hi, Z.eqb_refl. }
  split_and!; [split_and!| | |]; cbn [mg_q stp_Q_id stp_Q_pool_id x].
  - done.
  - rewrite Hv3, V, Hi, Z.eqb_refl. by eexists.
  - done.
  - change (mpools x) with p'. apply T4, U1, Hh.
  - by rewrite Hpd.
  - rewrite Hpd. intros a Ha'. destruct (Hin a) as [Hua Hma]; [by right|]. split; [|done].
    apply U3, T3 in Hua as [?|[_ ->]]; [done|by destruct Hpl].
  - by destruct c.
  - unfold room. change (mpools x) with p'. cbn [stp_Q_pool_id x].
    change (bp_room (mpools s) (stp_Q_pool_id s)) with (bp_room (q_pools (mg_q s)) (stp_Q_pool_id s)).
    rewrite <- U4, T5, Z.eqb_refl. lia.
  - unfold jobs. by rewrite Hpd.
Qed.

Lemma drain_ok n : ∀ s c,
  mgr_ok s → handle_all (jobs s) (core s) = Some (tt, c) → (length (jobs s) < n)%nat →
  ∃ x, stpmgr_task ES ER n s = Some (tt, x) ∧ mgr_ok x ∧ core x = c ∧ jobs x = [] ∧
    room x = room s + Z.of_nat (length (jobs s)).
Proof.
  induction n as [|n IH]; intros s c Hs Hc Hn; [lia|]. cbn [stpmgr_task].
  destruct (jobs s) as [|j js] eqn:Hj.
  - frun (round_idle s Hs Hj). exists s. injection Hc as <-. split_and!; [done|done|done|done|cbn; lia].
  - cbn [handle_all] in Hc. apply fbind_inv in Hc as ([] & c1 & Hc1 & Hc).
    destruct (round_ok s j js c1 Hs Hj Hc1) as (x & Ex & Hx & Hcx & Hrx & Hjx). frun Ex. cbv iota.
    destruct (IH x c Hx) as (y & Ey & Hy & Hcy & Hjy & Hry); [by rewrite Hcx, Hjx|rewrite Hjx; cbn in Hn; lia|].
    exists y. split_and!; [done|done|done|done|]. rewrite Hry, Hrx, Hjx. cbn [length]. lia.
Qed.

Fixpoint post_all (ms : list stp_msg) : fsM (stpmgr P TS) unit :=
  match ms with
  | [] => mret tt
  | m :: ms => post_msg m;; post_all ms
  end.

Lemma post_all_ok ms : ∀ s,
  mgr_ok s → Forall postable ms → Z.of_nat (length (jobs s) + length ms) ≤ SIZEOF_MSG → Z.of_nat (length ms) ≤ room s →
  ∃ x, post_all ms s = Some (tt, x) ∧ mgr_ok x ∧ core x = core s ∧ jobs x = jobs s ++ (norm <$> ms) ∧
    room x = room s - Z.of_nat (length ms).
Proof.
  induction ms as [|m ms IH]; intros s Hs Hm Hn Hr.
  { exists s. split_and!; [done|done|done|by rewrite app_nil_r|cbn; lia]. }
  apply list.Forall_cons in Hm as [Hm Hms]. cbn [length] in *. cbn [post_all].
  destruct (post_ok m s Hs Hm) as [[H0 _]|(_ & x & Ex & Hx & Hcx & Hrx & Hjx)]; [lia|].
  rewrite (proj2 (Z.ltb_lt _ _)) in Hjx by lia. frun Ex.
  destruct (IH x Hx Hms) as (y & Ey & Hy & Hcy & Hjy & Hry); [rewrite Hjx, length_app; cbn; lia|lia|].
  exists y. split_and!; [done|done|by rewrite Hcy|by rewrite Hjy, Hjx, <- app_assoc|lia].
Qed.

(** C19: The queue between the interfaces and the task of the manager is transparent: up to 24 BPDUs and
    events that are posted to an idle manager, and then taken by the task, do to the switch and to
    the frames what handling them in order does, after which the queue is empty and no memory is lost. *)
Theorem stpmgr_transparent s ms c n :
  mgr_ok s → jobs s = [] → Forall postable ms → Z.of_nat (length ms) ≤ SIZEOF_MSG → Z.of_nat (length ms) ≤ room s →
  handle_all (norm <$> ms) (core s) = Some (tt, c) → (length ms < n)%nat →
  ∃ x, (post_all ms;; stpmgr_task ES ER n) s = Some (tt, x) ∧ mgr_ok x ∧ core x = c ∧ jobs x = [] ∧ room x = room s.
Proof.
  intros Hs Hj Hm Hn Hr Hc Hl. destruct (post_all_ok ms s) as (x & Ex & Hx & Hcx & Hjx & Hrx); [done|done|by rewrite Hj|done|].
  frun Ex. rewrite Hj in Hjx. cbn in Hjx.
  destruct (drain_ok n x c) as (y & Ey & Hy & Hcy & Hjy & Hry); [done|by rewrite Hjx, Hcx|by rewrite Hjx, length_fmap|].
  exists y. split_and!; [done|done|done|done|]. rewrite Hry, Hrx, Hjx, length_fmap. lia.
Qed.

Lemma round_fault s j js :
  mgr_ok s → jobs s = j :: js → handle_msg ES ER j (core s) = None → stpmgr_task_round ES ER s = None.
Proof.
  intros Hs Hj Hc. pose proof (view_pending s Hs) as Hv. pose proof Hs as (Hq & _ & _ & _ & _ & Hin).
  unfold jobs in Hj. destruct (pending s) as [|p l] eqn:Hp; [done|]. injection Hj as Hj Hjs.
  destruct (Hin p) as [_ [m Hm]]; [by left|]. rewrite Hm in Hj.
  apply view_some in Hv as (i & q & Hi & Hqi & Ha & Hl).
  pose proof (rcv_ok (mg_q s) i q Hq Hqi Ha) as Hr. rewrite <- Hl in Hr. destruct Hr as (q2 & E & _).
  unfold stpmgr_task_round. rewrite (fbind_run (gets stp_Q_id) _ s _ _ eq_refl), Hi.
  erewrite fbind_run by by apply zoom_run. cbv iota beta. rewrite (fbind_run (gets mg_msgs) _ _ _ _ eq_refl). fopt Hm.
  rewrite <- Hj in Hc. unfold mbind, fsM_bind, on_core, zoom.
  change (core _) with (core s). change (handle_msg ES ER m (core s) = None) in Hc. by rewrite Hc.
Qed.

(** Once 24 messages wait, posting another one reports success, loses the message and takes a block from the
    pool of the manager that no round of the task gives back: the number of the blocks that are in
    use without being in the queue grows with every such message and never falls. *)
Theorem stpmgr_full_queue_leaks s m :
  mgr_ok s → postable m →
  (Z.of_nat (length (jobs s)) = SIZEOF_MSG → 0 < room s →
     ∃ x, post_msg m s = Some (0, x) ∧ mgr_ok x ∧ jobs x = jobs s ∧ leaked x = leaked s + 1) ∧
  (∀ r x, post_msg m s = Some (r, x) → leaked s ≤ leaked x) ∧
  (∀ b x, stpmgr_task_round ES ER s = Some (b, x) → leaked x = leaked s).
Proof.
  intros Hs Hm. unfold leaked. split_and!.
  - intros Hn Hr. destruct (post_ok m s Hs Hm) as [[H0 _]|(_ & x & Ex & Hx & Hcx & Hrx & Hjx)]; [lia|].
    rewrite (proj2 (Z.ltb_ge _ _)) in Hjx by lia. exists x. split_and!; [done|done|done|]. rewrite Hrx, Hjx. lia.
  - intros r x E. destruct (post_ok m s Hs Hm) as [[_ E']|(_ & y & E' & _ & _ & Hr & Hj)]; rewrite E' in E; simplify_eq; [lia|].
    rewrite Hr, Hj. case_match; [rewrite length_app; cbn|]; lia.
  - intros b x E. destruct (jobs s) as [|j js] eqn:Hj.
    + rewrite (round_idle s Hs Hj) in E. simplify_eq. by rewrite Hj.
    + destruct (handle_msg ES ER j (core s)) as [[[] c]|] eqn:Hc; [|by rewrite (round_fault s j js) in E].
      destruct (round_ok s j js c Hs Hj Hc) as (y & Ey & _ & _ & Hry & Hjy). rewrite Ey in E. injection E as _ <-.
      rewrite Hry, Hjy. cbn [length]. lia.
Qed.

(** ** The start *)

Lemma qs_created q p' id n :
  qs_ok q → bp_inv p' → created (q_pools q) p' id n →
  let x := mk_queues (Queue q) (q_mem q) p' in qs_ok x ∧ (∀ j, view x j = view q j) ∧ foreign x id.
Proof.
  intros Hq Hp (C0 & C1 & C2 & C3 & C4). cbv zeta. set (x := mk_queues _ _ _). pose proof Hq as (S1 & S2 & S3 & S4).
  split_and!; [split_and!; [done|done| |done]|done|].
  - intros i y Hi. destruct (S3 i y Hi) as [?|[Ha Hy]]; [by left|right]. split; [done|].
    apply (others_kept q); [done| |done| |done].
    + intros k Hk. apply C2. by left.
    + intros k Hk. cbn. rewrite C4, (proj2 (Z.eqb_neq _ _)); [done|]. by intros ->.
  - intros y [i Hi]%list_elem_of_lookup Ha He. apply C1. rewrite <- He. by apply (active_ok q i).
Qed.

Lemma stpmgr_init_ok rq rq' s :
  qs_ok (mg_q s) → (∀ sz n, rq_n (rq sz n) = n) → (∀ sz n, rq_n (rq' sz n) = n) →
  bp_good (mpools s) (rq (u64 (STP_MAX_MSG * SIZEOF_MSG)) SIZEOF_MSG) →
  (∀ r q, msg_create_Q rq STP_MAX_MSG SIZEOF_STP_MSG (mg_q s) = Some (r, q) →
     bp_good (q_pools q) (rq' (STP_MAX_MSG * SIZEOF_STP_MSG) STP_MAX_MSG)) →
  ∃ r x, stpmgr_init rq rq' s = Some (r, x) ∧ (r = -1 ∨ r = 0) ∧
    (r = 0 → mgr_ok x ∧ jobs x = [] ∧ room x = STP_MAX_MSG ∧ core x = core s).
Proof.
  intros Hq Hn Hn' Hg Hg'. unfold stpmgr_init.
  destruct (create_Q_ok rq STP_MAX_MSG SIZEOF_STP_MSG (mg_q s) Hq Hn Hg) as (id & q & E & Hq1 & Hid).
  specialize (Hg' id q E). erewrite fbind_run by by apply zoom_run. rewrite (fbind_run (modify _) _ _ _ _ eq_refl).
  destruct Hid as [[-> _]|(Hid & _ & Hv)].
  { eexists (-1), _. split_and!; [done|by left|done]. }
  rewrite (proj2 (Z.ltb_ge id 0)) by lia.
  destruct (bp_create_law (q_pools q) _ (proj1 Hq1) Hg') as (pid & p' & Ec & Hp & Hc).
  erewrite fbind_run by by apply zoom_run, zoom_run. rewrite (fbind_run (modify _) _ _ _ _ eq_refl).
  destruct Hc as [[-> _]|Hc].
  { eexists (-1), _. split_and!; [done|by left|done]. }
  destruct (qs_created q p' pid _ Hq1 Hp Hc) as (Hq2 & Hv2 & Hf). destruct Hc as (C0 & C1 & C2 & C3 & C4).
  rewrite (proj2 (Z.ltb_ge pid 0)) by lia. eexists 0, _. split_and!; [done|by right|]. intros _.
  set (x := mk_mgr _ _ _ _ _ _).
  assert (view (mg_q x) (stp_Q_id x) = Some []) as Hvx by (cbn; by rewrite Hv2, Hv, Z.eqb_refl).
  assert (pending x = []) as Hpx by (unfold pending; by rewrite Hvx).
  split_and!; [split_and!; [done|by eexists|done| |by rewrite Hpx; constructor|]| | |done].
  - apply C2. by right.
  - rewrite Hpx. set_solver.
  - unfold jobs. by rewrite Hpx.
  - unfold room. cbn. by rewrite C4, Z.eqb_refl, Hn'.
Qed.

End Manager.

(** ** A run

    The switch of VlanProps.v, with the memory pools, and a frame at the address 7. *)

Definition demo_rq (mem sz n : Z) : request := mk_request true mem true sz n.

Definition demo_mgr0 : stpmgr pools clock :=
  mk_mgr (mk_queues (replicate 10 (mk_Q 0 0 (-1) MQ_FREE [])) ∅ (mk_pools [] 0)) ∅
    {[7 := (demo_sbpdu, demo_pdu)]} 0 0 demo_learns.

Definition demo_mgr : stpmgr pools clock :=
  match stpmgr_init (demo_rq 4096) (demo_rq 1000000) demo_mgr0 with Some (_, x) => x | None => demo_mgr0 end.

Lemma demo_size sz n : 8 < sz < 10000 → 0 ≤ n < 10000 → good_size sz n.
Proof. intros. unfold good_size. split_and!; [lia|lia|nia|lia|lia]. Qed.

Lemma demo_mgr_ok : mgr_ok demo_mgr ∧ jobs demo_mgr = [] ∧ room demo_mgr = STP_MAX_MSG.
Proof.
  assert (qs_ok (mg_q demo_mgr0)) as Hq.
  { split_and!; [split; done|done| |].
    - intros i q Hi. apply (lookup_replicate 10) in Hi as [-> _]. by left.
    - intros i j q q' Hi _. apply (lookup_replicate 10) in Hi as [-> _]. done. }
  destruct (stpmgr_init_ok (demo_rq 4096) (demo_rq 1000000) demo_mgr0) as (r & x & E & Hr & Hx); [done|done|done|..].
  - split_and!; [by apply demo_size|done|done|done|]. right. split_and!; [done|by vm_compute|by intros []].
  - intros r q E. vm_compute in E. injection E as <- <-. split_and!; [by apply demo_size|done|done|done|].
    right. split_and!; [done|by vm_compute|]. intros k m. destruct k as [|k]; [|done]. intros [= <-]. right. vm_compute. done.
  - assert (r = 0) as ->.
    { destruct Hr as [->| ->]; [|done]. exfalso.
      assert (match stpmgr_init (demo_rq 4096) (demo_rq 1000000) demo_mgr0 with Some (r, _) => r =? -1 | None => true end = false)
        as Hne by by vm_compute. by rewrite E in Hne. }
    unfold demo_mgr. rewrite E. destruct (Hx eq_refl) as (H1 & H2 & H3 & _). done.
Qed.

(** The frame is received at the port 1 of the VLAN 5, then the port goes down. *)
Definition demo_posts : list stp_msg :=
  [mk_msg STP_MSG_TYPE_BPDU 1 5 35 7; mk_msg STP_MSG_TYPE_EVENTS 1 5 0 IF_DOWN].

Lemma demo_event : STP_MSG_TYPE_EVENTS = STP_MSG_TYPE_EVENTS ∧ 0 ≤ IF_DOWN < 2 ^ 64.
Proof. unfold IF_DOWN. lia. Qed.

Lemma stpmgr_transparent_witness :
  ∃ c x, handle_all demo_senv demo_env (norm <$> demo_posts) (core demo_mgr) = Some (tt, c) ∧
    (post_all demo_posts;; stpmgr_task demo_senv demo_env 3) demo_mgr = Some (tt, x) ∧ core x = c.
Proof.
  destruct demo_mgr_ok as (H1 & H2 & H3).
  destruct (handle_all demo_senv demo_env (norm <$> demo_posts) (core demo_mgr)) as [[[] c]|] eqn:E.
  - destruct (stpmgr_transparent demo_senv demo_env demo_mgr demo_posts c 3) as (x & Ex & _ & Hc & _);
      [exact H1|exact H2| |by vm_compute|rewrite H3; by vm_compute|exact E|cbn; lia|].
    + constructor; [by left|]. constructor; [right; apply demo_event|constructor].
    + exists c, x. split_and!; [reflexivity|exact Ex|exact Hc].
  - exfalso. assert (match handle_all demo_senv demo_env (norm <$> demo_posts) (core demo_mgr) with
      Some _ => true | None => false end = true) as Hs by by vm_compute. by rewrite E in Hs.
Defined.

Lemma stpmgr_full_queue_leaks_witness :
  ∃ (s x : stpmgr pools clock), Z.of_nat (length (jobs s)) = SIZEOF_MSG ∧
    post_msg (mk_msg STP_MSG_TYPE_EVENTS 1 5 0 IF_DOWN) s = Some (0, x) ∧ leaked x = leaked s + 1.
Proof.
  destruct demo_mgr_ok as (H1 & H2 & H3). set (m := mk_msg STP_MSG_TYPE_EVENTS 1 5 0 IF_DOWN).
  assert (postable m) as Hm by (right; apply demo_event).
  destruct (post_all_ok (replicate 24 m) demo_mgr) as (s & Es & Hs & _ & Hj & Hr);
    [exact H1|by apply Forall_replicate|rewrite H2; by vm_compute|rewrite H3; by vm_compute|].
  rewrite H2 in Hj. assert (Z.of_nat (length (jobs s)) = SIZEOF_MSG) as Hn by by rewrite Hj.
  destruct (stpmgr_full_queue_leaks demo_senv demo_env s m Hs Hm) as (Hl & _).
  destruct Hl as (x & Ex & _ & _ & Hx); [exact Hn|rewrite Hr, H3; by vm_compute|].
  exists s, x. split_and!; [exact Hn|exact Ex|exact Hx].
Defined.

Lemma msg_queue_fifo_witness :
  ∃ x, msg_send (stp_Q_id demo_mgr) 9 (mg_q demo_mgr) = Some (0, x) ∧ view x (stp_Q_id demo_mgr) = Some [9].
Proof.
  destruct demo_mgr_ok as (H1 & H2 & _). pose proof (view_pending demo_mgr H1) as Hv. apply fmap_nil_inv in H2.
  rewrite H2 in Hv. destruct (msg_queue_fifo (mg_q demo_mgr) (stp_Q_id demo_mgr) [] 9 (proj1 H1) Hv) as [(x & Ex & _ & Vx) _].
  exists x. split; [exact Ex|]. rewrite Vx, Z.eqb_refl. reflexivity.
Defined.
