(* ===== verification/OspfTable.v ===== *)
(** * OSPF: the prefix tables

    The tables of the OSPF code ([struct route_table], lib/table.h) are implemented in a library that is not
    part of the sources.  [RouteTable] has what the code uses of them: the [info] pointer of the node of a
    prefix, its assignment, and the walk over the nodes that have one; [RouteTableLaws] is what the code
    relies on.  A prefix is a number: an address, or the pair of the two fields of [struct prefix_ls]. *)

From stdpp Require Import gmap.
From S2P Require Import Prelude.

Class RouteTable (RT : Type → Type) := {
  rt_init : ∀ A, RT A;
  rt_info : ∀ A, Z → RT A → option A;
  rt_set : ∀ A, Z → option A → RT A → RT A;
  (** the prefixes in the order of [route_top] and [route_next] *)
  rt_walk : ∀ A, RT A → list Z
}.
Arguments rt_init {RT _ A}.
Arguments rt_info {RT _ A} k t.
Arguments rt_set {RT _ A} k o t.
Arguments rt_walk {RT _ A} t.

Class RouteTableLaws (RT : Type → Type) `{RouteTable RT} : Prop := {
  rt_info_init A k : rt_info k (rt_init : RT A) = None;
  rt_info_set A k k' o (t : RT A) :
    rt_info k' (rt_set k o t) = if decide (k = k') then o else rt_info k' t;
  rt_walk_nodup A (t : RT A) : NoDup (rt_walk t);
  rt_walk_elem A (t : RT A) k : k ∈ rt_walk t ↔ is_Some (rt_info k t)
}.

(** [struct prefix_ls] *)
Definition prefix_ls (id adv_router : Z) : Z := id * 2 ^ 32 + adv_router.

Section Lemmas.
Context {RT : Type → Type} `{RouteTableLaws RT} {A : Type}.

Implicit Types t : RT A.

Lemma rt_info_set_eq k o t : rt_info k (rt_set k o t) = o.
Proof. rewrite rt_info_set. by rewrite decide_True. Qed.

Lemma rt_info_set_ne k k' o t : k ≠ k' → rt_info k' (rt_set k o t) = rt_info k' t.
Proof. intros. rewrite rt_info_set. by rewrite decide_False. Qed.

(** What a table holds, as a list in the order of the walk. *)
Definition rt_entries t : list A := omap (λ k, rt_info k t) (rt_walk t).

Lemma rt_entries_elem t a : a ∈ rt_entries t ↔ ∃ k, rt_info k t = Some a.
Proof.
  unfold rt_entries. rewrite list_elem_of_omap. split.
  - intros (k & _ & Hk). eauto.
  - intros (k & Hk). exists k. split; [|done]. apply rt_walk_elem. eauto.
Qed.

Lemma omap_ext_elem {B} (f g : Z → option B) (l : list Z) :
  (∀ k, k ∈ l → f k = g k) → omap f l = omap g l.
Proof.
  induction l as [|x l IH]; intros Hfg; [done|]. cbn. rewrite (Hfg x) by set_solver.
  rewrite IH by set_solver. done.
Qed.

Lemma filter_keeps (k : Z) (l : list Z) : k ∉ l → filter (λ j, j ≠ k) l = l.
Proof.
  induction l as [|x l IH]; intros Hk; [done|]. rewrite filter_cons_True by set_solver.
  by rewrite IH by set_solver.
Qed.

(** A walk after the assignment of a node. *)
Lemma rt_walk_set k o t :
  rt_walk (rt_set k o t) ≡ₚ
  match o with None => [] | Some _ => [k] end ++ filter (λ j, j ≠ k) (rt_walk t).
Proof.
  apply list.NoDup_Permutation.
  - apply rt_walk_nodup.
  - apply list.NoDup_app. split_and!.
    + destruct o; [apply NoDup_singleton|constructor].
    + intros j Hj [Hne _]%list_elem_of_filter. destruct o; [|by inversion Hj].
      by apply list_elem_of_singleton in Hj.
    + apply list.NoDup_filter, rt_walk_nodup.
  - intros j. rewrite rt_walk_elem, elem_of_app, list_elem_of_filter, rt_walk_elem, rt_info_set.
    assert (is_Some o ↔ o ≠ None) by (destruct o; naive_solver).
    destruct o; rewrite ?list_elem_of_singleton, ?elem_of_nil; case_decide; naive_solver.
Qed.

(** The entries, with one of them replaced, added or taken out. *)
Lemma rt_entries_set k o t :
  option_list o ++ rt_entries t ≡ₚ option_list (rt_info k t) ++ rt_entries (rt_set k o t).
Proof.
  unfold rt_entries.
  assert (omap (λ j, rt_info j (rt_set k o t)) (rt_walk (rt_set k o t)) ≡ₚ
    option_list o ++ omap (λ j, rt_info j t) (filter (λ j, j ≠ k) (rt_walk t))) as ->.
  { rewrite rt_walk_set, omap_app. f_equiv.
    - destruct o; [|done]. cbn. by rewrite rt_info_set_eq.
    - erewrite omap_ext_elem; [done|]. intros j [Hj _]%list_elem_of_filter.
      by apply rt_info_set_ne. }
  assert (omap (λ j, rt_info j t) (rt_walk t) ≡ₚ
    option_list (rt_info k t) ++ omap (λ j, rt_info j t) (filter (λ j, j ≠ k) (rt_walk t))) as ->.
  { pose proof (rt_walk_nodup A t) as Hn. pose proof (rt_walk_elem A t k) as Hk.
    destruct (rt_info k t) as [a|] eqn:Ek.
    - assert (rt_walk t ≡ₚ k :: filter (λ j, j ≠ k) (rt_walk t)) as Hp.
      { apply list.NoDup_Permutation; [done| |].
        - apply list.NoDup_cons. split; [by intros [? _]%list_elem_of_filter|by apply list.NoDup_filter].
        - intros j. rewrite elem_of_cons, list_elem_of_filter. split.
          + intros Hj. destruct (decide (j = k)); auto.
          + intros [->|[_ Hj]]; [|done]. apply Hk. eauto. }
      rewrite Hp at 1. cbn. rewrite Ek. done.
    - rewrite filter_keeps; [done|]. intros Hj. apply Hk in Hj as [? ?]. done. }
  rewrite Permutation_app_swap_app. done.
Qed.

Lemma rt_entries_init : rt_entries (rt_init : RT A) = [].
Proof.
  unfold rt_entries. destruct (rt_walk (rt_init : RT A)) as [|k l] eqn:E; [done|].
  assert (k ∈ rt_walk (rt_init : RT A)) as Hk by (rewrite E; left).
  apply rt_walk_elem in Hk as [? Hk]. by rewrite rt_info_init in Hk.
Qed.

End Lemmas.

(** ** Finite maps are such tables *)

#[export] Instance gmap_route_table : RouteTable (gmap Z) := {|
  rt_init A := ∅;
  rt_info A k t := t !! k;
  rt_set A k o t := partial_alter (λ _, o) k t;
  rt_walk A t := (map_to_list t).*1
|}.

#[export] Instance gmap_route_table_laws : RouteTableLaws (gmap Z).
Proof.
  split.
  - intros A k. apply lookup_empty.
  - intros A k k' o t. cbn. case_decide as Hd.
    + subst. by rewrite lookup_partial_alter_eq.
    + by rewrite lookup_partial_alter_ne.
  - intros A t. apply NoDup_fst_map_to_list.
  - intros A t k. cbn. rewrite list_elem_of_fmap. split.
    + intros ([j a] & -> & Hj). apply elem_of_map_to_list in Hj. eauto.
    + intros [a Ha]. exists (k, a). split; [done|]. by apply elem_of_map_to_list.
Qed.
