(* ===== verification/OspfLsa.v ===== *)
(** * OSPF: link state advertisements and their database

    The time functions, the reference counts and the comparisons of ospf/ospf_lsa.c, and the link state
    database of ospf/ospf_lsdb.c.  The advertisements (LSAs) are objects in a memory, which databases,
    lists and other structures share by pointer; an assertion of the C code that does not hold, and an
    access to an object that has been freed, is a fault. *)

From stdpp Require Import gmap.
From S2P Require Import Prelude Fault OspfTable.

(** ** Constants *)

Definition OSPF_MIN_LSA := 1.
Definition OSPF_MAX_LSA := 8.
Definition OSPF_ROUTER_LSA := 1.
Definition OSPF_NETWORK_LSA := 2.
Definition OSPF_SUMMARY_LSA := 3.
Definition OSPF_ASBR_SUMMARY_LSA := 4.
Definition OSPF_AS_EXTERNAL_LSA := 5.
Definition OSPF_AS_NSSA_LSA := 7.

Definition OSPF_LSA_SELF := 0x01.
Definition OSPF_LSA_RECEIVED := 0x04.
Definition OSPF_LSA_DISCARD := 0x10.
Definition OSPF_LSA_LOCAL_XLT := 0x20.

Definition OSPF_LSA_HEADER_SIZE := 20.
Definition OSPF_MIN_LS_INTERVAL := 5.
Definition OSPF_LSA_MAXAGE := 3600.
Definition OSPF_LSA_MAXAGE_DIFF := 900.

Definition LSA_SPF_NOT_EXPLORED := -1.
Definition LSA_SPF_IN_SPFTREE := -2.

(** ** Time *)

Record timeval := mk_tv { tv_sec : Z; tv_usec : Z }.

(** The two loops, with as many rounds as the microseconds can need. *)
Fixpoint tv_carry (n : nat) (a : timeval) : timeval :=
  match n with
  | O => a
  | S n =>
      if tv_usec a >=? 1000000 then tv_carry n (mk_tv (tv_sec a + 1) (tv_usec a - 1000000)) else a
  end.

Fixpoint tv_borrow (n : nat) (a : timeval) : timeval :=
  match n with
  | O => a
  | S n =>
      if tv_usec a <? 0 then tv_borrow n (mk_tv (tv_sec a - 1) (tv_usec a + 1000000)) else a
  end.

Definition tv_adjust (a : timeval) : timeval :=
  let n := Z.to_nat (Z.abs (tv_usec a) / 1000000 + 1) in
  tv_borrow n (tv_carry n a).

Definition tv_ceil (a : timeval) : Z :=
  let a := tv_adjust a in if tst (tv_usec a) then tv_sec a + 1 else tv_sec a.

Definition tv_floor (a : timeval) : Z := tv_sec (tv_adjust a).

Definition int2tv (a : Z) : timeval := mk_tv a 0.

Definition tv_add (a b : timeval) : timeval :=
  tv_adjust (mk_tv (tv_sec a + tv_sec b) (tv_usec a + tv_usec b)).

Definition tv_sub (a b : timeval) : timeval :=
  tv_adjust (mk_tv (tv_sec a - tv_sec b) (tv_usec a - tv_usec b)).

Definition tv_cmp (a b : timeval) : Z :=
  if tv_sec a =? tv_sec b then tv_usec a - tv_usec b else tv_sec a - tv_sec b.

(** ** LSAs *)

(** [struct lsa_header], with the values the fields have in host byte order. *)
Record lsa_header := mk_lsah {
  ls_age : Z;
  h_options : Z;
  h_type : Z;
  h_id : Z;
  h_adv_router : Z;
  ls_seqnum : Z;
  h_checksum : Z;
  h_length : Z
}.

(** [struct ospf_lsa]: [l_data] and [l_body] are the header and the bytes behind it. *)
Record ospf_lsa := mk_lsa {
  l_flags : Z;
  l_data : lsa_header;
  l_body : list Z;
  l_tv_recv : timeval;
  l_tv_orig : timeval;
  l_lock : Z;
  l_stat : Z;
  l_retransmit_counter : Z;
  l_refresh_list : Z
}.

Definition eta_lsa (l : ospf_lsa) : ospf_lsa :=
  mk_lsa (l_flags l) (l_data l) (l_body l) (l_tv_recv l) (l_tv_orig l) (l_lock l) (l_stat l)
    (l_retransmit_counter l) (l_refresh_list l).

#[export] Instance set_l_flags : Settable l_flags := ltac:(mk_setter eta_lsa).
#[export] Instance set_l_data : Settable l_data := ltac:(mk_setter eta_lsa).
#[export] Instance set_l_lock : Settable l_lock := ltac:(mk_setter eta_lsa).
#[export] Instance set_l_stat : Settable l_stat := ltac:(mk_setter eta_lsa).
#[export] Instance set_l_retransmit_counter : Settable l_retransmit_counter := ltac:(mk_setter eta_lsa).
#[export] Instance set_l_refresh_list : Settable l_refresh_list := ltac:(mk_setter eta_lsa).

Definition CHECK_FLAG (v f : Z) : bool := tst (v &&& f).
Definition IS_LSA_SELF (l : ospf_lsa) : bool := CHECK_FLAG (l_flags l) OSPF_LSA_SELF.

(** The memory of the LSAs. *)
Abbreviation lheap := (gmap nat ospf_lsa).

Local Abbreviation M := (fsM lheap).

Definition lsa (p : nat) : M ospf_lsa := h ← gets (λ h, h !! p); of_option h.
Definition set_lsa (p : nat) (l : ospf_lsa) : M unit := modify (λ h, <[p := l]> h).
Definition upd_lsa (p : nat) (f : ospf_lsa → ospf_lsa) : M unit := l ← lsa p; set_lsa p (f l).
Definition assert {S} (b : bool) : fsM S unit := if b then mret tt else fault.

(** ** Ages.  [now] is what the clock says. *)

Section Time.
Context (now : timeval).

Definition get_age (l : ospf_lsa) : Z := ls_age (l_data l) + tv_floor (tv_sub now (l_tv_recv l)).

Definition LS_AGE (l : ospf_lsa) : Z :=
  if OSPF_LSA_MAXAGE <? get_age l then OSPF_LSA_MAXAGE else get_age l.

Definition IS_LSA_MAXAGE (l : ospf_lsa) : bool := LS_AGE l =? OSPF_LSA_MAXAGE.

(** [None]: the assertion fails. *)
Definition ospf_lsa_refresh_delay (l : ospf_lsa) : option Z :=
  let delta := tv_sub now (l_tv_orig l) in
  if tv_cmp delta (int2tv OSPF_MIN_LS_INTERVAL) <? 0 then
    let delay := tv_ceil (tv_sub (int2tv OSPF_MIN_LS_INTERVAL) delta) in
    if delay >? 0 then Some delay else None
  else Some 0.

(** The arguments are pointers to the objects, or NULL. *)
Definition ospf_lsa_more_recent (l1 l2 : option ospf_lsa) : Z :=
  match l1, l2 with
  | None, None => 0
  | None, _ => -1
  | _, None => 1
  | Some l1, Some l2 =>
      let x := s32 (ls_seqnum (l_data l1)) in
      let y := s32 (ls_seqnum (l_data l2)) in
      if x >? y then 1 else if x <? y then -1
      else
        let r := h_checksum (l_data l1) - h_checksum (l_data l2) in
        if tst r then r
        else if IS_LSA_MAXAGE l1 && negb (IS_LSA_MAXAGE l2) then 1
        else if negb (IS_LSA_MAXAGE l1) && IS_LSA_MAXAGE l2 then -1
        else if LS_AGE l1 - LS_AGE l2 >? OSPF_LSA_MAXAGE_DIFF then -1
        else if LS_AGE l2 - LS_AGE l1 >? OSPF_LSA_MAXAGE_DIFF then 1
        else 0
  end.

(** [None]: the assertion on the length fails, or a body is shorter than the header says. *)
Definition ospf_lsa_different (l1 l2 : ospf_lsa) : option Z :=
  let d1 := l_data l1 in
  let d2 := l_data l2 in
  if negb (h_options d1 =? h_options d2) then Some 1
  else if IS_LSA_MAXAGE l1 && negb (IS_LSA_MAXAGE l2) then Some 1
  else if IS_LSA_MAXAGE l2 && negb (IS_LSA_MAXAGE l1) then Some 1
  else if negb (h_length d1 =? h_length d2) then Some 1
  else if h_length d1 =? 0 then Some 1
  else if CHECK_FLAG (Z.lxor (l_flags l1) (l_flags l2)) OSPF_LSA_RECEIVED then Some 1
  else if h_length d1 <=? OSPF_LSA_HEADER_SIZE then None
  else
    let n := Z.to_nat (h_length d1 - OSPF_LSA_HEADER_SIZE) in
    if (length (l_body l1) <? n)%nat || (length (l_body l2) <? n)%nat then None
    else if memcmp (take n (l_body l1)) (take n (l_body l2)) =? 0 then Some 0 else Some 1.

(** ** Allocation and reference counts *)

(** A new object, at an address that is not in use. *)
Definition alloc_lsa (l : ospf_lsa) : M nat := λ h,
  let p := fresh (dom h) in Some (p, <[p := l]> h).

(** [data] and [body] are filled in by the callers. *)
Definition ospf_lsa_new (data : lsa_header) (body : list Z) : M nat :=
  alloc_lsa (mk_lsa 0 data body now now 1 0 0 (-1)).

Definition ospf_lsa_dup (p : nat) : M nat :=
  l ← lsa p;
  alloc_lsa (l <| l_flags := clr (l_flags l) OSPF_LSA_DISCARD |> <| l_lock := 1 |>
               <| l_retransmit_counter := 0 |> <| l_refresh_list := -1 |>).

End Time.

Definition ospf_lsa_free (p : nat) : M unit :=
  l ← lsa p;
  assert (l_lock l =? 0);;
  assert (l_refresh_list l <? 0);;
  modify (λ h, delete p h).

Definition ospf_lsa_lock (p : nat) : M nat :=
  upd_lsa p (λ l, l <| l_lock := l_lock l + 1 |>);; mret p.

(** The pointer afterwards: NULL if the object has been freed. *)
Definition ospf_lsa_unlock (o : option nat) : M (option nat) :=
  match o with
  | None => mret None
  | Some p =>
      upd_lsa p (λ l, l <| l_lock := l_lock l - 1 |>);;
      l ← lsa p;
      assert (l_lock l >=? 0);;
      if l_lock l =? 0 then
        assert (CHECK_FLAG (l_flags l) OSPF_LSA_DISCARD);;
        ospf_lsa_free p;;
        mret None
      else mret o
  end.

Definition ospf_lsa_discard (p : nat) : M unit :=
  l ← lsa p;
  if negb (CHECK_FLAG (l_flags l) OSPF_LSA_DISCARD) then
    upd_lsa p (λ l, l <| l_flags := l_flags l ||| OSPF_LSA_DISCARD |>);;
    ospf_lsa_unlock (Some p);;
    mret tt
  else mret tt.

Definition lsa_seqnum_increment (l : ospf_lsa) : Z := u32 (ls_seqnum (l_data l) + 1).

(** ** The link state database *)

Section Lsdb.
Context {RT : Type → Type} `{RouteTable RT}.

(** The tables of one type of LSAs, and [struct ospf_lsdb]; the hooks are never set. *)
Record lsdb_type := mk_ldt { lt_count : Z; lt_count_self : Z; lt_checksum : Z; lt_db : RT nat }.
Record ospf_lsdb := mk_lsdb { db_type : list lsdb_type; db_total : Z }.

Definition ospf_lsdb_new : ospf_lsdb :=
  mk_lsdb (replicate (Z.to_nat OSPF_MAX_LSA) (mk_ldt 0 0 0 rt_init)) 0.

(** The databases of a structure are worked on as values; the LSAs they point to are in the memory. *)
Definition ldt (db : ospf_lsdb) (type : Z) : M lsdb_type := of_option (arr (db_type db) type).
Definition set_ldt (db : ospf_lsdb) (type : Z) (t : lsdb_type) (total : Z) : ospf_lsdb :=
  mk_lsdb (<[Z.to_nat type := t]> (db_type db)) total.

Definition lsdb_prefix_set (l : ospf_lsa) : Z := prefix_ls (h_id (l_data l)) (h_adv_router (l_data l)).

(** The node [k] of the table [type]. *)
Definition ospf_lsdb_delete_entry (db : ospf_lsdb) (type k : Z) : M ospf_lsdb :=
  t ← ldt db type;
  match rt_info k (lt_db t) with
  | None => mret db
  | Some p =>
      l ← lsa p;
      assert (h_type (l_data l) =? type);;
      let t := mk_ldt (u64 (lt_count t - 1))
                 (if IS_LSA_SELF l then u64 (lt_count_self t - 1) else lt_count_self t)
                 (u32 (lt_checksum t - h_checksum (l_data l))) (rt_set k None (lt_db t)) in
      let db := set_ldt db type t (u64 (db_total db - 1)) in
      ospf_lsa_unlock (Some p);;
      mret db
  end.

Definition ospf_lsdb_add (db : ospf_lsdb) (p : nat) : M ospf_lsdb :=
  l ← lsa p;
  let type := h_type (l_data l) in
  t ← ldt db type;
  let k := lsdb_prefix_set l in
  if bool_decide (rt_info k (lt_db t) = Some p) then mret db
  else
    db ← (match rt_info k (lt_db t) with
          | Some _ => ospf_lsdb_delete_entry db type k
          | None => mret db
          end);
    t ← ldt db type;
    let t := mk_ldt (u64 (lt_count t + 1))
               (if IS_LSA_SELF l then u64 (lt_count_self t + 1) else lt_count_self t)
               (u32 (lt_checksum t + h_checksum (l_data l))) (lt_db t) in
    q ← ospf_lsa_lock p;
    mret (set_ldt db type (mk_ldt (lt_count t) (lt_count_self t) (lt_checksum t)
                             (rt_set k (Some q) (lt_db t))) (u64 (db_total db + 1))).

(** Neither the database nor the LSA is NULL where the modelled code calls it. *)
Definition ospf_lsdb_delete (db : ospf_lsdb) (p : nat) : M ospf_lsdb :=
  l ← lsa p;
  let type := h_type (l_data l) in
  assert (type <? OSPF_MAX_LSA);;
  t ← ldt db type;
  let k := lsdb_prefix_set l in
  if bool_decide (rt_info k (lt_db t) = Some p) then ospf_lsdb_delete_entry db type k
  else mret db.

(** The walk over one table, and over the tables of the types from [type] on. *)
Fixpoint delete_walk (ks : list Z) (type : Z) (db : ospf_lsdb) : M ospf_lsdb :=
  match ks with
  | [] => mret db
  | k :: ks => db ← ospf_lsdb_delete_entry db type k; delete_walk ks type db
  end.

Fixpoint delete_types (types : list Z) (db : ospf_lsdb) : M ospf_lsdb :=
  match types with
  | [] => mret db
  | type :: types =>
      t ← ldt db type;
      db ← delete_walk (rt_walk (lt_db t)) type db;
      delete_types types db
  end.

Definition lsa_types : list Z := seqZ OSPF_MIN_LSA (OSPF_MAX_LSA - OSPF_MIN_LSA).

Definition ospf_lsdb_delete_all (db : ospf_lsdb) : M ospf_lsdb := delete_types lsa_types db.

Definition ospf_lsdb_cleanup (db : ospf_lsdb) : M unit :=
  assert (db_total db =? 0);;
  ospf_lsdb_delete_all db;;
  mret tt.

(** [lsa->stat = LSA_SPF_NOT_EXPLORED] for every LSA of the database. *)
Fixpoint clean_walk (ks : list Z) (t : RT nat) : M unit :=
  match ks with
  | [] => mret tt
  | k :: ks =>
      (match rt_info k t with
       | Some p => upd_lsa p (λ l, l <| l_stat := LSA_SPF_NOT_EXPLORED |>)
       | None => mret tt
       end);;
      clean_walk ks t
  end.

Fixpoint clean_types (types : list Z) (db : ospf_lsdb) : M unit :=
  match types with
  | [] => mret tt
  | type :: types =>
      t ← ldt db type;
      clean_walk (rt_walk (lt_db t)) (lt_db t);;
      clean_types types db
  end.

Definition ospf_lsdb_clean_stat (db : ospf_lsdb) : M unit := clean_types lsa_types db.

Definition ospf_lsdb_lookup_by_id (db : ospf_lsdb) (type id adv_router : Z) : option (option nat) :=
  t ← arr (db_type db) type;
  Some (rt_info (prefix_ls id adv_router) (lt_db t)).

Definition ospf_lsdb_lookup (db : ospf_lsdb) (p : nat) : M (option nat) :=
  l ← lsa p;
  of_option (ospf_lsdb_lookup_by_id db (h_type (l_data l)) (h_id (l_data l)) (h_adv_router (l_data l))).

Definition ospf_lsdb_count_all (db : ospf_lsdb) : Z := db_total db.
Definition ospf_lsdb_isempty (db : ospf_lsdb) : bool := db_total db =? 0.

End Lsdb.
Arguments lsdb_type : clear implicits.
Arguments ospf_lsdb : clear implicits.
