(* ===== verification/OspfLsaProps.v ===== *)
(** * OSPF: properties of the LSAs and of their database *)

From stdpp Require Import gmap relations.
From S2P Require Import Prelude Fault OspfTable OspfLsa.

(** ** Time *)

Definition usec (a : timeval) : Z := tv_sec a * 1000000 + tv_usec a.

Lemma tv_carry_spec n a :
  tv_usec a < 1000000 * (Z.of_nat n + 1) → 0 ≤ tv_usec a →
  tv_carry n a = mk_tv (tv_sec a + tv_usec a / 1000000) (tv_usec a mod 1000000).
Proof.
  revert a. induction n as [|n IH]; intros [s u] Hn Hu; cbn [tv_carry tv_sec tv_usec] in *.
  - rewrite Z.div_small, Z.mod_small by lia. f_equal. lia.
  - rewrite Z.geb_leb. destruct (Z.leb_spec 1000000 u).
    + rewrite IH by (cbn; lia). cbn. f_equal.
      * replace (u - 1000000) with (u + (-1) * 1000000) by lia. rewrite Z.div_add by lia. lia.
      * replace (u - 1000000) with (u + (-1) * 1000000) by lia. by rewrite Z.mod_add by lia.
    + rewrite Z.div_small, Z.mod_small by lia. f_equal. lia.
Qed.

Lemma tv_carry_small n a : tv_usec a < 1000000 → tv_carry n a = a.
Proof.
  intros. destruct n; cbn; [done|]. rewrite Z.geb_leb. by rewrite (proj2 (Z.leb_gt _ _)) by lia.
Qed.

Lemma tv_borrow_spec n a :
  - 1000000 * Z.of_nat n ≤ tv_usec a < 1000000 →
  tv_borrow n a = mk_tv (tv_sec a + tv_usec a / 1000000) (tv_usec a mod 1000000).
Proof.
  revert a. induction n as [|n IH]; intros [s u] Hn; cbn [tv_borrow tv_sec tv_usec] in *.
  - rewrite Z.div_small, Z.mod_small by lia. f_equal. lia.
  - destruct (Z.ltb_spec u 0).
    + rewrite IH by (cbn; lia). cbn. f_equal.
      * replace (u + 1000000) with (u + 1 * 1000000) by lia. rewrite Z.div_add by lia. lia.
      * replace (u + 1000000) with (u + 1 * 1000000) by lia. by rewrite Z.mod_add by lia.
    + rewrite Z.div_small, Z.mod_small by lia. f_equal. lia.
Qed.

(** The loops of [tv_adjust] end, and normalise. *)
Lemma tv_adjust_spec a :
  tv_adjust a = mk_tv (tv_sec a + tv_usec a / 1000000) (tv_usec a mod 1000000).
Proof.
  unfold tv_adjust. set (n := Z.to_nat _).
  assert (Z.abs (tv_usec a) < 1000000 * Z.of_nat n).
  { unfold n. rewrite Z2Nat.id by (pose proof (Z.div_pos (Z.abs (tv_usec a)) 1000000); lia).
    pose proof (Z.mul_succ_div_gt (Z.abs (tv_usec a)) 1000000 ltac:(lia)). lia. }
  destruct (Z.le_gt_cases 0 (tv_usec a)).
  - rewrite tv_carry_spec by lia.
    pose proof (Z.mod_pos_bound (tv_usec a) 1000000 ltac:(lia)).
    rewrite tv_borrow_spec; cbn [tv_sec tv_usec]; [|lia].
    rewrite (Z.div_small (tv_usec a mod 1000000)), Z.mod_mod by lia. f_equal. lia.
  - rewrite tv_carry_small by lia. apply tv_borrow_spec. lia.
Qed.

Lemma usec_adjust a : usec (tv_adjust a) = usec a ∧ 0 ≤ tv_usec (tv_adjust a) < 1000000.
Proof.
  rewrite tv_adjust_spec. unfold usec. cbn. pose proof (Z.div_mod (tv_usec a) 1000000 ltac:(lia)).
  pose proof (Z.mod_pos_bound (tv_usec a) 1000000 ltac:(lia)). lia.
Qed.

Lemma usec_sub a b :
  usec (tv_sub a b) = usec a - usec b ∧ 0 ≤ tv_usec (tv_sub a b) < 1000000.
Proof.
  unfold tv_sub. destruct (usec_adjust (mk_tv (tv_sec a - tv_sec b) (tv_usec a - tv_usec b))) as [-> ?].
  split; [|done]. unfold usec. cbn. lia.
Qed.

Lemma tv_floor_spec a : tv_floor a = usec a / 1000000.
Proof.
  unfold tv_floor. rewrite tv_adjust_spec. unfold usec. cbn. by rewrite Z.div_add_l by lia.
Qed.

Lemma tv_ceil_spec a : usec a ≤ 1000000 * tv_ceil a < usec a + 1000000.
Proof.
  unfold tv_ceil. destruct (usec_adjust a) as [Hu Hb]. unfold usec in Hu at 1.
  unfold tst. destruct (Z.eqb_spec (tv_usec (tv_adjust a)) 0); cbn [negb]; lia.
Qed.

(** The delay before an LSA may be originated again.  Whatever the clock and the time of the last
    origination are, the assertion of [ospf_lsa_refresh_delay] holds, and the delay is the least number of
    seconds, not below 0, after which MinLSInterval has passed since the last origination. *)
Theorem refresh_delay_spec now l :
  ∃ d, ospf_lsa_refresh_delay now l = Some d ∧ 0 ≤ d ∧
    usec (l_tv_orig l) + 1000000 * OSPF_MIN_LS_INTERVAL ≤ usec now + 1000000 * d ∧
    ∀ d', 0 ≤ d' → usec (l_tv_orig l) + 1000000 * OSPF_MIN_LS_INTERVAL ≤ usec now + 1000000 * d' → d ≤ d'.
Proof.
  unfold ospf_lsa_refresh_delay. destruct (usec_sub now (l_tv_orig l)) as [Hu Hb].
  set (delta := tv_sub now (l_tv_orig l)) in *.
  assert (tv_cmp delta (int2tv OSPF_MIN_LS_INTERVAL) < 0 ↔ usec delta < 1000000 * OSPF_MIN_LS_INTERVAL) as Hc.
  { unfold tv_cmp, usec. cbn [tv_sec tv_usec int2tv]. unfold OSPF_MIN_LS_INTERVAL.
    destruct (Z.eqb_spec (tv_sec delta) 5); lia. }
  destruct (Z.ltb_spec (tv_cmp delta (int2tv OSPF_MIN_LS_INTERVAL)) 0) as [Hlt|Hge].
  - apply Hc in Hlt. set (d := tv_ceil _).
    assert (1000000 * OSPF_MIN_LS_INTERVAL - usec delta ≤ 1000000 * d <
      1000000 * OSPF_MIN_LS_INTERVAL - usec delta + 1000000) as Hd.
    { pose proof (tv_ceil_spec (tv_sub (int2tv OSPF_MIN_LS_INTERVAL) delta)) as Ht. fold d in Ht.
      destruct (usec_sub (int2tv OSPF_MIN_LS_INTERVAL) delta) as [Hs _]. rewrite Hs in Ht.
      assert (usec (int2tv OSPF_MIN_LS_INTERVAL) = 1000000 * OSPF_MIN_LS_INTERVAL) as Hi by done.
      rewrite Hi in Ht. done. }
    clearbody d delta. rewrite Z.gtb_ltb. destruct (Z.ltb_spec 0 d); [|lia].
    exists d. split_and!; [done|lia|lia|]. intros d' _ Hd'. lia.
  - exists 0. split_and!; [done|lia| |done]. destruct (Z.lt_ge_cases (usec delta) (1000000 * OSPF_MIN_LS_INTERVAL)).
    + apply Hc in H. lia.
    + lia.
Qed.

(** ** Which of two instances is more recent *)

(** RFC 2328, 13.1: the larger sequence number, then the larger checksum, then the age. *)
Definition newer (now : timeval) (a b : ospf_lsa) : Prop :=
  let seq l := s32 (ls_seqnum (l_data l)) in
  let sum l := h_checksum (l_data l) in
  seq b < seq a ∨
  seq a = seq b ∧
    (sum b < sum a ∨
     sum a = sum b ∧
       (IS_LSA_MAXAGE now a = true ∧ IS_LSA_MAXAGE now b = false ∨
        IS_LSA_MAXAGE now a = IS_LSA_MAXAGE now b ∧
          OSPF_LSA_MAXAGE_DIFF < LS_AGE now b - LS_AGE now a)).

(** C40: [ospf_lsa_more_recent] decides which of two instances of an LSA is newer in the order of RFC 2328:
    it is positive if the first one is, negative if the second one is, and 0 otherwise; an instance is
    newer than none. *)
Theorem more_recent_spec now a b :
  (0 < ospf_lsa_more_recent now (Some a) (Some b) ↔ newer now a b) ∧
  (ospf_lsa_more_recent now (Some a) (Some b) < 0 ↔ newer now b a) ∧
  ospf_lsa_more_recent now (Some a) None = 1 ∧ ospf_lsa_more_recent now None (Some b) = -1.
Proof.
  unfold newer. split_and!; [| |done|done]; cbn [ospf_lsa_more_recent];
    set (x := s32 (ls_seqnum (l_data a))); set (y := s32 (ls_seqnum (l_data b)));
    set (c := h_checksum (l_data a)); set (d := h_checksum (l_data b));
    rewrite !Z.gtb_ltb; unfold tst;
    (destruct (Z.ltb_spec y x); [lia|]); (destruct (Z.ltb_spec x y); [lia|]);
    (destruct (Z.eqb_spec (c - d) 0); cbn [negb]; [|lia]);
    destruct (IS_LSA_MAXAGE now a) eqn:Ea, (IS_LSA_MAXAGE now b) eqn:Eb; cbn [andb negb];
    repeat match goal with |- context [if ?u <? ?v then _ else _] => destruct (Z.ltb_spec u v) end;
    unfold OSPF_LSA_MAXAGE_DIFF in *; intuition (congruence || lia).
Qed.

(** ** Reference counts *)

Definition discarded (l : ospf_lsa) : bool := CHECK_FLAG (l_flags l) OSPF_LSA_DISCARD.

(** Every object has one count for its creator until it is discarded, and one for each reference that [R]
    counts; what is referenced is there. *)
Definition heap_ok (h : lheap) (R : nat → Z) : Prop :=
  (∀ p l, h !! p = Some l →
    l_lock l = bit (negb (discarded l)) + R p ∧ 0 < l_lock l ∧ l_refresh_list l < 0) ∧
  ∀ p, 0 ≤ R p ∧ (0 < R p → is_Some (h !! p)).

(** What the counts and the discarding of LSAs do not change: the contents, the age and the other flags. *)
Definition lsa_fixed (l : ospf_lsa) : list Z * timeval * bool :=
  (l_body l, l_tv_recv l, CHECK_FLAG (l_flags l) OSPF_LSA_LOCAL_XLT).
Definition stable (h h' : lheap) : Prop :=
  ∀ p l l', h !! p = Some l → h' !! p = Some l' →
    l_data l' = l_data l ∧ IS_LSA_SELF l' = IS_LSA_SELF l ∧ lsa_fixed l' = lsa_fixed l.

(** What has not been discarded stays. *)
Definition keeps (h h' : lheap) : Prop :=
  ∀ p l, h !! p = Some l → discarded l = false → ∃ l', h' !! p = Some l' ∧ discarded l' = false.

Definition plus1 (R : nat → Z) (p : nat) (d : Z) : nat → Z := λ q, if decide (p = q) then R q + d else R q.

Lemma lsa_run (h : lheap) p l : h !! p = Some l → lsa p h = Some (l, h).
Proof. intros Hp. unfold lsa, mbind, fsM_bind, gets, of_option. by rewrite Hp. Qed.

Lemma upd_lsa_run (h : lheap) p l f : h !! p = Some l → upd_lsa p f h = Some (tt, <[p := f l]> h).
Proof. intros Hp. unfold upd_lsa. by frun (lsa_run _ _ _ Hp). Qed.

Lemma assert_run {S} b (s : S) : b = true → assert b s = Some (tt, s).
Proof. by intros ->. Qed.

Lemma stable_upd (h : lheap) p l f :
  h !! p = Some l → l_data (f l) = l_data l → IS_LSA_SELF (f l) = IS_LSA_SELF l →
  lsa_fixed (f l) = lsa_fixed l → stable h (<[p := f l]> h).
Proof.
  intros Hp Hd Hs Hf q k k' Hk Hk'. destruct (decide (p = q)) as [<-|].
  - rewrite lookup_insert_eq in Hk'. injection Hk' as <-. rewrite Hp in Hk. by injection Hk as <-.
  - rewrite lookup_insert_ne in Hk' by done. by simplify_eq.
Qed.

Lemma keeps_upd (h : lheap) p l f :
  h !! p = Some l → discarded (f l) = discarded l → keeps h (<[p := f l]> h).
Proof.
  intros Hp Hd q k Hk Hq. destruct (decide (p = q)) as [<-|].
  - rewrite lookup_insert_eq. exists (f l). simplify_eq. by rewrite Hd.
  - rewrite lookup_insert_ne by done. eauto.
Qed.

Lemma lock_ok h R p :
  heap_ok h R → is_Some (h !! p) →
  ∃ h', ospf_lsa_lock p h = Some (p, h') ∧ heap_ok h' (plus1 R p 1) ∧ stable h h' ∧
    dom h' = dom h ∧ keeps h h'.
Proof.
  intros [H1 H2] [l Hp]. unfold ospf_lsa_lock. erewrite fbind_run by exact (upd_lsa_run h p l _ Hp).
  eexists. split; [done|]. destruct (H1 p l Hp) as (L1 & L2 & L3). split_and!.
  - split.
    + intros q k. unfold plus1. destruct (decide (p = q)) as [<-|].
      * rewrite lookup_insert_eq. intros [= <-]. cbn. change (discarded _) with (discarded l). lia.
      * rewrite lookup_insert_ne by done. apply H1.
    + intros q. unfold plus1. destruct (H2 q) as [R1 R2]. destruct (decide (p = q)) as [<-|].
      * rewrite lookup_insert_eq. split; [lia|eauto].
      * rewrite lookup_insert_ne by done. auto.
  - by apply stable_upd.
  - rewrite dom_insert_lookup_L; eauto.
  - by apply (keeps_upd h p l (λ l, l <| l_lock := l_lock l + 1 |>)).
Qed.

Lemma unlock_ok h R p :
  heap_ok h R → 0 < R p →
  ∃ r h', ospf_lsa_unlock (Some p) h = Some (r, h') ∧ heap_ok h' (plus1 R p (-1)) ∧ stable h h' ∧
    (∀ q, q ≠ p → h' !! q = h !! q) ∧
    (h' !! p = None ↔ R p = 1 ∧ ∃ l, h !! p = Some l ∧ discarded l = true) ∧ keeps h h'.
Proof.
  intros [H1 H2] HR. destruct (H2 p) as [_ [l Hp]%(λ f, f HR)].
  destruct (H1 p l Hp) as (L1 & L2 & L3). unfold ospf_lsa_unlock.
  erewrite fbind_run by exact (upd_lsa_run h p l _ Hp). set (l' := l <| l_lock := l_lock l - 1 |>).
  assert (<[p := l']> h !! p = Some l') as Hp' by apply lookup_insert_eq.
  frun (lsa_run _ _ _ Hp').
  assert (discarded l' = discarded l) as Hdl by done.
  assert (l_lock l' >=? 0 = true) as Hge by (apply Z.geb_ge; cbn; lia).
  frun (assert_run (l_lock l' >=? 0) (<[p := l']> h) Hge).
  change (l_lock l') with (l_lock l - 1).
  destruct (Z.eqb_spec (l_lock l - 1) 0) as [E0|E0].
  - assert (discarded l = true ∧ R p = 1) as [Hd HR1].
    { destruct (discarded l); cbn in L1; split; lia || done. }
    assert (CHECK_FLAG (l_flags l') OSPF_LSA_DISCARD = true) as Hc by exact Hd.
    frun (assert_run _ (<[p := l']> h) Hc). unfold ospf_lsa_free.
    assert ((l_lock l' =? 0) = true) as Hz by (apply Z.eqb_eq; cbn; lia).
    assert ((l_refresh_list l' <? 0) = true) as Hr by (by apply Z.ltb_lt).
    rewrite (fbind_run _ _ (<[p := l']> h) tt (delete p (<[p := l']> h))).
    2:{ frun (lsa_run _ _ _ Hp'). frun (assert_run _ (<[p := l']> h) Hz).
        frun (assert_run _ (<[p := l']> h) Hr). done. }
    eexists _, _. split; [done|]. rewrite delete_insert_eq. split_and!.
    + split.
      * intros q k Hq. unfold plus1. destruct (decide (p = q)) as [<-|].
        { by rewrite lookup_delete_eq in Hq. }
        rewrite lookup_delete_ne in Hq by done. by apply H1.
      * intros q. unfold plus1. destruct (H2 q) as [R1 R2]. destruct (decide (p = q)) as [<-|]; [lia|].
        rewrite lookup_delete_ne by done. auto.
    + intros q k k' Hq Hq'. apply lookup_delete_Some in Hq' as [_ Hq']. by simplify_eq.
    + intros q Hq. by rewrite lookup_delete_ne.
    + rewrite lookup_delete_eq. split; [|done]. intros _. split; [done|]. eauto.
    + intros q k Hk Hq. exists k. by rewrite lookup_delete_ne by congruence.
  - eexists _, _. split; [done|]. split_and!.
    + split.
      * intros q k. unfold plus1. destruct (decide (p = q)) as [<-|].
        { rewrite lookup_insert_eq. intros [= <-]. rewrite Hdl. cbn. lia. }
        rewrite lookup_insert_ne by done. apply H1.
      * intros q. unfold plus1. destruct (H2 q) as [R1 R2]. destruct (decide (p = q)) as [<-|].
        { rewrite lookup_insert_eq. split; [lia|eauto]. }
        rewrite lookup_insert_ne by done. auto.
    + by apply (stable_upd h p l (λ l, l <| l_lock := l_lock l - 1 |>)).
    + intros q Hq. by rewrite lookup_insert_ne.
    + rewrite lookup_insert_eq. split; [done|]. intros (HR1 & k & Hk & Hd). simplify_eq.
      rewrite Hd in L1. cbn in L1. lia.
    + by apply (keeps_upd h p l (λ l, l <| l_lock := l_lock l - 1 |>)).
Qed.

Lemma heap_ok_ext h R R' : (∀ p, R p = R' p) → heap_ok h R → heap_ok h R'.
Proof.
  intros HR [H1 H2]. split.
  - intros p l Hp. rewrite <- HR. by apply H1.
  - intros p. rewrite <- HR. apply H2.
Qed.

Lemma alloc_ok h R l :
  heap_ok h R → l_lock l = 1 → discarded l = false → l_refresh_list l < 0 →
  ∃ p h', alloc_lsa l h = Some (p, h') ∧ h !! p = None ∧ h' = <[p := l]> h ∧ heap_ok h' R.
Proof.
  intros [H1 H2] Hl Hd Hr. unfold alloc_lsa. set (p := fresh (dom h)).
  assert (h !! p = None) as Hn by (apply not_elem_of_dom, is_fresh).
  exists p, (<[p := l]> h). split_and!; [done..|].
  assert (R p = 0) as HR0. { destruct (H2 p) as [R1 R2]. destruct (Z.lt_ge_cases 0 (R p)); [|lia].
    destruct (R2 H) as [? ?]. congruence. }
  split.
  - intros q k. destruct (decide (p = q)) as [<-|].
    + rewrite lookup_insert_eq. intros [= <-]. rewrite Hd, HR0. cbn. lia.
    + rewrite lookup_insert_ne by done. apply H1.
  - intros q. destruct (H2 q) as [R1 R2]. split; [done|]. intros Hq. destruct (decide (p = q)) as [<-|].
    + rewrite lookup_insert_eq. eauto.
    + rewrite lookup_insert_ne by done. auto.
Qed.

Lemma land_lor_self a b : (a ||| b) &&& b = b.
Proof.
  apply Z.bits_inj'. intros n _. rewrite Z.land_spec, Z.lor_spec. by destruct (Z.testbit a n), (Z.testbit b n).
Qed.

Lemma flag_other a f g : f &&& g = 0 → (a ||| f) &&& g = a &&& g.
Proof.
  intros Hfg. apply Z.bits_inj'. intros n _. rewrite !Z.land_spec, Z.lor_spec.
  assert (Z.testbit (f &&& g) n = false) as Hn by (rewrite Hfg; apply Z.bits_0).
  rewrite Z.land_spec in Hn. destruct (Z.testbit a n), (Z.testbit f n), (Z.testbit g n); done.
Qed.

(** Discarding drops the count of the creator; a second time it does nothing. *)
Lemma discard_ok h R p :
  heap_ok h R → is_Some (h !! p) →
  ∃ h', ospf_lsa_discard p h = Some (tt, h') ∧ heap_ok h' R ∧ stable h h' ∧
    (∀ q, q ≠ p → h' !! q = h !! q) ∧ (is_Some (h' !! p) ↔ 0 < R p).
Proof.
  intros Hok [l Hp]. pose proof Hok as [H1 H2]. destruct (H1 p l Hp) as (L1 & L2 & L3).
  unfold ospf_lsa_discard. erewrite fbind_run by exact (lsa_run h p l Hp).
  fold (discarded l). destruct (discarded l) eqn:Hd; cbn [negb].
  { exists h. split_and!; [done|done| |done|].
    - intros q k k' Hk Hk'. by simplify_eq.
    - rewrite Hp. cbn in L1. split; [lia|eauto]. }
  erewrite fbind_run by exact (upd_lsa_run h p l _ Hp).
  set (l' := l <| l_flags := l_flags l ||| OSPF_LSA_DISCARD |>).
  assert (discarded l' = true) as Hd'.
  { unfold discarded, CHECK_FLAG. cbn. by rewrite land_lor_self. }
  assert (stable h (<[p := l']> h)) as Hst.
  { apply (stable_upd h p l (λ l, l <| l_flags := l_flags l ||| OSPF_LSA_DISCARD |>)); [done|done| |].
    - unfold IS_LSA_SELF, CHECK_FLAG. cbn. by rewrite flag_other.
    - unfold lsa_fixed, CHECK_FLAG. cbn. by rewrite flag_other. }
  assert (heap_ok (<[p := l']> h) (plus1 R p 1)) as Hok'.
  { split.
    - intros q k. unfold plus1. destruct (decide (p = q)) as [<-|].
      + rewrite lookup_insert_eq. intros [= <-]. rewrite Hd'. cbn in L1 |- *. lia.
      + rewrite lookup_insert_ne by done. apply H1.
    - intros q. unfold plus1. destruct (H2 q) as [R1 R2]. destruct (decide (p = q)) as [<-|].
      + rewrite lookup_insert_eq. split; [lia|eauto].
      + rewrite lookup_insert_ne by done. auto. }
  assert (plus1 R p 1 p = R p + 1) as Hpp by (unfold plus1; by rewrite decide_True).
  assert (0 ≤ R p) by apply H2.
  destruct (unlock_ok _ _ p Hok') as (r & h' & Hrun & Hok'' & Hst' & Hother & Hfree & _); [lia|].
  erewrite fbind_run by exact Hrun. exists h'. split_and!; [done| | | |].
  - eapply heap_ok_ext; [|done]. intros q. unfold plus1. repeat case_decide; lia.
  - intros q k k' Hk Hk'. destruct (decide (q = p)) as [->|Hq].
    + destruct (Hst' p l' k') as (-> & -> & ->); [apply lookup_insert_eq|done|].
      destruct (Hst p k l') as (-> & -> & ->); [done|apply lookup_insert_eq|done].
    + rewrite Hother, lookup_insert_ne in Hk' by done. by simplify_eq.
  - intros q Hq. rewrite Hother by done. by rewrite lookup_insert_ne.
  - split.
    + intros [k Hk]. destruct (decide (R p = 0)) as [E|]; [|lia].
      enough (h' !! p = None) by congruence. apply Hfree. split; [lia|].
      exists l'. split; [apply lookup_insert_eq|done].
    + intros HR. destruct (h' !! p) eqn:E; [eauto|]. destruct Hfree as [[HR1 _] _]; [done|]. lia.
Qed.

(** ** The database *)

Section Lsdb.
Context {RT : Type → Type} `{RouteTableLaws RT}.

Implicit Types db : ospf_lsdb RT.
Implicit Types t : lsdb_type RT.

(** The LSAs of a database, and how often one occurs in a list. *)
Definition db_entries db : list nat := t ← db_type db; rt_entries (lt_db t).

Definition cnt (p : nat) (l : list nat) : Z := Z.of_nat (length (filter (λ q, p = q) l)).

Lemma cnt_app p l k : cnt p (l ++ k) = cnt p l + cnt p k.
Proof. unfold cnt. rewrite list.filter_app, length_app. lia. Qed.

Lemma cnt_cons p q l : cnt p (q :: l) = (if decide (p = q) then 1 else 0) + cnt p l.
Proof. unfold cnt. rewrite list.filter_cons. case_decide; cbn; lia. Qed.

Lemma cnt_perm p l k : l ≡ₚ k → cnt p l = cnt p k.
Proof. intros Hp. unfold cnt. by rewrite Hp. Qed.

Lemma cnt_elem p l : 0 < cnt p l ↔ p ∈ l.
Proof.
  unfold cnt. split.
  - intros Hl. destruct (filter _ l) as [|q k] eqn:E; [cbn in Hl; lia|].
    assert (q ∈ filter (λ q, p = q) l) as Hq by (rewrite E; left).
    by apply list_elem_of_filter in Hq as [-> Hq].
  - intros Hp. assert (p ∈ filter (λ q, p = q) l) as Hq by (by apply list_elem_of_filter).
    destruct (filter _ l); [by inversion Hq|]. cbn. lia.
Qed.

(** The sums of a table of LSAs: how many are self-originated, and the checksums. *)
Definition count_self_of (h : lheap) (l : list nat) : Z :=
  foldr (λ p n, (match h !! p with Some x => bit (IS_LSA_SELF x) | None => 0 end) + n) 0 l.
Definition checksum_of (h : lheap) (l : list nat) : Z :=
  foldr (λ p n, (match h !! p with Some x => h_checksum (l_data x) | None => 0 end) + n) 0 l.

Definition table_ok (h : lheap) (type : Z) t : Prop :=
  (∀ k p, rt_info k (lt_db t) = Some p →
    ∃ l, h !! p = Some l ∧ h_type (l_data l) = type ∧ lsdb_prefix_set l = k) ∧
  lt_count t = u64 (Z.of_nat (length (rt_entries (lt_db t)))) ∧
  lt_count_self t = u64 (count_self_of h (rt_entries (lt_db t))) ∧
  lt_checksum t = u32 (checksum_of h (rt_entries (lt_db t))).

(** Every entry is under its type and key, and the counters are those of the entries. *)
Definition db_ok (h : lheap) db : Prop :=
  length (db_type db) = 8%nat ∧
  (∀ i t, db_type db !! i = Some t → table_ok h (Z.of_nat i) t) ∧
  db_total db = u64 (Z.of_nat (length (db_entries db))).

Lemma sum_perm (h : lheap) (f : ospf_lsa → Z) l k :
  l ≡ₚ k →
  foldr (λ p n, (match h !! p with Some x => f x | None => 0 end) + n) 0 l =
  foldr (λ p n, (match h !! p with Some x => f x | None => 0 end) + n) 0 k.
Proof. intros Hp. induction Hp; cbn; lia. Qed.

Lemma sum_stable (h h' : lheap) (f : ospf_lsa → Z) l :
  (∀ p x x', h !! p = Some x → h' !! p = Some x' → f x' = f x) →
  (∀ p, p ∈ l → is_Some (h !! p) ∧ is_Some (h' !! p)) →
  foldr (λ p n, (match h' !! p with Some x => f x | None => 0 end) + n) 0 l =
  foldr (λ p n, (match h !! p with Some x => f x | None => 0 end) + n) 0 l.
Proof.
  intros Hf Hl. induction l as [|p l IH]; [done|]. cbn. rewrite IH by set_solver.
  destruct (Hl p) as [[x Hx] [x' Hx']]; [set_solver|]. rewrite Hx, Hx'. by rewrite (Hf p x x').
Qed.

Lemma table_ok_stable h h' type t :
  table_ok h type t → stable h h' → (∀ p, p ∈ rt_entries (lt_db t) → is_Some (h' !! p)) →
  table_ok h' type t.
Proof.
  intros (T1 & T2 & T3 & T4) Hst Hl.
  assert (∀ p, p ∈ rt_entries (lt_db t) → is_Some (h !! p) ∧ is_Some (h' !! p)) as Hl2.
  { intros p Hp. split; [|by apply Hl]. apply rt_entries_elem in Hp as [k Hk].
    destruct (T1 k p Hk) as (l & ? & _). eauto. }
  split_and!.
  - intros k p Hk. destruct (T1 k p Hk) as (l & Hp & Hty & Hpf).
    destruct (Hl p) as [l' Hp']; [apply rt_entries_elem; eauto|].
    destruct (Hst p l l' Hp Hp') as [Hd _]. exists l'. split; [done|].
    unfold lsdb_prefix_set. by rewrite Hd.
  - done.
  - rewrite T3. f_equal. symmetry. apply sum_stable; [|done].
    intros p x x' Hx Hx'. by destruct (Hst p x x' Hx Hx') as (_ & -> & _).
  - rewrite T4. f_equal. symmetry. apply sum_stable; [|done].
    intros p x x' Hx Hx'. by destruct (Hst p x x' Hx Hx') as [-> _].
Qed.

Lemma db_entries_elem db p : p ∈ db_entries db ↔ ∃ i t, db_type db !! i = Some t ∧ p ∈ rt_entries (lt_db t).
Proof.
  unfold db_entries. rewrite list_elem_of_bind. split.
  - intros (t & Hp & [i Hi]%list_elem_of_lookup). eauto.
  - intros (i & t & Hi & Hp). exists t. split; [done|]. by eapply list_elem_of_lookup_2.
Qed.

Lemma db_ok_stable h h' db :
  db_ok h db → stable h h' → (∀ p, p ∈ db_entries db → is_Some (h' !! p)) → db_ok h' db.
Proof.
  intros (D1 & D2 & D3) Hst Hl. split_and!; [done| |done]. intros i t Hi.
  eapply table_ok_stable; [by apply D2|done|]. intros p Hp. apply Hl, db_entries_elem. eauto.
Qed.

Lemma ldt_run db (i : nat) t h : db_type db !! i = Some t → ldt db (Z.of_nat i) h = Some (t, h).
Proof. intros Hi. unfold ldt, of_option. by rewrite arr_nat, Hi. Qed.

(** A table of the database replaced. *)
Lemma db_entries_set db (i : nat) t t' total :
  db_type db !! i = Some t →
  rt_entries (lt_db t') ++ db_entries db ≡ₚ
  rt_entries (lt_db t) ++ db_entries (set_ldt db (Z.of_nat i) t' total).
Proof.
  intros Hi. unfold db_entries, set_ldt. cbn [db_type]. rewrite Nat2Z.id.
  rewrite <- (take_drop_middle (db_type db) i t Hi) at 1.
  rewrite insert_take_drop by (by eapply lookup_lt_Some).
  assert (∀ x l, (x :: l) ≫= (λ t, rt_entries (lt_db t)) =
    rt_entries (lt_db x) ++ (l ≫= (λ t, rt_entries (lt_db t)))) as Hc by done.
  rewrite !bind_app, !Hc. set (a := take _ _ ≫= _). set (b := drop _ _ ≫= _).
  rewrite (Permutation_app_swap_app a (rt_entries (lt_db t)) b).
  rewrite (Permutation_app_swap_app a (rt_entries (lt_db t')) b).
  by rewrite (Permutation_app_swap_app (rt_entries (lt_db t')) (rt_entries (lt_db t))).
Qed.

Lemma db_ok_set h db (i : nat) t t' :
  db_ok h db → db_type db !! i = Some t → table_ok h (Z.of_nat i) t' →
  db_ok h (set_ldt db (Z.of_nat i) t'
    (u64 (Z.of_nat (length (db_entries db)) + Z.of_nat (length (rt_entries (lt_db t')))
          - Z.of_nat (length (rt_entries (lt_db t)))))).
Proof.
  intros (D1 & D2 & D3) Hi Ht'. split_and!.
  - unfold set_ldt. cbn. by rewrite length_insert.
  - intros j u. unfold set_ldt. cbn [db_type]. rewrite Nat2Z.id.
    intros [(-> & <- & _)|[_ Hj]]%list_lookup_insert_Some; [done|by apply D2].
  - cbn [db_total set_ldt]. set (total := u64 _).
    pose proof (db_entries_set db i t t' total Hi) as Hp.
    apply Permutation_length in Hp. rewrite !length_app in Hp.
    change (mk_lsdb (<[Z.to_nat (Z.of_nat i) := t']> (db_type db)) total)
      with (set_ldt db (Z.of_nat i) t' total).
    assert (Z.of_nat (length (db_entries (set_ldt db (Z.of_nat i) t' total))) =
      Z.of_nat (length (db_entries db)) + Z.of_nat (length (rt_entries (lt_db t')))
      - Z.of_nat (length (rt_entries (lt_db t)))) as -> by lia. done.
Qed.

(** What is under a key of a type. *)
Definition db_info db (i : nat) (k : Z) : option nat := t ← db_type db !! i; rt_info k (lt_db t).

Lemma u64_add a b : u64 (u64 a + b) = u64 (a + b).
Proof. apply Zplus_mod_idemp_l. Qed.
Lemma u32_add a b : u32 (u32 a + b) = u32 (a + b).
Proof. apply Zplus_mod_idemp_l. Qed.

(** A table with one entry set. *)
Lemma table_ok_set h (i : nat) t k p l c s m :
  table_ok h (Z.of_nat i) t → rt_info k (lt_db t) = None →
  h !! p = Some l → h_type (l_data l) = Z.of_nat i → lsdb_prefix_set l = k →
  c = u64 (lt_count t + 1) → s = u64 (lt_count_self t + bit (IS_LSA_SELF l)) →
  m = u32 (lt_checksum t + h_checksum (l_data l)) →
  table_ok h (Z.of_nat i) (mk_ldt c s m (rt_set k (Some p) (lt_db t))) ∧
  rt_entries (rt_set k (Some p) (lt_db t)) ≡ₚ p :: rt_entries (lt_db t).
Proof.
  intros (T1 & T2 & T3 & T4) Hk Hp Hty Hpf -> -> ->.
  pose proof (rt_entries_set k (Some p) (lt_db t)) as He. rewrite Hk in He. cbn in He.
  assert (∀ (f : ospf_lsa → Z),
    foldr (λ p n, (match h !! p with Some x => f x | None => 0 end) + n) 0
      (rt_entries (rt_set k (Some p) (lt_db t))) =
    f l + foldr (λ p n, (match h !! p with Some x => f x | None => 0 end) + n) 0 (rt_entries (lt_db t)))
    as Hsum.
  { intros f. rewrite <- (sum_perm h f _ _ He). cbn. by rewrite Hp. }
  split; [|done]. split_and!; cbn [lt_db lt_count lt_count_self lt_checksum].
  - intros k' q. rewrite rt_info_set. case_decide as Hd; [|by apply T1].
    intros [= <-]. subst k'. eauto.
  - apply Permutation_length in He. cbn in He. rewrite <- He, T2, u64_add. f_equal. lia.
  - rewrite T3, u64_add. f_equal. unfold count_self_of. rewrite Hsum. lia.
  - rewrite T4, u32_add. f_equal. unfold checksum_of. rewrite Hsum. lia.
Qed.

Lemma table_ok_clear h (i : nat) t k p l c s m :
  table_ok h (Z.of_nat i) t → rt_info k (lt_db t) = Some p → h !! p = Some l →
  c = u64 (lt_count t - 1) → s = u64 (lt_count_self t - bit (IS_LSA_SELF l)) →
  m = u32 (lt_checksum t - h_checksum (l_data l)) →
  table_ok h (Z.of_nat i) (mk_ldt c s m (rt_set k None (lt_db t))) ∧
  rt_entries (lt_db t) ≡ₚ p :: rt_entries (rt_set k None (lt_db t)).
Proof.
  intros (T1 & T2 & T3 & T4) Hk Hp -> -> ->.
  pose proof (rt_entries_set k None (lt_db t)) as He. rewrite Hk in He. cbn in He.
  assert (∀ (f : ospf_lsa → Z),
    foldr (λ p n, (match h !! p with Some x => f x | None => 0 end) + n) 0 (rt_entries (lt_db t)) =
    f l + foldr (λ p n, (match h !! p with Some x => f x | None => 0 end) + n) 0
      (rt_entries (rt_set k None (lt_db t)))) as Hsum.
  { intros f. rewrite (sum_perm h f _ _ He). cbn. by rewrite Hp. }
  split; [|done]. split_and!; cbn [lt_db lt_count lt_count_self lt_checksum].
  - intros k' q. rewrite rt_info_set. case_decide as Hd; [done|by apply T1].
  - apply Permutation_length in He. cbn in He. rewrite T2, <- Z.add_opp_r, u64_add. f_equal. lia.
  - rewrite T3, <- Z.add_opp_r, u64_add. f_equal. unfold count_self_of. rewrite Hsum. lia.
  - rewrite T4, <- Z.add_opp_r, u32_add. f_equal. unfold checksum_of. rewrite Hsum. lia.
Qed.

(** [db'] is [db] with the entry [p] taken out from under [k]. *)
Definition db_without db db' (i : nat) (k : Z) (p : nat) : Prop :=
  db_entries db ≡ₚ p :: db_entries db' ∧
  ∀ j k', db_info db' j k' = if decide (j = i ∧ k' = k) then None else db_info db j k'.

Lemma db_info_set db (i j : nat) t t' total k :
  db_type db !! i = Some t →
  db_info (set_ldt db (Z.of_nat i) t' total) j k =
  if decide (i = j) then rt_info k (lt_db t') else db_info db j k.
Proof.
  intros Hi. unfold db_info, set_ldt. cbn [db_type]. rewrite Nat2Z.id. case_decide as Hd.
  - subst j. by rewrite list_lookup_insert_eq by (by eapply lookup_lt_Some).
  - by rewrite list_lookup_insert_ne.
Qed.

Lemma lsdb_entry_deleted h R db (i : nat) t k p :
  db_ok h db → heap_ok h R → (∀ q, cnt q (db_entries db) ≤ R q) →
  db_type db !! i = Some t → rt_info k (lt_db t) = Some p →
  ∃ db' h', ospf_lsdb_delete_entry db (Z.of_nat i) k h = Some (db', h') ∧
    heap_ok h' (plus1 R p (-1)) ∧ db_ok h' db' ∧ db_without db db' i k p ∧
    stable h h' ∧ (∀ q, q ≠ p → h' !! q = h !! q) ∧ keeps h h'.
Proof.
  intros Hdb Hh HR Hi Hk. pose proof Hdb as (D1 & D2 & D3).
  destruct (D2 i t Hi) as (T1 & _). destruct (T1 k p Hk) as (l & Hp & Hty & Hpf).
  unfold ospf_lsdb_delete_entry. erewrite fbind_run by exact (ldt_run db i t h Hi). rewrite Hk.
  erewrite fbind_run by exact (lsa_run h p l Hp).
  assert ((h_type (l_data l) =? Z.of_nat i) = true) as Ha by (by apply Z.eqb_eq).
  erewrite fbind_run by exact (assert_run _ h Ha).
  assert (p ∈ db_entries db) as Hin.
  { apply db_entries_elem. exists i, t. split; [done|]. apply rt_entries_elem. eauto. }
  assert (0 < R p) as HRp by (pose proof (proj2 (cnt_elem p _) Hin); specialize (HR p); lia).
  destruct (unlock_ok h R p Hh HRp) as (r & h' & Hrun & Hh' & Hst & Hother & Hfree & Hkeep).
  erewrite fbind_run by exact Hrun.
  edestruct (table_ok_clear h i t k p l) as [Ht' He]; [by apply D2|done|done|done|done|done|].
  set (t' := mk_ldt _ (u64 (lt_count_self t - _)) _ _) in Ht'.
  assert (mk_ldt (u64 (lt_count t - 1))
     (if IS_LSA_SELF l then u64 (lt_count_self t - 1) else lt_count_self t)
     (u32 (lt_checksum t - h_checksum (l_data l))) (rt_set k None (lt_db t)) = t') as ->.
  { unfold t'. f_equal. destruct (IS_LSA_SELF l); [done|]. cbn. rewrite Z.sub_0_r.
    destruct (D2 i t Hi) as (_ & _ & -> & _). unfold u64. by rewrite Z.mod_mod. }
  pose proof (db_ok_set h db i t t' Hdb Hi Ht') as Hdb'.
  assert (u64 (db_total db - 1) = u64 (Z.of_nat (length (db_entries db)) +
    Z.of_nat (length (rt_entries (lt_db t'))) - Z.of_nat (length (rt_entries (lt_db t))))) as Htot.
  { rewrite D3, <- Z.add_opp_r, u64_add. f_equal. apply Permutation_length in He. cbn in He |- *. lia. }
  rewrite <- Htot in Hdb'. set (db' := set_ldt _ _ t' _) in *.
  assert (db_entries db ≡ₚ p :: db_entries db') as Hent.
  { pose proof (db_entries_set db i t t' (u64 (db_total db - 1)) Hi) as Hs. fold db' in Hs.
    rewrite He in Hs. cbn in Hs. rewrite Permutation_middle in Hs. by apply Permutation_app_inv_l in Hs. }
  exists db', h'. split_and!; [done|done| |split; [done|]|done|done|done].
  - eapply db_ok_stable; [exact Hdb'|done|]. intros q Hq.
    destruct Hh' as [_ H2]. apply H2. unfold plus1. specialize (HR q).
    rewrite (cnt_perm q _ _ Hent), cnt_cons in HR. pose proof (proj2 (cnt_elem q _) Hq).
    repeat case_decide; lia || congruence.
  - intros j k'. unfold db'. rewrite (db_info_set db i j t) by done. cbn [lt_db t'].
    rewrite rt_info_set. destruct (decide (i = j)) as [<-|Hij].
    + unfold db_info. rewrite Hi. cbn. destruct (decide (k = k')) as [<-|Hkk]; [by rewrite decide_True|].
      by rewrite decide_False by (intros [_ ?]; congruence).
    + by rewrite decide_False by (intros [? _]; congruence).
Qed.

(** The effect of an operation that turns the database [db] into [db']: the counts follow the entries. *)
Definition db_step (h h' : lheap) (R : nat → Z) db db' : Prop :=
  heap_ok h' (λ q, R q + cnt q (db_entries db') - cnt q (db_entries db)) ∧ db_ok h' db' ∧
  stable h h' ∧ (∀ q, is_Some (h' !! q) → is_Some (h !! q)) ∧ keeps h h'.

Lemma db_step_refl h R db : heap_ok h R → db_ok h db → db_step h h R db db.
Proof.
  intros Hh Hdb. split_and!; [|done| |done|].
  - eapply heap_ok_ext; [|done]. intros q. cbn. lia.
  - intros q l l' Hl Hl'. by simplify_eq.
  - intros q l Hl Hd. eauto.
Qed.

Lemma stable_trans (h h' h'' : lheap) :
  stable h h' → stable h' h'' → (∀ q, is_Some (h'' !! q) → is_Some (h' !! q)) → stable h h''.
Proof.
  intros S1 S2 Hd q l l'' Hl Hl''. destruct (Hd q) as [l' Hl']; [by eauto|].
  destruct (S1 q l l' Hl Hl') as (<- & <- & <-). by apply (S2 q).
Qed.

Lemma db_step_trans h h' h'' R db db' db'' :
  db_step h h' R db db' →
  db_step h' h'' (λ q, R q + cnt q (db_entries db') - cnt q (db_entries db)) db' db'' →
  db_step h h'' R db db''.
Proof.
  intros (A1 & A2 & A3 & A4 & A5) (B1 & B2 & B3 & B4 & B5).
  split_and!; [|done|by eapply stable_trans|by auto|].
  - eapply heap_ok_ext; [|exact B1]. intros q. cbn. lia.
  - intros q l Hl Hd. destruct (A5 q l Hl Hd) as (l' & Hl' & Hd'). by apply (B5 q l').
Qed.

Lemma delete_entry_step h R db (i : nat) t k :
  db_ok h db → heap_ok h R → (∀ q, cnt q (db_entries db) ≤ R q) → db_type db !! i = Some t →
  ∃ db' h', ospf_lsdb_delete_entry db (Z.of_nat i) k h = Some (db', h') ∧ db_step h h' R db db' ∧
    (∀ j k', db_info db' j k' = if decide (j = i ∧ k' = k) then None else db_info db j k') ∧
    (∀ q, rt_info k (lt_db t) ≠ Some q → h' !! q = h !! q).
Proof.
  intros Hdb Hh HR Hi. destruct (rt_info k (lt_db t)) as [p|] eqn:Hk.
  - destruct (lsdb_entry_deleted h R db i t k p Hdb Hh HR Hi Hk)
      as (db' & h' & Hrun & Hh' & Hdb' & [He Hinfo] & Hst & Ho & Hkeep).
    exists db', h'. split_and!; [done| |done|].
    + split_and!; [|done|done| |done].
      * eapply heap_ok_ext; [|exact Hh']. intros q. cbv beta. rewrite (cnt_perm q _ _ He), cnt_cons.
        unfold plus1. repeat case_decide; lia || congruence.
      * intros q Hq. destruct (decide (q = p)) as [->|]; [|by rewrite <- Ho].
        destruct Hdb as (_ & D2 & _). destruct (D2 i t Hi) as (T1 & _).
        destruct (T1 k p Hk) as (l & Hl & _). eauto.
    + intros q Hq. apply Ho. congruence.
  - exists db, h. unfold ospf_lsdb_delete_entry.
    erewrite fbind_run by exact (ldt_run db i t h Hi). rewrite Hk. split_and!; [done| | |done].
    + by apply db_step_refl.
    + intros j k'. case_decide as Hd; [|done]. destruct Hd as [-> ->]. unfold db_info. by rewrite Hi.
Qed.

Lemma step_cnt h h' R db db' q : db_step h h' R db db' → cnt q (db_entries db) ≤ R q →
  cnt q (db_entries db') ≤ R q + cnt q (db_entries db') - cnt q (db_entries db).
Proof. lia. Qed.

Lemma db_type_exists h db (i : nat) : db_ok h db → (i < 8)%nat → is_Some (db_type db !! i).
Proof. intros (D1 & _) Hi. apply lookup_lt_is_Some. by rewrite D1. Qed.

(** The second half of [ospf_lsdb_add]: the LSA is locked and put under a key that is free. *)
Lemma insert_entry_step h R db p l (i : nat) t :
  db_ok h db → heap_ok h R → (∀ q, cnt q (db_entries db) ≤ R q) → h !! p = Some l →
  h_type (l_data l) = Z.of_nat i → db_type db !! i = Some t → rt_info (lsdb_prefix_set l) (lt_db t) = None →
  ∃ h', ospf_lsa_lock p h = Some (p, h') ∧
    let db' := set_ldt db (Z.of_nat i)
      (mk_ldt (u64 (lt_count t + 1)) (if IS_LSA_SELF l then u64 (lt_count_self t + 1) else lt_count_self t)
         (u32 (lt_checksum t + h_checksum (l_data l))) (rt_set (lsdb_prefix_set l) (Some p) (lt_db t)))
      (u64 (db_total db + 1)) in
    db_step h h' R db db' ∧
    ∀ j k', db_info db' j k' = if decide (j = i ∧ k' = lsdb_prefix_set l) then Some p else db_info db j k'.
Proof.
  intros Hdb Hh HR Hp Hty Hi Hk. set (k := lsdb_prefix_set l) in *.
  destruct (lock_ok h R p Hh) as (h' & Hlock & Hh' & Hst & Hdom & Hkeep); [by eauto|].
  exists h'. split; [done|]. cbv zeta.
  destruct (proj1 (elem_of_dom h' p)) as [l' Hp']; [rewrite Hdom; apply elem_of_dom; eauto|].
  destruct (Hst p l l' Hp Hp') as (Hdata & Hself & _).
  assert (db_ok h' db) as Hdb'.
  { eapply db_ok_stable; [exact Hdb|done|]. intros q Hq. apply elem_of_dom. rewrite Hdom.
    apply elem_of_dom. destruct Hh as [_ H2]. apply H2. specialize (HR q).
    pose proof (proj2 (cnt_elem q _) Hq). lia. }
  pose proof Hdb' as (_ & D2 & D3).
  edestruct (table_ok_set h' i t k p l') as [Ht' He];
    [by apply D2|done|done|by rewrite Hdata|unfold k, lsdb_prefix_set; by rewrite Hdata
    |reflexivity|reflexivity|reflexivity|].
  set (t' := mk_ldt _ (u64 (lt_count_self t + _)) _ _) in Ht'.
  assert (mk_ldt (u64 (lt_count t + 1))
     (if IS_LSA_SELF l then u64 (lt_count_self t + 1) else lt_count_self t)
     (u32 (lt_checksum t + h_checksum (l_data l))) (rt_set k (Some p) (lt_db t)) = t') as ->.
  { unfold t'. rewrite Hdata, Hself. f_equal. destruct (IS_LSA_SELF l); [done|]. cbn. rewrite Z.add_0_r.
    destruct (D2 i t Hi) as (_ & _ & -> & _). unfold u64. by rewrite Z.mod_mod. }
  pose proof (db_ok_set h' db i t t' Hdb' Hi Ht') as Hdb2.
  assert (u64 (db_total db + 1) = u64 (Z.of_nat (length (db_entries db)) +
    Z.of_nat (length (rt_entries (lt_db t'))) - Z.of_nat (length (rt_entries (lt_db t))))) as Htot.
  { rewrite D3, u64_add. f_equal. apply Permutation_length in He. cbn in He |- *. lia. }
  rewrite <- Htot in Hdb2. set (db2 := set_ldt _ _ t' _) in *.
  assert (db_entries db2 ≡ₚ p :: db_entries db) as Hent.
  { pose proof (db_entries_set db i t t' (u64 (db_total db + 1)) Hi) as Hs. fold db2 in Hs.
    cbn [lt_db t'] in Hs. rewrite He in Hs. cbn in Hs. rewrite Permutation_middle in Hs.
    by apply Permutation_app_inv_l in Hs. }
  split; [split_and!; [|done|done| |done]|].
  - eapply heap_ok_ext; [|exact Hh']. intros q. cbv beta. rewrite (cnt_perm q _ _ Hent), cnt_cons.
    unfold plus1. repeat case_decide; lia || congruence.
  - intros q Hq. apply elem_of_dom. rewrite <- Hdom. by apply elem_of_dom.
  - intros j k'. unfold db2. rewrite (db_info_set db i j t) by done. cbn [lt_db t'].
    rewrite rt_info_set. destruct (decide (i = j)) as [<-|Hij].
    + unfold db_info. rewrite Hi. cbn. destruct (decide (k = k')) as [<-|Hkk]; [by rewrite decide_True|].
      by rewrite decide_False by (intros [_ ?]; congruence).
    + by rewrite decide_False by (intros [? _]; congruence).
Qed.

Lemma lsdb_add_ok h R db p l (i : nat) :
  db_ok h db → heap_ok h R → (∀ q, cnt q (db_entries db) ≤ R q) →
  h !! p = Some l → h_type (l_data l) = Z.of_nat i → (i < 8)%nat →
  ∃ db' h', ospf_lsdb_add db p h = Some (db', h') ∧ db_step h h' R db db' ∧
    ∀ j k', db_info db' j k' = if decide (j = i ∧ k' = lsdb_prefix_set l) then Some p else db_info db j k'.
Proof.
  intros Hdb Hh HR Hp Hty Hi8. destruct (db_type_exists h db i Hdb Hi8) as [t Hi].
  unfold ospf_lsdb_add. erewrite fbind_run by exact (lsa_run h p l Hp). cbv zeta. rewrite Hty.
  erewrite fbind_run by exact (ldt_run db i t h Hi). set (k := lsdb_prefix_set l).
  case_bool_decide as Hsame.
  { exists db, h. split_and!; [done|by apply db_step_refl|]. intros j k'.
    case_decide as Hd; [|done]. destruct Hd as [-> ->]. unfold db_info. by rewrite Hi. }
  destruct (delete_entry_step h R db i t k Hdb Hh HR Hi) as (db1 & h1 & Hrun1 & Hs1 & Hinfo1 & Hother1).
  assert ((match rt_info k (lt_db t) with
           | Some _ => ospf_lsdb_delete_entry db (Z.of_nat i) k
           | None => mret db
           end) h = Some (db1, h1)) as Hrun1'.
  { destruct (rt_info k (lt_db t)) eqn:Hk; [done|]. rewrite <- Hrun1. unfold ospf_lsdb_delete_entry.
    erewrite fbind_run by exact (ldt_run db i t h Hi). by rewrite Hk. }
  erewrite fbind_run by exact Hrun1'. pose proof Hs1 as (Hh1 & Hdb1 & _).
  destruct (db_type_exists h1 db1 i Hdb1 Hi8) as [t1 Hi1].
  erewrite fbind_run by exact (ldt_run db1 i t1 h1 Hi1).
  assert (rt_info k (lt_db t1) = None) as Hk1.
  { specialize (Hinfo1 i k). rewrite decide_True in Hinfo1 by done. unfold db_info in Hinfo1.
    by rewrite Hi1 in Hinfo1. }
  destruct (insert_entry_step h1 _ db1 p l i t1 Hdb1 Hh1) as (h2 & Hlock & Hs2 & Hinfo2);
    [intros q; specialize (HR q); lia|by rewrite Hother1|done|done|done|].
  erewrite fbind_run by exact Hlock. cbn [lt_count lt_count_self lt_checksum lt_db].
  eexists _, h2. split_and!; [done|by eapply db_step_trans|].
  intros j k'. rewrite Hinfo2. fold k. destruct (decide (j = i ∧ k' = k)) as [|Hd]; [done|].
  rewrite Hinfo1. by rewrite decide_False.
Qed.

Lemma lsdb_delete_ok h R db p l (i : nat) :
  db_ok h db → heap_ok h R → (∀ q, cnt q (db_entries db) ≤ R q) →
  h !! p = Some l → h_type (l_data l) = Z.of_nat i → (i < 8)%nat →
  ∃ db' h', ospf_lsdb_delete db p h = Some (db', h') ∧ db_step h h' R db db' ∧
    ∀ j k', db_info db' j k' =
      if decide (j = i ∧ k' = lsdb_prefix_set l ∧ db_info db j k' = Some p) then None else db_info db j k'.
Proof.
  intros Hdb Hh HR Hp Hty Hi8. destruct (db_type_exists h db i Hdb Hi8) as [t Hi].
  unfold ospf_lsdb_delete. erewrite fbind_run by exact (lsa_run h p l Hp). cbv zeta. rewrite Hty.
  assert ((Z.of_nat i <? OSPF_MAX_LSA) = true) as Ha by (apply Z.ltb_lt; unfold OSPF_MAX_LSA; lia).
  erewrite fbind_run by exact (assert_run _ h Ha).
  erewrite fbind_run by exact (ldt_run db i t h Hi).
  assert (db_info db i (lsdb_prefix_set l) = rt_info (lsdb_prefix_set l) (lt_db t)) as Hki
    by (unfold db_info; by rewrite Hi).
  case_bool_decide as Hsame.
  - destruct (delete_entry_step h R db i t (lsdb_prefix_set l) Hdb Hh HR Hi)
      as (db1 & h1 & Hrun1 & Hs1 & Hinfo1 & _).
    exists db1, h1. split_and!; [done|done|]. intros j k'. rewrite Hinfo1.
    destruct (decide (j = i ∧ k' = lsdb_prefix_set l)) as [[-> ->]|Hd].
    + by rewrite decide_True by (by rewrite Hki).
    + by rewrite decide_False by naive_solver.
  - exists db, h. split_and!; [done|by apply db_step_refl|]. intros j k'.
    rewrite decide_False; [done|]. intros (-> & -> & Hq). congruence.
Qed.

(** The walk over a table takes out every entry of it. *)
Lemma delete_walk_ok ks h R db (i : nat) :
  db_ok h db → heap_ok h R → (∀ q, cnt q (db_entries db) ≤ R q) → (i < 8)%nat →
  ∃ db' h', delete_walk ks (Z.of_nat i) db h = Some (db', h') ∧ db_step h h' R db db' ∧
    ∀ j k', db_info db' j k' = if decide (j = i ∧ k' ∈ ks) then None else db_info db j k'.
Proof.
  revert h R db. induction ks as [|k ks IH]; intros h R db Hdb Hh HR Hi8; cbn [delete_walk].
  { exists db, h. split_and!; [done|by apply db_step_refl|]. intros j k'.
    rewrite decide_False; [done|]. intros [_ Hk]. by inversion Hk. }
  destruct (db_type_exists h db i Hdb Hi8) as [t Hi].
  destruct (delete_entry_step h R db i t k Hdb Hh HR Hi) as (db1 & h1 & Hrun1 & Hs1 & Hinfo1 & _).
  erewrite fbind_run by exact Hrun1. pose proof Hs1 as (Hh1 & Hdb1 & _).
  destruct (IH h1 _ db1 Hdb1 Hh1) as (db2 & h2 & Hrun2 & Hs2 & Hinfo2);
    [intros q; specialize (HR q); lia|done|].
  exists db2, h2. split_and!; [done|by eapply db_step_trans|].
  intros j k'. rewrite Hinfo2. destruct (decide (j = i ∧ k' ∈ ks)) as [[-> Hk']|Hd].
  - by rewrite decide_True by set_solver.
  - rewrite Hinfo1. destruct (decide (j = i ∧ k' = k)) as [[-> ->]|Hd'].
    + by rewrite decide_True by set_solver.
    + rewrite decide_False; [done|]. intros [-> [->|]%elem_of_cons]; naive_solver.
Qed.

Lemma delete_types_ok types h R db :
  db_ok h db → heap_ok h R → (∀ q, cnt q (db_entries db) ≤ R q) →
  Forall (λ i, i < 8)%nat types →
  ∃ db' h', delete_types (Z.of_nat <$> types) db h = Some (db', h') ∧ db_step h h' R db db' ∧
    ∀ j k', db_info db' j k' = if decide (j ∈ types) then None else db_info db j k'.
Proof.
  revert h R db. induction types as [|i types IH]; intros h R db Hdb Hh HR Ht; cbn [delete_types fmap list_fmap].
  { exists db, h. split_and!; [done|by apply db_step_refl|]. intros j k'.
    rewrite decide_False; [done|]. intros Hk. by inversion Hk. }
  apply list.Forall_cons in Ht as [Hi8 Ht].
  destruct (db_type_exists h db i Hdb Hi8) as [t Hi].
  erewrite fbind_run by exact (ldt_run db i t h Hi).
  destruct (delete_walk_ok (rt_walk (lt_db t)) h R db i Hdb Hh HR Hi8) as (db1 & h1 & Hrun1 & Hs1 & Hinfo1).
  erewrite fbind_run by exact Hrun1. pose proof Hs1 as (Hh1 & Hdb1 & _).
  destruct (IH h1 _ db1 Hdb1 Hh1) as (db2 & h2 & Hrun2 & Hs2 & Hinfo2);
    [intros q; specialize (HR q); lia|done|].
  exists db2, h2. split_and!; [done|by eapply db_step_trans|].
  intros j k'. rewrite Hinfo2, Hinfo1. destruct (decide (j ∈ types)) as [Hj|Hj].
  - by rewrite decide_True by set_solver.
  - destruct (decide (j = i)) as [->|Hne].
    + rewrite (decide_True (P := i ∈ i :: types)) by set_solver. case_decide as Hd; [done|].
      unfold db_info. rewrite Hi. cbn. destruct (rt_info k' (lt_db t)) eqn:E; [|done].
      exfalso. apply Hd. split; [done|]. apply rt_walk_elem. eauto.
    + rewrite decide_False by naive_solver. by rewrite decide_False by set_solver.
Qed.

End Lsdb.

(** ** The system of the LSAs and the databases *)

Section System.
Context {RT : Type → Type} `{RouteTableLaws RT}.

(** The memory, the databases, and how many references to an object there are elsewhere. *)
Record lsa_sys := mk_sys { sy_heap : lheap; sy_dbs : list (ospf_lsdb RT); sy_held : nat → Z }.

Inductive lsa_op :=
  | Op_new (now : timeval) (data : lsa_header) (body : list Z)
  | Op_dup (p : nat)
  | Op_hold (p : nat)
  | Op_release (p : nat)
  | Op_discard (p : nat)
  | Op_new_db
  | Op_add (n : nat) (p : nat)
  | Op_delete (n : nat) (p : nat)
  | Op_delete_all (n : nat).

(** An operation of the memory, with the references elsewhere afterwards. *)
Definition on_heap {A} (x : fsM lheap A) (held : nat → Z) (s : lsa_sys) : option lsa_sys :=
  '(_, h) ← x (sy_heap s);
  Some (mk_sys h (sy_dbs s) held).

(** An operation on a database. *)
Definition on_db (n : nat) (f : ospf_lsdb RT → fsM lheap (ospf_lsdb RT)) (s : lsa_sys) : option lsa_sys :=
  db ← sy_dbs s !! n;
  '(db, h) ← f db (sy_heap s);
  Some (mk_sys h (<[n := db]> (sy_dbs s)) (sy_held s)).

Definition run_lsa_op (o : lsa_op) (s : lsa_sys) : option lsa_sys :=
  match o with
  | Op_new now data body => on_heap (ospf_lsa_new now data body) (sy_held s) s
  | Op_dup p => on_heap (ospf_lsa_dup p) (sy_held s) s
  | Op_hold p => on_heap (ospf_lsa_lock p) (plus1 (sy_held s) p 1) s
  | Op_release p => on_heap (ospf_lsa_unlock (Some p)) (plus1 (sy_held s) p (-1)) s
  | Op_discard p => on_heap (ospf_lsa_discard p) (sy_held s) s
  | Op_new_db => Some (mk_sys (sy_heap s) (sy_dbs s ++ [ospf_lsdb_new]) (sy_held s))
  | Op_add n p => on_db n (λ db, ospf_lsdb_add db p) s
  | Op_delete n p => on_db n (λ db, ospf_lsdb_delete db p) s
  | Op_delete_all n => on_db n ospf_lsdb_delete_all s
  end.

(** The object is there; it can go into a database if its type is one of those the databases have. *)
Definition live (s : lsa_sys) (p : nat) : Prop := is_Some (sy_heap s !! p).
Definition storable (s : lsa_sys) (p : nat) : Prop :=
  ∃ l, sy_heap s !! p = Some l ∧ 0 ≤ h_type (l_data l) < OSPF_MAX_LSA.

(** The pointers an operation is given are valid, and a release has a hold. *)
Definition op_ok (o : lsa_op) (s : lsa_sys) : Prop :=
  match o with
  | Op_new _ _ _ | Op_new_db => True
  | Op_dup p | Op_hold p | Op_discard p => live s p
  | Op_release p => 0 < sy_held s p
  | Op_add n p | Op_delete n p => is_Some (sy_dbs s !! n) ∧ storable s p
  | Op_delete_all n => is_Some (sy_dbs s !! n)
  end.

Inductive lsa_step : lsa_sys → lsa_sys → Prop :=
  lsa_step_op o s s' : op_ok o s → run_lsa_op o s = Some s' → lsa_step s s'.

Definition lsa_reachable (s : lsa_sys) : Prop := rtc lsa_step (mk_sys ∅ [] (λ _, 0)) s.

(** All references to an object. *)
Definition references (s : lsa_sys) (p : nat) : Z := sy_held s p + cnt p (sy_dbs s ≫= db_entries).

Definition sys_inv (s : lsa_sys) : Prop :=
  heap_ok (sy_heap s) (references s) ∧ (∀ p, 0 ≤ sy_held s p) ∧
  ∀ n db, sy_dbs s !! n = Some db → db_ok (sy_heap s) db.

Lemma dbs_entries_set (dbs : list (ospf_lsdb RT)) n db db' :
  dbs !! n = Some db →
  db_entries db' ++ (dbs ≫= db_entries) ≡ₚ db_entries db ++ (<[n := db']> dbs ≫= db_entries).
Proof.
  intros Hn. rewrite <- (take_drop_middle dbs n db Hn) at 1.
  rewrite insert_take_drop by (by eapply lookup_lt_Some).
  assert (∀ (x : ospf_lsdb RT) l, (x :: l) ≫= db_entries = db_entries x ++ (l ≫= db_entries)) as Hc by done.
  rewrite !bind_app, !Hc. set (a := take _ _ ≫= _). set (b := drop _ _ ≫= _).
  rewrite (Permutation_app_swap_app a (db_entries db) b).
  rewrite (Permutation_app_swap_app a (db_entries db') b).
  by rewrite (Permutation_app_swap_app (db_entries db') (db_entries db)).
Qed.

Lemma new_db_entries : db_entries (ospf_lsdb_new : ospf_lsdb RT) = [].
Proof.
  unfold db_entries, ospf_lsdb_new. cbn [db_type]. induction (Z.to_nat OSPF_MAX_LSA) as [|n IH]; [done|].
  cbn [replicate]. change (rt_entries (rt_init : RT nat) ++
    (replicate n (mk_ldt 0 0 0 rt_init) ≫= λ t : lsdb_type RT, rt_entries (lt_db t)) = []).
  by rewrite IH, rt_entries_init.
Qed.

Lemma cnt_nonneg p l : 0 ≤ cnt p l.
Proof. unfold cnt. lia. Qed.

Lemma cnt_dbs (dbs : list (ospf_lsdb RT)) n db p :
  dbs !! n = Some db → cnt p (db_entries db) ≤ cnt p (dbs ≫= db_entries).
Proof.
  intros Hn. pose proof (dbs_entries_set dbs n db ospf_lsdb_new Hn) as Hp.
  apply (cnt_perm p) in Hp. rewrite !cnt_app in Hp.
  rewrite new_db_entries in Hp. change (cnt p []) with 0 in Hp.
  pose proof (cnt_nonneg p (<[n := ospf_lsdb_new]> dbs ≫= db_entries)). lia.
Qed.

Lemma entry_alive s n db p :
  heap_ok (sy_heap s) (references s) → (∀ q, 0 ≤ sy_held s q) → sy_dbs s !! n = Some db →
  p ∈ db_entries db → is_Some (sy_heap s !! p).
Proof.
  intros [_ H2] Hx Hn Hp. apply H2. unfold references. specialize (Hx p).
  pose proof (proj2 (cnt_elem p _) Hp). pose proof (cnt_dbs _ n db p Hn). lia.
Qed.

(** An operation of the memory keeps the invariant if it keeps what the databases depend on. *)
Lemma on_heap_inv {A} (x : fsM lheap A) held s a h' :
  sys_inv s → x (sy_heap s) = Some (a, h') → stable (sy_heap s) h' →
  (∀ p, 0 ≤ held p) → heap_ok h' (λ p, held p + cnt p (sy_dbs s ≫= db_entries)) →
  ∃ s', on_heap x held s = Some s' ∧ sys_inv s' ∧ sy_dbs s' = sy_dbs s ∧ sy_heap s' = h'.
Proof.
  intros (I1 & I2 & I3) Hx Hst Hheld Hok. unfold on_heap. rewrite Hx. cbn. eexists. split; [done|].
  split; [|done]. split_and!; [done|done|]. intros n db Hn. cbn in *.
  eapply db_ok_stable; [by eapply I3|done|]. intros p Hp.
  by apply (entry_alive (mk_sys h' (sy_dbs s) held) n db p).
Qed.

Lemma on_db_inv n f s (Q : ospf_lsdb RT → ospf_lsdb RT → Prop) :
  sys_inv s → is_Some (sy_dbs s !! n) →
  (∀ db R, sy_dbs s !! n = Some db → db_ok (sy_heap s) db → heap_ok (sy_heap s) R →
    (∀ q, cnt q (db_entries db) ≤ R q) →
    ∃ db' h', f db (sy_heap s) = Some (db', h') ∧ db_step (sy_heap s) h' R db db' ∧ Q db db') →
  ∃ s' db db', on_db n f s = Some s' ∧ sys_inv s' ∧ keeps (sy_heap s) (sy_heap s') ∧
    sy_dbs s !! n = Some db ∧ sy_dbs s' = <[n := db']> (sy_dbs s) ∧ Q db db'.
Proof.
  intros (I1 & I2 & I3) [db Hn] Hf. unfold on_db. rewrite Hn.
  destruct (Hf db (references s) Hn (I3 n db Hn) I1) as (db' & h' & Hrun & (Hh & Hdb & Hst & Hdom & Hkeep) & HQ).
  { intros q. unfold references. pose proof (cnt_dbs _ n db q Hn). specialize (I2 q). lia. }
  cbn. rewrite Hrun. cbn. eexists _, db, db'. split; [done|].
  pose proof (dbs_entries_set (sy_dbs s) n db db' Hn) as Hp.
  assert (heap_ok h' (references (mk_sys h' (<[n := db']> (sy_dbs s)) (sy_held s)))) as Hh'.
  { eapply heap_ok_ext; [|exact Hh]. intros q. unfold references. cbn [sy_dbs sy_held].
    apply (cnt_perm q) in Hp. rewrite !cnt_app in Hp. lia. }
  split; [|done]. split_and!; [done|done|]. cbn [sy_dbs sy_heap]. intros m d Hm.
  apply list_lookup_insert_Some in Hm as [(<- & <- & _)|[Hne Hm]]; [done|].
  eapply db_ok_stable; [by eapply I3|done|]. intros p Hpe.
  apply (entry_alive (mk_sys h' (<[n := db']> (sy_dbs s)) (sy_held s)) m d p); [done|done| |done].
  cbn [sy_dbs]. by rewrite list_lookup_insert_ne.
Qed.

Lemma stable_fresh (h : lheap) p l : h !! p = None → stable h (<[p := l]> h).
Proof.
  intros Hp q k k' Hk Hk'. destruct (decide (p = q)) as [<-|]; [congruence|].
  rewrite lookup_insert_ne in Hk' by done. by simplify_eq.
Qed.

Lemma new_db_ok h : db_ok h (ospf_lsdb_new : ospf_lsdb RT).
Proof.
  split_and!; [done| |by rewrite new_db_entries]. intros i t [-> _]%lookup_replicate. split_and!; cbn.
  - intros k p. by rewrite rt_info_init.
  - by rewrite rt_entries_init.
  - by rewrite rt_entries_init.
  - by rewrite rt_entries_init.
Qed.

Lemma new_db_inv s :
  sys_inv s → sys_inv (mk_sys (sy_heap s) (sy_dbs s ++ [ospf_lsdb_new]) (sy_held s)).
Proof.
  intros (I1 & I2 & I3). split_and!; [|done|]; cbn [sy_heap sy_dbs sy_held].
  - eapply heap_ok_ext; [|exact I1]. intros p. unfold references. cbn [sy_dbs sy_held].
    rewrite bind_app, cnt_app. change ([ospf_lsdb_new] ≫= db_entries) with
      (db_entries (ospf_lsdb_new : ospf_lsdb RT) ++ []). rewrite new_db_entries. change (cnt p ([] ++ [])) with 0. lia.
  - intros n db [Hn|[_ Hn]]%lookup_app_Some; [by eapply I3|].
    apply list_lookup_singleton_Some in Hn as [_ <-]. apply new_db_ok.
Qed.

Lemma clr_flag a f g : f &&& g = 0 → clr a f &&& g = a &&& g.
Proof.
  intros Hfg. apply Z.bits_inj'. intros n Hn. unfold clr. rewrite !Z.land_spec, Z.lnot_spec by done.
  assert (Z.testbit (f &&& g) n = false) as Hb by (rewrite Hfg; apply Z.bits_0).
  rewrite Z.land_spec in Hb. destruct (Z.testbit a n), (Z.testbit f n), (Z.testbit g n); done.
Qed.

Lemma clr_self a f : clr a f &&& f = 0.
Proof.
  apply Z.bits_inj'. intros n Hn. unfold clr. rewrite !Z.land_spec, Z.lnot_spec, Z.bits_0 by done.
  by destruct (Z.testbit a n), (Z.testbit f n).
Qed.

Lemma keeps_fresh (h : lheap) p l : h !! p = None → keeps h (<[p := l]> h).
Proof. intros Hp q k Hk Hd. exists k. by rewrite lookup_insert_ne by congruence. Qed.

Lemma alloc_inv s l :
  sys_inv s → l_lock l = 1 → discarded l = false → l_refresh_list l < 0 →
  ∃ s' p, on_heap (alloc_lsa l) (sy_held s) s = Some s' ∧ sys_inv s' ∧ sy_dbs s' = sy_dbs s ∧
    sy_heap s !! p = None ∧ sy_heap s' = <[p := l]> (sy_heap s).
Proof.
  intros Hi Hl Hd Hr. pose proof Hi as (I1 & I2 & _).
  destruct (alloc_ok _ _ l I1 Hl Hd Hr) as (p & h' & Hrun & Hp & -> & Hok).
  destruct (on_heap_inv _ (sy_held s) s p (<[p := l]> (sy_heap s)) Hi Hrun) as (s' & H1 & H2 & H3 & H4);
    [by apply stable_fresh|done|done|]. by exists s', p.
Qed.

Lemma storable_type s p : storable s p →
  ∃ l (i : nat), sy_heap s !! p = Some l ∧ h_type (l_data l) = Z.of_nat i ∧ (i < 8)%nat.
Proof.
  intros (l & Hp & Ht). exists l, (Z.to_nat (h_type (l_data l))). unfold OSPF_MAX_LSA in Ht.
  split_and!; [done|lia|lia].
Qed.

(** What is under the key [k] of the type [i] in the database [n]. *)
Definition info_of (s : lsa_sys) (n i : nat) (k : Z) : option nat := db ← sy_dbs s !! n; db_info db i k.

(** The LSA [p] belongs under the key [k] of the type [i]. *)
Definition key_of (s : lsa_sys) (p i : nat) (k : Z) : bool :=
  match sy_heap s !! p with
  | Some l => (h_type (l_data l) =? Z.of_nat i) && (lsdb_prefix_set l =? k)
  | None => false
  end.

(** What an operation does to the databases. *)
Definition info_after (o : lsa_op) (s : lsa_sys) (n i : nat) (k : Z) : option nat :=
  match o with
  | Op_add m p => if bool_decide (m = n) && key_of s p i k then Some p else info_of s n i k
  | Op_delete m p =>
      if bool_decide (m = n) && key_of s p i k && bool_decide (info_of s n i k = Some p) then None
      else info_of s n i k
  | Op_delete_all m => if bool_decide (m = n ∧ (1 ≤ i < 8)%nat) then None else info_of s n i k
  | _ => info_of s n i k
  end.

(** What an operation does to the objects: only a new one, or a discarded one, comes or goes. *)
Definition objects_after (o : lsa_op) (s s' : lsa_sys) : Prop :=
  match o with
  | Op_new now data body =>
      ∃ p, sy_heap s !! p = None ∧ sy_heap s' = <[p := mk_lsa 0 data body now now 1 0 0 (-1)]> (sy_heap s)
  | Op_dup q =>
      ∃ p l l', sy_heap s !! p = None ∧ sy_heap s !! q = Some l ∧ sy_heap s' = <[p := l']> (sy_heap s) ∧
        l_data l' = l_data l ∧ l_body l' = l_body l ∧ l_lock l' = 1 ∧ discarded l' = false
  | Op_discard p =>
      (live s' p ↔ 0 < references s p) ∧ ∀ q, q ≠ p → sy_heap s' !! q = sy_heap s !! q
  | _ => keeps (sy_heap s) (sy_heap s')
  end.

Lemma key_of_spec s p l (i j : nat) k :
  sy_heap s !! p = Some l → h_type (l_data l) = Z.of_nat j →
  key_of s p i k = bool_decide (i = j ∧ k = lsdb_prefix_set l).
Proof.
  intros Hp Ht. unfold key_of. rewrite Hp, Ht. symmetry.
  destruct (Z.eqb_spec (Z.of_nat j) (Z.of_nat i)), (Z.eqb_spec (lsdb_prefix_set l) k); cbn;
    (apply bool_decide_eq_true_2; split; [lia|done]) || (apply bool_decide_eq_false_2; intros [? ?]; lia).
Qed.

Lemma info_of_set s s' n db db' m i k :
  sy_dbs s !! n = Some db → sy_dbs s' = <[n := db']> (sy_dbs s) →
  info_of s' m i k = if bool_decide (n = m) then db_info db' i k else info_of s m i k.
Proof.
  intros Hn Hs. unfold info_of. rewrite Hs. case_bool_decide as Hd.
  - subst m. by rewrite list_lookup_insert_eq by (by eapply lookup_lt_Some).
  - by rewrite list_lookup_insert_ne.
Qed.

Lemma info_of_same s s' m i k : sy_dbs s' = sy_dbs s → info_of s' m i k = info_of s m i k.
Proof. intros Hs. unfold info_of. by rewrite Hs. Qed.

Lemma info_of_new s h held m i k :
  info_of (mk_sys h (sy_dbs s ++ [ospf_lsdb_new]) held) m i k = info_of s m i k.
Proof.
  unfold info_of. cbn [sy_dbs]. destruct (sy_dbs s !! m) as [db|] eqn:Hm.
  - by rewrite (lookup_app_l_Some _ _ _ _ Hm).
  - rewrite lookup_app_r by (by apply lookup_ge_None). destruct ([ospf_lsdb_new] !! _) as [db|] eqn:Hd; [|done].
    apply list_lookup_singleton_Some in Hd as [_ <-]. cbn. unfold db_info.
    destruct (db_type _ !! i) as [t|] eqn:Ht; [|done].
    apply lookup_replicate in Ht as [-> _]. cbn. apply rt_info_init.
Qed.

Lemma db_add_after s n p :
  sys_inv s → is_Some (sy_dbs s !! n) → storable s p →
  ∃ s', on_db n (λ db, ospf_lsdb_add db p) s = Some s' ∧ sys_inv s' ∧ keeps (sy_heap s) (sy_heap s') ∧
    ∀ m i k, info_of s' m i k = info_after (Op_add n p) s m i k.
Proof.
  intros Hi Hn Hs. destruct (storable_type s p Hs) as (l & j & Hp & Hty & Hj8).
  destruct (on_db_inv n (λ db, ospf_lsdb_add db p) s (λ db db', ∀ i k, db_info db' i k =
    if decide (i = j ∧ k = lsdb_prefix_set l) then Some p else db_info db i k) Hi Hn)
    as (s' & db & db' & H1 & H2 & H3 & H4 & H5 & H6).
  { intros db R Hdb Hok Hh HR. by apply (lsdb_add_ok _ R db p l j). }
  exists s'. split_and!; [done|done|done|]. intros m i k. rewrite (info_of_set _ _ _ _ _ _ _ _ H4 H5).
  cbn [info_after]. rewrite (key_of_spec s p l i j k Hp Hty), H6.
  case_bool_decide as Hm; [subst m|done]. cbn. unfold info_of. rewrite H4. cbn.
  destruct (decide (i = j ∧ k = lsdb_prefix_set l)) as [Hd|Hd].
  - by rewrite bool_decide_eq_true_2.
  - by rewrite bool_decide_eq_false_2.
Qed.

Lemma db_delete_after s n p :
  sys_inv s → is_Some (sy_dbs s !! n) → storable s p →
  ∃ s', on_db n (λ db, ospf_lsdb_delete db p) s = Some s' ∧ sys_inv s' ∧ keeps (sy_heap s) (sy_heap s') ∧
    ∀ m i k, info_of s' m i k = info_after (Op_delete n p) s m i k.
Proof.
  intros Hi Hn Hs. destruct (storable_type s p Hs) as (l & j & Hp & Hty & Hj8).
  destruct (on_db_inv n (λ db, ospf_lsdb_delete db p) s (λ db db', ∀ i k, db_info db' i k =
    if decide (i = j ∧ k = lsdb_prefix_set l ∧ db_info db i k = Some p) then None else db_info db i k) Hi Hn)
    as (s' & db & db' & H1 & H2 & H3 & H4 & H5 & H6).
  { intros db R Hdb Hok Hh HR. by apply (lsdb_delete_ok _ R db p l j). }
  exists s'. split_and!; [done|done|done|]. intros m i k. rewrite (info_of_set _ _ _ _ _ _ _ _ H4 H5).
  cbn [info_after]. rewrite (key_of_spec s p l i j k Hp Hty), H6.
  case_bool_decide as Hm; [subst m|done]. cbn. unfold info_of. rewrite H4. cbn.
  destruct (decide (i = j ∧ k = lsdb_prefix_set l ∧ db_info db i k = Some p)) as [(? & ? & ?)|Hd].
  - by rewrite !bool_decide_eq_true_2.
  - repeat case_bool_decide; cbn; [|done..]. naive_solver.
Qed.

Lemma db_delete_all_after s n :
  sys_inv s → is_Some (sy_dbs s !! n) →
  ∃ s', on_db n ospf_lsdb_delete_all s = Some s' ∧ sys_inv s' ∧ keeps (sy_heap s) (sy_heap s') ∧
    ∀ m i k, info_of s' m i k = info_after (Op_delete_all n) s m i k.
Proof.
  intros Hi Hn.
  destruct (on_db_inv n ospf_lsdb_delete_all s (λ db db', ∀ i k, db_info db' i k =
    if decide (i ∈ seq 1 7) then None else db_info db i k) Hi Hn)
    as (s' & db & db' & H1 & H2 & H3 & H4 & H5 & H6).
  { intros db R Hdb Hok Hh HR. apply (delete_types_ok (seq 1 7) _ R db Hok Hh HR).
    by repeat constructor; lia. }
  exists s'. split_and!; [done|done|done|]. intros m i k. rewrite (info_of_set _ _ _ _ _ _ _ _ H4 H5).
  cbn [info_after]. rewrite H6. case_bool_decide as Hm.
  2:{ by rewrite bool_decide_eq_false_2 by tauto. }
  subst m. unfold info_of. rewrite H4. cbn [mbind option_bind].
  destruct (decide _) as [Hd|Hd]; rewrite elem_of_seq in Hd.
  - rewrite bool_decide_eq_true_2 by (split; [done|lia]). done.
  - rewrite bool_decide_eq_false_2 by (intros [_ ?]; lia). done.
Qed.

(** ** No assertion of the reference counts fails *)

Lemma lsa_op_ok o s : sys_inv s → op_ok o s →
  ∃ s', run_lsa_op o s = Some s' ∧ sys_inv s' ∧ objects_after o s s' ∧
    ∀ n i k, info_of s' n i k = info_after o s n i k.
Proof.
  intros Hi Hop. pose proof Hi as (I1 & I2 & I3).
  destruct o as [now data body|p|p|p|p| |n p|n p|n]; cbn [run_lsa_op op_ok objects_after] in *.
  - destruct (alloc_inv s (mk_lsa 0 data body now now 1 0 0 (-1))) as (s' & p & H1 & H2 & H3 & H4 & H5); [done..|].
    exists s'. split_and!; [done|done|by eauto|]. intros. by apply info_of_same.
  - destruct Hop as [l Hp]. set (l' := l <| l_flags := clr (l_flags l) OSPF_LSA_DISCARD |> <| l_lock := 1 |>
      <| l_retransmit_counter := 0 |> <| l_refresh_list := -1 |>).
    assert (discarded l' = false) as Hd by (unfold discarded, CHECK_FLAG; cbn; by rewrite clr_self).
    destruct (alloc_inv s l') as (s' & q & H1 & H2 & H3 & H4 & H5); [done..|].
    exists s'. split_and!; [|done|by exists q, l, l'|intros; by apply info_of_same].
    rewrite <- H1. unfold on_heap, ospf_lsa_dup. by erewrite fbind_run by exact (lsa_run _ p l Hp).
  - destruct (lock_ok _ _ p I1 Hop) as (h' & Hrun & Hok & Hst & _ & Hk).
    destruct (on_heap_inv _ (plus1 (sy_held s) p 1) s p h' Hi Hrun Hst) as (s' & H1 & H2 & H3 & H4).
    + intros q. unfold plus1. specialize (I2 q). case_decide; lia.
    + eapply heap_ok_ext; [|exact Hok]. intros q. unfold plus1, references. case_decide; lia.
    + exists s'. split_and!; [done|done|by rewrite H4|intros; by apply info_of_same].
  - destruct (unlock_ok _ (references s) p I1) as (r & h' & Hrun & Hok & Hst & _ & _ & Hk).
    { unfold references. pose proof (cnt_nonneg p (sy_dbs s ≫= db_entries)). lia. }
    destruct (on_heap_inv _ (plus1 (sy_held s) p (-1)) s r h' Hi Hrun Hst) as (s' & H1 & H2 & H3 & H4).
    + intros q. unfold plus1. specialize (I2 q). case_decide; [subst|]; lia.
    + eapply heap_ok_ext; [|exact Hok]. intros q. unfold plus1, references. case_decide; lia.
    + exists s'. split_and!; [done|done|by rewrite H4|intros; by apply info_of_same].
  - destruct (discard_ok _ _ p I1 Hop) as (h' & Hrun & Hok & Hst & Ho & Hfree).
    destruct (on_heap_inv _ (sy_held s) s tt h' Hi Hrun Hst) as (s' & H1 & H2 & H3 & H4); [done|done|].
    exists s'. unfold live. rewrite H4. split_and!; [done|done|done|done|]. intros. by apply info_of_same.
  - eexists. split_and!; [done|by apply new_db_inv|by intros q l Hl Hd; eauto|]. intros. apply info_of_new.
  - destruct Hop. by apply db_add_after.
  - destruct Hop. by apply db_delete_after.
  - by apply db_delete_all_after.
Qed.

Lemma lsa_reachable_inv s : lsa_reachable s → sys_inv s.
Proof.
  unfold lsa_reachable. set (s0 := mk_sys _ _ _).
  assert (sys_inv s0) as Hz0.
  { split_and!; [split|done|]; cbn; [done| |done]. intros p. change (references s0 p) with 0. lia. }
  intros Hr. revert Hz0. induction Hr as [|s1 s2 s3 Hst Hr IH]; [done|].
  intros Hi. apply IH. destruct Hst as [o s s' Hop Hrun].
  destruct (lsa_op_ok o s Hi Hop) as (s'' & Hrun' & Hi' & _). congruence.
Qed.


End System.
Arguments lsa_sys RT : clear implicits.

(** *** Witness: a router-LSA added to a new database *)

Definition ex_header : lsa_header := mk_lsah 1 2 OSPF_ROUTER_LSA 0x0a000001 0x0a000001 0x80000001 0x1234 36.
Definition ex_tv : timeval := mk_tv 100 0.
Definition ex_lsa : ospf_lsa := mk_lsa 0 ex_header [] ex_tv ex_tv 1 0 0 (-1).

