(* ===== verification/OspfVertex.v ===== *)
(** * OSPF: vertices, links and interfaces

    What the calculation of the shortest paths works on: the links in the bodies of router-LSAs and
    network-LSAs (ospf/ospf_lsa.h), read byte by byte from the memory that has them; the vertices of the
    tree (ospf/ospf_spf.h); the interfaces and the virtual links of the router (ospf/ospf_interface.c).
    A read behind the end of an LSA is a fault.  Addresses are numbers, the first byte on the wire
    the most significant one; comparing them as the code does, with [memcmp], is comparing the numbers. *)

From stdpp Require Import gmap.
From S2P Require Import Prelude Fault OspfTable OspfLsa.

(** ** Constants *)

Definition OSPF_VERTEX_ROUTER := 1.
Definition OSPF_VERTEX_NETWORK := 2.
Definition OSPF_VERTEX_PROCESSED := 0x01.

Definition LSA_LINK_TYPE_POINTOPOINT := 1.
Definition LSA_LINK_TYPE_TRANSIT := 2.
Definition LSA_LINK_TYPE_STUB := 3.
Definition LSA_LINK_TYPE_VIRTUALLINK := 4.

Definition ROUTER_LSA_BORDER := 0x01.
Definition ROUTER_LSA_EXTERNAL := 0x02.
Definition ROUTER_LSA_VIRTUAL := 0x04.
Definition ROUTER_LSA_SHORTCUT := 0x20.

Definition OSPF_ROUTER_LSA_LINK_SIZE := 12.
Definition OSPF_ROUTER_LSA_TOS_SIZE := 4.
Definition SIZEOF_ROUTER_LSA := 36.
Definition OSPF_OUTPUT_COST_INFINITE := 65535.

Definition OSPF_IFTYPE_POINTOPOINT := 1.
Definition OSPF_IFTYPE_BROADCAST := 2.
Definition OSPF_IFTYPE_POINTOMULTIPOINT := 4.
Definition OSPF_IFTYPE_VIRTUALLINK := 5.
Definition OSPF_VL_FLAG_APPROVED := 0x01.
Definition ISM_Down := 1.

Definition IPV4_MAX_BITLEN := 32.

(** ** Bytes of a body, from the end of the header on *)

Definition rd8 (b : list Z) (off : Z) : option Z := arr b off.
Definition rd16 (b : list Z) (off : Z) : option Z :=
  x ← rd8 b off; y ← rd8 b (off + 1); Some (x * 2 ^ 8 + y).
Definition rd32 (b : list Z) (off : Z) : option Z :=
  x ← rd16 b off; y ← rd16 b (off + 2); Some (x * 2 ^ 16 + y).

(** [struct router_lsa]: the flags and the number of links; [struct router_lsa_link] at an offset. *)
Definition rl_flags (b : list Z) : option Z := rd8 b 0.
Definition rl_links (b : list Z) : option Z := rd16 b 2.
Definition lk_link_id (b : list Z) (p : Z) : option Z := rd32 b p.
Definition lk_link_data (b : list Z) (p : Z) : option Z := rd32 b (p + 4).
Definition lk_type (b : list Z) (p : Z) : option Z := rd8 b (p + 8).
Definition lk_tos_count (b : list Z) (p : Z) : option Z := rd8 b (p + 9).
(** the value behind [ntohs] *)
Definition lk_metric (b : list Z) (p : Z) : option Z := rd16 b (p + 10).

(** [struct network_lsa] *)
Definition nl_mask (b : list Z) : option Z := rd32 b 0.
Definition nl_router (b : list Z) (i : Z) : option Z := rd32 b (4 + 4 * i).

(** The byte behind the last one, counted from the end of the header. *)
Definition lim (l : ospf_lsa) : Z := h_length (l_data l) - OSPF_LSA_HEADER_SIZE.

(** ** Links between LSAs *)

(** The two loops of [ospf_lsa_has_link].  Each round reads further on in the body, so that rounds
    for its length are enough to find a link, to reach the end, or to read behind the end. *)
Fixpoint has_link_network (fuel : nat) (b : list Z) (length i id : Z) : option Z :=
  match fuel with
  | O => None
  | S fuel =>
      if i <? length then
        r ← nl_router b i;
        if r =? id then Some i else has_link_network fuel b length (i + 1) id
      else Some (-1)
  end.

Fixpoint has_link_router (fuel : nat) (b : list Z) (links length i type id : Z) : option Z :=
  match fuel with
  | O => None
  | S fuel =>
      if (i <? links) && (length >=? SIZEOF_ROUTER_LSA) then
        let p := 4 + OSPF_ROUTER_LSA_LINK_SIZE * i in
        let next := has_link_router fuel b links (length - 12) (i + 1) type id in
        t ← lk_type b p;
        if (t =? LSA_LINK_TYPE_POINTOPOINT) || (t =? LSA_LINK_TYPE_VIRTUALLINK) then
          if type =? OSPF_ROUTER_LSA then
            x ← lk_link_id b p; if x =? id then Some i else next
          else next
        else if t =? LSA_LINK_TYPE_TRANSIT then
          if type =? OSPF_NETWORK_LSA then
            x ← lk_link_id b p; if x =? id then Some i else next
          else next
        else next
      else Some (-1)
  end.

(** The index of a link from [w] back to [v], or -1. *)
Definition ospf_lsa_has_link (w v : ospf_lsa) : option Z :=
  let fuel := S (S (length (l_body w))) in
  if h_type (l_data w) =? OSPF_NETWORK_LSA then
    if h_type (l_data v) =? OSPF_NETWORK_LSA then Some (-1)
    else has_link_network fuel (l_body w) (u32 (h_length (l_data w) - OSPF_LSA_HEADER_SIZE - 4) / 4) 0
           (h_id (l_data v))
  else if h_type (l_data w) =? OSPF_ROUTER_LSA then
    links ← rl_links (l_body w);
    has_link_router fuel (l_body w) links (h_length (l_data w)) 0 (h_type (l_data v)) (h_id (l_data v))
  else Some (-1).

(** ** Vertices *)

(** [struct vertex_nexthop]; an interface is its place in the list [oiflist]. *)
Record vertex_nexthop := mk_nh { nh_oi : option nat; nh_router : Z }.

(** [struct vertex_parent] *)
Record vertex_parent := mk_vp { vp_parent : nat; vp_backlink : Z; vp_nexthop : vertex_nexthop }.

(** [struct vertex]; [lsa] and [stat] point into one LSA. *)
Record vertex := mk_vertex {
  v_flags : Z;
  v_type : Z;
  v_id : Z;
  v_lsa : nat;
  v_distance : Z;
  v_parents : list vertex_parent;
  v_children : list nat
}.

Definition eta_vertex (v : vertex) : vertex :=
  mk_vertex (v_flags v) (v_type v) (v_id v) (v_lsa v) (v_distance v) (v_parents v) (v_children v).

#[export] Instance set_v_flags : Settable v_flags := ltac:(mk_setter eta_vertex).
#[export] Instance set_v_distance : Settable v_distance := ltac:(mk_setter eta_vertex).
#[export] Instance set_v_parents : Settable v_parents := ltac:(mk_setter eta_vertex).
#[export] Instance set_v_children : Settable v_children := ltac:(mk_setter eta_vertex).

(** The walk of [ospf_get_next_link] from [p] on: a link of type [type] to [id]. *)
Fixpoint next_link (fuel : nat) (b : list Z) (lim p type id : Z) : option (option Z) :=
  match fuel with
  | O => None
  | S fuel =>
      if p <? lim then
        n ← lk_tos_count b p;
        let next := next_link fuel b lim (p + (OSPF_ROUTER_LSA_LINK_SIZE + n * OSPF_ROUTER_LSA_TOS_SIZE)) type id in
        t ← lk_type b p;
        if t !=? type then next
        else
          x ← lk_link_id b p;
          if x =? id then Some (Some p) else next
      else Some None
  end.

(** [v] is the LSA of the vertex that has the links, [w] the vertex they lead to. *)
Definition ospf_get_next_link (v : ospf_lsa) (w : vertex) (prev_link : option Z) : option (option Z) :=
  let type := if v_type w =? OSPF_VERTEX_ROUTER then LSA_LINK_TYPE_POINTOPOINT else LSA_LINK_TYPE_TRANSIT in
  p ← (match prev_link with
       | None => Some 4
       | Some p =>
           n ← lk_tos_count (l_body v) p;
           Some (p + (OSPF_ROUTER_LSA_LINK_SIZE + n * OSPF_ROUTER_LSA_TOS_SIZE))
       end);
  next_link (S (S (length (l_body v)))) (l_body v) (lim v) p type (v_id w).

(** ** Prefixes.  The functions on them are in a library that is not part of the sources. *)

Record prefix := mk_prefix { p_addr : Z; p_len : Z }.

Class PrefixLib := {
  prefix_match : prefix → prefix → bool;
  prefix_cmp : prefix → prefix → Z;
  prefix_same : prefix → prefix → bool;
  ip_masklen : Z → Z;
  apply_mask : prefix → prefix
}.

(** The key of a prefix in a table. *)
Definition prefix_key (p : prefix) : Z := p_addr p * 2 ^ 8 + p_len p.

(** ** Interfaces *)

(** What the calculation reads of [struct ospf_interface]; [oi_connected] is [CONNECTED_PREFIX]. *)
Record ospf_interface := mk_oi {
  oi_type : Z;
  oi_address : prefix;
  oi_connected : prefix;
  oi_ifindex : Z
}.

(** The place of the first interface of the list that satisfies [f]. *)
Fixpoint first_if (f : ospf_interface → bool) (l : list ospf_interface) : option nat :=
  match l with
  | [] => None
  | oi :: l => if f oi then Some 0%nat else S <$> first_if f l
  end.

Section Interfaces.
Context {PL : PrefixLib} (oiflist : list ospf_interface).

Definition ospf_if_is_configured (address : Z) : option nat :=
  first_if (λ oi,
    if oi_type oi !=? OSPF_IFTYPE_VIRTUALLINK then
      if oi_type oi =? OSPF_IFTYPE_POINTOPOINT then
        prefix_match (oi_connected oi) (mk_prefix address IPV4_MAX_BITLEN)
      else address =? p_addr (oi_address oi)
    else false) oiflist.

(** with NULL for the interface *)
Definition ospf_if_lookup_by_local_addr (address : Z) : option nat :=
  first_if (λ oi,
    if oi_type oi !=? OSPF_IFTYPE_VIRTUALLINK then address =? p_addr (oi_address oi) else false) oiflist.

Definition ospf_if_lookup_by_prefix (p : prefix) : option nat :=
  first_if (λ oi,
    if oi_type oi !=? OSPF_IFTYPE_VIRTUALLINK then prefix_same (apply_mask (oi_connected oi)) p
    else false) oiflist.

End Interfaces.

(** ** Virtual links *)

(** [struct ospf_vl_data], with the fields of its interface [vl_oi] that are used. *)
Record ospf_vl_data := mk_vl {
  vl_peer : Z;
  vl_area_id : Z;
  vl_nexthop : vertex_nexthop;
  vl_peer_addr : Z;
  vl_flags : Z;
  vl_oi_state : Z;
  vl_oi_output_cost : Z;
  vl_oi_address : prefix
}.

(** [ospf_vl_lookup] without an area *)
Fixpoint ospf_vl_lookup (vlinks : list ospf_vl_data) (peer : Z) : option ospf_vl_data :=
  match vlinks with
  | [] => None
  | d :: vlinks => if vl_peer d =? peer then Some d else ospf_vl_lookup vlinks peer
  end.
