(* ===== verification/OspfRoute.v ===== *)
(** * OSPF: intra-area routes

    The routing table entries of ospf/ospf_route.c that the calculation of the shortest paths
    makes: for the border routers, for the transit networks and for the stub networks of an area.  The tables
    are the prefix tables of OspfTable.v; time stamps are left out. *)

From stdpp Require Import gmap.
From S2P Require Import Prelude Fault OspfTable OspfLsa OspfVertex.

Definition OSPF_DESTINATION_ROUTER := 1.
Definition OSPF_DESTINATION_NETWORK := 2.
Definition OSPF_PATH_INTRA_AREA := 1.
Definition OSPF_AREA_BACKBONE := 0.

(** [struct ospf_path] *)
Record ospf_path := mk_path { pa_nexthop : Z; pa_adv_router : Z; pa_ifindex : Z }.

(** [struct ospf_route]; [or_origin] points to the LSA whose header is the origin. *)
Record ospf_route := mk_route {
  or_type : Z;
  or_id : Z;
  or_path_type : Z;
  or_paths : list ospf_path;
  or_cost : Z;
  or_area_id : Z;
  or_external_routing : Z;
  or_origin : nat;
  or_options : Z;
  or_flags : Z
}.

Definition eta_route (r : ospf_route) : ospf_route :=
  mk_route (or_type r) (or_id r) (or_path_type r) (or_paths r) (or_cost r) (or_area_id r)
    (or_external_routing r) (or_origin r) (or_options r) (or_flags r).

#[export] Instance set_or_paths : Settable or_paths := ltac:(mk_setter eta_route).
#[export] Instance set_or_cost : Settable or_cost := ltac:(mk_setter eta_route).
#[export] Instance set_or_origin : Settable or_origin := ltac:(mk_setter eta_route).

(** The fields of [struct ospf_area] that the calculation reads and writes. *)
Record ospf_area := mk_area {
  ar_area_id : Z;
  ar_external_routing : Z;
  ar_router_lsa_self : option nat;
  ar_transit : Z;
  ar_shortcut_capability : Z;
  ar_abr_count : Z;
  ar_asbr_count : Z;
  ar_spf_calculation : Z
}.

Definition eta_area (a : ospf_area) : ospf_area :=
  mk_area (ar_area_id a) (ar_external_routing a) (ar_router_lsa_self a) (ar_transit a)
    (ar_shortcut_capability a) (ar_abr_count a) (ar_asbr_count a) (ar_spf_calculation a).

#[export] Instance set_ar_transit : Settable ar_transit := ltac:(mk_setter eta_area).
#[export] Instance set_ar_shortcut_capability : Settable ar_shortcut_capability := ltac:(mk_setter eta_area).
#[export] Instance set_ar_abr_count : Settable ar_abr_count := ltac:(mk_setter eta_area).
#[export] Instance set_ar_asbr_count : Settable ar_asbr_count := ltac:(mk_setter eta_area).
#[export] Instance set_ar_spf_calculation : Settable ar_spf_calculation := ltac:(mk_setter eta_area).

(** ** Paths *)

Section Routes.
Context {PL : PrefixLib} (oiflist : list ospf_interface).

(** [oi->ifp->ifindex] *)
Definition ifindex (oi : nat) : option Z := oi_ifindex <$> oiflist !! oi.

Definition ospf_path_exist (plist : list ospf_path) (nexthop index : Z) : bool :=
  existsb (λ p, (pa_nexthop p =? nexthop) && (pa_ifindex p =? index)) plist.

(** One parent of the vertex. *)
Definition copy_nexthop (paths : list ospf_path) (nh : vertex_nexthop) : option (list ospf_path) :=
  match nh_oi nh with
  | None => Some paths
  | Some oi =>
      i ← ifindex oi;
      Some (if ospf_path_exist paths (nh_router nh) i then paths else paths ++ [mk_path (nh_router nh) 0 i])
  end.

Fixpoint copy_nexthops (nhs : list vertex_nexthop) (paths : list ospf_path) : option (list ospf_path) :=
  match nhs with
  | [] => Some paths
  | nh :: nhs => paths ← copy_nexthop paths nh; copy_nexthops nhs paths
  end.

Definition ospf_route_copy_nexthops_from_vertex (to : ospf_route) (v : vertex) : option ospf_route :=
  paths ← copy_nexthops (vp_nexthop <$> v_parents v) (or_paths to);
  Some (to <| or_paths := paths |>).

(** ** Entries.  [h] is the memory of the LSAs. *)

Context {RT : Type → Type} `{RouteTable RT}.

(** A new entry of the area for the vertex. *)
Definition intra_route (a : ospf_area) (v : vertex) (type cost options flags : Z) : ospf_route :=
  mk_route type (v_id v) OSPF_PATH_INTRA_AREA [] cost (ar_area_id a) (ar_external_routing a) (v_lsa v)
    options flags.

(** [ospf_intra_add_router] behind the call of [ospf_vl_up_check] *)
Definition add_router (rt : RT (list ospf_route)) (v : vertex) (l : ospf_lsa) (a : ospf_area) :
  option (RT (list ospf_route) * ospf_area) :=
  flags ← rl_flags (l_body l);
  let a := if CHECK_FLAG flags ROUTER_LSA_SHORTCUT then a else a <| ar_shortcut_capability := 0 |> in
  if negb (CHECK_FLAG flags ROUTER_LSA_BORDER) && negb (CHECK_FLAG flags ROUTER_LSA_EXTERNAL) then Some (rt, a)
  else
    let a := if CHECK_FLAG flags ROUTER_LSA_BORDER then a <| ar_abr_count := ar_abr_count a + 1 |> else a in
    let a := if CHECK_FLAG flags ROUTER_LSA_EXTERNAL then a <| ar_asbr_count := ar_asbr_count a + 1 |> else a in
    let r := intra_route a v OSPF_DESTINATION_ROUTER (v_distance v) (h_options (l_data l)) flags in
    let k := prefix_key (mk_prefix (v_id v) IPV4_MAX_BITLEN) in
    r ← ospf_route_copy_nexthops_from_vertex r v;
    Some (rt_set k (Some (default [] (rt_info k rt) ++ [r])) rt, a).

(** [IPV4_ADDR_CMP] of the link state id of the origin of a route and that of an LSA. *)
Definition origin_cmp (h : lheap) (r : ospf_route) (l : ospf_lsa) : option Z :=
  o ← h !! or_origin r;
  Some (h_id (l_data o) - h_id (l_data l)).

Definition ospf_intra_add_transit (h : lheap) (rt : RT ospf_route) (v : vertex) (l : ospf_lsa) (a : ospf_area) :
  option (RT ospf_route) :=
  mask ← nl_mask (l_body l);
  let k := prefix_key (apply_mask (mk_prefix (v_id v) (ip_masklen mask))) in
  keep ← (match rt_info k rt with
          | Some cur =>
              if v_distance v >? or_cost cur then Some true
              else c ← origin_cmp h cur l; Some (c >? 0)
          | None => Some false
          end);
  if keep : bool then Some rt
  else
    r ← ospf_route_copy_nexthops_from_vertex
          (intra_route a v OSPF_DESTINATION_NETWORK (v_distance v) 0 0) v;
    Some (rt_set k (Some r) rt).

(** [p] is the offset of the link; [is_root] tells if [v] is the root of the tree. *)
Definition ospf_intra_add_stub (h : lheap) (rt : RT ospf_route) (p : Z) (v : vertex) (l : ospf_lsa)
  (a : ospf_area) (is_root parent_is_root : bool) : option (RT ospf_route) :=
  link_id ← lk_link_id (l_body l) p;
  link_data ← lk_link_data (l_body l) p;
  metric ← lk_metric (l_body l) p;
  let pf := apply_mask (mk_prefix link_id (ip_masklen link_data)) in
  let cost := u32 (v_distance v + metric) in
  if parent_is_root && (link_data =? 0xffffffff) &&
     bool_decide (is_Some (ospf_if_lookup_by_local_addr oiflist link_id)) then Some rt
  else
    let k := prefix_key pf in
    match rt_info k rt with
    | Some cur =>
        if cost >? or_cost cur then Some rt
        else if cost =? or_cost cur then
          cur ← ospf_route_copy_nexthops_from_vertex cur v;
          c ← origin_cmp h cur l;
          Some (rt_set k (Some (if c <? 0 then cur <| or_origin := v_lsa v |> else cur)) rt)
        else
          cur ← ospf_route_copy_nexthops_from_vertex (cur <| or_cost := cost |> <| or_paths := [] |>) v;
          Some (rt_set k (Some (cur <| or_origin := v_lsa v |>)) rt)
    | None =>
        let r := intra_route a v OSPF_DESTINATION_NETWORK cost 0 0 in
        r ← (if negb is_root then ospf_route_copy_nexthops_from_vertex r v
             else
               match ospf_if_lookup_by_prefix oiflist pf with
               | Some oi => i ← ifindex oi; Some (r <| or_paths := or_paths r ++ [mk_path 0 0 i] |>)
               | None => Some r
               end);
        Some (rt_set k (Some r) rt)
    end.

End Routes.
