(* ===== verification/OspfSpf.v ===== *)
(** * OSPF: the calculation of the shortest paths

    ospf/ospf_spf.c: the tree of the shortest paths of an area by the algorithm of Dijkstra, with the next
    hops of all shortest paths, and the routes it gives.  The priority queue of the candidates
    (lib/pqueue.h) is not part of the sources and is the class [PQueue]: its operations get the comparison
    function, and return the array and the calls of the [update] function in their order. *)

From stdpp Require Import gmap.
From S2P Require Import Prelude Fault OspfTable OspfLsa OspfVertex OspfRoute.

(** ** The queue of the candidates *)

(** The new array, and the nodes and positions [update] is called with. *)
Abbreviation pq_result := (list nat * list (nat * Z))%type.

Class PQueue := {
  pqueue_enqueue : (nat → nat → Z) → nat → list nat → pq_result;
  pqueue_dequeue : (nat → nat → Z) → list nat → option (nat * pq_result);
  trickle_up : (nat → nat → Z) → Z → list nat → pq_result
}.

(** ** State *)

(** Calls into other parts of the program. *)
Inductive spf_call :=
  | Call_ism_interface_up (vl : nat)
  | Call_router_lsa_update_backbone.

Section Spf.
Context {RT : Type → Type} `{RouteTable RT} {PL : PrefixLib} {PQ : PQueue}.

(** The clock, the interfaces, the database of the area. *)
Record spf_env := mk_env {
  e_now : timeval;
  e_oiflist : list ospf_interface;
  e_lsdb : ospf_lsdb RT;
  e_backbone : bool (* [ospf->backbone] is not NULL *)
}.

(** [sp_vertices] is [vertex_list]: a vertex is its place in it.  [sp_spf] is [area->spf]. *)
Record spf := mk_spf {
  sp_lsas : lheap;
  sp_vertices : list vertex;
  sp_candidate : list nat;
  sp_spf : nat;
  sp_area : ospf_area;
  sp_vlinks : list ospf_vl_data;
  sp_table : RT ospf_route;
  sp_rtrs : RT (list ospf_route);
  sp_calls : list spf_call
}.

Definition eta_spf (s : spf) : spf :=
  mk_spf (sp_lsas s) (sp_vertices s) (sp_candidate s) (sp_spf s) (sp_area s) (sp_vlinks s) (sp_table s)
    (sp_rtrs s) (sp_calls s).

#[export] Instance set_sp_lsas : Settable sp_lsas := ltac:(mk_setter eta_spf).
#[export] Instance set_sp_vertices : Settable sp_vertices := ltac:(mk_setter eta_spf).
#[export] Instance set_sp_candidate : Settable sp_candidate := ltac:(mk_setter eta_spf).
#[export] Instance set_sp_spf : Settable sp_spf := ltac:(mk_setter eta_spf).
#[export] Instance set_sp_area : Settable sp_area := ltac:(mk_setter eta_spf).
#[export] Instance set_sp_vlinks : Settable sp_vlinks := ltac:(mk_setter eta_spf).
#[export] Instance set_sp_table : Settable sp_table := ltac:(mk_setter eta_spf).
#[export] Instance set_sp_rtrs : Settable sp_rtrs := ltac:(mk_setter eta_spf).
#[export] Instance set_sp_calls : Settable sp_calls := ltac:(mk_setter eta_spf).

Local Abbreviation M := (fsM spf).

Definition vtx (x : nat) : M vertex := s ← gets sp_vertices; of_option (s !! x).
Definition upd_vtx (x : nat) (f : vertex → vertex) : M unit :=
  v ← vtx x; modify (λ s, s <| sp_vertices := <[x := f v]> (sp_vertices s) |>).
Definition lsa_at (p : nat) : M ospf_lsa := h ← gets sp_lsas; of_option (h !! p).
Definition set_stat (p : nat) (n : Z) : M unit :=
  zoom sp_lsas (λ h s, s <| sp_lsas := h |>) (upd_lsa p (λ l, l <| l_stat := n |>)).
Definition upd_area (f : ospf_area → ospf_area) : M unit := modify (λ s, s <| sp_area := f (sp_area s) |>).

(** ** Candidates *)

Definition cmp (v1 v2 : vertex) : Z :=
  if (u32 (v_distance v1 - v_distance v2) =? 0) && (v_type v1 !=? v_type v2) then
    if v_type v1 =? OSPF_VERTEX_NETWORK then -1
    else if v_type v1 =? OSPF_VERTEX_ROUTER then 1
    else 0
  else s32 (v_distance v1 - v_distance v2).

(** The comparison of two pointers. *)
Definition cmp_in (vs : list vertex) (x y : nat) : Z :=
  match vs !! x, vs !! y with Some v1, Some v2 => cmp v1 v2 | _, _ => 0 end.

Definition update_stat (x : nat) (position : Z) : M unit :=
  v ← vtx x; set_stat (v_lsa v) position.

Fixpoint update_all (us : list (nat * Z)) : M unit :=
  match us with
  | [] => mret tt
  | (x, n) :: us => update_stat x n;; update_all us
  end.

(** A queue operation and its calls of [update]. *)
Definition set_candidate (r : pq_result) : M unit :=
  modify (λ s, s <| sp_candidate := r.1 |>);; update_all r.2.

Definition enqueue (x : nat) : M unit :=
  s ← gets id;
  set_candidate (pqueue_enqueue (cmp_in (sp_vertices s)) x (sp_candidate s)).

Definition dequeue : M nat :=
  s ← gets id;
  r ← of_option (pqueue_dequeue (cmp_in (sp_vertices s)) (sp_candidate s));
  set_candidate r.2;;
  mret r.1.

Definition decrease (position : Z) : M unit :=
  s ← gets id;
  set_candidate (trickle_up (cmp_in (sp_vertices s)) position (sp_candidate s)).

(** ** Vertices *)

Definition ospf_vertex_new (p : nat) : M nat :=
  l ← lsa_at p;
  n ← gets (λ s, length (sp_vertices s));
  modify (λ s, s <| sp_vertices := sp_vertices s ++
    [mk_vertex 0 (h_type (l_data l)) (h_id (l_data l)) p 0 [] []] |>);;
  mret n.

Fixpoint add_to_parents (x : nat) (vps : list vertex_parent) : M unit :=
  match vps with
  | [] => mret tt
  | vp :: vps =>
      upd_vtx (vp_parent vp) (λ v,
        if bool_decide (x ∈ v_children v) then v else v <| v_children := v_children v ++ [x] |>);;
      add_to_parents x vps
  end.

Definition ospf_vertex_add_parent (x : nat) : M unit :=
  v ← vtx x; add_to_parents x (v_parents v).

Definition ospf_spf_init (self : nat) : M unit :=
  v ← ospf_vertex_new self;
  modify (λ s, s <| sp_spf := v |>);;
  upd_area (λ a, a <| ar_abr_count := 0 |> <| ar_asbr_count := 0 |>).

(** ** Next hops *)

Definition ospf_spf_add_parent (v w : nat) (newhop : vertex_nexthop) (distance : Z) : M unit :=
  assert (distance !=? 0);;
  wv ← vtx w;
  (if tst (v_distance wv) then assert (distance <=? v_distance wv)
   else upd_vtx w (λ x, x <| v_distance := distance |>));;
  wv ← vtx w;
  (if distance <? v_distance wv then upd_vtx w (λ x, x <| v_parents := [] |> <| v_distance := distance |>)
   else mret tt);;
  wv ← vtx w; wl ← lsa_at (v_lsa wv);
  vv ← vtx v; vl ← lsa_at (v_lsa vv);
  b ← of_option (ospf_lsa_has_link wl vl);
  upd_vtx w (λ x, x <| v_parents := v_parents x ++ [mk_vp v b newhop] |>).

Section Calculation.
Context (E : spf_env).

(** The search among the links [l2] of [wl] back to the root [v], where [address] is the interface [oi] that
    the link from the root belongs to: the link and the interface.  On a point-to-multipoint network the
    link must be on the network of the interface; otherwise it must lead to an interface with the address in the
    link data of the link from the root. *)
Fixpoint back_link_ptmp (fuel : nat) (wl : ospf_lsa) (v : vertex) (oi : ospf_interface) (l2 : option Z) :
  option (option Z) :=
  match fuel with
  | O => None
  | S fuel =>
      l2 ← ospf_get_next_link wl v l2;
      match l2 with
      | None => Some None
      | Some p =>
          d ← lk_link_data (l_body wl) p;
          if prefix_cmp (mk_prefix d (p_len (oi_address oi))) (oi_address oi) =? 0 then Some (Some p)
          else back_link_ptmp fuel wl v oi (Some p)
      end
  end.

Fixpoint back_link_ptp (fuel : nat) (wl : ospf_lsa) (v : vertex) (link_data : Z) (oi : option nat) (l2 : option Z) :
  option (option nat * option Z) :=
  match fuel with
  | O => None
  | S fuel =>
      l2 ← ospf_get_next_link wl v l2;
      match l2 with
      | None => Some (oi, None)
      | Some p =>
          d ← lk_link_data (l_body wl) p;
          let oi := ospf_if_is_configured (e_oiflist E) d in
          match oi with
          | None => back_link_ptp fuel wl v link_data oi (Some p)
          | Some i =>
              o ← e_oiflist E !! i;
              if p_addr (oi_address o) !=? link_data then back_link_ptp fuel wl v link_data oi (Some p)
              else Some (oi, Some p)
          end
      end
  end.

(** The part for [v == area->spf]: the next hop, if there is one, over the link at [l] of [vl]. *)
Definition root_nexthop (vlinks : list ospf_vl_data) (v : vertex) (vl : ospf_lsa) (w : vertex) (wl : ospf_lsa)
  (l : option Z) : option (option vertex_nexthop) :=
  l ← l;
  if v_type w =? OSPF_VERTEX_ROUTER then
    t ← lk_type (l_body vl) l;
    if t =? LSA_LINK_TYPE_POINTOPOINT then
      link_data ← lk_link_data (l_body vl) l;
      let oi := ospf_if_is_configured (e_oiflist E) link_data in
      let fuel := S (S (length (l_body wl))) in
      let ptp := back_link_ptp fuel wl v link_data oi None in
      r ← (match oi with
           | None => ptp
           | Some i =>
               o ← e_oiflist E !! i;
               if oi_type o =? OSPF_IFTYPE_POINTOMULTIPOINT then
                 l2 ← back_link_ptmp fuel wl v o None; Some (oi, l2)
               else ptp
           end);
      match r with
      | (Some i, Some l2) => d ← lk_link_data (l_body wl) l2; Some (Some (mk_nh (Some i) d))
      | _ => Some None
      end
    else if t =? LSA_LINK_TYPE_VIRTUALLINK then
      id ← lk_link_id (l_body vl) l;
      match ospf_vl_lookup vlinks id with
      | Some d => if CHECK_FLAG (vl_flags d) OSPF_VL_FLAG_APPROVED then Some (Some (vl_nexthop d)) else Some None
      | None => Some None
      end
    else Some None
  else if v_type w =? OSPF_VERTEX_NETWORK then
    link_data ← lk_link_data (l_body vl) l;
    match ospf_if_is_configured (e_oiflist E) link_data with
    | Some i => Some (Some (mk_nh (Some i) 0))
    | None => Some None
    end
  else None.

(** [while ((l = ospf_get_next_link (w, v, l)))] for one parent of the network [v], whose next hop is [nh]. *)
Fixpoint add_network_links (fuel : nat) (v w : nat) (vv : vertex) (wl : ospf_lsa) (nh : vertex_nexthop)
  (l : option Z) (distance : Z) (added : bool) : M bool :=
  match fuel with
  | O => fault
  | S fuel =>
      l ← of_option (ospf_get_next_link wl vv l);
      match l with
      | None => mret added
      | Some p =>
          d ← of_option (lk_link_data (l_body wl) p);
          ospf_spf_add_parent v w (mk_nh (nh_oi nh) d) distance;;
          add_network_links fuel v w vv wl nh l distance true
      end
  end.

(** The parents of the network that are the root; [l] is NULL behind the first one. *)
Fixpoint add_attached (vps : list vertex_parent) (root v w : nat) (vv wv : vertex) (wl : ospf_lsa) (l : option Z)
  (distance : Z) (added : bool) : M bool :=
  match vps with
  | [] => mret added
  | vp :: vps =>
      if bool_decide (vp_parent vp = root) then
        assert (v_type wv =? OSPF_VERTEX_ROUTER);;
        added ← add_network_links (S (S (length (l_body wl)))) v w vv wl (vp_nexthop vp) l distance added;
        add_attached vps root v w vv wv wl None distance added
      else add_attached vps root v w vv wv wl l distance added
  end.

Fixpoint add_inherited (vps : list vertex_parent) (v w : nat) (distance : Z) (added : bool) : M bool :=
  match vps with
  | [] => mret added
  | vp :: vps => ospf_spf_add_parent v w (vp_nexthop vp) distance;; add_inherited vps v w distance true
  end.

(** [l] is the offset of the link in the LSA of [v], or NULL. *)
Definition ospf_nexthop_calculation (v w : nat) (l : option Z) (distance : Z) : M bool :=
  root ← gets sp_spf;
  vv ← vtx v; vl ← lsa_at (v_lsa vv);
  wv ← vtx w; wl ← lsa_at (v_lsa wv);
  if bool_decide (v = root) then
    vlinks ← gets sp_vlinks;
    nh ← of_option (root_nexthop vlinks vv vl wv wl l);
    match nh with
    | Some nh => ospf_spf_add_parent v w nh distance;; mret true
    | None => mret false
    end
  else
    added ← (if v_type vv =? OSPF_VERTEX_NETWORK then add_attached (v_parents vv) root v w vv wv wl l distance false
             else mret false);
    if added : bool then mret true
    else add_inherited (v_parents vv) v w distance false.

(** ** One step of the algorithm *)

(** [ospf_lsa_lookup] and [ospf_lsa_lookup_by_id] for router-LSAs and for network-LSAs *)
Definition lookup_router (id : Z) : M (option nat) :=
  of_option (ospf_lsdb_lookup_by_id (e_lsdb E) OSPF_ROUTER_LSA id id).

Fixpoint lookup_network_walk (ks : list Z) (t : RT nat) (id : Z) : M (option nat) :=
  match ks with
  | [] => mret None
  | k :: ks =>
      match rt_info k t with
      | Some p =>
          l ← lsa_at p;
          if h_id (l_data l) =? id then mret (Some p) else lookup_network_walk ks t id
      | None => lookup_network_walk ks t id
      end
  end.

Definition lookup_network (id : Z) : M (option nat) :=
  t ← of_option (arr (db_type (e_lsdb E)) OSPF_NETWORK_LSA);
  lookup_network_walk (rt_walk (lt_db t)) (lt_db t) id.

(** The part of [ospf_spf_next] behind the search for the LSA [w_lsa] that the link at [l] of [v] leads to. *)
Definition spf_link (v : nat) (l : option Z) (w_lsa : option nat) : M unit :=
  match w_lsa with
  | None => mret tt
  | Some b =>
      wl ← lsa_at b;
      if IS_LSA_MAXAGE (e_now E) wl then mret tt
      else
        vv ← vtx v; vl ← lsa_at (v_lsa vv);
        back ← of_option (ospf_lsa_has_link wl vl);
        if back <? 0 then mret tt
        else if l_stat wl =? LSA_SPF_IN_SPFTREE then mret tt
        else
          metric ← (if h_type (l_data vl) =? OSPF_ROUTER_LSA then
                      l ← of_option l; of_option (lk_metric (l_body vl) l)
                    else mret 0);
          let distance := u32 (v_distance vv + metric) in
          if l_stat wl =? LSA_SPF_NOT_EXPLORED then
            w ← ospf_vertex_new b;
            ok ← ospf_nexthop_calculation v w l distance;
            if ok : bool then enqueue w else mret tt
          else if l_stat wl >=? 0 then
            c ← gets sp_candidate;
            w ← of_option (arr c (l_stat wl));
            wv ← vtx w;
            if v_distance wv <? distance then mret tt
            else if v_distance wv =? distance then
              ospf_nexthop_calculation v w l distance;; mret tt
            else
              ok ← ospf_nexthop_calculation v w l distance;
              if ok : bool then
                wl ← lsa_at b; decrease (l_stat wl)
              else mret tt
          else mret tt
  end.

(** What the link at [p] of the router [v] leads to; [None] for a link that is skipped. *)
Definition router_link_target (v root : nat) (b : list Z) (p : Z) : M (option (option nat)) :=
  t ← of_option (lk_type b p);
  if t =? LSA_LINK_TYPE_STUB then mret None
  else
    infinite ← (if bool_decide (v ≠ root) then
                  m ← of_option (lk_metric b p); mret (htons m >=? OSPF_OUTPUT_COST_INFINITE)
                else mret false);
    if infinite : bool then mret None
    else if (t =? LSA_LINK_TYPE_POINTOPOINT) || (t =? LSA_LINK_TYPE_VIRTUALLINK) then
      id ← of_option (lk_link_id b p); w ← lookup_router id; mret (Some w)
    else if t =? LSA_LINK_TYPE_TRANSIT then
      id ← of_option (lk_link_id b p); w ← lookup_network id; mret (Some w)
    else mret None.

Fixpoint spf_next_loop (fuel : nat) (v : nat) (p : Z) : M unit :=
  match fuel with
  | O => fault
  | S fuel =>
      root ← gets sp_spf;
      vv ← vtx v; vl ← lsa_at (v_lsa vv);
      if p <? lim vl then
        if h_type (l_data vl) =? OSPF_ROUTER_LSA then
          n ← of_option (lk_tos_count (l_body vl) p);
          w ← router_link_target v root (l_body vl) p;
          (match w with Some w => spf_link v (Some p) w | None => mret tt end);;
          spf_next_loop fuel v (p + (OSPF_ROUTER_LSA_LINK_SIZE + n * OSPF_ROUTER_LSA_TOS_SIZE))
        else
          r ← of_option (rd32 (l_body vl) p);
          w ← lookup_router r;
          spf_link v None w;;
          spf_next_loop fuel v (p + 4)
      else mret tt
  end.

Definition ospf_spf_next (v : nat) : M unit :=
  vv ← vtx v; vl ← lsa_at (v_lsa vv);
  (if v_type vv =? OSPF_VERTEX_ROUTER then
     flags ← of_option (rl_flags (l_body vl));
     if CHECK_FLAG flags ROUTER_LSA_VIRTUAL then upd_area (λ a, a <| ar_transit := 1 |>) else mret tt
   else mret tt);;
  spf_next_loop (S (S (length (l_body vl)))) v 4.

(** ** Virtual links *)

(** [ospf_vl_set_params] up to the address of the peer: [None] is the access to an interface that is not there. *)
Definition vl_set_nexthop (d : ospf_vl_data) (v : vertex) : option (ospf_vl_data * bool) :=
  let changed := vl_oi_output_cost d !=? v_distance v in
  let d := mk_vl (vl_peer d) (vl_area_id d) (vl_nexthop d) (vl_peer_addr d) (vl_flags d) (vl_oi_state d)
             (v_distance v) (vl_oi_address d) in
  match v_parents v with
  | [] => Some (d, changed)
  | vp :: _ =>
      i ← nh_oi (vp_nexthop vp);
      o ← e_oiflist E !! i;
      Some (mk_vl (vl_peer d) (vl_area_id d) (vp_nexthop vp) (vl_peer_addr d) (vl_flags d) (vl_oi_state d)
              (vl_oi_output_cost d) (oi_address o),
            changed || (p_addr (vl_oi_address d) !=? p_addr (oi_address o)))
  end.

(** The loop over all links that is used when there is no back link: the last link of the three types. *)
Fixpoint vl_any_link (links : nat) (b : list Z) (i : Z) (peer : Z) (changed : bool) : option (Z * bool) :=
  match links with
  | O => Some (peer, changed)
  | S links =>
      let p := 4 + OSPF_ROUTER_LSA_LINK_SIZE * i in
      t ← lk_type b p;
      if (t =? LSA_LINK_TYPE_VIRTUALLINK) || (t =? LSA_LINK_TYPE_TRANSIT) || (t =? LSA_LINK_TYPE_POINTOPOINT) then
        d ← lk_link_data b p;
        vl_any_link links b (i + 1) d (changed || (peer !=? d))
      else vl_any_link links b (i + 1) peer changed
  end.

Definition ospf_vl_set_params (d : ospf_vl_data) (v : vertex) (l : ospf_lsa) : option (ospf_vl_data * bool) :=
  '(d, changed) ← vl_set_nexthop d v;
  '(peer, changed) ←
    (match v_parents v with
     | vp :: _ =>
         if vp_backlink vp >=? 0 then
           a ← lk_link_data (l_body l) (4 + OSPF_ROUTER_LSA_LINK_SIZE * vp_backlink vp);
           Some (a, changed || (vl_peer_addr d !=? a))
         else n ← rl_links (l_body l); vl_any_link (Z.to_nat n) (l_body l) 0 (vl_peer_addr d) changed
     | [] => n ← rl_links (l_body l); vl_any_link (Z.to_nat n) (l_body l) 0 (vl_peer_addr d) changed
     end);
  Some (mk_vl (vl_peer d) (vl_area_id d) (vl_nexthop d) peer (vl_flags d) (vl_oi_state d) (vl_oi_output_cost d)
          (vl_oi_address d), changed).

Definition call (c : spf_call) : M unit := modify (λ s, s <| sp_calls := sp_calls s ++ [c] |>).

(** One virtual link, number [k]. *)
Definition vl_up_check_one (k : nat) (rid : Z) (v : vertex) (l : ospf_lsa) : M unit :=
  s ← gets id;
  d ← of_option (sp_vlinks s !! k);
  if (vl_peer d =? rid) && (vl_area_id d =? ar_area_id (sp_area s)) then
    let d := mk_vl (vl_peer d) (vl_area_id d) (vl_nexthop d) (vl_peer_addr d)
               (vl_flags d ||| OSPF_VL_FLAG_APPROVED) (vl_oi_state d) (vl_oi_output_cost d) (vl_oi_address d) in
    (if vl_oi_state d =? ISM_Down then call (Call_ism_interface_up k) else mret tt);;
    r ← of_option (ospf_vl_set_params d v l);
    modify (λ s, s <| sp_vlinks := <[k := r.1]> (sp_vlinks s) |>);;
    (if (r.2 : bool) && e_backbone E then call Call_router_lsa_update_backbone else mret tt)
  else mret tt.

Fixpoint vl_up_check_all (ks : list nat) (rid : Z) (v : vertex) (l : ospf_lsa) : M unit :=
  match ks with
  | [] => mret tt
  | k :: ks => vl_up_check_one k rid v l;; vl_up_check_all ks rid v l
  end.

Definition ospf_vl_up_check (rid : Z) (v : vertex) (l : ospf_lsa) : M unit :=
  n ← gets (λ s, length (sp_vlinks s)); vl_up_check_all (seq 0 n) rid v l.

(** ** Routes *)

Definition ospf_intra_add_router (x : nat) : M unit :=
  v ← vtx x; l ← lsa_at (v_lsa v);
  a ← gets sp_area;
  (if ar_area_id a !=? OSPF_AREA_BACKBONE then ospf_vl_up_check (h_id (l_data l)) v l else mret tt);;
  s ← gets id;
  r ← of_option (add_router (e_oiflist E) (sp_rtrs s) v l (sp_area s));
  modify (λ s, s <| sp_rtrs := r.1 |> <| sp_area := r.2 |>).

Definition add_transit (x : nat) : M unit :=
  v ← vtx x; l ← lsa_at (v_lsa v);
  s ← gets id;
  t ← of_option (ospf_intra_add_transit (e_oiflist E) (sp_lsas s) (sp_table s) v l (sp_area s));
  modify (λ s, s <| sp_table := t |>).

(** The links of the router [x] from [p] on. *)
Fixpoint stub_links (fuel : nat) (x : nat) (p : Z) (parent_is_root : bool) : M unit :=
  match fuel with
  | O => fault
  | S fuel =>
      v ← vtx x; l ← lsa_at (v_lsa v);
      if p <? lim l then
        n ← of_option (lk_tos_count (l_body l) p);
        t ← of_option (lk_type (l_body l) p);
        (if t =? LSA_LINK_TYPE_STUB then
           s ← gets id;
           t ← of_option (ospf_intra_add_stub (e_oiflist E) (sp_lsas s) (sp_table s) p v l (sp_area s)
                            (bool_decide (x = sp_spf s)) parent_is_root);
           modify (λ s, s <| sp_table := t |>)
         else mret tt);;
        stub_links fuel x (p + (OSPF_ROUTER_LSA_LINK_SIZE + n * OSPF_ROUTER_LSA_TOS_SIZE)) parent_is_root
      else mret tt
  end.

(** The loop over the children [cs] of [x]; [v] is the vertex. *)
Fixpoint process_children (process : nat → bool → M unit) (root x : nat) (v : vertex) (cs : list nat)
  (parent_is_root : bool) : M unit :=
  match cs with
  | [] => mret tt
  | c :: cs =>
      cv ← vtx c;
      if CHECK_FLAG (v_flags cv) OSPF_VERTEX_PROCESSED then process_children process root x v cs parent_is_root
      else
        let parent_is_root := if bool_decide (root = x) then true
                              else if v_type v =? OSPF_VERTEX_ROUTER then false else parent_is_root in
        process c parent_is_root;;
        upd_vtx c (λ v, v <| v_flags := v_flags v ||| OSPF_VERTEX_PROCESSED |>);;
        process_children process root x v cs parent_is_root
  end.

(** [fuel] is the depth of the recursion. *)
Fixpoint ospf_spf_process_stubs (fuel : nat) (x : nat) (parent_is_root : bool) : M unit :=
  match fuel with
  | O => fault
  | S fuel =>
      v ← vtx x;
      (if v_type v =? OSPF_VERTEX_ROUTER then
         l ← lsa_at (v_lsa v); stub_links (S (S (length (l_body l)))) x 4 parent_is_root
       else mret tt);;
      root ← gets sp_spf;
      process_children (ospf_spf_process_stubs fuel) root x v (v_children v) parent_is_root
  end.

(** ** The whole calculation *)

(** [for (;;)]: each round adds a vertex to the tree. *)
Fixpoint spf_loop (fuel : nat) (v : nat) : M unit :=
  match fuel with
  | O => fault
  | S fuel =>
      ospf_spf_next v;;
      c ← gets sp_candidate;
      match c with
      | [] => mret tt
      | _ =>
          v ← dequeue;
          vv ← vtx v;
          set_stat (v_lsa vv) LSA_SPF_IN_SPFTREE;;
          ospf_vertex_add_parent v;;
          (if v_type vv =? OSPF_VERTEX_ROUTER then ospf_intra_add_router v else add_transit v);;
          spf_loop fuel v
      end
  end.

(** The first stage, for an area with a router-LSA of its own.  There is a round for each LSA. *)
Definition spf_tree (self : nat) : M unit :=
  zoom sp_lsas (λ h s, s <| sp_lsas := h |>) (ospf_lsdb_clean_stat (e_lsdb E));;
  modify (λ s, s <| sp_candidate := [] |>);;
  ospf_spf_init self;;
  v ← gets sp_spf;
  vv ← vtx v;
  set_stat (v_lsa vv) LSA_SPF_IN_SPFTREE;;
  upd_area (λ a, a <| ar_transit := 0 |> <| ar_shortcut_capability := 1 |>);;
  n ← gets (λ s, size (sp_lsas s));
  spf_loop (S n) v.

Definition ospf_spf_calculate : M unit :=
  a ← gets sp_area;
  match ar_router_lsa_self a with
  | None => mret tt
  | Some self =>
      spf_tree self;;
      root ← gets sp_spf;
      n ← gets (λ s, length (sp_vertices s));
      ospf_spf_process_stubs (S n) root false;;
      modify (λ s, s <| sp_candidate := [] |> <| sp_vertices := [] |>);;
      upd_area (λ a, a <| ar_spf_calculation := ar_spf_calculation a + 1 |>)
  end.

End Calculation.

End Spf.
Arguments spf : clear implicits.
Arguments spf_env : clear implicits.
