(* ===== verification/OspfSpfGraph.v ===== *)
(** * OSPF: the graph of an area

    What the calculation of the shortest paths is about: the graph that the LSAs of a database describe, the
    paths in it, the shortest distances and the next hops of the shortest paths.  The second part
    relates the functions that read the bodies of LSAs to this description, for bodies that are well-formed. *)

From stdpp Require Import gmap sorting.
From S2P Require Import Prelude Fault OspfTable OspfLsa OspfLsaProps OspfVertex OspfRoute OspfSpf.

(** ** Well-formed bodies *)

(** A router-LSA with [n] links, without metrics for types of service; the cost of a link that
    is no stub is positive. *)
Definition router_ok (l : ospf_lsa) (n : nat) : Prop :=
  lim l = Z.of_nat (length (l_body l)) ∧ length (l_body l) = (4 + 12 * n)%nat ∧
  rl_links (l_body l) = Some (Z.of_nat n) ∧ Forall (λ b, 0 ≤ b < 2 ^ 8) (l_body l) ∧
  ∀ i, (i < n)%nat → lk_tos_count (l_body l) (4 + 12 * Z.of_nat i) = Some 0 ∧
    (lk_type (l_body l) (4 + 12 * Z.of_nat i) = Some LSA_LINK_TYPE_STUB ∨
     lk_metric (l_body l) (4 + 12 * Z.of_nat i) ≠ Some 0).

(** A network-LSA with [n] routers. *)
Definition network_ok (l : ospf_lsa) (n : nat) : Prop :=
  lim l = Z.of_nat (length (l_body l)) ∧ length (l_body l) = (4 + 4 * n)%nat ∧ lim l < 2 ^ 16.

Definition lsa_ok (l : ospf_lsa) : Prop :=
  (h_type (l_data l) = OSPF_ROUTER_LSA ∧ ∃ n, router_ok l n) ∨
  (h_type (l_data l) = OSPF_NETWORK_LSA ∧ ∃ n, network_ok l n).

(** ** The graph *)

(** An edge: the offset of the link in a router-LSA, the LSA it leads to, the cost. *)
Record edge := mk_edge { e_link : option Z; e_to : nat; e_cost : Z }.

Section Graph.
Context {RT : Type → Type} `{RouteTable RT} {PL : PrefixLib}.
Context (E : spf_env RT) (h0 : lheap) (vlinks : list ospf_vl_data) (self : nat).

(** The offsets of the links of a router-LSA, and of the routers of a network-LSA. *)
Definition link_offsets (l : ospf_lsa) : list Z :=
  (λ i, 4 + 12 * Z.of_nat i) <$> seq 0 (Z.to_nat ((lim l - 4) / 12)).
Definition router_offsets (l : ospf_lsa) : list Z :=
  (λ i, 4 + 4 * Z.of_nat i) <$> seq 0 (Z.to_nat ((lim l - 4) / 4)).

(** The LSA of a router, and that of a network. *)
Definition router_lsa (id : Z) : option nat := db_info (e_lsdb E) 1 (prefix_ls id id).
Definition network_lsa (id : Z) : option nat :=
  t ← db_type (e_lsdb E) !! 2%nat;
  head (filter (λ p, h_id ∘ l_data <$> h0 !! p = Some id) (rt_entries (lt_db t))).

(** The link at [p] of the router-LSA [l] leads to the LSA [to]. *)
Definition link_to (l to : ospf_lsa) (p : Z) : Prop :=
  lk_link_id (l_body l) p = Some (h_id (l_data to)) ∧
  ((lk_type (l_body l) p = Some LSA_LINK_TYPE_POINTOPOINT ∨
    lk_type (l_body l) p = Some LSA_LINK_TYPE_VIRTUALLINK) ∧ h_type (l_data to) = OSPF_ROUTER_LSA ∨
   lk_type (l_body l) p = Some LSA_LINK_TYPE_TRANSIT ∧ h_type (l_data to) = OSPF_NETWORK_LSA).

#[export] Instance link_to_dec l to p : Decision (link_to l to p).
Proof. unfold link_to. apply _. Defined.

(** [l] has a link to [to]. *)
Definition leads_to (l to : ospf_lsa) : Prop :=
  h_type (l_data l) = OSPF_ROUTER_LSA ∧ Exists (link_to l to) (link_offsets l) ∨
  h_type (l_data l) = OSPF_NETWORK_LSA ∧ h_type (l_data to) = OSPF_ROUTER_LSA ∧
    Exists (λ p, rd32 (l_body l) p = Some (h_id (l_data to))) (router_offsets l).

#[export] Instance leads_to_dec l to : Decision (leads_to l to).
Proof. unfold leads_to. apply _. Defined.

(** [b] is not too old and has a link back. *)
Definition linked_back (la : ospf_lsa) (b : nat) : Prop :=
  match h0 !! b with
  | Some lb => IS_LSA_MAXAGE (e_now E) lb = false ∧ leads_to lb la
  | None => False
  end.

#[export] Instance linked_back_dec la b : Decision (linked_back la b).
Proof. unfold linked_back. case_match; apply _. Defined.

(** The edge of the link at [p]: the links of the root count even if their cost is infinite. *)
Definition link_target (l : ospf_lsa) (p : Z) : option nat :=
  t ← lk_type (l_body l) p;
  id ← lk_link_id (l_body l) p;
  if (t =? LSA_LINK_TYPE_POINTOPOINT) || (t =? LSA_LINK_TYPE_VIRTUALLINK) then router_lsa id
  else if t =? LSA_LINK_TYPE_TRANSIT then network_lsa id
  else None.

Definition link_edge (a : nat) (l : ospf_lsa) (p : Z) : option edge :=
  m ← lk_metric (l_body l) p;
  b ← link_target l p;
  if decide ((a = self ∨ m ≠ OSPF_OUTPUT_COST_INFINITE) ∧ linked_back l b) then Some (mk_edge (Some p) b m)
  else None.

Definition router_edge (l : ospf_lsa) (p : Z) : option edge :=
  id ← rd32 (l_body l) p;
  b ← router_lsa id;
  if decide (linked_back l b) then Some (mk_edge None b 0) else None.

(** The edges from an LSA. *)
Definition edges_of (a : nat) (l : ospf_lsa) : list edge :=
  if decide (h_type (l_data l) = OSPF_ROUTER_LSA) then omap (link_edge a l) (link_offsets l)
  else omap (router_edge l) (router_offsets l).

Definition edges (a : nat) : list edge :=
  match h0 !! a with Some l => edges_of a l | None => [] end.

(** ** Paths *)

(** The vertex of an LSA, before it has a distance. *)
Definition new_vertex (p : nat) (l : ospf_lsa) : vertex :=
  mk_vertex 0 (h_type (l_data l)) (h_id (l_data l)) p 0 [] [].

(** The next hop over an edge of the root; there is none over a link for which the router has no interface. *)
Definition root_hop (e : edge) : option vertex_nexthop :=
  ls ← h0 !! self;
  lw ← h0 !! e_to e;
  r ← root_nexthop E vlinks (new_vertex self ls) ls (new_vertex (e_to e) lw) lw (e_link e);
  r.

(** An edge that can be used: any edge but those of the root that have no next hop. *)
Definition usable (a : nat) (e : edge) : Prop :=
  e ∈ edges a ∧ (a = self → is_Some (root_hop e)).

(** [d] is the length of a path from the root to [b]. *)
Inductive reach : nat → Z → Prop :=
  | reach_root : reach self 0
  | reach_edge a d e : reach a d → usable a e → reach (e_to e) (d + e_cost e).

(** [d] is the distance of [b]. *)
Definition spf_dist (b : nat) (d : Z) : Prop := reach b d ∧ ∀ d', reach b d' → d ≤ d'.

(** [e] is the last edge of a shortest path. *)
Definition tight (a : nat) (e : edge) : Prop :=
  usable a e ∧ ∃ d, spf_dist a d ∧ spf_dist (e_to e) (d + e_cost e).

(** The network [a] is attached to the root by a shortest path, over the interface of the next hop [h]. *)
Definition attached (a : nat) (h : vertex_nexthop) : Prop :=
  ∃ e, tight self e ∧ e_to e = a ∧ root_hop e = Some h.

Definition is_network (a : nat) : Prop := ∃ l, h0 !! a = Some l ∧ h_type (l_data l) = OSPF_NETWORK_LSA.

(** The addresses of [b] on the network [a]. *)
Definition back_address (a b : nat) (d : Z) : Prop :=
  ∃ la lb p, h0 !! a = Some la ∧ h0 !! b = Some lb ∧ p ∈ link_offsets lb ∧
    lk_type (l_body lb) p = Some LSA_LINK_TYPE_TRANSIT ∧ lk_link_id (l_body lb) p = Some (h_id (l_data la)) ∧
    lk_link_data (l_body lb) p = Some d.

(** The next hops of the shortest paths to [b] whose last step is from [a] (RFC 2328, section 16.1.1). *)
Inductive next_hop : nat → nat → vertex_nexthop → Prop :=
  | hop_root e h : tight self e → root_hop e = Some h → next_hop (e_to e) self h
  | hop_network a e h d :
      a ≠ self → tight a e → is_network a → attached a h → back_address a (e_to e) d →
      next_hop (e_to e) a (mk_nh (nh_oi h) d)
  | hop_inherited a p e h :
      a ≠ self → tight a e → ¬ (is_network a ∧ ∃ h, attached a h) → next_hop a p h → next_hop (e_to e) a h.

End Graph.
