(* ===== verification/OspfSpfRead.v ===== *)
(** * OSPF: reading well-formed LSAs

    On well-formed bodies the functions that search the links of an LSA do not read behind its end, and find
    what the description of the graph in OspfSpfGraph.v says. *)

From stdpp Require Import gmap sorting.
From S2P Require Import Prelude Fault OspfTable OspfLsa OspfLsaProps OspfVertex OspfRoute OspfSpf OspfSpfGraph.

(** ** Bytes *)

Lemma rd8_some b p : 0 ≤ p < Z.of_nat (length b) → is_Some (rd8 b p).
Proof. intros Hp. unfold rd8. rewrite arr_lookup by lia. apply lookup_lt_is_Some. lia. Qed.

Lemma rd16_some b p : 0 ≤ p → p + 2 ≤ Z.of_nat (length b) → is_Some (rd16 b p).
Proof.
  intros Hp Hl. unfold rd16. destruct (rd8_some b p) as [x ->]; [lia|].
  destruct (rd8_some b (p + 1)) as [y ->]; [lia|]. cbn. eauto.
Qed.

Lemma rd32_some b p : 0 ≤ p → p + 4 ≤ Z.of_nat (length b) → is_Some (rd32 b p).
Proof.
  intros Hp Hl. unfold rd32. destruct (rd16_some b p) as [x ->]; [lia..|].
  destruct (rd16_some b (p + 2)) as [y ->]; [lia..|]. cbn. eauto.
Qed.

Lemma rd16_range b p x : Forall (λ b, 0 ≤ b < 2 ^ 8) b → rd16 b p = Some x → 0 ≤ x < 2 ^ 16.
Proof.
  intros Hb. unfold rd16, rd8. destruct (arr b p) as [u|] eqn:Eu; [|done]. cbn.
  destruct (arr b (p + 1)) as [w|] eqn:Ew; [|done]. cbn. intros [= <-].
  assert (∀ q z, arr b q = Some z → 0 ≤ z < 2 ^ 8) as Hr.
  { intros q z Hq. unfold arr in Hq. case_match; [done|].
    by apply (list.Forall_lookup_1 (λ b, 0 ≤ b < 2 ^ 8) b (Z.to_nat q) z). }
  apply Hr in Eu. apply Hr in Ew. lia.
Qed.

(** An infinite cost is the same in both byte orders. *)
Lemma htons_infinite m : 0 ≤ m < 2 ^ 16 → (htons m >=? OSPF_OUTPUT_COST_INFINITE) = (m =? OSPF_OUTPUT_COST_INFINITE).
Proof.
  intros Hm. unfold htons, OSPF_OUTPUT_COST_INFINITE. rewrite u16_small, bswap16_spec by done.
  pose proof (Z.div_mod m (2 ^ 8) ltac:(lia)). pose proof (Z.mod_pos_bound m (2 ^ 8) ltac:(lia)).
  assert (0 ≤ m / 2 ^ 8 < 2 ^ 8) by (split; [apply Z.div_pos; lia|apply Z.div_lt_upper_bound; lia]).
  rewrite (Z.mod_small (m / 2 ^ 8)) by done.
  destruct (Z.eqb_spec m 65535), (Z.geb_spec (m mod 2 ^ 8 * 2 ^ 8 + m / 2 ^ 8) 65535); lia || done.
Qed.

(** ** Router-LSAs *)

Section Router.
Context (l : ospf_lsa) (n : nat) (Hl : router_ok l n).

Lemma router_lim : lim l = 4 + 12 * Z.of_nat n.
Proof. destruct Hl as (H1 & H2 & _). lia. Qed.

Lemma router_length : h_length (l_data l) = 24 + 12 * Z.of_nat n.
Proof. pose proof router_lim as H. unfold lim, OSPF_LSA_HEADER_SIZE in H. lia. Qed.

Lemma link_offsets_eq : link_offsets l = (λ i, 4 + 12 * Z.of_nat i) <$> seq 0 n.
Proof.
  unfold link_offsets. rewrite router_lim. do 2 f_equal.
  rewrite Z.add_simpl_l, Z.mul_comm, Z.div_mul by lia. lia.
Qed.

Lemma link_offset_elem p : p ∈ link_offsets l ↔ ∃ i, (i < n)%nat ∧ p = 4 + 12 * Z.of_nat i.
Proof.
  rewrite link_offsets_eq, list_elem_of_fmap. split.
  - intros (i & -> & Hi%elem_of_seq). exists i. split; [lia|done].
  - intros (i & Hi & ->). exists i. split; [done|]. apply elem_of_seq. lia.
Qed.

Section Link.
Context (i : nat) (Hi : (i < n)%nat).

Lemma link_type_some : is_Some (lk_type (l_body l) (4 + 12 * Z.of_nat i)).
Proof. destruct Hl as (_ & H2 & _). apply rd8_some. lia. Qed.
Lemma link_id_some : is_Some (lk_link_id (l_body l) (4 + 12 * Z.of_nat i)).
Proof. destruct Hl as (_ & H2 & _). apply rd32_some; lia. Qed.
Lemma link_data_some : is_Some (lk_link_data (l_body l) (4 + 12 * Z.of_nat i)).
Proof. destruct Hl as (_ & H2 & _). apply rd32_some; lia. Qed.
Lemma link_metric_some : is_Some (lk_metric (l_body l) (4 + 12 * Z.of_nat i)).
Proof. destruct Hl as (_ & H2 & _). apply rd16_some; lia. Qed.
Lemma link_tos : lk_tos_count (l_body l) (4 + 12 * Z.of_nat i) = Some 0.
Proof. destruct Hl as (_ & _ & _ & _ & H5). by apply H5. Qed.

End Link.

Lemma router_flags_some : is_Some (rl_flags (l_body l)).
Proof. destruct Hl as (_ & H2 & _). apply rd8_some. lia. Qed.

(** The links from the place [i] on that satisfy a decidable property. *)
Definition links_from (P : Z → Prop) `{∀ p, Decision (P p)} (i : nat) : list Z :=
  filter P ((λ j, 4 + 12 * Z.of_nat j) <$> seq i (n - i)).

Lemma links_from_end (P : Z → Prop) `{∀ p, Decision (P p)} i : (n ≤ i)%nat → links_from P i = [].
Proof. intros. unfold links_from. by replace (n - i)%nat with O by lia. Qed.

Lemma links_from_step (P : Z → Prop) `{∀ p, Decision (P p)} i :
  (i < n)%nat →
  links_from P i = (if decide (P (4 + 12 * Z.of_nat i)) then [4 + 12 * Z.of_nat i] else []) ++ links_from P (S i).
Proof.
  intros. unfold links_from. replace (n - i)%nat with (S (n - S i)) by lia. cbn [seq fmap list_fmap].
  rewrite list.filter_cons. by case_decide.
Qed.

Lemma links_from_all (P : Z → Prop) `{∀ p, Decision (P p)} : links_from P 0 = filter P (link_offsets l).
Proof. unfold links_from. rewrite link_offsets_eq. by rewrite Nat.sub_0_r. Qed.

(** The link has the type [type] and leads to [id]. *)
Definition matches (type id p : Z) : Prop :=
  lk_type (l_body l) p = Some type ∧ lk_link_id (l_body l) p = Some id.

#[local] Instance matches_dec type id p : Decision (matches type id p).
Proof. unfold matches. apply _. Defined.

Lemma next_link_spec fuel i type id :
  (n - i < fuel)%nat →
  next_link fuel (l_body l) (lim l) (4 + 12 * Z.of_nat i) type id = Some (head (links_from (matches type id) i)).
Proof.
  revert i. induction fuel as [|fuel IH]; intros i Hf; [lia|]. cbn [next_link]. rewrite router_lim.
  destruct (Z.ltb_spec (4 + 12 * Z.of_nat i) (4 + 12 * Z.of_nat n)) as [Hlt|Hge].
  - assert (i < n)%nat as Hi by lia. rewrite link_tos by done. cbn [mbind option_bind].
    destruct (link_type_some i Hi) as [t Ht]. rewrite Ht. cbn [mbind option_bind].
    destruct (link_id_some i Hi) as [x Hx].
    rewrite links_from_step by done. unfold OSPF_ROUTER_LSA_LINK_SIZE.
    replace (4 + 12 * Z.of_nat i + (12 + 0 * OSPF_ROUTER_LSA_TOS_SIZE)) with (4 + 12 * Z.of_nat (S i)) by lia.
    rewrite <- router_lim, IH by lia. rewrite Hx. cbn [mbind option_bind].
    destruct (decide (matches type id (4 + 12 * Z.of_nat i))) as [[Hm1 Hm2]|Hm].
    + rewrite Ht in Hm1. rewrite Hx in Hm2. simplify_eq. by rewrite !Z.eqb_refl.
    + destruct (Z.eqb_spec t type) as [->|], (Z.eqb_spec x id) as [->|]; cbn [negb]; try done.
      exfalso. apply Hm. by split.
  - by rewrite links_from_end by lia.
Qed.

(** The place behind a link. *)
Definition after_link (prev : option Z) (i : nat) : Prop :=
  (prev = None ∧ i = O) ∨ ∃ j, prev = Some (4 + 12 * Z.of_nat j) ∧ (j < n)%nat ∧ i = S j.

Definition back_type (v : vertex) : Z :=
  if v_type v =? OSPF_VERTEX_ROUTER then LSA_LINK_TYPE_POINTOPOINT else LSA_LINK_TYPE_TRANSIT.

Lemma get_next_link_spec v prev i :
  after_link prev i →
  ospf_get_next_link l v prev = Some (head (links_from (matches (back_type v) (v_id v)) i)).
Proof.
  intros Hp. unfold ospf_get_next_link. destruct Hl as (_ & H2 & _).
  destruct Hp as [[-> ->]|(j & -> & Hj & ->)].
  - cbn [mbind option_bind]. apply (next_link_spec _ 0). lia.
  - rewrite link_tos by done. cbn [mbind option_bind]. unfold OSPF_ROUTER_LSA_LINK_SIZE.
    replace (4 + 12 * Z.of_nat j + (12 + 0 * OSPF_ROUTER_LSA_TOS_SIZE)) with (4 + 12 * Z.of_nat (S j)) by lia.
    apply next_link_spec. lia.
Qed.

(** The next one is at a place [j], and the rest is what follows it. *)
Lemma links_from_head (P : Z → Prop) `{∀ p, Decision (P p)} i p :
  head (links_from P i) = Some p →
  ∃ j, p = 4 + 12 * Z.of_nat j ∧ (i ≤ j < n)%nat ∧ links_from P i = p :: links_from P (S j).
Proof.
  remember (n - i)%nat as k eqn:Hk. revert i Hk. induction k as [|k IH]; intros i Hk.
  - by rewrite links_from_end by lia.
  - rewrite links_from_step by lia. case_decide as Hd.
    + intros [= <-]. exists i. split_and!; [done|lia|lia|done].
    + intros Hh. destruct (IH (S i)) as (j & -> & Hj & He); [lia|done|].
      exists j. split_and!; [done|lia|lia|done].
Qed.

(** A search through the matching links ends. *)
Lemma after_link_step v prev i p :
  after_link prev i → head (links_from (matches (back_type v) (v_id v)) i) = Some p →
  ∃ j, after_link (Some p) (S j) ∧ (j < n)%nat ∧ p = 4 + 12 * Z.of_nat j ∧ (i ≤ j)%nat.
Proof.
  intros _ (j & -> & Hj & _)%links_from_head. exists j. split_and!; [|lia|done|lia].
  right. exists j. split_and!; [done|lia|done].
Qed.

Lemma has_link_router_spec fuel i (to : ospf_lsa) :
  (n - i < fuel)%nat → (i ≤ n)%nat →
  ∃ r, has_link_router fuel (l_body l) (Z.of_nat n) (24 + 12 * Z.of_nat (n - i)) (Z.of_nat i)
         (h_type (l_data to)) (h_id (l_data to)) = Some r ∧
    (if decide (links_from (link_to l to) i = []) then r = -1 else 0 ≤ r < Z.of_nat n).
Proof.
  revert i. induction fuel as [|fuel IH]; intros i Hf Hi; [lia|]. cbn [has_link_router].
  destruct (Z.ltb_spec (Z.of_nat i) (Z.of_nat n)) as [Hlt|Hge]; cbn [andb].
  2:{ exists (-1). by rewrite links_from_end by lia. }
  assert ((24 + 12 * Z.of_nat (n - i) >=? SIZEOF_ROUTER_LSA) = true) as ->.
  { apply Z.geb_le. unfold SIZEOF_ROUTER_LSA. lia. }
  unfold OSPF_ROUTER_LSA_LINK_SIZE. assert (i < n)%nat as Hi' by lia.
  destruct (link_type_some i Hi') as [t Ht]. rewrite Ht. cbn [mbind option_bind].
  destruct (link_id_some i Hi') as [x Hx]. rewrite Hx. cbn [mbind option_bind].
  destruct (IH (S i)) as (r & Hr & Hs); [lia..|].
  replace (24 + 12 * Z.of_nat (n - i) - 12) with (24 + 12 * Z.of_nat (n - S i)) by lia.
  replace (Z.of_nat i + 1) with (Z.of_nat (S i)) by lia. rewrite Hr.
  rewrite (links_from_step _ i) by done.
  destruct (decide (link_to l to (4 + 12 * Z.of_nat i))) as [Hk|Hk].
  - exists (Z.of_nat i). rewrite decide_False by done. split; [|lia].
    destruct Hk as [Hid [[[Hty|Hty] Hto]|[Hty Hto]]]; rewrite Hty in Ht; rewrite Hid in Hx;
      injection Ht as <-; injection Hx as <-; rewrite Hto; cbn; by rewrite Z.eqb_refl.
  - exists r. split; [|done]. revert Hk. unfold link_to. rewrite Ht, Hx. intros Hk.
    destruct (Z.eqb_spec t LSA_LINK_TYPE_POINTOPOINT), (Z.eqb_spec t LSA_LINK_TYPE_VIRTUALLINK),
      (Z.eqb_spec t LSA_LINK_TYPE_TRANSIT), (Z.eqb_spec (h_type (l_data to)) OSPF_ROUTER_LSA),
      (Z.eqb_spec (h_type (l_data to)) OSPF_NETWORK_LSA), (Z.eqb_spec x (h_id (l_data to))); cbn; try done;
      exfalso; apply Hk; subst; tauto.
Qed.

End Router.
#[export] Existing Instance matches_dec.

(** ** Network-LSAs *)

Section Network.
Context (l : ospf_lsa) (n : nat) (Hl : network_ok l n).

Lemma network_lim : lim l = 4 + 4 * Z.of_nat n.
Proof. destruct Hl as (H1 & H2 & _). lia. Qed.

Lemma router_offsets_eq : router_offsets l = (λ i, 4 + 4 * Z.of_nat i) <$> seq 0 n.
Proof.
  unfold router_offsets. rewrite network_lim. do 2 f_equal.
  rewrite Z.add_simpl_l, Z.mul_comm, Z.div_mul by lia. lia.
Qed.

Lemma nl_router_some i : (i < n)%nat → is_Some (rd32 (l_body l) (4 + 4 * Z.of_nat i)).
Proof. destruct Hl as (_ & H2 & _). intros. apply rd32_some; lia. Qed.

Lemma nl_mask_some : is_Some (nl_mask (l_body l)).
Proof. destruct Hl as (_ & H2 & _). apply rd32_some; lia. Qed.

Lemma has_link_network_spec fuel i id :
  (n - i < fuel)%nat → (i ≤ n)%nat →
  ∃ r, has_link_network fuel (l_body l) (Z.of_nat n) (Z.of_nat i) id = Some r ∧
    (if decide (Exists (λ p, rd32 (l_body l) p = Some id) ((λ j, 4 + 4 * Z.of_nat j) <$> seq i (n - i)))
     then 0 ≤ r else r = -1).
Proof.
  revert i. induction fuel as [|fuel IH]; intros i Hf Hi; [lia|]. cbn [has_link_network].
  destruct (Z.ltb_spec (Z.of_nat i) (Z.of_nat n)) as [Hlt|Hge].
  2:{ exists (-1). replace (n - i)%nat with O by lia. split; [done|]. rewrite decide_False; [done|].
      by inversion 1. }
  unfold nl_router. destruct (nl_router_some i ltac:(lia)) as [x Hx]. rewrite Hx. cbn [mbind option_bind].
  replace (n - i)%nat with (S (n - S i)) by lia. cbn [seq fmap list_fmap].
  destruct (Z.eqb_spec x id) as [->|Hne].
  - exists (Z.of_nat i). rewrite decide_True by (by constructor). split; [done|lia].
  - destruct (IH (S i)) as (r & Hr & Hs); [lia..|].
    replace (Z.of_nat i + 1) with (Z.of_nat (S i)) by lia. rewrite Hr. exists r. split; [done|].
    destruct (decide (Exists _ (_ <$> seq (S i) _))) as [He|He].
    + by rewrite decide_True by (by constructor 2).
    + rewrite decide_False; [done|]. intros [Hx'|Hex]%Exists_cons; [congruence|done].
Qed.

End Network.

(** ** Links back *)

Lemma filter_nil_exists {A} (P : A → Prop) `{∀ x, Decision (P x)} (l : list A) : filter P l = [] ↔ ¬ Exists P l.
Proof.
  induction l as [|x l IH].
  - split; [by intros _ ?%Exists_nil|done].
  - rewrite list.filter_cons, Exists_cons. case_decide; [split; [done|tauto]|]. rewrite IH. tauto.
Qed.

Lemma has_link_spec w v :
  lsa_ok w → lsa_ok v →
  ∃ r, ospf_lsa_has_link w v = Some r ∧ (leads_to w v ∧ 0 ≤ r ∨ ¬ leads_to w v ∧ r = -1) ∧
    ∀ n, h_type (l_data w) = OSPF_ROUTER_LSA → router_ok w n → r < Z.of_nat n.
Proof.
  intros Hw Hv. unfold ospf_lsa_has_link. destruct Hw as [[Ht [n Hn]]|[Ht [n Hn]]]; rewrite Ht.
  - change (OSPF_ROUTER_LSA =? OSPF_NETWORK_LSA) with false.
    change (OSPF_ROUTER_LSA =? OSPF_ROUTER_LSA) with true. cbv iota.
    destruct Hn as (H1 & H2 & H3 & H45) eqn:E. rewrite H3. cbn [mbind option_bind].
    destruct (has_link_router_spec w n Hn (S (S (length (l_body w)))) 0 v) as (r & Hr & Hs); [lia..|].
    rewrite (router_length w n Hn). rewrite Nat.sub_0_r in Hr. change (Z.of_nat 0) with 0 in Hr. rewrite Hr.
    rewrite (links_from_all w n Hn) in Hs. exists r. split; [done|]. split.
    + destruct (decide (filter _ _ = [])) as [He|He]; rewrite filter_nil_exists in He.
      * right. split; [|done]. intros [[_ ?]|[Hq _]]; [done|by rewrite Ht in Hq].
      * left. split; [|lia]. left. split; [done|]. by apply dec_stable.
    + intros m _ Hm. enough (m = n) as -> by (case_decide; lia).
      destruct Hm as (_ & Hm & _). lia.
  - change (OSPF_NETWORK_LSA =? OSPF_NETWORK_LSA) with true. cbv iota.
    assert (h_type (l_data v) = OSPF_ROUTER_LSA ∨ h_type (l_data v) = OSPF_NETWORK_LSA) as [Hvt|Hvt]
      by (destruct Hv as [[? _]|[? _]]; auto); rewrite Hvt.
    + change (OSPF_ROUTER_LSA =? OSPF_NETWORK_LSA) with false. cbv iota.
      destruct (has_link_network_spec w n Hn (S (S (length (l_body w)))) 0 (h_id (l_data v)))
        as (r & Hr & Hs); [destruct Hn; lia|lia|].
      assert (u32 (h_length (l_data w) - OSPF_LSA_HEADER_SIZE - 4) / 4 = Z.of_nat n) as ->.
      { pose proof (network_lim w n Hn) as Hlim. destruct Hn as (_ & _ & Hn3). fold (lim w).
        rewrite Hlim, Z.add_simpl_l, u32_small by lia. rewrite Z.mul_comm. apply Z.div_mul. lia. }
      change (Z.of_nat 0) with 0 in Hr. rewrite Hr. exists r. split; [done|]. split; [|done].
      rewrite Nat.sub_0_r in Hs.
      destruct (decide (Exists _ _)) as [He|He].
      * left. split; [|done]. right. by rewrite (router_offsets_eq w n Hn).
      * right. split; [|done]. intros [[Hq _]|(_ & _ & Hx)]; [by rewrite Ht in Hq|].
        by rewrite (router_offsets_eq w n Hn) in Hx.
    + change (OSPF_NETWORK_LSA =? OSPF_NETWORK_LSA) with true. cbv iota. exists (-1). split; [done|].
      split; [|done]. right. split; [|done]. intros [[Hq _]|(_ & Hq & _)]; [by rewrite Ht in Hq|by rewrite Hvt in Hq].
Qed.

(** ** Next hops from the root *)

Lemma first_if_some f l i : first_if f l = Some i → ∃ oi, l !! i = Some oi ∧ f oi = true.
Proof.
  revert i. induction l as [|o l IH]; intros i; cbn; [done|]. destruct (f o) eqn:Ef.
  - intros [= <-]. eauto.
  - destruct (first_if f l) as [j|] eqn:Ej; [|done]. intros [= <-]. by apply IH.
Qed.

Section RootHop.
Context {RT : Type → Type} {PL : PrefixLib} (E : spf_env RT).

Definition hop_ok (nh : vertex_nexthop) : Prop :=
  ∀ i, nh_oi nh = Some i → is_Some (e_oiflist E !! i).

Lemma configured_valid a i : ospf_if_is_configured (e_oiflist E) a = Some i → is_Some (e_oiflist E !! i).
Proof. intros (oi & Hoi & _)%first_if_some. eauto. Qed.

Section Search.
Context (wl : ospf_lsa) (n : nat) (Hwl : router_ok wl n) (v : vertex).

Lemma back_link_ptmp_ok fuel oi l2 i :
  after_link n l2 i → (n - i < fuel)%nat →
  ∃ r, back_link_ptmp fuel wl v oi l2 = Some r ∧
    ∀ p, r = Some p → ∃ j, (j < n)%nat ∧ p = 4 + 12 * Z.of_nat j.
Proof.
  revert l2 i. induction fuel as [|fuel IH]; intros l2 i Ha Hf; [lia|]. cbn [back_link_ptmp].
  rewrite (get_next_link_spec wl n Hwl v l2 i Ha). cbn [mbind option_bind].
  destruct (head _) as [p|] eqn:Hh; [|by eexists; split; [done|]].
  destruct (after_link_step wl n v l2 i p Ha Hh) as (j & Ha' & Hj & Hp & Hij). rewrite Hp.
  destruct (link_data_some wl n Hwl j Hj) as [d Hd]. rewrite Hd. cbn [mbind option_bind].
  case_match; [|apply (IH _ (S j)); [by rewrite <- Hp|lia]].
  eexists. split; [done|]. intros ? [= <-]. eauto.
Qed.

Lemma back_link_ptp_ok fuel d oi l2 i :
  after_link n l2 i → (n - i < fuel)%nat → (∀ k, oi = Some k → is_Some (e_oiflist E !! k)) →
  ∃ r, back_link_ptp E fuel wl v d oi l2 = Some r ∧
    (∀ k, r.1 = Some k → is_Some (e_oiflist E !! k)) ∧
    ∀ p, r.2 = Some p → ∃ j, (j < n)%nat ∧ p = 4 + 12 * Z.of_nat j.
Proof.
  revert oi l2 i. induction fuel as [|fuel IH]; intros oi l2 i Ha Hf Hoi; [lia|]. cbn [back_link_ptp].
  rewrite (get_next_link_spec wl n Hwl v l2 i Ha). cbn [mbind option_bind].
  destruct (head _) as [p|] eqn:Hh; [|by eexists; split; [done|]].
  destruct (after_link_step wl n v l2 i p Ha Hh) as (j & Ha' & Hj & Hp & Hij). rewrite Hp.
  destruct (link_data_some wl n Hwl j Hj) as [x Hx]. rewrite Hx. cbn [mbind option_bind].
  destruct (ospf_if_is_configured _ x) as [k|] eqn:Hk.
  2:{ apply (IH _ _ (S j)); [by rewrite <- Hp|lia|done]. }
  pose proof (configured_valid _ _ Hk) as [o Ho]. rewrite Ho. cbn [mbind option_bind].
  case_match.
  - apply (IH _ _ (S j)); [by rewrite <- Hp|lia|]. intros ? [= <-]. eauto.
  - eexists. split; [done|]. cbn. split; [intros ? [= <-]; eauto|]. intros ? [= <-]. eauto.
Qed.

End Search.

(** Over a link of a well-formed LSA the next hop is found, or there is none. *)
Lemma root_nexthop_ok vlinks v vl n w wl i :
  router_ok vl n → (i < n)%nat → lsa_ok wl → v_type w = h_type (l_data wl) →
  (∀ d, d ∈ vlinks → hop_ok (vl_nexthop d)) →
  ∃ r, root_nexthop E vlinks v vl w wl (Some (4 + 12 * Z.of_nat i)) = Some r ∧
    ∀ nh, r = Some nh → hop_ok nh ∧
      (lk_type (l_body vl) (4 + 12 * Z.of_nat i) ≠ Some LSA_LINK_TYPE_VIRTUALLINK → is_Some (nh_oi nh)).
Proof.
  intros Hvl Hi Hwl Hw Hvs. unfold root_nexthop. cbn [mbind option_bind]. rewrite Hw.
  destruct (link_type_some vl n Hvl i Hi) as [t Ht]. destruct (link_data_some vl n Hvl i Hi) as [d Hd].
  destruct (link_id_some vl n Hvl i Hi) as [id Hid].
  destruct Hwl as [[Hty [m Hm]]|[Hty [m Hm]]]; rewrite Hty.
  - change (OSPF_ROUTER_LSA =? OSPF_VERTEX_ROUTER) with true. cbv iota. rewrite Ht. cbn [mbind option_bind].
    destruct (Z.eqb_spec t LSA_LINK_TYPE_POINTOPOINT) as [->|].
    + rewrite Hd. cbn [mbind option_bind].
      set (oi := ospf_if_is_configured _ d).
      assert (∀ k, oi = Some k → is_Some (e_oiflist E !! k)) as Hoi by apply configured_valid.
      assert (m - 0 < S (S (length (l_body wl))))%nat as Hfuel by (destruct Hm as (_ & ? & _); lia).
      destruct (back_link_ptp_ok wl m Hm v _ d oi None 0 ltac:(by left) Hfuel Hoi) as (r1 & Hr1 & Hv1 & Hp1).
      assert (∃ r, (match oi with
        | None => back_link_ptp E (S (S (length (l_body wl)))) wl v d oi None
        | Some i0 => o ← e_oiflist E !! i0;
            if oi_type o =? OSPF_IFTYPE_POINTOMULTIPOINT
            then l2 ← back_link_ptmp (S (S (length (l_body wl)))) wl v o None; Some (oi, l2)
            else back_link_ptp E (S (S (length (l_body wl)))) wl v d oi None
        end) = Some r ∧ (∀ k, r.1 = Some k → is_Some (e_oiflist E !! k)) ∧
          ∀ p, r.2 = Some p → ∃ j, (j < m)%nat ∧ p = 4 + 12 * Z.of_nat j) as (r & -> & Hv & Hp).
      { destruct oi as [k|] eqn:Ek; [|by eauto]. destruct (Hoi k eq_refl) as [o Ho]. rewrite Ho.
        cbn [mbind option_bind]. destruct (oi_type o =? OSPF_IFTYPE_POINTOMULTIPOINT); [|by eauto].
        destruct (back_link_ptmp_ok wl m Hm v _ o None 0 ltac:(by left) Hfuel) as (r2 & -> & Hp2).
        cbn [mbind option_bind]. eexists. split; [done|]. eauto. }
      cbn [mbind option_bind]. destruct r as [[k|] [p|]]; cbn in Hv, Hp; try by (eexists; split; [done|]).
      destruct (Hp p eq_refl) as (j & Hj & ->). destruct (link_data_some wl m Hm j Hj) as [x Hx].
      rewrite Hx. cbn [mbind option_bind]. eexists. split; [done|]. intros nh [= <-]. split; [|by eauto].
      intros k' [= <-]. by apply Hv.
    + destruct (Z.eqb_spec t LSA_LINK_TYPE_VIRTUALLINK) as [->|]; [|by eexists; split; [done|]].
      rewrite Hid. cbn [mbind option_bind].
      destruct (ospf_vl_lookup vlinks id) as [x|] eqn:Hx; [|by eexists; split; [done|]].
      case_match; [|by eexists; split; [done|]]. eexists. split; [done|]. intros nh [= <-]. split; [|congruence].
      apply Hvs. clear -Hx. induction vlinks as [|y ys IH]; cbn in Hx; [done|]. case_match.
      * simplify_eq. left.
      * right. by apply IH.
  - change (OSPF_NETWORK_LSA =? OSPF_VERTEX_ROUTER) with false.
    change (OSPF_NETWORK_LSA =? OSPF_VERTEX_NETWORK) with true. cbv iota. rewrite Hd. cbn [mbind option_bind].
    destruct (ospf_if_is_configured _ d) as [k|] eqn:Hk; [|by eexists; split; [done|]]. eexists. split; [done|].
    intros nh [= <-]. split; [|by eauto]. intros k' [= <-]. by eapply configured_valid.
Qed.

End RootHop.
