(* ===== verification/OspfQueue.v ===== *)
(** * OSPF: the priority queue of the candidates

    [PQueueLaws] is what the calculation of the shortest paths relies on: the queue holds what has been put into
    it, [pqueue_dequeue] takes out a least element, [trickle_up] restores the order after the key of
    one element has become smaller, and the calls of [update] report the new places.  A sorted
    array satisfies the laws. *)

From stdpp Require Import gmap sorting.
From S2P Require Import Prelude Fault OspfTable OspfLsa OspfVertex OspfRoute OspfSpf.

(** The comparison is a total preorder on the elements. *)
Definition pq_order (c : nat → nat → Z) (q : list nat) : Prop :=
  (∀ x y, x ∈ q → y ∈ q → c x y ≤ 0 ∨ c y x ≤ 0) ∧
  ∀ x y z, x ∈ q → y ∈ q → z ∈ q → c x y ≤ 0 → c y z ≤ 0 → c x z ≤ 0.

(** The last position [x] is told. *)
Fixpoint told (x : nat) (us : list (nat * Z)) : option Z :=
  match us with
  | [] => None
  | (y, n) :: us =>
      match told x us with Some m => Some m | None => if decide (y = x) then Some n else None end
  end.

(** An element of [q'] has been told its place, or is where it was in [q]; only elements are told. *)
Definition pq_moved (q q' : list nat) (us : list (nat * Z)) : Prop :=
  (∀ x n, (x, n) ∈ us → x ∈ q ∨ x ∈ q') ∧
  ∀ (i : nat) x, q' !! i = Some x →
    match told x us with Some n => n = Z.of_nat i | None => q !! i = Some x end.

Class PQueueLaws `{PQueue} := {
  pq_inv : (nat → nat → Z) → list nat → Prop;
  pq_inv_nil c : pq_inv c [];
  pq_inv_ext c c' q : (∀ x y, x ∈ q → y ∈ q → c x y = c' x y) → pq_inv c q → pq_inv c' q;
  enqueue_law c x q :
    pq_order c (x :: q) → pq_inv c q → NoDup (x :: q) →
    let r := pqueue_enqueue c x q in r.1 ≡ₚ x :: q ∧ pq_inv c r.1 ∧ pq_moved q r.1 r.2;
  dequeue_law c q :
    pq_order c q → pq_inv c q → NoDup q → q ≠ [] →
    ∃ x r, pqueue_dequeue c q = Some (x, r) ∧ x :: r.1 ≡ₚ q ∧ pq_inv c r.1 ∧ (∀ y, y ∈ q → c x y ≤ 0) ∧
      pq_moved q r.1 r.2;
  trickle_up_law c c' q (i : nat) x :
    pq_order c q → pq_order c' q → pq_inv c q → NoDup q → q !! i = Some x →
    (∀ y z, y ∈ q → z ∈ q → y ≠ x → z ≠ x → c' y z = c y z) →
    (∀ y, y ∈ q → c x y ≤ 0 → c' x y ≤ 0) →
    let r := trickle_up c' (Z.of_nat i) q in r.1 ≡ₚ q ∧ pq_inv c' r.1 ∧ pq_moved q r.1 r.2
}.

(** ** A sorted array *)

Module SortedQueue.

Fixpoint insert (c : nat → nat → Z) (x : nat) (q : list nat) : list nat :=
  match q with
  | [] => [x]
  | y :: q => if c x y <=? 0 then x :: y :: q else y :: insert c x q
  end.

(** Every element is told its place. *)
Definition places (q : list nat) : list (nat * Z) := imap (λ i x, (x, Z.of_nat i)) q.

#[export] Instance sorted_queue : PQueue := {|
  pqueue_enqueue c x q := let q := insert c x q in (q, places q);
  pqueue_dequeue c q := match q with [] => None | x :: q => Some (x, (q, places q)) end;
  trickle_up c i q :=
    match arr q i with
    | Some x => let q := insert c x (filter (λ y, y ≠ x) q) in (q, places q)
    | None => (q, places q)
    end
|}.

Lemma insert_perm c x q : insert c x q ≡ₚ x :: q.
Proof.
  induction q as [|y q IH]; cbn; [done|]. case_match; [done|]. rewrite IH. apply Permutation_swap.
Qed.

Lemma insert_sorted c x q :
  pq_order c (x :: q) → StronglySorted (λ x y, c x y ≤ 0) q → StronglySorted (λ x y, c x y ≤ 0) (insert c x q).
Proof.
  intros [Ht Hc] Hs. revert Ht Hc. induction Hs as [|y q Hs IH Hy]; intros Ht Hc; cbn.
  - by repeat constructor.
  - destruct (Z.leb_spec (c x y) 0) as [Hle|Hgt].
    + constructor; [by constructor|]. constructor; [done|]. rewrite list.Forall_forall in Hy |- *.
      intros z Hz. apply (Hc x y z); [set_solver..|done|]. by apply Hy.
    + constructor.
      * apply IH; [intros u w Hu Hw; apply Ht; set_solver|].
        intros u w z Hu Hw Hz. apply Hc; set_solver.
      * rewrite list.Forall_forall. intros z. rewrite insert_perm. intros [->|Hz]%elem_of_cons.
        { destruct (Ht x y) as [?|?]; [set_solver..|lia|done]. }
        rewrite list.Forall_forall in Hy. by apply Hy.
Qed.

Lemma told_app x us us' :
  told x (us ++ us') = match told x us' with Some n => Some n | None => told x us end.
Proof.
  induction us as [|[y n] us IH]; cbn; [by destruct (told x us')|]. rewrite IH.
  by destruct (told x us').
Qed.

Lemma told_places q (i : nat) x : NoDup q → q !! i = Some x → told x (places q) = Some (Z.of_nat i).
Proof.
  revert i x. induction q as [|y q IH] using rev_ind; intros i x Hn Hi; [done|].
  apply list.NoDup_app in Hn as (Hn & Hd & _). unfold places. rewrite imap_app, told_app. cbn.
  apply lookup_app_Some in Hi as [Hi|[Hle Hi]].
  - assert (y ≠ x) as Hne by (intros ->; apply (Hd x); [by eapply list_elem_of_lookup_2|left]).
    rewrite decide_False by done. by apply IH.
  - apply list_lookup_singleton_Some in Hi as [Hz <-]. rewrite decide_True by done.
    do 2 f_equal. lia.
Qed.

Lemma places_moved q q' : NoDup q' → (∀ x, x ∈ q' → x ∈ q ∨ x ∈ q') → pq_moved q q' (places q').
Proof.
  intros Hn Hs. split.
  - intros x n Hx. right. unfold places in Hx. apply elem_of_lookup_imap in Hx as (i & y & [= -> ->] & Hy).
    by eapply list_elem_of_lookup_2.
  - intros i x Hx. by rewrite (told_places q' i x Hn Hx).
Qed.

Lemma order_sub c q q' : (∀ x, x ∈ q' → x ∈ q) → pq_order c q → pq_order c q'.
Proof.
  intros Hs [Ht Hc]. split; [auto|]. intros x y z Hx Hy Hz. apply Hc; auto.
Qed.

Lemma queue_filter (R : nat → nat → Prop) (P : nat → Prop) `{∀ x, Decision (P x)} q :
  StronglySorted R q → StronglySorted R (filter P q).
Proof.
  induction 1 as [|x q Hs IH Hx]; [constructor|]. rewrite list.filter_cons. case_decide; [|done].
  constructor; [done|]. rewrite list.Forall_forall in Hx |- *. intros y [_ Hy]%list_elem_of_filter. by apply Hx.
Qed.

Lemma sorted_ext (R R' : nat → nat → Prop) q :
  (∀ x y, x ∈ q → y ∈ q → R x y → R' x y) → StronglySorted R q → StronglySorted R' q.
Proof.
  intros He Hs. induction Hs as [|x q Hs IH Hx]; [constructor|]. constructor.
  - apply IH. intros. apply He; set_solver.
  - rewrite list.Forall_forall in Hx |- *. intros y Hy. apply He; [set_solver..|]. by apply Hx.
Qed.

#[export] Instance sorted_queue_laws : PQueueLaws.
Proof.
  refine {| pq_inv c q := StronglySorted (λ x y, c x y ≤ 0) q |}.
  - constructor.
  - intros c c' q He. apply sorted_ext. intros x y Hx Hy. by rewrite He.
  - intros c x q Ho Hs Hn. cbn. pose proof (insert_perm c x q) as Hp. split_and!.
    + done.
    + by apply insert_sorted.
    + apply places_moved; [by rewrite Hp|]. auto.
  - intros c [|x q] Ho Hs Hn Hq; [done|]. exists x, (q, places q). cbn. inversion Hs as [|? ? Hs' Hx]. subst.
    apply list.NoDup_cons in Hn as [_ Hn]. split_and!; [done|done|done| |].
    + intros y [->|Hy]%elem_of_cons; [destruct Ho as [Ht _]; destruct (Ht x x); set_solver|].
      rewrite list.Forall_forall in Hx. by apply Hx.
    + apply places_moved; auto.
  - intros c c' q i x Ho Ho' Hs Hn Hi Hsame Hless. cbn. rewrite arr_nat, Hi. cbn.
    set (q0 := filter (λ y, y ≠ x) q). pose proof (insert_perm c' x q0) as Hp.
    assert (x ∈ q) as Hxq by (by eapply list_elem_of_lookup_2).
    assert (∀ y, y ∈ q0 ↔ y ≠ x ∧ y ∈ q) as Hq0 by (intros y; unfold q0; by rewrite list_elem_of_filter).
    assert (x :: q0 ≡ₚ q) as Hp0.
    { apply list.NoDup_Permutation; [|done|].
      - apply list.NoDup_cons. split; [rewrite Hq0; tauto|by apply list.NoDup_filter].
      - intros y. rewrite elem_of_cons, Hq0. destruct (decide (y = x)) as [->|]; tauto. }
    split_and!.
    + by rewrite Hp.
    + apply insert_sorted; [eapply order_sub; [|exact Ho']; intros y; by rewrite Hp0|].
      apply (sorted_ext (λ x y, c x y ≤ 0)); [|by apply queue_filter].
      intros y z [? ?]%Hq0 [? ?]%Hq0 ?. by rewrite Hsame.
    + apply places_moved; [by rewrite Hp, Hp0|]. auto.
Defined.

End SortedQueue.
