(* ===== verification/OspfSpfHops.v ===== *)
(** * OSPF: the next hops of a vertex

    The effect of [ospf_nexthop_calculation] on the memory: the parents and the distance of the vertex.  The
    LSAs differ from those at the start of the calculation in the field [stat] only. *)

From stdpp Require Import gmap sorting.
From S2P Require Import Prelude Fault OspfTable OspfLsa OspfLsaProps OspfVertex OspfRoute OspfSpf OspfSpfGraph.
From S2P Require Import OspfSpfRead.

Section Hops.
Context {RT : Type → Type} `{RouteTableLaws RT} {PL : PrefixLib} {PQ : PQueue}.
Context (E : spf_env RT) (h0 : lheap).

Implicit Types s : spf RT.

(** ** LSAs *)

Definition same_lsas (h : lheap) : Prop :=
  ∀ p, (λ l : ospf_lsa, l <| l_stat := 0 |>) <$> h !! p = (λ l : ospf_lsa, l <| l_stat := 0 |>) <$> h0 !! p.

Lemma stat_eta (l l' : ospf_lsa) : l <| l_stat := 0 |> = l' <| l_stat := 0 |> → l = l' <| l_stat := l_stat l |>.
Proof. destruct l, l'. cbn. unfold set_fld, set_l_stat. cbn. by intros [= -> -> -> -> -> -> -> ->]. Qed.

Lemma same_at h p l : same_lsas h → h0 !! p = Some l → ∃ n, h !! p = Some (l <| l_stat := n |>).
Proof.
  intros Hs Hp. specialize (Hs p). rewrite Hp in Hs. cbn in Hs.
  destruct (h !! p) as [l'|] eqn:E'; [|done]. apply (inj Some), stat_eta in Hs. exists (l_stat l'). congruence.
Qed.

Lemma same_back h p l : same_lsas h → h !! p = Some l → ∃ l0, h0 !! p = Some l0 ∧ l = l0 <| l_stat := l_stat l |>.
Proof.
  intros Hs Hp. specialize (Hs p). rewrite Hp in Hs. cbn in Hs.
  destruct (h0 !! p) as [l'|] eqn:E'; [|done]. apply (inj Some), stat_eta in Hs. eauto.
Qed.

Lemma same_upd h p l n : same_lsas h → h !! p = Some l → same_lsas (<[p := l <| l_stat := n |>]> h).
Proof.
  intros Hs Hp q. destruct (decide (p = q)) as [<-|].
  - rewrite lookup_insert_eq. rewrite <- Hs, Hp. done.
  - rewrite lookup_insert_ne by done. apply Hs.
Qed.

Lemma same_size h : same_lsas h → size h = size h0.
Proof.
  intros Hs. rewrite <- !size_dom. f_equal. apply set_eq. intros p. rewrite !elem_of_dom. specialize (Hs p).
  destruct (h !! p), (h0 !! p); try done; split; intros [? ?]; eauto.
Qed.

(** ** Running the accesses *)

Lemma vtx_run s x v : sp_vertices s !! x = Some v → vtx x s = Some (v, s).
Proof. intros Hx. unfold vtx. unfold mbind, fsM_bind, gets. by rewrite Hx. Qed.

Lemma upd_vtx_run s x v f :
  sp_vertices s !! x = Some v →
  upd_vtx x f s = Some (tt, s <| sp_vertices := <[x := f v]> (sp_vertices s) |>).
Proof. intros Hx. unfold upd_vtx. by erewrite fbind_run by exact (vtx_run s x v Hx). Qed.

Lemma lsa_at_run s p l : sp_lsas s !! p = Some l → lsa_at p s = Some (l, s).
Proof. intros Hp. unfold lsa_at, mbind, fsM_bind, gets. by rewrite Hp. Qed.

Lemma set_stat_run s p l n :
  sp_lsas s !! p = Some l →
  set_stat p n s = Some (tt, s <| sp_lsas := <[p := l <| l_stat := n |>]> (sp_lsas s) |>).
Proof.
  intros Hp. unfold set_stat. erewrite zoom_run by exact (upd_lsa_run (sp_lsas s) p l _ Hp). done.
Qed.

(** ** Parents *)

(** The vertex with [vps] as parents at the distance [d], besides those it had at this distance. *)
Definition put_parents (d : Z) (vps : list vertex_parent) (v : vertex) : vertex :=
  v <| v_distance := d |> <| v_parents := (if v_distance v =? d then v_parents v else []) ++ vps |>.

Lemma put_parents_app d vps vps' v : put_parents d vps' (put_parents d vps v) = put_parents d (vps ++ vps') v.
Proof. unfold put_parents. cbn. rewrite Z.eqb_refl. by rewrite app_assoc. Qed.

(** [w] may get parents at the distance [d]. *)
Definition can_put (d : Z) (v : vertex) : Prop :=
  0 < d ∧ ((v_distance v = 0 ∧ v_parents v = []) ∨ d ≤ v_distance v).

Lemma can_put_put d vps v : can_put d v → can_put d (put_parents d vps v).
Proof. intros [H1 _]. split; [done|]. right. done. Qed.

Definition with_vertex (s : spf RT) (w : nat) (v : vertex) : spf RT :=
  s <| sp_vertices := <[w := v]> (sp_vertices s) |>.

Lemma with_vertex_same s w v : sp_vertices s !! w = Some v → with_vertex s w v = s.
Proof. intros Hv. unfold with_vertex. rewrite list_insert_id by done. by destruct s. Qed.

Lemma with_vertex_twice s w v v' : with_vertex (with_vertex s w v) w v' = with_vertex s w v'.
Proof. unfold with_vertex. cbn. by rewrite list_insert_insert_eq. Qed.

Lemma with_vertex_lookup s w v v' : sp_vertices s !! w = Some v → sp_vertices (with_vertex s w v') !! w = Some v'.
Proof. intros Hw. cbn. apply list_lookup_insert_eq. by eapply lookup_lt_Some. Qed.

Lemma with_vertex_other s w v' x : x ≠ w → sp_vertices (with_vertex s w v') !! x = sp_vertices s !! x.
Proof. intros Hx. cbn. by apply list_lookup_insert_ne. Qed.

Section AddParent.
Context (v w : nat) (vv : vertex) (la lb : ospf_lsa) (b : Z).
Hypothesis Hne : v ≠ w.
Hypothesis Hla : h0 !! v_lsa vv = Some la.
Hypothesis Hb : ospf_lsa_has_link lb la = Some b.

(** The state in which [w] is [wv]. *)
Definition at_w (s : spf RT) (wv : vertex) : Prop :=
  same_lsas (sp_lsas s) ∧ sp_vertices s !! v = Some vv ∧ sp_vertices s !! w = Some wv ∧
  h0 !! v_lsa wv = Some lb.

Lemma at_w_put s wv d vps : at_w s wv → at_w (with_vertex s w (put_parents d vps wv)) (put_parents d vps wv).
Proof.
  intros (A1 & A2 & A3 & A4). split_and!; [done| | |done].
  - by rewrite with_vertex_other.
  - by eapply with_vertex_lookup.
Qed.

Lemma add_parent_run s wv nh d :
  at_w s wv → can_put d wv →
  ospf_spf_add_parent v w nh d s = Some (tt, with_vertex s w (put_parents d [mk_vp v b nh] wv)).
Proof.
  intros (A1 & A2 & A3 & A4) [Hd Hput]. unfold ospf_spf_add_parent.
  assert ((d !=? 0) = true) as Hd0 by (apply negb_true_iff, Z.eqb_neq; lia).
  erewrite fbind_run by exact (assert_run _ s Hd0).
  erewrite fbind_run by exact (vtx_run s w wv A3).
  set (w1 := if tst (v_distance wv) then wv else wv <| v_distance := d |>).
  assert ((if tst (v_distance wv) then assert (d <=? v_distance wv)
     else upd_vtx w (λ x, x <| v_distance := d |>)) s = Some (tt, with_vertex s w w1)) as H1.
  { unfold w1. destruct (tst (v_distance wv)) eqn:Et.
    - apply tst_true in Et. rewrite with_vertex_same by done. apply assert_run, Z.leb_le. lia.
    - by apply (upd_vtx_run s w wv (λ x, x <| v_distance := d |>)). }
  erewrite fbind_run by exact H1. set (s1 := with_vertex s w w1).
  assert (sp_vertices s1 !! w = Some w1) as Hw1 by (by eapply with_vertex_lookup).
  erewrite fbind_run by exact (vtx_run s1 w w1 Hw1).
  set (w2 := if d <? v_distance w1 then w1 <| v_parents := [] |> <| v_distance := d |> else w1).
  assert ((if d <? v_distance w1 then upd_vtx w (λ x, x <| v_parents := [] |> <| v_distance := d |>)
     else mret tt) s1 = Some (tt, with_vertex s w w2)) as H2.
  { unfold w2. destruct (d <? v_distance w1).
    - erewrite upd_vtx_run by exact Hw1. do 2 f_equal. apply with_vertex_twice.
    - done. }
  erewrite fbind_run by exact H2. set (s2 := with_vertex s w w2).
  assert (sp_vertices s2 !! w = Some w2) as Hw2 by (by eapply with_vertex_lookup).
  erewrite fbind_run by exact (vtx_run s2 w w2 Hw2).
  assert (v_lsa w2 = v_lsa wv) as Hl2.
  { unfold w2, w1. by destruct (tst _), (d <? _). }
  destruct (same_at _ _ _ A1 A4) as [m Hm]. destruct (same_at _ _ _ A1 Hla) as [k Hk].
  rewrite Hl2. erewrite fbind_run by exact (lsa_at_run s2 _ _ Hm).
  assert (sp_vertices s2 !! v = Some vv) as Hv2 by (unfold s2; by rewrite with_vertex_other).
  erewrite fbind_run by exact (vtx_run s2 v vv Hv2).
  erewrite fbind_run by exact (lsa_at_run s2 _ _ Hk).
  assert (ospf_lsa_has_link (lb <| l_stat := m |>) (la <| l_stat := k |>) = Some b) as Hb' by exact Hb.
  erewrite fbind_run by exact (of_option_run _ s2 b Hb').
  erewrite upd_vtx_run by exact Hw2. do 2 f_equal.
  change (with_vertex s2 w (w2 <| v_parents := v_parents w2 ++ [mk_vp v b nh] |>) =
    with_vertex s w (put_parents d [mk_vp v b nh] wv)).
  unfold s2. rewrite with_vertex_twice. f_equal. unfold put_parents, w2, w1.
  destruct (tst (v_distance wv)) eqn:Et.
  - apply tst_true in Et. destruct (Z.ltb_spec d (v_distance wv)), (Z.eqb_spec (v_distance wv) d); try lia.
    + done.
    + subst d. by destruct wv.
  - apply tst_false in Et. destruct Hput as [[_ Hp]|]; [|lia]. cbn.
    rewrite Z.ltb_irrefl. change (v_parents (wv <| v_distance := d |>)) with (v_parents wv).
    rewrite Hp. assert ((v_distance wv =? d) = false) as -> by (apply Z.eqb_neq; lia).
    done.
Qed.

(** All parents of [v] are passed on. *)
Lemma add_inherited_run vps s wv d added :
  at_w s wv → can_put d wv →
  add_inherited vps v w d added s =
    Some (added || bool_decide (vps ≠ []),
          match vps with
          | [] => s
          | _ => with_vertex s w (put_parents d ((λ vp, mk_vp v b (vp_nexthop vp)) <$> vps) wv)
          end).
Proof.
  revert s wv added. induction vps as [|vp vps IH]; intros s wv added Ha Hc; cbn [add_inherited].
  { cbn. by rewrite orb_false_r. }
  erewrite fbind_run by exact (add_parent_run s wv (vp_nexthop vp) d Ha Hc).
  rewrite (IH _ (put_parents d [mk_vp v b (vp_nexthop vp)] wv));
    [|by apply at_w_put|by apply can_put_put].
  rewrite (bool_decide_eq_true_2 (vp :: vps ≠ [])) by done. rewrite orb_true_r. cbn [orb].
  f_equal. f_equal. destruct vps as [|vp' vps]; [done|].
  rewrite with_vertex_twice, put_parents_app. done.
Qed.

(** For a network that is attached to the root: each link of [w] to the network. *)
Section Links.
Context (n : nat) (Hlb : router_ok lb n).

Definition link_hops (nh : vertex_nexthop) (ps : list Z) : list vertex_parent :=
  omap (λ p, (λ d, mk_vp v b (mk_nh (nh_oi nh) d)) <$> lk_link_data (l_body lb) p) ps.

Lemma add_network_links_run fuel s wv wl nh l i d added :
  at_w s wv → can_put d wv → (∃ m, wl = lb <| l_stat := m |>) → after_link n l i → (n - i < fuel)%nat →
  let ps := links_from n (matches lb (back_type vv) (v_id vv)) i in
  add_network_links fuel v w vv wl nh l d added s =
    Some (added || bool_decide (ps ≠ []),
          match ps with [] => s | _ => with_vertex s w (put_parents d (link_hops nh ps) wv) end).
Proof.
  intros Ha Hc [m ->]. revert s wv l i added Ha Hc.
  induction fuel as [|fuel IH]; intros s wv l i added Ha Hc Hl Hf; [lia|]. cbn [add_network_links].
  assert (router_ok (lb <| l_stat := m |>) n) as Hlm by exact Hlb.
  pose proof (get_next_link_spec _ n Hlm vv l i Hl) as Hg.
  change (links_from n (matches (lb <| l_stat := m |>) (back_type vv) (v_id vv)) i)
    with (links_from n (matches lb (back_type vv) (v_id vv)) i) in Hg.
  erewrite fbind_run by exact (of_option_run _ s _ Hg).
  destruct (head _) as [p|] eqn:Hh.
  2:{ destruct (links_from _ _ _); [|done]. cbn. by rewrite orb_false_r. }
  destruct (links_from_head n _ i p Hh) as (j & Hp & Hj & He). rewrite He.
  destruct (link_data_some lb n Hlb j ltac:(lia)) as [x Hx]. rewrite <- Hp in Hx.
  erewrite fbind_run by exact (of_option_run (lk_link_data (l_body lb) p) s x Hx).
  erewrite fbind_run by exact (add_parent_run s wv (mk_nh (nh_oi nh) x) d Ha Hc).
  rewrite (IH _ (put_parents d [mk_vp v b (mk_nh (nh_oi nh) x)] wv) (Some p) (S j));
    [|by apply at_w_put|by apply can_put_put|right; exists j; split_and!; [by rewrite Hp|lia|done]|lia].
  set (ps := links_from _ _ (S j)).
  rewrite (bool_decide_eq_true_2 (p :: ps ≠ [])) by done. rewrite orb_true_r. cbn [orb]. do 2 f_equal.
  assert (link_hops nh (p :: ps) = mk_vp v b (mk_nh (nh_oi nh) x) :: link_hops nh ps) as ->.
  { unfold link_hops. cbn. rewrite Hx. done. }
  destruct ps as [|p' ps]; [done|]. by rewrite with_vertex_twice, put_parents_app.
Qed.

Lemma add_attached_run vps root s wv wv' wl l d added :
  at_w s wv → can_put d wv → (∃ m, wl = lb <| l_stat := m |>) → l = None →
  v_type wv' = OSPF_VERTEX_ROUTER →
  let ps := links_from n (matches lb (back_type vv) (v_id vv)) 0 in
  let hs := filter (λ vp, vp_parent vp = root) vps ≫= (λ vp, link_hops (vp_nexthop vp) ps) in
  add_attached vps root v w vv wv' wl l d added s =
    Some (added || bool_decide (hs ≠ []),
          match hs with [] => s | _ => with_vertex s w (put_parents d hs wv) end).
Proof.
  intros Ha Hc Hwl -> Ht ps. revert s wv added Ha Hc.
  induction vps as [|vp vps IH]; intros s wv added Ha Hc; cbn [add_attached].
  { cbn. by rewrite orb_false_r. }
  rewrite list.filter_cons. case_bool_decide as Hr.
  2:{ rewrite decide_False by done. by apply IH. }
  rewrite decide_True by done. cbv zeta.
  change ((vp :: filter (λ vp, vp_parent vp = root) vps) ≫= λ vp, link_hops (vp_nexthop vp) ps)
    with (link_hops (vp_nexthop vp) ps ++ (filter (λ vp, vp_parent vp = root) vps ≫= λ vp, link_hops (vp_nexthop vp) ps)).
  assert ((v_type wv' =? OSPF_VERTEX_ROUTER) = true) as Ht' by (by apply Z.eqb_eq).
  erewrite fbind_run by exact (assert_run _ s Ht').
  assert (n - 0 < S (S (length (l_body wl))))%nat as Hf.
  { destruct Hwl as [m ->]. destruct Hlb as (_ & ? & _). cbn. lia. }
  pose proof (add_network_links_run _ s wv wl (vp_nexthop vp) None 0 d added Ha Hc Hwl ltac:(by left) Hf) as H1.
  cbv zeta in H1. fold ps in H1.
  set (hs1 := link_hops (vp_nexthop vp) ps) in *.
  assert ((ps = [] ∧ hs1 = []) ∨ (ps ≠ [] ∧ hs1 ≠ [])) as Hpe.
  { unfold hs1. destruct ps as [|p ps'] eqn:Ep; [by left|]. right. split; [done|]. unfold link_hops.
    assert (head ps = Some p) as Hh by (by rewrite Ep).
    destruct (links_from_head n _ 0 p Hh) as (j & Hp & Hj & _).
    destruct (link_data_some lb n Hlb j ltac:(lia)) as [x Hx]. rewrite <- Hp in Hx. cbn. by rewrite Hx. }
  erewrite fbind_run by exact H1. destruct Hpe as [[Hp Hh]|[Hp Hh]].
  - rewrite Hp, Hh. cbn [app]. rewrite (bool_decide_eq_false_2 ([] ≠ [])) by (by intros Hx). rewrite orb_false_r.
    rewrite (IH s wv) by done. by rewrite Hp.
  - rewrite (bool_decide_eq_true_2 (ps ≠ [])) by done. rewrite orb_true_r.
    destruct ps as [|p ps']; [done|].
    rewrite (IH _ (put_parents d hs1 wv)); [|by apply at_w_put|by apply can_put_put]. cbv zeta.
    set (hs2 := filter _ vps ≫= _).
    rewrite (bool_decide_eq_true_2 (hs1 ++ hs2 ≠ [])) by (destruct hs1; done). rewrite orb_true_r. cbn [orb].
    do 2 f_equal. destruct hs2 as [|y hs2].
    + rewrite app_nil_r. by destruct hs1.
    + rewrite with_vertex_twice, put_parents_app. by destruct hs1.
Qed.

End Links.
End AddParent.

End Hops.
