(* ===== verification/OspfSpfInv.v ===== *)
(** * OSPF: the algorithm on the graph

    The calculation without its memory: [astate] is the set of the vertices that have been found, the part
    of them in the tree, their distances and parents, and the edges that have been examined.  [relax] is what
    examining an edge does, [settle] what moving a candidate into the tree does; [ainv] is the
    invariant of both, from which the distances and the parents of the finished tree follow. *)

From stdpp Require Import gmap sorting.
From S2P Require Import Prelude Fault OspfTable OspfLsa OspfLsaProps OspfVertex OspfRoute OspfSpf OspfSpfGraph.
From S2P Require Import OspfSpfRead OspfSpfHops.

Record astate := mk_as {
  a_W : gmap nat nat;
  a_T : list nat;
  a_dst : nat → Z;
  a_par : nat → list vertex_parent;
  a_done : list (nat * edge);
  a_last : nat
}.

Definition wx (A : astate) (a : nat) : nat := default O (a_W A !! a).

Section Algorithm.
Context {RT : Type → Type} `{RouteTableLaws RT} {PL : PrefixLib}.
Context (E : spf_env RT) (h0 : lheap) (vlinks : list ospf_vl_data) (self : nat).

(** An LSA of the database that can be a vertex. *)
Definition explorable (b : nat) : Prop :=
  ∃ (i : nat) k, (i = 1%nat ∨ i = 2%nat) ∧ db_info (e_lsdb E) i k = Some b.

(** ** Assumptions on an area *)

(** The database is consistent and its router-LSAs and network-LSAs are well-formed; the router-LSA of
    the router is in it; there are at most 32767 LSAs, so that distances stay below [2 ^ 31]. *)
Record area_wf : Prop := {
  wf_db : db_ok h0 (e_lsdb E);
  wf_lsas b l : explorable b → h0 !! b = Some l → lsa_ok l;
  wf_self : ∃ l, h0 !! self = Some l ∧ h_type (l_data l) = OSPF_ROUTER_LSA ∧
    router_lsa E (h_id (l_data l)) = Some self;
  wf_size : Z.of_nat (size h0) ≤ 32767;
  wf_vlinks d : d ∈ vlinks → hop_ok E (vl_nexthop d)
}.

Context (Hwf : area_wf).

Local Abbreviation edges := (edges E h0 self).
Local Abbreviation root_hop := (root_hop E h0 vlinks self).
Local Abbreviation reach := (reach E h0 vlinks self).

Lemma explorable_at b : explorable b → ∃ l, h0 !! b = Some l ∧ lsa_ok l.
Proof.
  intros He. pose proof He as (i & k & _ & Hb). destruct (wf_db Hwf) as (_ & D2 & _).
  unfold db_info in Hb. destruct (db_type _ !! i) as [t|] eqn:Ht; [|done].
  destruct (D2 i t Ht) as (T1 & _). destruct (T1 k b Hb) as (l & Hl & _).
  exists l. split; [done|]. by eapply wf_lsas.
Qed.

Lemma table_entry (i : nat) k b : db_info (e_lsdb E) i k = Some b →
  ∃ l, h0 !! b = Some l ∧ h_type (l_data l) = Z.of_nat i ∧ lsdb_prefix_set l = k.
Proof.
  intros Hb. destruct (wf_db Hwf) as (_ & D2 & _). unfold db_info in Hb.
  destruct (db_type _ !! i) as [t|] eqn:Ht; [|done]. destruct (D2 i t Ht) as (T1 & _). by apply T1.
Qed.

Lemma router_lsa_at id b : router_lsa E id = Some b →
  explorable b ∧ ∃ l, h0 !! b = Some l ∧ h_type (l_data l) = OSPF_ROUTER_LSA.
Proof.
  intros Hb. split; [by exists 1%nat, (prefix_ls id id); auto|].
  destruct (table_entry 1 _ b Hb) as (l & Hl & Ht & _). eauto.
Qed.

Lemma network_lsa_at id b : network_lsa E h0 id = Some b →
  explorable b ∧ ∃ l, h0 !! b = Some l ∧ h_type (l_data l) = OSPF_NETWORK_LSA.
Proof.
  unfold network_lsa. destruct (db_type (e_lsdb E) !! 2%nat) as [t|] eqn:Ht; [|done]. cbn.
  intros Hb. destruct (filter _ _) as [|x xs] eqn:Ef; [done|]. cbn in Hb. injection Hb as ->.
  assert (b ∈ filter (λ p, h_id ∘ l_data <$> h0 !! p = Some id) (rt_entries (lt_db t))) as Hin
    by (rewrite Ef; left).
  apply list_elem_of_filter in Hin as [_ [k Hk]%rt_entries_elem].
  assert (db_info (e_lsdb E) 2 k = Some b) as Hi by (unfold db_info; by rewrite Ht).
  split; [by exists 2%nat, k; auto|]. destruct (table_entry 2 _ b Hi) as (l & Hl & Hty & _). eauto.
Qed.

Lemma self_at : ∃ l n, h0 !! self = Some l ∧ h_type (l_data l) = OSPF_ROUTER_LSA ∧ router_ok l n.
Proof.
  destruct (wf_self Hwf) as (l & Hl & Ht & Hs). destruct (router_lsa_at _ _ Hs) as [He _].
  destruct (wf_lsas Hwf self l He Hl) as [[_ [n Hn]]|[Hn _]]; [by eauto|]. by rewrite Ht in Hn.
Qed.

(** ** Edges *)

(** The edge [e] from the LSA [la] to the LSA [lb]. *)
Definition edge_ok (la lb : ospf_lsa) (e : edge) : Prop :=
  h_type (l_data la) = OSPF_ROUTER_LSA ∧
    (∃ i n, router_ok la n ∧ (i < n)%nat ∧ e_link e = Some (4 + 12 * Z.of_nat i) ∧
       lk_metric (l_body la) (4 + 12 * Z.of_nat i) = Some (e_cost e) ∧ 1 ≤ e_cost e ≤ 65535) ∨
  h_type (l_data la) = OSPF_NETWORK_LSA ∧ h_type (l_data lb) = OSPF_ROUTER_LSA ∧
    e_link e = None ∧ e_cost e = 0.

Lemma linked_back_at la b : linked_back E h0 la b →
  ∃ lb, h0 !! b = Some lb ∧ IS_LSA_MAXAGE (e_now E) lb = false ∧ leads_to lb la.
Proof. unfold linked_back. destruct (h0 !! b) as [lb|]; [eauto|done]. Qed.

Lemma edge_facts a la e :
  h0 !! a = Some la → lsa_ok la → e ∈ edges a →
  explorable (e_to e) ∧ ∃ lb, h0 !! e_to e = Some lb ∧ lsa_ok lb ∧ leads_to lb la ∧
    IS_LSA_MAXAGE (e_now E) lb = false ∧ edge_ok la lb e.
Proof.
  intros Ha Hla. unfold edges. rewrite Ha. unfold edges_of.
  destruct Hla as [[Ht [n Hn]]|[Ht [n Hn]]].
  - rewrite decide_True by done. rewrite list_elem_of_omap. intros (p & Hp & He).
    apply (link_offset_elem la n Hn) in Hp as (i & Hi & ->). unfold link_edge in He.
    destruct (lk_metric _ _) as [m|] eqn:Hm; [|done]. cbn in He.
    destruct (link_target _ _ la _) as [b|] eqn:Hb; [|done]. cbn in He.
    case_decide as Hd; [|done]. injection He as <-. destruct Hd as [_ Hd].
    apply linked_back_at in Hd as (lb & Hlb & Hage & Hlead). cbn [e_to e_link e_cost].
    assert (explorable b ∧ lk_type (l_body la) (4 + 12 * Z.of_nat i) ≠ Some LSA_LINK_TYPE_STUB) as [Hex Hst].
    { unfold link_target in Hb. destruct (lk_type _ _) as [t|]; [|done]. cbn in Hb.
      destruct (lk_link_id _ _) as [id|]; [|done]. cbn in Hb.
      destruct (Z.eqb_spec t LSA_LINK_TYPE_POINTOPOINT) as [->|]; [by destruct (router_lsa_at _ _ Hb)|].
      destruct (Z.eqb_spec t LSA_LINK_TYPE_VIRTUALLINK) as [->|]; [by destruct (router_lsa_at _ _ Hb)|].
      destruct (Z.eqb_spec t LSA_LINK_TYPE_TRANSIT) as [->|]; [by destruct (network_lsa_at _ _ Hb)|done]. }
    split; [done|]. exists lb. split_and!; [done|by eapply wf_lsas|done|done|]. left. split; [done|].
    exists i, n. split_and!; [done|done|done|done| |].
    + destruct Hn as (_ & _ & _ & Hn4 & Hn5). destruct (Hn5 i Hi) as [_ [|Hz]]; [done|].
      pose proof (rd16_range _ _ _ Hn4 Hm). cbn. enough (m ≠ 0) by lia. intros ->. done.
    + destruct Hn as (_ & _ & _ & Hn4 & _). pose proof (rd16_range _ _ _ Hn4 Hm). cbn. lia.
  - rewrite decide_False by (rewrite Ht; done). rewrite list_elem_of_omap. intros (p & Hp & He).
    unfold router_edge in He. destruct (rd32 _ _) as [id|]; [|done]. cbn in He.
    destruct (router_lsa E id) as [b|] eqn:Hb; [|done]. cbn in He. case_decide as Hd; [|done].
    injection He as <-. apply linked_back_at in Hd as (lb & Hlb & Hage & Hlead). cbn [e_to e_link e_cost].
    destruct (router_lsa_at id b Hb) as [Hex (lb' & Hlb' & Hty)]. simplify_eq.
    split; [done|]. exists lb. split_and!; [done|by eapply wf_lsas|done|done|]. right. done.
Qed.

(** ** Parents over an edge *)

Definition back_links (la lb : ospf_lsa) : list Z :=
  filter (matches lb LSA_LINK_TYPE_TRANSIT (h_id (l_data la))) (link_offsets lb).

Definition backlink (la lb : ospf_lsa) : Z := default (-1) (ospf_lsa_has_link lb la).

(** The parents that the examination of the edge [e] of [a] gives to its end. *)
Definition attached_parents (A : astate) (a : nat) (la lb : ospf_lsa) : list vertex_parent :=
  if decide (h_type (l_data la) = OSPF_NETWORK_LSA) then
    filter (λ vp, vp_parent vp = wx A self) (a_par A a) ≫=
      (λ vp, link_hops (wx A a) lb (backlink la lb) (vp_nexthop vp) (back_links la lb))
  else [].

Definition new_parents (A : astate) (a : nat) (e : edge) : list vertex_parent :=
  match h0 !! a, h0 !! e_to e with
  | Some la, Some lb =>
      if decide (a = self) then
        match root_hop e with Some h => [mk_vp (wx A a) (backlink la lb) h] | None => [] end
      else
        match attached_parents A a la lb with
        | [] => (λ vp, mk_vp (wx A a) (backlink la lb) (vp_nexthop vp)) <$> a_par A a
        | ps => ps
        end
  | _, _ => []
  end.

(** Examining the edge [e] of [a]; [x] is the place of a new vertex. *)
Definition relax (A : astate) (a : nat) (e : edge) (x : nat) : astate :=
  let b := e_to e in
  let d := a_dst A a + e_cost e in
  let ps := new_parents A a e in
  let done' := a_done A ++ [(a, e)] in
  let same := mk_as (a_W A) (a_T A) (a_dst A) (a_par A) done' (a_last A) in
  if decide (b ∈ a_T A) then same
  else if decide (ps = []) then same
  else
    match a_W A !! b with
    | None => mk_as (<[b := x]> (a_W A)) (a_T A) (<[b := d]> (a_dst A)) (<[b := ps]> (a_par A)) done' (a_last A)
    | Some _ =>
        if decide (a_dst A b < d) then same
        else mk_as (a_W A) (a_T A) (<[b := d]> (a_dst A))
               (<[b := (if decide (a_dst A b = d) then a_par A b else []) ++ ps]> (a_par A)) done' (a_last A)
    end.

(** The candidate [b] moves into the tree. *)
Definition settle (A : astate) (b : nat) : astate :=
  mk_as (a_W A) (a_T A ++ [b]) (a_dst A) (a_par A) (a_done A) b.

(** ** The order of the candidates: networks come before routers at the same distance *)

Definition type_of (b : nat) : Z := from_option (h_type ∘ l_data) 0 (h0 !! b).

Definition kle (A : astate) (a b : nat) : Prop :=
  a_dst A a < a_dst A b ∨ a_dst A a = a_dst A b ∧ type_of b ≤ type_of a.

(** ** The invariant *)

(** What the edges examined so far contribute to the parents of [b] at the distance [d]. *)
Definition contribution (A : astate) (b : nat) (d : Z) (ae : nat * edge) : list vertex_parent :=
  if decide (e_to ae.2 = b ∧ a_dst A ae.1 + e_cost ae.2 = d) then new_parents A ae.1 ae.2 else [].

Record ainv (A : astate) : Prop := {
  i_self : is_Some (a_W A !! self) ∧ self ∈ a_T A ∧ a_dst A self = 0 ∧ a_par A self = [];
  i_tree : NoDup (a_T A) ∧ (∀ a, a ∈ a_T A → is_Some (a_W A !! a)) ∧ a_last A ∈ a_T A;
  i_found b : is_Some (a_W A !! b) → explorable b;
  i_inj a b x : a_W A !! a = Some x → a_W A !! b = Some x → a = b;
  i_done a e : (a, e) ∈ a_done A → a ∈ a_T A ∧ e ∈ edges a;
  i_par b : is_Some (a_W A !! b) → b ≠ self →
    0 < a_dst A b ∧ a_par A b ≠ [] ∧ a_par A b = a_done A ≫= contribution A b (a_dst A b);
  i_best b a e : is_Some (a_W A !! b) → (a, e) ∈ a_done A → e_to e = b → new_parents A a e ≠ [] →
    a_dst A b ≤ a_dst A a + e_cost e;
  i_new b a e : a_W A !! b = None → (a, e) ∈ a_done A → e_to e = b → new_parents A a e = [];
  i_order : (∀ a, a ∈ a_T A → kle A a (a_last A)) ∧
    (∀ b, is_Some (a_W A !! b) → b ∉ a_T A → kle A (a_last A) b);
  i_bound : (∀ a, a ∈ a_T A → 0 ≤ a_dst A a ≤ 65535 * (Z.of_nat (length (a_T A)) - 1)) ∧
    (∀ b, is_Some (a_W A !! b) → b ∉ a_T A → 0 ≤ a_dst A b ≤ 65535 * Z.of_nat (length (a_T A)));
  i_reach b : is_Some (a_W A !! b) → reach b (a_dst A b);
  i_hops b vp : is_Some (a_W A !! b) → vp ∈ a_par A b → ∃ a, a ∈ a_T A ∧ vp_parent vp = wx A a
}.

(** ** Frame *)

Lemma new_parents_ext A A' a e :
  wx A' a = wx A a → wx A' self = wx A self → a_par A' a = a_par A a → new_parents A' a e = new_parents A a e.
Proof. intros H1 H2 H3. unfold new_parents, attached_parents. by rewrite H1, H2, H3. Qed.

Lemma contribution_ext A A' b d ae :
  wx A' ae.1 = wx A ae.1 → wx A' self = wx A self → a_par A' ae.1 = a_par A ae.1 →
  a_dst A' ae.1 = a_dst A ae.1 → contribution A' b d ae = contribution A b d ae.
Proof. intros H1 H2 H3 H4. unfold contribution. rewrite H4. by rewrite (new_parents_ext A A'). Qed.

Lemma bind_ext_in {B C} (f g : B → list C) l : (∀ x, x ∈ l → f x = g x) → l ≫= f = l ≫= g.
Proof.
  induction l as [|x l IH]; intros He; [done|]. cbn. rewrite He by left. f_equal. apply IH.
  intros y Hy. apply He. by right.
Qed.

Lemma bind_nil_in {B C} (f : B → list C) l : (∀ x, x ∈ l → f x = []) → l ≫= f = [].
Proof.
  induction l as [|x l IH]; intros He; [done|]. cbn. rewrite He by left. apply IH.
  intros y Hy. apply He. by right.
Qed.

Section Invariant.
Context (A : astate) (HA : ainv A).

Lemma found_at b : is_Some (a_W A !! b) → ∃ l, h0 !! b = Some l ∧ lsa_ok l ∧ type_of b = h_type (l_data l).
Proof.
  intros Hb%(i_found A HA). destruct (explorable_at b Hb) as (l & Hl & Hok). exists l.
  split_and!; [done|done|]. unfold type_of. by rewrite Hl.
Qed.

Lemma tree_found a : a ∈ a_T A → is_Some (a_W A !! a).
Proof. apply (i_tree A HA). Qed.

Lemma tree_dst a : a ∈ a_T A → 0 ≤ a_dst A a.
Proof. intros Ha. by apply (proj1 (i_bound A HA)). Qed.

Lemma edge_at a e : a ∈ a_T A → e ∈ edges a →
  ∃ la lb, h0 !! a = Some la ∧ h0 !! e_to e = Some lb ∧ lsa_ok la ∧ lsa_ok lb ∧ explorable (e_to e) ∧
    leads_to lb la ∧ IS_LSA_MAXAGE (e_now E) lb = false ∧ edge_ok la lb e.
Proof.
  intros Ha He. destruct (found_at a (tree_found a Ha)) as (la & Hla & Hok & _).
  destruct (edge_facts a la e Hla Hok He) as (Hex & lb & ?). exists la, lb. tauto.
Qed.

(** The end of an edge comes behind its start in the order of the candidates. *)
Lemma edge_forward a e : a ∈ a_T A → e ∈ edges a →
  0 ≤ e_cost e ≤ 65535 ∧
  (1 ≤ e_cost e ∨ e_cost e = 0 ∧ type_of a = OSPF_NETWORK_LSA ∧ type_of (e_to e) = OSPF_ROUTER_LSA).
Proof.
  intros Ha He. destruct (edge_at a e Ha He) as (la & lb & Hla & Hlb & _ & _ & _ & _ & _ & Hok).
  unfold type_of. rewrite Hla, Hlb. cbn. destruct Hok as [(Ht & i & n & _ & _ & _ & _ & Hc)|(? & ? & ? & ?)].
  - split; [lia|]. left. lia.
  - split; [lia|]. right. split_and!; assumption.
Qed.

Lemma self_tree : self ∈ a_T A.
Proof. apply (i_self A HA). Qed.

Lemma network_not_self a : type_of a = OSPF_NETWORK_LSA → a ≠ self.
Proof.
  intros Ht ->. destruct self_at as (l & n & Hl & Hty & _). unfold type_of in Ht. rewrite Hl in Ht. cbn in Ht.
  by rewrite Hty in Ht.
Qed.

Lemma new_dst_pos a e : a ∈ a_T A → e ∈ edges a → 0 < a_dst A a + e_cost e.
Proof.
  intros Ha He. destruct (edge_forward a e Ha He) as [_ [Hc|(Hc & Ht & _)]].
  - pose proof (tree_dst a Ha). lia.
  - destruct (i_par A HA a (tree_found a Ha) (network_not_self a Ht)) as [? _]. lia.
Qed.

(** An edge from the last vertex back into the tree is no shortcut. *)
Lemma edge_back e : e ∈ edges (a_last A) → e_to e ∈ a_T A → a_dst A (e_to e) < a_dst A (a_last A) + e_cost e.
Proof.
  intros He Hb. destruct (i_tree A HA) as (_ & _ & Hl). destruct (i_order A HA) as [Ho _].
  destruct (edge_forward _ e Hl He) as [_ [Hc|(Hc & Ht & Ht')]]; destruct (Ho _ Hb) as [|[Hd Hk]]; try lia.
  unfold OSPF_NETWORK_LSA, OSPF_ROUTER_LSA in *. lia.
Qed.

Lemma new_parents_parent a e vp : vp ∈ new_parents A a e → vp_parent vp = wx A a.
Proof.
  unfold new_parents, attached_parents, link_hops. destruct (h0 !! a) as [la|]; [|by intros ?%elem_of_nil].
  destruct (h0 !! e_to e) as [lb|]; [|by intros ?%elem_of_nil].
  assert (∀ u, u ∈ filter (λ vp, vp_parent vp = wx A self) (a_par A a) ≫= (λ vp,
      link_hops (wx A a) lb (backlink la lb) (vp_nexthop vp) (back_links la lb)) → vp_parent u = wx A a) as Hatt.
  { intros u (w & (p & _ & Hp)%list_elem_of_omap & _)%list_elem_of_bind.
    destruct (lk_link_data _ p); [|done]. by injection Hp as <-. }
  case_decide.
  - destruct (root_hop e); [|by intros ?%elem_of_nil]. by intros ->%list_elem_of_singleton.
  - destruct (decide (h_type (l_data la) = OSPF_NETWORK_LSA)).
    + fold (link_hops (wx A a) lb (backlink la lb)) in *. unfold link_hops in Hatt.
      destruct (filter _ _ ≫= _) as [|u us] eqn:Eu; [|by apply Hatt].
      intros (w & -> & _)%list_elem_of_fmap. done.
    + intros (w & -> & _)%list_elem_of_fmap. done.
Qed.

Lemma contribution_parent b d vp :
  vp ∈ a_done A ≫= contribution A b d → ∃ a, a ∈ a_T A ∧ vp_parent vp = wx A a.
Proof.
  intros ([a e] & Hvp & Hin)%list_elem_of_bind. unfold contribution in Hvp. cbn in Hvp.
  case_decide; [|by apply elem_of_nil in Hvp]. exists a.
  split; [by apply (i_done A HA) in Hin as [? _]|by apply new_parents_parent in Hvp].
Qed.

Lemma wx_found a x : a_W A !! a = Some x → wx A a = x.
Proof. intros Ha. unfold wx. by rewrite Ha. Qed.

(** A parent over an edge of the root means that the edge can be used. *)
Lemma new_parents_usable a e : e ∈ edges a → new_parents A a e ≠ [] → usable E h0 vlinks self a e.
Proof.
  intros He Hn. split; [done|]. intros ->. unfold new_parents in Hn.
  destruct (h0 !! self); [|done]. destruct (h0 !! e_to e); [|done]. rewrite decide_True in Hn by done.
  destruct (root_hop e); [eauto|done].
Qed.

(** ** Examining an edge *)

(** The state after an edge without effect. *)
Lemma relax_same e :
  e ∈ edges (a_last A) →
  (new_parents A (a_last A) e = [] ∨
   is_Some (a_W A !! e_to e) ∧ a_dst A (e_to e) < a_dst A (a_last A) + e_cost e) →
  ainv (mk_as (a_W A) (a_T A) (a_dst A) (a_par A) (a_done A ++ [(a_last A, e)]) (a_last A)).
Proof.
  intros He Hcase. destruct (i_tree A HA) as (T1 & T2 & T3).
  set (A' := mk_as _ _ _ _ _ _).
  assert (∀ b d, contribution A b d (a_last A, e) = [] ∨ e_to e = b ∧ a_dst A (a_last A) + e_cost e = d) as Hc.
  { intros b d. unfold contribution. cbn. case_decide; [right; done|by left]. }
  split; cbn; try apply HA; try done.
  - intros a e' [Hin|[= -> ->]%list_elem_of_singleton]%elem_of_app; [by apply (i_done A HA)|done].
  - intros b Hb Hne. destruct (i_par A HA b Hb Hne) as (P1 & P2 & P3). split_and!; [done|done|].
    rewrite bind_app, P3 at 1. change (contribution A' b) with (contribution A b).
    assert (contribution A b (a_dst A b) (a_last A, e) = []) as Hz.
    { destruct Hcase as [Hn|[_ Hlt]].
      - unfold contribution. cbn. rewrite Hn. by case_decide.
      - destruct (Hc b (a_dst A b)) as [|[<- ?]]; [done|lia]. }
    cbn. rewrite Hz. by rewrite !app_nil_r.
  - intros b a e' Hb [Hin|[= -> ->]%list_elem_of_singleton]%elem_of_app Hto Hn; [by eapply (i_best A HA)|].
    change (new_parents A' (a_last A) e) with (new_parents A (a_last A) e) in Hn.
    destruct Hcase as [|[_ Hlt]]; [done|]. subst b. lia.
  - intros b a e' Hb [Hin|[= -> ->]%list_elem_of_singleton]%elem_of_app Hto; [by eapply (i_new A HA)|].
    destruct Hcase as [|[[? Hs] _]]; [done|]. congruence.
Qed.

(** The state after an edge that gives its end [b] new parents. *)
Definition updated (e : edge) (y : nat) : astate :=
  let a := a_last A in
  let b := e_to e in
  let d := a_dst A a + e_cost e in
  mk_as (<[b := y]> (a_W A)) (a_T A) (<[b := d]> (a_dst A))
    (<[b := (a_done A ≫= contribution A b d) ++ new_parents A a e]> (a_par A)) (a_done A ++ [(a, e)]) a.

Section Update.
Context (e : edge) (y : nat).
Let b := e_to e.
Let A' := updated e y.

Hypothesis He : e ∈ edges (a_last A).
Hypothesis Hb : b ∉ a_T A.
Hypothesis Hps : new_parents A (a_last A) e ≠ [].
Hypothesis Hcase :
  a_W A !! b = Some y ∧ a_dst A (a_last A) + e_cost e ≤ a_dst A b ∨
  a_W A !! b = None ∧ ∀ c, a_W A !! c ≠ Some y.

Lemma last_tree : a_last A ∈ a_T A.
Proof. apply (i_tree A HA). Qed.

Lemma tree_other c : c ∈ a_T A → c ≠ b.
Proof. by intros Hc ->. Qed.

Lemma upd_wx c : c ≠ b → wx A' c = wx A c.
Proof. intros Hc. unfold wx, A', updated. cbn. by rewrite lookup_insert_ne. Qed.
Lemma upd_dst c : c ≠ b → a_dst A' c = a_dst A c.
Proof. intros Hc. unfold A', updated. cbn. by rewrite fn_lookup_insert_ne. Qed.
Lemma upd_par c : c ≠ b → a_par A' c = a_par A c.
Proof. intros Hc. unfold A', updated. cbn. by rewrite fn_lookup_insert_ne. Qed.
Lemma upd_dst_b : a_dst A' b = a_dst A (a_last A) + e_cost e.
Proof. unfold A', updated. cbn. by rewrite fn_lookup_insert. Qed.

Lemma upd_new_parents c e' : c ∈ a_T A → new_parents A' c e' = new_parents A c e'.
Proof.
  intros Hc. apply new_parents_ext; [by apply upd_wx, tree_other|by apply upd_wx, tree_other, self_tree|].
  by apply upd_par, tree_other.
Qed.

Lemma upd_contribution c d' x : x.1 ∈ a_T A → contribution A' c d' x = contribution A c d' x.
Proof.
  intros Hx. apply contribution_ext; [by apply upd_wx, tree_other|by apply upd_wx, tree_other, self_tree| |].
  - by apply upd_par, tree_other.
  - by apply upd_dst, tree_other.
Qed.

Lemma upd_done c d' :
  (a_done A' ≫= contribution A' c d') =
  (a_done A ≫= contribution A c d') ++ contribution A c d' (a_last A, e).
Proof.
  change (a_done A') with (a_done A ++ [(a_last A, e)]). rewrite bind_app. f_equal.
  - apply bind_ext_in. intros [a' e'] Hin. apply upd_contribution. by apply (i_done A HA) in Hin as [? _].
  - cbn. rewrite app_nil_r. apply upd_contribution. apply last_tree.
Qed.

Lemma upd_W c : is_Some (a_W A' !! c) ↔ c = b ∨ is_Some (a_W A !! c).
Proof.
  unfold A', updated. cbn. fold b. destruct (decide (c = b)) as [->|].
  - rewrite lookup_insert_eq. split; [by left|eauto].
  - rewrite lookup_insert_ne by done. split; [auto|by intros [|]].
Qed.

Lemma upd_W_other c : c ≠ b → is_Some (a_W A' !! c) → is_Some (a_W A !! c).
Proof. by intros Hc [|]%upd_W. Qed.

Lemma upd_elem a' e' : (a', e') ∈ a_done A' → a' ∈ a_T A ∧ e' ∈ edges a' ∧
  ((a', e') ∈ a_done A ∨ a' = a_last A ∧ e' = e).
Proof.
  intros [Hin|[= -> ->]%list_elem_of_singleton]%elem_of_app.
  - destruct (i_done A HA a' e' Hin). auto.
  - split_and!; [apply last_tree|done|auto].
Qed.

Lemma upd_kle c c' : c ≠ b → c' ≠ b → kle A c c' → kle A' c c'.
Proof. intros Hc Hc'. unfold kle. by rewrite !upd_dst. Qed.

Lemma upd_kle_b : kle A' (a_last A) b.
Proof.
  unfold kle. rewrite upd_dst_b, upd_dst by (apply tree_other, last_tree).
  destruct (edge_forward _ e last_tree He) as [Hc [|(Hz & Ht & Ht')]]; [left; lia|].
  right. fold b in Ht'. rewrite Ht, Ht', Hz. unfold OSPF_ROUTER_LSA, OSPF_NETWORK_LSA. lia.
Qed.

Lemma upd_inj c c' x : a_W A' !! c = Some x → a_W A' !! c' = Some x → c = c'.
Proof.
  assert (∀ c, c ≠ b → a_W A !! c = Some y → False) as Hy.
  { intros c0 Hc0 Hx. destruct Hcase as [[Hy _]|[_ Hy]]; [|by apply (Hy c0)]. by apply Hc0, (i_inj A HA c0 b y). }
  unfold A', updated. cbn. fold b.
  destruct (decide (c = b)) as [->|Hc], (decide (c' = b)) as [->|Hc']; [done| | |].
  - rewrite lookup_insert_eq, lookup_insert_ne by done. intros [= <-] Hx. by destruct (Hy c').
  - rewrite lookup_insert_eq, lookup_insert_ne by done. intros Hx [= <-]. by destruct (Hy c).
  - rewrite !lookup_insert_ne by done. apply (i_inj A HA).
Qed.

Lemma upd_par_inv c : is_Some (a_W A' !! c) → c ≠ self →
  0 < a_dst A' c ∧ a_par A' c ≠ [] ∧ a_par A' c = a_done A' ≫= contribution A' c (a_dst A' c).
Proof.
  intros Hc Hne. rewrite upd_done. destruct (decide (c = b)) as [->|Hcne].
  - rewrite upd_dst_b. split; [apply new_dst_pos; [apply last_tree|done]|].
    assert (contribution A b (a_dst A (a_last A) + e_cost e) (a_last A, e) = new_parents A (a_last A) e) as ->
      by (unfold contribution; cbn; by rewrite decide_True).
    assert (a_par A' b = (a_done A ≫= contribution A b (a_dst A (a_last A) + e_cost e)) ++
      new_parents A (a_last A) e) as -> by (unfold A', updated; cbn; by rewrite fn_lookup_insert).
    split; [|done]. by destruct (a_done A ≫= _).
  - destruct (i_par A HA c (upd_W_other c Hcne Hc) Hne) as (P1 & P2 & P3). rewrite upd_dst, upd_par by done.
    split_and!; [done|done|].
    assert (contribution A c (a_dst A c) (a_last A, e) = []) as ->; [|by rewrite app_nil_r].
    unfold contribution. cbn. rewrite decide_False; [done|]. intros [Hx _]. by apply Hcne.
Qed.

Lemma upd_best c a' e' : is_Some (a_W A' !! c) → (a', e') ∈ a_done A' → e_to e' = c → new_parents A' a' e' ≠ [] →
  a_dst A' c ≤ a_dst A' a' + e_cost e'.
Proof.
  intros Hc (Ha' & _ & Hin)%upd_elem Hto Hn. rewrite upd_new_parents in Hn by done.
  rewrite (upd_dst a') by (by apply tree_other). destruct Hin as [Hin|[-> ->]].
  - destruct (decide (c = b)) as [->|Hcne].
    + rewrite upd_dst_b. destruct Hcase as [[Hy Hle]|[Hy _]].
      * pose proof (i_best A HA b a' e' ltac:(eauto) Hin Hto Hn). lia.
      * exfalso. apply Hn. by apply (i_new A HA b).
    + rewrite upd_dst by done. apply (i_best A HA c a' e'); [by apply upd_W_other|done..].
  - fold b in Hto. rewrite <- Hto, upd_dst_b. done.
Qed.

Lemma upd_new c a' e' : a_W A' !! c = None → (a', e') ∈ a_done A' → e_to e' = c → new_parents A' a' e' = [].
Proof.
  intros Hc (Ha' & _ & Hin)%upd_elem Hto.
  assert (c ≠ b) as Hcne by (intros ->; destruct (proj2 (upd_W b)) as [? ?]; [by left|congruence]).
  rewrite upd_new_parents by done. destruct Hin as [Hin|[-> ->]]; [|done].
  apply (i_new A HA c); [|done|done]. unfold A', updated in Hc. cbn in Hc. by rewrite lookup_insert_ne in Hc.
Qed.

Lemma upd_bound c : is_Some (a_W A' !! c) → c ∉ a_T A → 0 ≤ a_dst A' c ≤ 65535 * Z.of_nat (length (a_T A)).
Proof.
  intros Hc Hnt. destruct (i_bound A HA) as [B1 B2]. destruct (decide (c = b)) as [->|].
  - rewrite upd_dst_b. pose proof (B1 _ last_tree). destruct (edge_forward _ e last_tree He). lia.
  - rewrite upd_dst by done. apply B2; [by apply upd_W_other|done].
Qed.

Lemma upd_reach c : is_Some (a_W A' !! c) → reach c (a_dst A' c).
Proof.
  intros Hc. destruct (decide (c = b)) as [->|].
  - rewrite upd_dst_b. apply (reach_edge E h0 vlinks self (a_last A) (a_dst A (a_last A)) e).
    + by apply (i_reach A HA), tree_found, last_tree.
    + by apply new_parents_usable.
  - rewrite upd_dst by done. apply (i_reach A HA). by apply upd_W_other.
Qed.

Lemma upd_hops c vp : is_Some (a_W A' !! c) → vp ∈ a_par A' c → ∃ a, a ∈ a_T A ∧ vp_parent vp = wx A' a.
Proof.
  intros Hc Hvp. enough (∃ a, a ∈ a_T A ∧ vp_parent vp = wx A a) as (a & Ha & Hp).
  { exists a. split; [done|]. by rewrite upd_wx by (by apply tree_other). }
  destruct (decide (c = b)) as [->|].
  - unfold A', updated in Hvp. cbn in Hvp. rewrite fn_lookup_insert in Hvp. apply elem_of_app in Hvp as [Hvp|Hvp].
    + by apply contribution_parent in Hvp.
    + exists (a_last A). split; [apply last_tree|]. by apply new_parents_parent in Hvp.
  - rewrite upd_par in Hvp by done. apply (i_hops A HA c vp); [by apply upd_W_other|done].
Qed.

Lemma relax_update : ainv A'.
Proof.
  destruct (i_tree A HA) as (T1 & T2 & T3). destruct (i_self A HA) as (S1 & S2 & S3 & S4).
  assert (self ≠ b) as Hsb by (by apply tree_other).
  split; [| | |exact upd_inj| |exact upd_par_inv|exact upd_best|exact upd_new| | |exact upd_reach|exact upd_hops].
  - split_and!; [apply upd_W; auto|done|by rewrite upd_dst|by rewrite upd_par].
  - split_and!; [done| |done]. intros c Hc. apply upd_W. right. by apply T2.
  - intros c [->|Hc]%upd_W; [|by apply (i_found A HA)].
    by destruct (edge_at _ e last_tree He) as (? & ? & _ & _ & _ & _ & ? & _).
  - by intros a' e' (? & ? & _)%upd_elem.
  - destruct (i_order A HA) as [O1 O2]. split.
    + intros c Hc. apply upd_kle; [by apply tree_other|by apply tree_other|by apply O1].
    + intros c Hc Hnt. destruct (decide (c = b)) as [->|]; [apply upd_kle_b|].
      apply upd_kle; [by apply tree_other|done|]. apply O2; [by apply upd_W_other|done].
  - split; [|exact upd_bound]. intros c Hc. rewrite upd_dst by (by apply tree_other). by apply (i_bound A HA).
Qed.

End Update.

(** Examining an edge of the last vertex. *)
Lemma relax_inv e x :
  e ∈ edges (a_last A) → (∀ c, a_W A !! c ≠ Some x) → ainv (relax A (a_last A) e x).
Proof.
  intros He Hx. unfold relax. destruct (decide (e_to e ∈ a_T A)) as [Hb|Hb].
  { apply relax_same; [done|]. right. split; [by apply tree_found|]. by apply edge_back. }
  destruct (decide (new_parents A (a_last A) e = [])) as [Hn|Hn]; [apply relax_same; auto|].
  set (d := a_dst A (a_last A) + e_cost e).
  assert (e_to e ≠ self) as Hbs by (intros Heq; rewrite Heq in Hb; by apply Hb, self_tree).
  destruct (a_W A !! e_to e) as [y|] eqn:Hy.
  - destruct (decide (a_dst A (e_to e) < d)) as [Hlt|Hge]; [apply relax_same; eauto|].
    pose proof (relax_update e y He Hb Hn ltac:(left; split; [done|lia])) as Hu.
    unfold updated in Hu. fold d in Hu. rewrite (insert_id (a_W A)) in Hu by done.
    enough ((if decide (a_dst A (e_to e) = d) then a_par A (e_to e) else []) =
      a_done A ≫= contribution A (e_to e) d) as -> by done.
    destruct (decide (a_dst A (e_to e) = d)) as [Hd|Hd].
    + rewrite <- Hd. by destruct (i_par A HA (e_to e) ltac:(eauto) Hbs) as (_ & _ & ?).
    + symmetry. apply bind_nil_in. intros [a' e'] Hin. unfold contribution. cbn. case_decide as Hc; [|done].
      destruct Hc as [Hto Hc]. destruct (decide (new_parents A a' e' = [])) as [|Hne]; [done|].
      pose proof (i_best A HA (e_to e) a' e' ltac:(eauto) Hin Hto Hne). lia.
  - pose proof (relax_update e x He Hb Hn ltac:(right; done)) as Hu. unfold updated in Hu. fold d in Hu.
    rewrite (bind_nil_in (contribution A (e_to e) d)) in Hu; [done|].
    intros [a' e'] Hin. unfold contribution. cbn. case_decide as Hc; [|done]. destruct Hc as [Hto _].
    by apply (i_new A HA (e_to e)).
Qed.

(** ** Moving a candidate into the tree *)

Lemma settle_inv b :
  is_Some (a_W A !! b) → b ∉ a_T A → (∀ c, is_Some (a_W A !! c) → c ∉ a_T A → kle A b c) → ainv (settle A b).
Proof.
  intros Hb Hnt Hmin. destruct (i_tree A HA) as (T1 & T2 & T3). destruct (i_order A HA) as [O1 O2].
  destruct (i_bound A HA) as [B1 B2].
  assert (∀ c, c ∈ a_T A ++ [b] ↔ c ∈ a_T A ∨ c = b) as Hin.
  { intros c. by rewrite elem_of_app, list_elem_of_singleton. }
  assert (∀ c c' c'', kle A c c' → kle A c' c'' → kle A c c'') as Htr by (unfold kle; lia).
  split; cbn; try apply HA.
  - destruct (i_self A HA) as (S1 & S2 & S3 & S4). split_and!; [done|by apply Hin; left|done|done].
  - split_and!.
    + apply list.NoDup_app. split_and!; [done| |apply list.NoDup_singleton].
      by intros c Hc ->%list_elem_of_singleton.
    + intros c [Hc|Hc]%Hin; [by apply T2|by subst].
    + apply Hin. by right.
  - intros c e' Hce. destruct (i_done A HA c e' Hce). split; [|done]. apply Hin. by left.
  - split.
    + intros c [Hc|Hc]%Hin; [|subst; unfold kle; change (a_dst (settle A b)) with (a_dst A); lia].
      apply (Htr _ (a_last A)); [by apply O1|by apply O2].
    + intros c Hc Hct. rewrite Hin in Hct. by apply Hmin; [|intros ?; apply Hct; left].
  - rewrite length_app. cbn. split.
    + intros c [Hc|Hc]%Hin; [pose proof (B1 c Hc); lia|]. subst. pose proof (B2 b Hb Hnt). lia.
    + intros c Hc Hct. rewrite Hin in Hct. pose proof (B2 c Hc ltac:(tauto)). lia.
  - intros c vp Hc Hvp. destruct (i_hops A HA c vp Hc Hvp) as (a & Ha & Hp). exists a.
    split; [|done]. apply Hin. by left.
Qed.

(** ** The finished tree *)

Section Finished.
Hypothesis Hall : ∀ b, is_Some (a_W A !! b) → b ∈ a_T A.
Hypothesis Hdone : ∀ a e, a ∈ a_T A → e ∈ edges a → (a, e) ∈ a_done A.

(** An edge of the tree that can be used gives parents. *)
Lemma usable_new_parents a e : a ∈ a_T A → usable E h0 vlinks self a e → new_parents A a e ≠ [].
Proof.
  intros Ha [He Hr]. destruct (edge_at a e Ha He) as (la & lb & Hla & Hlb & _). unfold new_parents.
  rewrite Hla, Hlb. case_decide as Hs.
  - destruct (Hr Hs) as [h ->]. done.
  - destruct (i_par A HA a (tree_found a Ha) Hs) as (_ & Hp & _).
    destruct (attached_parents A a la lb); [|done]. by destruct (a_par A a).
Qed.

Lemma reach_found b d : reach b d → is_Some (a_W A !! b) ∧ a_dst A b ≤ d.
Proof.
  induction 1 as [|a d e Hr [Hf Hd] Hu].
  - destruct (i_self A HA) as (S1 & _ & S3 & _). split; [done|lia].
  - assert (a ∈ a_T A) as Ha by (by apply Hall). pose proof (usable_new_parents a e Ha Hu) as Hn.
    destruct Hu as [He _]. pose proof (Hdone a e Ha He) as Hin.
    assert (is_Some (a_W A !! e_to e)) as Hb.
    { destruct (a_W A !! e_to e) eqn:Hw; [eauto|]. by destruct (i_new A HA _ a e Hw Hin eq_refl). }
    split; [done|]. pose proof (i_best A HA _ a e Hb Hin eq_refl Hn). lia.
Qed.

Lemma found_dist b : is_Some (a_W A !! b) → spf_dist E h0 vlinks self b (a_dst A b).
Proof. intros Hb. split; [by apply (i_reach A HA)|]. intros d' [_ Hd]%reach_found. done. Qed.

Lemma dist_found b d : spf_dist E h0 vlinks self b d → is_Some (a_W A !! b) ∧ d = a_dst A b.
Proof.
  intros [Hr Hm]. destruct (reach_found b d Hr) as [Hb Hd]. split; [done|].
  pose proof (Hm _ (i_reach A HA b Hb)). lia.
Qed.

(** The parents of a vertex come from the tight edges. *)
Lemma tight_edge a e : a ∈ a_T A →
  tight E h0 vlinks self a e ↔
  e ∈ edges a ∧ is_Some (a_W A !! e_to e) ∧ new_parents A a e ≠ [] ∧ a_dst A a + e_cost e = a_dst A (e_to e).
Proof.
  intros Ha. split.
  - intros (Hu & d & Hd1 & Hd2). apply dist_found in Hd1 as [_ ->]. apply dist_found in Hd2 as [Hb Hd].
    split_and!; [apply Hu|done|by apply usable_new_parents|done].
  - intros (He & Hb & Hn & Hd). split; [by apply new_parents_usable|]. exists (a_dst A a).
    split; [by apply found_dist, tree_found|]. rewrite Hd. by apply found_dist.
Qed.

Lemma tight_source a e : tight E h0 vlinks self a e → a ∈ a_T A.
Proof. intros (_ & d & Hd & _). apply Hall. by apply dist_found in Hd as [? _]. Qed.

Lemma par_elem b vp : is_Some (a_W A !! b) → vp ∈ a_par A b ↔
  ∃ a e, a ∈ a_T A ∧ tight E h0 vlinks self a e ∧ e_to e = b ∧ vp ∈ new_parents A a e.
Proof.
  intros Hb. destruct (decide (b = self)) as [->|Hne].
  - destruct (i_self A HA) as (_ & _ & S3 & ->). split; [by intros ?%elem_of_nil|].
    intros (a & e & Ha & (He & _ & _ & Hd)%(tight_edge _ _ Ha) & Hto & _).
    pose proof (new_dst_pos a e Ha He). rewrite Hto in Hd. lia.
  - destruct (i_par A HA b Hb Hne) as (_ & _ & ->). rewrite list_elem_of_bind. split.
    + intros ([a e] & Hvp & Hin). unfold contribution in Hvp. cbn in Hvp.
      case_decide as Hd; [|by apply elem_of_nil in Hvp]. destruct Hd as [<- Hd].
      destruct (i_done A HA a e Hin) as [Ha He]. exists a, e. split_and!; [done| |done|done].
      apply tight_edge; [done|]. split_and!; [done|done| |done]. intros Hz. rewrite Hz in Hvp. by apply elem_of_nil in Hvp.
    + intros (a & e & Ha & (He & _ & _ & Hd)%(tight_edge _ _ Ha) & Hto & Hvp). exists (a, e). split; [|by apply Hdone].
      unfold contribution. cbn. rewrite Hto in Hd. by rewrite decide_True.
Qed.

Lemma wx_inj a b : a ∈ a_T A → b ∈ a_T A → wx A a = wx A b → a = b.
Proof.
  intros [x Hx]%tree_found [y Hy]%tree_found. rewrite (wx_found a x Hx), (wx_found b y Hy). intros <-.
  by apply (i_inj A HA a b x).
Qed.

(** A parent that is the root: the vertex is attached to it. *)
Lemma attached_elem a h : is_Some (a_W A !! a) →
  (∃ vp, vp ∈ a_par A a ∧ vp_parent vp = wx A self ∧ vp_nexthop vp = h) ↔ attached E h0 vlinks self a h.
Proof.
  intros Ha. destruct self_at as (ls & n & Hls & _). split.
  - intros (vp & (c & e & Hc & Ht & Hto & Hvp)%(par_elem _ _ Ha) & Hp & Hh).
    pose proof (new_parents_parent c e vp Hvp) as Hp'. rewrite Hp in Hp'.
    apply wx_inj in Hp'; [subst c|apply self_tree|done]. exists e. split_and!; [done|done|].
    unfold new_parents in Hvp. rewrite Hls in Hvp. destruct (h0 !! e_to e); [|by apply elem_of_nil in Hvp].
    rewrite decide_True in Hvp by done. destruct (root_hop e); [|by apply elem_of_nil in Hvp].
    apply list_elem_of_singleton in Hvp as ->. cbn in Hh. by rewrite Hh.
  - intros (e & Ht & Hto & Hr). destruct (edge_at self e self_tree) as (la & lb & Hla & Hlb & _); [apply Ht|].
    exists (mk_vp (wx A self) (backlink la lb) h). split; [|done]. apply par_elem; [done|].
    exists self, e. split_and!; [apply self_tree|done|done|]. unfold new_parents.
    rewrite Hla, Hlb, decide_True by done. rewrite Hr. by apply list_elem_of_singleton.
Qed.

Lemma network_type a la : h0 !! a = Some la → is_network h0 a ↔ h_type (l_data la) = OSPF_NETWORK_LSA.
Proof.
  intros Ha. split; [|intros; by exists la]. intros (l & Hl & Ht). congruence.
Qed.

Lemma back_address_elem a b la lb d : h0 !! a = Some la → h0 !! b = Some lb →
  back_address h0 a b d ↔ ∃ p, p ∈ back_links la lb ∧ lk_link_data (l_body lb) p = Some d.
Proof.
  intros Ha Hb. unfold back_links. split.
  - intros (la' & lb' & p & Ha' & Hb' & Hp & Ht & Hid & Hd). simplify_eq. exists p. split; [|done].
    by apply list_elem_of_filter.
  - intros (p & [[Ht Hid] Hp]%list_elem_of_filter & Hd). exists la, lb, p. done.
Qed.

(** A router with an edge from a network has an address on it. *)
Lemma back_address_exists la lb : lsa_ok lb → leads_to lb la → h_type (l_data lb) = OSPF_ROUTER_LSA →
  h_type (l_data la) = OSPF_NETWORK_LSA → ∃ p d, p ∈ back_links la lb ∧ lk_link_data (l_body lb) p = Some d.
Proof.
  intros Hok Hl Hty Hta. destruct Hl as [[_ He]|[Hn _]]; [|by rewrite Hty in Hn].
  apply Exists_exists in He as (p & Hp%list_elem_of_In & Hid & Hk).
  destruct Hk as [[_ Hk]|[Hk _]]; [by rewrite Hta in Hk|].
  destruct Hok as [[_ [n Hn]]|[Hn _]]; [|by rewrite Hty in Hn].
  pose proof Hp as (i & Hi & Hpi)%(link_offset_elem lb n Hn). destruct (link_data_some lb n Hn i Hi) as [d Hd].
  exists p, d. split; [|by rewrite Hpi]. by apply list_elem_of_filter.
Qed.

(** The parents over an edge of a network that is attached to the root. *)
Lemma attached_parents_elem a la lb vp :
  h0 !! a = Some la → h_type (l_data la) = OSPF_NETWORK_LSA → is_Some (a_W A !! a) →
  vp ∈ attached_parents A a la lb ↔
  vp_parent vp = wx A a ∧ vp_backlink vp = backlink la lb ∧
  ∃ h p d, attached E h0 vlinks self a h ∧ p ∈ back_links la lb ∧ lk_link_data (l_body lb) p = Some d ∧
    vp_nexthop vp = mk_nh (nh_oi h) d.
Proof.
  intros Ha Ht Hf. unfold attached_parents. rewrite decide_True by done. rewrite list_elem_of_bind. split.
  - intros (u & (p & Hp & Hd)%list_elem_of_omap & [Hu Hin]%list_elem_of_filter).
    destruct (lk_link_data _ p) as [d|] eqn:Ed; [|done]. injection Hd as <-. split_and!; [done|done|].
    exists (vp_nexthop u), p, d. split_and!; [|done|done|done]. apply attached_elem; [done|]. eauto.
  - intros (H1 & H2 & h & p & d & (u & Hu & Hup & Huh)%(attached_elem _ _ Hf) & Hp & Hd & Hn).
    exists u. split; [|by apply list_elem_of_filter]. apply list_elem_of_omap. exists p. split; [done|].
    rewrite Hd. cbn. subst h. destruct vp. cbn in *. by subst.
Qed.

(** How [a] gives next hops to the end of a tight edge. *)
Lemma new_parents_elem a e vp : a ∈ a_T A → tight E h0 vlinks self a e →
  ∃ la lb, h0 !! a = Some la ∧ h0 !! e_to e = Some lb ∧
  (vp ∈ new_parents A a e ↔ vp_parent vp = wx A a ∧ vp_backlink vp = backlink la lb ∧
    (a = self ∧ root_hop e = Some (vp_nexthop vp) ∨
     a ≠ self ∧ (is_network h0 a ∧ ∃ h, attached E h0 vlinks self a h) ∧
       (∃ h d, attached E h0 vlinks self a h ∧ back_address h0 a (e_to e) d ∧ vp_nexthop vp = mk_nh (nh_oi h) d) ∨
     a ≠ self ∧ ¬ (is_network h0 a ∧ ∃ h, attached E h0 vlinks self a h) ∧
       ∃ u, u ∈ a_par A a ∧ vp_nexthop u = vp_nexthop vp)).
Proof.
  intros Ha Ht. pose proof Ht as (He & _)%(tight_edge _ _ Ha).
  destruct (edge_at a e Ha He) as (la & lb & Hla & Hlb & Hoka & Hokb & _ & Hlead & _ & Hedge).
  exists la, lb. split_and!; [done|done|]. pose proof (tree_found a Ha) as Hf. unfold new_parents. rewrite Hla, Hlb.
  case_decide as Hs.
  { destruct (root_hop e) as [h|] eqn:Hr.
    - rewrite list_elem_of_singleton. split; [intros ->; auto|].
      intros (H1 & H2 & [[_ [= ->]]|[[? _]|[? _]]]); [|done|done]. destruct vp. cbn in *. by subst.
    - split; [by intros ?%elem_of_nil|]. by intros (_ & _ & [[_ ?]|[[? _]|[? _]]]). }
  assert (vp ∈ (λ u, mk_vp (wx A a) (backlink la lb) (vp_nexthop u)) <$> a_par A a ↔
    vp_parent vp = wx A a ∧ vp_backlink vp = backlink la lb ∧ ∃ u, u ∈ a_par A a ∧ vp_nexthop u = vp_nexthop vp) as Hinh.
  { rewrite list_elem_of_fmap. split.
    - intros (u & -> & Hu). eauto.
    - intros (H1 & H2 & u & Hu & Hh). exists u. split; [|done]. destruct vp. cbn in *. by subst. }
  destruct (decide (h_type (l_data la) = OSPF_NETWORK_LSA)) as [Hn|Hn].
  2:{ unfold attached_parents. rewrite decide_False by done. rewrite Hinh, (network_type a la Hla). tauto. }
  assert (h_type (l_data lb) = OSPF_ROUTER_LSA) as Hlbt.
  { destruct Hedge as [[Hx _]|(_ & ? & _)]; [by rewrite Hn in Hx|done]. }
  destruct (back_address_exists la lb Hokb Hlead Hlbt Hn) as (p0 & d0 & Hp0 & Hd0).
  destruct (attached_parents A a la lb) as [|u us] eqn:Eu.
  - assert (¬ ∃ h, attached E h0 vlinks self a h) as Hno.
    { intros [h Hh]. assert (mk_vp (wx A a) (backlink la lb) (mk_nh (nh_oi h) d0) ∈ attached_parents A a la lb) as Hx.
      { apply attached_parents_elem; [done|done|done|]. split_and!; [done|done|]. eauto 10. }
      rewrite Eu in Hx. by apply elem_of_nil in Hx. }
    rewrite Hinh. tauto.
  - rewrite <- Eu, (attached_parents_elem a la lb vp Hla Hn Hf).
    assert (∃ h, attached E h0 vlinks self a h) as Hat.
    { assert (u ∈ attached_parents A a la lb) as Hu by (rewrite Eu; left).
      apply attached_parents_elem in Hu as (_ & _ & h & _ & _ & Hh & _); eauto. }
    assert ((∃ h p d, attached E h0 vlinks self a h ∧ p ∈ back_links la lb ∧ lk_link_data (l_body lb) p = Some d ∧
        vp_nexthop vp = mk_nh (nh_oi h) d) ↔
      ∃ h d, attached E h0 vlinks self a h ∧ back_address h0 a (e_to e) d ∧ vp_nexthop vp = mk_nh (nh_oi h) d) as ->.
    { setoid_rewrite (back_address_elem a (e_to e) la lb _ Hla Hlb). naive_solver. }
    rewrite (network_type a la Hla). tauto.
Qed.

(** A measure that grows along the edges of shortest paths. *)
Definition rank (b : nat) : Z := 2 * a_dst A b + (2 - type_of b).

Lemma rank_pos b : is_Some (a_W A !! b) → 0 ≤ rank b.
Proof.
  intros Hb. destruct (found_at b Hb) as (l & _ & Hok & Ht). pose proof (tree_dst b (Hall b Hb)). unfold rank. rewrite Ht.
  destruct Hok as [[-> _]|[-> _]]; unfold OSPF_ROUTER_LSA, OSPF_NETWORK_LSA; lia.
Qed.

Lemma tight_rank a e : a ∈ a_T A → tight E h0 vlinks self a e → rank a < rank (e_to e).
Proof.
  intros Ha (He & Hb & _ & Hd)%(tight_edge _ _ Ha). destruct (found_at _ (tree_found a Ha)) as (la & _ & Hoka & Hta).
  destruct (found_at _ Hb) as (lb & _ & Hokb & Htb).
  assert (1 ≤ type_of a ≤ 2 ∧ 1 ≤ type_of (e_to e) ≤ 2) as [? ?].
  { rewrite Hta, Htb. destruct Hoka as [[-> _]|[-> _]], Hokb as [[-> _]|[-> _]];
      unfold OSPF_ROUTER_LSA, OSPF_NETWORK_LSA; lia. }
  unfold rank. destruct (edge_forward a e Ha He) as [_ [|(Hc & -> & ->)]]; [lia|].
  unfold OSPF_ROUTER_LSA, OSPF_NETWORK_LSA. lia.
Qed.

Lemma par_next_hop (n : nat) b a vp : rank b < Z.of_nat n → is_Some (a_W A !! b) → a ∈ a_T A → vp ∈ a_par A b →
  vp_parent vp = wx A a → next_hop E h0 vlinks self b a (vp_nexthop vp).
Proof.
  revert b a vp. induction n as [|n IH]; intros b a vp Hn Hb Ha Hvp Hp.
  { pose proof (rank_pos b Hb). lia. }
  apply par_elem in Hvp as (c & e & Hc & Ht & <- & Hvp); [|done].
  pose proof (new_parents_parent c e vp Hvp) as Hp'. rewrite Hp in Hp'. apply wx_inj in Hp'; [subst c|done|done].
  destruct (new_parents_elem a e vp Ha Ht) as (la & lb & _ & _ & Hel).
  apply Hel in Hvp as (_ & _ & [[-> Hr]|[(Hs & [Hnet _] & h & d & Hat & Hadr & ->)|(Hs & Hno & u & Hu & <-)]]).
  - by apply hop_root.
  - by apply (hop_network E h0 vlinks self a e h d).
  - destruct (i_hops A HA a u (tree_found a Ha) Hu) as (q & Hq & Huq).
    apply (hop_inherited E h0 vlinks self a q e); [done|done|done|].
    apply IH; [|by apply tree_found|done|done|done]. pose proof (tight_rank a e Ha Ht). lia.
Qed.

Lemma next_hop_par b a h : next_hop E h0 vlinks self b a h →
  is_Some (a_W A !! b) ∧ a ∈ a_T A ∧ ∃ vp, vp ∈ a_par A b ∧ vp_parent vp = wx A a ∧ vp_nexthop vp = h.
Proof.
  assert (∀ a e h, tight E h0 vlinks self a e →
    (∀ la lb, h0 !! a = Some la → h0 !! e_to e = Some lb →
      mk_vp (wx A a) (backlink la lb) h ∈ new_parents A a e) →
    is_Some (a_W A !! e_to e) ∧ a ∈ a_T A ∧
      ∃ vp, vp ∈ a_par A (e_to e) ∧ vp_parent vp = wx A a ∧ vp_nexthop vp = h) as Hgen.
  { intros a' e' h' Ht Hin. pose proof (tight_source a' e' Ht) as Ha.
    pose proof Ht as (He & Hb & _)%(tight_edge _ _ Ha). split_and!; [done|done|].
    destruct (edge_at a' e' Ha He) as (la & lb & Hla & Hlb & _).
    exists (mk_vp (wx A a') (backlink la lb) h'). split_and!; [|done|done].
    apply par_elem; [done|]. exists a', e'. split_and!; [done|done|done|by apply Hin]. }
  induction 1 as [e h Ht Hr|a e h d Hs Ht Hn Hat Hadr|a p e h Hs Ht Hno _ (_ & _ & u & Hu & _ & Huh)].
  - apply Hgen; [done|]. intros la lb Hla Hlb.
    destruct (new_parents_elem self e (mk_vp (wx A self) (backlink la lb) h)) as (la' & lb' & ? & ? & Hel);
      [apply self_tree|done|]. simplify_eq. apply Hel. split_and!; [done|done|by left].
  - apply Hgen; [done|]. intros la lb Hla Hlb. pose proof (tight_source a e Ht) as Ha.
    destruct (new_parents_elem a e (mk_vp (wx A a) (backlink la lb) (mk_nh (nh_oi h) d)) Ha Ht)
      as (la' & lb' & ? & ? & Hel). simplify_eq. apply Hel. split_and!; [done|done|].
    right. left. split_and!; [done|done|by eauto|]. eauto.
  - apply Hgen; [done|]. intros la lb Hla Hlb. pose proof (tight_source a e Ht) as Ha.
    destruct (new_parents_elem a e (mk_vp (wx A a) (backlink la lb) h) Ha Ht)
      as (la' & lb' & ? & ? & Hel). simplify_eq. apply Hel. split_and!; [done|done|].
    right. right. split_and!; [done|done|]. eauto.
Qed.

(** The parents with their next hops are those of all shortest paths. *)
Lemma found_hops b a h : is_Some (a_W A !! b) →
  (a ∈ a_T A ∧ ∃ vp, vp ∈ a_par A b ∧ vp_parent vp = wx A a ∧ vp_nexthop vp = h) ↔
  next_hop E h0 vlinks self b a h.
Proof.
  intros Hb. split.
  - intros (Ha & vp & Hvp & Hp & <-). apply (par_next_hop (Z.to_nat (rank b + 1))); try done.
    pose proof (rank_pos b Hb). lia.
  - intros (_ & Ha & Hvp)%next_hop_par. done.
Qed.

End Finished.

(** ** A property of all parents *)

Lemma found_dst_pos b : is_Some (a_W A !! b) → 0 ≤ a_dst A b.
Proof.
  intros Hb. destruct (i_bound A HA) as [B1 B2]. destruct (decide (b ∈ a_T A)) as [Ht|Ht].
  - by apply B1.
  - by apply B2.
Qed.

Lemma found_type b : is_Some (a_W A !! b) → 1 ≤ type_of b ≤ 2.
Proof.
  intros Hb. destruct (found_at b Hb) as (l & _ & Hok & ->).
  destruct Hok as [[-> _]|[-> _]]; unfold OSPF_ROUTER_LSA, OSPF_NETWORK_LSA; lia.
Qed.

Lemma par_all (P : nat → vertex_parent → Prop) :
  (∀ a e la lb vp, a ∈ a_T A → e ∈ edges a → h0 !! a = Some la → h0 !! e_to e = Some lb →
    (∀ u, u ∈ a_par A a → P a u) → vp ∈ new_parents A a e → P (e_to e) vp) →
  ∀ b vp, is_Some (a_W A !! b) → vp ∈ a_par A b → P b vp.
Proof.
  intros Hstep b vp. enough (∀ (n : nat) b vp, 2 * a_dst A b + (2 - type_of b) < Z.of_nat n →
    is_Some (a_W A !! b) → vp ∈ a_par A b → P b vp) as Hn.
  { intros Hb. pose proof (found_dst_pos b Hb). pose proof (found_type b Hb).
    apply (Hn (Z.to_nat (2 * a_dst A b + 2))); [lia|done]. }
  clear b vp. induction n as [|n IH]; intros b vp Hn Hb Hvp.
  { pose proof (found_dst_pos b Hb). pose proof (found_type b Hb). lia. }
  destruct (decide (b = self)) as [->|Hs].
  { destruct (i_self A HA) as (_ & _ & _ & S4). rewrite S4 in Hvp. by apply elem_of_nil in Hvp. }
  destruct (i_par A HA b Hb Hs) as (_ & _ & Hp). rewrite Hp in Hvp.
  apply list_elem_of_bind in Hvp as ([a e] & Hvp & Hin). unfold contribution in Hvp. cbn in Hvp.
  case_decide as Hd; [|by apply elem_of_nil in Hvp]. destruct Hd as [<- Hd].
  destruct (i_done A HA a e Hin) as [Ha He]. destruct (edge_at a e Ha He) as (la & lb & Hla & Hlb & _).
  apply (Hstep a e la lb vp); try done. intros u Hu. apply IH; [|by apply tree_found|done].
  pose proof (found_type a (tree_found a Ha)). pose proof (found_type _ Hb).
  destruct (edge_forward a e Ha He) as [_ [?|(? & Ht & Ht')]]; [lia|].
  rewrite Ht. rewrite Ht' in Hn. unfold OSPF_ROUTER_LSA, OSPF_NETWORK_LSA in *. lia.
Qed.

(** A parent comes before its children. *)
Lemma parent_rank a b vp : a ∈ a_T A → is_Some (a_W A !! b) → vp ∈ a_par A b → vp_parent vp = wx A a → rank a < rank b.
Proof.
  intros Ha Hb Hvp Hp. destruct (decide (b = self)) as [->|Hs].
  { destruct (i_self A HA) as (_ & _ & _ & S4). rewrite S4 in Hvp. by apply elem_of_nil in Hvp. }
  destruct (i_par A HA b Hb Hs) as (_ & _ & Hpar). rewrite Hpar in Hvp.
  apply list_elem_of_bind in Hvp as ([a' e] & Hvp & Hin). unfold contribution in Hvp. cbn in Hvp.
  case_decide as Hd; [|by apply elem_of_nil in Hvp]. destruct Hd as [<- Hd].
  destruct (i_done A HA a' e Hin) as [Ha' He].
  assert (a' = a) as ->.
  { apply wx_inj; [done|done|]. rewrite <- Hp. symmetry. by apply (new_parents_parent a' e). }
  unfold rank. destruct (edge_forward a e Ha He) as [_ [?|(? & Ht & Ht')]].
  - pose proof (found_type a (tree_found a Ha)). pose proof (found_type _ Hb). lia.
  - rewrite Ht, Ht'. unfold OSPF_ROUTER_LSA, OSPF_NETWORK_LSA in *. lia.
Qed.

(** What is known of a single parent over an edge. *)
Lemma new_parents_cases a e la lb vp :
  h0 !! a = Some la → h0 !! e_to e = Some lb → vp ∈ new_parents A a e →
  vp_parent vp = wx A a ∧ vp_backlink vp = backlink la lb ∧
  (a = self ∧ root_hop e = Some (vp_nexthop vp) ∨
   ∃ u, u ∈ a_par A a ∧ nh_oi (vp_nexthop u) = nh_oi (vp_nexthop vp)).
Proof.
  intros Hla Hlb Hvp. pose proof (new_parents_parent a e vp Hvp) as Hp. split; [done|]. clear Hp.
  unfold new_parents in Hvp. rewrite Hla, Hlb in Hvp. case_decide as Hs.
  - destruct (root_hop e) as [h|]; [|by apply elem_of_nil in Hvp].
    apply list_elem_of_singleton in Hvp as ->. auto.
  - assert (vp ∈ attached_parents A a la lb → vp_backlink vp = backlink la lb ∧
      ∃ u, u ∈ a_par A a ∧ nh_oi (vp_nexthop u) = nh_oi (vp_nexthop vp)) as Hatt.
    { unfold attached_parents. case_decide; [|by intros ?%elem_of_nil].
      intros (u & (p & _ & Hp)%list_elem_of_omap & [_ Hu]%list_elem_of_filter)%list_elem_of_bind.
      destruct (lk_link_data _ p); [|done]. injection Hp as <-. eauto. }
    destruct (attached_parents A a la lb) as [|u us].
    + apply list_elem_of_fmap in Hvp as (u & -> & Hu). eauto.
    + destruct (Hatt Hvp) as [? ?]. auto.
Qed.

End Invariant.

End Algorithm.
