(* ===== verification/OspfSpfRun.v ===== *)
(** * OSPF: the calculation follows the algorithm

    [rep] relates the memory of the calculation to the state of the algorithm in OspfSpfInv.v; examining a link and
    taking a candidate out of the queue are steps of the algorithm, and do not fault. *)

From stdpp Require Import gmap sorting.
From S2P Require Import Prelude Fault OspfTable OspfLsa OspfLsaProps OspfVertex OspfRoute OspfSpf OspfSpfGraph.
From S2P Require Import OspfSpfRead OspfSpfHops OspfQueue OspfSpfInv.

(** ** The next hop from the root depends on types and identifiers only *)

Section RootExt.
Context {RT : Type → Type} {PL : PrefixLib} (E : spf_env RT).

Lemma get_next_link_ext (l : ospf_lsa) n v v' p :
  v_type v = v_type v' → v_id v = v_id v' →
  ospf_get_next_link (l <| l_stat := n |>) v p = ospf_get_next_link l v' p.
Proof. intros Ht Hi. unfold ospf_get_next_link. rewrite Ht, Hi. done. Qed.

Lemma back_link_ptmp_ext fuel (wl : ospf_lsa) n v v' oi l2 :
  v_type v = v_type v' → v_id v = v_id v' →
  back_link_ptmp fuel (wl <| l_stat := n |>) v oi l2 = back_link_ptmp fuel wl v' oi l2.
Proof.
  intros Ht Hi. revert l2. induction fuel as [|fuel IH]; intros l2; cbn [back_link_ptmp]; [done|].
  rewrite (get_next_link_ext wl n v v') by done. destruct (ospf_get_next_link wl v' l2) as [[p|]|]; [|done|done].
  cbn. destruct (lk_link_data _ _); [|done]. cbn. by rewrite IH.
Qed.

Lemma back_link_ptp_ext fuel (wl : ospf_lsa) n v v' d oi l2 :
  v_type v = v_type v' → v_id v = v_id v' →
  back_link_ptp E fuel (wl <| l_stat := n |>) v d oi l2 = back_link_ptp E fuel wl v' d oi l2.
Proof.
  intros Ht Hi. revert oi l2. induction fuel as [|fuel IH]; intros oi l2; cbn [back_link_ptp]; [done|].
  rewrite (get_next_link_ext wl n v v') by done. destruct (ospf_get_next_link wl v' l2) as [[p|]|]; [|done|done].
  cbn. destruct (lk_link_data _ _); [|done]. cbn. destruct (ospf_if_is_configured _ _) as [i|]; [|apply IH].
  destruct (e_oiflist E !! i); [|done]. cbn. by rewrite IH.
Qed.

(** The virtual links matter for links of that type only. *)
Lemma root_nexthop_ext vls vls' v v' (vl : ospf_lsa) n1 w w' (wl : ospf_lsa) n2 p :
  v_type v = v_type v' → v_id v = v_id v' → v_type w = v_type w' →
  vls = vls' ∨ lk_type (l_body vl) p ≠ Some LSA_LINK_TYPE_VIRTUALLINK →
  root_nexthop E vls v (vl <| l_stat := n1 |>) w (wl <| l_stat := n2 |>) (Some p) =
  root_nexthop E vls' v' vl w' wl (Some p).
Proof.
  intros Ht Hi Hw Hvl. unfold root_nexthop. cbn [mbind option_bind]. rewrite Hw.
  change (l_body (vl <| l_stat := n1 |>)) with (l_body vl).
  change (l_body (wl <| l_stat := n2 |>)) with (l_body wl).
  destruct (v_type w' =? OSPF_VERTEX_ROUTER); [|done].
  destruct (lk_type (l_body vl) p) as [t|]; [|done]. cbn [mbind option_bind].
  destruct (Z.eqb_spec t LSA_LINK_TYPE_POINTOPOINT) as [->|].
  - destruct (lk_link_data (l_body vl) p) as [d|]; [|done]. cbn [mbind option_bind].
    rewrite (back_link_ptp_ext _ wl n2 v v') by done.
    destruct (ospf_if_is_configured _ _) as [i|]; [|done]. destruct (e_oiflist E !! i) as [o|]; [|done].
    cbn [mbind option_bind]. by rewrite (back_link_ptmp_ext _ wl n2 v v').
  - destruct (Z.eqb_spec t LSA_LINK_TYPE_VIRTUALLINK) as [->|]; [|done]. by destruct Hvl as [->|].
Qed.

End RootExt.

Section Run.
Context {RT : Type → Type} `{RouteTableLaws RT} {PL : PrefixLib} `{PQueueLaws}.
Context (E : spf_env RT) (h0 : lheap) (vlinks : list ospf_vl_data) (self : nat).
Context (Hwf : area_wf E h0 vlinks self).

(** The area is the backbone, or the router has no virtual links in it. *)
Context (backbone : bool).
Context (Hvirtual : backbone = true ∨ ∀ l p, h0 !! self = Some l → p ∈ link_offsets l →
  lk_type (l_body l) p ≠ Some LSA_LINK_TYPE_VIRTUALLINK).

Implicit Types s : spf RT.

Local Abbreviation ainv := (ainv E h0 vlinks self).
Local Abbreviation edges := (edges E h0 self).
Local Abbreviation explorable := (explorable E).

(** ** Representation *)

Definition vertex_rep (A : astate) (b : nat) (v : vertex) : Prop :=
  v_lsa v = b ∧ (∃ l, h0 !! b = Some l ∧ v_type v = h_type (l_data l) ∧ v_id v = h_id (l_data l)) ∧
  v_distance v = a_dst A b ∧ v_parents v = a_par A b.

(** The vertices, and the queue with the places in it. *)
Record rep0 s (A : astate) : Prop := {
  r_lsas : same_lsas h0 (sp_lsas s);
  r_root : a_W A !! self = Some (sp_spf s);
  r_vertex b x : a_W A !! b = Some x → ∃ v, sp_vertices s !! x = Some v ∧ vertex_rep A b v;
  r_vlinks : backbone = true → sp_vlinks s = vlinks
}.

Definition stat_ok s (A : astate) (b : nat) (n : Z) : Prop :=
  match a_W A !! b with
  | None => n = LSA_SPF_NOT_EXPLORED
  | Some x =>
      if decide (b ∈ a_T A) then n = LSA_SPF_IN_SPFTREE
      else ∃ i : nat, n = Z.of_nat i ∧ sp_candidate s !! i = Some x
  end.

Record repq s (A : astate) : Prop := {
  r_stat b l : explorable b → sp_lsas s !! b = Some l → stat_ok s A b (l_stat l);
  r_nodup : NoDup (sp_candidate s);
  r_cand x : x ∈ sp_candidate s ↔ ∃ b, a_W A !! b = Some x ∧ b ∉ a_T A;
  r_queue : pq_inv (cmp_in (sp_vertices s)) (sp_candidate s)
}.

Definition rep s (A : astate) : Prop := rep0 s A ∧ repq s A.

(** ** Distances and the comparison *)

Lemma tree_le A : ainv A → (length (a_T A) ≤ size h0)%nat.
Proof.
  intros HA. destruct (i_tree _ _ _ _ A HA) as (T1 & T2 & _).
  rewrite <- size_dom, <- (size_list_to_set (C := gset nat) _ T1).
  apply subseteq_size. intros b Hb%elem_of_list_to_set. apply elem_of_dom.
  destruct (found_at E h0 vlinks self Hwf A HA b (T2 b Hb)) as (l & Hl & _). eauto.
Qed.

Lemma tree_size A : ainv A → Z.of_nat (length (a_T A)) ≤ 32767.
Proof. intros HA%tree_le. pose proof (wf_size _ _ _ _ Hwf). lia. Qed.

Lemma found_dst A b : ainv A → is_Some (a_W A !! b) → 0 ≤ a_dst A b < 2 ^ 31.
Proof.
  intros HA Hb. pose proof (tree_size A HA). destruct (i_bound _ _ _ _ A HA) as [B1 B2].
  destruct (decide (b ∈ a_T A)) as [Ht|Ht]; [pose proof (B1 b Ht)|pose proof (B2 b Hb Ht)]; lia.
Qed.

Lemma s32_small z : - 2 ^ 31 ≤ z < 2 ^ 31 → s32 z = z.
Proof. intros Hz. unfold s32. rewrite Z.mod_small; lia. Qed.

Lemma cmp_spec v1 v2 :
  0 ≤ v_distance v1 < 2 ^ 31 → 0 ≤ v_distance v2 < 2 ^ 31 →
  (v_type v1 = OSPF_ROUTER_LSA ∨ v_type v1 = OSPF_NETWORK_LSA) →
  (v_type v2 = OSPF_ROUTER_LSA ∨ v_type v2 = OSPF_NETWORK_LSA) →
  cmp v1 v2 ≤ 0 ↔
  v_distance v1 < v_distance v2 ∨ v_distance v1 = v_distance v2 ∧ v_type v2 ≤ v_type v1.
Proof.
  intros D1 D2 T1 T2. unfold cmp. rewrite s32_small by lia.
  assert ((u32 (v_distance v1 - v_distance v2) =? 0) = (v_distance v1 =? v_distance v2)) as ->.
  { unfold u32. destruct (Z.eqb_spec (v_distance v1) (v_distance v2)) as [->|Hne].
    - by rewrite Z.sub_diag.
    - apply Z.eqb_neq. intros Hz. apply Z.mod_divide in Hz as [k Hk]; [|done].
      assert (k = 0) by lia. subst k. lia. }
  destruct T1 as [->| ->], T2 as [->| ->]; cbn; destruct (Z.eqb_spec (v_distance v1) (v_distance v2)); cbn;
    unfold OSPF_ROUTER_LSA, OSPF_NETWORK_LSA; lia.
Qed.

Lemma cmp_kle s A a b x y :
  ainv A → rep0 s A → a_W A !! a = Some x → a_W A !! b = Some y →
  cmp_in (sp_vertices s) x y ≤ 0 ↔ kle h0 A a b.
Proof.
  intros HA Hr Ha Hb. destruct (r_vertex s A Hr a x Ha) as (va & Hva & _ & (la & Hla & Hta & _) & Hda & _).
  destruct (r_vertex s A Hr b y Hb) as (vb & Hvb & _ & (lb & Hlb & Htb & _) & Hdb & _).
  unfold cmp_in. rewrite Hva, Hvb. pose proof (found_dst A a HA ltac:(eauto)) as Da.
  pose proof (found_dst A b HA ltac:(eauto)) as Db.
  destruct (found_at E h0 vlinks self Hwf A HA a ltac:(eauto)) as (la' & Hla' & Hoka & Hty).
  destruct (found_at E h0 vlinks self Hwf A HA b ltac:(eauto)) as (lb' & Hlb' & Hokb & Hty'). simplify_eq.
  rewrite cmp_spec.
  - unfold kle. rewrite Hty, Hty', Hda, Hdb, Hta, Htb. done.
  - by rewrite Hda.
  - by rewrite Hdb.
  - rewrite Hta. by destruct Hoka as [[? _]|[? _]]; [left|right].
  - rewrite Htb. by destruct Hokb as [[? _]|[? _]]; [left|right].
Qed.

Lemma queue_order s A q :
  ainv A → rep0 s A → (∀ x, x ∈ q → ∃ b, a_W A !! b = Some x) → pq_order (cmp_in (sp_vertices s)) q.
Proof.
  intros HA Hr Hq. split.
  - intros x y [a Ha]%Hq [b Hb]%Hq. rewrite (cmp_kle s A a b), (cmp_kle s A b a) by done. unfold kle. lia.
  - intros x y z [a Ha]%Hq [b Hb]%Hq [c Hc]%Hq.
    rewrite (cmp_kle s A a b), (cmp_kle s A b c), (cmp_kle s A a c) by done. unfold kle. lia.
Qed.

(** ** Next hops *)

Lemma root_hop_run s e ls lb p wv :
  (backbone = true → sp_vlinks s = vlinks) → h0 !! self = Some ls → h0 !! e_to e = Some lb →
  p ∈ link_offsets ls → e_link e = Some p → v_type wv = h_type (l_data lb) →
  ∀ vv n1 n2, v_type vv = h_type (l_data ls) → v_id vv = h_id (l_data ls) →
  root_nexthop E (sp_vlinks s) vv (ls <| l_stat := n1 |>) wv (lb <| l_stat := n2 |>) (Some p) =
  root_nexthop E vlinks (new_vertex self ls) ls (new_vertex (e_to e) lb) lb (e_link e).
Proof.
  intros Hv Hls Hlb Hp He Hw vv n1 n2 Hvt Hvi. rewrite He. apply root_nexthop_ext; [done|done|done|].
  destruct Hvirtual as [Hb|Hn]; [left; by apply Hv|right]. by apply Hn.
Qed.

Lemma at_w_rep s A a wv lb w vv :
  rep0 s A → sp_vertices s !! wx A a = Some vv → sp_vertices s !! w = Some wv →
  h0 !! v_lsa wv = Some lb → at_w h0 (wx A a) w vv lb s wv.
Proof. intros Hr Hv Hw Hl. split_and!; [by apply r_lsas in Hr|done|done|done]. Qed.

Lemma back_type_network (v : vertex) : v_type v = OSPF_NETWORK_LSA → back_type v = LSA_LINK_TYPE_TRANSIT.
Proof. unfold back_type. by intros ->. Qed.

(** The calculation of the next hops adds the parents that the algorithm computes. *)
Lemma nexthop_run s A e w wv d :
  let a := a_last A in
  let ps := new_parents E h0 vlinks self A a e in
  ainv A → rep0 s A → e ∈ edges a →
  sp_vertices s !! w = Some wv → v_lsa wv = e_to e → wx A a ≠ w →
  (∃ lb, h0 !! e_to e = Some lb ∧ v_type wv = h_type (l_data lb)) → can_put d wv →
  ospf_nexthop_calculation E (wx A a) w (e_link e) d s =
    Some (bool_decide (ps ≠ []), match ps with [] => s | _ => with_vertex s w (put_parents d ps wv) end).
Proof.
  intros a ps HA Hr He Hw Hwl Hne (lb' & Hlb' & Hwt) Hput.
  destruct (i_tree _ _ _ _ A HA) as (_ & T2 & T3).
  destruct (edge_at E h0 vlinks self Hwf A HA a e T3 He)
    as (la & lb & Hla & Hlb & Hoka & Hokb & _ & Hlead & _ & Hedge).
  assert (lb' = lb) as -> by congruence.
  destruct (T2 a T3) as [x Hx]. pose proof (wx_found A a x Hx) as Hwx.
  destruct (r_vertex s A Hr a x Hx) as (vv & Hvv & Hvl & (la' & Hla' & Hvt & Hvi) & Hvd & Hvp).
  assert (la' = la) as -> by congruence.
  destruct (same_at h0 _ _ _ (r_lsas s A Hr) Hla) as [n1 Hn1].
  destruct (same_at h0 _ _ _ (r_lsas s A Hr) Hlb) as [n2 Hn2].
  destruct (has_link_spec lb la Hokb Hoka) as (b & Hb & Hbl & _).
  assert (backlink la lb = b) as Hback by (unfold backlink; by rewrite Hb).
  unfold ospf_nexthop_calculation. rewrite Hwx.
  erewrite fbind_run by reflexivity. erewrite fbind_run by exact (vtx_run s _ vv Hvv).
  rewrite Hvl. erewrite fbind_run by exact (lsa_at_run s a _ Hn1).
  erewrite fbind_run by exact (vtx_run s w wv Hw). rewrite Hwl.
  erewrite fbind_run by exact (lsa_at_run s (e_to e) _ Hn2).
  assert (at_w h0 x w vv lb s wv) as Haw by (rewrite <- Hwx; apply at_w_rep; rewrite ?Hwx, ?Hwl; done).
  assert (h0 !! v_lsa vv = Some la) as Hla2 by (by rewrite Hvl).
  pose proof (r_root s A Hr) as Hroot.
  assert (x = sp_spf s ↔ a = self) as Hxs.
  { split; [intros ->; by apply (i_inj _ _ _ _ A HA a self (sp_spf s))|]. intros Hs. rewrite Hs in Hx. congruence. }
  unfold ps, new_parents. rewrite Hla, Hlb, Hwx. destruct (decide (a = self)) as [Hs|Hs].
  - rewrite bool_decide_eq_true_2 by (by apply Hxs).
    erewrite fbind_run by reflexivity.
    destruct Hedge as [(_ & i & n & Hn & Hi & Hlink & _)|(Ht & _)].
    2:{ destruct (self_at E h0 vlinks self Hwf) as (l & ? & Hl & Ht' & _). rewrite <- Hs in Hl.
        assert (l = la) as -> by congruence. by rewrite Ht in Ht'. }
    assert (4 + 12 * Z.of_nat i ∈ link_offsets la) as Hoff by (apply (link_offset_elem la n Hn); eauto).
    pose proof Hla as Hla3. rewrite Hs in Hla3.
    pose proof (root_hop_run s e la lb _ wv (r_vlinks s A Hr) Hla3 Hlb Hoff Hlink Hwt vv n1 n2 Hvt Hvi) as Hrun.
    destruct (root_nexthop_ok E vlinks (new_vertex self la) la n (new_vertex (e_to e) lb) lb i Hn Hi Hokb eq_refl
      (wf_vlinks _ _ _ _ Hwf)) as (r & Hr' & _).
    rewrite Hlink in Hrun. rewrite Hr' in Hrun.
    rewrite Hlink. erewrite fbind_run by exact (of_option_run _ s r Hrun).
    assert (root_hop E h0 vlinks self e = r) as ->.
    { unfold root_hop. rewrite Hla3, Hlb. cbn [mbind option_bind]. rewrite Hlink, Hr'. done. }
    destruct r as [nh|]; [|done].
    erewrite fbind_run by exact (add_parent_run h0 x w vv la lb b ltac:(congruence) Hla2 Hb s wv nh d Haw Hput).
    rewrite Hback. done.
  - rewrite bool_decide_eq_false_2 by (by rewrite Hxs). rewrite Hvp.
    assert (sp_spf s = wx A self) as Hws by (by rewrite (wx_found A self _ Hroot)).
    assert ((if v_type vv =? OSPF_VERTEX_NETWORK
      then add_attached (a_par A a) (sp_spf s) x w vv wv (lb <| l_stat := n2 |>) (e_link e) d false
      else mret false) s =
      Some (bool_decide (attached_parents self A a la lb ≠ []),
        match attached_parents self A a la lb with
        | [] => s
        | _ => with_vertex s w (put_parents d (attached_parents self A a la lb) wv)
        end)) as Hatt.
    { unfold attached_parents. rewrite Hvt. destruct Hedge as [(Ht & _)|(Ht & Htb & Hlink & _)]; rewrite Ht.
      - done.
      - rewrite decide_True by done. change (OSPF_NETWORK_LSA =? OSPF_VERTEX_NETWORK) with true. cbv iota.
        destruct Hokb as [[_ [n Hn]]|[Hx' _]]; [|by rewrite Htb in Hx'].
        pose proof (add_attached_run h0 x w vv la lb b ltac:(congruence) Hla2 Hb n Hn (a_par A a) (sp_spf s) s wv wv
          (lb <| l_stat := n2 |>) (e_link e) d false Haw Hput ltac:(eauto) Hlink ltac:(by rewrite Hwt, Htb)) as Hrun.
        cbv zeta in Hrun. rewrite Hrun. rewrite (links_from_all lb n Hn).
        rewrite (back_type_network vv) by congruence. rewrite Hvi, Hws, Hwx, Hback. done. }
    erewrite fbind_run by exact Hatt.
    destruct (attached_parents self A a la lb) as [|u us] eqn:Eu.
    + rewrite (bool_decide_eq_false_2 ([] ≠ [])) by (by intros Hx').
      rewrite (add_inherited_run h0 x w vv la lb b ltac:(congruence) Hla2 Hb (a_par A a) s wv d false Haw Hput).
      rewrite Hback. destruct (a_par A a); done.
    + rewrite bool_decide_eq_true_2 by done. done.
Qed.

(** ** The queue *)

(** What the steps of the search leave alone. *)
Definition frame s s' : Prop :=
  sp_spf s' = sp_spf s ∧ sp_area s' = sp_area s ∧ sp_vlinks s' = sp_vlinks s ∧ sp_table s' = sp_table s ∧
  sp_rtrs s' = sp_rtrs s ∧ sp_calls s' = sp_calls s.

(** Children and flags stay; a new vertex has none. *)
Definition grow (vs vs' : list vertex) : Prop :=
  (length vs ≤ length vs')%nat ∧
  ∀ y v', vs' !! y = Some v' →
    match vs !! y with
    | Some v => v_children v' = v_children v ∧ v_flags v' = v_flags v
    | None => v_children v' = [] ∧ v_flags v' = 0
    end.

Lemma grow_refl vs : grow vs vs.
Proof. split; [done|]. intros y v' Hy. by rewrite Hy. Qed.

Lemma grow_trans vs vs' vs'' : grow vs vs' → grow vs' vs'' → grow vs vs''.
Proof.
  intros [L1 G1] [L2 G2]. split; [lia|]. intros y v'' Hy. specialize (G2 y v'' Hy).
  destruct (vs' !! y) as [v'|] eqn:Hy'.
  - destruct G2 as [-> ->]. by apply G1.
  - destruct (vs !! y) as [v|] eqn:Hv; [|done]. exfalso.
    apply lookup_lt_Some in Hv. apply lookup_ge_None in Hy'. lia.
Qed.

Lemma grow_app vs v : v_children v = [] → v_flags v = 0 → grow vs (vs ++ [v]).
Proof.
  intros Hc Hf. split; [rewrite length_app; lia|]. intros y v' [Hy|[Hl Hy]]%lookup_app_Some.
  - by rewrite Hy.
  - apply list_lookup_singleton_Some in Hy as [_ <-]. rewrite lookup_ge_None_2 by done. done.
Qed.

Lemma grow_put vs w wv d ps : vs !! w = Some wv → grow vs (<[w := put_parents d ps wv]> vs).
Proof.
  intros Hw. split; [by rewrite length_insert|]. intros y v' [(<- & <- & _)|[_ Hy]]%list_lookup_insert_Some.
  - by rewrite Hw.
  - by rewrite Hy.
Qed.

(** The stats after the calls of [update]. *)
Lemma update_all_run us s (W : gmap nat nat) :
  same_lsas h0 (sp_lsas s) → (∀ a b x, W !! a = Some x → W !! b = Some x → a = b) →
  (∀ x n, (x, n) ∈ us → ∃ b v, W !! b = Some x ∧ sp_vertices s !! x = Some v ∧ v_lsa v = b ∧ is_Some (h0 !! b)) →
  ∃ h', update_all us s = Some (tt, s <| sp_lsas := h' |>) ∧ same_lsas h0 h' ∧
    ∀ b l l', sp_lsas s !! b = Some l → h' !! b = Some l' →
      l_stat l' = match W !! b with Some x => default (l_stat l) (told x us) | None => l_stat l end.
Proof.
  revert s. induction us as [|[x n] us IH]; intros s Hs Hinj Hus; cbn [update_all].
  { exists (sp_lsas s). split_and!; [by destruct s|done|]. intros b l l' Hl Hl'. simplify_eq.
    by destruct (W !! b). }
  destruct (Hus x n) as (b & v & Hb & Hv & Hl & [l0 Hl0]); [left|].
  destruct (same_at h0 _ _ _ Hs Hl0) as [m Hm].
  assert (update_stat x n s = Some (tt, s <| sp_lsas := <[b := set_fld l_stat n (set_fld l_stat m l0)]> (sp_lsas s) |>)) as Hrun.
  { unfold update_stat. erewrite fbind_run by exact (vtx_run s x v Hv). rewrite Hl. by apply set_stat_run. }
  erewrite fbind_run by exact Hrun.
  destruct (IH (s <| sp_lsas := <[b := set_fld l_stat n (set_fld l_stat m l0)]> (sp_lsas s) |>)) as (h' & Hrun' & Hs' & Hst).
  - by apply same_upd.
  - done.
  - intros y k Hy. apply (Hus y k). by right.
  - exists h'. split_and!; [by rewrite Hrun'|done|]. intros c l l' Hl1 Hl2. cbn [sp_lsas] in Hst.
    destruct (decide (b = c)) as [<-|Hbc].
    + rewrite (Hst b (set_fld l_stat n (set_fld l_stat m l0)) l'); [|apply lookup_insert_eq|done].
      rewrite Hb. cbn [told]. rewrite decide_True by done. by destruct (told x us).
    + rewrite (Hst c l l'); [|cbn; by rewrite lookup_insert_ne|done].
      destruct (W !! c) as [y|] eqn:Hc; [|done]. cbn [told].
      assert (x ≠ y) as Hxy by (intros <-; apply Hbc; by apply (Hinj b c x)).
      rewrite decide_False by done. by destruct (told y us).
Qed.

Lemma set_candidate_run s A q us :
  ainv A → rep0 s A →
  (∀ x n, (x, n) ∈ us → ∃ b, a_W A !! b = Some x) →
  ∃ h', set_candidate (q, us) s = Some (tt, s <| sp_candidate := q |> <| sp_lsas := h' |>) ∧
    same_lsas h0 h' ∧
    ∀ b l l', sp_lsas s !! b = Some l → h' !! b = Some l' →
      l_stat l' = match a_W A !! b with Some x => default (l_stat l) (told x us) | None => l_stat l end.
Proof.
  intros HA Hr Hus. unfold set_candidate. erewrite fbind_run by reflexivity. cbn [fst snd].
  refine (update_all_run us (s <| sp_candidate := q |>) (a_W A) _ _ _).
  - apply (r_lsas s A Hr).
  - apply (i_inj _ _ _ _ A HA).
  - intros x n [b Hb]%Hus. destruct (r_vertex s A Hr b x Hb) as (v & Hv & Hl & (l & Hl0 & _) & _).
    exists b, v. split_and!; [done|done|done|]. eauto.
Qed.

(** The places of the elements of the new array. *)
Lemma moved_stat q q' us (i : nat) x n :
  pq_moved q q' us → q' !! i = Some x → (∀ j : nat, q !! j = Some x → n = Z.of_nat j) →
  default n (told x us) = Z.of_nat i.
Proof.
  intros [_ Hm] Hi Hq. specialize (Hm i x Hi). destruct (told x us) as [k|]; [done|]. cbn. by apply Hq.
Qed.

Lemma not_told q q' us x : pq_moved q q' us → x ∉ q → x ∉ q' → told x us = None.
Proof.
  intros [Hm _] Hq Hq'. induction us as [|[y n] us IH]; [done|]. cbn.
  rewrite IH; [|intros z k Hz; apply (Hm z k); by right].
  rewrite decide_False; [done|]. intros ->. destruct (Hm x n) as [?|?]; [left|done|done].
Qed.

(** An operation of the queue after which it holds the vertices that are not in the tree. *)
Lemma queue_step s A q us :
  ainv A → rep0 s A → pq_moved (sp_candidate s) q us →
  (∀ x, x ∈ sp_candidate s → ∃ b, a_W A !! b = Some x ∧ b ∉ a_T A) →
  NoDup q → (∀ x, x ∈ q ↔ ∃ b, a_W A !! b = Some x ∧ b ∉ a_T A) →
  pq_inv (cmp_in (sp_vertices s)) q →
  (∀ b l, explorable b → sp_lsas s !! b = Some l →
    match a_W A !! b with
    | None => l_stat l = LSA_SPF_NOT_EXPLORED
    | Some x =>
        if decide (b ∈ a_T A) then l_stat l = LSA_SPF_IN_SPFTREE
        else ∀ i : nat, sp_candidate s !! i = Some x → l_stat l = Z.of_nat i
    end) →
  ∃ s', set_candidate (q, us) s = Some (tt, s') ∧ rep s' A ∧ frame s s' ∧ sp_vertices s' = sp_vertices s.
Proof.
  intros HA Hr Hm Hold Hn Hq Hinv Hst.
  destruct (set_candidate_run s A q us HA Hr) as (h' & Hrun & Hs & Hstat).
  { intros x n [Hx|Hx]%Hm; [by destruct (Hold x Hx) as (b & ? & _); eauto|].
    by destruct (proj1 (Hq x) Hx) as (b & ? & _); eauto. }
  eexists. split; [exact Hrun|]. split; [|split; [by split_and!|done]]. split.
  - destruct Hr as [R1 R2 R3 R4]. by split.
  - split; [|done|done|done]. cbn [sp_lsas]. intros b l' Hex Hl'.
    destruct (same_back h0 _ _ _ Hs Hl') as (l0 & Hl0 & _).
    destruct (same_at h0 _ _ _ (r_lsas s A Hr) Hl0) as [n Hn0].
    pose proof (Hst b _ Hex Hn0) as Hb. rewrite (Hstat b _ l' Hn0 Hl'). unfold stat_ok. cbn [sp_candidate].
    destruct (a_W A !! b) as [x|] eqn:Hx; [|done].
    destruct (decide (b ∈ a_T A)) as [Ht|Ht].
    + assert (∀ c, a_W A !! c = Some x → c ∉ a_T A → False) as Hno.
      { intros c Hc Hct. apply Hct. by rewrite (i_inj _ _ _ _ A HA c b x). }
      rewrite (not_told (sp_candidate s) q us x Hm); [done| |].
      * intros (c & Hc & Hct)%Hold. by eapply Hno.
      * intros (c & Hc & Hct)%Hq. by eapply Hno.
    + assert (x ∈ q) as [i Hi]%list_elem_of_lookup by (apply Hq; eauto).
      exists i. split; [|done]. by apply (moved_stat (sp_candidate s) q us i x).
Qed.

(** ** Examining a link *)

Lemma rep_done s A done last : rep s A → rep s (mk_as (a_W A) (a_T A) (a_dst A) (a_par A) done last).
Proof. intros [[R1 R2 R3 R4] [Q1 Q2 Q3 Q4]]. by split; split. Qed.

Lemma cmp_in_ext vs vs' x y : vs !! x = vs' !! x → vs !! y = vs' !! y → cmp_in vs x y = cmp_in vs' x y.
Proof. intros Hx Hy. unfold cmp_in. by rewrite Hx, Hy. Qed.

Lemma cand_vertex s A x : rep s A → x ∈ sp_candidate s → is_Some (sp_vertices s !! x).
Proof.
  intros [Hr Hq] (b & Hb & _)%(r_cand s A Hq). destruct (r_vertex s A Hr b x Hb) as (v & Hv & _). eauto.
Qed.

(** A vertex that has not been found yet. *)
Lemma rep_new_vertex s A v :
  rep s A → rep (s <| sp_vertices := sp_vertices s ++ [v] |>) A.
Proof.
  intros HR. pose proof HR as [[R1 R2 R3 R4] [Q1 Q2 Q3 Q4]]. split; split; try done.
  - intros b x Hb. destruct (R3 b x Hb) as (u & Hu & Hur). exists u. split; [|done]. cbn.
    by apply lookup_app_l_Some.
  - cbn. eapply pq_inv_ext; [|exact Q4]. intros x y Hx Hy.
    destruct (cand_vertex s A x HR Hx) as [vx Hvx]. destruct (cand_vertex s A y HR Hy) as [vy Hvy].
    apply cmp_in_ext; symmetry; [rewrite Hvx|rewrite Hvy]; by apply lookup_app_l_Some.
Qed.

(** The vertex [x] of [b] with new parents. *)
Lemma rep0_put s A b x wv d ps done last :
  ainv A → rep0 s A → a_W A !! b = Some x → sp_vertices s !! x = Some wv →
  rep0 (with_vertex s x (put_parents d ps wv))
    (mk_as (a_W A) (a_T A) (<[b := d]> (a_dst A))
       (<[b := (if decide (a_dst A b = d) then a_par A b else []) ++ ps]> (a_par A)) done last).
Proof.
  intros HA [R1 R2 R3 R4] Hb Hx. split; [done|done| |done]. cbn [a_W]. intros c y Hc.
  destruct (R3 c y Hc) as (v & Hv & V1 & V2 & V3 & V4). destruct (decide (y = x)) as [->|Hne].
  - assert (c = b) as -> by (by apply (i_inj _ _ _ _ A HA c b x)). assert (v = wv) as -> by congruence.
    exists (put_parents d ps wv). split; [by eapply with_vertex_lookup|]. split_and!; [done|done| |].
    + unfold put_parents. cbn. by rewrite fn_lookup_insert.
    + unfold put_parents. cbn. rewrite fn_lookup_insert, V3, V4.
      destruct (Z.eqb_spec (a_dst A b) d), (decide (a_dst A b = d)); done.
  - assert (c ≠ b) as Hcb by (intros ->; congruence). exists v.
    split; [by rewrite with_vertex_other|]. split_and!; [done|done| |]; cbn; by rewrite fn_lookup_insert_ne.
Qed.

(** The new vertex [x] of [b] with its parents. *)
Lemma rep0_new s A b x lb d ps done last :
  rep0 s A → a_W A !! b = None → (∀ c, a_W A !! c ≠ Some x) → h0 !! b = Some lb → b ≠ self →
  sp_vertices s !! x = Some (new_vertex b lb) → 0 < d →
  rep0 (with_vertex s x (put_parents d ps (new_vertex b lb)))
    (mk_as (<[b := x]> (a_W A)) (a_T A) (<[b := d]> (a_dst A)) (<[b := ps]> (a_par A)) done last).
Proof.
  intros [R1 R2 R3 R4] Hb Hfresh Hlb Hs Hx Hd. split; [done| | |done]; cbn [a_W].
  - by rewrite lookup_insert_ne.
  - intros c y. destruct (decide (c = b)) as [->|Hcb].
    + rewrite lookup_insert_eq. intros [= <-]. exists (put_parents d ps (new_vertex b lb)).
      split; [by eapply with_vertex_lookup|]. split_and!; [done|by exists lb| |].
      * unfold put_parents. cbn. by rewrite fn_lookup_insert.
      * unfold put_parents.
        assert ((v_distance (new_vertex b lb) =? d) = false) as -> by (apply Z.eqb_neq; cbn; lia).
        cbn. by rewrite fn_lookup_insert.
    + rewrite lookup_insert_ne by done. intros Hc. destruct (R3 c y Hc) as (v & Hv & V1 & V2 & V3 & V4).
      assert (y ≠ x) as Hyx by (intros ->; by apply (Hfresh c)). exists v.
      split; [by rewrite with_vertex_other|]. split_and!; [done|done| |]; cbn; by rewrite fn_lookup_insert_ne.
Qed.

Lemma frame_with s x v : frame s (with_vertex s x v).
Proof. done. Qed.

Lemma frame_trans s s' s'' : frame s s' → frame s' s'' → frame s s''.
Proof. unfold frame. intros (-> & -> & -> & -> & -> & ->). done. Qed.

Lemma stat_found s A b x l : repq s A → explorable b → sp_lsas s !! b = Some l → a_W A !! b = Some x → b ∉ a_T A →
  ∃ i : nat, l_stat l = Z.of_nat i ∧ sp_candidate s !! i = Some x.
Proof.
  intros Hq He Hl Hx Ht. pose proof (r_stat s A Hq b l He Hl) as Hst. unfold stat_ok in Hst.
  rewrite Hx, decide_False in Hst by done. done.
Qed.

(** What [queue_step] needs of the stats, for a state whose vertices [b] has joined. *)
Lemma stat_before s A A' b :
  repq s A → a_T A' = a_T A → (∀ c, c ≠ b → a_W A' !! c = a_W A !! c) → is_Some (a_W A' !! b) → b ∉ a_T A →
  (∀ x i, a_W A' !! b = Some x → sp_candidate s !! i = Some x → a_W A !! b = Some x) →
  ∀ c l, explorable c → sp_lsas s !! c = Some l →
    match a_W A' !! c with
    | None => l_stat l = LSA_SPF_NOT_EXPLORED
    | Some x =>
        if decide (c ∈ a_T A') then l_stat l = LSA_SPF_IN_SPFTREE
        else ∀ i : nat, sp_candidate s !! i = Some x → l_stat l = Z.of_nat i
    end.
Proof.
  intros Hq HT HW [y Hy] Hbt Hb c l Hex Hl. pose proof (r_stat s A Hq c l Hex Hl) as Hst. unfold stat_ok in Hst.
  assert (∀ x i j, sp_candidate s !! i = Some x → sp_candidate s !! j = Some x → i = j) as Hnd.
  { intros x i j Hi Hj. by eapply list.NoDup_lookup; [apply (r_nodup s A Hq)|..]. }
  destruct (decide (c = b)) as [->|Hcb].
  - rewrite Hy, HT, decide_False by done. intros i Hi. specialize (Hb y i Hy Hi). rewrite Hb in Hst.
    rewrite decide_False in Hst by done. destruct Hst as (j & -> & Hj). f_equal. by eapply Hnd.
  - rewrite HW by done. destruct (a_W A !! c) as [x|]; [|done]. rewrite HT. case_decide; [done|].
    destruct Hst as (j & -> & Hj). intros i Hi. f_equal. by eapply Hnd.
Qed.

Section Link.
Context (s : spf RT) (A : astate) (HA : ainv A) (HR : rep s A) (e : edge).
Let a := a_last A.
Let b := e_to e.
Let d := a_dst A a + e_cost e.
Hypothesis He : e ∈ edges a.
Hypothesis Hbt : b ∉ a_T A.

Lemma vertex_fresh c : a_W A !! c ≠ Some (length (sp_vertices s)).
Proof.
  intros Hc. destruct HR as [Hr _]. destruct (r_vertex s A Hr c _ Hc) as (v & Hv & _).
  apply lookup_lt_Some in Hv. lia.
Qed.

Lemma dst_pos : 0 < d.
Proof. apply (new_dst_pos E h0 vlinks self Hwf A HA); [apply (i_tree _ _ _ _ A HA)|done]. Qed.

Lemma target_at : explorable b ∧ b ≠ self ∧ ∃ lb, h0 !! b = Some lb.
Proof.
  destruct (edge_at E h0 vlinks self Hwf A HA a e) as (la & lb & Hla & Hlb & _ & _ & Hex & _);
    [apply (i_tree _ _ _ _ A HA)|done|]. split_and!; [done| |by eauto].
  intros Hs. apply Hbt. rewrite Hs. by apply (i_self _ _ _ _ A HA).
Qed.

Lemma last_vertex : wx A a ≠ length (sp_vertices s) ∧ ∀ x, a_W A !! b = Some x → wx A a ≠ x.
Proof.
  destruct (i_tree _ _ _ _ A HA) as (_ & T2 & T3). destruct (T2 _ T3) as [y Hy]. fold a in Hy.
  rewrite (wx_found A a y Hy). split.
  - intros ->. by apply (vertex_fresh a).
  - intros x Hx ->. apply Hbt. by rewrite <- (i_inj _ _ _ _ A HA a b x Hy Hx).
Qed.

(** A vertex found for the first time. *)
Lemma link_new :
  a_W A !! b = None →
  ∃ s', (w ← ospf_vertex_new b; ok ← ospf_nexthop_calculation E (wx A a) w (e_link e) d;
         if ok : bool then enqueue w else mret tt) s = Some (tt, s') ∧
    rep s' (relax E h0 vlinks self A a e (length (sp_vertices s))) ∧ frame s s' ∧
    grow (sp_vertices s) (sp_vertices s').
Proof.
  intros Hb. destruct target_at as (Hex & Hbs & lb & Hlb). destruct last_vertex as [Hla _].
  pose proof HR as [Hr Hq]. destruct (same_at h0 _ _ _ (r_lsas s A Hr) Hlb) as [m Hm].
  set (w := length (sp_vertices s)). set (s1 := s <| sp_vertices := sp_vertices s ++ [new_vertex b lb] |>).
  assert (ospf_vertex_new b s = Some (w, s1)) as Hnew.
  { unfold ospf_vertex_new. by erewrite fbind_run by exact (lsa_at_run s b _ Hm). }
  erewrite fbind_run by exact Hnew.
  pose proof (rep_new_vertex s A (new_vertex b lb) HR) as HR1. fold s1 in HR1. pose proof HR1 as [Hr1 Hq1].
  assert (sp_vertices s1 !! w = Some (new_vertex b lb)) as Hw by (cbn; by apply list_lookup_middle).
  assert (grow (sp_vertices s) (sp_vertices s1)) as Hg1 by (by apply grow_app).
  pose proof dst_pos as Hd.
  pose proof (nexthop_run s1 A e w (new_vertex b lb) d HA Hr1 He Hw eq_refl Hla ltac:(by exists lb)
    ltac:(split; [done|by left])) as Hhop. fold a in Hhop. cbv zeta in Hhop.
  erewrite fbind_run by exact Hhop. unfold relax. rewrite decide_False by done. fold b d.
  destruct (new_parents E h0 vlinks self A a e) as [|vp vps] eqn:Eps.
  { rewrite bool_decide_eq_false_2 by (by intros Hx). rewrite decide_True by done. exists s1.
    split_and!; [done|by apply rep_done|done|done]. }
  rewrite bool_decide_eq_true_2 by done. rewrite decide_False by done. rewrite Hb.
  set (ps := vp :: vps) in *. set (s2 := with_vertex s1 w (put_parents d ps (new_vertex b lb))).
  set (A' := mk_as _ _ _ _ _ _).
  assert (∀ c, a_W A !! c ≠ Some w) as Hfresh by apply vertex_fresh.
  assert (ainv A') as HA'.
  { pose proof (relax_inv E h0 vlinks self Hwf A HA e w He Hfresh) as Hi. unfold relax in Hi.
    rewrite decide_False in Hi by done. fold a in Hi. rewrite Eps in Hi. fold b d in Hi.
    rewrite decide_False in Hi by done. by rewrite Hb in Hi. }
  assert (rep0 s2 A') as Hr2 by (by apply rep0_new).
  assert (∀ x, x ∈ sp_candidate s → x ≠ w) as Hcw.
  { intros x (c & Hc & _)%(r_cand s A Hq) ->. by apply (Hfresh c). }
  assert (∀ x, x ∈ w :: sp_candidate s ↔ ∃ c, a_W A' !! c = Some x ∧ c ∉ a_T A') as Hcand.
  { intros x. rewrite elem_of_cons, (r_cand s A Hq). unfold A'. cbn [a_W a_T]. split.
    - intros [->|(c & Hc & Hct)]; [exists b; by rewrite lookup_insert_eq|]. exists c.
      split; [|done]. rewrite lookup_insert_ne; [done|]. intros <-. congruence.
    - intros (c & Hc & Hct). apply lookup_insert_Some in Hc as [[<- <-]|[? Hc]]; eauto. }
  assert (∀ x y, x ∈ sp_candidate s → y ∈ sp_candidate s →
    cmp_in (sp_vertices s1) x y = cmp_in (sp_vertices s2) x y) as Hcmp.
  { intros x y Hx Hy. apply cmp_in_ext; symmetry; apply with_vertex_other; by apply Hcw. }
  destruct (enqueue_law (cmp_in (sp_vertices s2)) w (sp_candidate s)) as (Hp & Hinv & Hmv).
  { apply (queue_order s2 A'); [done|done|]. intros x (c & Hc & _)%Hcand. eauto. }
  { eapply pq_inv_ext; [exact Hcmp|]. apply (r_queue s1 A Hq1). }
  { apply list.NoDup_cons. split; [intros Hx; by apply (Hcw w)|apply (r_nodup s A Hq)]. }
  unfold enqueue. erewrite fbind_run by reflexivity.
  destruct (pqueue_enqueue (cmp_in (sp_vertices s2)) w (sp_candidate s)) as [q us] eqn:Eq. cbn [fst snd] in *.
  change (sp_candidate (id s2)) with (sp_candidate s). change (sp_vertices (id s2)) with (sp_vertices s2). rewrite Eq.
  destruct (queue_step s2 A' q us) as (s' & Hrun & Hrep & Hfr & Hvs); [done|done|done| | | |done| |].
  - intros x Hx. apply Hcand. by right.
  - rewrite Hp. apply list.NoDup_cons. split; [intros Hx; by apply (Hcw w)|apply (r_nodup s A Hq)].
  - intros x. by rewrite Hp.
  - apply (stat_before s A A' b Hq); [done| | |done|].
    + intros c Hc. unfold A'. cbn. by rewrite lookup_insert_ne.
    + unfold A'. cbn. rewrite lookup_insert_eq. eauto.
    + unfold A'. cbn. rewrite lookup_insert_eq. intros x i [= <-] Hi. exfalso. apply (Hcw w); [|done].
      by eapply list_elem_of_lookup_2.
  - exists s'. split_and!; [done|done|by apply (frame_trans s s2)|]. rewrite Hvs.
    eapply grow_trans; [exact Hg1|]. by apply grow_put.
Qed.

(** A vertex that is a candidate. *)
Section Found.
Context (x : nat) (wv : vertex).
Hypothesis Hb : a_W A !! b = Some x.
Hypothesis Hwv : sp_vertices s !! x = Some wv.
Hypothesis Hle : d ≤ a_dst A b.

Let ps := new_parents E h0 vlinks self A a e.
Let A' := mk_as (a_W A) (a_T A) (<[b := d]> (a_dst A))
  (<[b := (if decide (a_dst A b = d) then a_par A b else []) ++ ps]> (a_par A)) (a_done A ++ [(a, e)]) a.
Let s1 := with_vertex s x (put_parents d ps wv).

Lemma found_hop_run :
  ospf_nexthop_calculation E (wx A a) x (e_link e) d s =
  Some (bool_decide (ps ≠ []), match ps with [] => s | _ => s1 end).
Proof.
  destruct target_at as (Hex & Hbs & lb & Hlb). destruct last_vertex as [_ Hla]. pose proof HR as [Hr Hq].
  destruct (r_vertex s A Hr b x Hb) as (v & Hv & V1 & (lb' & Hlb' & V2 & _) & V3 & _).
  assert (v = wv) as -> by congruence.
  apply (nexthop_run s A e x wv d HA Hr He Hwv V1 (Hla x Hb) ltac:(eauto)).
  split; [apply dst_pos|]. right. by rewrite V3.
Qed.

Hypothesis Hps : ps ≠ [].

Lemma relax_found : relax E h0 vlinks self A a e (length (sp_vertices s)) = A'.
Proof.
  unfold relax. rewrite decide_False by done. rewrite decide_False by done. fold b d. rewrite Hb.
  rewrite decide_False by lia. done.
Qed.

Lemma found_inv : ainv A'.
Proof. rewrite <- relax_found. apply relax_inv; [done|done|done|apply vertex_fresh]. Qed.

Lemma found_rep0 : rep0 s1 A'.
Proof. destruct HR as [Hr _]. by apply rep0_put. Qed.

Lemma found_cand y : y ∈ sp_candidate s ↔ ∃ c, a_W A' !! c = Some y ∧ c ∉ a_T A'.
Proof. destruct HR as [_ Hq]. apply (r_cand s A Hq). Qed.

(** A path of the same length: the order of the candidates is the same. *)
Lemma link_equal : a_dst A b = d → rep s1 A'.
Proof.
  intros Hd. pose proof HR as [Hr Hq]. split; [apply found_rep0|]. destruct Hq as [Q1 Q2 Q3 Q4].
  split; [done|done|done|]. eapply pq_inv_ext; [|exact Q4]. intros y z Hy Hz. cbn.
  destruct (r_vertex s A Hr b x Hb) as (v & Hv & _ & _ & V3 & _). assert (v = wv) as -> by congruence.
  assert (∀ u, cmp (put_parents d ps wv) u = cmp wv u ∧ cmp u (put_parents d ps wv) = cmp u wv) as Hc.
  { intros u. unfold cmp, put_parents. cbn. rewrite V3, Hd. done. }
  unfold cmp_in. destruct (decide (y = x)) as [->|Hyx], (decide (z = x)) as [->|Hzx];
    rewrite ?list_lookup_insert_eq by (by eapply lookup_lt_Some); rewrite ?list_lookup_insert_ne by done;
    rewrite ?Hwv; [|by destruct (sp_vertices s !! z); rewrite ?(proj1 (Hc _))
      |by destruct (sp_vertices s !! y); rewrite ?(proj2 (Hc _))|done].
  unfold cmp, put_parents. cbn. by rewrite V3, Hd.
Qed.

(** A shorter path. *)
Lemma link_shorter (i : nat) :
  d < a_dst A b → sp_candidate s !! i = Some x →
  ∃ s', decrease (Z.of_nat i) s1 = Some (tt, s') ∧ rep s' A' ∧ frame s s' ∧ sp_vertices s' = sp_vertices s1.
Proof.
  intros Hd Hi. pose proof HR as [Hr Hq]. pose proof found_rep0 as Hr1. pose proof found_inv as HA'.
  destruct (trickle_up_law (cmp_in (sp_vertices s)) (cmp_in (sp_vertices s1)) (sp_candidate s) i x)
    as (Hp & Hinv & Hmv).
  { apply (queue_order s A); [done|done|]. intros y (c & Hc & _)%found_cand. eauto. }
  { apply (queue_order s1 A'); [done|done|]. intros y (c & Hc & _)%found_cand. eauto. }
  { apply (r_queue s A Hq). }
  { apply (r_nodup s A Hq). }
  { done. }
  { intros y z _ _ Hy Hz. apply cmp_in_ext; by apply with_vertex_other. }
  { intros y (c & Hc & _)%found_cand. rewrite (cmp_kle s A b c x y), (cmp_kle s1 A' b c x y) by done.
    unfold kle, A'. cbn. rewrite fn_lookup_insert. destruct (decide (c = b)) as [->|Hcb].
    - rewrite fn_lookup_insert. lia.
    - rewrite fn_lookup_insert_ne by done. lia. }
  unfold decrease. erewrite fbind_run by reflexivity.
  change (sp_candidate (id s1)) with (sp_candidate s). change (sp_vertices (id s1)) with (sp_vertices s1).
  destruct (trickle_up (cmp_in (sp_vertices s1)) (Z.of_nat i) (sp_candidate s)) as [q us]. cbn [fst snd] in *.
  destruct (queue_step s1 A' q us) as (s' & Hrun & Hrep & Hfr & Hvs); [done|done|done| | | |done| |by eauto 10].
  - intros y Hy. by apply found_cand.
  - rewrite Hp. apply (r_nodup s A Hq).
  - intros y. rewrite Hp. apply found_cand.
  - apply (stat_before s A A' b Hq); [done|done|by eauto|done|]. intros y j Hy _. done.
Qed.

End Found.

End Link.

(** The cost of an edge, as the code reads it. *)
Lemma metric_run s (la lb : ospf_lsa) e n :
  edge_ok la lb e →
  (if h_type (l_data (la <| l_stat := n |>)) =? OSPF_ROUTER_LSA then
     l ← of_option (e_link e); of_option (lk_metric (l_body (la <| l_stat := n |>)) l)
   else mret 0) s = Some (e_cost e, s).
Proof.
  intros [(Ht & i & m & _ & _ & Hl & Hm & _)|(Ht & _ & _ & Hc)];
    change (h_type (l_data (la <| l_stat := n |>))) with (h_type (l_data la)); rewrite Ht.
  - change (OSPF_ROUTER_LSA =? OSPF_ROUTER_LSA) with true. cbv iota. rewrite Hl.
    erewrite fbind_run by reflexivity. by apply of_option_run.
  - rewrite Hc. done.
Qed.

Lemma spf_link_run s A e :
  ainv A → rep s A → e ∈ edges (a_last A) →
  ∃ s', spf_link E (wx A (a_last A)) (e_link e) (Some (e_to e)) s = Some (tt, s') ∧
    rep s' (relax E h0 vlinks self A (a_last A) e (length (sp_vertices s))) ∧ frame s s' ∧
    grow (sp_vertices s) (sp_vertices s').
Proof.
  intros HA HR He. set (a := a_last A) in *. set (b := e_to e). pose proof HR as [Hr Hq].
  destruct (i_tree _ _ _ _ A HA) as (_ & T2 & T3).
  destruct (edge_at E h0 vlinks self Hwf A HA a e T3 He)
    as (la & lb & Hla & Hlb & Hoka & Hokb & Hex & Hlead & Hage & Hedge).
  destruct (T2 a T3) as [x Hx]. pose proof (wx_found A a x Hx) as Hwx.
  destruct (r_vertex s A Hr a x Hx) as (vv & Hvv & V1 & _ & V3 & _).
  destruct (same_at h0 _ _ _ (r_lsas s A Hr) Hla) as [n1 Hn1].
  destruct (same_at h0 _ _ _ (r_lsas s A Hr) Hlb) as [n2 Hn2].
  destruct (has_link_spec lb la Hokb Hoka) as (r & Hr' & [[_ Hpos]|[? _]] & _); [|done].
  unfold spf_link. erewrite fbind_run by exact (lsa_at_run s _ _ Hn2).
  change (IS_LSA_MAXAGE (e_now E) (lb <| l_stat := n2 |>)) with (IS_LSA_MAXAGE (e_now E) lb). rewrite Hage.
  rewrite <- Hwx in Hvv. erewrite fbind_run by exact (vtx_run s _ vv Hvv). rewrite V1.
  erewrite fbind_run by exact (lsa_at_run s _ _ Hn1).
  assert (ospf_lsa_has_link (lb <| l_stat := n2 |>) (la <| l_stat := n1 |>) = Some r) as Hback by exact Hr'.
  erewrite fbind_run by exact (of_option_run _ s r Hback).
  assert ((r <? 0) = false) as -> by (apply Z.ltb_ge; lia).
  change (l_stat (lb <| l_stat := n2 |>)) with n2.
  pose proof (r_stat s A Hq _ _ Hex Hn2) as Hst. unfold stat_ok in Hst. fold b in Hst.
  change (l_stat (lb <| l_stat := n2 |>)) with n2 in Hst.
  destruct (decide (b ∈ a_T A)) as [Hbt|Hbt].
  { destruct (T2 b Hbt) as [y Hy]. rewrite Hy in Hst. subst n2.
    change (LSA_SPF_IN_SPFTREE =? LSA_SPF_IN_SPFTREE) with true. cbv iota.
    exists s. split_and!; [done| |done|apply grow_refl]. unfold relax. rewrite decide_True by done. by apply rep_done. }
  assert ((n2 =? LSA_SPF_IN_SPFTREE) = false) as ->.
  { apply Z.eqb_neq. unfold LSA_SPF_IN_SPFTREE, LSA_SPF_NOT_EXPLORED in *.
    destruct (a_W A !! b); [|lia]. destruct Hst as (i & -> & _). lia. }
  erewrite fbind_run by exact (metric_run s la lb e n1 Hedge).
  assert (u32 (v_distance vv + e_cost e) = a_dst A a + e_cost e) as ->.
  { rewrite V3. apply u32_small. pose proof (found_dst A a HA ltac:(eauto)).
    pose proof (edge_forward E h0 vlinks self Hwf A HA a e T3 He) as [? _]. lia. }
  destruct (a_W A !! b) as [y|] eqn:Hy.
  - destruct Hst as (i & -> & Hi).
    assert ((Z.of_nat i =? LSA_SPF_NOT_EXPLORED) = false) as -> by (apply Z.eqb_neq; unfold LSA_SPF_NOT_EXPLORED; lia).
    assert ((Z.of_nat i >=? 0) = true) as -> by (apply Z.geb_le; lia).
    erewrite fbind_run by reflexivity.
    assert (arr (sp_candidate s) (Z.of_nat i) = Some y) as Harr by (by rewrite arr_nat).
    erewrite fbind_run by exact (of_option_run _ s y Harr).
    destruct (r_vertex s A Hr b y Hy) as (wv & Hwv & _ & _ & W3 & _).
    erewrite fbind_run by exact (vtx_run s y wv Hwv). rewrite W3.
    set (d := a_dst A a + e_cost e).
    destruct (Z.ltb_spec (a_dst A b) d) as [Hlt|Hge].
    { exists s. split_and!; [done| |done|apply grow_refl]. unfold relax. fold b d. rewrite decide_False by done.
      case_decide; [by apply rep_done|]. rewrite Hy, decide_True by done. by apply rep_done. }
    pose proof (found_hop_run s A HA HR e He Hbt y wv Hy Hwv Hge) as Hhop. fold a d in Hhop.
    destruct (new_parents E h0 vlinks self A a e) as [|vp vps] eqn:Eps.
    { assert (relax E h0 vlinks self A a e (length (sp_vertices s)) =
        mk_as (a_W A) (a_T A) (a_dst A) (a_par A) (a_done A ++ [(a, e)]) (a_last A)) as ->.
      { unfold relax. fold b. rewrite decide_False by done. by rewrite Eps, decide_True. }
      exists s. split_and!; [|by apply rep_done|done|apply grow_refl].
      destruct (a_dst A b =? d); by erewrite fbind_run by exact Hhop. }
    rewrite (bool_decide_eq_true_2 (vp :: vps ≠ [])) in Hhop by done. cbv iota in Hhop. rewrite <- Eps in Hhop.
    assert (new_parents E h0 vlinks self A a e ≠ []) as Hps by (by rewrite Eps).
    pose proof (relax_found s A e Hbt y Hy Hge Hps) as Hrel. fold a b d in Hrel. rewrite Hrel. clear Hrel.
    assert (grow (sp_vertices s) (sp_vertices (with_vertex s y (put_parents d (new_parents E h0 vlinks self A a e) wv))))
      as Hg by (by apply grow_put).
    destruct (Z.eqb_spec (a_dst A b) d) as [Heq|Hne].
    + erewrite fbind_run by exact Hhop. eexists. split_and!; [done| |done|exact Hg].
      by apply (link_equal s A HA HR e y wv Hy Hwv).
    + erewrite fbind_run by exact Hhop. cbv iota.
      erewrite fbind_run by exact (lsa_at_run (with_vertex s y _) _ _ Hn2).
      assert (d < a_dst A b) as Hlt by lia.
      destruct (link_shorter s A HA HR e He Hbt y wv Hy Hwv Hge Hps i) as (s' & Hrun & Hrep & Hfr & Hvs); [exact Hlt|done|].
      exists s'. fold a b d in Hrun, Hrep, Hvs. split_and!; [exact Hrun|done|done|]. rewrite Hvs. exact Hg.
  - subst n2. change (LSA_SPF_NOT_EXPLORED =? LSA_SPF_NOT_EXPLORED) with true. cbv iota.
    by apply link_new.
Qed.

(** A link to an LSA that is too old, or that has no link back. *)
Lemma spf_link_skip s A l b :
  ainv A → rep s A → explorable b →
  (∀ la, h0 !! a_last A = Some la → ¬ linked_back E h0 la b) →
  spf_link E (wx A (a_last A)) l (Some b) s = Some (tt, s).
Proof.
  intros HA HR Hex Hno. pose proof HR as [Hr Hq]. destruct (i_tree _ _ _ _ A HA) as (_ & T2 & T3).
  destruct (explorable_at E h0 vlinks self Hwf b Hex) as (lb & Hlb & Hokb).
  destruct (found_at E h0 vlinks self Hwf A HA _ (T2 _ T3)) as (la & Hla & Hoka & _).
  destruct (T2 _ T3) as [x Hx]. destruct (r_vertex s A Hr _ x Hx) as (vv & Hvv & V1 & _).
  destruct (same_at h0 _ _ _ (r_lsas s A Hr) Hla) as [n1 Hn1].
  destruct (same_at h0 _ _ _ (r_lsas s A Hr) Hlb) as [n2 Hn2].
  specialize (Hno la Hla). unfold linked_back in Hno. rewrite Hlb in Hno.
  unfold spf_link. erewrite fbind_run by exact (lsa_at_run s _ _ Hn2).
  change (IS_LSA_MAXAGE (e_now E) (lb <| l_stat := n2 |>)) with (IS_LSA_MAXAGE (e_now E) lb).
  destruct (IS_LSA_MAXAGE (e_now E) lb) eqn:Hage; [done|].
  rewrite (wx_found A _ x Hx). erewrite fbind_run by exact (vtx_run s x vv Hvv). rewrite V1.
  erewrite fbind_run by exact (lsa_at_run s _ _ Hn1).
  destruct (has_link_spec lb la Hokb Hoka) as (r & Hr' & [[? _]|[_ ->]] & _); [by destruct Hno|].
  assert (ospf_lsa_has_link (lb <| l_stat := n2 |>) (la <| l_stat := n1 |>) = Some (-1)) as Hback by exact Hr'.
  by erewrite fbind_run by exact (of_option_run _ s _ Hback).
Qed.

End Run.
