(* ===== verification/OspfSpfLoop.v ===== *)
(** * OSPF: the loops of the calculation

    All links of a vertex, and the rounds of the algorithm. *)

From stdpp Require Import gmap sorting.
From S2P Require Import Prelude Fault OspfTable OspfLsa OspfLsaProps OspfVertex OspfRoute OspfSpf OspfSpfGraph.
From S2P Require Import OspfSpfRead OspfSpfHops OspfQueue OspfSpfInv OspfSpfRun.

Section Loop.
Context {RT : Type → Type} `{RouteTableLaws RT} {PL : PrefixLib} `{PQueueLaws}.
Context (E : spf_env RT) (h0 : lheap) (vlinks : list ospf_vl_data) (self : nat).
Context (Hwf : area_wf E h0 vlinks self).
Context (backbone : bool).
Context (Hvirtual : backbone = true ∨ ∀ l p, h0 !! self = Some l → p ∈ link_offsets l →
  lk_type (l_body l) p ≠ Some LSA_LINK_TYPE_VIRTUALLINK).

Implicit Types s : spf RT.

Local Abbreviation ainv := (ainv E h0 vlinks self).
Local Abbreviation edges := (edges E h0 self).
Local Abbreviation explorable := (explorable E).
Local Abbreviation rep0 := (rep0 h0 vlinks self backbone).
Local Abbreviation rep := (rep E h0 vlinks self backbone).
Local Abbreviation relax := (relax E h0 vlinks self).

(** ** Looking up LSAs *)

Lemma db_table (i : nat) : (i < 8)%nat → ∃ t, db_type (e_lsdb E) !! i = Some t.
Proof. intros Hi. destruct (wf_db _ _ _ _ Hwf) as (D1 & _). apply lookup_lt_is_Some. by rewrite D1. Qed.

Lemma lookup_router_run s id : lookup_router E id s = Some (router_lsa E id, s).
Proof.
  destruct (db_table 1 ltac:(lia)) as [t Ht]. unfold lookup_router, router_lsa, ospf_lsdb_lookup_by_id, db_info.
  rewrite (arr_lookup _ OSPF_ROUTER_LSA) by done. change (Z.to_nat OSPF_ROUTER_LSA) with 1%nat. by rewrite Ht.
Qed.

Lemma lookup_network_walk_run s ks (t : RT nat) id :
  same_lsas h0 (sp_lsas s) → (∀ k p, rt_info k t = Some p → is_Some (h0 !! p)) →
  lookup_network_walk ks t id s =
  Some (head (filter (λ p, h_id ∘ l_data <$> h0 !! p = Some id) (omap (λ k, rt_info k t) ks)), s).
Proof.
  intros Hs Ht. induction ks as [|k ks IH]; cbn [lookup_network_walk]; [done|]. cbn.
  destruct (rt_info k t) as [p|] eqn:Hk; [|done]. destruct (Ht k p Hk) as [l Hl].
  destruct (same_at h0 _ _ _ Hs Hl) as [n Hn]. erewrite fbind_run by exact (lsa_at_run s p _ Hn).
  rewrite list.filter_cons, Hl. change (h_id (l_data (l <| l_stat := n |>))) with (h_id (l_data l)). cbn [fmap option_fmap option_map].
  destruct (Z.eqb_spec (h_id (l_data l)) id) as [Heq|Hne].
  - rewrite decide_True; [done|]. cbn. by rewrite Heq.
  - rewrite decide_False; [done|]. cbn. intros [= ?]. done.
Qed.

Lemma lookup_network_run s id : same_lsas h0 (sp_lsas s) → lookup_network E id s = Some (network_lsa E h0 id, s).
Proof.
  intros Hs. destruct (db_table 2 ltac:(lia)) as [t Ht]. unfold lookup_network, network_lsa.
  rewrite (arr_lookup _ OSPF_NETWORK_LSA) by done. change (Z.to_nat OSPF_NETWORK_LSA) with 2%nat. rewrite Ht.
  erewrite fbind_run by reflexivity. cbn [mbind option_bind]. unfold rt_entries.
  apply lookup_network_walk_run; [done|]. intros k p Hk.
  destruct (table_entry E h0 vlinks self Hwf 2 k p) as (l & Hl & _); [unfold db_info; by rewrite Ht|eauto].
Qed.

(** ** The links of a router *)

Lemma link_target_run s la n i (v root : nat) :
  same_lsas h0 (sp_lsas s) → router_ok la n → (i < n)%nat →
  let p := 4 + 12 * Z.of_nat i in
  ∃ m r, lk_metric (l_body la) p = Some m ∧ router_link_target E v root (l_body la) p s = Some (r, s) ∧
    (r = Some (link_target E h0 la p) ∧ (v = root ∨ m ≠ OSPF_OUTPUT_COST_INFINITE) ∨
     r = None ∧ (link_target E h0 la p = None ∨ v ≠ root ∧ m = OSPF_OUTPUT_COST_INFINITE)).
Proof.
  intros Hs Hn Hi p. destruct (link_type_some la n Hn i Hi) as [t Ht]. destruct (link_id_some la n Hn i Hi) as [id Hid].
  destruct (link_metric_some la n Hn i Hi) as [m Hm]. fold p in Ht, Hid, Hm. exists m.
  unfold router_link_target, link_target. rewrite Ht, Hid, Hm. cbn [mbind option_bind].
  erewrite fbind_run by reflexivity.
  destruct (Z.eqb_spec t LSA_LINK_TYPE_STUB) as [->|Hst].
  { exists None. split_and!; [done|done|]. right. split; [done|]. by left. }
  set (inf := bool_decide (v ≠ root) && (m =? OSPF_OUTPUT_COST_INFINITE)).
  assert ((if bool_decide (v ≠ root) then
      m0 ← of_option (Some m); mret (htons m0 >=? OSPF_OUTPUT_COST_INFINITE) else mret false) s = Some (inf, s)) as Hinf.
  { unfold inf. destruct (bool_decide (v ≠ root)); [|done]. erewrite fbind_run by reflexivity.
    rewrite htons_infinite; [done|]. destruct Hn as (_ & _ & _ & Hb & _). by eapply rd16_range. }
  erewrite fbind_run by exact Hinf. destruct inf eqn:Einf.
  { unfold inf in Einf. apply andb_true_iff in Einf as [E1%bool_decide_eq_true E2%Z.eqb_eq].
    exists None. split_and!; [done|done|]. right. auto. }
  assert (v = root ∨ m ≠ OSPF_OUTPUT_COST_INFINITE) as Hok.
  { unfold inf in Einf. apply andb_false_iff in Einf as [E1%bool_decide_eq_false|E2%Z.eqb_neq]; [left|by right].
    by apply dec_stable. }
  destruct ((t =? LSA_LINK_TYPE_POINTOPOINT) || (t =? LSA_LINK_TYPE_VIRTUALLINK)).
  { erewrite fbind_run by reflexivity. erewrite fbind_run by exact (lookup_router_run s id).
    eexists. split_and!; [done|done|]. by left. }
  destruct (t =? LSA_LINK_TYPE_TRANSIT).
  { erewrite fbind_run by reflexivity. erewrite fbind_run by exact (lookup_network_run s id Hs).
    eexists. split_and!; [done|done|]. by left. }
  exists None. split_and!; [done|done|]. right. auto.
Qed.

(** ** The tree does not change while links are examined *)

Definition same_tree (A A' : astate) : Prop :=
  a_T A' = a_T A ∧ a_last A' = a_last A ∧
  ∀ c, c ∈ a_T A → a_W A' !! c = a_W A !! c ∧ a_dst A' c = a_dst A c ∧ a_par A' c = a_par A c.

Lemma relax_tree A a e x : same_tree A (relax A a e x) ∧ a_done (relax A a e x) = a_done A ++ [(a, e)] ∧
  ∀ c y, a_W (relax A a e x) !! c = Some y → a_W A !! c = Some y ∨ y = x.
Proof.
  unfold OspfSpfInv.relax. destruct (decide (e_to e ∈ a_T A)) as [Hb|Hb]; [by split_and!; auto|].
  case_decide; [by split_and!; auto|]. destruct (a_W A !! e_to e) as [y|] eqn:Hy.
  - case_decide; [by split_and!; auto|]. split_and!; cbn; [|done|auto]. split_and!; [done|done|].
    intros c Hc. cbn. rewrite !fn_lookup_insert_ne by (by intros <-). done.
  - split_and!; cbn; [|done|].
    + split_and!; [done|done|]. intros c Hc. cbn. rewrite lookup_insert_ne by (by intros <-).
      rewrite !fn_lookup_insert_ne by (by intros <-). done.
    + intros c z [[_ <-]|[_ Hz]]%lookup_insert_Some; auto.
Qed.

Lemma same_tree_refl A : same_tree A A.
Proof. done. Qed.

Lemma same_tree_trans A A' A'' : same_tree A A' → same_tree A' A'' → same_tree A A''.
Proof.
  intros (T1 & L1 & S1) (T2 & L2 & S2). split_and!; [congruence|congruence|]. intros c Hc.
  destruct (S1 c Hc) as (<- & <- & <-). apply S2. by rewrite T1.
Qed.

(** The result of examining the edges [es] of the last vertex. *)
Definition examined s A es s' A' : Prop :=
  rep s' A' ∧ ainv A' ∧ same_tree A A' ∧ a_done A' = a_done A ++ ((λ e, (a_last A, e)) <$> es) ∧
  frame s s' ∧ grow (sp_vertices s) (sp_vertices s') ∧
  ∀ c y, a_W A' !! c = Some y → a_W A !! c = Some y ∨ (length (sp_vertices s) ≤ y)%nat.

Lemma examined_nil s A : rep s A → ainv A → examined s A [] s A.
Proof.
  intros Hr HA. split_and!; [done|done|done|by rewrite app_nil_r|done|apply grow_refl|auto].
Qed.

Lemma examined_trans s A es s' A' es' s'' A'' :
  examined s A es s' A' → examined s' A' es' s'' A'' → examined s A (es ++ es') s'' A''.
Proof.
  intros (R1 & I1 & T1 & D1 & F1 & G1 & W1) (R2 & I2 & T2 & D2 & F2 & G2 & W2).
  split_and!; [done|done|by eapply same_tree_trans| |by eapply frame_trans|by eapply grow_trans|].
  - rewrite D2, D1, fmap_app, app_assoc. destruct T1 as (_ & -> & _). done.
  - intros c y [Hy|Hy]%W2; [by apply W1|]. right. destruct G1. lia.
Qed.

Lemma examine_edge s A e :
  ainv A → rep s A → e ∈ edges (a_last A) →
  ∃ s' A', spf_link E (wx A (a_last A)) (e_link e) (Some (e_to e)) s = Some (tt, s') ∧ examined s A [e] s' A'.
Proof.
  intros HA HR He. destruct (spf_link_run E h0 vlinks self Hwf backbone Hvirtual s A e HA HR He)
    as (s' & Hrun & Hrep & Hfr & Hg).
  destruct (relax_tree A (a_last A) e (length (sp_vertices s))) as (Ht & Hd & Hw).
  eexists s', _. split; [done|]. split_and!; [done| |done|done|done|done|].
  - apply (relax_inv E h0 vlinks self Hwf A HA e _ He).
    exact (vertex_fresh E h0 vlinks self backbone s A HR e).
  - intros c y [Hy|Hy]%Hw; [by left|right; lia].
Qed.

Lemma same_tree_wx A A' : ainv A → same_tree A A' → wx A' (a_last A') = wx A (a_last A).
Proof.
  intros HA (_ & L & S). rewrite L. unfold wx. destruct (i_tree _ _ _ _ A HA) as (_ & _ & T3).
  by destruct (S _ T3) as (-> & _).
Qed.

(** ** All links of a vertex *)

Lemma last_run s A : ainv A → rep s A → ∃ vv la n,
  sp_vertices s !! wx A (a_last A) = Some vv ∧ v_lsa vv = a_last A ∧ h0 !! a_last A = Some la ∧ lsa_ok la ∧
  v_type vv = h_type (l_data la) ∧ sp_lsas s !! a_last A = Some (la <| l_stat := n |>) ∧
  (wx A (a_last A) = sp_spf s ↔ a_last A = self).
Proof.
  intros HA [Hr _]. destruct (i_tree _ _ _ _ A HA) as (_ & T2 & T3).
  destruct (found_at E h0 vlinks self Hwf A HA _ (T2 _ T3)) as (la & Hla & Hok & _).
  destruct (T2 _ T3) as [x Hx].
  destruct (r_vertex _ _ _ _ s A Hr _ x Hx) as (vv & Hvv & V1 & (la' & Hla' & V2 & _) & _).
  assert (la' = la) as -> by congruence.
  destruct (same_at h0 _ _ _ (r_lsas _ _ _ _ s A Hr) Hla) as [n Hn]. exists vv, la, n. rewrite (wx_found A _ x Hx).
  pose proof (r_root _ _ _ _ s A Hr) as Hroot. split_and!; [done|done|done|done|done|done|].
  split; [intros ->; by apply (i_inj _ _ _ _ A HA _ _ (sp_spf s))|]. intros Hs. rewrite Hs in Hx. congruence.
Qed.

Lemma router_loop_run fuel s A la n i :
  ainv A → rep s A → h0 !! a_last A = Some la → h_type (l_data la) = OSPF_ROUTER_LSA → router_ok la n →
  (i ≤ n)%nat → (n - i < fuel)%nat →
  ∃ s' A', spf_next_loop E fuel (wx A (a_last A)) (4 + 12 * Z.of_nat i) s = Some (tt, s') ∧
    examined s A (omap (link_edge E h0 self (a_last A) la) ((λ j, 4 + 12 * Z.of_nat j) <$> seq i (n - i))) s' A'.
Proof.
  revert s A i. induction fuel as [|fuel IH]; intros s A i HA HR Hla Ht Hn Hi Hf; [lia|].
  destruct (last_run s A HA HR) as (vv & la' & k & Hvv & V1 & Hla' & _ & _ & Hk & Hroot).
  assert (la' = la) as -> by congruence. cbn [spf_next_loop].
  erewrite fbind_run by reflexivity. erewrite fbind_run by exact (vtx_run s _ vv Hvv). rewrite V1.
  erewrite fbind_run by exact (lsa_at_run s _ _ Hk).
  change (lim (la <| l_stat := k |>)) with (lim la). rewrite (router_lim la n Hn).
  destruct (Z.ltb_spec (4 + 12 * Z.of_nat i) (4 + 12 * Z.of_nat n)) as [Hlt|Hge].
  2:{ replace (n - i)%nat with O by lia. exists s, A. split; [done|]. by apply examined_nil. }
  change (h_type (l_data (la <| l_stat := k |>))) with (h_type (l_data la)). rewrite Ht.
  change (OSPF_ROUTER_LSA =? OSPF_ROUTER_LSA) with true. cbv iota.
  assert (i < n)%nat as Hin by lia. change (l_body (la <| l_stat := k |>)) with (l_body la).
  erewrite fbind_run by exact (of_option_run _ s 0 (link_tos la n Hn i Hin)).
  destruct (link_target_run s la n i (wx A (a_last A)) (sp_spf s)) as (m & r & Hm & Hrun & Hcase);
    [by destruct HR as [[? ? ? ?] _]|done|done|].
  erewrite fbind_run by exact Hrun.
  assert (∃ s1 A1, (match r with Some w => spf_link E (wx A (a_last A)) (Some (4 + 12 * Z.of_nat i)) w | None => mret tt end) s
      = Some (tt, s1) ∧
    examined s A (option_list (link_edge E h0 self (a_last A) la (4 + 12 * Z.of_nat i))) s1 A1) as (s1 & A1 & Hrun1 & Hex1).
  { unfold link_edge. rewrite Hm. cbn [mbind option_bind].
    destruct Hcase as [[-> Hok]|[-> Hno]].
    - destruct (link_target E h0 la (4 + 12 * Z.of_nat i)) as [b|] eqn:Hb; cbn [mbind option_bind].
      2:{ exists s, A. split; [done|]. by apply examined_nil. }
      destruct (decide _) as [Hd|Hd].
      + assert (mk_edge (Some (4 + 12 * Z.of_nat i)) b m ∈ edges (a_last A)) as Hed.
        { unfold OspfSpfGraph.edges. rewrite Hla. unfold edges_of. rewrite decide_True by done.
          apply list_elem_of_omap. exists (4 + 12 * Z.of_nat i). split; [apply (link_offset_elem la n Hn); eauto|].
          unfold link_edge. rewrite Hm, Hb. cbn. by rewrite decide_True. }
        by destruct (examine_edge s A _ HA HR Hed) as (s1 & A1 & ? & ?); exists s1, A1.
      + exists s, A. split; [|by apply examined_nil]. apply (spf_link_skip E h0 vlinks self Hwf backbone); [done|done| |].
        * unfold link_target in Hb. destruct (lk_type _ _) as [t|]; [|done]. cbn in Hb.
          destruct (lk_link_id _ _) as [id|]; [|done]. cbn in Hb.
          case_match; [by destruct (router_lsa_at E h0 vlinks self Hwf _ _ Hb)|].
          case_match; [by destruct (network_lsa_at E h0 vlinks self Hwf _ _ Hb)|done].
        * intros la' Hla2 Hlb. assert (la' = la) as -> by congruence. apply Hd. split; [|done].
          destruct Hok as [Hr|]; [left; by apply Hroot|by right].
    - exists s, A. split; [done|].
      assert (match link_target E h0 la (4 + 12 * Z.of_nat i) with
        | Some b => if decide ((a_last A = self ∨ m ≠ OSPF_OUTPUT_COST_INFINITE) ∧ linked_back E h0 la b)
                    then Some (mk_edge (Some (4 + 12 * Z.of_nat i)) b m) else None
        | None => None end = None) as Hz.
      { destruct Hno as [->|[Hv Hinf]]; [done|]. destruct (link_target _ _ _ _); [|done].
        rewrite decide_False; [done|]. intros [[Hs|?] _]; [by apply Hv, Hroot|done]. }
      unfold mbind, option_bind. rewrite Hz. by apply examined_nil. }
  erewrite fbind_run by exact Hrun1. pose proof Hex1 as (HR1 & HA1 & Ht1 & _).
  pose proof (same_tree_wx A A1 HA Ht1) as Hwx. pose proof Ht1 as (_ & Hlast & _).
  destruct (IH s1 A1 (S i) HA1 HR1) as (s2 & A2 & Hrun2 & Hex2); [by rewrite Hlast|done|done|lia|lia|].
  exists s2, A2. unfold OSPF_ROUTER_LSA_LINK_SIZE.
  replace (4 + 12 * Z.of_nat i + (12 + 0 * OSPF_ROUTER_LSA_TOS_SIZE)) with (4 + 12 * Z.of_nat (S i)) by lia.
  rewrite <- Hwx, Hrun2. split; [done|]. rewrite Hlast in Hex2.
  replace (n - i)%nat with (S (n - S i)) by lia. cbn [seq fmap list_fmap]. cbn [omap list_omap].
  pose proof (examined_trans _ _ _ _ _ _ _ _ Hex1 Hex2) as Hex.
  by destruct (link_edge E h0 self (a_last A) la (4 + 12 * Z.of_nat i)).
Qed.

Lemma network_loop_run fuel s A la n i :
  ainv A → rep s A → h0 !! a_last A = Some la → h_type (l_data la) = OSPF_NETWORK_LSA → network_ok la n →
  (i ≤ n)%nat → (n - i < fuel)%nat →
  ∃ s' A', spf_next_loop E fuel (wx A (a_last A)) (4 + 4 * Z.of_nat i) s = Some (tt, s') ∧
    examined s A (omap (router_edge E h0 la) ((λ j, 4 + 4 * Z.of_nat j) <$> seq i (n - i))) s' A'.
Proof.
  revert s A i. induction fuel as [|fuel IH]; intros s A i HA HR Hla Ht Hn Hi Hf; [lia|].
  destruct (last_run s A HA HR) as (vv & la' & k & Hvv & V1 & Hla' & _ & _ & Hk & _).
  assert (la' = la) as -> by congruence. cbn [spf_next_loop].
  erewrite fbind_run by reflexivity. erewrite fbind_run by exact (vtx_run s _ vv Hvv). rewrite V1.
  erewrite fbind_run by exact (lsa_at_run s _ _ Hk).
  change (lim (la <| l_stat := k |>)) with (lim la). rewrite (network_lim la n Hn).
  destruct (Z.ltb_spec (4 + 4 * Z.of_nat i) (4 + 4 * Z.of_nat n)) as [Hlt|Hge].
  2:{ replace (n - i)%nat with O by lia. exists s, A. split; [done|]. by apply examined_nil. }
  change (h_type (l_data (la <| l_stat := k |>))) with (h_type (l_data la)). rewrite Ht.
  change (OSPF_NETWORK_LSA =? OSPF_ROUTER_LSA) with false. cbv iota.
  assert (i < n)%nat as Hin by lia. change (l_body (la <| l_stat := k |>)) with (l_body la).
  destruct (nl_router_some la n Hn i Hin) as [id Hid].
  erewrite fbind_run by exact (of_option_run _ s id Hid).
  erewrite fbind_run by exact (lookup_router_run s id).
  assert (∃ s1 A1, spf_link E (wx A (a_last A)) None (router_lsa E id) s = Some (tt, s1) ∧
    examined s A (option_list (router_edge E h0 la (4 + 4 * Z.of_nat i))) s1 A1) as (s1 & A1 & Hrun1 & Hex1).
  { unfold router_edge. rewrite Hid. cbn [mbind option_bind].
    destruct (router_lsa E id) as [b|] eqn:Hb; cbn [mbind option_bind].
    2:{ exists s, A. split; [done|]. by apply examined_nil. }
    destruct (decide _) as [Hd|Hd].
    - assert (mk_edge None b 0 ∈ edges (a_last A)) as Hed.
      { unfold OspfSpfGraph.edges. rewrite Hla. unfold edges_of. rewrite decide_False by (rewrite Ht; done).
        apply list_elem_of_omap. exists (4 + 4 * Z.of_nat i).
        split; [rewrite (router_offsets_eq la n Hn); apply list_elem_of_fmap; exists i; split; [done|apply elem_of_seq; lia]|].
        unfold router_edge. rewrite Hid. cbn. rewrite Hb. cbn. by rewrite decide_True. }
      by destruct (examine_edge s A _ HA HR Hed) as (s1 & A1 & ? & ?); exists s1, A1.
    - exists s, A. split; [|by apply examined_nil]. apply (spf_link_skip E h0 vlinks self Hwf backbone); [done|done| |].
      + by destruct (router_lsa_at E h0 vlinks self Hwf _ _ Hb).
      + intros la' Hla2 Hlb. assert (la' = la) as -> by congruence. done. }
  erewrite fbind_run by exact Hrun1. pose proof Hex1 as (HR1 & HA1 & Ht1 & _).
  pose proof (same_tree_wx A A1 HA Ht1) as Hwx. pose proof Ht1 as (_ & Hlast & _).
  destruct (IH s1 A1 (S i) HA1 HR1) as (s2 & A2 & Hrun2 & Hex2); [by rewrite Hlast|done|done|lia|lia|].
  exists s2, A2. replace (4 + 4 * Z.of_nat i + 4) with (4 + 4 * Z.of_nat (S i)) by lia.
  rewrite <- Hwx, Hrun2. split; [done|].
  replace (n - i)%nat with (S (n - S i)) by lia. cbn [seq fmap list_fmap]. cbn [omap list_omap].
  pose proof (examined_trans _ _ _ _ _ _ _ _ Hex1 Hex2) as Hex.
  by destruct (router_edge E h0 la (4 + 4 * Z.of_nat i)).
Qed.

(** [ospf_spf_next]: all edges of the last vertex; the V bit of its LSA may set the transit capability. *)
Lemma spf_next_run s A :
  ainv A → rep s A →
  ∃ t s' A', ospf_spf_next E (wx A (a_last A)) s = Some (tt, s') ∧
    examined (s <| sp_area := (sp_area s) <| ar_transit := t |> |>) A (edges (a_last A)) s' A'.
Proof.
  intros HA HR. destruct (last_run s A HA HR) as (vv & la & k & Hvv & V1 & Hla & Hok & V2 & Hk & _).
  unfold ospf_spf_next. erewrite fbind_run by exact (vtx_run s _ vv Hvv). rewrite V1.
  erewrite fbind_run by exact (lsa_at_run s _ _ Hk). rewrite V2.
  change (l_body (la <| l_stat := k |>)) with (l_body la).
  assert (∀ t, rep (s <| sp_area := (sp_area s) <| ar_transit := t |> |>) A) as HRt.
  { intros t. destruct HR as [[R1 R2 R3 R4] [Q1 Q2 Q3 Q4]]. by split; split. }
  unfold OspfSpfGraph.edges. rewrite Hla. unfold edges_of. destruct Hok as [[Ht [n Hn]]|[Ht [n Hn]]].
  - rewrite decide_True by done. rewrite Ht. change (OSPF_ROUTER_LSA =? OSPF_VERTEX_ROUTER) with true. cbv iota.
    destruct (router_flags_some la n Hn) as [fl Hfl]. rewrite Hfl.
    assert (∃ t, (flags ← of_option (Some fl);
       if CHECK_FLAG flags ROUTER_LSA_VIRTUAL then upd_area (λ a, a <| ar_transit := 1 |>) else mret tt) s =
       Some (tt, s <| sp_area := (sp_area s) <| ar_transit := t |> |>)) as [t Hrun].
    { erewrite fbind_run by reflexivity. destruct (CHECK_FLAG fl ROUTER_LSA_VIRTUAL).
      - by exists 1.
      - exists (ar_transit (sp_area s)). by destruct s as [? ? ? ? [] ? ? ? ?]. }
    erewrite fbind_run by exact Hrun. exists t.
    pose proof Hn as (_ & Hlen & _).
    destruct (router_loop_run (S (S (length (l_body la)))) (s <| sp_area := (sp_area s) <| ar_transit := t |> |>) A la n 0)
      as (s' & A' & Hrun' & Hex); [done|done|done|done|done|lia|lia|].
    exists s', A'. split; [exact Hrun'|]. rewrite (link_offsets_eq la n Hn). by rewrite Nat.sub_0_r in Hex.
  - rewrite decide_False by (rewrite Ht; done). rewrite Ht.
    change (OSPF_NETWORK_LSA =? OSPF_VERTEX_ROUTER) with false. cbv iota.
    erewrite fbind_run by reflexivity. exists (ar_transit (sp_area s)).
    assert (s <| sp_area := (sp_area s) <| ar_transit := ar_transit (sp_area s) |> |> = s) as ->
      by (by destruct s as [? ? ? ? [] ? ? ? ?]).
    pose proof Hn as (_ & Hlen & _).
    destruct (network_loop_run (S (S (length (l_body la)))) s A la n 0) as (s' & A' & Hrun' & Hex);
      [done|done|done|done|done|lia|lia|].
    exists s', A'. split; [exact Hrun'|]. rewrite (router_offsets_eq la n Hn). by rewrite Nat.sub_0_r in Hex.
Qed.

(** ** Taking a candidate out of the queue *)

Lemma dequeue_run s A :
  ainv A → rep s A → sp_candidate s ≠ [] →
  ∃ b x vv s1 s2, dequeue s = Some (x, s1) ∧ a_W A !! b = Some x ∧ sp_vertices s1 !! x = Some vv ∧ v_lsa vv = b ∧
    (∃ l, h0 !! b = Some l ∧ v_type vv = h_type (l_data l)) ∧
    b ∉ a_T A ∧ set_stat b LSA_SPF_IN_SPFTREE s1 = Some (tt, s2) ∧
    ainv (settle A b) ∧ rep s2 (settle A b) ∧ frame s s2 ∧ sp_vertices s2 = sp_vertices s.
Proof.
  intros HA HR Hne. pose proof HR as [Hr Hq].
  destruct (dequeue_law (cmp_in (sp_vertices s)) (sp_candidate s)) as (x & [q us] & Hdq & Hp & Hinv & Hmin & Hmv);
    [|apply (r_queue _ _ _ Hq)|apply (r_nodup _ _ _ Hq)|done|].
  { apply (queue_order E h0 vlinks self Hwf backbone s A); [done|done|].
    intros y (c & Hc & _)%(r_cand _ _ _ Hq). eauto. }
  cbn [fst snd] in *.
  assert (x ∈ sp_candidate s) as Hx by (rewrite <- Hp; left).
  pose proof Hx as (b & Hb & Hbt)%(r_cand _ _ _ Hq).
  destruct (r_vertex _ _ _ _ s A Hr b x Hb) as (vv & Hvv & V1 & (lb & Hlb & V2 & _) & _).
  assert (NoDup (x :: q)) as [Hxq Hnd]%list.NoDup_cons by (rewrite Hp; apply (r_nodup _ _ _ Hq)).
  assert (∀ y, y ∈ q ↔ ∃ c, a_W A !! c = Some y ∧ c ∉ a_T A ++ [b]) as Hcand.
  { intros y. setoid_rewrite elem_of_app. setoid_rewrite list_elem_of_singleton. split.
    - intros Hy. assert (y ∈ sp_candidate s) as (c & Hc & Hct)%(r_cand _ _ _ Hq) by (rewrite <- Hp; by right).
      exists c. split; [done|]. intros [?| ->]; [done|]. congruence.
    - intros (c & Hc & Hct). assert (y ∈ sp_candidate s) as Hy by (apply (r_cand _ _ _ Hq); exists c; tauto).
      rewrite <- Hp in Hy. apply elem_of_cons in Hy as [->|]; [|done].
      exfalso. apply Hct. right. by apply (i_inj _ _ _ _ A HA c b x). }
  destruct (set_candidate_run E h0 vlinks self backbone s A q us HA Hr) as (h1 & Hrun & Hs1 & Hst1).
  { intros y n Hy. enough (y ∈ sp_candidate s) as (c & Hc & _)%(r_cand _ _ _ Hq) by eauto.
    apply Hmv in Hy as [?|Hy]; [done|]. rewrite <- Hp. by right. }
  set (s1 := s <| sp_candidate := q |> <| sp_lsas := h1 |>).
  destruct (same_at h0 _ _ _ Hs1 Hlb) as [m Hm].
  exists b, x, vv, s1, (s1 <| sp_lsas := <[b := set_fld l_stat LSA_SPF_IN_SPFTREE (set_fld l_stat m lb)]> h1 |>).
  split_and!; [|done|done|done|by eauto|done|by apply set_stat_run| | |done|done].
  - unfold dequeue. erewrite fbind_run by reflexivity. change (sp_candidate (id s)) with (sp_candidate s).
    change (sp_vertices (id s)) with (sp_vertices s). rewrite Hdq. erewrite fbind_run by reflexivity.
    by erewrite fbind_run by exact Hrun.
  - apply (settle_inv E h0 vlinks self); [done|by eauto|done|]. intros c [y Hc] Hct.
    apply (cmp_kle E h0 vlinks self Hwf backbone s A b c x y); [done|done|done|done|].
    apply Hmin. apply (r_cand _ _ _ Hq). eauto.
  - split.
    + destruct Hr as [R1 R2 R3 R4]. split; [by apply same_upd|done|done|done].
    + split; [|done|done|by eapply pq_inv_ext; [|exact Hinv]]. intros c l Hex Hl. cbn in Hl.
      unfold stat_ok. cbn [settle a_W a_T sp_candidate]. destruct (decide (c = b)) as [->|Hcb].
      { rewrite lookup_insert_eq in Hl. injection Hl as <-. rewrite Hb. rewrite decide_True; [done|].
        apply elem_of_app. right. by apply list_elem_of_singleton. }
      rewrite lookup_insert_ne in Hl by done. destruct (same_back h0 _ _ _ Hs1 Hl) as (l0 & Hl0 & _).
      destruct (same_at h0 _ _ _ (r_lsas _ _ _ _ s A Hr) Hl0) as [k Hk].
      pose proof (r_stat _ _ _ Hq c _ Hex Hk) as Hold. unfold stat_ok in Hold. rewrite (Hst1 c _ l Hk Hl).
      destruct (a_W A !! c) as [y|] eqn:Hc; [|done].
      assert (c ∈ a_T A ++ [b] ↔ c ∈ a_T A) as Hin.
      { rewrite elem_of_app, list_elem_of_singleton. tauto. }
      destruct (decide (c ∈ a_T A)) as [Hct|Hct].
      * rewrite decide_True by (by apply Hin). rewrite (not_told _ _ _ y Hmv); [done| |].
        -- intros (c' & Hc' & Hct')%(r_cand _ _ _ Hq). apply Hct'. by rewrite (i_inj _ _ _ _ A HA c' c y).
        -- intros (c' & Hc' & Hct')%Hcand. apply Hct', elem_of_app. left. by rewrite (i_inj _ _ _ _ A HA c' c y).
      * rewrite decide_False by (by rewrite Hin). destruct Hold as (j & Hj & Hjc).
        assert (y ∈ q) as [i Hi]%list_elem_of_lookup by (apply Hcand; exists c; by rewrite Hin).
        exists i. split; [|done]. apply (moved_stat (sp_candidate s) q us); [done|done|].
        intros j' Hj'. rewrite Hj. f_equal. by eapply list.NoDup_lookup; [apply (r_nodup _ _ _ Hq)|..].
Qed.

End Loop.
