(* ===== verification/OspfSpfRoutes.v ===== *)
(** * OSPF: the entries of the routing tables

    What an area adds to the tables: the destinations of the LSAs of the tree, with their costs and paths, and
    the effect of the operations of OspfRoute.v on tables that hold the destinations seen so far. *)

From stdpp Require Import gmap sorting.
From S2P Require Import Prelude Fault OspfTable OspfLsa OspfLsaProps OspfVertex OspfRoute OspfSpf OspfSpfGraph.
From S2P Require Import OspfSpfRead OspfSpfHops OspfSpfInv.

(** ** Paths *)

Section Paths.
Context {PL : PrefixLib} (oiflist : list ospf_interface).

(** The path of one of the next hops [nhs]. *)
Definition path_of (nhs : list vertex_nexthop) (p : ospf_path) : Prop :=
  ∃ nh i o, nh ∈ nhs ∧ nh_oi nh = Some i ∧ oiflist !! i = Some o ∧ p = mk_path (nh_router nh) 0 (oi_ifindex o).

Definition paths_ok (ps : list ospf_path) : Prop := NoDup ps ∧ ∀ p, p ∈ ps → pa_adv_router p = 0.

Lemma path_exist_spec ps n i : paths_ok ps → ospf_path_exist ps n i = true ↔ mk_path n 0 i ∈ ps.
Proof.
  intros [_ Ha]. unfold ospf_path_exist. rewrite existsb_exists. split.
  - intros ([n' a i'] & Hp%list_elem_of_In & [?%Z.eqb_eq ?%Z.eqb_eq]%andb_true_iff). cbn in *. subst.
    pose proof (Ha _ Hp) as Hz. cbn in Hz. by subst.
  - intros Hp. exists (mk_path n 0 i). rewrite <- list_elem_of_In. cbn. by rewrite !Z.eqb_refl.
Qed.

Lemma paths_ok_snoc ps n i : paths_ok ps → mk_path n 0 i ∉ ps → paths_ok (ps ++ [mk_path n 0 i]).
Proof.
  intros [Hn Ha] Hp. split.
  - apply list.NoDup_app. split_and!; [done|by intros q Hq ->%list_elem_of_singleton|apply list.NoDup_singleton].
  - intros q [Hq| ->%list_elem_of_singleton]%elem_of_app; [by apply Ha|done].
Qed.

Lemma copy_nexthops_spec nhs ps :
  (∀ nh i, nh ∈ nhs → nh_oi nh = Some i → is_Some (oiflist !! i)) → paths_ok ps →
  ∃ ps', copy_nexthops oiflist nhs ps = Some ps' ∧ paths_ok ps' ∧ ∀ p, p ∈ ps' ↔ p ∈ ps ∨ path_of nhs p.
Proof.
  revert ps. induction nhs as [|nh nhs IH]; intros ps Hv Hp; cbn [copy_nexthops].
  { exists ps. split_and!; [done|done|]. intros p. split; [auto|].
    intros [?|(nh & _ & _ & []%elem_of_nil & _)]; done. }
  assert (∃ ps1, copy_nexthop oiflist ps nh = Some ps1 ∧ paths_ok ps1 ∧
    ∀ p, p ∈ ps1 ↔ p ∈ ps ∨ path_of [nh] p) as (ps1 & Hc & Hp1 & Hin1).
  { unfold copy_nexthop. destruct (nh_oi nh) as [i|] eqn:Ei.
    2:{ exists ps. split_and!; [done|done|]. intros p. split; [auto|].
        intros [?|(nh' & i & o & ->%list_elem_of_singleton & ? & _)]; [done|congruence]. }
    destruct (Hv nh i) as [o Ho]; [left|done|]. unfold ifindex. rewrite Ho. cbn.
    assert (∀ p, path_of [nh] p ↔ p = mk_path (nh_router nh) 0 (oi_ifindex o)) as Hone.
    { intros p. split.
      - intros (nh' & i' & o' & ->%list_elem_of_singleton & Hi & Ho' & ->). simplify_eq. done.
      - intros ->. exists nh, i, o. split_and!; [left|done|done|done]. }
    destruct (ospf_path_exist ps _ _) eqn:Ex.
    - apply path_exist_spec in Ex; [|done]. exists ps. split_and!; [done|done|]. intros p. rewrite Hone.
      naive_solver.
    - eexists. split_and!; [done| |].
      + apply paths_ok_snoc; [done|]. intros Hin%path_exist_spec; [congruence|done].
      + intros p. by rewrite Hone, elem_of_app, list_elem_of_singleton. }
  rewrite Hc. cbn. destruct (IH ps1) as (ps' & Hr & Hok & Hin); [|done|].
  { intros nh' i Hnh. apply Hv. by right. }
  exists ps'. split_and!; [done|done|]. intros p. rewrite Hin, Hin1.
  enough (path_of (nh :: nhs) p ↔ path_of [nh] p ∨ path_of nhs p) by tauto. split.
  - intros (nh' & i & o & [->|Hnh]%elem_of_cons & ?); [left|right].
    + exists nh, i, o. split; [left|done].
    + by exists nh', i, o.
  - intros [(nh' & i & o & ->%list_elem_of_singleton & ?)|(nh' & i & o & Hnh & ?)].
    + exists nh, i, o. split; [left|done].
    + exists nh', i, o. split; [by right|done].
Qed.

End Paths.

(** ** Destinations *)

(** The fields of a link to a stub network. *)
Record stub_link := mk_stub { sl_id : Z; sl_data : Z; sl_metric : Z }.

Section Destinations.
Context {RT : Type → Type} `{RouteTableLaws RT} {PL : PrefixLib}.
Context (E : spf_env RT) (h0 : lheap).

(** [b] is the LSA of a network whose prefix has the key [k]. *)
Definition network_key (b : nat) (k : Z) : Prop :=
  ∃ l m, h0 !! b = Some l ∧ h_type (l_data l) = OSPF_NETWORK_LSA ∧ nl_mask (l_body l) = Some m ∧
    k = prefix_key (apply_mask (mk_prefix (h_id (l_data l)) (ip_masklen m))).

(** The router-LSA [b] has a link to a stub network. *)
Definition stub_at (l : ospf_lsa) (p : Z) (x : stub_link) : Prop :=
  lk_type (l_body l) p = Some LSA_LINK_TYPE_STUB ∧ lk_link_id (l_body l) p = Some (sl_id x) ∧
  lk_link_data (l_body l) p = Some (sl_data x) ∧ lk_metric (l_body l) p = Some (sl_metric x).
Definition stub (b : nat) (x : stub_link) : Prop :=
  ∃ l p, h0 !! b = Some l ∧ h_type (l_data l) = OSPF_ROUTER_LSA ∧ p ∈ link_offsets l ∧ stub_at l p x.
Definition stub_prefix (x : stub_link) : prefix := apply_mask (mk_prefix (sl_id x) (ip_masklen (sl_data x))).
Definition stub_key (x : stub_link) : Z := prefix_key (stub_prefix x).

(** A host route to an address of the router. *)
Definition stub_local (x : stub_link) : Prop :=
  sl_data x = 0xffffffff ∧ is_Some (ospf_if_lookup_by_local_addr (e_oiflist E) (sl_id x)).

(** [b] is the LSA of a border router or AS boundary router with the key [k]. *)
Definition border (b : nat) (k flags : Z) : Prop :=
  ∃ l, h0 !! b = Some l ∧ h_type (l_data l) = OSPF_ROUTER_LSA ∧ rl_flags (l_body l) = Some flags ∧
    (CHECK_FLAG flags ROUTER_LSA_BORDER = true ∨ CHECK_FLAG flags ROUTER_LSA_EXTERNAL = true) ∧
    k = prefix_key (mk_prefix (h_id (l_data l)) IPV4_MAX_BITLEN).

(** The path over the interface on the network of a stub link of the router itself. *)
Definition direct_path (x : stub_link) (p : ospf_path) : Prop :=
  ∃ i o, ospf_if_lookup_by_prefix (e_oiflist E) (stub_prefix x) = Some i ∧ e_oiflist E !! i = Some o ∧
    p = mk_path 0 0 (oi_ifindex o).

(** ** Tables *)

(** The tables hold destinations of the LSAs [T] at the distances [dst] with the next hops [hops]; [D] are the
    stub links that have been added. *)
Section Tables.
Context (self : nat) (T : list nat) (dst : nat → Z) (hops : nat → list vertex_nexthop) (D : nat → stub_link → Prop).

Definition dest (b : nat) (k c : Z) : Prop :=
  b ∈ T ∧ (network_key b k ∧ c = dst b ∨ ∃ x, D b x ∧ stub_key x = k ∧ c = dst b + sl_metric x).

Definition dest_path (k c : Z) (p : ospf_path) : Prop :=
  (∃ b, dest b k c ∧ path_of (e_oiflist E) (hops b) p) ∨
  ∃ x, D self x ∧ stub_key x = k ∧ c = dst self + sl_metric x ∧ direct_path x p.

Definition entry_ok (k : Z) (r : ospf_route) : Prop :=
  is_Some (h0 !! or_origin r) ∧ paths_ok (or_paths r) ∧ (∃ b, dest b k (or_cost r)) ∧
  ∀ p, p ∈ or_paths r → dest_path k (or_cost r) p.

Definition has_stub (b : nat) (x : stub_link) (r : ospf_route) : Prop :=
  or_cost r ≤ dst b + sl_metric x ∧
  (or_cost r = dst b + sl_metric x → b ≠ self → ∀ p, path_of (e_oiflist E) (hops b) p → p ∈ or_paths r).

Record table_inv (t : RT ospf_route) : Prop := {
  t_sound k r : rt_info k t = Some r → entry_ok k r;
  t_net b k : b ∈ T → network_key b k → ∃ r, rt_info k t = Some r ∧ or_cost r ≤ dst b;
  t_stub b x : D b x → ¬ stub_local x → ∃ r, rt_info (stub_key x) t = Some r ∧ has_stub b x r
}.

Definition router_entry (b : nat) (flags : Z) (r : ospf_route) : Prop :=
  or_type r = OSPF_DESTINATION_ROUTER ∧ or_origin r = b ∧ or_cost r = dst b ∧ or_flags r = flags ∧
  paths_ok (or_paths r) ∧ ∀ p, p ∈ or_paths r ↔ path_of (e_oiflist E) (hops b) p.

Record rtrs_inv (t : RT (list ospf_route)) : Prop := {
  q_sound k r : r ∈ default [] (rt_info k t) → ∃ b flags, b ∈ T ∧ b ≠ self ∧ border b k flags ∧ router_entry b flags r;
  q_all b k flags : b ∈ T → b ≠ self → border b k flags → ∃ r, r ∈ default [] (rt_info k t) ∧ router_entry b flags r
}.

End Tables.

(** ** More destinations *)

Section More.
Context (self : nat) (dst : nat → Z) (hops : nat → list vertex_nexthop).
Context (T T' : list nat) (D D' : nat → stub_link → Prop).
Hypothesis HT : ∀ b, b ∈ T → b ∈ T'.
Hypothesis HD : ∀ b x, D b x → D' b x.

Lemma dest_more b k c : dest T dst D b k c → dest T' dst D' b k c.
Proof. intros [Hb [?|(x & ? & ?)]]; split; eauto. Qed.

Lemma dest_path_more k c p : dest_path self T dst hops D k c p → dest_path self T' dst hops D' k c p.
Proof.
  intros [(b & Hb & Hp)|(x & Hx & Hrest)]; [left|right].
  - exists b. split; [by apply dest_more|done].
  - exists x. auto.
Qed.

Lemma entry_more k r : entry_ok self T dst hops D k r → entry_ok self T' dst hops D' k r.
Proof.
  intros (E1 & E2 & (b & Hb) & E4). split_and!; [done|done| |].
  - exists b. by apply dest_more.
  - intros p Hp. by apply dest_path_more, E4.
Qed.

(** No new networks, and new links of addresses of the router only. *)
Lemma table_more t :
  (∀ b k, b ∈ T' → network_key b k → b ∈ T) → (∀ b x, D' b x → ¬ stub_local x → D b x) →
  table_inv self T dst hops D t → table_inv self T' dst hops D' t.
Proof.
  intros Hnet Hstub [I1 I2 I3]. split.
  - intros k r Hr. by apply entry_more, I1.
  - intros b k Hb Hk. apply I2; [by eapply Hnet|done].
  - intros b x Hx Hl. apply I3; auto.
Qed.

(** The entry of the key [k] is [r] now. *)
Lemma table_set t t' k r :
  table_inv self T dst hops D t →
  (∀ k', rt_info k' t' = if decide (k = k') then Some r else rt_info k' t) →
  (∀ b k', b ∈ T' → network_key b k' → b ∈ T ∨ k' = k) →
  (∀ b x, D' b x → ¬ stub_local x → D b x ∨ stub_key x = k) →
  entry_ok self T' dst hops D' k r →
  (∀ b, b ∈ T' → network_key b k → or_cost r ≤ dst b) →
  (∀ b x, D' b x → ¬ stub_local x → stub_key x = k → has_stub self dst hops b x r) →
  table_inv self T' dst hops D' t'.
Proof.
  intros [I1 I2 I3] Ht Hnet Hstub Hr Hcn Hcs. split.
  - intros k' r'. rewrite Ht. case_decide as Hk.
    + intros [= <-]. by subst.
    + intros Hr'. by apply entry_more, I1.
  - intros b k' Hb Hk'. rewrite Ht. case_decide as Hk.
    + exists r. split; [done|]. subst. by apply Hcn.
    + destruct (Hnet b k' Hb Hk') as [?|?]; [by apply I2|congruence].
  - intros b x Hx Hl. rewrite Ht. case_decide as Hk.
    + exists r. split; [done|]. by apply Hcs.
    + destruct (Hstub b x Hx Hl) as [?|?]; [by apply I3|congruence].
Qed.

End More.

(** Distances and next hops matter on the tree only. *)
Lemma table_ext self T dst dst' hops hops' D t :
  self ∈ T → (∀ b x, D b x → b ∈ T) → (∀ b, b ∈ T → dst' b = dst b ∧ hops' b = hops b) →
  table_inv self T dst hops D t → table_inv self T dst' hops' D t.
Proof.
  intros Hs HD He [I1 I2 I3].
  assert (∀ b k c, dest T dst D b k c → dest T dst' D b k c) as Hdest.
  { intros b k c [Hb Hc]. split; [done|]. destruct (He b Hb) as [-> _]. done. }
  split.
  - intros k r Hr. destruct (I1 k r Hr) as (E1 & E2 & (b & Hb) & E4). split_and!; [done|done|by eauto|].
    intros p Hp. destruct (E4 p Hp) as [(c & Hc & Hpc)|Hd]; [left|right].
    + exists c. split; [by apply Hdest|]. destruct Hc as [Hc _]. by destruct (He c Hc) as [_ ->].
    + by destruct (He self Hs) as [-> _].
  - intros b k Hb Hk. destruct (He b Hb) as [-> _]. by apply I2.
  - intros b x Hx Hl. destruct (I3 b x Hx Hl) as (r & Hr & Hst). exists r. split; [done|]. unfold has_stub.
    by destruct (He b (HD b x Hx)) as [-> ->].
Qed.

Lemma rtrs_ext self T dst dst' hops hops' t :
  (∀ b, b ∈ T → dst' b = dst b ∧ hops' b = hops b) →
  rtrs_inv self T dst hops t → rtrs_inv self T dst' hops' t.
Proof.
  intros He [Q1 Q2].
  assert (∀ b fl r, b ∈ T → router_entry dst hops b fl r ↔ router_entry dst' hops' b fl r) as Hre.
  { intros b fl r Hb. unfold router_entry. by destruct (He b Hb) as [-> ->]. }
  split.
  - intros k r (b & fl & Hb & Hs & Hk & Hr)%Q1. exists b, fl. by rewrite <- Hre.
  - intros b k fl Hb Hs Hk. destruct (Q2 b k fl Hb Hs Hk) as (r & Hin & Hr). exists r. by rewrite <- Hre.
Qed.

(** ** The operations *)

Section Operations.
Context (self : nat) (dst : nat → Z) (hops : nat → list vertex_nexthop).
Context (h : lheap) (Hh : same_lsas h0 h).

Local Abbreviation oiflist := (e_oiflist E).

(** The vertex of the LSA [l] at [b]. *)
Definition vertex_of (b : nat) (l : ospf_lsa) (v : vertex) : Prop :=
  h0 !! b = Some l ∧ v_lsa v = b ∧ v_id v = h_id (l_data l) ∧ v_distance v = dst b ∧
  vp_nexthop <$> v_parents v = hops b ∧
  ∀ nh i, nh ∈ hops b → nh_oi nh = Some i → is_Some (oiflist !! i).

Lemma copy_run b l v r : vertex_of b l v → paths_ok (or_paths r) →
  ∃ ps, ospf_route_copy_nexthops_from_vertex oiflist r v = Some (r <| or_paths := ps |>) ∧ paths_ok ps ∧
    ∀ p, p ∈ ps ↔ p ∈ or_paths r ∨ path_of oiflist (hops b) p.
Proof.
  intros (_ & _ & _ & _ & V5 & V6) Hp. unfold ospf_route_copy_nexthops_from_vertex. rewrite V5.
  destruct (copy_nexthops_spec oiflist (hops b) (or_paths r) V6 Hp) as (ps & -> & Hok & Hin). cbn. eauto.
Qed.

Lemma origin_run r l : is_Some (h0 !! or_origin r) → ∃ c, origin_cmp h r l = Some c.
Proof.
  intros [o Ho]. unfold origin_cmp. destruct (same_at h0 _ _ _ Hh Ho) as [n ->]. cbn. eauto.
Qed.

Lemma paths_ok_nil : paths_ok [].
Proof. split; [constructor|]. by intros p ?%elem_of_nil. Qed.

Lemma add_transit_run T t b l v n a m :
  vertex_of b l v → h_type (l_data l) = OSPF_NETWORK_LSA → nl_mask (l_body l) = Some m →
  (∀ c, c ∈ T → dst c ≤ dst b) →
  table_inv self T dst hops (λ _ _, False) t →
  ∃ t', ospf_intra_add_transit oiflist h t v (l <| l_stat := n |>) a = Some t' ∧
    table_inv self (T ++ [b]) dst hops (λ _ _, False) t'.
Proof.
  intros Hv Ht Hm Hmax Hinv. pose proof Hv as (V1 & V2 & V3 & V4 & V5 & V6).
  unfold ospf_intra_add_transit. change (l_body (l <| l_stat := n |>)) with (l_body l). rewrite Hm, V3, V4.
  cbn [mbind option_bind]. set (k := prefix_key _).
  assert (network_key b k) as Hk by (exists l, m; done).
  assert (∀ c k', c ∈ T ++ [b] → network_key c k' → c ∈ T ∨ k' = k) as Hnet.
  { intros c k' [?| ->%list_elem_of_singleton]%elem_of_app (l' & m' & Hl' & _ & Hm' & ->); [by left|right].
    unfold k. by simplify_eq. }
  assert (∀ c, c ∈ T ++ [b] → dst c ≤ dst b) as Hmax'.
  { intros c [?| ->%list_elem_of_singleton]%elem_of_app; [by apply Hmax|done]. }
  assert (∀ c, c ∈ T → c ∈ T ++ [b]) as Hsub by (intros c Hc; apply elem_of_app; by left).
  assert (∀ t' r, (∀ k', rt_info k' t' = if decide (k = k') then Some r else rt_info k' t) →
    entry_ok self (T ++ [b]) dst hops (λ _ _, False) k r → (∀ c, c ∈ T ++ [b] → network_key c k → or_cost r ≤ dst c) →
    table_inv self (T ++ [b]) dst hops (λ _ _, False) t') as Hset.
  { intros t' r Ht' Hr Hc. by apply (table_set self dst hops T _ (λ _ _, False) (λ _ _, False) Hsub ltac:(done) t t' k r). }
  assert (∃ keep, (match rt_info k t with
    | Some cur => if dst b >? or_cost cur then Some true else c ← origin_cmp h cur (l <| l_stat := n |>); Some (c >? 0)
    | None => Some false end) = Some keep ∧
    (keep = true → is_Some (rt_info k t)) ∧
    (keep = false → ∀ c, c ∈ T ++ [b] → network_key c k → dst b ≤ dst c)) as (keep & -> & Hk1 & Hk2).
  { destruct (rt_info k t) as [cur|] eqn:Hcur.
    - destruct (t_sound _ _ _ _ _ _ Hinv k cur Hcur) as (O1 & _ & (c0 & _) & _).
      destruct (Z.gtb_spec (dst b) (or_cost cur)) as [Hgt|Hle]; [by exists true; eauto|].
      destruct (origin_run cur (l <| l_stat := n |>) O1) as [c ->]. cbn. eexists. split_and!; [done|by eauto|].
      intros _ c' [Hc'| ->%list_elem_of_singleton]%elem_of_app Hck; [|done].
      destruct (t_net _ _ _ _ _ _ Hinv c' k Hc' Hck) as (r & Hr & Hle'). simplify_eq. lia.
    - exists false. split_and!; [done|done|]. intros _ c' [Hc'| ->%list_elem_of_singleton]%elem_of_app Hck; [|done].
      destruct (t_net _ _ _ _ _ _ Hinv c' k Hc' Hck) as (r & Hr & _). congruence. }
  cbn [mbind option_bind]. destruct keep.
  - exists t. split; [done|]. destruct (Hk1 eq_refl) as [cur Hcur].
    pose proof (t_sound _ _ _ _ _ _ Hinv k cur Hcur) as Hok. apply (Hset t cur).
    + intros k'. case_decide; [by subst|done].
    + eapply entry_more; [..|exact Hok]; done.
    + intros c [Hc| ->%list_elem_of_singleton]%elem_of_app Hck.
      * destruct (t_net _ _ _ _ _ _ Hinv c k Hc Hck) as (r & Hr & Hle). by simplify_eq.
      * destruct Hok as (_ & _ & (c & Hc & [[_ ->]|(x & [] & _)]) & _). by apply Hmax.
  - destruct (copy_run b l v (intra_route a v OSPF_DESTINATION_NETWORK (dst b) 0 0) Hv paths_ok_nil)
      as (ps & -> & Hps & Hin). cbn [mbind option_bind].
    eexists. split; [done|]. eapply Hset; [intros k'; apply rt_info_set| |].
    + assert (dest (T ++ [b]) dst (λ _ _, False) b k (dst b)) as Hd.
      { split; [apply elem_of_app; right; by apply list_elem_of_singleton|]. by left. }
      split_and!; [cbn; rewrite V2; eauto|done|by exists b|]. intros p Hp. cbn in Hp. left. exists b.
      split; [done|]. apply Hin in Hp as [Hp|?]; [by apply elem_of_nil in Hp|done].
    + intros c Hc Hck. cbn. by apply Hk2.
Qed.

(** ** Routers *)

Lemma rtrs_grow T t b : (∀ k flags, ¬ border b k flags) → rtrs_inv self T dst hops t → rtrs_inv self (T ++ [b]) dst hops t.
Proof.
  intros Hb [Q1 Q2]. split.
  - intros k r (c & flags & Hc & Hrest)%Q1. exists c, flags. split; [apply elem_of_app; by left|done].
  - intros c k flags [Hc| ->%list_elem_of_singleton]%elem_of_app Hs Hk; [by apply Q2|by apply Hb in Hk].
Qed.

(** The area keeps its identifier. *)
Definition same_area (a a' : ospf_area) : Prop :=
  ar_area_id a' = ar_area_id a ∧ ar_router_lsa_self a' = ar_router_lsa_self a.

Lemma add_router_run T t b l v n a flags :
  vertex_of b l v → h_type (l_data l) = OSPF_ROUTER_LSA → rl_flags (l_body l) = Some flags → b ≠ self →
  rtrs_inv self T dst hops t →
  ∃ t' a', add_router oiflist t v (l <| l_stat := n |>) a = Some (t', a') ∧ same_area a a' ∧
    rtrs_inv self (T ++ [b]) dst hops t'.
Proof.
  intros Hv Ht Hf Hbs Hinv. pose proof Hv as (V1 & V2 & V3 & V4 & V5 & V6).
  unfold add_router. change (l_body (l <| l_stat := n |>)) with (l_body l). rewrite Hf. cbn [mbind option_bind].
  set (a1 := if CHECK_FLAG flags ROUTER_LSA_SHORTCUT then a else _).
  assert (same_area a a1) as Ha1 by (unfold a1; by destruct (CHECK_FLAG _ _)).
  destruct (negb _ && negb _) eqn:Eb.
  { apply andb_true_iff in Eb as [B1%negb_true_iff B2%negb_true_iff]. exists t, a1. split_and!; [done|done|].
    apply rtrs_grow; [|done]. intros k fl (l' & Hl' & _ & Hfl & Hor & _). simplify_eq. destruct Hor; congruence. }
  set (a2 := if CHECK_FLAG flags ROUTER_LSA_BORDER then _ else a1).
  set (a3 := if CHECK_FLAG flags ROUTER_LSA_EXTERNAL then _ else a2).
  assert (same_area a a3) as Ha3.
  { unfold a3, a2. by destruct (CHECK_FLAG flags ROUTER_LSA_EXTERNAL), (CHECK_FLAG flags ROUTER_LSA_BORDER). }
  destruct (copy_run b l v (intra_route a3 v OSPF_DESTINATION_ROUTER (v_distance v) (h_options (l_data l)) flags) Hv
    paths_ok_nil) as (ps & Hr & Hps & Hin).
  change (l_data (l <| l_stat := n |>)) with (l_data l). rewrite Hr. cbn [mbind option_bind].
  eexists _, a3. split_and!; [done|done|]. rewrite V3. set (k0 := prefix_key _).
  set (r := _ <| or_paths := ps |>).
  assert (border b k0 flags) as Hb.
  { exists l. split_and!; [done|done|done| |done].
    destruct (CHECK_FLAG flags ROUTER_LSA_BORDER), (CHECK_FLAG flags ROUTER_LSA_EXTERNAL); auto; done. }
  assert (router_entry dst hops b flags r) as Hre.
  { unfold r. split_and!; cbn; try done. intros p. rewrite Hin. cbn. rewrite elem_of_nil. tauto. }
  assert (∀ k x, x ∈ default [] (rt_info k (rt_set k0 (Some (default [] (rt_info k0 t) ++ [r])) t)) ↔
    x ∈ default [] (rt_info k t) ∨ k = k0 ∧ x = r) as Hset.
  { intros k x. rewrite rt_info_set. case_decide as Hk.
    - subst k. cbn. rewrite elem_of_app, list_elem_of_singleton. tauto.
    - naive_solver. }
  destruct Hinv as [Q1 Q2]. split.
  - intros k x. rewrite Hset. intros [(c & fl & Hc & Hrest)%Q1|[-> ->]].
    + exists c, fl. split; [apply elem_of_app; by left|done].
    + exists b, flags. split; [apply elem_of_app; right; by apply list_elem_of_singleton|done].
  - intros c k fl [Hc| ->%list_elem_of_singleton]%elem_of_app Hcs Hck.
    + destruct (Q2 c k fl Hc Hcs Hck) as (x & Hx & Hxe). exists x. rewrite Hset. auto.
    + exists r. rewrite Hset. destruct Hck as (l' & Hl' & _ & Hfl & _ & ->). simplify_eq. auto.
Qed.

(** ** Stub networks *)

Definition more_stub (D : nat → stub_link → Prop) (b : nat) (x : stub_link) (c : nat) (y : stub_link) : Prop :=
  D c y ∨ c = b ∧ y = x.

Lemma add_stub_run T D t b l v n a p x pr :
  vertex_of b l v → b ∈ T → stub_at l p x → 0 ≤ dst b + sl_metric x < 2 ^ 32 →
  table_inv self T dst hops D t →
  ∃ t', ospf_intra_add_stub oiflist h t p v (l <| l_stat := n |>) a (bool_decide (b = self)) pr = Some t' ∧
    table_inv self T dst hops (more_stub D b x) t'.
Proof.
  intros Hv Hb (_ & X1 & X2 & X3) Hd Hinv. pose proof Hv as (V1 & V2 & V3 & V4 & V5 & V6).
  unfold ospf_intra_add_stub. change (l_body (l <| l_stat := n |>)) with (l_body l). rewrite X1, X2, X3, V4.
  cbn [mbind option_bind]. rewrite (u32_small (dst b + sl_metric x)) by done.
  fold (stub_prefix x). fold (stub_key x). set (k := stub_key x). set (c := dst b + sl_metric x).
  assert (∀ d y, D d y → more_stub D b x d y) as Hsub by (left; done).
  destruct (pr && _ && _) eqn:El.
  { apply andb_true_iff in El as [[_ L1%Z.eqb_eq]%andb_true_iff L2%bool_decide_eq_true]. exists t. split; [done|].
    apply (table_more self dst hops T T D); [done|done|done| |done].
    intros d y [?|[-> ->]] Hl; [done|]. by destruct Hl. }
  clear El. assert (dest T dst (more_stub D b x) b k c) as Hdest.
  { split; [done|]. right. exists x. split_and!; [by right|done|done]. }
  assert (∀ t' r, (∀ k', rt_info k' t' = if decide (k = k') then Some r else rt_info k' t) →
    is_Some (h0 !! or_origin r) → paths_ok (or_paths r) → (∃ d, dest T dst (more_stub D b x) d k (or_cost r)) →
    (∀ q, q ∈ or_paths r → dest_path self T dst hops (more_stub D b x) k (or_cost r) q) →
    has_stub self dst hops b x r →
    (∀ cur, rt_info k t = Some cur → or_cost r ≤ or_cost cur ∧
      (or_cost r = or_cost cur → ∀ q, q ∈ or_paths cur → q ∈ or_paths r)) →
    table_inv self T dst hops (more_stub D b x) t') as Hset.
  { intros t' r Ht' R1 R2 R3 R4 R5 R6.
    apply (table_set self dst hops T T D (more_stub D b x) ltac:(done) Hsub t t' k r Hinv Ht').
    - auto.
    - intros d y [?|[-> ->]] _; auto.
    - done.
    - intros d Hd' Hdk. destruct (t_net _ _ _ _ _ _ Hinv d k Hd' Hdk) as (cur & Hcur & Hle).
      destruct (R6 cur Hcur). lia.
    - intros d y [Hy|[-> ->]] Hl Hk; [|done].
      destruct (t_stub _ _ _ _ _ _ Hinv d y Hy Hl) as (cur & Hcur & C1 & C2). rewrite Hk in Hcur.
      destruct (R6 cur Hcur) as [R7 R8]. split; [lia|]. intros Heq Hds q Hq. apply R8; [lia|].
      apply C2; [lia|done|done]. }
  destruct (rt_info k t) as [cur|] eqn:Hcur.
  - destruct (t_sound _ _ _ _ _ _ Hinv k cur Hcur) as (O1 & O2 & (d0 & O3) & O4).
    assert (∀ q, q ∈ or_paths cur → dest_path self T dst hops (more_stub D b x) k (or_cost cur) q) as O4'.
    { intros q Hq. eapply dest_path_more; [..|by apply O4]; done. }
    destruct (Z.gtb_spec c (or_cost cur)) as [Hgt|Hle].
    + exists t. split; [done|]. apply (Hset t cur); try done.
      * intros k'. case_decide; [by subst|done].
      * exists d0. eapply dest_more; [..|done]; done.
      * split; [fold c; lia|]. fold c. lia.
      * by intros ? [= <-].
    + destruct (Z.eqb_spec c (or_cost cur)) as [Heq|Hne].
      * destruct (copy_run b l v cur Hv O2) as (ps & -> & Hps & Hin). cbn [mbind option_bind].
        lazymatch goal with |- context [origin_cmp h ?r ?l] => destruct (origin_run r l O1) as [z ->] end.
        cbn [mbind option_bind]. set (r := if z <? 0 then _ else _).
        assert (or_cost r = or_cost cur ∧ or_paths r = ps ∧ is_Some (h0 !! or_origin r)) as (Hr1 & Hr2 & Hr3).
        { unfold r. destruct (z <? 0); split_and!; try done. cbn. rewrite V2. eauto. }
        eexists. split; [done|]. apply (Hset _ r); [intros k'; apply rt_info_set|done|by rewrite Hr2|..].
        -- exists d0. rewrite Hr1. eapply dest_more; [..|done]; done.
        -- intros q. rewrite Hr1, Hr2, Hin. intros [?|?]; [by apply O4'|]. left. exists b. by rewrite <- Heq.
        -- split; [fold c; lia|]. intros _ _ q Hq. rewrite Hr2, Hin. by right.
        -- intros ? [= <-]. split; [lia|]. intros _ q Hq. rewrite Hr2, Hin. by left.
      * destruct (copy_run b l v (cur <| or_cost := c |> <| or_paths := [] |>) Hv) as (ps & -> & Hps & Hin);
          [apply paths_ok_nil|]. cbn [mbind option_bind]. eexists. split; [done|].
        eapply Hset; [intros k'; apply rt_info_set|cbn; rewrite V2; eauto|done|by exists b|..].
        -- intros q Hq. cbn in Hq. apply Hin in Hq as [Hq|Hq]; [by apply elem_of_nil in Hq|]. left. by exists b.
        -- split; [cbn; fold c; lia|]. intros _ _ q Hq. cbn. apply Hin. by right.
        -- intros ? [= <-]. cbn. split; [lia|]. lia.
  - assert (∃ r, (if negb (bool_decide (b = self)) then
        ospf_route_copy_nexthops_from_vertex oiflist (intra_route a v OSPF_DESTINATION_NETWORK c 0 0) v
      else match ospf_if_lookup_by_prefix oiflist (stub_prefix x) with
        | Some oi => i ← ifindex oiflist oi; Some ((intra_route a v OSPF_DESTINATION_NETWORK c 0 0)
            <| or_paths := or_paths (intra_route a v OSPF_DESTINATION_NETWORK c 0 0) ++ [mk_path 0 0 i] |>)
        | None => Some (intra_route a v OSPF_DESTINATION_NETWORK c 0 0) end) = Some r ∧
      or_cost r = c ∧ or_origin r = b ∧ paths_ok (or_paths r) ∧
      (∀ q, q ∈ or_paths r → dest_path self T dst hops (more_stub D b x) k c q) ∧ has_stub self dst hops b x r)
      as (r & -> & Hr1 & Hr2 & Hr3 & Hr4 & Hr5).
    { case_bool_decide as Hbs; cbn [negb].
      - destruct (ospf_if_lookup_by_prefix _ _) as [i|] eqn:Ei.
        + pose proof Ei as (o & Ho & _)%first_if_some. unfold ifindex. rewrite Ho. cbn.
          eexists. split_and!; [done|done|done|..]; cbn.
          * apply (paths_ok_snoc [] 0 (oi_ifindex o) paths_ok_nil). by intros ?%elem_of_nil.
          * intros q ->%list_elem_of_singleton. right. exists x.
            split_and!; [by right|done|unfold c; by rewrite Hbs|]. by exists i, o.
          * split; [cbn; fold c; lia|done].
        + eexists. split_and!; [done|done|done|apply paths_ok_nil|..]; cbn.
          * by intros q ?%elem_of_nil.
          * split; [cbn; fold c; lia|done].
      - destruct (copy_run b l v (intra_route a v OSPF_DESTINATION_NETWORK c 0 0) Hv paths_ok_nil)
          as (ps & -> & Hps & Hin). eexists. split_and!; [done|done|done|done|..].
        + intros q Hq. cbn in Hq. apply Hin in Hq as [Hq|Hq]; [by apply elem_of_nil in Hq|]. left. by exists b.
        + split; [cbn; fold c; lia|]. intros _ _ q Hq. cbn. apply Hin. by right. }
    cbn [mbind option_bind]. eexists. split; [done|].
    apply (Hset _ r); [intros k'; apply rt_info_set|by rewrite Hr2; eauto|done|..].
    + exists b. by rewrite Hr1.
    + by rewrite Hr1.
    + done.
    + done.
Qed.

End Operations.

End Destinations.
