(* ===== verification/OspfSpfTree.v ===== *)
(** * OSPF: adding a vertex to the tree

    The parts of a round behind the choice of the candidate: the children of its parents, the virtual links, the
    entries for border routers and transit networks.  They do not fault, and leave what the algorithm
    depends on. *)

From stdpp Require Import gmap sorting.
From S2P Require Import Prelude Fault OspfTable OspfLsa OspfLsaProps OspfVertex OspfRoute OspfSpf OspfSpfGraph.
From S2P Require Import OspfSpfRead OspfSpfHops OspfQueue OspfSpfInv OspfSpfRun OspfSpfLoop OspfSpfRoutes.

Section Tree.
Context {RT : Type → Type} `{RouteTableLaws RT} {PL : PrefixLib} `{PQueueLaws}.
Context (E : spf_env RT) (h0 : lheap) (vlinks : list ospf_vl_data) (self : nat).
Context (Hwf : area_wf E h0 vlinks self).
Context (backbone : bool).
Context (Hvirtual : backbone = true ∨ ∀ l p, h0 !! self = Some l → p ∈ link_offsets l →
  lk_type (l_body l) p ≠ Some LSA_LINK_TYPE_VIRTUALLINK).

Implicit Types s : spf RT.

Local Abbreviation ainv := (ainv E h0 vlinks self).
Local Abbreviation edges := (edges E h0 self).
Local Abbreviation rep := (rep E h0 vlinks self backbone).
Local Abbreviation rep0 := (rep0 h0 vlinks self backbone).

(** ** The next hops of the vertices *)

Definition parent_ok (b : nat) (vp : vertex_parent) : Prop :=
  hop_ok E (vp_nexthop vp) ∧ (backbone = false → is_Some (nh_oi (vp_nexthop vp))) ∧
  ∀ l n, h0 !! b = Some l → h_type (l_data l) = OSPF_ROUTER_LSA → router_ok l n →
    0 ≤ vp_backlink vp < Z.of_nat n.

Lemma root_hop_ok e h : e ∈ edges self → root_hop E h0 vlinks self e = Some h →
  hop_ok E h ∧ (backbone = false → is_Some (nh_oi h)).
Proof.
  intros He Hh. destruct (self_at E h0 vlinks self Hwf) as (l & k & Hl & Ht & Hk).
  destruct (edge_facts E h0 vlinks self Hwf self l e Hl ltac:(left; eauto) He)
    as (_ & lb & Hlb & Hokb & _ & _ & [(_ & i & n & Hn & Hi & Hlink & _)|(Ht' & _)]); [|by rewrite Ht in Ht'].
  unfold root_hop in Hh. rewrite Hl, Hlb, Hlink in Hh. cbn [mbind option_bind] in Hh.
  destruct (root_nexthop_ok E vlinks (new_vertex self l) l n (new_vertex (e_to e) lb) lb i Hn Hi Hokb eq_refl
    (wf_vlinks _ _ _ _ Hwf)) as (r & Hr & Hok).
  rewrite Hr in Hh. destruct (Hok h Hh) as [Hh1 Hh2]. split; [done|]. intros Hb. apply Hh2.
  destruct Hvirtual as [Hv|Hv]; [congruence|]. apply (Hv l); [done|]. apply (link_offset_elem l n Hn). eauto.
Qed.

Lemma parents_ok A b vp : ainv A → is_Some (a_W A !! b) → vp ∈ a_par A b → parent_ok b vp.
Proof.
  intros HA. apply (par_all E h0 vlinks self Hwf A HA parent_ok). clear b vp.
  intros a e la lb vp Ha He Hla Hlb Hall Hvp.
  destruct (new_parents_cases E h0 vlinks self A a e la lb vp Hla Hlb Hvp) as (_ & Hback & Hhop).
  destruct (edge_at E h0 vlinks self Hwf A HA a e Ha He) as (la' & lb' & Hla' & Hlb' & Hoka & Hokb & _ & Hlead & _).
  assert (la' = la) as -> by congruence. assert (lb' = lb) as -> by congruence.
  assert (hop_ok E (vp_nexthop vp) ∧ (backbone = false → is_Some (nh_oi (vp_nexthop vp)))) as [Hh1 Hh2].
  { destruct Hhop as [[-> Hr]|(u & Hu & Hoi)]; [by apply (root_hop_ok e)|].
    destruct (Hall u Hu) as (U1 & U2 & _). unfold hop_ok in *. by rewrite <- Hoi. }
  split_and!; [done|done|]. intros l n Hl Ht Hn. assert (l = lb) as -> by congruence.
  destruct (has_link_spec lb la Hokb Hoka) as (r & Hr & Hpos & Hlt). rewrite Hback. unfold backlink. rewrite Hr. cbn.
  split; [|by apply Hlt]. by destruct Hpos as [[_ ?]|[? _]].
Qed.

(** ** Children *)

Definition add_child (x : nat) (v : vertex) : vertex :=
  if bool_decide (x ∈ v_children v) then v else v <| v_children := v_children v ++ [x] |>.

Lemma add_child_elem x v y : y ∈ v_children (add_child x v) ↔ y ∈ v_children v ∨ y = x.
Proof.
  unfold add_child. case_bool_decide as Hx; [naive_solver|]. cbn. by rewrite elem_of_app, list_elem_of_singleton.
Qed.

Lemma add_child_nodup x v : NoDup (v_children v) → NoDup (v_children (add_child x v)).
Proof.
  intros Hn. unfold add_child. case_bool_decide as Hx; [done|]. cbn. apply list.NoDup_app.
  split_and!; [done|by intros y Hy ->%list_elem_of_singleton|apply list.NoDup_singleton].
Qed.

Lemma add_child_twice x v : add_child x (add_child x v) = add_child x v.
Proof.
  unfold add_child at 1. rewrite bool_decide_eq_true_2; [done|]. apply add_child_elem. by right.
Qed.

(** [vs'] is [vs] with [x] as a child of the vertices in [ps]. *)
Definition adopted (x : nat) (ps : list nat) (vs vs' : list vertex) : Prop :=
  ∀ y, vs' !! y = (if decide (y ∈ ps) then add_child x else id) <$> vs !! y.

Lemma add_to_parents_run x vps s :
  (∀ vp, vp ∈ vps → is_Some (sp_vertices s !! vp_parent vp)) →
  ∃ vs', add_to_parents x vps s = Some (tt, s <| sp_vertices := vs' |>) ∧
    adopted x (vp_parent <$> vps) (sp_vertices s) vs'.
Proof.
  revert s. induction vps as [|vp vps IH]; intros s Hv; cbn [add_to_parents].
  { exists (sp_vertices s). split; [by destruct s|]. intros y. by destruct (sp_vertices s !! y). }
  destruct (Hv vp) as [v Hvp]; [left|].
  erewrite fbind_run by exact (upd_vtx_run s _ v _ Hvp). fold (add_child x v).
  destruct (IH (s <| sp_vertices := <[vp_parent vp := add_child x v]> (sp_vertices s) |>)) as (vs' & Hrun & Had).
  { intros u Hu. cbn. apply lookup_lt_is_Some. rewrite length_insert. apply lookup_lt_is_Some, Hv. by right. }
  exists vs'. split; [exact Hrun|]. intros y. rewrite (Had y). cbn [fmap list_fmap].
  change (sp_vertices (s <| sp_vertices := <[vp_parent vp := add_child x v]> (sp_vertices s) |>))
    with (<[vp_parent vp := add_child x v]> (sp_vertices s)).
  destruct (decide (vp_parent vp = y)) as [<-|Hne].
  - rewrite list_lookup_insert_eq by (by eapply lookup_lt_Some). rewrite Hvp. cbn.
    rewrite (decide_True (P := vp_parent vp ∈ _ :: _)) by left. case_decide; cbn; [|done]. by rewrite add_child_twice.
  - rewrite list_lookup_insert_ne by done. f_equal.
    destruct (decide (y ∈ vp_parent <$> vps)) as [Hy|Hy].
    + by rewrite decide_True by (by right).
    + rewrite decide_False; [done|]. intros [?|?]%elem_of_cons; congruence.
Qed.

Lemma adopted_at x ps vs vs' y v' : adopted x ps vs vs' → vs' !! y = Some v' →
  ∃ v, vs !! y = Some v ∧ v' = (if decide (y ∈ ps) then add_child x v else v).
Proof.
  intros Ha Hy. rewrite (Ha y) in Hy. destruct (vs !! y) as [v|]; [|done]. cbn in Hy. injection Hy as <-.
  exists v. split; [done|]. by case_decide.
Qed.

Lemma adopted_from x ps vs vs' y v : adopted x ps vs vs' → vs !! y = Some v →
  vs' !! y = Some (if decide (y ∈ ps) then add_child x v else v).
Proof. intros Ha Hy. rewrite (Ha y), Hy. cbn. by case_decide. Qed.

Lemma adopted_cmp x ps vs vs' y z : adopted x ps vs vs' → cmp_in vs y z = cmp_in vs' y z.
Proof.
  intros Ha. unfold cmp_in. rewrite (Ha y), (Ha z). destruct (vs !! y) as [v|], (vs !! z) as [w|]; cbn; try done.
  unfold add_child. repeat case_decide; repeat case_bool_decide; done.
Qed.

Lemma adopted_rep x ps s A vs' : adopted x ps (sp_vertices s) vs' → rep s A → rep (s <| sp_vertices := vs' |>) A.
Proof.
  intros Ha [[R1 R2 R3 R4] [Q1 Q2 Q3 Q4]]. split; split; try done.
  - intros b y Hy. destruct (R3 b y Hy) as (v & Hv & Hrep). eexists. split; [exact (adopted_from _ _ _ _ _ _ Ha Hv)|].
    case_decide; [|done]. unfold add_child. by case_bool_decide.
  - cbn. eapply pq_inv_ext; [|exact Q4]. intros y z _ _. by eapply adopted_cmp.
Qed.

(** The children of a vertex of the tree: the vertices of the tree that have it as a parent. *)
Definition kids (vs : list vertex) (A : astate) : Prop :=
  ∀ a x v, a_W A !! a = Some x → vs !! x = Some v →
    v_flags v = 0 ∧ NoDup (v_children v) ∧
    ∀ y, y ∈ v_children v ↔ ∃ b vp, b ∈ a_T A ∧ a_W A !! b = Some y ∧ vp ∈ a_par A b ∧ vp_parent vp = x.

(** The examination of edges changes neither children nor the tree. *)
Lemma kids_examined s A es s' A' :
  ainv A → rep s A → examined E h0 vlinks self backbone s A es s' A' →
  kids (sp_vertices s) A → kids (sp_vertices s') A'.
Proof.
  intros HA [Hr _] (Hr' & HA' & (HT & _ & Hsame) & _ & _ & [Hlen Hg] & HW) Hk a x v' Ha Hv'.
  specialize (Hg x v' Hv'). destruct (HW a x Ha) as [Ha0|Hx].
  - destruct (r_vertex _ _ _ _ s A Hr a x Ha0) as (v & Hv & _). rewrite Hv in Hg. destruct Hg as [-> ->].
    destruct (Hk a x v Ha0 Hv) as (K1 & K2 & K3). split_and!; [done|done|]. intros y. rewrite (K3 y).
    rewrite HT. split; intros (b & vp & Hb & Hrest); exists b, vp; destruct (Hsame b Hb) as (E1 & _ & E3);
      rewrite ?E1, ?E3 in *; done.
  - rewrite lookup_ge_None_2 in Hg by done. destruct Hg as [-> ->]. split_and!; [done|constructor|].
    intros y. split; [by intros ?%elem_of_nil|]. intros (b & vp & Hb & Hby & Hvp & Hp). exfalso.
    rewrite HT in Hb. destruct (Hsame b Hb) as (E1 & _ & E3). rewrite E3 in Hvp.
    assert (is_Some (a_W A !! b)) as Hbs by (by apply (i_tree _ _ _ _ A HA)).
    destruct (i_hops _ _ _ _ A HA b vp Hbs Hvp) as (c & Hc & Hcp).
    destruct (proj1 (proj2 (i_tree _ _ _ _ A HA)) c Hc) as [z Hz].
    destruct (r_vertex _ _ _ _ s A Hr c z Hz) as (v & Hv & _). apply lookup_lt_Some in Hv.
    rewrite (wx_found A c z Hz) in Hcp. lia.
Qed.

(** A vertex that moves into the tree becomes a child of its parents. *)
Lemma kids_settle vs vs' A b x :
  ainv A → a_W A !! b = Some x → b ∉ a_T A → adopted x (vp_parent <$> a_par A b) vs vs' →
  kids vs A → kids vs' (settle A b).
Proof.
  intros HA Hb Hbt Had Hk a y v' Ha Hv'. cbn in Ha. destruct (adopted_at _ _ _ _ _ _ Had Hv') as (v & Hv & ->).
  destruct (Hk a y v Ha Hv) as (K1 & K2 & K3). cbn [settle a_W a_T a_par].
  set (new := y ∈ vp_parent <$> a_par A b).
  assert (∀ z, z ∈ v_children v ∨ new ∧ z = x ↔ ∃ c vp, c ∈ a_T A ++ [b] ∧ a_W A !! c = Some z ∧
    vp ∈ a_par A c ∧ vp_parent vp = y) as Hch.
  { intros z. rewrite (K3 z). setoid_rewrite elem_of_app. setoid_rewrite list_elem_of_singleton. split.
    - intros [(c & vp & Hc & Hrest)|[Hn ->]]; [by exists c, vp; auto|].
      apply list_elem_of_fmap in Hn as (vp & -> & Hvp). exists b, vp. auto.
    - intros (c & vp & [Hc| ->] & Hz & Hvp & Hp); [left; by exists c, vp|]. right. split; [|congruence].
      apply list_elem_of_fmap. eauto. }
  setoid_rewrite <- Hch. fold new. destruct (decide new) as [Hn|Hn].
  - split_and!; [unfold add_child; by case_bool_decide|by apply add_child_nodup|].
    intros z. rewrite add_child_elem. unfold new. tauto.
  - split_and!; [done|done|]. intros z. unfold new. tauto.
Qed.

(** ** Virtual links *)

(** Only the virtual links change, and other parts of the program are called. *)
Definition vl_changed s s' : Prop :=
  ∃ vls calls, s' = s <| sp_vlinks := vls |> <| sp_calls := calls |> ∧ length vls = length (sp_vlinks s).

Lemma vl_changed_refl s : vl_changed s s.
Proof. exists (sp_vlinks s), (sp_calls s). split; [by destruct s|done]. Qed.

Lemma vl_changed_trans s s' s'' : vl_changed s s' → vl_changed s' s'' → vl_changed s s''.
Proof. intros (v & c & -> & Hv) (v' & c' & -> & Hv'). exists v', c'. split; [done|]. cbn in Hv'. lia. Qed.

Lemma vl_changed_call s c : ∃ s', call c s = Some (tt, s') ∧ vl_changed s s'.
Proof. eexists. split; [done|]. exists (sp_vlinks s). eexists. split; [|done]. by destruct s. Qed.

Lemma set_params_run b l n v d vp vps :
  h0 !! b = Some l → h_type (l_data l) = OSPF_ROUTER_LSA → router_ok l n → v_parents v = vp :: vps →
  parent_ok b vp → backbone = false → ∀ m, ∃ r, ospf_vl_set_params E d v (l <| l_stat := m |>) = Some r.
Proof.
  intros Hl Ht Hn Hv (P1 & P2 & P3) Hb m. destruct (P2 Hb) as [i Hi]. destruct (P1 i Hi) as [o Ho].
  destruct (P3 l n Hl Ht Hn) as [B1 B2].
  unfold ospf_vl_set_params, vl_set_nexthop. rewrite Hv, Hi. cbn [mbind option_bind]. rewrite Ho.
  cbn [mbind option_bind]. destruct (Z.geb_spec (vp_backlink vp) 0); [|lia].
  destruct (link_data_some l n Hn (Z.to_nat (vp_backlink vp)) ltac:(lia)) as [a Ha].
  rewrite Z2Nat.id in Ha by lia. change (l_body (l <| l_stat := m |>)) with (l_body l).
  unfold OSPF_ROUTER_LSA_LINK_SIZE. rewrite Ha. cbn [mbind option_bind]. eauto.
Qed.

Lemma vl_up_check_run b l n v rid m s :
  h0 !! b = Some l → h_type (l_data l) = OSPF_ROUTER_LSA → router_ok l n → v_parents v ≠ [] →
  (∀ vp, vp ∈ v_parents v → parent_ok b vp) → backbone = false →
  ∃ s', ospf_vl_up_check E rid v (l <| l_stat := m |>) s = Some (tt, s') ∧ vl_changed s s'.
Proof.
  intros Hl Ht Hn Hv Hp Hb. destruct (v_parents v) as [|vp vps] eqn:Ev; [done|].
  assert (∀ d, ∃ r, ospf_vl_set_params E d v (l <| l_stat := m |>) = Some r) as Hset.
  { intros d. apply (set_params_run b l n v d vp vps); try done. apply Hp. left. }
  unfold ospf_vl_up_check. erewrite fbind_run by reflexivity.
  assert (∀ k, k ∈ seq 0 (length (sp_vlinks s)) → (k < length (sp_vlinks s))%nat) as Hks
    by (intros k; rewrite elem_of_seq; lia).
  revert Hks. generalize (seq 0 (length (sp_vlinks s))) as ks. intros ks. revert s.
  induction ks as [|k ks IH]; intros s Hks; cbn [vl_up_check_all].
  { exists s. split; [done|]. apply vl_changed_refl. }
  assert (∃ s1, vl_up_check_one E k rid v (l <| l_stat := m |>) s = Some (tt, s1) ∧ vl_changed s s1) as (s1 & Hr1 & Hc1).
  { unfold vl_up_check_one. erewrite fbind_run by reflexivity. change (sp_vlinks (id s)) with (sp_vlinks s).
    destruct (lookup_lt_is_Some_2 (sp_vlinks s) k) as [d Hd]; [apply Hks; left|]. rewrite Hd.
    erewrite fbind_run by reflexivity. destruct (_ && _); [|exists s; split; [done|apply vl_changed_refl]].
    lazymatch goal with |- context [ospf_vl_set_params E ?d v _] => destruct (Hset d) as [r Hr] end.
    assert (∃ s1, (if vl_oi_state d =? ISM_Down then call (Call_ism_interface_up k) else mret tt) s = Some (tt, s1) ∧
      vl_changed s s1) as (s1 & Hrun & Hch).
    { destruct (_ =? _); [apply vl_changed_call|]. exists s. split; [done|apply vl_changed_refl]. }
    erewrite fbind_run by exact Hrun. rewrite Hr. erewrite fbind_run by reflexivity. erewrite fbind_run by reflexivity.
    set (s2 := s1 <| sp_vlinks := <[k := r.1]> (sp_vlinks s1) |>).
    assert (vl_changed s s2) as Hch2.
    { eapply vl_changed_trans; [exact Hch|]. exists (<[k := r.1]> (sp_vlinks s1)), (sp_calls s1).
      split; [by destruct s1|by rewrite length_insert]. }
    destruct (_ && _); [|by exists s2].
    destruct (vl_changed_call s2 Call_router_lsa_update_backbone) as (s3 & Hr3 & Hc3).
    exists s3. split; [exact Hr3|]. by eapply vl_changed_trans. }
  erewrite fbind_run by exact Hr1. destruct (IH s1) as (s2 & Hr2 & Hc2).
  { intros j Hj. destruct Hc1 as (vls & cs & -> & Hlen). cbn. rewrite Hlen. apply Hks. by right. }
  exists s2. split; [done|]. by eapply vl_changed_trans.
Qed.

(** ** Entries *)

Definition hops (A : astate) (b : nat) : list vertex_nexthop := vp_nexthop <$> a_par A b.

Lemma hops_vertex A b l v : ainv A → is_Some (a_W A !! b) → h0 !! b = Some l → vertex_rep h0 A b v →
  vertex_of E h0 (a_dst A) (hops A) b l v.
Proof.
  intros HA Hb Hl (V1 & (l' & Hl' & _ & V2) & V3 & V4). assert (l' = l) as -> by congruence.
  split_and!; [done|done|done|done|by rewrite V4|].
  intros nh i (vp & -> & Hvp)%list_elem_of_fmap. by apply (parents_ok A b vp HA Hb Hvp).
Qed.

Definition routes s A : Prop :=
  table_inv E h0 self (a_T A) (a_dst A) (hops A) (λ _ _, False) (sp_table s) ∧
  rtrs_inv E h0 self (a_T A) (a_dst A) (hops A) (sp_rtrs s).

(** What a round changes besides the tree. *)
Definition frame_routes s s' : Prop :=
  sp_lsas s' = sp_lsas s ∧ sp_vertices s' = sp_vertices s ∧ sp_candidate s' = sp_candidate s ∧ sp_spf s' = sp_spf s ∧
  same_area (sp_area s) (sp_area s') ∧ (backbone = true → sp_vlinks s' = sp_vlinks s).

Lemma frame_routes_rep s s' A : frame_routes s s' → rep s A → rep s' A.
Proof.
  intros (F1 & F2 & F3 & F4 & _ & F6) [[R1 R2 R3 R4] [Q1 Q2 Q3 Q4]]. split; split.
  - by rewrite F1.
  - by rewrite F4.
  - by rewrite F2.
  - intros Hb. by rewrite F6, R4.
  - rewrite F1. unfold stat_ok. rewrite F3. apply Q1.
  - by rewrite F3.
  - by rewrite F3.
  - by rewrite F2, F3.
Qed.

Lemma intra_add_router_run s A b x v l n :
  ainv A → rep s A → a_W A !! b = Some x → b ∈ a_T A → b ≠ self → h0 !! b = Some l →
  h_type (l_data l) = OSPF_ROUTER_LSA → router_ok l n → sp_vertices s !! x = Some v → vertex_rep h0 A b v →
  (backbone = true ↔ ar_area_id (sp_area s) = OSPF_AREA_BACKBONE) →
  ∀ T, a_T A = T ++ [b] →
  table_inv E h0 self T (a_dst A) (hops A) (λ _ _, False) (sp_table s) →
  rtrs_inv E h0 self T (a_dst A) (hops A) (sp_rtrs s) →
  ∃ s', ospf_intra_add_router E x s = Some (tt, s') ∧ frame_routes s s' ∧ routes s' A.
Proof.
  intros HA [Hr Hq] Hb Hbt Hbs Hl Ht Hn Hv Hrep Hbb T HT Htab Hrtr.
  pose proof (hops_vertex A b l v HA ltac:(eauto) Hl Hrep) as Hvo. pose proof Hrep as (V1 & _ & _ & V4).
  destruct (same_at h0 _ _ _ (r_lsas _ _ _ _ s A Hr) Hl) as [m Hm].
  destruct (i_par _ _ _ _ A HA b ltac:(eauto) Hbs) as (_ & Hne & _).
  unfold ospf_intra_add_router. erewrite fbind_run by exact (vtx_run s x v Hv). rewrite V1.
  erewrite fbind_run by exact (lsa_at_run s b _ Hm). erewrite fbind_run by reflexivity.
  assert (∃ s1, (if ar_area_id (sp_area s) !=? OSPF_AREA_BACKBONE then
      ospf_vl_up_check E (h_id (l_data (l <| l_stat := m |>))) v (l <| l_stat := m |>) else mret tt) s = Some (tt, s1) ∧
    vl_changed s s1 ∧ (backbone = true → s1 = s)) as (s1 & Hr1 & Hc1 & Hs1).
  { destruct (Z.eqb_spec (ar_area_id (sp_area s)) OSPF_AREA_BACKBONE) as [Ha|Ha]; cbn [negb].
    - exists s. split_and!; [done|apply vl_changed_refl|done].
    - destruct (vl_up_check_run b l n v (h_id (l_data l)) m s) as (s1 & Hr1 & Hc1); try done.
      + by rewrite V4.
      + intros vp. rewrite V4. intros Hvp. apply (parents_ok A b vp HA ltac:(eauto) Hvp).
      + apply not_true_is_false. by rewrite Hbb.
      + exists s1. split_and!; [done|done|]. intros Hbk. by apply Hbb in Hbk. }
  erewrite fbind_run by exact Hr1. erewrite fbind_run by reflexivity.
  destruct Hc1 as (vls & cs & -> & _). destruct (router_flags_some l n Hn) as [fl Hfl].
  destruct (add_router_run E h0 self (a_dst A) (hops A) T (sp_rtrs s) b l v m (sp_area s) fl) as (t' & a' & Hadd & Ha & Hinv);
    try done.
  change (sp_rtrs (id ?s0)) with (sp_rtrs s). change (sp_area (id ?s0)) with (sp_area s).
  rewrite Hadd. erewrite fbind_run by reflexivity. eexists. split; [done|]. split.
  - split_and!; try done. intros Hbk%Hs1. exact (f_equal sp_vlinks Hbk).
  - split; cbn; rewrite HT; [|done]. eapply table_more; [..|exact Htab]; [|done| |done].
    + intros c Hc. apply elem_of_app. by left.
    + intros c k [?| ->%list_elem_of_singleton]%elem_of_app (l' & ? & Hl' & Ht' & _); [done|].
      simplify_eq. by rewrite Ht in Ht'.
Qed.

Lemma intra_add_transit_run s A b x v l n :
  ainv A → rep s A → a_W A !! b = Some x → a_last A = b → h0 !! b = Some l →
  h_type (l_data l) = OSPF_NETWORK_LSA → network_ok l n → sp_vertices s !! x = Some v → vertex_rep h0 A b v →
  ∀ T, a_T A = T ++ [b] →
  table_inv E h0 self T (a_dst A) (hops A) (λ _ _, False) (sp_table s) →
  rtrs_inv E h0 self T (a_dst A) (hops A) (sp_rtrs s) →
  ∃ s', add_transit E x s = Some (tt, s') ∧ frame_routes s s' ∧ routes s' A.
Proof.
  intros HA [Hr Hq] Hb Hlast Hl Ht Hn Hv Hrep T HT Htab Hrtr.
  pose proof (hops_vertex A b l v HA ltac:(eauto) Hl Hrep) as Hvo. pose proof Hrep as (V1 & _ & _ & V4).
  destruct (same_at h0 _ _ _ (r_lsas _ _ _ _ s A Hr) Hl) as [m Hm].
  unfold add_transit. erewrite fbind_run by exact (vtx_run s x v Hv). rewrite V1.
  erewrite fbind_run by exact (lsa_at_run s b _ Hm). erewrite fbind_run by reflexivity.
  destruct (rd32_some (l_body l) 0) as [mask Hmask]; [lia|destruct Hn as (_ & -> & _); lia|].
  destruct (add_transit_run E h0 self (a_dst A) (hops A) (sp_lsas s) (r_lsas _ _ _ _ s A Hr) T (sp_table s) b l v m
    (sp_area s) mask) as (t' & Hadd & Hinv); try done.
  { intros c Hc. assert (c ∈ a_T A) as Hct by (rewrite HT; apply elem_of_app; by left).
    pose proof (proj1 (i_order _ _ _ _ A HA) c Hct) as Hk. rewrite Hlast in Hk. unfold kle in Hk. lia. }
  change (sp_lsas (id s)) with (sp_lsas s). change (sp_area (id s)) with (sp_area s).
  change (sp_table (id s)) with (sp_table s). rewrite Hadd. erewrite fbind_run by reflexivity.
  eexists. split; [done|]. split; [done|]. split; cbn; rewrite HT; [done|].
  apply rtrs_grow; [|done]. intros k fl (l' & Hl' & Ht' & _). simplify_eq. by rewrite Ht in Ht'.
Qed.

Lemma routes_examined s A es s' A' :
  ainv A → examined E h0 vlinks self backbone s A es s' A' → routes s A → routes s' A'.
Proof.
  intros HA (_ & _ & (HT & _ & Hs) & _ & (_ & _ & _ & F4 & F5 & _) & _) [R1 R2]. unfold routes. rewrite HT, F4, F5.
  assert (∀ b, b ∈ a_T A → a_dst A' b = a_dst A b ∧ hops A' b = hops A b) as He.
  { intros b Hb. destruct (Hs b Hb) as (_ & -> & Hp). unfold hops. by rewrite Hp. }
  split; [|by eapply rtrs_ext]. eapply table_ext; [| |exact He|exact R1]; [|done]. apply (i_self _ _ _ _ A HA).
Qed.

(** ** A round *)

Record linv s A : Prop := {
  l_inv : ainv A;
  l_rep : rep s A;
  l_kids : kids (sp_vertices s) A;
  l_area : backbone = true ↔ ar_area_id (sp_area s) = OSPF_AREA_BACKBONE;
  l_routes : routes s A
}.

(** What the whole calculation does not change. *)
Definition same_self s s' : Prop := sp_spf s' = sp_spf s ∧ same_area (sp_area s) (sp_area s').

Lemma same_self_trans s s' s'' : same_self s s' → same_self s' s'' → same_self s s''.
Proof. intros (A1 & A2 & A3) (B1 & B2 & B3). unfold same_self, same_area. split_and!; congruence. Qed.

Lemma next_step s A :
  linv s A →
  ∃ s' A', ospf_spf_next E (wx A (a_last A)) s = Some (tt, s') ∧ linv s' A' ∧ same_self s s' ∧ a_T A' = a_T A ∧
    a_last A' = a_last A ∧ a_done A' = a_done A ++ ((λ e, (a_last A, e)) <$> edges (a_last A)).
Proof.
  intros [HA HR Hk Ha Hro].
  destruct (spf_next_run E h0 vlinks self Hwf backbone Hvirtual s A HA HR) as (t & s' & A' & Hrun & Hex).
  exists s', A'. split; [done|]. pose proof Hex as (HR' & HA' & (HT & Hl & _) & Hd & (F1 & F2 & _) & _).
  split_and!; [|split; [done|by rewrite F2]|done|done|done]. split.
  - done.
  - done.
  - eapply (kids_examined (s <| sp_area := (sp_area s) <| ar_transit := t |> |>)); [exact HA| |exact Hex|done].
    destruct HR as [[R1 R2 R3 R4] [Q1 Q2 Q3 Q4]]. by split; split.
  - by rewrite F2.
  - eapply routes_examined; [exact HA|exact Hex|done].
Qed.

Lemma settle_step s A (k : nat → fsM (spf RT) unit) :
  linv s A → sp_candidate s ≠ [] →
  ∃ b s', b ∉ a_T A ∧ linv s' (settle A b) ∧ same_self s s' ∧
    (v ← dequeue;
     vv ← vtx v;
     set_stat (v_lsa vv) LSA_SPF_IN_SPFTREE;;
     ospf_vertex_add_parent v;;
     (if v_type vv =? OSPF_VERTEX_ROUTER then ospf_intra_add_router E v else add_transit E v);;
     k v) s = k (wx (settle A b) b) s'.
Proof.
  intros [HA HR Hk Ha [Hro1 Hro2]] Hne.
  destruct (dequeue_run E h0 vlinks self Hwf backbone Hvirtual s A HA HR Hne)
    as (b & x & vv & s1 & s2 & Hdq & Hb & Hvv & V1 & (l & Hl & V2) & Hbt & Hst & HA2 & HR2 & HF & Hvs).
  assert (sp_vertices s2 !! x = Some vv) as Hvv2.
  { clear -Hst Hvv. unfold set_stat, zoom in Hst.
    destruct (upd_lsa _ _ _) as [[[] h']|]; [|done]. by injection Hst as <-. }
  assert (b ≠ self) as Hbs by (intros ->; apply Hbt, (i_self _ _ _ _ A HA)).
  destruct (r_vertex _ _ _ _ s2 _ (proj1 HR2) b x Hb) as (v & Hv & Hrep). assert (v = vv) as -> by congruence.
  pose proof Hrep as (_ & _ & _ & V4).
  assert (∀ vp, vp ∈ v_parents vv → is_Some (sp_vertices s2 !! vp_parent vp)) as Hpar.
  { intros vp. rewrite V4. intros Hvp. destruct (i_hops _ _ _ _ A HA b vp ltac:(eauto) Hvp) as (a & Hat & ->).
    destruct (proj1 (proj2 (i_tree _ _ _ _ A HA)) a Hat) as [y Hy]. rewrite (wx_found A a y Hy).
    destruct (r_vertex _ _ _ _ s2 _ (proj1 HR2) a y Hy) as (va & Hva & _). eauto. }
  destruct (add_to_parents_run x (v_parents vv) s2 Hpar) as (vs' & Hadd & Had).
  set (s3 := s2 <| sp_vertices := vs' |>).
  pose proof (adopted_rep _ _ _ _ _ Had HR2) as HR3. fold s3 in HR3.
  destruct (r_vertex _ _ _ _ s3 _ (proj1 HR3) b x Hb) as (v3 & Hv3 & Hrep3).
  assert (kids (sp_vertices s3) (settle A b)) as Hk3.
  { rewrite Hvs, V4 in Had. exact (kids_settle _ _ A b x HA Hb Hbt Had Hk). }
  destruct HF as (F1 & F2 & F3 & F4 & F5 & F6).
  assert (∃ s4, (if v_type vv =? OSPF_VERTEX_ROUTER then ospf_intra_add_router E x else add_transit E x) s3 = Some (tt, s4) ∧
    frame_routes s3 s4 ∧ routes s4 (settle A b)) as (s4 & Hrun4 & HF4 & Hro4).
  { rewrite V2. destruct (found_at E h0 vlinks self Hwf A HA b ltac:(eauto)) as (l' & Hl' & Hok & _).
    assert (l' = l) as -> by congruence.
    destruct Hok as [[Ht [n Hn]]|[Ht [n Hn]]]; rewrite Ht.
    - change (OSPF_ROUTER_LSA =? OSPF_VERTEX_ROUTER) with true. cbv iota.
      apply (intra_add_router_run s3 (settle A b) b x v3 l n HA2 HR3 Hb) with (T := a_T A); try done.
      + cbn. apply elem_of_app. right. by apply list_elem_of_singleton.
      + unfold s3. cbn. by rewrite F2.
      + unfold s3. cbn. by rewrite F4.
      + unfold s3. cbn. by rewrite F5.
    - change (OSPF_NETWORK_LSA =? OSPF_VERTEX_ROUTER) with false. cbv iota.
      apply (intra_add_transit_run s3 (settle A b) b x v3 l n HA2 HR3 Hb) with (T := a_T A); try done.
      + unfold s3. cbn. by rewrite F4.
      + unfold s3. cbn. by rewrite F5. }
  exists b, s4. split; [done|]. pose proof HF4 as (G1 & G2 & G3 & G4 & G5 & G6). split; [split|].
  - done.
  - by eapply frame_routes_rep.
  - by rewrite G2.
  - destruct G5 as [-> _]. unfold s3. cbn. by rewrite F2.
  - done.
  - split.
    + split; [by rewrite G4|]. unfold s3 in G5. cbn in G5. by rewrite F2 in G5.
    + erewrite fbind_run by exact Hdq. erewrite fbind_run by exact (vtx_run s1 x vv Hvv). rewrite V1.
      erewrite fbind_run by exact Hst. unfold ospf_vertex_add_parent.
      erewrite fbind_run; [|erewrite fbind_run by exact (vtx_run s2 x vv Hvv2); exact Hadd].
      erewrite fbind_run by exact Hrun4. by rewrite (wx_found (settle A b) b x Hb).
Qed.

(** ** All rounds *)

(** The tree is complete: every vertex found is in it, every edge has been examined. *)
Definition finished s A : Prop :=
  linv s A ∧ (∀ b, is_Some (a_W A !! b) → b ∈ a_T A) ∧
  ∀ a e, a ∈ a_T A → e ∈ edges a → (a, e) ∈ a_done A.

(** Every round adds a vertex, and there are no more than LSAs. *)
Lemma spf_loop_run fuel s A :
  linv s A → (∀ a e, a ∈ a_T A → a ≠ a_last A → e ∈ edges a → (a, e) ∈ a_done A) →
  (size h0 < fuel + length (a_T A))%nat →
  ∃ s' A', spf_loop E fuel (wx A (a_last A)) s = Some (tt, s') ∧ finished s' A' ∧ same_self s s'.
Proof.
  revert s A. induction fuel as [|fuel IH]; intros s A HL Hdone Hf.
  { pose proof (tree_le E h0 vlinks self Hwf A (l_inv _ _ HL)). lia. }
  cbn [spf_loop]. destruct (next_step s A HL) as (s1 & A1 & Hrun1 & HL1 & Hs1 & HT & Hlast & Hd).
  erewrite fbind_run by exact Hrun1. erewrite fbind_run by reflexivity.
  assert (∀ a e, a ∈ a_T A1 → e ∈ edges a → (a, e) ∈ a_done A1) as Hdone1.
  { intros a e Hat He. rewrite HT in Hat. rewrite Hd. apply elem_of_app.
    destruct (decide (a = a_last A)) as [->|Hne]; [right|left; by apply Hdone].
    apply list_elem_of_fmap. eauto. }
  destruct (sp_candidate s1) as [|y q] eqn:Eq.
  - exists s1, A1. split; [done|]. split; [|done]. split_and!; [done| |done].
    intros b [x Hx]. destruct (decide (b ∈ a_T A1)) as [|Hbt]; [done|]. exfalso.
    assert (x ∈ sp_candidate s1) as Hin by (apply (r_cand _ _ _ (proj2 (l_rep _ _ HL1))); eauto).
    rewrite Eq in Hin. by apply elem_of_nil in Hin.
  - destruct (settle_step s1 A1 (spf_loop E fuel) HL1 ltac:(by rewrite Eq)) as (b & s2 & Hbt & HL2 & Hs2 & Hrun2).
    destruct (IH s2 (settle A1 b) HL2) as (s3 & A3 & Hrun3 & Hfin & Hs3).
    + cbn. intros a e Hat Hne He. apply Hdone1; [|done].
      by apply elem_of_app in Hat as [?| ->%list_elem_of_singleton].
    + cbn. rewrite length_app, HT. cbn. lia.
    + exists s3, A3. split; [by rewrite Hrun2|]. split; [done|].
      eapply same_self_trans; [exact Hs1|]. by eapply same_self_trans.
Qed.

(** ** The start *)

Definition clean (h : lheap) (b : nat) : Prop := ∀ l, h !! b = Some l → l_stat l = LSA_SPF_NOT_EXPLORED.

Lemma clean_walk_run ks (t : RT nat) h :
  same_lsas h0 h → (∀ k b, rt_info k t = Some b → is_Some (h0 !! b)) →
  ∃ h', clean_walk ks t h = Some (tt, h') ∧ same_lsas h0 h' ∧ (∀ b, clean h b → clean h' b) ∧
    ∀ k b, k ∈ ks → rt_info k t = Some b → clean h' b.
Proof.
  intros Hs Ht. revert h Hs. induction ks as [|k ks IH]; intros h Hs; cbn [clean_walk].
  { exists h. split_and!; [done|done|done|]. by intros k b ?%elem_of_nil. }
  assert (∃ h1, (match rt_info k t with
    | Some p => upd_lsa p (λ l : ospf_lsa, l <| l_stat := LSA_SPF_NOT_EXPLORED |>) | None => mret tt end) h = Some (tt, h1) ∧
    same_lsas h0 h1 ∧ (∀ b, clean h b → clean h1 b) ∧ ∀ b, rt_info k t = Some b → clean h1 b) as (h1 & Hr1 & Hs1 & C1 & C2).
  { destruct (rt_info k t) as [p|] eqn:Ep; [|by exists h].
    destruct (Ht k p Ep) as [l Hl]. destruct (same_at h0 _ _ _ Hs Hl) as [n Hn].
    eexists. split_and!; [exact (upd_lsa_run h p _ _ Hn)|by apply same_upd| |].
    - intros b Hb l' [[<- <-]|[_ Hl']]%lookup_insert_Some; [done|by apply Hb].
    - intros ? [= <-] l'. rewrite lookup_insert_eq. by intros [= <-]. }
  erewrite fbind_run by exact Hr1. destruct (IH h1 Hs1) as (h2 & Hr2 & Hs2 & C3 & C4).
  exists h2. split_and!; [done|done|auto|]. intros j b [->|Hj]%elem_of_cons Hb; eauto.
Qed.

Lemma clean_types_run types h :
  same_lsas h0 h → (∀ i, i ∈ types → 0 ≤ i < 8) →
  ∃ h', clean_types types (e_lsdb E) h = Some (tt, h') ∧ same_lsas h0 h' ∧ (∀ b, clean h b → clean h' b) ∧
    ∀ i k b, i ∈ types → db_info (e_lsdb E) (Z.to_nat i) k = Some b → clean h' b.
Proof.
  revert h. induction types as [|i types IH]; intros h Hs Hi; cbn [clean_types].
  { exists h. split_and!; [done|done|done|]. by intros i k b ?%elem_of_nil. }
  assert (0 ≤ i < 8) as Hi8 by (apply Hi; left).
  destruct (wf_db _ _ _ _ Hwf) as (D1 & D2 & _).
  destruct (lookup_lt_is_Some_2 (db_type (e_lsdb E)) (Z.to_nat i)) as [t Ht]; [lia|].
  assert (ldt (e_lsdb E) i h = Some (t, h)) as Hldt.
  { unfold ldt, of_option. rewrite arr_lookup by lia. by rewrite Ht. }
  erewrite fbind_run by exact Hldt.
  destruct (clean_walk_run (rt_walk (lt_db t)) (lt_db t) h Hs) as (h1 & Hr1 & Hs1 & C1 & C2).
  { intros k b Hb. destruct (D2 _ t Ht) as [T1 _]. destruct (T1 k b Hb) as (l & Hl & _). eauto. }
  erewrite fbind_run by exact Hr1. destruct (IH h1 Hs1) as (h2 & Hr2 & Hs2 & C3 & C4); [intros j Hj; apply Hi; by right|].
  exists h2. split_and!; [done|done|auto|]. intros j k b [->|Hj]%elem_of_cons Hb; [|eauto].
  apply C3. unfold db_info in Hb. rewrite Ht in Hb. apply (C2 k b); [|done]. apply rt_walk_elem. eauto.
Qed.

Lemma clean_stat_run h : same_lsas h0 h →
  ∃ h', ospf_lsdb_clean_stat (e_lsdb E) h = Some (tt, h') ∧ same_lsas h0 h' ∧
    ∀ b, explorable E b → clean h' b.
Proof.
  intros Hs. destruct (clean_types_run lsa_types h Hs) as (h' & Hrun & Hs' & _ & Hc).
  { intros i. unfold lsa_types. rewrite elem_of_seqZ. unfold OSPF_MIN_LSA, OSPF_MAX_LSA. lia. }
  exists h'. split_and!; [done|done|]. intros b (i & k & Hi & Hb). apply (Hc (Z.of_nat i) k b).
  - unfold lsa_types. rewrite elem_of_seqZ. unfold OSPF_MIN_LSA, OSPF_MAX_LSA. lia.
  - by rewrite Nat2Z.id.
Qed.

Definition start : astate := mk_as {[self := O]} [self] (λ _, 0) (λ _, []) [] self.

Lemma start_inv : ainv start.
Proof.
  destruct (wf_self _ _ _ _ Hwf) as (l & Hl & Ht & Hs). destruct (router_lsa_at E h0 vlinks self Hwf _ _ Hs) as [Hex _].
  assert (∀ b, is_Some (a_W start !! b) → b = self) as Honly.
  { intros b [x Hx]. cbn in Hx. by apply lookup_singleton_Some in Hx as [<- _]. }
  assert (self ∈ [self]) as Hin by left.
  split; cbn.
  - rewrite lookup_singleton_eq. by eauto.
  - split_and!; [apply list.NoDup_singleton| |done]. intros a ->%list_elem_of_singleton.
    rewrite lookup_singleton_eq. eauto.
  - by intros b ->%Honly.
  - intros a b x Ha Hb. rewrite (Honly a), (Honly b); [done|by eauto..].
  - by intros a e ?%elem_of_nil.
  - by intros b ->%Honly.
  - by intros b a e _ ?%elem_of_nil.
  - by intros b a e _ ?%elem_of_nil.
  - split; [|by intros b ->%Honly]. intros a ->%list_elem_of_singleton. right. lia.
  - split; [lia|by intros b ->%Honly].
  - intros b ->%Honly. constructor.
  - by intros b vp _ ?%elem_of_nil.
Qed.

(** The states in which a calculation starts. *)
Record at_start s : Prop := {
  st_lsas : same_lsas h0 (sp_lsas s);
  st_vertices : sp_vertices s = [];
  st_vlinks : sp_vlinks s = vlinks;
  st_area : backbone = true ↔ ar_area_id (sp_area s) = OSPF_AREA_BACKBONE;
  st_table k : rt_info k (sp_table s) = None;
  st_rtrs k : rt_info k (sp_rtrs s) = None
}.

Lemma start_linv s l n h :
  at_start s → h0 !! self = Some l → h_type (l_data l) = OSPF_ROUTER_LSA → same_lsas h0 h →
  h !! self = Some (l <| l_stat := LSA_SPF_IN_SPFTREE |>) → (∀ b, b ≠ self → explorable E b → clean h b) →
  linv (s <| sp_lsas := h |> <| sp_candidate := [] |> <| sp_vertices := [new_vertex self l] |> <| sp_spf := O |>
          <| sp_area := (sp_area s) <| ar_abr_count := 0 |> <| ar_asbr_count := 0 |> <| ar_transit := 0 |>
               <| ar_shortcut_capability := n |> |>) start.
Proof.
  intros [S1 S2 S3 S4 S5 S6] Hl Ht Hs Hself Hclean. split; [exact start_inv| | |exact S4|].
  - assert (∀ b x, a_W start !! b = Some x → b = self ∧ x = O) as Honly.
    { intros b x Hx. cbn in Hx. by apply lookup_singleton_Some in Hx as [<- <-]. }
    split; split; cbn; try done.
    + apply lookup_singleton_eq.
    + intros b x [-> ->]%Honly. exists (new_vertex self l). split; [done|]. split_and!; try done. by exists l.
    + intros b l' Hex Hl'. unfold stat_ok. cbn. destruct (decide (b = self)) as [->|Hne].
      * rewrite lookup_singleton_eq, decide_True by left. simplify_eq. done.
      * rewrite lookup_singleton_ne by done. by apply (Hclean b).
    + constructor.
    + intros x. split; [by intros ?%elem_of_nil|]. intros (b & [-> ->]%Honly & Hb). exfalso. apply Hb. left.
    + apply pq_inv_nil.
  - intros a x v Ha Hv. cbn in Ha, Hv. apply lookup_singleton_Some in Ha as [<- <-]. injection Hv as <-. cbn.
    split_and!; [done|constructor|]. intros y. split; [by intros ?%elem_of_nil|].
    by intros (b & vp & _ & _ & ?%elem_of_nil & _).
  - split; cbn; split.
    + intros k r. by rewrite S5.
    + intros b k ->%list_elem_of_singleton (l' & m & Hl' & Ht' & _). simplify_eq. by rewrite Ht in Ht'.
    + done.
    + intros k r. rewrite S6. by intros ?%elem_of_nil.
    + by intros b k fl ->%list_elem_of_singleton.
Qed.

Lemma spf_tree_run s : at_start s →
  ∃ s' A, spf_tree E self s = Some (tt, s') ∧ finished s' A ∧ same_area (sp_area s) (sp_area s').
Proof.
  intros Hst. destruct (wf_self _ _ _ _ Hwf) as (l & Hl & Ht & _).
  destruct (clean_stat_run (sp_lsas s) (st_lsas s Hst)) as (h1 & Hrun1 & Hs1 & Hclean).
  destruct (same_at h0 _ _ _ Hs1 Hl) as [n Hn].
  unfold spf_tree. erewrite fbind_run by exact (zoom_run _ _ _ s _ _ Hrun1).
  erewrite fbind_run by reflexivity.
  set (s1 := s <| sp_lsas := h1 |> <| sp_candidate := [] |>).
  set (s2 := s1 <| sp_vertices := [new_vertex self l] |> <| sp_spf := O |>
               <| sp_area := (sp_area s1) <| ar_abr_count := 0 |> <| ar_asbr_count := 0 |> |>).
  assert (ospf_spf_init self s1 = Some (tt, s2)) as Hinit.
  { unfold ospf_spf_init. erewrite fbind_run.
    2:{ unfold ospf_vertex_new. erewrite fbind_run by exact (lsa_at_run s1 self _ Hn).
        erewrite fbind_run by reflexivity. erewrite fbind_run by reflexivity. reflexivity. }
    change (sp_vertices s1) with (sp_vertices s). rewrite (st_vertices s Hst). done. }
  erewrite fbind_run by exact Hinit. erewrite fbind_run by reflexivity.
  erewrite fbind_run by exact (vtx_run s2 O (new_vertex self l) eq_refl).
  erewrite fbind_run by exact (set_stat_run s2 self _ LSA_SPF_IN_SPFTREE Hn).
  erewrite fbind_run by reflexivity. erewrite fbind_run by reflexivity.
  lazymatch goal with |- ∃ s' A, spf_loop E ?f ?x ?s3 = _ ∧ _ =>
    assert (linv s3 start) as HL; [|destruct (spf_loop_run f s3 start HL) as (s' & A & Hrun & Hfin & Hsame)]
  end.
  - apply (start_linv s l 1 (<[self := l <| l_stat := n |> <| l_stat := LSA_SPF_IN_SPFTREE |>]> h1)); try done.
    + by apply same_upd.
    + apply lookup_insert_eq.
    + intros b Hb Hex l' Hl'. rewrite lookup_insert_ne in Hl' by done. by apply (Hclean b).
  - by intros a e ->%list_elem_of_singleton.
  - pose proof (same_size h0 _ (r_lsas _ _ _ _ _ _ (proj1 (l_rep _ _ HL)))) as Hsize.
    rewrite <- Hsize. cbn. lia.
  - exists s', A. split; [|split; [done|]].
    + rewrite <- Hrun. unfold wx. cbn. by rewrite lookup_singleton_eq.
    + apply Hsame.
Qed.

End Tree.
