(* ===== verification/OspfSpfStubs.v ===== *)
(** * OSPF: the stub networks

    The second stage of the calculation: the recursion over the children reaches every vertex of a finished tree,
    ends, and adds the stub networks of all routers. *)

From stdpp Require Import gmap sorting.
From S2P Require Import Prelude Fault OspfTable OspfLsa OspfLsaProps OspfVertex OspfRoute OspfSpf OspfSpfGraph.
From S2P Require Import OspfSpfRead OspfSpfHops OspfQueue OspfSpfInv OspfSpfRun OspfSpfLoop OspfSpfRoutes OspfSpfTree.

Section Stubs.
Context {RT : Type → Type} `{RouteTableLaws RT} {PL : PrefixLib} `{PQueueLaws}.
Context (E : spf_env RT) (h0 : lheap) (vlinks : list ospf_vl_data) (self : nat).
Context (Hwf : area_wf E h0 vlinks self).
Context (backbone : bool).
Context (Hvirtual : backbone = true ∨ ∀ l p, h0 !! self = Some l → p ∈ link_offsets l →
  lk_type (l_body l) p ≠ Some LSA_LINK_TYPE_VIRTUALLINK).

(** The state after the first stage. *)
Context (s1 : spf RT) (A : astate) (Hfin : finished E h0 vlinks self backbone s1 A).

Implicit Types s : spf RT.

Local Abbreviation ainv := (ainv E h0 vlinks self).
Local Abbreviation T := (a_T A).
Local Abbreviation W := (a_W A).
Local Abbreviation rank := (rank h0 A).

Lemma fin_inv : ainv A.
Proof. apply Hfin. Qed.

Lemma fin_rep : rep E h0 vlinks self backbone s1 A.
Proof. apply Hfin. Qed.

(** ** The order of the tree *)

Definition child (a b : nat) : Prop := a ∈ T ∧ b ∈ T ∧ ∃ vp, vp ∈ a_par A b ∧ vp_parent vp = wx A a.

Lemma in_tree b : b ∈ T → ∃ x, W !! b = Some x.
Proof. intros Hb. by apply (i_tree _ _ _ _ A fin_inv). Qed.

Lemma child_rank a b : child a b → rank a < rank b.
Proof.
  intros (Ha & Hb & vp & Hvp & Hp). apply (parent_rank E h0 vlinks self Hwf A fin_inv a b vp); [done| |done|done].
  by apply in_tree.
Qed.

(** The number of vertices that come behind [b]: a bound of the depth of the recursion. *)
Definition behind (b : nat) : list nat := filter (λ c, rank b < rank c) T.

Lemma behind_child a b : child a b → (length (behind b) < length (behind a))%nat.
Proof.
  intros Hc. pose proof (child_rank a b Hc) as Hr. destruct Hc as (_ & Hb & _).
  destruct (i_tree _ _ _ _ A fin_inv) as (T1 & _).
  enough (length (b :: behind b) ≤ length (behind a))%nat by (cbn in *; lia).
  apply submseteq_length, list.NoDup_submseteq.
  - apply list.NoDup_cons. split; [|by apply list.NoDup_filter]. intros [? _]%list_elem_of_filter. lia.
  - intros c. unfold behind. rewrite elem_of_cons, !list_elem_of_filter. intros [->|[? ?]]; [done|]. split; [lia|done].
Qed.

(** Every vertex descends from the root. *)
Lemma descends b : b ∈ T → rtc child self b.
Proof.
  enough (∀ (n : nat) b, rank b < Z.of_nat n → b ∈ T → rtc child self b) as Hn.
  { intros Hb. apply (Hn (Z.to_nat (rank b + 1))); [|done]. lia. }
  clear b. induction n as [|n IH]; intros b Hr Hb.
  { pose proof (rank_pos E h0 vlinks self Hwf A fin_inv (proj1 (proj2 Hfin)) b (in_tree b Hb)). lia. }
  destruct (decide (b = self)) as [->|Hs]; [constructor|].
  destruct (i_par _ _ _ _ A fin_inv b (in_tree b Hb) Hs) as (_ & Hne & _).
  destruct (a_par A b) as [|vp vps] eqn:Ep; [done|].
  assert (vp ∈ a_par A b) as Hvp by (rewrite Ep; left).
  destruct (i_hops _ _ _ _ A fin_inv b vp (in_tree b Hb) Hvp) as (a & Ha & Hp).
  assert (child a b) as Hc by (split_and!; [done|done|by exists vp]).
  apply rtc_r with a; [|done]. apply IH; [|done]. pose proof (child_rank a b Hc). lia.
Qed.

(** ** The state of the second stage *)

Definition unflag (v : vertex) : vertex := v <| v_flags := 0 |>.

(** [D] are the stub links that have been added. *)
Definition covered (D : nat → stub_link → Prop) (b : nat) : Prop :=
  ∀ c x, rtc child b c → stub h0 c x → D c x.

Record stage s (D : nat → stub_link → Prop) : Prop := {
  g_lsas : sp_lsas s = sp_lsas s1;
  g_spf : sp_spf s = sp_spf s1;
  g_area : sp_area s = sp_area s1;
  g_rtrs : sp_rtrs s = sp_rtrs s1;
  g_vertices y : unflag <$> sp_vertices s !! y = unflag <$> sp_vertices s1 !! y;
  g_table : table_inv E h0 self T (a_dst A) (hops A) D (sp_table s);
  g_stubs b x : D b x → b ∈ T ∧ stub h0 b x;
  g_flags b x v : b ∈ T → W !! b = Some x → sp_vertices s !! x = Some v →
    CHECK_FLAG (v_flags v) OSPF_VERTEX_PROCESSED = true → covered D b
}.

Lemma stage_vertex s D b x : stage s D → b ∈ T → W !! b = Some x →
  ∃ v l, sp_vertices s !! x = Some v ∧ vertex_rep h0 A b v ∧ h0 !! b = Some l ∧ lsa_ok l ∧ v_type v = h_type (l_data l) ∧
    vertex_of E h0 (a_dst A) (hops A) b l v ∧
    ∀ y, y ∈ v_children v ↔ ∃ c, child b c ∧ W !! c = Some y.
Proof.
  intros HS Hb Hx. destruct (r_vertex _ _ _ _ s1 A (proj1 fin_rep) b x Hx) as (v1 & Hv1 & Hrep1).
  pose proof (g_vertices s D HS x) as Hv. rewrite Hv1 in Hv. destruct (sp_vertices s !! x) as [v|]; [|done].
  cbn in Hv. apply (inj Some) in Hv. exists v.
  assert (vertex_rep h0 A b v ∧ v_children v = v_children v1) as [Hrep Hch].
  { destruct v, v1. unfold unflag, set_fld, set_v_flags in Hv. cbn in Hv. by simplify_eq. }
  destruct (found_at E h0 vlinks self Hwf A fin_inv b ltac:(eauto)) as (l & Hl & Hok & _). exists l.
  pose proof Hrep as (_ & (l' & Hl' & Ht & _) & _). assert (l' = l) as -> by congruence.
  split_and!; [done|done|done|done|done| |].
  - apply (hops_vertex E h0 vlinks self Hwf backbone Hvirtual A b l v fin_inv); [by eauto|done|done].
  - intros y. rewrite Hch. destruct Hfin as ([_ _ Hk _ _] & _). destruct (Hk b x v1 Hx Hv1) as (_ & _ & ->).
    split; [intros (c & vp & Hc & Hy & Hvp & Hp)|intros (c & (_ & Hc & vp & Hvp & Hp) & Hy)].
    + exists c. split; [|done]. split_and!; [done|done|]. exists vp. by rewrite (wx_found A b x Hx).
    + exists c, vp. by rewrite (wx_found A b x Hx) in Hp.
Qed.

Lemma covered_more D D' b : (∀ c x, D c x → D' c x) → covered D b → covered D' b.
Proof. intros Hsub Hc c x Hr Hx. by apply Hsub, Hc. Qed.

(** The table gets the entry of a stub link. *)
Lemma stage_table s D D' t :
  stage s D → (∀ c x, D c x → D' c x) → (∀ c x, D' c x → c ∈ T ∧ stub h0 c x) →
  table_inv E h0 self T (a_dst A) (hops A) D' t → stage (s <| sp_table := t |>) D'.
Proof.
  intros [G1 G2 G3 G4 G5 G6 G7 G8] Hsub Hst Ht. split; try done.
  intros b x v Hb Hx Hv Hf. eapply covered_more; [exact Hsub|]. by apply (G8 b x v).
Qed.

Lemma stub_bound b l n i x : b ∈ T → router_ok l n → stub_at l (4 + 12 * Z.of_nat i) x →
  0 ≤ a_dst A b + sl_metric x < 2 ^ 32.
Proof.
  intros Hb (_ & _ & _ & Hbytes & _) (_ & _ & _ & Hm). pose proof (rd16_range _ _ _ Hbytes Hm).
  pose proof (found_dst E h0 vlinks self Hwf A b fin_inv (in_tree b Hb)). lia.
Qed.

(** ** The stub links of a router *)

Lemma stub_links_run fuel s D b x l n i pr :
  stage s D → b ∈ T → W !! b = Some x → h0 !! b = Some l → h_type (l_data l) = OSPF_ROUTER_LSA → router_ok l n →
  (i ≤ n)%nat → (n - i < fuel)%nat →
  ∃ s' D', stub_links E fuel x (4 + 12 * Z.of_nat i) pr s = Some (tt, s') ∧ stage s' D' ∧
    (∀ c y, D c y → D' c y) ∧
    ∀ j y, (i ≤ j < n)%nat → stub_at l (4 + 12 * Z.of_nat j) y → D' b y.
Proof.
  intros HS Hb Hx Hl Ht Hn. revert s D i HS. induction fuel as [|fuel IH]; intros s D i HS Hi Hf; [lia|].
  destruct (stage_vertex s D b x HS Hb Hx) as (v & l' & Hv & (V1 & _) & Hl' & _ & _ & Hvo & _).
  assert (l' = l) as -> by congruence. destruct fin_rep as [Hr _].
  destruct (same_at h0 _ _ _ (r_lsas _ _ _ _ s1 A Hr) Hl) as [m Hm].
  assert (sp_lsas s !! b = Some (l <| l_stat := m |>)) as Hm' by (by rewrite (g_lsas s D HS)).
  cbn [stub_links]. erewrite fbind_run by exact (vtx_run s x v Hv). rewrite V1.
  erewrite fbind_run by exact (lsa_at_run s b _ Hm').
  change (lim (l <| l_stat := m |>)) with (lim l). rewrite (router_lim l n Hn).
  destruct (Z.ltb_spec (4 + 12 * Z.of_nat i) (4 + 12 * Z.of_nat n)) as [Hlt|Hge].
  2:{ exists s, D. split_and!; [done|done|done|]. intros j y Hj. lia. }
  assert (i < n)%nat as Hin by lia. change (l_body (l <| l_stat := m |>)) with (l_body l).
  erewrite fbind_run by exact (of_option_run _ s 0 (link_tos l n Hn i Hin)).
  destruct (link_type_some l n Hn i Hin) as [t Hty]. erewrite fbind_run by exact (of_option_run _ s t Hty).
  assert (∃ s2 D2, (if t =? LSA_LINK_TYPE_STUB then
      s ← gets id;
      t ← of_option (ospf_intra_add_stub (e_oiflist E) (sp_lsas s) (sp_table s) (4 + 12 * Z.of_nat i) v
            (l <| l_stat := m |>) (sp_area s) (bool_decide (x = sp_spf s)) pr);
      modify (λ s, s <| sp_table := t |>) else mret tt) s = Some (tt, s2) ∧ stage s2 D2 ∧
    (∀ c y, D c y → D2 c y) ∧ ∀ y, stub_at l (4 + 12 * Z.of_nat i) y → D2 b y) as (s2 & D2 & Hr2 & HS2 & Hsub2 & Hin2).
  { destruct (Z.eqb_spec t LSA_LINK_TYPE_STUB) as [->|Hne].
    2:{ exists s, D. split_and!; [done|done|done|]. intros y (Hy & _). congruence. }
    destruct (link_id_some l n Hn i Hin) as [a Hid]. destruct (link_data_some l n Hn i Hin) as [d Hd].
    destruct (link_metric_some l n Hn i Hin) as [mt Hmt].
    set (y := mk_stub a d mt). assert (stub_at l (4 + 12 * Z.of_nat i) y) as Hy by (split_and!; done).
    assert (stub h0 b y) as Hst.
    { exists l, (4 + 12 * Z.of_nat i). split_and!; try done. apply (link_offset_elem l n Hn). eauto. }
    assert (bool_decide (x = sp_spf s) = bool_decide (b = self)) as Hroot.
    { apply bool_decide_ext. rewrite (g_spf s D HS). pose proof (r_root _ _ _ _ s1 A Hr) as Hrt. split.
      - intros ->. by apply (i_inj _ _ _ _ A fin_inv b self (sp_spf s1)).
      - intros ->. congruence. }
    destruct (add_stub_run E h0 self (a_dst A) (hops A) (sp_lsas s1) (r_lsas _ _ _ _ s1 A Hr) T D (sp_table s) b l v m
      (sp_area s) (4 + 12 * Z.of_nat i) y pr Hvo Hb Hy (stub_bound b l n i y Hb Hn Hy) (g_table s D HS)) as (t' & Hadd & Hinv).
    erewrite fbind_run by reflexivity. change (id s) with s. rewrite Hroot, (g_lsas s D HS), Hadd.
    erewrite fbind_run by reflexivity. exists (s <| sp_table := t' |>), (more_stub D b y). split; [done|].
    assert (∀ c z, D c z → more_stub D b y c z) as Hmore by (by left). split; [|split; [done|]].
    - eapply stage_table; [exact HS|done| |done]. intros c z [Hz|[-> ->]]; [by apply (g_stubs s D HS)|done].
    - intros z (_ & Z1 & Z2 & Z3). right. split; [done|]. destruct z. cbn in *. unfold y. congruence. }
  erewrite fbind_run by exact Hr2.
  destruct (IH s2 D2 (S i) HS2) as (s3 & D3 & Hr3 & HS3 & Hsub3 & Hin3); [lia|lia|].
  exists s3, D3. unfold OSPF_ROUTER_LSA_LINK_SIZE.
  replace (4 + 12 * Z.of_nat i + (12 + 0 * OSPF_ROUTER_LSA_TOS_SIZE)) with (4 + 12 * Z.of_nat (S i)) by lia.
  split_and!; [done|done|auto|]. intros j y Hj Hy. destruct (decide (j = i)) as [->|Hne]; [by apply Hsub3, Hin2|].
  apply (Hin3 j); [lia|done].
Qed.

(** ** The recursion *)

(** Setting the flag of a vertex below which everything has been added. *)
Lemma stage_flag s D c y v n :
  stage s D → c ∈ T → W !! c = Some y → sp_vertices s !! y = Some v → covered D c →
  stage (s <| sp_vertices := <[y := v <| v_flags := n |>]> (sp_vertices s) |>) D.
Proof.
  intros [G1 G2 G3 G4 G5 G6 G7 G8] Hc Hy Hv Hcov. split; try done.
  - intros z. cbn. destruct (decide (y = z)) as [<-|Hne].
    + rewrite list_lookup_insert_eq by (by eapply lookup_lt_Some). rewrite <- G5, Hv. done.
    + rewrite list_lookup_insert_ne by done. apply G5.
  - cbn. intros b x v' Hb Hx [(<- & _ & _)|[_ Hv']]%list_lookup_insert_Some Hf.
    + by rewrite (i_inj _ _ _ _ A fin_inv b c y).
    + by apply (G8 b x v').
Qed.

(** What a call for the vertex of [b] achieves. *)
Definition processes (fuel : nat) : Prop :=
  ∀ b x s D pr, b ∈ T → W !! b = Some x → stage s D → (length (behind b) < fuel)%nat →
    ∃ s' D', ospf_spf_process_stubs E fuel x pr s = Some (tt, s') ∧ stage s' D' ∧
      (∀ c y, D c y → D' c y) ∧ covered D' b.

Lemma process_children_run fuel b x v cs root s D pr :
  processes fuel → b ∈ T → (length (behind b) < S fuel)%nat →
  (∀ y, y ∈ cs → ∃ c, child b c ∧ W !! c = Some y) → stage s D →
  ∃ s' D', process_children (ospf_spf_process_stubs E fuel) root x v cs pr s = Some (tt, s') ∧ stage s' D' ∧
    (∀ c y, D c y → D' c y) ∧ ∀ c y, y ∈ cs → W !! c = Some y → covered D' c.
Proof.
  intros Hp Hb Hf. revert s D pr. induction cs as [|y cs IH]; intros s D pr Hcs HS; cbn [process_children].
  { exists s, D. split_and!; [done|done|done|]. by intros c y ?%elem_of_nil. }
  destruct (Hcs y) as (c & Hc & Hy); [left|]. pose proof Hc as (_ & Hct & _).
  assert (∀ c' y', y' ∈ y :: cs → W !! c' = Some y' → c' = c ∨ y' ∈ cs) as Hsplit.
  { intros c' y' [->|?]%elem_of_cons Hc'; [|by right]. left. by apply (i_inj _ _ _ _ A fin_inv c' c y). }
  destruct (stage_vertex s D c y HS Hct Hy) as (cv & l & Hcv & _).
  erewrite fbind_run by exact (vtx_run s y cv Hcv).
  destruct (CHECK_FLAG (v_flags cv) OSPF_VERTEX_PROCESSED) eqn:Ef.
  - destruct (IH s D pr) as (s' & D' & Hrun & HS' & Hsub & Hcov); [intros z Hz; apply Hcs; by right|done|].
    exists s', D'. split_and!; [done|done|done|]. intros c' y' Hin Hc'.
    destruct (Hsplit c' y' Hin Hc') as [->|?]; [|by eapply Hcov].
    eapply covered_more; [exact Hsub|]. by apply (g_flags s D HS c y cv).
  - lazymatch goal with |- context [ospf_spf_process_stubs E fuel y ?pr] =>
      destruct (Hp c y s D pr Hct Hy HS) as (s2 & D2 & Hr2 & HS2 & Hsub2 & Hcov2) end.
    { pose proof (behind_child b c Hc). lia. }
    erewrite fbind_run by exact Hr2. destruct (stage_vertex s2 D2 c y HS2 Hct Hy) as (v2 & l2 & Hv2 & _).
    erewrite fbind_run by exact (upd_vtx_run s2 y v2 _ Hv2).
    lazymatch goal with |- context [process_children _ root x v cs ?pr ?s] =>
      destruct (IH s D2 pr) as (s' & D' & Hrun & HS' & Hsub & Hcov) end.
    { intros z Hz. apply Hcs. by right. }
    { by apply (stage_flag s2 D2 c). }
    exists s', D'. split_and!; [done|done|auto|]. intros c' y' Hin Hc'.
    destruct (Hsplit c' y' Hin Hc') as [->|?]; [|by eapply Hcov]. by eapply covered_more.
Qed.

Lemma process_stubs_run fuel : processes fuel.
Proof.
  induction fuel as [|fuel IH]; intros b x s D pr Hb Hx HS Hf; [lia|]. cbn [ospf_spf_process_stubs].
  destruct (stage_vertex s D b x HS Hb Hx) as (v & l & Hv & (V1 & _) & Hl & Hok & Hvt & _ & Hch).
  erewrite fbind_run by exact (vtx_run s x v Hv). rewrite Hvt, V1.
  assert (∃ s2 D2, (if h_type (l_data l) =? OSPF_VERTEX_ROUTER then
      l ← lsa_at b; stub_links E (S (S (length (l_body l)))) x 4 pr else mret tt) s = Some (tt, s2) ∧ stage s2 D2 ∧
    (∀ c y, D c y → D2 c y) ∧ ∀ y, stub h0 b y → D2 b y) as (s2 & D2 & Hr2 & HS2 & Hsub2 & Hin2).
  { destruct Hok as [[Ht [n Hn]]|[Ht [n Hn]]]; rewrite Ht.
    - change (OSPF_ROUTER_LSA =? OSPF_VERTEX_ROUTER) with true. cbv iota.
      destruct (same_at h0 _ _ _ (r_lsas _ _ _ _ s1 A (proj1 fin_rep)) Hl) as [m Hm].
      rewrite <- (g_lsas s D HS) in Hm. erewrite fbind_run by exact (lsa_at_run s b _ Hm).
      change (l_body (l <| l_stat := m |>)) with (l_body l). pose proof Hn as (_ & Hlen & _).
      destruct (stub_links_run (S (S (length (l_body l)))) s D b x l n 0 pr HS Hb Hx Hl Ht Hn)
        as (s2 & D2 & Hrun & HS2 & Hsub & Hin); [lia|lia|].
      exists s2, D2. split_and!; [exact Hrun|done|done|]. intros y (l' & p & Hl' & _ & Hp & Hy).
      assert (l' = l) as -> by congruence. apply (link_offset_elem l n Hn) in Hp as (j & Hj & ->). apply (Hin j); [lia|done].
    - change (OSPF_NETWORK_LSA =? OSPF_VERTEX_ROUTER) with false. cbv iota.
      exists s, D. split_and!; [done|done|done|]. intros y (l' & p & Hl' & Ht' & _). simplify_eq. by rewrite Ht in Ht'. }
  erewrite fbind_run by exact Hr2. erewrite fbind_run by reflexivity.
  destruct (process_children_run fuel b x v (v_children v) (sp_spf s2) s2 D2 pr IH Hb Hf)
    as (s3 & D3 & Hr3 & HS3 & Hsub3 & Hcov3); [intros y; by apply Hch|done|].
  exists s3, D3. split_and!; [done|done|auto|]. intros c y Hrt Hy.
  apply rtc_inv in Hrt as [->|(b' & Hc & Hrt)]; [by apply Hsub3, Hin2|].
  pose proof Hc as (_ & Hb' & _). destruct (in_tree b' Hb') as [z Hz].
  apply (Hcov3 b' z); [apply Hch; eauto|done|done|done].
Qed.

(** All stub links of the tree. *)
Definition tree_stub (b : nat) (x : stub_link) : Prop := b ∈ T ∧ stub h0 b x.

Lemma stage_two : ∃ s' D,
  ospf_spf_process_stubs E (S (length (sp_vertices s1))) (sp_spf s1) false s1 = Some (tt, s') ∧ stage s' D ∧
  ∀ b x, D b x ↔ tree_stub b x.
Proof.
  destruct Hfin as ([HA [Hr _] Hk _ Hro] & Hall & Hdone).
  assert (stage s1 (λ _ _, False)) as HS.
  { split; try done.
    - apply Hro.
    - intros b x v Hb Hx Hv Hf. destruct (Hk b x v Hx Hv) as (Hz & _). by rewrite Hz in Hf. }
  destruct (process_stubs_run (S (length (sp_vertices s1))) self (sp_spf s1) s1 (λ _ _, False) false)
    as (s' & D & Hrun & HS' & _ & Hcov).
  - apply (i_self _ _ _ _ A HA).
  - apply (r_root _ _ _ _ s1 A Hr).
  - done.
  - enough (length (behind self) ≤ length (sp_vertices s1))%nat by lia.
    transitivity (length T); [apply length_filter|].
    rewrite <- (length_fmap (wx A)). rewrite <- (length_seq (length (sp_vertices s1)) 0).
    apply submseteq_length, list.NoDup_submseteq.
    + apply NoDup_fmap_2_strong; [|apply (i_tree _ _ _ _ A HA)]. intros a b Ha Hb.
      by apply (wx_inj E h0 vlinks self A HA).
    + intros y (a & -> & Ha)%list_elem_of_fmap. apply elem_of_seq.
      destruct (in_tree a Ha) as [x Hx]. rewrite (wx_found A a x Hx).
      destruct (r_vertex _ _ _ _ s1 A Hr a x Hx) as (v & Hv & _). apply lookup_lt_Some in Hv. lia.
  - exists s', D. split_and!; [done|done|]. intros b x. split; [apply (g_stubs s' D HS')|].
    intros [Hb Hx]. apply (Hcov b x); [by apply descends|done].
Qed.

End Stubs.
