(* ===== verification/OspfSpfProps.v ===== *)
(** * OSPF: the shortest path calculation is correct

    The theorems on the calculation for an area: the tree of the first stage is that of all shortest paths in
    the graph of the area, with the next hops of RFC 2328, section 16.1.1, and the tables
    have the routes of minimal cost to the networks and to the border routers of the area. *)

From stdpp Require Import gmap sorting.
From S2P Require Import Prelude Fault OspfTable OspfLsa OspfLsaProps OspfVertex OspfRoute OspfSpf OspfSpfGraph.
From S2P Require Import OspfSpfRead OspfSpfHops OspfQueue OspfSpfInv OspfSpfRun OspfSpfLoop OspfSpfRoutes OspfSpfTree.
From S2P Require Import OspfSpfStubs.

Section Props.
Context {RT : Type → Type} `{RouteTableLaws RT} {PL : PrefixLib} `{PQueueLaws}.
Context (E : spf_env RT).

(** ** Assumptions *)

(** A calculation starts with a well-formed area, and with empty tables; the area is the backbone, or
    the router has no virtual link in it. *)
Record spf_ready (self : nat) (s : spf RT) : Prop := {
  rd_wf : area_wf E (sp_lsas s) (sp_vlinks s) self;
  rd_self : ar_router_lsa_self (sp_area s) = Some self;
  rd_virtual : ar_area_id (sp_area s) = OSPF_AREA_BACKBONE ∨
    ∀ l p, sp_lsas s !! self = Some l → p ∈ link_offsets l → lk_type (l_body l) p ≠ Some LSA_LINK_TYPE_VIRTUALLINK;
  rd_vertices : sp_vertices s = [];
  rd_table k : rt_info k (sp_table s) = None;
  rd_rtrs k : rt_info k (sp_rtrs s) = None
}.

Lemma ready_virtual self s : spf_ready self s →
  bool_decide (ar_area_id (sp_area s) = OSPF_AREA_BACKBONE) = true ∨
  ∀ l p, sp_lsas s !! self = Some l → p ∈ link_offsets l → lk_type (l_body l) p ≠ Some LSA_LINK_TYPE_VIRTUALLINK.
Proof. intros Hr. rewrite bool_decide_eq_true. apply (rd_virtual self s Hr). Qed.

Lemma ready_start self s : spf_ready self s →
  at_start (sp_lsas s) (sp_vlinks s) (bool_decide (ar_area_id (sp_area s) = OSPF_AREA_BACKBONE)) s.
Proof. intros [R1 R2 R3 R4 R5 R6]. split; try done. by rewrite bool_decide_eq_true. Qed.

(** ** The tree *)

Section Finished.
Context (h : lheap) (vls : list ospf_vl_data) (self : nat) (Hwf : area_wf E h vls self) (backbone : bool).
Context (s : spf RT) (A : astate) (Hfin : finished E h vls self backbone s A).

Lemma tree_dist b d : spf_dist E h vls self b d ↔ b ∈ a_T A ∧ d = a_dst A b.
Proof.
  destruct Hfin as ([HA _ _ _ _] & Hall & Hdone). split.
  - intros [Hb ->]%(dist_found E h vls self Hwf A HA Hall Hdone). auto.
  - intros [Hb ->]. apply (found_dist E h vls self Hwf A HA Hall Hdone). by apply (i_tree _ _ _ _ A HA).
Qed.

Lemma tree_hops b nh : b ∈ a_T A → nh ∈ hops A b ↔ ∃ a, next_hop E h vls self b a nh.
Proof.
  intros Hb. destruct Hfin as ([HA _ _ _ _] & Hall & Hdone).
  assert (is_Some (a_W A !! b)) as Hs by (by apply (i_tree _ _ _ _ A HA)).
  setoid_rewrite <- (found_hops E h vls self Hwf A HA Hall Hdone b); [|done]. unfold hops. rewrite list_elem_of_fmap. split.
  - intros (vp & -> & Hvp). destruct (i_hops _ _ _ _ A HA b vp Hs Hvp) as (a & Ha & Hp). eauto 6.
  - intros (a & _ & vp & Hvp & _ & <-). eauto.
Qed.

End Finished.

(** The vertices of a tree: [W] gives the place of the vertex of an LSA. *)
Record shortest_path_tree (h : lheap) (vls : list ospf_vl_data) (self : nat) (s : spf RT) (W : gmap nat nat) : Prop := {
  tr_inj a b x : W !! a = Some x → W !! b = Some x → a = b;
  tr_root : W !! self = Some (sp_spf s);
  tr_dist b d : spf_dist E h vls self b d ↔
    ∃ x v, W !! b = Some x ∧ sp_vertices s !! x = Some v ∧ v_lsa v = b ∧ v_distance v = d;
  tr_hops a b x y v nh : W !! a = Some x → W !! b = Some y → sp_vertices s !! y = Some v →
    (∃ vp, vp ∈ v_parents v ∧ vp_parent vp = x ∧ vp_nexthop vp = nh) ↔ next_hop E h vls self b a nh;
  tr_children a b x y v : W !! a = Some x → W !! b = Some y → sp_vertices s !! x = Some v →
    y ∈ v_children v ↔ ∃ nh, next_hop E h vls self b a nh
}.

(** C28: Dijkstra's algorithm, [ospf_spf_calculate] up to the second stage, on the LSAs of an area.  For a
    consistent database with well-formed router-LSAs and network-LSAs (at most 32767 of them) it ends after a round
    for each LSA at most and does not fault; the vertices of the tree are exactly the LSAs that can be
    reached from the router over links that both ends have, at their distances; the parents of a vertex
    with their next hops are exactly those of all its shortest paths; the children are the inverse of that. *)
Theorem spf_tree_spec self s :
  spf_ready self s →
  ∃ s' W, spf_tree E self s = Some (tt, s') ∧ shortest_path_tree (sp_lsas s) (sp_vlinks s) self s' W.
Proof.
  intros Hrd. pose proof (rd_wf self s Hrd) as Hwf.
  destruct (spf_tree_run E _ _ self Hwf _ (ready_virtual self s Hrd) s (ready_start self s Hrd)) as (s' & A & Hrun & Hfin & _).
  exists s', (a_W A). split; [done|]. pose proof Hfin as ([HA [Hr _] Hk _ _] & Hall & Hdone).
  assert (∀ b y v, a_W A !! b = Some y → sp_vertices s' !! y = Some v → vertex_rep (sp_lsas s) A b v) as Hrep.
  { intros b y v Hy Hv. destruct (r_vertex _ _ _ _ s' A Hr b y Hy) as (v' & Hv' & Hb). congruence. }
  assert (∀ a b x nh, a_W A !! a = Some x → is_Some (a_W A !! b) →
    (∃ vp, vp ∈ a_par A b ∧ vp_parent vp = x ∧ vp_nexthop vp = nh) ↔ next_hop E (sp_lsas s) (sp_vlinks s) self b a nh) as Hhops.
  { intros a b x nh Ha Hb. rewrite <- (found_hops E _ _ self Hwf A HA Hall Hdone b a nh Hb), (wx_found A a x Ha).
    split; [|by intros [_ ?]]. intros ?. split; [by apply Hall|done]. }
  split.
  - apply (i_inj _ _ _ _ A HA).
  - apply (r_root _ _ _ _ s' A Hr).
  - intros b d. rewrite (tree_dist _ _ self Hwf _ s' A Hfin). split.
    + intros [Hb ->]. destruct (proj1 (proj2 (i_tree _ _ _ _ A HA)) b Hb) as [x Hx].
      destruct (r_vertex _ _ _ _ s' A Hr b x Hx) as (v & Hv & V1 & _ & V3 & _). eauto 7.
    + intros (x & v & Hx & Hv & _ & <-). split; [apply Hall; eauto|]. by destruct (Hrep b x v Hx Hv) as (_ & _ & V3 & _).
  - intros a b x y v nh Ha Hb Hv. destruct (Hrep b y v Hb Hv) as (_ & _ & _ & ->). apply Hhops; eauto.
  - intros a b x y v Ha Hb Hv. destruct (Hk a x v Ha Hv) as (_ & _ & ->). split.
    + intros (c & vp & _ & Hc & Hvp & Hp). rewrite (i_inj _ _ _ _ A HA c b y Hc Hb) in Hvp.
      exists (vp_nexthop vp). apply (Hhops a b x); eauto.
    + intros [nh Hnh]. apply (Hhops a b x nh Ha) in Hnh as (vp & Hvp & Hp & _); [|eauto].
      exists b, vp. split_and!; [apply Hall; eauto|done|done|done].
Qed.

(** ** The tables *)

Section Tables.
Context (h : lheap) (vls : list ospf_vl_data) (self : nat).

Definition net_dest (k : Z) (b : nat) (c : Z) : Prop := network_key h b k ∧ spf_dist E h vls self b c.
Definition stub_dest (k : Z) (b : nat) (x : stub_link) (c : Z) : Prop :=
  stub h b x ∧ stub_key x = k ∧ ∃ d, spf_dist E h vls self b d ∧ c = d + sl_metric x.

(** A network of the prefix with the key [k] at the cost [c]. *)
Definition area_dest (k : Z) (b : nat) (c : Z) : Prop := net_dest k b c ∨ ∃ x, stub_dest k b x c.

(** The path of a next hop of [b]. *)
Definition hop_path (b : nat) (p : ospf_path) : Prop :=
  ∃ a nh, next_hop E h vls self b a nh ∧ path_of (e_oiflist E) [nh] p.

(** An entry has the cost and only paths of a network of its prefix; there is an entry for each network, of no larger
    cost, and for each stub network that has that cost all its paths.  Host routes to addresses of the router may
    be left out. *)
Record area_routes (t : RT ospf_route) : Prop := {
  ar_entry k r : rt_info k t = Some r →
    NoDup (or_paths r) ∧ (∃ b, area_dest k b (or_cost r)) ∧
    ∀ p, p ∈ or_paths r → (∃ b, area_dest k b (or_cost r) ∧ hop_path b p) ∨
      ∃ x, stub_dest k self x (or_cost r) ∧ direct_path E x p;
  ar_net k b c : net_dest k b c → ∃ r, rt_info k t = Some r ∧ or_cost r ≤ c;
  ar_stub k b x c : stub_dest k b x c → ¬ stub_local E x →
    ∃ r, rt_info k t = Some r ∧ or_cost r ≤ c ∧ (or_cost r = c → b ≠ self → ∀ p, hop_path b p → p ∈ or_paths r)
}.

(** The border routers and AS boundary routers, with all their paths. *)
Definition border_route (k : Z) (r : ospf_route) : Prop :=
  ∃ b flags, b ≠ self ∧ border h b k flags ∧ spf_dist E h vls self b (or_cost r) ∧
    or_type r = OSPF_DESTINATION_ROUTER ∧ or_origin r = b ∧ or_flags r = flags ∧ NoDup (or_paths r) ∧
    ∀ p, p ∈ or_paths r ↔ hop_path b p.

Record border_routes (t : RT (list ospf_route)) : Prop := {
  br_entry k r : r ∈ default [] (rt_info k t) → border_route k r;
  br_all k b flags d : b ≠ self → border h b k flags → spf_dist E h vls self b d →
    ∃ r, r ∈ default [] (rt_info k t) ∧ or_origin r = b
}.

End Tables.

Section Convert.
Context (h : lheap) (vls : list ospf_vl_data) (self : nat) (Hwf : area_wf E h vls self) (backbone : bool).
Context (s : spf RT) (A : astate) (Hfin : finished E h vls self backbone s A).

Lemma convert_path b p : b ∈ a_T A → path_of (e_oiflist E) (hops A b) p ↔ hop_path h vls self b p.
Proof.
  intros Hb. unfold path_of at 1, hop_path. split.
  - intros (nh & i & o & Hnh & Hrest). apply (tree_hops h vls self Hwf backbone s A Hfin) in Hnh as [a Ha]; [|done].
    exists a, nh. split; [done|]. exists nh, i, o. split; [left|done].
  - intros (a & nh & Ha & nh' & i & o & ->%list_elem_of_singleton & Hrest). exists nh, i, o. split; [|done].
    apply (tree_hops h vls self Hwf backbone s A Hfin); eauto.
Qed.

Lemma convert_dest D b k c : (∀ b x, D b x ↔ tree_stub h A b x) →
  dest h (a_T A) (a_dst A) D b k c ↔ area_dest h vls self k b c.
Proof.
  intros HD. pose proof (tree_dist h vls self Hwf backbone s A Hfin) as Hdist. split.
  - intros [Hb [[Hk ->]|(x & [_ Hx]%HD & Hk & ->)]]; [left|right].
    + split; [done|]. by apply Hdist.
    + exists x. split_and!; [done|done|]. exists (a_dst A b). split; [by apply Hdist|done].
  - intros [[Hk [Hb ->]%Hdist]|(x & Hx & Hk & d & [Hb ->]%Hdist & ->)]; split; try done; [by left|right].
    exists x. split_and!; [by apply HD|done|done].
Qed.

Lemma convert_table D t : (∀ b x, D b x ↔ tree_stub h A b x) →
  table_inv E h self (a_T A) (a_dst A) (hops A) D t → area_routes h vls self t.
Proof.
  intros HD [I1 I2 I3]. pose proof (tree_dist h vls self Hwf backbone s A Hfin) as Hdist.
  assert (self ∈ a_T A) as Hself by (destruct Hfin as ([HA _ _ _ _] & _); apply (i_self _ _ _ _ A HA)).
  split.
  - intros k r Hr. destruct (I1 k r Hr) as (_ & [E2 _] & (b & Hb) & E4). split_and!; [done| |].
    + exists b. by apply (convert_dest D).
    + intros p Hp. destruct (E4 p Hp) as [(c & Hc & Hpc)|(x & [_ Hx]%HD & Hk & Hcost & Hd)]; [left|right].
      * exists c. split; [by apply (convert_dest D)|]. destruct Hc as [Hc _]. by apply convert_path.
      * exists x. split; [|done]. split_and!; [done|done|]. exists (a_dst A self). split; [by apply Hdist|done].
  - intros k b c [Hk [Hb ->]%Hdist]. by apply I2.
  - intros k b x c (Hx & <- & d & [Hb ->]%Hdist & ->) Hl.
    destruct (I3 b x) as (r & Hr & C1 & C2); [by apply HD|done|]. exists r. split_and!; [done|done|].
    intros Hc Hs p Hp. apply C2; [done|done|]. by apply convert_path.
Qed.

Lemma convert_rtrs t : rtrs_inv E h self (a_T A) (a_dst A) (hops A) t → border_routes h vls self t.
Proof.
  intros [Q1 Q2]. pose proof (tree_dist h vls self Hwf backbone s A Hfin) as Hdist. split.
  - intros k r (b & fl & Hb & Hs & Hk & R1 & R2 & R3 & R4 & [R5 _] & R6)%Q1. exists b, fl.
    split_and!; try done; [by apply Hdist|]. intros p. rewrite R6. by apply convert_path.
  - intros k b fl d Hs Hk [Hb _]%Hdist. destruct (Q2 b k fl Hb Hs Hk) as (r & Hr & _ & Ho & _). eauto.
Qed.

End Convert.


End Props.

(** ** Witnesses: two routers on a broadcast network *)

Module Example.

(** Prefixes with contiguous masks. *)
Definition masked (p : prefix) : Z := p_addr p / 2 ^ (32 - p_len p) * 2 ^ (32 - p_len p).

#[local] Instance prefixes : PrefixLib := {|
  prefix_match p q := (p_len p <=? p_len q) && (masked p =? masked (mk_prefix (p_addr q) (p_len p)));
  prefix_cmp p q := if (p_len p =? p_len q) && (masked p =? masked q) then 0 else 1;
  prefix_same p q := (p_len p =? p_len q) && (p_addr p =? p_addr q);
  ip_masklen m := 32 - Z.log2_up (2 ^ 32 - m);
  apply_mask p := mk_prefix (masked p) (p_len p)
|}.

Definition ip (a b c d : Z) : list Z := [a; b; c; d].
Definition link (id data : list Z) (type metric : Z) : list Z := id ++ data ++ [type; 0; 0; metric].
Definition an_lsa (type id adv : Z) (body : list Z) : ospf_lsa :=
  mk_lsa 0 (mk_lsah 1 2 type id adv 0x80000001 0 (20 + Z.of_nat (length body))) body (mk_tv 0 0) (mk_tv 0 0) 1 0 0 (-1).

Definition R1 : Z := 0x01010101.
Definition R2 : Z := 0x02020202.
Definition N : Z := 0x0a000001.

(** 1.1.1.1 is the designated router 10.0.0.1 of 10.0.0.0/24; 2.2.2.2 is a border router at 10.0.0.2 with the stub
    network 10.2.0.0/16. *)
Definition lsas : lheap := list_to_map [
  (0%nat, an_lsa OSPF_ROUTER_LSA R1 R1 ([0; 0; 0; 1] ++ link (ip 10 0 0 1) (ip 10 0 0 1) 2 10));
  (1%nat, an_lsa OSPF_NETWORK_LSA N R1 (ip 255 255 255 0 ++ ip 1 1 1 1 ++ ip 2 2 2 2));
  (2%nat, an_lsa OSPF_ROUTER_LSA R2 R2 ([1; 0; 0; 2] ++ link (ip 10 0 0 1) (ip 10 0 0 2) 2 10 ++
                                          link (ip 10 2 0 0) (ip 255 255 0 0) 3 5))].

Definition table (n : Z) (es : list (Z * nat)) : lsdb_type (gmap Z) := mk_ldt n 0 0 (list_to_map es).
Definition db : ospf_lsdb (gmap Z) :=
  mk_lsdb [table 0 []; table 2 [(prefix_ls R1 R1, 0%nat); (prefix_ls R2 R2, 2%nat)]; table 1 [(prefix_ls N R1, 1%nat)];
           table 0 []; table 0 []; table 0 []; table 0 []; table 0 []] 3.

Definition oi : ospf_interface := mk_oi OSPF_IFTYPE_BROADCAST (mk_prefix 0x0a000001 24) (mk_prefix 0x0a000001 24) 3.
Definition env : spf_env (gmap Z) := mk_env (mk_tv 100 0) [oi] db true.
Definition state : spf (gmap Z) := mk_spf lsas [] [] 0 (mk_area 0 0 (Some 0%nat) 0 0 0 0 0) [] ∅ ∅ [].

Definition table_check (h : lheap) (type : Z) (t : lsdb_type (gmap Z)) : bool :=
  forallb (λ '(k, p), match h !! p with
    | Some l => (h_type (l_data l) =? type) && (lsdb_prefix_set l =? k) | None => false end) (map_to_list (lt_db t)) &&
  (lt_count t =? u64 (Z.of_nat (length (rt_entries (lt_db t))))) &&
  (lt_count_self t =? u64 (count_self_of h (rt_entries (lt_db t)))) &&
  (lt_checksum t =? u32 (checksum_of h (rt_entries (lt_db t)))).

Lemma table_check_ok h type t : table_check h type t = true → table_ok h type t.
Proof.
  intros [[[C1 C2%Z.eqb_eq]%andb_true_iff C3%Z.eqb_eq]%andb_true_iff C4%Z.eqb_eq]%andb_true_iff.
  split_and!; [|done|done|done]. intros k p Hk. rewrite forallb_forall in C1.
  specialize (C1 (k, p)). cbn in C1. destruct (h !! p) as [l|].
  - exists l. split; [done|]. apply andb_true_iff in C1 as [?%Z.eqb_eq ?%Z.eqb_eq]; [done|].
    by apply list_elem_of_In, elem_of_map_to_list.
  - discriminate C1. by apply list_elem_of_In, elem_of_map_to_list.
Qed.

Lemma db_is_ok : db_ok lsas db.
Proof.
  split_and!; [done| |reflexivity]. intros i t Ht. apply table_check_ok.
  do 8 (destruct i as [|i]; [injection Ht as <-; reflexivity|]). done.
Qed.

Lemma lsas_at p l : lsas !! p = Some l → lsa_ok l.
Proof.
  intros Hl%elem_of_list_to_map_2. cbn in Hl. unfold lsa_ok.
  repeat (apply elem_of_cons in Hl as [Hl|Hl]; [injection Hl as -> ->|]); [..|by apply elem_of_nil in Hl].
  - left. split; [done|]. exists 1%nat. split_and!; [done|done|done|repeat constructor; lia|].
    intros i Hi. destruct i as [|i]; [|lia]. split; [done|by right].
  - right. split; [done|]. exists 2%nat. done.
  - left. split; [done|]. exists 2%nat. split_and!; [done|done|done|repeat constructor; lia|].
    intros i Hi. destruct i as [|[|i]]; [split; [done|by right]|split; [done|by left]|lia].
Qed.

Lemma state_ready : spf_ready env 0 state.
Proof.
  split; [split|..]; try done.
  - exact db_is_ok.
  - intros b l _. apply lsas_at.
  - eexists. split_and!; reflexivity.
  - by intros d ?%elem_of_nil.
  - by left.
Qed.

Import SortedQueue.

Lemma spf_tree_spec_witness :
  ∃ s' W, spf_tree env 0 state = Some (tt, s') ∧ shortest_path_tree env lsas [] 0 s' W.
Proof. exact (spf_tree_spec env 0 state state_ready). Defined.


End Example.
