(* ===== verification/OspfNbr.v ===== *)
(** * OSPF: an interface, its neighbours and their lists

    The structures of one OSPF interface (ospf/ospf_interface.h), of its neighbours (ospf_neighbor.h) and of the
    neighbours configured for a non-broadcast network (ospfd.h), and the functions of ospf_neighbor.c and ospf_flood.c
    that create, find and delete neighbours and keep the lists of LSAs to request from them and to send them again.
    The neighbours are objects in a memory, like the LSAs; an access to a neighbour that has been
    freed is a fault.  Timers are either set or not; the events that have been scheduled are a queue. *)

From stdpp Require Import gmap.
From S2P Require Import Prelude Fault OspfTable OspfLsa OspfVertex.

(** ** Constants *)

Definition OSPF_IFTYPE_NBMA := 3.
Definition OSPF_IFTYPE_LOOPBACK := 6.

Definition ISM_DependUpon := 0.
Definition ISM_Loopback := 2.
Definition ISM_Waiting := 3.
Definition ISM_PointToPoint := 4.
Definition ISM_DROther := 5.
Definition ISM_Backup := 6.
Definition ISM_DR := 7.

Definition ISM_NoEvent := 0.
Definition ISM_InterfaceUp := 1.
Definition ISM_WaitTimer := 2.
Definition ISM_BackupSeen := 3.
Definition ISM_NeighborChange := 4.
Definition ISM_LoopInd := 5.
Definition ISM_UnloopInd := 6.
Definition ISM_InterfaceDown := 7.

Definition NSM_DependUpon := 0.
Definition NSM_Deleted := 1.
Definition NSM_Down := 2.
Definition NSM_Attempt := 3.
Definition NSM_Init := 4.
Definition NSM_TwoWay := 5.
Definition NSM_ExStart := 6.
Definition NSM_Exchange := 7.
Definition NSM_Loading := 8.
Definition NSM_Full := 9.

Definition NSM_NoEvent := 0.
Definition NSM_PacketReceived := 1.
Definition NSM_Start := 2.
Definition NSM_TwoWayReceived := 3.
Definition NSM_NegotiationDone := 4.
Definition NSM_ExchangeDone := 5.
Definition NSM_BadLSReq := 6.
Definition NSM_LoadingDone := 7.
Definition NSM_AdjOK := 8.
Definition NSM_SeqNumberMismatch := 9.
Definition NSM_OneWayReceived := 10.
Definition NSM_KillNbr := 11.
Definition NSM_InactivityTimer := 12.
Definition NSM_LLDown := 13.

Definition OSPF_DD_FLAG_MS := 0x01.
Definition OSPF_DD_FLAG_M := 0x02.
Definition OSPF_DD_FLAG_I := 0x04.
Definition OSPF_DD_FLAG_ALL := 0x07.

Definition OSPF_OPTION_T := 0x01.
Definition OSPF_OPTION_E := 0x02.
Definition OSPF_OPTION_NP := 0x08.

Definition OSPF_AREA_DEFAULT := 0.
Definition OSPF_AREA_STUB := 1.
Definition OSPF_AREA_NSSA := 2.

Definition OSPF_HEADER_SIZE := 24.
Definition OSPF_DB_DESC_MIN_SIZE := 8.
Definition OSPF_LS_REQ_MIN_SIZE := 0.
Definition OSPF_LS_UPD_MIN_SIZE := 4.
Definition IP_HEADER_SIZE := 20.
Definition OSPF_ALLSPFROUTERS := 0xe0000005.
Definition OSPF_ALLDROUTERS := 0xe0000006.
Definition OSPF_MAX_PACKET_SIZE := 65535.

(** ** Packets *)

(** [struct ospf_hello], with the list of the neighbours behind it. *)
Record ospf_hello := mk_hello {
  he_network_mask : Z;
  he_hello_interval : Z;
  he_options : Z;
  he_priority : Z;
  he_dead_interval : Z;
  he_d_router : Z;
  he_bd_router : Z;
  he_neighbors : list Z
}.

(** [struct ospf_db_desc], with the headers behind it and the number of bytes behind the last
    whole header. *)
Record ospf_db_desc := mk_dd {
  dd_mtu : Z;
  dd_options : Z;
  dd_flags : Z;
  dd_seqnum : Z;
  dd_headers : list lsa_header;
  dd_slack : Z
}.

(** The type, id and advertising router of a requested LSA. *)
Definition lsa_key : Type := Z * Z * Z.

Inductive ospf_body :=
  | B_hello (h : ospf_hello)
  | B_db_desc (d : ospf_db_desc)
  | B_ls_req (ks : list lsa_key)
  | B_ls_upd (ls : list (lsa_header * list Z)).

(** [struct ospf_packet]: the destination and the contents behind the OSPF header. *)
Record ospf_packet := mk_op { op_dst : Z; op_body : ospf_body }.

(** ** Neighbours *)

(** The thread of the request timer is a timer or an event that runs as soon as possible. *)
Inductive req_thread := T_null | T_timer | T_event.

Section Types.
Context {RT : Type → Type}.

(** [struct ospf_neighbor]; the three parts of [last_recv] are fields, the address is [n_address] with [n_prefixlen]. *)
Record ospf_neighbor := mk_nbr {
  n_state : Z;
  n_dd_flags : Z;
  n_dd_seqnum : Z;
  n_address : Z;
  n_prefixlen : Z;
  n_src : Z;
  n_router_id : Z;
  n_options : Z;
  n_priority : Z;
  n_d_router : Z;
  n_bd_router : Z;
  n_last_send : option ospf_packet;
  n_last_send_ts : timeval;
  n_recv_options : Z;
  n_recv_flags : Z;
  n_recv_seqnum : Z;
  n_ls_rxmt : ospf_lsdb RT;
  n_db_sum : ospf_lsdb RT;
  n_ls_req : ospf_lsdb RT;
  n_ls_req_last : option nat;
  n_crypt_seqnum : Z;
  n_v_inactivity : Z;
  n_t_inactivity : bool;
  n_t_db_desc : bool;
  n_t_ls_req : req_thread;
  n_t_ls_upd : bool;
  n_t_hello_reply : bool;
  n_nbr_nbma : option nat;
  n_state_change : Z
}.

(** [struct ospf_nbr_nbma]; [nb_oi]: whether it is attached to the interface. *)
Record ospf_nbr_nbma := mk_nbma {
  nb_addr : Z;
  nb_oi : bool;
  nb_nbr : option nat;
  nb_priority : Z;
  nb_v_poll : Z;
  nb_t_poll : bool;
  nb_state_change : Z
}.

(** An event of the interface, an event of a neighbour, the request timer run as an event, and the
    event that sends the queued updates. *)
Inductive ospf_event :=
  | Ev_ism (e : Z)
  | Ev_nsm (p : nat) (e : Z)
  | Ev_ls_req (p : nat)
  | Ev_ls_upd.

(** Calls of functions that are not modelled. *)
Inductive adj_call :=
  | Call_if_set_multicast
  | Call_check_abr_status
  | Call_schedule_abr_task
  | Call_external_lsa_refresh
  | Call_router_lsa_update_area
  | Call_router_lsa_update_vl_area
  | Call_network_lsa_update
  | Call_lsa_flush_area (p : nat).

(** [struct ospf_interface], with the parts of the area and of the OSPF instance the functions use:
    [w_lsas] is the memory of the LSAs, [w_nbr] that of the neighbours, [w_nbma] that of the configured neighbours,
    which are in the table [w_nbr_nbma]; [w_full_vls] is the counter of the transit area of a virtual link,
    if that area exists; [w_obuf] is the output queue, if there is one. *)
Record ospf_world := mk_world {
  w_lsas : lheap;
  w_area_lsdb : ospf_lsdb RT;
  w_as_lsdb : ospf_lsdb RT;
  w_nbr : gmap nat ospf_neighbor;
  w_nbma : gmap nat ospf_nbr_nbma;
  w_nbr_nbma : RT nat;
  w_if_nbma : list nat;
  w_type : Z;
  w_state : Z;
  w_nbrs : RT nat;
  w_nbr_self : nat;
  w_full_nbrs : Z;
  w_area_full_nbrs : Z;
  w_act_ints : Z;
  w_full_vls : option Z;
  w_state_change : Z;
  w_crypt_seqnum : Z;
  w_v_ls_ack : Z;
  w_t_hello : bool;
  w_t_wait : bool;
  w_t_ls_ack : bool;
  w_network_lsa_self : option nat;
  w_ls_ack : list nat;
  w_ls_upd_queue : RT (list nat);
  w_t_ls_upd_event : bool;
  w_obuf : option (list ospf_packet);
  w_events : list ospf_event;
  w_calls : list adj_call
}.
Definition eta_ospf_neighbor (n : ospf_neighbor) : ospf_neighbor :=
  mk_nbr (n_state n) (n_dd_flags n) (n_dd_seqnum n) (n_address n) (n_prefixlen n) (n_src n) (n_router_id n)
    (n_options n) (n_priority n) (n_d_router n) (n_bd_router n) (n_last_send n) (n_last_send_ts n)
    (n_recv_options n) (n_recv_flags n) (n_recv_seqnum n) (n_ls_rxmt n) (n_db_sum n) (n_ls_req n)
    (n_ls_req_last n) (n_crypt_seqnum n) (n_v_inactivity n) (n_t_inactivity n) (n_t_db_desc n)
    (n_t_ls_req n) (n_t_ls_upd n) (n_t_hello_reply n) (n_nbr_nbma n) (n_state_change n).

#[export] Instance set_n_state : Settable n_state := ltac:(mk_setter eta_ospf_neighbor).
#[export] Instance set_n_dd_flags : Settable n_dd_flags := ltac:(mk_setter eta_ospf_neighbor).
#[export] Instance set_n_dd_seqnum : Settable n_dd_seqnum := ltac:(mk_setter eta_ospf_neighbor).
#[export] Instance set_n_address : Settable n_address := ltac:(mk_setter eta_ospf_neighbor).
#[export] Instance set_n_prefixlen : Settable n_prefixlen := ltac:(mk_setter eta_ospf_neighbor).
#[export] Instance set_n_src : Settable n_src := ltac:(mk_setter eta_ospf_neighbor).
#[export] Instance set_n_router_id : Settable n_router_id := ltac:(mk_setter eta_ospf_neighbor).
#[export] Instance set_n_options : Settable n_options := ltac:(mk_setter eta_ospf_neighbor).
#[export] Instance set_n_priority : Settable n_priority := ltac:(mk_setter eta_ospf_neighbor).
#[export] Instance set_n_d_router : Settable n_d_router := ltac:(mk_setter eta_ospf_neighbor).
#[export] Instance set_n_bd_router : Settable n_bd_router := ltac:(mk_setter eta_ospf_neighbor).
#[export] Instance set_n_last_send : Settable n_last_send := ltac:(mk_setter eta_ospf_neighbor).
#[export] Instance set_n_last_send_ts : Settable n_last_send_ts := ltac:(mk_setter eta_ospf_neighbor).
#[export] Instance set_n_recv_options : Settable n_recv_options := ltac:(mk_setter eta_ospf_neighbor).
#[export] Instance set_n_recv_flags : Settable n_recv_flags := ltac:(mk_setter eta_ospf_neighbor).
#[export] Instance set_n_recv_seqnum : Settable n_recv_seqnum := ltac:(mk_setter eta_ospf_neighbor).
#[export] Instance set_n_ls_rxmt : Settable n_ls_rxmt := ltac:(mk_setter eta_ospf_neighbor).
#[export] Instance set_n_db_sum : Settable n_db_sum := ltac:(mk_setter eta_ospf_neighbor).
#[export] Instance set_n_ls_req : Settable n_ls_req := ltac:(mk_setter eta_ospf_neighbor).
#[export] Instance set_n_ls_req_last : Settable n_ls_req_last := ltac:(mk_setter eta_ospf_neighbor).
#[export] Instance set_n_crypt_seqnum : Settable n_crypt_seqnum := ltac:(mk_setter eta_ospf_neighbor).
#[export] Instance set_n_v_inactivity : Settable n_v_inactivity := ltac:(mk_setter eta_ospf_neighbor).
#[export] Instance set_n_t_inactivity : Settable n_t_inactivity := ltac:(mk_setter eta_ospf_neighbor).
#[export] Instance set_n_t_db_desc : Settable n_t_db_desc := ltac:(mk_setter eta_ospf_neighbor).
#[export] Instance set_n_t_ls_req : Settable n_t_ls_req := ltac:(mk_setter eta_ospf_neighbor).
#[export] Instance set_n_t_ls_upd : Settable n_t_ls_upd := ltac:(mk_setter eta_ospf_neighbor).
#[export] Instance set_n_t_hello_reply : Settable n_t_hello_reply := ltac:(mk_setter eta_ospf_neighbor).
#[export] Instance set_n_nbr_nbma : Settable n_nbr_nbma := ltac:(mk_setter eta_ospf_neighbor).
#[export] Instance set_n_state_change : Settable n_state_change := ltac:(mk_setter eta_ospf_neighbor).

Definition eta_ospf_nbr_nbma (b : ospf_nbr_nbma) : ospf_nbr_nbma :=
  mk_nbma (nb_addr b) (nb_oi b) (nb_nbr b) (nb_priority b) (nb_v_poll b) (nb_t_poll b) (nb_state_change b).

#[export] Instance set_nb_addr : Settable nb_addr := ltac:(mk_setter eta_ospf_nbr_nbma).
#[export] Instance set_nb_oi : Settable nb_oi := ltac:(mk_setter eta_ospf_nbr_nbma).
#[export] Instance set_nb_nbr : Settable nb_nbr := ltac:(mk_setter eta_ospf_nbr_nbma).
#[export] Instance set_nb_priority : Settable nb_priority := ltac:(mk_setter eta_ospf_nbr_nbma).
#[export] Instance set_nb_v_poll : Settable nb_v_poll := ltac:(mk_setter eta_ospf_nbr_nbma).
#[export] Instance set_nb_t_poll : Settable nb_t_poll := ltac:(mk_setter eta_ospf_nbr_nbma).
#[export] Instance set_nb_state_change : Settable nb_state_change := ltac:(mk_setter eta_ospf_nbr_nbma).

Definition eta_ospf_world (w : ospf_world) : ospf_world :=
  mk_world (w_lsas w) (w_area_lsdb w) (w_as_lsdb w) (w_nbr w) (w_nbma w) (w_nbr_nbma w) (w_if_nbma w)
    (w_type w) (w_state w) (w_nbrs w) (w_nbr_self w) (w_full_nbrs w) (w_area_full_nbrs w) (w_act_ints w)
    (w_full_vls w) (w_state_change w) (w_crypt_seqnum w) (w_v_ls_ack w) (w_t_hello w) (w_t_wait w)
    (w_t_ls_ack w) (w_network_lsa_self w) (w_ls_ack w) (w_ls_upd_queue w) (w_t_ls_upd_event w) (w_obuf w) (w_events w) (w_calls w).

#[export] Instance set_w_lsas : Settable w_lsas := ltac:(mk_setter eta_ospf_world).
#[export] Instance set_w_area_lsdb : Settable w_area_lsdb := ltac:(mk_setter eta_ospf_world).
#[export] Instance set_w_as_lsdb : Settable w_as_lsdb := ltac:(mk_setter eta_ospf_world).
#[export] Instance set_w_nbr : Settable w_nbr := ltac:(mk_setter eta_ospf_world).
#[export] Instance set_w_nbma : Settable w_nbma := ltac:(mk_setter eta_ospf_world).
#[export] Instance set_w_nbr_nbma : Settable w_nbr_nbma := ltac:(mk_setter eta_ospf_world).
#[export] Instance set_w_if_nbma : Settable w_if_nbma := ltac:(mk_setter eta_ospf_world).
#[export] Instance set_w_type : Settable w_type := ltac:(mk_setter eta_ospf_world).
#[export] Instance set_w_state : Settable w_state := ltac:(mk_setter eta_ospf_world).
#[export] Instance set_w_nbrs : Settable w_nbrs := ltac:(mk_setter eta_ospf_world).
#[export] Instance set_w_nbr_self : Settable w_nbr_self := ltac:(mk_setter eta_ospf_world).
#[export] Instance set_w_full_nbrs : Settable w_full_nbrs := ltac:(mk_setter eta_ospf_world).
#[export] Instance set_w_area_full_nbrs : Settable w_area_full_nbrs := ltac:(mk_setter eta_ospf_world).
#[export] Instance set_w_act_ints : Settable w_act_ints := ltac:(mk_setter eta_ospf_world).
#[export] Instance set_w_full_vls : Settable w_full_vls := ltac:(mk_setter eta_ospf_world).
#[export] Instance set_w_state_change : Settable w_state_change := ltac:(mk_setter eta_ospf_world).
#[export] Instance set_w_crypt_seqnum : Settable w_crypt_seqnum := ltac:(mk_setter eta_ospf_world).
#[export] Instance set_w_v_ls_ack : Settable w_v_ls_ack := ltac:(mk_setter eta_ospf_world).
#[export] Instance set_w_t_hello : Settable w_t_hello := ltac:(mk_setter eta_ospf_world).
#[export] Instance set_w_t_wait : Settable w_t_wait := ltac:(mk_setter eta_ospf_world).
#[export] Instance set_w_t_ls_ack : Settable w_t_ls_ack := ltac:(mk_setter eta_ospf_world).
#[export] Instance set_w_network_lsa_self : Settable w_network_lsa_self := ltac:(mk_setter eta_ospf_world).
#[export] Instance set_w_ls_ack : Settable w_ls_ack := ltac:(mk_setter eta_ospf_world).
#[export] Instance set_w_ls_upd_queue : Settable w_ls_upd_queue := ltac:(mk_setter eta_ospf_world).
#[export] Instance set_w_t_ls_upd_event : Settable w_t_ls_upd_event := ltac:(mk_setter eta_ospf_world).
#[export] Instance set_w_obuf : Settable w_obuf := ltac:(mk_setter eta_ospf_world).
#[export] Instance set_w_events : Settable w_events := ltac:(mk_setter eta_ospf_world).
#[export] Instance set_w_calls : Settable w_calls := ltac:(mk_setter eta_ospf_world).

End Types.

Arguments ospf_neighbor RT : clear implicits.
Arguments ospf_world RT : clear implicits.

(** What does not change: the clocks, the router, the configuration of the interface and of the area, and
    the functions on prefixes, which are not part of the sources.  [e_vl_data]: the interface is a
    virtual link; [e_prefix_match]: whether an address is in the network of the interface. *)
Record adj_env := mk_adj_env {
  e_now : timeval;
  e_time : Z;
  e_router_id : Z;
  e_address : Z;
  e_prefixlen : Z;
  e_priority : Z;
  e_v_wait : Z;
  e_v_hello : Z;
  e_fast_hello : Z;
  e_mtu : Z;
  e_mtu_ignore : Z;
  e_authspace : Z;
  e_transmit_delay : Z;
  e_passive : bool;
  e_external_routing : Z;
  e_vl_data : bool;
  e_vl_peer_addr : Z;
  e_ip_masklen : Z → Z;
  e_masklen2ip : Z → Z;
  e_prefix_match : Z → bool
}.

Section Nbr.
Context {RT : Type → Type} `{RouteTable RT}.
Context (E : adj_env).

Local Abbreviation M := (fsM (ospf_world RT)).
Implicit Types n : ospf_neighbor RT.

(** ** Access to the parts *)

Definition on_lsas {A} (x : fsM lheap A) : M A := zoom w_lsas (λ h w, w <| w_lsas := h |>) x.
Definition nbr (p : nat) : M (ospf_neighbor RT) := o ← gets (λ w, w_nbr w !! p); of_option o.
Definition upd_nbr (p : nat) (f : ospf_neighbor RT → ospf_neighbor RT) : M unit :=
  n ← nbr p; modify (λ w, w <| w_nbr := <[p := f n]> (w_nbr w) |>).
Definition nbma (q : nat) : M ospf_nbr_nbma := o ← gets (λ w, w_nbma w !! q); of_option o.
Definition upd_nbma (q : nat) (f : ospf_nbr_nbma → ospf_nbr_nbma) : M unit :=
  b ← nbma q; modify (λ w, w <| w_nbma := <[q := f b]> (w_nbma w) |>).
Definition self : M (ospf_neighbor RT) := p ← gets w_nbr_self; nbr p.

Definition call (c : adj_call) : M unit := modify (λ w, w <| w_calls := w_calls w ++ [c] |>).
Definition schedule (e : ospf_event) : M unit := modify (λ w, w <| w_events := w_events w ++ [e] |>).
Definition OSPF_ISM_EVENT_SCHEDULE (e : Z) : M unit := schedule (Ev_ism e).
Definition OSPF_NSM_EVENT_SCHEDULE (p : nat) (e : Z) : M unit := schedule (Ev_nsm p e).

(** What [thread_cancel_event] takes out of the queue: the events whose argument is the neighbour. *)
Definition event_of (p : nat) (e : ospf_event) : bool :=
  match e with Ev_ism _ | Ev_ls_upd => false | Ev_nsm q _ => bool_decide (p = q) | Ev_ls_req q => bool_decide (p = q) end.
Definition ls_req_event_of (p : nat) (e : ospf_event) : bool :=
  match e with Ev_ls_req q => bool_decide (p = q) | _ => false end.
Definition drop_events (f : ospf_event → bool) : M unit :=
  modify (λ w, w <| w_events := filter (λ e, f e = false) (w_events w) |>).
Definition thread_cancel_event (p : nat) : M unit := drop_events (event_of p).

(** [OSPF_NSM_TIMER_OFF] for the request timer: if it is an event, the event is taken out of the queue. *)
Definition ls_req_timer_off (p : nat) : M unit :=
  n ← nbr p;
  match n_t_ls_req n with
  | T_null => mret tt
  | T_timer => upd_nbr p (λ n, n <| n_t_ls_req := T_null |>)
  | T_event =>
      drop_events (ls_req_event_of p);;
      upd_nbr p (λ n, n <| n_t_ls_req := T_null |>)
  end.

(** A database of the neighbour, worked on together with the memory of the LSAs. *)
Definition on_ls_req (p : nat) (f : ospf_lsdb RT → fsM lheap (ospf_lsdb RT)) : M unit :=
  n ← nbr p; db ← on_lsas (f (n_ls_req n)); upd_nbr p (λ n, n <| n_ls_req := db |>).
Definition on_db_sum (p : nat) (f : ospf_lsdb RT → fsM lheap (ospf_lsdb RT)) : M unit :=
  n ← nbr p; db ← on_lsas (f (n_db_sum n)); upd_nbr p (λ n, n <| n_db_sum := db |>).
Definition on_ls_rxmt (p : nat) (f : ospf_lsdb RT → fsM lheap (ospf_lsdb RT)) : M unit :=
  n ← nbr p; db ← on_lsas (f (n_ls_rxmt n)); upd_nbr p (λ n, n <| n_ls_rxmt := db |>).

(** ** The request list (ospf_flood.c) *)

Definition ospf_ls_request_add (p lp : nat) : M unit := on_ls_req p (λ db, ospf_lsdb_add db lp).
Definition ospf_ls_request_count n : Z := ospf_lsdb_count_all (n_ls_req n).
Definition ospf_ls_request_isempty n : bool := ospf_lsdb_isempty (n_ls_req n).

(** Gives up the reference [ls_req_last]. *)
Definition ls_req_last_clear (p : nat) : M unit :=
  n ← nbr p;
  on_lsas (ospf_lsa_unlock (n_ls_req_last n));;
  upd_nbr p (λ n, n <| n_ls_req_last := None |>).

Definition ospf_ls_request_delete (p lp : nat) : M unit :=
  n ← nbr p;
  (if bool_decide (n_ls_req_last n = Some lp) then ls_req_last_clear p else mret tt);;
  on_ls_req p (λ db, ospf_lsdb_delete db lp).

Definition ospf_ls_request_delete_all (p : nat) : M unit :=
  ls_req_last_clear p;;
  on_ls_req p ospf_lsdb_delete_all.

Definition ospf_ls_request_lookup (p lp : nat) : M (option nat) :=
  n ← nbr p; on_lsas (ospf_lsdb_lookup (n_ls_req n) lp).

Definition ospf_ls_request_new (lsah : lsa_header) : M nat := on_lsas (ospf_lsa_new (e_now E) lsah []).

(** ** The retransmission list (ospf_flood.c) *)

Definition ospf_ls_retransmit_count n : Z := ospf_lsdb_count_all (n_ls_rxmt n).
Definition ospf_ls_retransmit_isempty n : bool := ospf_lsdb_isempty (n_ls_rxmt n).

Definition ospf_ls_retransmit_lookup (p lp : nat) : M (option nat) :=
  n ← nbr p; on_lsas (ospf_lsdb_lookup (n_ls_rxmt n) lp).

Definition retransmit_counter (lp : nat) (d : Z) : M unit :=
  on_lsas (upd_lsa lp (λ l, l <| l_retransmit_counter := l_retransmit_counter l + d |>)).

Definition ospf_ls_retransmit_add (p lp : nat) : M unit :=
  old ← ospf_ls_retransmit_lookup p lp;
  l ← on_lsas (lsa lp);
  lo ← (match old with None => mret None | Some o => l ← on_lsas (lsa o); mret (Some l) end);
  if ospf_lsa_more_recent (e_now E) lo (Some l) <? 0 then
    (match old with
     | None => mret tt
     | Some o => retransmit_counter o (-1);; on_ls_rxmt p (λ db, ospf_lsdb_delete db o)
     end);;
    retransmit_counter lp 1;;
    on_ls_rxmt p (λ db, ospf_lsdb_add db lp)
  else mret tt.

Definition ospf_ls_retransmit_delete (p lp : nat) : M unit :=
  o ← ospf_ls_retransmit_lookup p lp;
  match o with
  | None => mret tt
  | Some _ => retransmit_counter lp (-1);; on_ls_rxmt p (λ db, ospf_lsdb_delete db lp)
  end.

(** The walk over the tables of a database of the neighbour: [get] is the database as it is now. *)
Fixpoint walk_table (get : ospf_neighbor RT → ospf_lsdb RT) (f : nat → M unit) (p : nat) (type : Z) (ks : list Z) :
    M unit :=
  match ks with
  | [] => mret tt
  | k :: ks =>
      n ← nbr p;
      t ← on_lsas (ldt (get n) type);
      (match rt_info k (lt_db t) with None => mret tt | Some lp => f lp end);;
      walk_table get f p type ks
  end.
Fixpoint walk_types (get : ospf_neighbor RT → ospf_lsdb RT) (f : nat → M unit) (p : nat) (types : list Z) : M unit :=
  match types with
  | [] => mret tt
  | type :: types =>
      n ← nbr p;
      t ← on_lsas (ldt (get n) type);
      walk_table get f p type (rt_walk (lt_db t));;
      walk_types get f p types
  end.

Definition ospf_ls_retransmit_clear (p : nat) : M unit :=
  walk_types n_ls_rxmt (ospf_ls_retransmit_delete p) p lsa_types;;
  ls_req_last_clear p.

(** ** The database summary list (ospf_nsm.c) *)

Definition ospf_db_summary_count n : Z := ospf_lsdb_count_all (n_db_sum n).
Definition ospf_db_summary_isempty n : bool := ospf_lsdb_isempty (n_db_sum n).

Definition ospf_db_summary_add (p lp : nat) : M unit :=
  l ← on_lsas (lsa lp);
  if CHECK_FLAG (l_flags l) OSPF_LSA_LOCAL_XLT then mret tt
  else if IS_LSA_MAXAGE (e_now E) l then ospf_ls_retransmit_add p lp
  else on_db_sum p (λ db, ospf_lsdb_add db lp).

Definition ospf_db_summary_clear (p : nat) : M unit :=
  walk_types n_db_sum (λ lp, on_db_sum p (λ db, ospf_lsdb_delete db lp)) p lsa_types.

(** ** Neighbours (ospf_neighbor.c) *)

Definition NBR_IS_DR n : bool := n_address n =? n_d_router n.
Definition NBR_IS_BDR n : bool := n_address n =? n_bd_router n.

Definition ospf_nbr_key (type : Z) n : Z :=
  if type =? OSPF_IFTYPE_VIRTUALLINK then n_router_id n else n_src n.

(** A new object, at an address that is not in use. *)
Definition ospf_nbr_new : M nat := λ w,
  let p := fresh (dom (w_nbr w)) in
  let n := mk_nbr NSM_Down (OSPF_DD_FLAG_MS ||| OSPF_DD_FLAG_M ||| OSPF_DD_FLAG_I) 0 0 0 0 0 0 (-1) 0 0 None (mk_tv 0 0)
             0 0 0 ospf_lsdb_new ospf_lsdb_new ospf_lsdb_new None 0 (e_v_wait E) false false T_null false false None 0 in
  Some (p, w <| w_nbr := <[p := n]> (w_nbr w) |>).

Definition ospf_nbr_free (p : nat) : M unit :=
  n ← nbr p;
  (if tst (ospf_db_summary_count n) then ospf_db_summary_clear p else mret tt);;
  n ← nbr p;
  (if tst (ospf_ls_request_count n) then ospf_ls_request_delete_all p else mret tt);;
  n ← nbr p;
  (if tst (ospf_ls_retransmit_count n) then ospf_ls_retransmit_clear p else mret tt);;
  n ← nbr p;
  on_lsas (ospf_lsdb_cleanup (n_db_sum n));;
  on_lsas (ospf_lsdb_cleanup (n_ls_req n));;
  on_lsas (ospf_lsdb_cleanup (n_ls_rxmt n));;
  (match n_nbr_nbma n with
   | None => mret tt
   | Some q => upd_nbma q (λ b, b <| nb_nbr := None |>);; upd_nbr p (λ n, n <| n_nbr_nbma := None |>)
   end);;
  upd_nbr p (λ n, n <| n_t_inactivity := false |> <| n_t_db_desc := false |>);;
  ls_req_timer_off p;;
  upd_nbr p (λ n, n <| n_t_ls_upd := false |>);;
  thread_cancel_event p;;
  modify (λ w, w <| w_nbr := delete p (w_nbr w) |>).

(** [route_node_lookup] finds the nodes that have an [info]. *)
Definition ospf_nbr_delete (p : nat) : M unit :=
  n ← nbr p;
  type ← gets w_type;
  modify (λ w, w <| w_nbrs := rt_set (ospf_nbr_key type n) None (w_nbrs w) |>);;
  ospf_nbr_free p.

Definition ospf_nbr_bidirectional (router_id : Z) (neighbors : list Z) : bool :=
  existsb (λ a, router_id =? a) neighbors.

Definition self_options (options : Z) : Z :=
  if e_external_routing E =? OSPF_AREA_DEFAULT then options ||| OSPF_OPTION_E
  else if e_external_routing E =? OSPF_AREA_STUB then clr options OSPF_OPTION_E
  else if e_external_routing E =? OSPF_AREA_NSSA then clr options OSPF_OPTION_E ||| OSPF_OPTION_NP
  else options.

Definition ospf_nbr_add_self : M unit :=
  p ← gets w_nbr_self;
  upd_nbr p (λ n, n <| n_address := e_address E |> <| n_prefixlen := e_prefixlen E |>
                    <| n_priority := e_priority E |> <| n_router_id := e_router_id E |>
                    <| n_src := e_address E |> <| n_state := NSM_TwoWay |>
                    <| n_options := self_options (n_options n) |>);;
  n ← nbr p;
  type ← gets w_type;
  let k := ospf_nbr_key type n in
  o ← gets (λ w, rt_info k (w_nbrs w));
  match o with
  | Some q => assert (bool_decide (p = q))
  | None => modify (λ w, w <| w_nbrs := rt_set k (Some p) (w_nbrs w) |>)
  end.

(** The neighbours of the table in the order of a walk. *)
Fixpoint nbr_list (ks : list Z) : M (list (nat * ospf_neighbor RT)) :=
  match ks with
  | [] => mret []
  | k :: ks =>
      o ← gets (λ w, rt_info k (w_nbrs w));
      match o with
      | None => nbr_list ks
      | Some p => n ← nbr p; l ← nbr_list ks; mret ((p, n) :: l)
      end
  end.
Definition all_nbrs : M (list (nat * ospf_neighbor RT)) := ks ← gets (λ w, rt_walk (w_nbrs w)); nbr_list ks.

Definition ospf_nbr_count (state : Z) : M Z :=
  l ← all_nbrs;
  mret (Z.of_nat (length (filter (λ x : nat * ospf_neighbor RT,
    (n_router_id x.2 !=? e_router_id E) && ((state =? 0) || (n_state x.2 =? state)) = true) l))).

Definition ospf_nbr_lookup_by_addr (addr : Z) : M (option nat) := gets (λ w, rt_info addr (w_nbrs w)).

Definition ospf_nbr_lookup_by_routerid (id : Z) : M (option nat) :=
  l ← all_nbrs;
  mret ((λ o : nat * (nat * ospf_neighbor RT), o.2.1) <$> list_find (λ x, n_router_id x.2 = id) l).

Definition ospf_nbr_lookup (src router_id : Z) : M (option nat) :=
  type ← gets w_type;
  if type =? OSPF_IFTYPE_VIRTUALLINK then ospf_nbr_lookup_by_routerid router_id
  else ospf_nbr_lookup_by_addr src.

(** The neighbour is linked to every configured neighbour with its address. *)
Fixpoint nbma_link (p : nat) (src : Z) (qs : list nat) : M unit :=
  match qs with
  | [] => mret tt
  | q :: qs =>
      b ← nbma q;
      (if nb_addr b =? src then
         upd_nbma q (λ b, b <| nb_nbr := Some p |>);;
         upd_nbr p (λ n, n <| n_nbr_nbma := Some q |>);;
         upd_nbma q (λ b, b <| nb_t_poll := false |>);;
         upd_nbr p (λ n, n <| n_state_change := u32 (nb_state_change b + 1) |>)
       else mret tt);;
      nbma_link p src qs
  end.

(** [src] and [len] are the address and the prefix length of the neighbour; [crypt] is the sequence number of
    the packet if it is authenticated cryptographically. *)
Definition ospf_nbr_add (src len : Z) (crypt : option Z) : M nat :=
  p ← ospf_nbr_new;
  upd_nbr p (λ n, n <| n_state := NSM_Down |> <| n_src := src |> <| n_address := src |> <| n_prefixlen := len |>
                    <| n_nbr_nbma := None |>);;
  type ← gets w_type;
  (if type =? OSPF_IFTYPE_NBMA then qs ← gets w_if_nbma; nbma_link p src qs else mret tt);;
  (match crypt with Some c => upd_nbr p (λ n, n <| n_crypt_seqnum := c |>) | None => mret tt end);;
  mret p.

Definition ospf_nbr_get (router_id src len : Z) (crypt : option Z) : M nat :=
  type ← gets w_type;
  let key := if type =? OSPF_IFTYPE_VIRTUALLINK then router_id else src in
  o ← gets (λ w, rt_info key (w_nbrs w));
  p ← (match o with
       | Some p =>
           n ← nbr p;
           (if (type =? OSPF_IFTYPE_NBMA) && (n_state n =? NSM_Attempt) then
              upd_nbr p (λ n, n <| n_src := src |> <| n_address := src |> <| n_prefixlen := len |>)
            else mret tt);;
           mret p
       | None =>
           p ← ospf_nbr_add src len crypt;
           modify (λ w, w <| w_nbrs := rt_set key (Some p) (w_nbrs w) |>);;
           mret p
       end);
  upd_nbr p (λ n, n <| n_router_id := router_id |>);;
  mret p.

End Nbr.
