(* ===== verification/OspfAdj.v ===== *)
(** * OSPF: the state machines of an interface and of its neighbours

    The election of the designated routers and the interface state machine of ospf/ospf_ism.c, the neighbour state
    machine of ospf_nsm.c, the functions of ospf_interface.c that take an interface up and down, and the
    functions of ospf_packet.c that send and receive Hello, Database Description and Link State Request packets.
    Flooding and the origination of LSAs are recorded as calls. *)

From stdpp Require Import gmap.
From S2P Require Import Prelude Fault OspfTable OspfLsa OspfVertex OspfNbr.

Section Adj.
Context {RT : Type → Type} `{RouteTable RT}.
Context (E : adj_env).

Local Abbreviation M := (fsM (ospf_world RT)).
Implicit Types n s : ospf_neighbor RT.

(** ** Sending (ospf_packet.c) *)

Definition ospf_packet_max : Z := u32 (e_mtu E - e_authspace E - (OSPF_HEADER_SIZE + IP_HEADER_SIZE)).

(** Without an output queue the packet is dropped. *)
Definition ospf_packet_add (op : ospf_packet) : M unit :=
  modify (λ w, w <| w_obuf := (λ q, q ++ [op]) <$> w_obuf w |>).
Definition ospf_packet_add_top (op : ospf_packet) : M unit :=
  modify (λ w, w <| w_obuf := (λ q, op :: q) <$> w_obuf w |>).

(** The neighbours a Hello lists. *)
Definition hello_lists n : bool :=
  (n_router_id n !=? 0) && (n_state n !=? NSM_Attempt) && (n_state n !=? NSM_Down)
  && (n_router_id n !=? e_router_id E).

(** Both routers the neighbour declares are this one. *)
Definition hello_flag n : bool :=
  (n_d_router n !=? 0) && (n_d_router n =? e_address E) && (n_bd_router n =? e_address E).

Definition ospf_make_hello : M ospf_hello :=
  type ← gets w_type;
  n ← self;
  l ← all_nbrs;
  let seen := filter (λ x, hello_lists x.2 = true) l in
  let mask := if (type !=? OSPF_IFTYPE_POINTOPOINT) && (type !=? OSPF_IFTYPE_VIRTUALLINK)
              then e_masklen2ip E (e_prefixlen E) else 0 in
  mret (mk_hello mask (if e_fast_hello E =? 0 then u16 (e_v_hello E) else 0) (n_options n) (u8 (n_priority n))
          (e_v_wait E) (n_d_router n) (if existsb (λ x, hello_flag x.2) seen then 0 else n_bd_router n)
          ((λ x, n_router_id x.2) <$> seen)).

Definition ospf_hello_send_sub (addr : Z) : M unit :=
  h ← ospf_make_hello; ospf_packet_add_top (mk_op addr (B_hello h)).

Fixpoint hello_walk (l : list (nat * ospf_neighbor RT)) : M unit :=
  match l with
  | [] => mret tt
  | (p, n) :: l =>
      q ← gets w_nbr_self;
      s ← self;
      state ← gets w_state;
      (if negb (bool_decide (p = q)) && (n_state n !=? NSM_Down) then
         if (n_priority s =? 0) && (n_d_router s !=? n_address n) && (n_bd_router s !=? n_address n) then mret tt
         else if (n_priority n =? 0) && (state =? ISM_DROther) then mret tt
         else ospf_hello_send_sub (n_address n)
       else mret tt);;
      hello_walk l
  end.

Definition ospf_hello_send : M unit :=
  if e_passive E then mret tt
  else
    type ← gets w_type;
    if type =? OSPF_IFTYPE_NBMA then l ← all_nbrs; hello_walk l
    else if type =? OSPF_IFTYPE_VIRTUALLINK then ospf_hello_send_sub (e_vl_peer_addr E)
    else ospf_hello_send_sub OSPF_ALLSPFROUTERS.

(** The headers of the LSAs of the summary list, as many as fit, in the order of the walk; the LSAs are
    taken out of the list.  [len] is the length so far. *)
Fixpoint db_desc_walk (ks : list Z) (type : Z) (len : Z) (db : ospf_lsdb RT) :
    fsM lheap (ospf_lsdb RT * Z * list lsa_header) :=
  match ks with
  | [] => mret (db, len, [])
  | k :: ks =>
      t ← ldt db type;
      match rt_info k (lt_db t) with
      | None => db_desc_walk ks type len db
      | Some lp =>
          l ← lsa lp;
          if negb (CHECK_FLAG (l_flags l) OSPF_LSA_DISCARD) then
            if len + OSPF_LSA_HEADER_SIZE >? ospf_packet_max then mret (db, len, [])
            else
              let d := l_data l in
              let lsah := mk_lsah (u16 (LS_AGE (e_now E) l)) (h_options d) (h_type d) (h_id d) (h_adv_router d)
                            (ls_seqnum d) (h_checksum d) (h_length d) in
              db ← ospf_lsdb_delete db lp;
              r ← db_desc_walk ks type (u16 (len + OSPF_LSA_HEADER_SIZE)) db;
              mret (r.1, lsah :: r.2)
          else
            db ← ospf_lsdb_delete db lp;
            db_desc_walk ks type len db
      end
  end.
Fixpoint db_desc_types (types : list Z) (len : Z) (db : ospf_lsdb RT) :
    fsM lheap (ospf_lsdb RT * Z * list lsa_header) :=
  match types with
  | [] => mret (db, len, [])
  | type :: types =>
      t ← ldt db type;
      r ← db_desc_walk (rt_walk (lt_db t)) type len db;
      r' ← db_desc_types types r.1.2 r.1.1;
      mret (r'.1, r.2 ++ r'.2)
  end.

Definition ospf_make_db_desc (p : nat) : M ospf_db_desc :=
  type ← gets w_type;
  s ← self;
  n ← nbr p;
  let mtu := if type =? OSPF_IFTYPE_VIRTUALLINK then 0 else u16 (e_mtu E) in
  hs ← (if ospf_db_summary_isempty n then mret []
        else
          r ← on_lsas (db_desc_types lsa_types OSPF_DB_DESC_MIN_SIZE (n_db_sum n));
          upd_nbr p (λ n, n <| n_db_sum := r.1.1 |>);;
          mret r.2);
  n ← nbr p;
  flags ← (if ospf_db_summary_isempty n then
             if n_state n >=? NSM_Exchange then
               upd_nbr p (λ n, n <| n_dd_flags := clr (n_dd_flags n) OSPF_DD_FLAG_M |>);;
               mret (clr (n_dd_flags n) OSPF_DD_FLAG_M)
             else assert (CHECK_FLAG (n_dd_flags n) OSPF_DD_FLAG_M);; mret (n_dd_flags n)
           else mret (n_dd_flags n));
  mret (mk_dd mtu (n_options s) flags (n_dd_seqnum n) hs 0).

(** Where a packet to one neighbour is sent. *)
Definition nbr_dst (type : Z) n : Z :=
  if type =? OSPF_IFTYPE_POINTOPOINT then OSPF_ALLSPFROUTERS else n_address n.

Definition ospf_db_desc_send (p : nat) : M unit :=
  d ← ospf_make_db_desc p;
  type ← gets w_type;
  n ← nbr p;
  let op := mk_op (nbr_dst type n) (B_db_desc d) in
  ospf_packet_add op;;
  upd_nbr p (λ n, n <| n_last_send := Some op |> <| n_last_send_ts := e_now E |>).

Definition ospf_db_desc_resend (p : nat) : M unit :=
  n ← nbr p;
  op ← of_option (n_last_send n);
  ospf_packet_add op.

(** The keys of the requested LSAs, as many as fit; [last] is [ls_req_last]. *)
Fixpoint ls_req_walk (ks : list Z) (t : RT nat) (len : Z) (last : option nat) :
    fsM lheap (Z * option nat * list lsa_key) :=
  match ks with
  | [] => mret (len, last, [])
  | k :: ks =>
      match rt_info k t with
      | None => ls_req_walk ks t len last
      | Some lp =>
          if len + (OSPF_HEADER_SIZE + 12) >? ospf_packet_max then mret (len, last, [])
          else
            l ← lsa lp;
            ospf_lsa_unlock last;;
            q ← ospf_lsa_lock lp;
            r ← ls_req_walk ks t (u16 (len + 12)) (Some q);
            mret (r.1, (h_type (l_data l), h_id (l_data l), h_adv_router (l_data l)) :: r.2)
      end
  end.
Fixpoint ls_req_types (types : list Z) (db : ospf_lsdb RT) (len : Z) (last : option nat) :
    fsM lheap (Z * option nat * list lsa_key) :=
  match types with
  | [] => mret (len, last, [])
  | type :: types =>
      t ← ldt db type;
      r ← ls_req_walk (rt_walk (lt_db t)) (lt_db t) len last;
      r' ← ls_req_types types db r.1.1 r.1.2;
      mret (r'.1, r.2 ++ r'.2)
  end.

(** The length of the body and the keys. *)
Definition ospf_make_ls_req (p : nat) : M (Z * list lsa_key) :=
  n ← nbr p;
  r ← on_lsas (ls_req_types lsa_types (n_ls_req n) OSPF_LS_REQ_MIN_SIZE (n_ls_req_last n));
  upd_nbr p (λ n, n <| n_ls_req_last := r.1.2 |>);;
  mret (r.1.1, r.2).

Definition ospf_ls_req_send (p : nat) : M unit :=
  r ← ospf_make_ls_req p;
  if u16 (OSPF_HEADER_SIZE + r.1) =? OSPF_HEADER_SIZE then mret tt
  else
    type ← gets w_type;
    n ← nbr p;
    ospf_packet_add (mk_op (nbr_dst type n) (B_ls_req r.2));;
    match n_t_ls_req n with
    | T_null => upd_nbr p (λ n, n <| n_t_ls_req := T_timer |>)
    | _ => mret tt
    end.

Definition ospf_ls_req_timer (p : nat) : M unit :=
  upd_nbr p (λ n, n <| n_t_ls_req := T_null |>);;
  n ← nbr p;
  (if tst (ospf_ls_request_count n) then ospf_ls_req_send p else mret tt);;
  n ← nbr p;
  match n_t_ls_req n with
  | T_null => upd_nbr p (λ n, n <| n_t_ls_req := T_timer |>)
  | _ => mret tt
  end.

Definition ospf_ls_req_event (p : nat) : M unit :=
  ls_req_timer_off p;;
  schedule (Ev_ls_req p);;
  upd_nbr p (λ n, n <| n_t_ls_req := T_event |>).

(** ** The election (ospf_ism.c) *)

Fixpoint election_sub (max : option (ospf_neighbor RT)) (l : list (ospf_neighbor RT)) :
    option (ospf_neighbor RT) :=
  match l with
  | [] => max
  | n :: l =>
      election_sub (match max with
                    | None => Some n
                    | Some m =>
                        if n_priority m <? n_priority n then Some n
                        else if n_priority m =? n_priority n then
                          if n_router_id m <? n_router_id n then Some n else max
                        else max
                    end) l
  end.
Definition ospf_dr_election_sub (l : list (ospf_neighbor RT)) : option (ospf_neighbor RT) := election_sub None l.

(** What is assigned to [DR (oi)] and [BDR (oi)] for the elected neighbour. *)
Definition elected (o : option (ospf_neighbor RT)) : Z :=
  match o with Some n => n_address n | None => 0 end.

(** The last router of the list whose address is [bdr]. *)
Definition preserve_bdr (bdr : Z) (l : list (ospf_neighbor RT)) : option (ospf_neighbor RT) :=
  foldl (λ o n, if bdr =? n_address n then Some n else o) None l.

(** [bdr] is [BDR (oi)]; the new value of [DR (oi)]. *)
Definition elect_dr (bdr : Z) (l : list (ospf_neighbor RT)) : Z :=
  let dr_list := filter (λ n, NBR_IS_DR n = true) l in
  elected (match dr_list with [] => preserve_bdr bdr l | _ => ospf_dr_election_sub dr_list end).

Definition elect_bdr (l : list (ospf_neighbor RT)) : Z :=
  let no_dr_list := filter (λ n, NBR_IS_DR n = false) l in
  let bdr_list := filter (λ n, NBR_IS_BDR n = true) no_dr_list in
  elected (match bdr_list with [] => ospf_dr_election_sub no_dr_list | _ => ospf_dr_election_sub bdr_list end).

(** The objects of the list, as they are now: the elections assign to the pseudo neighbour, which may be
    in the list. *)
Fixpoint nbrs_of (l : list nat) : M (list (ospf_neighbor RT)) :=
  match l with [] => mret [] | p :: l => n ← nbr p; ns ← nbrs_of l; mret (n :: ns) end.

Definition ospf_elect_dr (el_list : list nat) : M unit :=
  l ← nbrs_of el_list;
  s ← self;
  p ← gets w_nbr_self;
  upd_nbr p (λ n, n <| n_d_router := elect_dr (n_bd_router s) l |>).

Definition ospf_elect_bdr (el_list : list nat) : M unit :=
  l ← nbrs_of el_list;
  p ← gets w_nbr_self;
  upd_nbr p (λ n, n <| n_bd_router := elect_bdr l |>).

Definition ism_state (dr bdr : Z) : Z :=
  if dr =? e_address E then ISM_DR else if bdr =? e_address E then ISM_Backup else ISM_DROther.
Definition ospf_ism_state : M Z := s ← self; mret (ism_state (n_d_router s) (n_bd_router s)).

Definition eligible n : bool :=
  (n_router_id n !=? 0) && (n_priority n >? 0) && (n_state n >=? NSM_TwoWay).
Definition ospf_dr_eligible_routers : M (list nat) :=
  l ← all_nbrs; mret (fst <$> filter (λ x, eligible x.2 = true) l).

(** The neighbours an AdjOK? event is scheduled for. *)
Definition dr_change_of n : bool :=
  (n_router_id n !=? 0) && (n_state n >=? NSM_TwoWay) && (n_router_id n !=? e_router_id E).
Fixpoint dr_change_walk (l : list (nat * ospf_neighbor RT)) : M unit :=
  match l with
  | [] => mret tt
  | (p, n) :: l =>
      (if dr_change_of n then OSPF_NSM_EVENT_SCHEDULE p NSM_AdjOK else mret tt);;
      dr_change_walk l
  end.
Definition ospf_dr_change : M unit := l ← all_nbrs; dr_change_walk l.

Definition ospf_dr_election : M Z :=
  old ← self;
  old_state ← gets w_state;
  el_list ← ospf_dr_eligible_routers;
  ospf_elect_bdr el_list;;
  ospf_elect_dr el_list;;
  new_state ← ospf_ism_state;
  new_state ← (if (new_state !=? old_state) && negb ((new_state =? ISM_DROther) && (old_state <? ISM_DROther)) then
                 ospf_elect_bdr el_list;;
                 ospf_elect_dr el_list;;
                 ospf_ism_state
               else mret new_state);
  s ← self;
  (if (n_d_router old !=? n_d_router s) || (n_bd_router old !=? n_bd_router s) then ospf_dr_change else mret tt);;
  mret new_state.

(** ** The interface state machine (ospf_ism.c) *)

Definition ospf_hello_timer : M unit :=
  modify (λ w, w <| w_t_hello := false |>);;
  ospf_hello_send;;
  modify (λ w, w <| w_t_hello := true |>).

Definition ospf_wait_timer : M unit :=
  modify (λ w, w <| w_t_wait := false |>);;
  OSPF_ISM_EVENT_SCHEDULE ISM_WaitTimer.

Definition set_ism_timers (hello wait ls_ack : bool) : M unit :=
  modify (λ w, w <| w_t_hello := hello |> <| w_t_wait := wait |> <| w_t_ls_ack := ls_ack |>).

Definition ism_timer_set : M unit :=
  state ← gets w_state;
  if (state =? ISM_Down) || (state =? ISM_Loopback) then set_ism_timers false false false
  else if state =? ISM_Waiting then set_ism_timers true true false
  else if (state =? ISM_PointToPoint) || (state =? ISM_DROther) || (state =? ISM_Backup) || (state =? ISM_DR)
  then set_ism_timers true false true
  else mret tt.

Inductive ism_func :=
  | ism_ignore
  | ism_interface_up
  | ism_loop_ind
  | ism_interface_down
  | ism_backup_seen
  | ism_wait_timer
  | ism_neighbor_change.

Definition ISM : list (list (ism_func * Z)) := [
  replicate 8 (ism_ignore, ISM_DependUpon);
  [ (ism_ignore, ISM_DependUpon); (ism_interface_up, ISM_DependUpon); (ism_ignore, ISM_Down); (ism_ignore, ISM_Down);
    (ism_ignore, ISM_Down); (ism_loop_ind, ISM_Loopback); (ism_ignore, ISM_Down); (ism_interface_down, ISM_Down) ];
  [ (ism_ignore, ISM_DependUpon); (ism_ignore, ISM_Loopback); (ism_ignore, ISM_Loopback); (ism_ignore, ISM_Loopback);
    (ism_ignore, ISM_Loopback); (ism_ignore, ISM_Loopback); (ism_ignore, ISM_Down); (ism_interface_down, ISM_Down) ];
  [ (ism_ignore, ISM_DependUpon); (ism_ignore, ISM_Waiting); (ism_wait_timer, ISM_DependUpon);
    (ism_backup_seen, ISM_DependUpon); (ism_ignore, ISM_Waiting); (ism_loop_ind, ISM_Loopback);
    (ism_ignore, ISM_Waiting); (ism_interface_down, ISM_Down) ];
  [ (ism_ignore, ISM_DependUpon); (ism_ignore, ISM_PointToPoint); (ism_ignore, ISM_PointToPoint);
    (ism_ignore, ISM_PointToPoint); (ism_ignore, ISM_PointToPoint); (ism_loop_ind, ISM_Loopback);
    (ism_ignore, ISM_PointToPoint); (ism_interface_down, ISM_Down) ];
  [ (ism_ignore, ISM_DependUpon); (ism_ignore, ISM_DROther); (ism_ignore, ISM_DROther); (ism_ignore, ISM_DROther);
    (ism_neighbor_change, ISM_DependUpon); (ism_loop_ind, ISM_Loopback); (ism_ignore, ISM_DROther);
    (ism_interface_down, ISM_Down) ];
  [ (ism_ignore, ISM_DependUpon); (ism_ignore, ISM_Backup); (ism_ignore, ISM_Backup); (ism_ignore, ISM_Backup);
    (ism_neighbor_change, ISM_DependUpon); (ism_loop_ind, ISM_Loopback); (ism_ignore, ISM_Backup);
    (ism_interface_down, ISM_Down) ];
  [ (ism_ignore, ISM_DependUpon); (ism_ignore, ISM_DR); (ism_ignore, ISM_DR); (ism_ignore, ISM_DR);
    (ism_neighbor_change, ISM_DependUpon); (ism_loop_ind, ISM_Loopback); (ism_ignore, ISM_DR);
    (ism_interface_down, ISM_Down) ] ].

Definition ism_entry (state event : Z) : M (ism_func * Z) :=
  row ← of_option (arr ISM state); of_option (arr row event).

(** Gives up the network-LSA of this router. *)
Definition network_lsa_clear : M unit :=
  o ← gets w_network_lsa_self;
  (match o with Some lp => call (Call_lsa_flush_area lp) | None => mret tt end);;
  on_lsas (ospf_lsa_unlock o);;
  modify (λ w, w <| w_network_lsa_self := None |>).

Definition ism_change_state (state : Z) : M unit :=
  old_state ← gets w_state;
  modify (λ w, w <| w_state := state |> <| w_state_change := u32 (w_state_change w + 1) |>);;
  call Call_if_set_multicast;;
  (if (old_state =? ISM_Down) || (state =? ISM_Down) then call Call_check_abr_status else mret tt);;
  (if state =? ISM_Down then
     modify (λ w, if w_act_ints w >? 0 then w <| w_act_ints := w_act_ints w - 1 |> else w)
   else if old_state =? ISM_Down then modify (λ w, w <| w_act_ints := w_act_ints w + 1 |>)
   else mret tt);;
  call Call_router_lsa_update_area;;
  (if (old_state !=? ISM_DR) && (state =? ISM_DR) then call Call_network_lsa_update
   else if (old_state =? ISM_DR) && (state !=? ISM_DR) then network_lsa_clear
   else mret tt);;
  call Call_check_abr_status.

(** ** The neighbour state machine (ospf_nsm.c) *)

Definition nsm_timer_set (p : nat) : M unit :=
  n ← nbr p;
  let state := n_state n in
  if (state =? NSM_Deleted) || (state =? NSM_Down) then
    upd_nbr p (λ n, n <| n_t_inactivity := false |> <| n_t_hello_reply := false |> <| n_t_db_desc := false |>
                      <| n_t_ls_upd := false |>);;
    ls_req_timer_off p
  else if (state =? NSM_Attempt) || (state =? NSM_Init) || (state =? NSM_TwoWay) then
    upd_nbr p (λ n, n <| n_t_db_desc := false |> <| n_t_ls_upd := false |>);;
    ls_req_timer_off p
  else if state =? NSM_ExStart then
    upd_nbr p (λ n, n <| n_t_db_desc := true |> <| n_t_ls_upd := false |>);;
    ls_req_timer_off p
  else if state =? NSM_Exchange then
    upd_nbr p (λ n, n <| n_t_ls_upd := true |>
      <| n_t_db_desc := if negb (CHECK_FLAG (n_dd_flags n) OSPF_DD_FLAG_MS) then false else n_t_db_desc n |>)
  else upd_nbr p (λ n, n <| n_t_db_desc := false |>).

Definition nsm_should_adj n s (type : Z) : bool :=
  (type =? OSPF_IFTYPE_POINTOPOINT) || (type =? OSPF_IFTYPE_POINTOMULTIPOINT) || (type =? OSPF_IFTYPE_VIRTUALLINK)
  || (e_address E =? n_d_router s) || (e_address E =? n_bd_router s)
  || (n_address n =? n_d_router s) || (n_address n =? n_bd_router s).

Inductive nsm_func :=
  | nsm_packet_received
  | nsm_start
  | nsm_twoway_received
  | nsm_negotiation_done
  | nsm_exchange_done
  | nsm_adj_ok
  | nsm_kill_nbr.

(** The rows of the states from Attempt on end in the same way. *)
Definition NSM : list (list (option nsm_func * Z)) :=
  let kill := replicate 3 (Some nsm_kill_nbr, NSM_Deleted) in [
  replicate 14 (None, NSM_DependUpon);
  replicate 14 (None, NSM_Deleted);
  [ (None, NSM_DependUpon); (Some nsm_packet_received, NSM_Init); (Some nsm_start, NSM_Attempt) ]
    ++ replicate 8 (None, NSM_Down) ++ kill;
  [ (None, NSM_DependUpon); (Some nsm_packet_received, NSM_Init) ] ++ replicate 9 (None, NSM_Attempt) ++ kill;
  [ (None, NSM_DependUpon); (Some nsm_packet_received, NSM_Init); (None, NSM_Init);
    (Some nsm_twoway_received, NSM_DependUpon) ] ++ replicate 7 (None, NSM_Init) ++ kill;
  [ (None, NSM_DependUpon); (Some nsm_packet_received, NSM_TwoWay) ] ++ replicate 6 (None, NSM_TwoWay)
    ++ [ (Some nsm_adj_ok, NSM_DependUpon); (None, NSM_TwoWay); (None, NSM_Init) ] ++ kill;
  [ (None, NSM_DependUpon); (Some nsm_packet_received, NSM_ExStart); (None, NSM_ExStart); (None, NSM_ExStart);
    (Some nsm_negotiation_done, NSM_Exchange); (None, NSM_ExStart); (None, NSM_ExStart); (None, NSM_ExStart);
    (Some nsm_adj_ok, NSM_DependUpon); (None, NSM_ExStart); (None, NSM_Init) ] ++ kill;
  [ (None, NSM_DependUpon); (Some nsm_packet_received, NSM_Exchange); (None, NSM_Exchange); (None, NSM_Exchange);
    (None, NSM_Exchange); (Some nsm_exchange_done, NSM_DependUpon); (None, NSM_ExStart); (None, NSM_Exchange);
    (Some nsm_adj_ok, NSM_DependUpon); (None, NSM_ExStart); (None, NSM_Init) ] ++ kill;
  [ (None, NSM_DependUpon); (Some nsm_packet_received, NSM_Loading); (None, NSM_Loading); (None, NSM_Loading);
    (None, NSM_Loading); (None, NSM_Loading); (None, NSM_ExStart); (None, NSM_Full);
    (Some nsm_adj_ok, NSM_DependUpon); (None, NSM_ExStart); (None, NSM_Init) ] ++ kill;
  [ (None, NSM_DependUpon); (Some nsm_packet_received, NSM_Full); (None, NSM_Full); (None, NSM_Full);
    (None, NSM_Full); (None, NSM_Full); (None, NSM_ExStart); (None, NSM_Full);
    (Some nsm_adj_ok, NSM_DependUpon); (None, NSM_ExStart); (None, NSM_Init) ] ++ kill ].

Definition nsm_entry (state event : Z) : M (option nsm_func * Z) :=
  row ← of_option (arr NSM state); of_option (arr row event).

Definition poll_timer (p : nat) (on : bool) : M unit :=
  n ← nbr p;
  match n_nbr_nbma n with Some q => upd_nbma q (λ b, b <| nb_t_poll := on |>) | None => mret tt end.

(** The walk over one table of the database the summary list is filled from. *)
Fixpoint summary_walk (p : nat) (lps : list nat) : M unit :=
  match lps with
  | [] => mret tt
  | lp :: lps => ospf_db_summary_add E p lp;; summary_walk p lps
  end.
Definition LSDB_LOOP (db : ospf_lsdb RT) (type : Z) (p : nat) : M unit :=
  t ← on_lsas (ldt db type);
  summary_walk p (rt_entries (lt_db t)).

Definition negotiation_done (p : nat) : M Z :=
  area ← gets w_area_lsdb;
  LSDB_LOOP area OSPF_ROUTER_LSA p;;
  LSDB_LOOP area OSPF_NETWORK_LSA p;;
  LSDB_LOOP area OSPF_SUMMARY_LSA p;;
  LSDB_LOOP area OSPF_ASBR_SUMMARY_LSA p;;
  n ← nbr p;
  (if CHECK_FLAG (n_options n) OSPF_OPTION_NP then LSDB_LOOP area OSPF_AS_NSSA_LSA p else mret tt);;
  type ← gets w_type;
  (if (type !=? OSPF_IFTYPE_VIRTUALLINK) && (e_external_routing E =? OSPF_AREA_DEFAULT) then
     top ← gets w_as_lsdb; LSDB_LOOP top OSPF_AS_EXTERNAL_LSA p
   else mret tt);;
  mret 0.

Definition kill_nbr (p : nat) : M Z :=
  q ← gets w_nbr_self;
  assert (negb (bool_decide (p = q)));;
  type ← gets w_type;
  n ← nbr p;
  (match n_nbr_nbma n with
   | Some q =>
       if type =? OSPF_IFTYPE_NBMA then
         upd_nbma q (λ b, b <| nb_nbr := None |> <| nb_state_change := n_state_change n |>);;
         upd_nbr p (λ n, n <| n_nbr_nbma := None |>);;
         upd_nbma q (λ b, b <| nb_t_poll := true |>)
       else mret tt
   | None => mret tt
   end);;
  mret 0.

(** The functions of the table. *)
Definition nsm_run (f : nsm_func) (p : nat) : M Z :=
  n ← nbr p;
  s ← self;
  type ← gets w_type;
  match f with
  | nsm_packet_received =>
      upd_nbr p (λ n, n <| n_t_inactivity := true |>);;
      (if type =? OSPF_IFTYPE_NBMA then poll_timer p false else mret tt);;
      mret 0
  | nsm_start =>
      poll_timer p false;;
      upd_nbr p (λ n, n <| n_t_inactivity := true |>);;
      mret 0
  | nsm_twoway_received => mret (if nsm_should_adj n s type then NSM_ExStart else NSM_TwoWay)
  | nsm_negotiation_done => negotiation_done p
  | nsm_exchange_done =>
      if ospf_ls_request_isempty n then mret NSM_Full
      else ospf_ls_req_send p;; mret NSM_Loading
  | nsm_adj_ok =>
      let adj := nsm_should_adj n s type in
      mret (if (n_state n =? NSM_TwoWay) && adj then NSM_ExStart
            else if (n_state n >=? NSM_ExStart) && negb adj then NSM_TwoWay
            else n_state n)
  | nsm_kill_nbr => kill_nbr p
  end.

Definition nsm_clear_adj (p : nat) : M unit :=
  n ← nbr p;
  (if negb (ospf_db_summary_isempty n) then ospf_db_summary_clear p else mret tt);;
  n ← nbr p;
  (if negb (ospf_ls_request_isempty n) then ospf_ls_request_delete_all p else mret tt);;
  n ← nbr p;
  if negb (ospf_ls_retransmit_isempty n) then ospf_ls_retransmit_clear p else mret tt.

(** The counters of the full adjacencies, when a neighbour becomes Full or ceases to be. *)
Definition full_change (full : bool) : M unit :=
  type ← gets w_type;
  let vl := type =? OSPF_IFTYPE_VIRTUALLINK in
  (if full then
     modify (λ w, w <| w_full_nbrs := u32 (w_full_nbrs w + 1) |> <| w_area_full_nbrs := w_area_full_nbrs w + 1 |>);;
     call Call_check_abr_status;;
     o ← gets w_full_vls;
     (match o with
      | Some c =>
          if vl then
            modify (λ w, w <| w_full_vls := Some (c + 1) |>);;
            if c + 1 =? 1 then call Call_schedule_abr_task else mret tt
          else mret tt
      | None => mret tt
      end);;
     call Call_external_lsa_refresh
   else
     modify (λ w, w <| w_full_nbrs := u32 (w_full_nbrs w - 1) |> <| w_area_full_nbrs := w_area_full_nbrs w - 1 |>);;
     call Call_check_abr_status;;
     o ← gets w_full_vls;
     match o with
     | Some c =>
         if vl && (c >? 0) then
           modify (λ w, w <| w_full_vls := Some (c - 1) |>);;
           if c - 1 =? 0 then call Call_schedule_abr_task else mret tt
         else mret tt
     | None => mret tt
     end);;
  call Call_router_lsa_update_area;;
  o ← gets w_full_vls;
  (match o with Some _ => if vl then call Call_router_lsa_update_vl_area else mret tt | None => mret tt end);;
  state ← gets w_state;
  if state =? ISM_DR then
    o ← gets w_network_lsa_self;
    c ← gets w_full_nbrs;
    match o with
    | Some _ => if c =? 0 then network_lsa_clear else call Call_network_lsa_update
    | None => call Call_network_lsa_update
    end
  else mret tt.

(** Starts the exchange of the databases. *)
Definition exstart (p : nat) : M unit :=
  upd_nbr p (λ n, n <| n_dd_seqnum := if n_dd_seqnum n =? 0 then u32 (e_time E) else u32 (n_dd_seqnum n + 1) |>
                    <| n_dd_flags := OSPF_DD_FLAG_I ||| OSPF_DD_FLAG_M ||| OSPF_DD_FLAG_MS |>);;
  ospf_db_desc_send p.

(** [ism] executes an event of the interface. *)
Definition nsm_change_state (ism : Z → M unit) (p : nat) (state : Z) : M unit :=
  n ← nbr p;
  let old_state := n_state n in
  upd_nbr p (λ n, n <| n_state := state |> <| n_state_change := u32 (n_state_change n + 1) |>);;
  (if xorb (old_state =? NSM_Full) (state =? NSM_Full) then full_change (state =? NSM_Full) else mret tt);;
  (if (old_state >? NSM_ExStart) && (state <=? NSM_ExStart) then nsm_clear_adj p else mret tt);;
  (if state =? NSM_ExStart then exstart p else mret tt);;
  (if state =? NSM_Down then upd_nbr p (λ n, n <| n_crypt_seqnum := 0 |>) else mret tt);;
  oi_state ← gets w_state;
  if (oi_state =? ISM_DROther) || (oi_state =? ISM_Backup) || (oi_state =? ISM_DR) then
    if xorb (old_state <? NSM_TwoWay) (state <? NSM_TwoWay) then ism ISM_NeighborChange else mret tt
  else mret tt.

Definition nsm_event (ism : Z → M unit) (p : nat) (event : Z) : M unit :=
  n ← nbr p;
  ent ← nsm_entry (n_state n) event;
  next_state ← (match ent.1 with
                | None => mret ent.2
                | Some f =>
                    func_state ← nsm_run f p;
                    n ← nbr p;
                    ent ← nsm_entry (n_state n) event;
                    mret (if ent.2 =? NSM_DependUpon then func_state else ent.2)
                end);
  assert (next_state !=? NSM_DependUpon);;
  n ← nbr p;
  (if next_state !=? n_state n then nsm_change_state ism p next_state else mret tt);;
  nsm_timer_set p;;
  n ← nbr p;
  if n_state n =? NSM_Deleted then ospf_nbr_delete p else mret tt.

(** ** Both machines *)

(** Takes out the first node with [q]. *)
Fixpoint listnode_delete (q : nat) (l : list nat) : list nat :=
  match l with [] => [] | x :: l => if bool_decide (x = q) then l else x :: listnode_delete q l end.

Fixpoint nbma_detach (qs : list nat) : M unit :=
  match qs with
  | [] => mret tt
  | q :: qs =>
      upd_nbma q (λ b, b <| nb_t_poll := false |>);;
      b ← nbma q;
      (match nb_nbr b with
       | Some p => upd_nbr p (λ n, n <| n_nbr_nbma := None |>);; upd_nbma q (λ b, b <| nb_nbr := None |>)
       | None => mret tt
       end);;
      upd_nbma q (λ b, b <| nb_oi := false |>);;
      modify (λ w, w <| w_if_nbma := listnode_delete q (w_if_nbma w) |>);;
      nbma_detach qs
  end.

(** [nsm] executes an event of a neighbour. *)
Fixpoint kill_walk (nsm : nat → Z → M unit) (ks : list Z) : M unit :=
  match ks with
  | [] => mret tt
  | k :: ks =>
      o ← gets (λ w, rt_info k (w_nbrs w));
      s ← gets w_nbr_self;
      (match o with
       | Some p => if bool_decide (p = s) then mret tt else nsm p NSM_KillNbr
       | None => mret tt
       end);;
      kill_walk nsm ks
  end.

Fixpoint unlock_all (lps : list nat) : fsM lheap unit :=
  match lps with [] => mret tt | lp :: lps => ospf_lsa_unlock (Some lp);; unlock_all lps end.

Fixpoint upd_queue_walk (ks : list Z) : M unit :=
  match ks with
  | [] => mret tt
  | k :: ks =>
      o ← gets (λ w, rt_info k (w_ls_upd_queue w));
      (match o with
       | None => mret tt
       | Some lst =>
           on_lsas (unlock_all lst);;
           modify (λ w, w <| w_ls_upd_queue := rt_set k None (w_ls_upd_queue w) |>)
       end);;
      upd_queue_walk ks
  end.

Definition is_ls_upd (e : ospf_event) : bool := match e with Ev_ls_upd => true | _ => false end.

Definition ospf_ls_upd_queue_empty : M unit :=
  ks ← gets (λ w, rt_walk (w_ls_upd_queue w));
  upd_queue_walk ks;;
  e ← gets w_t_ls_upd_event;
  if e : bool then drop_events is_ls_upd;; modify (λ w, w <| w_t_ls_upd_event := false |>) else mret tt.

Definition ospf_if_cleanup (nsm : nat → Z → M unit) : M unit :=
  qs ← gets w_if_nbma;
  nbma_detach qs;;
  ks ← gets (λ w, rt_walk (w_nbrs w));
  kill_walk nsm ks;;
  acks ← gets w_ls_ack;
  on_lsas (unlock_all acks);;
  modify (λ w, w <| w_ls_ack := [] |> <| w_crypt_seqnum := 0 |>);;
  ospf_ls_upd_queue_empty;;
  p ← gets w_nbr_self;
  ospf_nbr_delete p;;
  q ← ospf_nbr_new E;
  modify (λ w, w <| w_nbr_self := q |>);;
  ospf_nbr_add_self E.

Definition ospf_nbr_nbma_add (nsm : nat → Z → M unit) (q : nat) : M unit :=
  type ← gets w_type;
  b ← nbma q;
  s ← self;
  if type !=? OSPF_IFTYPE_NBMA then mret tt
  else match nb_nbr b with
  | Some _ => mret tt
  | None =>
      if n_address s =? nb_addr b then mret tt
      else
        upd_nbma q (λ b, b <| nb_oi := true |>);;
        modify (λ w, w <| w_if_nbma := w_if_nbma w ++ [q] |>);;
        o ← gets (λ w, rt_info (nb_addr b) (w_nbrs w));
        match o with
        | Some p =>
            upd_nbr p (λ n, n <| n_nbr_nbma := Some q |>);;
            upd_nbma q (λ b, b <| nb_nbr := Some p |>)
        | None =>
            p ← ospf_nbr_new E;
            modify (λ w, w <| w_nbrs := rt_set (nb_addr b) (Some p) (w_nbrs w) |>);;
            upd_nbr p (λ n, n <| n_state := NSM_Down |> <| n_src := nb_addr b |> <| n_nbr_nbma := Some q |>
                              <| n_priority := nb_priority b |> <| n_address := nb_addr b |> <| n_prefixlen := 32 |>);;
            upd_nbma q (λ b, b <| nb_nbr := Some p |>);;
            nsm p NSM_Start
        end
  end.

Fixpoint nbma_update_walk (nsm : nat → Z → M unit) (ks : list Z) : M unit :=
  match ks with
  | [] => mret tt
  | k :: ks =>
      o ← gets (λ w, rt_info k (w_nbr_nbma w));
      (match o with
       | None => mret tt
       | Some q =>
           b ← nbma q;
           if negb (nb_oi b) && bool_decide (nb_nbr b = None) && e_prefix_match E (nb_addr b)
           then ospf_nbr_nbma_add nsm q else mret tt
       end);;
      nbma_update_walk nsm ks
  end.

Definition ospf_nbr_nbma_if_update (nsm : nat → Z → M unit) : M unit :=
  type ← gets w_type;
  if type !=? OSPF_IFTYPE_NBMA then mret tt
  else ks ← gets (λ w, rt_walk (w_nbr_nbma w)); nbma_update_walk nsm ks.

Definition interface_up (nsm : nat → Z → M unit) : M Z :=
  type ← gets w_type;
  s ← self;
  let next_state :=
    if (type =? OSPF_IFTYPE_POINTOPOINT) || (type =? OSPF_IFTYPE_POINTOMULTIPOINT)
       || (type =? OSPF_IFTYPE_VIRTUALLINK) then ISM_PointToPoint
    else if n_priority s =? 0 then ISM_DROther
    else ISM_Waiting in
  (if type =? OSPF_IFTYPE_NBMA then ospf_nbr_nbma_if_update nsm else mret tt);;
  mret next_state.

Definition ism_run (nsm : nat → Z → M unit) (f : ism_func) : M Z :=
  match f with
  | ism_ignore | ism_loop_ind => mret 0
  | ism_interface_up => interface_up nsm
  | ism_interface_down => ospf_if_cleanup nsm;; mret 0
  | ism_backup_seen | ism_wait_timer | ism_neighbor_change => ospf_dr_election
  end.

Definition ism_event (nsm : nat → Z → M unit) (event : Z) : M unit :=
  state ← gets w_state;
  ent ← ism_entry state event;
  next_state ← ism_run nsm ent.1;
  state ← gets w_state;
  next_state ← (if negb (tst next_state) then ent ← ism_entry state event; mret ent.2 else mret next_state);
  (if next_state !=? state then ism_change_state next_state else mret tt);;
  ism_timer_set.

(** An event of the interface executes events of the neighbours and the other way round; [depth] bounds the nesting. *)
Fixpoint ospf_ism_event (depth : nat) (event : Z) : M unit :=
  match depth with
  | O => fault
  | S d => ism_event (λ p e, ospf_nsm_event d p e) event
  end
with ospf_nsm_event (depth : nat) (p : nat) (event : Z) : M unit :=
  match depth with
  | O => fault
  | S d => nsm_event (λ e, ospf_ism_event d e) p event
  end.

Definition OSPF_ISM_EVENT_EXECUTE : Z → M unit := ospf_ism_event 3.
Definition OSPF_NSM_EVENT_EXECUTE : nat → Z → M unit := ospf_nsm_event 2.

Definition ospf_if_up : M unit :=
  type ← gets w_type;
  if type =? OSPF_IFTYPE_LOOPBACK then OSPF_ISM_EVENT_SCHEDULE ISM_LoopInd
  else
    modify (λ w, w <| w_obuf := match w_obuf w with Some q => Some q | None => Some [] end |>);;
    OSPF_ISM_EVENT_SCHEDULE ISM_InterfaceUp.

Definition ospf_if_down : M unit :=
  OSPF_ISM_EVENT_EXECUTE ISM_InterfaceDown;;
  modify (λ w, w <| w_obuf := None |>).

Definition ospf_if_reset_variables : M unit :=
  modify (λ w, w <| w_type := if e_vl_data E then OSPF_IFTYPE_VIRTUALLINK
                              else if w_type w !=? OSPF_IFTYPE_NBMA then OSPF_IFTYPE_BROADCAST else w_type w |>
                 <| w_state := ISM_Down |> <| w_crypt_seqnum := 0 |> <| w_v_ls_ack := 1 |>).

(** ** Timers of a neighbour *)

Definition ospf_inactivity_timer (p : nat) : M unit :=
  upd_nbr p (λ n, n <| n_t_inactivity := false |>);;
  OSPF_NSM_EVENT_SCHEDULE p NSM_InactivityTimer.

Definition ospf_db_desc_timer (p : nat) : M unit :=
  upd_nbr p (λ n, n <| n_t_db_desc := false |>);;
  n ← nbr p;
  assert (bool_decide (is_Some (n_last_send n)));;
  ospf_db_desc_resend p;;
  upd_nbr p (λ n, n <| n_t_db_desc := true |>).

Definition ospf_hello_reply_timer (p : nat) : M unit :=
  upd_nbr p (λ n, n <| n_t_hello_reply := false |>);;
  n ← nbr p;
  ospf_hello_send_sub (n_address n).

(** Whether the configured neighbour has a neighbour structure that is not Down. *)
Definition nbma_busy (o : option nat) : M bool :=
  match o with Some p => n ← nbr p; mret (n_state n !=? NSM_Down) | None => mret false end.

Definition ospf_poll_send (q : nat) : M unit :=
  b ← nbma q;
  assert (nb_oi b);;
  if e_passive E then mret tt
  else
    type ← gets w_type;
    state ← gets w_state;
    s ← self;
    if type !=? OSPF_IFTYPE_NBMA then mret tt
    else
      busy ← nbma_busy (nb_nbr b);
      if busy : bool then mret tt
      else if n_priority s =? 0 then mret tt
      else if (nb_priority b =? 0) && (state !=? ISM_DR) && (state !=? ISM_Backup) then mret tt
      else ospf_hello_send_sub (nb_addr b).

Definition ospf_poll_timer (q : nat) : M unit :=
  upd_nbma q (λ b, b <| nb_t_poll := false |>);;
  ospf_poll_send q;;
  b ← nbma q;
  if nb_v_poll b >? 0 then upd_nbma q (λ b, b <| nb_t_poll := true |>) else mret tt.

Definition ospf_check_nbr_loading (p : nat) : M unit :=
  n ← nbr p;
  if n_state n =? NSM_Loading then
    if ospf_ls_request_isempty n then OSPF_NSM_EVENT_SCHEDULE p NSM_LoadingDone
    else match n_ls_req_last n with None => ospf_ls_req_event p | Some _ => mret tt end
  else mret tt.

(** ** Receiving (ospf_packet.c) *)

Definition set_nbr_info (p : nat) (hello : ospf_hello) : M unit :=
  upd_nbr p (λ n, n <| n_priority := he_priority hello |> <| n_d_router := he_d_router hello |>
                    <| n_bd_router := he_bd_router hello |>).

(** The options of the packet do not fit the area; [o] are those of this router. *)
Definition hello_mismatch (o : Z) (hello : ospf_hello) : bool :=
  if e_external_routing E =? OSPF_AREA_NSSA then
    negb (CHECK_FLAG o OSPF_OPTION_NP && CHECK_FLAG (he_options hello) OSPF_OPTION_NP
          && negb (CHECK_FLAG o OSPF_OPTION_E) && negb (CHECK_FLAG (he_options hello) OSPF_OPTION_E))
  else negb (Bool.eqb (CHECK_FLAG o OSPF_OPTION_E) (CHECK_FLAG (he_options hello) OSPF_OPTION_E)).

(** A Hello that is not for this interface is ignored. *)
Definition hello_ignored (type router_id o : Z) (hello : ospf_hello) : bool :=
  (router_id =? e_router_id E)
  || ((type !=? OSPF_IFTYPE_POINTOPOINT) && (type !=? OSPF_IFTYPE_VIRTUALLINK)
      && (e_prefixlen E !=? e_ip_masklen E (he_network_mask hello)))
  || (e_v_wait E !=? he_dead_interval hello)
  || ((e_fast_hello E =? 0) && (e_v_hello E !=? he_hello_interval hello))
  || CHECK_FLAG (he_options hello) OSPF_OPTION_T
  || hello_mismatch o hello.

Definition BackupSeen_event (seen : bool) : M unit :=
  state ← gets w_state;
  if seen && (state =? ISM_Waiting) then OSPF_ISM_EVENT_SCHEDULE ISM_BackupSeen else mret tt.
Definition NeighborChange_event (changed : bool) : M unit :=
  if changed then OSPF_ISM_EVENT_SCHEDULE ISM_NeighborChange else mret tt.

(** [src] is the source address of the packet, [router_id] and [crypt] are from its header. *)
Definition ospf_hello_recv (src router_id : Z) (crypt : option Z) (hello : ospf_hello) : M unit :=
  type ← gets w_type;
  s ← self;
  if hello_ignored type router_id (n_options s) hello then mret tt
  else
    p ← ospf_nbr_get E router_id src (e_ip_masklen E (he_network_mask hello)) crypt;
    n ← nbr p;
    let old_state := n_state n in
    OSPF_NSM_EVENT_SCHEDULE p NSM_PacketReceived;;
    s ← self;
    (if (type =? OSPF_IFTYPE_NBMA) && (n_priority s =? 0) && (he_priority hello >? 0) && (n_d_router s !=? src)
        && (n_bd_router s !=? src)
     then upd_nbr p (λ n, n <| n_t_hello_reply := true |>) else mret tt);;
    if (type =? OSPF_IFTYPE_NBMA) && ((old_state =? NSM_Down) || (old_state =? NSM_Attempt)) then
      OSPF_NSM_EVENT_SCHEDULE p NSM_OneWayReceived;;
      set_nbr_info p hello
    else if ospf_nbr_bidirectional (e_router_id E) (he_neighbors hello) then
      OSPF_NSM_EVENT_SCHEDULE p NSM_TwoWayReceived;;
      upd_nbr p (λ n, n <| n_options := n_options n ||| he_options hello |>);;
      n ← nbr p;
      let a := n_address n in
      let d := he_d_router hello in
      let b := he_bd_router hello in
      BackupSeen_event ((a =? d) && (b =? 0));;
      BackupSeen_event (a =? b);;
      NeighborChange_event (((a =? d) && (a !=? n_d_router n)) || ((a !=? d) && (a =? n_d_router n)));;
      NeighborChange_event (((a =? b) && (a !=? n_bd_router n)) || ((a !=? b) && (a =? n_bd_router n)));;
      NeighborChange_event ((n_priority n >=? 0) && (n_priority n !=? he_priority hello));;
      set_nbr_info p hello
    else
      OSPF_NSM_EVENT_SCHEDULE p NSM_OneWayReceived;;
      set_nbr_info p hello.

Definition ospf_lsa_lookup (type id adv_router : Z) : M (option nat) :=
  area ← gets w_area_lsdb;
  top ← gets w_as_lsdb;
  if (type =? OSPF_ROUTER_LSA) || (type =? OSPF_NETWORK_LSA) || (type =? OSPF_SUMMARY_LSA)
     || (type =? OSPF_ASBR_SUMMARY_LSA) || (type =? OSPF_AS_NSSA_LSA)
  then of_option (ospf_lsdb_lookup_by_id area type id adv_router)
  else if type =? OSPF_AS_EXTERNAL_LSA then of_option (ospf_lsdb_lookup_by_id top type id adv_router)
  else mret None.

Definition ospf_lsa_lookup_by_header (lsah : lsa_header) : M (option nat) :=
  ospf_lsa_lookup (h_type lsah) (h_id lsah) (h_adv_router lsah).

(** One header of a description: whether the type is acceptable, and what is done with it. *)
Definition bad_header (lsah : lsa_header) : bool :=
  (h_type lsah <? OSPF_MIN_LSA) || (h_type lsah >=? OSPF_MAX_LSA)
  || ((h_type lsah =? OSPF_AS_EXTERNAL_LSA) && (e_external_routing E =? OSPF_AREA_STUB)).

Definition db_desc_header (p : nat) (lsah : lsa_header) : M unit :=
  new ← ospf_ls_request_new E lsah;
  find ← ospf_lsa_lookup_by_header lsah;
  lf ← (match find with None => mret None | Some q => l ← on_lsas (lsa q); mret (Some l) end);
  ln ← on_lsas (lsa new);
  let r := ospf_lsa_more_recent (e_now E) lf (Some ln) in
  (if r =? -1 then ospf_ls_request_add p new else mret tt);;
  (if (r =? -1) || (r =? 0) then
     match find with Some q => on_db_sum p (λ db, ospf_lsdb_delete db q) | None => mret tt end
   else mret tt);;
  on_lsas (ospf_lsa_discard new).

(** Whether all headers have been processed. *)
Fixpoint db_desc_headers (p : nat) (hs : list lsa_header) : M bool :=
  match hs with
  | [] => mret true
  | lsah :: hs =>
      if bad_header lsah then OSPF_NSM_EVENT_SCHEDULE p NSM_SeqNumberMismatch;; mret false
      else db_desc_header p lsah;; db_desc_headers p hs
  end.

Definition ospf_db_desc_save_current (p : nat) (dd : ospf_db_desc) : M unit :=
  upd_nbr p (λ n, n <| n_recv_flags := dd_flags dd |> <| n_recv_options := dd_options dd |>
                    <| n_recv_seqnum := dd_seqnum dd |>).

Definition IS_SET_DD_MS (f : Z) : bool := CHECK_FLAG f OSPF_DD_FLAG_MS.
Definition IS_SET_DD_M (f : Z) : bool := CHECK_FLAG f OSPF_DD_FLAG_M.
Definition IS_SET_DD_I (f : Z) : bool := CHECK_FLAG f OSPF_DD_FLAG_I.

Definition ospf_db_desc_proc (p : nat) (dd : ospf_db_desc) : M unit :=
  ok ← db_desc_headers p (dd_headers dd);
  if negb ok then mret tt
  else
    n ← nbr p;
    (if IS_SET_DD_MS (n_dd_flags n) then
       upd_nbr p (λ n, n <| n_dd_seqnum := u32 (n_dd_seqnum n + 1) |>);;
       if negb (IS_SET_DD_M (dd_flags dd)) && negb (IS_SET_DD_M (n_dd_flags n))
       then OSPF_NSM_EVENT_SCHEDULE p NSM_ExchangeDone
       else ospf_db_desc_send p
     else
       upd_nbr p (λ n, n <| n_dd_seqnum := dd_seqnum dd |>);;
       ospf_db_desc_send p;;
       n ← nbr p;
       if negb (IS_SET_DD_M (dd_flags dd)) && negb (IS_SET_DD_M (n_dd_flags n))
       then OSPF_NSM_EVENT_SCHEDULE p NSM_ExchangeDone
       else mret tt);;
    ospf_db_desc_save_current p dd.

Definition ospf_db_desc_is_dup (dd : ospf_db_desc) n : bool :=
  (dd_options dd =? n_recv_options n) && (dd_flags dd =? n_recv_flags n) && (dd_seqnum dd =? n_recv_seqnum n).

(** The number of bytes behind the OSPF header. *)
Definition dd_size (dd : ospf_db_desc) : Z :=
  OSPF_DB_DESC_MIN_SIZE + OSPF_LSA_HEADER_SIZE * Z.of_nat (length (dd_headers dd)) + dd_slack dd.

(** A description received in the state ExStart. *)
Definition db_desc_exstart (p : nat) (dd : ospf_db_desc) : M unit :=
  n ← nbr p;
  let negotiated (flags : Z) : M unit :=
    upd_nbr p (λ n, n <| n_dd_flags := clr (n_dd_flags n) flags |> <| n_options := dd_options dd |>);;
    OSPF_NSM_EVENT_EXECUTE p NSM_NegotiationDone;;
    ospf_db_desc_proc p dd in
  if ((dd_flags dd &&& OSPF_DD_FLAG_ALL) =? OSPF_DD_FLAG_ALL) && (dd_size dd =? OSPF_DB_DESC_MIN_SIZE) then
    if n_router_id n >? e_router_id E then
      upd_nbr p (λ n, n <| n_dd_seqnum := dd_seqnum dd |>);;
      negotiated (OSPF_DD_FLAG_MS ||| OSPF_DD_FLAG_I)
    else mret tt
  else if negb (IS_SET_DD_MS (dd_flags dd)) && negb (IS_SET_DD_I (dd_flags dd))
          && (dd_seqnum dd =? n_dd_seqnum n) && (n_router_id n <? e_router_id E)
  then negotiated OSPF_DD_FLAG_I
  else mret tt.

(** A description received in the state Exchange. *)
Definition db_desc_exchange (p : nat) (dd : ospf_db_desc) : M unit :=
  n ← nbr p;
  if ospf_db_desc_is_dup dd n then
    if IS_SET_DD_MS (n_dd_flags n) then mret tt else ospf_db_desc_resend p
  else if negb (Bool.eqb (IS_SET_DD_MS (dd_flags dd)) (IS_SET_DD_MS (n_recv_flags n)))
  then OSPF_NSM_EVENT_SCHEDULE p NSM_SeqNumberMismatch
  else if IS_SET_DD_I (dd_flags dd) then OSPF_NSM_EVENT_SCHEDULE p NSM_SeqNumberMismatch
  else if dd_options dd !=? n_options n then OSPF_NSM_EVENT_SCHEDULE p NSM_SeqNumberMismatch
  else if (IS_SET_DD_MS (n_dd_flags n) && (dd_seqnum dd !=? n_dd_seqnum n))
          || (negb (IS_SET_DD_MS (n_dd_flags n)) && (dd_seqnum dd !=? u32 (n_dd_seqnum n + 1)))
  then OSPF_NSM_EVENT_SCHEDULE p NSM_SeqNumberMismatch
  else ospf_db_desc_proc p dd.

(** A description received in the states Loading and Full. *)
Definition db_desc_loading (p : nat) (dd : ospf_db_desc) : M unit :=
  n ← nbr p;
  if ospf_db_desc_is_dup dd n then
    if IS_SET_DD_MS (n_dd_flags n) then mret tt
    else if tv_cmp (tv_sub (e_now E) (n_last_send_ts n)) (int2tv (n_v_inactivity n)) <? 0
    then ospf_db_desc_resend p
    else OSPF_NSM_EVENT_SCHEDULE p NSM_SeqNumberMismatch
  else OSPF_NSM_EVENT_SCHEDULE p NSM_SeqNumberMismatch.

Definition ospf_db_desc_recv (src router_id : Z) (dd : ospf_db_desc) : M unit :=
  o ← ospf_nbr_lookup src router_id;
  match o with
  | None => mret tt
  | Some p =>
      n ← nbr p;
      if (e_mtu_ignore E =? 0) && (dd_mtu dd >? e_mtu E) then mret tt
      else
        let options := if (e_external_routing E =? OSPF_AREA_NSSA) && CHECK_FLAG (n_options n) OSPF_OPTION_NP
                          && negb (CHECK_FLAG (dd_options dd) OSPF_OPTION_NP)
                       then dd_options dd ||| OSPF_OPTION_NP else dd_options dd in
        let dd := mk_dd (dd_mtu dd) options (dd_flags dd) (dd_seqnum dd) (dd_headers dd) (dd_slack dd) in
        if CHECK_FLAG options OSPF_OPTION_T then mret tt
        else
          OSPF_NSM_EVENT_SCHEDULE p NSM_PacketReceived;;
          if n_state n =? NSM_Init then
            OSPF_NSM_EVENT_EXECUTE p NSM_TwoWayReceived;;
            n ← nbr p;
            if n_state n =? NSM_ExStart then db_desc_exstart p dd else mret tt
          else if n_state n =? NSM_ExStart then db_desc_exstart p dd
          else if n_state n =? NSM_Exchange then db_desc_exchange p dd
          else if (n_state n =? NSM_Loading) || (n_state n =? NSM_Full) then db_desc_loading p dd
          else mret tt
  end.

(** ** Link State Requests and Updates (ospf_packet.c) *)

(** The destination of an update for the neighbour. *)
Definition upd_dst (type state : Z) n (direct : bool) : Z :=
  if type =? OSPF_IFTYPE_VIRTUALLINK then e_vl_peer_addr E
  else if type =? OSPF_IFTYPE_POINTOPOINT then OSPF_ALLSPFROUTERS
  else if direct then n_address n
  else if (state =? ISM_DR) || (state =? ISM_Backup) then OSPF_ALLSPFROUTERS
  else if type =? OSPF_IFTYPE_POINTOMULTIPOINT then OSPF_ALLSPFROUTERS
  else OSPF_ALLDROUTERS.

Fixpoint lock_all (lps : list nat) : fsM lheap unit :=
  match lps with [] => mret tt | lp :: lps => ospf_lsa_lock lp;; lock_all lps end.

Definition ospf_ls_upd_send (p : nat) (update : list nat) (direct : bool) : M unit :=
  type ← gets w_type;
  state ← gets w_state;
  n ← nbr p;
  let k := upd_dst type state n direct in
  o ← gets (λ w, rt_info k (w_ls_upd_queue w));
  on_lsas (lock_all update);;
  modify (λ w, w <| w_ls_upd_queue := rt_set k (Some (default [] o ++ update)) (w_ls_upd_queue w) |>);;
  e ← gets w_t_ls_upd_event;
  if e : bool then mret tt
  else schedule Ev_ls_upd;; modify (λ w, w <| w_t_ls_upd_event := true |>).

(** The requested LSAs.  [upd] are those collected so far and [len] is the length of an update with them; the
    result is the rest that has to be sent, or [None] for a request that cannot be met. *)
Fixpoint ls_req_collect (p : nat) (direct : bool) (ks : list lsa_key) (upd : list nat) (len : Z) :
    M (option (list nat)) :=
  match ks with
  | [] => mret (Some upd)
  | (type, id, adv_router) :: ks =>
      if (type <? OSPF_MIN_LSA) || (type >=? OSPF_MAX_LSA) then mret None
      else
        find ← ospf_lsa_lookup type id adv_router;
        match find with
        | None => mret None
        | Some lp =>
            l ← on_lsas (lsa lp);
            let length := h_length (l_data l) in
            if len + length >? ospf_packet_max then
              ospf_ls_upd_send p upd direct;;
              ls_req_collect p direct ks [lp] (OSPF_HEADER_SIZE + OSPF_LS_UPD_MIN_SIZE + length)
            else ls_req_collect p direct ks (upd ++ [lp]) (len + length)
        end
  end.

Definition ospf_ls_req_recv (src router_id : Z) (ks : list lsa_key) : M unit :=
  o ← ospf_nbr_lookup src router_id;
  match o with
  | None => mret tt
  | Some p =>
      OSPF_NSM_EVENT_SCHEDULE p NSM_PacketReceived;;
      n ← nbr p;
      if (n_state n !=? NSM_Exchange) && (n_state n !=? NSM_Loading) && (n_state n !=? NSM_Full) then mret tt
      else
        type ← gets w_type;
        let direct := type =? OSPF_IFTYPE_NBMA in
        r ← ls_req_collect p direct ks [] (OSPF_HEADER_SIZE + OSPF_LS_UPD_MIN_SIZE);
        match r with
        | None => OSPF_NSM_EVENT_SCHEDULE p NSM_BadLSReq
        | Some upd => match upd with [] => mret tt | _ => ospf_ls_upd_send p upd direct end
        end
  end.

Definition ls_age_increment (l : ospf_lsa) (delay : Z) : Z :=
  let age := if IS_LSA_MAXAGE (e_now E) l then OSPF_LSA_MAXAGE else LS_AGE (e_now E) l + delay in
  if age >? OSPF_LSA_MAXAGE then OSPF_LSA_MAXAGE else age.

(** The size of the packet for the updates of the list, the first of which is [l]; without a packet the
    caller accesses a NULL pointer. *)
Definition ospf_ls_upd_packet_new (l : ospf_lsa) : option Z :=
  let length := h_length (l_data l) in
  let size := if OSPF_LS_UPD_MIN_SIZE + length >? ospf_packet_max
              then u32 (length + (e_mtu E - ospf_packet_max) + OSPF_LS_UPD_MIN_SIZE) else e_mtu E in
  if size >? OSPF_MAX_PACKET_SIZE then None else Some (size - IP_HEADER_SIZE).

(** The LSAs that fit into the packet, and the rest of the list. *)
Fixpoint ospf_make_ls_upd (size_noauth : Z) (length : Z) (update : list nat) :
    fsM lheap (list nat * list (lsa_header * list Z)) :=
  match update with
  | [] => mret ([], [])
  | lp :: rest =>
      l ← lsa lp;
      let d := l_data l in
      if length + OSPF_HEADER_SIZE + h_length d >? size_noauth then mret (update, [])
      else
        let lsah := mk_lsah (u16 (ls_age_increment l (e_transmit_delay E))) (h_options d) (h_type d) (h_id d)
                      (h_adv_router d) (ls_seqnum d) (h_checksum d) (h_length d) in
        ospf_lsa_unlock (Some lp);;
        r ← ospf_make_ls_upd size_noauth (u16 (length + h_length d)) rest;
        mret (r.1, (lsah, l_body l) :: r.2)
  end.

(** The rest of the list. *)
Definition ospf_ls_upd_queue_send (update : list nat) (addr : Z) : M (list nat) :=
  lp ← of_option (head update);
  l ← on_lsas (lsa lp);
  size ← of_option (ospf_ls_upd_packet_new l);
  r ← on_lsas (ospf_make_ls_upd (size - e_authspace E) OSPF_LS_UPD_MIN_SIZE update);
  type ← gets w_type;
  ospf_packet_add (mk_op (if type =? OSPF_IFTYPE_POINTOPOINT then OSPF_ALLSPFROUTERS else addr) (B_ls_upd r.2));;
  mret r.1.

Fixpoint upd_send_walk (ks : list Z) (again : bool) : M bool :=
  match ks with
  | [] => mret again
  | k :: ks =>
      o ← gets (λ w, rt_info k (w_ls_upd_queue w));
      match o with
      | None => upd_send_walk ks again
      | Some update =>
          rest ← ospf_ls_upd_queue_send update k;
          modify (λ w, w <| w_ls_upd_queue := rt_set k (match rest with [] => None | _ => Some rest end)
                                                (w_ls_upd_queue w) |>);;
          upd_send_walk ks (match rest with [] => again | _ => true end)
      end
  end.

Definition ospf_ls_upd_send_queue_event : M unit :=
  modify (λ w, w <| w_t_ls_upd_event := false |>);;
  ks ← gets (λ w, rt_walk (w_ls_upd_queue w));
  again ← upd_send_walk ks false;
  if again : bool then schedule Ev_ls_upd;; modify (λ w, w <| w_t_ls_upd_event := true |>) else mret tt.

(** ** The event loop *)

(** The thread of an event that has been taken out of the queue. *)
Definition run_event (e : ospf_event) : M unit :=
  match e with
  | Ev_ism e => OSPF_ISM_EVENT_EXECUTE e
  | Ev_nsm p e => OSPF_NSM_EVENT_EXECUTE p e
  | Ev_ls_req p => ospf_ls_req_timer p
  | Ev_ls_upd => ospf_ls_upd_send_queue_event
  end.

(** The first event of the queue is run; nothing happens if there is none. *)
Definition thread_call : M unit := λ w,
  match w_events w with
  | [] => Some (tt, w)
  | e :: es => run_event e (w <| w_events := es |>)
  end.

End Adj.
