(* ===== verification/OspfElect.v ===== *)
(** * OSPF: the election of the designated routers

    [ospf_dr_election] on the neighbours of an interface, against the rules of RFC 2328, section 9.4. *)

From stdpp Require Import gmap.
From S2P Require Import Prelude Fault OspfTable OspfLsa OspfVertex OspfLsaProps OspfNbr OspfAdj.

Section Elect.
Context {RT : Type → Type} `{RouteTableLaws RT}.
Context (E : adj_env).

Implicit Types w : ospf_world RT.
Implicit Types n m s : ospf_neighbor RT.

(** ** Access *)

Lemma nbr_run w p n : w_nbr w !! p = Some n → nbr p w = Some (n, w).
Proof. intros Hp. unfold nbr, mbind, fsM_bind, gets, of_option. by rewrite Hp. Qed.

Lemma upd_nbr_run w p n f :
  w_nbr w !! p = Some n → upd_nbr p f w = Some (tt, w <| w_nbr := <[p := f n]> (w_nbr w) |>).
Proof. intros Hp. unfold upd_nbr. by frun (nbr_run w p n Hp). Qed.

Lemma self_run w s : w_nbr w !! w_nbr_self w = Some s → self w = Some (s, w).
Proof. intros Hs. unfold self. erewrite fbind_run by done. by apply nbr_run. Qed.

Lemma runs_nbr w p n Q : w_nbr w !! p = Some n → Q n w → runs (nbr p) w Q.
Proof. intros Hp. apply runs_run. by apply nbr_run. Qed.

Lemma runs_upd_nbr w p n f (Q : unit → ospf_world RT → Prop) :
  w_nbr w !! p = Some n → Q tt (w <| w_nbr := <[p := f n]> (w_nbr w) |>) → runs (upd_nbr p f) w Q.
Proof. intros Hp. apply runs_run. by apply upd_nbr_run. Qed.

Lemma runs_self w s Q : w_nbr w !! w_nbr_self w = Some s → Q s w → runs self w Q.
Proof. intros Hp. apply runs_run. by apply self_run. Qed.

Definition dom_nbrs w (ks : list Z) : list (nat * ospf_neighbor RT) :=
  omap (λ k, p ← rt_info k (w_nbrs w); n ← w_nbr w !! p; Some (p, n)) ks.

(** What the table of the neighbours points to. *)
Definition nbr_pairs w : list (nat * ospf_neighbor RT) := dom_nbrs w (rt_walk (w_nbrs w)).

Definition nbrs_live w : Prop := ∀ k p, rt_info k (w_nbrs w) = Some p → is_Some (w_nbr w !! p).

Lemma nbr_list_run w ks : nbrs_live w → nbr_list ks w = Some (dom_nbrs w ks, w).
Proof.
  intros Hl. induction ks as [|k ks IH]; [done|]. cbn [nbr_list]. erewrite fbind_run by done.
  cbn. destruct (rt_info k (w_nbrs w)) as [p|] eqn:Ek; [|done]. destruct (Hl k p Ek) as [n Hn].
  erewrite fbind_run by exact (nbr_run w p n Hn). erewrite fbind_run by exact IH. cbn.
  by rewrite Hn.
Qed.

Lemma all_nbrs_run w : nbrs_live w → all_nbrs w = Some (nbr_pairs w, w).
Proof. intros Hl. unfold all_nbrs. erewrite fbind_run by done. by apply nbr_list_run. Qed.

Lemma nbr_pairs_elem w p n : (p, n) ∈ nbr_pairs w → w_nbr w !! p = Some n.
Proof.
  unfold nbr_pairs, dom_nbrs. rewrite list_elem_of_omap. intros (k & _ & Hk).
  destruct (rt_info k (w_nbrs w)) as [q|]; [|done]. cbn in Hk.
  destruct (w_nbr w !! q) eqn:Eq; [|done]. cbn in Hk. by simplify_eq.
Qed.

(** ** The best of a list *)

(** The higher priority; with the same priority, the higher router id. *)
Definition outranks m n : Prop :=
  n_priority n < n_priority m ∨ n_priority n = n_priority m ∧ n_router_id n < n_router_id m.

Lemma outranks_trans a b c : ¬ outranks a b → ¬ outranks b c → ¬ outranks a c.
Proof. unfold outranks. lia. Qed.

Lemma election_sub_spec (l : list (ospf_neighbor RT)) max :
  match election_sub max l with
  | None => max = None ∧ l = []
  | Some n => (n ∈ l ∨ max = Some n) ∧ ∀ m, m ∈ l ∨ max = Some m → ¬ outranks m n
  end.
Proof.
  revert max. induction l as [|x l IH]; intros max; cbn [election_sub].
  { destruct max as [n|]; [|done]. split; [by right|]. intros m [Hm|Hm]; [by apply elem_of_nil in Hm|].
    simplify_eq. unfold outranks. lia. }
  set (max' := match max with None => Some x | Some m => _ end).
  assert (∃ y, max' = Some y ∧ (y = x ∨ max = Some y) ∧ ¬ outranks x y ∧ ∀ m, max = Some m → ¬ outranks m y)
    as (y & Hy & Hy1 & Hy2 & Hy3).
  { unfold max'. destruct max as [m|].
    - destruct (Z.ltb_spec (n_priority m) (n_priority x)); [exists x|
        destruct (Z.eqb_spec (n_priority m) (n_priority x)); [
          destruct (Z.ltb_spec (n_router_id m) (n_router_id x)); [exists x|exists m]|exists m]];
      (split_and!; [done|auto|unfold outranks; lia|intros ? [= <-]; unfold outranks; lia]).
    - exists x. split_and!; [done|auto|unfold outranks; lia|done]. }
  specialize (IH max'). rewrite Hy in IH |- *. destruct (election_sub (Some y) l) as [n|].
  - destruct IH as [IH1 IH2]. split.
    + destruct IH1 as [IH1|[= ->]]; [left; by right|]. destruct Hy1 as [->|Hy1]; [left; by left|by right].
    + assert (¬ outranks y n) as Hyn by (apply IH2; by right). intros m [Hm|Hm].
      * apply elem_of_cons in Hm as [->|Hm]; [by eapply outranks_trans|]. apply IH2. by left.
      * eapply outranks_trans; [|exact Hyn]. by apply Hy3.
  - by destruct IH.
Qed.

(** The address of the best of the routers of the list that satisfy [P]. *)
Definition best (P : ospf_neighbor RT → Prop) (l : list (ospf_neighbor RT)) (a : Z) : Prop :=
  ∃ n, n ∈ l ∧ P n ∧ n_address n = a ∧ ∀ m, m ∈ l → P m → ¬ outranks m n.
Definition nobody (P : ospf_neighbor RT → Prop) (l : list (ospf_neighbor RT)) : Prop := ∀ n, n ∈ l → ¬ P n.

Lemma filter_best (P : ospf_neighbor RT → Prop) `{∀ n, Decision (P n)} l :
  match filter P l with
  | [] => nobody P l
  | _ => ∃ n, ospf_dr_election_sub (filter P l) = Some n ∧ best P l (n_address n)
  end.
Proof.
  destruct (filter P l) as [|x k] eqn:Ef.
  - intros n Hn HP. assert (n ∈ filter P l) as Hf by (by apply list_elem_of_filter).
    rewrite Ef in Hf. by apply elem_of_nil in Hf.
  - rewrite <- Ef. pose proof (election_sub_spec (filter P l) None) as Hs. unfold ospf_dr_election_sub.
    destruct (election_sub None (filter P l)) as [n|].
    + exists n. split; [done|]. destruct Hs as [[Hn|Hn] Hmax]; [|done]. apply list_elem_of_filter in Hn as [HP Hn].
      exists n. split_and!; [done..|]. intros m Hm HPm. apply Hmax. left. by apply list_elem_of_filter.
    + destruct Hs as [_ Hs]. by rewrite Hs in Ef.
Qed.

Definition declares_dr n : Prop := NBR_IS_DR n = true.
Definition declares_bdr n : Prop := NBR_IS_DR n = false ∧ NBR_IS_BDR n = true.
Definition declares_no_dr n : Prop := NBR_IS_DR n = false.

(** RFC 2328, 9.4, steps 2 and 3: the backup designated router [b] and the designated router [d] among the
    eligible routers [l]. *)
Definition rfc_bdr (l : list (ospf_neighbor RT)) (b : Z) : Prop :=
  best declares_bdr l b ∨
  nobody declares_bdr l ∧ (best declares_no_dr l b ∨ nobody declares_no_dr l ∧ b = 0).
Definition rfc_dr (l : list (ospf_neighbor RT)) (b d : Z) : Prop :=
  best declares_dr l d ∨ nobody declares_dr l ∧ d = b.

Lemma elect_bdr_spec l : rfc_bdr l (elect_bdr l).
Proof.
  unfold elect_bdr, rfc_bdr. rewrite list_filter_filter.
  pose proof (filter_best (λ n, NBR_IS_BDR n = true ∧ NBR_IS_DR n = false) l) as Hb.
  pose proof (filter_best (λ n, NBR_IS_DR n = false) l) as Hn.
  assert (∀ a, best (λ n, NBR_IS_BDR n = true ∧ NBR_IS_DR n = false) l a → best declares_bdr l a) as Hbb.
  { intros a (n & ? & [] & ? & Hmax). exists n. split_and!; [done..|]. intros m ? []. by apply Hmax. }
  destruct (filter (λ n, NBR_IS_BDR n = true ∧ NBR_IS_DR n = false) l) as [|x k] eqn:Eb.
  - right. split; [intros n ? []; by apply (Hb n)|].
    destruct (filter (λ n, NBR_IS_DR n = false) l) as [|y j] eqn:En.
    + right. by split.
    + left. destruct Hn as (n & -> & Hn). done.
  - left. destruct Hb as (n & -> & Hb). by apply Hbb.
Qed.

Lemma preserve_bdr_spec b l :
  match preserve_bdr b l with
  | None => ∀ n, n ∈ l → n_address n ≠ b
  | Some n => n ∈ l ∧ n_address n = b
  end.
Proof.
  unfold preserve_bdr. induction l as [|x l IH] using rev_ind; [by intros n ?%elem_of_nil|].
  rewrite foldl_app. cbn. destruct (Z.eqb_spec b (n_address x)) as [->|Hne].
  - split; [set_solver|done].
  - destruct (foldl _ None l) as [n|]; [set_solver|].
    intros n [Hn| ->%list_elem_of_singleton]%elem_of_app; [by apply IH|congruence].
Qed.

Lemma elect_dr_spec l b : (b = 0 ∨ ∃ n, n ∈ l ∧ n_address n = b) → rfc_dr l b (elect_dr b l).
Proof.
  intros Hb. unfold elect_dr, rfc_dr. pose proof (filter_best (λ n, NBR_IS_DR n = true) l) as Hd.
  destruct (filter (λ n, NBR_IS_DR n = true) l) as [|x k] eqn:Ed.
  - right. split; [done|]. pose proof (preserve_bdr_spec b l) as Hp.
    destruct (preserve_bdr b l) as [n|]; cbn; [by destruct Hp|].
    destruct Hb as [->|(n & Hn & <-)]; [done|]. by destruct (Hp n Hn).
  - left. destruct Hd as (n & -> & Hd). done.
Qed.

Lemma rfc_bdr_member l b : rfc_bdr l b → b = 0 ∨ ∃ n, n ∈ l ∧ n_address n = b.
Proof. intros [(n & ? & ? & ? & _)|(_ & [(n & ? & ? & ? & _)|[_ ->]])]; eauto. Qed.

(** ** The run of the election *)

(** The world with the designated routers [d] and [b] of the interface. *)
Definition set_dr w s (d b : Z) : ospf_world RT :=
  w <| w_nbr := <[w_nbr_self w := s <| n_d_router := d |> <| n_bd_router := b |>]> (w_nbr w) |>.

(** The eligible routers, with their addresses in memory. *)
Definition candidates w : list (nat * ospf_neighbor RT) := filter (λ x, eligible x.2 = true) (nbr_pairs w).

(** The eligible routers when this router declares [d] and [b]. *)
Definition cands_with w (d b : Z) : list (ospf_neighbor RT) :=
  (λ x, if bool_decide (x.1 = w_nbr_self w) then x.2 <| n_d_router := d |> <| n_bd_router := b |> else x.2)
  <$> candidates w.

Definition round w (x : Z * Z) : Z * Z :=
  let b := elect_bdr (cands_with w x.1 x.2) in
  (elect_dr b (cands_with w x.1 b), b).

(** Whether this router has become, or is no longer, the designated router or its backup. *)
Definition role_changed (st old : Z) : bool :=
  (st !=? old) && negb ((st =? ISM_DROther) && (old <? ISM_DROther)).

Definition election_result w s : Z * Z :=
  let x := round w (n_d_router s, n_bd_router s) in
  if role_changed (ism_state E x.1 x.2) (w_state w) then round w x else x.

(** The events for the neighbours whose adjacency is to be looked at again. *)
Definition adj_ok_events w : list ospf_event :=
  (λ x, Ev_nsm x.1 NSM_AdjOK) <$> filter (λ x, dr_change_of E x.2 = true) (nbr_pairs w).

Section Run.
Context w s (Hl : nbrs_live w) (Hs : w_nbr w !! w_nbr_self w = Some s).

Lemma set_dr_self d b : w_nbr (set_dr w s d b) !! w_nbr_self (set_dr w s d b) =
  Some (s <| n_d_router := d |> <| n_bd_router := b |>).
Proof. cbn. apply lookup_insert_eq. Qed.

Lemma set_dr_id : set_dr w s (n_d_router s) (n_bd_router s) = w.
Proof.
  unfold set_dr. replace (s <| n_d_router := _ |> <| n_bd_router := _ |>) with s by (by destruct s).
  rewrite insert_id by done. by destruct w.
Qed.

Lemma set_dr_twice d b d' b' (f : ospf_neighbor RT → ospf_neighbor RT) :
  f (s <| n_d_router := d |> <| n_bd_router := b |>) = s <| n_d_router := d' |> <| n_bd_router := b' |> →
  upd_nbr (w_nbr_self w) f (set_dr w s d b) = Some (tt, set_dr w s d' b').
Proof.
  intros Hf. erewrite upd_nbr_run by exact (set_dr_self d b). rewrite Hf. unfold set_dr. cbn.
  by rewrite insert_insert_eq.
Qed.

Lemma candidates_elem p n : (p, n) ∈ candidates w → w_nbr w !! p = Some n.
Proof. intros [_ Hp]%list_elem_of_filter. by apply nbr_pairs_elem. Qed.

Lemma nbrs_of_run d b :
  nbrs_of (candidates w).*1 (set_dr w s d b) = Some (cands_with w d b, set_dr w s d b).
Proof.
  unfold cands_with. pose proof candidates_elem as Hc. revert Hc.
  induction (candidates w) as [|[p n] l IH]; intros Hc; [done|]. cbn [fmap list_fmap nbrs_of fst snd].
  assert (w_nbr (set_dr w s d b) !! p = Some (if bool_decide (p = w_nbr_self w)
    then n <| n_d_router := d |> <| n_bd_router := b |> else n)) as Hp.
  { assert (w_nbr w !! p = Some n) as Hn by (apply Hc; left). cbn. case_bool_decide as Hd.
    - subst p. rewrite lookup_insert_eq. by simplify_eq.
    - by rewrite lookup_insert_ne by done. }
  erewrite fbind_run by exact (nbr_run _ _ _ Hp).
  erewrite fbind_run; [|apply IH; intros; apply Hc; by right]. done.
Qed.

Lemma round_run d b :
  (ospf_elect_bdr (candidates w).*1;; ospf_elect_dr (candidates w).*1) (set_dr w s d b) =
  Some (tt, set_dr w s (round w (d, b)).1 (round w (d, b)).2).
Proof.
  unfold ospf_elect_bdr, ospf_elect_dr. erewrite fbind_run.
  2:{ erewrite fbind_run by exact (nbrs_of_run d b). erewrite fbind_run by done.
      exact (set_dr_twice d b d (elect_bdr (cands_with w d b)) _ eq_refl). }
  erewrite fbind_run by exact (nbrs_of_run _ _). erewrite fbind_run by exact (self_run _ _ (set_dr_self _ _)).
  erewrite fbind_run by done. by apply set_dr_twice.
Qed.

Lemma ism_state_run d b : ospf_ism_state E (set_dr w s d b) = Some (ism_state E d b, set_dr w s d b).
Proof. unfold ospf_ism_state. by erewrite fbind_run by exact (self_run _ _ (set_dr_self _ _)). Qed.

Lemma pairs_set_dr d b :
  (λ x, Ev_nsm x.1 NSM_AdjOK) <$> filter (λ x, dr_change_of E x.2 = true) (nbr_pairs (set_dr w s d b))
  = adj_ok_events w.
Proof.
  unfold adj_ok_events, nbr_pairs, dom_nbrs. cbn. induction (rt_walk (w_nbrs w)) as [|k ks IH]; [done|].
  cbn [omap list_omap]. destruct (rt_info k (w_nbrs w)) as [p|]; cbn [mbind option_bind]; [|done].
  destruct (decide (p = w_nbr_self w)) as [->|Hp].
  - rewrite lookup_insert_eq, Hs. cbn [mbind option_bind]. rewrite !list.filter_cons. cbn [snd].
    change (dr_change_of E (s <| n_d_router := d |> <| n_bd_router := b |>)) with (dr_change_of E s).
    case_decide; cbn; by rewrite IH.
  - rewrite lookup_insert_ne by done. destruct (w_nbr w !! p); cbn [mbind option_bind]; [|done].
    rewrite !list.filter_cons. case_decide; cbn; by rewrite IH.
Qed.

Lemma dr_change_walk_run (l : list (nat * ospf_neighbor RT)) (v : ospf_world RT) :
  dr_change_walk E l v = Some (tt, v <| w_events := w_events v ++
    ((λ x, Ev_nsm x.1 NSM_AdjOK) <$> filter (λ x, dr_change_of E x.2 = true) l) |>).
Proof.
  revert v. induction l as [|[p n] l IH]; intros v.
  { cbn. rewrite app_nil_r. by destruct v. }
  cbn [dr_change_walk]. rewrite list.filter_cons. cbn [snd]. destruct (dr_change_of E n) eqn:Ed.
  - erewrite fbind_run by done. rewrite IH. cbn. by rewrite <- app_assoc.
  - erewrite fbind_run by done. rewrite IH. done.
Qed.

Lemma dr_election_run :
  let r := election_result w s in
  let changed := (n_d_router s !=? r.1) || (n_bd_router s !=? r.2) in
  ospf_dr_election E w =
  Some (ism_state E r.1 r.2,
        (set_dr w s r.1 r.2) <| w_events := w_events w ++ if changed then adj_ok_events w else [] |>).
Proof.
  cbv zeta. unfold ospf_dr_election. erewrite fbind_run by exact (self_run w s Hs).
  erewrite fbind_run by done.
  erewrite (fbind_run (ospf_dr_eligible_routers)).
  2:{ unfold ospf_dr_eligible_routers. by erewrite fbind_run by exact (all_nbrs_run w Hl). }
  change (filter _ (nbr_pairs w)) with (candidates w).
  assert (∀ (k : unit → fsM (ospf_world RT) Z) v, (ospf_elect_bdr (candidates w).*1 ≫= λ _, ospf_elect_dr (candidates w).*1 ≫= k) v
    = ((ospf_elect_bdr (candidates w).*1;; ospf_elect_dr (candidates w).*1) ≫= k) v) as Hassoc.
  { intros k v. unfold mbind, fsM_bind. by destruct (ospf_elect_bdr _ v) as [[? ?]|]. }
  rewrite Hassoc. pose proof (round_run (n_d_router s) (n_bd_router s)) as Hr. rewrite set_dr_id in Hr.
  erewrite fbind_run by exact Hr. erewrite fbind_run by exact (ism_state_run _ _).
  set (x := round w (n_d_router s, n_bd_router s)). fold (role_changed (ism_state E x.1 x.2) (w_state w)).
  erewrite (fbind_run _ _ (set_dr w s x.1 x.2) (ism_state E (election_result w s).1 (election_result w s).2)
    (set_dr w s (election_result w s).1 (election_result w s).2)).
  2:{ unfold election_result. fold x. destruct (role_changed _ _); [|done]. rewrite Hassoc.
      erewrite fbind_run by exact (round_run _ _). rewrite <- surjective_pairing. by apply ism_state_run. }
  set (r := election_result w s).
  erewrite fbind_run by exact (self_run _ _ (set_dr_self _ _)). cbn [n_d_router n_bd_router set_fld set_n_d_router set_n_bd_router].
  destruct ((n_d_router s !=? r.1) || (n_bd_router s !=? r.2)) eqn:Ec.
  - erewrite fbind_run. 
    2:{ unfold ospf_dr_change. erewrite fbind_run; [apply dr_change_walk_run|].
        apply all_nbrs_run. intros k p Hk. cbn in Hk |- *. destruct (decide (p = w_nbr_self w)) as [->|Hp].
        - rewrite lookup_insert_eq. eauto.
        - rewrite lookup_insert_ne by done. by apply (Hl k). }
    rewrite pairs_set_dr. done.
  - erewrite fbind_run by done. rewrite app_nil_r. done.
Qed.

End Run.

Lemma cands_address w d b d' b' n :
  n ∈ cands_with w d b → ∃ n', n' ∈ cands_with w d' b' ∧ n_address n' = n_address n.
Proof.
  intros ([p m] & -> & Hm)%list_elem_of_fmap.
  exists (if bool_decide (p = w_nbr_self w) then m <| n_d_router := d' |> <| n_bd_router := b' |> else m).
  split; [apply list_elem_of_fmap; by exists (p, m)|]. cbn. by case_bool_decide.
Qed.

Lemma round_spec w d b :
  rfc_bdr (cands_with w d b) (round w (d, b)).2 ∧
  rfc_dr (cands_with w d (round w (d, b)).2) (round w (d, b)).2 (round w (d, b)).1.
Proof.
  split; [apply elect_bdr_spec|]. apply elect_dr_spec.
  change (round w (d, b)).2 with (elect_bdr (cands_with w d b)).
  destruct (rfc_bdr_member _ _ (elect_bdr_spec (cands_with w d b))) as [Hz|(n & Hn & Ha)]; [by left|].
  right. destruct (cands_address w d b d (elect_bdr (cands_with w d b)) n Hn) as (n' & Hn' & Ha').
  exists n'. split; [done|]. congruence.
Qed.

(** C30: the election of the designated routers follows RFC 2328, section 9.4.  From any state of the interface
    [ospf_dr_election] does not fault; the backup is the best of the eligible routers that declare themselves backup and not
    designated router, or else the best of those that do not declare themselves designated router; the designated router
    is the best of those that declare themselves so, or else the new backup; the two steps are repeated with what
    this router now declares if its own role has changed.  The result is stored in the interface, the returned state is
    the one of the address of this router, every neighbour of state 2-Way or above gets an AdjOK? event if one of
    the two has changed, and nothing else is changed. *)
Theorem dr_election_spec w s :
  nbrs_live w → w_nbr w !! w_nbr_self w = Some s →
  ∃ d b,
    ospf_dr_election E w =
      Some (ism_state E d b, (set_dr w s d b) <| w_events := w_events w ++
        if (n_d_router s !=? d) || (n_bd_router s !=? b) then adj_ok_events w else [] |>) ∧
    ∃ d1 b1,
      rfc_bdr (cands_with w (n_d_router s) (n_bd_router s)) b1 ∧ rfc_dr (cands_with w (n_d_router s) b1) b1 d1 ∧
      if role_changed (ism_state E d1 b1) (w_state w)
      then rfc_bdr (cands_with w d1 b1) b ∧ rfc_dr (cands_with w d1 b) b d
      else d = d1 ∧ b = b1.
Proof.
  intros Hl Hs. exists (election_result w s).1, (election_result w s).2. split; [by apply dr_election_run|].
  set (x := round w (n_d_router s, n_bd_router s)). exists x.1, x.2.
  destruct (round_spec w (n_d_router s) (n_bd_router s)) as [Hb Hd]. split_and!; [done..|].
  unfold election_result. fold x. destruct (role_changed _ _); [|done].
  rewrite (surjective_pairing x) at 2 4 5. apply round_spec.
Qed.

End Elect.

(** ** An example: a router that sees nobody *)

Module ElectExample.

Definition tv0 : timeval := mk_tv 0 0.
Definition env : adj_env :=
  mk_adj_env tv0 1000 1 0x0a000001 24 1 40 10 0 1500 0 0 1 false OSPF_AREA_DEFAULT false 0 (λ m, m) (λ l, l) (λ _, true).
Definition me : ospf_neighbor (gmap Z) :=
  mk_nbr NSM_TwoWay OSPF_DD_FLAG_ALL 0 0x0a000001 24 0x0a000001 1 OSPF_OPTION_E 1 0 0 None tv0 0 0 0
    ospf_lsdb_new ospf_lsdb_new ospf_lsdb_new None 0 40 false false T_null false false None 0.
Definition world : ospf_world (gmap Z) :=
  mk_world ∅ ospf_lsdb_new ospf_lsdb_new {[0%nat := me]} ∅ ∅ [] OSPF_IFTYPE_BROADCAST ISM_Waiting
    {[0x0a000001 := 0%nat]} 0 0 0 1 None 0 0 1 true true false None [] ∅ false (Some []) [] [].

Lemma dr_election_spec_witness :
  ∃ d b w', ospf_dr_election env world = Some (ism_state env d b, w').
Proof.
  destruct (dr_election_spec env world me) as (d & b & Hrun & _).
  - intros k p. cbn -[insert]. rewrite lookup_singleton_Some. intros [_ <-]. eexists. reflexivity.
  - reflexivity.
  - eauto.
Defined.

(** It elects itself designated router, without a backup. *)
Example alone : (λ r, (r.1, n_d_router <$> w_nbr r.2 !! 0%nat, n_bd_router <$> w_nbr r.2 !! 0%nat)) <$>
  ospf_dr_election env world = Some (ISM_DR, Some 0x0a000001, Some 0).
Proof. reflexivity. Qed.

End ElectExample.
