(* ===== verification/OspfLan.v ===== *)
(** * OSPF: the routers of a network agree

    Several routers on one broadcast network, each with its own interface structure: after the wait timers have run
    out and each has heard the next Hello of the others, all have elected the same designated router and the same backup. *)

From stdpp Require Import gmap.
From S2P Require Import Prelude Fault OspfTable OspfLsa OspfVertex OspfLsaProps OspfNbr OspfAdj OspfElect.

(** ** An election as an event of the interface *)

Section Ism.
Context {RT : Type → Type} `{RouteTableLaws RT}.
Context (E : adj_env).

Implicit Types w : ospf_world RT.
Implicit Types n m s : ospf_neighbor RT.

(** What the elections and Hello packets depend on is the same. *)
Definition same_lan w w' : Prop :=
  w_nbr w' = w_nbr w ∧ w_nbrs w' = w_nbrs w ∧ w_nbr_self w' = w_nbr_self w ∧ w_type w' = w_type w.


Lemma ism_change_run w st Q :
  (w_state w = ISM_DR → st = ISM_DR) →
  (∀ w', same_lan w w' → w_state w' = st → w_events w' = w_events w → Q tt w') →
  runs (ism_change_state st) w Q.
Proof.
  intros Hdr HQ. unfold ism_change_state, call. repeat rstep; cbn in *; repeat case_match; cbn;
    try (apply HQ; cbn; by repeat split).
  all: exfalso; bool_to_prop; auto.
Qed.

Lemma ism_timer_run w Q :
  (∀ w', same_lan w w' → w_state w' = w_state w → w_events w' = w_events w → Q tt w') → runs ism_timer_set w Q.
Proof.
  intros HQ. unfold ism_timer_set, set_ism_timers. repeat rstep; apply HQ; cbn; by repeat split.
Qed.

(** Whether the event starts an election in the state. *)
Definition elects (st ev : Z) : Prop :=
  st = ISM_Waiting ∧ (ev = ISM_WaitTimer ∨ ev = ISM_BackupSeen) ∨
  (st = ISM_DROther ∨ st = ISM_Backup ∨ st = ISM_DR) ∧ ev = ISM_NeighborChange.

Lemma ism_state_range d b : ism_state E d b = ISM_DR ∨ ism_state E d b = ISM_Backup ∨ ism_state E d b = ISM_DROther.
Proof. unfold ism_state. repeat case_match; auto. Qed.

Lemma elects_entry st ev w :
  elects st ev → ∃ f, ism_entry st ev w = Some ((f, ISM_DependUpon), w) ∧
    ∀ nsm, ism_run (RT:=RT) E nsm f = ospf_dr_election E.
Proof.
  intros [[-> [-> | ->]]|[[-> |[-> | ->]] ->]]; [eexists; split; [reflexivity|done]..].
Qed.

Lemma same_lan_trans w1 w2 w3 : same_lan w1 w2 → same_lan w2 w3 → same_lan w1 w3.
Proof. unfold same_lan. intuition congruence. Qed.

Lemma ism_election_run w s ev Q :
  nbrs_live w → w_nbr w !! w_nbr_self w = Some s → elects (w_state w) ev →
  let r := election_result E w s in
  (w_state w = ISM_DR → ism_state E r.1 r.2 = ISM_DR) →
  (∀ w', same_lan (set_dr w s r.1 r.2) w' → w_state w' = ism_state E r.1 r.2 → Q tt w') →
  runs (OSPF_ISM_EVENT_EXECUTE E ev) w Q.
Proof.
  intros Hl Hs He r Hdr HQ. unfold OSPF_ISM_EVENT_EXECUTE. cbn [ospf_ism_event]. unfold ism_event.
  rstep. rstep. rstep. destruct (elects_entry (w_state w) ev w He) as (f & Hf & Hrun).
  eapply runs_run; [exact Hf|]. cbn [fst]. rewrite Hrun. rstep.
  eapply runs_run; [exact (dr_election_run E w s Hl Hs)|]. fold r.
  set (w1 := (set_dr w s r.1 r.2) <| w_events := _ |>).
  assert (tst (ism_state E r.1 r.2) = true) as Ht.
  { destruct (ism_state_range r.1 r.2) as [-> |[-> | ->]]; done. }
  do 2 rstep. rewrite Ht. cbn [negb]. do 2 rstep.
  assert (same_lan (set_dr w s r.1 r.2) w1) as Hw1 by (by repeat split).
  rstep. rstep.
  - apply ism_change_run; [done|]. intros w2 H2 Hst _. apply ism_timer_run. intros w3 H3 Hst3 _.
    apply HQ; [|congruence]. eauto using same_lan_trans.
  - rstep. apply ism_timer_run. intros w3 H3 Hst3 _. apply HQ; [by eapply same_lan_trans|].
    bool_to_prop. cbn in *. congruence.
Qed.

End Ism.

(** ** The network *)

Section Lan.
Context {RT : Type → Type} `{RouteTableLaws RT}.
Context (rs : list nat) (Es : nat → adj_env).

Implicit Types w : ospf_world RT.
Implicit Types n m s : ospf_neighbor RT.

Local Abbreviation id j := (e_router_id (Es j)).
Local Abbreviation addr j := (e_address (Es j)).
Local Abbreviation prio j := (e_priority (Es j)).

(** The routers have different ids and addresses, and the parameters they have to agree on are the same. *)
Record lan_conf : Prop := {
  lc_id j : j ∈ rs → id j ≠ 0;
  lc_addr j : j ∈ rs → addr j ≠ 0;
  lc_prio j : j ∈ rs → 0 ≤ prio j < 256;
  lc_id_inj i j : i ∈ rs → j ∈ rs → id i = id j → i = j;
  lc_addr_inj i j : i ∈ rs → j ∈ rs → addr i = addr j → i = j;
  lc_wait i j : i ∈ rs → j ∈ rs → e_v_wait (Es i) = e_v_wait (Es j);
  lc_hello i j : i ∈ rs → j ∈ rs → e_v_hello (Es i) = e_v_hello (Es j) ∧ 0 ≤ e_v_hello (Es i) < 2 ^ 16;
  lc_fast j : j ∈ rs → e_fast_hello (Es j) = 0;
  lc_mask i j : i ∈ rs → j ∈ rs → e_ip_masklen (Es i) (e_masklen2ip (Es j) (e_prefixlen (Es j))) = e_prefixlen (Es i);
  lc_ext i j : i ∈ rs → j ∈ rs → e_external_routing (Es i) = e_external_routing (Es j);
  lc_area j : j ∈ rs → 0 ≤ e_external_routing (Es j) ≤ 2
}.

(** The neighbour structure of router [j], which declares [d] and [b]. *)
Definition is_entry (j : nat) n (d b : Z) : Prop :=
  n_router_id n = id j ∧ n_address n = addr j ∧ n_priority n = prio j ∧ NSM_TwoWay ≤ n_state n ∧
  n_d_router n = d ∧ n_bd_router n = b.

(** The interface of router [i]: it has seen every router of the network, the structure of [j] is at [P j], and
    [D j] and [B j] are what [j] declares, as far as [i] knows. *)
Record lan_view (i : nat) w (P : nat → nat) (D B : nat → Z) : Prop := {
  v_type : w_type w = OSPF_IFTYPE_BROADCAST;
  v_self : P i = w_nbr_self w;
  v_table k p : rt_info k (w_nbrs w) = Some p ↔ ∃ j, j ∈ rs ∧ k = addr j ∧ p = P j;
  v_inj j k : j ∈ rs → k ∈ rs → P j = P k → j = k;
  v_entry j : j ∈ rs → ∃ n, w_nbr w !! P j = Some n ∧ is_entry j n (D j) (B j);
  v_options s : w_nbr w !! P i = Some s → n_options s = self_options (Es i) 0
}.

(** The order of the routers, and the address of the best eligible one that satisfies [Q]. *)
Definition ranks (k j : nat) : Prop := prio j < prio k ∨ prio j = prio k ∧ id j < id k.
Definition ibest (Q : nat → Prop) (a : Z) : Prop :=
  ∃ j, j ∈ rs ∧ 0 < prio j ∧ Q j ∧ addr j = a ∧ ∀ k, k ∈ rs → 0 < prio k → Q k → ¬ ranks k j.
Definition inobody (Q : nat → Prop) : Prop := ∀ j, j ∈ rs → 0 < prio j → ¬ Q j.

Context (Hc : lan_conf).

Lemma ibest_unique (Q Q' : nat → Prop) a a' :
  (∀ j, j ∈ rs → Q j ↔ Q' j) → ibest Q a → ibest Q' a' → a = a'.
Proof.
  intros HQ (j & Hj & Pj & Qj & <- & Mj) (k & Hk & Pk & Qk & <- & Mk).
  assert (¬ ranks k j) as H1 by (apply Mj; [done..|by apply HQ]).
  assert (¬ ranks j k) as H2 by (apply Mk; [done..|by apply HQ]).
  unfold ranks in *. assert (id j = id k) as Hid by lia. by rewrite (lc_id_inj Hc j k Hj Hk Hid).
Qed.

Section View.
Context (i : nat) w (P : nat → nat) (D B : nat → Z).
Context (Hi : i ∈ rs) (Hv : lan_view i w P D B).

Lemma view_live : nbrs_live w.
Proof. intros k p Hk. apply (v_table _ _ _ _ _ Hv) in Hk as (j & Hj & -> & ->). destruct (v_entry _ _ _ _ _ Hv j Hj) as (n & -> & _). eauto. Qed.

Lemma view_self : ∃ s, w_nbr w !! w_nbr_self w = Some s ∧ is_entry i s (D i) (B i).
Proof. rewrite <- (v_self _ _ _ _ _ Hv). by apply (v_entry _ _ _ _ _ Hv). Qed.

Lemma view_pairs p n :
  (p, n) ∈ nbr_pairs w ↔ ∃ j, j ∈ rs ∧ p = P j ∧ w_nbr w !! P j = Some n.
Proof.
  unfold nbr_pairs, dom_nbrs. rewrite list_elem_of_omap. split.
  - intros (k & _ & Hk). destruct (rt_info k (w_nbrs w)) as [q|] eqn:Ek; [|done]. cbn in Hk.
    destruct (w_nbr w !! q) eqn:Eq; [|done]. cbn in Hk. simplify_eq.
    apply (v_table _ _ _ _ _ Hv) in Ek as (j & Hj & -> & ->). eauto.
  - intros (j & Hj & -> & Hn). exists (addr j).
    assert (rt_info (addr j) (w_nbrs w) = Some (P j)) as Hk by (apply (v_table _ _ _ _ _ Hv); eauto).
    split; [apply rt_walk_elem; eauto|]. rewrite Hk. cbn. by rewrite Hn.
Qed.

(** What the routers declare when this one declares [d] and [b]. *)
Definition with_own (f : nat → Z) (x : Z) : nat → Z := λ j, if decide (j = i) then x else f j.

Lemma view_cands d b n : n ∈ cands_with w d b → ∃ j, j ∈ rs ∧ 0 < prio j ∧ is_entry j n (with_own D d j) (with_own B b j).
Proof.
  unfold cands_with, candidates. intros ([p m] & -> & [He Hm]%list_elem_of_filter)%list_elem_of_fmap.
  cbn [fst snd] in *. apply view_pairs in Hm as (j & Hj & -> & Hm).
  destruct (v_entry _ _ _ _ _ Hv j Hj) as (m' & Hm' & Hen). simplify_eq. destruct Hen as (E1 & E2 & E3 & E4 & E5 & E6).
  unfold eligible in He. bool_to_prop. exists j. split; [done|]. split; [lia|]. unfold with_own.
  rewrite <- (v_self _ _ _ _ _ Hv). case_bool_decide as Hp.
  - rewrite !decide_True by (by apply (v_inj _ _ _ _ _ Hv)). unfold is_entry; cbn; by split_and!.
  - rewrite !decide_False by congruence. unfold is_entry; by split_and!.
Qed.

Lemma cands_view d b j :
  j ∈ rs → 0 < prio j → ∃ n, n ∈ cands_with w d b ∧ is_entry j n (with_own D d j) (with_own B b j).
Proof.
  intros Hj Hp. destruct (v_entry _ _ _ _ _ Hv j Hj) as (m & Hm & E1 & E2 & E3 & E4 & E5 & E6).
  exists (if bool_decide (P j = w_nbr_self w) then m <| n_d_router := d |> <| n_bd_router := b |> else m). split.
  - apply list_elem_of_fmap. exists (P j, m). split; [done|]. apply list_elem_of_filter. split; [|apply view_pairs; eauto].
    cbn. unfold eligible. pose proof (lc_id Hc j Hj). unfold NSM_TwoWay in E4. 
    rewrite !andb_true_iff, negb_true_iff, Z.eqb_neq, Z.gtb_lt, Z.geb_le. unfold NSM_TwoWay. split_and!; [congruence|lia|lia].
  - unfold with_own. rewrite <- (v_self _ _ _ _ _ Hv). case_bool_decide as Hd.
    + rewrite !decide_True by (by apply (v_inj _ _ _ _ _ Hv)). unfold is_entry; cbn; by split_and!.
    + rewrite !decide_False by congruence. unfold is_entry; by split_and!.
Qed.

Lemma best_view (Pn : ospf_neighbor RT → Prop) (Q : nat → Prop) d b a :
  (∀ j n, j ∈ rs → is_entry j n (with_own D d j) (with_own B b j) → Pn n ↔ Q j) →
  best Pn (cands_with w d b) a → ibest Q a.
Proof.
  intros HQ (n & Hn & HP & <- & Hmax). apply view_cands in Hn as (j & Hj & Hp & He). exists j.
  split_and!; [done|done|by apply (HQ j n)|by destruct He as (_ & -> & _)|].
  intros k Hk Hpk Qk Hr. destruct (cands_view d b k Hk Hpk) as (m & Hm & Hem).
  apply (Hmax m Hm); [by apply (HQ k m)|].
  destruct He as (E1 & _ & E3 & _), Hem as (F1 & _ & F3 & _). unfold outranks, ranks in *. rewrite E1, E3, F1, F3. done.
Qed.

Lemma nobody_view (Pn : ospf_neighbor RT → Prop) (Q : nat → Prop) d b :
  (∀ j n, j ∈ rs → is_entry j n (with_own D d j) (with_own B b j) → Pn n ↔ Q j) →
  nobody Pn (cands_with w d b) → inobody Q.
Proof.
  intros HQ Hn j Hj Hp Qj. destruct (cands_view d b j Hj Hp) as (n & Hin & He).
  apply (Hn n Hin). by apply (HQ j n).
Qed.

(** One round of the election, in terms of the routers. *)
Lemma round_view d b :
  let D' := with_own D d in
  let B' := with_own B b in
  let x := round w (d, b) in
  (ibest (λ j, addr j ≠ D' j ∧ addr j = B' j) x.2 ∨
   inobody (λ j, addr j ≠ D' j ∧ addr j = B' j) ∧
     (ibest (λ j, addr j ≠ D' j) x.2 ∨ inobody (λ j, addr j ≠ D' j) ∧ x.2 = 0)) ∧
  (ibest (λ j, addr j = D' j) x.1 ∨ inobody (λ j, addr j = D' j) ∧ x.1 = x.2).
Proof.
  intros D' B' x. destruct (round_spec w d b) as [Hb Hd]. fold x in Hb, Hd.
  assert (∀ b' j n, j ∈ rs → is_entry j n (with_own D d j) (with_own B b' j) →
    (NBR_IS_DR n = true ↔ addr j = D' j) ∧ (NBR_IS_DR n = false ↔ addr j ≠ D' j) ∧
    (NBR_IS_BDR n = true ↔ addr j = with_own B b' j)) as Hx.
  { intros b' j n Hj (_ & E2 & _ & _ & E5 & E6). unfold NBR_IS_DR, NBR_IS_BDR.
    rewrite E2, E5, E6, !Z.eqb_eq, Z.eqb_neq. done. }
  split.
  - destruct Hb as [Hb|[Hn Hb]].
    + left. eapply best_view; [|exact Hb]. intros j n Hj He. destruct (Hx b j n Hj He) as (_ & X & Y).
      unfold declares_bdr. by rewrite X, Y.
    + right. split.
      * eapply nobody_view; [|exact Hn]. intros j n Hj He. destruct (Hx b j n Hj He) as (_ & X & Y).
        unfold declares_bdr. by rewrite X, Y.
      * destruct Hb as [Hb|[Hn' Hb]]; [left; eapply best_view; [|exact Hb]|right; split; [|done];
          eapply nobody_view; [|exact Hn']]; intros j n Hj He; destruct (Hx b j n Hj He) as (_ & X & _); done.
  - destruct Hd as [Hd|[Hn Hd]]; [left; eapply best_view; [|exact Hd]|right; split; [|done];
      eapply nobody_view; [|exact Hn]]; intros j n Hj He; destruct (Hx x.2 j n Hj He) as (X & _); done.
Qed.


Lemma with_own_same f x : f i = x → ∀ j, with_own f x j = f j.
Proof. intros Hf j. unfold with_own. case_decide; congruence. Qed.

End View.

(** The best eligible router, and the best of the others. *)
Definition leader (a : Z) : Prop := ibest (λ _, True) a.
Definition second (a b : Z) : Prop :=
  ibest (λ j, addr j ≠ a) b ∨ inobody (λ j, addr j ≠ a) ∧ b = 0.

Lemma second_unique a b (Q : nat → Prop) x :
  (∀ j, j ∈ rs → Q j ↔ addr j ≠ a) → second a b → ibest Q x ∨ inobody Q ∧ x = 0 → x = b.
Proof.
  intros HQ [Hb|[Hb ->]] [Hx|[Hx ->]]; [|exfalso|exfalso|done].
  - symmetry. eapply ibest_unique; [|exact Hb|exact Hx]. intros j Hj. symmetry. by apply HQ.
  - destruct Hb as (j & Hj & Hp & Qj & _). apply (Hx j Hj Hp). by apply HQ.
  - destruct Hx as (j & Hj & Hp & Qj & _). apply (Hb j Hj Hp). by apply HQ.
Qed.

Lemma leader_router a : leader a → ∃ j, j ∈ rs ∧ 0 < prio j ∧ addr j = a.
Proof. intros (j & ? & ? & _ & ? & _). eauto. Qed.

Lemma second_ne a b i : second a b → i ∈ rs → addr i = a → b ≠ addr i.
Proof.
  intros [(j & Hj & _ & Hne & <- & _)|[_ ->]] Hi <-; [done|]. pose proof (lc_addr Hc i Hi). congruence.
Qed.

Lemma leader_declared (Q : nat → Prop) a x y :
  leader a → (∀ j, j ∈ rs → Q j ↔ addr j = a) → ibest Q x ∨ inobody Q ∧ x = y → x = a.
Proof.
  intros Hl HQ [(j & Hj & _ & Qj & <- & _)|[Hn _]]; [by apply HQ|].
  destruct (leader_router a Hl) as (j & Hj & Hp & Ha). exfalso. apply (Hn j Hj Hp). by apply HQ.
Qed.

Section Phases.
Context (i : nat) w (P : nat → nat) (D B : nat → Z) s (a b : Z).
Context (Hi : i ∈ rs) (Hv : lan_view i w P D B).
Context (Hs : w_nbr w !! w_nbr_self w = Some s) (Ha : leader a) (Hb : second a b).

Lemma self_entry : n_d_router s = D i ∧ n_bd_router s = B i.
Proof. destruct (view_self i w P D B Hi Hv) as (s' & Hs' & He). simplify_eq. by destruct He as (_ & _ & _ & _ & ? & ?). Qed.

(** The first election: nobody has declared anything yet. *)
Lemma first_election :
  (∀ j, j ∈ rs → D j = 0 ∧ B j = 0) → w_state w = ISM_Waiting ∨ w_state w = ISM_DROther →
  election_result (Es i) w s = (a, if addr i =? a then b else a).
Proof.
  intros H0s Hst. destruct self_entry as [Hd Hbd]. destruct (H0s i Hi) as [D0 B0].
  unfold election_result. rewrite Hd, Hbd, D0, B0. set (x := round w (0, 0)).
  assert (x = (a, a)) as ->.
  { destruct (round_view i w P D B Hi Hv 0 0) as [Rb Rd]. fold x in Rb, Rd.
    assert (∀ j, j ∈ rs → with_own i D 0 j = 0 ∧ with_own i B 0 j = 0) as Hw.
    { intros j Hj. rewrite !with_own_same by done. by apply H0s. }
    assert (x.2 = a) as Hx2.
    { destruct Rb as [(j & Hj & _ & [_ Q] & _)|[_ [Rb|[Rn _]]]].
      - destruct (Hw j Hj) as [_ W]. rewrite W in Q. by destruct (lc_addr Hc j Hj).
      - eapply ibest_unique; [|exact Rb|exact Ha]. intros j Hj. destruct (Hw j Hj) as [-> _].
        split; [done|]. intros _. by apply (lc_addr Hc).
      - destruct (leader_router a Ha) as (j & Hj & Hp & _). exfalso. apply (Rn j Hj Hp).
        destruct (Hw j Hj) as [-> _]. by apply (lc_addr Hc). }
    destruct Rd as [(j & Hj & _ & Q & _)|[_ Rd]].
    - destruct (Hw j Hj) as [W _]. rewrite W in Q. by destruct (lc_addr Hc j Hj).
    - rewrite (surjective_pairing x), Rd, Hx2. done. }
  cbn [fst snd]. unfold ism_state. rewrite (Z.eqb_sym a). destruct (Z.eqb_spec (addr i) a) as [Hia|Hia].
  - assert (role_changed ISM_DR (w_state w) = true) as -> by (destruct Hst as [-> | ->]; done).
    set (y := round w (a, a)). destruct (round_view i w P D B Hi Hv a a) as [Rb Rd]. fold y in Rb, Rd.
    assert (∀ j, j ∈ rs → addr j = with_own i D a j ↔ addr j = a) as Hw.
    { intros j Hj. unfold with_own. case_decide as Hd'; [done|]. destruct (H0s j Hj) as [-> _].
      pose proof (lc_addr Hc j Hj). split; [done|]. intros Hja. destruct Hd'. apply (lc_addr_inj Hc); [done..|congruence]. }
    rewrite (surjective_pairing y). f_equal.
    + exact (leader_declared _ a _ _ Ha Hw Rd).
    + apply (second_unique a b (λ j, addr j ≠ with_own i D a j)); [|done|].
      { intros j Hj. by rewrite Hw. }
      destruct Rb as [(j & Hj & _ & [Q1 Q2] & _)|[_ Rb]]; [|done]. exfalso.
      rewrite Hw in Q1 by done. unfold with_own in Q2. case_decide; [congruence|].
      destruct (H0s j Hj) as [_ W]. rewrite W in Q2. by destruct (lc_addr Hc j Hj).
  - assert (role_changed ISM_DROther (w_state w) = false) as -> by (destruct Hst as [-> | ->]; done). done.
Qed.

(** The next election: everybody declares the leader designated router, and nobody but it declares itself backup. *)
Lemma next_election :
  (∀ j, j ∈ rs → D j = a ∧ (addr j ≠ a → B j ≠ addr j)) →
  w_state w = ism_state (Es i) (D i) (B i) →
  election_result (Es i) w s = (a, b).
Proof.
  intros Hda Hst. destruct self_entry as [Hd Hbd]. destruct (Hda i Hi) as [D0 B0].
  unfold election_result. rewrite Hd, Hbd. set (x := round w (D i, B i)).
  assert (∀ j, j ∈ rs → addr j = with_own i D a j ↔ addr j = a) as Hw.
  { intros j Hj. rewrite with_own_same by done. by destruct (Hda j Hj) as [-> _]. }
  assert (x = (a, b)) as ->.
  { destruct (round_view i w P D B Hi Hv (D i) (B i)) as [Rb Rd]. fold x in Rb, Rd. rewrite D0 in Rb, Rd.
    rewrite (surjective_pairing x). f_equal.
    - exact (leader_declared _ a _ _ Ha Hw Rd).
    - apply (second_unique a b (λ j, addr j ≠ with_own i D a j)); [|done|].
      { intros j Hj. by rewrite Hw. }
      destruct Rb as [(j & Hj & _ & [Q1 Q2] & _)|[_ Rb]]; [|done]. exfalso.
      rewrite Hw in Q1 by done. rewrite with_own_same in Q2 by done. destruct (Hda j Hj) as [_ W]. by destruct (W Q1). }
  cbn [fst snd]. case_match eqn:Er; [|done].
  (* the role of this router has changed: it is the new backup *)
  assert (addr i = b) as Hib.
  { unfold role_changed, ism_state in Er. rewrite Hst in Er. unfold ism_state in Er. rewrite D0 in Er.
    destruct (Z.eqb_spec a (addr i)); [done|]. destruct (Z.eqb_spec b (addr i)); [done|].
    destruct (Z.eqb_spec (B i) (addr i)) as [Hbi|]; [|done]. exfalso. apply B0; congruence. }
  set (y := round w (a, b)). destruct (round_view i w P D B Hi Hv a b) as [Rb Rd]. fold y in Rb, Rd.
  rewrite (surjective_pairing y). f_equal.
  - exact (leader_declared _ a _ _ Ha Hw Rd).
  - assert (addr i ≠ a) as Hia by (intros Hia; by destruct (second_ne a b i Hb Hi Hia)).
    destruct Rb as [(j & Hj & _ & [Q1 Q2] & <- & _)|[Rn Rb]].
    + rewrite Hw in Q1 by done. unfold with_own in Q2. case_decide; [by subst|].
      destruct (Hda j Hj) as [_ W]. by destruct (W Q1).
    + destruct Hb as [(j & Hj & Hp & Q & Hjb & _)|[_ Hz]]; [|destruct (lc_addr Hc i Hi); congruence].
      exfalso. apply (Rn j Hj Hp). rewrite Hw by done. split; [done|].
      assert (j = i) as -> by (apply (lc_addr_inj Hc); [done..|congruence]).
      unfold with_own. by rewrite decide_True.
Qed.

End Phases.

(** ** Hello packets *)

(** The Hello of router [j], which declares [d] and [b]. *)
Record hello_of (j : nat) (h : ospf_hello) (d b : Z) : Prop := {
  ho_mask : he_network_mask h = e_masklen2ip (Es j) (e_prefixlen (Es j));
  ho_interval : he_hello_interval h = e_v_hello (Es j);
  ho_options : he_options h = self_options (Es j) 0;
  ho_priority : he_priority h = prio j;
  ho_dead : he_dead_interval h = e_v_wait (Es j);
  ho_dr : he_d_router h = d;
  ho_bdr : he_bd_router h = b;
  ho_seen k : k ∈ rs → k ≠ j → id k ∈ he_neighbors h
}.

Lemma view_same i w w' P D B : same_lan w w' → lan_view i w P D B → lan_view i w' P D B.
Proof. intros (H1 & H2 & H3 & H4) []. split; rewrite ?H1, ?H2, ?H3, ?H4; done. Qed.

Lemma view_ext i w P D B D' B' :
  (∀ j, j ∈ rs → D j = D' j ∧ B j = B' j) → lan_view i w P D B → lan_view i w P D' B'.
Proof.
  intros Hf []. split; [done..| |done]. intros j Hj. destruct (Hf j Hj) as [<- <-]. auto.
Qed.

(** The entry of one router is changed. *)
Lemma view_upd i w P D B j n n' d b :
  i ∈ rs → lan_view i w P D B → j ∈ rs → w_nbr w !! P j = Some n → is_entry j n' d b →
  (j = i → n_options n' = n_options n) →
  lan_view i (w <| w_nbr := <[P j := n']> (w_nbr w) |>) P (with_own j D d) (with_own j B b).
Proof.
  intros Hi Hv Hj Hn He Ho. destruct Hv as [V1 V2 V3 V4 V5 V6]. split; cbn; [done..| |].
  - intros k Hk. unfold with_own. case_decide as Hd.
    + subst k. rewrite lookup_insert_eq. eauto.
    + rewrite lookup_insert_ne by (intros Hp; by destruct Hd; apply V4). by apply V5.
  - intros s Hs. destruct (decide (j = i)) as [->|Hji].
    + rewrite lookup_insert_eq in Hs. simplify_eq. rewrite Ho by done. by apply V6.
    + rewrite lookup_insert_ne in Hs by (intros Hp; by destruct Hji; apply V4). by apply V6.
Qed.

Lemma make_hello_run i w P D B :
  i ∈ rs → lan_view i w P D B →
  ∃ h b, ospf_make_hello (Es i) w = Some (h, w) ∧ hello_of i h (D i) b ∧ (b = B i ∨ b = 0).
Proof.
  intros Hi Hv. destruct (view_self i w P D B Hi Hv) as (s & Hs & E1 & E2 & E3 & E4 & E5 & E6).
  unfold ospf_make_hello. erewrite fbind_run by done. erewrite fbind_run by exact (self_run w s Hs).
  erewrite fbind_run by exact (all_nbrs_run w (view_live i w P D B Hv)).
  rewrite (v_type _ _ _ _ _ Hv). rewrite (lc_fast Hc i Hi). cbn [Z.eqb].
  eexists _, _. split; [done|]. destruct (lc_hello Hc i i Hi Hi) as [_ Hh].
  pose proof (lc_prio Hc i Hi) as Hp. split; [split; cbn; [done| | | |done|done|reflexivity|]|].
  - unfold u16. by rewrite Z.mod_small.
  - apply (v_options _ _ _ _ _ Hv). by rewrite (v_self _ _ _ _ _ Hv).
  - rewrite E3. unfold u8. by rewrite Z.mod_small.
  - intros k Hk Hki. destruct (v_entry _ _ _ _ _ Hv k Hk) as (n & Hn & F1 & F2 & F3 & F4 & F5 & F6).
    apply list_elem_of_fmap. exists (P k, n). split; [done|]. apply list_elem_of_filter. split.
    + cbn. unfold hello_lists. rewrite F1. pose proof (lc_id Hc k Hk).
      assert (id k ≠ id i) by (intros He; by destruct Hki; apply (lc_id_inj Hc)).
      unfold NSM_TwoWay, NSM_Attempt, NSM_Down in *.
      rewrite !andb_true_iff, !negb_true_iff, !Z.eqb_neq. split_and!; [done|lia|lia|done].
    + apply (view_pairs i w P D B Hv). eauto.
  - cbn. case_match; [by right|by left].
Qed.

Lemma area_options i j : i ∈ rs → j ∈ rs →
  self_options (Es j) 0 = self_options (Es i) 0 ∧
  CHECK_FLAG (self_options (Es i) 0) OSPF_OPTION_T = false ∧
  ∀ h, he_options h = self_options (Es i) 0 → hello_mismatch (Es i) (self_options (Es i) 0) h = false.
Proof.
  intros Hi Hj. unfold self_options, hello_mismatch. rewrite (lc_ext Hc j i Hj Hi). pose proof (lc_area Hc i Hi) as Hr.
  assert (e_external_routing (Es i) = 0 ∨ e_external_routing (Es i) = 1 ∨ e_external_routing (Es i) = 2)
    as [-> |[-> | ->]] by lia; (split_and!; [done..|]; intros h ->; done).
Qed.

Lemma hello_accepted i j h d b :
  i ∈ rs → j ∈ rs → j ≠ i → hello_of j h d b →
  hello_ignored (Es i) OSPF_IFTYPE_BROADCAST (id j) (self_options (Es i) 0) h = false.
Proof.
  intros Hi Hj Hji Hh. destruct (area_options i j Hi Hj) as (Ho & Ht & Hm). unfold hello_ignored.
  rewrite (ho_options _ _ _ _ Hh), (ho_mask _ _ _ _ Hh), (ho_dead _ _ _ _ Hh), (ho_interval _ _ _ _ Hh).
  rewrite (lc_mask Hc i j Hi Hj), (lc_wait Hc i j Hi Hj), (lc_fast Hc i Hi).
  destruct (lc_hello Hc i j Hi Hj) as [-> _]. rewrite Ho, Ht, Hm by (by rewrite (ho_options _ _ _ _ Hh)).
  rewrite !Z.eqb_refl. cbn. rewrite (proj2 (Z.eqb_neq _ _)); [done|]. intros He. by destruct Hji; apply (lc_id_inj Hc).
Qed.

Lemma runs_event_if (c : bool) e w (Q : unit → ospf_world RT → Prop) :
  (∀ es, (c = true → e ∈ es) → Q tt (w <| w_events := w_events w ++ es |>)) →
  runs (if c then schedule e else mret tt) w Q.
Proof.
  intros HQ. destruct c; cbn.
  - apply HQ. intros _. left.
  - specialize (HQ []). rewrite app_nil_r in HQ. replace w with (w <| w_events := w_events w |>) by (by destruct w). by apply HQ.
Qed.

Lemma hello_recv_run i j w P D B h d b :
  i ∈ rs → j ∈ rs → j ≠ i → lan_view i w P D B → hello_of j h d b →
  runs (ospf_hello_recv (Es i) (addr j) (id j) None h) w (λ _ w',
    lan_view i w' P (with_own j D d) (with_own j B b) ∧ w_state w' = w_state w ∧
    (∃ es, w_events w' = w_events w ++ es ∧
       (addr j = d → D j ≠ addr j → Ev_ism ISM_NeighborChange ∈ es))).
Proof.
  intros Hi Hj Hji Hv Hh. destruct (view_self i w P D B Hi Hv) as (s & Hs & _).
  destruct (v_entry _ _ _ _ _ Hv j Hj) as (n & Hn & E1 & E2 & E3 & E4 & E5 & E6).
  assert (n_options s = self_options (Es i) 0) as Hos.
  { apply (v_options _ _ _ _ _ Hv). by rewrite (v_self _ _ _ _ _ Hv). }
  assert (rt_info (addr j) (w_nbrs w) = Some (P j)) as Hk by (apply (v_table _ _ _ _ _ Hv); eauto).
  assert (P j ≠ w_nbr_self w) as Hps.
  { rewrite <- (v_self _ _ _ _ _ Hv). intros Hp. by destruct Hji; apply (v_inj _ _ _ _ _ Hv). }
  unfold ospf_hello_recv. rstep. rstep. rewrite (v_type _ _ _ _ _ Hv). rstep. apply (runs_self w s); [done|].
  rewrite Hos, (hello_accepted i j h d b Hi Hj Hji Hh).
  set (n1 := n <| n_router_id := id j |>). set (w1 := w <| w_nbr := <[P j := n1]> (w_nbr w) |>).
  rstep. apply (runs_run _ _ (P j) w1).
  { unfold ospf_nbr_get. erewrite fbind_run by done. rewrite (v_type _ _ _ _ _ Hv).
    change (OSPF_IFTYPE_BROADCAST =? OSPF_IFTYPE_VIRTUALLINK) with false.
    change (OSPF_IFTYPE_BROADCAST =? OSPF_IFTYPE_NBMA) with false. cbv iota.
    erewrite fbind_run by done. rewrite Hk.
    erewrite fbind_run.
    2:{ erewrite fbind_run by exact (nbr_run w _ _ Hn). done. }
    by erewrite fbind_run by exact (upd_nbr_run w _ _ _ Hn). }
  assert (w_nbr w1 !! P j = Some n1) as Hn1 by apply lookup_insert_eq.
  rstep. apply (runs_nbr w1 _ n1); [done|]. cbv zeta. rstep. apply runs_modify. rstep.
  apply (runs_self _ s); [cbn; by rewrite lookup_insert_ne|]. 
  change (OSPF_IFTYPE_BROADCAST =? OSPF_IFTYPE_NBMA) with false. cbn [andb]. rstep. rstep.
  assert (ospf_nbr_bidirectional (id i) (he_neighbors h) = true) as ->.
  { unfold ospf_nbr_bidirectional. apply existsb_exists. exists (id i). rewrite Z.eqb_refl. split; [|done].
    apply list_elem_of_In. apply (ho_seen _ _ _ _ Hh); congruence. }
  rstep. apply runs_modify. rstep. eapply runs_upd_nbr; [exact Hn1|]. rstep.
  eapply runs_nbr; [apply lookup_insert_eq|]. cbv zeta. cbn [n_address n_d_router n_bd_router n_priority n1 set_fld set_n_options set_n_router_id].
  rewrite (ho_dr _ _ _ _ Hh), (ho_bdr _ _ _ _ Hh), (ho_priority _ _ _ _ Hh).
  unfold BackupSeen_event, NeighborChange_event, OSPF_ISM_EVENT_SCHEDULE, OSPF_NSM_EVENT_SCHEDULE.
  do 3 rstep. apply runs_event_if. intros es1 _. do 3 rstep. apply runs_event_if. intros es2 _.
  rstep. apply runs_event_if. intros es3 Hes3. rstep. apply runs_event_if. intros es4 _. rstep. apply runs_event_if. intros es5 _.
  unfold set_nbr_info. eapply runs_upd_nbr; [apply lookup_insert_eq|].
  split; [|split; [done|]].
  - eapply view_same; [|eapply (view_upd i w P D B j n _ d b Hi Hv Hj Hn)]; [|..].
    + split_and!; cbn; [|done..]. unfold w1. cbn. rewrite !insert_insert_eq. reflexivity.
    + unfold is_entry. cbn. rewrite (ho_dr _ _ _ _ Hh), (ho_bdr _ _ _ _ Hh), (ho_priority _ _ _ _ Hh). by split_and!.
    + done.
  - cbn. rewrite <- !app_assoc. eexists. split; [done|]. intros Hd HD. rewrite !elem_of_app. do 4 right. left. apply Hes3.
    rewrite E2, E5, <- Hd, Z.eqb_refl. apply orb_true_iff. left. apply negb_true_iff, Z.eqb_neq. congruence.
Qed.

(** Router [i] hears the Hello packets [hs] of the routers [js]. *)
Fixpoint hear (i : nat) (hs : nat → ospf_hello) (js : list nat) : fsM (ospf_world RT) unit :=
  match js with
  | [] => mret tt
  | j :: js => ospf_hello_recv (Es i) (addr j) (id j) None (hs j);; hear i hs js
  end.

Lemma hear_run i hs D1 B1 P js w D B :
  i ∈ rs → lan_view i w P D B → (∀ j, j ∈ js → j ∈ rs ∧ j ≠ i ∧ hello_of j (hs j) (D1 j) (B1 j)) →
  runs (hear i hs js) w (λ _ w',
    lan_view i w' P (λ j, if decide (j ∈ js) then D1 j else D j) (λ j, if decide (j ∈ js) then B1 j else B j) ∧
    w_state w' = w_state w ∧
    ∃ es, w_events w' = w_events w ++ es ∧
      ∀ j, j ∈ js → addr j = D1 j → D j ≠ addr j → Ev_ism ISM_NeighborChange ∈ es).
Proof.
  intros Hi. revert w D B. induction js as [|j js IH]; intros w D B Hv Hjs; cbn [hear].
  { rstep. split_and!; [|done|].
    - eapply view_ext; [|exact Hv]. intros j _. rewrite !decide_False by apply not_elem_of_nil. done.
    - exists []. rewrite app_nil_r. split; [done|]. intros j Hj. by apply elem_of_nil in Hj. }
  destruct (Hjs j) as (Hj & Hji & Hh); [left|]. rstep.
  eapply runs_mono; [by apply (hello_recv_run i j w P D B _ _ _ Hi Hj Hji Hv Hh)|].
  intros _ w1 (Hv1 & Hst1 & es1 & Hes1 & Hev1). cbn beta.
  eapply runs_mono; [apply (IH w1 _ _ Hv1); intros k Hk; apply Hjs; by right|].
  intros _ w2 (Hv2 & Hst2 & es2 & Hes2 & Hev2). split_and!; [|congruence|].
  - eapply view_ext; [|exact Hv2]. intros k _. cbn. unfold with_own.
    destruct (decide (k ∈ js)) as [Hk|Hk].
    + by rewrite !decide_True by (by right).
    + destruct (decide (k = j)) as [->|Hkj]; [by rewrite !decide_True by left|].
      by rewrite !decide_False by (rewrite elem_of_cons; by intros [?|?]).
  - exists (es1 ++ es2). rewrite Hes2, Hes1, <- app_assoc. split; [done|]. intros k Hk Hd HD. apply elem_of_app.
    destruct (decide (k = j)) as [->|Hkj]; [left; by apply Hev1|]. right. apply elem_of_cons in Hk as [->|Hk]; [done|].
    apply (Hev2 k Hk Hd). unfold with_own. by rewrite decide_False.
Qed.

Lemma ibest_exists (Q : nat → Prop) `{∀ j, Decision (Q j)} : (∃ a, ibest Q a) ∨ inobody Q.
Proof.
  unfold ibest, inobody. assert (∀ l, l ⊆ rs →
    (∃ j, j ∈ l ∧ 0 < prio j ∧ Q j ∧ ∀ k, k ∈ l → 0 < prio k → Q k → ¬ ranks k j) ∨
    (∀ j, j ∈ l → 0 < prio j → ¬ Q j)) as Hl.
  { induction l as [|x l IH]; intros Hl; [right; by intros j ?%elem_of_nil|].
    destruct IH as [(j & Hj & Hp & Qj & Hm)|Hn]; [set_solver|..].
    - left. destruct (decide (Q x ∧ 0 < prio x ∧ (prio j < prio x ∨ prio j = prio x ∧ id j < id x))) as [(Qx & Hx & Hr)|Hr].
      + exists x. split_and!; [left|done..|]. intros k [->|Hk]%elem_of_cons Hpk Qk; [unfold ranks; lia|].
        specialize (Hm k Hk Hpk Qk). unfold ranks in *. lia.
      + exists j. split_and!; [by right|done..|]. intros k [->|Hk]%elem_of_cons Hpk Qk; [|by apply Hm].
        intros Hrk. by apply Hr.
    - destruct (decide (Q x ∧ 0 < prio x)) as [[Qx Hx]|Hx].
      + left. exists x. split_and!; [left|done..|]. intros k [->|Hk]%elem_of_cons Hpk Qk; [unfold ranks; lia|].
        by destruct (Hn k Hk Hpk).
      + right. intros k [->|Hk]%elem_of_cons Hpk Qk; [by apply Hx|by apply (Hn k)]. }
  destruct (Hl rs) as [(j & Hj & Hp & Qj & Hm)|Hn]; [done|left; exists (addr j), j; by split_and!|by right].
Qed.

(** The world after an operation. *)
Definition after {A} (x : fsM (ospf_world RT) A) w : ospf_world RT :=
  match x w with Some (_, w') => w' | None => w end.

Lemma after_runs {A} (x : fsM (ospf_world RT) A) w Q :
  runs x w Q → ∃ a, x w = Some (a, after x w) ∧ Q a (after x w).
Proof. unfold runs, after. destruct (x w) as [[a w']|]; [eauto|done]. Qed.

(** The election of router [i] after it has waited, and its designated routers afterwards. *)
Definition first_event w : Z := if w_state w =? ISM_Waiting then ISM_WaitTimer else ISM_NeighborChange.
Definition designated w (a b : Z) : Prop :=
  ∃ s, w_nbr w !! w_nbr_self w = Some s ∧ n_d_router s = a ∧ n_bd_router s = b.

Lemma view_elected i w w' P D B s d b :
  i ∈ rs → lan_view i w P D B → w_nbr w !! w_nbr_self w = Some s → same_lan (set_dr w s d b) w' →
  lan_view i w' P (with_own i D d) (with_own i B b).
Proof.
  intros Hi Hv Hs Hsame. destruct (v_entry _ _ _ _ _ Hv i Hi) as (n & Hn & E1 & E2 & E3 & E4 & E5 & E6).
  pose proof (v_self _ _ _ _ _ Hv) as Hp. eapply view_same; [exact Hsame|].
  unfold set_dr. rewrite <- Hp in Hs |- *. rewrite Hn in Hs. simplify_eq.
  eapply (view_upd i w P D B i s); [done..| |done]. unfold is_entry. cbn. by split_and!.
Qed.

Lemma first_round i w P a b :
  i ∈ rs → leader a → second a b → lan_view i w P (λ _, 0) (λ _, 0) →
  w_state w = ISM_Waiting ∨ w_state w = ISM_DROther →
  runs (OSPF_ISM_EVENT_EXECUTE (Es i) (first_event w)) w (λ _ w',
    lan_view i w' P (with_own i (λ _, 0) a) (with_own i (λ _, 0) (if addr i =? a then b else a)) ∧
    w_state w' = ism_state (Es i) a (if addr i =? a then b else a)).
Proof.
  intros Hi Ha Hb Hv Hst. destruct (view_self i w P _ _ Hi Hv) as (s & Hs & _).
  pose proof (first_election i w P _ _ s a b Hi Hv Hs Ha Hb (λ j _, conj eq_refl eq_refl) Hst) as Hr.
  eapply (ism_election_run (Es i) w s); [by eapply view_live|done| | |]; rewrite ?Hr; cbn [fst snd].
  - unfold first_event, elects. destruct Hst as [-> | ->]; cbn; auto.
  - intros Hd. exfalso. destruct Hst as [Hst|Hst]; rewrite Hst in Hd; done.
  - intros w' Hsame Hst'. split; [|done]. by eapply view_elected.
Qed.

Lemma second_round i w P D B a b :
  i ∈ rs → leader a → second a b → lan_view i w P D B →
  (∀ j, j ∈ rs → D j = a ∧ (addr j ≠ a → B j ≠ addr j)) → w_state w = ism_state (Es i) (D i) (B i) →
  runs (OSPF_ISM_EVENT_EXECUTE (Es i) ISM_NeighborChange) w (λ _ w',
    designated w' a b ∧ w_state w' = ism_state (Es i) a b).
Proof.
  intros Hi Ha Hb Hv HD Hst. destruct (view_self i w P _ _ Hi Hv) as (s & Hs & _).
  pose proof (next_election i w P D B s a b Hi Hv Hs Ha Hb HD Hst) as Hr.
  eapply (ism_election_run (Es i) w s); [by eapply view_live|done| | |]; rewrite ?Hr; cbn [fst snd].
  - right. split; [|done]. rewrite Hst. pose proof (ism_state_range (Es i) (D i) (B i)). tauto.
  - rewrite Hst. destruct (HD i Hi) as [-> HB]. unfold ism_state. case_match eqn:E; [done|].
    bool_to_prop. case_match; [|done]. by intros.
  - intros w' (Hn & _ & Hself & _) Hst'. split; [|done]. exists (s <| n_d_router := a |> <| n_bd_router := b |>).
    rewrite Hn, Hself. split; [apply lookup_insert_eq|done].
Qed.


Definition no_hello : ospf_hello := mk_hello 0 0 0 0 0 0 0 [].
Definition hello_from j w : ospf_hello :=
  match ospf_make_hello (Es j) w with Some (h, _) => h | None => no_hello end.

Lemma others_hear i W P a b hs :
  i ∈ rs → leader a → second a b →
  lan_view i W P (with_own i (λ _, 0) a) (with_own i (λ _, 0) (if addr i =? a then b else a)) →
  w_state W = ism_state (Es i) a (if addr i =? a then b else a) →
  (∀ j, j ∈ rs → ∃ c, hello_of j (hs j) a c ∧ (c = (if addr j =? a then b else a) ∨ c = 0)) →
  runs (hear i hs (filter (λ j, j ≠ i) rs)) W (λ _ W2,
    (addr i ≠ a → Ev_ism ISM_NeighborChange ∈ w_events W2) ∧
    runs (OSPF_ISM_EVENT_EXECUTE (Es i) ISM_NeighborChange) W2 (λ _ W3,
      designated W3 a b ∧ w_state W3 = ism_state (Es i) a b)).
Proof.
  intros Hi Ha Hb Hv Hst Hhs.
  assert (∀ j, j ∈ filter (λ j, j ≠ i) rs → j ∈ rs ∧ j ≠ i ∧ hello_of j (hs j) a (he_bd_router (hs j))) as Hjs.
  { intros j [Hji Hj]%list_elem_of_filter. destruct (Hhs j Hj) as (c & Hc' & _). split_and!; [done..|].
    by rewrite (ho_bdr _ _ _ _ Hc'). }
  eapply runs_mono; [apply (hear_run i hs (λ _, a) (λ j, he_bd_router (hs j)) P _ W _ _ Hi Hv Hjs)|].
  intros _ W2 (Hv2 & Hst2 & es & Hes & Hev). split.
  - intros Hia. rewrite Hes. apply elem_of_app. right. destruct (leader_router a Ha) as (l & Hl & _ & Hla).
    assert (l ≠ i) as Hli by congruence.
    apply (Hev l); [by apply list_elem_of_filter|done|]. unfold with_own. rewrite decide_False by done.
    pose proof (lc_addr Hc l Hl). congruence.
  - eapply second_round; [done..| |].
    + intros j Hj. cbn beta. split.
      * case_decide as Hd; [done|]. unfold with_own. rewrite decide_True; [done|].
        destruct (decide (j = i)); [done|]. destruct Hd. by apply list_elem_of_filter.
      * intros Hja. case_decide as Hd.
        -- destruct (Hhs j Hj) as (c & Hc' & Hcc). rewrite (ho_bdr _ _ _ _ Hc').
           rewrite (proj2 (Z.eqb_neq _ _) Hja) in Hcc. pose proof (lc_addr Hc j Hj). destruct Hcc; congruence.
        -- unfold with_own. case_decide as Hdi; [|pose proof (lc_addr Hc j Hj); congruence]. subst j.
           by rewrite (proj2 (Z.eqb_neq _ _) Hja).
    + rewrite Hst2, Hst. cbn beta. unfold with_own.
      rewrite !(decide_False (P := i ∈ _)) by (intros [? _]%list_elem_of_filter; done).
      by rewrite !decide_True by done.
Qed.

(** C31: the routers of a broadcast network agree.  Let every router have seen every other one, let at
    least one be eligible, and let nobody have declared a designated router yet.  When each router has run the event of
    its wait timer, each sends its Hello and hears those of the others; the routers that are not
    the designated router then have a NeighborChange event in the queue, and after that event every router has
    the same designated router, the eligible router of the highest priority (and, among
    those, the highest id), and the same backup, the best of the other ones or none; and its state is the one that
    belongs to its own address. *)
Theorem election_agreement (W : nat → ospf_world RT) (Ps : nat → nat → nat) :
  (∃ j, j ∈ rs ∧ 0 < prio j) →
  (∀ i, i ∈ rs → lan_view i (W i) (Ps i) (λ _, 0) (λ _, 0) ∧
     (w_state (W i) = ISM_Waiting ∨ w_state (W i) = ISM_DROther)) →
  ∃ a b W1 hs W2 W3, leader a ∧ second a b ∧ ∀ i, i ∈ rs →
    OSPF_ISM_EVENT_EXECUTE (Es i) (first_event (W i)) (W i) = Some (tt, W1 i) ∧
    ospf_make_hello (Es i) (W1 i) = Some (hs i, W1 i) ∧
    hear i hs (filter (λ j, j ≠ i) rs) (W1 i) = Some (tt, W2 i) ∧
    (addr i ≠ a → Ev_ism ISM_NeighborChange ∈ w_events (W2 i)) ∧
    OSPF_ISM_EVENT_EXECUTE (Es i) ISM_NeighborChange (W2 i) = Some (tt, W3 i) ∧
    designated (W3 i) a b ∧ w_state (W3 i) = ism_state (Es i) a b.
Proof.
  intros (e & He & Hpe) HW.
  destruct (ibest_exists (λ _, True)) as [[a Ha]|Hn]; [|by destruct (Hn e He Hpe)].
  assert (∃ b, second a b) as [b Hb].
  { destruct (ibest_exists (λ j, addr j ≠ a)) as [[b Hb]|Hn]; [exists b; by left|exists 0; by right]. }
  set (W1 := λ i, after (OSPF_ISM_EVENT_EXECUTE (Es i) (first_event (W i))) (W i)).
  set (hs := λ i, hello_from i (W1 i)).
  set (W2 := λ i, after (hear i hs (filter (λ j, j ≠ i) rs)) (W1 i)).
  set (W3 := λ i, after (OSPF_ISM_EVENT_EXECUTE (Es i) ISM_NeighborChange) (W2 i)).
  exists a, b, W1, hs, W2, W3. split_and!; [done..|].
  assert (∀ i, i ∈ rs → OSPF_ISM_EVENT_EXECUTE (Es i) (first_event (W i)) (W i) = Some (tt, W1 i) ∧
    lan_view i (W1 i) (Ps i) (with_own i (λ _, 0) a) (with_own i (λ _, 0) (if addr i =? a then b else a)) ∧
    w_state (W1 i) = ism_state (Es i) a (if addr i =? a then b else a)) as H1.
  { intros i Hi. destruct (HW i Hi) as [Hv Hst].
    by destruct (after_runs _ _ _ (first_round i (W i) (Ps i) a b Hi Ha Hb Hv Hst)) as ([] & ? & ?). }
  assert (∀ j, j ∈ rs → ospf_make_hello (Es j) (W1 j) = Some (hs j, W1 j) ∧
    ∃ c, hello_of j (hs j) a c ∧ (c = (if addr j =? a then b else a) ∨ c = 0)) as Hhs.
  { intros j Hj. destruct (H1 j Hj) as (_ & Hv & _).
    destruct (make_hello_run j (W1 j) _ _ _ Hj Hv) as (h & c & Hrun & Hh & Hcc).
    unfold with_own in Hh, Hcc. rewrite decide_True in Hh, Hcc by done.
    unfold hs, hello_from. rewrite Hrun. eauto. }
  intros i Hi. destruct (H1 i Hi) as (R1 & Hv1 & Hst1). destruct (Hhs i Hi) as [R2 _].
  destruct (after_runs _ _ _ (others_hear i (W1 i) (Ps i) a b hs Hi Ha Hb Hv1 Hst1 (λ j Hj, proj2 (Hhs j Hj))))
    as ([] & R3 & Hev & H3).
  by destruct (after_runs _ _ _ H3) as ([] & R4 & ? & ?).
Qed.

End Lan.

(** ** An example: three routers of the priorities 1, 2 and 1 *)

Module LanExample.

Definition tv0 : timeval := mk_tv 0 0.
Definition env (j : nat) : adj_env :=
  mk_adj_env tv0 1000 (Z.of_nat j + 1) (0x0a000001 + Z.of_nat j) 24 (if (j =? 1)%nat then 2 else 1) 40 10 0 1500 0 0 1
    false OSPF_AREA_DEFAULT false 0 (λ m, 32 - Z.log2 (2 ^ 32 - m)) (λ l, 2 ^ 32 - 2 ^ (32 - l)) (λ _, true).
Definition entry (j : nat) : ospf_neighbor (gmap Z) :=
  mk_nbr NSM_TwoWay OSPF_DD_FLAG_ALL 0 (e_address (env j)) 24 (e_address (env j)) (e_router_id (env j)) OSPF_OPTION_E
    (e_priority (env j)) 0 0 None tv0 0 0 0 ospf_lsdb_new ospf_lsdb_new ospf_lsdb_new None 0 40 true false T_null false false
    None 0.
Definition world (j : nat) : ospf_world (gmap Z) :=
  mk_world ∅ ospf_lsdb_new ospf_lsdb_new {[0%nat := entry 0; 1%nat := entry 1; 2%nat := entry 2]} ∅ ∅ []
    OSPF_IFTYPE_BROADCAST ISM_Waiting
    {[0x0a000001 := 0%nat; 0x0a000002 := 1%nat; 0x0a000003 := 2%nat]} j 0 0 1 None 0 0 1 true true false
    None [] ∅ false (Some []) [] [].
Definition routers : list nat := [0; 1; 2]%nat.

Lemma conf : lan_conf routers env.
Proof.
  assert (∀ j, j ∈ routers → j = 0%nat ∨ j = 1%nat ∨ j = 2%nat) as Hr by (unfold routers; set_solver).
  split; repeat (intros i Hi; destruct (Hr i Hi) as [-> |[-> | ->]]); try intros j Hj; cbn; try done; try lia;
    destruct (Hr j Hj) as [-> |[-> | ->]]; cbn; done || lia.
Qed.

Lemma view i : i ∈ routers → lan_view routers env i (world i) (λ j, j) (λ _, 0) (λ _, 0).
Proof.
  intros Hi. assert (∀ j, j ∈ routers ↔ j = 0%nat ∨ j = 1%nat ∨ j = 2%nat) as Hr by (unfold routers; set_solver).
  split; [done|done| |done| |].
  - intros k p. cbn -[insert]. rewrite !lookup_insert_Some, lookup_singleton_Some. split.
    + intros [[<- <-]|[_ [[<- <-]|[_ [<- <-]]]]]; [exists 0%nat|exists 1%nat|exists 2%nat]; (split; [apply Hr; auto|done]).
    + intros (j & [-> |[-> | ->]]%Hr & -> & ->); cbn; [by left|right..]; (split; [lia|]); [by left|].
      right. split; [lia|done].
  - intros j [-> |[-> | ->]]%Hr; eexists; (split; [reflexivity|]); unfold is_entry; cbn; repeat split; done.
  - intros s. apply Hr in Hi as [-> |[-> | ->]]; vm_compute; by intros [= <-].
Qed.

Lemma election_agreement_witness :
  ∃ a b W3, leader routers env a ∧ second routers env a b ∧
    ∀ i, i ∈ routers → designated (RT:=gmap Z) (W3 i) a b ∧ w_state (W3 i) = ism_state (env i) a b.
Proof.
  destruct (election_agreement (RT:=gmap Z) routers env conf world (λ _ j, j)) as (a & b & W1 & hs & W2 & W3 & Ha & Hb & Hall).
  - exists 1%nat. split; [unfold routers; set_solver|done].
  - intros i Hi. split; [by apply view|by left].
  - exists a, b, W3. split_and!; [done..|]. intros i Hi. apply (Hall i Hi).
Defined.

End LanExample.
