(* ===== verification/OspfAdjMem.v ===== *)
(** * OSPF: the LSAs an interface and its neighbours refer to

    The counts of the LSAs are those of the references in the databases, in the lists of the neighbours and in the queues
    of the interface, and the functions on the lists of a neighbour (ospf_flood.c, ospf_nsm.c) keep it so. *)

From stdpp Require Import gmap.
From S2P Require Import Prelude Fault OspfTable OspfLsa OspfVertex OspfLsaProps OspfNbr OspfAdj OspfElect.

Section Mem.
Context {RT : Type → Type} `{RouteTableLaws RT}.
Context (E : adj_env).

Implicit Types w v : ospf_world RT.
Implicit Types n : ospf_neighbor RT.
Implicit Types db : ospf_lsdb RT.
Implicit Types h : lheap.

(** The memory is only read. *)
Lemma runs_read {A} w (x : fsM lheap A) a (Q : A → ospf_world RT → Prop) :
  x (w_lsas w) = Some (a, w_lsas w) → Q a w → runs (on_lsas x) w Q.
Proof.
  intros Hx HQ. apply runs_zoom. eapply runs_run; [exact Hx|].
  by replace (w <| w_lsas := w_lsas w |>) with w by (by destruct w).
Qed.

(** ** The references *)

Definition nbr_refs n : list nat :=
  db_entries (n_ls_rxmt n) ++ db_entries (n_db_sum n) ++ db_entries (n_ls_req n) ++ option_list (n_ls_req_last n).
Definition nbrs_refs (m : gmap nat (ospf_neighbor RT)) : list nat := (map_to_list m).*2 ≫= nbr_refs.
Definition queue_refs w : list nat := concat (rt_entries (w_ls_upd_queue w)).
Definition top_refs w : list nat := db_entries (w_area_lsdb w) ++ db_entries (w_as_lsdb w).
Definition if_refs w : list nat := option_list (w_network_lsa_self w) ++ w_ls_ack w.
Definition w_refs w : list nat := top_refs w ++ queue_refs w ++ if_refs w ++ nbrs_refs (w_nbr w).

(** A list of a neighbour: a database without an entry of type 0. *)
Definition list_ok h db : Prop := db_ok h db ∧ ∀ k, db_info db 0 k = None.
Definition lists_ok h n : Prop := list_ok h (n_ls_rxmt n) ∧ list_ok h (n_db_sum n) ∧ list_ok h (n_ls_req n).

(** The LSA fits into an update packet of its own. *)
Definition upd_fits (l : ospf_lsa) : Prop :=
  0 ≤ h_length (l_data l) ∧ OSPF_HEADER_SIZE + OSPF_LS_UPD_MIN_SIZE + h_length (l_data l) ≤ ospf_packet_max E.

(** [X] counts the references of other parts of the program. *)
Definition lsas_ok (X : nat → Z) w : Prop :=
  heap_ok (w_lsas w) (λ q, X q + cnt q (w_refs w)) ∧ (∀ q, 0 ≤ X q) ∧
  db_ok (w_lsas w) (w_area_lsdb w) ∧ db_ok (w_lsas w) (w_as_lsdb w) ∧
  (∀ p n, w_nbr w !! p = Some n → lists_ok (w_lsas w) n) ∧
  (∀ q l, q ∈ top_refs w ++ queue_refs w → w_lsas w !! q = Some l → upd_fits l) ∧
  Z.of_nat (size (w_lsas w)) < 2 ^ 64.

Lemma nbrs_refs_insert (m : gmap nat (ospf_neighbor RT)) p n n' :
  m !! p = Some n → nbr_refs n' ++ nbrs_refs m ≡ₚ nbr_refs n ++ nbrs_refs (<[p := n']> m).
Proof.
  intros Hp. unfold nbrs_refs.
  rewrite <- (insert_delete_id m p n Hp) at 1. rewrite <- (insert_delete_eq m p n').
  rewrite !map_to_list_insert by apply lookup_delete_eq. rewrite !fmap_cons, !bind_cons. cbn [snd].
  by rewrite Permutation_app_swap_app.
Qed.

Lemma nbrs_refs_new (m : gmap nat (ospf_neighbor RT)) p n :
  m !! p = None → nbrs_refs (<[p := n]> m) ≡ₚ nbr_refs n ++ nbrs_refs m.
Proof. intros Hp. unfold nbrs_refs. rewrite map_to_list_insert by done. by rewrite fmap_cons, bind_cons. Qed.

Lemma nbrs_refs_delete (m : gmap nat (ospf_neighbor RT)) p n :
  m !! p = Some n → nbrs_refs m ≡ₚ nbr_refs n ++ nbrs_refs (delete p m).
Proof.
  intros Hp. rewrite <- nbrs_refs_new by apply lookup_delete_eq. by rewrite insert_delete_id.
Qed.

Lemma nbr_refs_cnt w p n q : w_nbr w !! p = Some n → cnt q (nbr_refs n) ≤ cnt q (w_refs w).
Proof.
  intros Hp. unfold w_refs. rewrite !cnt_app, (cnt_perm q _ _ (nbrs_refs_delete _ p n Hp)), cnt_app.
  pose proof (cnt_nonneg q (top_refs w)). pose proof (cnt_nonneg q (queue_refs w)).
  pose proof (cnt_nonneg q (if_refs w)). pose proof (cnt_nonneg q (nbrs_refs (delete p (w_nbr w)))). lia.
Qed.

Lemma lsas_alive X w q : lsas_ok X w → q ∈ w_refs w → is_Some (w_lsas w !! q).
Proof.
  intros ([_ L1] & L2 & _) Hq. apply L1. specialize (L2 q). pose proof (proj2 (cnt_elem q _) Hq). lia.
Qed.

Lemma nbr_ref_elem w p n q : w_nbr w !! p = Some n → q ∈ nbr_refs n → q ∈ w_refs w.
Proof.
  intros Hp Hq. apply cnt_elem. pose proof (proj2 (cnt_elem q _) Hq). pose proof (nbr_refs_cnt w p n q Hp). lia.
Qed.

Lemma list_ok_stable h h' db :
  list_ok h db → stable h h' → (∀ p, p ∈ db_entries db → is_Some (h' !! p)) → list_ok h' db.
Proof. intros [L1 L2] Hs Ha. split; [by eapply db_ok_stable|done]. Qed.

Lemma lists_ok_stable h h' n :
  lists_ok h n → stable h h' → (∀ p, p ∈ nbr_refs n → is_Some (h' !! p)) → lists_ok h' n.
Proof.
  intros (L1 & L2 & L3) Hs Ha. unfold nbr_refs in Ha.
  split_and!; (eapply list_ok_stable; [done|done|]); intros; apply Ha; set_solver.
Qed.

(** The memory is changed, and with it what is referred to: [w'] is the world afterwards, and what it refers to is
    there and has kept its contents. *)
Lemma lsas_ok_change X X' w w' :
  lsas_ok X w → stable (w_lsas w) (w_lsas w') →
  heap_ok (w_lsas w') (λ q, X' q + cnt q (w_refs w')) → (∀ q, 0 ≤ X' q) →
  w_area_lsdb w' = w_area_lsdb w → w_as_lsdb w' = w_as_lsdb w →
  (∀ q, q ∈ queue_refs w' → q ∈ queue_refs w ++ top_refs w) →
  (∀ p n, w_nbr w' !! p = Some n → w_nbr w !! p = Some n ∨ lists_ok (w_lsas w') n) →
  Z.of_nat (size (w_lsas w')) < 2 ^ 64 → lsas_ok X' w'.
Proof.
  intros (L1 & L2 & L3 & L4 & L5 & L6 & L7) Hst Hh HX Ha Hs Hq Hn Hsz.
  assert (∀ q, q ∈ w_refs w' → is_Some (w_lsas w' !! q)) as Halive.
  { intros q Hin. destruct Hh as [_ Hh]. apply Hh. specialize (HX q). pose proof (proj2 (cnt_elem q _) Hin). lia. }
  unfold w_refs, top_refs in Halive. rewrite Ha, Hs in Halive.
  split_and!; [done|done| | | | |done].
  - rewrite Ha. eapply db_ok_stable; [exact L3|done|]. intros q Hin. apply Halive. set_solver.
  - rewrite Hs. eapply db_ok_stable; [exact L4|done|]. intros q Hin. apply Halive. set_solver.
  - intros p n Hp. destruct (Hn p n Hp) as [Hp'|Hl]; [|done].
    eapply lists_ok_stable; [by eapply L5|done|]. intros q Hin.
    destruct Hh as [_ Hh]. apply Hh. specialize (HX q).
    pose proof (proj2 (cnt_elem q _) Hin). pose proof (nbr_refs_cnt w' p n q Hp). lia.
  - intros q l Hin Hl. unfold top_refs in Hin. rewrite Ha, Hs in Hin. fold (top_refs w) in Hin.
    assert (q ∈ top_refs w ++ queue_refs w) as Hin' by set_solver.
    destruct (lsas_alive X w q) as [l0 Hl0]; [by split_and!|unfold w_refs; set_solver|].
    destruct (Hst q l0 l Hl0 Hl) as (Hd & _). unfold upd_fits. rewrite Hd. by apply (L6 q).
Qed.

Lemma size_mono h h' : (∀ q, is_Some (h' !! q) → is_Some (h !! q)) → (size h' ≤ size h)%nat.
Proof.
  intros Hd. rewrite <- !size_dom. apply subseteq_size. intros q Hq. apply elem_of_dom, Hd. by apply elem_of_dom.
Qed.

(** The world with the memory [h] and with the neighbour [p] changed to [n]. *)
Definition wset w h (p : nat) n : ospf_world RT := w <| w_lsas := h |> <| w_nbr := <[p := n]> (w_nbr w) |>.

Lemma wset_wset w h h' p n n' : wset (wset w h p n) h' p n' = wset w h' p n'.
Proof. unfold wset. cbn. by rewrite insert_insert_eq. Qed.

Lemma wset_lookup w h p n : w_nbr (wset w h p n) !! p = Some n.
Proof. apply lookup_insert_eq. Qed.

Lemma wset_id w p n : w_nbr w !! p = Some n → wset w (w_lsas w) p n = w.
Proof. intros Hp. unfold wset. cbn. rewrite insert_id by done. by destruct w. Qed.

Lemma wset_refs w h p n n' q :
  w_nbr w !! p = Some n →
  cnt q (w_refs (wset w h p n')) = cnt q (w_refs w) + cnt q (nbr_refs n') - cnt q (nbr_refs n).
Proof.
  intros Hp. unfold w_refs. rewrite !cnt_app.
  pose proof (cnt_perm q _ _ (nbrs_refs_insert (w_nbr w) p n n' Hp)) as Hc. rewrite !cnt_app in Hc.
  change (w_nbr (wset w h p n')) with (<[p := n']> (w_nbr w)).
  change (top_refs (wset w h p n')) with (top_refs w). change (queue_refs (wset w h p n')) with (queue_refs w).
  change (if_refs (wset w h p n')) with (if_refs w). lia.
Qed.

Lemma lsas_ok_wset X w h p n n' :
  lsas_ok X w → w_nbr w !! p = Some n → stable (w_lsas w) h →
  (∀ q, is_Some (h !! q) → is_Some (w_lsas w !! q)) →
  heap_ok h (λ q, X q + cnt q (w_refs w) + cnt q (nbr_refs n') - cnt q (nbr_refs n)) → lists_ok h n' →
  lsas_ok X (wset w h p n').
Proof.
  intros HL Hp Hst Hdom Hh Hn'. pose proof HL as (_ & HX & _ & _ & _ & _ & Hsz).
  eapply lsas_ok_change; [exact HL|done| |done|done|done| | |].
  - eapply heap_ok_ext; [|exact Hh]. intros q. cbv beta. rewrite (wset_refs w h p n) by done. lia.
  - intros q Hq. change (q ∈ queue_refs w) in Hq. set_solver.
  - intros r m. cbn. destruct (decide (p = r)) as [<-|Hr].
    + rewrite lookup_insert_eq. intros [= <-]. by right.
    + rewrite lookup_insert_ne by done. by left.
  - cbn. pose proof (size_mono _ _ Hdom). lia.
Qed.

(** A part of the neighbour that is not one of its lists is changed. *)
Definition same_lists n n' : Prop :=
  n_ls_rxmt n' = n_ls_rxmt n ∧ n_db_sum n' = n_db_sum n ∧ n_ls_req n' = n_ls_req n ∧ n_ls_req_last n' = n_ls_req_last n.

Lemma lsas_ok_upd X w p n n' :
  lsas_ok X w → w_nbr w !! p = Some n → same_lists n n' →
  lsas_ok X (w <| w_nbr := <[p := n']> (w_nbr w) |>).
Proof.
  intros HL Hp (S1 & S2 & S3 & S4). pose proof HL as (Hh & HX & _ & _ & L5 & _ & Hsz).
  replace (w <| w_nbr := <[p := n']> (w_nbr w) |>) with (wset w (w_lsas w) p n') by (by destruct w).
  eapply lsas_ok_wset; [exact HL|done| |done| |].
  - intros q l l' Hl Hl'. by simplify_eq.
  - eapply heap_ok_ext; [|exact Hh]. intros q. cbv beta. unfold nbr_refs. rewrite S1, S2, S3, S4. lia.
  - unfold lists_ok. rewrite S1, S2, S3. eapply L5, Hp.
Qed.

Lemma wset_upd w h p n n' : (wset w h p n) <| w_nbr := <[p := n']> (w_nbr (wset w h p n)) |> = wset w h p n'.
Proof. unfold wset. cbn. by rewrite insert_insert_eq. Qed.

Lemma lsas_ok_wset_upd X w h p n n' : lsas_ok X (wset w h p n) → same_lists n n' → lsas_ok X (wset w h p n').
Proof. intros HL Hs. rewrite <- (wset_upd w h p n n'). eapply lsas_ok_upd; [done|apply wset_lookup|done]. Qed.

(** ** A database of a neighbour *)

Lemma db_entry_lsa h db i k lp :
  db_ok h db → db_info db i k = Some lp →
  (i < 8)%nat ∧ ∃ l, h !! lp = Some l ∧ h_type (l_data l) = Z.of_nat i ∧ lsdb_prefix_set l = k.
Proof.
  intros (D1 & D2 & _) Hi. unfold db_info in Hi. destruct (db_type db !! i) as [t|] eqn:Et; [|done]. cbn in Hi.
  split; [rewrite <- D1; by eapply lookup_lt_Some|]. destruct (D2 i t Et) as (T1 & _). by apply T1.
Qed.

Lemma db_entries_info db lp : lp ∈ db_entries db ↔ ∃ i k, db_info db i k = Some lp.
Proof.
  rewrite db_entries_elem. unfold db_info. split.
  - intros (i & t & Hi & [k Hk]%rt_entries_elem). exists i, k. by rewrite Hi.
  - intros (i & k & Hik). destruct (db_type db !! i) as [t|] eqn:Et; [|done]. exists i, t. split; [done|].
    apply rt_entries_elem. eauto.
Qed.

Lemma db_entries_nil db : db_entries db = [] ↔ ∀ i k, db_info db i k = None.
Proof.
  split.
  - intros He i k. destruct (db_info db i k) as [lp|] eqn:Ei; [|done].
    assert (lp ∈ db_entries db) as Hin by (apply db_entries_info; eauto). rewrite He in Hin. by inversion Hin.
  - intros Hn. destruct (db_entries db) as [|lp l] eqn:He; [done|].
    assert (lp ∈ db_entries db) as Hin by (rewrite He; left).
    apply db_entries_info in Hin as (i & k & Hik). by rewrite Hn in Hik.
Qed.

Lemma omap_nodup {A B} (f : A → option B) (l : list A) :
  (∀ x y z, f x = Some z → f y = Some z → x = y) → NoDup l → NoDup (omap f l).
Proof.
  intros Hf. induction 1 as [|x l Hx Hl IH]; [constructor|]. cbn. destruct (f x) as [z|] eqn:Ex; [|done].
  apply list.NoDup_cons. split; [|done]. intros (y & Hy & Hz)%list_elem_of_omap. by rewrite (Hf x y z) in Hx.
Qed.

Lemma bind_nodup {A B} (f : A → list B) (l : list A) :
  (∀ i j x y z, l !! i = Some x → l !! j = Some y → z ∈ f x → z ∈ f y → i = j) →
  (∀ x, x ∈ l → NoDup (f x)) → NoDup (l ≫= f).
Proof.
  induction l as [|x l IH]; intros Hf Hn; [constructor|]. rewrite bind_cons. apply list.NoDup_app. split_and!.
  - apply Hn. left.
  - intros z Hz (y & Hy & Hin)%list_elem_of_bind. apply list_elem_of_lookup in Hin as [j Hj].
    discriminate (Hf O (S j) x y z eq_refl Hj Hz Hy).
  - apply IH.
    + intros i j u v z Hi Hj Hu Hv. assert (S i = S j) by (by apply (Hf (S i) (S j) u v z)). lia.
    + intros y Hy. apply Hn. by right.
Qed.

Lemma db_entries_nodup h db : db_ok h db → NoDup (db_entries db).
Proof.
  intros Hdb. pose proof Hdb as (_ & D2 & _). apply bind_nodup.
  - intros i j t u lp Hi Hj (k & Hk)%rt_entries_elem (k' & Hk')%rt_entries_elem.
    destruct (db_entry_lsa h db i k lp) as (_ & l & Hl & Ht & _); [done|unfold db_info; by rewrite Hi|].
    destruct (db_entry_lsa h db j k' lp) as (_ & l' & Hl' & Ht' & _); [done|unfold db_info; by rewrite Hj|].
    simplify_eq. lia.
  - intros t [i Hi]%list_elem_of_lookup. destruct (D2 i t Hi) as (T1 & _).
    apply omap_nodup; [|apply rt_walk_nodup]. intros k k' lp Hk Hk'.
    destruct (T1 k lp Hk) as (l & Hl & _ & <-). destruct (T1 k' lp Hk') as (l' & Hl' & _ & <-). by simplify_eq.
Qed.

Lemma db_entries_length h db : db_ok h db → (length (db_entries db) ≤ size h)%nat.
Proof.
  intros Hdb. rewrite <- size_dom. rewrite <- (size_list_to_set (C := gset nat)) by (by eapply db_entries_nodup).
  apply subseteq_size. intros lp Hlp. apply elem_of_list_to_set, db_entries_info in Hlp as (i & k & Hik).
  destruct (db_entry_lsa h db i k lp Hdb Hik) as (_ & l & Hl & _). apply elem_of_dom. eauto.
Qed.

(** The counter is 0 only if there is no entry. *)
Lemma total_zero h db :
  db_ok h db → Z.of_nat (size h) < 2 ^ 64 → (db_total db =? 0) = bool_decide (db_entries db = []).
Proof.
  intros Hdb Hsz. pose proof Hdb as (_ & _ & ->). pose proof (db_entries_length h db Hdb).
  unfold u64. rewrite Z.mod_small by lia. destruct (db_entries db) as [|lp l] eqn:He; cbn [length]; [done|].
  rewrite bool_decide_eq_false_2 by done. apply Z.eqb_neq. lia.
Qed.

(** [get] and [put] are the access to one of the lists. *)
Class NbrList (get : ospf_neighbor RT → ospf_lsdb RT) (put : ospf_lsdb RT → ospf_neighbor RT → ospf_neighbor RT) :
    Prop := {
  nl_get db n : get (put db n) = db;
  nl_put db db' n : put db' (put db n) = put db' n;
  nl_id n : put (get n) n = n;
  nl_refs db n : db_entries db ++ nbr_refs n ≡ₚ db_entries (get n) ++ nbr_refs (put db n);
  nl_list h n : lists_ok h n → list_ok h (get n);
  nl_lists h h' db n :
    lists_ok h n → list_ok h' db → stable h h' → (∀ q, q ∈ nbr_refs (put db n) → is_Some (h' !! q)) →
    lists_ok h' (put db n);
  nl_last db n : n_ls_req_last (put db n) = n_ls_req_last n
}.

#[export] Instance list_rxmt : NbrList n_ls_rxmt (λ db n, n <| n_ls_rxmt := db |>).
Proof.
  split; try done.
  - by intros [].
  - intros db n. unfold nbr_refs. cbn. by rewrite Permutation_app_swap_app.
  - by intros h n (? & ? & ?).
  - intros h h' db n (L1 & L2 & L3) Hdb Hst Ha. unfold nbr_refs in Ha. cbn in Ha.
    split_and!; cbn; try done; (eapply list_ok_stable; [done|done|]); intros; apply Ha; set_solver.
Qed.
#[export] Instance list_sum : NbrList n_db_sum (λ db n, n <| n_db_sum := db |>).
Proof.
  split; try done.
  - by intros [].
  - intros db n. unfold nbr_refs. cbn.
    rewrite (Permutation_app_swap_app (db_entries (n_ls_rxmt n)) (db_entries (n_db_sum n))).
    rewrite (Permutation_app_swap_app (db_entries (n_ls_rxmt n)) (db_entries db)).
    by rewrite Permutation_app_swap_app.
  - by intros h n (? & ? & ?).
  - intros h h' db n (L1 & L2 & L3) Hdb Hst Ha. unfold nbr_refs in Ha. cbn in Ha.
    split_and!; cbn; try done; (eapply list_ok_stable; [done|done|]); intros; apply Ha; set_solver.
Qed.
#[export] Instance list_req : NbrList n_ls_req (λ db n, n <| n_ls_req := db |>).
Proof.
  split; try done.
  - by intros [].
  - intros db n. unfold nbr_refs. cbn. rewrite !(app_assoc (db_entries (n_ls_rxmt n))).
    set (a := db_entries (n_ls_rxmt n) ++ db_entries (n_db_sum n)).
    rewrite (Permutation_app_swap_app a (db_entries (n_ls_req n))).
    rewrite (Permutation_app_swap_app a (db_entries db)). by rewrite Permutation_app_swap_app.
  - by intros h n (? & ? & ?).
  - intros h h' db n (L1 & L2 & L3) Hdb Hst Ha. unfold nbr_refs in Ha. cbn in Ha.
    split_and!; cbn; try done; (eapply list_ok_stable; [done|done|]); intros; apply Ha; set_solver.
Qed.

(** What an operation on the lists does to the memory. *)
Definition mem_step h h' : Prop := stable h h' ∧ (∀ q, is_Some (h' !! q) → is_Some (h !! q)) ∧ keeps h h'.

Lemma mem_step_refl h : mem_step h h.
Proof.
  split_and!; [|done|].
  - intros q l l' Hl Hl'. by simplify_eq.
  - intros q l Hl Hd. eauto.
Qed.

Lemma mem_step_trans h h' h'' : mem_step h h' → mem_step h' h'' → mem_step h h''.
Proof.
  intros (A1 & A2 & A3) (B1 & B2 & B3). split_and!; [by eapply stable_trans|by auto|].
  intros q l Hl Hd. destruct (A3 q l Hl Hd) as (l' & Hl' & Hd'). by apply (B3 q l').
Qed.

Section Lists.
Context get put `{!NbrList get put}.
Context (X : nat → Z).

Definition on_list (p : nat) (f : ospf_lsdb RT → fsM lheap (ospf_lsdb RT)) : fsM (ospf_world RT) unit :=
  n ← nbr p; db ← on_lsas (f (get n)); upd_nbr p (put db).

Lemma list_refs_cnt w p n q : w_nbr w !! p = Some n → cnt q (db_entries (get n)) ≤ cnt q (w_refs w).
Proof.
  intros Hp. pose proof (nbr_refs_cnt w p n q Hp).
  pose proof (cnt_perm q _ _ (nl_refs ospf_lsdb_new n)) as Hc. rewrite !cnt_app, new_db_entries in Hc.
  change (cnt q []) with 0 in Hc. pose proof (cnt_nonneg q (nbr_refs (put ospf_lsdb_new n))). lia.
Qed.

(** The list of [p] has been changed to one with [Q]. *)
Definition list_res w (p : nat) n (Q : ospf_lsdb RT → Prop) (w' : ospf_world RT) : Prop :=
  ∃ db' h', w' = wset w h' p (put db' n) ∧ lsas_ok X w' ∧ mem_step (w_lsas w) h' ∧ Q db'.

Lemma list_step_ok w p n h' db' :
  lsas_ok X w → w_nbr w !! p = Some n →
  db_step (w_lsas w) h' (λ q, X q + cnt q (w_refs w)) (get n) db' → (∀ k, db_info db' 0 k = None) →
  lsas_ok X (wset w h' p (put db' n)).
Proof.
  intros HL Hp (S1 & S2 & S3 & S4 & S5) HQ. pose proof HL as (Hh & HX & _ & _ & L5 & _).
  eapply lsas_ok_wset; [done|done|done|done| |].
  - eapply heap_ok_ext; [|exact S1]. intros q. cbv beta.
    pose proof (cnt_perm q _ _ (nl_refs db' n)) as Hc. rewrite !cnt_app in Hc. lia.
  - eapply nl_lists; [by eapply L5|split; [done|by apply HQ]|done|].
    intros q Hin. destruct S1 as [_ S1]. apply S1. pose proof (proj2 (cnt_elem q _) Hin).
    specialize (HX q). pose proof (nbr_refs_cnt w p n q Hp).
    pose proof (cnt_perm q _ _ (nl_refs db' n)) as Hc. rewrite !cnt_app in Hc. lia.
Qed.

Lemma list_cnt_le w p n q :
  lsas_ok X w → w_nbr w !! p = Some n → cnt q (db_entries (get n)) ≤ X q + cnt q (w_refs w).
Proof. intros (_ & HX & _) Hp. specialize (HX q). pose proof (list_refs_cnt w p n q Hp). lia. Qed.

(** An operation that changes one list. *)
Lemma on_list_runs w p n f (Q : ospf_lsdb RT → Prop) :
  lsas_ok X w → w_nbr w !! p = Some n →
  (∀ R, db_ok (w_lsas w) (get n) → heap_ok (w_lsas w) R → (∀ q, cnt q (db_entries (get n)) ≤ R q) →
    ∃ db' h', f (get n) (w_lsas w) = Some (db', h') ∧ db_step (w_lsas w) h' R (get n) db' ∧ Q db') →
  (∀ db', Q db' → ∀ k, db_info db' 0 k = None) →
  runs (on_list p f) w (λ _, list_res w p n Q).
Proof.
  intros HL Hp Hf HQ. pose proof HL as (Hh & HX & _ & _ & L5 & _).
  destruct (nl_list _ _ (L5 p n Hp)) as [Hdb _].
  destruct (Hf _ Hdb Hh) as (db' & h' & Hrun & Hs & Hq); [intros q; by apply (list_cnt_le w p n)|].
  unfold on_list. rstep. eapply runs_nbr; [done|]. rstep. apply runs_zoom. eapply runs_run; [exact Hrun|].
  eapply runs_upd_nbr; [cbn; exact Hp|]. exists db', h'.
  split; [done|]. pose proof Hs as (_ & _ & S3 & S4 & S5). split; [|done].
  apply (list_step_ok w p n h' db'); [done|done|done|by apply HQ].
Qed.

Definition info_without db (i : nat) (k : Z) db' : Prop :=
  ∀ j k', db_info db' j k' = if decide (j = i ∧ k' = k) then None else db_info db j k'.

Lemma list_zero w p n k : lsas_ok X w → w_nbr w !! p = Some n → db_info (get n) 0 k = None.
Proof. intros (_ & _ & _ & _ & L5 & _) Hp. by destruct (nl_list _ _ (L5 p n Hp)) as [_ ->]. Qed.

Lemma list_db_ok w p n : lsas_ok X w → w_nbr w !! p = Some n → db_ok (w_lsas w) (get n).
Proof. intros (_ & _ & _ & _ & L5 & _) Hp. by destruct (nl_list _ _ (L5 p n Hp)) as [? _]. Qed.

Lemma list_delete_runs w p n i k lp :
  lsas_ok X w → w_nbr w !! p = Some n → db_info (get n) i k = Some lp →
  runs (on_list p (λ db, ospf_lsdb_delete db lp)) w (λ _, list_res w p n (info_without (get n) i k)).
Proof.
  intros HL Hp Hik. destruct (db_entry_lsa _ _ i k lp (list_db_ok w p n HL Hp) Hik) as (Hi & l & Hl & Hty & Hk).
  eapply on_list_runs; [done|done| |].
  - intros R Hdb Hh HR.
    destruct (lsdb_delete_ok _ R _ lp l i Hdb Hh HR Hl Hty Hi) as (db' & h' & Hrun & Hs & Hinfo).
    exists db', h'. split_and!; [done|done|]. intros j k'. rewrite Hinfo, Hk.
    destruct (decide (j = i ∧ k' = k)) as [[-> ->]|Hne]; [by rewrite decide_True|].
    by rewrite decide_False by naive_solver.
  - intros db' Hdb' k'. rewrite Hdb'. case_decide; [done|]. by eapply list_zero.
Qed.

(** An LSA that need not be in the list. *)
Lemma list_delete_any w p n lp l :
  lsas_ok X w → w_nbr w !! p = Some n → w_lsas w !! lp = Some l → 0 ≤ h_type (l_data l) < 8 →
  runs (on_list p (λ db, ospf_lsdb_delete db lp)) w (λ _, list_res w p n (λ db', ∀ j k',
    db_info db' j k' = if decide (db_info (get n) j k' = Some lp) then None else db_info (get n) j k')).
Proof.
  intros HL Hp Hl Hty. set (i := Z.to_nat (h_type (l_data l))).
  eapply on_list_runs; [done|done| |].
  - intros R Hdb Hh HR.
    destruct (lsdb_delete_ok _ R _ lp l i Hdb Hh HR Hl) as (db' & h' & Hrun & Hs & Hinfo); [lia|lia|].
    exists db', h'. split_and!; [done|done|]. intros j k'. rewrite Hinfo.
    destruct (decide (db_info (get n) j k' = Some lp)) as [Hj|Hj].
    + destruct (db_entry_lsa _ _ j k' lp Hdb Hj) as (_ & l' & Hl' & Hty' & Hk'). simplify_eq.
      rewrite decide_True; [done|]. split; [lia|done].
    + by rewrite decide_False by naive_solver.
  - intros db' Hdb' k'. rewrite Hdb'. case_decide; [done|]. by eapply list_zero.
Qed.

Lemma list_add_runs w p n lp l i :
  lsas_ok X w → w_nbr w !! p = Some n → w_lsas w !! lp = Some l → h_type (l_data l) = Z.of_nat i → (0 < i < 8)%nat →
  runs (on_list p (λ db, ospf_lsdb_add db lp)) w (λ _, list_res w p n (λ db', ∀ j k',
    db_info db' j k' = if decide (j = i ∧ k' = lsdb_prefix_set l) then Some lp else db_info (get n) j k')).
Proof.
  intros HL Hp Hl Hty Hi. eapply on_list_runs; [done|done| |].
  - intros R Hdb Hh HR.
    destruct (lsdb_add_ok _ R _ lp l i Hdb Hh HR Hl Hty) as (db' & h' & Hrun & Hs & Hinfo); [lia|].
    by exists db', h'.
  - intros db' Hdb' k'. rewrite Hdb'. rewrite decide_False by lia. by eapply list_zero.
Qed.

Lemma list_clear_runs w p n :
  lsas_ok X w → w_nbr w !! p = Some n →
  runs (on_list p ospf_lsdb_delete_all) w (λ _, list_res w p n (λ db', db_entries db' = [])).
Proof.
  intros HL Hp. eapply on_list_runs; [done|done| |intros db' Hdb'; by apply db_entries_nil].
  intros R Hdb Hh HR. unfold ospf_lsdb_delete_all. change lsa_types with (Z.of_nat <$> seq 1 7).
  destruct (delete_types_ok (seq 1 7) _ R _ Hdb Hh HR) as (db' & h' & Hrun & Hs & Hinfo).
  { apply list.Forall_forall. intros i Hi%elem_of_seq. lia. }
  exists db', h'. split_and!; [done|done|]. apply db_entries_nil. intros i k. rewrite Hinfo.
  case_decide as Hin; [done|]. rewrite elem_of_seq in Hin. destruct i as [|i]; [by eapply list_zero|].
  unfold db_info. pose proof Hdb as (Hlen & _). rewrite lookup_ge_None_2; [done|]. lia.
Qed.

(** The walk over the tables that takes every entry out of the list. *)
Section Walk.
Context (p : nat) (f : nat → fsM (ospf_world RT) unit).
Context (Hf : ∀ w n i k lp, lsas_ok X w → w_nbr w !! p = Some n → db_info (get n) i k = Some lp →
  runs (f lp) w (λ _, list_res w p n (info_without (get n) i k))).

Lemma list_res_refl w n (Q : ospf_lsdb RT → Prop) :
  lsas_ok X w → w_nbr w !! p = Some n → Q (get n) → list_res w p n Q w.
Proof.
  intros HL Hp HQ. exists (get n), (w_lsas w). rewrite nl_id, wset_id by done.
  split_and!; [done|done|apply mem_step_refl|done].
Qed.

Lemma list_res_trans w n db h w' (Q Q' : ospf_lsdb RT → Prop) :
  mem_step (w_lsas w) h → list_res (wset w h p (put db n)) p (put db n) Q w' →
  (∀ db', Q db' → Q' db') → list_res w p n Q' w'.
Proof.
  intros Hm (db' & h' & -> & HL & Hm' & HQ) HQ'. exists db', h'. rewrite wset_wset, nl_put in HL |- *.
  split_and!; [done|done|by eapply mem_step_trans|by apply HQ'].
Qed.

Lemma walk_table_runs ks w n i :
  lsas_ok X w → w_nbr w !! p = Some n → (i < 8)%nat →
  runs (walk_table get f p (Z.of_nat i) ks) w (λ _, list_res w p n (λ db', ∀ j k',
    db_info db' j k' = if decide (j = i ∧ k' ∈ ks) then None else db_info (get n) j k')).
Proof.
  revert w n. induction ks as [|k ks IH]; intros w n HL Hp Hi; cbn [walk_table].
  { rstep. apply list_res_refl; [done..|]. intros j k'. rewrite decide_False; [done|]. intros [_ Hk]. by inversion Hk. }
  rstep. eapply runs_nbr; [done|]. rstep. destruct (db_type_exists _ _ i (list_db_ok w p n HL Hp) Hi) as [t Ht].
  eapply runs_read; [by apply ldt_run|].
  assert (db_info (get n) i k = rt_info k (lt_db t)) as Hik by (unfold db_info; by rewrite Ht).
  rstep. destruct (rt_info k (lt_db t)) as [lp|] eqn:Ek.
  - eapply runs_mono; [by eapply Hf|]. intros _ w1 (db1 & h1 & -> & HL1 & Hm1 & Hdb1).
    eapply runs_mono; [apply (IH _ (put db1 n)); [done|apply wset_lookup|done]|]. intros [] w2 Hw2.
    eapply list_res_trans; [done|exact Hw2|]. clear Hw2. intros db2 Hdb2 j k'. rewrite Hdb2, nl_get, Hdb1.
    destruct (decide (j = i ∧ k' ∈ ks)) as [[-> Hk']|Hd].
    + by rewrite decide_True by set_solver.
    + destruct (decide (j = i ∧ k' = k)) as [[-> ->]|Hd']; [by rewrite decide_True by set_solver|].
      rewrite decide_False; [done|]. intros [-> [->|]%elem_of_cons]; naive_solver.
  - rstep. eapply runs_mono; [by eapply IH|]. intros _ w2 (db2 & h2 & -> & HL2 & Hm2 & Hdb2).
    exists db2, h2. split_and!; [done..|]. intros j k'. rewrite Hdb2.
    destruct (decide (j = i ∧ k' ∈ ks)) as [[-> Hk']|Hd]; [by rewrite decide_True by set_solver|].
    case_decide as Hd'; [|done]. destruct Hd' as [-> [->|Hk']%elem_of_cons]; [done|naive_solver].
Qed.

Lemma walk_types_runs types w n :
  lsas_ok X w → w_nbr w !! p = Some n → Forall (λ i, i < 8)%nat types →
  runs (walk_types get f p (Z.of_nat <$> types)) w (λ _, list_res w p n (λ db', ∀ j k',
    db_info db' j k' = if decide (j ∈ types) then None else db_info (get n) j k')).
Proof.
  revert w n. induction types as [|i types IH]; intros w n HL Hp Ht; cbn [walk_types fmap list_fmap].
  { rstep. apply list_res_refl; [done..|]. intros j k'. rewrite decide_False; [done|]. intros Hk. by inversion Hk. }
  apply list.Forall_cons in Ht as [Hi Ht]. rstep. eapply runs_nbr; [done|]. rstep. 
  destruct (db_type_exists _ _ i (list_db_ok w p n HL Hp) Hi) as [t Hit].
  eapply runs_read; [by apply ldt_run|].
  rstep. eapply runs_mono; [by eapply walk_table_runs|]. intros _ w1 (db1 & h1 & -> & HL1 & Hm1 & Hdb1).
  eapply runs_mono; [apply (IH _ (put db1 n)); [done|apply wset_lookup|done]|]. intros [] w2 Hw2.
  eapply list_res_trans; [done|exact Hw2|]. clear Hw2. intros db2 Hdb2 j k'. rewrite Hdb2, nl_get, Hdb1.
  destruct (decide (j ∈ types)) as [Hj|Hj]; [by rewrite decide_True by set_solver|].
  destruct (decide (j = i)) as [->|Hne].
  - rewrite (decide_True (P := i ∈ i :: types)) by set_solver. case_decide as Hd; [done|].
    unfold db_info. rewrite Hit. cbn. destruct (rt_info k' (lt_db t)) eqn:Ek; [|done].
    exfalso. apply Hd. split; [done|]. apply rt_walk_elem. eauto.
  - rewrite decide_False by naive_solver. by rewrite decide_False by set_solver.
Qed.

Lemma walk_clear_runs w n :
  lsas_ok X w → w_nbr w !! p = Some n →
  runs (walk_types get f p lsa_types) w (λ _, list_res w p n (λ db', db_entries db' = [])).
Proof.
  intros HL Hp. change lsa_types with (Z.of_nat <$> seq 1 7).
  eapply runs_mono; [eapply walk_types_runs; [done|done|]|].
  { apply list.Forall_forall. intros i Hi%elem_of_seq. lia. }
  intros _ w' (db' & h' & -> & HL' & Hm & Hdb'). exists db', h'. split_and!; [done..|].
  apply db_entries_nil. intros i k. rewrite Hdb'. case_decide as Hin; [done|]. rewrite elem_of_seq in Hin.
  destruct i as [|i]; [by apply (list_zero w p)|]. unfold db_info.
  pose proof (list_db_ok w p n HL Hp) as (Hlen & _). rewrite lookup_ge_None_2; [done|]. lia.
Qed.

End Walk.

End Lists.

(** ** The functions on the lists *)

(** The neighbour without its lists. *)
Definition nbr_core n : ospf_neighbor RT :=
  n <| n_ls_rxmt := ospf_lsdb_new |> <| n_db_sum := ospf_lsdb_new |> <| n_ls_req := ospf_lsdb_new |>
    <| n_ls_req_last := None |>.

(** The lists of [p] have been changed, and [Q] holds of the neighbour afterwards. *)
Definition lists_res X w (p : nat) n (Q : ospf_neighbor RT → Prop) w' : Prop :=
  ∃ n' h', w' = wset w h' p n' ∧ nbr_core n' = nbr_core n ∧ lsas_ok X w' ∧ mem_step (w_lsas w) h' ∧ Q n'.

Lemma lists_res_refl X w p n (Q : ospf_neighbor RT → Prop) :
  lsas_ok X w → w_nbr w !! p = Some n → Q n → lists_res X w p n Q w.
Proof.
  intros HL Hp HQ. exists n, (w_lsas w). rewrite wset_id by done. split_and!; [done..|apply mem_step_refl|done].
Qed.

(** Two operations in a row. *)
Lemma lists_res_bind {A B} X w p n (x : fsM (ospf_world RT) A) (k : A → fsM (ospf_world RT) B)
    (Q Q' : ospf_neighbor RT → Prop) :
  runs x w (λ _, lists_res X w p n Q) →
  (∀ a w' n', lsas_ok X w' → w_nbr w' !! p = Some n' → nbr_core n' = nbr_core n → Q n' →
    runs (k a) w' (λ _, lists_res X w' p n' Q')) →
  runs (x ≫= k) w (λ _, lists_res X w p n Q').
Proof.
  intros Hx Hk. rstep. eapply runs_mono; [exact Hx|]. intros a w1 (n1 & h1 & -> & Hc1 & HL1 & Hm1 & HQ1).
  eapply runs_mono; [eapply (Hk a _ n1); [done|apply wset_lookup|done|done]|].
  intros b w2 (n2 & h2 & -> & Hc2 & HL2 & Hm2 & HQ2). exists n2, h2. rewrite wset_wset in HL2 |- *.
  split_and!; [done|congruence|done|by eapply mem_step_trans|done].
Qed.

Lemma lists_res_mono X w p n (Q Q' : ospf_neighbor RT → Prop) w' :
  lists_res X w p n Q w' → (∀ n', Q n' → Q' n') → lists_res X w p n Q' w'.
Proof. intros (n' & h' & ? & ? & ? & ? & ?) HQ. exists n', h'. split_and!; auto. Qed.

Lemma list_lists X put w p n Q w' :
  (∀ db, nbr_core (put db n) = nbr_core n) → list_res put X w p n Q w' →
  lists_res X w p n (λ n', ∃ db', n' = put db' n ∧ Q db') w'.
Proof. intros Hc (db' & h' & -> & HL & Hm & HQ). exists (put db' n), h'. split_and!; eauto. Qed.

Lemma ls_req_last_clear_runs X w p n :
  lsas_ok X w → w_nbr w !! p = Some n →
  runs (ls_req_last_clear p) w (λ _, lists_res X w p n (λ n', n' = n <| n_ls_req_last := None |>)).
Proof.
  intros HL Hp. unfold ls_req_last_clear. rstep. eapply runs_nbr; [done|]. rstep. apply runs_zoom.
  pose proof HL as (Hh & HX & _ & _ & L5 & _). destruct (n_ls_req_last n) as [lp|] eqn:El.
  - assert (lp ∈ w_refs w) as Hin by (eapply nbr_ref_elem; [done|]; unfold nbr_refs; rewrite El; set_solver).
    destruct (unlock_ok _ _ lp Hh) as (r & h' & Hrun & Hh' & Hst & Hother & Hfree & Hkeep).
    { specialize (HX lp). pose proof (proj2 (cnt_elem lp _) Hin). lia. }
    eapply runs_run; [exact Hrun|]. eapply runs_upd_nbr; [cbn; exact Hp|].
    assert (∀ q, is_Some (h' !! q) → is_Some (w_lsas w !! q)) as Hdom.
    { intros q Hq. destruct (decide (q = lp)) as [->|]; [by eapply lsas_alive|by rewrite <- Hother]. }
    exists (n <| n_ls_req_last := None |>), h'. split; [done|]. split; [done|]. split; [|done].
    change (lsas_ok X (wset w h' p (n <| n_ls_req_last := None |>))).
    assert (∀ q, cnt q (nbr_refs (n <| n_ls_req_last := None |>)) =
      cnt q (nbr_refs n) - if decide (lp = q) then 1 else 0) as Hcnt.
    { intros q. unfold nbr_refs. cbn. rewrite El, !cnt_app. change (option_list (Some lp)) with [lp]. rewrite cnt_cons.
      change (cnt q []) with 0. repeat case_decide; lia || congruence. }
    assert (heap_ok h' (λ q, X q + cnt q (w_refs w) + cnt q (nbr_refs (n <| n_ls_req_last := None |>))
      - cnt q (nbr_refs n))) as Hh2.
    { eapply heap_ok_ext; [|exact Hh']. intros q. unfold plus1. rewrite Hcnt. case_decide; lia. }
    eapply lsas_ok_wset; [done|done|done|done|exact Hh2|].
    destruct (L5 p n Hp) as (L51 & L52 & L53).
    assert (∀ q, q ∈ nbr_refs (n <| n_ls_req_last := None |>) → is_Some (h' !! q)) as Ha.
    { intros q Hq. destruct Hh2 as [_ Hh2]. apply Hh2. pose proof (proj2 (cnt_elem q _) Hq).
      specialize (HX q). pose proof (nbr_refs_cnt w p n q Hp). lia. }
    unfold nbr_refs in Ha. cbn in Ha.
    split_and!; (eapply list_ok_stable; [done|done|]); intros; apply Ha; set_solver.
  - eapply runs_run; [done|]. eapply runs_upd_nbr; [cbn; exact Hp|].
    replace (n <| n_ls_req_last := None |>) with n by (rewrite <- El; by destruct n).
    change (_ <| w_nbr := _ |>) with (wset w (w_lsas w) p n). rewrite wset_id by done.
    by apply lists_res_refl.
Qed.

Lemma summary_clear_runs X w p n :
  lsas_ok X w → w_nbr w !! p = Some n →
  runs (ospf_db_summary_clear p) w (λ _, lists_res X w p n (λ n', ∃ db', n' = n <| n_db_sum := db' |> ∧
    db_entries db' = [])).
Proof.
  intros HL Hp. eapply runs_mono.
  { apply (walk_clear_runs n_db_sum (λ db n, n <| n_db_sum := db |>)); [|done|done]. intros.
    by apply (list_delete_runs n_db_sum (λ db n, n <| n_db_sum := db |>)). }
  intros [] w' Hw'. by eapply list_lists in Hw'.
Qed.

Lemma request_delete_all_runs X w p n :
  lsas_ok X w → w_nbr w !! p = Some n →
  runs (ospf_ls_request_delete_all p) w (λ _, lists_res X w p n (λ n', ∃ db',
    n' = n <| n_ls_req_last := None |> <| n_ls_req := db' |> ∧ db_entries db' = [])).
Proof.
  intros HL Hp. eapply lists_res_bind; [by apply ls_req_last_clear_runs|].
  intros [] w1 n1 HL1 Hp1 _ ->. eapply runs_mono; [by apply (list_clear_runs n_ls_req (λ db n, n <| n_ls_req := db |>))|].
  intros [] w' Hw'. by eapply list_lists in Hw'.
Qed.

(** A field of an LSA is changed on which nothing depends. *)
Lemma lsas_ok_lsa X w lp l l' :
  lsas_ok X w → w_lsas w !! lp = Some l →
  l_lock l' = l_lock l → l_flags l' = l_flags l → l_data l' = l_data l → l_refresh_list l' = l_refresh_list l →
  l_body l' = l_body l → l_tv_recv l' = l_tv_recv l →
  lsas_ok X (w <| w_lsas := <[lp := l']> (w_lsas w) |>) ∧ mem_step (w_lsas w) (<[lp := l']> (w_lsas w)).
Proof.
  intros HL Hl Hlock Hfl Hd Hr Hb Ht. pose proof HL as ([Hh1 Hh2] & HX & _ & _ & _ & _ & Hsz).
  assert (stable (w_lsas w) (<[lp := l']> (w_lsas w))) as Hst.
  { apply (stable_upd _ lp l (λ _, l')); [done|done| |]; unfold IS_LSA_SELF, lsa_fixed; congruence. }
  assert (dom (<[lp := l']> (w_lsas w)) = dom (w_lsas w)) as Hdom by (apply dom_insert_lookup_L; eauto).
  split.
  - eapply (lsas_ok_change X X w); [done|exact Hst| |done|done|done| | |].
    + split.
      * intros q k. cbn. destruct (decide (lp = q)) as [<-|].
        { rewrite lookup_insert_eq. intros [= <-]. destruct (Hh1 lp l Hl) as (A1 & A2 & A3).
          unfold discarded in *. rewrite Hlock, Hfl, Hr. done. }
        rewrite lookup_insert_ne by done. apply Hh1.
      * intros q. destruct (Hh2 q) as [B1 B2]. split; [exact B1|]. intros Hq. cbn.
        apply elem_of_dom. rewrite Hdom. apply elem_of_dom. by apply B2.
    + intros q Hq. change (q ∈ queue_refs w) in Hq. set_solver.
    + intros p n Hp. by left.
    + cbn. rewrite <- size_dom, Hdom, size_dom. done.
  - split_and!; [done| |].
    + intros q Hq%elem_of_dom. rewrite Hdom in Hq. by apply elem_of_dom.
    + apply (keeps_upd _ lp l (λ _, l')); [done|]. unfold discarded. by rewrite Hfl.
Qed.

(** The type of an LSA is one of those the lists have. *)
Definition listed (l : ospf_lsa) : Prop := 1 ≤ h_type (l_data l) < OSPF_MAX_LSA.

Lemma listed_nat l : listed l → ∃ i, h_type (l_data l) = Z.of_nat i ∧ (0 < i < 8)%nat.
Proof. unfold listed, OSPF_MAX_LSA. intros. exists (Z.to_nat (h_type (l_data l))). lia. Qed.

Lemma retransmit_lookup_runs w p n lp l i (Q : option nat → ospf_world RT → Prop) :
  w_nbr w !! p = Some n → w_lsas w !! lp = Some l → h_type (l_data l) = Z.of_nat i → (i < 8)%nat →
  db_ok (w_lsas w) (n_ls_rxmt n) → Q (db_info (n_ls_rxmt n) i (lsdb_prefix_set l)) w →
  runs (ospf_ls_retransmit_lookup p lp) w Q.
Proof.
  intros Hp Hl Hty Hi Hdb HQ. unfold ospf_ls_retransmit_lookup. rstep. eapply runs_nbr; [done|].
  apply runs_zoom. unfold ospf_lsdb_lookup. rstep. eapply runs_run; [by apply lsa_run|].
  unfold ospf_lsdb_lookup_by_id. rewrite Hty, arr_nat.
  destruct (db_type_exists _ _ i Hdb Hi) as [t Ht]. rewrite Ht.
  eapply runs_of_option; [reflexivity|]. replace (w <| w_lsas := w_lsas w |>) with w by (by destruct w).
  unfold db_info in HQ. by rewrite Ht in HQ.
Qed.

Lemma retransmit_counter_runs X w lp l d (Q : unit → ospf_world RT → Prop) :
  lsas_ok X w → w_lsas w !! lp = Some l →
  (∀ h l', lsas_ok X (w <| w_lsas := h |>) → mem_step (w_lsas w) h → h !! lp = Some l' → l_data l' = l_data l →
    Q tt (w <| w_lsas := h |>)) →
  runs (retransmit_counter lp d) w Q.
Proof.
  intros HL Hl HQ. unfold retransmit_counter. apply runs_zoom. eapply runs_run; [by apply upd_lsa_run|].
  edestruct (lsas_ok_lsa X w lp l) as [HL' Hm]; [done|done|..]; last first.
  - eapply HQ; [exact HL'|exact Hm|apply lookup_insert_eq|done].
  - done.
  - done.
  - done.
  - done.
  - done.
  - done.
Qed.

Local Abbreviation put_rxmt := (λ db n, n <| n_ls_rxmt := db |>).

(** The counter of [lp] is changed and then the list. *)
Lemma counter_list_runs X w p n lp l d f Q :
  lsas_ok X w → w_nbr w !! p = Some n → w_lsas w !! lp = Some l →
  (∀ w l', lsas_ok X w → w_nbr w !! p = Some n → w_lsas w !! lp = Some l' → l_data l' = l_data l →
    runs (on_ls_rxmt p f) w (λ _, list_res put_rxmt X w p n Q)) →
  runs (retransmit_counter lp d;; on_ls_rxmt p f) w (λ _, list_res put_rxmt X w p n Q).
Proof.
  intros HL Hp Hl Hf. rstep. eapply retransmit_counter_runs; [done|done|]. intros h l' HL' Hm Hl' Hd.
  eapply runs_mono; [by eapply Hf|]. intros [] w' (db' & h' & -> & HL2 & Hm2 & HQ). exists db', h'.
  split_and!; [done|done|by eapply mem_step_trans|done].
Qed.

Lemma retransmit_delete_runs X w p n i k lp :
  lsas_ok X w → w_nbr w !! p = Some n → db_info (n_ls_rxmt n) i k = Some lp →
  runs (ospf_ls_retransmit_delete p lp) w (λ _, list_res put_rxmt X w p n (info_without (n_ls_rxmt n) i k)).
Proof.
  intros HL Hp Hik. pose proof (list_db_ok n_ls_rxmt put_rxmt X w p n HL Hp) as Hdb.
  destruct (db_entry_lsa _ _ i k lp Hdb Hik) as (Hi & l & Hl & Hty & Hk).
  unfold ospf_ls_retransmit_delete. rstep. eapply retransmit_lookup_runs; [done..|]. rewrite Hk, Hik.
  eapply counter_list_runs; [done..|]. intros w' l' HL' Hp' _ _.
  by apply (list_delete_runs n_ls_rxmt put_rxmt).
Qed.

Lemma retransmit_clear_runs X w p n :
  lsas_ok X w → w_nbr w !! p = Some n →
  runs (ospf_ls_retransmit_clear p) w (λ _, lists_res X w p n (λ n', ∃ db',
    n' = n <| n_ls_rxmt := db' |> <| n_ls_req_last := None |> ∧ db_entries db' = [])).
Proof.
  intros HL Hp. eapply lists_res_bind.
  - eapply runs_mono; [apply (walk_clear_runs n_ls_rxmt put_rxmt); [|done|done]; intros; by apply retransmit_delete_runs|].
    intros [] w' Hw'. by eapply list_lists in Hw'.
  - intros [] w1 n1 HL1 Hp1 _ (db' & -> & Hdb').
    eapply runs_mono; [by apply ls_req_last_clear_runs|]. intros [] w2 Hw2.
    eapply lists_res_mono; [exact Hw2|]. intros n' ->. eauto.
Qed.

Lemma list_res_weaken put X w p n (Q Q' : ospf_lsdb RT → Prop) w' :
  list_res put X w p n Q w' → (∀ db, Q db → Q' db) → list_res put X w p n Q' w'.
Proof. intros (db' & h' & ? & ? & ? & ?) HQ. exists db', h'. split_and!; auto. Qed.

(** What the databases of the area and of the AS refer to stays. *)
Lemma top_alive X w lp : lsas_ok X w → lp ∈ top_refs w → is_Some (w_lsas w !! lp).
Proof. intros HL Hlp. eapply lsas_alive; [done|]. unfold w_refs. set_solver. Qed.

Definition rxmt_changed n n' : Prop := ∃ db', n' = n <| n_ls_rxmt := db' |>.

Lemma retransmit_put_runs X w p n lp l :
  lsas_ok X w → w_nbr w !! p = Some n → w_lsas w !! lp = Some l → listed l →
  runs (retransmit_counter lp 1;; on_ls_rxmt p (λ db, ospf_lsdb_add db lp)) w (λ _, lists_res X w p n (rxmt_changed n)).
Proof.
  intros HL Hp Hl (i & Hi & Hr)%listed_nat. eapply runs_mono.
  - eapply (counter_list_runs _ _ _ _ _ _ _ _ (λ _, True)); [done..|]. intros w' l' HL' Hp' Hl' Hd. eapply runs_mono.
    + apply (list_add_runs n_ls_rxmt put_rxmt X w' p n lp l' i); [done..| |done]. by rewrite Hd.
    + intros [] w2 Hw2. by eapply list_res_weaken.
  - intros [] w' Hw'. eapply list_lists in Hw'; [|done]. eapply lists_res_mono; [exact Hw'|].
    intros n' (db' & -> & _). by exists db'.
Qed.

Lemma retransmit_add_runs X w p n lp l :
  lsas_ok X w → w_nbr w !! p = Some n → lp ∈ top_refs w → w_lsas w !! lp = Some l → listed l →
  runs (ospf_ls_retransmit_add E p lp) w (λ _, lists_res X w p n (rxmt_changed n)).
Proof.
  intros HL Hp Hlp Hl Hty. destruct (listed_nat l Hty) as (i & Hi & Hr).
  pose proof (list_db_ok n_ls_rxmt put_rxmt X w p n HL Hp) as Hdb.
  assert (lists_res X w p n (rxmt_changed n) w) as Hid.
  { apply lists_res_refl; [done..|]. exists (n_ls_rxmt n). by destruct n. }
  unfold ospf_ls_retransmit_add. rstep. eapply retransmit_lookup_runs; [done|done|done|lia|done|].
  rstep. eapply runs_read; [by apply lsa_run|]. rstep.
  destruct (db_info (n_ls_rxmt n) i (lsdb_prefix_set l)) as [o|] eqn:Eo.
  - destruct (db_entry_lsa _ _ _ _ o Hdb Eo) as (_ & lo & Hlo & Htyo & Hko).
    rstep. eapply runs_read; [by apply lsa_run|]. rstep. rstep; [|by rstep].
    rstep. eapply runs_mono.
    { eapply counter_list_runs; [done..|]. intros. by apply (list_delete_runs n_ls_rxmt put_rxmt). }
    intros [] w1 (db1 & h1 & -> & HL1 & Hm1 & _). pose proof Hm1 as (Hst & _).
    destruct (top_alive X _ lp HL1 Hlp) as [l1 Hl1]. destruct (Hst lp l l1 Hl Hl1) as (Hd & _).
    eapply runs_mono; [apply (retransmit_put_runs X _ p (n <| n_ls_rxmt := db1 |>) lp l1);
      [done|apply wset_lookup|done|unfold listed; by rewrite Hd]|].
    intros [] w2 (n2 & h2 & -> & Hc2 & HL2 & Hm2 & [db2 ->]). exists (n <| n_ls_rxmt := db2 |>), h2.
    rewrite wset_wset in HL2 |- *. split_and!; [done..| |by exists db2]. by eapply mem_step_trans.
  - rstep. rstep; [|by rstep]. rstep. rstep. by eapply retransmit_put_runs.
Qed.

(** The LSAs that go into a description of the database, and those that are to be flushed. *)
Definition describes h (lp : nat) : bool :=
  match h !! lp with
  | Some l => negb (CHECK_FLAG (l_flags l) OSPF_LSA_LOCAL_XLT) && negb (IS_LSA_MAXAGE (e_now E) l)
  | None => false
  end.

Lemma maxage_stable now l l' : l_data l' = l_data l → l_tv_recv l' = l_tv_recv l → IS_LSA_MAXAGE now l' = IS_LSA_MAXAGE now l.
Proof. intros Hd Ht. unfold IS_LSA_MAXAGE, LS_AGE, get_age. by rewrite Hd, Ht. Qed.

Lemma describes_stable h h' lp :
  stable h h' → is_Some (h !! lp) → is_Some (h' !! lp) → describes h' lp = describes h lp.
Proof.
  intros Hst [l Hl] [l' Hl']. unfold describes. rewrite Hl, Hl'. destruct (Hst lp l l' Hl Hl') as (Hd & _ & Hf).
  injection Hf as _ Ht Hx. by rewrite (maxage_stable _ l l' Hd Ht), Hx.
Qed.

(** The summary list with [lp] under its key, if it is to be described. *)
Definition summary_with h (i : nat) (k : Z) (lp : nat) n n' : Prop :=
  n_ls_req n' = n_ls_req n ∧ n_ls_req_last n' = n_ls_req_last n ∧
  ∀ j k', db_info (n_db_sum n') j k' =
    if decide (j = i ∧ k' = k ∧ describes h lp = true) then Some lp else db_info (n_db_sum n) j k'.

Lemma summary_add_runs X w p n lp l (i : nat) :
  lsas_ok X w → w_nbr w !! p = Some n → lp ∈ top_refs w → w_lsas w !! lp = Some l →
  h_type (l_data l) = Z.of_nat i → (0 < i < 8)%nat →
  runs (ospf_db_summary_add E p lp) w
    (λ _, lists_res X w p n (summary_with (w_lsas w) i (lsdb_prefix_set l) lp n)).
Proof.
  intros HL Hp Hlp Hl Hty Hi. assert (listed l) as Hli by (unfold listed, OSPF_MAX_LSA; lia).
  unfold ospf_db_summary_add. rstep. eapply runs_read; [by apply lsa_run|].
  assert (describes (w_lsas w) lp = negb (CHECK_FLAG (l_flags l) OSPF_LSA_LOCAL_XLT) && negb (IS_LSA_MAXAGE (e_now E) l))
    as Hdes by (unfold describes; by rewrite Hl).
  destruct (CHECK_FLAG (l_flags l) OSPF_LSA_LOCAL_XLT) eqn:Ex; cbn [negb andb] in Hdes.
  { rstep. apply lists_res_refl; [done..|]. split_and!; [done|done|]. intros j k'. rewrite Hdes. by rewrite decide_False by (by intros (_ & _ & ?)). }
  destruct (IS_LSA_MAXAGE (e_now E) l) eqn:Em; cbn [negb] in Hdes.
  - eapply runs_mono; [by eapply retransmit_add_runs|]. intros [] w' Hw'. eapply lists_res_mono; [exact Hw'|].
    intros n' [db' ->]. split_and!; [done|done|]. intros j k'. rewrite Hdes. by rewrite decide_False by (by intros (_ & _ & ?)).
  - eapply runs_mono; [by apply (list_add_runs n_db_sum (λ db n, n <| n_db_sum := db |>) X w p n lp l i)|].
    intros [] w' Hw'. eapply list_lists in Hw'; [|done]. eapply lists_res_mono; [exact Hw'|].
    intros n' (db' & -> & Hdb'). split_and!; [done|done|]. intros j k'. rewrite Hdb', Hdes.
    apply decide_ext. naive_solver.
Qed.

(** The summary list with what [src] has of the type [i]. *)
Definition summary_from h (src : ospf_lsdb RT) (i : nat) (ks : list Z) n n' : Prop :=
  n_ls_req n' = n_ls_req n ∧ n_ls_req_last n' = n_ls_req_last n ∧
  ∀ j k, db_info (n_db_sum n') j k =
    if decide (j = i ∧ k ∈ ks) then
      match db_info src i k with
      | Some lp => if describes h lp then Some lp else db_info (n_db_sum n) j k
      | None => db_info (n_db_sum n) j k
      end
    else db_info (n_db_sum n) j k.

Lemma summary_walk_runs X src (i : nat) t ks w p n :
  lsas_ok X w → w_nbr w !! p = Some n → (0 < i < 8)%nat → db_type src !! i = Some t → db_ok (w_lsas w) src →
  (∀ q, q ∈ db_entries src → q ∈ top_refs w) →
  runs (summary_walk E p (omap (λ k, rt_info k (lt_db t)) ks)) w
    (λ _, lists_res X w p n (summary_from (w_lsas w) src i ks n)).
Proof.
  revert w n. induction ks as [|k ks IH]; intros w n HL Hp Hi Ht Hdb Htop; cbn [omap list_omap summary_walk].
  { rstep. apply lists_res_refl; [done..|]. split_and!; [done|done|]. intros j k.
    rewrite decide_False; [done|]. intros [_ Hk]. by inversion Hk. }
  assert (∀ k, db_info src i k = rt_info k (lt_db t)) as Hinfo by (intros; unfold db_info; by rewrite Ht).
  destruct (rt_info k (lt_db t)) as [lp|] eqn:Ek.
  - cbn [summary_walk].
    destruct (db_entry_lsa _ src i k lp Hdb) as (_ & l & Hl & Hty & Hk); [by rewrite Hinfo|].
    assert (lp ∈ top_refs w) as Hlp by (apply Htop, db_entries_info; exists i, k; by rewrite Hinfo).
    rstep. eapply runs_mono; [by eapply summary_add_runs|].
    intros [] w1 (n1 & h1 & -> & Hc1 & HL1 & Hm1 & (A1 & A2 & A3)). rewrite Hk in A3. pose proof Hm1 as (Hst1 & _).
    assert (∀ q, q ∈ db_entries src → is_Some (h1 !! q)) as Ha1.
    { intros q Hq. by apply (top_alive X (wset w h1 p n1)), Htop. }
    eapply runs_mono; [apply (IH _ n1); [done|apply wset_lookup|done|done| |done]|].
    { by eapply db_ok_stable. }
    intros [] w2 (n2 & h2 & -> & Hc2 & HL2 & Hm2 & (B1 & B2 & B3)). exists n2, h2. rewrite wset_wset in HL2 |- *.
    split_and!; [done|congruence|done|by eapply mem_step_trans|]. split_and!; [congruence..|].
    intros j k'. rewrite B3, !A3. cbn [w_lsas wset].
    change (w_lsas (wset w h1 p n1)) with h1.
    destruct (decide (j = i)) as [->|Hj]; [|rewrite !decide_False by naive_solver; done].
    assert (∀ q, db_info src i k' = Some q → describes h1 q = describes (w_lsas w) q) as Hdes.
    { intros q Hq. assert (q ∈ db_entries src) as Hq' by (apply db_entries_info; eauto).
      apply describes_stable; [done|by apply (top_alive X w), Htop|by apply Ha1]. }
    destruct (decide (k' = k)) as [->|Hne].
    + rewrite (decide_True (P := i = i ∧ k ∈ k :: ks)) by set_solver. rewrite Hinfo, Ek in Hdes |- *.
      rewrite (Hdes lp eq_refl). destruct (describes (w_lsas w) lp) eqn:Ed.
      * rewrite (decide_True (P := i = i ∧ k = k ∧ true = true)) by done. by destruct (decide (i = i ∧ k ∈ ks)).
      * rewrite (decide_False (P := i = i ∧ k = k ∧ false = true)) by naive_solver. by destruct (decide (i = i ∧ k ∈ ks)).
    + rewrite (decide_False (P := i = i ∧ k' = k ∧ _)) by naive_solver.
      destruct (decide (k' ∈ ks)) as [Hin|Hin].
      * rewrite !decide_True by set_solver. destruct (db_info src i k') as [q|]; [|done]. by rewrite Hdes.
      * by rewrite !decide_False by set_solver.
  - eapply runs_mono; [by eapply IH|]. intros [] w1 Hw1. eapply lists_res_mono; [exact Hw1|].
    intros n' (B1 & B2 & B3). split_and!; [done|done|]. intros j k'. rewrite B3.
    destruct (decide (j = i)) as [->|Hj]; [|rewrite !decide_False by naive_solver; done].
    destruct (decide (k' = k)) as [->|Hne].
    + rewrite (decide_True (P := i = i ∧ k ∈ k :: ks)) by set_solver. rewrite Hinfo, Ek. by case_decide.
    + destruct (decide (k' ∈ ks)) as [Hin|Hin]; [by rewrite !decide_True by set_solver|].
      by rewrite !decide_False by set_solver.
Qed.

(** The summary list filled from the database [S j] for each type [j]. *)
Definition summary_filled h (S : nat → option (ospf_lsdb RT)) n n' : Prop :=
  n_ls_req n' = n_ls_req n ∧ n_ls_req_last n' = n_ls_req_last n ∧
  ∀ j k, db_info (n_db_sum n') j k =
    match src ← S j; lp ← db_info src j k; if describes h lp then Some lp else None with
    | Some lp => Some lp
    | None => db_info (n_db_sum n) j k
    end.

Definition with_src (i : nat) (src : ospf_lsdb RT) (S : nat → option (ospf_lsdb RT)) : nat → option (ospf_lsdb RT) :=
  λ j, if decide (j = i) then Some src else S j.

Lemma LSDB_LOOP_runs X w p n S src (i : nat) w1 :
  lsas_ok X w → lists_res X w p n (summary_filled (w_lsas w) S n) w1 → S i = None → (0 < i < 8)%nat →
  src = w_area_lsdb w ∨ src = w_as_lsdb w →
  runs (LSDB_LOOP E src (Z.of_nat i) p) w1
    (λ _, lists_res X w p n (summary_filled (w_lsas w) (with_src i src S) n)).
Proof.
  intros HL0 (n1 & h & -> & Hc & HL & Hm & (A1 & A2 & A3)) HS Hi Hsrc.
  assert (db_ok h src) as Hdb by (pose proof HL as (_ & _ & D1 & D2 & _); by destruct Hsrc as [->| ->]).
  assert (∀ q, q ∈ db_entries src → q ∈ top_refs w) as Htop
    by (intros q Hq; unfold top_refs; destruct Hsrc as [->| ->]; set_solver).
  destruct (db_type_exists _ _ i Hdb) as [t Ht]; [lia|]. unfold LSDB_LOOP. rstep.
  eapply runs_read; [by apply ldt_run|].
  eapply runs_mono; [by eapply (summary_walk_runs X src i t); [|apply wset_lookup|..]|].
  intros [] w2 (n2 & h2 & -> & Hc2 & HL2 & Hm2 & (B1 & B2 & B3)). exists n2, h2. rewrite wset_wset in HL2 |- *.
  split_and!; [done|congruence|done|by eapply mem_step_trans|]. split_and!; [congruence..|].
  intros j k. rewrite B3. change (w_lsas (wset w h p n1)) with h. unfold with_src.
  assert (∀ q, db_info src j k = Some q → describes h q = describes (w_lsas w) q) as Hdes.
  { intros q Hq. assert (q ∈ db_entries src) as Hq' by (apply db_entries_info; eauto). pose proof Hm as (Hst & _).
    apply describes_stable; [done|by apply (top_alive X w), Htop|by apply (top_alive X (wset w h p n1)), Htop]. }
  destruct (decide (j = i)) as [->|Hj].
  - cbn [mbind option_bind]. destruct (db_info src i k) as [lp|] eqn:Ek; cbn [mbind option_bind].
    + rewrite decide_True.
      * rewrite (Hdes lp eq_refl). destruct (describes (w_lsas w) lp); [done|]. by rewrite A3, HS.
      * split; [done|]. apply rt_walk_elem. unfold db_info in Ek. rewrite Ht in Ek. cbn in Ek. eauto.
    + rewrite A3, HS. by case_decide.
  - rewrite decide_False by naive_solver. by rewrite A3.
Qed.

(** The databases the summary list of a neighbour is filled from. *)
Definition described_db w n (j : nat) : option (ospf_lsdb RT) :=
  if decide (j = 1 ∨ j = 2 ∨ j = 3 ∨ j = 4)%nat then Some (w_area_lsdb w)
  else if decide (j = 7%nat) then
    if CHECK_FLAG (n_options n) OSPF_OPTION_NP then Some (w_area_lsdb w) else None
  else if decide (j = 5%nat) then
    if (w_type w !=? OSPF_IFTYPE_VIRTUALLINK) && (e_external_routing E =? OSPF_AREA_DEFAULT)
    then Some (w_as_lsdb w) else None
  else None.

Lemma summary_filled_ext h S S' n n' :
  (∀ j, S j = S' j) → summary_filled h S n n' → summary_filled h S' n n'.
Proof. intros HS (A1 & A2 & A3). split_and!; [done|done|]. intros j k. by rewrite A3, HS. Qed.

Lemma negotiation_done_runs X w p n :
  lsas_ok X w → w_nbr w !! p = Some n →
  runs (negotiation_done E p) w (λ r w', r = 0 ∧ lists_res X w p n (summary_filled (w_lsas w) (described_db w n) n) w').
Proof.
  intros HL Hp. set (S0 := λ _ : nat, None : option (ospf_lsdb RT)).
  assert (lists_res X w p n (summary_filled (w_lsas w) S0 n) w) as H0' by (by apply lists_res_refl).
  unfold negotiation_done. rstep. rstep. set (area := w_area_lsdb w).
  rstep. eapply runs_mono; [eapply (LSDB_LOOP_runs X w p n _ area 1); [done|exact H0'|done|lia|by left]|].
  intros [] w1 H1'. rstep.
  eapply runs_mono; [eapply (LSDB_LOOP_runs X w p n _ area 2); [done|exact H1'|done|lia|by left]|].
  intros [] w2 H2'. rstep.
  eapply runs_mono; [eapply (LSDB_LOOP_runs X w p n _ area 3); [done|exact H2'|done|lia|by left]|].
  intros [] w3 H3'. rstep.
  eapply runs_mono; [eapply (LSDB_LOOP_runs X w p n _ area 4); [done|exact H3'|done|lia|by left]|].
  intros [] w4 H4'. set (S4 := with_src 4 _ _) in H4'.
  rstep. pose proof H4' as (n4 & h4 & E4 & Hc4 & _).
  eapply runs_nbr; [rewrite E4; apply wset_lookup|].
  assert (n_options n4 = n_options n) as -> by exact (f_equal n_options Hc4).
  set (S7 := if CHECK_FLAG (n_options n) OSPF_OPTION_NP then with_src 7 area S4 else S4).
  rstep. apply (runs_mono _ _ (λ _, lists_res X w p n (summary_filled (w_lsas w) S7 n))).
  { unfold S7. destruct (CHECK_FLAG _ _); [|by rstep].
    eapply (LSDB_LOOP_runs X w p n _ area 7); [done|exact H4'|done|lia|by left]. }
  intros [] w7 H7'. rstep. rstep. pose proof H7' as (n7 & h7 & E7 & _).
  assert (w_type w7 = w_type w ∧ w_as_lsdb w7 = w_as_lsdb w) as [-> Has] by (by rewrite E7).
  set (ext := (w_type w !=? OSPF_IFTYPE_VIRTUALLINK) && (e_external_routing E =? OSPF_AREA_DEFAULT)).
  set (S5 := if ext then with_src 5 (w_as_lsdb w) S7 else S7).
  rstep. apply (runs_mono _ _ (λ _, lists_res X w p n (summary_filled (w_lsas w) S5 n))).
  { unfold S5. destruct ext; [|by rstep]. rstep. rstep. rewrite Has.
    eapply (LSDB_LOOP_runs X w p n _ _ 5); [done|exact H7'|unfold S7; by destruct (CHECK_FLAG _ _)|lia|by right]. }
  intros [] w5 H5'. rstep. split; [done|]. eapply lists_res_mono; [exact H5'|].
  intros n'. apply summary_filled_ext. intros j. unfold S5, S7, S4, described_db, with_src. fold ext area.
  destruct (CHECK_FLAG _ _), ext; repeat case_decide; lia || done.
Qed.

(** ** All lists are cleared *)

Definition last_ok n : Prop := ∀ lp, n_ls_req_last n = Some lp → lp ∈ db_entries (n_ls_req n).

Lemma list_empty X get put `{!NbrList get put} w p n :
  lsas_ok X w → w_nbr w !! p = Some n → ospf_lsdb_isempty (get n) = bool_decide (db_entries (get n) = []).
Proof.
  intros HL Hp. eapply total_zero; [by eapply list_db_ok|]. by destruct HL as (_ & _ & _ & _ & _ & _ & ?).
Qed.

Lemma clear_sum_step X w p n :
  lsas_ok X w → w_nbr w !! p = Some n →
  runs (if negb (ospf_db_summary_isempty n) then ospf_db_summary_clear p else mret tt) w
    (λ _, lists_res X w p n (λ n', ∃ db', n' = n <| n_db_sum := db' |> ∧ db_entries db' = [])).
Proof.
  intros HL Hp. unfold ospf_db_summary_isempty.
  rewrite (list_empty X n_db_sum (λ db n, n <| n_db_sum := db |>) w p n HL Hp).
  case_bool_decide as He; cbn [negb]; [|by apply summary_clear_runs].
  rstep. apply lists_res_refl; [done..|]. exists (n_db_sum n). split; [by destruct n|done].
Qed.

Lemma clear_req_step X w p n :
  lsas_ok X w → w_nbr w !! p = Some n → last_ok n →
  runs (if negb (ospf_ls_request_isempty n) then ospf_ls_request_delete_all p else mret tt) w
    (λ _, lists_res X w p n (λ n', ∃ db', n' = n <| n_ls_req_last := None |> <| n_ls_req := db' |> ∧
      db_entries db' = [])).
Proof.
  intros HL Hp Hlast. unfold ospf_ls_request_isempty.
  rewrite (list_empty X n_ls_req (λ db n, n <| n_ls_req := db |>) w p n HL Hp).
  case_bool_decide as He; cbn [negb]; [|by apply request_delete_all_runs].
  assert (n_ls_req_last n = None) as Hn.
  { destruct (n_ls_req_last n) as [lp|] eqn:El; [|done]. pose proof (Hlast lp El) as Hin. rewrite He in Hin. by inversion Hin. }
  rstep. apply lists_res_refl; [done..|]. exists (n_ls_req n). split; [rewrite <- Hn; by destruct n|done].
Qed.

Lemma clear_rxmt_step X w p n :
  lsas_ok X w → w_nbr w !! p = Some n → n_ls_req_last n = None →
  runs (if negb (ospf_ls_retransmit_isempty n) then ospf_ls_retransmit_clear p else mret tt) w
    (λ _, lists_res X w p n (λ n', ∃ db', n' = n <| n_ls_rxmt := db' |> ∧ db_entries db' = [])).
Proof.
  intros HL Hp Hlast. unfold ospf_ls_retransmit_isempty.
  rewrite (list_empty X n_ls_rxmt put_rxmt w p n HL Hp). case_bool_decide as He; cbn [negb].
  - rstep. apply lists_res_refl; [done..|]. exists (n_ls_rxmt n). split; [by destruct n|done].
  - eapply runs_mono; [by apply retransmit_clear_runs|]. intros [] w' Hw'. eapply lists_res_mono; [exact Hw'|].
    intros n' (db' & -> & Hdb'). exists db'. split; [|done]. by rewrite <- Hlast at 1.
Qed.

Lemma clear_adj_runs X w p n :
  lsas_ok X w → w_nbr w !! p = Some n → last_ok n →
  runs (nsm_clear_adj p) w (λ _, lists_res X w p n (λ n', nbr_refs n' = [])).
Proof.
  intros HL Hp Hlast. unfold nsm_clear_adj. rstep. eapply runs_nbr; [done|].
  eapply lists_res_bind; [by apply clear_sum_step|]. intros [] w1 n1 HL1 Hp1 _ (db1 & -> & Hdb1).
  rstep. eapply runs_nbr; [done|].
  eapply lists_res_bind; [by apply clear_req_step|]. intros [] w2 n2 HL2 Hp2 _ (db2 & -> & Hdb2).
  rstep. eapply runs_nbr; [done|].
  eapply runs_mono; [by apply clear_rxmt_step|]. intros [] w3 Hw3. eapply lists_res_mono; [exact Hw3|].
  intros n3 (db3 & -> & Hdb3). unfold nbr_refs. cbn. by rewrite Hdb1, Hdb2, Hdb3.
Qed.

(** ** A description of the summary list *)

(** [db'] is [db] without the LSAs [lps]. *)
Definition taken db (lps : list nat) db' : Prop :=
  ∀ j k, db_info db' j k = match db_info db j k with
                           | Some lp => if decide (lp ∈ lps) then None else Some lp
                           | None => None
                           end.

Lemma taken_nil db : taken db [] db.
Proof. intros j k. destruct (db_info db j k); [|done]. by rewrite decide_False by (by intros ?%elem_of_nil). Qed.

Lemma taken_app db db' db'' lps lps' : taken db lps db' → taken db' lps' db'' → taken db (lps ++ lps') db''.
Proof.
  intros Ht Ht' j k. rewrite Ht', Ht. destruct (db_info db j k) as [lp|]; [|done].
  destruct (decide (lp ∈ lps)); [by rewrite decide_True by set_solver|].
  apply decide_ext. set_solver.
Qed.

Lemma delete_taken h R db (i : nat) k lp :
  db_ok h db → heap_ok h R → (∀ q, cnt q (db_entries db) ≤ R q) → db_info db i k = Some lp →
  ∃ db' h', ospf_lsdb_delete db lp h = Some (db', h') ∧ db_step h h' R db db' ∧ taken db [lp] db'.
Proof.
  intros Hdb Hh HR Hik. destruct (db_entry_lsa h db i k lp Hdb Hik) as (Hi & l & Hl & Hty & Hk).
  destruct (lsdb_delete_ok h R db lp l i Hdb Hh HR Hl Hty Hi) as (db' & h' & Hrun & Hs & Hinfo).
  exists db', h'. split_and!; [done|done|]. intros j k'. rewrite Hinfo.
  destruct (db_info db j k') as [lp'|] eqn:Ej; [|by case_decide]. apply decide_ext. rewrite list_elem_of_singleton.
  split; [naive_solver|]. intros ->. destruct (db_entry_lsa h db j k' lp Hdb Ej) as (_ & l' & Hl' & Hty' & Hk').
  simplify_eq. split_and!; [lia|done|done].
Qed.

(** The header the description has of an LSA. *)
Definition dd_header (l : ospf_lsa) : lsa_header :=
  let d := l_data l in
  mk_lsah (u16 (LS_AGE (e_now E) l)) (h_options d) (h_type d) (h_id d) (h_adv_router d) (ls_seqnum d) (h_checksum d)
    (h_length d).
Definition kept h (lp : nat) : Prop := ∃ l, h !! lp = Some l ∧ discarded l = false.

Lemma header_stable h h' lp :
  mem_step h h' → kept h lp → dd_header <$> h' !! lp = dd_header <$> h !! lp ∧ kept h' lp.
Proof.
  intros (Hst & _ & Hk) (l & Hl & Hd). destruct (Hk lp l Hl Hd) as (l' & Hl' & Hd'). split; [|by exists l'].
  rewrite Hl, Hl'. destruct (Hst lp l l' Hl Hl') as (Hdata & _ & Hf). injection Hf as _ Ht _. cbn. f_equal.
  unfold dd_header, LS_AGE, get_age. by rewrite Hdata, Ht.
Qed.

Lemma headers_stable h h' lps :
  mem_step h h' → Forall (kept h) lps → omap (λ lp, dd_header <$> h' !! lp) lps = omap (λ lp, dd_header <$> h !! lp) lps.
Proof.
  intros Hm. induction 1 as [|lp lps Hlp _ IH]; [done|]. cbn. destruct (header_stable h h' lp Hm Hlp) as [-> _].
  by rewrite IH.
Qed.

Lemma step_mem h h' R db db' : db_step h h' R db db' → mem_step h h'.
Proof. intros (_ & _ & ? & ? & ?). by split_and!. Qed.

(** What a walk over the summary list gives: the LSAs [lps] have been taken out of the list. *)
Definition desc_res h (R : nat → Z) (len : Z) db (r : option (ospf_lsdb RT * Z * list lsa_header * lheap)) (lps : list nat) : Prop :=
  ∃ db' len' hs h', r = Some (db', len', hs, h') ∧ db_step h h' R db db' ∧ taken db lps db' ∧
    (∀ lp, lp ∈ lps → lp ∈ db_entries db) ∧ (lps = [] → len' = len) ∧
    (Forall (kept h) (db_entries db) → hs = omap (λ lp, dd_header <$> h !! lp) lps).

Lemma taken_entries db lps db' lp : taken db lps db' → lp ∈ db_entries db' → lp ∈ db_entries db ∧ lp ∉ lps.
Proof.
  intros Ht (i & k & Hik)%db_entries_info. rewrite Ht in Hik. destruct (db_info db i k) as [lp'|] eqn:Ei; [|done].
  case_decide; [done|]. simplify_eq. split; [|done]. apply db_entries_info. eauto.
Qed.

Lemma desc_res_app h R len db lps1 len1 db1 h1 r r' lps :
  db_step h h1 R db db1 → taken db lps1 db1 → (∀ lp, lp ∈ lps1 → lp ∈ db_entries db) →
  (lps1 = [] → len1 = len) →
  desc_res h1 (λ q, R q + cnt q (db_entries db1) - cnt q (db_entries db)) len1 db1 r lps →
  (∀ db' len' hs h', r = Some (db', len', hs, h') →
    ∃ hs', r' = Some (db', len', hs', h') ∧
      (Forall (kept h) (db_entries db) → hs' = omap (λ lp, dd_header <$> h !! lp) lps1 ++ hs)) →
  desc_res h R len db r' (lps1 ++ lps).
Proof.
  intros Hs Ht Hin Hlen (db' & len' & hs & h' & Hr & Hs' & Ht' & Hin' & Hlen' & Hhs) Hr'.
  assert (∀ q, q ∈ lps → q ∈ db_entries db) as Hin2.
  { intros q Hq. by apply Hin', (taken_entries db lps1 db1 q Ht) in Hq as [? _]. }
  destruct (Hr' db' len' hs h' Hr) as (hs' & -> & Hhs'). exists db', len', hs', h'. split_and!; [done| | | | |].
  - by eapply db_step_trans.
  - by eapply taken_app.
  - intros q [Hq|Hq]%elem_of_app; auto.
  - intros [-> ->]%app_nil. rewrite Hlen' by done. by apply Hlen.
  - intros Hk. rewrite (Hhs' Hk).
    assert (Forall (kept h1) (db_entries db1)) as Hk1.
    { apply list.Forall_forall. intros q Hq. destruct (taken_entries db lps1 db1 q Ht Hq) as [Hq1 _].
      rewrite list.Forall_forall in Hk. by eapply header_stable; [by eapply step_mem|apply Hk]. }
    rewrite (Hhs Hk1), omap_app. f_equal. apply headers_stable; [by eapply step_mem|].
    apply list.Forall_forall. intros q Hq. rewrite list.Forall_forall in Hk. by apply Hk, Hin2.
Qed.

Lemma db_desc_walk_ok ks h R db (i : nat) len :
  db_ok h db → heap_ok h R → (∀ q, cnt q (db_entries db) ≤ R q) → (i < 8)%nat →
  ∃ lps, desc_res h R len db (db_desc_walk E ks (Z.of_nat i) len db h) lps ∧
    (lps = [] → len + OSPF_LSA_HEADER_SIZE ≤ ospf_packet_max E → ∀ k, k ∈ ks → db_info db i k = None).
Proof.
  revert h R db len. induction ks as [|k ks IH]; intros h R db len Hdb Hh HR Hi8; cbn [db_desc_walk].
  { exists []. split; [|by intros _ _ k ?%elem_of_nil]. exists db, len, [], h.
    split_and!; [done|by apply db_step_refl|apply taken_nil|by intros ? ?%elem_of_nil|done|done]. }
  destruct (db_type_exists h db i Hdb Hi8) as [t Hi]. erewrite fbind_run by exact (ldt_run db i t h Hi).
  assert (db_info db i k = rt_info k (lt_db t)) as Hik by (unfold db_info; by rewrite Hi).
  destruct (rt_info k (lt_db t)) as [lp|] eqn:Ek.
  - destruct (db_entry_lsa h db i k lp Hdb Hik) as (_ & l & Hl & Hty & Hk).
    assert (lp ∈ db_entries db) as Hin by (apply db_entries_info; eauto).
    erewrite fbind_run by exact (lsa_run h lp l Hl).
    destruct (delete_taken h R db i k lp Hdb Hh HR Hik) as (db1 & h1 & Hrun & Hs & Ht). pose proof Hs as (Hh1 & Hdb1 & _).
    fold (discarded l). destruct (discarded l) eqn:Ed; cbn [negb].
    + erewrite fbind_run by exact Hrun.
      destruct (IH h1 _ db1 len Hdb1 Hh1) as (lps & Hres & _); [intros q; specialize (HR q); lia|done|].
      exists (lp :: lps). split; [|done]. eapply (desc_res_app _ _ _ _ [lp]);
        [done|done|by intros ? ->%list_elem_of_singleton|discriminate|done|]. intros db' len' hs h' ->.
      exists hs. split; [done|]. intros Hall. rewrite list.Forall_forall in Hall.
      destruct (Hall lp Hin) as (l' & Hl' & Hd'). congruence.
    + destruct (len + OSPF_LSA_HEADER_SIZE >? ospf_packet_max E) eqn:Egt.
      * exists []. split; [|apply Z.gtb_lt in Egt; lia]. exists db, len, [], h.
        split_and!; [done|by apply db_step_refl|apply taken_nil|by intros ? ?%elem_of_nil|done|done].
      * erewrite fbind_run by exact Hrun.
        destruct (IH h1 _ db1 (u16 (len + OSPF_LSA_HEADER_SIZE)) Hdb1 Hh1) as (lps & Hres & _);
          [intros q; specialize (HR q); lia|done|].
        exists (lp :: lps). split; [|done]. eapply (desc_res_app _ _ _ _ [lp]);
          [done|done|by intros ? ->%list_elem_of_singleton|discriminate|done|]. intros db' len' hs h' Hr.
        erewrite fbind_run by exact Hr. exists (dd_header l :: hs). split; [done|]. cbn. by rewrite Hl.
  - destruct (IH h R db len Hdb Hh HR Hi8) as (lps & Hres & Hprog). exists lps. split; [done|].
    intros Hnil Hlen k' [->|Hk']%elem_of_cons; [done|by apply Hprog].
Qed.

Lemma db_desc_types_ok types h R db len :
  db_ok h db → heap_ok h R → (∀ q, cnt q (db_entries db) ≤ R q) → Forall (λ i, i < 8)%nat types →
  ∃ lps, desc_res h R len db (db_desc_types E (Z.of_nat <$> types) len db h) lps ∧
    (lps = [] → len + OSPF_LSA_HEADER_SIZE ≤ ospf_packet_max E → ∀ i k, i ∈ types → db_info db i k = None).
Proof.
  revert h R db len. induction types as [|i types IH]; intros h R db len Hdb Hh HR Ht; cbn [db_desc_types fmap list_fmap].
  { exists []. split; [|by intros _ _ k ? ?%elem_of_nil]. exists db, len, [], h.
    split_and!; [done|by apply db_step_refl|apply taken_nil|by intros ? ?%elem_of_nil|done|done]. }
  apply list.Forall_cons in Ht as [Hi8 Ht].
  destruct (db_type_exists h db i Hdb Hi8) as [t Hi]. erewrite fbind_run by exact (ldt_run db i t h Hi).
  destruct (db_desc_walk_ok (rt_walk (lt_db t)) h R db i len Hdb Hh HR Hi8)
    as (lps1 & (db1 & len1 & hs1 & h1 & Hr1 & Hs1 & Ht1 & Hin1 & Hlen1 & Hhs1) & Hp1).
  erewrite fbind_run by exact Hr1. cbn [fst snd]. pose proof Hs1 as (Hh1 & Hdb1 & _).
  destruct (IH h1 _ db1 len1 Hdb1 Hh1) as (lps2 & Hres & Hp2); [intros q; specialize (HR q); lia|done|].
  exists (lps1 ++ lps2). split.
  - eapply desc_res_app; [done|done|done|exact Hlen1|done|]. intros db' len' hs h' Hr. erewrite fbind_run by exact Hr.
    exists (hs1 ++ hs). split; [done|]. intros Hk. by rewrite Hhs1.
  - intros [-> ->]%app_nil Hlen j k [->|Hj]%elem_of_cons.
    + destruct (db_info db i k) as [lp|] eqn:Ek; [|done]. rewrite <- Ek. apply Hp1; [done|done|].
      apply rt_walk_elem. unfold db_info in Ek. rewrite Hi in Ek. cbn in Ek. eauto.
    + specialize (Hp2 eq_refl). rewrite Hlen1 in Hp2 by done. specialize (Hp2 Hlen j k Hj). rewrite Ht1 in Hp2.
      destruct (db_info db j k); [|done]. by rewrite decide_False in Hp2 by (by intros ?%elem_of_nil).
Qed.

(** ** A request for the LSAs of the request list *)

Definition lsa_key_of (l : ospf_lsa) : lsa_key := (h_type (l_data l), h_id (l_data l), h_adv_router (l_data l)).

Lemma key_stable h h' lp : stable h h' → is_Some (h !! lp) → is_Some (h' !! lp) → lsa_key_of <$> h' !! lp = lsa_key_of <$> h !! lp.
Proof.
  intros Hst [l Hl] [l' Hl']. rewrite Hl, Hl'. cbn. destruct (Hst lp l l' Hl Hl') as (Hd & _). unfold lsa_key_of. by rewrite Hd.
Qed.

(** The reference [last] has moved to the last of the LSAs [lps], whose keys are [keys]. *)
Definition req_res h (R : nat → Z) (last : option nat) (D : list nat)
    (r : option (Z * option nat * list lsa_key * lheap)) (lps : list nat) : Prop :=
  ∃ len' last' keys h', r = Some (len', last', keys, h') ∧
    heap_ok h' (λ q, R q + cnt q (option_list last') - cnt q (option_list last)) ∧ mem_step h h' ∧
    last' = match list.last lps with Some lp => Some lp | None => last end ∧
    (∀ lp, lp ∈ lps → lp ∈ D) ∧ keys = omap (λ lp, lsa_key_of <$> h !! lp) lps.

Lemma move_last h R last lp :
  heap_ok h R → (∀ q, cnt q (option_list last) ≤ R q) → 0 < R lp - cnt lp (option_list last) →
  ∃ h', (ospf_lsa_unlock last;; ospf_lsa_lock lp) h = Some (lp, h') ∧
    heap_ok h' (λ q, R q + cnt q [lp] - cnt q (option_list last)) ∧ mem_step h h'.
Proof.
  intros Hh HR Hlp.
  assert (∃ r h1, ospf_lsa_unlock last h = Some (r, h1) ∧ heap_ok h1 (λ q, R q - cnt q (option_list last)) ∧
    mem_step h h1) as (r & h1 & Hrun & Hh1 & Hm1).
  { destruct last as [q|].
    - assert (0 < R q) as HRq.
      { specialize (HR q). change (option_list (Some q)) with [q] in HR. rewrite cnt_cons, decide_True in HR by done.
        pose proof (cnt_nonneg q []). lia. }
      destruct (unlock_ok h R q Hh HRq) as (r & h1 & Hrun & Hh1 & Hst & Ho & _ & Hk).
      exists r, h1. split_and!; [done| |].
      + eapply heap_ok_ext; [|exact Hh1]. intros x. unfold plus1. change (option_list (Some q)) with [q].
        rewrite cnt_cons. change (cnt x []) with 0. repeat case_decide; lia || congruence.
      + split_and!; [done| |done]. intros x Hx. destruct (decide (x = q)) as [->|]; [|by rewrite <- Ho].
        destruct Hh as [_ Hh]. by apply Hh.
    - exists None, h. split_and!; [done| |apply mem_step_refl]. eapply heap_ok_ext; [|exact Hh].
      intros x. change (cnt x (option_list None)) with 0. lia. }
  erewrite fbind_run by exact Hrun.
  destruct (lock_ok h1 _ lp Hh1) as (h2 & Hrun2 & Hh2 & Hst2 & Hdom2 & Hk2).
  { destruct Hh1 as [_ Hh1]. apply Hh1. lia. }
  exists h2. split_and!; [done| |].
  - eapply heap_ok_ext; [|exact Hh2]. intros x. unfold plus1. rewrite cnt_cons. change (cnt x []) with 0.
    repeat case_decide; lia || congruence.
  - eapply mem_step_trans; [done|]. split_and!; [done| |done]. intros x Hx%elem_of_dom. rewrite Hdom2 in Hx.
    by apply elem_of_dom.
Qed.

Lemma req_res_app h R last D lps1 len1 last1 keys1 h1 r r' lps2 :
  req_res h R last D (Some (len1, last1, keys1, h1)) lps1 →
  (∀ q, cnt q D + cnt q (option_list last) ≤ R q) →
  req_res h1 (λ q, R q + cnt q (option_list last1) - cnt q (option_list last)) last1 D r lps2 →
  (∀ len' last' keys h', r = Some (len', last', keys, h') → r' = Some (len', last', keys1 ++ keys, h')) →
  req_res h R last D r' (lps1 ++ lps2).
Proof.
  intros (? & ? & ? & ? & [= <- <- <- <-] & Hh1 & Hm1 & El1 & Hin1 & Ek1) HR
    (len' & last' & keys & h' & Hr & Hh2 & Hm2 & El2 & Hin2 & Ek2) Hr'.
  exists len', last', (keys1 ++ keys), h'. split_and!; [by apply Hr'| | | | |].
  - eapply heap_ok_ext; [|exact Hh2]. intros q. cbv beta. lia.
  - by eapply mem_step_trans.
  - rewrite El2, El1, last_app. by destruct (list.last lps2).
  - intros q [Hq|Hq]%elem_of_app; auto.
  - rewrite omap_app, Ek1, Ek2. f_equal.
    assert (∀ q, q ∈ lps2 → is_Some (h1 !! q)) as Ha.
    { intros q Hq%Hin2. destruct Hh1 as [_ Hh1]. apply Hh1. specialize (HR q).
      pose proof (proj2 (cnt_elem q _) Hq). pose proof (cnt_nonneg q (option_list last1)). lia. }
    clear -Ha Hm1. induction lps2 as [|q l IH]; [done|]. cbn. pose proof Hm1 as (Hst & Hdom & _).
    rewrite (key_stable h h1 q); [|done|apply Hdom, Ha; left|apply Ha; left]. rewrite IH; [done|].
    intros x Hx. apply Ha. by right.
Qed.

Lemma req_res_nil h R last D len : heap_ok h R → req_res h R last D (Some (len, last, [], h)) [].
Proof.
  intros Hh. exists len, last, [], h. split_and!; [done| |apply mem_step_refl|done|by intros ? ?%elem_of_nil|done].
  eapply heap_ok_ext; [|exact Hh]. intros q. cbv beta. lia.
Qed.

Lemma ls_req_walk_ok ks (t : RT nat) h R D len last :
  heap_ok h R → (∀ q, cnt q D + cnt q (option_list last) ≤ R q) → (∀ k lp, rt_info k t = Some lp → lp ∈ D) →
  ∃ lps, req_res h R last D (ls_req_walk E ks t len last h) lps ∧
    (lps = [] → len + (OSPF_HEADER_SIZE + 12) ≤ ospf_packet_max E → ∀ k, k ∈ ks → rt_info k t = None) ∧
    (lps = [] → ∀ last' keys h' len', ls_req_walk E ks t len last h = Some (len', last', keys, h') → len' = len).
Proof.
  revert h R len last. induction ks as [|k ks IH]; intros h R len last Hh HR HD; cbn [ls_req_walk].
  { exists []. split_and!; [by apply req_res_nil|by intros _ _ k ?%elem_of_nil|by intros _ ? ? ? ? [= <- _ _ _]]. }
  destruct (rt_info k t) as [lp|] eqn:Ek.
  - assert (lp ∈ D) as HlpD by (by eapply HD).
    assert (0 < R lp - cnt lp (option_list last)) as HRlp.
    { specialize (HR lp). pose proof (proj2 (cnt_elem lp _) HlpD). lia. }
    destruct (len + (OSPF_HEADER_SIZE + 12) >? ospf_packet_max E) eqn:Egt.
    { exists []. split_and!; [by apply req_res_nil|apply Z.gtb_lt in Egt; lia|by intros _ ? ? ? ? [= <- _ _ _]]. }
    assert (is_Some (h !! lp)) as [l Hl].
    { destruct Hh as [_ Hh]. apply Hh. pose proof (cnt_nonneg lp (option_list last)). lia. }
    erewrite fbind_run by exact (lsa_run h lp l Hl).
    destruct (move_last h R last lp Hh) as (h1 & Hrun & Hh1 & Hm1);
      [intros q; specialize (HR q); pose proof (cnt_nonneg q D); lia|done|].
    assert (∀ (B : Type) (f : nat → fsM lheap B), (ospf_lsa_unlock last ≫= λ _, ospf_lsa_lock lp ≫= f) h = f lp h1) as Hb.
    { intros B f. unfold mbind, fsM_bind in Hrun |- *. destruct (ospf_lsa_unlock last h) as [[? ?]|]; [|done].
      by rewrite Hrun. }
    rewrite Hb.
    destruct (IH h1 (λ q, R q + cnt q [lp] - cnt q (option_list last)) (u16 (len + 12)) (Some lp))
      as (lps & Hres & _); [done| |done|].
    { intros q. specialize (HR q). change (option_list (Some lp)) with [lp]. lia. }
    exists ([lp] ++ lps). split_and!; [|done|done].
    eapply (req_res_app h R last D [lp] len (Some lp) [lsa_key_of l] h1); [|done|exact Hres|].
    + exists len, (Some lp), [lsa_key_of l], h1. split_and!; [done|done|done|done|by intros ? ->%list_elem_of_singleton|].
      cbn. by rewrite Hl.
    + intros len' last' keys h' Hr. by erewrite fbind_run by exact Hr.
  - destruct (IH h R len last Hh HR HD) as (lps & Hres & Hprog & Hlen). exists lps. split_and!; [done| |done].
    intros Hnil Hle k' [->|Hk']%elem_of_cons; [done|by apply Hprog].
Qed.

Lemma ls_req_types_ok types db h R len last :
  db_ok h db → heap_ok h R → (∀ q, cnt q (db_entries db) + cnt q (option_list last) ≤ R q) →
  Forall (λ i, i < 8)%nat types →
  ∃ lps, req_res h R last (db_entries db) (ls_req_types E (Z.of_nat <$> types) db len last h) lps ∧
    (lps = [] → len + (OSPF_HEADER_SIZE + 12) ≤ ospf_packet_max E → ∀ i k, i ∈ types → db_info db i k = None).
Proof.
  revert h R len last. induction types as [|i types IH]; intros h R len last Hdb Hh HR Ht;
    cbn [ls_req_types fmap list_fmap].
  { exists []. split; [by apply req_res_nil|by intros _ _ ? k ?%elem_of_nil]. }
  apply list.Forall_cons in Ht as [Hi8 Ht].
  destruct (db_type_exists h db i Hdb Hi8) as [t Hi]. erewrite fbind_run by exact (ldt_run db i t h Hi).
  assert (∀ k, db_info db i k = rt_info k (lt_db t)) as Hinfo by (intros; unfold db_info; by rewrite Hi).
  destruct (ls_req_walk_ok (rt_walk (lt_db t)) (lt_db t) h R (db_entries db) len last Hh HR) as (lps1 & Hres1 & Hp1 & Hlen1).
  { intros k lp Hk. apply db_entries_info. exists i, k. by rewrite Hinfo. }
  pose proof Hres1 as (len1 & last1 & keys1 & h1 & Hr1 & Hh1 & Hm1 & El1 & Hin1 & Ek1).
  erewrite fbind_run by exact Hr1. cbn [fst snd].
  assert (∀ q, cnt q (db_entries db) + cnt q (option_list last1) ≤ R q + cnt q (option_list last1) - cnt q (option_list last))
    as HR1 by (intros q; specialize (HR q); lia).
  assert (db_ok h1 db) as Hdb1.
  { pose proof Hm1 as (Hst & _). eapply db_ok_stable; [done|done|]. intros q Hq. destruct Hh1 as [_ Hh1]. apply Hh1.
    specialize (HR q). pose proof (proj2 (cnt_elem q _) Hq). pose proof (cnt_nonneg q (option_list last1)). lia. }
  destruct (IH h1 _ len1 last1 Hdb1 Hh1 HR1 Ht) as (lps2 & Hres2 & Hp2).
  exists (lps1 ++ lps2). split.
  - eapply req_res_app; [rewrite Hr1 in Hres1; exact Hres1|done|exact Hres2|].
    intros len' last' keys h' Hr. by erewrite fbind_run by exact Hr.
  - intros [-> ->]%app_nil Hlen j k [->|Hj]%elem_of_cons.
    + destruct (db_info db i k) as [lp|] eqn:Ek; [|done]. rewrite Hinfo in Ek. rewrite <- Ek. apply Hp1; [done|done|].
      apply rt_walk_elem. eauto.
    + apply Hp2; [done| |done]. by rewrite (Hlen1 eq_refl _ _ _ _ Hr1).
Qed.

End Mem.
