(* ===== verification/OspfAdjRefs.v ===== *)
(** * OSPF: what sending and deleting do to the references

    Descriptions, requests and updates are made from the lists of a neighbour and from the queue of the interface; neighbours are created and freed.
    The counts of the LSAs stay those of the references. *)

From stdpp Require Import gmap.
From S2P Require Import Prelude Fault OspfTable OspfLsa OspfVertex OspfLsaProps OspfNbr OspfAdj OspfElect OspfAdjMem.

#[export] Instance req_thread_eq : EqDecision req_thread.
Proof. solve_decision. Defined.

(** The first two of three operations. *)
Lemma runs_two {S A B} (x y : fsM S A) (z : fsM S B) s Q :
  runs (x;; y) s (λ _ s', runs z s' Q) → runs (x;; y;; z) s Q.
Proof. unfold runs, mbind, fsM_bind. destruct (x s) as [[a s']|]; [|done]. by destruct (y s') as [[b s'']|]. Qed.

Section Refs.
Context {RT : Type → Type} `{RouteTableLaws RT}.
Context (E : adj_env).

Implicit Types w v : ospf_world RT.
Implicit Types n : ospf_neighbor RT.
Implicit Types db : ospf_lsdb RT.
Implicit Types h : lheap.

(** ** Descriptions *)

Lemma types_all h db :
  list_ok h db → (∀ i k, i ∈ seq 1 7 → db_info db i k = None) → db_entries db = [].
Proof.
  intros [(Hlen & _) Hz] Hi. apply db_entries_nil. intros i k. destruct (decide (i ∈ seq 1 7)) as [Hin|Hin]; [by apply Hi|].
  rewrite elem_of_seq in Hin. destruct i as [|i]; [done|]. unfold db_info. rewrite lookup_ge_None_2; [done|]. lia.
Qed.

Lemma types_range : Forall (λ i, i < 8)%nat (seq 1 7).
Proof. apply list.Forall_forall. intros i Hi%elem_of_seq. lia. Qed.

(** The LSAs [lps] of the summary list have been described: [d] has their headers, and they are out of the list. *)
Definition described w n (d : ospf_db_desc) (lps : list nat) n' : Prop :=
  ∃ db', n' = n <| n_db_sum := db' |>
             <| n_dd_flags := if bool_decide (db_entries db' = []) && (n_state n >=? NSM_Exchange)
                              then clr (n_dd_flags n) OSPF_DD_FLAG_M else n_dd_flags n |> ∧
    taken (n_db_sum n) lps db' ∧ (∀ lp, lp ∈ lps → lp ∈ db_entries (n_db_sum n)) ∧
    dd_flags d = n_dd_flags n' ∧ dd_seqnum d = n_dd_seqnum n ∧
    (Forall (kept (w_lsas w)) (db_entries (n_db_sum n)) →
      dd_headers d = omap (λ lp, dd_header E <$> w_lsas w !! lp) lps) ∧
    (lps = [] → OSPF_DB_DESC_MIN_SIZE + OSPF_LSA_HEADER_SIZE ≤ ospf_packet_max E → db_entries (n_db_sum n) = []).

Lemma sum_list_empty X w p n :
  lsas_ok E X w → w_nbr w !! p = Some n → ospf_db_summary_isempty n = bool_decide (db_entries (n_db_sum n) = []).
Proof. apply (list_empty E X n_db_sum (λ db n, n <| n_db_sum := db |>)). Qed.

Lemma make_db_desc_runs X w p n s :
  lsas_ok E X w → w_nbr w !! p = Some n → w_nbr w !! w_nbr_self w = Some s →
  (n_state n >= NSM_Exchange ∨ CHECK_FLAG (n_dd_flags n) OSPF_DD_FLAG_M = true) →
  runs (ospf_make_db_desc E p) w (λ d w', ∃ lps n' h',
    w' = wset w h' p n' ∧ lsas_ok E X w' ∧ mem_step (w_lsas w) h' ∧ described w n d lps n').
Proof.
  intros HL Hp Hs HM. unfold ospf_make_db_desc. rstep. rstep. rstep. eapply runs_self; [done|].
  rstep. eapply runs_nbr; [done|]. rewrite (sum_list_empty X w p n HL Hp). rstep.
  apply (runs_mono _ _ (λ hs w', ∃ lps db' h',
    w' = wset w h' p (n <| n_db_sum := db' |>) ∧ lsas_ok E X w' ∧ mem_step (w_lsas w) h' ∧
    taken (n_db_sum n) lps db' ∧ (∀ lp, lp ∈ lps → lp ∈ db_entries (n_db_sum n)) ∧
    (Forall (kept (w_lsas w)) (db_entries (n_db_sum n)) → hs = omap (λ lp, dd_header E <$> w_lsas w !! lp) lps) ∧
    (lps = [] → OSPF_DB_DESC_MIN_SIZE + OSPF_LSA_HEADER_SIZE ≤ ospf_packet_max E → db_entries (n_db_sum n) = []))).
  { case_bool_decide as He.
    - rstep. exists [], (n_db_sum n), (w_lsas w). replace (n <| n_db_sum := n_db_sum n |>) with n by (by destruct n).
      rewrite wset_id by done.
      split_and!; [done|done|apply mem_step_refl|apply taken_nil|by intros ? ?%elem_of_nil|done|done].
    - assert (list_ok (w_lsas w) (n_db_sum n)) as [Hdb Hz] by (destruct HL as (_ & _ & _ & _ & L5 & _); apply (L5 p n Hp)).
      pose proof HL as (Hh & _).
      change lsa_types with (Z.of_nat <$> seq 1 7).
      destruct (db_desc_types_ok E (seq 1 7) (w_lsas w) _ (n_db_sum n) OSPF_DB_DESC_MIN_SIZE Hdb Hh)
        as (lps & (db' & len' & hs & h' & Hrun & Hs' & Ht & Hin & _ & Hhs) & Hprog);
        [intros q; by apply (list_cnt_le E n_db_sum (λ db n, n <| n_db_sum := db |>) X w p n)|apply types_range|].
      rstep. apply runs_zoom. eapply runs_run; [exact Hrun|]. rstep. eapply runs_upd_nbr; [cbn; exact Hp|]. rstep.
      exists lps, db', h'. split; [done|]. split.
      { apply (list_step_ok E n_db_sum (λ db n, n <| n_db_sum := db |>) X w p n); [done|done|done|].
        intros k. by rewrite Ht, Hz. }
      split_and!; [by eapply step_mem|done|done|done|].
      intros Hnil Hmax. eapply types_all; [by split|]. intros i k Hi. by apply Hprog. }
  intros hs w1 (lps & db' & h' & -> & HL1 & Hm1 & Ht & Hin & Hhs & Hprog).
  rstep. eapply runs_nbr; [apply wset_lookup|].
  rewrite (sum_list_empty X _ p _ HL1 (wset_lookup _ _ _ _)). cbn [n_db_sum set_fld set_n_db_sum]. rstep.
  apply (runs_mono _ _ (λ f w', ∃ n', f = n_dd_flags n' ∧ w' = wset w h' p n' ∧ lsas_ok E X w' ∧ n' = n <| n_db_sum := db' |>
             <| n_dd_flags := if bool_decide (db_entries db' = []) && (n_state n >=? NSM_Exchange)
                              then clr (n_dd_flags n) OSPF_DD_FLAG_M else n_dd_flags n |>)).
  { case_bool_decide as He; cbn [andb]; [|rstep; exists (n <| n_db_sum := db' |>); split_and!; [done|done|done|by destruct n]].
    rstep.
    - rstep. eapply runs_upd_nbr; [apply wset_lookup|]. rstep. rewrite wset_upd.
      exists (n <| n_db_sum := db' |> <| n_dd_flags := clr (n_dd_flags n) OSPF_DD_FLAG_M |>).
      split_and!; [done|done|by eapply lsas_ok_wset_upd|]. cbn [n_state set_fld set_n_db_sum] in *. by rewrite H1.
    - cbn [n_state set_fld set_n_db_sum n_dd_flags] in *. rstep. eapply runs_run; [apply assert_run|].
      + destruct HM as [HM|HM]; [|done]. rewrite (proj2 (Z.geb_le _ _)) in H1 by lia. done.
      + rstep. exists (n <| n_db_sum := db' |>). rewrite H1. split_and!; [done..|by destruct n]. }
  intros f w2 (n2 & -> & -> & HL2 & En2). rstep. exists lps, n2, h'. split_and!; [done..|]. exists db'. by split_and!.
Qed.

(** The world with the packet [op] in the output queue. *)
Definition sent w (op : ospf_packet) : ospf_world RT := w <| w_obuf := (λ q, q ++ [op]) <$> w_obuf w |>.

Lemma db_desc_send_runs X w p n s :
  lsas_ok E X w → w_nbr w !! p = Some n → w_nbr w !! w_nbr_self w = Some s →
  (n_state n >= NSM_Exchange ∨ CHECK_FLAG (n_dd_flags n) OSPF_DD_FLAG_M = true) →
  runs (ospf_db_desc_send E p) w (λ _ w', ∃ d lps n' h',
    let op := mk_op (nbr_dst (w_type w) n) (B_db_desc d) in
    w' = wset (sent w op) h' p (n' <| n_last_send := Some op |> <| n_last_send_ts := e_now E |>) ∧
    lsas_ok E X w' ∧ mem_step (w_lsas w) h' ∧ described w n d lps n').
Proof.
  intros HL Hp Hs HM. unfold ospf_db_desc_send, ospf_packet_add. rstep. eapply runs_mono; [by eapply make_db_desc_runs|].
  intros d w1 (lps & n' & h' & -> & HL1 & Hm1 & Hd). rstep. rstep. rstep. eapply runs_nbr; [apply wset_lookup|].
  rstep. rstep. eapply runs_upd_nbr; [cbn; apply lookup_insert_eq|]. exists d, lps, n', h'. cbv zeta.
  assert (nbr_dst (w_type w) n' = nbr_dst (w_type w) n) as Hdst by (destruct Hd as (db' & -> & _); done).
  cbn [w_type wset set_fld set_w_type set_w_lsas set_w_nbr]. change (w_type (wset w h' p n')) with (w_type w).
  rewrite Hdst. set (op := mk_op _ _).
  assert ((sent (wset w h' p n') op) <| w_nbr := <[p := n' <| n_last_send := Some op |> <| n_last_send_ts := e_now E |>]>
    (w_nbr (sent (wset w h' p n') op)) |> =
    wset (sent w op) h' p (n' <| n_last_send := Some op |> <| n_last_send_ts := e_now E |>)) as Hw.
  { unfold wset, sent. cbn. by rewrite insert_insert_eq. }
  unfold sent in Hw at 1 2. rewrite Hw. split; [done|]. split; [|done].
  change (lsas_ok E X (wset w h' p (n' <| n_last_send := Some op |> <| n_last_send_ts := e_now E |>))).
  by eapply lsas_ok_wset_upd.
Qed.

(** ** Requests *)

Lemma make_ls_req_runs X w p n :
  lsas_ok E X w → w_nbr w !! p = Some n →
  runs (ospf_make_ls_req E p) w (λ r w', ∃ lps h',
    let n' := n <| n_ls_req_last := match list.last lps with Some lp => Some lp | None => n_ls_req_last n end |> in
    w' = wset w h' p n' ∧ lsas_ok E X w' ∧ mem_step (w_lsas w) h' ∧
    (∀ lp, lp ∈ lps → lp ∈ db_entries (n_ls_req n)) ∧ r.2 = omap (λ lp, lsa_key_of <$> w_lsas w !! lp) lps ∧
    (lps = [] → OSPF_LS_REQ_MIN_SIZE + (OSPF_HEADER_SIZE + 12) ≤ ospf_packet_max E → db_entries (n_ls_req n) = [])).
Proof.
  intros HL Hp. unfold ospf_make_ls_req. rstep. eapply runs_nbr; [done|]. rstep. apply runs_zoom.
  pose proof HL as (Hh & HX & _ & _ & L5 & _). destruct (L5 p n Hp) as (K1 & K2 & [Hdb Hz]).
  change lsa_types with (Z.of_nat <$> seq 1 7).
  assert (∀ q, cnt q (db_entries (n_ls_req n)) + cnt q (option_list (n_ls_req_last n)) ≤ cnt q (nbr_refs n)) as Hcnt.
  { intros q. unfold nbr_refs. rewrite !cnt_app. pose proof (cnt_nonneg q (db_entries (n_ls_rxmt n))).
    pose proof (cnt_nonneg q (db_entries (n_db_sum n))). lia. }
  destruct (ls_req_types_ok E (seq 1 7) (n_ls_req n) _ _ OSPF_LS_REQ_MIN_SIZE (n_ls_req_last n) Hdb Hh)
    as (lps & (len' & last' & keys & h' & Hrun & Hh' & Hm & Hl & Hin & Hk) & Hprog); [|apply types_range|].
  { intros q. specialize (HX q). pose proof (nbr_refs_cnt w p n q Hp). specialize (Hcnt q). lia. }
  eapply runs_run; [exact Hrun|]. cbn [fst snd]. rstep. eapply runs_upd_nbr; [cbn; exact Hp|]. rstep.
  exists lps, h'. cbv zeta. rewrite <- Hl. split; [done|]. split.
  - change (lsas_ok E X (wset w h' p (n <| n_ls_req_last := last' |>))). pose proof Hm as (Hst & Hdom & _).
    assert (heap_ok h' (λ q, X q + cnt q (w_refs w) + cnt q (nbr_refs (n <| n_ls_req_last := last' |>)) - cnt q (nbr_refs n))) as Hh2.
    { eapply heap_ok_ext; [|exact Hh']. intros q. unfold nbr_refs. cbn. rewrite !cnt_app. lia. }
    eapply lsas_ok_wset; [done|done|done|done|exact Hh2|].
    assert (∀ q, q ∈ nbr_refs (n <| n_ls_req_last := last' |>) → is_Some (h' !! q)) as Ha.
    { intros q Hq. destruct Hh2 as [_ Hh2]. apply Hh2. pose proof (proj2 (cnt_elem q _) Hq).
      specialize (HX q). pose proof (nbr_refs_cnt w p n q Hp). lia. }
    unfold nbr_refs in Ha. cbn in Ha.
    split_and!; (eapply list_ok_stable; [done|done|]); intros; apply Ha; set_solver.
  - split_and!; [done|done|done|]. intros Hnil Hmax. eapply types_all; [by split|]. intros i k Hi. by apply Hprog.
Qed.

Lemma ls_req_send_runs X w p n :
  lsas_ok E X w → w_nbr w !! p = Some n → last_ok n →
  runs (ospf_ls_req_send E p) w (λ _ w', ∃ q h' l t,
    let n' := n <| n_ls_req_last := l |> <| n_t_ls_req := t |> in
    w' = wset (w <| w_obuf := q |>) h' p n' ∧ lsas_ok E X w' ∧ mem_step (w_lsas w) h' ∧ last_ok n' ∧
    (t = n_t_ls_req n ∨ n_t_ls_req n = T_null ∧ t = T_timer)).
Proof.
  intros HL Hp Hlast. unfold ospf_ls_req_send, ospf_packet_add. rstep. eapply runs_mono; [by apply make_ls_req_runs|].
  intros r w1 (lps & h' & -> & HL1 & Hm & Hin & _). set (l := match list.last lps with Some lp => Some lp | None => _ end) in *.
  assert (∀ t, last_ok (n <| n_ls_req_last := l |> <| n_t_ls_req := t |>)) as Hl.
  { intros t lp. cbn. unfold l. destruct (list.last lps) as [lp'|] eqn:El; [|apply Hlast].
    intros [= <-]. apply Hin. by apply last_Some_elem_of. }
  rstep.
  { rstep. exists (w_obuf w), h', l, (n_t_ls_req n). cbv zeta.
    replace (w <| w_obuf := w_obuf w |>) with w by (by destruct w).
    replace (n <| n_ls_req_last := l |> <| n_t_ls_req := n_t_ls_req n |>) with (n <| n_ls_req_last := l |>) by (by destruct n).
    split_and!; [done|done|done|apply (Hl (n_t_ls_req n))|by left]. }
  rstep. rstep. rstep. eapply runs_nbr; [apply wset_lookup|]. rstep. rstep. cbn [n_t_ls_req set_fld set_n_ls_req_last].
  destruct (n_t_ls_req n) eqn:Et.
  - eapply runs_upd_nbr; [cbn; apply lookup_insert_eq|]. eexists _, h', l, T_timer. cbv zeta.
    split; [unfold wset; cbn; rewrite insert_insert_eq; reflexivity|]. split; [|split_and!; [done|apply Hl|by right]].
    cbn. rewrite insert_insert_eq.
    change (lsas_ok E X (wset w h' p (n <| n_ls_req_last := l |> <| n_t_ls_req := T_timer |>))).
    by eapply lsas_ok_wset_upd.
  - rstep. eexists _, h', l, T_timer. cbv zeta.
    replace (n <| n_ls_req_last := l |> <| n_t_ls_req := T_timer |>) with (n <| n_ls_req_last := l |>) by (rewrite <- Et; by destruct n).
    split; [reflexivity|]. split_and!; [done|done| |by left]. apply (Hl T_timer).
  - rstep. eexists _, h', l, T_event. cbv zeta.
    replace (n <| n_ls_req_last := l |> <| n_t_ls_req := T_event |>) with (n <| n_ls_req_last := l |>) by (rewrite <- Et; by destruct n).
    split; [reflexivity|]. split_and!; [done|done| |by left]. apply (Hl T_event).
Qed.

(** ** The references of the interface *)

Lemma unlock_step h R p :
  heap_ok h R → 0 < R p → ∃ r h', ospf_lsa_unlock (Some p) h = Some (r, h') ∧ heap_ok h' (plus1 R p (-1)) ∧ mem_step h h'.
Proof.
  intros Hh HR. destruct (unlock_ok h R p Hh HR) as (r & h' & Hrun & Hh' & Hst & Ho & _ & Hk).
  exists r, h'. split_and!; [done..|]. split_and!; [done| |done]. intros q Hq.
  destruct (decide (q = p)) as [->|]; [destruct Hh as [_ Hh]; by apply Hh|by rewrite <- Ho].
Qed.

Lemma lock_step h R p :
  heap_ok h R → is_Some (h !! p) →
  ∃ h', ospf_lsa_lock p h = Some (p, h') ∧ heap_ok h' (plus1 R p 1) ∧ mem_step h h' ∧ dom h' = dom h.
Proof.
  intros Hh Hp. destruct (lock_ok h R p Hh Hp) as (h' & Hrun & Hh' & Hst & Hd & Hk).
  exists h'. split_and!; [done..| |done]. split_and!; [done| |done]. intros q Hq%elem_of_dom. rewrite Hd in Hq. by apply elem_of_dom.
Qed.

Lemma unlock_all_ok lps h R :
  heap_ok h R → (∀ q, cnt q lps ≤ R q) →
  ∃ h', unlock_all lps h = Some (tt, h') ∧ heap_ok h' (λ q, R q - cnt q lps) ∧ mem_step h h'.
Proof.
  revert h R. induction lps as [|lp lps IH]; intros h R Hh HR; cbn [unlock_all].
  { exists h. split_and!; [done| |apply mem_step_refl]. eapply heap_ok_ext; [|exact Hh]. intros q.
    change (cnt q []) with 0. lia. }
  destruct (unlock_step h R lp Hh) as (r & h1 & Hrun & Hh1 & Hm1).
  { specialize (HR lp). rewrite cnt_cons, decide_True in HR by done. pose proof (cnt_nonneg lp lps). lia. }
  erewrite fbind_run by exact Hrun. destruct (IH h1 _ Hh1) as (h2 & Hrun2 & Hh2 & Hm2).
  { intros q. specialize (HR q). rewrite cnt_cons in HR. unfold plus1. repeat case_decide; lia || congruence. }
  exists h2. split_and!; [done| |by eapply mem_step_trans]. eapply heap_ok_ext; [|exact Hh2]. intros q. cbv beta.
  rewrite cnt_cons. unfold plus1. repeat case_decide; lia || congruence.
Qed.

Lemma lock_all_ok lps h R :
  heap_ok h R → (∀ q, q ∈ lps → is_Some (h !! q)) →
  ∃ h', lock_all lps h = Some (tt, h') ∧ heap_ok h' (λ q, R q + cnt q lps) ∧ mem_step h h'.
Proof.
  revert h R. induction lps as [|lp lps IH]; intros h R Hh HR; cbn [lock_all].
  { exists h. split_and!; [done| |apply mem_step_refl]. eapply heap_ok_ext; [|exact Hh]. intros q.
    change (cnt q []) with 0. lia. }
  destruct (lock_step h R lp Hh) as (h1 & Hrun & Hh1 & Hm1 & Hd); [apply HR; left|].
  erewrite fbind_run by exact Hrun. destruct (IH h1 _ Hh1) as (h2 & Hrun2 & Hh2 & Hm2).
  { intros q Hq. apply elem_of_dom. rewrite Hd. apply elem_of_dom, HR. by right. }
  exists h2. split_and!; [done| |by eapply mem_step_trans]. eapply heap_ok_ext; [|exact Hh2]. intros q. cbv beta.
  rewrite cnt_cons. unfold plus1. repeat case_decide; lia || congruence.
Qed.

(** What the interface itself refers to is changed. *)
Lemma lsas_ok_if X w w' :
  lsas_ok E X w → mem_step (w_lsas w) (w_lsas w') →
  w_area_lsdb w' = w_area_lsdb w → w_as_lsdb w' = w_as_lsdb w → w_nbr w' = w_nbr w →
  (∀ q, q ∈ queue_refs w' → q ∈ queue_refs w ++ top_refs w) →
  heap_ok (w_lsas w') (λ q, X q + cnt q (w_refs w) + cnt q (queue_refs w' ++ if_refs w') - cnt q (queue_refs w ++ if_refs w)) →
  lsas_ok E X w'.
Proof.
  intros HL (Hst & Hdom & _) Ha Hs Hn Hq Hh. pose proof HL as (_ & HX & _ & _ & _ & _ & Hsz).
  eapply lsas_ok_change; [exact HL|done| |done|done|done|done|rewrite Hn; by left|].
  - eapply heap_ok_ext; [|exact Hh]. intros q. cbv beta. unfold w_refs, top_refs. rewrite Hn, Ha, Hs, !cnt_app. lia.
  - pose proof (size_mono _ _ Hdom). lia.
Qed.

Lemma network_lsa_clear_runs X w :
  lsas_ok E X w →
  runs network_lsa_clear w (λ _ w', ∃ h' cs,
    w' = w <| w_lsas := h' |> <| w_network_lsa_self := None |> <| w_calls := cs |> ∧ lsas_ok E X w' ∧ mem_step (w_lsas w) h').
Proof.
  intros HL. unfold network_lsa_clear, call. rstep. rstep.
  assert (∀ cs h', heap_ok h' (λ q, X q + cnt q (w_refs w) - cnt q (option_list (w_network_lsa_self w))) →
    mem_step (w_lsas w) h' →
    lsas_ok E X (w <| w_lsas := h' |> <| w_network_lsa_self := None |> <| w_calls := cs |>)) as Hok.
  { intros cs h' Hh' Hm. eapply lsas_ok_if; [exact HL|done|done|done|done| |].
    - intros q Hq. change (q ∈ queue_refs w) in Hq. set_solver.
    - eapply heap_ok_ext; [|exact Hh']. intros q. cbv beta. unfold if_refs. cbn.
      change (queue_refs (w <| w_lsas := h' |> <| w_network_lsa_self := None |> <| w_calls := cs |>)) with (queue_refs w).
      rewrite !cnt_app. lia. }
  pose proof HL as (Hh & HX & _). destruct (w_network_lsa_self w) as [lp|] eqn:El.
  - rstep. rstep. rstep. apply runs_zoom. cbn [w_lsas set_fld set_w_calls].
    destruct (unlock_step (w_lsas w) _ lp Hh) as (r & h' & Hrun & Hh' & Hm).
    { specialize (HX lp). enough (0 < cnt lp (w_refs w)) by lia. apply cnt_elem. unfold w_refs, if_refs. rewrite El. set_solver. }
    eapply runs_run; [exact Hrun|]. rstep. eexists h', _. split; [reflexivity|]. split; [|done].
    apply Hok; [|done]. eapply heap_ok_ext; [|exact Hh']. intros q. unfold plus1. change (option_list (Some lp)) with [lp].
    rewrite cnt_cons. change (cnt q []) with 0. repeat case_decide; lia || congruence.
  - rstep. rstep. rstep. apply runs_zoom. eapply runs_run; [done|]. rstep. exists (w_lsas w), (w_calls w).
    assert (w = w <| w_lsas := w_lsas w |> <| w_network_lsa_self := None |> <| w_calls := w_calls w |>) as Hw
      by (rewrite <- El; by destruct w).
    split; [rewrite Hw at 2; done|]. split; [|apply mem_step_refl].
    apply (Hok (w_calls w) (w_lsas w)); [|apply mem_step_refl]. eapply heap_ok_ext; [|exact Hh]. intros q.
    cbv beta. change (cnt q (option_list None)) with 0. lia.
Qed.

(** ** The update queue *)

Lemma cnt_concat_perm q (l k : list (list nat)) : l ≡ₚ k → cnt q (concat l) = cnt q (concat k).
Proof. induction 1; cbn; rewrite ?cnt_app; lia. Qed.

Lemma cnt_queue_set q k o (t : RT (list nat)) :
  cnt q (concat (rt_entries (rt_set k o t))) =
  cnt q (concat (rt_entries t)) + cnt q (default [] o) - cnt q (default [] (rt_info k t)).
Proof.
  pose proof (cnt_concat_perm q _ _ (rt_entries_set k o t)) as Hc. rewrite !concat_app, !cnt_app in Hc.
  assert (∀ o : option (list nat), cnt q (concat (option_list o)) = cnt q (default [] o)) as Ho.
  { intros [l|]; cbn; [by rewrite app_nil_r|done]. }
  rewrite !Ho in Hc. lia.
Qed.

Lemma queue_elem w k l q : rt_info k (w_ls_upd_queue w) = Some l → q ∈ l → q ∈ queue_refs w.
Proof. intros Hk Hq. unfold queue_refs. apply list_elem_of_In, in_concat. exists l. split; apply list_elem_of_In; [|done]. apply rt_entries_elem. eauto. Qed.

Lemma queue_elem_inv w q : q ∈ queue_refs w → ∃ k l, rt_info k (w_ls_upd_queue w) = Some l ∧ q ∈ l.
Proof.
  unfold queue_refs. intros (l & Hl & Hq)%list_elem_of_In%in_concat. apply list_elem_of_In in Hl, Hq.
  apply rt_entries_elem in Hl as [k Hk]. eauto.
Qed.

(** One entry of the queue is replaced: [o] instead of [l]. *)
Definition qset w h k o : ospf_world RT := w <| w_lsas := h |> <| w_ls_upd_queue := rt_set k o (w_ls_upd_queue w) |>.

Lemma lsas_ok_qset X w h k o :
  lsas_ok E X w → mem_step (w_lsas w) h →
  heap_ok h (λ q, X q + cnt q (w_refs w) + cnt q (default [] o) - cnt q (default [] (rt_info k (w_ls_upd_queue w)))) →
  (∀ q, q ∈ default [] o → q ∈ queue_refs w ++ top_refs w) →
  lsas_ok E X (qset w h k o).
Proof.
  intros HL Hm Hh Ho. eapply lsas_ok_if; [exact HL|done|done|done|done| |].
  - intros q (k' & l & Hk & Hq)%queue_elem_inv. cbn in Hk. rewrite rt_info_set in Hk. case_decide.
    + subst. by apply Ho.
    + apply elem_of_app. left. by eapply queue_elem.
  - eapply heap_ok_ext; [|exact Hh]. intros q. cbv beta. unfold queue_refs at 1. cbn [w_ls_upd_queue qset].
    change (if_refs (qset w h k o)) with (if_refs w). rewrite !cnt_app.
    change (w_ls_upd_queue (qset w h k o)) with (rt_set k o (w_ls_upd_queue w)). rewrite cnt_queue_set.
    unfold queue_refs. lia.
Qed.

Lemma cnt_queue_le X w k l q :
  lsas_ok E X w → rt_info k (w_ls_upd_queue w) = Some l → cnt q l ≤ X q + cnt q (w_refs w).
Proof.
  intros (_ & HX & _) Hk. specialize (HX q).
  pose proof (cnt_queue_set q k None (w_ls_upd_queue w)) as Hc. rewrite Hk in Hc. change (default [] (Some l)) with l in Hc.
  change (cnt q (default [] None)) with 0 in Hc. pose proof (cnt_nonneg q (concat (rt_entries (rt_set k None (w_ls_upd_queue w))))).
  unfold w_refs, queue_refs. rewrite !cnt_app. pose proof (cnt_nonneg q (top_refs w)).
  pose proof (cnt_nonneg q (if_refs w)). pose proof (cnt_nonneg q (nbrs_refs (w_nbr w))).
  lia.
Qed.

Lemma upd_queue_walk_runs X ks w :
  lsas_ok E X w →
  runs (upd_queue_walk ks) w (λ _ w', ∃ h' t',
    w' = w <| w_lsas := h' |> <| w_ls_upd_queue := t' |> ∧ lsas_ok E X w' ∧ mem_step (w_lsas w) h' ∧
    ∀ k, rt_info k t' = if decide (k ∈ ks) then None else rt_info k (w_ls_upd_queue w)).
Proof.
  revert w. induction ks as [|k ks IH]; intros w HL; cbn [upd_queue_walk].
  { rstep. exists (w_lsas w), (w_ls_upd_queue w).
    replace (w <| w_lsas := w_lsas w |> <| w_ls_upd_queue := w_ls_upd_queue w |>) with w by (by destruct w).
    split_and!; [done|done|apply mem_step_refl|]. intros k. by rewrite decide_False by (by intros ?%elem_of_nil). }
  rstep. rstep. destruct (rt_info k (w_ls_upd_queue w)) as [l|] eqn:Ek.
  - rstep. rstep. apply runs_zoom. pose proof HL as (Hh & _).
    destruct (unlock_all_ok l _ _ Hh) as (h1 & Hrun & Hh1 & Hm1); [intros q; by eapply cnt_queue_le|].
    eapply runs_run; [exact Hrun|]. rstep.
    assert (lsas_ok E X (qset w h1 k None)) as HL1.
    { apply lsas_ok_qset; [done|done| |by intros q ?%elem_of_nil]. eapply heap_ok_ext; [|exact Hh1]. intros q. cbv beta.
      rewrite Ek. change (cnt q (default [] None)) with 0.
      change (default [] (Some l)) with l. lia. }
    eapply runs_mono; [exact (IH (qset w h1 k None) HL1)|]. intros [] w2 (h2 & t2 & -> & HL2 & Hm2 & Ht2).
    exists h2, t2. split_and!; [done|done|by eapply mem_step_trans|].
    intros k'. rewrite Ht2. cbn. rewrite rt_info_set. destruct (decide (k' ∈ ks)).
    + by rewrite decide_True by set_solver.
    + destruct (decide (k = k')) as [<-|]; [by rewrite decide_True by set_solver|].
      by rewrite decide_False by set_solver.
  - rstep. rstep. eapply runs_mono; [by apply IH|]. intros [] w2 (h2 & t2 & -> & HL2 & Hm2 & Ht2).
    exists h2, t2. split_and!; [done..|]. intros k'. rewrite Ht2. destruct (decide (k' ∈ ks)).
    + by rewrite decide_True by set_solver.
    + destruct (decide (k = k')) as [<-|]; [by rewrite Ek, decide_True by set_solver|].
      by rewrite decide_False by set_solver.
Qed.

Lemma upd_queue_empty_runs X w :
  lsas_ok E X w →
  runs ospf_ls_upd_queue_empty w (λ _ w', ∃ h' t' es,
    w' = w <| w_lsas := h' |> <| w_ls_upd_queue := t' |> <| w_t_ls_upd_event := false |> <| w_events := es |> ∧
    lsas_ok E X w' ∧ (∀ k, rt_info k t' = None) ∧
    es = if w_t_ls_upd_event w then filter (λ e, is_ls_upd e = false) (w_events w) else w_events w).
Proof.
  intros HL. unfold ospf_ls_upd_queue_empty, drop_events. rstep. rstep. rstep.
  eapply runs_mono; [by apply upd_queue_walk_runs|]. intros [] w1 (h' & t' & -> & HL1 & Hm & Ht).
  assert (∀ k, rt_info k t' = None) as Ht0.
  { intros k. rewrite Ht. case_decide as Hk; [done|]. destruct (rt_info k (w_ls_upd_queue w)) eqn:Ek; [|done].
    exfalso. apply Hk, rt_walk_elem. eauto. }
  rstep. rstep. cbn [w_t_ls_upd_event set_fld set_w_ls_upd_queue set_w_lsas].
  change (w_t_ls_upd_event (w <| w_lsas := h' |> <| w_ls_upd_queue := t' |>)) with (w_t_ls_upd_event w).
  destruct (w_t_ls_upd_event w) eqn:Et.
  - rstep. rstep. rstep. eexists h', t', _. split; [reflexivity|]. split_and!; [exact HL1|done|done].
  - rstep. exists h', t', (w_events w).
    split_and!; [destruct w; cbn in Et |- *; by rewrite Et|exact HL1|done|done].
Qed.

Lemma ls_upd_send_runs X w p n update direct :
  lsas_ok E X w → w_nbr w !! p = Some n → (∀ q, q ∈ update → q ∈ top_refs w) →
  let k := upd_dst E (w_type w) (w_state w) n direct in
  runs (ospf_ls_upd_send E p update direct) w (λ _ w', ∃ h',
    w' = (qset w h' k (Some (default [] (rt_info k (w_ls_upd_queue w)) ++ update)))
           <| w_events := w_events w ++ if w_t_ls_upd_event w then [] else [Ev_ls_upd] |> <| w_t_ls_upd_event := true |> ∧
    lsas_ok E X w' ∧ mem_step (w_lsas w) h').
Proof.
  intros HL Hp Hupd k. unfold ospf_ls_upd_send, schedule. rstep. rstep. rstep. rstep. rstep. eapply runs_nbr; [done|].
  fold k. rstep. rstep. rstep. apply runs_zoom. pose proof HL as (Hh & _).
  destruct (lock_all_ok update _ _ Hh) as (h' & Hrun & Hh' & Hm); [intros q Hq; by eapply top_alive, Hupd|].
  eapply runs_run; [exact Hrun|]. rstep. rstep. set (o := rt_info k (w_ls_upd_queue w)).
  change (_ <| w_ls_upd_queue := _ |>) with (qset w h' k (Some (default [] o ++ update))).
  assert (lsas_ok E X (qset w h' k (Some (default [] o ++ update)))) as HL1.
  { apply lsas_ok_qset; [done|done| |].
    - eapply heap_ok_ext; [|exact Hh']. intros q. cbv beta. fold o.
      change (default [] (Some (default [] o ++ update))) with (default [] o ++ update). rewrite cnt_app. lia.
    - intros q [Hq|Hq]%elem_of_app; apply elem_of_app; [|right; by apply Hupd]. left.
      unfold o in Hq. destruct (rt_info k (w_ls_upd_queue w)) as [l|] eqn:Ek; [by eapply queue_elem|by apply elem_of_nil in Hq]. }
  rstep. rstep. change (w_t_ls_upd_event (qset _ _ _ _)) with (w_t_ls_upd_event w).
  destruct (w_t_ls_upd_event w) eqn:Et.
  - rstep. exists h'. rewrite app_nil_r. split_and!; [destruct w; cbn in Et |- *; by rewrite Et|exact HL1|done].
  - rstep. rstep. rstep. exists h'. split_and!; [done|exact HL1|done].
Qed.

(** An update with as many LSAs of the list as fit. *)
(** What an update packet has of an LSA. *)
Definition upd_entry (l : ospf_lsa) : lsa_header * list Z :=
  let d := l_data l in
  (mk_lsah (u16 (ls_age_increment E l (e_transmit_delay E))) (h_options d) (h_type d) (h_id d) (h_adv_router d) (ls_seqnum d)
     (h_checksum d) (h_length d), l_body l).
Definition upd_entries h (lps : list nat) : list (lsa_header * list Z) := omap (λ lp, upd_entry <$> h !! lp) lps.

Lemma upd_entries_stable h h' lps :
  stable h h' → (∀ lp, lp ∈ lps → is_Some (h !! lp) ∧ is_Some (h' !! lp)) → upd_entries h' lps = upd_entries h lps.
Proof.
  intros Hst. induction lps as [|lp lps IH]; intros Hl; [done|]. unfold upd_entries in *. cbn.
  destruct (Hl lp) as [[l Hl1] [l' Hl2]]; [by apply elem_of_cons; left|]. rewrite Hl1, Hl2. cbn.
  rewrite IH by (intros; apply Hl; by apply elem_of_cons; right). f_equal.
  destruct (Hst lp l l' Hl1 Hl2) as (Hd & _ & Hf). injection Hf as Hb Ht _. unfold upd_entry, ls_age_increment, LS_AGE, get_age.
  by rewrite (maxage_stable (e_now E) l l' Hd Ht), Hd, Hb, Ht.
Qed.

Lemma make_ls_upd_ok update size len h R :
  heap_ok h R → (∀ q, cnt q update ≤ R q) →
  ∃ dn rest pk h', update = dn ++ rest ∧ ospf_make_ls_upd E size len update h = Some (rest, pk, h') ∧
    heap_ok h' (λ q, R q - cnt q dn) ∧ mem_step h h' ∧ pk = upd_entries h dn ∧
    (∀ lp l tl, update = lp :: tl → h !! lp = Some l → len + OSPF_HEADER_SIZE + h_length (l_data l) ≤ size → dn ≠ []).
Proof.
  revert len h R. induction update as [|lp update IH]; intros len h R Hh HR; cbn [ospf_make_ls_upd].
  { exists [], [], [], h. split_and!; [done|done| |apply mem_step_refl|done|done]. eapply heap_ok_ext; [|exact Hh].
    intros q. cbv beta. change (cnt q []) with 0. lia. }
  assert (0 < R lp) as HRlp.
  { specialize (HR lp). rewrite cnt_cons, decide_True in HR by done. pose proof (cnt_nonneg lp update). lia. }
  assert (is_Some (h !! lp)) as [l Hl] by (destruct Hh as [_ Hh]; by apply Hh).
  erewrite fbind_run by exact (lsa_run h lp l Hl). cbv zeta.
  destruct (len + OSPF_HEADER_SIZE + h_length (l_data l) >? size) eqn:Egt.
  { exists [], (lp :: update), [], h. split_and!; [done|done| |apply mem_step_refl|done|].
    - eapply heap_ok_ext; [|exact Hh]. intros q. cbv beta. change (cnt q []) with 0. lia.
    - intros ? l' ? [= <- <-] Hl' Hle. simplify_eq. apply Z.gtb_lt in Egt. lia. }
  destruct (unlock_step h R lp Hh HRlp) as (r & h1 & Hrun & Hh1 & Hm1). erewrite fbind_run by exact Hrun.
  destruct (IH (u16 (len + h_length (l_data l))) h1 _ Hh1) as (dn & rest & pk & h2 & -> & Hrun2 & Hh2 & Hm2 & -> & _).
  { intros q. specialize (HR q). rewrite cnt_cons in HR. unfold plus1. repeat case_decide; lia || congruence. }
  erewrite fbind_run by exact Hrun2. eexists (lp :: dn), rest, _, h2. split_and!; [done|reflexivity| |by eapply mem_step_trans| |done].
  { eapply heap_ok_ext; [|exact Hh2]. intros q. cbv beta. rewrite cnt_cons. unfold plus1. repeat case_decide; lia || congruence. }
  unfold upd_entries at 2. cbn. rewrite Hl. cbn. f_equal. apply upd_entries_stable; [apply Hm1|].
  intros q Hq. apply cnt_elem in Hq. specialize (HR q). rewrite cnt_cons, cnt_app in HR. pose proof (cnt_nonneg q rest).
  destruct Hh as [_ Hh]. destruct Hh1 as [_ Hh1]. split; [apply Hh; case_decide; lia|]. apply Hh1. unfold plus1. repeat case_decide; lia || congruence.
Qed.

(** The interface can send a packet at all. *)
Definition mtu_ok : Prop := 0 ≤ e_mtu E ≤ OSPF_MAX_PACKET_SIZE.

Lemma packet_new_fits l : mtu_ok → upd_fits E l → ospf_ls_upd_packet_new E l = Some (e_mtu E - IP_HEADER_SIZE).
Proof.
  unfold mtu_ok, upd_fits, ospf_ls_upd_packet_new. intros Hm [Hl Hf].
  unfold OSPF_HEADER_SIZE, OSPF_LS_UPD_MIN_SIZE in *.
  destruct (Z.gtb_spec (4 + h_length (l_data l)) (ospf_packet_max E)); [lia|].
  destruct (Z.gtb_spec (e_mtu E) OSPF_MAX_PACKET_SIZE); [lia|done].
Qed.

(** What an update leaves of a list of the queue. *)
Definition sent_of (dn l : list nat) (o : option (list nat)) : Prop :=
  ∃ rest, l = dn ++ rest ∧ o = match rest with [] => None | _ => Some rest end ∧
    (0 ≤ e_mtu E - e_authspace E - (OSPF_HEADER_SIZE + IP_HEADER_SIZE) → dn ≠ []).

(** The packet for the LSAs of one destination. *)
Definition upd_packet w (k : Z) (dn : list nat) : ospf_packet :=
  mk_op (if w_type w =? OSPF_IFTYPE_POINTOPOINT then OSPF_ALLSPFROUTERS else k) (B_ls_upd (upd_entries (w_lsas w) dn)).

Lemma queue_send_runs X w k l :
  lsas_ok E X w → mtu_ok → rt_info k (w_ls_upd_queue w) = Some l → l ≠ [] →
  runs (ospf_ls_upd_queue_send E l k) w (λ rest w', ∃ h' dn, l = dn ++ rest ∧
    w' = (sent w (upd_packet w k dn)) <| w_lsas := h' |> ∧ mem_step (w_lsas w) h' ∧
    heap_ok h' (λ q, X q + cnt q (w_refs w) - cnt q dn) ∧
    (0 ≤ e_mtu E - e_authspace E - (OSPF_HEADER_SIZE + IP_HEADER_SIZE) → dn ≠ [])).
Proof.
  intros HL Hmtu Hk Hne. destruct l as [|lp tl] eqn:El; [done|]. rewrite <- El in *.
  assert (lp ∈ queue_refs w) as Hq by (eapply queue_elem; [done|rewrite El; left]).
  destruct (lsas_alive E X w lp HL) as [l1 Hl1]; [unfold w_refs; set_solver|].
  pose proof HL as (Hh & _ & _ & _ & _ & L6 & _).
  assert (upd_fits E l1) as Hf by (eapply L6; [|exact Hl1]; set_solver).
  unfold ospf_ls_upd_queue_send, ospf_packet_add. rstep. eapply runs_of_option; [by rewrite El|]. rstep.
  eapply runs_read; [by apply lsa_run|]. rstep. eapply runs_of_option; [by apply packet_new_fits|].
  rstep. apply runs_zoom.
  destruct (make_ls_upd_ok l (e_mtu E - IP_HEADER_SIZE - e_authspace E) OSPF_LS_UPD_MIN_SIZE (w_lsas w) _ Hh)
    as (dn & rest & pk & h' & Hsp & Hrun & Hh' & Hm & -> & Hprog); [intros q; by eapply cnt_queue_le|].
  eapply runs_run; [exact Hrun|]. rstep. rstep. rstep. rstep. rstep. exists h', dn. split_and!; [done|reflexivity|done|done|].
  intros Hspace. eapply Hprog; [exact El|exact Hl1|]. destruct Hf as [_ Hf]. unfold ospf_packet_max in Hf.
  pose proof (Z.mod_le (e_mtu E - e_authspace E - (OSPF_HEADER_SIZE + IP_HEADER_SIZE)) (2 ^ 32)) as Hle. unfold u32 in Hf.
  unfold IP_HEADER_SIZE, OSPF_HEADER_SIZE, OSPF_LS_UPD_MIN_SIZE in *. lia.
Qed.

Lemma filter_ext_elem {A} (P Q : A → Prop) `{∀ x, Decision (P x), ∀ x, Decision (Q x)} (l : list A) :
  (∀ x, x ∈ l → P x ↔ Q x) → filter P l = filter Q l.
Proof.
  induction l as [|x l IH]; intros Hl; [done|]. rewrite !filter_cons. pose proof (Hl x ltac:(by apply elem_of_cons; left)) as Hx.
  rewrite IH by (intros; apply Hl; by apply elem_of_cons; right). repeat case_decide; naive_solver.
Qed.

Definition queue_ok w : Prop := ∀ k l, rt_info k (w_ls_upd_queue w) = Some l → l ≠ [].

Lemma upd_send_walk_runs X ks w again :
  lsas_ok E X w → mtu_ok → queue_ok w → NoDup ks →
  runs (upd_send_walk E ks again) w (λ b w', ∃ h' t' q f,
    w' = w <| w_lsas := h' |> <| w_ls_upd_queue := t' |> <| w_obuf := q |> ∧ lsas_ok E X w' ∧ mem_step (w_lsas w) h' ∧
    q = (λ q, q ++ ((λ k, upd_packet w k (f k)) <$> filter (λ k, is_Some (rt_info k (w_ls_upd_queue w))) ks)) <$> w_obuf w ∧
    (∀ k, if decide (k ∈ ks) then
            match rt_info k (w_ls_upd_queue w) with Some l => sent_of (f k) l (rt_info k t') | None => rt_info k t' = None end
          else rt_info k t' = rt_info k (w_ls_upd_queue w)) ∧
    (b = true ↔ again = true ∨ ∃ k, k ∈ ks ∧ is_Some (rt_info k t'))).
Proof.
  intros HL Hmtu Hq Hnd. revert w again HL Hq. induction Hnd as [|k ks Hk Hnd IH]; intros w again HL Hq; cbn [upd_send_walk].
  { rstep. exists (w_lsas w), (w_ls_upd_queue w), (w_obuf w), (λ _, []). split_and!; [by destruct w|by destruct w|apply mem_step_refl| | |].
    - destruct (w_obuf w); [cbn; by rewrite app_nil_r|done].
    - intros k. by rewrite decide_False by (by intros ?%elem_of_nil).
    - split; [by left|]. intros [|(k & Hk & _)]; [done|by apply elem_of_nil in Hk]. }
  rstep. rstep. destruct (rt_info k (w_ls_upd_queue w)) as [l|] eqn:Ek.
  - rstep. eapply runs_mono; [by eapply queue_send_runs; [| | |eapply Hq]|].
    intros rest w1 (h1 & dn & El & -> & Hm1 & Hh1 & Hprog). rstep. rstep.
    set (o := match rest with [] => None | _ => Some rest end).
    assert (default [] o = rest) as Ho by (unfold o; by destruct rest).
    set (w1 := sent (qset w h1 k o) (upd_packet w k dn)).
    assert (lsas_ok E X w1) as HL1.
    { change (lsas_ok E X (qset w h1 k o)). apply lsas_ok_qset; [done|done| |].
      - eapply heap_ok_ext; [|exact Hh1]. intros q. cbv beta. rewrite Ho, Ek. change (default [] (Some l)) with l.
        rewrite El, cnt_app. lia.
      - rewrite Ho. intros q Hin. apply elem_of_app. left. eapply queue_elem; [exact Ek|]. rewrite El. set_solver. }
    assert (queue_ok w1) as Hq1.
    { intros k' l'. cbn. rewrite rt_info_set. case_decide; [|apply Hq]. unfold o. by destruct rest; intros [= <-]. }
    eapply runs_mono; [exact (IH w1 _ HL1 Hq1)|]. intros b w2 (h2 & t2 & q2 & f2 & -> & HL2 & Hm2 & Hq2 & Ht2 & Hb).
    assert (∀ k', k' ≠ k → rt_info k' (w_ls_upd_queue w1) = rt_info k' (w_ls_upd_queue w)) as Hother.
    { intros k' Hne. cbn. by rewrite rt_info_set_ne by congruence. }
    exists h2, t2, q2, (λ k', if decide (k' = k) then dn else f2 k'). split_and!; [done|done|by eapply mem_step_trans| | |].
    + rewrite Hq2, (filter_cons_True _ k ks) by (rewrite Ek; by eexists). change (w_obuf w1) with ((λ q, q ++ [upd_packet w k dn]) <$> w_obuf w).
      destruct (w_obuf w) as [q|]; [|done]. rewrite fmap_cons, decide_True by done. cbn. f_equal. rewrite <- app_assoc. cbn. do 2 f_equal.
      rewrite (filter_ext_elem (λ k', is_Some (rt_info k' (rt_set k o (w_ls_upd_queue w)))) (λ k', is_Some (rt_info k' (w_ls_upd_queue w)))).
      2:{ intros k' Hk'. by rewrite rt_info_set_ne by (intros ->; done). }
      apply list_fmap_ext. intros i k' [Hs Hin]%list_elem_of_lookup_2%list_elem_of_filter.
      assert (k' ≠ k) as Hne by (by intros ->). rewrite decide_False by done. unfold upd_packet. cbn. f_equal. f_equal.
      destruct Hs as [l' Hl']. specialize (Ht2 k'). rewrite decide_True in Ht2 by done.
      pose proof (Hother k' Hne) as Ho'. rewrite Ho', Hl' in Ht2. destruct Ht2 as (rest' & El' & _).
      apply upd_entries_stable; [apply Hm1|]. intros lp Hlp.
      assert (lp ∈ l') as Hlp' by (rewrite El'; apply elem_of_app; by left). rewrite Hl' in Ho'. split.
      * apply (lsas_alive E X w); [done|]. unfold w_refs. apply elem_of_app. right. apply elem_of_app. left. by eapply queue_elem.
      * apply (lsas_alive E X w1); [done|]. unfold w_refs. apply elem_of_app. right. apply elem_of_app. left. by eapply queue_elem.
    + intros k'. specialize (Ht2 k'). destruct (decide (k' = k)) as [->|Hne].
      * rewrite decide_True by set_solver. rewrite decide_False in Ht2 by done. cbn in Ht2. rewrite rt_info_set_eq in Ht2. rewrite Ek, Ht2.
        exists rest. by split_and!.
      * rewrite Hother in Ht2 by done.
        destruct (decide (k' ∈ ks)); [rewrite decide_True by set_solver|rewrite decide_False by set_solver]; done.
    + rewrite Hb. specialize (Ht2 k). rewrite decide_False in Ht2 by done. cbn in Ht2. rewrite rt_info_set_eq in Ht2.
      split.
      * intros [Hr|(k' & Hk' & Hs)]; [|right; exists k'; split; [by right|done]].
        destruct rest; [by left|]. right. exists k. split; [left|]. rewrite Ht2. by eexists.
      * intros [Hr|(k' & [->|Hk']%elem_of_cons & Hs)]; [left; by destruct rest| |right; by exists k'].
        left. rewrite Ht2 in Hs. unfold o in Hs. destruct rest; [by destruct Hs|done].
  - eapply runs_mono; [by apply IH|]. intros b w2 (h2 & t2 & q2 & f2 & -> & HL2 & Hm2 & Hq2 & Ht2 & Hb).
    exists h2, t2, q2, f2. split_and!; [done|done|done| | |].
    + rewrite (filter_cons_False _ k ks); [done|]. rewrite Ek. by intros [].
    + intros k'. specialize (Ht2 k'). destruct (decide (k' = k)) as [->|Hne].
      * rewrite decide_True by set_solver. rewrite decide_False in Ht2 by done. by rewrite Ek, Ht2.
      * destruct (decide (k' ∈ ks)); [rewrite decide_True by set_solver|rewrite decide_False by set_solver]; done.
    + rewrite Hb. specialize (Ht2 k). rewrite decide_False in Ht2 by done. split.
      * intros [Hr|(k' & Hk' & Hs)]; [by left|right; exists k'; split; [by right|done]].
      * intros [Hr|(k' & [->|Hk']%elem_of_cons & Hs)]; [by left| |right; by exists k'].
        rewrite Ht2, Ek in Hs. by destruct Hs.
Qed.

(** ** New and freed neighbours *)

(** A neighbour as [ospf_nbr_new] makes it. *)
Definition new_nbr : ospf_neighbor RT :=
  mk_nbr NSM_Down (OSPF_DD_FLAG_MS ||| OSPF_DD_FLAG_M ||| OSPF_DD_FLAG_I) 0 0 0 0 0 0 (-1) 0 0 None (mk_tv 0 0)
    0 0 0 ospf_lsdb_new ospf_lsdb_new ospf_lsdb_new None 0 (e_v_wait E) false false T_null false false None 0.

Lemma new_db_info i k : db_info (ospf_lsdb_new : ospf_lsdb RT) i k = None.
Proof. apply db_entries_nil, new_db_entries. Qed.

Lemma lsas_ok_new X w p n :
  lsas_ok E X w → w_nbr w !! p = None → same_lists new_nbr n → lsas_ok E X (w <| w_nbr := <[p := n]> (w_nbr w) |>).
Proof.
  intros HL Hp (S1 & S2 & S3 & S4). pose proof HL as (Hh & HX & _ & _ & _ & _ & Hsz).
  assert (nbr_refs n = []) as Hr by (unfold nbr_refs; rewrite S1, S2, S3, S4; cbn [new_nbr n_ls_rxmt n_db_sum n_ls_req n_ls_req_last]; by rewrite !new_db_entries).
  eapply (lsas_ok_change E X X w); [done| | |done|done|done| | |done].
  - intros q l l' Hl Hl'. cbn in Hl'. by simplify_eq.
  - eapply heap_ok_ext; [|exact Hh]. intros q. cbv beta. unfold w_refs. rewrite !cnt_app.
    change (w_nbr (w <| w_nbr := <[p := n]> (w_nbr w) |>)) with (<[p := n]> (w_nbr w)).
    rewrite (cnt_perm q _ _ (nbrs_refs_new _ p n Hp)), Hr. done.
  - intros q Hq. change (q ∈ queue_refs w) in Hq. set_solver.
  - intros q m. cbn. destruct (decide (p = q)) as [<-|].
    + rewrite lookup_insert_eq. intros [= <-]. right. unfold lists_ok. rewrite S1, S2, S3.
      assert (∀ h, list_ok h (ospf_lsdb_new : ospf_lsdb RT)) as Hn by (split; [apply new_db_ok|intros; apply new_db_info]).
      by split_and!.
    + rewrite lookup_insert_ne by done. by left.
Qed.

Lemma nbr_new_runs w (Q : nat → ospf_world RT → Prop) :
  (∀ p, w_nbr w !! p = None → Q p (w <| w_nbr := <[p := new_nbr]> (w_nbr w) |>)) → runs (ospf_nbr_new E) w Q.
Proof. intros HQ. unfold runs, ospf_nbr_new. apply HQ, not_elem_of_dom, is_fresh. Qed.

Lemma cleanup_run h db : db_ok h db → db_entries db = [] → ospf_lsdb_cleanup db h = Some (tt, h).
Proof.
  intros Hdb He. unfold ospf_lsdb_cleanup. erewrite fbind_run.
  2:{ apply assert_run. pose proof Hdb as (_ & _ & ->). by rewrite He. }
  unfold ospf_lsdb_delete_all. change lsa_types with (Z.of_nat <$> seq 1 7).
  assert (∀ types, Forall (λ i, i < 8)%nat types → delete_types (Z.of_nat <$> types) db h = Some (db, h)) as Ht.
  { induction 1 as [|i types Hi _ IH]; [done|]. cbn [fmap list_fmap delete_types].
    destruct (db_type_exists h db i Hdb Hi) as [t Hit]. erewrite fbind_run by exact (ldt_run db i t h Hit).
    assert (rt_walk (lt_db t) = []) as ->.
    { destruct (rt_walk (lt_db t)) as [|k ks] eqn:Ew; [done|]. assert (k ∈ rt_walk (lt_db t)) as Hk by (rewrite Ew; left).
      apply rt_walk_elem in Hk as [lp Hk]. pose proof (proj1 (db_entries_nil db) He i k) as Hn. unfold db_info in Hn.
      rewrite Hit in Hn. cbn in Hn. congruence. }
    cbn [delete_walk]. by erewrite fbind_run by done. }
  by erewrite fbind_run by (apply Ht, types_range).
Qed.

(** The link of a configured neighbour is taken off. *)
Definition unlink (o : option nat) (m : gmap nat ospf_nbr_nbma) : gmap nat ospf_nbr_nbma :=
  match o with Some q => alter (λ b, b <| nb_nbr := None |>) q m | None => m end.

Lemma alter_some {A} (f : A → A) (m : gmap nat A) q b : m !! q = Some b → alter f q m = <[q := f b]> m.
Proof. intros Hq. rewrite <- (insert_id m q b Hq) at 1. by rewrite alter_insert_eq. Qed.

Lemma runs_nbma w q b Q : w_nbma w !! q = Some b → Q b w → runs (nbma q) w Q.
Proof. intros Hq HQ. unfold nbma. rstep. rstep. by eapply runs_of_option. Qed.

Lemma runs_upd_nbma w q b f (Q : unit → ospf_world RT → Prop) :
  w_nbma w !! q = Some b → Q tt (w <| w_nbma := <[q := f b]> (w_nbma w) |>) → runs (upd_nbma q f) w Q.
Proof. intros Hq HQ. unfold upd_nbma. rstep. eapply runs_nbma; [done|]. by rstep. Qed.

(** The world after the neighbour [p] has been freed. *)
Definition freed w h (p : nat) n : ospf_world RT :=
  w <| w_lsas := h |> <| w_nbr := delete p (w_nbr w) |> <| w_nbma := unlink (n_nbr_nbma n) (w_nbma w) |>
    <| w_events := filter (λ e, event_of p e = false) (w_events w) |>.

Lemma lsas_ok_free X w p n :
  lsas_ok E X w → w_nbr w !! p = Some n → nbr_refs n = [] → lsas_ok E X (w <| w_nbr := delete p (w_nbr w) |>).
Proof.
  intros HL Hp Hr. pose proof HL as (Hh & HX & _ & _ & _ & _ & Hsz).
  eapply (lsas_ok_change E X X w); [done| | |done|done|done| | |done].
  - intros q l l' Hl Hl'. cbn in Hl'. by simplify_eq.
  - eapply heap_ok_ext; [|exact Hh]. intros q. cbv beta. unfold w_refs. rewrite !cnt_app.
    rewrite (cnt_perm q _ _ (nbrs_refs_delete (w_nbr w) p n Hp)), Hr. done.
  - intros q Hq. change (q ∈ queue_refs w) in Hq. set_solver.
  - intros q m Hm. cbn in Hm. apply lookup_delete_Some in Hm as [_ Hm]. by left.
Qed.

Lemma ls_req_timer_off_runs w p n (Q : unit → ospf_world RT → Prop) :
  w_nbr w !! p = Some n →
  Q tt (w <| w_nbr := <[p := n <| n_t_ls_req := T_null |>]> (w_nbr w) |>
          <| w_events := if bool_decide (n_t_ls_req n = T_event)
                         then filter (λ e, ls_req_event_of p e = false) (w_events w) else w_events w |>) →
  runs (ls_req_timer_off p) w Q.
Proof.
  intros Hp HQ. unfold ls_req_timer_off, drop_events. rstep. eapply runs_nbr; [done|].
  destruct (n_t_ls_req n) eqn:Et; cbn [bool_decide] in HQ.
  - rstep. rewrite bool_decide_eq_false_2 in HQ by done.
    replace (n <| n_t_ls_req := T_null |>) with n in HQ by (rewrite <- Et; by destruct n).
    rewrite insert_id in HQ by done. by replace (w <| w_nbr := w_nbr w |> <| w_events := w_events w |>) with w in HQ by (by destruct w).
  - eapply runs_upd_nbr; [done|]. rewrite bool_decide_eq_false_2 in HQ by done.
    by replace (w <| w_nbr := <[p := n <| n_t_ls_req := T_null |>]> (w_nbr w) |> <| w_events := w_events w |>)
      with (w <| w_nbr := <[p := n <| n_t_ls_req := T_null |>]> (w_nbr w) |>) in HQ by (by destruct w).
  - rstep. rstep. eapply runs_upd_nbr; [done|]. by rewrite bool_decide_eq_true_2 in HQ by done.
Qed.

Lemma events_filtered p (es : list ospf_event) (b : bool) :
  filter (λ e, event_of p e = false) (if b then filter (λ e, ls_req_event_of p e = false) es else es) =
  filter (λ e, event_of p e = false) es.
Proof.
  destruct b; [|done]. rewrite list_filter_filter. apply list_filter_iff. intros e. split; [by intros [? _]|].
  intros He. split; [done|]. by destruct e.
Qed.

Lemma nbr_free_runs X w p n :
  lsas_ok E X w → w_nbr w !! p = Some n → last_ok n → (∀ q, n_nbr_nbma n = Some q → is_Some (w_nbma w !! q)) →
  runs (ospf_nbr_free p) w (λ _ w', ∃ h', w' = freed w h' p n ∧ lsas_ok E X w' ∧ mem_step (w_lsas w) h').
Proof.
  intros HL Hp Hlast Hnb. unfold ospf_nbr_free, thread_cancel_event, drop_events.
  rstep. eapply runs_nbr; [done|].
  rstep. eapply runs_mono; [exact (clear_sum_step E X w p n HL Hp)|].
  intros [] w1 (n1 & h1 & -> & Hc1 & HL1 & Hm1 & (db1 & -> & Hdb1)).
  rstep. eapply runs_nbr; [apply wset_lookup|].
  rstep. eapply runs_mono; [exact (clear_req_step E X _ p _ HL1 (wset_lookup _ _ _ _) Hlast)|].
  intros [] w2 (n2 & h2 & -> & Hc2 & HL2 & Hm2 & (db2 & -> & Hdb2)). rewrite wset_wset in *.
  rstep. eapply runs_nbr; [apply wset_lookup|].
  rstep. eapply runs_mono; [exact (clear_rxmt_step E X _ p _ HL2 (wset_lookup _ _ _ _) eq_refl)|].
  intros [] w3 (n3 & h3 & -> & Hc3 & HL3 & Hm3 & (db3 & -> & Hdb3)). rewrite wset_wset in *.
  assert (mem_step (w_lsas w) h3) as Hm by (eapply mem_step_trans; [exact Hm1|]; by eapply mem_step_trans).
  set (n3 := n <| n_db_sum := db1 |> <| n_ls_req_last := None |> <| n_ls_req := db2 |> <| n_ls_rxmt := db3 |>) in *.
  rstep. eapply runs_nbr; [apply wset_lookup|].
  assert (lists_ok h3 n3) as ((D1 & _) & (D2 & _) & (D3 & _)).
  { destruct HL3 as (_ & _ & _ & _ & L5 & _). apply (L5 p). apply wset_lookup. }
  rstep. eapply runs_read; [by apply cleanup_run|]. rstep. eapply runs_read; [by apply cleanup_run|].
  rstep. eapply runs_read; [by apply cleanup_run|].
  set (w3 := wset w h3 p n3).
  change (n_nbr_nbma n3) with (n_nbr_nbma n).
  rstep. apply (runs_mono _ _ (λ _ w', w' = w3 <| w_nbma := unlink (n_nbr_nbma n) (w_nbma w) |>
    <| w_nbr := <[p := n3 <| n_nbr_nbma := None |>]> (w_nbr w) |>)).
  { unfold unlink. destruct (n_nbr_nbma n) as [q|] eqn:Eq.
    - destruct (Hnb q eq_refl) as [b Hb]. rstep. eapply runs_upd_nbma; [exact Hb|].
      eapply runs_upd_nbr; [cbn; apply lookup_insert_eq|]. unfold w3, wset. cbn. rewrite insert_insert_eq.
      by rewrite (alter_some _ _ _ _ Hb).
    - rstep. unfold w3, wset. replace (n3 <| n_nbr_nbma := None |>) with n3; [by destruct w|].
      assert (∀ m : ospf_neighbor RT, n_nbr_nbma m = None → m = m <| n_nbr_nbma := None |>) as Hm'
        by (intros m Hm'; rewrite <- Hm' at 1; by destruct m).
      by apply Hm'. }
  intros [] w4 ->. rstep. eapply runs_upd_nbr; [cbn; apply lookup_insert_eq|]. rstep.
  eapply ls_req_timer_off_runs; [cbn; apply lookup_insert_eq|]. rstep. eapply runs_upd_nbr; [cbn; apply lookup_insert_eq|].
  rstep. rstep. rstep. exists h3. split; [|split; [|done]].
  - unfold freed, w3, wset. cbn. rewrite !insert_insert_eq, delete_insert_eq.
    by rewrite events_filtered.
  - cbn. rewrite !insert_insert_eq, delete_insert_eq.
    assert (lsas_ok E X (w3 <| w_nbr := delete p (w_nbr w3) |>)) as Hfin.
    { eapply lsas_ok_free; [exact HL3|apply wset_lookup|]. unfold nbr_refs. cbn. by rewrite Hdb1, Hdb2, Hdb3. }
    unfold w3, wset in Hfin. cbn in Hfin. rewrite delete_insert_eq in Hfin. exact Hfin.
Qed.

(** ** The headers of a received description *)

(** The memory may have grown. *)
Definition mem_grows h h' : Prop := stable h h' ∧ keeps h h'.

Lemma lsas_ok_alloc X w l :
  lsas_ok E X w → l_lock l = 1 → discarded l = false → l_refresh_list l < 0 → Z.of_nat (size (w_lsas w)) + 1 < 2 ^ 64 →
  ∃ lp h', alloc_lsa l (w_lsas w) = Some (lp, h') ∧ w_lsas w !! lp = None ∧ h' = <[lp := l]> (w_lsas w) ∧
    lsas_ok E X (w <| w_lsas := h' |>).
Proof.
  intros HL Hlock Hd Hr Hsz. pose proof HL as (Hh & HX & _).
  destruct (alloc_ok _ _ l Hh Hlock Hd Hr) as (lp & h' & Hrun & Hn & -> & Hh'). exists lp, (<[lp := l]> (w_lsas w)).
  split_and!; [done..|]. eapply (lsas_ok_change E X X w); [done|by apply stable_fresh|exact Hh'|done|done|done| | |].
  - intros q Hq. change (q ∈ queue_refs w) in Hq. set_solver.
  - intros p n Hp. by left.
  - cbn. rewrite map_size_insert_None by done. lia.
Qed.

(** The LSA is given up by its creator. *)
Lemma lsas_ok_discard X w lp :
  lsas_ok E X w → is_Some (w_lsas w !! lp) →
  ∃ h', ospf_lsa_discard lp (w_lsas w) = Some (tt, h') ∧ lsas_ok E X (w <| w_lsas := h' |>) ∧
    stable (w_lsas w) h' ∧ (∀ q, q ≠ lp → h' !! q = w_lsas w !! q) ∧ (is_Some (h' !! lp) ↔ 0 < X lp + cnt lp (w_refs w)).
Proof.
  intros HL Hlp. pose proof HL as (Hh & HX & _ & _ & _ & _ & Hsz).
  destruct (discard_ok _ _ lp Hh Hlp) as (h' & Hrun & Hh' & Hst & Ho & Hs). exists h'. split_and!; [done| |done..].
  eapply (lsas_ok_change E X X w); [done|done|exact Hh'|done|done|done| | |].
  - intros q Hq. change (q ∈ queue_refs w) in Hq. set_solver.
  - intros p n Hp. by left.
  - cbn. assert (size h' ≤ size (w_lsas w))%nat; [|lia]. apply size_mono. intros q Hq.
    destruct (decide (q = lp)) as [->|]; [done|]. by rewrite <- Ho.
Qed.

(** What is found for a header in the databases. *)
Definition top_info w (i : nat) (k : Z) : option nat :=
  if decide (i = 1 ∨ i = 2 ∨ i = 3 ∨ i = 4 ∨ i = 7)%nat then db_info (w_area_lsdb w) i k
  else if decide (i = 5%nat) then db_info (w_as_lsdb w) i k else None.

Lemma top_info_elem w i k lp : top_info w i k = Some lp → lp ∈ top_refs w.
Proof.
  unfold top_info, top_refs. intros Hi. apply elem_of_app. repeat case_decide; [left|right|done]; apply db_entries_info; eauto.
Qed.

Lemma lsa_lookup_runs X w (i : nat) id adv (Q : option nat → ospf_world RT → Prop) :
  lsas_ok E X w → (i < 8)%nat → Q (top_info w i (prefix_ls id adv)) w →
  runs (ospf_lsa_lookup (Z.of_nat i) id adv) w Q.
Proof.
  intros (_ & _ & D1 & D2 & _) Hi HQ. unfold ospf_lsa_lookup. rstep. rstep. rstep. rstep.
  unfold ospf_lsdb_lookup_by_id. rewrite !arr_nat.
  destruct (db_type_exists _ _ i D1 Hi) as [t1 Ht1]. destruct (db_type_exists _ _ i D2 Hi) as [t2 Ht2]. rewrite Ht1, Ht2.
  unfold top_info, db_info in HQ. rewrite Ht1, Ht2 in HQ. cbn in HQ.
  assert (i = 0 ∨ i = 1 ∨ i = 2 ∨ i = 3 ∨ i = 4 ∨ i = 5 ∨ i = 6 ∨ i = 7)%nat as Hcases by lia.
  destruct Hcases as [->|[->|[->|[->|[->|[->|[->| ->]]]]]]];
    first [eapply runs_of_option; [reflexivity|exact HQ]|exact HQ].
Qed.

(** The object made for a header, and how it compares with what is in the databases. *)
Definition req_lsa (lsah : lsa_header) : ospf_lsa := mk_lsa 0 lsah [] (e_now E) (e_now E) 1 0 0 (-1).
Definition header_type (lsah : lsa_header) : nat := Z.to_nat (h_type lsah).
Definition header_key (lsah : lsa_header) : Z := prefix_ls (h_id lsah) (h_adv_router lsah).
Definition header_find w (lsah : lsa_header) : option nat := top_info w (header_type lsah) (header_key lsah).
Definition verdict w (lsah : lsa_header) : Z :=
  ospf_lsa_more_recent (e_now E) (lp ← header_find w lsah; w_lsas w !! lp) (Some (req_lsa lsah)).

(** The lists after a header: what is newer elsewhere is requested, what the neighbour has is not described to it. *)
Definition header_done w lsah n h' n' : Prop :=
  let v := verdict w lsah in
  n_ls_rxmt n' = n_ls_rxmt n ∧ n_ls_req_last n' = n_ls_req_last n ∧
  (if v =? -1 then
     ∃ new l, h' !! new = Some l ∧ l_data l = lsah ∧ w_lsas w !! new = None ∧
       ∀ j k, db_info (n_ls_req n') j k =
         if decide (j = header_type lsah ∧ k = header_key lsah) then Some new else db_info (n_ls_req n) j k
   else n_ls_req n' = n_ls_req n) ∧
  (match header_find w lsah with
   | Some q =>
       if (v =? -1) || (v =? 0) then
         ∀ j k, db_info (n_db_sum n') j k =
           if decide (db_info (n_db_sum n) j k = Some q) then None else db_info (n_db_sum n) j k
       else n_db_sum n' = n_db_sum n
   | None => n_db_sum n' = n_db_sum n
   end).

Lemma verdict_none w lsah : header_find w lsah = None → verdict w lsah = -1.
Proof. intros Hf. unfold verdict. by rewrite Hf. Qed.

Lemma header_find_typed X w lsah q :
  lsas_ok E X w → header_find w lsah = Some q → q ∈ top_refs w ∧ ∃ l, w_lsas w !! q = Some l ∧ 0 ≤ h_type (l_data l) < 8.
Proof.
  intros (_ & _ & D1 & D2 & _) Hf. split; [by eapply top_info_elem|]. unfold header_find, top_info in Hf.
  repeat case_decide; [eapply db_entry_lsa in Hf as (? & l & ? & ? & _); [|done]..|done]; exists l; (split; [done|lia]).
Qed.

(** The two lists are changed: [new] is added to one of them and [find] is taken out of the other. *)
Definition header_lists (v : Z) (find : option nat) (new : nat) lsah n n' : Prop :=
  n_ls_rxmt n' = n_ls_rxmt n ∧ n_ls_req_last n' = n_ls_req_last n ∧
  (if v =? -1 then
     ∀ j k, db_info (n_ls_req n') j k =
       if decide (j = header_type lsah ∧ k = header_key lsah) then Some new else db_info (n_ls_req n) j k
   else n_ls_req n' = n_ls_req n) ∧
  (match find with
   | Some q =>
       if (v =? -1) || (v =? 0) then
         ∀ j k, db_info (n_db_sum n') j k =
           if decide (db_info (n_db_sum n) j k = Some q) then None else db_info (n_db_sum n) j k
       else n_db_sum n' = n_db_sum n
   | None => n_db_sum n' = n_db_sum n
   end).

Lemma header_lists_runs X w p n lsah (v : Z) find new l :
  lsas_ok E X w → w_nbr w !! p = Some n → 1 ≤ h_type lsah < OSPF_MAX_LSA →
  w_lsas w !! new = Some l → l_data l = lsah →
  (∀ q, find = Some q → q ∈ top_refs w ∧ ∃ l, w_lsas w !! q = Some l ∧ 0 ≤ h_type (l_data l) < 8) →
  runs ((if v =? -1 then ospf_ls_request_add p new else mret tt);;
        (if (v =? -1) || (v =? 0) then
           match find with Some q => on_db_sum p (λ db, ospf_lsdb_delete db q) | None => mret tt end
         else mret tt)) w (λ _, lists_res E X w p n (header_lists v find new lsah n)).
Proof.
  intros HL Hp Hty Hl Hd Hfind. unfold OSPF_MAX_LSA in Hty.
  rstep. apply (runs_mono _ _ (λ _, lists_res E X w p n (λ n', ∃ db, n' = n <| n_ls_req := db |> ∧
    if v =? -1 then ∀ j k, db_info db j k =
       if decide (j = header_type lsah ∧ k = header_key lsah) then Some new else db_info (n_ls_req n) j k
    else db = n_ls_req n))).
  { destruct (v =? -1).
    - eapply runs_mono; [apply (list_add_runs E n_ls_req (λ db n, n <| n_ls_req := db |>) X w p n new l (header_type lsah));
        [done..|unfold header_type; rewrite Hd; lia|unfold header_type; lia]|].
      intros [] w1 Hw1. eapply list_lists in Hw1; [|done]. eapply lists_res_mono; [exact Hw1|].
      intros n' (db & -> & Hdb). exists db. split; [done|]. unfold lsdb_prefix_set in Hdb. by rewrite Hd in Hdb.
    - rstep. apply lists_res_refl; [done..|]. exists (n_ls_req n). split; [by destruct n|done]. }
  intros [] w1 (n1 & h1 & -> & Hc1 & HL1 & Hm1 & (db & -> & Hdb)).
  assert (runs (if (v =? -1) || (v =? 0) then
           match find with Some q => on_db_sum p (λ db, ospf_lsdb_delete db q) | None => mret tt end
         else mret tt) (wset w h1 p (n <| n_ls_req := db |>))
    (λ _, lists_res E X (wset w h1 p (n <| n_ls_req := db |>)) p (n <| n_ls_req := db |>)
            (header_lists v find new lsah n))) as Hrun.
  { assert (∀ b, b = (v =? -1) || (v =? 0) → (b = false ∨ find = None) →
      header_lists v find new lsah n (n <| n_ls_req := db |>)) as Hsame.
    { intros b -> Hb. split_and!; [done|done|by destruct (v =? -1)|].
      destruct find; [|done]. by destruct Hb as [->|]. }
    destruct ((v =? -1) || (v =? 0)) eqn:Ev.
    - destruct find as [q|].
      + destruct (Hfind q eq_refl) as (Hq & lq & Hlq & Htq). pose proof Hm1 as (Hst & _).
        destruct (top_alive E X _ q HL1 Hq) as [lq1 Hlq1]. destruct (Hst q lq lq1 Hlq Hlq1) as (Hdq & _).
        eapply runs_mono; [apply (list_delete_any E n_db_sum (λ db n, n <| n_db_sum := db |>) X (wset w h1 p (n <| n_ls_req := db |>)) p (n <| n_ls_req := db |>) q lq1);
          [done|apply wset_lookup|done|by rewrite Hdq]|].
        intros [] w2 Hw2. eapply list_lists in Hw2; [|done]. eapply lists_res_mono; [exact Hw2|].
        intros n' (db2 & -> & Hdb2). split_and!; [done|done|by destruct (v =? -1)|]. rewrite Ev. exact Hdb2.
      + rstep. apply lists_res_refl; [done|apply wset_lookup|]. by apply (Hsame true); auto.
    - rstep. apply lists_res_refl; [done|apply wset_lookup|]. by apply (Hsame false); auto. }
  eapply runs_mono; [exact Hrun|]. intros [] w2 (n2 & h2 & -> & Hc2 & HL2 & Hm2 & HQ). rewrite wset_wset in *.
  exists n2, h2. split_and!; [done|done|done|by eapply mem_step_trans|done].
Qed.

Lemma db_desc_header_runs X w p n lsah :
  lsas_ok E X w → w_nbr w !! p = Some n → 1 ≤ h_type lsah < OSPF_MAX_LSA → Z.of_nat (size (w_lsas w)) + 1 < 2 ^ 64 →
  runs (db_desc_header E p lsah) w (λ _ w', ∃ h' n', w' = wset w h' p n' ∧ nbr_core n' = nbr_core n ∧ lsas_ok E X w' ∧
    mem_grows (w_lsas w) h' ∧ (size h' ≤ size (w_lsas w) + 1)%nat ∧ header_done w lsah n h' n').
Proof.
  intros HL Hp Hty Hsz. unfold db_desc_header, ospf_ls_request_new, ospf_lsa_new. rstep. apply runs_zoom.
  destruct (lsas_ok_alloc X w (req_lsa lsah) HL) as (new & h1 & Hrun1 & Hnew & Eh1 & HL1); [done|done|done|done|].
  eapply runs_run; [exact Hrun1|]. set (w1 := w <| w_lsas := h1 |>).
  assert (h1 !! new = Some (req_lsa lsah)) as Hnew1 by (rewrite Eh1; apply lookup_insert_eq).
  assert (∀ q, q ≠ new → h1 !! q = w_lsas w !! q) as Hold by (intros q Hq; rewrite Eh1; by apply lookup_insert_ne).
  unfold ospf_lsa_lookup_by_header. rstep.
  replace (h_type lsah) with (Z.of_nat (header_type lsah)) by (unfold header_type; unfold OSPF_MAX_LSA in Hty; lia).
  eapply lsa_lookup_runs; [exact HL1|unfold header_type; unfold OSPF_MAX_LSA in Hty; lia|].
  change (top_info w1 (header_type lsah) (prefix_ls (h_id lsah) (h_adv_router lsah))) with (header_find w lsah).
  rstep. apply (runs_mono _ _ (λ lf w', w' = w1 ∧ lf = (lp ← header_find w lsah; w_lsas w !! lp))).
  { destruct (header_find w lsah) as [q|] eqn:Ef; [|by rstep]. destruct (header_find_typed X w lsah q HL Ef) as (_ & l & Hl & _).
    rstep. eapply runs_read; [|rstep; split; [done|]; cbn; symmetry; exact Hl].
    apply lsa_run. rewrite <- Hl. apply Hold. congruence. }
  intros lf w1' [-> ->]. rstep. eapply runs_read; [by apply lsa_run|]. fold (verdict w lsah).
  set (v := verdict w lsah). apply runs_two. eapply runs_mono.
  { apply (header_lists_runs X w1 p n lsah v (header_find w lsah) new (req_lsa lsah)); [exact HL1|done|done|done|done|].
    intros q Hq. destruct (header_find_typed X w lsah q HL Hq) as (Htop & l & Hl & Htq). split; [exact Htop|].
    exists l. split; [|done]. rewrite <- Hl. apply Hold. congruence. }
  intros [] w3 (n3 & h3 & -> & Hc3 & HL3 & (Hst3 & Hdom3 & Hk3) & (A1 & A2 & A3 & A4)). apply runs_zoom.
  destruct (Hk3 new (req_lsa lsah) Hnew1 eq_refl) as (l3 & Hl3 & Hd3). destruct (Hst3 new _ _ Hnew1 Hl3) as (Hdata3 & _).
  destruct (lsas_ok_discard X (wset w1 h3 p n3) new HL3) as (h4 & Hrun4 & HL4 & Hst4 & Ho4 & Hs4); [by eexists|].
  eapply runs_run; [exact Hrun4|]. exists h4, n3. split; [done|]. split; [done|]. split; [exact HL4|].
  split; [|split].
  - split.
    + intros q l l' Hl Hl'. assert (q ≠ new) as Hq by congruence. rewrite Ho4 in Hl' by done.
      apply (Hst3 q l l'); [|done]. cbn. rewrite <- Hl. by apply Hold.
    + intros q l Hl Hd. assert (q ≠ new) as Hq by congruence. rewrite Ho4 by done. apply (Hk3 q l); [|done].
      cbn. rewrite <- Hl. by apply Hold.
  - transitivity (size h1).
    + apply size_mono. intros q Hq. apply Hdom3. destruct (decide (q = new)) as [->|]; [by eexists|]. by rewrite <- Ho4.
    + rewrite Eh1, map_size_insert_None by done. lia.
  - split_and!; [done|done| |done]. fold v. destruct (v =? -1); [|done].
    destruct (Hs4) as [_ [l4 Hl4]].
    { destruct HL3 as (_ & HX & _). specialize (HX new). enough (0 < cnt new (w_refs (wset w1 h3 p n3))) by lia.
      apply cnt_elem. eapply nbr_ref_elem; [apply wset_lookup|]. unfold nbr_refs.
      assert (new ∈ db_entries (n_ls_req n3)) as Hin; [|set_solver]. apply db_entries_info.
      exists (header_type lsah), (header_key lsah). rewrite A3. by rewrite decide_True. }
    exists new, l4. split_and!; [done| |done|done]. destruct (Hst4 new l3 l4 Hl3 Hl4) as (-> & _). done.
Qed.

End Refs.
