(* ===== verification/OspfAdjInv.v ===== *)
(** * OSPF: the invariant of an interface and its neighbours

    What holds of an OSPF interface whenever no function runs: the table of the neighbours, the links between them and the
    configured neighbours, the events in the queue, the timers that are set, and what is in the lists of a neighbour in
    each of its states. *)

From stdpp Require Import gmap.
From S2P Require Import Prelude Fault OspfTable OspfLsa OspfVertex OspfLsaProps OspfNbr OspfAdj OspfElect OspfAdjMem OspfAdjRefs.

Section Inv.
Context {RT : Type → Type} `{RouteTableLaws RT}.
Context (E : adj_env).

Implicit Types w v : ospf_world RT.
Implicit Types n s : ospf_neighbor RT.
Implicit Types b : ospf_nbr_nbma.

(** ** Tables, links and events *)

Definition req_events (p : nat) (es : list ospf_event) : nat := length (filter (λ e, ls_req_event_of p e = true) es).
Definition upd_events (es : list ospf_event) : nat := length (filter (λ e, is_ls_upd e = true) es).

Arguments req_events : simpl never.
Arguments upd_events : simpl never.

(** A neighbour is in the table under its key, the configured neighbour it is linked to is linked to it, and its request
    event is in the queue if and only if it is noted so. *)
Definition nbr_link w (p : nat) n : Prop :=
  rt_info (ospf_nbr_key (w_type w) n) (w_nbrs w) = Some p ∧
  (∀ q, n_nbr_nbma n = Some q → ∃ b, w_nbma w !! q = Some b ∧ nb_nbr b = Some p) ∧
  req_events p (w_events w) = if decide (n_t_ls_req n = T_event) then 1%nat else 0%nat.

Definition nbma_ok w (q : nat) b : Prop :=
  (∀ p, nb_nbr b = Some p → p ≠ w_nbr_self w ∧
    ∃ n, w_nbr w !! p = Some n ∧ n_nbr_nbma n = Some q ∧ (w_type w ≠ OSPF_IFTYPE_VIRTUALLINK → n_src n = nb_addr b)) ∧
  (is_Some (nb_nbr b) ∨ nb_t_poll b = true → nb_oi b = true) ∧ (nb_oi b = true ↔ q ∈ w_if_nbma w).

Definition nbma_tab w : Prop :=
  NoDup (w_if_nbma w) ∧
  (∀ q, q ∈ w_if_nbma w → ∃ b, w_nbma w !! q = Some b ∧ rt_info (nb_addr b) (w_nbr_nbma w) = Some q) ∧
  (∀ k q, rt_info k (w_nbr_nbma w) = Some q → ∃ b, w_nbma w !! q = Some b ∧ nb_addr b = k).

Definition event_ok w (e : ospf_event) : Prop :=
  match e with
  | Ev_ism i => ISM_NoEvent < i ≤ ISM_InterfaceDown
  | Ev_nsm p i => p ≠ w_nbr_self w ∧ is_Some (w_nbr w !! p) ∧ NSM_NoEvent < i ≤ NSM_LLDown
  | Ev_ls_req p => p ≠ w_nbr_self w ∧ is_Some (w_nbr w !! p)
  | Ev_ls_upd => True
  end.

(** The pseudo neighbour. *)
Definition self_ok s : Prop :=
  n_router_id s = e_router_id E ∧ n_src s = e_address E ∧ n_address s = e_address E ∧ n_priority s = e_priority E ∧
  n_state s = NSM_TwoWay ∧ n_nbr_nbma s = None ∧ n_t_ls_req s = T_null ∧ nbr_refs s = [] ∧
  n_t_inactivity s = false ∧ n_t_db_desc s = false ∧ n_t_hello_reply s = false.

(** An update is sent for what is queued. *)
Definition upd_ok w : Prop :=
  queue_ok w ∧ (∀ k, is_Some (rt_info k (w_ls_upd_queue w)) → w_t_ls_upd_event w = true) ∧
  upd_events (w_events w) = if w_t_ls_upd_event w then 1%nat else 0%nat.

Definition core w : Prop :=
  (∀ p n, w_nbr w !! p = Some n → nbr_link w p n) ∧
  (∀ k p, rt_info k (w_nbrs w) = Some p → ∃ n, w_nbr w !! p = Some n ∧ ospf_nbr_key (w_type w) n = k) ∧
  (∃ s, w_nbr w !! w_nbr_self w = Some s ∧ self_ok s) ∧
  (∀ q b, w_nbma w !! q = Some b → nbma_ok w q b) ∧
  nbma_tab w ∧ (∀ e, e ∈ w_events w → event_ok w e) ∧ upd_ok w.

(** ** The state of a neighbour *)

Definition dd_sent n : Prop := is_Some (n_last_send n).

(** What is set in which state. *)
Definition nbr_local n : Prop :=
  NSM_Down ≤ n_state n ≤ NSM_Full ∧ last_ok n ∧
  (n_state n ≤ NSM_ExStart → nbr_refs n = []) ∧
  (n_state n ≤ NSM_Exchange → n_ls_req_last n = None ∧ n_t_ls_req n = T_null) ∧
  (NSM_ExStart ≤ n_state n → dd_sent n) ∧
  (n_state n = NSM_ExStart → n_t_db_desc n = true) ∧
  (n_state n = NSM_Exchange → CHECK_FLAG (n_dd_flags n) OSPF_DD_FLAG_MS = true → n_t_db_desc n = true) ∧
  (n_t_db_desc n = true → n_state n = NSM_ExStart ∨ n_state n = NSM_Exchange).

(** A neighbour that has been heard of will be deleted when it is silent. *)
Definition watched w (p : nat) n : Prop :=
  NSM_Init ≤ n_state n → n_t_inactivity n = true ∨ Ev_nsm p NSM_InactivityTimer ∈ w_events w.

Definition states w : Prop :=
  ∀ p n, w_nbr w !! p = Some n → p ≠ w_nbr_self w → nbr_local n ∧ watched w p n.

Definition full_count (m : gmap nat (ospf_neighbor RT)) : nat :=
  length (filter (λ n, n_state n = NSM_Full) ((map_to_list m).*2)).
Definition full_ok w : Prop := w_full_nbrs w = u32 (Z.of_nat (full_count (w_nbr w))).

(** ** The state of the interface *)

Definition timers_ok w : Prop :=
  (w_state w = ISM_Down ∨ w_state w = ISM_Loopback → w_t_hello w = false ∧ w_t_wait w = false) ∧
  (ISM_Waiting ≤ w_state w → w_t_hello w = true) ∧
  (w_state w ≠ ISM_Waiting → w_t_wait w = false).

(** The interface does not wait for ever. *)
Definition wait_ends w : Prop :=
  w_state w = ISM_Waiting → w_t_wait w = true ∨ Ev_ism ISM_WaitTimer ∈ w_events w.

(** As designated router or backup, the interface has elected itself. *)
Definition role_ok w : Prop :=
  w_state w = ISM_DR ∨ w_state w = ISM_Backup →
  ∃ s, w_nbr w !! w_nbr_self w = Some s ∧ w_state w = ism_state E (n_d_router s) (n_bd_router s).

Definition ism_ok w : Prop := ISM_Down ≤ w_state w ≤ ISM_DR ∧ timers_ok w ∧ role_ok w.

(** [X] counts the references of other parts of the program to the LSAs. *)
Definition inv (X : nat → Z) w : Prop :=
  lsas_ok E X w ∧ core w ∧ states w ∧ full_ok w ∧ ism_ok w ∧ wait_ends w.

(** ** Changes that keep the tables and links *)

(** The neighbour is the same to the tables. *)
Definition same_link n n' : Prop :=
  n_src n' = n_src n ∧ n_router_id n' = n_router_id n ∧ n_nbr_nbma n' = n_nbr_nbma n ∧ (n_t_ls_req n' = T_event ↔ n_t_ls_req n = T_event).

Lemma same_key t n n' : same_link n n' → ospf_nbr_key t n' = ospf_nbr_key t n.
Proof. intros (S1 & S2 & _). unfold ospf_nbr_key. by rewrite S1, S2. Qed.

(** The neighbour is the same to the tables of an interface of type [t]. *)
Definition key_link (t : Z) n n' : Prop :=
  ospf_nbr_key t n' = ospf_nbr_key t n ∧ (t ≠ OSPF_IFTYPE_VIRTUALLINK → n_src n' = n_src n) ∧ n_nbr_nbma n' = n_nbr_nbma n ∧
  (n_t_ls_req n' = T_event ↔ n_t_ls_req n = T_event).

Lemma core_key w p n n' :
  core w → w_nbr w !! p = Some n → key_link (w_type w) n n' → (p = w_nbr_self w → self_ok n') →
  core (w <| w_nbr := <[p := n']> (w_nbr w) |>).
Proof.
  intros (C1 & C2 & (s & Cs & C3) & C4 & C5 & C6 & C7) Hp HS Hself. pose proof HS as (S1 & S2 & S3 & S4).
  assert (∀ r m, <[p := n']> (w_nbr w) !! r = Some m → ∃ m0, w_nbr w !! r = Some m0 ∧ key_link (w_type w) m0 m) as Hback.
  { intros r m. destruct (decide (p = r)) as [<-|].
    - rewrite lookup_insert_eq. intros [= <-]. by exists n.
    - rewrite lookup_insert_ne by done. intros Hm. exists m. by split. }
  assert (∀ r, is_Some (w_nbr w !! r) → is_Some (<[p := n']> (w_nbr w) !! r)) as Hlive.
  { intros r Hr. destruct (decide (p = r)) as [<-|]; [rewrite lookup_insert_eq; by eexists|by rewrite lookup_insert_ne]. }
  split_and!.
  - intros r m Hm. destruct (Hback r m Hm) as (m0 & Hm0 & HS0). destruct (C1 r m0 Hm0) as (L1 & L2 & L3).
    pose proof HS0 as (T1 & T2 & T3 & T4). split_and!; cbn.
    + by rewrite T1.
    + rewrite T3. apply L2.
    + rewrite L3. apply decide_ext. by rewrite T4.
  - intros k r Hr. destruct (C2 k r Hr) as (m & Hm & Hk). cbn. destruct (decide (p = r)) as [<-|].
    + exists n'. rewrite lookup_insert_eq. split; [done|]. assert (m = n) as -> by congruence. by rewrite S1.
    + exists m. by rewrite lookup_insert_ne.
  - cbn. destruct (decide (p = w_nbr_self w)) as [Hs|Hne].
    + exists n'. rewrite <- Hs at 1. rewrite lookup_insert_eq. split; [done|by apply Hself].
    + exists s. by rewrite lookup_insert_ne.
  - intros q b Hb. destruct (C4 q b Hb) as (N1 & N2 & N3). split_and!; [|done|done].
    intros r Hr. destruct (N1 r Hr) as (Hr1 & m & Hm & Hm1 & Hm2). split; [done|]. cbn.
    destruct (decide (p = r)) as [<-|].
    + exists n'. rewrite lookup_insert_eq. simplify_eq. split_and!; [done|congruence|]. intros Ht. rewrite (S2 Ht). by apply Hm2.
    + exists m. by rewrite lookup_insert_ne.
  - done.
  - intros e He. specialize (C6 e He). destruct e; cbn in *; naive_solver.
  - done.
Qed.

Lemma core_nbr w p n n' :
  core w → w_nbr w !! p = Some n → same_link n n' → (p = w_nbr_self w → self_ok n') →
  core (w <| w_nbr := <[p := n']> (w_nbr w) |>).
Proof.
  intros HC Hp HS. apply core_key with n; [done|done|]. pose proof HS as (S1 & S2 & S3 & S4). split_and!; [by apply same_key|done..].
Qed.

(** Events that are not requests or updates go into the queue. *)
Definition plain_event (e : ospf_event) : bool := match e with Ev_ism _ | Ev_nsm _ _ => true | _ => false end.

Lemma req_events_app p es es' : req_events p (es ++ es') = (req_events p es + req_events p es')%nat.
Proof. unfold req_events. by rewrite list.filter_app, length_app. Qed.
Lemma upd_events_app es es' : upd_events (es ++ es') = (upd_events es + upd_events es')%nat.
Proof. unfold upd_events. by rewrite list.filter_app, length_app. Qed.

Lemma filter_none {A} (P : A → Prop) `{∀ x, Decision (P x)} (l : list A) : Forall (λ x, ¬ P x) l → filter P l = [].
Proof. induction 1 as [|x l Hx _ IH]; [done|]. by rewrite filter_cons_False. Qed.

Lemma plain_counts p es : Forall (λ e, plain_event e = true) es → req_events p es = 0%nat ∧ upd_events es = 0%nat.
Proof.
  intros Hes. unfold req_events, upd_events.
  rewrite !filter_none; [done|..]; (eapply list.Forall_impl; [exact Hes|]); by intros [].
Qed.

Lemma core_events w es :
  core w → Forall (event_ok w) es → Forall (λ e, plain_event e = true) es →
  core (w <| w_events := w_events w ++ es |>).
Proof.
  intros (C1 & C2 & C3 & C4 & C5 & C6 & C7) He Hpl. split_and!; try done.
  - intros p n Hp. destruct (C1 p n Hp) as (L1 & L2 & L3). split_and!; [done|done|]. cbn.
    rewrite req_events_app, L3. destruct (plain_counts p es Hpl) as [-> _]. lia.
  - intros e [Hin|Hin]%elem_of_app; [by apply C6|]. rewrite list.Forall_forall in He. by apply He.
  - destruct C7 as (U1 & U2 & U3). split_and!; [done|done|]. cbn. rewrite upd_events_app, U3.
    destruct (plain_counts 0 es Hpl) as [_ ->]. lia.
Qed.

Lemma core_event w e :
  core w → event_ok w e → plain_event e = true → core (w <| w_events := w_events w ++ [e] |>).
Proof. intros HC He Hp. apply core_events; [done|by constructor|by constructor]. Qed.

(** The request timer is taken off. *)
Lemma filter_drop_count (f g : ospf_event → bool) es :
  (∀ e, g e = true → f e = false) →
  length (filter (λ e, g e = true) (filter (λ e, f e = false) es)) = length (filter (λ e, g e = true) es).
Proof.
  intros Hfg. rewrite list_filter_filter. f_equal. apply list_filter_iff. intros e. split; [by intros [? _]|].
  intros He. split; [done|by apply Hfg].
Qed.

Lemma filter_drop_zero (f : ospf_event → bool) es :
  length (filter (λ e, f e = true) (filter (λ e, f e = false) es)) = 0%nat.
Proof.
  rewrite list_filter_filter, filter_none; [done|]. apply list.Forall_forall. intros e _ [He He']. congruence.
Qed.

Lemma core_drop_req w p n n' :
  core w → w_nbr w !! p = Some n → p ≠ w_nbr_self w →
  n_src n' = n_src n → n_router_id n' = n_router_id n → n_nbr_nbma n' = n_nbr_nbma n → n_t_ls_req n' = T_null →
  core (w <| w_nbr := <[p := n']> (w_nbr w) |>
          <| w_events := if bool_decide (n_t_ls_req n = T_event)
                         then filter (λ e, ls_req_event_of p e = false) (w_events w) else w_events w |>).
Proof.
  intros HC Hp Hne S1 S2 S3 S4. pose proof HC as (C1 & C2 & (s & Cs & C3) & C4 & C5 & C6 & C7).
  set (es := if bool_decide _ then _ else _).
  assert (∀ e, e ∈ es → e ∈ w_events w) as Hsub.
  { intros e. unfold es. case_bool_decide; [|done]. by intros [_ He]%list_elem_of_filter. }
  assert (∀ r, req_events r es = if decide (r = p) then 0%nat else req_events r (w_events w)) as Hreq.
  { intros r. unfold es. destruct (C1 p n Hp) as (_ & _ & L3). destruct (decide (r = p)) as [->|Hr].
    - case_bool_decide as Ht; [apply filter_drop_zero|]. by rewrite L3, decide_False.
    - case_bool_decide as Ht; [|done]. apply filter_drop_count. intros [] He; try done. cbn in *.
      apply bool_decide_eq_true in He. apply bool_decide_eq_false. congruence. }
  assert (upd_events es = upd_events (w_events w)) as Hupd.
  { unfold es. case_bool_decide; [|done]. apply filter_drop_count. by intros []. }
  split_and!.
  - intros r m. cbn. destruct (decide (p = r)) as [<-|Hr].
    + rewrite lookup_insert_eq. intros [= <-]. destruct (C1 p n Hp) as (L1 & L2 & L3). split_and!; cbn.
      * replace (ospf_nbr_key (w_type w) n') with (ospf_nbr_key (w_type w) n); [done|]. unfold ospf_nbr_key. by rewrite S1, S2.
      * rewrite S3. done.
      * by rewrite Hreq, decide_True, S4 by done.
    + rewrite lookup_insert_ne by done. intros Hm. destruct (C1 r m Hm) as (L1 & L2 & L3). split_and!; [done|done|]. cbn.
      by rewrite Hreq, decide_False by done.
  - intros k r Hr. destruct (C2 k r Hr) as (m & Hm & Hk). cbn. destruct (decide (p = r)) as [<-|].
    + exists n'. rewrite lookup_insert_eq. split; [done|]. simplify_eq. unfold ospf_nbr_key. by rewrite S1, S2.
    + exists m. by rewrite lookup_insert_ne.
  - exists s. cbn. by rewrite lookup_insert_ne.
  - intros q b Hb. destruct (C4 q b Hb) as (N1 & N2 & N3). split_and!; [|done|done].
    intros r Hr. destruct (N1 r Hr) as (Hr1 & m & Hm & Hm1 & Hm2). split; [done|]. cbn.
    destruct (decide (p = r)) as [<-|].
    + exists n'. rewrite lookup_insert_eq. simplify_eq. split_and!; [done|congruence|]. intros Ht. rewrite S1. by apply Hm2.
    + exists m. by rewrite lookup_insert_ne.
  - done.
  - intros e He%Hsub. specialize (C6 e He).
    assert (∀ r, is_Some (w_nbr w !! r) → is_Some (<[p := n']> (w_nbr w) !! r)) as Hlive.
    { intros r Hr. destruct (decide (p = r)) as [<-|]; [rewrite lookup_insert_eq; by eexists|by rewrite lookup_insert_ne]. }
    destruct e; cbn in *; naive_solver.
  - destruct C7 as (U1 & U2 & U3). split_and!; [done|done|]. cbn. by rewrite Hupd.
Qed.

(** A configured neighbour changes, but not its links. *)
Lemma core_nbma w q b b' :
  core w → w_nbma w !! q = Some b → nb_addr b' = nb_addr b → nb_nbr b' = nb_nbr b → nb_oi b' = nb_oi b →
  (nb_t_poll b' = true → nb_oi b = true) → core (w <| w_nbma := <[q := b']> (w_nbma w) |>).
Proof.
  intros (C1 & C2 & C3 & C4 & (T1 & T2 & T3) & C6 & C7) Hq S1 S2 S3 S4.
  assert (∀ r c, w_nbma w !! r = Some c → ∃ c', <[q := b']> (w_nbma w) !! r = Some c' ∧ nb_addr c' = nb_addr c ∧ nb_nbr c' = nb_nbr c)
    as Hfw.
  { intros r c Hc. destruct (decide (q = r)) as [<-|].
    - exists b'. rewrite lookup_insert_eq. simplify_eq. done.
    - exists c. by rewrite lookup_insert_ne. }
  split_and!; try done.
  - intros p n Hp. destruct (C1 p n Hp) as (L1 & L2 & L3). split_and!; [done| |done]. intros r Hr. cbn.
    destruct (L2 r Hr) as (c & Hc & Hl). destruct (Hfw r c Hc) as (c' & Hc' & _ & Hn). exists c'. by rewrite Hn.
  - intros r c. cbn. destruct (decide (q = r)) as [<-|].
    + rewrite lookup_insert_eq. intros [= <-]. destruct (C4 q b Hq) as (N1 & N2 & N3). split_and!.
      * rewrite S1, S2. done.
      * rewrite S2, S3. intros [Hx|Hx]; [by apply N2; left|by apply S4].
      * by rewrite S3.
    + rewrite lookup_insert_ne by done. apply C4.
  - split_and!; [done| |].
    + intros r Hr. destruct (T2 r Hr) as (c & Hc & Ht). destruct (Hfw r c Hc) as (c' & Hc' & Ha & _).
      exists c'. by rewrite Ha.
    + intros k r Hr. destruct (T3 k r Hr) as (c & Hc & Ht). destruct (Hfw r c Hc) as (c' & Hc' & Ha & _).
      exists c'. by rewrite Ha.
Qed.

(** The link between a neighbour and a configured one is taken off. *)
Lemma core_unlink w p q n b n' b' :
  core w → w_nbr w !! p = Some n → n_nbr_nbma n = Some q → w_nbma w !! q = Some b →
  n_src n' = n_src n → n_router_id n' = n_router_id n → n_t_ls_req n' = n_t_ls_req n → n_nbr_nbma n' = None →
  nb_addr b' = nb_addr b → nb_nbr b' = None → nb_oi b' = nb_oi b →
  core (w <| w_nbma := <[q := b']> (w_nbma w) |> <| w_nbr := <[p := n']> (w_nbr w) |>).
Proof.
  intros HC Hp Hl Hq S1 S2 S3 S4 S5 S6 S7.
  pose proof HC as (C1 & C2 & (s & Cs & C3) & C4 & (T1 & T2 & T3) & C6 & C7).
  destruct (C1 p n Hp) as (_ & L2 & _). destruct (L2 q Hl) as (b0 & Hb0 & Hbn). assert (b0 = b) as -> by congruence.
  destruct (C4 q b Hq) as (N1 & N2 & N3). destruct (N1 p Hbn) as (Hps & _).
  assert (∀ t, ospf_nbr_key t n' = ospf_nbr_key t n) as Hkey by (intros; unfold ospf_nbr_key; by rewrite S1, S2).
  assert (∀ r c, w_nbma w !! r = Some c → ∃ c', <[q := b']> (w_nbma w) !! r = Some c' ∧ nb_addr c' = nb_addr c) as Hfw.
  { intros r c Hc. destruct (decide (q = r)) as [<-|].
    - exists b'. rewrite lookup_insert_eq. simplify_eq. done.
    - exists c. by rewrite lookup_insert_ne. }
  split_and!; try done.
  - intros r m. cbn. destruct (decide (p = r)) as [<-|Hr].
    + rewrite lookup_insert_eq. intros [= <-]. destruct (C1 p n Hp) as (L1' & _ & L3). split_and!; cbn.
      * by rewrite Hkey.
      * by rewrite S4.
      * by rewrite S3.
    + rewrite lookup_insert_ne by done. intros Hm. destruct (C1 r m Hm) as (L1' & L2' & L3). split_and!; [done| |done].
      intros q' Hq'. destruct (L2' q' Hq') as (c & Hc & Hn). cbn. destruct (decide (q = q')) as [<-|].
      * assert (c = b) as -> by congruence. congruence.
      * exists c. by rewrite lookup_insert_ne.
  - intros k r Hr. destruct (C2 k r Hr) as (m & Hm & Hk). cbn. destruct (decide (p = r)) as [<-|].
    + exists n'. rewrite lookup_insert_eq, Hkey. assert (m = n) as -> by congruence. done.
    + exists m. by rewrite lookup_insert_ne.
  - exists s. cbn. by rewrite lookup_insert_ne.
  - intros r c. cbn. destruct (decide (q = r)) as [<-|Hr].
    + rewrite lookup_insert_eq. intros [= <-]. split_and!.
      * by rewrite S6.
      * rewrite S6, S7. intros _. apply N2. left. by eexists.
      * by rewrite S7.
    + rewrite lookup_insert_ne by done. intros Hc. destruct (C4 r c Hc) as (M1 & M2 & M3). split_and!; [|done|done].
      intros p' Hp'. destruct (M1 p' Hp') as (Hs' & m & Hm & Hm1 & Hm2). split; [done|]. cbn.
      destruct (decide (p = p')) as [<-|]; [congruence|]. exists m. by rewrite lookup_insert_ne.
  - split_and!; [done| |].
    + intros r Hr. destruct (T2 r Hr) as (c & Hc & Ht). destruct (Hfw r c Hc) as (c' & Hc' & Ha).
      exists c'. by rewrite Ha.
    + intros k r Hr. destruct (T3 k r Hr) as (c & Hc & Ht). destruct (Hfw r c Hc) as (c' & Hc' & Ha).
      exists c'. by rewrite Ha.
  - intros e He. specialize (C6 e He).
    assert (∀ r, is_Some (w_nbr w !! r) → is_Some (<[p := n']> (w_nbr w) !! r)) as Hlive.
    { intros r Hr. destruct (decide (p = r)) as [<-|]; [rewrite lookup_insert_eq; by eexists|by rewrite lookup_insert_ne]. }
    destruct e; cbn in *; naive_solver.
Qed.

(** Whether a configured neighbour is linked to [p]. *)
Lemma core_unlink_opt w p n n' :
  core w → w_nbr w !! p = Some n → p ≠ w_nbr_self w →
  n_src n' = n_src n → n_router_id n' = n_router_id n → n_t_ls_req n' = n_t_ls_req n → n_nbr_nbma n' = None →
  core (w <| w_nbma := unlink (n_nbr_nbma n) (w_nbma w) |> <| w_nbr := <[p := n']> (w_nbr w) |>).
Proof.
  intros HC Hp Hps S1 S2 S3 S4. destruct (n_nbr_nbma n) as [q|] eqn:Eq; cbn [unlink].
  - pose proof HC as (C1 & _). destruct (C1 p n Hp) as (_ & L2 & _). destruct (L2 q Eq) as (b & Hb & _).
    rewrite (alter_some _ _ q b Hb). by eapply core_unlink.
  - eapply (core_nbr w p n n') in HC; [|done|split_and!; [done|done|congruence|by rewrite S3]|done]. exact HC.
Qed.

(** A neighbour without a link is taken out of the table and freed. *)
Lemma core_delete w p n :
  core w → w_nbr w !! p = Some n → p ≠ w_nbr_self w → n_nbr_nbma n = None →
  core (w <| w_nbrs := rt_set (ospf_nbr_key (w_type w) n) None (w_nbrs w) |> <| w_nbr := delete p (w_nbr w) |>
          <| w_events := filter (λ e, event_of p e = false) (w_events w) |>).
Proof.
  intros HC Hp Hps Hnl. pose proof HC as (C1 & C2 & (s & Cs & C3) & C4 & C5 & C6 & C7).
  assert (∀ r m, w_nbr w !! r = Some m → r ≠ p → ospf_nbr_key (w_type w) m ≠ ospf_nbr_key (w_type w) n) as Hkey.
  { intros r m Hm Hr Hk. destruct (C1 r m Hm) as (L1 & _). destruct (C1 p n Hp) as (L1' & _). rewrite Hk in L1. congruence. }
  split_and!; try done.
  - intros r m. cbn. intros [Hr Hm]%lookup_delete_Some. destruct (C1 r m Hm) as (L1 & L2 & L3). split_and!; cbn.
    + rewrite rt_info_set_ne; [done|]. intros Hk. by apply (Hkey r m).
    + done.
    + rewrite <- L3. unfold req_events. apply filter_drop_count. intros [] He; try done. cbn in *.
      apply bool_decide_eq_true in He. apply bool_decide_eq_false. congruence.
  - intros k r. cbn. rewrite rt_info_set. case_decide as Hk; [done|]. intros Hr. destruct (C2 k r Hr) as (m & Hm & Hkm).
    exists m. split; [|done]. rewrite lookup_delete_ne; [done|]. intros <-. assert (m = n) as -> by congruence. done.
  - exists s. cbn. by rewrite lookup_delete_ne.
  - intros q b Hb. destruct (C4 q b Hb) as (N1 & N2 & N3). split_and!; [|done|done].
    intros r Hr. destruct (N1 r Hr) as (Hrs & m & Hm & Hm1 & Hm2). split; [done|]. exists m. cbn.
    rewrite lookup_delete_ne; [done|]. intros <-. congruence.
  - intros e. cbn. intros [Hev He]%list_elem_of_filter. specialize (C6 e He).
    assert (∀ r, r ≠ p → is_Some (w_nbr w !! r) → is_Some (delete p (w_nbr w) !! r)) as Hlive
      by (intros r Hr; by rewrite lookup_delete_ne).
    destruct e as [|r i|r|]; cbn in *; try done; apply bool_decide_eq_false in Hev; naive_solver.
  - destruct C7 as (U1 & U2 & U3). split_and!; [done|done|]. cbn. rewrite <- U3. unfold upd_events. apply filter_drop_count. by intros [].
Qed.

Lemma full_count_set (m : gmap nat (ospf_neighbor RT)) p n n' :
  m !! p = Some n →
  (full_count (<[p := n']> m) + (if decide (n_state n = NSM_Full) then 1 else 0) =
   full_count m + (if decide (n_state n' = NSM_Full) then 1 else 0))%nat.
Proof.
  intros Hp. unfold full_count. rewrite <- (insert_delete_id m p n Hp) at 2. rewrite <- (insert_delete_eq m p n').
  rewrite !map_to_list_insert by apply lookup_delete_eq. rewrite !fmap_cons, !list.filter_cons. cbn [snd].
  repeat case_decide; cbn [length]; lia.
Qed.

Lemma full_count_new (m : gmap nat (ospf_neighbor RT)) p n :
  m !! p = None → n_state n ≠ NSM_Full → full_count (<[p := n]> m) = full_count m.
Proof.
  intros Hp Hn. unfold full_count. rewrite map_to_list_insert by done. rewrite fmap_cons, list.filter_cons. cbn [snd].
  by rewrite decide_False.
Qed.

Lemma full_count_delete (m : gmap nat (ospf_neighbor RT)) p n :
  m !! p = Some n → n_state n ≠ NSM_Full → full_count (delete p m) = full_count m.
Proof.
  intros Hp Hn. rewrite <- (insert_delete_id m p n Hp) at 2. by rewrite full_count_new by (apply lookup_delete_eq || done).
Qed.

Lemma nbr_delete_runs X w p n :
  lsas_ok E X w → core w → w_nbr w !! p = Some n → p ≠ w_nbr_self w → last_ok n →
  runs (ospf_nbr_delete p) w (λ _ w', ∃ h',
    w' = freed (w <| w_nbrs := rt_set (ospf_nbr_key (w_type w) n) None (w_nbrs w) |>) h' p n ∧ lsas_ok E X w' ∧ core w' ∧
    mem_step (w_lsas w) h').
Proof.
  intros HL HC Hp Hps Hlast. unfold ospf_nbr_delete. rstep. eapply runs_nbr; [done|]. rstep. rstep. rstep. rstep.
  eapply runs_mono.
  { eapply (nbr_free_runs E X); [exact HL|exact Hp|done|]. intros q Hq. destruct HC as (C1 & _).
    destruct (C1 p n Hp) as (_ & L2 & _). destruct (L2 q Hq) as (b & Hb & _). by exists b. }
  intros [] w' (h' & -> & HL' & Hm). exists h'. split_and!; [done|done| |exact Hm].
  set (n' := n <| n_nbr_nbma := None |>).
  assert (core (w <| w_nbma := unlink (n_nbr_nbma n) (w_nbma w) |> <| w_nbr := <[p := n']> (w_nbr w) |>)) as HC1
    by (by apply core_unlink_opt).
  apply (core_delete _ p n') in HC1; [|cbn; apply lookup_insert_eq|done|done].
  cbn in HC1. rewrite delete_insert_eq in HC1. exact HC1.
Qed.

(** ** The election changes the pseudo neighbour only *)

Lemma core_set_dr w s (d b : Z) es :
  core w → w_nbr w !! w_nbr_self w = Some s → Forall (event_ok w) es → Forall (λ e, plain_event e = true) es →
  core ((set_dr w s d b) <| w_events := w_events w ++ es |>).
Proof.
  intros HC Hs He Hpl. pose proof HC as (_ & _ & (s0 & Hs0 & Hok) & _). assert (s0 = s) as -> by congruence.
  apply (core_nbr w (w_nbr_self w) s (s <| n_d_router := d |> <| n_bd_router := b |>)) in HC; [|done|done|by intros _].
  apply (core_events _ es) in HC; [exact HC| |done]. eapply list.Forall_impl; [exact He|].
  assert (∀ r, is_Some (w_nbr w !! r) → is_Some (<[w_nbr_self w := s <| n_d_router := d |> <| n_bd_router := b |>]> (w_nbr w) !! r)) as Hlive.
  { intros r Hr. destruct (decide (w_nbr_self w = r)) as [<-|]; [rewrite lookup_insert_eq; by eexists|by rewrite lookup_insert_ne]. }
  intros []; cbn; naive_solver.
Qed.

Lemma core_live w : core w → nbrs_live w.
Proof. intros (_ & C2 & _) k p Hk. destruct (C2 k p Hk) as (n & Hn & _). by eexists. Qed.

Lemma adj_ok_events_ok w : core w → Forall (event_ok w) (adj_ok_events E w) ∧ Forall (λ e, plain_event e = true) (adj_ok_events E w).
Proof.
  intros HC. unfold adj_ok_events. split; apply list.Forall_forall; intros e ([p n] & -> & [Hd Hin]%list_elem_of_filter)%list_elem_of_fmap; [|done].
  apply nbr_pairs_elem in Hin. cbn in Hd |- *. split_and!; [|by eexists|done..].
  intros ->. destruct HC as (_ & _ & (s & Hs & Hok) & _). assert (n = s) as -> by congruence.
  destruct Hok as (Hr & _). unfold dr_change_of in Hd. rewrite Hr, Z.eqb_refl in Hd. cbn in Hd.
  by rewrite andb_false_r in Hd.
Qed.

End Inv.
