(* ===== verification/OspfAdjIsm.v ===== *)
(** * OSPF: elections and the state of the interface keep the invariant *)

From stdpp Require Import gmap.
From S2P Require Import Prelude Fault OspfTable OspfLsa OspfVertex OspfLsaProps OspfNbr OspfAdj OspfElect OspfAdjMem OspfAdjRefs OspfAdjInv.

Section Ism.
Context {RT : Type → Type} `{RouteTableLaws RT}.
Context (E : adj_env).

Implicit Types w v : ospf_world RT.
Implicit Types n s : ospf_neighbor RT.

(** What the tables and links depend on. *)
Definition if_view w :=
  (w_nbr w, w_nbma w, w_nbr_nbma w, w_if_nbma w, w_type w, w_nbrs w, w_nbr_self w, w_full_nbrs w, w_ls_upd_queue w,
   w_t_ls_upd_event w, w_events w).

Lemma core_view w w' : if_view w' = if_view w → core E w → core E w'.
Proof. destruct w, w'. unfold if_view. cbn. intros [=] HC. subst. exact HC. Qed.

(** No LSA has been created. *)
Definition no_alloc w w' : Prop := (size (w_lsas w') ≤ size (w_lsas w))%nat.

Lemma no_alloc_refl w w' : w_lsas w' = w_lsas w → no_alloc w w'.
Proof. unfold no_alloc. by intros ->. Qed.
#[local] Hint Extern 0 (no_alloc _ _) => apply no_alloc_refl; reflexivity : core.
Lemma no_alloc_trans w w' w'' : no_alloc w w' → no_alloc w' w'' → no_alloc w w''.
Proof. unfold no_alloc. lia. Qed.
Lemma no_alloc_step w w' : mem_step (w_lsas w) (w_lsas w') → no_alloc w w'.
Proof. intros (_ & Hd & _). by apply size_mono. Qed.

(** The network-LSA of this router is given up, or not. *)
Definition state_set w st w' : Prop :=
  if_view w' = if_view w ∧ w_state w' = st ∧ w_t_hello w' = w_t_hello w ∧ w_t_wait w' = w_t_wait w ∧ w_obuf w' = w_obuf w ∧ no_alloc w w'.

Lemma ism_change_runs X w st :
  lsas_ok E X w → runs (ism_change_state st) w (λ _ w', state_set w st w' ∧ lsas_ok E X w').
Proof.
  intros HL. unfold ism_change_state, call. rstep. rstep. rstep. rstep. rstep. rstep.
  set (w1 := (w <| w_state := st |> <| w_state_change := _ |>) <| w_calls := _ |>).
  assert (state_set w st w1 ∧ lsas_ok E X w1) as H1' by (split; [done|exact HL]). clearbody w1.
  assert (∀ (f : ospf_world RT → ospf_world RT) v, (∀ u, state_set u (w_state u) (f u)) → (∀ u, lsas_ok E X u → lsas_ok E X (f u)) →
    state_set w st v ∧ lsas_ok E X v → state_set w st (f v) ∧ lsas_ok E X (f v)) as Hstep.
  { intros f v Hf Hl [(A1 & A2 & A3 & A4 & A5 & A6) HLv]. split; [|by apply Hl]. destruct (Hf v) as (B1 & B2 & B3 & B4 & B5 & B6).
    split_and!; [congruence..|by eapply no_alloc_trans]. }
  assert (∀ c v, state_set w st v ∧ lsas_ok E X v →
    state_set w st (v <| w_calls := w_calls v ++ [c] |>) ∧ lsas_ok E X (v <| w_calls := w_calls v ++ [c] |>)) as Hcall.
  { intros c v. by apply (Hstep (λ v, v <| w_calls := w_calls v ++ [c] |>)). }
  rstep. apply (runs_mono _ _ (λ _ w', state_set w st w' ∧ lsas_ok E X w')).
  { rstep; rstep; [by apply Hcall|done]. }
  intros [] w2 H2'. rstep. apply (runs_mono _ _ (λ _ w', state_set w st w' ∧ lsas_ok E X w')).
  { rstep; [|rstep]; rstep; [| |done].
    - revert H2'. apply (Hstep (λ w, if w_act_ints w >? 0 then w <| w_act_ints := w_act_ints w - 1 |> else w)).
      + intros u. by destruct (w_act_ints u >? 0).
      + intros u Hu. by destruct (w_act_ints u >? 0).
    - revert H2'. by apply (Hstep (λ w, w <| w_act_ints := w_act_ints w + 1 |>)). }
  intros [] w3 H3'. rstep. rstep. apply (Hcall Call_router_lsa_update_area) in H3'.
  rstep. apply (runs_mono _ _ (λ _ w', state_set w st w' ∧ lsas_ok E X w')).
  { rstep; [rstep; by apply Hcall|]. rstep; [|by rstep]. destruct H3' as [(A1 & A2 & A3 & A4 & A5 & A6) HL3].
    eapply runs_mono; [by apply network_lsa_clear_runs|]. intros [] w4 (h' & cs & -> & HL4 & Hm). split; [|done].
    split_and!; [by rewrite <- A1|done..|]. eapply no_alloc_trans; [exact A6|by apply no_alloc_step]. }
  intros [] w4 H4'. rstep. by apply Hcall.
Qed.

(** The timers of the state are set. *)
Lemma ism_timer_runs X w :
  lsas_ok E X w → ISM_Down ≤ w_state w ≤ ISM_DR →
  runs ism_timer_set w (λ _ w', if_view w' = if_view w ∧ w_state w' = w_state w ∧ w_obuf w' = w_obuf w ∧
    timers_ok w' ∧ wait_ends w' ∧ lsas_ok E X w' ∧ no_alloc w w').
Proof.
  unfold ISM_Down, ISM_DR. intros HL Hst. unfold ism_timer_set, set_ism_timers. rstep. rstep.
  assert (w_state w = 1 ∨ w_state w = 2 ∨ w_state w = 3 ∨ w_state w = 4 ∨ w_state w = 5 ∨ w_state w = 6 ∨ w_state w = 7) as Hc by lia.
  unfold timers_ok, wait_ends, ISM_Down, ISM_Loopback, ISM_Waiting.
  destruct Hc as [Ec|[Ec|[Ec|[Ec|[Ec|[Ec|Ec]]]]]]; rewrite Ec; cbn [Z.eqb Pos.eqb orb];
    rstep; cbn; rewrite Ec; split_and!; first [done|lia|exact HL|intros _; by left].
Qed.

(** ** Elections *)

(** The designated routers have changed, and the neighbours have events for it. *)
Definition elected_frame w w' : Prop :=
  ∃ s d b es, w_nbr w !! w_nbr_self w = Some s ∧
    if_view w' = if_view ((set_dr w s d b) <| w_events := w_events w ++ es |>) ∧ no_alloc w w'.

Lemma adj_ism_state_range d b : ISM_DROther ≤ ism_state E d b ≤ ISM_DR.
Proof. unfold ism_state, ISM_DROther, ISM_DR, ISM_Backup. repeat case_match; lia. Qed.

(** Both halves of the event: the election, and the state it gives. *)
Lemma elect_runs X w :
  lsas_ok E X w → core E w →
  runs (ospf_dr_election E) w (λ st w', ∃ s d b es, w_nbr w !! w_nbr_self w = Some s ∧ st = ism_state E d b ∧
    w' = (set_dr w s d b) <| w_events := w_events w ++ es |> ∧ lsas_ok E X w' ∧ core E w').
Proof.
  intros HL HC. pose proof HC as (_ & _ & (s & Hs & _) & _).
  eapply runs_run; [apply (dr_election_run E w s); [by eapply core_live|done]|].
  set (r := election_result E w s). set (es := if _ || _ then _ else _). exists s, r.1, r.2, es.
  split_and!; [done..| |].
  - apply (lsas_ok_upd E X w (w_nbr_self w) s); [done|done|done].
  - destruct (adj_ok_events_ok E w HC) as [He Hp].
    apply core_set_dr; [done|done| |]; unfold es; destruct (_ || _); done || constructor.
Qed.

(** What is known after the timers have been set. *)
Definition ism_done X w' : Prop := lsas_ok E X w' ∧ core E w' ∧ ism_ok E w' ∧ wait_ends w'.

Lemma ism_finish X w w1 st :
  lsas_ok E X w1 → core E w1 → if_view w1 = if_view w → w_state w1 = w_state w →
  ISM_Down ≤ st ≤ ISM_DR → ISM_Down ≤ w_state w ≤ ISM_DR →
  (st = ISM_DR ∨ st = ISM_Backup →
    ∃ s, w_nbr w1 !! w_nbr_self w1 = Some s ∧ st = ism_state E (n_d_router s) (n_bd_router s)) →
  runs ((if st !=? w_state w1 then ism_change_state st else mret tt);; ism_timer_set) w1
    (λ _ w', ism_done X w' ∧ if_view w' = if_view w1 ∧ w_state w' = st ∧ w_obuf w' = w_obuf w1 ∧ no_alloc w1 w').
Proof.
  intros HL HC Hv Hst0 Hst Hw Hrole. rstep.
  apply (runs_mono _ _ (λ _ w', if_view w' = if_view w1 ∧ w_state w' = st ∧ w_obuf w' = w_obuf w1 ∧ lsas_ok E X w' ∧ no_alloc w1 w')).
  { destruct (Z.eqb_spec st (w_state w1)) as [->|Hne]; cbn [negb]; [by rstep|].
    eapply runs_mono; [by apply ism_change_runs|]. intros [] w2 ((A1 & A2 & A3 & A4 & A5 & A6) & HL2). done. }
  intros [] w2 (V2 & S2 & O2 & HL2 & N2). eapply runs_mono; [apply (ism_timer_runs X); [done|by rewrite S2]|].
  intros [] w3 (V3 & S3 & O3 & T3 & W3 & HL3 & N3). assert (if_view w3 = if_view w1) as V31 by congruence.
  split_and!; [|done|congruence|congruence|by eapply no_alloc_trans]. split_and!; [done|by eapply core_view| |done].
  split; [by rewrite S3, S2|split; [done|]]. intros Hdr. rewrite S3, S2 in *. destruct (Hrole Hdr) as (s & Hs & He). exists s.
  split; [|done]. assert (w_nbr w3 = w_nbr w1 ∧ w_nbr_self w3 = w_nbr_self w1) as [-> ->]; [|done].
  unfold if_view in V31. by simplify_eq.
Qed.

(** ** The table of the interface *)

Definition elects (f : ism_func) : bool :=
  match f with ism_backup_seen | ism_wait_timer | ism_neighbor_change => true | _ => false end.

Lemma ism_entry_cases st ev :
  ISM_Down ≤ st ≤ ISM_DR → ISM_NoEvent < ev ≤ ISM_InterfaceDown →
  ∃ f ns, (∀ w, ism_entry st ev w = Some ((f, ns), w)) ∧
    match f with
    | ism_ignore | ism_loop_ind => ns = ISM_Down ∨ ns = ISM_Loopback ∨ ns = st ∧ (st = ISM_Waiting → ev ≠ ISM_WaitTimer)
    | ism_interface_up => st = ISM_Down
    | ism_interface_down => ns = ISM_Down ∧ ev = ISM_InterfaceDown
    | _ => True
    end ∧
    (ev = ISM_NeighborChange → ISM_DROther ≤ st → elects f = true) ∧ (ev = ISM_InterfaceDown → f = ism_interface_down).
Proof.
  unfold ISM_Down, ISM_DR, ISM_NoEvent, ISM_InterfaceDown, ISM_Loopback, ISM_NeighborChange, ISM_DROther, ISM_Waiting, ISM_WaitTimer.
  intros Hst Hev.
  assert (st = 1 ∨ st = 2 ∨ st = 3 ∨ st = 4 ∨ st = 5 ∨ st = 6 ∨ st = 7) as Hs by lia.
  assert (ev = 1 ∨ ev = 2 ∨ ev = 3 ∨ ev = 4 ∨ ev = 5 ∨ ev = 6 ∨ ev = 7) as He by lia.
  destruct Hs as [->|[->|[->|[->|[->|[->| ->]]]]]], He as [->|[->|[->|[->|[->|[->| ->]]]]]];
    (eexists _, _; split; [intros; reflexivity|]; cbn; intuition (congruence || lia)).
Qed.

Section Events.
Context (nsm : nat → Z → fsM (ospf_world RT) unit).

Lemma ism_elect_runs X w ev f ns :
  lsas_ok E X w → core E w → ISM_Down ≤ w_state w ≤ ISM_DR →
  (∀ v : ospf_world RT, ism_entry (w_state w) ev v = Some ((f, ns), v)) → elects f = true →
  runs (ism_event E nsm ev) w (λ _ w', ism_done X w' ∧ elected_frame w w' ∧ w_obuf w' = w_obuf w).
Proof.
  intros HL HC Hst Hent Hf. unfold ism_event. rstep. rstep. rstep. eapply runs_run; [apply Hent|]. cbn [fst].
  assert (ism_run E nsm f = ospf_dr_election E) as -> by (by destruct f). rstep.
  eapply runs_mono; [by apply (elect_runs X)|]. intros st w1 (s & d & b & es & Hs & -> & -> & HL1 & HC1).
  rstep. rstep. rstep. pose proof (adj_ism_state_range d b) as Hr. unfold ISM_DROther, ISM_DR in Hr.
  assert (tst (ism_state E d b) = true) as -> by (unfold tst; destruct (Z.eqb_spec (ism_state E d b) 0); [lia|done]).
  cbn [negb]. rstep. eapply runs_mono; [eapply (ism_finish X); [exact HL1|exact HC1|reflexivity|reflexivity| | |]|].
  - unfold ISM_Down, ISM_DR. lia.
  - exact Hst.
  - intros _. exists (s <| n_d_router := d |> <| n_bd_router := b |>). split; [cbn; apply lookup_insert_eq|done].
  - intros [] w2 (D2 & V2 & _ & O2 & N2). split_and!; [done| |done]. exists s, d, b, es. by split_and!.
Qed.

Lemma ism_ignore_runs X w ev f ns :
  lsas_ok E X w → core E w → ISM_Down ≤ w_state w ≤ ISM_DR → role_ok E w →
  (∀ v : ospf_world RT, ism_entry (w_state w) ev v = Some ((f, ns), v)) → f = ism_ignore ∨ f = ism_loop_ind →
  (ns = ISM_Down ∨ ns = ISM_Loopback ∨ ns = w_state w) →
  runs (ism_event E nsm ev) w (λ _ w', ism_done X w' ∧ if_view w' = if_view w ∧ w_obuf w' = w_obuf w ∧ no_alloc w w').
Proof.
  intros HL HC Hst Hrole Hent Hf Hns. unfold ism_event. rstep. rstep. rstep. eapply runs_run; [apply Hent|]. cbn [fst].
  rstep. apply (runs_mono _ _ (λ r w', r = 0 ∧ w' = w)); [by destruct Hf as [->| ->]|]. intros r w' [-> ->].
  rstep. rstep. rstep. cbn [tst Z.eqb negb]. rstep. eapply runs_run; [apply Hent|]. cbn [snd]. rstep.
  unfold ISM_Down, ISM_Loopback, ISM_DR in *.
  eapply runs_mono; [apply (ism_finish X w w ns); [done|done|done|done|unfold ISM_Down, ISM_DR; lia|done|]|].
  - intros Hdr. destruct Hns as [->|[->| ->]]; [by destruct Hdr..|by apply Hrole].
  - intros [] w2 (D2 & V2 & _ & O2 & N2). done.
Qed.

End Events.

End Ism.
