(* ===== verification/OspfAdjNsm.v ===== *)
(** * OSPF: the events of a neighbour keep the invariant *)

From stdpp Require Import gmap.
From S2P Require Import Prelude Fault OspfTable OspfLsa OspfVertex OspfLsaProps OspfNbr OspfAdj OspfElect OspfAdjMem OspfAdjRefs OspfAdjInv OspfAdjIsm.

Section Nsm.
Context {RT : Type → Type} `{RouteTableLaws RT}.
Context (E : adj_env).

Implicit Types w v : ospf_world RT.
Implicit Types n s : ospf_neighbor RT.

#[local] Hint Extern 0 (no_alloc _ _) => apply no_alloc_refl; reflexivity : core.

(** The parts of the invariant that hold between the steps of an event. *)
Definition base X w : Prop := lsas_ok E X w ∧ core E w ∧ ism_ok E w ∧ wait_ends w.

(** What an event of [p] leaves as it is. *)
Definition frame (p : nat) w w' : Prop :=
  (∀ r, r ≠ p → r ≠ w_nbr_self w → w_nbr w' !! r = w_nbr w !! r) ∧ w_nbr_self w' = w_nbr_self w ∧ w_type w' = w_type w ∧
  (∀ e, e ∈ w_events w → ls_req_event_of p e = false → e ∈ w_events w') ∧
  (∀ q, is_Some (w_nbma w !! q) → is_Some (w_nbma w' !! q)) ∧ no_alloc w w'.

Lemma frame_refl p w : frame p w w.
Proof. by split_and!. Qed.

Lemma nsm_frame_trans p w w' w'' : frame p w w' → frame p w' w'' → frame p w w''.
Proof.
  intros (A1 & A2 & A3 & A4 & A5 & A6) (B1 & B2 & B3 & B4 & B5 & B6).
  split_and!; [|congruence|congruence|by auto|by auto|by eapply no_alloc_trans].
  intros r Hr Hs. rewrite B1 by congruence. by apply A1.
Qed.

Lemma base_self X w : base X w → ∃ s, w_nbr w !! w_nbr_self w = Some s ∧ self_ok E s.
Proof. by intros (_ & (_ & _ & ? & _) & _). Qed.

(** What the parts depend on. *)
Definition ism_view w := (w_state w, w_t_hello w, w_t_wait w).
Definition nbr_view w := (w_nbr w, w_nbma w, w_nbr_nbma w, w_if_nbma w, w_type w, w_nbrs w, w_nbr_self w, w_ls_upd_queue w,
   w_t_ls_upd_event w, w_events w).

(** Fields are changed that the invariant does not depend on. *)
Lemma base_view X w w' :
  base X w → lsas_ok E X w' → nbr_view w' = nbr_view w → ism_view w' = ism_view w →
  base X w' ∧ (no_alloc w w' → ∀ p, frame p w w').
Proof.
  intros (B1 & B2 & B3 & B4) HL. unfold nbr_view, ism_view. intros [=] [=].
  split; [|intros Hn p; destruct w, w'; cbn in *; subst; by split_and!].
  split; [done|]. destruct w, w'; cbn in *; subst. split_and!; [exact B2|exact B3|exact B4].
Qed.

(** A neighbour is changed in a way the tables and links do not depend on. *)
Lemma base_step X w w' p n n' :
  base X w → w_nbr w !! p = Some n → p ≠ w_nbr_self w → same_link n n' → lsas_ok E X w' →
  nbr_view w' = nbr_view (w <| w_nbr := <[p := n']> (w_nbr w) |>) → ism_view w' = ism_view w →
  base X w' ∧ (no_alloc w w' → frame p w w').
Proof.
  intros (B1 & B2 & (I1 & I2 & I3) & B4) Hp Hps Hl HL Hv Hi. set (w1 := w <| w_nbr := <[p := n']> (w_nbr w) |>) in *.
  assert (core E w1 ∧ ism_ok E w1 ∧ wait_ends w1) as (C1 & C2 & C3).
  { split_and!; [by eapply core_nbr| |done]. split; [exact I1|split; [exact I2|]].
    intros Hdr. destruct (I3 Hdr) as (s & Hs' & He). exists s. split; [|done]. cbn. by rewrite lookup_insert_ne. }
  assert (frame p w w1) as Hf by (split_and!; try done; intros r Hr _; cbn; by rewrite lookup_insert_ne).
  assert (ism_view w' = ism_view w1) as Hi' by done. clearbody w1. clear - HL C1 C2 C3 Hf Hi' Hv.
  unfold nbr_view, ism_view in *. destruct Hf as (F1 & F2 & F3 & F4 & F5 & _).
  destruct w1, w'. cbn in *. simplify_eq. split; [|by intros; split_and!].
  split; [done|]. split_and!; [exact C1|exact C2|exact C3].
Qed.

Lemma base_upd X w p n n' :
  base X w → w_nbr w !! p = Some n → p ≠ w_nbr_self w → same_link n n' → same_lists n n' →
  base X (w <| w_nbr := <[p := n']> (w_nbr w) |>) ∧ frame p w (w <| w_nbr := <[p := n']> (w_nbr w) |>).
Proof.
  intros HB Hp Hps Hl Hs. pose proof HB as (HL & _).
  destruct (base_step X w (w <| w_nbr := <[p := n']> (w_nbr w) |>) p n n') as [B F]; [done..|by eapply lsas_ok_upd|done|done|]. by split; [|apply F].
Qed.

(** The lists of a neighbour are changed. *)
Lemma core_same_link n n' : nbr_core n' = nbr_core n → same_link n n'.
Proof.
  intros Hc.
  split_and!; [exact (f_equal n_src Hc)|exact (f_equal n_router_id Hc)|exact (f_equal n_nbr_nbma Hc)|].
  assert (n_t_ls_req n' = n_t_ls_req n) as -> by exact (f_equal n_t_ls_req Hc). done.
Qed.

Lemma base_lists X w p n Q w' :
  base X w → w_nbr w !! p = Some n → p ≠ w_nbr_self w → lists_res E X w p n Q w' →
  base X w' ∧ frame p w w' ∧
  ∃ n' h', w' = wset w h' p n' ∧ nbr_core n' = nbr_core n ∧ Q n'.
Proof.
  intros HB Hp Hps (n' & h' & -> & Hc & HL & Hm & HQ).
  destruct (base_step X w (wset w h' p n') p n n') as [B F]; [done..|by apply core_same_link|done|done|done|].
  split_and!; [done|by apply F, no_alloc_step|]. by exists n', h'.
Qed.

(** ** The counters of the full adjacencies *)

Lemma full_change_runs X w full :
  lsas_ok E X w →
  runs (full_change full) w (λ _ w', lsas_ok E X w' ∧ nbr_view w' = nbr_view w ∧ ism_view w' = ism_view w ∧ w_obuf w' = w_obuf w ∧
    w_full_nbrs w' = u32 (if full then w_full_nbrs w + 1 else w_full_nbrs w - 1) ∧ no_alloc w w').
Proof.
  intros HL. set (c := u32 (if full then w_full_nbrs w + 1 else w_full_nbrs w - 1)).
  set (P w' := lsas_ok E X w' ∧ nbr_view w' = nbr_view w ∧ ism_view w' = ism_view w ∧ w_obuf w' = w_obuf w ∧ w_full_nbrs w' = c ∧ no_alloc w w').
  assert (∀ (c : adj_call) v, P v → P (v <| w_calls := w_calls v ++ [c] |>)) as Hcall by done.
  assert (∀ o v, P v → P (v <| w_full_vls := o |>)) as Hvls by done.
  unfold full_change, call. rstep. rstep. rstep. apply (runs_mono _ _ (λ _, P)).
  { destruct full; rstep; rstep.
    - set (w1 := _ <| w_area_full_nbrs := _ |>). assert (P w1) as H1' by done. clearbody w1.
      rstep. rstep. apply (Hcall Call_check_abr_status) in H1'. set (w2 := _ <| w_calls := _ |>) in *. clearbody w2.
      rstep. rstep. rstep. apply (runs_mono _ _ (λ _, P)).
      + destruct (w_full_vls w2) as [k|]; [|by rstep]. rstep; [|by rstep].
        rstep. rstep. apply (Hvls (Some (k + 1))) in H1'. rstep; rstep; [by apply Hcall|done].
      + intros [] w3 H3'. rstep. by apply Hcall.
    - set (w1 := _ <| w_area_full_nbrs := _ |>). assert (P w1) as H1' by done. clearbody w1.
      rstep. rstep. apply (Hcall Call_check_abr_status) in H1'. set (w2 := _ <| w_calls := _ |>) in *. clearbody w2.
      rstep. rstep. destruct (w_full_vls w2) as [k|]; [|by rstep].
      rstep; [|by rstep]. rstep. rstep. apply (Hvls (Some (k - 1))) in H1'. rstep; rstep; [by apply Hcall|done]. }
  intros [] w1 H1'. rstep. rstep. apply (Hcall Call_router_lsa_update_area) in H1'. rstep. rstep.
  rstep. apply (runs_mono _ _ (λ _, P)).
  { set (w2 := _ <| w_calls := _ |>) in *. clearbody w2. destruct (w_full_vls w2); [|by rstep]. rstep; rstep; [by apply Hcall|done]. }
  intros [] w2 H2'. rstep. rstep. rstep; [|by rstep]. rstep. rstep. rstep. rstep.
  destruct (w_network_lsa_self w2) as [lp|]; [|by rstep; apply Hcall]. rstep; [|by rstep; apply Hcall].
  destruct H2' as (P1 & P2 & P3 & P4 & P5 & P6). eapply runs_mono; [by apply network_lsa_clear_runs|].
  intros [] w3 (h' & cs & -> & HL3 & Hm). split_and!; [done..|]. eapply no_alloc_trans; [exact P6|by apply no_alloc_step].
Qed.

(** ** The neighbour between the steps *)

(** What an event of [p] may rely on after each of its steps. *)
Definition nstep X (p : nat) w n w' n' : Prop :=
  base X w' ∧ frame p w w' ∧ w_nbr w' !! p = Some n' ∧ w_full_nbrs w' = w_full_nbrs w ∧
  full_count (w_nbr w') = full_count (w_nbr w) ∧
  n_state n' = n_state n ∧ n_t_inactivity n' = n_t_inactivity n ∧ n_t_ls_req n' = n_t_ls_req n ∧ n_t_db_desc n' = n_t_db_desc n.

Lemma nstep_trans X p w n w' n' w'' n'' : nstep X p w n w' n' → nstep X p w' n' w'' n'' → nstep X p w n w'' n''.
Proof.
  intros (A1 & A2 & A3 & A4 & A5 & A6 & A7 & A8 & A9) (B1 & B2 & B3 & B4 & B5 & B6 & B7 & B8 & B9).
  split_and!; [done|by eapply nsm_frame_trans|done|congruence..].
Qed.

Lemma full_count_same (m : gmap nat (ospf_neighbor RT)) p n n' :
  m !! p = Some n → n_state n' = n_state n → full_count (<[p := n']> m) = full_count m.
Proof. intros Hp Hs. pose proof (full_count_set m p n n' Hp) as Hc. rewrite Hs in Hc. lia. Qed.

Lemma clear_adj_nstep X w p n :
  base X w → w_nbr w !! p = Some n → p ≠ w_nbr_self w → last_ok n →
  runs (nsm_clear_adj p) w (λ _ w', ∃ n', nstep X p w n w' n' ∧ nbr_core n' = nbr_core n ∧ nbr_refs n' = []).
Proof.
  intros HB Hp Hps Hlast. pose proof HB as (HL & _). eapply runs_mono; [by apply (clear_adj_runs E X)|]. intros [] w' Hw'.
  destruct (base_lists X w p n _ w' HB Hp Hps Hw') as (B' & F' & n' & h' & -> & Hc & HQ). exists n'.
  assert (n_state n' = n_state n) as Hst by exact (f_equal n_state Hc).
  split_and!; [|done|done]. split_and!; [done|done|apply wset_lookup|done| |done|..].
  - cbn. by eapply full_count_same.
  - exact (f_equal n_t_inactivity Hc).
  - exact (f_equal n_t_ls_req Hc).
  - exact (f_equal n_t_db_desc Hc).
Qed.

(** A description is sent. *)
Lemma db_desc_send_nstep X w p n :
  base X w → w_nbr w !! p = Some n → p ≠ w_nbr_self w →
  (n_state n >= NSM_Exchange ∨ CHECK_FLAG (n_dd_flags n) OSPF_DD_FLAG_M = true) →
  runs (ospf_db_desc_send E p) w (λ _ w', ∃ n' d lps n1, nstep X p w n w' n' ∧ described E w n d lps n1 ∧
    n' = n1 <| n_last_send := Some (mk_op (nbr_dst (w_type w) n) (B_db_desc d)) |> <| n_last_send_ts := e_now E |>).
Proof.
  intros HB Hp Hps HM. pose proof HB as (HL & _). destruct (base_self X w HB) as (s & Hs & _).
  eapply runs_mono; [by eapply (db_desc_send_runs E X)|]. intros [] w' (d & lps & n1 & h' & -> & HL' & Hm & Hd).
  set (n' := n1 <| n_last_send := _ |> <| n_last_send_ts := _ |>) in *. exists n', d, lps, n1. split_and!; [|done|done].
  pose proof Hd as (db' & E1 & _). assert (n_state n' = n_state n) as Hst by (unfold n'; rewrite E1; done).
  destruct (base_step X w (wset (sent w (mk_op (nbr_dst (w_type w) n) (B_db_desc d))) h' p n') p n n') as [B' F'];
    [done|done|done|unfold n'; rewrite E1; done|done|done|done|].
  split_and!; [done|by apply F', no_alloc_step|apply wset_lookup|done| |done|..]; [|unfold n'; rewrite E1; done..].
  cbn. by eapply full_count_same.
Qed.

Lemma refs_nil n : nbr_refs n = [] → db_entries (n_ls_rxmt n) = [] ∧ db_entries (n_db_sum n) = [] ∧ db_entries (n_ls_req n) = [] ∧
  n_ls_req_last n = None.
Proof.
  unfold nbr_refs. intros (? & (? & (? & Hl)%app_nil)%app_nil)%app_nil. split_and!; [done..|]. by destruct (n_ls_req_last n).
Qed.

Lemma taken_nil_entries (db db' : ospf_lsdb RT) lps : taken db lps db' → db_entries db = [] → db_entries db' = [].
Proof.
  intros Ht He. apply db_entries_nil. intros i k. rewrite Ht. by rewrite (proj1 (db_entries_nil db) He).
Qed.

Lemma exstart_nstep X w p n :
  base X w → w_nbr w !! p = Some n → p ≠ w_nbr_self w → nbr_refs n = [] →
  runs (exstart E p) w (λ _ w', ∃ n', nstep X p w n w' n' ∧ nbr_refs n' = [] ∧ dd_sent n').
Proof.
  intros HB Hp Hps Hr. unfold exstart. rstep. eapply runs_upd_nbr; [done|].
  set (n1 := n <| n_dd_seqnum := _ |> <| n_dd_flags := _ |>).
  destruct (base_upd X w p n n1 HB Hp Hps) as [B1 F1]; [done|done|].
  eapply runs_mono; [apply (db_desc_send_nstep X _ p n1); [done|cbn; apply lookup_insert_eq|done|by right]|].
  intros [] w' (n' & d & lps & n2 & Hn & (db' & E2 & Ht & _) & En). exists n'. split_and!.
  - eapply nstep_trans; [|exact Hn]. split_and!; [done|done|cbn; apply lookup_insert_eq|done| |done..].
    cbn. by eapply full_count_same.
  - apply refs_nil in Hr as (R1 & R2 & R3 & R4). rewrite En, E2. unfold nbr_refs. cbn.
    by rewrite R1, R3, R4, (taken_nil_entries _ _ _ Ht R2).
  - rewrite En. by eexists.
Qed.

(** ** The change of the state *)

(** The neighbour can go into the state [next]. *)
Definition ready n (next : Z) : Prop :=
  last_ok n ∧ (next ≤ NSM_ExStart → n_state n ≤ NSM_ExStart → nbr_refs n = []) ∧
  (next = NSM_Exchange → n_ls_req_last n = None ∧ n_t_ls_req n = T_null ∧
    (CHECK_FLAG (n_dd_flags n) OSPF_DD_FLAG_MS = true → n_t_db_desc n = true)) ∧
  (NSM_Exchange ≤ next → dd_sent n).

(** The neighbour is in a state, but its timers are not set yet. *)
Definition mid n : Prop :=
  last_ok n ∧ (n_state n ≤ NSM_ExStart → nbr_refs n = []) ∧
  (n_state n = NSM_Exchange → n_ls_req_last n = None ∧ n_t_ls_req n = T_null ∧
    (CHECK_FLAG (n_dd_flags n) OSPF_DD_FLAG_MS = true → n_t_db_desc n = true)) ∧
  (NSM_ExStart ≤ n_state n → dd_sent n).

(** The state is [next]. *)
Definition entered X (p : nat) w n (next : Z) w' n' : Prop :=
  base X w' ∧ frame p w w' ∧ full_ok w' ∧ w_nbr w' !! p = Some n' ∧ n_state n' = next ∧
  n_t_inactivity n' = n_t_inactivity n ∧ n_t_ls_req n' = n_t_ls_req n ∧ n_t_db_desc n' = n_t_db_desc n.

Lemma entered_nstep X p w n next w1 n1 w2 n2 :
  entered X p w n next w1 n1 → nstep X p w1 n1 w2 n2 → entered X p w n next w2 n2.
Proof.
  intros (A1 & A2 & A3 & A4 & A5 & A6 & A7 & A8) (B1 & B2 & B3 & B4 & B5 & B6 & B7 & B8 & B9).
  split_and!; [done|by eapply nsm_frame_trans| |done|congruence..]. unfold full_ok in *. congruence.
Qed.

Lemma last_ok_nil n : nbr_refs n = [] → last_ok n.
Proof. intros Hr lp Hl. apply refs_nil in Hr as (_ & _ & _ & Hn). congruence. Qed.

(** The first two steps: the state is stored, and the counters follow. *)
Lemma enter_runs {B} X w p n next (k : unit → fsM (ospf_world RT) B) Q :
  base X w → full_ok w → w_nbr w !! p = Some n → p ≠ w_nbr_self w →
  (∀ w', let n' := n <| n_state := next |> <| n_state_change := u32 (n_state_change n + 1) |> in
    entered X p w n next w' n' → runs (k tt) w' Q) →
  runs (upd_nbr p (λ n, n <| n_state := next |> <| n_state_change := u32 (n_state_change n + 1) |>);;
        (if xorb (n_state n =? NSM_Full) (next =? NSM_Full) then full_change (next =? NSM_Full) else mret tt) ≫= k) w Q.
Proof.
  intros HB Hfull Hp Hps HQ. rstep. eapply runs_upd_nbr; [done|].
  set (n' := n <| n_state := next |> <| n_state_change := _ |>). set (w1 := w <| w_nbr := _ |>).
  destruct (base_upd X w p n n' HB Hp Hps) as [B1 F1]; [done|done|]. fold w1 in B1, F1.
  pose proof (full_count_set (w_nbr w) p n n' Hp) as Hc. change (<[p := n']> (w_nbr w)) with (w_nbr w1) in Hc.
  change (n_state n') with next in Hc. unfold full_ok in Hfull.
  rstep. apply (runs_mono _ _ (λ _ w', entered X p w n next w' n')); [|intros [] w' Hw'; by apply HQ].
  assert (full_ok w1 → entered X p w n next w1 n') as Hsame.
  { intros Hf. split_and!; [done|done|done|cbn; apply lookup_insert_eq|done..]. }
  assert (full_count (w_nbr w1) = full_count (w_nbr w) → entered X p w n next w1 n') as Hsame'.
  { intros Hf. apply Hsame. unfold full_ok. rewrite Hf. exact Hfull. }
  assert (∀ b : bool, u32 (if b then w_full_nbrs w + 1 else w_full_nbrs w - 1) = u32 (Z.of_nat (full_count (w_nbr w1))) →
    runs (full_change b) w1 (λ _ w', entered X p w n next w' n')) as Hchg.
  { intros b Hb. pose proof B1 as (HL1 & _). eapply runs_mono; [by apply (full_change_runs X)|].
    intros [] w2 (HL2 & V2 & I2 & _ & C2 & N2). destruct (base_view X w1 w2 B1 HL2 V2 I2) as [B2 F2]. specialize (F2 N2).
    assert (w_nbr w2 = w_nbr w1) as Hn2 by (unfold nbr_view in V2; by simplify_eq).
    split_and!; [done|by eapply nsm_frame_trans| |rewrite Hn2; cbn; apply lookup_insert_eq|done..].
    unfold full_ok. rewrite C2, Hn2. exact Hb. }
  destruct (Z.eqb_spec (n_state n) NSM_Full) as [E1|E1], (Z.eqb_spec next NSM_Full) as [E2|E2]; cbn [xorb].
  - rstep. apply Hsame'. rewrite !decide_True in Hc by done. lia.
  - apply Hchg. rewrite Hfull. rewrite decide_True, decide_False in Hc by done. rewrite <- !Z.add_opp_r, u32_add. f_equal. lia.
  - apply Hchg. rewrite Hfull. rewrite decide_False, decide_True in Hc by done. rewrite u32_add. f_equal. lia.
  - rstep. apply Hsame'. rewrite !decide_False in Hc by done. lia.
Qed.

(** A step of a change of state, taken under a condition. *)
Lemma if_nstep {B} X p w n next w1 n1 (c : bool) (x : fsM (ospf_world RT) unit) (P : ospf_neighbor RT → Prop)
    (k : unit → fsM (ospf_world RT) B) Q :
  entered X p w n next w1 n1 →
  (c = true → runs x w1 (λ _ w', ∃ n', nstep X p w1 n1 w' n' ∧ P n')) → (c = false → P n1) →
  (∀ w2 n2, entered X p w n next w2 n2 → P n2 → runs (k tt) w2 Q) →
  runs ((if c then x else mret tt) ≫= k) w1 Q.
Proof.
  intros He Hx HP Hk. rstep. destruct c.
  - eapply runs_mono; [by apply Hx|]. intros [] w2 (n2 & Hn2 & HP2). eapply Hk; [|exact HP2]. by eapply entered_nstep.
  - rstep. eapply Hk; [exact He|by apply HP].
Qed.

(** ** The timers of the state *)

(** The result of the last step of an event: the state is kept and the timers fit it. *)
Definition settled X (p : nat) w n w' n' : Prop :=
  base X w' ∧ frame p w w' ∧ w_nbr w' !! p = Some n' ∧ w_full_nbrs w' = w_full_nbrs w ∧
  full_count (w_nbr w') = full_count (w_nbr w) ∧ n_state n' = n_state n ∧ last_ok n' ∧
  (NSM_Down ≤ n_state n → nbr_local n') ∧ (NSM_Down < n_state n → n_t_inactivity n' = n_t_inactivity n).

(** The timers of [n'] are those of the neighbour afterwards, and the request timer is off. *)
Lemma timers_off X w p n n' :
  base X w → w_nbr w !! p = Some n → p ≠ w_nbr_self w → same_lists n n' → same_link n n' → n_state n' = n_state n →
  last_ok n → (NSM_Down ≤ n_state n → nbr_local (n' <| n_t_ls_req := T_null |>)) →
  (NSM_Down < n_state n → n_t_inactivity n' = n_t_inactivity n) →
  runs (ls_req_timer_off p) (w <| w_nbr := <[p := n']> (w_nbr w) |>) (λ _ w', ∃ n'', settled X p w n w' n'').
Proof.
  intros HB Hp Hps Hsl Hlk Hst Hlast Hloc Hin. destruct (base_upd X w p n n' HB Hp Hps Hlk Hsl) as [B1 F1].
  set (w1 := w <| w_nbr := _ |>) in *.
  assert (w_nbr w1 !! p = Some n') as Hp1 by apply lookup_insert_eq.
  eapply ls_req_timer_off_runs; [exact Hp1|]. set (n2 := n' <| n_t_ls_req := T_null |>). exists n2.
  set (es := if bool_decide _ then _ else _).
  assert (∀ e, e ∈ w_events w1 → ls_req_event_of p e = false → e ∈ es) as Hes.
  { intros e He Hn. unfold es. case_bool_decide; [|done]. apply list_elem_of_filter. done. }
  pose proof B1 as (HL1 & HC1 & (I1 & I2 & I3) & W1).
  pose proof (core_drop_req E w1 p n' n2 HC1 Hp1 Hps eq_refl eq_refl eq_refl eq_refl) as HC2.
  split_and!.
  - split_and!; [|exact HC2| |].
    + change (lsas_ok E X (w1 <| w_nbr := <[p := n2]> (w_nbr w1) |>)). by eapply lsas_ok_upd.
    + split; [exact I1|split; [exact I2|]]. intros Hdr. destruct (I3 Hdr) as (s & Hs & Heq). exists s. split; [|done].
      cbn in Hs |- *. by rewrite lookup_insert_ne.
    + intros Hw. destruct (W1 Hw) as [Hw1|Hw1]; [by left|right]. by apply Hes.
  - eapply nsm_frame_trans; [exact F1|]. split_and!; [|done|done|done|done|done]. intros r Hr _. cbn. by rewrite lookup_insert_ne.
  - cbn. apply lookup_insert_eq.
  - done.
  - cbn. rewrite insert_insert_eq. by eapply full_count_same.
  - done.
  - destruct Hsl as (S1 & S2 & S3 & S4). intros lp. cbn. rewrite S3, S4. apply Hlast.
  - exact Hloc.
  - exact Hin.
Qed.

Lemma settled_upd X w p n n' :
  base X w → w_nbr w !! p = Some n → p ≠ w_nbr_self w → same_lists n n' → same_link n n' → n_state n' = n_state n →
  last_ok n → nbr_local n' → n_t_inactivity n' = n_t_inactivity n →
  settled X p w n (w <| w_nbr := <[p := n']> (w_nbr w) |>) n'.
Proof.
  intros HB Hp Hps Hsl Hlk Hst Hlast Hloc Hin. destruct (base_upd X w p n n' HB Hp Hps Hlk Hsl) as [B1 F1].
  split_and!; [done|done|cbn; apply lookup_insert_eq|done|cbn; by eapply full_count_same|done| |done|done].
  destruct Hsl as (S1 & S2 & S3 & S4). intros lp. rewrite S3, S4. apply Hlast.
Qed.

Lemma timer_set_runs X w p n :
  base X w → w_nbr w !! p = Some n → p ≠ w_nbr_self w → mid n → NSM_Deleted ≤ n_state n ≤ NSM_Full →
  runs (nsm_timer_set p) w (λ _ w', ∃ n', settled X p w n w' n').
Proof.
  unfold NSM_Deleted, NSM_Full. intros HB Hp Hps (M1 & M2 & M3 & M4) Hst.
  unfold nsm_timer_set. rstep. eapply runs_nbr; [done|]. cbv zeta. unfold NSM_ExStart, NSM_Exchange in *.
  assert (n_state n ≤ 6 → n_ls_req_last n = None) as Hlast0.
  { intros Hle. by apply refs_nil in M2 as (_ & _ & _ & ?). }
  assert (∀ n', n_state n' = n_state n → same_lists n n' → n_last_send n' = n_last_send n → n_state n ≤ 6 →
    n_t_db_desc n' = (n_state n =? 6) → (NSM_Down ≤ n_state n → nbr_local (n' <| n_t_ls_req := T_null |>))) as Hloc.
  { intros n' E1 (S1 & S2 & S3 & S4) Hd Hle Ht Hge. unfold nbr_local, last_ok, nbr_refs. cbn. rewrite E1, S1, S2, S3, S4, Ht.
    unfold NSM_Down, NSM_Full, NSM_ExStart, NSM_Exchange in *. split_and!; try lia.
    - done.
    - by apply M2.
    - intros _. split; [by apply Hlast0|done].
    - intros Hg. unfold dd_sent in *. cbn. rewrite Hd. by apply M4. }
  unfold NSM_Deleted, NSM_Down, NSM_Attempt, NSM_Init, NSM_TwoWay.
  destruct (Z.eqb_spec (n_state n) 1) as [E1|E1], (Z.eqb_spec (n_state n) 2) as [E2|E2]; cbn [orb]; try lia.
  3: destruct (Z.eqb_spec (n_state n) 3), (Z.eqb_spec (n_state n) 4), (Z.eqb_spec (n_state n) 5); cbn [orb]; try lia.
  1-5: rstep; eapply runs_upd_nbr; [done|]; eapply timers_off; [done..| |]; [|by unfold NSM_Down; lia || intros _];
       apply Hloc; [done|done|done|lia|cbn; symmetry; apply Z.eqb_neq; lia].
  destruct (Z.eqb_spec (n_state n) 6) as [E6|E6].
  { rstep. eapply runs_upd_nbr; [done|]. eapply timers_off; [done..| |done].
    apply Hloc; [done|done|done|lia|done]. }
  destruct (Z.eqb_spec (n_state n) 7) as [E7|E7].
  - eapply runs_upd_nbr; [done|]. eexists. eapply settled_upd; [done..| |done]. destruct (M3 E7) as (A1 & A2 & A3).
    unfold nbr_local, last_ok, nbr_refs. cbn. unfold NSM_Down, NSM_Full, NSM_ExStart, NSM_Exchange. rewrite E7.
    split_and!; try lia; try done.
    + intros _. apply M4. lia.
    + intros _ Hms. rewrite Hms. cbn. by apply A3.
  - eapply runs_upd_nbr; [done|]. eexists. eapply settled_upd; [done..| |done].
    unfold nbr_local, last_ok, nbr_refs. cbn. unfold NSM_Down, NSM_Full, NSM_ExStart, NSM_Exchange.
    split_and!; try lia; try done.
Qed.

(** ** The table of the neighbours *)

Lemma nsm_entry_cases st ev :
  NSM_Down ≤ st ≤ NSM_Full → NSM_NoEvent < ev ≤ NSM_LLDown →
  ∃ o ns, (∀ w, nsm_entry st ev w = Some ((o, ns), w)) ∧
    match o with
    | None => ns = st ∨ ns = NSM_ExStart ∧ NSM_Exchange ≤ st ∨ ns = NSM_Init ∧ NSM_TwoWay ≤ st ∨
              ns = NSM_Full ∧ st = NSM_Loading
    | Some nsm_packet_received => ns = NSM_Init ∧ st ≤ NSM_Init ∨ ns = st ∧ NSM_Init < st
    | Some nsm_start => st = NSM_Down ∧ ns = NSM_Attempt
    | Some nsm_twoway_received => st = NSM_Init ∧ ns = NSM_DependUpon
    | Some nsm_negotiation_done => st = NSM_ExStart ∧ ns = NSM_Exchange
    | Some nsm_exchange_done => st = NSM_Exchange ∧ ns = NSM_DependUpon
    | Some nsm_adj_ok => NSM_TwoWay ≤ st ∧ ns = NSM_DependUpon
    | Some nsm_kill_nbr => ns = NSM_Deleted
    end ∧
    (NSM_KillNbr ≤ ev ↔ o = Some nsm_kill_nbr) ∧ (st = NSM_ExStart → ev = NSM_NegotiationDone → ns = NSM_Exchange).
Proof.
  unfold NSM_DependUpon, NSM_Deleted, NSM_Down, NSM_Attempt, NSM_Init, NSM_TwoWay, NSM_ExStart, NSM_Exchange, NSM_Loading, NSM_Full, NSM_NoEvent,
    NSM_LLDown, NSM_KillNbr, NSM_NegotiationDone.
  intros Hst Hev.
  assert (st = 2 ∨ st = 3 ∨ st = 4 ∨ st = 5 ∨ st = 6 ∨ st = 7 ∨ st = 8 ∨ st = 9) as Hs by lia.
  assert (ev = 1 ∨ ev = 2 ∨ ev = 3 ∨ ev = 4 ∨ ev = 5 ∨ ev = 6 ∨ ev = 7 ∨ ev = 8 ∨ ev = 9 ∨ ev = 10 ∨ ev = 11 ∨ ev = 12 ∨ ev = 13)
    as He by lia.
  destruct Hs as [->|[->|[->|[->|[->|[->|[->| ->]]]]]]];
    destruct He as [->|[->|[->|[->|[->|[->|[->|[->|[->|[->|[->|[->| ->]]]]]]]]]]]];
    (eexists _, _; split; [intros; reflexivity|]; cbn; split_and!; intuition (congruence || lia)).
Qed.

Lemma ready_from n next :
  nbr_local n → (NSM_Exchange ≤ next → NSM_ExStart ≤ n_state n) →
  (next = NSM_Exchange → n_state n = NSM_ExStart ∨ n_state n = NSM_Exchange) → ready n next.
Proof.
  intros (L1 & L2 & L3 & L4 & L5 & L6 & L7 & L8) H1' H2'. unfold NSM_ExStart, NSM_Exchange in *. split_and!; [done|by auto| |by auto].
  intros He. destruct L4 as [A1 A2]; [destruct (H2' He); lia|]. split_and!; [done|done|]. intros Hms.
  destruct (H2' He) as [Es|Es]; [by apply L6|by apply L7].
Qed.

(** ** The functions of the table *)

(** What a function of the table leaves for the change to the state [next]. *)
Definition fn_done X (p : nat) w n (next : Z) w' : Prop :=
  ∃ n', base X w' ∧ frame p w w' ∧ w_nbr w' !! p = Some n' ∧ w_full_nbrs w' = w_full_nbrs w ∧
    full_count (w_nbr w') = full_count (w_nbr w) ∧ n_state n' = n_state n ∧ n_last_send n' = n_last_send n ∧
    NSM_Deleted ≤ next ≤ NSM_Full ∧ (next = NSM_Down → n_state n = NSM_Down) ∧ ready n' next ∧
    (NSM_Init ≤ next → n_t_inactivity n' = true ∨ n_t_inactivity n' = n_t_inactivity n ∧ NSM_Init ≤ n_state n).

Lemma fn_same X p w n next :
  base X w → w_nbr w !! p = Some n → nbr_local n → NSM_Deleted ≤ next ≤ NSM_Full → (next = NSM_Down → n_state n = NSM_Down) →
  (NSM_Exchange ≤ next → NSM_ExStart ≤ n_state n) →
  (next = NSM_Exchange → n_state n = NSM_ExStart ∨ n_state n = NSM_Exchange) → (NSM_Init ≤ next → NSM_Init ≤ n_state n) →
  fn_done X p w n next w.
Proof.
  intros HB Hp Hloc Hnext Hdown H1' H2' H3'. exists n. split_and!; [done|apply frame_refl|done..|lia|lia|done|by apply ready_from|].
  intros Hi. right. split; [done|by apply H3'].
Qed.

(** The poll timer of the configured neighbour [p] is linked to. *)
Lemma poll_timer_runs X w p n :
  base X w → w_nbr w !! p = Some n →
  runs (poll_timer p false) w (λ _ w', base X w' ∧ frame p w w' ∧ w_nbr w' = w_nbr w ∧ w_full_nbrs w' = w_full_nbrs w).
Proof.
  intros HB Hp. unfold poll_timer. rstep. eapply runs_nbr; [done|].
  destruct (n_nbr_nbma n) as [q|] eqn:Eq; [|rstep; split_and!; [done|apply frame_refl|done|done]].
  pose proof HB as (HL & HC & HI & HW). pose proof HC as (C1 & _). destruct (C1 p n Hp) as (_ & L2 & _).
  destruct (L2 q Eq) as (b & Hb & _). eapply runs_upd_nbma; [exact Hb|]. split_and!; [|..|done|done].
  - split_and!; [exact HL| |exact HI|exact HW]. by eapply core_nbma.
  - split_and!; [done|done|done|done| |done]. intros r Hr. cbn. destruct (decide (q = r)) as [<-|]; [rewrite lookup_insert_eq; by eexists|by rewrite lookup_insert_ne].
Qed.

Lemma packet_received_fn X w p n next :
  base X w → w_nbr w !! p = Some n → p ≠ w_nbr_self w → nbr_local n →
  (next = NSM_Init ∧ n_state n ≤ NSM_Init ∨ next = n_state n ∧ NSM_Init < n_state n ∨ next = NSM_Attempt ∧ n_state n = NSM_Down) →
  ∀ n', n' = n <| n_t_inactivity := true |> →
  base X (w <| w_nbr := <[p := n']> (w_nbr w) |>) ∧ fn_done X p w n next (w <| w_nbr := <[p := n']> (w_nbr w) |>).
Proof.
  intros HB Hp Hps Hloc Hcase n' ->. set (n' := n <| n_t_inactivity := true |>).
  destruct (base_upd X w p n n' HB Hp Hps) as [B1 F1]; [done|done|]. split; [done|]. exists n'.
  assert (nbr_local n') as Hloc' by exact Hloc. pose proof Hloc as ((L1 & L1') & _).
  unfold NSM_Init, NSM_Down, NSM_Full, NSM_Attempt in *.
  split_and!; [done|done|cbn; apply lookup_insert_eq|done|cbn; by eapply full_count_same|done|done|..|by left].
  - unfold NSM_Deleted. lia.
  - lia.
  - unfold NSM_Down. lia.
  - apply ready_from; [done| |]; unfold NSM_Exchange, NSM_ExStart; change (n_state n') with (n_state n); lia.
Qed.

(** After the poll timer has been taken off, too. *)
Lemma fn_poll X p w n next w1 w2 :
  fn_done X p w n next w1 → base X w2 → frame p w1 w2 → w_nbr w2 = w_nbr w1 → w_full_nbrs w2 = w_full_nbrs w1 →
  fn_done X p w n next w2.
Proof.
  intros (n' & A1 & A2 & A3 & A4 & A5 & A6 & A6' & A7 & A8 & A9 & A10) HB HF Hn Hf. exists n'. rewrite Hn, Hf.
  split_and!; [done|by eapply nsm_frame_trans|done..|lia|lia|done|done|done].
Qed.

Lemma exchange_done_fn X w p n :
  base X w → w_nbr w !! p = Some n → p ≠ w_nbr_self w → nbr_local n → n_state n = NSM_Exchange →
  runs (if ospf_ls_request_isempty n then mret NSM_Full else ospf_ls_req_send E p;; mret NSM_Loading) w
    (λ fs w', fn_done X p w n fs w' ∧ NSM_Loading ≤ fs).
Proof.
  intros HB Hp Hps Hloc Hst. pose proof Hloc as (L1 & L2 & _ & _ & L5 & _). pose proof HB as (HL & _).
  unfold NSM_Exchange, NSM_ExStart in *. destruct (ospf_ls_request_isempty n).
  - rstep. split; [|done]. apply fn_same; unfold NSM_Full, NSM_Deleted, NSM_Down, NSM_Exchange, NSM_ExStart, NSM_Init; try done; lia.
  - rstep. eapply runs_mono; [by apply (ls_req_send_runs E X)|]. intros [] w1 (q & h' & l & t & -> & HL1 & Hm & Hlast & Ht). rstep. split; [|done].
    set (n' := n <| n_ls_req_last := l |> <| n_t_ls_req := t |>) in *. exists n'.
    assert (base X (wset (w <| w_obuf := q |>) h' p n') ∧ frame p w (wset (w <| w_obuf := q |>) h' p n')) as [B1 F1].
    { destruct (base_step X w (wset (w <| w_obuf := q |>) h' p n') p n n') as [B F]; [done|done|done| |done|done|done|by split; [|apply F, no_alloc_step]].
      split_and!; [done|done|done|]. cbn. destruct Ht as [->|[-> ->]]; [done|]. by split. }
    split_and!; [done|done|apply wset_lookup|done|cbn; by eapply full_count_same|done|done|..];
      unfold NSM_Loading, NSM_Full, NSM_Deleted, NSM_Down, NSM_Init; try lia.
    + unfold ready, NSM_Exchange, NSM_ExStart. split_and!; [done|lia|lia|]. intros _. apply L5. lia.
    + intros _. right. split; [done|lia].
Qed.

Lemma negotiation_done_fn X w p n :
  base X w → w_nbr w !! p = Some n → p ≠ w_nbr_self w → nbr_local n → n_state n = NSM_ExStart →
  runs (negotiation_done E p) w (λ fs w', fs = 0 ∧ fn_done X p w n NSM_Exchange w').
Proof.
  intros HB Hp Hps Hloc Hst. pose proof Hloc as (_ & _ & L3 & L4 & L5 & L6 & _). pose proof HB as (HL & _).
  unfold NSM_ExStart, NSM_Exchange in *. eapply runs_mono; [by apply (negotiation_done_runs E X)|].
  intros fs w1 [-> Hw1]. split; [done|].
  destruct (base_lists X w p n _ w1 HB Hp Hps Hw1) as (B1 & F1 & n1 & h1 & -> & Hc & (S1 & S2 & S3)).
  destruct (L4 ltac:(lia)) as [A1 A2].
  assert (n_state n1 = n_state n) as Hst1 by exact (f_equal n_state Hc).
  exists n1. split_and!; [done|done|apply wset_lookup|done|cbn; by eapply full_count_same|done|exact (f_equal n_last_send Hc)|..];
    unfold NSM_Full, NSM_Deleted, NSM_Down, NSM_Init, NSM_Exchange; try lia.
  - unfold ready, NSM_Exchange, NSM_ExStart. split_and!; [|lia|..].
    + intros lp. by rewrite S2, A1.
    + intros _. rewrite S2. assert (n_t_ls_req n1 = n_t_ls_req n) as -> by exact (f_equal n_t_ls_req Hc).
      assert (n_t_db_desc n1 = n_t_db_desc n) as -> by exact (f_equal n_t_db_desc Hc). split_and!; [done|done|]. intros _. by apply L6.
    + intros _. unfold dd_sent. assert (n_last_send n1 = n_last_send n) as -> by exact (f_equal n_last_send Hc). apply L5. lia.
  - intros _. right. split; [exact (f_equal n_t_inactivity Hc)|lia].
Qed.

Lemma kill_nbr_fn X w p n :
  base X w → w_nbr w !! p = Some n → p ≠ w_nbr_self w → nbr_local n →
  runs (kill_nbr p) w (λ fs w', fs = 0 ∧ fn_done X p w n NSM_Deleted w').
Proof.
  intros HB Hp Hps Hloc. pose proof Hloc as (L1 & L2 & L3 & _). unfold kill_nbr. rstep. rstep. rstep.
  eapply runs_run; [apply assert_run; by rewrite bool_decide_eq_false_2|]. rstep. rstep. rstep. eapply runs_nbr; [done|].
  assert (fn_done X p w n NSM_Deleted w) as Hsame.
  { apply fn_same; unfold NSM_Full, NSM_Deleted, NSM_Down, NSM_Exchange, NSM_ExStart, NSM_Init; try done; lia. }
  rstep. apply (runs_mono _ _ (λ _ w', fn_done X p w n NSM_Deleted w')); [|intros; by rstep].
  destruct (n_nbr_nbma n) as [q|] eqn:Eq; [|by rstep]. rstep; [|by rstep].
  pose proof HB as (HL & HC & (I1 & I2 & I3) & HW). pose proof HC as (C1 & _). destruct (C1 p n Hp) as (_ & K2 & _).
  destruct (K2 q Eq) as (b & Hb & Hbn). rstep. eapply runs_upd_nbma; [exact Hb|]. rstep. eapply runs_upd_nbr; [exact Hp|].
  eapply runs_upd_nbma; [cbn; apply lookup_insert_eq|]. set (n' := n <| n_nbr_nbma := None |>).
  set (b' := b <| nb_nbr := None |> <| nb_state_change := n_state_change n |> <| nb_t_poll := true |>).
  set (w1 := w <| w_nbma := <[q := b']> (w_nbma w) |> <| w_nbr := <[p := n']> (w_nbr w) |>).
  assert (core E w1) as HC1 by (by eapply (core_unlink E w p q n b n' b')).
  assert (base X w1) as B1.
  { split_and!; [|done| |done].
    - change (lsas_ok E X (w <| w_nbr := <[p := n']> (w_nbr w) |>)). by eapply lsas_ok_upd.
    - split; [exact I1|split; [exact I2|]]. intros Hdr. destruct (I3 Hdr) as (s & Hs & Heq). exists s. split; [|done].
      cbn. by rewrite lookup_insert_ne. }
  assert (frame p w w1) as F1.
  { split_and!; [|done|done|done| |done].
    - intros r Hr _. cbn. by rewrite lookup_insert_ne.
    - intros r Hr. cbn. destruct (decide (q = r)) as [<-|]; [rewrite lookup_insert_eq; by eexists|by rewrite lookup_insert_ne]. }
  cbn [w_nbma set_fld set_w_nbr set_w_nbma]. rewrite insert_insert_eq.
  match goal with |- fn_done _ _ _ _ _ ?v => change v with w1 end.
  exists n'. split_and!; [done|done|cbn; apply lookup_insert_eq|done|cbn; by eapply full_count_same|done|done|..];
    unfold NSM_Full, NSM_Deleted, NSM_Down, NSM_Init in *; try lia.
  apply (ready_from n'); [exact Hloc|unfold NSM_Exchange; lia|unfold NSM_Exchange; lia].
Qed.

Lemma should_adj_states (adj : bool) n :
  let st := if (n_state n =? NSM_TwoWay) && adj then NSM_ExStart
            else if (n_state n >=? NSM_ExStart) && negb adj then NSM_TwoWay else n_state n in
  NSM_TwoWay ≤ n_state n → st = n_state n ∨ st = NSM_ExStart ∧ n_state n = NSM_TwoWay ∨ st = NSM_TwoWay ∧ NSM_ExStart ≤ n_state n.
Proof.
  cbv zeta. intros Hst. destruct (Z.eqb_spec (n_state n) NSM_TwoWay) as [Es|Es]; cbn [andb].
  - destruct adj; [by right; left|]. rewrite Es. by left.
  - destruct (Z.geb_spec (n_state n) NSM_ExStart); cbn [andb]; [|by left]. destruct adj; cbn [negb]; [by left|]. right. right. done.
Qed.

Lemma nsm_run_runs X w p n f ev ns :
  base X w → w_nbr w !! p = Some n → p ≠ w_nbr_self w → nbr_local n → NSM_NoEvent < ev ≤ NSM_LLDown →
  (∀ v : ospf_world RT, nsm_entry (n_state n) ev v = Some ((Some f, ns), v)) →
  runs (nsm_run E f p) w (λ fs w',
    let next := if ns =? NSM_DependUpon then fs else ns in
    fn_done X p w n next w' ∧ (f ≠ nsm_kill_nbr → next ≠ NSM_Deleted)).
Proof.
  intros HB Hp Hps Hloc Hev Hent. pose proof Hloc as ((L1a & L1b) & L2 & L3 & L4 & L5 & L6 & L7 & L8).
  destruct (nsm_entry_cases (n_state n) ev) as (o & ns' & Hent' & Hcase & _); [done|done|].
  specialize (Hent w). specialize (Hent' w). rewrite Hent in Hent'. injection Hent' as <- <-.
  destruct (base_self X w HB) as (s & Hs & _).
  unfold nsm_run. rstep. eapply runs_nbr; [done|]. rstep. eapply runs_self; [done|]. rstep. rstep.
  unfold NSM_DependUpon, NSM_Deleted, NSM_Down, NSM_Attempt, NSM_Init, NSM_TwoWay, NSM_ExStart, NSM_Exchange, NSM_Loading, NSM_Full in Hcase, L1a, L1b |- *.
  destruct f.
  - (* a packet has been received *)
    destruct (packet_received_fn X w p n ns HB Hp Hps Hloc) with (n' := n <| n_t_inactivity := true |>) as [B1 D1];
      [unfold NSM_Init, NSM_Attempt, NSM_Down; lia|done|].
    replace (ns =? 0) with false by (symmetry; apply Z.eqb_neq; lia).
    rstep. eapply runs_upd_nbr; [done|]. rstep.
    apply (runs_mono _ _ (λ _ w', fn_done X p w n ns w')); [|intros; rstep; by split; [|lia]]. rstep; [|by rstep].
    eapply runs_mono; [by eapply (poll_timer_runs X); [|cbn; apply lookup_insert_eq]|].
    intros [] w2 (B2 & F2 & N2 & C2). by eapply fn_poll.
  - (* a neighbour is tried *)
    destruct Hcase as [Hst ->]. rstep.
    eapply runs_mono; [by eapply (poll_timer_runs X)|]. intros [] w1 (B1 & F1 & N1 & C1).
    assert (w_nbr w1 !! p = Some n) as Hp1 by (by rewrite N1). assert (p ≠ w_nbr_self w1) as Hps1 by (destruct F1 as (_ & -> & _); done).
    destruct (packet_received_fn X w1 p n 3 B1 Hp1 Hps1 Hloc) with (n' := n <| n_t_inactivity := true |>) as [B2 D2];
      [unfold NSM_Init, NSM_Attempt, NSM_Down; lia|done|].
    rstep. eapply runs_upd_nbr; [done|]. rstep. cbn [Z.eqb]. split; [|done].
    destruct D2 as (n' & A1 & A2 & A3 & A4 & A5 & A6 & A6' & A7 & A8 & A9 & A10). exists n'.
    split_and!; [done|by eapply nsm_frame_trans|done|congruence|congruence|done|done|lia|lia|done|done|done].
  - destruct Hcase as [Hst ->]. rstep. cbn [Z.eqb]. split; [|by case_match].
    destruct (nsm_should_adj E n s (w_type w)); apply fn_same; unfold NSM_Full, NSM_Deleted, NSM_Down, NSM_Exchange, NSM_ExStart, NSM_Init; try done; lia.
  - destruct Hcase as [Hst ->]. eapply runs_mono; [by apply (negotiation_done_fn X w p n)|]. intros fs w1 [_ D1]. by split.
  - destruct Hcase as [Hst ->]. eapply runs_mono; [by apply (exchange_done_fn X w p n)|]. intros fs w1 [D1 D1']. split; [exact D1|]. cbn. unfold NSM_Loading in D1'. lia.
  - destruct Hcase as [Hst ->]. rstep. cbn [Z.eqb].
    destruct (should_adj_states (nsm_should_adj E n s (w_type w)) n Hst) as [Est|[[Est Est']|[Est Est']]];
      unfold NSM_TwoWay, NSM_ExStart in Est; rewrite Est; (split; [|lia]); apply fn_same;
      unfold NSM_Full, NSM_Deleted, NSM_Down, NSM_Exchange, NSM_ExStart, NSM_Init, NSM_TwoWay in *; try done; lia.
  - rewrite Hcase. eapply runs_mono; [by apply (kill_nbr_fn X w p n)|]. intros fs w1 [_ D1]. by split.
Qed.

Section Event.
Context (ism : Z → fsM (ospf_world RT) unit).
Context (Hism : ∀ X w, lsas_ok E X w → core E w → ISM_DROther ≤ w_state w ≤ ISM_DR →
  runs (ism ISM_NeighborChange) w (λ _ w', ism_done E X w' ∧ elected_frame w w' ∧ w_obuf w' = w_obuf w)).

Lemma elected_nstep X p w n w' :
  w_nbr w !! p = Some n → p ≠ w_nbr_self w → ism_done E X w' → elected_frame w w' → nstep X p w n w' n.
Proof.
  intros Hp Hps (D1 & D2 & D3 & D4) (s & d & b & es & Hs & Hv & Hna).
  assert (w_nbr w' = <[w_nbr_self w := s <| n_d_router := d |> <| n_bd_router := b |>]> (w_nbr w) ∧ w_events w' = w_events w ++ es ∧
    w_nbma w' = w_nbma w ∧ w_nbr_self w' = w_nbr_self w ∧ w_type w' = w_type w ∧ w_full_nbrs w' = w_full_nbrs w)
    as (V1 & V2 & V3 & V4 & V5 & V6).
  { unfold if_view in Hv. cbn in Hv. injection Hv. intros. by split_and!. }
  split_and!; [done| | |done| |done..].
  - split_and!; [|done|done| | |done].
    + intros r Hr Hrs. rewrite V1. by rewrite lookup_insert_ne.
    + intros e He _. rewrite V2. apply elem_of_app. by left.
    + intros q Hq. by rewrite V3.
  - rewrite V1. by rewrite lookup_insert_ne.
  - rewrite V1. by eapply full_count_same.
Qed.

Lemma change_state_runs X w p n next :
  base X w → full_ok w → w_nbr w !! p = Some n → p ≠ w_nbr_self w → ready n next →
  runs (nsm_change_state E ism p next) w (λ _ w', ∃ n', entered X p w n next w' n' ∧ mid n').
Proof.
  intros HB Hfull Hp Hps (R1 & R2 & R3 & R4). unfold nsm_change_state. rstep. eapply runs_nbr; [done|]. cbv zeta.
  eapply enter_runs; [done..|]. intros w1 n1 He1.
  (* the lists of an adjacency that is given up *)
  set (P2 n2 := last_ok n2 ∧ (next ≤ NSM_ExStart → nbr_refs n2 = []) ∧
    (NSM_ExStart < next → n2 = n1)).
  eapply (if_nstep X p w n next w1 n1 _ _ P2); [done| | |].
  { intros [Hold Hnew]%andb_true_iff. pose proof He1 as (B1 & F1 & _ & Hp1 & _). pose proof F1 as (_ & Fs & _).
    eapply runs_mono; [apply (clear_adj_nstep X w1 p n1); [done|done|congruence|exact R1]|].
    intros [] w2 (n2 & Hn2 & _ & Hr2). exists n2. split; [done|].
    split_and!; [by apply last_ok_nil|done|]. apply Z.leb_le in Hnew. lia. }
  { intros [Hold|Hnew]%andb_false_iff; split_and!; try exact R1; try done.
    - intros Hle. apply R2; [done|]. rewrite Z.gtb_ltb in Hold. by apply Z.ltb_ge in Hold.
    - intros Hle. apply Z.leb_gt in Hnew. lia. }
  intros w2 n2 He2 (Q1 & Q2 & Q3).
  (* the first description *)
  set (P3 n3 := last_ok n3 ∧ (next ≤ NSM_ExStart → nbr_refs n3 = []) ∧ (NSM_ExStart < next → n3 = n1) ∧
    (next = NSM_ExStart → dd_sent n3)).
  eapply (if_nstep X p w n next w2 n2 _ _ P3); [done| | |].
  { intros Heq%Z.eqb_eq. pose proof He2 as (B2 & F2 & _ & Hp2 & _). pose proof F2 as (_ & Fs & _).
    eapply runs_mono; [apply (exstart_nstep X w2 p n2); [done|done|congruence|apply Q2; lia]|].
    intros [] w3 (n3 & Hn3 & Hr3 & Hd3). exists n3. split; [done|]. split_and!; [by apply last_ok_nil|done|lia|done]. }
  { intros Hne%Z.eqb_neq. split_and!; [done|done|done|lia]. }
  intros w3 n3 He3 (S1 & S2 & S3 & S4).
  assert (mid n3) as Hmid.
  { pose proof He3 as (_ & _ & _ & _ & Est & _). unfold mid. rewrite Est. unfold NSM_ExStart, NSM_Exchange in *. split_and!; [done|done| |].
    - intros ->. rewrite (S3 ltac:(lia)). destruct (R3 eq_refl) as (? & ? & ?). by split_and!.
    - intros Hge. destruct (Z.eq_dec next 6) as [->|Hne]; [by apply S4|]. rewrite (S3 ltac:(lia)). apply R4. lia. }
  (* a neighbour that is down *)
  eapply (if_nstep X p w n next w3 n3 _ _ mid); [done| |done|].
  { intros Heq. pose proof He3 as (B3 & F3 & _ & Hp3 & _). pose proof F3 as (_ & Fs & _). eapply runs_upd_nbr; [done|].
    set (n4 := n3 <| n_crypt_seqnum := 0 |>). exists n4. split; [|exact Hmid].
    destruct (base_upd X w3 p n3 n4 B3 Hp3) as [B4 F4]; [congruence|done|done|].
    split_and!; [done|done|cbn; apply lookup_insert_eq|done| |done..]. cbn. by eapply full_count_same. }
  intros w4 n4 He4 Hmid4. rstep. rstep. rstep; [|rstep; by exists n4]. rstep; [|rstep; by exists n4].
  pose proof He4 as (B4 & F4 & _ & Hp4 & _). pose proof F4 as (_ & Fs & _). pose proof B4 as (HL4 & HC4 & _).
  eapply runs_mono; [apply (Hism X); [done|done|]|].
  - unfold ISM_DROther, ISM_DR, ISM_Backup in *. lia.
  - intros [] w5 (D5 & E5 & _). exists n4. split; [|done]. eapply entered_nstep; [exact He4|].
    eapply elected_nstep; [done|congruence|done|done].
Qed.

(** What an event of [p] leaves as it is, also when it deletes [p]. *)
Definition xframe (p : nat) w w' : Prop :=
  (∀ r, r ≠ p → r ≠ w_nbr_self w → w_nbr w' !! r = w_nbr w !! r) ∧ w_nbr_self w' = w_nbr_self w ∧ w_type w' = w_type w ∧
  (∀ e, e ∈ w_events w → event_of p e = false → e ∈ w_events w') ∧ no_alloc w w'.

Lemma frame_xframe p w w' : frame p w w' → xframe p w w'.
Proof.
  intros (A1 & A2 & A3 & A4 & A5 & A6). split_and!; [done..| |done]. intros e He Hev. apply A4; [done|]. by destruct e.
Qed.

Lemma xframe_trans p w w' w'' : xframe p w w' → xframe p w' w'' → xframe p w w''.
Proof.
  intros (A1 & A2 & A3 & A4 & A5) (B1 & B2 & B3 & B4 & B5). split_and!; [|congruence|congruence|by auto|by eapply no_alloc_trans].
  intros r Hr Hs. rewrite B1 by congruence. by apply A1.
Qed.

(** The neighbour is taken out of the table and freed. *)
Lemma deleted_runs X w p n :
  base X w → full_ok w → w_nbr w !! p = Some n → p ≠ w_nbr_self w → last_ok n → n_state n ≠ NSM_Full →
  runs (ospf_nbr_delete p) w (λ _ w', base X w' ∧ full_ok w' ∧ xframe p w w' ∧ w_nbr w' !! p = None).
Proof.
  intros HB Hfull Hp Hps Hlast Hst. pose proof HB as (HL & HC & (I1 & I2 & I3) & HW).
  eapply runs_mono; [by eapply (nbr_delete_runs E X)|]. intros [] w' (h' & -> & HL' & HC' & Hm).
  split_and!.
  - split_and!; [done|done| |].
    + split; [exact I1|split; [exact I2|]]. intros Hdr. destruct (I3 Hdr) as (s & Hs & Heq). exists s. split; [|done].
      cbn. by rewrite lookup_delete_ne.
    + intros Hw. destruct (HW Hw) as [Hw1|Hw1]; [by left|right]. cbn. by apply list_elem_of_filter.
  - unfold full_ok in *. cbn. by rewrite (full_count_delete _ p n).
  - split_and!; [|done|done| |by apply no_alloc_step].
    + intros r Hr _. cbn. by rewrite lookup_delete_ne.
    + intros e He Hev. cbn. by apply list_elem_of_filter.
  - cbn. apply lookup_delete_eq.
Qed.

(** The end of an event: the timers are set, and a neighbour in the state Deleted is deleted. *)
Lemma event_end X w p n :
  base X w → full_ok w → w_nbr w !! p = Some n → p ≠ w_nbr_self w → mid n → NSM_Deleted ≤ n_state n ≤ NSM_Full →
  runs (nsm_timer_set p;; n ← nbr p; if n_state n =? NSM_Deleted then ospf_nbr_delete p else mret tt) w (λ _ w',
    base X w' ∧ full_ok w' ∧ xframe p w w' ∧
    if n_state n =? NSM_Deleted then w_nbr w' !! p = None
    else ∃ n', w_nbr w' !! p = Some n' ∧ n_state n' = n_state n ∧ nbr_local n' ∧
      (NSM_Down < n_state n → n_t_inactivity n' = n_t_inactivity n) ∧
      (∀ e, e ∈ w_events w → ls_req_event_of p e = false → e ∈ w_events w')).
Proof.
  intros HB Hfull Hp Hps Hmid Hst. rstep. eapply runs_mono; [by eapply (timer_set_runs X)|].
  intros [] w1 (n1 & B1 & F1 & P1 & C1 & K1 & S1 & L1 & G1 & T1). rstep. eapply runs_nbr; [done|]. rewrite S1.
  assert (full_ok w1) as Hfull1 by (unfold full_ok in *; congruence).
  assert (p ≠ w_nbr_self w1) as Hps1 by (destruct F1 as (_ & -> & _); done).
  destruct (Z.eqb_spec (n_state n) NSM_Deleted) as [Es|Es].
  - eapply runs_mono; [apply (deleted_runs X w1 p n1); [done..|rewrite S1, Es; done]|].
    intros [] w2 (B2 & Fu2 & F2 & N2). split_and!; [done|done| |done]. eapply xframe_trans; [by apply frame_xframe|done].
  - rstep. split_and!; [done|done|by apply frame_xframe|]. exists n1. unfold NSM_Deleted, NSM_Down in *.
    split_and!; [done|done|apply G1; lia|done|]. by destruct F1 as (_ & _ & _ & ? & _).
Qed.

(** What an event of [p] has done to it. *)
Definition nbr_after (ev : Z) n w' (p : nat) : Prop :=
  if NSM_KillNbr <=? ev then w_nbr w' !! p = None
  else ∃ n', w_nbr w' !! p = Some n' ∧ nbr_local n' ∧ watched w' p n' ∧
    (n_state n = NSM_ExStart → ev = NSM_NegotiationDone → n_state n' = NSM_Exchange).

Lemma ready_mid n : ready n (n_state n) → (NSM_ExStart ≤ n_state n → dd_sent n) → mid n.
Proof. intros (R1 & R2 & R3 & R4) Hd. split_and!; auto. Qed.

Lemma nsm_event_runs X w p n ev :
  base X w → full_ok w → w_nbr w !! p = Some n → p ≠ w_nbr_self w → nbr_local n → NSM_NoEvent < ev ≤ NSM_LLDown →
  (ev < NSM_KillNbr → watched w p n) →
  runs (nsm_event E ism p ev) w (λ _ w', base X w' ∧ full_ok w' ∧ xframe p w w' ∧ nbr_after ev n w' p).
Proof.
  intros HB Hfull Hp Hps Hloc Hev Hwatch. pose proof Hloc as (L1 & L2 & L3 & L4 & L5 & L6 & L7 & L8).
  destruct (nsm_entry_cases (n_state n) ev L1 Hev) as (o & ns & Hent & Hcase & Hkill & Hneg).
  unfold nsm_event. rstep. eapply runs_nbr; [done|]. rstep. eapply runs_run; [apply Hent|]. cbn [fst snd].
  rstep. apply (runs_mono _ _ (λ next w', fn_done X p w n next w' ∧ (o ≠ Some nsm_kill_nbr → next ≠ NSM_Deleted) ∧
    (o = Some nsm_kill_nbr → next = NSM_Deleted) ∧ (n_state n = NSM_ExStart → ev = NSM_NegotiationDone → next = NSM_Exchange))).
  { destruct o as [f|].
    - rstep. eapply runs_mono; [by eapply (nsm_run_runs X w p n f ev ns)|]. intros fs w1 [D1 D2].
      pose proof D1 as (n1 & _ & _ & P1 & _ & _ & S1 & _). rstep. eapply runs_nbr; [done|]. rewrite S1.
      rstep. eapply runs_run; [apply Hent|]. rstep. cbn [snd]. split_and!; [done|intros Hne; apply D2; congruence| |].
      + intros [= ->]. rewrite Hcase. done.
      + intros Hs He. by rewrite (Hneg Hs He).
    - rstep. split_and!; [|intros _|done|by intros Hs He; apply Hneg].
      + unfold NSM_Deleted, NSM_Down, NSM_Attempt, NSM_Init, NSM_TwoWay, NSM_ExStart, NSM_Exchange, NSM_Loading, NSM_Full in *.
        apply fn_same; unfold NSM_Full, NSM_Deleted, NSM_Down, NSM_Exchange, NSM_ExStart, NSM_Init, NSM_TwoWay; try done; lia.
      + unfold NSM_Deleted, NSM_Down, NSM_Attempt, NSM_Init, NSM_TwoWay, NSM_ExStart, NSM_Exchange, NSM_Loading, NSM_Full in *. lia. }
  intros next w1 (D1 & Hnk & Hk & Hn). destruct D1 as (n1 & B1 & F1 & P1 & C1 & K1 & S1 & Hsend & Hrange & Hdn & Hready & Hin).
  assert (full_ok w1) as Hfull1 by (unfold full_ok in *; congruence).
  assert (p ≠ w_nbr_self w1) as Hps1 by (destruct F1 as (_ & -> & _); done).
  rstep. eapply runs_run; [apply assert_run; unfold NSM_DependUpon, NSM_Deleted in *; destruct (Z.eqb_spec next 0); [lia|done]|].
  rstep. eapply runs_nbr; [done|].
  rstep. apply (runs_mono _ _ (λ _ w', ∃ n2, base X w' ∧ frame p w1 w' ∧ full_ok w' ∧ w_nbr w' !! p = Some n2 ∧ n_state n2 = next ∧
    n_t_inactivity n2 = n_t_inactivity n1 ∧ mid n2)).
  { destruct (Z.eqb_spec next (n_state n1)) as [Es|Es]; cbn [negb].
    - rstep. exists n1. split_and!; [done|apply frame_refl|done..|]. apply ready_mid; [by rewrite <- Es|].
      unfold dd_sent. rewrite S1, Hsend. exact L5.
    - eapply runs_mono; [by eapply (change_state_runs X)|]. intros [] w2 (n2 & (A1 & A2 & A3 & A4 & A5 & A6 & _) & Hmid). by exists n2. }
  intros [] w2 (n2 & B2 & F2 & Fu2 & P2 & S2 & T2 & Hmid).
  assert (p ≠ w_nbr_self w2) as Hps2 by (destruct F2 as (_ & -> & _); done).
  eapply runs_mono; [apply (event_end X w2 p n2); [done..|by rewrite S2]|].
  intros [] w3 (B3 & Fu3 & F3 & A3). split_and!; [done|done| |].
  { eapply xframe_trans; [apply frame_xframe; by eapply nsm_frame_trans|done]. }
  rewrite S2 in A3. unfold nbr_after. destruct (Z.leb_spec NSM_KillNbr ev) as [Hle|Hgt].
  - rewrite (Hk (proj1 Hkill Hle)) in A3. done.
  - assert (next ≠ NSM_Deleted) as Hnd by (apply Hnk; intros Ho; apply Hkill in Ho; lia).
    destruct (Z.eqb_spec next NSM_Deleted) as [|_]; [done|]. destruct A3 as (n3 & P3 & S3 & L3' & T3 & E3).
    exists n3. split_and!; [done|done| |].
    + intros Hinit. rewrite S3 in Hinit. unfold NSM_Down, NSM_Init in *. rewrite (T3 ltac:(lia)), T2.
      destruct (Hin Hinit) as [Hi|[Hi Hi']]; [by left|]. rewrite Hi. destruct (Hwatch Hgt Hi') as [|He]; [by left|].
      right. apply E3; [|done]. destruct F1 as (_ & _ & _ & F1 & _). destruct F2 as (_ & _ & _ & F2 & _). apply F2; [by apply F1|done].
    + intros Hs He. rewrite S3. by apply Hn.
Qed.

End Event.

End Nsm.
