(* ===== verification/OspfAdjIf.v ===== *)
(** * OSPF: the events of an interface keep the invariant *)

From stdpp Require Import gmap.
From S2P Require Import Prelude Fault OspfTable OspfLsa OspfVertex OspfLsaProps OspfNbr OspfAdj OspfElect OspfAdjMem OspfAdjRefs OspfAdjInv OspfAdjIsm OspfAdjNsm.

Section If.
Context {RT : Type → Type} `{RouteTableLaws RT}.
Context (E : adj_env).

Implicit Types w v : ospf_world RT.
Implicit Types n s m : ospf_neighbor RT.
Implicit Types b : ospf_nbr_nbma.

(** ** Steps that change neither the states nor the timers *)

(** The neighbour is the same to the state machines. *)
Definition same_state n n' : Prop :=
  (nbr_local n → nbr_local n') ∧ n_state n' = n_state n ∧ (n_t_inactivity n = true → n_t_inactivity n' = true).

Lemma inv_step X w w' :
  inv E X w → lsas_ok E X w' → core E w' → w_nbr_self w' = w_nbr_self w → ism_view w' = ism_view w →
  w_full_nbrs w' = w_full_nbrs w → full_count (w_nbr w') = full_count (w_nbr w) →
  (∀ e, e ∈ w_events w → plain_event e = true → e ∈ w_events w') →
  w_nbr w' !! w_nbr_self w = w_nbr w !! w_nbr_self w →
  (∀ r m', w_nbr w' !! r = Some m' → r ≠ w_nbr_self w →
    (∃ m, w_nbr w !! r = Some m ∧ same_state m m') ∨ nbr_local m' ∧ n_state m' < NSM_Init) →
  inv E X w'.
Proof.
  intros (_ & _ & I3 & I4 & (I5 & I6 & I7) & I8) HL HC Hs Hv Hf Hc He Hself Hn.
  assert (w_state w' = w_state w ∧ w_t_hello w' = w_t_hello w ∧ w_t_wait w' = w_t_wait w) as (V1 & V2 & V3)
    by (unfold ism_view in Hv; by simplify_eq).
  split_and!; [done|done| | | |].
  - intros r m' Hm' Hr. rewrite Hs in Hr. destruct (Hn r m' Hm' Hr) as [(m & Hm & S1 & S2 & S3)|[HLm Hst]].
    + destruct (I3 r m Hm Hr) as [L W]. split; [by apply S1|]. intros Hi. rewrite S2 in Hi. destruct (W Hi) as [Ht|Ht].
      * left. by apply S3.
      * right. by apply He.
    + split; [done|]. intros Hi. lia.
  - unfold full_ok in *. congruence.
  - split; [by rewrite V1|split].
    + unfold timers_ok in *. by rewrite V1, V2, V3.
    + unfold role_ok in *. by rewrite V1, Hs, Hself.
  - unfold wait_ends in *. rewrite V1, V3. intros Hw. destruct (I8 Hw) as [|Hin]; [by left|right; by apply He].
Qed.

Lemma adj_inv_base X w : inv E X w → base E X w ∧ full_ok w ∧ states w.
Proof. intros (I1 & I2 & I3 & I4 & I5 & I6). by split_and!. Qed.

(** A neighbour is changed in a way that the state machines and the tables do not depend on. *)
Lemma inv_key X w p n n' :
  inv E X w → w_nbr w !! p = Some n → p ≠ w_nbr_self w → key_link (w_type w) n n' → same_lists n n' → same_state n n' →
  inv E X (w <| w_nbr := <[p := n']> (w_nbr w) |>).
Proof.
  intros HI Hp Hps Hl Hsl Hst. pose proof HI as (HL & HC & _).
  apply (inv_step X w); [done|by eapply lsas_ok_upd|by eapply core_key|done|done|done| |done| |].
  - cbn. eapply full_count_same; [done|]. apply Hst.
  - cbn. by rewrite lookup_insert_ne.
  - intros r m'. cbn. destruct (decide (p = r)) as [<-|].
    + rewrite lookup_insert_eq. intros [= <-] _. left. by exists n.
    + rewrite lookup_insert_ne by done. intros Hm _. left. exists m'. done.
Qed.

Lemma inv_upd X w p n n' :
  inv E X w → w_nbr w !! p = Some n → p ≠ w_nbr_self w → same_link n n' → same_lists n n' → same_state n n' →
  inv E X (w <| w_nbr := <[p := n']> (w_nbr w) |>).
Proof.
  intros HI Hp Hps Hl. eapply inv_key; [done..|]. pose proof Hl as (S1 & S2 & S3 & S4). split_and!; [by apply same_key|done..].
Qed.

Lemma inv_upd_runs X w p n (f : ospf_neighbor RT → ospf_neighbor RT) (Q : unit → ospf_world RT → Prop) :
  inv E X w → w_nbr w !! p = Some n → p ≠ w_nbr_self w → same_link n (f n) → same_lists n (f n) → same_state n (f n) →
  (∀ w', w' = w <| w_nbr := <[p := f n]> (w_nbr w) |> → inv E X w' → w_nbr w' !! p = Some (f n) → Q tt w') →
  runs (upd_nbr p f) w Q.
Proof.
  intros HI Hp Hps Hl Hsl Hst HQ. eapply runs_upd_nbr; [done|]. apply HQ; [done|by eapply inv_upd|cbn; apply lookup_insert_eq].
Qed.

Lemma inv_event X w e :
  inv E X w → event_ok w e → plain_event e = true → inv E X (w <| w_events := w_events w ++ [e] |>).
Proof.
  intros HI He Hpl. pose proof HI as (HL & HC & _).
  apply (inv_step X w); [done|done|by apply core_event|done|done|done|done| |done|].
  - intros e' He' _. cbn. apply elem_of_app. by left.
  - intros r m' Hm _. left. by exists m'.
Qed.

(** Fields are changed that the invariant does not depend on. *)
Lemma inv_view X w w' :
  inv E X w → lsas_ok E X w' → nbr_view w' = nbr_view w → ism_view w' = ism_view w → w_full_nbrs w' = w_full_nbrs w → inv E X w'.
Proof.
  intros HI HL Hv Hi Hf. pose proof HI as (HL0 & HC & I3 & I4 & I5 & I6). destruct (base_view E X w w') as [(B1 & B2 & B3 & B4) _]; [done..|].
  assert (w_nbr w' = w_nbr w ∧ w_nbr_self w' = w_nbr_self w ∧ w_events w' = w_events w) as (V1 & V2 & V3)
    by (unfold nbr_view in Hv; by simplify_eq).
  split_and!; [done|done| | |done|done].
  - intros p n. rewrite V1, V2. intros Hp Hps. destruct (I3 p n Hp Hps) as [L W]. split; [done|]. unfold watched. by rewrite V3.
  - unfold full_ok. by rewrite Hf, V1.
Qed.

(** ** Events of a neighbour *)

Lemma neighbor_change_runs d X w :
  lsas_ok E X w → core E w → ISM_DROther ≤ w_state w ≤ ISM_DR →
  runs (ospf_ism_event E (S d) ISM_NeighborChange) w (λ _ w', ism_done E X w' ∧ elected_frame w w' ∧ w_obuf w' = w_obuf w).
Proof.
  intros HL HC Hst. change (ospf_ism_event E (S d)) with (ism_event E (λ p e, ospf_nsm_event E d p e)).
  assert (ISM_Down ≤ w_state w ≤ ISM_DR) as Hst' by (unfold ISM_Down, ISM_DROther in *; lia).
  destruct (ism_entry_cases (RT := RT) (w_state w) ISM_NeighborChange Hst') as (f & ns & Hent & _ & Hel & _); [done|].
  apply (ism_elect_runs E _ X w _ f ns); [done..|]. by apply Hel; [|apply Hst].
Qed.

(** The neighbours before an event of [p]: only [p] need not be watched, when the event deletes it. *)
Definition states_for (p : nat) (ev : Z) w : Prop :=
  ∀ r m, w_nbr w !! r = Some m → r ≠ w_nbr_self w → nbr_local m ∧ (r ≠ p ∨ ev < NSM_KillNbr → watched w r m).

Lemma nsm_inv d X w p n ev :
  base E X w → full_ok w → states_for p ev w → w_nbr w !! p = Some n → p ≠ w_nbr_self w → NSM_NoEvent < ev ≤ NSM_LLDown →
  runs (ospf_nsm_event E (S (S d)) p ev) w (λ _ w', inv E X w' ∧ xframe p w w' ∧ nbr_after ev n w' p).
Proof.
  intros HB Hf Hst Hp Hps Hev. destruct (Hst p n Hp Hps) as [Hloc Hw].
  change (ospf_nsm_event E (S (S d))) with (nsm_event E (λ e, ospf_ism_event E (S d) e)).
  eapply runs_mono; [apply (nsm_event_runs E _ (neighbor_change_runs d) X w p n ev); try done; intros ?; apply Hw; by right|].
  intros [] w' ((B1 & B2 & B3 & B4) & Hf' & Hx & Ha). split_and!; [|done|done]. split_and!; [done|done| |done|done|done].
  destruct Hx as (X1 & X2 & X3 & X4 & X5). intros r m Hm Hr. rewrite X2 in Hr. destruct (decide (r = p)) as [->|Hrp].
  - unfold nbr_after in Ha. destruct (NSM_KillNbr <=? ev); [congruence|]. destruct Ha as (n' & Hn' & L' & W' & _).
    simplify_eq. done.
  - rewrite X1 in Hm by done. destruct (Hst r m Hm Hr) as [Lm Wm]. split; [done|]. intros Hi.
    destruct (Wm ltac:(by left) Hi) as [|Hin]; [by left|right]. apply X4; [done|]. cbn. by apply bool_decide_eq_false.
Qed.

Lemma states_states_for p ev w : states w → states_for p ev w.
Proof. intros Hs r m Hm Hr. destruct (Hs r m Hm Hr). by split. Qed.

Lemma nsm_execute X w p n ev :
  inv E X w → w_nbr w !! p = Some n → p ≠ w_nbr_self w → NSM_NoEvent < ev ≤ NSM_LLDown →
  runs (OSPF_NSM_EVENT_EXECUTE E p ev) w (λ _ w', inv E X w' ∧ xframe p w w' ∧ nbr_after ev n w' p).
Proof.
  intros HI Hp Hps Hev. destruct (adj_inv_base X w HI) as (HB & Hf & Hs). apply nsm_inv; [done|done|by apply states_states_for|done..].
Qed.

(** ** Configured neighbours *)

(** A configured neighbour is taken off the interface. *)
Lemma core_detach w q qs b b' :
  core E w → w_if_nbma w = q :: qs → w_nbma w !! q = Some b → nb_nbr b = None →
  nb_addr b' = nb_addr b → nb_nbr b' = None → nb_oi b' = false → nb_t_poll b' = false →
  core E (w <| w_nbma := <[q := b']> (w_nbma w) |> <| w_if_nbma := qs |>).
Proof.
  intros (C1 & C2 & C3 & C4 & (T1 & T2 & T3) & C6 & C7) Hqs Hq Hn S1 S2 S3 S4.
  rewrite Hqs in T1. apply list.NoDup_cons in T1 as [Hnin Hnd].
  split_and!; try done.
  - intros p n Hp. destruct (C1 p n Hp) as (L1 & L2 & L3). split_and!; [done| |done]. intros r Hr. cbn.
    destruct (L2 r Hr) as (c & Hc & Hl). exists c. rewrite lookup_insert_ne; [done|]. intros <-. congruence.
  - intros r c. cbn. destruct (decide (q = r)) as [<-|Hne].
    + rewrite lookup_insert_eq. intros [= <-]. unfold nbma_ok. rewrite S2, S3, S4. split_and!; [done|by intros [[]|]|done].
    + rewrite lookup_insert_ne by done. intros Hc. destruct (C4 r c Hc) as (N1 & N2 & N3). split_and!; [done|done|split].
      * intros Ho. apply N3 in Ho. rewrite Hqs in Ho. by apply elem_of_cons in Ho as [->|].
      * intros Hi. apply N3. rewrite Hqs. by apply elem_of_cons; right.
  - split_and!; [done| |].
    + intros r Hr. destruct (T2 r) as (c & Hc & Ht); [rewrite Hqs; by apply elem_of_cons; right|]. exists c. cbn.
      rewrite lookup_insert_ne; [done|]. by intros <-.
    + intros k r Hr. destruct (T3 k r Hr) as (c & Hc & Ht). cbn. destruct (decide (q = r)) as [<-|].
      * exists b'. rewrite lookup_insert_eq, S1. simplify_eq. done.
      * exists c. by rewrite lookup_insert_ne.
Qed.

(** One that is configured is put on the interface. *)
Lemma core_attach w q b b' :
  core E w → w_nbma w !! q = Some b → nb_oi b = false → rt_info (nb_addr b) (w_nbr_nbma w) = Some q →
  nb_addr b' = nb_addr b → nb_nbr b' = nb_nbr b → nb_oi b' = true →
  core E (w <| w_nbma := <[q := b']> (w_nbma w) |> <| w_if_nbma := w_if_nbma w ++ [q] |>).
Proof.
  intros (C1 & C2 & C3 & C4 & (T1 & T2 & T3) & C6 & C7) Hq Ho Ht S1 S2 S3.
  destruct (C4 q b Hq) as (N1 & N2 & N3).
  assert (q ∉ w_if_nbma w) as Hnin by (intros Hi%N3; congruence).
  split_and!; try done.
  - intros p n Hp. destruct (C1 p n Hp) as (L1 & L2 & L3). split_and!; [done| |done]. intros r Hr. cbn.
    destruct (L2 r Hr) as (c & Hc & Hl). destruct (decide (q = r)) as [<-|].
    + exists b'. rewrite lookup_insert_eq. split; [done|congruence].
    + exists c. by rewrite lookup_insert_ne.
  - intros r c. cbn. destruct (decide (q = r)) as [<-|Hne].
    + rewrite lookup_insert_eq. intros [= <-]. unfold nbma_ok. rewrite S1, S2, S3. split_and!; [done|done|split].
      * intros _. apply elem_of_app. right. by apply list_elem_of_singleton.
      * done.
    + rewrite lookup_insert_ne by done. intros Hc. destruct (C4 r c Hc) as (M1 & M2 & M3). split_and!; [done|done|split].
      * intros Hx. apply elem_of_app. left. by apply M3.
      * intros [Hi|Hi]%elem_of_app; [by apply M3|]. apply list_elem_of_singleton in Hi. congruence.
  - split_and!.
    + apply list.NoDup_app. split_and!; [done| |apply list.NoDup_singleton]. intros r Hr ->%list_elem_of_singleton. done.
    + intros r [Hr|Hr]%elem_of_app.
      * destruct (T2 r Hr) as (c & Hc & Hx). exists c. cbn. rewrite lookup_insert_ne; [done|]. by intros <-.
      * apply list_elem_of_singleton in Hr as ->. exists b'. cbn. by rewrite lookup_insert_eq, S1.
    + intros k r Hr. destruct (T3 k r Hr) as (c & Hc & Hx). cbn. destruct (decide (q = r)) as [<-|].
      * exists b'. rewrite lookup_insert_eq, S1. simplify_eq. done.
      * exists c. by rewrite lookup_insert_ne.
Qed.

(** A neighbour and a configured one are linked. *)
Lemma core_link w p q n b n' b' :
  core E w → w_nbr w !! p = Some n → p ≠ w_nbr_self w → n_nbr_nbma n = None → w_nbma w !! q = Some b → nb_nbr b = None → nb_oi b = true →
  n_src n = nb_addr b → n_src n' = n_src n → n_router_id n' = n_router_id n → n_t_ls_req n' = n_t_ls_req n → n_nbr_nbma n' = Some q →
  nb_addr b' = nb_addr b → nb_nbr b' = Some p → nb_oi b' = true →
  core E (w <| w_nbma := <[q := b']> (w_nbma w) |> <| w_nbr := <[p := n']> (w_nbr w) |>).
Proof.
  intros (C1 & C2 & (s & Cs & C3) & C4 & (T1 & T2 & T3) & C6 & C7) Hp Hps Hnn Hq Hbn Hbo Hsrc S1 S2 S3 S4 S5 S6 S7.
  assert (∀ t, ospf_nbr_key t n' = ospf_nbr_key t n) as Hkey by (intros; unfold ospf_nbr_key; by rewrite S1, S2).
  destruct (C4 q b Hq) as (N1 & N2 & N3).
  assert (∀ r c, w_nbma w !! r = Some c → ∃ c', <[q := b']> (w_nbma w) !! r = Some c' ∧ nb_addr c' = nb_addr c) as Hfw.
  { intros r c Hc. destruct (decide (q = r)) as [<-|].
    - exists b'. rewrite lookup_insert_eq. simplify_eq. done.
    - exists c. by rewrite lookup_insert_ne. }
  split_and!; try done.
  - intros r m. cbn. destruct (decide (p = r)) as [<-|Hr].
    + rewrite lookup_insert_eq. intros [= <-]. destruct (C1 p n Hp) as (L1 & _ & L3). split_and!; cbn.
      * by rewrite Hkey.
      * rewrite S4. intros ? [= <-]. exists b'. by rewrite lookup_insert_eq.
      * by rewrite S3.
    + rewrite lookup_insert_ne by done. intros Hm. destruct (C1 r m Hm) as (L1 & L2 & L3). split_and!; [done| |done].
      intros q' Hq'. destruct (L2 q' Hq') as (c & Hc & Hn). cbn. exists c. rewrite lookup_insert_ne; [done|]. intros <-. congruence.
  - intros k r Hr. destruct (C2 k r Hr) as (m & Hm & Hk). cbn. destruct (decide (p = r)) as [<-|].
    + exists n'. rewrite lookup_insert_eq, Hkey. assert (m = n) as -> by congruence. done.
    + exists m. by rewrite lookup_insert_ne.
  - exists s. cbn. by rewrite lookup_insert_ne.
  - intros r c. cbn. destruct (decide (q = r)) as [<-|Hr].
    + rewrite lookup_insert_eq. intros [= <-]. split_and!.
      * rewrite S6. intros ? [= <-]. split; [done|]. exists n'. cbn. rewrite lookup_insert_eq. split_and!; [done|done|congruence].
      * by rewrite S7.
      * rewrite S7. rewrite Hbo in N3. exact N3.
    + rewrite lookup_insert_ne by done. intros Hc. destruct (C4 r c Hc) as (M1 & M2 & M3). split_and!; [|done|done].
      intros p' Hp'. destruct (M1 p' Hp') as (Hs' & m & Hm & Hm1 & Hm2). split; [done|]. cbn.
      destruct (decide (p = p')) as [<-|]; [congruence|]. exists m. by rewrite lookup_insert_ne.
  - split_and!; [done| |].
    + intros r Hr. destruct (T2 r Hr) as (c & Hc & Ht). destruct (Hfw r c Hc) as (c' & Hc' & Ha).
      exists c'. by rewrite Ha.
    + intros k r Hr. destruct (T3 k r Hr) as (c & Hc & Ht). destruct (Hfw r c Hc) as (c' & Hc' & Ha).
      exists c'. by rewrite Ha.
  - intros e He. specialize (C6 e He).
    assert (∀ r, is_Some (w_nbr w !! r) → is_Some (<[p := n']> (w_nbr w) !! r)) as Hlive.
    { intros r Hr. destruct (decide (p = r)) as [<-|]; [rewrite lookup_insert_eq; by eexists|by rewrite lookup_insert_ne]. }
    destruct e; cbn in *; naive_solver.
Qed.

(** No event is for a neighbour that does not exist. *)
Lemma no_req_events w p : core E w → w_nbr w !! p = None → req_events p (w_events w) = 0%nat.
Proof.
  intros (_ & _ & _ & _ & _ & C6 & _) Hp. unfold req_events. rewrite filter_none; [done|].
  apply list.Forall_forall. intros e He Hr. specialize (C6 e He). destruct e; try done. cbn in Hr. apply bool_decide_eq_true in Hr as ->.
  destruct C6 as [_ [m Hm]]. congruence.
Qed.

(** A new neighbour. *)
Lemma core_new w p n :
  core E w → w_nbr w !! p = None → n_nbr_nbma n = None → n_t_ls_req n = T_null →
  rt_info (ospf_nbr_key (w_type w) n) (w_nbrs w) = None →
  core E (w <| w_nbr := <[p := n]> (w_nbr w) |> <| w_nbrs := rt_set (ospf_nbr_key (w_type w) n) (Some p) (w_nbrs w) |>).
Proof.
  intros HC Hp Hnn Ht Hk. pose proof HC as (C1 & C2 & (s & Cs & C3) & C4 & C5 & C6 & C7).
  assert (∀ r, is_Some (w_nbr w !! r) → is_Some (<[p := n]> (w_nbr w) !! r)) as Hlive.
  { intros r Hr. destruct (decide (p = r)) as [<-|]; [rewrite lookup_insert_eq; by eexists|by rewrite lookup_insert_ne]. }
  split_and!; try done.
  - intros r m. cbn. destruct (decide (p = r)) as [<-|Hr].
    + rewrite lookup_insert_eq. intros [= <-]. split_and!; cbn.
      * apply rt_info_set_eq.
      * by rewrite Hnn.
      * rewrite Ht. by apply no_req_events.
    + rewrite lookup_insert_ne by done. intros Hm. destruct (C1 r m Hm) as (L1 & L2 & L3). split_and!; [|done|done].
      cbn. rewrite rt_info_set_ne; [done|]. congruence.
  - intros k r. cbn. rewrite rt_info_set. case_decide as Hd.
    + intros [= <-]. exists n. by rewrite lookup_insert_eq.
    + intros Hr. destruct (C2 k r Hr) as (m & Hm & Hkm). exists m. rewrite lookup_insert_ne; [done|congruence].
  - exists s. cbn. rewrite lookup_insert_ne; [done|congruence].
  - intros q b Hb. destruct (C4 q b Hb) as (N1 & N2 & N3). split_and!; [|done|done].
    intros r Hr. destruct (N1 r Hr) as (Hr1 & m & Hm & Hm1 & Hm2). split; [done|]. cbn. exists m.
    rewrite lookup_insert_ne; [done|congruence].
  - intros e He. specialize (C6 e He). destruct e; cbn in *; naive_solver.
Qed.

(** At most one configured neighbour is linked to an address. *)
Lemma nbma_unique w p n q q' b :
  core E w → w_type w ≠ OSPF_IFTYPE_VIRTUALLINK → w_nbr w !! p = Some n → n_nbr_nbma n = Some q' →
  w_nbma w !! q = Some b → rt_info (nb_addr b) (w_nbr_nbma w) = Some q → n_src n = nb_addr b → q' = q.
Proof.
  intros (C1 & C2 & C3 & C4 & (T1 & T2 & T3) & C6 & C7) Ht Hp Hq' Hq Hk Hs.
  destruct (C1 p n Hp) as (_ & L2 & _). destruct (L2 q' Hq') as (b' & Hb' & Hn').
  destruct (C4 q' b' Hb') as (N1 & N2 & N3). destruct (N1 p Hn') as (_ & m & Hm & Hm1 & Hm2). simplify_eq.
  destruct (T2 q') as (c & Hc & Hx); [apply N3, N2; left; by eexists|]. simplify_eq. rewrite <- (Hm2 Ht), Hs in Hx. congruence.
Qed.

(** ** The interface goes down *)

Lemma listnode_delete_head q qs : listnode_delete q (q :: qs) = qs.
Proof. cbn. by rewrite bool_decide_eq_true_2. Qed.

(** The link of a configured neighbour is taken off. *)
Lemma detach_link X w q b :
  inv E X w → w_nbma w !! q = Some b → nb_t_poll b = false →
  runs (match nb_nbr b with
        | Some p => upd_nbr p (λ n, n <| n_nbr_nbma := None |>);; upd_nbma q (λ b, b <| nb_nbr := None |>)
        | None => mret tt
        end) w (λ _ w', inv E X w' ∧ w_if_nbma w' = w_if_nbma w ∧ w_nbma w' !! q = Some (b <| nb_nbr := None |>)).
Proof.
  intros HI Hq Ht. destruct (nb_nbr b) as [p|] eqn:Ep.
  2:{ rstep. split_and!; [done|done|]. rewrite Hq. f_equal. destruct b; cbn in Ep |- *. by rewrite Ep. }
  pose proof HI as (HL & HC & _). pose proof HC as (_ & _ & _ & C4 & _). destruct (C4 q b Hq) as (N1 & _).
  destruct (N1 p Ep) as (Hps & n & Hp & Hn & _). rstep. eapply runs_upd_nbr; [exact Hp|]. eapply runs_upd_nbma; [exact Hq|].
  split_and!; [|done|cbn; apply lookup_insert_eq].
  set (n' := n <| n_nbr_nbma := None |>). set (b' := b <| nb_nbr := None |>).
  apply (inv_step X w); [done| | |done|done|done| |done| |].
  - change (lsas_ok E X (w <| w_nbr := <[p := n']> (w_nbr w) |>)). by eapply lsas_ok_upd.
  - exact (core_unlink E w p q n b n' b' HC Hp Hn Hq eq_refl eq_refl eq_refl eq_refl eq_refl eq_refl eq_refl).
  - cbn. by eapply full_count_same.
  - cbn. by rewrite lookup_insert_ne.
  - intros r m'. cbn. destruct (decide (p = r)) as [<-|].
    + rewrite lookup_insert_eq. intros [= <-] _. left. by exists n.
    + rewrite lookup_insert_ne by done. intros Hm _. left. by exists m'.
Qed.

(** The configured neighbours and the list of those of the interface are changed. *)
Lemma inv_nbma X w (m : gmap nat ospf_nbr_nbma) qs :
  inv E X w → core E (w <| w_nbma := m |> <| w_if_nbma := qs |>) → inv E X (w <| w_nbma := m |> <| w_if_nbma := qs |>).
Proof.
  intros HI HC. pose proof HI as (HL & _). apply (inv_step X w); try done. intros r m' Hm _. left. by exists m'.
Qed.

Lemma nbma_detach_runs X qs w :
  inv E X w → w_if_nbma w = qs → runs (nbma_detach qs) w (λ _ w', inv E X w' ∧ w_if_nbma w' = []).
Proof.
  revert w. induction qs as [|q qs IH]; intros w HI Hqs; cbn [nbma_detach]; [by rstep|].
  pose proof HI as (HL & HC & _). pose proof HC as (_ & _ & _ & _ & (_ & T2 & _) & _).
  destruct (T2 q) as (b & Hb & _); [rewrite Hqs; by apply elem_of_cons; left|].
  rstep. eapply runs_upd_nbma; [exact Hb|]. set (b1 := b <| nb_t_poll := false |>). set (w1 := w <| w_nbma := _ |>).
  assert (inv E X w1) as HI1.
  { assert (w1 = w1 <| w_if_nbma := w_if_nbma w |>) as -> by (by destruct w).
    apply (inv_nbma X w (<[q := b1]> (w_nbma w)) (w_if_nbma w)); [done|].
    assert (core E w1) as HC1 by (by eapply core_nbma). unfold w1 in HC1. by destruct w. }
  assert (w_nbma w1 !! q = Some b1) as Hb1 by apply lookup_insert_eq. assert (w_if_nbma w1 = q :: qs) as Hqs1 by exact Hqs.
  clearbody w1. rstep. eapply runs_nbma; [exact Hb1|]. rstep. eapply runs_mono; [by apply (detach_link X)|].
  intros [] w2 (HI2 & Hqs2 & Hb2). rewrite Hqs1 in Hqs2. rstep. eapply runs_upd_nbma; [exact Hb2|]. rstep. rstep.
  set (w3 := _ <| w_if_nbma := _ |>). apply (IH w3).
  - unfold w3. cbn [w_if_nbma set_fld set_w_nbma]. rewrite Hqs2, listnode_delete_head. apply inv_nbma; [done|].
    pose proof HI2 as (_ & HC2 & _). by eapply core_detach.
  - unfold w3. cbn [w_if_nbma set_fld set_w_nbma set_w_if_nbma]. cbn. rewrite Hqs2. apply listnode_delete_head.
Qed.

(** No neighbour but the pseudo neighbour is left under these keys. *)
Definition dead w (k : Z) : Prop := ∀ p, rt_info k (w_nbrs w) = Some p → p = w_nbr_self w.

Lemma kill_walk_runs d X ks w :
  inv E X w →
  runs (kill_walk (ospf_nsm_event E (S (S d))) ks) w (λ _ w', inv E X w' ∧ (∀ k, k ∈ ks ∨ dead w k → dead w' k)).
Proof.
  revert w. induction ks as [|k ks IH]; intros w HI; cbn [kill_walk].
  { rstep. split; [done|]. intros k [Hk|Hk]; [by apply elem_of_nil in Hk|done]. }
  rstep. rstep. rstep. rstep. rstep.
  apply (runs_mono _ _ (λ _ w', inv E X w' ∧ (∀ j, j = k ∨ dead w j → dead w' j))).
  - pose proof HI as (_ & HC & _). pose proof HC as (C1 & C2 & _). destruct (rt_info k (w_nbrs w)) as [p|] eqn:Ek.
    2:{ rstep. split; [done|]. intros j [->|Hj]; [|done]. intros p. by rewrite Ek. }
    destruct (C2 k p Ek) as (n & Hp & Hk). case_bool_decide as Hps.
    { rstep. split; [done|]. intros j [->|Hj]; [|done]. intros p'. rewrite Ek. congruence. }
    destruct (adj_inv_base X w HI) as (HB & Hf & Hs). eapply runs_mono; [apply (nsm_inv d X w p n); try done; by apply states_states_for|].
    intros [] w' (HI' & (X1 & X2 & X3 & _) & Ha). split; [done|]. intros j Hj p' Hp'.
    destruct (decide (p' = w_nbr_self w')) as [|Hne]; [done|]. exfalso.
    pose proof HI' as (_ & (_ & C2' & _) & _). destruct (C2' j p' Hp') as (m & Hm & Hkm).
    assert (p' ≠ p) as Hpp by (intros ->; unfold nbr_after in Ha; cbn in Ha; congruence).
    rewrite X2 in Hne. rewrite X1 in Hm by done. rewrite X3 in Hkm. destruct (C1 p' m Hm) as (L1 & _). rewrite Hkm in L1.
    destruct Hj as [->|Hj]; [congruence|]. by apply Hne, Hj.
  - intros [] w1 [HI1 Hd1]. eapply runs_mono; [by apply IH|]. intros [] w2 [HI2 Hd2]. split; [done|].
    intros j [[->|Hj]%elem_of_cons|Hj]; apply Hd2; [right; apply Hd1; by left|by left|right; apply Hd1; by right].
Qed.

(** An interface with no neighbour but its pseudo neighbour. *)
Lemma core_single w p s :
  w_nbr w = {[p := s]} → w_nbr_self w = p → self_ok E s →
  (∀ k r, rt_info k (w_nbrs w) = Some r ↔ r = p ∧ k = ospf_nbr_key (w_type w) s) →
  (∀ q b, w_nbma w !! q = Some b → nb_nbr b = None ∧ (nb_t_poll b = true → nb_oi b = true) ∧ (nb_oi b = true ↔ q ∈ w_if_nbma w)) →
  nbma_tab w → (∀ e, e ∈ w_events w → ∃ i, e = Ev_ism i ∧ ISM_NoEvent < i ≤ ISM_InterfaceDown) →
  (∀ k, rt_info k (w_ls_upd_queue w) = None) → w_t_ls_upd_event w = false → core E w.
Proof.
  intros Hn Hs Hok Ht Hb Htab He Hq Hu. pose proof Hok as (_ & _ & _ & _ & _ & Hnn & Htr & _).
  assert (∀ f : ospf_event → bool, (∀ i, f (Ev_ism i) = false) → filter (λ e, f e = true) (w_events w) = []) as Hnone.
  { intros f Hf. apply filter_none, list.Forall_forall. intros e Hin. destruct (He e Hin) as (i & -> & _). by rewrite Hf. }
  split_and!.
  - intros r m. rewrite Hn. intros [<- <-]%lookup_singleton_Some. split_and!.
    + by apply Ht.
    + by rewrite Hnn.
    + rewrite Htr. unfold req_events. by rewrite (Hnone (ls_req_event_of p)).
  - intros k r [-> ->]%Ht. exists s. by rewrite Hn, lookup_singleton_eq.
  - exists s. by rewrite Hn, Hs, lookup_singleton_eq.
  - intros q b Hqb. destruct (Hb q b Hqb) as (B1 & B2 & B3). unfold nbma_ok. rewrite B1. split_and!; [done| |done].
    intros [[]|]; [done|by apply B2].
  - done.
  - intros e Hin. destruct (He e Hin) as (i & -> & Hi). done.
  - split_and!.
    + intros k l. by rewrite Hq.
    + intros k [l Hl]. by rewrite Hq in Hl.
    + rewrite Hu. unfold upd_events. by rewrite (Hnone is_ls_upd).
Qed.

(** The acknowledgements that have been delayed are dropped. *)
Lemma acks_runs X w :
  lsas_ok E X w →
  runs (on_lsas (unlock_all (w_ls_ack w))) w (λ _ w', ∃ h', w' = w <| w_lsas := h' |> ∧
    lsas_ok E X (w <| w_lsas := h' |> <| w_ls_ack := [] |>)).
Proof.
  intros HL. pose proof HL as (Hh & HX & _). apply runs_zoom.
  destruct (unlock_all_ok (w_ls_ack w) (w_lsas w) _ Hh) as (h' & Hrun & Hh' & Hm).
  { intros q. specialize (HX q). unfold w_refs, if_refs. rewrite !cnt_app.
    pose proof (cnt_nonneg q (top_refs w)). pose proof (cnt_nonneg q (queue_refs w)).
    pose proof (cnt_nonneg q (option_list (w_network_lsa_self w))). pose proof (cnt_nonneg q (nbrs_refs (w_nbr w))). lia. }
  eapply runs_run; [exact Hrun|]. exists h'. split; [done|].
  eapply lsas_ok_if; [exact HL|exact Hm|done|done|done| |].
  - intros q Hq. change (q ∈ queue_refs w) in Hq. set_solver.
  - eapply heap_ok_ext; [|exact Hh']. intros q. cbv beta. unfold if_refs. cbn.
    change (queue_refs (w <| w_lsas := h' |> <| w_ls_ack := [] |>)) with (queue_refs w). rewrite !cnt_app.
    change (cnt q []) with 0. lia.
Qed.

(** What is left of an interface that has been cleaned up. *)
Definition cleaned X w' : Prop :=
  lsas_ok E X w' ∧ core E w' ∧ full_ok w' ∧ (∃ s, w_nbr w' = {[w_nbr_self w' := s]}) ∧
  ISM_Down ≤ w_state w' ≤ ISM_DR ∧ (∀ k, rt_info k (w_ls_upd_queue w') = None) ∧ w_ls_ack w' = [] ∧
  (∀ q b, w_nbma w' !! q = Some b → nb_nbr b = None).

Lemma full_count_single p s : n_state s ≠ NSM_Full → full_count {[p := s]} = 0%nat.
Proof. intros Hs. unfold full_count. rewrite map_to_list_singleton. cbn. by rewrite decide_False. Qed.

Lemma new_nbr_refs : nbr_refs (new_nbr (RT := RT) E) = [].
Proof. unfold nbr_refs. cbn [new_nbr n_ls_rxmt n_db_sum n_ls_req n_ls_req_last]. by rewrite !new_db_entries. Qed.

(** The pseudo neighbour is filled in and put into the empty table. *)
Lemma add_self_runs X w q n :
  lsas_ok E X w → w_nbr w = {[q := n]} → w_nbr_self w = q → (∃ x, n = (new_nbr E) <| n_options := x |>) →
  (∀ k, rt_info k (w_nbrs w) = None) →
  runs (ospf_nbr_add_self E) w (λ _ w', ∃ s t, w' = w <| w_nbr := {[q := s]} |> <| w_nbrs := t |> ∧ lsas_ok E X w' ∧ self_ok E s ∧
    (∀ k r, rt_info k t = Some r ↔ r = q ∧ k = ospf_nbr_key (w_type w) s)).
Proof.
  intros HL Hn Hs [x Hx] Ht. assert (w_nbr w !! q = Some n) as Hq by (by rewrite Hn, lookup_singleton_eq).
  unfold ospf_nbr_add_self. rstep. rstep. rewrite Hs. rstep. eapply runs_upd_nbr; [exact Hq|].
  set (s := n <| n_address := _ |> <| n_prefixlen := _ |> <| n_priority := _ |> <| n_router_id := _ |> <| n_src := _ |> <| n_state := _ |>
    <| n_options := _ |>).
  rstep. eapply runs_nbr; [cbn; apply lookup_insert_eq|]. rstep. rstep. rstep. rstep. cbn. rewrite Ht. rstep. rewrite Hn, insert_singleton_eq.
  exists s, (rt_set (ospf_nbr_key (w_type w) s) (Some q) (w_nbrs w)). split_and!.
  - reflexivity.
  - change (lsas_ok E X (w <| w_nbr := {[q := s]} |>)). assert ({[q := s]} = <[q := s]> (w_nbr w)) as -> by (by rewrite Hn, insert_singleton_eq).
    by eapply lsas_ok_upd.
  - subst n. split_and!; try done. change (nbr_refs s) with (nbr_refs (new_nbr (RT := RT) E)). apply new_nbr_refs.
  - intros k r. rewrite rt_info_set. case_decide as Hk.
    + subst k. naive_solver.
    + rewrite Ht. split; [done|]. intros [_ ->]. done.
Qed.

(** The pseudo neighbour is replaced. *)
Lemma new_self_runs X w p s :
  lsas_ok E X w → w_nbr w = {[p := s]} → w_nbr_self w = p → self_ok E s →
  (∀ k r, rt_info k (w_nbrs w) = Some r ↔ r = p ∧ k = ospf_nbr_key (w_type w) s) →
  runs (p ← gets w_nbr_self; ospf_nbr_delete p;; q ← ospf_nbr_new E; modify (λ w, w <| w_nbr_self := q |>);; ospf_nbr_add_self E) w
    (λ _ w', ∃ h' q s' t,
      w' = w <| w_lsas := h' |> <| w_nbr := {[q := s']} |> <| w_nbrs := t |> <| w_nbr_self := q |>
             <| w_events := filter (λ e, event_of p e = false) (w_events w) |> ∧
      lsas_ok E X w' ∧ self_ok E s' ∧ (∀ k r, rt_info k t = Some r ↔ r = q ∧ k = ospf_nbr_key (w_type w) s')).
Proof.
  intros HL Hn Hs Hok Ht. assert (w_nbr w !! p = Some s) as Hp by (by rewrite Hn, lookup_singleton_eq).
  pose proof Hok as (_ & _ & _ & _ & _ & Hnn & Htr & Hrefs & _). unfold ospf_nbr_delete.
  rstep. rstep. rewrite Hs. rstep. rstep. eapply runs_nbr; [exact Hp|]. rstep. rstep. rstep. rstep.
  eapply runs_mono; [eapply (nbr_free_runs E X); [exact HL|exact Hp|by apply last_ok_nil|by rewrite Hnn]|].
  intros [] w1 (h1 & Hw1 & HL1 & _). unfold freed in Hw1. rewrite Hnn in Hw1. cbn [unlink] in Hw1.
  rstep. apply nbr_new_runs. intros q Hq. rstep. rstep.
  assert (w_nbr w1 = ∅) as Hn1 by (rewrite Hw1; cbn; rewrite Hn; apply delete_singleton_eq).
  assert (∀ k, rt_info k (w_nbrs w1) = None) as Hn1'.
  { intros k. rewrite Hw1. cbn. rewrite rt_info_set. case_decide; [done|].
    destruct (rt_info k (w_nbrs w)) as [r|] eqn:Er; [|done]. apply Ht in Er as [-> ->]. done. }
  apply lsas_ok_new with (p := q) (n := new_nbr E) in HL1; [|done|done].
  eapply runs_mono; [apply (add_self_runs X _ q (new_nbr E)); [exact HL1|cbn; rewrite Hn1; apply insert_empty|done|by exists 0|exact Hn1']|].
  intros [] w2 (s' & t & -> & HL2 & Hok' & Ht'). exists h1, q, s', t. split_and!; [by rewrite Hw1|done|done|].
  intros k r. rewrite Ht'. by rewrite Hw1.
Qed.

Lemma cleanup_runs d X w :
  inv E X w → runs (ospf_if_cleanup E (ospf_nsm_event E (S (S d)))) w (λ _ w', cleaned X w').
Proof.
  intros HI. unfold ospf_if_cleanup. rstep. rstep. rstep. eapply runs_mono; [by apply (nbma_detach_runs X)|].
  intros [] w1 [HI1 _]. rstep. rstep. rstep. eapply runs_mono; [by apply (kill_walk_runs d X)|]. intros [] w2 [HI2 Hd].
  pose proof HI2 as (HL2 & HC2 & Hst2 & Hf2 & (Hr2 & _) & _). pose proof HC2 as (C1 & C2 & (s & Hs & Hok) & C4 & C5 & C6 & C7).
  assert (∀ k, dead w2 k) as Hdead.
  { intros k. apply Hd. destruct (rt_info k (w_nbrs w1)) as [p|] eqn:Ek.
    - left. apply rt_walk_elem. by eexists.
    - right. intros p. by rewrite Ek. }
  assert (∀ p n, w_nbr w2 !! p = Some n → p = w_nbr_self w2) as Hself.
  { intros p n Hp. destruct (C1 p n Hp) as (L1 & _). by apply Hdead in L1. }
  assert (w_nbr w2 = {[w_nbr_self w2 := s]}) as Hn2.
  { apply map_eq. intros p. destruct (decide (p = w_nbr_self w2)) as [->|Hne]; [by rewrite lookup_singleton_eq|].
    rewrite lookup_singleton_ne by done. destruct (w_nbr w2 !! p) eqn:Ep; [|done]. by apply Hself in Ep. }
  assert (∀ e, e ∈ w_events w2 → is_ls_upd e = true ∨ ∃ i, e = Ev_ism i ∧ ISM_NoEvent < i ≤ ISM_InterfaceDown) as Hev.
  { intros e He. specialize (C6 e He). destruct e as [i|p i|p|]; [by right; exists i| | |by left].
    - destruct C6 as (Hne & [n Hp] & _). by apply Hself in Hp.
    - destruct C6 as (Hne & [n Hp]). by apply Hself in Hp. }
  rstep. rstep. rstep. eapply runs_mono; [by apply (acks_runs X)|]. intros [] w3 (h3 & -> & HL3). rstep. rstep.
  rstep. eapply runs_mono; [apply (upd_queue_empty_runs E X); exact HL3|].
  intros [] w4 (h4 & t4 & es & -> & HL4 & Hq4 & Hes). cbn in Hes.
  eapply runs_mono; [eapply (new_self_runs X _ (w_nbr_self w2) s); [exact HL4|exact Hn2|done|done|]|].
  { intros k r. cbn. split.
    - intros Hr. destruct (C2 k r Hr) as (n & Hnr & Hk). assert (r = w_nbr_self w2) as -> by (by apply Hself in Hnr). split; [done|].
      assert (n = s) as -> by congruence. done.
    - intros [-> ->]. destruct (C1 _ s Hs) as (L1 & _). done. }
  intros [] w5 (h5 & q & s' & t & Hw5 & HL5 & Hok' & Ht).
  assert (w_nbr w5 = {[q := s']} ∧ w_nbr_self w5 = q ∧ w_nbrs w5 = t ∧ w_type w5 = w_type w2 ∧ w_nbma w5 = w_nbma w2 ∧
    w_if_nbma w5 = w_if_nbma w2 ∧ w_nbr_nbma w5 = w_nbr_nbma w2) as (V1 & V2 & V3 & V4 & V5 & V6 & V7) by (by rewrite Hw5).
  assert (w_events w5 = filter (λ e, event_of (w_nbr_self w2) e = false) es ∧ w_ls_upd_queue w5 = t4 ∧ w_t_ls_upd_event w5 = false ∧
    w_state w5 = w_state w2 ∧ w_ls_ack w5 = [] ∧ w_full_nbrs w5 = w_full_nbrs w2) as (V8 & V9 & V10 & V11 & V12 & V13) by (by rewrite Hw5).
  clear Hw5.
  assert (∀ e, e ∈ es → ∃ i, e = Ev_ism i ∧ ISM_NoEvent < i ≤ ISM_InterfaceDown) as Hes'.
  { intros e He. rewrite Hes in He. destruct (w_t_ls_upd_event w2) eqn:Eu.
    - apply list_elem_of_filter in He as [Hf He]. destruct (Hev e He) as [Hu|]; [congruence|done].
    - destruct (Hev e He) as [Hu|]; [|done]. destruct C7 as (_ & _ & U3). rewrite Eu in U3.
      destruct e; try done. exfalso. unfold upd_events in U3. apply length_zero_iff_nil in U3.
      apply (elem_of_nil (A := ospf_event) Ev_ls_upd). rewrite <- U3. by apply list_elem_of_filter. }
  assert (∀ q b, w_nbma w2 !! q = Some b → nb_nbr b = None) as Hnb.
  { intros r b Hb. destruct (C4 r b Hb) as (N1 & _). destruct (nb_nbr b) as [p|] eqn:Ep; [|done].
    destruct (N1 p eq_refl) as (Hne & n & Hp & _). by apply Hself in Hp. }
  assert (core E w5) as HC5.
  { apply (core_single w5 q s'); [done|done|done|by rewrite V3, V4| | | |by rewrite V9|done].
    - intros r b. rewrite V5, V6. intros Hb. destruct (C4 r b Hb) as (N1 & N2 & N3).
      split_and!; [by apply (Hnb r)|by intros; apply N2; right|done].
    - unfold nbma_tab. by rewrite V5, V6, V7.
    - intros e. rewrite V8. intros [_ He]%list_elem_of_filter. by apply Hes'. }
  split_and!; [done|done| |by exists s'; rewrite V1, V2|rewrite V11; apply Hr2|rewrite V11; apply Hr2|by rewrite V9|done|by rewrite V5].
  unfold full_ok in *. rewrite V13, V1, Hf2, Hn2, !full_count_single; [done|..].
  - destruct Hok' as (_ & _ & _ & _ & -> & _). done.
  - destruct Hok as (_ & _ & _ & _ & -> & _). done.
Qed.

(** ** The interface comes up *)

(** A neighbour that has just been allocated, whatever its addresses are. *)
Definition fresh_nbr n : Prop :=
  same_lists (new_nbr E) n ∧ n_state n = NSM_Down ∧ n_t_db_desc n = false ∧ n_t_ls_req n = T_null.

Lemma fresh_local n : fresh_nbr n → nbr_local n ∧ n_state n < NSM_Init.
Proof.
  intros ((S1 & S2 & S3 & S4) & F2 & F3 & F4). rewrite F2. split; [|done].
  assert (nbr_refs n = []) as Hr.
  { rewrite <- new_nbr_refs. unfold nbr_refs. by rewrite S1, S2, S3, S4. }
  unfold nbr_local, NSM_Down, NSM_Full, NSM_ExStart, NSM_Exchange. rewrite F2, F3, F4. unfold NSM_Down.
  split_and!; try lia; try done. by apply last_ok_nil.
Qed.

Lemma inv_new X w p n :
  inv E X w → w_nbr w !! p = None → fresh_nbr n → n_nbr_nbma n = None →
  rt_info (ospf_nbr_key (w_type w) n) (w_nbrs w) = None →
  inv E X (w <| w_nbr := <[p := n]> (w_nbr w) |> <| w_nbrs := rt_set (ospf_nbr_key (w_type w) n) (Some p) (w_nbrs w) |>).
Proof.
  intros HI Hp Hfr Hnn Hk. pose proof HI as (HL & HC & _). pose proof Hfr as (F1 & F2 & F3 & F4).
  pose proof HC as (_ & _ & (s & Hs & _) & _).
  apply (inv_step X w); [done| |by apply core_new|done|done|done| |done| |].
  - change (lsas_ok E X (w <| w_nbr := <[p := n]> (w_nbr w) |>)). by apply lsas_ok_new.
  - cbn. apply full_count_new; [done|]. by rewrite F2.
  - cbn. rewrite lookup_insert_ne; [done|congruence].
  - intros r m'. cbn. destruct (decide (p = r)) as [<-|].
    + rewrite lookup_insert_eq. intros [= <-] _. right. by apply fresh_local.
    + rewrite lookup_insert_ne by done. intros Hm _. left. by exists m'.
Qed.

Lemma inv_link X w p q n b n' b' :
  inv E X w → w_nbr w !! p = Some n → p ≠ w_nbr_self w → n_nbr_nbma n = None → w_nbma w !! q = Some b → nb_nbr b = None → nb_oi b = true →
  n_src n = nb_addr b → n_src n' = n_src n → n_router_id n' = n_router_id n → n_t_ls_req n' = n_t_ls_req n → n_nbr_nbma n' = Some q →
  nb_addr b' = nb_addr b → nb_nbr b' = Some p → nb_oi b' = true → same_lists n n' → same_state n n' →
  inv E X (w <| w_nbma := <[q := b']> (w_nbma w) |> <| w_nbr := <[p := n']> (w_nbr w) |>).
Proof.
  intros HI Hp Hps Hnn Hq Hbn Hbo Hsrc S1 S2 S3 S4 S5 S6 S7 Hsl Hst. pose proof HI as (HL & HC & _).
  apply (inv_step X w); [done| |by apply (core_link w p q n b)|done|done|done| |done| |].
  - change (lsas_ok E X (w <| w_nbr := <[p := n']> (w_nbr w) |>)). by eapply lsas_ok_upd.
  - cbn. eapply full_count_same; [done|]. apply Hst.
  - cbn. by rewrite lookup_insert_ne.
  - intros r m'. cbn. destruct (decide (p = r)) as [<-|].
    + rewrite lookup_insert_eq. intros [= <-] _. left. by exists n.
    + rewrite lookup_insert_ne by done. intros Hm _. left. by exists m'.
Qed.

Lemma nbma_add_runs d X w q b :
  inv E X w → w_nbma w !! q = Some b → rt_info (nb_addr b) (w_nbr_nbma w) = Some q → nb_oi b = false → nb_nbr b = None →
  runs (ospf_nbr_nbma_add E (ospf_nsm_event E (S (S d))) q) w (λ _ w', inv E X w').
Proof.
  intros HI Hq Hk Ho Hn. pose proof HI as (_ & HC & _). pose proof HC as (_ & _ & (s & Hs & Hok) & _).
  unfold ospf_nbr_nbma_add. rstep. rstep. rstep. eapply runs_nbma; [exact Hq|]. rstep. eapply runs_self; [exact Hs|].
  destruct (Z.eqb_spec (w_type w) OSPF_IFTYPE_NBMA) as [Hty|Hty]; cbn [negb]; [|by rstep].
  rewrite Hn. destruct (Z.eqb_spec (n_address s) (nb_addr b)) as [Ha|Ha]; [by rstep|].
  rstep. eapply runs_upd_nbma; [exact Hq|]. rstep. rstep. set (b1 := b <| nb_oi := true |>).
  set (w1 := _ <| w_if_nbma := _ |>).
  assert (inv E X w1) as HI1 by (apply (inv_nbma X w); [done|]; by eapply (core_attach w q b b1)).
  assert (w_nbma w1 !! q = Some b1) as Hq1 by apply lookup_insert_eq.
  assert (w_type w1 = OSPF_IFTYPE_NBMA) as Hty1 by done. assert (rt_info (nb_addr b1) (w_nbr_nbma w1) = Some q) as Hk1 by done.
  assert (w_nbr w1 !! w_nbr_self w1 = Some s) as Hs1 by done.
  assert (nb_nbr b1 = None ∧ nb_oi b1 = true ∧ nb_addr b1 = nb_addr b) as (Hn1 & Ho1 & Ha1) by done. clearbody b1 w1.
  pose proof HI1 as (_ & HC1 & _). pose proof HC1 as (C1 & C2 & _ & C4 & _).
  assert (∀ n, ospf_nbr_key (w_type w1) n = n_src n) as Hkey by (intros; unfold ospf_nbr_key; by rewrite Hty1).
  rstep. rstep. rewrite <- Ha1. destruct (rt_info (nb_addr b1) (w_nbrs w1)) as [p|] eqn:Ep.
  - destruct (C2 _ p Ep) as (n & Hp & Hkn). rewrite Hkey in Hkn.
    assert (p ≠ w_nbr_self w1) as Hps.
    { intros ->. assert (n = s) as -> by congruence. destruct Hok as (_ & O2 & O3 & _). congruence. }
    assert (n_nbr_nbma n = None) as Hnn.
    { destruct (n_nbr_nbma n) as [q'|] eqn:Eq; [|done]. exfalso.
      assert (q' = q) as -> by (eapply (nbma_unique w1 p n q q' b1); try done; by rewrite Hty1).
      destruct (C1 p n Hp) as (_ & L2 & _). destruct (L2 q Eq) as (c & Hc & Hcn). congruence. }
    rstep. eapply runs_upd_nbr; [exact Hp|]. eapply runs_upd_nbma; [exact Hq1|].
    match goal with |- inv _ _ ?v => change v with
      (w1 <| w_nbma := <[q := b1 <| nb_nbr := Some p |>]> (w_nbma w1) |> <| w_nbr := <[p := n <| n_nbr_nbma := Some q |>]> (w_nbr w1) |>) end.
    by apply (inv_link X w1 p q n b1).
  - rstep. apply nbr_new_runs. intros p Hp. rstep. rstep. rstep. eapply runs_upd_nbr; [cbn; apply lookup_insert_eq|].
    rstep. eapply runs_upd_nbma; [exact Hq1|].
    set (n1 := (new_nbr E) <| n_state := _ |> <| n_src := _ |> <| n_nbr_nbma := _ |> <| n_priority := _ |> <| n_address := _ |>
      <| n_prefixlen := _ |>).
    set (n0 := n1 <| n_nbr_nbma := None |>).
    assert (p ≠ w_nbr_self w1) as Hps by (intros ->; congruence).
    pose proof (inv_new X w1 p n0 HI1 Hp) as HI2. rewrite Hkey in HI2. specialize (HI2 ltac:(by split_and!) eq_refl Ep).
    eapply (inv_link X _ p q n0 b1 n1 (b1 <| nb_nbr := Some p |>)) in HI2;
      [|cbn; apply lookup_insert_eq|done|done|exact Hq1|done|done|done|done|done|done|done|done|done|done|done|done].
    cbn [w_nbr set_fld set_w_nbr set_w_nbrs] in HI2 |- *. cbn in HI2. rewrite insert_insert_eq in HI2.
    match goal with |- runs _ ?v _ => set (w2 := v) end.
    assert (inv E X w2 ∧ w_nbr w2 !! p = Some n1 ∧ p ≠ w_nbr_self w2) as (HI3 & Hp2 & Hps2).
    { unfold w2. cbn. rewrite insert_insert_eq. split_and!; [exact HI2|apply lookup_insert_eq|done]. }
    clearbody w2. destruct (adj_inv_base X w2 HI3) as (HB & Hf & Hst).
    eapply runs_mono; [apply (nsm_inv d X w2 p n1); try done; by apply states_states_for|]. by intros [] w' (HI' & _).
Qed.

Lemma nbma_update_runs d X ks w :
  inv E X w → runs (nbma_update_walk E (ospf_nsm_event E (S (S d))) ks) w (λ _ w', inv E X w').
Proof.
  revert w. induction ks as [|k ks IH]; intros w HI; cbn [nbma_update_walk]; [by rstep|]. rstep. rstep. rstep.
  apply (runs_mono _ _ (λ _ w', inv E X w')); [|intros [] w' HI'; by apply IH].
  destruct (rt_info k (w_nbr_nbma w)) as [q|] eqn:Ek; [|by rstep].
  pose proof HI as (_ & (_ & _ & _ & _ & (_ & _ & T3) & _) & _). destruct (T3 k q Ek) as (b & Hb & Hbk).
  rstep. eapply runs_nbma; [exact Hb|]. destruct (nb_oi b) eqn:Eo; cbn [negb andb]; [by rstep|].
  case_bool_decide as Hn; cbn [andb]; [|by rstep]. destruct (e_prefix_match E (nb_addr b)); [|by rstep].
  apply (nbma_add_runs d X w q b); [done|done|by rewrite Hbk|done|done].
Qed.

Lemma interface_up_runs d X w :
  inv E X w → runs (interface_up E (ospf_nsm_event E (S (S d)))) w (λ st w', inv E X w' ∧
    (st = ISM_PointToPoint ∨ st = ISM_DROther ∨ st = ISM_Waiting)).
Proof.
  intros HI. pose proof HI as (_ & (_ & _ & (s & Hs & _) & _) & _). unfold interface_up. rstep. rstep. rstep.
  eapply runs_self; [exact Hs|]. cbv zeta. set (st := if _ || _ || _ then _ else _).
  assert (st = ISM_PointToPoint ∨ st = ISM_DROther ∨ st = ISM_Waiting) as Hst
    by (unfold st; repeat case_match; [by left|by right; left|by right; right]).
  clearbody st. rstep. apply (runs_mono _ _ (λ _ w', inv E X w')); [|intros [] w' HI'; by rstep].
  rstep; [|by rstep]. unfold ospf_nbr_nbma_if_update. rstep. rstep. rstep; [by rstep|]. rstep. rstep. by apply nbma_update_runs.
Qed.

(** ** All events of the interface *)

Lemma view_states w w' : if_view w' = if_view w → states w → full_ok w → states w' ∧ full_ok w'.
Proof.
  intros Hv Hs Hf.
  assert (w_nbr w' = w_nbr w ∧ w_nbr_self w' = w_nbr_self w ∧ w_events w' = w_events w ∧ w_full_nbrs w' = w_full_nbrs w) as (V1 & V2 & V3 & V4)
    by (unfold if_view in Hv; by simplify_eq).
  unfold states, full_ok, watched. by rewrite V1, V2, V3, V4.
Qed.

Lemma elected_states w w' : elected_frame w w' → states w → full_ok w → states w' ∧ full_ok w'.
Proof.
  intros (s & d & b & es & Hs & Hv & _) Hst Hf. apply (view_states _ _ Hv).
  - intros p n. cbn. intros Hp Hps. rewrite lookup_insert_ne in Hp by done. destruct (Hst p n Hp Hps) as [L W]. split; [done|].
    intros Hi. destruct (W Hi) as [|Hin]; [by left|right]. apply elem_of_app. by left.
  - unfold full_ok in *. cbn. by rewrite (full_count_same _ _ s).
Qed.

(** Whenever an event is executed; the event of the wait timer may have been the one that ends the waiting. *)
Definition ism_pre X (ev : Z) w : Prop :=
  lsas_ok E X w ∧ core E w ∧ states w ∧ full_ok w ∧ ism_ok E w ∧ (ev ≠ ISM_WaitTimer → wait_ends w).

(** An interface that is down. *)
Definition is_down w : Prop :=
  w_state w = ISM_Down ∧ w_t_hello w = false ∧ w_t_wait w = false ∧ (∃ s, w_nbr w = {[w_nbr_self w := s]} ∧ nbr_refs s = []) ∧
  (∀ k, rt_info k (w_ls_upd_queue w) = None) ∧ w_full_nbrs w = 0.

Lemma ism_up_runs d X w ev ns :
  inv E X w → (∀ v : ospf_world RT, ism_entry (w_state w) ev v = Some ((ism_interface_up, ns), v)) →
  runs (ism_event E (ospf_nsm_event E (S (S d))) ev) w (λ _ w', inv E X w').
Proof.
  intros HI Hent. unfold ism_event. rstep. rstep. rstep. eapply runs_run; [apply Hent|]. cbn [fst ism_run]. rstep.
  eapply runs_mono; [by apply (interface_up_runs d X)|]. intros st w1 (HI1 & Hst).
  rstep. rstep. rstep. unfold ISM_PointToPoint, ISM_DROther, ISM_Waiting in Hst.
  assert (tst st = true) as -> by (unfold tst; destruct (Z.eqb_spec st 0); [lia|done]). cbn [negb]. rstep.
  pose proof HI1 as (HL1 & HC1 & Hst1 & Hf1 & (Hr1 & _) & _).
  eapply runs_mono; [apply (ism_finish E X w1 w1 st); [done|done|done|done|unfold ISM_Down, ISM_DR; lia|done|]|].
  - unfold ISM_DR, ISM_Backup. lia.
  - intros [] w2 ((D1 & D2 & D3 & D4) & V2 & _). destruct (view_states w1 w2 V2 Hst1 Hf1). by split_and!.
Qed.

Lemma ism_down_runs d X w :
  inv E X w → runs (ism_event E (ospf_nsm_event E (S (S d))) ISM_InterfaceDown) w (λ _ w', inv E X w' ∧ is_down w').
Proof.
  intros HI. pose proof HI as (_ & _ & _ & _ & (Hr & _) & _).
  destruct (ism_entry_cases (RT := RT) (w_state w) ISM_InterfaceDown Hr) as (f & ns & Hent & _ & _ & Hf); [done|].
  specialize (Hf eq_refl) as ->. unfold ism_event. rstep. rstep. rstep. eapply runs_run; [apply Hent|]. cbn [fst ism_run]. rstep.
  rstep. eapply runs_mono; [by apply (cleanup_runs d X)|]. intros [] w1 (HL1 & HC1 & Hf1 & (s & Hs) & Hr1 & Hq1 & _ & _). rstep.
  rstep. rstep. rstep. cbn [tst Z.eqb negb]. clear ns Hent.
  destruct (ism_entry_cases (RT := RT) (w_state w1) ISM_InterfaceDown Hr1) as (f & ns & Hent & Hns & _ & Hf); [done|].
  specialize (Hf eq_refl) as ->. destruct Hns as [-> _]. rstep. eapply runs_run; [apply Hent|]. rstep. cbn [snd].
  eapply runs_mono; [apply (ism_finish E X w1 w1 ISM_Down); [done|done|done|done|done|done|by intros []]|].
  intros [] w2 ((D1 & D2 & D3 & D4) & V2 & S2 & _).
  assert (states w1) as Hst1.
  { intros p n. rewrite Hs. by intros [-> _]%lookup_singleton_Some. }
  destruct (view_states w1 w2 V2 Hst1 Hf1) as [Hst2 Hf2]. split; [by split_and!|].
  assert (w_nbr w2 = w_nbr w1 ∧ w_nbr_self w2 = w_nbr_self w1 ∧ w_ls_upd_queue w2 = w_ls_upd_queue w1) as (V3 & V4 & V5)
    by (unfold if_view in V2; by simplify_eq).
  pose proof D2 as (_ & _ & (s2 & Hs2 & Hok2) & _). rewrite V3, V4, Hs, lookup_singleton_eq in Hs2. simplify_eq.
  pose proof Hok2 as (_ & _ & _ & _ & Hs2 & _ & _ & Hrefs & _).
  destruct D3 as (_ & (T1 & _) & _). destruct (T1 ltac:(by left)) as [T2 T3].
  split_and!; [done|done|done|exists s2; by rewrite V3, V4, Hs|by rewrite V5|].
  rewrite Hf2, V3, Hs, full_count_single; [done|]. by rewrite Hs2.
Qed.

Lemma ism_execute X w ev :
  ism_pre X ev w → ISM_NoEvent < ev ≤ ISM_InterfaceDown →
  runs (OSPF_ISM_EVENT_EXECUTE E ev) w (λ _ w', inv E X w' ∧ (ev = ISM_InterfaceDown → is_down w')).
Proof.
  intros (HL & HC & Hs & Hf & HI & Hw) Hev. pose proof HI as (Hr & HT & Hrole).
  change (OSPF_ISM_EVENT_EXECUTE E ev) with (ism_event E (ospf_nsm_event E 2) ev).
  destruct (ism_entry_cases (RT := RT) (w_state w) ev Hr Hev) as (f & ns & Hent & Hcase & _ & Hdown).
  assert (elects f = true → runs (ism_event E (ospf_nsm_event E 2) ev) w
    (λ _ w', inv E X w' ∧ (ev = ISM_InterfaceDown → is_down w'))) as Hel.
  { intros Hf'. eapply runs_mono; [by eapply (ism_elect_runs E _ X w ev f ns)|]. intros [] w' ((D1 & D2 & D3 & D4) & F & _).
    destruct (elected_states w w' F Hs Hf). split; [by split_and!|]. intros He. by rewrite (Hdown He) in Hf'. }
  assert (f = ism_ignore ∨ f = ism_loop_ind → ns = ISM_Down ∨ ns = ISM_Loopback ∨ ns = w_state w →
    runs (ism_event E (ospf_nsm_event E 2) ev) w (λ _ w', inv E X w' ∧ (ev = ISM_InterfaceDown → is_down w'))) as Hig.
  { intros Hf' Hns. eapply runs_mono; [by eapply (ism_ignore_runs E _ X w ev f ns)|]. intros [] w' ((D1 & D2 & D3 & D4) & V & _).
    destruct (view_states w w' V Hs Hf). split; [by split_and!|]. intros He. rewrite (Hdown He) in Hf'. by destruct Hf'. }
  destruct f; [apply Hig; [by left|naive_solver]| |apply Hig; [by right|naive_solver]| |by apply Hel..].
  - assert (inv E X w) as HIw by (split_and!; try done; intros Hx; by rewrite Hcase in Hx).
    eapply runs_mono; [by eapply (ism_up_runs 0 X)|]. intros [] w' HI'. split; [done|]. intros He. by specialize (Hdown He).
  - destruct Hcase as [-> ->]. assert (inv E X w) as HIw by (split_and!; try done; by apply Hw).
    eapply runs_mono; [by eapply (ism_down_runs 0 X)|]. by intros [] w' [? ?].
Qed.

End If.
