(* ===== verification/OspfAdjRecv.v ===== *)
(** * OSPF: packets and timers keep the invariant *)

From stdpp Require Import gmap.
From S2P Require Import Prelude Fault OspfTable OspfLsa OspfVertex OspfLsaProps OspfNbr OspfAdj OspfElect OspfAdjMem OspfAdjRefs OspfAdjInv OspfAdjIsm OspfAdjNsm OspfAdjIf.

Section Recv.
Context {RT : Type → Type} `{RouteTableLaws RT}.
Context (E : adj_env).

Implicit Types w v : ospf_world RT.
Implicit Types n s m : ospf_neighbor RT.
Implicit Types b : ospf_nbr_nbma.

(** ** Events that are scheduled *)

Lemma schedule_runs X w e (Q : unit → ospf_world RT → Prop) :
  inv E X w → event_ok w e → plain_event e = true →
  (∀ w', w' = w <| w_events := w_events w ++ [e] |> → inv E X w' → Q tt w') → runs (schedule e) w Q.
Proof. intros HI He Hp HQ. unfold schedule. rstep. apply HQ; [done|]. by apply inv_event. Qed.

(** The state that all steps of a packet work on: [p] is a neighbour with [P], and what the steps never change. *)
Definition at_nbr X w0 (p : nat) (P : ospf_neighbor RT → Prop) w : Prop :=
  inv E X w ∧ (∃ n, w_nbr w !! p = Some n ∧ P n) ∧ w_nbr_self w = w_nbr_self w0 ∧ w_type w = w_type w0.
Definition on_nbr X w0 (p : nat) : ospf_world RT → Prop := at_nbr X w0 p (λ _, True).

Lemma at_nbr_refl X w p n (P : ospf_neighbor RT → Prop) : inv E X w → w_nbr w !! p = Some n → P n → at_nbr X w p P w.
Proof. intros HI Hn HP. split_and!; [done|by exists n|done..]. Qed.

Lemma at_nbr_weaken X w0 p (P P' : ospf_neighbor RT → Prop) w : at_nbr X w0 p P w → (∀ n, P n → P' n) → at_nbr X w0 p P' w.
Proof. intros (A1 & (n & Hn & HP) & A3 & A4) HPP. split_and!; [done|exists n; by auto|done..]. Qed.

Lemma at_nbr_trans X w0 w1 p P P' w : at_nbr X w0 p P w1 → at_nbr X w1 p P' w → at_nbr X w0 p P' w.
Proof. intros (A1 & A2 & A3 & A4) (B1 & B2 & B3 & B4). split_and!; [done|done|congruence..]. Qed.

Lemma at_nbr_event X w0 p P w e :
  at_nbr X w0 p P w → event_ok w e → plain_event e = true →
  runs (schedule e) w (λ _ w', at_nbr X w0 p P w').
Proof. intros (A1 & A2 & A3 & A4) He Hp. eapply schedule_runs; [done..|]. intros w' -> HI'. by split_and!. Qed.

Lemma at_nbr_nsm X w0 p P w ev :
  at_nbr X w0 p P w → p ≠ w_nbr_self w0 → NSM_NoEvent < ev ≤ NSM_LLDown →
  runs (OSPF_NSM_EVENT_SCHEDULE p ev) w (λ _ w', at_nbr X w0 p P w').
Proof.
  intros HA Hps Hev. apply at_nbr_event; [done| |done]. destruct HA as (_ & (n & Hn & _) & A3 & _). cbn. rewrite A3.
  split_and!; [done|by eexists|apply Hev..].
Qed.

Lemma at_nbr_upd X w0 p (P P' : ospf_neighbor RT → Prop) w f :
  at_nbr X w0 p P w → p ≠ w_nbr_self w0 →
  (∀ n, same_link n (f n)) → (∀ n, same_lists n (f n)) → (∀ n, P n → same_state n (f n)) → (∀ n, P n → P' (f n)) →
  runs (upd_nbr p f) w (λ _ w', at_nbr X w0 p P' w').
Proof.
  intros (A1 & (n & Hn & HP) & A3 & A4) Hps F1 F2 F3 F4. eapply runs_upd_nbr; [done|].
  split_and!; [|cbn; rewrite lookup_insert_eq; by eauto|done..]. eapply inv_upd; [done|done|congruence|by auto..].
Qed.

Lemma at_nbr_nbr X w0 p P w (Q : ospf_neighbor RT → ospf_world RT → Prop) :
  at_nbr X w0 p P w → (∀ n, w_nbr w !! p = Some n → P n → Q n w) → runs (nbr p) w Q.
Proof. intros (A1 & (n & Hn & HP) & _) HQ. eapply runs_nbr; [done|]. by apply HQ. Qed.

Lemma inv_self X w (Q : ospf_neighbor RT → ospf_world RT → Prop) :
  inv E X w → (∀ s, w_nbr w !! w_nbr_self w = Some s → self_ok E s → Q s w) → runs self w Q.
Proof. intros (_ & (_ & _ & (s & Hs & Hok) & _) & _) HQ. eapply runs_self; [done|]. by apply HQ. Qed.

(** ** Looking neighbours up *)

(** Packets come from other routers. *)
Definition foreign (type src router_id : Z) : Prop :=
  if type =? OSPF_IFTYPE_VIRTUALLINK then router_id ≠ e_router_id E else src ≠ e_address E.

Lemma lookup_runs X w src router_id (Q : option nat → ospf_world RT → Prop) :
  inv E X w → foreign (w_type w) src router_id →
  (∀ o, (∀ p, o = Some p → p ≠ w_nbr_self w ∧ is_Some (w_nbr w !! p)) → Q o w) → runs (ospf_nbr_lookup src router_id) w Q.
Proof.
  intros (_ & HC & _) Hf HQ. pose proof HC as (_ & C2 & (s & Hs & Hok) & _). destruct Hok as (Hrid & Hsrc & _).
  unfold ospf_nbr_lookup, foreign in *. rstep. rstep. destruct (w_type w =? OSPF_IFTYPE_VIRTUALLINK) eqn:Et.
  - unfold ospf_nbr_lookup_by_routerid. rstep. eapply runs_run; [apply all_nbrs_run; by eapply core_live|]. rstep. apply HQ.
    intros p Hp. apply fmap_Some in Hp as ([i [p' n]] & Hl & ->). apply list_find_Some in Hl as (Hl & Hid & _). cbn in *.
    apply list_elem_of_lookup_2, nbr_pairs_elem in Hl. split; [|by eexists]. intros ->. congruence.
  - unfold ospf_nbr_lookup_by_addr. rstep. apply HQ. intros p Hp. destruct (C2 src p Hp) as (n & Hn & Hk). split; [|by eexists].
    intros ->. assert (n = s) as -> by congruence. unfold ospf_nbr_key in Hk. rewrite Et in Hk. congruence.
Qed.

(** ** A neighbour for a Hello *)

(** The configured neighbour with the address [src], if there is one, is linked to the new neighbour. *)
Lemma nbma_link_runs w p n src qs :
  w_nbr w !! p = Some n → NoDup qs → (∀ q, q ∈ qs → is_Some (w_nbma w !! q)) →
  (∀ q q' b b', q ∈ qs → q' ∈ qs → w_nbma w !! q = Some b → w_nbma w !! q' = Some b' → nb_addr b = src → nb_addr b' = src → q = q') →
  runs (nbma_link p src qs) w (λ _ w', w' = w ∨ ∃ q b c, q ∈ qs ∧ w_nbma w !! q = Some b ∧ nb_addr b = src ∧
    w' = w <| w_nbma := <[q := b <| nb_nbr := Some p |> <| nb_t_poll := false |>]> (w_nbma w) |>
           <| w_nbr := <[p := n <| n_nbr_nbma := Some q |> <| n_state_change := c |>]> (w_nbr w) |>).
Proof.
  intros Hp Hnd Hlive Huniq. induction qs as [|q qs IH]; cbn [nbma_link]; [rstep; by left|].
  apply list.NoDup_cons in Hnd as [Hnin Hnd]. destruct (Hlive q) as [b Hb]; [by apply elem_of_cons; left|].
  rstep. eapply runs_nbma; [exact Hb|]. destruct (Z.eqb_spec (nb_addr b) src) as [Ha|Ha].
  - rstep. rstep. eapply runs_upd_nbma; [exact Hb|]. rstep. eapply runs_upd_nbr; [exact Hp|].
    rstep. eapply runs_upd_nbma; [cbn; apply lookup_insert_eq|]. eapply runs_upd_nbr; [cbn; apply lookup_insert_eq|].
    cbn [w_nbma w_nbr set_fld set_w_nbr set_w_nbma]. cbn. rewrite !insert_insert_eq.
    match goal with |- runs _ ?v _ => set (w1 := v) end.
    apply (runs_mono _ _ (λ _ w', w' = w1)).
    + assert (∀ r, r ∈ qs → ∃ c, w_nbma w1 !! r = Some c ∧ nb_addr c ≠ src) as Hno.
      { intros r Hr. destruct (Hlive r) as [c Hc]; [by apply elem_of_cons; right|]. exists c.
        assert (q ≠ r) as Hqr by (intros ->; done). split; [unfold w1; cbn; by rewrite lookup_insert_ne|].
        intros Hs. apply Hqr. eapply Huniq; [by apply elem_of_cons; left|by apply elem_of_cons; right|exact Hb|exact Hc|done|done]. }
      clearbody w1. clear - Hno. induction qs as [|r qs IH]; cbn [nbma_link]; [by rstep|].
      destruct (Hno r) as (c & Hc & Hne); [by apply elem_of_cons; left|]. rstep. eapply runs_nbma; [exact Hc|].
      destruct (Z.eqb_spec (nb_addr c) src) as [|_]; [done|]. rstep. rstep. apply IH. intros r' Hr'. apply Hno. by apply elem_of_cons; right.
    + intros [] w' ->. right. exists q, b, (u32 (nb_state_change b + 1)). split_and!; [by apply elem_of_cons; left|done|done|done].
  - rstep. rstep. eapply runs_mono; [apply IH; [done|..]|].
    + intros r Hr. apply Hlive. by apply elem_of_cons; right.
    + intros r r' c c' Hr Hr'. apply Huniq; by apply elem_of_cons; right.
    + intros [] w' [->|(r & c & k & Hr & Hc)]; [by left|right]. exists r, c, k. split; [by apply elem_of_cons; right|done].
Qed.

(** What [ospf_nbr_add] leaves: [p] is new, and linked to a configured neighbour or not. *)
Definition nbr_added w (src : Z) (p : nat) w' : Prop :=
  ∃ n, w_nbr w !! p = None ∧ fresh_nbr E n ∧ n_src n = src ∧
    (n_nbr_nbma n = None ∧ w' = w <| w_nbr := <[p := n]> (w_nbr w) |> ∨
     ∃ q b b', n_nbr_nbma n = Some q ∧ w_type w = OSPF_IFTYPE_NBMA ∧ q ∈ w_if_nbma w ∧ w_nbma w !! q = Some b ∧ nb_addr b = src ∧
       nb_addr b' = src ∧ nb_nbr b' = Some p ∧ nb_oi b' = nb_oi b ∧
       w' = w <| w_nbma := <[q := b']> (w_nbma w) |> <| w_nbr := <[p := n]> (w_nbr w) |>).

Lemma nbr_added_upd w src p w' n' (f : ospf_neighbor RT → ospf_neighbor RT) :
  nbr_added w src p w' → w_nbr w' !! p = Some n' →
  (∀ n, n_src (f n) = n_src n ∧ n_nbr_nbma (f n) = n_nbr_nbma n ∧ (fresh_nbr E n → fresh_nbr E (f n))) →
  nbr_added w src p (w' <| w_nbr := <[p := f n']> (w_nbr w') |>).
Proof.
  intros (n & Hp & Hfr & Hs & Hc) Hn' Hf. exists (f n').
  assert (n' = n) as ->.
  { destruct Hc as [[_ ->]|(q & b & b' & _ & _ & _ & _ & _ & _ & _ & _ & ->)]; cbn in Hn'; rewrite lookup_insert_eq in Hn'; by simplify_eq. }
  destruct (Hf n) as (F1 & F2 & F3). split_and!; [done|by apply F3|by rewrite F1|].
  destruct Hc as [[Hnn ->]|(q & b & b' & Hnn & C2 & C3 & C4 & C5 & C6 & C7 & C8 & ->)].
  - left. split; [by rewrite F2|]. cbn. by rewrite insert_insert_eq.
  - right. exists q, b, b'. split_and!; [by rewrite F2|done..|]. cbn. by rewrite insert_insert_eq.
Qed.

Lemma nbr_add_runs w src len crypt :
  core E w → runs (ospf_nbr_add E src len crypt) w (λ p w', nbr_added w src p w').
Proof.
  intros (_ & _ & _ & _ & (T1 & T2 & T3) & _). unfold ospf_nbr_add. rstep. apply nbr_new_runs. intros p Hp. rstep.
  eapply runs_upd_nbr; [cbn; apply lookup_insert_eq|]. cbn [w_nbr set_fld set_w_nbr]. cbn. rewrite insert_insert_eq.
  set (n1 := (new_nbr E) <| n_state := _ |> <| n_src := _ |> <| n_address := _ |> <| n_prefixlen := _ |> <| n_nbr_nbma := _ |>).
  set (w1 := w <| w_nbr := <[p := n1]> (w_nbr w) |>). rstep. rstep. rstep.
  assert (nbr_added w src p w1) as H1' by (exists n1; split_and!; [done|by split_and!|done|by left]).
  apply (runs_mono _ _ (λ _ w', nbr_added w src p w')).
  { rstep; [|by rstep]. match goal with Ht : (_ =? _) = true |- _ => apply Z.eqb_eq in Ht as Hty end. rstep. rstep.
    assert (∀ q, q ∈ w_if_nbma w1 → ∃ b, w_nbma w1 !! q = Some b ∧ rt_info (nb_addr b) (w_nbr_nbma w) = Some q) as Hlive by exact T2.
    eapply runs_mono; [apply (nbma_link_runs w1 p n1 src)|].
    - cbn. apply lookup_insert_eq.
    - exact T1.
    - intros q Hq. destruct (Hlive q Hq) as (b & Hb & _). by eexists.
    - intros q q' b b' Hq Hq' Hb Hb' Ha Ha'. destruct (Hlive q Hq) as (c & Hc & Hk), (Hlive q' Hq') as (c' & Hc' & Hk').
      simplify_eq. congruence.
    - intros [] w' [->|(q & b & c & Hq & Hb & Ha & ->)]; [done|].
      exists (n1 <| n_nbr_nbma := Some q |> <| n_state_change := c |>). split_and!; [done|by split_and!|done|right].
      exists q, b, (b <| nb_nbr := Some p |> <| nb_t_poll := false |>).
      split_and!; [done|exact Hty|exact Hq|exact Hb|done|exact Ha|done|done|]. cbn. by rewrite insert_insert_eq. }
  intros [] w2 H2'. rstep. apply (runs_mono _ _ (λ _ w', nbr_added w src p w')); [|intros [] w3 H3'; by rstep].
  destruct crypt as [c|]; [|by rstep].
  assert (∃ n2, w_nbr w2 !! p = Some n2) as [n2 Hn2].
  { destruct H2' as (n & _ & _ & _ & [[_ ->]|(q & b & b' & _ & _ & _ & _ & _ & _ & _ & _ & ->)]); exists n; cbn; apply lookup_insert_eq. }
  eapply runs_upd_nbr; [exact Hn2|]. apply (nbr_added_upd w src p w2 n2 (λ n, n <| n_crypt_seqnum := c |>)); [done|done|]. by intros n.
Qed.

(** The neighbour is put into the table. *)
Lemma nbr_added_inv X w src p w' n' :
  inv E X w → nbr_added w src p w' → w_nbr w' !! p = Some n' →
  rt_info (ospf_nbr_key (w_type w) n') (w_nbrs w) = None →
  inv E X (w' <| w_nbrs := rt_set (ospf_nbr_key (w_type w) n') (Some p) (w_nbrs w') |>).
Proof.
  intros HI (n & Hp & Hfr & Hs & Hc) Hn' Hk. pose proof HI as (_ & HC & _).
  destruct Hc as [[Hnn ->]|(q & b & b' & Hnn & Hty & Hq & Hb & Ha & B1 & B2 & B3 & ->)]; cbn in Hn'; rewrite lookup_insert_eq in Hn'; simplify_eq.
  - exact (inv_new E X w p n' HI Hp Hfr Hnn Hk).
  - pose proof HC as (C1 & _ & (s & Hself & _) & C4 & _). destruct (C4 q b Hb) as (N1 & N2 & N3).
    assert (∀ m, ospf_nbr_key (w_type w) m = n_src m) as Hkey by (intros; unfold ospf_nbr_key; by rewrite Hty).
    assert (p ≠ w_nbr_self w) as Hps by congruence. rewrite Hkey in Hk |- *.
    set (n0 := n' <| n_nbr_nbma := None |>).
    pose proof (inv_new E X w p n0 HI Hp) as HI2. rewrite Hkey in HI2. specialize (HI2 Hfr eq_refl Hk).
    assert (nb_nbr b = None) as Hbn.
    { destruct (nb_nbr b) as [p'|] eqn:Ep; [|done]. destruct (N1 p' eq_refl) as (_ & m & Hm & _ & Hm2).
      destruct (C1 p' m Hm) as (L1 & _). rewrite Hkey, Hm2 in L1 by (by rewrite Hty). congruence. }
    eapply (inv_link E X _ p q n0 b n' b') in HI2;
      [|cbn; apply lookup_insert_eq|done|done|exact Hb|done|by apply N3|done|done|done|done|done|by rewrite B1, Ha|done
       |by rewrite B3; apply N3|done|].
    + cbn in HI2. rewrite insert_insert_eq in HI2. exact HI2.
    + by split_and!.
Qed.

Lemma nbr_get_runs X w router_id src len crypt :
  inv E X w → foreign (w_type w) src router_id →
  runs (ospf_nbr_get E router_id src len crypt) w (λ p w', p ≠ w_nbr_self w ∧ on_nbr X w p w').
Proof.
  intros HI Hf. pose proof HI as (_ & HC & _). pose proof HC as (C1 & C2 & (s & Hself & Hok) & _).
  unfold ospf_nbr_get. rstep. rstep. cbv zeta. set (key := if _ =? _ then router_id else src). rstep. rstep. rstep.
  assert (∀ n, ospf_nbr_key (w_type w) n = if w_type w =? OSPF_IFTYPE_VIRTUALLINK then n_router_id n else n_src n) as Hkey by done.
  assert (ospf_nbr_key (w_type w) s ≠ key) as Hks.
  { rewrite Hkey. unfold foreign, key in *. destruct Hok as (O1 & O2 & _). destruct (w_type w =? _); congruence. }
  destruct (rt_info key (w_nbrs w)) as [p|] eqn:Ek.
  - destruct (C2 key p Ek) as (n & Hp & Hkn). assert (p ≠ w_nbr_self w) as Hps by (intros ->; congruence).
    rstep. eapply runs_nbr; [done|]. rstep.
    apply (runs_mono _ _ (λ _ w', on_nbr X w p w' ∧ ∃ n', w_nbr w' !! p = Some n' ∧ ospf_nbr_key (w_type w) n' = key)).
    + destruct (Z.eqb_spec (w_type w) OSPF_IFTYPE_NBMA) as [Hty|_]; cbn [andb].
      2:{ rstep. split; [|by exists n]. split_and!; [done|by eexists|done..]. }
      destruct (n_state n =? NSM_Attempt); [|rstep; split; [split_and!; [done|by eexists|done..]|by exists n]].
      assert (n_src n = src) as Hs by (revert Hkn; rewrite Hkey; unfold key; rewrite Hty; done).
      eapply runs_upd_nbr; [done|]. split.
      * split_and!; [|cbn; rewrite lookup_insert_eq; by eexists|done..]. eapply inv_upd; [done|done|done| |done|done]. by split_and!.
      * cbn. eexists. rewrite lookup_insert_eq. split; [done|]. rewrite Hkey. unfold key. rewrite Hty. done.
    + intros [] w1 (A1 & n1 & Hn1 & Hk1). rstep. rstep. eapply runs_upd_nbr; [exact Hn1|]. rstep. split; [done|].
      destruct A1 as (B1 & B2 & B3 & B4). split_and!; [|cbn; rewrite lookup_insert_eq; by eexists|done..].
      eapply inv_key; [done|done|congruence| |done|done]. split_and!; [|done|done|done].
      rewrite B4, Hk1, Hkey. cbn. unfold key in *. rewrite Hkey in Hk1. by destruct (w_type w =? _).
  - rstep. eapply runs_mono; [by apply nbr_add_runs|]. intros p w1 H1'.
    assert (∃ n1, w_nbr w1 !! p = Some n1 ∧ w_nbrs w1 = w_nbrs w ∧ w_nbr_self w1 = w_nbr_self w ∧ w_type w1 = w_type w ∧ w_state w1 = w_state w
      ∧ w_nbr w !! p = None ∧ n_src n1 = src)
      as (n1 & Hn1 & V1 & V2 & V3 & V4 & Hp & Hs1).
    { destruct H1' as (n & Hp & _ & Hs & [[_ ->]|(q & b & b' & _ & _ & _ & _ & _ & _ & _ & _ & ->)]); exists n; (split; [cbn; apply lookup_insert_eq|]); done. }
    rstep. rstep. rstep. rstep. eapply runs_upd_nbr; [exact Hn1|]. rstep.
    assert (p ≠ w_nbr_self w) as Hps by (intros ->; congruence). split; [done|].
    pose proof (nbr_added_upd w src p w1 n1 (λ n, n <| n_router_id := router_id |>) H1' Hn1 ltac:(by intros n)) as H2'.
    set (n2 := n1 <| n_router_id := router_id |>) in *.
    pose proof (nbr_added_inv X w src p _ n2 HI H2' ltac:(cbn; apply lookup_insert_eq)) as HI2.
    assert (ospf_nbr_key (w_type w) n2 = key) as Hk2 by (rewrite Hkey; unfold key; cbn; by rewrite Hs1).
    rewrite Hk2 in HI2. specialize (HI2 Ek).
    split_and!; [exact HI2|cbn; rewrite lookup_insert_eq; by eexists|done..].
Qed.

(** ** Hello *)

Lemma backup_seen_runs X w0 p P w seen : at_nbr X w0 p P w → runs (BackupSeen_event seen) w (λ _ w', at_nbr X w0 p P w').
Proof. intros HA. unfold BackupSeen_event. rstep. rstep. rstep; [|by rstep]. by apply at_nbr_event. Qed.

Lemma nbr_change_runs X w0 p P w c : at_nbr X w0 p P w → runs (NeighborChange_event c) w (λ _ w', at_nbr X w0 p P w').
Proof. intros HA. unfold NeighborChange_event. destruct c; [|by rstep]. by apply at_nbr_event. Qed.

Lemma hello_recv_runs X w src router_id crypt hello :
  inv E X w → src ≠ e_address E →
  runs (ospf_hello_recv E src router_id crypt hello) w (λ _ w', inv E X w').
Proof.
  intros HI Hsrc. unfold ospf_hello_recv. rstep. rstep. rstep. eapply inv_self; [done|]. intros s Hs Hok.
  destruct (hello_ignored E (w_type w) router_id (n_options s) hello) eqn:Eign; [by rstep|].
  assert (foreign (w_type w) src router_id) as Hf.
  { unfold foreign. case_match; [|done]. unfold hello_ignored in Eign. intros ->. by rewrite Z.eqb_refl in Eign. }
  rstep. eapply runs_mono; [by apply (nbr_get_runs X w)|]. intros p w1 [Hps HA]. rstep. eapply at_nbr_nbr; [done|]. intros n Hn _. cbv zeta.
  rstep. eapply runs_mono; [by apply (at_nbr_nsm X w p)|]. intros [] w2 HA2. rstep. eapply inv_self; [apply HA2|]. intros s2 _ _.
  rstep. apply (runs_mono _ _ (λ _ w', on_nbr X w p w')).
  { rstep; [|by rstep]. by eapply at_nbr_upd. }
  intros [] w3 HA3. apply (runs_mono _ _ (λ _ w', on_nbr X w p w')); [|by intros [] w' (HI' & _)].
  assert (∀ w4, on_nbr X w p w4 → runs (set_nbr_info p hello) w4 (λ _ w', on_nbr X w p w')) as Hinfo.
  { intros w4 HA4. by eapply at_nbr_upd. }
  rstep; [|rstep].
  - rstep. eapply runs_mono; [by apply (at_nbr_nsm X w p)|]. intros [] w4 HA4. by apply Hinfo.
  - rstep. eapply runs_mono; [by apply (at_nbr_nsm X w p)|]. intros [] w4 HA4.
    rstep. eapply runs_mono; [by eapply (at_nbr_upd X w p _ (λ _, True) w4)|]. intros [] w5 HA5.
    rstep. eapply at_nbr_nbr; [done|]. intros n5 Hn5 _. cbv zeta.
    rstep. eapply runs_mono; [by apply (backup_seen_runs X w p)|]. intros [] w6 HA6.
    rstep. eapply runs_mono; [by apply (backup_seen_runs X w p)|]. intros [] w7 HA7.
    rstep. eapply runs_mono; [by apply (nbr_change_runs X w p)|]. intros [] w8 HA8.
    rstep. eapply runs_mono; [by apply (nbr_change_runs X w p)|]. intros [] w9 HA9.
    rstep. eapply runs_mono; [by apply (nbr_change_runs X w p)|]. intros [] w10 HA10. by apply Hinfo.
  - rstep. eapply runs_mono; [by apply (at_nbr_nsm X w p)|]. intros [] w4 HA4. by apply Hinfo.
Qed.

(** ** Database descriptions *)

(** A step of an event of [p] is a step of a packet, too. *)
Lemma nstep_inv X w p n w' n' :
  inv E X w → p ≠ w_nbr_self w → nbr_local n → watched w p n → nstep E X p w n w' n' → nbr_local n' → inv E X w'.
Proof.
  intros HI Hps Hloc Hw (B & F & Hn' & Hf & Hc & Hst & Hin & _) Hloc'. pose proof HI as (_ & _ & Hs & Hfull & _).
  destruct B as (B1 & B2 & B3 & B4). destruct F as (F1 & F2 & F3 & F4 & F5 & F6). split_and!; [done|done| | |done|done].
  - intros r m Hm Hr. rewrite F2 in Hr. destruct (decide (r = p)) as [->|Hrp].
    + assert (m = n') as -> by congruence. split; [done|]. intros Hi. rewrite Hst in Hi. rewrite Hin.
      destruct (Hw Hi) as [|He]; [by left|right]. by apply F4.
    + rewrite F1 in Hm by done. destruct (Hs r m Hm Hr) as [Lm Wm]. split; [done|]. intros Hi.
      destruct (Wm Hi) as [|He]; [by left|right]. by apply F4.
  - unfold full_ok in *. congruence.
Qed.

Lemma ms_clr_m f : CHECK_FLAG (clr f OSPF_DD_FLAG_M) OSPF_DD_FLAG_MS = CHECK_FLAG f OSPF_DD_FLAG_MS.
Proof.
  unfold CHECK_FLAG, clr. rewrite <- Z.land_assoc. by rewrite (Z.land_comm (Z.lnot _)).
Qed.

Definition exchanging n : Prop := n_state n = NSM_Exchange.

(** A description is sent in the state Exchange. *)
Lemma dd_send_runs X w0 p w :
  at_nbr X w0 p exchanging w → p ≠ w_nbr_self w0 → runs (ospf_db_desc_send E p) w (λ _ w', at_nbr X w0 p exchanging w').
Proof.
  intros (HI & (n & Hn & Hst) & A3 & A4) Hps. destruct (adj_inv_base E X w HI) as (HB & _ & Hstates).
  assert (p ≠ w_nbr_self w) as Hps' by congruence. destruct (Hstates p n Hn Hps') as [Hloc Hw]. unfold exchanging in Hst.
  eapply runs_mono; [apply (db_desc_send_nstep E X w p n); [done|done|done|left; rewrite Hst; unfold NSM_Exchange; lia]|].
  intros [] w' (n' & d & lps & n1 & Hns & (db' & E1 & _) & En). pose proof Hns as (B' & F' & Hn' & _ & _ & Hst' & _).
  pose proof Hloc as (L1 & L2 & L3 & L4 & L5 & L6 & L7 & L8). unfold NSM_Exchange in Hst.
  assert (nbr_local n') as Hloc'.
  { rewrite En, E1. unfold nbr_local, last_ok, nbr_refs, dd_sent. cbn. unfold NSM_Down, NSM_Full, NSM_ExStart, NSM_Exchange in *. rewrite Hst.
    split_and!; try lia.
    - exact L2.
    - intros _. apply L4. lia.
    - intros _. by eexists.
    - intros _ Hms. apply L7; [done|]. revert Hms. case_bool_decide; [intros Hms; rewrite <- ms_clr_m; exact Hms|done]. }
  assert (inv E X w') as HI' by (by apply (nstep_inv X w p n w' n')). destruct F' as (_ & F2 & F3 & _).
  split_and!; [done|exists n'; split; [done|unfold exchanging; by rewrite Hst']|congruence..].
Qed.

(** The lists of a neighbour in the state Exchange are changed. *)
Lemma exchanging_lists X w p n h' n' :
  inv E X w → w_nbr w !! p = Some n → p ≠ w_nbr_self w → exchanging n → nbr_core n' = nbr_core n →
  n_ls_req_last n' = n_ls_req_last n → lsas_ok E X (wset w h' p n') → inv E X (wset w h' p n') ∧ exchanging n'.
Proof.
  intros HI Hn Hps Hst Hc Hl HL. destruct (adj_inv_base E X w HI) as (HB & _ & Hstates). destruct (Hstates p n Hn Hps) as [Hloc Hw].
  assert (n_state n' = n_state n) as Hst' by exact (f_equal n_state Hc). split; [|unfold exchanging in *; congruence].
  destruct (base_step E X w (wset w h' p n') p n n') as [(B1 & B2 & B3 & B4) _]; [done..|by apply core_same_link|done|done|done|].
  apply (inv_step E X w); [done|done|done|done|done|done|cbn; by eapply full_count_same|done|cbn; by rewrite lookup_insert_ne|].
  intros r m'. cbn. destruct (decide (p = r)) as [<-|]; [|rewrite lookup_insert_ne by done; intros Hm _; left; by exists m'].
  rewrite lookup_insert_eq. intros [= <-] _. left. exists n. split; [done|]. split_and!; [intros _|done|].
  - pose proof Hloc as (L1 & L2 & L3 & L4 & L5 & L6 & L7 & L8). unfold exchanging, nbr_local, last_ok, dd_sent in *.
    assert (n_t_ls_req n' = n_t_ls_req n ∧ n_t_db_desc n' = n_t_db_desc n ∧ n_last_send n' = n_last_send n ∧ n_dd_flags n' = n_dd_flags n)
      as (-> & -> & -> & ->) by (split_and!; [exact (f_equal n_t_ls_req Hc)|exact (f_equal n_t_db_desc Hc)
        |exact (f_equal n_last_send Hc)|exact (f_equal n_dd_flags Hc)]).
    rewrite Hst', Hl. destruct L4 as [A1 A2]; [rewrite Hst; unfold NSM_Exchange; lia|]. rewrite A1.
    split_and!; try done; rewrite Hst; unfold NSM_Exchange, NSM_Down, NSM_Full, NSM_ExStart in *; try lia.
  - by rewrite (f_equal n_t_inactivity Hc : n_t_inactivity n' = n_t_inactivity n).
Qed.

Lemma header_runs X w0 p w lsah :
  at_nbr X w0 p exchanging w → p ≠ w_nbr_self w0 → bad_header E lsah = false → Z.of_nat (size (w_lsas w)) + 1 < 2 ^ 64 →
  runs (db_desc_header E p lsah) w (λ _ w', at_nbr X w0 p exchanging w' ∧ (size (w_lsas w') ≤ size (w_lsas w) + 1)%nat).
Proof.
  intros (HI & (n & Hn & Hst) & A3 & A4) Hps Hbad Hsz. pose proof HI as (HL & _).
  assert (1 ≤ h_type lsah < OSPF_MAX_LSA) as Ht.
  { unfold bad_header, OSPF_MIN_LSA in Hbad. apply orb_false_iff in Hbad as [[H1' H2']%orb_false_iff _].
    rewrite Z.geb_leb in H2'. apply Z.ltb_ge in H1'. apply Z.leb_gt in H2'. lia. }
  eapply runs_mono; [by apply (db_desc_header_runs E X w p n lsah)|].
  intros [] w' (h' & n' & -> & Hc & HL' & _ & Hs' & (_ & Hlast & _)). split; [|done].
  destruct (exchanging_lists X w p n h' n') as [HI' Hst']; [done|done|congruence|done..|].
  split_and!; [done|exists n'; split; [apply wset_lookup|done]|done|done].
Qed.

Lemma headers_runs X w0 p w hs :
  at_nbr X w0 p exchanging w → p ≠ w_nbr_self w0 → Z.of_nat (size (w_lsas w)) + Z.of_nat (length hs) < 2 ^ 64 →
  runs (db_desc_headers E p hs) w (λ _ w', at_nbr X w0 p exchanging w').
Proof.
  intros HA Hps. revert w HA. induction hs as [|lsah hs IH]; intros w HA Hsz; cbn [db_desc_headers]; [by rstep|].
  cbn [length] in Hsz. destruct (bad_header E lsah) eqn:Eb.
  - rstep. eapply runs_mono; [by apply (at_nbr_nsm X w0 p)|]. intros [] w' HA'. by rstep.
  - rstep. eapply runs_mono; [apply (header_runs X w0 p w lsah); [done|done|done|lia]|]. intros [] w' [HA' Hs']. apply IH; [done|lia].
Qed.

Lemma dd_proc_runs X w0 p w dd :
  at_nbr X w0 p exchanging w → p ≠ w_nbr_self w0 → Z.of_nat (size (w_lsas w)) + Z.of_nat (length (dd_headers dd)) < 2 ^ 64 →
  runs (ospf_db_desc_proc E p dd) w (λ _ w', at_nbr X w0 p exchanging w').
Proof.
  intros HA Hps Hsz. unfold ospf_db_desc_proc. rstep. eapply runs_mono; [by apply (headers_runs X w0 p)|]. intros ok w1 HA1.
  rstep; [by rstep|]. rstep. eapply at_nbr_nbr; [exact HA1|]. intros n1 Hn1 Hst1.
  assert (∀ w2 z, at_nbr X w0 p exchanging w2 →
    runs (upd_nbr p (λ n, n <| n_dd_seqnum := z n |>)) w2 (λ _ w', at_nbr X w0 p exchanging w')) as Hseq.
  { intros w2 z HA2. by eapply at_nbr_upd. }
  rstep. apply (runs_mono _ _ (λ _ w', at_nbr X w0 p exchanging w')).
  - rstep.
    + rstep. eapply runs_mono; [by apply (Hseq w1 (λ n, u32 (n_dd_seqnum n + 1)))|]. intros [] w2 HA2. rstep.
      * by apply at_nbr_nsm.
      * by apply dd_send_runs.
    + rstep. eapply runs_mono; [by apply (Hseq w1 (λ _, dd_seqnum dd))|]. intros [] w2 HA2.
      rstep. eapply runs_mono; [by apply (dd_send_runs X w0 p)|]. intros [] w3 HA3. rstep. eapply at_nbr_nbr; [exact HA3|]. intros n3 _ _.
      rstep; [by apply at_nbr_nsm|by rstep].
  - intros [] w2 HA2. by eapply at_nbr_upd.
Qed.

(** An event of [p] that does not delete it. *)
Lemma execute_runs X w p n ev :
  inv E X w → w_nbr w !! p = Some n → p ≠ w_nbr_self w → NSM_NoEvent < ev < NSM_KillNbr →
  runs (OSPF_NSM_EVENT_EXECUTE E p ev) w (λ _ w', ∃ n', inv E X w' ∧ w_nbr w' !! p = Some n' ∧ w_nbr_self w' = w_nbr_self w ∧
    no_alloc w w' ∧ (n_state n = NSM_ExStart → ev = NSM_NegotiationDone → n_state n' = NSM_Exchange)).
Proof.
  intros HI Hn Hps Hev. unfold NSM_NoEvent, NSM_KillNbr in Hev.
  eapply runs_mono; [apply (nsm_execute E X w p n ev); [done..|unfold NSM_NoEvent, NSM_LLDown; lia]|].
  intros [] w' (HI' & (_ & X2 & _ & _ & X5) & Ha). unfold nbr_after in Ha.
  destruct (Z.leb_spec NSM_KillNbr ev) as [Hle|_]; [unfold NSM_KillNbr in Hle; lia|]. destruct Ha as (n' & Hn' & _ & _ & Hx). by exists n'.
Qed.

Lemma negotiated_runs X w p n flags dd :
  inv E X w → w_nbr w !! p = Some n → p ≠ w_nbr_self w → n_state n = NSM_ExStart →
  Z.of_nat (size (w_lsas w)) + Z.of_nat (length (dd_headers dd)) < 2 ^ 64 →
  runs (upd_nbr p (λ n, n <| n_dd_flags := clr (n_dd_flags n) flags |> <| n_options := dd_options dd |>);;
        OSPF_NSM_EVENT_EXECUTE E p NSM_NegotiationDone;; ospf_db_desc_proc E p dd) w (λ _ w', inv E X w').
Proof.
  intros HI Hn Hps Hst Hsz. rstep. eapply (inv_upd_runs E X w p n); [done|done|done|done|done| |].
  - split_and!; [|done|done]. intros (L1 & L2 & L3 & L4 & L5 & L6 & L7 & L8). split_and!; try done.
    + apply L1. + apply L1. + intros Hx. cbn in Hx. by rewrite Hst in Hx.
  - intros w1 -> HI1 Hn1. rstep. eapply runs_mono; [by eapply (execute_runs X _ p _ NSM_NegotiationDone)|].
    intros [] w2 (n2 & HI2 & Hn2 & Hs2 & Ha2 & Hx2).
    eapply runs_mono; [apply (dd_proc_runs X w2 p w2 dd)|by intros [] w3 (HI3 & _)].
    + eapply at_nbr_refl; [done|done|]. by apply Hx2.
    + by rewrite Hs2.
    + unfold no_alloc in Ha2. cbn in Ha2. lia.
Qed.

Lemma exstart_runs X w p n dd :
  inv E X w → w_nbr w !! p = Some n → p ≠ w_nbr_self w → n_state n = NSM_ExStart →
  Z.of_nat (size (w_lsas w)) + Z.of_nat (length (dd_headers dd)) < 2 ^ 64 →
  runs (db_desc_exstart E p dd) w (λ _ w', inv E X w').
Proof.
  intros HI Hn Hps Hst Hsz. unfold db_desc_exstart. rstep. eapply runs_nbr; [done|]. cbv zeta. rstep; [|rstep; [|by rstep]].
  - rstep; [|by rstep]. rstep. eapply (inv_upd_runs E X w p n); [done..|]. intros w1 -> HI1 Hn1.
    by eapply negotiated_runs.
  - by eapply negotiated_runs.
Qed.

Lemma resend_runs X w p n :
  inv E X w → w_nbr w !! p = Some n → dd_sent n → runs (ospf_db_desc_resend p) w (λ _ w', inv E X w').
Proof.
  intros HI Hn [op Hop]. unfold ospf_db_desc_resend, ospf_packet_add. rstep. eapply runs_nbr; [done|]. rstep.
  eapply runs_of_option; [exact Hop|]. rstep. pose proof HI as (HL & _). by apply (inv_view E X w).
Qed.

Lemma inv_nsm X w p n ev :
  inv E X w → w_nbr w !! p = Some n → p ≠ w_nbr_self w → NSM_NoEvent < ev ≤ NSM_LLDown →
  runs (OSPF_NSM_EVENT_SCHEDULE p ev) w (λ _ w', inv E X w').
Proof.
  intros HI Hn Hps Hev. eapply runs_mono; [apply (at_nbr_nsm X w p (λ _, True)); [by eapply at_nbr_refl|done|done]|]. by intros [] w' (HI' & _).
Qed.

Lemma db_desc_recv_runs X w src router_id dd :
  inv E X w → foreign (w_type w) src router_id →
  Z.of_nat (size (w_lsas w)) + Z.of_nat (length (dd_headers dd)) < 2 ^ 64 →
  runs (ospf_db_desc_recv E src router_id dd) w (λ _ w', inv E X w').
Proof.
  intros HI Hf Hsz. unfold ospf_db_desc_recv. rstep. eapply (lookup_runs X); [done..|]. intros [p|] Ho; [|by rstep].
  destruct (Ho p eq_refl) as (Hps & n & Hn). rstep. eapply runs_nbr; [done|]. rstep; [by rstep|]. cbv zeta.
  set (dd' := mk_dd _ _ _ _ _ _). assert (dd_headers dd' = dd_headers dd) as Hh by done. rewrite <- Hh in Hsz. clearbody dd'.
  rstep; [by rstep|]. rstep.
  assert (∀ w1, at_nbr X w p (λ m, m = n) w1 → no_alloc w w1 →
    runs (if n_state n =? NSM_Init then
            OSPF_NSM_EVENT_EXECUTE E p NSM_TwoWayReceived;; n ← nbr p;
            if n_state n =? NSM_ExStart then db_desc_exstart E p dd' else mret tt
          else if n_state n =? NSM_ExStart then db_desc_exstart E p dd'
          else if n_state n =? NSM_Exchange then db_desc_exchange E p dd'
          else if (n_state n =? NSM_Loading) || (n_state n =? NSM_Full) then db_desc_loading E p dd'
          else mret tt) w1 (λ _ w', inv E X w')) as Hmain.
  2:{ eapply (schedule_runs X w); [done|split_and!; [done|by eexists|done..]|done|]. intros w1 -> HI1. apply Hmain; [|by apply no_alloc_refl].
      split_and!; [done|by exists n|done|done]. }
  intros w1 (HI1 & (? & Hn1 & ->) & A3 & A4) Ha1. assert (p ≠ w_nbr_self w1) as Hps1 by congruence.
  unfold no_alloc in Ha1. destruct (adj_inv_base E X w1 HI1) as (_ & _ & Hst1). destruct (Hst1 p n Hn1 Hps1) as [Hloc _].
  pose proof Hloc as (_ & _ & _ & _ & L5 & _).
  destruct (Z.eqb_spec (n_state n) NSM_Init) as [E1|_].
  { rstep. eapply runs_mono; [by eapply (execute_runs X _ p _ NSM_TwoWayReceived)|]. intros [] w2 (n2 & HI2 & Hn2 & Hs2 & Ha2 & _).
    rstep. eapply runs_nbr; [done|]. destruct (Z.eqb_spec (n_state n2) NSM_ExStart) as [E2|_]; [|by rstep].
    eapply exstart_runs; [done|done|congruence|done|]. unfold no_alloc in Ha2. lia. }
  destruct (Z.eqb_spec (n_state n) NSM_ExStart) as [E2|_]; [eapply exstart_runs; [done..|lia]|].
  destruct (Z.eqb_spec (n_state n) NSM_Exchange) as [E3|_].
  { unfold db_desc_exchange. rstep. eapply runs_nbr; [done|]. rstep.
    { rstep; [by rstep|]. eapply resend_runs; [done..|]. apply L5. rewrite E3. done. }
    rstep; [by eapply inv_nsm|]. rstep; [by eapply inv_nsm|]. rstep; [by eapply inv_nsm|]. rstep; [by eapply inv_nsm|].
    eapply runs_mono; [apply (dd_proc_runs X w1 p w1 dd'); [by eapply at_nbr_refl|done|lia]|by intros [] w3 (HI3 & _)]. }
  rstep; [|by rstep]. unfold db_desc_loading. rstep. eapply runs_nbr; [done|].
  rstep; [|by eapply inv_nsm]. rstep; [by rstep|]. rstep; [|by eapply inv_nsm]. eapply resend_runs; [done..|]. apply L5.
  match goal with Hx : (_ || _) = true |- _ => apply orb_true_iff in Hx as [Hx%Z.eqb_eq|Hx%Z.eqb_eq]; rewrite Hx end; done.
Qed.

End Recv.
