(* ===== verification/OspfAdjRun.v ===== *)
(** * OSPF: requests, updates and timers keep the invariant *)

From stdpp Require Import gmap.
From S2P Require Import Prelude Fault OspfTable OspfLsa OspfVertex OspfLsaProps OspfNbr OspfAdj OspfElect OspfAdjMem OspfAdjRefs OspfAdjInv OspfAdjIsm OspfAdjNsm OspfAdjIf OspfAdjRecv.

Section Run.
Context {RT : Type → Type} `{RouteTableLaws RT}.
Context (E : adj_env).

Implicit Types w v : ospf_world RT.
Implicit Types n s m : ospf_neighbor RT.
Implicit Types b : ospf_nbr_nbma.

#[local] Arguments req_events : simpl never.
#[local] Arguments upd_events : simpl never.

(** ** The update queue *)
(** The queue and its event are changed. *)
Lemma core_queue w w' :
  core E w → nbr_view (w' <| w_ls_upd_queue := w_ls_upd_queue w |> <| w_t_ls_upd_event := w_t_ls_upd_event w |> <| w_events := w_events w |>) = nbr_view w →
  (∀ p, req_events p (w_events w') = req_events p (w_events w)) →
  (∀ e, e ∈ w_events w' → e ∈ w_events w ∨ e = Ev_ls_upd) → upd_ok w' → core E w'.
Proof.
  intros (C1 & C2 & C3 & C4 & C5 & C6 & C7) Hv Hr He Hu. unfold nbr_view in Hv. cbn in Hv.
  assert (w_nbr w' = w_nbr w ∧ w_nbma w' = w_nbma w ∧ w_nbr_nbma w' = w_nbr_nbma w ∧ w_if_nbma w' = w_if_nbma w ∧ w_type w' = w_type w ∧
    w_nbrs w' = w_nbrs w ∧ w_nbr_self w' = w_nbr_self w) as (V1 & V2 & V3 & V4 & V5 & V6 & V7) by (by simplify_eq). clear Hv.
  split_and!; [..|done].
  - intros p n. rewrite V1. intros Hp. destruct (C1 p n Hp) as (L1 & L2 & L3). unfold nbr_link. rewrite V5, V6, V2, Hr. by split_and!.
  - by rewrite V1, V5, V6.
  - by rewrite V1, V7.
  - intros q b. rewrite V2. intros Hq. destruct (C4 q b Hq) as (N1 & N2 & N3). unfold nbma_ok. rewrite V1, V4, V5, V7. by split_and!.
  - unfold nbma_tab. by rewrite V2, V3, V4.
  - intros e Hin. destruct (He e Hin) as [Ho| ->]; [|done]. specialize (C6 e Ho). destruct e; cbn in *; rewrite ?V1, ?V7; done.
Qed.

Lemma upd_send_inv X w p n update direct :
  inv E X w → w_nbr w !! p = Some n → update ≠ [] → (∀ q, q ∈ update → q ∈ top_refs w) →
  runs (ospf_ls_upd_send E p update direct) w (λ _ w', inv E X w' ∧ w_nbr w' = w_nbr w ∧ w_nbr_self w' = w_nbr_self w ∧
    w_area_lsdb w' = w_area_lsdb w ∧ w_as_lsdb w' = w_as_lsdb w).
Proof.
  intros HI Hn Hne Hin. pose proof HI as (HL & HC & _).
  eapply runs_mono; [by apply (ls_upd_send_runs E X w p n update direct)|]. cbv zeta. set (k := upd_dst _ _ _ _ _).
  intros [] w' (h' & Hw' & HL' & Hm). split; [|by rewrite Hw'].
  assert (nbr_view (w' <| w_ls_upd_queue := w_ls_upd_queue w |> <| w_t_ls_upd_event := w_t_ls_upd_event w |> <| w_events := w_events w |>) = nbr_view w)
    as Hv by (by rewrite Hw').
  assert (w_events w' = w_events w ++ (if w_t_ls_upd_event w then [] else [Ev_ls_upd]) ∧ w_t_ls_upd_event w' = true ∧
    w_ls_upd_queue w' = rt_set k (Some (default [] (rt_info k (w_ls_upd_queue w)) ++ update)) (w_ls_upd_queue w)) as (Ve & Vf & Vq) by (by rewrite Hw').
  assert (ism_view w' = ism_view w ∧ w_full_nbrs w' = w_full_nbrs w ∧ w_nbr w' = w_nbr w ∧ w_nbr_self w' = w_nbr_self w) as (Vi & Vc & Vn & Vs)
    by (by rewrite Hw'). clear Hw'.
  pose proof HC as (_ & _ & _ & _ & _ & _ & (U1 & U2 & U3)).
  assert (core E w') as HC'.
  { apply (core_queue w); [done|done|..].
    - intros r. rewrite Ve, req_events_app. destruct (w_t_ls_upd_event w); apply Nat.add_0_r.
    - intros e. rewrite Ve. intros [He|He]%elem_of_app; [by left|]. destruct (w_t_ls_upd_event w); [by apply elem_of_nil in He|].
      right. by apply list_elem_of_singleton in He.
    - split_and!.
      + intros j l. rewrite Vq, rt_info_set. case_decide; [|apply U1]. intros [= <-] [_ Hx]%app_nil. done.
      + done.
      + rewrite Vf, Ve, upd_events_app, U3. destruct (w_t_ls_upd_event w); done. }
  apply (inv_step E X w); [done|done|done|done|done|done|by rewrite Vn| |by rewrite Vn|].
  - intros e He _. rewrite Ve. apply elem_of_app. by left.
  - intros r m'. rewrite Vn. intros Hm' _. left. by exists m'.
Qed.

(** ** Link State Requests *)

Lemma collect_runs X ks w p n direct upd len :
  inv E X w → w_nbr w !! p = Some n → (∀ q, q ∈ upd → q ∈ top_refs w) → (upd = [] → len = OSPF_HEADER_SIZE + OSPF_LS_UPD_MIN_SIZE) →
  runs (ls_req_collect E p direct ks upd len) w (λ r w', inv E X w' ∧ w_nbr w' !! p = Some n ∧ w_nbr_self w' = w_nbr_self w ∧
    ∀ l, r = Some l → ∀ q, q ∈ l → q ∈ top_refs w').
Proof.
  revert w upd len. induction ks as [|[[type id] adv] ks IH]; intros w upd len HI Hn Hup Hlen; cbn [ls_req_collect].
  { rstep. split_and!; [done..|]. intros l [= <-]. done. }
  pose proof HI as (HL & _). destruct ((type <? OSPF_MIN_LSA) || (type >=? OSPF_MAX_LSA)) eqn:Et; [by rstep|].
  assert (0 ≤ type < 8) as Hty.
  { apply orb_false_iff in Et as [H1' H2']. rewrite Z.geb_leb in H2'. apply Z.ltb_ge in H1'. apply Z.leb_gt in H2'.
    unfold OSPF_MIN_LSA, OSPF_MAX_LSA in *. lia. }
  rewrite <- (Z2Nat.id type) by lia. rstep. eapply (lsa_lookup_runs E X); [done|lia|].
  destruct (top_info w (Z.to_nat type) (prefix_ls id adv)) as [lp|] eqn:Ef; [|by rstep].
  apply top_info_elem in Ef. destruct (top_alive E X w lp HL Ef) as [l Hl].
  assert (upd_fits E l) as [Hf1 Hf2].
  { destruct HL as (_ & _ & _ & _ & _ & Hfit & _). apply (Hfit lp); [apply elem_of_app; by left|done]. }
  rstep. eapply runs_read; [unfold lsa; by apply of_option_run|]. cbv zeta. destruct (Z.gtb_spec (len + h_length (l_data l)) (ospf_packet_max E)) as [Hgt|Hle].
  - rstep. eapply runs_mono; [apply (upd_send_inv X w p n); [done|done| |done]|].
    + intros ->. rewrite (Hlen eq_refl) in Hgt. lia.
    + intros [] w' (HI' & Vn & Vs & Va & Vb). rewrite <- Vn in Hn.
      eapply runs_mono; [apply IH; [done|done| |done]|].
      * intros q ->%list_elem_of_singleton. unfold top_refs in *. by rewrite Va, Vb.
      * intros r w2 (A1 & A2 & A3 & A4). split_and!; [done|done|congruence|done].
  - apply IH; [done|done| |].
    + intros q [Hq|Hq]%elem_of_app; [by apply Hup|]. by apply list_elem_of_singleton in Hq as ->.
    + by intros [_ ?]%app_nil.
Qed.

Lemma ls_req_recv_runs X w src router_id ks :
  inv E X w → foreign E (w_type w) src router_id → runs (ospf_ls_req_recv E src router_id ks) w (λ _ w', inv E X w').
Proof.
  intros HI Hf. unfold ospf_ls_req_recv. rstep. eapply (lookup_runs E X); [done..|]. intros [p|] Ho; [|by rstep].
  destruct (Ho p eq_refl) as (Hps & n & Hn). rstep.
  eapply (schedule_runs E X w); [done|split_and!; [done|by eexists|done..]|done|]. intros w1 -> HI1.
  rstep. eapply runs_nbr; [exact Hn|]. rstep; [by rstep|]. rstep. rstep. cbv zeta. rstep.
  eapply runs_mono; [apply (collect_runs X ks _ p n); [done|exact Hn|by intros q ?%elem_of_nil|done]|].
  intros r w2 (HI2 & Hn2 & Hs2 & Hr). destruct r as [upd|].
  - destruct upd as [|lp upd]; [by rstep|]. eapply runs_mono; [apply (upd_send_inv X w2 p n); [done|done|done|by apply Hr]|].
    by intros [] w3 (HI3 & _).
  - eapply (inv_nsm E X w2 p n); [done|done|by rewrite Hs2|done].
Qed.

(** ** The event that sends the queued updates *)

Lemma filter_all {A} (P : A → Prop) `{∀ x, Decision (P x)} (l : list A) : (∀ x, x ∈ l → P x) → filter P l = l.
Proof.
  induction l as [|x l IH]; intros Hl; [done|]. rewrite filter_cons_True by (apply Hl; by apply elem_of_cons; left).
  f_equal. apply IH. intros y Hy. apply Hl. by apply elem_of_cons; right.
Qed.

(** The updates that one run of the event sends: for each destination a packet with the first LSAs of its list. *)
Definition upd_sent w w' (f : Z → list nat) : Prop :=
  w_obuf w' = (λ q, q ++ ((λ k, upd_packet E w k (f k)) <$> rt_walk (w_ls_upd_queue w))) <$> w_obuf w ∧
  (∀ k, match rt_info k (w_ls_upd_queue w) with
        | Some l => sent_of E (f k) l (rt_info k (w_ls_upd_queue w'))
        | None => rt_info k (w_ls_upd_queue w') = None
        end) ∧
  w_type w' = w_type w ∧ mem_step (w_lsas w) (w_lsas w').

Lemma upd_event_runs X w es :
  inv E X w → mtu_ok E → w_events w = Ev_ls_upd :: es →
  runs (ospf_ls_upd_send_queue_event E) (w <| w_events := es |>) (λ _ w', inv E X w' ∧ (∃ f, upd_sent w w' f) ∧
    ∃ b : bool, w_events w' = es ++ (if b then [Ev_ls_upd] else []) ∧ (b = true ↔ ∃ k, is_Some (rt_info k (w_ls_upd_queue w')))).
Proof.
  intros HI Hmtu Hes. pose proof HI as (HL & HC & _). pose proof HC as (_ & _ & _ & _ & _ & _ & (U1 & U2 & U3)).
  assert (upd_events es = 0%nat ∧ w_t_ls_upd_event w = true) as [Hu0 Hf0].
  { rewrite Hes in U3. change (upd_events (Ev_ls_upd :: es)) with (S (upd_events es)) in U3. destruct (w_t_ls_upd_event w); [|done]. split; [lia|done]. }
  assert (∀ p, req_events p es = req_events p (w_events w)) as Hreq by (intros p; by rewrite Hes).
  unfold ospf_ls_upd_send_queue_event. rstep. rstep. rstep. rstep. rstep.
  set (w1 := w <| w_events := es |> <| w_t_ls_upd_event := false |>).
  eapply runs_mono; [apply (upd_send_walk_runs E X _ w1); [exact HL|done|exact U1|apply rt_walk_nodup]|].
  intros again w2 (h' & t' & q & f & Hw2 & HL2 & Hm2 & Hob & Ht & Hb).
  assert (∀ k, rt_info k t' = match rt_info k (w_ls_upd_queue w) with Some l => rt_info k t' | None => None end) as Hnone.
  { intros k. specialize (Ht k). destruct (rt_info k (w_ls_upd_queue w)) as [l|] eqn:El; [done|].
    case_decide as Hk; cbn in Ht; rewrite El in Ht; done. }
  assert (∀ k l, rt_info k t' = Some l → l ≠ [] ∧ k ∈ rt_walk (w_ls_upd_queue w)) as Hsome.
  { intros k l Hl. specialize (Hnone k). destruct (rt_info k (w_ls_upd_queue w)) as [l0|] eqn:El; [|congruence].
    assert (k ∈ rt_walk (w_ls_upd_queue w)) as Hk by (apply rt_walk_elem; by eexists). split; [|done].
    specialize (Ht k). cbn in Ht. rewrite decide_True in Ht by done. rewrite El in Ht. destruct Ht as (rest & -> & Ho & _).
    rewrite Hl in Ho. destruct rest; congruence. }
  assert (∀ fl es', fl = again → es' = (if again then es ++ [Ev_ls_upd] else es) →
    inv E X (w2 <| w_events := es' |> <| w_t_ls_upd_event := fl |>)) as Hinv.
  { intros fl es' -> ->. set (w3 := w2 <| w_events := _ |> <| w_t_ls_upd_event := _ |>).
    assert (w_ls_upd_queue w3 = t' ∧ w_t_ls_upd_event w3 = again ∧ w_events w3 = (if again then es ++ [Ev_ls_upd] else es) ∧
      ism_view w3 = ism_view w ∧ w_full_nbrs w3 = w_full_nbrs w ∧ w_nbr w3 = w_nbr w ∧ w_nbr_self w3 = w_nbr_self w)
      as (V1 & V2 & V3 & V4 & V5 & V6 & V7) by (unfold w3; by rewrite Hw2).
    assert (core E w3) as HC3.
    { apply (core_queue w); [done|unfold w3; by rewrite Hw2|..].
      - intros p. rewrite V3, <- Hreq. destruct again; [|done]. rewrite req_events_app. apply Nat.add_0_r.
      - intros e. rewrite V3, Hes. destruct again; [intros [He|He]%elem_of_app|intros He].
        + left. by apply elem_of_cons; right.
        + right. by apply list_elem_of_singleton in He.
        + left. by apply elem_of_cons; right.
      - split_and!.
        + intros k l. rewrite V1. intros Hl. by destruct (Hsome k l Hl).
        + intros k. rewrite V1, V2. intros [l Hl]. apply Hb. right. exists k. split; [by destruct (Hsome k l Hl)|]. rewrite Hl. by eexists.
        + rewrite V2, V3. destruct again; [rewrite upd_events_app|]; by rewrite Hu0. }
    apply (inv_step E X w); [done|exact HL2|done|done|done|done|by rewrite V6| |by rewrite V6|].
    - intros e. rewrite Hes. intros [->|He]%elem_of_cons Hpl; [done|]. rewrite V3. destruct again; [apply elem_of_app; by left|done].
    - intros r m'. rewrite V6. intros Hm' _. left. by exists m'. }
  assert (w_events w2 = es ∧ w_t_ls_upd_event w2 = false ∧ w_ls_upd_queue w2 = t') as (Ve & Vf & Vq) by (by rewrite Hw2).
  assert (upd_sent w w2 f) as Hsent.
  { split_and!; [| |by rewrite Hw2|by rewrite Hw2].
    - rewrite Hw2. cbn [w_obuf set_fld set_w_obuf]. rewrite Hob, filter_all; [done|]. by intros k Hk%rt_walk_elem.
    - intros k. specialize (Ht k). rewrite Vq. cbn in Ht. destruct (rt_info k (w_ls_upd_queue w)) as [l|] eqn:El.
      + by rewrite decide_True in Ht by (apply rt_walk_elem; by eexists).
      + by case_decide. }
  clear Hw2.
  assert (again = true ↔ ∃ k, is_Some (rt_info k t')) as Hagain.
  { rewrite Hb. split; [intros [|(k & _ & Hk)]; [done|by exists k]|]. intros [k [l Hl]]. right. exists k. split; [by destruct (Hsome k l Hl)|].
    rewrite Hl. by eexists. }
  destruct again.
  - unfold schedule. rstep. rstep. rstep. rewrite Ve. split_and!; [by apply Hinv|by exists f|]. exists true. cbn. by rewrite Vq.
  - rstep. split_and!; [|by exists f|exists false; by rewrite Ve, Vq, app_nil_r].
    specialize (Hinv false es eq_refl eq_refl). destruct w2; cbn in *. by subst.
Qed.

(** ** The request timer *)

(** The neighbour has no request timer while it runs. *)
Lemma req_timer_runs X w p n :
  inv E X w → w_nbr w !! p = Some n → p ≠ w_nbr_self w → n_t_ls_req n = T_null → NSM_Exchange < n_state n →
  runs (n ← nbr p;
        (if tst (ospf_ls_request_count n) then ospf_ls_req_send E p else mret tt);;
        n ← nbr p;
        match n_t_ls_req n with T_null => upd_nbr p (λ n, n <| n_t_ls_req := T_timer |>) | _ => mret tt end) w
    (λ _ w', inv E X w').
Proof.
  intros HI Hn Hps Ht Hst. pose proof HI as (HL & _). destruct (adj_inv_base E X w HI) as (HB & _ & Hs). destruct (Hs p n Hn Hps) as [Hloc _].
  pose proof Hloc as (L1 & L2 & L3 & L4 & L5 & L6 & L7 & L8). rstep. eapply runs_nbr; [done|]. rstep.
  apply (runs_mono _ _ (λ _ w', ∃ n', inv E X w' ∧ w_nbr w' !! p = Some n' ∧ w_nbr_self w' = w_nbr_self w ∧ NSM_Exchange < n_state n' ∧ n_t_ls_req n' ≠ T_event)).
  - rstep; [|rstep; exists n; split_and!; [done..|by rewrite Ht]].
    eapply runs_mono; [by apply (ls_req_send_runs E X)|]. intros [] w1 (q & h' & l & t & -> & HL1 & Hm & Hlast & Ht').
    set (n' := n <| n_ls_req_last := l |> <| n_t_ls_req := t |>) in *.
    assert (t ≠ T_event) as Hte by (rewrite Ht in Ht'; by destruct Ht' as [->|[_ ->]]).
    destruct (base_step E X w (wset (w <| w_obuf := q |>) h' p n') p n n') as [(B1 & B2 & B3 & B4) _]; [done|done|done| |done|done|done|].
    { split_and!; [done|done|done|]. cbn. rewrite Ht. by split. }
    exists n'. split_and!; [|apply wset_lookup|done|done|done].
    apply (inv_step E X w); [done|done|done|done|done|done|cbn; by eapply full_count_same|done|cbn; by rewrite lookup_insert_ne|].
    intros r m'. cbn. destruct (decide (p = r)) as [<-|]; [|rewrite lookup_insert_ne by done; intros Hm' _; left; by exists m'].
    rewrite lookup_insert_eq. intros [= <-] _. left. exists n. split; [done|]. split_and!; [intros _|done|done].
    unfold nbr_local. cbn. unfold NSM_Exchange, NSM_ExStart, NSM_Down, NSM_Full in *.
    split_and!; try done; try lia; intros Hx; exfalso; lia.
  - intros [] w1 (n1 & HI1 & Hn1 & Hs1 & Hst1 & Ht1). rstep. eapply runs_nbr; [done|].
    assert (p ≠ w_nbr_self w1) as Hps1 by congruence. destruct (n_t_ls_req n1) eqn:Et; [|by rstep|done].
    eapply (inv_upd_runs E X w1 p n1); [done|done|done| |done| |by intros].
    + split_and!; [done|done|done|]. cbn. rewrite Et. by split.
    + split_and!; [|done|done]. intros (K1 & K2 & K3 & K4 & K5 & K6 & K7 & K8). unfold nbr_local. cbn.
      unfold NSM_Exchange, NSM_ExStart, NSM_Down, NSM_Full in *. split_and!; try done; try lia; intros Hx; exfalso; lia.
Qed.

Lemma local_req n : nbr_local n → n_t_ls_req n ≠ T_null → NSM_Exchange < n_state n.
Proof. intros (_ & _ & _ & L4 & _) Ht. destruct (Z.lt_ge_cases NSM_Exchange (n_state n)) as [|Hle]; [done|]. by destruct (L4 Hle). Qed.

Lemma req_timer_fires X w p n :
  inv E X w → w_nbr w !! p = Some n → p ≠ w_nbr_self w → n_t_ls_req n = T_timer → runs (ospf_ls_req_timer E p) w (λ _ w', inv E X w').
Proof.
  intros HI Hn Hps Ht. destruct (adj_inv_base E X w HI) as (_ & _ & Hs). destruct (Hs p n Hn Hps) as [Hloc _].
  assert (NSM_Exchange < n_state n) as Hst by (apply local_req; [done|by rewrite Ht]).
  unfold ospf_ls_req_timer. rstep. eapply (inv_upd_runs E X w p n); [done|done|done| |done| |].
  - split_and!; [done|done|done|]. cbn. rewrite Ht. by split.
  - split_and!; [|done|done]. intros (K1 & K2 & K3 & K4 & K5 & K6 & K7 & K8). unfold nbr_local. cbn.
    unfold NSM_Exchange, NSM_ExStart, NSM_Down, NSM_Full in *. split_and!; try done; try lia; intros Hx; exfalso; lia.
  - intros w1 -> HI1 Hn1. eapply req_timer_runs; [done|done|done|done|done].
Qed.

(** The request event of [p] is not in the queue any more. *)
Lemma inv_drop_req X w p n es :
  inv E X w → w_nbr w !! p = Some n → p ≠ w_nbr_self w →
  es = (if bool_decide (n_t_ls_req n = T_event) then filter (λ e, ls_req_event_of p e = false) (w_events w) else w_events w) →
  inv E X (w <| w_nbr := <[p := n <| n_t_ls_req := T_null |>]> (w_nbr w) |> <| w_events := es |>).
Proof.
  intros HI Hn Hps ->. pose proof HI as (HL & HC & _). set (n' := n <| n_t_ls_req := T_null |>).
  apply (inv_step E X w); [done| |by apply core_drop_req|done|done|done|cbn; by eapply full_count_same| |cbn; by rewrite lookup_insert_ne|].
  - change (lsas_ok E X (w <| w_nbr := <[p := n']> (w_nbr w) |>)). by eapply lsas_ok_upd.
  - intros e He Hpl. cbn. case_bool_decide; [|done]. apply list_elem_of_filter. split; [by destruct e|done].
  - intros r m'. cbn. destruct (decide (p = r)) as [<-|]; [|rewrite lookup_insert_ne by done; intros Hm' _; left; by exists m'].
    rewrite lookup_insert_eq. intros [= <-] _. left. exists n. split; [done|]. split_and!; [|done|done].
    intros (K1 & K2 & K3 & K4 & K5 & K6 & K7 & K8). split_and!; try done; [apply K1..|]. intros Hx. by destruct (K4 Hx).
Qed.

Lemma req_event_runs X w p es :
  inv E X w → w_events w = Ev_ls_req p :: es → runs (ospf_ls_req_timer E p) (w <| w_events := es |>) (λ _ w', inv E X w').
Proof.
  intros HI Hes. pose proof HI as (_ & (C1 & _ & _ & _ & _ & C6 & _) & Hs & _).
  destruct (C6 (Ev_ls_req p)) as (Hps & n & Hn); [rewrite Hes; by apply elem_of_cons; left|].
  destruct (Hs p n Hn Hps) as [Hloc _]. destruct (C1 p n Hn) as (_ & _ & L3).
  assert (n_t_ls_req n = T_event ∧ req_events p es = 0%nat) as [Ht H0'].
  { rewrite Hes in L3. unfold req_events in L3 |- *. rewrite filter_cons_True in L3 by (cbn; by apply bool_decide_eq_true). cbn [length] in L3.
    case_decide; [split; [done|lia]|lia]. }
  assert (NSM_Exchange < n_state n) as Hst by (apply local_req; [done|by rewrite Ht]).
  pose proof (inv_drop_req X w p n es HI Hn Hps) as HI1.
  unfold ospf_ls_req_timer. rstep. eapply runs_upd_nbr; [exact Hn|].
  match goal with |- runs _ ?v _ => change v with (w <| w_nbr := <[p := n <| n_t_ls_req := T_null |>]> (w_nbr w) |> <| w_events := es |>) end.
  eapply req_timer_runs; [apply HI1|cbn; apply lookup_insert_eq|done|done|done].
  rewrite bool_decide_eq_true_2 by done. rewrite Hes, filter_cons_False; [|cbn; by rewrite bool_decide_eq_true_2].
  unfold req_events in H0'. clear - H0'. induction es as [|e es IH]; [done|]. rewrite filter_cons in H0'. case_decide as He; [done|].
  rewrite filter_cons_True; [f_equal; by apply IH|]. by destruct (ls_req_event_of p e).
Qed.

(** The next request is sent by an event. *)
Lemma core_add_req w p n :
  core E w → w_nbr w !! p = Some n → p ≠ w_nbr_self w → n_t_ls_req n = T_null →
  core E (w <| w_events := w_events w ++ [Ev_ls_req p] |> <| w_nbr := <[p := n <| n_t_ls_req := T_event |>]> (w_nbr w) |>).
Proof.
  intros (C1 & C2 & (s & Cs & C3) & C4 & C5 & C6 & (U1 & U2 & U3)) Hp Hps Ht. set (n' := n <| n_t_ls_req := T_event |>).
  assert (∀ r, is_Some (w_nbr w !! r) → is_Some (<[p := n']> (w_nbr w) !! r)) as Hlive.
  { intros r Hr. destruct (decide (p = r)) as [<-|]; [rewrite lookup_insert_eq; by eexists|by rewrite lookup_insert_ne]. }
  assert (∀ r, req_events r [Ev_ls_req p] = if decide (r = p) then 1%nat else 0%nat) as Hone.
  { intros r. unfold req_events. rewrite filter_cons. cbn [ls_req_event_of]. case_decide as Hd.
    - apply bool_decide_eq_true in Hd as ->. by rewrite decide_True.
    - rewrite decide_False; [done|]. intros ->. apply Hd. by apply bool_decide_eq_true. }
  split_and!.
  - intros r m. cbn. destruct (decide (p = r)) as [<-|Hr].
    + rewrite lookup_insert_eq. intros [= <-]. destruct (C1 p n Hp) as (L1 & L2 & L3). split_and!; [done|done|]. cbn.
      rewrite req_events_app, Hone, L3, Ht. by rewrite (decide_True (P := p = p)) by done.
    + rewrite lookup_insert_ne by done. intros Hm. destruct (C1 r m Hm) as (L1 & L2 & L3). split_and!; [done|done|]. cbn.
      rewrite req_events_app, Hone, L3. rewrite (decide_False (P := r = p)) by congruence. apply Nat.add_0_r.
  - intros k r Hr. destruct (C2 k r Hr) as (m & Hm & Hk). cbn. destruct (decide (p = r)) as [<-|].
    + exists n'. rewrite lookup_insert_eq. split; [done|]. by simplify_eq.
    + exists m. by rewrite lookup_insert_ne.
  - exists s. cbn. by rewrite lookup_insert_ne.
  - intros q b Hb. destruct (C4 q b Hb) as (N1 & N2 & N3). split_and!; [|done|done].
    intros r Hr. destruct (N1 r Hr) as (Hr1 & m & Hm & Hm1 & Hm2). split; [done|]. cbn. destruct (decide (p = r)) as [<-|].
    + exists n'. rewrite lookup_insert_eq. by simplify_eq.
    + exists m. by rewrite lookup_insert_ne.
  - done.
  - intros e. cbn. intros [He|He]%elem_of_app.
    + specialize (C6 e He). destruct e; cbn in *; naive_solver.
    + apply list_elem_of_singleton in He as ->. cbn. split; [done|]. apply Hlive. by eexists.
  - split_and!; [done|done|]. cbn. rewrite upd_events_app, U3. apply Nat.add_0_r.
Qed.

Lemma ls_req_event_runs X w p n :
  inv E X w → w_nbr w !! p = Some n → p ≠ w_nbr_self w → NSM_Exchange < n_state n → runs (ospf_ls_req_event p) w (λ _ w', inv E X w').
Proof.
  intros HI Hn Hps Hst. unfold ospf_ls_req_event, schedule. rstep. eapply ls_req_timer_off_runs; [exact Hn|].
  set (es := if bool_decide _ then _ else _). set (n1 := n <| n_t_ls_req := T_null |>).
  pose proof (inv_drop_req X w p n es HI Hn Hps eq_refl) as HI1. fold n1 in HI1.
  set (w1 := w <| w_nbr := <[p := n1]> (w_nbr w) |> <| w_events := es |>) in *.
  assert (w_nbr w1 !! p = Some n1) as Hn1 by (cbn; apply lookup_insert_eq). assert (p ≠ w_nbr_self w1) as Hps1 by done.
  assert (n_t_ls_req n1 = T_null ∧ NSM_Exchange < n_state n1) as [Ht1 Hst1] by done. clearbody n1 w1.
  rstep. rstep. eapply runs_upd_nbr; [exact Hn1|]. pose proof HI1 as (HL1 & HC1 & _).
  apply (inv_step E X w1); [done| |exact (core_add_req w1 p n1 HC1 Hn1 Hps1 Ht1)|done|done|done|cbn; by eapply full_count_same| |cbn; by rewrite lookup_insert_ne|].
  - change (lsas_ok E X (w1 <| w_nbr := <[p := n1 <| n_t_ls_req := T_event |>]> (w_nbr w1) |>)). by eapply lsas_ok_upd.
  - intros e He _. cbn. apply elem_of_app. by left.
  - intros r m'. cbn. destruct (decide (p = r)) as [<-|]; [|rewrite lookup_insert_ne by done; intros Hm' _; left; by exists m'].
    rewrite lookup_insert_eq. intros [= <-] _. left. exists n1. split; [done|]. split_and!; [|done|done].
    intros (K1 & K2 & K3 & K4 & K5 & K6 & K7 & K8). unfold nbr_local. cbn.
    unfold NSM_Exchange, NSM_ExStart, NSM_Down, NSM_Full in *. split_and!; try done; try lia; intros Hx; exfalso; lia.
Qed.

Lemma check_loading_runs X w p n :
  inv E X w → w_nbr w !! p = Some n → p ≠ w_nbr_self w → runs (ospf_check_nbr_loading p) w (λ _ w', inv E X w').
Proof.
  intros HI Hn Hps. unfold ospf_check_nbr_loading. rstep. eapply runs_nbr; [done|].
  destruct (Z.eqb_spec (n_state n) NSM_Loading) as [Hst|_]; [|by rstep]. rstep; [by eapply inv_nsm|].
  destruct (n_ls_req_last n); [by rstep|]. eapply ls_req_event_runs; [done..|]. rewrite Hst. done.
Qed.

(** ** Hellos are sent *)

Definition obuf_only w w' : Prop := ∃ q, w' = w <| w_obuf := q |>.

Lemma obuf_refl w : obuf_only w w.
Proof. exists (w_obuf w). by destruct w. Qed.
Lemma obuf_trans w w' w'' : obuf_only w w' → obuf_only w' w'' → obuf_only w w''.
Proof. intros [q ->] [q' ->]. by exists q'. Qed.
Lemma obuf_core w w' : obuf_only w w' → core E w → core E w'.
Proof. intros [q ->] HC. exact HC. Qed.
Lemma obuf_inv X w w' : obuf_only w w' → inv E X w → inv E X w'.
Proof. intros [q ->] HI. pose proof HI as (HL & _). by apply (inv_view E X w). Qed.

Lemma hello_sub_runs w addr : core E w → runs (ospf_hello_send_sub E addr) w (λ _ w', obuf_only w w').
Proof.
  intros HC. pose proof HC as (_ & _ & (s & Hs & _) & _). unfold ospf_hello_send_sub, ospf_make_hello, ospf_packet_add_top.
  rstep. rstep. rstep. rstep. eapply runs_self; [exact Hs|]. rstep. eapply runs_run; [apply all_nbrs_run; by eapply core_live|].
  cbv zeta. rstep. rstep. by eexists.
Qed.

Lemma hello_walk_runs l w : core E w → runs (hello_walk E l) w (λ _ w', obuf_only w w').
Proof.
  revert w. induction l as [|[p n] l IH]; intros w HC; cbn [hello_walk]; [rstep; apply obuf_refl|].
  pose proof HC as (_ & _ & (s & Hs & _) & _). rstep. rstep. rstep. eapply runs_self; [exact Hs|]. rstep. rstep. rstep.
  apply (runs_mono _ _ (λ _ w', obuf_only w w')).
  - rstep; [|rstep; apply obuf_refl]. rstep; [rstep; apply obuf_refl|]. rstep; [rstep; apply obuf_refl|]. by apply hello_sub_runs.
  - intros [] w1 Hw1. eapply runs_mono; [apply IH; by eapply obuf_core|]. intros [] w2 Hw2. by eapply obuf_trans.
Qed.

Lemma hello_send_runs w : core E w → runs (ospf_hello_send E) w (λ _ w', obuf_only w w').
Proof.
  intros HC. unfold ospf_hello_send. rstep; [rstep; apply obuf_refl|]. rstep. rstep. rstep; [|rstep; by apply hello_sub_runs].
  rstep. eapply runs_run; [apply all_nbrs_run; by eapply core_live|]. by apply hello_walk_runs.
Qed.

(** ** Timers *)

Lemma hello_timer_runs X w : inv E X w → w_t_hello w = true → runs (ospf_hello_timer E) w (λ _ w', inv E X w').
Proof.
  intros HI Ht. pose proof HI as (HL & HC & _). unfold ospf_hello_timer. rstep. rstep. rstep.
  eapply runs_mono; [apply hello_send_runs; exact HC|]. intros [] w1 [q ->]. rstep.
  apply (inv_view E X w); [done|exact HL|done| |done]. unfold ism_view. cbn. by rewrite Ht.
Qed.

Lemma wait_timer_runs X w : inv E X w → runs (ospf_wait_timer) w (λ _ w', inv E X w').
Proof.
  intros HI. pose proof HI as (HL & HC & Hs & Hf & (I1 & (T1 & T2 & T3) & I3) & I4).
  unfold ospf_wait_timer, OSPF_ISM_EVENT_SCHEDULE, schedule. rstep. rstep. rstep.
  assert (core E (w <| w_t_wait := false |>)) as HC1 by exact HC.
  apply (core_event E _ (Ev_ism ISM_WaitTimer)) in HC1; [|done|done].
  split_and!; [exact HL|exact HC1| |exact Hf| |].
  - intros p n Hp Hps. destruct (Hs p n Hp Hps) as [L W]. split; [done|]. intros Hi.
    destruct (W Hi) as [|He]; [by left|right]. cbn. apply elem_of_app. by left.
  - split; [exact I1|]. split; [|exact I3]. split_and!; [|exact T2|done]. intros Hx. split; [by apply T1|done].
  - intros _. right. cbn. apply elem_of_app. right. by apply list_elem_of_singleton.
Qed.

Lemma inactivity_runs X w p n :
  inv E X w → w_nbr w !! p = Some n → p ≠ w_nbr_self w → runs (ospf_inactivity_timer p) w (λ _ w', inv E X w').
Proof.
  intros HI Hn Hps. pose proof HI as (HL & HC & Hs & Hf & HM & HW).
  unfold ospf_inactivity_timer, OSPF_NSM_EVENT_SCHEDULE, schedule. rstep. eapply runs_upd_nbr; [done|]. rstep.
  set (n' := n <| n_t_inactivity := false |>).
  assert (base E X (w <| w_nbr := <[p := n']> (w_nbr w) |>)) as (B1 & B2 & B3 & B4) by (by eapply base_upd).
  apply (core_event E _ (Ev_nsm p NSM_InactivityTimer)) in B2; [| |done].
  2:{ cbn. split_and!; [done|rewrite lookup_insert_eq; by eexists|done..]. }
  split_and!; [exact B1|exact B2| | |exact B3|].
  - intros r m. cbn. destruct (decide (p = r)) as [<-|].
    + rewrite lookup_insert_eq. intros [= <-] _. destruct (Hs p n Hn Hps) as [L W]. split; [exact L|].
      intros _. right. cbn. apply elem_of_app. right. by apply list_elem_of_singleton.
    + rewrite lookup_insert_ne by done. intros Hm Hr. destruct (Hs r m Hm Hr) as [L W]. split; [done|]. intros Hi.
      destruct (W Hi) as [|He]; [by left|right]. cbn. apply elem_of_app. by left.
  - unfold full_ok in *. cbn. by rewrite (full_count_same _ p n).
  - intros Hx. destruct (B4 Hx) as [|He]; [by left|right]. cbn. apply elem_of_app. by left.
Qed.

Lemma db_desc_timer_runs X w p n :
  inv E X w → w_nbr w !! p = Some n → p ≠ w_nbr_self w → n_t_db_desc n = true → runs (ospf_db_desc_timer p) w (λ _ w', inv E X w').
Proof.
  intros HI Hn Hps Ht. destruct (adj_inv_base E X w HI) as (_ & _ & Hs). destruct (Hs p n Hn Hps) as [Hloc _].
  pose proof Hloc as (_ & _ & _ & _ & L5 & _ & _ & L8).
  assert (dd_sent n) as [op Hop] by (apply L5; destruct (L8 Ht) as [->| ->]; done).
  unfold ospf_db_desc_timer, ospf_db_desc_resend, ospf_packet_add. rstep. eapply runs_upd_nbr; [done|].
  rstep. eapply runs_nbr; [cbn; apply lookup_insert_eq|]. rstep.
  eapply runs_run; [apply assert_run; rewrite bool_decide_eq_true_2; [done|exact (mk_is_Some _ _ Hop)]|].
  rstep. rstep. eapply runs_nbr; [cbn; apply lookup_insert_eq|]. rstep. eapply runs_of_option; [exact Hop|]. rstep.
  eapply runs_upd_nbr; [cbn; apply lookup_insert_eq|]. cbn. rewrite insert_insert_eq.
  assert (<[p := n <| n_t_db_desc := false |> <| n_t_db_desc := true |>]> (w_nbr w) = w_nbr w) as Hid.
  { apply insert_id. rewrite Hn. f_equal. destruct n; cbn in *. by subst. }
  rewrite Hid. eapply obuf_inv; [|exact HI]. eexists. by destruct w.
Qed.

Lemma hello_reply_runs X w p n :
  inv E X w → w_nbr w !! p = Some n → p ≠ w_nbr_self w → runs (ospf_hello_reply_timer E p) w (λ _ w', inv E X w').
Proof.
  intros HI Hn Hps. unfold ospf_hello_reply_timer. rstep. eapply (inv_upd_runs E X w p n); [done..|]. intros w1 Hw1 HI1 Hn1.
  rstep. eapply runs_nbr; [exact Hn1|]. pose proof HI1 as (_ & HC1 & _). eapply runs_mono; [by apply hello_sub_runs|].
  intros [] w2 Hw2. by eapply obuf_inv.
Qed.

(** A poll timer is set or not. *)
Lemma inv_poll X w q b (v : bool) :
  inv E X w → w_nbma w !! q = Some b → nb_oi b = true → inv E X (w <| w_nbma := <[q := b <| nb_t_poll := v |>]> (w_nbma w) |>).
Proof.
  intros HI Hq Ho. pose proof HI as (HL & HC & _). apply (inv_step E X w); try done; [by eapply core_nbma|].
  intros r m' Hm _. left. by exists m'.
Qed.

Lemma poll_send_runs w q b : core E w → w_nbma w !! q = Some b → nb_oi b = true → runs (ospf_poll_send E q) w (λ _ w', obuf_only w w').
Proof.
  intros HC Hq Ho. pose proof HC as (_ & _ & (s & Hs & _) & C4 & _). destruct (C4 q b Hq) as (N1 & _).
  unfold ospf_poll_send. rstep. eapply runs_nbma; [exact Hq|]. rstep. eapply runs_run; [by apply assert_run|].
  rstep; [rstep; apply obuf_refl|]. rstep. rstep. rstep. rstep. rstep. eapply runs_self; [exact Hs|].
  rstep; [rstep; apply obuf_refl|]. rstep. apply (runs_mono _ _ (λ _ w', w' = w)).
  - unfold nbma_busy. destruct (nb_nbr b) as [p|]; [|by rstep]. destruct (N1 p eq_refl) as (_ & n & Hn & _).
    rstep. eapply runs_nbr; [done|]. by rstep.
  - intros busy w1 ->. rstep; [rstep; apply obuf_refl|]. rstep; [rstep; apply obuf_refl|]. rstep; [rstep; apply obuf_refl|].
    by apply hello_sub_runs.
Qed.

Lemma poll_timer_fires X w q b :
  inv E X w → w_nbma w !! q = Some b → nb_t_poll b = true → runs (ospf_poll_timer E q) w (λ _ w', inv E X w').
Proof.
  intros HI Hq Ht. pose proof HI as (_ & HC & _). pose proof HC as (_ & _ & _ & C4 & _). destruct (C4 q b Hq) as (_ & N2 & _).
  assert (nb_oi b = true) as Ho by (apply N2; by right). unfold ospf_poll_timer. rstep. eapply runs_upd_nbma; [exact Hq|].
  pose proof (inv_poll X w q b false HI Hq Ho) as HI1. set (w1 := w <| w_nbma := _ |>) in *. pose proof HI1 as (_ & HC1 & _).
  set (b1 := b <| nb_t_poll := false |>) in *. assert (w_nbma w1 !! q = Some b1) as Hq1 by (cbn; apply lookup_insert_eq).
  assert (nb_oi b1 = true) as Ho1 by exact Ho. clearbody w1 b1.
  rstep. eapply runs_mono; [by eapply poll_send_runs|]. intros [] w2 [o ->]. rstep. eapply runs_nbma; [exact Hq1|].
  assert (inv E X (w1 <| w_obuf := o |>)) as HI2 by (eapply obuf_inv; [by eexists|done]). rstep; [|by rstep].
  eapply runs_upd_nbma; [exact Hq1|]. by apply inv_poll.
Qed.

(** ** The event loop *)

Lemma pop_plain w e es :
  core E w → w_events w = e :: es → plain_event e = true → core E (w <| w_events := es |>).
Proof.
  intros (C1 & C2 & C3 & C4 & C5 & C6 & (U1 & U2 & U3)) Hes Hpl.
  assert (∀ p, req_events p es = req_events p (w_events w)) as Hr by (intros p; rewrite Hes; by destruct e).
  assert (upd_events es = upd_events (w_events w)) as Hu by (rewrite Hes; by destruct e).
  split_and!; try done.
  - intros p n Hp. destruct (C1 p n Hp) as (L1 & L2 & L3). split_and!; [done|done|]. cbn. by rewrite Hr.
  - intros e' He'. apply (C6 e'). rewrite Hes. by apply elem_of_cons; right.
  - split_and!; [done|done|]. cbn. by rewrite Hu.
Qed.

Lemma thread_call_runs X w : inv E X w → mtu_ok E → runs (thread_call E) w (λ _ w', inv E X w').
Proof.
  intros HI Hmtu. unfold thread_call, runs. destruct (w_events w) as [|e es] eqn:Hes; [done|].
  pose proof HI as (HL & HC & Hs & Hf & HM & HW). pose proof HC as (_ & _ & _ & _ & _ & C6 & _).
  assert (event_ok w e) as He by (apply C6; rewrite Hes; by apply elem_of_cons; left).
  change (runs (run_event E e) (w <| w_events := es |>) (λ _ w', inv E X w')).
  assert (∀ e', e' ∈ w_events w → e' ≠ e → e' ∈ es) as Hin.
  { intros e'. rewrite Hes. intros [->|]%elem_of_cons Hne; done. }
  destruct e as [i|p i|p|]; cbn [run_event].
  - eapply runs_mono; [apply (ism_execute E X _ i)|by intros [] w' [? _]]; [|exact He].
    split_and!; [exact HL|by eapply pop_plain| |exact Hf|exact HM|].
    + intros p n Hp Hps. destruct (Hs p n Hp Hps) as [L W]. split; [done|]. intros Hi. destruct (W Hi) as [|Hev]; [by left|right]. by apply Hin.
    + intros Hi Hx. destruct (HW Hx) as [|Hev]; [by left|right]. apply Hin; [done|congruence].
  - destruct He as (Hps & [n Hn] & Hi). eapply runs_mono; [apply (nsm_inv E 0 X _ p n i)|by intros [] w' [? _]]; [..|exact Hi].
    + split_and!; [exact HL|by eapply pop_plain|exact HM|]. intros Hx. destruct (HW Hx) as [|Hev]; [by left|right]. by apply Hin.
    + exact Hf.
    + intros r m Hm Hr. destruct (Hs r m Hm Hr) as [L W]. split; [done|]. intros Hc Hst. destruct (W Hst) as [|Hev]; [by left|right].
      apply Hin; [done|]. intros [= -> <-]. destruct Hc as [Hc|Hc]; [done|]. unfold NSM_InactivityTimer, NSM_KillNbr in Hc. lia.
    + exact Hn.
    + exact Hps.
  - by apply req_event_runs.
  - eapply runs_mono; [by apply upd_event_runs|]. by intros [] w' (? & _).
Qed.

Lemma if_up_runs X w : inv E X w → runs ospf_if_up w (λ _ w', inv E X w').
Proof.
  intros HI. unfold ospf_if_up. rstep. rstep. rstep; [by eapply schedule_runs|]. rstep. rstep.
  eapply (schedule_runs E X); [|done|done|by intros]. eapply obuf_inv; [by eexists|done].
Qed.

Lemma if_down_runs X w : inv E X w → runs (ospf_if_down E) w (λ _ w', inv E X w' ∧ is_down w' ∧ w_obuf w' = None).
Proof.
  intros HI. unfold ospf_if_down. rstep. pose proof HI as (HL & HC & Hs & Hf & HM & HW).
  eapply runs_mono; [by apply (ism_execute E X w ISM_InterfaceDown)|]. intros [] w1 [HI1 Hd]. rstep.
  split_and!; [eapply obuf_inv; [by eexists|done]|exact (Hd eq_refl)|done].
Qed.

End Run.
