(* ===== verification/OspfAdjSafe.v ===== *)
(** * OSPF: what holds in every state of an interface

    The operations that the daemon runs on an interface (timers, packets, events and the commands that take it up and down),
    the states that are reached by them from the creation of the interface, and the theorems about
    these states: no operation faults, each neighbour has the lists and timers of its state, and an interface that is taken down is left
    without neighbours.  The rest of the daemon (flooding, origination, the database) may change the LSAs between the
    operations as long as it keeps their reference counts right. *)

From stdpp Require Import gmap.
From S2P Require Import Prelude Fault OspfTable OspfLsa OspfVertex OspfLsaProps OspfNbr OspfAdj OspfElect OspfAdjMem OspfAdjRefs OspfAdjInv OspfAdjIsm OspfAdjNsm OspfAdjIf OspfAdjRecv OspfAdjRun.

Section Create.
Context {RT : Type → Type} `{RouteTable RT}.
Context (E : adj_env).

(** ** Creation (ospf_interface.c, ospfd.c) *)

(** The structure filled with zeros, in an instance with these LSAs, databases, configured neighbours and counters. *)
Definition if_calloc (lsas : lheap) (area as_ : ospf_lsdb RT) (nbma : gmap nat ospf_nbr_nbma) (nbr_nbma : RT nat)
    (area_full act : Z) (vls : option Z) : ospf_world RT :=
  mk_world lsas area as_ ∅ nbma nbr_nbma [] 0 0 rt_init 0 0 area_full act vls 0 0 0 false false false None [] rt_init false None [] [].

Definition ospf_if_new : fsM (ospf_world RT) unit :=
  modify (λ w, w <| w_nbrs := rt_init |> <| w_if_nbma := [] |> <| w_ls_ack := [] |>);;
  ospf_if_reset_variables E;;
  p ← ospf_nbr_new E;
  modify (λ w, w <| w_nbr_self := p |> <| w_ls_upd_queue := rt_init |> <| w_t_ls_upd_event := false |> <| w_crypt_seqnum := u32 (e_time E) |>).

(** [type] is the configured type; [up]: the router id is known and the interface is operative. *)
Definition ospf_network_run_interface (type : Z) (up : bool) : fsM (ospf_world RT) unit :=
  ospf_if_new;;
  ospf_nbr_add_self E;;
  modify (λ w, w <| w_type := type |>);;
  if up then ospf_if_up else mret tt.

Definition ospf_vl_new : fsM (ospf_world RT) unit :=
  ospf_if_new;;
  modify (λ w, w <| w_type := OSPF_IFTYPE_VIRTUALLINK |>);;
  ospf_nbr_add_self E;;
  modify (λ w, w <| w_obuf := match w_obuf w with Some q => Some q | None => Some [] end |>).

(** ** Operations *)

Inductive adj_op :=
  | O_thread
  | O_hello
  | O_wait
  | O_inactivity (p : nat)
  | O_db_desc (p : nat)
  | O_hello_reply (p : nat)
  | O_ls_req (p : nat)
  | O_poll (q : nat)
  | O_check_loading (p : nat)
  | O_recv_hello (src router_id : Z) (crypt : option Z) (hello : ospf_hello)
  | O_recv_db_desc (src router_id : Z) (dd : ospf_db_desc)
  | O_recv_ls_req (src router_id : Z) (ks : list lsa_key)
  | O_if_up
  | O_if_down
  | O_write.

Definition run_op (o : adj_op) : fsM (ospf_world RT) unit :=
  match o with
  | O_thread => thread_call E
  | O_hello => ospf_hello_timer E
  | O_wait => ospf_wait_timer
  | O_inactivity p => ospf_inactivity_timer p
  | O_db_desc p => ospf_db_desc_timer p
  | O_hello_reply p => ospf_hello_reply_timer E p
  | O_ls_req p => ospf_ls_req_timer E p
  | O_poll q => ospf_poll_timer E q
  | O_check_loading p => ospf_check_nbr_loading p
  | O_recv_hello src router_id crypt hello => ospf_hello_recv E src router_id crypt hello
  | O_recv_db_desc src router_id dd => ospf_db_desc_recv E src router_id dd
  | O_recv_ls_req src router_id ks => ospf_ls_req_recv E src router_id ks
  | O_if_up => ospf_if_up
  | O_if_down => ospf_if_down E
  | O_write => modify (λ w, w <| w_obuf := tail <$> w_obuf w |>)
  end.

(** Timers run when they are set, and packets come from other routers; a description does not fill the memory. *)
Definition enabled (o : adj_op) (w : ospf_world RT) : Prop :=
  match o with
  | O_hello => w_t_hello w = true
  | O_wait => w_t_wait w = true
  | O_inactivity p => ∃ n, w_nbr w !! p = Some n ∧ n_t_inactivity n = true
  | O_db_desc p => ∃ n, w_nbr w !! p = Some n ∧ n_t_db_desc n = true
  | O_hello_reply p => ∃ n, w_nbr w !! p = Some n ∧ n_t_hello_reply n = true
  | O_ls_req p => ∃ n, w_nbr w !! p = Some n ∧ n_t_ls_req n = T_timer
  | O_poll q => ∃ b, w_nbma w !! q = Some b ∧ nb_t_poll b = true
  | O_check_loading p => ∃ n, w_nbr w !! p = Some n ∧ n_router_id n ≠ e_router_id E
  | O_recv_hello src _ _ _ => src ≠ e_address E
  | O_recv_db_desc src router_id dd =>
      foreign E (w_type w) src router_id ∧ Z.of_nat (size (w_lsas w)) + Z.of_nat (length (dd_headers dd)) < 2 ^ 64
  | O_recv_ls_req src router_id _ => foreign E (w_type w) src router_id
  | O_thread | O_if_up | O_if_down | O_write => True
  end.

End Create.

(** The time is another one at each operation. *)
Definition at_time (E : adj_env) (now : timeval) (time : Z) : adj_env :=
  mk_adj_env now time (e_router_id E) (e_address E) (e_prefixlen E) (e_priority E) (e_v_wait E) (e_v_hello E) (e_fast_hello E) (e_mtu E)
    (e_mtu_ignore E) (e_authspace E) (e_transmit_delay E) (e_passive E) (e_external_routing E) (e_vl_data E) (e_vl_peer_addr E)
    (e_ip_masklen E) (e_masklen2ip E) (e_prefix_match E).

Section Ops.
Context {RT : Type → Type} `{RouteTableLaws RT}.
Context (E : adj_env).

Implicit Types w v : ospf_world RT.
Implicit Types n s m : ospf_neighbor RT.
Implicit Types b : ospf_nbr_nbma.

(** Configured neighbours that are not used yet. *)
Definition unused (nbma : gmap nat ospf_nbr_nbma) (tab : RT nat) : Prop :=
  (∀ q b, nbma !! q = Some b → nb_oi b = false ∧ nb_nbr b = None ∧ nb_t_poll b = false) ∧
  (∀ k q, rt_info k tab = Some q → ∃ b, nbma !! q = Some b ∧ nb_addr b = k).

(** ** Every operation keeps the invariant *)

Lemma not_self w p n : core E w → w_nbr w !! p = Some n →
  n_t_inactivity n = true ∨ n_t_db_desc n = true ∨ n_t_hello_reply n = true ∨ n_t_ls_req n = T_timer ∨ n_router_id n ≠ e_router_id E →
  p ≠ w_nbr_self w.
Proof.
  intros (_ & _ & (s & Hs & (O1 & _ & _ & _ & _ & _ & O2 & _ & O3 & O4 & O5)) & _) Hn Hc ->. assert (n = s) as -> by congruence.
  destruct Hc as [|[|[|[|]]]]; congruence.
Qed.

Lemma op_runs X w o : inv E X w → mtu_ok E → enabled E o w → runs (run_op E o) w (λ _ w', inv E X w').
Proof.
  intros HI Hm He. pose proof HI as (_ & HC & _). destruct o; cbn [run_op enabled] in *.
  - by apply thread_call_runs.
  - by apply hello_timer_runs.
  - by apply wait_timer_runs.
  - destruct He as (n & Hn & Ht). eapply inactivity_runs; [done|done|]. eapply not_self; [done|done|by left].
  - destruct He as (n & Hn & Ht). eapply db_desc_timer_runs; [done|done| |done]. eapply not_self; [done|done|by right; left].
  - destruct He as (n & Hn & Ht). eapply hello_reply_runs; [done|done|]. eapply not_self; [done|done|by right; right; left].
  - destruct He as (n & Hn & Ht). eapply req_timer_fires; [done|done| |done]. eapply not_self; [done|done|by right; right; right; left].
  - destruct He as (b & Hb & Ht). by eapply poll_timer_fires.
  - destruct He as (n & Hn & Ht). eapply check_loading_runs; [done|done|]. eapply not_self; [done|done|by right; right; right; right].
  - by apply hello_recv_runs.
  - destruct He. by apply db_desc_recv_runs.
  - by apply ls_req_recv_runs.
  - by apply if_up_runs.
  - eapply runs_mono; [by apply if_down_runs|]. by intros [] w' [? _].
  - rstep. eapply obuf_inv; [by eexists|done].
Qed.

(** ** The new interface *)

(** An interface with its pseudo neighbour only, down. *)
Definition fresh_if X (p : nat) w : Prop :=
  lsas_ok E X w ∧ w_nbr_self w = p ∧ w_if_nbma w = [] ∧ unused (w_nbma w) (w_nbr_nbma w) ∧ w_events w = [] ∧
  (∀ k, rt_info k (w_ls_upd_queue w) = None) ∧ w_t_ls_upd_event w = false ∧ w_full_nbrs w = 0 ∧
  w_state w = ISM_Down ∧ w_t_hello w = false ∧ w_t_wait w = false.

Lemma if_new_runs X lsas area as_ nbma tab full act vls :
  lsas_ok E X (if_calloc lsas area as_ nbma tab full act vls) → unused nbma tab →
  runs (ospf_if_new E) (if_calloc lsas area as_ nbma tab full act vls) (λ _ w, ∃ p, fresh_if X p w ∧ w_nbr w = {[p := new_nbr E]} ∧
    (∀ k, rt_info k (w_nbrs w) = None) ∧ (e_vl_data E = false → w_type w = OSPF_IFTYPE_BROADCAST)).
Proof.
  intros HL Hun. unfold ospf_if_new, ospf_if_reset_variables. rstep. rstep. rstep. rstep. rstep. apply nbr_new_runs. intros p Hp. rstep. exists p.
  split_and!.
  - split_and!; try done; [|intros k; apply rt_info_init]. by apply (lsas_ok_new E X) with (p := p) (n := new_nbr E) in HL.
  - cbn. apply insert_empty.
  - intros k. apply rt_info_init.
  - intros Hv. cbn. by rewrite Hv.
Qed.

Lemma fresh_inv X p w s :
  fresh_if X p w → w_nbr w = {[p := s]} → self_ok E s →
  (∀ k r, rt_info k (w_nbrs w) = Some r ↔ r = p ∧ k = ospf_nbr_key (w_type w) s) → inv E X w.
Proof.
  intros (F1 & F2 & F3 & F4 & F5 & F6 & F7 & F8 & F9 & F10 & F11) Hn Hok Ht. destruct F4 as [G1 G2].
  assert (core E w) as HC.
  { apply (core_single E w p s); try done.
    - intros q b Hb. destruct (G1 q b Hb) as (A1 & A2 & A3). rewrite A1, A3, F3. split_and!; [done|done|]. split; [done|by intros ?%elem_of_nil].
    - split_and!; [rewrite F3; by apply list.NoDup_nil|rewrite F3; by intros q ?%elem_of_nil|exact G2].
    - rewrite F5. by intros e ?%elem_of_nil. }
  split_and!; [done|done| | | |].
  - intros r m. rewrite Hn, F2. by intros [-> _]%lookup_singleton_Some.
  - unfold full_ok. rewrite F8, Hn, full_count_single; [done|]. destruct Hok as (_ & _ & _ & _ & -> & _). done.
  - split; [by rewrite F9|split].
    + unfold timers_ok. rewrite F9, F10, F11. by split_and!.
    + unfold role_ok. rewrite F9. by intros [].
  - unfold wait_ends. by rewrite F9.
Qed.

Lemma run_interface_runs X lsas area as_ nbma tab full act vls type up :
  lsas_ok E X (if_calloc lsas area as_ nbma tab full act vls) → unused nbma tab → type ≠ OSPF_IFTYPE_VIRTUALLINK → e_vl_data E = false →
  runs (ospf_network_run_interface E type up) (if_calloc lsas area as_ nbma tab full act vls) (λ _ w, inv E X w).
Proof.
  intros HL Hun Hty Hvl. unfold ospf_network_run_interface. rstep. eapply runs_mono; [by apply (if_new_runs X)|].
  intros [] w (p & HF & Hn & Ht & Hb). specialize (Hb Hvl). pose proof HF as (F1 & F2 & F3 & F4 & F5 & F6 & F7 & F8 & F9 & F10 & F11).
  rstep. eapply runs_mono; [apply (add_self_runs E X w p (new_nbr E)); [done|done|done|by exists 0|done]|].
  intros [] w1 (s & t & -> & HL1 & Hok & Ht1). rstep. rstep.
  assert (∀ ty, ty ≠ OSPF_IFTYPE_VIRTUALLINK → ospf_nbr_key ty s = n_src s) as Hkey
    by (intros ty Hne; unfold ospf_nbr_key; by destruct (Z.eqb_spec ty OSPF_IFTYPE_VIRTUALLINK)).
  set (w2 := _ <| w_type := type |>).
  assert (inv E X w2) as HI.
  { apply (fresh_inv X p w2 s); [by split_and!|done|done|]. intros k r. cbn. rewrite Ht1, Hb, !Hkey by done. done. }
  destruct up; [by apply if_up_runs|by rstep].
Qed.

Lemma vl_new_runs X lsas area as_ nbma tab full act vls :
  lsas_ok E X (if_calloc lsas area as_ nbma tab full act vls) → unused nbma tab →
  runs (ospf_vl_new E) (if_calloc lsas area as_ nbma tab full act vls) (λ _ w, inv E X w).
Proof.
  intros HL Hun. unfold ospf_vl_new. rstep. eapply runs_mono; [by apply (if_new_runs X)|].
  intros [] w (p & HF & Hn & Ht & _). pose proof HF as (F1 & F2 & F3 & F4 & F5 & F6 & F7 & F8 & F9 & F10 & F11).
  rstep. rstep. rstep.
  eapply runs_mono; [apply (add_self_runs E X _ p (new_nbr E)); [exact F1|exact Hn|exact F2|by exists 0|exact Ht]|].
  intros [] w1 (s & t & -> & HL1 & Hok & Ht1). rstep.
  match goal with |- inv _ _ (?v <| w_obuf := ?q |>) => assert (inv E X v) as HI; [|eapply obuf_inv; [by exists q|done]] end.
  apply (fresh_inv X p _ s); [by split_and!|done|done|]. exact Ht1.
Qed.

End Ops.

(** ** Reachable states *)

Section Safe.
Context {RT : Type → Type} `{RouteTableLaws RT}.
Context (E : adj_env).

Implicit Types w v : ospf_world RT.
Implicit Types n s m : ospf_neighbor RT.

(** The states of an interface. [X] counts the references of the rest of the daemon to the LSAs. *)
Inductive reachable : (nat → Z) → ospf_world RT → Prop :=
  | reach_new X lsas area as_ nbma tab full act vls type up w :
      lsas_ok E X (if_calloc lsas area as_ nbma tab full act vls) → unused nbma tab →
      type ≠ OSPF_IFTYPE_VIRTUALLINK → e_vl_data E = false →
      ospf_network_run_interface E type up (if_calloc lsas area as_ nbma tab full act vls) = Some (tt, w) → reachable X w
  | reach_vl X lsas area as_ nbma tab full act vls w :
      lsas_ok E X (if_calloc lsas area as_ nbma tab full act vls) → unused nbma tab →
      ospf_vl_new E (if_calloc lsas area as_ nbma tab full act vls) = Some (tt, w) → reachable X w
  | reach_op X w o now time w' :
      reachable X w → enabled E o w → run_op (at_time E now time) o w = Some (tt, w') → reachable X w'
  | reach_rest X X' w w' :
      reachable X w → lsas_ok E X' w' → nbr_view w' = nbr_view w → ism_view w' = ism_view w → w_full_nbrs w' = w_full_nbrs w →
      reachable X' w'.

Lemma inv_rest X X' w w' :
  inv E X w → lsas_ok E X' w' → nbr_view w' = nbr_view w → ism_view w' = ism_view w → w_full_nbrs w' = w_full_nbrs w → inv E X' w'.
Proof.
  intros (HL0 & HC & I3 & I4 & (I5 & I6 & I7) & I8) HL Hv Hi Hf. unfold nbr_view, ism_view in *. split; [exact HL|].
  destruct w, w'; cbn in *. simplify_eq. split_and!; [exact HC|exact I3|exact I4| |exact I8]. split; [exact I5|split; [exact I6|exact I7]].
Qed.

Lemma adj_reachable_inv X w : mtu_ok E → reachable X w → inv E X w.
Proof.
  intros Hm HR. induction HR as [X lsas area as_ nbma tab full act vls type up w HL Hun Hty Hvl Hr|X lsas area as_ nbma tab full act vls w HL Hun Hr
    |X w o now time w' HR IH He Hr|X X' w w' HR IH HL Hv Hi Hf].
  - exact (runs_inv _ _ _ _ _ (run_interface_runs E X lsas area as_ nbma tab full act vls type up HL Hun Hty Hvl) Hr).
  - exact (runs_inv _ _ _ _ _ (vl_new_runs E X lsas area as_ nbma tab full act vls HL Hun) Hr).
  - exact (runs_inv _ _ _ _ _ (op_runs (at_time E now time) X w o IH Hm He) Hr).
  - by apply (inv_rest X X' w).
Qed.


(** C33: Neighbours and the interface are always as their state says. Each neighbour has its lists empty up to ExStart and no request is
    outstanding up to Exchange; from ExStart on there is a description that can be sent again, and its timer is set in ExStart, and in
    Exchange for the master, and in no other state; a neighbour that has been heard of has its
    inactivity timer set or the event of the timer in the queue; the counter of the full adjacencies is the number of
    neighbours in the state Full; the Hello timer runs from Waiting on, the wait timer only in Waiting, and an interface that waits has its
    wait timer set or the event in the queue; an interface is DR or Backup only if it has elected itself. *)
Theorem adj_states_ok X w : mtu_ok E → reachable X w → states w ∧ full_ok w ∧ timers_ok w ∧ wait_ends w ∧ role_ok E w.
Proof. intros Hm HR. destruct (adj_reachable_inv X w Hm HR) as (_ & _ & Hs & Hf & (_ & Ht & Hr) & Hw). by split_and!. Qed.

(** C36: The references to LSAs are counted. In every state that an interface reaches, the count of each LSA is the number of references to it from
    the databases, the lists of the neighbours, the acknowledgements, the update queue, the network-LSA of the interface and the
    rest of the daemon, and one more unless it has been discarded; an LSA that is referenced has not been freed. *)
Theorem adj_lsas_counted X w :
  mtu_ok E → reachable X w →
  (∀ q l, w_lsas w !! q = Some l → l_lock l = bit (negb (discarded l)) + X q + cnt q (w_refs w) ∧ 0 < l_lock l) ∧
  (∀ q, q ∈ w_refs w → is_Some (w_lsas w !! q)).
Proof.
  intros Hm HR. destruct (adj_reachable_inv X w Hm HR) as (HL & _). split; [|intros q; by apply (lsas_alive E X)].
  intros q l Hl. destruct HL as ((Hh & _) & _). destruct (Hh q l Hl) as (A1 & A2 & _). split; [lia|done].
Qed.

(** C35: Taking an interface down cleans it up. From every state that is reached, [ospf_if_down] runs to its end and leaves the interface in the state
    Down with its timers off, without any neighbour but the pseudo neighbour (which references no LSA), with an empty update queue, no full
    adjacency and no output queue. *)
Theorem if_down_spec X w now time :
  mtu_ok E → reachable X w → ∃ w', ospf_if_down (at_time E now time) w = Some (tt, w') ∧ is_down w' ∧ w_obuf w' = None.
Proof.
  intros Hm HR. pose proof (adj_reachable_inv X w Hm HR) as HI.
  destruct (proj1 (runs_some _ _ _) (if_down_runs (at_time E now time) X w HI)) as ([] & w' & Hr & _ & Hd & Ho). by exists w'.
Qed.

(** ** Runs *)

#[local] Instance on_some_dec {A} (o : option A) (P : A → Prop) `{∀ a, Decision (P a)} : Decision (∃ a, o = Some a ∧ P a).
Proof.
  refine (match o with
          | Some a => match decide (P a) with left Ha => left (ex_intro _ a (conj eq_refl Ha)) | right Ha => right _ end
          | None => right _
          end); [|by intros (a & ? & _)].
  intros (a' & [= <-] & Ha'). done.
Defined.

#[local] Instance enabled_dec o w : Decision (enabled E o w).
Proof.
  destruct o; cbn [enabled]; try apply _; unfold foreign; destruct (w_type w =? OSPF_IFTYPE_VIRTUALLINK); apply _.
Defined.

(** The operations one after the other, if they can run. *)
Fixpoint run_all (os : list adj_op) w : option (ospf_world RT) :=
  match os with
  | [] => Some w
  | o :: os => if decide (enabled E o w) then r ← run_op E o w; run_all os r.2 else None
  end.

Lemma run_all_reachable X os w w' : reachable X w → run_all os w = Some w' → reachable X w'.
Proof.
  revert w. induction os as [|o os IH]; intros w HR; cbn [run_all]; [by intros [= <-]|].
  case_decide as He; [|done]. destruct (run_op E o w) as [[[] w1]|] eqn:Er; [|done]. cbn. intros Hr. apply (IH w1); [|done].
  eapply (reach_op X w o (e_now E) (e_time E)); [done|done|]. by destruct E.
Qed.

End Safe.

(** ** An example: two routers on a broadcast network *)

Module AdjExample.

Definition env := ElectExample.env.
(** The database has the router-LSA of router 1. *)
Definition lsa1 : ospf_lsa := mk_lsa OSPF_LSA_SELF (mk_lsah 1 OSPF_OPTION_E OSPF_ROUTER_LSA 1 1 0x80000001 0x1234 36) [0; 0; 0; 1] ElectExample.tv0 ElectExample.tv0 1 0 0 (-1).
Definition stored : ospf_lsdb (gmap Z) * lheap := default (ospf_lsdb_new, ∅) (ospf_lsdb_add ospf_lsdb_new 0%nat {[0%nat := lsa1]}).
Definition blank : ospf_world (gmap Z) := if_calloc stored.2 stored.1 ospf_lsdb_new ∅ ∅ 0 0 None.
Definition hello : ospf_hello := mk_hello 24 10 OSPF_OPTION_E 1 40 0 0 [1].
Definition peer : Z := 0x0a000002.

Definition created : ospf_world (gmap Z) :=
  default blank (snd <$> ospf_network_run_interface env OSPF_IFTYPE_BROADCAST true blank).

(** The adjacency with router 2 is formed. *)
Definition to_full : list adj_op :=
  [O_thread; O_recv_hello peer 2 None hello; O_thread; O_thread; O_thread; O_thread; O_wait; O_thread; O_thread;
   O_recv_db_desc peer 2 (mk_dd 1500 OSPF_OPTION_E OSPF_DD_FLAG_ALL 7 [] 0);
   O_recv_db_desc peer 2 (mk_dd 1500 OSPF_OPTION_E OSPF_DD_FLAG_MS 8 [] 0);
   O_thread; O_thread; O_thread].

Definition full : ospf_world (gmap Z) := default created (run_all env to_full created).

Lemma blank_lsas : lsas_ok env (λ _, 0) blank.
Proof.
  destruct (lsdb_add_ok {[0%nat := lsa1]} (λ _, 0) (ospf_lsdb_new : ospf_lsdb (gmap Z)) 0%nat lsa1 1%nat) as (db & h & Hadd & (Hh & Hdb & Hst & Hd & _) & _);
    [apply new_db_ok| |intros q; by rewrite new_db_entries|by rewrite lookup_singleton_eq|done|lia|].
  { split; [|by intros p]. intros p l [<- <-]%lookup_singleton_Some. done. }
  assert (∀ q l, h !! q = Some l → upd_fits env l) as Hfit.
  { intros q l Hl. destruct (Hd q) as [l0 Hl0]; [by eexists|]. destruct (Hst q l0 l Hl0 Hl) as (Hdata & _).
    apply lookup_singleton_Some in Hl0 as [<- <-]. unfold upd_fits. by rewrite Hdata. }
  assert (size h ≤ 1)%nat as Hsz by (rewrite <- (map_size_singleton (M := gmap nat) 0%nat lsa1); by apply size_mono).
  unfold blank, stored. rewrite Hadd. cbn [default fst snd id].
  split; [|split_and!; [done|done|apply new_db_ok|done| |cbn; lia]].
  - eapply heap_ok_ext; [|exact Hh]. intros q. cbv beta. unfold w_refs, top_refs. rewrite !cnt_app.
    cbn [w_area_lsdb w_as_lsdb if_calloc]. rewrite new_db_entries.
    change (cnt q (queue_refs _)) with 0. change (cnt q (if_refs _)) with 0. change (cnt q (nbrs_refs _)) with 0. change (cnt q []) with 0. cbn [id fst snd]. lia.
  - intros q l _ Hl. by apply (Hfit q).
Qed.

Lemma created_reachable : reachable env (λ _, 0) created.
Proof.
  eapply (reach_new env (λ _, 0) stored.2 stored.1 ospf_lsdb_new ∅ ∅ 0 0 None OSPF_IFTYPE_BROADCAST true);
    [exact blank_lsas|by split|done|done|vm_compute; reflexivity].
Qed.

Lemma full_reachable : reachable env (λ _, 0) full.
Proof. eapply (run_all_reachable env _ to_full created); [exact created_reachable|vm_compute; reflexivity]. Qed.

(** One neighbour is Full. *)
Example full_adjacency : (w_state full, w_full_nbrs full, n_state <$> w_nbr full !! 1%nat) = (ISM_DROther, 1, Some NSM_Full).
Proof. vm_compute. reflexivity. Qed.

Lemma env_mtu : mtu_ok env.
Proof. done. Qed.


Lemma adj_states_ok_witness : states full ∧ full_ok full ∧ timers_ok full ∧ wait_ends full ∧ role_ok env full.
Proof. exact (adj_states_ok env (λ _, 0) full env_mtu full_reachable). Defined.

Lemma adj_lsas_counted_witness :
  (∀ q l, w_lsas full !! q = Some l → l_lock l = bit (negb (discarded l)) + 0 + cnt q (w_refs full) ∧ 0 < l_lock l) ∧
  (∀ q, q ∈ w_refs full → is_Some (w_lsas full !! q)).
Proof. exact (adj_lsas_counted env (λ _, 0) full env_mtu full_reachable). Defined.

Lemma if_down_spec_witness : ∃ w', ospf_if_down (at_time env (mk_tv 40 0) 1040) full = Some (tt, w') ∧ is_down w' ∧ w_obuf w' = None.
Proof. exact (if_down_spec env (λ _, 0) full (mk_tv 40 0) 1040 env_mtu full_reachable). Defined.

End AdjExample.
