(* ===== verification/OspfAdjQueue.v ===== *)
(** * OSPF: the update queue of an interface is sent

    The runs of [ospf_ls_upd_send_queue_event] that follow each other until the queue is empty: every LSA that has been queued is sent
    once, in the order of the queue of its destination. *)

From stdpp Require Import gmap.
From S2P Require Import Prelude Fault OspfTable OspfLsa OspfVertex OspfLsaProps OspfNbr OspfAdj OspfElect OspfAdjMem OspfAdjRefs OspfAdjInv OspfAdjIsm OspfAdjNsm OspfAdjIf OspfAdjRecv OspfAdjRun OspfAdjSafe.

Section Queue.
Context {RT : Type → Type} `{RouteTableLaws RT}.
Context (E : adj_env).

Implicit Types w v : ospf_world RT.

(** The event loop, at these times. *)
Fixpoint rounds (ts : list (timeval * Z)) w : option (ospf_world RT) :=
  match ts with
  | [] => Some w
  | t :: ts => r ← thread_call (at_time E t.1 t.2) w; rounds ts r.2
  end.

(** A packet that has been sent: when, for which destination of the queue, and with which LSAs. *)
Definition log_entry : Type := (timeval * Z) * Z * list nat.
Definition log_packet w (x : log_entry) : ospf_packet := upd_packet (at_time E x.1.1.1 x.1.1.2) w x.1.2 x.2.
Definition sent_to (k : Z) (log : list log_entry) : list nat := concat (snd <$> filter (λ x, x.1.2 = k) log).

(** There is room for an LSA behind the headers. *)
Definition has_room : Prop := 0 ≤ e_mtu E - e_authspace E - (OSPF_HEADER_SIZE + IP_HEADER_SIZE).

Lemma sent_to_app k log log' : sent_to k (log ++ log') = sent_to k log ++ sent_to k log'.
Proof. unfold sent_to. by rewrite list.filter_app, fmap_app, concat_app. Qed.

Lemma sent_to_round k (t : timeval * Z) (f : Z → list nat) ks :
  NoDup ks → sent_to k ((λ j, (t, j, f j)) <$> ks) = if decide (k ∈ ks) then f k else [].
Proof.
  induction 1 as [|j ks Hj Hnd IH]; [by rewrite decide_False by apply not_elem_of_nil|].
  unfold sent_to, log_entry in *. rewrite fmap_cons. destruct (decide (j = k)) as [->|Hk].
  - rewrite filter_cons_True by done. rewrite decide_True by (by apply elem_of_cons; left). rewrite decide_False in IH by done.
    rewrite fmap_cons. cbn [concat snd]. by rewrite IH, app_nil_r.
  - rewrite filter_cons_False, IH by done. destruct (decide (k ∈ ks)); [rewrite decide_True by (by apply elem_of_cons; right); done|].
    rewrite decide_False; [done|]. by intros [->|]%elem_of_cons.
Qed.

Lemma log_packet_same w w' x :
  w_type w' = w_type w → stable (w_lsas w) (w_lsas w') → (∀ lp, lp ∈ x.2 → is_Some (w_lsas w !! lp) ∧ is_Some (w_lsas w' !! lp)) →
  log_packet w' x = log_packet w x.
Proof. intros Ht Hs Hl. unfold log_packet, upd_packet. rewrite Ht. do 2 f_equal. by apply upd_entries_stable. Qed.

Lemma queue_alive X w k l lp : lsas_ok E X w → rt_info k (w_ls_upd_queue w) = Some l → lp ∈ l → is_Some (w_lsas w !! lp).
Proof.
  intros HL Hk Hlp. apply (lsas_alive E X w); [done|]. unfold w_refs. apply elem_of_app. right. apply elem_of_app. left. by eapply queue_elem.
Qed.

Lemma sent_to_elem k x lp log : x ∈ log → x.1.2 = k → lp ∈ x.2 → lp ∈ sent_to k log.
Proof.
  intros Hx Hk Hlp. unfold sent_to. apply list_elem_of_In, in_concat. exists x.2. split; [|by apply list_elem_of_In].
  apply list_elem_of_In, list_elem_of_fmap. exists x. split; [done|]. by apply list_elem_of_filter.
Qed.

Lemma empty_queue X w : inv E X w → w_events w = [] → ∀ k, rt_info k (w_ls_upd_queue w) = None.
Proof.
  intros (_ & (_ & _ & _ & _ & _ & _ & (_ & U2 & U3)) & _) Hev k. destruct (rt_info k (w_ls_upd_queue w)) as [l|] eqn:Ek; [|done].
  rewrite (U2 k ltac:(rewrite Ek; by eexists)), Hev in U3. done.
Qed.

(** One round. *)
Lemma round_runs X w (t : timeval * Z) :
  mtu_ok E → inv E X w → w_events w = [Ev_ls_upd] →
  ∃ w' f, thread_call (at_time E t.1 t.2) w = Some (tt, w') ∧ inv E X w' ∧ upd_sent (at_time E t.1 t.2) w w' f ∧
    (w_events w' = [Ev_ls_upd] ∧ (∃ k l, rt_info k (w_ls_upd_queue w') = Some l) ∨ w_events w' = []).
Proof.
  intros Hm HI Hev. pose proof (upd_event_runs (at_time E t.1 t.2) X w [] HI Hm Hev) as Hr. apply runs_some in Hr as ([] & w' & Hr & HI' & [f Hf] & b & Hb & Hbb).
  exists w', f. split_and!; [|exact HI'|done|].
  - unfold thread_call. rewrite Hev. exact Hr.
  - destruct b; [left|by right]. split; [done|]. destruct (proj1 Hbb eq_refl) as (k & l & Hk). by exists k, l.
Qed.

Lemma rounds_drain X ts w :
  mtu_ok E → has_room → inv E X w → (w_events w = [Ev_ls_upd] ∧ ts ≠ [] ∨ w_events w = []) →
  (∀ k l, rt_info k (w_ls_upd_queue w) = Some l → (length l ≤ length ts)%nat) →
  ∃ w' log, rounds ts w = Some w' ∧ (∀ k, rt_info k (w_ls_upd_queue w') = None) ∧ w_events w' = [] ∧
    w_obuf w' = (λ q, q ++ (log_packet w <$> log)) <$> w_obuf w ∧
    ∀ k, sent_to k log = default [] (rt_info k (w_ls_upd_queue w)).
Proof.
  intros Hm Hroom. revert w. induction ts as [|t ts IH]; intros w HI Hev Hlen.
  - destruct Hev as [[_ []]|Hev]; [done|]. exists w, []. pose proof (empty_queue X w HI Hev) as Hq. split_and!; [done|done|done| |].
    + destruct (w_obuf w); [cbn; by rewrite app_nil_r|done].
    + intros k. by rewrite Hq.
  - destruct Hev as [[Hev _]|Hev].
    2:{ destruct (IH w HI) as (w' & log & Hr & Hrest); [by right|..].
        - intros k l. by rewrite (empty_queue X w HI Hev).
        - exists w', log. split; [|done]. cbn [rounds]. unfold thread_call. by rewrite Hev. }
    destruct (round_runs X w t Hm HI Hev) as (w1 & f & Hr1 & HI1 & Hsent & Hev1). pose proof Hsent as (Hob & Hq & Hty & Hms).
    destruct (IH w1 HI1) as (w2 & log & Hr2 & Hq2 & Hev2 & Hob2 & Hlog2).
    { destruct Hev1 as [[Hev1 (k & l & Hk)]|Hev1]; [left|by right]. split; [done|]. intros ->. specialize (Hq k).
      destruct (rt_info k (w_ls_upd_queue w)) as [l0|] eqn:El; [|congruence]. destruct Hq as (rest & -> & Ho & Hp). specialize (Hlen k _ El).
      rewrite Hk in Ho. specialize (Hp Hroom). rewrite length_app in Hlen. destruct (f k), rest; try done. cbn in Hlen. lia. }
    { intros k l Hk. specialize (Hq k). destruct (rt_info k (w_ls_upd_queue w)) as [l0|] eqn:El; [|congruence].
      destruct Hq as (rest & -> & Ho & Hp). specialize (Hlen k _ El). rewrite Hk in Ho. specialize (Hp Hroom). rewrite length_app in Hlen.
      destruct rest; [done|]. injection Ho as ->. destruct (f k); [done|]. cbn in Hlen |- *. lia. }
    exists w2, (((λ j, (t, j, f j)) <$> rt_walk (w_ls_upd_queue w)) ++ log). split_and!; [|done|done| |].
    + cbn [rounds]. by rewrite Hr1.
    + rewrite Hob2, Hob. destruct (w_obuf w) as [q|]; [|done]. cbn. f_equal. rewrite <- app_assoc, fmap_app. f_equal. f_equal.
      * by rewrite <- list_fmap_compose.
      * apply list_fmap_ext. intros i x Hx%list_elem_of_lookup_2. apply log_packet_same; [done|apply Hms|]. intros lp Hlp.
        apply (sent_to_elem x.1.2 x lp log Hx eq_refl) in Hlp. rewrite Hlog2 in Hlp.
        destruct (rt_info x.1.2 (w_ls_upd_queue w1)) as [l|] eqn:El; [|by apply elem_of_nil in Hlp].
        pose proof HI as (HL & _). pose proof HI1 as (HL1 & _). split; [|by eapply (queue_alive X w1)].
        specialize (Hq x.1.2). destruct (rt_info x.1.2 (w_ls_upd_queue w)) as [l0|] eqn:El0; [|congruence].
        eapply (queue_alive X w); [done|exact El0|]. destruct Hq as (rest & -> & Ho & _). rewrite El in Ho. apply elem_of_app. right.
        destruct rest; [done|]. by injection Ho as ->.
    + intros k. rewrite sent_to_app, sent_to_round by apply rt_walk_nodup. rewrite Hlog2. specialize (Hq k).
      destruct (rt_info k (w_ls_upd_queue w)) as [l|] eqn:El.
      * rewrite decide_True by (apply rt_walk_elem; by eexists). destruct Hq as (rest & -> & -> & _). cbn. f_equal. by destruct rest.
      * rewrite decide_False by (rewrite rt_walk_elem, El; by intros []). by rewrite Hq.
Qed.

(** C34: The update queue drains and nothing is lost. In any state that an interface reaches in which the event of the update queue is the only
    one, let the event loop run as many rounds as the longest list of the queue has LSAs, at whatever times: afterwards
    the queue and the events are empty, and to the output queue exactly such packets have been added that for each destination
    the LSAs in them, one packet after the other, are those that were queued for it, in the same order. *)
Theorem upd_queue_drains X w ts :
  mtu_ok E → has_room → reachable E X w → w_events w = [Ev_ls_upd] → ts ≠ [] →
  (∀ k l, rt_info k (w_ls_upd_queue w) = Some l → (length l ≤ length ts)%nat) →
  ∃ w' log, rounds ts w = Some w' ∧ (∀ k, rt_info k (w_ls_upd_queue w') = None) ∧ w_events w' = [] ∧
    w_obuf w' = (λ q, q ++ (log_packet w <$> log)) <$> w_obuf w ∧
    ∀ k, sent_to k log = default [] (rt_info k (w_ls_upd_queue w)).
Proof. intros Hm Hr HR Hev Hts Hlen. apply (rounds_drain X); [done|done|by apply adj_reachable_inv|by left|done]. Qed.

End Queue.

Module QueueExample.
Import AdjExample.

(** Router 2 requests the LSA. *)
Definition queued : ospf_world (gmap Z) := default full (run_all env [O_recv_ls_req peer 2 [(OSPF_ROUTER_LSA, 1, 1)]; O_thread] full).

Lemma queued_reachable : reachable env (λ _, 0) queued.
Proof.
  eapply (run_all_reachable env _ [O_recv_ls_req peer 2 [(OSPF_ROUTER_LSA, 1, 1)]; O_thread] full); [exact full_reachable|vm_compute; reflexivity].
Qed.

Lemma queued_lsa k : rt_info k (w_ls_upd_queue queued) = ({[OSPF_ALLDROUTERS := [0%nat]]} : gmap Z (list nat)) !! k.
Proof.
  assert (w_ls_upd_queue queued = {[OSPF_ALLDROUTERS := [0%nat]]}) as -> by (vm_compute; reflexivity). reflexivity.
Qed.

Lemma upd_queue_drains_witness : ∃ w' log, rounds env [(mk_tv 1 0, 1001)] queued = Some w' ∧ w_events w' = [] ∧
  w_obuf w' = (λ q, q ++ (log_packet env queued <$> log)) <$> w_obuf queued ∧ sent_to OSPF_ALLDROUTERS log = [0%nat].
Proof.
  destruct (upd_queue_drains env (λ _, 0) queued [(mk_tv 1 0, 1001)]) as (w' & log & H1 & _ & H2 & H3 & H4).
  - exact env_mtu.
  - done.
  - exact queued_reachable.
  - vm_compute. reflexivity.
  - done.
  - intros k l. rewrite queued_lsa. intros [_ <-]%lookup_singleton_Some. done.
  - exists w', log. split_and!; [done|done|done|]. by rewrite H4, queued_lsa, lookup_singleton_eq.
Defined.

End QueueExample.
