(* ===== verification/OspfAdjLimits.v ===== *)
(** * OSPF: LSAs that the theorems on adjacencies exclude

    Three inputs that break the functions of ospf/ospf_packet.c: Link State Requests for an LSA that is too long for a packet, and a
    Database Description with an instance of an LSA that is newer by its checksum. *)

From stdpp Require Import gmap.
From S2P Require Import Prelude Fault OspfTable OspfLsa OspfVertex OspfLsaProps OspfNbr OspfAdj OspfElect OspfAdjMem OspfAdjRefs OspfAdjSafe.
Import AdjExample.

(** The database has an LSA of this length, with this checksum. *)
Definition with_lsa (len sum : Z) : ospf_world (gmap Z) :=
  full <| w_lsas := alter (λ l, mk_lsa (l_flags l) (mk_lsah 1 OSPF_OPTION_E OSPF_ROUTER_LSA 1 1 0x80000001 sum len) (l_body l) (l_tv_recv l)
    (l_tv_orig l) (l_lock l) (l_stat l) (l_retransmit_counter l) (l_refresh_list l)) 0%nat (w_lsas full) |>.

(** A request for an LSA that does not fit into a packet with the headers, followed by one for an LSA that is not in the database: an empty list is
    queued, and the event that sends the queue takes the first LSA of it. *)
Example empty_update_faults :
  let w := default full (snd <$> run_op env (O_recv_ls_req peer 2 [(OSPF_ROUTER_LSA, 1, 1); (OSPF_ROUTER_LSA, 9, 9)]) (with_lsa 1440 0x1234)) in
  (rt_info OSPF_ALLDROUTERS (w_ls_upd_queue w), ospf_ls_upd_send_queue_event env w) = (Some [], None).
Proof. vm_compute. reflexivity. Qed.

(** The longest LSAs: no packet is allocated for the update, and the caller fills in its header all the same. *)
Example oversized_update_faults :
  let w := default full (snd <$> run_op env (O_recv_ls_req peer 2 [(OSPF_ROUTER_LSA, 1, 1)]) (with_lsa 65500 0x1234)) in
  (rt_info OSPF_ALLDROUTERS (w_ls_upd_queue w), ospf_ls_upd_send_queue_event env w) = (Some [0%nat], None).
Proof. vm_compute. reflexivity. Qed.

(** An instance with the same sequence number and a checksum that is larger by 5 is more recent, but it is not requested. *)
Example newer_not_requested :
  let h := mk_lsah 1 OSPF_OPTION_E OSPF_ROUTER_LSA 1 1 0x80000001 0x1239 36 in
  (verdict env full h, (λ r, (n_ls_req <$> w_nbr r.2 !! 1%nat)) <$> db_desc_header env 1 h full) =
  (-5, Some (Some (ospf_lsdb_new : ospf_lsdb (gmap Z)))).
Proof. vm_compute. reflexivity. Qed.
